(* ===== verification/_CoqProject ===== *)
-Q . S2P
Prelude.v
Effects.v
Dicts.v
Decimals.v
Floats.v
Errors.v
Periods.v
Units.v
Values.v
Formulas.v
Canonical.v
Nodes.v
Iteration.v
Graph.v
Plan.v
Rounding.v
Snapshot.v
Scenario.v
ScenarioEffect.v
Engine.v
Jacobi.v
Evaluation.v
Trace.v
Ratios.v
Isotonic.v
Pooling.v
Calibration.v
CalibrationReport.v
Fusion.v
FusionRanking.v
Text.v
Regex.v
IsoDates.v
Moments.v
Payload.v
Numeric.v
NumericReading.v
Normalize.v
NormalizeSound.v
NormalizeSettled.v
Ontology.v
Contract.v
Uuids.v
Schema.v
Citations.v
Accounting.v
Duplicates.v
Proposals.v
ProposalsSound.v
Identities.v
Redact.v
Messages.v
Budget.v
Runner.v
RunnerSound.v
Workflow.v
Stages.v
WorkflowRun.v
WorkflowResume.v
WorkflowExample.v
WorkflowSafety.v
WorkflowLive.v
Queue.v
QueueSafety.v
Discovery.v
Consumer.v
ConsumerSafe.v
Generation.v
Verification.v
Planner.v
Costs.v
RetrievalStore.v
RetrievalRun.v
RetrievalTrace.v
Json.v
Xbrl.v
CompanyFacts.v
CompanyFactsSound.v
FilingParser.v
Ingestion.v
