(* ===== verification/Prelude.v ===== *)
(** Verification of Financial Evidence Lab.

    The program is a Python monorepo that turns filings into evidence, evidence
    into typed financial models, and models into traceable results.  This
    library models its decision-making code, and proves what each part promises
    to the others.

    * Calculation engine (packages/calculation-engine)

    Python's [decimal] module, which everything is computed with, is [Decimals];
    a failing call is an [Err] of its exception ([Errors]).  Then, file by file
    of the package:
    - [Units], [Periods], [Values], [Formulas]: typed units, fiscal periods,
      quantities with lineage, and the bounded formula grammar;
    - [Canonical]: the typed canonical JSON whose SHA-256 names snapshots and
      results, both computed in full;
    - [Nodes], [Iteration], [Graph]: the node kinds, declared iteration groups and
      [ModelGraph.build]; [Plan] proves execution plans with groups, which are
      the cycles of the graph;
    - [Rounding]: reporting quanta;
    - [Snapshot]: content-addressed snapshots and the in-memory store;
    - [Scenario]: sparse override layers; [ScenarioEffect] proves that they take
      effect;
    - [Engine]: [evaluate], the iterative solver, validation checks and [trace];
      [Jacobi] proves the solver, [Evaluation] whole evaluations, [Trace] the
      provenance walk.
    They compose as in the code: [build] checks nodes and plans them, [derive]
    and [apply_scenario] build child snapshots, [evaluate] runs a snapshot's plan
    under a cutoff, [trace] walks its results back.  The theorems: formulas are
    total, type-sound and round trip through their text; graphs are built or
    rejected for the documented reason, whatever the order of the nodes;
    evaluation is total and well typed, never looks past its cutoff, and every
    result is the computation its node declares or a certified iterate.

    * Retrieval (packages/retrieval, apps/api)

    From a question to a trace, in the order a run goes:
    - planner.py: [Planner] validates a request into an immutable plan, with its
      intent, variants and budgets;
    - fusion.py: [Fusion] is the code, [FusionRanking] its theorems: dedupe keeps
      the best item of each provenance, the order is by reciprocal-rank score, and
      no thread schedule or dict order shows in the result;
    - generation.py: [Generation], the prompt, the closed claims schema, and that
      every proposed claim quotes selected evidence;
    - verification.py: [Verification], the numeric and lexical checks, and that a
      supported claim rests on evidence that supports it; it also has the text of
      doubles, which confidences are printed with;
    - apps/api/app: [RetrievalStore] is the run's tables of migration 0003 with
      their guards and the writer, [RetrievalRun] the pipeline with its
      transactions and its failure path, [RetrievalTrace] a specification of the
      trace and the proof that the run refines it.  A spend that the column
      [cost_usd] cannot hold fails the run and its failure alike, and leaves it
      queued.  [Costs] is the ledger of costs.py as a state machine, and that the
      ceilings hold of reserved amounts.
    [Uuids] is Python's [uuid] module, SHA-1 included.

    * Calibration (workers/src/fel_workers/extraction/isotonic.py)

    [Isotonic] is the code on arbitrary Python objects; [Pooling] proves that
    pooling adjacent violators is the isotonic least-squares fit, [Calibration]
    carries that through the decimal arithmetic of [fit] and [predict], and
    [CalibrationReport] does the evaluation report.  [Ratios] has the rounding
    lemmas this and the fusion step share.

    * Extraction (workers/src/fel_workers/extraction/)

    A run turns pinned evidence into proposals for review.  From the bottom up:
    - the language: [Effects] is code that mutates state and raises, with triples;
      [Floats], [Dicts], [Text], [Regex], [IsoDates], [Moments] are Python's floats,
      dicts, texts, regular expressions, dates and instants; [Payload] is a JSON
      value of dynamic type and what the code does with one;
    - normalize/: [Numeric] reads and writes amounts (with ranges.py), [Normalize]
      is the payload and its stage; [NumericReading], [NormalizeSound] and
      [NormalizeSettled] prove that every digit is read, that the amounts stay
      and that one pass settles a payload;
    - packages/ontology: [Ontology], its loader and its comparability keys;
    - validate/: [Contract] and [Schema] (the frozen payload contract),
      [Citations] (with definitions), [Accounting], [Duplicates], and the pipeline
      and conflicts in [Proposals]; [Identities] and [ProposalsSound] prove what a
      blocker, a conflict and a draft without blockers mean;
    - roles/, runner.py, budget.py, errors.py: [Messages] builds a prompt and has the
      schemas, [Budget] is the budget with what a run asks of its environment,
      [Runner] one bounded model step; [RunnerSound] proves that it
      refines a pure step of two attempts, and stays within its caps;
    - redact.py, events.py: [Redact];
    - the workflow: [Workflow] has requests, state, stores and events (types.py,
      persist_memory.py, checkpoint.py, workflow_context.py), [Stages] the stages
      and the codec of restored outputs, [WorkflowRun] workflow.py and
      workflow_checkpoint.py.  A run is a program on a [world]: the runtime that
      asks the environment, the run's own state, and the stores other workers share.
      The environment (lease, cancellation, clock, provider, and whether the process
      is killed) is a function of the number of questions asked, so a theorem over
      all environments is one over all interleavings with the other workers.
    The checkpoint store is an interface, [CheckpointStore], with its laws in
    [CheckpointLaws]; the in-memory store is an instance of both.  [WorkflowResume]
    proves against the interface that crash and resume are transparent ([Stages] has
    what a checkpoint restores), [WorkflowSafety] that a lost lease, a closed run
    and stored proposals are respected, [WorkflowLive] that a worker that keeps its
    lease brings the run to rest; [WorkflowExample] runs one that is killed.

    * Job queue and worker (workers/src/fel_workers/queue.py, consumer.py)

    [Queue] is each SQL statement as a function on the table of jobs;
    [QueueSafety] makes them the steps of a state machine, with every claim ever
    issued in the state, and proves lease fencing, bounded retries, finality of
    terminal rows and idempotent enqueues on all reachable states.  Backoff is
    computed in binary64.  [Consumer] is the loop that claims and dispatches, with
    its heartbeat, against any moves of other sessions; [ConsumerSafe] proves that
    the loop only takes steps of that machine, that a claim is settled at most
    once, that nothing a handler did is recorded once its lease is lost, and that a
    job and the run it was about agree as far as handlers report their runs.

    * Ingestion (workers/src/fel_workers/ingestion/)

    [Discovery] turns a submissions index into fetch jobs, one per filing.  A
    companyfacts payload becomes a document: [Json] is [json.loads] as the workers
    call it and the renderings they write, with a grammar of JSON texts that
    relates the two; [Xbrl] has the records of a parsed document (parser.py), the
    values and the normalization of facts (xbrl.py), and the reasons a document is
    quarantined for (errors.py); [CompanyFacts] is company_facts.py, whose builder
    records offsets while it writes.  [CompanyFactsSound] proves that the text
    denotes the payload, and that every fact cites the characters it came from.
    [FilingParser] is the handlers of the HTML parser (parser.py) over the events of
    any tokenizer: its documents are located the same way, and a filing fails
    closed.  [Ingestion] is the pipeline of both channels (pipeline.py, raw_store.py,
    storage.py) over the tables of migration 0002: a job runs once, every citation
    of the corpus verifies against the stored bytes, and one corpus version is
    active whatever publishers race.

    * Reading the definitions

    Objects of dynamic type are inductive types of what the code distinguishes
    ([pyvalue], [pyobject], [pyobj]).  A dict whose order shows is the list of
    its items, any other a [gmap]; a lookup that would raise [KeyError] is an
    error value that the theorems exclude.  Loops over an explicit stack or queue
    take fuel, computed from the size of their input by the definition itself,
    never by a caller; running out is the error [OutOfFuel], and the theorems of
    totality exclude it.  Clocks, uuids and random draws are arguments.
    Exception messages and telemetry are left out.

    * Not modelled

    HTTP routes and clients, the SQL of the retrieval lanes (a parameter with a
    stated promise), the tokenizer of HTML, report rendering, process supervision
    (threads, signals): I/O through third-party code, with little logic of its own.
    Of the database, the tables named above with their keys and guards; text
    patterns of CHECK constraints and the syntax of uuids are not checked, lost
    connections are left out, and random uuids are taken to be fresh where a file
    says so.  The sanitizer of error texts is a parameter of the queue, which
    [Redact] could be.  Texts have characters below 256: a document with another is
    outside the model, and theorems about bytes say so.  Recursion limits of the
    interpreter are left out.  Left for later: the Postgres stores of
    the extraction workflow and its job handler, the chunker, and the API's cursors
    and rate limits. *)

From Stdlib Require Export ZArith Lia Ascii.
From stdpp Require Export base tactics numbers list strings gmap sorting.

(** [lia] reasons about division and remainder by constants. *)
Ltac Zify.zify_post_hook ::= Z.to_euclidean_division_equations.

(** * Results: a Python call returns a value or raises *)

Inductive result (E A : Type) : Type :=
| Ok (a : A)
| Err (e : E).
Arguments Ok {E A} a.
Arguments Err {E A} e.

#[export] Instance result_ret E : MRet (result E) := λ A a, Ok a.
#[export] Instance result_bind E : MBind (result E) := λ A B f r,
  match r with Ok a => f a | Err e => Err e end.
#[export] Instance result_fmap E : FMap (result E) := λ A B f r,
  match r with Ok a => Ok (f a) | Err e => Err e end.
#[export] Instance result_eq_dec `{EqDecision E, EqDecision A} : EqDecision (result E A).
Proof. solve_decision. Defined.

(** [if not b: raise e] *)
Definition ensure {E} (b : bool) (e : E) : result E unit := if b then Ok tt else Err e.

(** [except e: raise f e] *)
Definition map_err {E F A} (f : E → F) (r : result E A) : result F A :=
  match r with Ok a => Ok a | Err e => Err (f e) end.

(** a lookup whose [KeyError] becomes [e] *)
Definition from_option_err {E A} (e : E) (o : option A) : result E A :=
  match o with Some a => Ok a | None => Err e end.

Definition is_ok {E A} (r : result E A) : bool := match r with Ok _ => true | Err _ => false end.

(** [for x in l: body], the loop-carried state explicit *)
Fixpoint foldM {E A S} (f : S → A → result E S) (s : S) (l : list A) : result E S :=
  match l with
  | [] => Ok s
  | x :: l' => match f s x with Ok s' => foldM f s' l' | Err e => Err e end
  end.

(** [for x in l: check(x)] *)
Fixpoint for_each {E A} (f : A → result E unit) (l : list A) : result E unit :=
  match l with
  | [] => Ok tt
  | x :: l' => match f x with Ok _ => for_each f l' | Err e => Err e end
  end.

Lemma bind_ok {E A B} (a : A) (f : A → result E B) : (Ok a ≫= f) = f a.
Proof. done. Qed.

Section result_lemmas.
Context {E : Type}.

Lemma bind_Ok {A B} (r : result E A) (f : A → result E B) b :
  (r ≫= f) = Ok b ↔ ∃ a, r = Ok a ∧ f a = Ok b.
Proof. destruct r; unfold mbind; simpl; naive_solver. Qed.

Lemma bind_Err {A B} (r : result E A) (f : A → result E B) e :
  (r ≫= f) = Err e ↔ r = Err e ∨ ∃ a, r = Ok a ∧ f a = Err e.
Proof. destruct r; unfold mbind; simpl; naive_solver. Qed.

Lemma ensure_Ok (b : bool) (e : E) u : ensure b e = Ok u ↔ b = true.
Proof. destruct b, u; unfold ensure; naive_solver. Qed.

Lemma ensure_Err (b : bool) (e e' : E) : ensure b e = Err e' ↔ b = false ∧ e = e'.
Proof. destruct b; unfold ensure; naive_solver. Qed.

Lemma from_option_err_Ok {A} (e : E) (o : option A) a :
  from_option_err e o = Ok a ↔ o = Some a.
Proof. destruct o; simpl; naive_solver. Qed.

Lemma map_err_Ok {F A} (f : E → F) (r : result E A) a : map_err f r = Ok a ↔ r = Ok a.
Proof. destruct r; simpl; naive_solver. Qed.

Lemma for_each_Ok {A} (f : A → result E unit) l u :
  for_each f l = Ok u ↔ Forall (λ x, f x = Ok tt) l.
Proof.
  destruct u. induction l as [|x l IH]; simpl; [by rewrite Forall_nil|].
  rewrite Forall_cons. destruct (f x) as [[]|] eqn:Hx; [rewrite IH|]; naive_solver.
Qed.

Lemma foldM_app {A S} (f : S → A → result E S) s l1 l2 :
  foldM f s (l1 ++ l2) = (foldM f s l1 ≫= λ s', foldM f s' l2).
Proof. revert s; induction l1 as [|x l1 IH]; intros s; simpl; [done|]. by destruct (f s x). Qed.

Lemma for_each_Err {A} (f : A → result E unit) l e :
  for_each f l = Err e → ∃ x, x ∈ l ∧ f x = Err e.
Proof.
  induction l as [|x l IH]; simpl; [done|]. destruct (f x) as [[]|e'] eqn:Hx.
  - intros H. destruct (IH H) as (y & ? & ?). exists y. split; [by right|done].
  - intros [= ->]. exists x. split; [by left|done].
Qed.

Lemma mapM_Ok {A B} (f : A → result E B) l r : mapM f l = Ok r ↔ Forall2 (λ x y, f x = Ok y) l r.
Proof.
  split.
  - revert r; induction l as [|x l IH]; intros r; simpl; [intros [= <-]; constructor|].
    intros (y & Hy & H)%bind_Ok. apply bind_Ok in H as (r' & Hr & [= <-]). constructor; [done|]. by apply IH.
  - induction 1 as [|x y l r Hy H IH]; [done|]. simpl. rewrite Hy. unfold mbind, result_bind in *. by rewrite IH.
Qed.

Lemma mapM_Err {A B} (f : A → result E B) l e : mapM f l = Err e → ∃ x, x ∈ l ∧ f x = Err e.
Proof.
  induction l as [|x l IH]; simpl; [done|]. intros [H|(y & Hy & H)]%bind_Err.
  - exists x. split; [by left|done].
  - apply bind_Err in H as [H|(r & _ & H)]; [|done]. destruct (IH H) as (z & ? & ?). exists z. split; [by right|done].
Qed.

Lemma mapM_total {A B} (f : A → result E B) l : (∀ x, x ∈ l → ∃ y, f x = Ok y) → ∃ r, mapM f l = Ok r.
Proof.
  intros H. destruct (mapM f l) as [r|e] eqn:Hm; [by exists r|].
  apply mapM_Err in Hm as (x & Hx & He). destruct (H x Hx). congruence.
Qed.

(** The loop rule: an invariant on the processed prefix. *)
Lemma foldM_inv {A S} (f : S → A → result E S) (I : list A → S → Prop) s l s' :
  I [] s →
  (∀ pre x st st', pre ++ [x] `prefix_of` l → I pre st → f st x = Ok st' → I (pre ++ [x]) st') →
  foldM f s l = Ok s' → I l s'.
Proof.
  intros H0 Hstep Hf.
  enough (∀ suf pre st, l = pre ++ suf → I pre st → foldM f st suf = Ok s' → I l s') as Hgen
    by by apply (Hgen l [] s).
  clear H0 Hf s. induction suf as [|x suf IH]; intros pre st -> Hpre Hrun; simpl in Hrun.
  - rewrite app_nil_r. naive_solver.
  - destruct (f st x) as [st'|] eqn:Hx; [|done].
    eapply (IH (pre ++ [x]) st'); [by rewrite <- app_assoc| |done].
    eapply Hstep; [|done|done]. exists suf. by rewrite <- app_assoc.
Qed.
End result_lemmas.

(** Invert a chain of binds that succeeded. *)
Ltac ok_inv :=
  repeat match goal with
  | H : Ok _ = Ok _ |- _ => injection H as H; try subst
  | H : Err _ = Err _ |- _ => injection H as H; try subst
  | H : Ok _ = Err _ |- _ => discriminate H
  | H : Err _ = Ok _ |- _ => discriminate H
  | H : mret _ = Ok _ |- _ => unfold mret, result_ret in H
  | H : (_ ≫= _) = Ok _ |- _ =>
      let a := fresh "v" in let Ha := fresh "Hv" in
      apply bind_Ok in H as (a & Ha & H);
      lazymatch type of a with unit => destruct a | prod _ _ => destruct a | _ => idtac end
  | H : ensure _ _ = Ok _ |- _ => apply ensure_Ok in H
  | H : from_option_err _ _ = Ok _ |- _ => apply from_option_err_Ok in H
  | H : map_err _ _ = Ok _ |- _ => apply map_err_Ok in H
  | H : for_each _ _ = Ok _ |- _ => apply for_each_Ok in H
  end.

(** Split boolean conjunctions and turn boolean tests to propositions. *)
Ltac btrue :=
  repeat match goal with
  | H : (_ && _) = true |- _ => apply andb_true_iff in H as [? ?]
  | H : (_ || _) = false |- _ => apply orb_false_iff in H as [? ?]
  | H : negb _ = true |- _ => apply negb_true_iff in H
  | H : negb _ = false |- _ => apply negb_false_iff in H
  | H : (_ <=? _)%N = true |- _ => apply N.leb_le in H
  | H : (_ <? _)%N = true |- _ => apply N.ltb_lt in H
  | H : (_ =? _)%N = true |- _ => apply N.eqb_eq in H
  | H : bool_decide _ = true |- _ => apply bool_decide_eq_true in H
  | H : bool_decide _ = false |- _ => apply bool_decide_eq_false in H
  end.

(** * [sorted]: Python's stable sort *)

Section sorting.
Context {A : Type} (R : relation A) `{!RelDecision R}.

Fixpoint insert_sorted (x : A) (l : list A) : list A :=
  match l with
  | [] => [x]
  | y :: l' => if decide (R x y) then x :: y :: l' else y :: insert_sorted x l'
  end.

Fixpoint py_sorted (l : list A) : list A :=
  match l with [] => [] | x :: l' => insert_sorted x (py_sorted l') end.

Lemma insert_sorted_perm x l : insert_sorted x l ≡ₚ x :: l.
Proof.
  induction l as [|y l IH]; simpl; [done|]. case_decide; [done|].
  rewrite IH. apply Permutation_swap.
Qed.

Lemma py_sorted_perm l : py_sorted l ≡ₚ l.
Proof. induction l as [|x l IH]; simpl; [done|]. by rewrite insert_sorted_perm, IH. Qed.

Lemma elem_of_py_sorted x l : x ∈ py_sorted l ↔ x ∈ l.
Proof. by rewrite py_sorted_perm. Qed.

Lemma NoDup_py_sorted l : NoDup (py_sorted l) ↔ NoDup l.
Proof. by rewrite py_sorted_perm. Qed.

Lemma length_py_sorted l : length (py_sorted l) = length l.
Proof. by rewrite py_sorted_perm. Qed.

Context `{!Total R} `{!Transitive R}.

Lemma insert_sorted_sorted x l : StronglySorted R l → StronglySorted R (insert_sorted x l).
Proof.
  induction 1 as [|y l Hl IH Hy]; simpl; [repeat constructor|].
  case_decide as Hxy; constructor; [by constructor| |done|].
  - constructor; [done|]. eapply Forall_impl; [done|]. intros z. by etrans.
  - rewrite insert_sorted_perm. constructor; [|done]. by destruct (total R x y).
Qed.

Lemma py_sorted_sorted l : StronglySorted R (py_sorted l).
Proof. induction l as [|x l IH]; simpl; [constructor|]. by apply insert_sorted_sorted. Qed.

Lemma py_sorted_unique `{!AntiSymm (=) R} l1 l2 : l1 ≡ₚ l2 → py_sorted l1 = py_sorted l2.
Proof.
  intros Hp. apply (StronglySorted_unique R); [apply py_sorted_sorted..|].
  by rewrite !py_sorted_perm.
Qed.

Lemma py_sorted_id l : StronglySorted R l → py_sorted l = l.
Proof.
  induction 1 as [|x l Hl IH Hx]; simpl; [done|]. rewrite IH.
  destruct l as [|y l]; simpl; [done|]. apply Forall_cons in Hx as [Hxy _].
  by rewrite decide_True.
Qed.
End sorting.

(** [sorted(ids)] on strings: code point order *)
Definition sorted_strings : list string → list string := py_sorted String.le.

Lemma sorted_strings_sorted l : StronglySorted String.le (sorted_strings l).
Proof. apply py_sorted_sorted; apply _. Qed.
Lemma elem_of_sorted_strings x l : x ∈ sorted_strings l ↔ x ∈ l.
Proof. apply elem_of_py_sorted. Qed.
Lemma NoDup_sorted_strings l : NoDup (sorted_strings l) ↔ NoDup l.
Proof. apply NoDup_py_sorted. Qed.
Lemma sorted_strings_perm l : sorted_strings l ≡ₚ l.
Proof. apply py_sorted_perm. Qed.
Lemma sorted_strings_unique l1 l2 : l1 ≡ₚ l2 → sorted_strings l1 = sorted_strings l2.
Proof. apply py_sorted_unique; apply _. Qed.

(** * [dict.fromkeys]: first occurrences, in order *)

Section dedup.
Context {A : Type} `{!EqDecision A}.

Fixpoint dict_fromkeys_from (seen l : list A) : list A :=
  match l with
  | [] => []
  | x :: l' =>
      if decide (x ∈ seen) then dict_fromkeys_from seen l'
      else x :: dict_fromkeys_from (x :: seen) l'
  end.
Definition dict_fromkeys (l : list A) : list A := dict_fromkeys_from [] l.

Lemma elem_of_dict_fromkeys_from seen l x :
  x ∈ dict_fromkeys_from seen l ↔ x ∈ l ∧ x ∉ seen.
Proof.
  revert seen; induction l as [|y l IH]; intros seen; simpl; [set_solver|].
  case_decide as Hy.
  - rewrite IH. set_solver.
  - rewrite elem_of_cons, IH, not_elem_of_cons.
    destruct (decide (x = y)) as [->|]; set_solver.
Qed.

Lemma elem_of_dict_fromkeys l x : x ∈ dict_fromkeys l ↔ x ∈ l.
Proof. unfold dict_fromkeys. rewrite elem_of_dict_fromkeys_from. set_solver. Qed.

Lemma NoDup_dict_fromkeys_from seen l : NoDup (dict_fromkeys_from seen l).
Proof.
  revert seen; induction l as [|y l IH]; intros seen; simpl; [constructor|].
  case_decide; [apply IH|]. constructor; [|apply IH].
  rewrite elem_of_dict_fromkeys_from. set_solver.
Qed.

Lemma NoDup_dict_fromkeys l : NoDup (dict_fromkeys l).
Proof. apply NoDup_dict_fromkeys_from. Qed.

Lemma dict_fromkeys_from_id seen l :
  NoDup l → (∀ x, x ∈ l → x ∉ seen) → dict_fromkeys_from seen l = l.
Proof.
  intros Hl. revert seen. induction Hl as [|x l Hx Hl IH]; intros seen Hs; simpl; [done|].
  rewrite decide_False by set_solver. f_equal. apply IH. set_solver.
Qed.

Lemma dict_fromkeys_from_ext s1 s2 l :
  (∀ x, x ∈ s1 ↔ x ∈ s2) → dict_fromkeys_from s1 l = dict_fromkeys_from s2 l.
Proof.
  revert s1 s2; induction l as [|x l IH]; intros s1 s2 Hs; simpl; [done|].
  rewrite (decide_ext (x ∈ s1) (x ∈ s2)) by done. case_decide; [by apply IH|].
  f_equal. apply IH. intros y. rewrite !elem_of_cons, Hs. done.
Qed.

Lemma dict_fromkeys_from_app seen l1 l2 :
  dict_fromkeys_from seen (l1 ++ l2) = dict_fromkeys_from seen l1 ++ dict_fromkeys_from (l1 ++ seen) l2.
Proof.
  revert seen; induction l1 as [|x l1 IH]; intros seen; simpl; [done|]. case_decide as Hx.
  - rewrite IH. f_equal. apply dict_fromkeys_from_ext. set_solver.
  - rewrite IH. simpl. do 2 f_equal. apply dict_fromkeys_from_ext. set_solver.
Qed.

Lemma dict_fromkeys_id l : NoDup l → dict_fromkeys l = l.
Proof. intros. apply dict_fromkeys_from_id; set_solver. Qed.
Lemma length_dict_fromkeys_from seen l :
  length (dict_fromkeys_from seen l) <= length l ∧ (length (dict_fromkeys_from seen l) = length l → NoDup l ∧ ∀ x, x ∈ l → x ∉ seen).
Proof.
  revert seen. induction l as [|y l IH]; intros seen; cbn [dict_fromkeys_from]; [split; [done|intros _; split; [constructor|set_solver]]|].
  case_decide as Hy.
  - destruct (IH seen) as [Hle _]. cbn. split; [lia|]. intros. lia.
  - destruct (IH (y :: seen)) as [Hle Heq]. cbn. split; [lia|]. intros [= Hl]. destruct (Heq Hl) as [Hnd Hs].
    split; [constructor; [|done]; intros Hin; apply (Hs y Hin), list_elem_of_here|set_solver].
Qed.

(** nothing was removed: there were no duplicates *)
Lemma NoDup_length_dict_fromkeys l : length (dict_fromkeys l) = length l → NoDup l.
Proof. intros Hl. by apply (length_dict_fromkeys_from [] l). Qed.
End dedup.

(** renaming keys one to one commutes with removing duplicates *)
Lemma dict_fromkeys_from_fmap `{EqDecision A, EqDecision B} (f : A → B) seen l :
  (∀ x y, x ∈ seen ++ l → y ∈ l → f x = f y → x = y) →
  dict_fromkeys_from (f <$> seen) (f <$> l) = f <$> dict_fromkeys_from seen l.
Proof.
  revert seen. induction l as [|x l IH]; intros seen Hf; [done|]. cbn [dict_fromkeys_from fmap list_fmap].
  assert (f x ∈ f <$> seen ↔ x ∈ seen) as Hx.
  { split; [|apply list_elem_of_fmap_2]. intros (y & Hy & Hin)%list_elem_of_fmap. assert (y = x) as <-; [|done].
    apply Hf; [set_solver|set_solver|done]. }
  destruct (decide (x ∈ seen)), (decide (f x ∈ f <$> seen)); [|tauto|tauto|].
  - apply IH. intros y z Hy Hz. apply Hf; set_solver.
  - rewrite fmap_cons. f_equal. rewrite <- fmap_cons. apply IH. intros y z Hy Hz. apply Hf; set_solver.
Qed.

Lemma dict_fromkeys_fmap `{EqDecision A, EqDecision B} (f : A → B) l :
  (∀ x y, x ∈ l → y ∈ l → f x = f y → x = y) → dict_fromkeys (f <$> l) = f <$> dict_fromkeys l.
Proof. intros Hf. unfold dict_fromkeys. apply (dict_fromkeys_from_fmap f [] l). intros x y Hx Hy. by apply Hf. Qed.


Lemma elem_of_concat {A} (x : A) (ll : list (list A)) : x ∈ concat ll ↔ ∃ l, x ∈ l ∧ l ∈ ll.
Proof. induction ll as [|l ll IH]; cbn; [set_solver|]. rewrite elem_of_app, IH. set_solver. Qed.

Lemma list_to_map_is_Some {A} (l : list (string * A)) k : is_Some ((list_to_map l : gmap string A) !! k) ↔ k ∈ l.*1.
Proof.
  destruct ((list_to_map l : gmap string A) !! k) as [a|] eqn:Hk.
  - apply elem_of_list_to_map_2 in Hk. split; [|eauto]. intros _. by apply (list_elem_of_fmap_2 fst l (k, a)).
  - apply not_elem_of_list_to_map in Hk. split; [by intros []|done].
Qed.

Lemma StronglySorted_lookup {A} (R : relation A) l i j x y :
  StronglySorted R l → (i < j)%nat → l !! i = Some x → l !! j = Some y → R x y.
Proof.
  intros Hs Hij Hi Hj. rewrite <- (take_drop_middle l i x Hi) in Hs. apply StronglySorted_app in Hs as (_ & _ & Hs).
  apply StronglySorted_inv in Hs as [_ Hs]. apply (proj1 (Forall_forall _ _) Hs).
  apply (list_elem_of_lookup_2 _ (j - S i)%nat). rewrite lookup_drop. by replace (S i + (j - S i))%nat with j by lia.
Qed.

(** * Hints shared by the development *)

Create HintDb fel discriminated.
#[export] Hint Resolve sorted_strings_sorted NoDup_dict_fromkeys : fel.
#[export] Hint Rewrite @elem_of_sorted_strings @elem_of_dict_fromkeys : fel.
