(* ===== verification/Effects.v ===== *)
(** Python code that mutates state and raises.

    A call takes the state it can see, and returns its value or the exception it
    raised, with the state it left: what was written before a [raise] stays
    written.  [ends P m Q] is the triple of that code; its rules follow the
    constructs.  A clock, a lease or a provider is read through the state's tick,
    which counts the reads. *)

From S2P Require Import Prelude.

Create HintDb effects.

Definition eff (S E A : Type) : Type := S → result E A * S.

#[export] Instance eff_ret S E : MRet (eff S E) := λ A a s, (Ok a, s).
#[export] Instance eff_bind S E : MBind (eff S E) := λ A B f m s,
  match m s with (Ok a, s') => f a s' | (Err e, s') => (Err e, s') end.

Section effects.
Context {S E : Type}.

Definition raise {A} (e : E) : eff S E A := λ s, (Err e, s).
Definition reads {A} (f : S → A) : eff S E A := λ s, (Ok (f s), s).
Definition writes (f : S → S) : eff S E unit := λ s, (Ok tt, f s).
(** a call that touches no state *)
Definition pure {A} (r : result E A) : eff S E A := λ s, (r, s).
(** [if b: raise e] *)
Definition raise_if (b : bool) (e : E) : eff S E unit := if b then raise e else mret tt.

(** [try: m; except e: h e], with [h] for the exceptions [caught] accepts *)
Definition try_except {A} (caught : E → bool) (m : eff S E A) (h : E → eff S E A) : eff S E A := λ s,
  match m s with (Err e, s') => if caught e then h e s' else (Err e, s') | r => r end.

(** [try: m; finally: f], the clause run unless the process is gone *)
Definition try_finally {A} (runs : E → bool) (m : eff S E A) (f : eff S E unit) : eff S E A := λ s,
  match m s with
  | (Ok a, s') => match f s' with (Ok _, s'') => (Ok a, s'') | (Err e, s'') => (Err e, s'') end
  | (Err e, s') => if runs e then match f s' with (Ok _, s'') => (Err e, s'') | (Err e', s'') => (Err e', s'') end else (Err e, s')
  end.

(** [for x in l: f x] *)
Fixpoint for_loop {A} (f : A → eff S E unit) (l : list A) : eff S E unit :=
  match l with [] => mret tt | x :: l' => f x ≫= λ _, for_loop f l' end.

(** * Triples *)

Definition ends {A} (P : S → Prop) (m : eff S E A) (Q : result E A → S → Prop) : Prop := ∀ s, P s → Q (fst (m s)) (snd (m s)).

(** what holds whichever way the call ends *)
Definition keeps {A} (I : S → Prop) (m : eff S E A) : Prop := ends I m (λ _, I).

Lemma ends_weaken {A} (P P' : S → Prop) (m : eff S E A) (Q Q' : result E A → S → Prop) :
  ends P m Q → (∀ s, P' s → P s) → (∀ r s, Q r s → Q' r s) → ends P' m Q'.
Proof. intros H HP HQ s Hs. apply HQ, H, HP, Hs. Qed.

Lemma ends_ret {A} (a : A) (Q : result E A → S → Prop) : ends (Q (Ok a)) (mret a) Q.
Proof. by intros s Hs. Qed.

Lemma ends_bind {A B} (P : S → Prop) (m : eff S E A) (f : A → eff S E B) (R : A → S → Prop) (Q : result E B → S → Prop) :
  ends P m (λ r s, match r with Ok a => R a s | Err e => Q (Err e) s end) → (∀ a, ends (R a) (f a) Q) → ends P (m ≫= f) Q.
Proof.
  intros Hm Hf s Hs. specialize (Hm s Hs). unfold mbind, eff_bind. destruct (m s) as [[a|e] s']; cbn in *; [by apply Hf|done].
Qed.

Lemma ends_try_except {A} (P : S → Prop) (caught : E → bool) (m : eff S E A) (h : E → eff S E A) (R : E → S → Prop) (Q : result E A → S → Prop) :
  ends P m (λ r s, match r with Ok a => Q (Ok a) s | Err e => if caught e then R e s else Q (Err e) s end) →
  (∀ e, ends (R e) (h e) Q) → ends P (try_except caught m h) Q.
Proof.
  intros Hm Hh s Hs. specialize (Hm s Hs). unfold try_except. destruct (m s) as [[a|e] s']; cbn in *; [done|].
  destruct (caught e); [by apply Hh|done].
Qed.

(** * Invariants *)

Lemma keeps_ret {A} I (a : A) : keeps I (mret a).
Proof. by intros s Hs. Qed.
Lemma keeps_raise {A} I e : keeps I (raise (A := A) e).
Proof. by intros s Hs. Qed.
Lemma keeps_reads {A} I (f : S → A) : keeps I (reads f).
Proof. by intros s Hs. Qed.
Lemma keeps_pure {A} I (r : result E A) : keeps I (pure r).
Proof. by intros s Hs. Qed.
Lemma keeps_raise_if I b e : keeps I (raise_if b e).
Proof. destruct b; by intros s Hs. Qed.
Lemma keeps_writes (I : S → Prop) f : (∀ s, I s → I (f s)) → keeps I (writes f).
Proof. intros H s Hs. by apply H. Qed.

Lemma keeps_bind {A B} I (m : eff S E A) (f : A → eff S E B) : keeps I m → (∀ a, keeps I (f a)) → keeps I (m ≫= f).
Proof.
  intros Hm Hf s Hs. specialize (Hm s Hs). unfold mbind, eff_bind. destruct (m s) as [[a|e] s']; cbn in *; [by apply Hf|done].
Qed.

Lemma keeps_try_except {A} I caught (m : eff S E A) h : keeps I m → (∀ e, keeps I (h e)) → keeps I (try_except caught m h).
Proof.
  intros Hm Hh s Hs. specialize (Hm s Hs). unfold try_except. destruct (m s) as [[a|e] s']; cbn in *; [done|].
  destruct (caught e); [by apply Hh|done].
Qed.

Lemma keeps_try_finally {A} I runs (m : eff S E A) f : keeps I m → keeps I f → keeps I (try_finally runs m f).
Proof.
  intros Hm Hf s Hs. specialize (Hm s Hs). unfold try_finally.
  destruct (m s) as [[a|e] s']; cbn in *; [|destruct (runs e); [|done]]; specialize (Hf s' Hm); destruct (f s') as [[[]|e'] s'']; done.
Qed.

Lemma keeps_for_loop {A} I (f : A → eff S E unit) l : (∀ x, keeps I (f x)) → keeps I (for_loop f l).
Proof. intros Hf. induction l as [|x l IH]; cbn [for_loop]; [apply keeps_ret|]. by apply keeps_bind. Qed.
End effects.

Arguments eff : simpl never.
Global Hint Resolve keeps_ret keeps_raise keeps_reads keeps_pure keeps_raise_if keeps_bind keeps_try_except keeps_try_finally keeps_for_loop : effects.

(** * A part of the state *)

Section zoom.
Context {S W E : Type} (part : W → S) (put : S → W → W).

(** the code that only sees [part] *)
Definition zoom {A} (m : eff S E A) : eff W E A := λ w, let '(r, s) := m (part w) in (r, put s w).

Lemma keeps_zoom {A} (I : W → Prop) (m : eff S E A) : (∀ w s, I w → I (put s w)) → keeps I (zoom m).
Proof. intros H w Hw. unfold zoom. destruct (m (part w)) as [r s]. by apply H. Qed.
End zoom.

(** * Refinement of a pure reference

    The call ends as the reference says, unless it was interrupted. *)
Section refines.
Context {S E : Type} (interrupted : E → Prop).

Definition refines {A} (m : eff S E A) (r : result E A) : Prop := ∀ s, fst (m s) = r ∨ ∃ e, fst (m s) = Err e ∧ interrupted e.

Lemma refines_ret {A} (a : A) : refines (mret a) (Ok a).
Proof. intros s. by left. Qed.
Lemma refines_pure {A} (r : result E A) : refines (pure r) r.
Proof. intros s. by left. Qed.
Lemma refines_raise {A} e : refines (raise (A := A) e) (Err e).
Proof. intros s. by left. Qed.
Lemma refines_writes f : refines (writes f) (Ok tt).
Proof. intros s. by left. Qed.
Lemma refines_raise_if b e : refines (raise_if b e) (if b then Err e else Ok tt).
Proof. intros s. destruct b; by left. Qed.
(** a check that only interrupts *)
Lemma refines_guard b e : interrupted e → refines (raise_if b e) (Ok tt).
Proof. intros He s. destruct b; [right; by exists e|by left]. Qed.

Lemma refines_bind {A B} (m : eff S E A) r (f : A → eff S E B) g :
  refines m r → (∀ a, r = Ok a → refines (f a) (g a)) → refines (m ≫= f) (r ≫= g).
Proof.
  intros Hm Hf s. unfold mbind, eff_bind. destruct (Hm s) as [Heq|(e & Heq & He)]; destruct (m s) as [r' s'] eqn:Hms; cbn in Heq; subst r'.
  - destruct r as [a|e]; [by apply Hf|by left].
  - right. by exists e.
Qed.

(** a call whose value the rest does not use *)
Lemma refines_any {A B} (m : eff S E A) (f : A → eff S E B) r :
  (∀ s e, fst (m s) = Err e → interrupted e) → (∀ a, refines (f a) r) → refines (m ≫= f) r.
Proof.
  intros Hm Hf s. unfold mbind, eff_bind. specialize (Hm s). destruct (m s) as [[a|e] s'] eqn:Hms; [apply Hf|].
  right. exists e. split; [done|]. by apply Hm.
Qed.
End refines.
