(* ===== verification/Dicts.v ===== *)
(** Python dicts in insertion order: a dict is the list of its items.  Shared by
    the components whose results could depend on that order. *)

From S2P Require Import Prelude.

Definition dict A := list (string * A).

Section dict.
Context {K A : Type} `{!EqDecision K}.

(** [d.get(k)] *)
Fixpoint dict_get (k : K) (d : list (K * A)) : option A :=
  match d with
  | [] => None
  | (k', v) :: d' => if decide (k' = k) then Some v else dict_get k d'
  end.

(** [d[k] = v] *)
Fixpoint dict_set (k : K) (v : A) (d : list (K * A)) : list (K * A) :=
  match d with
  | [] => [(k, v)]
  | (k', v') :: d' => if decide (k' = k) then (k', v) :: d' else (k', v') :: dict_set k v d'
  end.

(** [d.setdefault(k, []).append(v)] *)
Fixpoint dict_push (k : K) (v : A) (d : list (K * list A)) : list (K * list A) :=
  match d with
  | [] => [(k, [v])]
  | (k', l) :: d' => if decide (k' = k) then (k', l ++ [v]) :: d' else (k', l) :: dict_push k v d'
  end.
End dict.

(** * Lemmas *)

Section dict_lemmas.
Context {K A : Type} `{!EqDecision K}.

Lemma dict_get_elem k v (d : list (K * A)) : NoDup d.*1 → dict_get k d = Some v ↔ (k, v) ∈ d.
Proof.
  induction d as [|[k' v'] d IH]; cbn; intros Hnd.
  - split; [done|]. intros H. by apply not_elem_of_nil in H.
  - apply NoDup_cons in Hnd as [Hk Hnd]. case_decide as Hd.
    + subst. rewrite elem_of_cons. split; [intros [= ->]; by left|]. intros [[= ->]|Hin]; [done|].
      exfalso. apply Hk. apply list_elem_of_fmap. by exists (k, v).
    + rewrite IH, elem_of_cons by done. naive_solver.
Qed.

Lemma dict_get_None k (d : list (K * A)) : dict_get k d = None ↔ k ∉ d.*1.
Proof.
  induction d as [|[k' v'] d IH]; cbn; [split; [intros _; apply not_elem_of_nil|done]|].
  rewrite not_elem_of_cons. case_decide; [naive_solver|]. rewrite IH. naive_solver.
Qed.

(** Dicts with the same items answer the same. *)
Lemma dict_get_perm k (d1 d2 : list (K * A)) : NoDup d1.*1 → d1 ≡ₚ d2 → dict_get k d1 = dict_get k d2.
Proof.
  intros H1 Hp. assert (NoDup d2.*1) as H2 by (by rewrite <- Hp).
  destruct (dict_get k d1) as [v|] eqn:H.
  - symmetry. apply dict_get_elem; [done|]. rewrite <- Hp. by apply dict_get_elem.
  - symmetry. apply dict_get_None. rewrite <- Hp. by apply dict_get_None.
Qed.

Lemma dict_get_fmap k (f : K → A) ks : k ∈ ks → dict_get k ((λ k, (k, f k)) <$> ks) = Some (f k).
Proof.
  induction ks as [|k' ks IH]; intros Hk; [by apply not_elem_of_nil in Hk|]. cbn. case_decide; [by subst|].
  apply IH. apply elem_of_cons in Hk as [->|]; [done|done].
Qed.

Lemma dict_get_set k k' v (d : list (K * A)) : dict_get k (dict_set k' v d) = if decide (k' = k) then Some v else dict_get k d.
Proof using Type.
  induction d as [|[j w] d IH]; cbn [dict_set dict_get]; [done|]. destruct (decide (j = k')) as [->|Hj]; cbn [dict_get].
  - by destruct (decide (k' = k)).
  - rewrite IH. destruct (decide (j = k)) as [->|]; [|done]. by rewrite decide_False.
Qed.

Lemma dict_set_same k v (d : list (K * A)) : dict_get k d = Some v → dict_set k v d = d.
Proof using Type.
  induction d as [|[j w] d IH]; cbn [dict_get dict_set]; [done|]. destruct (decide (j = k)) as [->|]; [by intros [= ->]|].
  intros H. by rewrite IH.
Qed.

Lemma dict_set_new k v (d : list (K * A)) : k ∉ d.*1 → dict_set k v d = d ++ [(k, v)].
Proof.
  induction d as [|[k' v'] d IH]; cbn; [done|]. intros [Hne Hk]%not_elem_of_cons.
  rewrite decide_False by done. by rewrite IH.
Qed.

Lemma dict_push_fmap k v ks (g : K → list A) :
  NoDup ks → dict_push k v ((λ k', (k', g k')) <$> ks) =
  if decide (k ∈ ks) then (λ k', (k', if decide (k' = k) then g k' ++ [v] else g k')) <$> ks
  else ((λ k', (k', g k')) <$> ks) ++ [(k, [v])].
Proof.
  induction 1 as [|k' ks Hk' Hnd IH]; [cbn; by rewrite decide_False by apply not_elem_of_nil|]. cbn.
  destruct (decide (k' = k)) as [->|Hne].
  - destruct (decide (k ∈ k :: ks)) as [_|Hn]; [|set_solver]. f_equal.
    apply list_fmap_ext. intros i x Hx. rewrite decide_False; [done|]. intros ->. apply Hk'. by eapply list_elem_of_lookup_2.
  - rewrite IH. destruct (decide (k ∈ ks)) as [Hin|Hin], (decide (k ∈ k' :: ks)) as [Hin'|Hin']; try set_solver; done.
Qed.
End dict_lemmas.

Lemma dict_fromkeys_snoc `{EqDecision A} (l : list A) x :
  dict_fromkeys (l ++ [x]) = if decide (x ∈ l) then dict_fromkeys l else dict_fromkeys l ++ [x].
Proof.
  unfold dict_fromkeys. rewrite dict_fromkeys_from_app. cbn. rewrite app_nil_r.
  case_decide; [by rewrite app_nil_r|done].
Qed.

(** Pushing values one by one groups them by key, in order of first appearance. *)
Lemma push_all {K A} `{!EqDecision K} (f : A → K) (l : list A) :
  foldl (λ d x, dict_push (f x) x d) [] l = (λ k, (k, filter (λ x, f x = k) l)) <$> dict_fromkeys (f <$> l).
Proof.
  induction l as [|x l IH] using rev_ind; [done|]. rewrite foldl_app, IH. cbn [foldl].
  rewrite dict_push_fmap by apply NoDup_dict_fromkeys. rewrite fmap_app. change (f <$> [x]) with [f x]. rewrite dict_fromkeys_snoc.
  rewrite (decide_ext _ (f x ∈ f <$> l)) by apply elem_of_dict_fromkeys.
  destruct (decide (f x ∈ f <$> l)) as [Hin|Hin].
  - apply list_fmap_ext. intros i k Hk. rewrite filter_app. f_equal.
    rewrite filter_cons, filter_nil. case_decide; [by rewrite decide_True by done|].
    rewrite decide_False by congruence. by rewrite app_nil_r.
  - rewrite fmap_app. f_equal.
    + apply list_fmap_ext. intros i k Hk. rewrite filter_app, filter_cons, filter_nil.
      rewrite decide_False; [by rewrite app_nil_r|]. intros <-. apply Hin. apply elem_of_dict_fromkeys. by eapply list_elem_of_lookup_2.
    + cbn. do 3 f_equal. rewrite filter_app, filter_cons, filter_nil, decide_True by done.
      assert (filter (λ x0 : A, f x0 = f x) l = []) as ->; [|done].
      destruct (filter (λ x0 : A, f x0 = f x) l) as [|y l'] eqn:Hf; [done|].
      assert (y ∈ filter (λ x0 : A, f x0 = f x) l) as Hy by (rewrite Hf; apply list_elem_of_here).
      apply list_elem_of_filter in Hy as [Hy Hyl]. exfalso. apply Hin. apply list_elem_of_fmap. by exists y.
Qed.
