(* ===== verification/Decimals.v ===== *)
(** Python's [decimal] module: finite decimals, contexts, and the operations
    the calculation engine, the fusion step and the calibration code use.

    A finite [Decimal] is a sign, a non-negative coefficient and an exponent.
    Every operation is computed exactly and then rounded by [dec_fix], the
    module's [_fix], in a context (precision and exponent range, always
    [ROUND_HALF_EVEN]); a trapped signal is an [Err].  [dq] is the rational a
    decimal denotes: [==] on decimals is equality of denotations ([deq]). *)

From Stdlib Require Import QArith Qabs Qpower Lqa.
From S2P Require Import Prelude.
Local Open Scope Z_scope.

(** * Decimal digits of a natural number *)

Section digits.
Local Open Scope N_scope.

Fixpoint digits_go (fuel : nat) (n : N) (acc : list N) : list N :=
  match fuel with
  | O => acc
  | S f => if n <? 10 then n :: acc else digits_go f (n / 10) (n mod 10 :: acc)
  end.

(** [str(n)], as the list of its digits, most significant first *)
Definition digits (n : N) : list N := digits_go (S (N.to_nat (N.log2 n))) n [].

Definition undigits (l : list N) : N := fold_left (λ a d, 10 * a + d) l 0.
End digits.

(** [len(str(n))] *)
Definition ndigits (n : N) : Z := Z.of_nat (length (digits n)).

Definition pow10 (k : Z) : N := (10 ^ Z.to_N k)%N.

(** * Data *)

Record decimal := Dec { d_sign : bool; d_coeff : N; d_exp : Z }.

#[export] Instance decimal_eq_dec : EqDecision decimal.
Proof. solve_decision. Defined.

Inductive pydecimal :=
| Finite (d : decimal)
| Infinite (sign : bool)
| NaN.

(** The trapped signals of [decimal] *)
Inductive signal := InvalidOperation | DivisionByZero | Overflow.

#[export] Instance signal_eq_dec : EqDecision signal.
Proof. solve_decision. Defined.

Record context := Context { prec : Z; Emax : Z; Emin : Z }.

Definition Etiny (c : context) : Z := Emin c - prec c + 1.
Definition Etop (c : context) : Z := Emax c - prec c + 1.

Definition dec_of_Z (z : Z) : decimal := Dec (z <? 0) (Z.abs_N z) 0.

(** ** Denotation *)

(** the signed coefficient *)
Definition sval (d : decimal) : Z := if d_sign d then - Z.of_N (d_coeff d) else Z.of_N (d_coeff d).

Definition dq (d : decimal) : Q := (inject_Z (sval d) * (10 # 1) ^ d_exp d)%Q.

Definition deq (a b : decimal) : Prop := (dq a == dq b)%Q.

(** * Rounding *)

(** [ROUND_HALF_EVEN]: drop the last [k] digits of [c] *)
Definition round_half_even (c : N) (k : Z) : N :=
  let m := pow10 k in
  let q := (c / m)%N in
  let r := (c mod m)%N in
  if (2 * r <? m)%N then q
  else if (m <? 2 * r)%N then (q + 1)%N
  else if N.even q then q else (q + 1)%N.

(** [Decimal._fix] *)
Definition dec_fix (c : context) (d : decimal) : result signal decimal :=
  if (d_coeff d =? 0)%N then
    Ok (Dec (d_sign d) 0 (Z.min (Z.max (d_exp d) (Etiny c)) (Emax c)))
  else
    let exp_min := ndigits (d_coeff d) + d_exp d - prec c in
    if Etop c <? exp_min then Err Overflow
    else
      let exp_min := Z.max exp_min (Etiny c) in
      if d_exp d <? exp_min then
        let co := round_half_even (d_coeff d) (exp_min - d_exp d) in
        let carry := prec c <? ndigits co in
        let co := if carry then (co / 10)%N else co in
        let exp_min := if carry then exp_min + 1 else exp_min in
        if Etop c <? exp_min then Err Overflow
        else Ok (Dec (d_sign d) co exp_min)
      else Ok d.

(** * Arithmetic *)

Definition aligned (d : decimal) (e : Z) : Z := sval d * 10 ^ (d_exp d - e).

Definition dec_neg (d : decimal) : decimal := Dec (negb (d_sign d)) (d_coeff d) (d_exp d).
Definition dec_abs (d : decimal) : decimal := Dec false (d_coeff d) (d_exp d).

Definition add_exact (a b : decimal) : decimal :=
  let e := Z.min (d_exp a) (d_exp b) in
  let s := aligned a e + aligned b e in
  Dec (if s =? 0 then d_sign a && d_sign b else s <? 0) (Z.abs_N s) e.

Definition dec_add (c : context) (a b : decimal) : result signal decimal :=
  dec_fix c (add_exact a b).

Definition dec_sub (c : context) (a b : decimal) : result signal decimal :=
  dec_add c a (dec_neg b).

Definition mul_exact (a b : decimal) : decimal :=
  Dec (xorb (d_sign a) (d_sign b)) (d_coeff a * d_coeff b) (d_exp a + d_exp b).

Definition dec_mul (c : context) (a b : decimal) : result signal decimal :=
  dec_fix c (mul_exact a b).

(** [while exp < limit and coeff % 10 == 0: coeff //= 10; exp += 1] *)
Fixpoint strip_zeros (fuel : nat) (co : N) (e limit : Z) : N * Z :=
  match fuel with
  | O => (co, e)
  | S f =>
      if (e <? limit) && (co mod 10 =? 0)%N then strip_zeros f (co / 10) (e + 1) limit
      else (co, e)
  end.

Definition dec_div (c : context) (a b : decimal) : result signal decimal :=
  let sign := xorb (d_sign a) (d_sign b) in
  if (d_coeff b =? 0)%N then
    if (d_coeff a =? 0)%N then Err InvalidOperation else Err DivisionByZero
  else if (d_coeff a =? 0)%N then dec_fix c (Dec sign 0 (d_exp a - d_exp b))
  else
    let shift := ndigits (d_coeff b) - ndigits (d_coeff a) + prec c + 1 in
    let e := d_exp a - d_exp b - shift in
    let num := if 0 <=? shift then (d_coeff a * pow10 shift)%N else d_coeff a in
    let den := if 0 <=? shift then d_coeff b else (d_coeff b * pow10 (- shift))%N in
    let co := (num / den)%N in
    if negb (num mod den =? 0)%N then
      let co := if (co mod 5 =? 0)%N then (co + 1)%N else co in
      dec_fix c (Dec sign co e)
    else
      let '(co, e) := strip_zeros (length (digits co)) co e (d_exp a - d_exp b) in
      dec_fix c (Dec sign co e).

(** unary plus in a context; [plus(-0)] is [0] *)
Definition dec_plus (c : context) (d : decimal) : result signal decimal :=
  dec_fix c (if (d_coeff d =? 0)%N then dec_abs d else d).

(** [Decimal._rescale] *)
Definition rescale (d : decimal) (e : Z) : decimal :=
  if (d_coeff d =? 0)%N then Dec (d_sign d) 0 e
  else if e <=? d_exp d then Dec (d_sign d) (d_coeff d * pow10 (d_exp d - e)) e
  else Dec (d_sign d) (round_half_even (d_coeff d) (e - d_exp d)) e.

(** [len(self._int) + self._exp - 1] *)
Definition adjusted (d : decimal) : Z := ndigits (d_coeff d) + d_exp d - 1.

Definition dec_quantize (c : context) (d q : decimal) : result signal decimal :=
  if negb ((Etiny c <=? d_exp q) && (d_exp q <=? Emax c)) then Err InvalidOperation
  else if (d_coeff d =? 0)%N then dec_fix c (Dec (d_sign d) 0 (d_exp q))
  else if Emax c <? adjusted d then Err InvalidOperation
  else if prec c <? adjusted d - d_exp q + 1 then Err InvalidOperation
  else
    let ans := rescale d (d_exp q) in
    if Emax c <? adjusted ans then Err InvalidOperation
    else if prec c <? ndigits (d_coeff ans) then Err InvalidOperation
    else dec_fix c ans.

Definition dec_normalize (c : context) (d : decimal) : result signal decimal :=
  match dec_fix c d with
  | Err s => Err s
  | Ok dup =>
      if (d_coeff dup =? 0)%N then Ok (Dec (d_sign dup) 0 0)
      else
        let '(co, e) := strip_zeros (length (digits (d_coeff dup))) (d_coeff dup) (d_exp dup) (Emax c) in
        Ok (Dec (d_sign dup) co e)
  end.

(** ** Comparison: exact, context-free *)

Definition dec_compare (a b : decimal) : comparison :=
  let e := Z.min (d_exp a) (d_exp b) in aligned a e ?= aligned b e.

Definition dec_leb (a b : decimal) : bool := match dec_compare a b with Gt => false | _ => true end.
Definition dec_ltb (a b : decimal) : bool := match dec_compare a b with Lt => true | _ => false end.
Definition dec_eqb (a b : decimal) : bool := match dec_compare a b with Eq => true | _ => false end.

(** builtin [max(a, b)]: the first of two equal arguments *)
Definition dec_max (a b : decimal) : decimal := if dec_ltb a b then b else a.

Definition dec_zero : decimal := Dec false 0 0.

(** * Text *)

Definition digit_char (d : N) : ascii := ascii_of_N (48 + d).

Definition string_of_digits (l : list N) : string :=
  fold_right (λ d s, String (digit_char d) s) EmptyString l.

Definition zeros (k : Z) : list N := replicate (Z.to_nat k) 0%N.

(** an integer part, and a point with a fractional part when there is one *)
Definition plain_text (ip fp : list N) : string :=
  (string_of_digits ip +:+ match fp with [] => "" | _ => "." +:+ string_of_digits fp end)%string.

(** [format(d, "f")] *)
Definition format_f (d : decimal) : string :=
  let co := digits (d_coeff d) in
  let e := if (d_coeff d =? 0)%N && (0 <? d_exp d) then 0 else d_exp d in
  let dotplace := e + Z.of_nat (length co) in
  let '(intpart, fracpart) :=
    if dotplace <? 0 then ([0%N], zeros (- dotplace) ++ co)
    else if Z.of_nat (length co) <? dotplace then (co ++ zeros (dotplace - Z.of_nat (length co)), [])
    else (match take (Z.to_nat dotplace) co with [] => [0%N] | l => l end, drop (Z.to_nat dotplace) co) in
  ((if d_sign d then "-" else "") +:+ plain_text intpart fracpart)%string.

(** ["%+d" % e] *)
Definition format_signed (e : Z) : string :=
  ((if (e <? 0)%Z then "-" else "+") +:+ string_of_digits (digits (Z.abs_N e)))%string.

(** [str(d)]: scientific when the exponent is positive or the number is small *)
Definition dec_to_string (d : decimal) : string :=
  let co := digits (d_coeff d) in
  let leftdigits := d_exp d + ndigits (d_coeff d) in
  let dotplace := if (d_exp d <=? 0) && (-6 <? leftdigits) then leftdigits else 1 in
  let '(intpart, fracpart) :=
    if dotplace <=? 0 then ([0%N], Some (zeros (- dotplace) ++ co))
    else if ndigits (d_coeff d) <=? dotplace then (co ++ zeros (dotplace - ndigits (d_coeff d)), None)
    else (take (Z.to_nat dotplace) co, Some (drop (Z.to_nat dotplace) co)) in
  ((if d_sign d then "-" else "") +:+ string_of_digits intpart +:+
   match fracpart with None => "" | Some l => "." +:+ string_of_digits l end +:+
   (if (leftdigits =? dotplace)%Z then "" else "E" +:+ format_signed (leftdigits - dotplace)%Z))%string.

(** * Digits: the decimal expansion is faithful *)

Section digits_lemmas.
Local Open Scope N_scope.

Lemma log2_div10 n : 10 <= n → N.log2 (n / 10) < N.log2 n.
Proof.
  intros Hn. destruct (N.le_gt_cases (N.log2 n) (N.log2 (n / 10))) as [Hle|]; [|done]. exfalso.
  pose proof (N.log2_spec n ltac:(lia)) as [_ Hub].
  assert (0 < n / 10) as Hpos by lia.
  pose proof (N.log2_spec (n / 10) Hpos) as [Hlb _].
  rewrite N.pow_succ_r' in Hub.
  pose proof (N.pow_le_mono_r 2 (N.log2 n) (N.log2 (n / 10)) ltac:(lia) Hle). lia.
Qed.

Lemma digits_go_acc f n acc : digits_go f n acc = (digits_go f n [] ++ acc)%list.
Proof.
  revert n acc; induction f as [|f IH]; intros n acc; simpl; [done|].
  destruct (n <? 10); [done|].
  rewrite IH, (IH _ [n mod 10]), <- (assoc_L (++)). done.
Qed.

Lemma digits_go_fuel f f' n :
  (N.to_nat (N.log2 n) < f)%nat → (N.to_nat (N.log2 n) < f')%nat →
  digits_go f n [] = digits_go f' n [].
Proof.
  revert f' n; induction f as [|f IH]; intros [|f'] n Hf Hf'; try lia; simpl.
  destruct (N.ltb_spec n 10) as [|Hn]; [done|].
  pose proof (log2_div10 n Hn).
  rewrite digits_go_acc, (digits_go_acc f'). f_equal. apply IH; lia.
Qed.

Lemma digits_unfold n :
  digits n = if n <? 10 then [n] else (digits (n / 10) ++ [n mod 10])%list.
Proof.
  unfold digits at 1. cbn [digits_go]. destruct (N.ltb_spec n 10) as [|Hn]; [done|].
  rewrite digits_go_acc. f_equal. pose proof (log2_div10 n Hn).
  apply digits_go_fuel; lia.
Qed.

Lemma digits_small n : n < 10 → digits n = [n].
Proof. intros. rewrite digits_unfold. by destruct (N.ltb_spec n 10); [|lia]. Qed.

Lemma digits_big n : 10 <= n → digits n = (digits (n / 10) ++ [n mod 10])%list.
Proof. intros. rewrite digits_unfold. by destruct (N.ltb_spec n 10); [lia|]. Qed.

(** Induction on a number by its decimal expansion. *)
Lemma digits_ind (P : N → Prop) :
  (∀ n, n < 10 → P n) → (∀ n, 10 <= n → P (n / 10) → P n) → ∀ n, P n.
Proof.
  intros Hs Hb n. induction n as [n IH] using (well_founded_induction N.lt_wf_0).
  destruct (N.lt_ge_cases n 10); [by apply Hs|].
  apply Hb; [done|]. apply IH. lia.
Qed.

Lemma undigits_snoc l d : undigits (l ++ [d]) = 10 * undigits l + d.
Proof. unfold undigits. by rewrite fold_left_app. Qed.

Lemma undigits_digits n : undigits (digits n) = n.
Proof.
  induction n as [n Hn|n Hn IH] using digits_ind.
  - rewrite digits_small by done. unfold undigits; simpl; lia.
  - rewrite digits_big, undigits_snoc, IH by done. lia.
Qed.

Lemma digits_lt_10 n : Forall (λ d, d < 10) (digits n).
Proof.
  induction n as [n Hn|n Hn IH] using digits_ind.
  - rewrite digits_small by done. by constructor.
  - rewrite digits_big by done. apply Forall_app; split; [done|]. repeat constructor. lia.
Qed.
End digits_lemmas.

Lemma ndigits_small n : (n < 10)%N → ndigits n = 1.
Proof. intros. unfold ndigits. by rewrite digits_small. Qed.

Lemma ndigits_big n : (10 ≤ n)%N → ndigits n = ndigits (n / 10) + 1.
Proof. intros. unfold ndigits. rewrite digits_big, length_app by done. simpl. lia. Qed.

Lemma ndigits_pos n : 1 ≤ ndigits n.
Proof.
  destruct (N.lt_ge_cases n 10); [by rewrite ndigits_small|].
  rewrite ndigits_big by done. unfold ndigits; lia.
Qed.

Lemma pow10_pos k : (0 < pow10 k)%N.
Proof. unfold pow10. apply N.neq_0_lt_0, N.pow_nonzero. done. Qed.

Lemma pow10_succ k : 0 ≤ k → pow10 (k + 1) = (10 * pow10 k)%N.
Proof.
  intros. unfold pow10. rewrite <- N.pow_succ_r'. f_equal. lia.
Qed.

Lemma pow10_add j k : 0 ≤ j → 0 ≤ k → pow10 (j + k) = (pow10 j * pow10 k)%N.
Proof. intros. unfold pow10. rewrite Z2N.inj_add, N.pow_add_r by done. done. Qed.

Lemma pow10_0 : pow10 0 = 1%N.
Proof. done. Qed.

Lemma pow10_Z k : 0 ≤ k → Z.of_N (pow10 k) = 10 ^ k.
Proof. intros. unfold pow10. rewrite N2Z.inj_pow, Z2N.id by done. done. Qed.

Lemma pow10_lt_mono j k : 0 ≤ j → j < k → (pow10 j < pow10 k)%N.
Proof. intros. unfold pow10. apply N.pow_lt_mono_r; lia. Qed.

Lemma pow10_le_mono j k : j ≤ k → (pow10 j ≤ pow10 k)%N.
Proof. intros. unfold pow10. apply N.pow_le_mono_r; lia. Qed.

Lemma ndigits_upper n : (n < pow10 (ndigits n))%N.
Proof.
  induction n as [n Hn|n Hn IH] using digits_ind.
  - rewrite ndigits_small by done. done.
  - rewrite ndigits_big, pow10_succ by (try pose proof (ndigits_pos (n / 10)); lia). lia.
Qed.

Lemma ndigits_lower n : n ≠ 0%N → (pow10 (ndigits n - 1) ≤ n)%N.
Proof.
  induction n as [n Hn|n Hn IH] using digits_ind; intros H0.
  - rewrite ndigits_small by done. change (pow10 (1 - 1)) with 1%N. lia.
  - rewrite ndigits_big, Z.add_simpl_r by done.
    pose proof (ndigits_pos (n / 10)).
    replace (ndigits (n / 10)) with (ndigits (n / 10) - 1 + 1) by lia.
    rewrite pow10_succ by lia. specialize (IH ltac:(lia)). lia.
Qed.

(** [ndigits] is the least exponent bounding the number. *)
Lemma ndigits_le_iff n k : 1 ≤ k → ndigits n ≤ k ↔ (n < pow10 k)%N.
Proof.
  intros Hk. split.
  - intros Hle. pose proof (ndigits_upper n). pose proof (pow10_le_mono _ _ Hle). lia.
  - intros Hlt. destruct (decide (n = 0%N)) as [->|Hn]; [by rewrite ndigits_small|].
    pose proof (ndigits_lower n Hn). destruct (Z.le_gt_cases (ndigits n) k) as [|Hgt]; [done|].
    pose proof (pow10_le_mono k (ndigits n - 1) ltac:(lia)). lia.
Qed.

Lemma ndigits_unique n k : 1 ≤ k → (pow10 (k - 1) ≤ n)%N → (n < pow10 k)%N → ndigits n = k.
Proof.
  intros Hk Hl Hu. apply ndigits_le_iff in Hu; [|done].
  destruct (decide (ndigits n ≤ k - 1)) as [Hle|]; [|lia].
  pose proof (ndigits_upper n). pose proof (pow10_le_mono _ _ Hle). lia.
Qed.

Lemma ndigits_mul_pow10 n k : n ≠ 0%N → 0 ≤ k → ndigits (n * pow10 k) = ndigits n + k.
Proof.
  intros Hn Hk. pose proof (ndigits_pos n). pose proof (ndigits_lower n Hn).
  pose proof (ndigits_upper n). pose proof (pow10_pos k). apply ndigits_unique; [lia|..].
  - replace (ndigits n + k - 1) with (ndigits n - 1 + k) by lia.
    rewrite pow10_add by lia. nia.
  - rewrite pow10_add by lia. nia.
Qed.

(** * Rounding: half a unit in the last place, and never more digits *)

Section rounding.
Local Open Scope N_scope.

Lemma round_half_even_spec c k :
  (0 ≤ k)%Z →
  (2 * Z.abs (Z.of_N (round_half_even c k) * Z.of_N (pow10 k) - Z.of_N c) ≤ Z.of_N (pow10 k))%Z.
Proof.
  intros Hk. unfold round_half_even. pose proof (pow10_pos k) as Hm.
  pose proof (N.div_mod c (pow10 k) ltac:(lia)) as Hdm.
  pose proof (N.mod_lt c (pow10 k) ltac:(lia)) as Hr.
  set (m := pow10 k) in *. set (q := c / m) in *. set (r := c mod m) in *. clearbody m q r.
  subst c. destruct (N.ltb_spec (2 * r) m); [lia|].
  destruct (N.ltb_spec m (2 * r)); [lia|]. destruct (N.even q); lia.
Qed.

Lemma round_half_even_upper c k p :
  (0 ≤ k)%Z → (0 ≤ p)%Z → c < pow10 (p + k) → round_half_even c k <= pow10 p.
Proof.
  intros Hk Hp. rewrite pow10_add by lia. intros Hc.
  pose proof (round_half_even_spec c k Hk) as Hs. pose proof (pow10_pos k).
  set (m := pow10 k) in *. set (r := round_half_even c k) in *. set (u := pow10 p) in *.
  clearbody m r u. destruct (N.le_gt_cases r u) as [|Hgt]; [done|]. exfalso. nia.
Qed.

Lemma round_half_even_exact c k : (0 ≤ k)%Z → round_half_even (c * pow10 k) k = c.
Proof.
  intros Hk. unfold round_half_even. pose proof (pow10_pos k).
  rewrite N.Div0.mod_mul, N.div_mul by lia.
  destruct (N.ltb_spec (2 * 0) (pow10 k)); [done|lia].
Qed.
End rounding.

(** [d'] is [d] rounded at a multiple of [10^k]: [k] more in the exponent, and
    at most half a unit of the last kept place away. *)
Definition rounded_at (k : Z) (d d' : decimal) : Prop :=
  0 ≤ k ∧ d_exp d' = d_exp d + k ∧ d_sign d' = d_sign d ∧
  2 * Z.abs (sval d' * 10 ^ k - sval d) ≤ 10 ^ k.

(** a usable context: at least one digit, and a non-empty exponent range *)
Definition context_ok (c : context) : bool :=
  (1 <=? prec c) && (Emin c <=? 0) && (0 <=? Emax c) && (Etiny c <=? Etop c).

Lemma sval_same_sign s a b k ea eb :
  2 * Z.abs (Z.of_N a * k - Z.of_N b) ≤ k → 2 * Z.abs (sval (Dec s a ea) * k - sval (Dec s b eb)) ≤ k.
Proof. unfold sval; simpl; destruct s; lia. Qed.

Section dec_fix.
Context (c : context) (Hc : context_ok c = true).

Lemma dec_fix_digits d d' : dec_fix c d = Ok d' → ndigits (d_coeff d') ≤ prec c.
Proof.
  unfold context_ok in Hc. unfold dec_fix. intros Hfix. assert (1 ≤ prec c ∧ Etiny c ≤ Etop c) as [Hp Het] by (btrue; lia).
  destruct (N.eqb_spec (d_coeff d) 0) as [|H0]; simplify_eq/=; [by rewrite ndigits_small; lia|].
  case_match; simplify_eq. cbv zeta in Hfix.
  set (em := Z.max _ _) in *.
  destruct (Z.ltb_spec (d_exp d) em) as [Hlt|Hge].
  - pose proof (ndigits_upper (d_coeff d)) as Hup.
    pose proof (pow10_le_mono (ndigits (d_coeff d)) (prec c + (em - d_exp d)) ltac:(lia)).
    pose proof (round_half_even_upper (d_coeff d) (em - d_exp d) (prec c)
      ltac:(lia) ltac:(lia) ltac:(lia)) as Hr.
    set (r := round_half_even _ _) in *.
    destruct (Z.ltb_spec (prec c) (ndigits r)) as [Hcar|Hnc]; case_match; simplify_eq/=; [|done].
    apply ndigits_le_iff; [lia|].
    replace (prec c) with (prec c - 1 + 1) in Hr by lia. rewrite pow10_succ in Hr by lia.
    pose proof (pow10_lt_mono (prec c - 1) (prec c) ltac:(lia) ltac:(lia)). lia.
  - simplify_eq. lia.
Qed.

Lemma dec_fix_rounded d d' :
  d_coeff d ≠ 0%N → dec_fix c d = Ok d' → ∃ k, rounded_at k d d'.
Proof.
  unfold context_ok in Hc. unfold dec_fix. intros H0 Hfix. assert (1 ≤ prec c ∧ Etiny c ≤ Etop c) as [Hp Het] by (btrue; lia).
  destruct (N.eqb_spec (d_coeff d) 0) as [|_]; [done|].
  case_match; simplify_eq. cbv zeta in Hfix. set (em := Z.max _ _) in *.
  destruct (Z.ltb_spec (d_exp d) em) as [Hlt|Hge].
  2:{ simplify_eq. exists 0. change (10 ^ 0) with 1. split_and!; [lia|lia|done|lia]. }
  pose proof (round_half_even_spec (d_coeff d) (em - d_exp d) ltac:(lia)) as Hs.
  rewrite pow10_Z in Hs by lia.
  set (r := round_half_even _ _) in *. destruct d as [s co e]; simpl in *.
  destruct (Z.ltb_spec (prec c) (ndigits r)) as [Hcar|Hnc]; case_match; simplify_eq/=.
  - exists (em - e + 1). split_and!; [simpl; lia..|done|].
    pose proof (ndigits_upper co) as Hup.
    pose proof (pow10_le_mono (ndigits co) (prec c + (em - e)) ltac:(lia)).
    pose proof (round_half_even_upper co (em - e) (prec c)
      ltac:(lia) ltac:(lia) ltac:(lia)) as Hr. fold r in Hr.
    assert (r = pow10 (prec c)) as Hreq.
    { apply N.le_antisymm; [done|]. apply N.nlt_ge. intros Hlt'.
      apply ndigits_le_iff in Hlt'; lia. }
    apply sval_same_sign. rewrite Z.pow_add_r by lia.
    assert (Z.of_N r = Z.of_N (r / 10) * 10) as Hr10.
    { rewrite Hreq. replace (prec c) with (prec c - 1 + 1) by lia. rewrite pow10_succ by lia. lia. }
    set (P := 10 ^ (em - e)) in *. change (10 ^ 1) with 10. nia.
  - exists (em - e). split_and!; [simpl; lia..|done|]. by apply sval_same_sign.
Qed.

(** A value that fits is returned unchanged. *)
Lemma dec_fix_exact d :
  d_coeff d ≠ 0%N → ndigits (d_coeff d) ≤ prec c → Etiny c ≤ d_exp d → adjusted d ≤ Emax c →
  dec_fix c d = Ok d.
Proof.
  unfold adjusted. intros H0 Hd He Ha. unfold dec_fix.
  destruct (N.eqb_spec (d_coeff d) 0) as [|_]; [done|].
  destruct (Z.ltb_spec (Etop c) (ndigits (d_coeff d) + d_exp d - prec c)) as [Hlt|_];
    [unfold Etop in Hlt; lia|]. cbv zeta.
  destruct (Z.ltb_spec (d_exp d) (Z.max (ndigits (d_coeff d) + d_exp d - prec c) (Etiny c)));
    [lia|done].
Qed.

(** The only failure of rounding is overflow. *)
Lemma dec_fix_err d s : dec_fix c d = Err s → s = Overflow.
Proof. unfold dec_fix. intros. repeat case_match; congruence. Qed.
End dec_fix.

(** * Denotations *)

Definition q10 (e : Z) : Q := ((10 # 1) ^ e)%Q.

(** [d] is a nearest decimal of exponent [d_exp d] to [q]: the error is at most
    half a unit in its last place. *)
Definition nearest (q : Q) (d : decimal) : Prop :=
  (Qabs (dq d - q) <= (1 # 2) * q10 (d_exp d))%Q.

#[export] Instance nearest_proper : Proper (Qeq ==> eq ==> iff) nearest.
Proof. intros p q Hpq d ? <-. unfold nearest. by rewrite Hpq. Qed.

#[export] Instance deq_equivalence : Equivalence deq.
Proof.
  split; unfold deq; [intros d; reflexivity|intros a b H; by rewrite H|].
  intros a b d H1 H2. by rewrite H1.
Qed.

Section denotation.
Local Open Scope Q_scope.

Lemma q10_add a b : q10 (a + b) == q10 a * q10 b.
Proof. unfold q10. apply Qpower_plus. discriminate. Qed.

Lemma q10_Z k : (0 ≤ k)%Z → q10 k == inject_Z (10 ^ k).
Proof. intros. unfold q10. by rewrite Zpower_Qpower. Qed.

Lemma q10_pos e : 0 < q10 e.
Proof. unfold q10. apply Qpower_0_lt. reflexivity. Qed.

Lemma q10_nonzero e : ~ q10 e == 0.
Proof. pose proof (q10_pos e). intros Heq. rewrite Heq in H. by apply Qlt_irrefl in H. Qed.

Lemma q10_split a b : (b ≤ a)%Z → q10 a == inject_Z (10 ^ (a - b)) * q10 b.
Proof.
  intros. rewrite <- q10_Z by lia. rewrite <- q10_add.
  by replace (a - b + b)%Z with a by lia.
Qed.

Lemma dq_unfold d : dq d == inject_Z (sval d) * q10 (d_exp d).
Proof. reflexivity. Qed.

Lemma dq_aligned d e : (e ≤ d_exp d)%Z → dq d == inject_Z (aligned d e) * q10 e.
Proof.
  intros He. rewrite dq_unfold, (q10_split _ _ He). unfold aligned.
  rewrite inject_Z_mult. ring.
Qed.

Lemma dq_zero s e : dq (Dec s 0 e) == 0.
Proof.
  unfold dq. assert (sval (Dec s 0 e) = 0%Z) as -> by (unfold sval; by destruct s).
  apply Qmult_0_l.
Qed.

Lemma dq_sign_abs (b : bool) (z : Z) e :
  (z ≠ 0%Z → b = (z <? 0)%Z) → dq (Dec b (Z.abs_N z) e) == inject_Z z * q10 e.
Proof.
  intros Hb. unfold dq, sval; cbn [d_sign d_coeff d_exp].
  destruct (decide (z = 0%Z)) as [->|Hz]; [by destruct b|].
  rewrite (Hb Hz). destruct (Z.ltb_spec z 0); rewrite N2Z.inj_abs_N.
  - by rewrite Z.abs_neq, Z.opp_involutive by lia.
  - by rewrite Z.abs_eq by lia.
Qed.

Lemma dq_add_exact a b : dq (add_exact a b) == dq a + dq b.
Proof.
  unfold add_exact. set (e := Z.min _ _).
  rewrite (dq_aligned a e), (dq_aligned b e) by lia.
  rewrite dq_sign_abs, inject_Z_plus; [ring|].
  intros Hz. by destruct (Z.eqb_spec (aligned a e + aligned b e) 0).
Qed.

Lemma dq_neg d : dq (dec_neg d) == - dq d.
Proof.
  unfold dq, sval, dec_neg; cbn [d_sign d_coeff d_exp].
  destruct (d_sign d); cbn [negb]; rewrite ?inject_Z_opp; ring.
Qed.

Lemma dq_mul_exact a b : dq (mul_exact a b) == dq a * dq b.
Proof.
  unfold dq, sval, mul_exact; cbn [d_sign d_coeff d_exp].
  fold (q10 (d_exp a + d_exp b)) (q10 (d_exp a)) (q10 (d_exp b)).
  rewrite q10_add, N2Z.inj_mul.
  destruct (d_sign a), (d_sign b); simpl xorb; cbv iota;
    rewrite ?inject_Z_opp, inject_Z_mult; ring.
Qed.

Lemma dq_abs d : dq (dec_abs d) == Qabs (dq d).
Proof.
  destruct d as [s co e]. unfold dq, dec_abs; cbn [d_sign d_coeff d_exp].
  rewrite Qabs_Qmult, (Qabs_pos (_ ^ _)) by (apply Qlt_le_weak, q10_pos).
  apply Qmult_comp; [|reflexivity]. unfold sval, Qeq; cbn; destruct s; lia.
Qed.

Lemma Qcompare_scale (x y : Z) (q : Q) : 0 < q → (inject_Z x * q ?= inject_Z y * q) = (x ?= y)%Z.
Proof.
  intros Hq. destruct (Z.compare_spec x y) as [->|Hlt|Hgt].
  - by apply Qeq_alt.
  - apply Qlt_alt. apply Qmult_lt_compat_r; [done|]. by rewrite <- Zlt_Qlt.
  - apply Qgt_alt. apply Qmult_lt_compat_r; [done|]. by rewrite <- Zlt_Qlt.
Qed.

Lemma dec_compare_spec a b : dec_compare a b = (dq a ?= dq b).
Proof.
  unfold dec_compare. set (e := Z.min _ _).
  rewrite (dq_aligned a e), (dq_aligned b e) by lia.
  symmetry. apply Qcompare_scale, q10_pos.
Qed.

Lemma dec_leb_spec a b : dec_leb a b = true ↔ dq a <= dq b.
Proof. unfold dec_leb. rewrite dec_compare_spec, Qle_alt. by destruct (_ ?= _). Qed.

Lemma dec_ltb_spec a b : dec_ltb a b = true ↔ dq a < dq b.
Proof. unfold dec_ltb. rewrite dec_compare_spec, Qlt_alt. by destruct (_ ?= _). Qed.

Lemma dec_eqb_spec a b : dec_eqb a b = true ↔ deq a b.
Proof. unfold dec_eqb, deq. rewrite dec_compare_spec, Qeq_alt. by destruct (_ ?= _). Qed.
End denotation.

(** * Correct rounding of the operations *)

Section nearest.
Local Open Scope Q_scope.

Lemma Qabs_scaled z e : Qabs (inject_Z z * q10 e) == inject_Z (Z.abs z) * q10 e.
Proof. rewrite Qabs_Qmult, (Qabs_pos (q10 e)) by (apply Qlt_le_weak, q10_pos). done. Qed.

Lemma scaled_le_half z k e :
  (0 ≤ k)%Z → (2 * Z.abs z ≤ 10 ^ k)%Z → inject_Z (Z.abs z) * q10 e <= (1 # 2) * q10 (e + k).
Proof.
  intros Hk Hz. rewrite q10_add, (q10_Z k) by done.
  apply Qle_trans with ((1 # 2) * inject_Z (10 ^ k) * q10 e); [|rewrite <- Qmult_assoc, (Qmult_comm (q10 e)); apply Qle_refl].
  apply Qmult_le_compat_r; [|apply Qlt_le_weak, q10_pos]. unfold Qle; cbn. lia.
Qed.

Lemma rounded_at_nearest k d d' : rounded_at k d d' → nearest (dq d) d'.
Proof.
  intros (Hk & He & Hs & Hr). unfold nearest.
  assert (dq d' - dq d == inject_Z (sval d' * 10 ^ k - sval d) * q10 (d_exp d)) as ->.
  { unfold Z.sub. rewrite !dq_unfold, He, q10_add, (q10_Z k), inject_Z_plus, inject_Z_opp, inject_Z_mult by done. ring. }
  rewrite Qabs_scaled, He. by apply scaled_le_half.
Qed.

Lemma nearest_refl d : nearest (dq d) d.
Proof.
  unfold nearest. assert (dq d - dq d == 0) as -> by ring.
  pose proof (q10_pos (d_exp d)). change (Qabs 0) with 0. lra.
Qed.

(** What every context operation promises: at most [prec] digits, and a
    nearest value to the exact one. *)
Definition rounds (c : context) (q : Q) (d : decimal) : Prop :=
  nearest q d ∧ (ndigits (d_coeff d) ≤ prec c)%Z.

#[export] Instance rounds_proper c : Proper (Qeq ==> eq ==> iff) (rounds c).
Proof. intros p q Hpq d ? <-. unfold rounds. by rewrite Hpq. Qed.

Context (c : context) (Hc : context_ok c = true).

Lemma dec_fix_rounds d d' : dec_fix c d = Ok d' → rounds c (dq d) d'.
Proof.
  intros Hf. split; [|by eapply dec_fix_digits].
  destruct (decide (d_coeff d = 0%N)) as [H0|H0].
  - unfold dec_fix in Hf. rewrite H0 in Hf. simplify_eq/=. destruct d as [s co e]; simpl in *; subst.
    rewrite dq_zero, <- (dq_zero s (Z.min (Z.max e (Etiny c)) (Emax c))). apply nearest_refl.
  - destruct (dec_fix_rounded c Hc d d' H0 Hf) as [k Hk]. by eapply rounded_at_nearest.
Qed.

Lemma dec_add_rounds a b d : dec_add c a b = Ok d → rounds c (dq a + dq b) d.
Proof. intros Hf. rewrite <- dq_add_exact. by apply dec_fix_rounds. Qed.

Lemma dec_sub_rounds a b d : dec_sub c a b = Ok d → rounds c (dq a - dq b) d.
Proof. intros Hf. apply dec_add_rounds in Hf. by rewrite dq_neg in Hf. Qed.

Lemma dec_mul_rounds a b d : dec_mul c a b = Ok d → rounds c (dq a * dq b) d.
Proof. intros Hf. rewrite <- dq_mul_exact. by apply dec_fix_rounds. Qed.

Lemma dec_plus_rounds a d : dec_plus c a = Ok d → rounds c (dq a) d.
Proof.
  unfold dec_plus. destruct (N.eqb_spec (d_coeff a) 0) as [H0|]; [|apply dec_fix_rounds].
  intros Hf%dec_fix_rounds. destruct a as [s co e]; simpl in *; subst co.
  unfold dec_abs in Hf; simpl in Hf. by rewrite dq_zero in *.
Qed.

Lemma strip_zeros_dq f s co e limit co' e' :
  strip_zeros f co e limit = (co', e') → deq (Dec s co' e') (Dec s co e).
Proof.
  revert co e; induction f as [|f IH]; intros co e; simpl; [intros; by simplify_eq|].
  destruct (Z.ltb_spec e limit), (N.eqb_spec (co mod 10) 0) as [Hm|]; simpl;
    try (intros; by simplify_eq).
  intros ->%IH. unfold deq. rewrite !dq_unfold; cbn [d_exp]. rewrite q10_add.
  assert (sval (Dec s co e) = (sval (Dec s (co / 10) (e + 1)) * 10)%Z) as ->.
  { unfold sval; simpl. destruct s; lia. }
  rewrite inject_Z_mult. change (q10 1) with (inject_Z 10). ring.
Qed.

Lemma strip_zeros_le f co e limit co' e' :
  strip_zeros f co e limit = (co', e') → (co' <= co)%N ∧ (e ≤ e')%Z ∧ (co ≠ 0%N → co' ≠ 0%N).
Proof.
  revert co e; induction f as [|f IH]; intros co e; simpl; [intros; simplify_eq; lia|].
  destruct (Z.ltb_spec e limit), (N.eqb_spec (co mod 10) 0) as [Hm|]; simpl;
    try (intros; simplify_eq; lia).
  intros (? & ? & ?)%IH. split_and!; [lia..|]. intros; lia.
Qed.
End nearest.

(** ** Division: the sticky digit makes the truncated quotient round correctly *)

Definition sgn (s : bool) : Z := if s then -1 else 1.

Lemma sval_sgn s co e : sval (Dec s co e) = sgn s * Z.of_N co.
Proof. unfold sval, sgn; destruct s; simpl; lia. Qed.

Lemma sticky_quotient num den co co' R H P :
  0 < den → H = 5 * P → R mod 5 = 0 →
  co * den < num < (co + 1) * den → co' = (if co mod 5 =? 0 then co + 1 else co) →
  Z.abs (R - co') ≤ H → Z.abs (R * den - num) ≤ H * den.
Proof.
  intros Hden -> HR Hq -> Habs.
  assert (Z.abs (R - (if co mod 5 =? 0 then co + 1 else co)) ≤ 5 * P - 1) as Hlt.
  { destruct (Z.eqb_spec (co mod 5) 0); lia. }
  destruct (Z.eqb_spec (co mod 5) 0); nia.
Qed.

(** the scaled quotient of [dec_div] has more digits than the context keeps *)
Lemma scaled_quotient_digits p na nb (a b num den : N) :
  1 ≤ p → a ≠ 0%N → b ≠ 0%N → ndigits a = na → ndigits b = nb →
  num = (if 0 <=? nb - na + p + 1 then (a * pow10 (nb - na + p + 1))%N else a) →
  den = (if 0 <=? nb - na + p + 1 then b else (b * pow10 (- (nb - na + p + 1)))%N) →
  p < ndigits (num / den) ∧ den ≠ 0%N.
Proof.
  intros Hp Ha Hb <- <- Hnum Hden.
  pose proof (ndigits_pos b). pose proof (ndigits_pos a).
  set (sh := ndigits b - ndigits a + p + 1) in *.
  assert (ndigits num - ndigits den = p + 1 ∧ num ≠ 0%N ∧ den ≠ 0%N) as (Hdig & Hn0 & Hd0).
  { destruct (Z.leb_spec 0 sh); subst num den.
    - rewrite ndigits_mul_pow10 by done. pose proof (pow10_pos sh). split_and!; [lia| |done]. nia.
    - rewrite ndigits_mul_pow10 by lia. pose proof (pow10_pos (- sh)). split_and!; [lia|done|]. nia. }
  split; [|done].
  pose proof (ndigits_lower num Hn0) as Hl. pose proof (ndigits_upper den) as Hu.
  pose proof (ndigits_pos den).
  replace (ndigits num - 1) with (p + ndigits den) in Hl by lia.
  rewrite pow10_add in Hl by lia.
  assert (pow10 p ≤ num / den)%N as Hle by (apply N.div_le_lower_bound; nia).
  apply Z.lt_nge. intros Hbad%ndigits_le_iff; lia.
Qed.

Section division.
Local Open Scope Q_scope.
Context (c : context) (Hc : context_ok c = true).

(** the value of a scaled quotient *)
Lemma dq_quotient a b (num den : N) sh :
  d_coeff b ≠ 0%N →
  num = (if 0 <=? sh then (d_coeff a * pow10 sh)%N else d_coeff a)%Z →
  den = (if 0 <=? sh then d_coeff b else (d_coeff b * pow10 (- sh))%N)%Z →
  dq a / dq b * inject_Z (Z.of_N den) ==
  inject_Z (sgn (xorb (d_sign a) (d_sign b)) * Z.of_N num) * q10 (d_exp a - d_exp b - sh).
Proof.
  intros Hb Hnum Hden. destruct a as [sa ca ea], b as [sb cb eb]; cbn [d_coeff d_sign d_exp] in *.
  rewrite !dq_unfold, !sval_sgn; cbn [d_exp].
  assert (~ inject_Z (Z.of_N cb) == 0) as Hcb by (unfold Qeq; cbn; lia).
  assert (~ inject_Z (sgn sb) == 0) as Hsb by (unfold Qeq; cbn; destruct sb; simpl; lia).
  assert (inject_Z (sgn (xorb sa sb)) == inject_Z (sgn sa) / inject_Z (sgn sb)) as Hsgn
    by (by destruct sa, sb).
  assert (q10 (ea - eb - sh) == q10 ea / q10 eb / q10 sh) as Hexp.
  { pose proof (q10_nonzero eb). pose proof (q10_nonzero sh).
    replace ea with (ea - eb - sh + sh + eb)%Z at 2 by lia. rewrite !q10_add. field. done. }
  rewrite Hexp, !inject_Z_mult, Hsgn.
  pose proof (q10_nonzero eb). pose proof (q10_nonzero sh).
  destruct (Z.leb_spec 0 sh); subst num den; rewrite N2Z.inj_mul, inject_Z_mult, pow10_Z by lia.
  - rewrite <- q10_Z by lia. field. done.
  - rewrite <- q10_Z by lia. assert (q10 (- sh) == / q10 sh) as ->.
    { unfold q10. by rewrite Qpower_opp. }
    field. done.
Qed.

Lemma exact_quotient_rounds s (num den : N) e lim d co e' :
  (den ≠ 0)%N → (num mod den = 0)%N →
  strip_zeros (length (digits (num / den))) (num / den) e lim = (co, e') →
  dec_fix c (Dec s co e') = Ok d →
  rounds c (inject_Z (sgn s * Z.of_N num) * q10 e / inject_Z (Z.of_N den)) d.
Proof using Hc.
  intros Hden Hrem Hstrip Hfix.
  assert (~ inject_Z (Z.of_N den) == 0) as Hden0 by (unfold Qeq; cbn; lia).
  apply strip_zeros_dq with (s := s) in Hstrip. apply dec_fix_rounds in Hfix; [|done].
  unfold deq in Hstrip. rewrite Hstrip, dq_unfold, sval_sgn in Hfix; cbn [d_exp] in Hfix.
  assert (Z.of_N num = (Z.of_N (num / den) * Z.of_N den)%Z) as Hn.
  { rewrite <- N2Z.inj_mul. f_equal. rewrite N.mul_comm. by apply N.Div0.div_exact. }
  rewrite Hn at 1. rewrite Z.mul_assoc, inject_Z_mult.
  assert (inject_Z (sgn s * Z.of_N (num / den)) * inject_Z (Z.of_N den) * q10 e / inject_Z (Z.of_N den)
    == inject_Z (sgn s * Z.of_N (num / den)) * q10 e) as -> by (field; done). done.
Qed.

Lemma inexact_quotient_step s (co : N) e d :
  (prec c < ndigits co)%Z → dec_fix c (Dec s co e) = Ok d →
  ∃ k r, (1 ≤ k)%Z ∧ d = Dec s r (e + k) ∧ (2 * Z.abs (Z.of_N r * 10 ^ k - Z.of_N co) ≤ 10 ^ k)%Z.
Proof using Hc.
  intros Hdig Hfix.
  assert (co ≠ 0)%N as Hco0.
  { intros ->. rewrite ndigits_small in Hdig by done. unfold context_ok in Hc. btrue. lia. }
  destruct (dec_fix_rounded c Hc (Dec s co e) d Hco0 Hfix) as (k & Hk & He & Hs & Hr).
  pose proof (dec_fix_digits c Hc _ _ Hfix) as Hdd.
  destruct d as [s' r e']; cbn [d_sign d_exp d_coeff] in *; subst s' e'. rewrite !sval_sgn in Hr.
  exists k, r. split_and!; [|done|destruct s; cbn [sgn] in Hr; lia].
  destruct (decide (k = 0%Z)) as [->|]; [|lia]. change (10 ^ 0)%Z with 1%Z in Hr.
  assert (r = co) as -> by (unfold sgn in Hr; destruct s; lia). lia.
Qed.

Lemma inexact_quotient_nearest s (num den co : N) e d :
  (den ≠ 0)%N → (num mod den ≠ 0)%N → (prec c < ndigits (num / den))%Z →
  co = (if (num / den mod 5 =? 0)%N then num / den + 1 else num / den)%N →
  dec_fix c (Dec s co e) = Ok d →
  nearest (inject_Z (sgn s * Z.of_N num) * q10 e / inject_Z (Z.of_N den)) d.
Proof using Hc.
  intros Hden Hrem Hdig Hco Hfix.
  assert (1 ≤ prec c)%Z as Hp by (unfold context_ok in Hc; btrue; lia).
  assert (~ inject_Z (Z.of_N den) == 0) as Hden0 by (unfold Qeq; cbn; lia).
  destruct (inexact_quotient_step s co e d) as (k & r & Hk & -> & Hr); [|done|].
  { apply Z.lt_nge. intros Hle%ndigits_le_iff; [|done]. apply (proj1 (Z.lt_nge _ _) Hdig).
    apply ndigits_le_iff; [done|]. subst co. case_match; lia. }
  assert (10 ^ k = 10 * 10 ^ (k - 1))%Z as Hpow by (rewrite <- Z.pow_succ_r by lia; f_equal; lia).
  pose proof (sticky_quotient (Z.of_N num) (Z.of_N den) (Z.of_N (num / den)) (Z.of_N co)
    (Z.of_N r * 10 ^ k) (5 * 10 ^ (k - 1)) (10 ^ (k - 1))) as Hst.
  unfold nearest. rewrite dq_unfold, sval_sgn; cbn [d_exp].
  assert (inject_Z (sgn s * Z.of_N r) * q10 (e + k) - inject_Z (sgn s * Z.of_N num) * q10 e / inject_Z (Z.of_N den)
    == inject_Z (sgn s * (Z.of_N r * 10 ^ k * Z.of_N den - Z.of_N num)) * q10 e / inject_Z (Z.of_N den)) as ->.
  { rewrite q10_add, (q10_Z k) by lia. unfold Z.sub. rewrite !inject_Z_mult, inject_Z_plus, !inject_Z_mult, inject_Z_opp.
    field. done. }
  unfold Qdiv. rewrite Qabs_Qmult, Qabs_scaled, (Qabs_pos (/ _)) by (apply Qlt_le_weak, Qinv_lt_0_compat; unfold Qlt; cbn; lia).
  apply Qle_shift_div_r; [unfold Qlt; cbn; lia|].
  rewrite q10_add, (q10_Z k) by lia.
  apply Qle_trans with (inject_Z (5 * 10 ^ (k - 1) * Z.of_N den) * q10 e).
  - apply Qmult_le_compat_r; [|apply Qlt_le_weak, q10_pos]. rewrite <- Zle_Qle.
    assert (Z.abs (sgn s * (Z.of_N r * 10 ^ k * Z.of_N den - Z.of_N num))
      = Z.abs (Z.of_N r * 10 ^ k * Z.of_N den - Z.of_N num))%Z as -> by (destruct s; cbn [sgn]; lia).
    apply Hst; [lia|done| | | |lia].
    + rewrite Hpow. replace (_ * _)%Z with (Z.of_N r * 2 * 10 ^ (k - 1) * 5)%Z by ring. by apply Z.mod_mul.
    + pose proof (N.div_mod num den Hden). pose proof (N.mod_lt num den Hden).
      generalize dependent (num mod den)%N. generalize (num / den)%N. intros q. intros. subst num. lia.
    + subst co. destruct (N.eqb_spec (num / den mod 5) 0), (Z.eqb_spec (Z.of_N (num / den) mod 5) 0); lia.
  - rewrite Hpow, !inject_Z_mult. change (inject_Z 5) with (5#1). change (inject_Z 10) with (10#1).
    apply Qle_lteq; right; ring.
Qed.

Lemma dq_nonzero d : d_coeff d ≠ 0%N → ~ dq d == 0.
Proof.
  intros Hb. unfold dq. intros [H|H]%Qmult_integral; [|by apply q10_nonzero in H].
  unfold Qeq, sval in H. cbn in H. destruct (d_sign d); lia.
Qed.

Lemma dec_div_rounds a b d : dec_div c a b = Ok d → rounds c (dq a / dq b) d ∧ d_coeff b ≠ 0%N.
Proof using Hc.
  intros Hdiv. assert (1 ≤ prec c)%Z as Hp by (unfold context_ok in Hc; btrue; lia).
  unfold dec_div in Hdiv.
  destruct (N.eqb_spec (d_coeff b) 0) as [|Hb]; [by case_match|]. split; [|done].
  destruct (N.eqb_spec (d_coeff a) 0) as [Ha|Ha].
  { assert (dq a / dq b == 0) as ->.
    { destruct a as [sa ca ea]; cbn in Ha; subst. rewrite dq_zero. unfold Qdiv. apply Qmult_0_l. }
    apply dec_fix_rounds in Hdiv; [|done]. by rewrite dq_zero in Hdiv. }
  set (sh := (ndigits (d_coeff b) - ndigits (d_coeff a) + prec c + 1)%Z) in *.
  set (num := if (0 <=? sh)%Z then _ else d_coeff a) in *.
  set (den := if (0 <=? sh)%Z then d_coeff b else _) in *. cbv zeta in Hdiv.
  destruct (scaled_quotient_digits (prec c) _ _ (d_coeff a) (d_coeff b) num den
    Hp Ha Hb eq_refl eq_refl eq_refl eq_refl) as [Hdig Hden].
  pose proof (dq_quotient a b num den sh Hb eq_refl eq_refl) as Hval.
  assert (~ inject_Z (Z.of_N den) == 0) as Hden0 by (unfold Qeq; cbn; lia).
  assert (dq a / dq b == inject_Z (sgn (xorb (d_sign a) (d_sign b)) * Z.of_N num)
    * q10 (d_exp a - d_exp b - sh) / inject_Z (Z.of_N den)) as ->.
  { rewrite <- Hval. field. by auto using dq_nonzero. }
  destruct (N.eqb_spec (num mod den) 0) as [Hrem|Hrem]; cbn [negb] in Hdiv.
  - destruct (strip_zeros _ _ _ _) as [co e'] eqn:Hstrip. by eapply exact_quotient_rounds.
  - split; [by eapply inexact_quotient_nearest|by eapply dec_fix_digits].
Qed.
End division.

(** ** [quantize]: the requested exponent, or [InvalidOperation] *)

Section quantize.
Context (c : context) (Hc : context_ok c = true).

Lemma dec_fix_zero s e :
  Etiny c ≤ e → e ≤ Emax c → dec_fix c (Dec s 0 e) = Ok (Dec s 0 e).
Proof. intros. unfold dec_fix; simpl. repeat f_equal. lia. Qed.

Lemma rescale_exp d e : d_exp (rescale d e) = e.
Proof. unfold rescale. by repeat case_match. Qed.

Lemma rescale_nearest d e : nearest (dq d) (rescale d e).
Proof.
  unfold rescale. destruct d as [s co ed]; cbn [d_coeff d_sign d_exp].
  destruct (N.eqb_spec co 0) as [->|]; [rewrite dq_zero, <- (dq_zero s e); apply nearest_refl|].
  destruct (Z.leb_spec e ed).
  - assert (dq (Dec s co ed) == dq (Dec s (co * pow10 (ed - e)) e))%Q as ->; [|apply nearest_refl].
    rewrite (dq_aligned _ e) by done. rewrite dq_unfold. unfold aligned. rewrite !sval_sgn; cbn [d_exp].
    by rewrite N2Z.inj_mul, pow10_Z, Z.mul_assoc by lia.
  - apply (rounded_at_nearest (e - ed)). split_and!; [lia|simpl; lia|done|].
    pose proof (round_half_even_spec co (e - ed) ltac:(lia)) as Hr.
    rewrite pow10_Z in Hr by lia. rewrite !sval_sgn. destruct s; cbn [sgn]; lia.
Qed.

Lemma dec_fix_fits d :
  ndigits (d_coeff d) ≤ prec c → Etiny c ≤ d_exp d ≤ Emax c → adjusted d ≤ Emax c →
  dec_fix c d = Ok d.
Proof using Hc.
  intros Hd [He He'] Ha. destruct (decide (d_coeff d = 0%N)) as [Hz|Hz]; [|by apply dec_fix_exact].
  destruct d as [s co e]; cbn in *; subst. by apply dec_fix_zero.
Qed.

(** [quantize] succeeds exactly when the rescaled value fits. *)
Lemma dec_quantize_Ok d q r :
  dec_quantize c d q = Ok r ↔
  Etiny c ≤ d_exp q ≤ Emax c ∧ r = rescale d (d_exp q) ∧ ndigits (d_coeff r) ≤ prec c ∧
  adjusted r ≤ Emax c ∧
  (d_coeff d ≠ 0%N → adjusted d ≤ Emax c ∧ adjusted d - d_exp q + 1 ≤ prec c).
Proof using Hc.
  assert (1 ≤ prec c) as Hp by (unfold context_ok in Hc; btrue; lia).
  unfold dec_quantize. pose proof (rescale_exp d (d_exp q)) as He.
  destruct (Z.leb_spec (Etiny c) (d_exp q)) as [Hlo|Hlo], (Z.leb_spec (d_exp q) (Emax c)) as [Hhi|Hhi];
    cbn [negb andb]; try (split; [done|lia]).
  destruct (N.eqb_spec (d_coeff d) 0) as [Hz|Hz].
  { rewrite dec_fix_zero by done. unfold rescale. rewrite Hz. cbn [N.eqb].
    unfold adjusted. split; [|naive_solver].
    intros [= <-]. cbn [d_coeff d_exp]. rewrite ndigits_small by done. naive_solver lia. }
  destruct (Z.ltb_spec (Emax c) (adjusted d)); [split; [done|naive_solver lia]|].
  destruct (Z.ltb_spec (prec c) (adjusted d - d_exp q + 1)); [split; [done|naive_solver lia]|].
  set (ans := rescale d (d_exp q)) in *. cbv zeta.
  destruct (Z.ltb_spec (Emax c) (adjusted ans)); [split; [done|intros (_ & -> & _ & ? & _); lia]|].
  destruct (Z.ltb_spec (prec c) (ndigits (d_coeff ans))); [split; [done|intros (_ & -> & ? & _); lia]|].
  rewrite dec_fix_fits by lia. naive_solver.
Qed.

Lemma dec_quantize_err d q s : dec_quantize c d q = Err s → s = InvalidOperation.
Proof using Hc.
  unfold dec_quantize. pose proof (rescale_exp d (d_exp q)) as He.
  destruct (Z.leb_spec (Etiny c) (d_exp q)), (Z.leb_spec (d_exp q) (Emax c)); cbn [negb andb]; try (by intros [= <-]).
  destruct (d_coeff d =? 0)%N; [by rewrite dec_fix_zero by done|].
  destruct (Emax c <? adjusted d); [by intros [= <-]|].
  destruct (prec c <? adjusted d - d_exp q + 1); [by intros [= <-]|]. cbv zeta.
  destruct (Z.ltb_spec (Emax c) (adjusted (rescale d (d_exp q)))); [by intros [= <-]|].
  destruct (Z.ltb_spec (prec c) (ndigits (d_coeff (rescale d (d_exp q))))); [by intros [= <-]|].
  rewrite dec_fix_fits by lia. done.
Qed.

Lemma dec_quantize_spec d q r :
  dec_quantize c d q = Ok r → d_exp r = d_exp q ∧ rounds c (dq d) r.
Proof using Hc.
  intros (_ & -> & Hd & _)%dec_quantize_Ok.
  split; [apply rescale_exp|]. split; [apply rescale_nearest|done].
Qed.

Lemma rescale_same d : rescale d (d_exp d) = d.
Proof.
  destruct d as [s co e]. unfold rescale; cbn [d_coeff d_sign d_exp].
  destruct (N.eqb_spec co 0) as [->|]; [done|]. rewrite Z.leb_refl, Z.sub_diag.
  by rewrite N.mul_1_r.
Qed.

(** Quantizing twice to the same quantum changes nothing. *)
Lemma dec_quantize_idemp d q r : dec_quantize c d q = Ok r → dec_quantize c r q = Ok r.
Proof using Hc.
  intros (Hr & -> & Hd & Ha & _)%dec_quantize_Ok. apply dec_quantize_Ok.
  pose proof (rescale_exp d (d_exp q)) as He.
  set (r := rescale d (d_exp q)) in *. clearbody r.
  split_and!; [lia|lia|rewrite <- He; symmetry; apply rescale_same|done|done|].
  intros _. unfold adjusted in *. lia.
Qed.
End quantize.

(** * Reading plain notation back *)

Definition is_digit (a : ascii) : bool := (48 <=? N_of_ascii a)%N && (N_of_ascii a <=? 57)%N.
Definition digit_val (a : ascii) : N := (N_of_ascii a - 48)%N.

(** the longest prefix of digits, and what follows it *)
Fixpoint span_digits (s : string) : list N * string :=
  match s with
  | EmptyString => ([], EmptyString)
  | String a s' =>
      if is_digit a then let '(l, r) := span_digits s' in (digit_val a :: l, r) else ([], s)
  end.

Definition starts_with_digit (s : string) : bool :=
  match s with String a _ => is_digit a | EmptyString => false end.

Definition read_unsigned (sign : bool) (s : string) : option decimal :=
  let '(ip, s) := span_digits s in
  match s with
  | EmptyString => Some (Dec sign (undigits ip) 0)
  | String "." s' =>
      let '(fp, s'') := span_digits s' in
      match s'' with
      | EmptyString => Some (Dec sign (undigits (ip ++ fp)) (- Z.of_nat (length fp)))
      | _ => None
      end
  | _ => None
  end.

(** [-?digits(.digits)?] *)
Definition read_plain (s : string) : option decimal :=
  match s with
  | String "-" s' => read_unsigned true s'
  | _ => read_unsigned false s
  end.

Section text.
Lemma digit_char_spec d : (d < 10)%N → is_digit (digit_char d) = true ∧ digit_val (digit_char d) = d.
Proof.
  intros Hd. unfold is_digit, digit_val, digit_char.
  rewrite N_ascii_embedding by lia. split; [|lia].
  destruct (N.leb_spec 48 (48 + d)), (N.leb_spec (48 + d) 57); done || lia.
Qed.

Lemma string_of_digits_cons d l :
  string_of_digits (d :: l) = String (digit_char d) (string_of_digits l).
Proof. done. Qed.

Lemma string_app_cons a s t : (String a s +:+ t)%string = String a (s +:+ t)%string.
Proof. done. Qed.

Lemma span_digits_app l rest :
  Forall (λ d, (d < 10)%N) l → starts_with_digit rest = false →
  span_digits (string_of_digits l +:+ rest)%string = (l, rest).
Proof.
  intros Hl Hr. induction Hl as [|d l Hd Hl IH].
  - destruct rest as [|a r]; simpl in *; [done|]. by rewrite Hr.
  - rewrite string_of_digits_cons, string_app_cons. cbn [span_digits].
    destruct (digit_char_spec d Hd) as [-> ->]. by rewrite IH.
Qed.

Lemma string_app_nil s : (s +:+ "")%string = s.
Proof. induction s as [|a s IH]; [done|]. by rewrite string_app_cons, IH. Qed.

Lemma string_app_assoc s t u : ((s +:+ t) +:+ u = s +:+ (t +:+ u))%string.
Proof. induction s as [|a s IH]; [done|]. by rewrite !string_app_cons, IH. Qed.

Lemma string_app_empty s : ("" +:+ s = s)%string.
Proof. done. Qed.

Lemma zeros_lt_10 k : Forall (λ d, (d < 10)%N) (zeros k).
Proof. apply Forall_replicate. done. Qed.

Lemma undigits_acc l a :
  fold_left (λ a d, 10 * a + d)%N l a = (a * 10 ^ N.of_nat (length l) + undigits l)%N.
Proof.
  unfold undigits. revert a. induction l as [|d l IH]; intros a; cbn [fold_left length].
  { change (N.of_nat 0) with 0%N. rewrite N.pow_0_r. lia. }
  rewrite IH, (IH (10 * 0 + d)%N), Nat2N.inj_succ, N.pow_succ_r'. lia.
Qed.

Lemma undigits_app l1 l2 :
  undigits (l1 ++ l2) = (undigits l1 * 10 ^ N.of_nat (length l2) + undigits l2)%N.
Proof. unfold undigits at 1. rewrite fold_left_app. apply undigits_acc. Qed.

Lemma undigits_zeros k : undigits (zeros k) = 0%N.
Proof.
  unfold zeros. induction (Z.to_nat k) as [|n IH]; [done|].
  change (replicate (S n) 0%N) with ([0%N] ++ replicate n 0%N).
  rewrite undigits_app, IH. done.
Qed.

Lemma read_unsigned_digits sign ip fp :
  Forall (λ d, (d < 10)%N) ip → Forall (λ d, (d < 10)%N) fp →
  read_unsigned sign (plain_text ip fp) = Some (Dec sign (undigits (ip ++ fp)) (- Z.of_nat (length fp))).
Proof.
  intros Hip Hfp. unfold read_unsigned, plain_text.
  rewrite span_digits_app by (done || by destruct fp).
  destruct fp as [|d fp]; [by rewrite app_nil_r|]. rewrite string_app_cons.
  change ("" +:+ string_of_digits (d :: fp))%string with (string_of_digits (d :: fp)).
  assert (span_digits (string_of_digits (d :: fp)) = (d :: fp, ""%string)) as Hspan.
  { rewrite <- (string_app_nil (string_of_digits (d :: fp))). by apply span_digits_app. }
  by rewrite Hspan.
Qed.

Lemma read_plain_digits sign ip fp :
  Forall (λ d, (d < 10)%N) ip → Forall (λ d, (d < 10)%N) fp → ip ≠ [] →
  read_plain ((if (sign : bool) then "-" else "") +:+ plain_text ip fp)%string
  = Some (Dec sign (undigits (ip ++ fp)) (- Z.of_nat (length fp))).
Proof.
  intros Hip Hfp Hne. rewrite <- read_unsigned_digits by done. destruct sign; [done|].
  unfold plain_text. destruct ip as [|d ip]; [done|].
  apply Forall_cons in Hip as [Hd _]. rewrite string_of_digits_cons, string_app_cons.
  destruct (digit_char_spec d Hd) as [Hdig _].
  change ("" +:+ ?t)%string with t. destruct (digit_char d) as [[] [] [] [] [] [] [] []]; done.
Qed.

(** The plain notation of a decimal: its sign, its digits with a point, and where
    the point stands. *)
Lemma format_f_plain d :
  let e := if (d_coeff d =? 0)%N && (0 <? d_exp d) then 0 else d_exp d in
  ∃ ip fp, format_f d = ((if d_sign d then "-" else "") +:+ plain_text ip fp)%string ∧
    Forall (λ x, (x < 10)%N) ip ∧ Forall (λ x, (x < 10)%N) fp ∧ ip ≠ [] ∧
    Z.of_nat (length fp) = Z.max 0 (- e) ∧ Z.of_nat (length ip) = Z.max 1 (e + ndigits (d_coeff d)) ∧
    undigits (ip ++ fp) = (d_coeff d * pow10 e)%N ∧ (fp ≠ [] → last fp = last (digits (d_coeff d))).
Proof.
  cbv zeta. unfold format_f, ndigits. destruct d as [s co ed]; cbn [d_sign d_coeff d_exp].
  set (e := if _ && _ then 0 else ed). clearbody e. cbv zeta. pose proof (digits_lt_10 co) as H10. pose proof (undigits_digits co) as Hund.
  assert (digits co ≠ []) as Hne.
  { intros Hnil. pose proof (ndigits_pos co) as Hpos. unfold ndigits in Hpos. rewrite Hnil in Hpos. simpl in Hpos. lia. }
  assert (0 < length (digits co))%nat as Hl0 by (destruct (digits co); [done|simpl; lia]).
  assert (e ≤ 0 → pow10 e = 1%N) as Hpow by (intros; unfold pow10; by replace (Z.to_N e) with 0%N by lia).
  destruct (Z.ltb_spec (e + Z.of_nat (length (digits co))) 0) as [Hneg|Hneg].
  { exists [0%N], (zeros (- (e + Z.of_nat (length (digits co)))) ++ digits co). split; [done|].
    split; [by repeat constructor|]. split; [apply Forall_app; split; [apply zeros_lt_10|done]|]. split; [done|].
    rewrite length_app. unfold zeros at 1. rewrite length_replicate. split; [lia|]. split; [simpl; lia|]. split.
    - rewrite !undigits_app, undigits_zeros, Hund, Hpow by lia. by rewrite N.mul_0_l, !N.add_0_l, N.mul_1_r.
    - intros _. rewrite last_app. destruct (last (digits co)) eqn:Hl; [done|]. by apply last_None in Hl. }
  destruct (Z.ltb_spec (Z.of_nat (length (digits co))) (e + Z.of_nat (length (digits co)))) as [Hbig|Hbig].
  { exists (digits co ++ zeros (e + Z.of_nat (length (digits co)) - Z.of_nat (length (digits co)))), []. split; [done|].
    split; [apply Forall_app; split; [done|apply zeros_lt_10]|]. split; [constructor|]. split; [by destruct (digits co)|].
    rewrite length_app. unfold zeros. rewrite length_replicate. split; [simpl; lia|]. split; [lia|]. split; [|done].
    rewrite app_nil_r, undigits_app. fold (zeros e). rewrite length_replicate.
    assert (undigits (replicate (Z.to_nat (e + Z.of_nat (length (digits co)) - Z.of_nat (length (digits co)))) 0%N) = 0%N) as -> by apply undigits_zeros.
    rewrite Hund, N.add_0_r. unfold pow10. do 2 f_equal. lia. }
  exists (match take (Z.to_nat (e + Z.of_nat (length (digits co)))) (digits co) with [] => [0%N] | l => l end),
    (drop (Z.to_nat (e + Z.of_nat (length (digits co)))) (digits co)). split; [done|].
  split; [case_match eqn:Ht; [by repeat constructor|]; rewrite <- Ht; by apply Forall_take|].
  split; [by apply Forall_drop|]. split; [by case_match|]. rewrite length_drop. split; [lia|]. split.
  { pose proof (length_take (digits co) (Z.to_nat (e + Z.of_nat (length (digits co))))) as Ht. case_match; simpl in *; lia. }
  split.
  - rewrite Hpow, N.mul_1_r by lia. set (i := Z.to_nat (e + Z.of_nat (length (digits co)))).
    transitivity (undigits (take i (digits co) ++ drop i (digits co))); [|by rewrite take_drop].
    destruct (take i (digits co)); [|done]. by rewrite !undigits_app.
  - set (i := Z.to_nat (e + Z.of_nat (length (digits co)))). intros Hd.
    transitivity (last (take i (digits co) ++ drop i (digits co))); [|by rewrite take_drop].
    rewrite last_app. destruct (last (drop i (digits co))) eqn:Hl; [done|]. by apply last_None in Hl.
Qed.

Lemma plain_value s co ed (ip fp : list N) :
  let e := if (co =? 0)%N && (0 <? ed) then 0 else ed in
  Z.of_nat (length fp) = Z.max 0 (- e) → undigits (ip ++ fp) = (co * pow10 e)%N →
  deq (Dec s (undigits (ip ++ fp)) (- Z.of_nat (length fp))) (Dec s co ed).
Proof.
  cbv zeta. intros Hl Hu. assert (deq (Dec s co (if (co =? 0)%N && (0 <? ed) then 0 else ed)) (Dec s co ed)) as <-.
  { destruct (N.eqb_spec co 0) as [->|]; [|done]. destruct (0 <? ed); [|done]. unfold deq. by rewrite !dq_zero. }
  set (e := if _ && _ then 0 else ed) in *. clearbody e. rewrite Hu, Hl.
  destruct (Z.le_gt_cases 0 e) as [He|He].
  - unfold deq. rewrite (dq_aligned (Dec s co e) 0) by (simpl; lia). rewrite dq_unfold, sval_sgn. unfold aligned. rewrite sval_sgn; cbn [d_exp].
    replace (- Z.max 0 (- e)) with 0 by lia. by rewrite N2Z.inj_mul, pow10_Z, Z.mul_assoc, Z.sub_0_r by lia.
  - assert (pow10 e = 1%N) as -> by (unfold pow10; by replace (Z.to_N e) with 0%N by lia).
    rewrite N.mul_1_r. by replace (- Z.max 0 (- e)) with e by lia.
Qed.

(** The plain notation of a decimal reads back to an equal decimal. *)
Lemma read_plain_format_f d : ∃ d', read_plain (format_f d) = Some d' ∧ deq d' d ∧ d_sign d' = d_sign d.
Proof.
  destruct (format_f_plain d) as (ip & fp & -> & Hip & Hfp & Hne & Hl & _ & Hu & _).
  eexists. split; [by apply read_plain_digits|]. split; [|done]. destruct d as [s co ed]. by apply plain_value.
Qed.
End text.

(** * Normal forms: one representative per value *)

Definition normal (d : decimal) : Prop :=
  (d_coeff d = 0%N ∧ d_exp d = 0) ∨ (d_coeff d mod 10 ≠ 0)%N.

(** [d] is a value of the context: its digits and exponent need no rounding. *)
Definition fits (c : context) (d : decimal) : bool :=
  (ndigits (d_coeff d) <=? prec c) && (Etiny c <=? d_exp d) && (d_exp d <=? Emax c)
  && (adjusted d <=? Emax c).

Section normal_form.
Lemma deq_aligned a b e :
  e ≤ d_exp a → e ≤ d_exp b → deq a b ↔ aligned a e = aligned b e.
Proof.
  intros Ha Hb. unfold deq. rewrite (dq_aligned a e), (dq_aligned b e) by done. split.
  - intros H. apply Qmult_inj_r in H; [|apply q10_nonzero]. by apply inject_Z_injective.
  - by intros ->.
Qed.

Lemma normal_unique_le a b :
  (d_coeff a mod 10 ≠ 0)%N → (d_coeff b mod 10 ≠ 0)%N → d_exp a ≤ d_exp b → deq a b → a = b.
Proof.
  intros Ha Hb He Heq. apply (deq_aligned a b (d_exp a)) in Heq; [|lia|lia].
  destruct a as [sa ca ea], b as [sb cb eb]. unfold aligned in Heq. rewrite !sval_sgn in Heq.
  cbn [d_exp d_coeff] in *. rewrite Z.sub_diag, Z.mul_1_r in Heq.
  assert (0 < 10 ^ (eb - ea)) as Hp by (apply Z.pow_pos_nonneg; lia).
  destruct (decide (ea = eb)) as [->|Hne].
  - rewrite Z.sub_diag, Z.mul_1_r in Heq.
    destruct sa, sb; cbn [sgn] in Heq; f_equal; lia.
  - exfalso. replace (eb - ea) with (1 + (eb - ea - 1)) in Heq by lia.
    rewrite Z.pow_add_r in Heq by lia. set (P := 10 ^ (eb - ea - 1)) in *. apply Ha.
    assert (0 < P) by (apply Z.pow_pos_nonneg; lia).
    assert (Z.of_N ca = Z.of_N cb * P * 10) as Hca by (destruct sa, sb; cbn [sgn] in Heq; nia).
    apply N2Z.inj. rewrite N2Z.inj_mod, Hca. by rewrite Z.mod_mul.
Qed.

Lemma deq_zero_coeff a b : deq a b → d_coeff a = 0%N → d_coeff b = 0%N.
Proof.
  intros Heq Ha. destruct (decide (d_coeff b = 0%N)) as [|Hb]; [done|].
  apply dq_nonzero in Hb. destruct a as [s co e]; cbn in Ha; subst.
  unfold deq in Heq. rewrite dq_zero in Heq. by rewrite Heq in Hb.
Qed.

Lemma normal_unique a b :
  normal a → normal b → deq a b →
  d_coeff a = d_coeff b ∧ d_exp a = d_exp b ∧ (d_coeff a ≠ 0%N → d_sign a = d_sign b).
Proof.
  intros [[Ha Hea]|Ha] [[Hb Heb]|Hb] Heq.
  - split_and!; congruence.
  - exfalso. apply Hb. by rewrite (deq_zero_coeff a b).
  - exfalso. apply Ha. symmetry in Heq. by rewrite (deq_zero_coeff b a).
  - destruct (Z.le_ge_cases (d_exp a) (d_exp b)).
    + by rewrite (normal_unique_le a b).
    + symmetry in Heq. by rewrite (normal_unique_le b a).
Qed.

Lemma strip_zeros_normal f co e limit co' e' :
  strip_zeros f co e limit = (co', e') → co ≠ 0%N → ndigits co ≤ Z.of_nat f →
  ndigits co + e - 1 ≤ limit → (co' mod 10 ≠ 0)%N.
Proof.
  revert co e; induction f as [|f IH]; intros co e Hst H0 Hf Hl; cbn [strip_zeros] in Hst.
  { pose proof (ndigits_pos co). lia. }
  destruct (N.eqb_spec (co mod 10) 0) as [Hm|Hm].
  2:{ rewrite andb_false_r in Hst. by simplify_eq. }
  assert (10 ≤ co)%N as H10 by lia. rewrite ndigits_big in Hf, Hl by done.
  pose proof (ndigits_pos (co / 10)).
  destruct (Z.ltb_spec e limit); [|lia]. apply IH in Hst; lia || done.
Qed.

Context (c : context) (Hc : context_ok c = true).

Lemma dec_fix_of_fits d : fits c d = true → dec_fix c d = Ok d.
Proof using Hc. unfold fits. intros. btrue. apply dec_fix_fits; [done|lia..]. Qed.

(** Rounding returns a value of the context. *)
Lemma dec_fix_result_fits d r : dec_fix c d = Ok r → fits c r = true.
Proof using Hc.
  intros Hfix. pose proof (dec_fix_digits c Hc d r Hfix) as Hdig. unfold context_ok in Hc. unfold fits, adjusted.
  assert (1 ≤ prec c ∧ Etiny c ≤ Etop c ∧ Emin c ≤ 0 ≤ Emax c) as (Hp & Het & Hem) by (btrue; lia).
  assert (Etiny c ≤ d_exp r ≤ Emax c ∧ ndigits (d_coeff r) + d_exp r - 1 ≤ Emax c) as [[H1 H2] H3];
    [|rewrite !andb_true_iff, !Z.leb_le; lia].
  pose proof (ndigits_pos (d_coeff r)). unfold dec_fix in Hfix. unfold Etop, Etiny in *.
  destruct (N.eqb_spec (d_coeff d) 0) as [Hz|Hz].
  { injection Hfix as <-. cbn [d_exp d_coeff]. rewrite ndigits_small by done. lia. }
  destruct (Z.ltb_spec (Emax c - prec c + 1) (ndigits (d_coeff d) + d_exp d - prec c)); [done|]. cbv zeta in Hfix.
  destruct (Z.ltb_spec (d_exp d) (Z.max (ndigits (d_coeff d) + d_exp d - prec c) (Emin c - prec c + 1))).
  - set (carry := prec c <? _) in Hfix.
    destruct (Z.ltb_spec (Emax c - prec c + 1) (if carry then Z.max (ndigits (d_coeff d) + d_exp d - prec c) (Emin c - prec c + 1) + 1
      else Z.max (ndigits (d_coeff d) + d_exp d - prec c) (Emin c - prec c + 1))); [done|].
    injection Hfix as <-. cbn [d_exp d_coeff] in *. destruct carry; lia.
  - injection Hfix as <-. pose proof (ndigits_pos (d_coeff d)). lia.
Qed.

(** Trailing zeros beyond the precision are dropped without changing the value. *)
Lemma dec_fix_shift s co e j :
  co ≠ 0%N → 0 ≤ j → Etiny c ≤ e → fits c (Dec s co (e + j)) = true →
  ∃ r, dec_fix c (Dec s (co * pow10 j) e) = Ok r ∧ deq r (Dec s co (e + j)) ∧ d_sign r = s ∧ d_coeff r ≠ 0%N.
Proof using Hc.
  intros Hco Hj He Hf. unfold fits, adjusted in Hf. cbn [d_coeff d_exp] in Hf. btrue.
  unfold context_ok in Hc. assert (1 ≤ prec c) as Hp by (btrue; lia). unfold dec_fix. cbn [d_coeff d_exp d_sign].
  pose proof (pow10_pos j). destruct (N.eqb_spec (co * pow10 j) 0) as [Hz|Hz]; [lia|].
  rewrite ndigits_mul_pow10 by done. destruct (Z.ltb_spec (Etop c) (ndigits co + j + e - prec c)) as [Hlt|_]; [unfold Etop in Hlt; lia|].
  cbv zeta. destruct (Z.ltb_spec e (Z.max (ndigits co + j + e - prec c) (Etiny c))) as [Hlt|Hge].
  - replace (Z.max (ndigits co + j + e - prec c) (Etiny c)) with (ndigits co + j + e - prec c) by lia.
    set (k := ndigits co + j + e - prec c - e). assert (0 ≤ k ≤ j) as Hk by lia.
    assert (co * pow10 j = co * pow10 (j - k) * pow10 k)%N as Heq.
    { replace j with ((j - k) + k) at 1 by lia. rewrite pow10_add by lia. lia. }
    rewrite Heq, round_half_even_exact, ndigits_mul_pow10 by (done || lia).
    destruct (Z.ltb_spec (prec c) (ndigits co + (j - k))); [lia|].
    destruct (Z.ltb_spec (Etop c) (ndigits co + j + e - prec c)) as [Hlt'|_]; [unfold Etop in Hlt'; lia|].
    eexists. split; [done|]. pose proof (pow10_pos (j - k)). split; [|split; [done|cbn [d_coeff]; lia]].
    unfold deq. rewrite (dq_aligned (Dec s co (e + j)) (ndigits co + j + e - prec c)) by (cbn [d_exp]; lia). rewrite dq_unfold, sval_sgn. unfold aligned.
    rewrite sval_sgn; cbn [d_exp]. rewrite N2Z.inj_mul, pow10_Z, Z.mul_assoc by lia. by replace (e + j - (ndigits co + j + e - prec c)) with (j - k) by lia.
  - eexists. split; [done|]. split; [|split; [done|cbn [d_coeff]; lia]].
    unfold deq. rewrite (dq_aligned (Dec s co (e + j)) e) by (cbn [d_exp]; lia). rewrite dq_unfold, sval_sgn. unfold aligned.
    rewrite sval_sgn; cbn [d_exp]. rewrite N2Z.inj_mul, pow10_Z, Z.mul_assoc by lia. by replace (e + j - e) with j by lia.
Qed.

Lemma strip_zeros_fits f s co e co' e' :
  strip_zeros f co e (Emax c) = (co', e') → co ≠ 0%N → fits c (Dec s co e) = true → fits c (Dec s co' e') = true.
Proof using Type.
  revert co e. induction f as [|f IH]; intros co e Hst H0 Hf; cbn [strip_zeros] in Hst; [by injection Hst as <- <-|].
  destruct (Z.ltb_spec e (Emax c)); [|by injection Hst as <- <-]. destruct (N.eqb_spec (co mod 10) 0) as [Hm|Hm]; [|by injection Hst as <- <-].
  cbn [andb] in Hst. assert (10 ≤ co)%N as H10 by lia. apply IH in Hst; [done|lia|].
  unfold fits, adjusted in *. cbn [d_coeff d_exp] in *. rewrite ndigits_big in Hf by done. btrue. rewrite !andb_true_iff, !Z.leb_le. lia.
Qed.

(** [normalize]: the normal form of the rounded value *)
Lemma dec_normalize_of_fix d r :
  dec_fix c d = Ok r → ∃ n, dec_normalize c d = Ok n ∧ deq n r ∧ normal n ∧ d_sign n = d_sign r ∧ fits c n = true.
Proof using Hc.
  intros Hfix. pose proof (dec_fix_result_fits d r Hfix) as Hfit. unfold dec_normalize. rewrite Hfix.
  destruct r as [s co e]; cbn [d_coeff d_sign d_exp].
  destruct (N.eqb_spec co 0) as [->|Hco].
  { eexists; split; [done|]. split_and!; [unfold deq; by rewrite !dq_zero|by left|done|].
    unfold context_ok, Etiny in Hc. unfold fits, adjusted, Etiny. cbn [d_coeff d_exp]. rewrite ndigits_small by done.
    btrue. rewrite !andb_true_iff, !Z.leb_le. unfold Etop in *. lia. }
  destruct (strip_zeros _ _ _ _) as [co' e'] eqn:Hst. eexists; split; [done|].
  split_and!; [by eapply strip_zeros_dq| |done|by eapply strip_zeros_fits]. right. cbn [d_coeff].
  unfold fits, adjusted in Hfit. btrue. cbn [d_coeff d_exp] in *.
  eapply strip_zeros_normal; [done|done|unfold ndigits; lia|lia].
Qed.

Lemma dec_normalize_spec d :
  fits c d = true →
  ∃ n, dec_normalize c d = Ok n ∧ deq n d ∧ normal n ∧ d_sign n = d_sign d.
Proof using Hc.
  intros Hfit. destruct (dec_normalize_of_fix d d (dec_fix_of_fits d Hfit)) as (n & ? & ? & ? & ? & _). eauto.
Qed.
End normal_form.
