(* ===== verification/Floats.v ===== *)
(** Python floats: binary64, with the operations of [SpecFloat]. *)

From Stdlib Require Import SpecFloat.
From S2P Require Import Prelude.
Local Open Scope Z_scope.

#[export] Instance spec_float_eq_dec : EqDecision spec_float.
Proof. solve_decision. Defined.

Definition SF64 (m e : Z) : spec_float := binary_normalize 53 1024 m e false.
Definition fmul : spec_float → spec_float → spec_float := SFmul 53 1024.
Definition fadd : spec_float → spec_float → spec_float := SFadd 53 1024.
Definition fsub : spec_float → spec_float → spec_float := SFsub 53 1024.

(** builtin [min(a, b)] and [max(a, b)] on floats *)
Definition fmin (a b : spec_float) : spec_float := if SFltb b a then b else a.
Definition fmax (a b : spec_float) : spec_float := if SFltb a b then b else a.

(** [x > n] of a float and an [int], which Python compares exactly *)
Definition float_gtb_int (x : spec_float) (n : Z) : bool :=
  match x with
  | S754_nan => false
  | S754_infinity negative => negb negative
  | S754_zero _ => n <? 0
  | S754_finite negative m e =>
      let m := if negative then Z.neg m else Z.pos m in
      if 0 <=? e then n <? m * 2 ^ e else n * 2 ^ (- e) <? m
  end.
