(* ===== verification/Errors.v ===== *)
(** The calculation engine's typed failures
    (packages/calculation-engine/fel_calculation_engine/errors.py).

    A failing call is an [Err] of the exception class it raises.  Messages and
    diagnostic [details] are left out, except the data other code reads: the
    missing id, the offending cycle, the node that violates the cutoff.
    [Escaped] is an exception of Python or its standard library that the code
    does not translate into a [CalculationEngineError].  [OutOfFuel] is not an
    exception of the code: it marks a loop whose model was given too little fuel,
    and the termination theorems show that no operation returns it. *)

From S2P Require Import Prelude Decimals.

Inductive py_exception :=
| PyValueError
| PyKeyError
| PyNotImplementedError
| PyIndexError
| PyAttributeError
| PyDecimal (s : signal).

Inductive calc_error :=
| UnitError
| PeriodError
| ValueTypeError
| NodeValidationError
| LineageError
| GraphError
| MissingInputError (missing : string)
| CycleError (cycle : list string)
| CutoffViolationError (node_id : string)
| FormulaError
| IterationPolicyError
| IterationConvergenceError
| ScenarioError
| CanonicalizationError
| SnapshotError
| Escaped (exn : py_exception)
| OutOfFuel.

#[export] Instance py_exception_eq_dec : EqDecision py_exception.
Proof. solve_decision. Defined.
#[export] Instance calc_error_eq_dec : EqDecision calc_error.
Proof. solve_decision. Defined.

(** the class attribute [code] *)
Definition code (e : calc_error) : option string :=
  match e with
  | UnitError => Some "UNIT_ERROR"
  | PeriodError => Some "PERIOD_ERROR"
  | ValueTypeError => Some "VALUE_TYPE_ERROR"
  | NodeValidationError => Some "NODE_VALIDATION_ERROR"
  | LineageError => Some "LINEAGE_ERROR"
  | GraphError => Some "GRAPH_ERROR"
  | MissingInputError _ => Some "MISSING_INPUT"
  | CycleError _ => Some "CYCLE_DETECTED"
  | CutoffViolationError _ => Some "TEMPORAL_SCOPE_VIOLATION"
  | FormulaError => Some "FORMULA_ERROR"
  | IterationPolicyError => Some "ITERATION_POLICY_ERROR"
  | IterationConvergenceError => Some "ITERATION_NONCONVERGENCE"
  | ScenarioError => Some "SCENARIO_ERROR"
  | CanonicalizationError => Some "CANONICALIZATION_ERROR"
  | SnapshotError => Some "SNAPSHOT_ERROR"
  | Escaped _ | OutOfFuel => None
  end%string.

(** [isinstance(e, CalculationEngineError)] *)
Definition is_engine_error (e : calc_error) : bool :=
  match e with Escaped _ | OutOfFuel => false | _ => true end.

Notation calc := (result calc_error).
