(* ===== verification/Periods.v ===== *)
(** Typed fiscal periods and the calendar that dates them
    (packages/calculation-engine/fel_calculation_engine/periods.py).

    [fiscal_period] is the union of [FiscalQuarter] and [FiscalYear]; the
    constructors' [__post_init__] checks are [fiscal_quarter] and
    [fiscal_year].  [date] and the day count are those of Python's proleptic
    Gregorian [datetime.date] (years 1 to 9999). *)

From S2P Require Import Prelude Decimals Errors.
Local Open Scope Z_scope.

(** * Data *)

Inductive period_kind := QUARTER | YEAR.

#[export] Instance period_kind_eq_dec : EqDecision period_kind.
Proof. solve_decision. Defined.

Inductive fiscal_period :=
| FiscalQuarter (fiscal_year quarter : Z)
| FiscalYear (fiscal_year : Z).

#[export] Instance fiscal_period_eq_dec : EqDecision fiscal_period.
Proof. solve_decision. Defined.

Definition period_year (p : fiscal_period) : Z :=
  match p with FiscalQuarter y _ => y | FiscalYear y => y end.

Definition kind (p : fiscal_period) : period_kind :=
  match p with FiscalQuarter _ _ => QUARTER | FiscalYear _ => YEAR end.

(** * Construction *)

(** [FiscalPeriod.__post_init__] *)
Definition check_year (year : Z) : calc unit :=
  ensure ((1000 <=? year) && (year <=? 9999)) PeriodError.

Definition fiscal_quarter (year quarter : Z) : calc fiscal_period :=
  check_year year;;
  ensure ((1 <=? quarter) && (quarter <=? 4)) PeriodError;;
  mret (FiscalQuarter year quarter).

Definition fiscal_year (year : Z) : calc fiscal_period :=
  check_year year;;
  mret (FiscalYear year).

(** what the constructors guarantee *)
Definition period_ok (p : fiscal_period) : bool :=
  (1000 <=? period_year p) && (period_year p <=? 9999) &&
  match p with FiscalQuarter _ q => (1 <=? q) && (q <=? 4) | FiscalYear _ => true end.

(** * Order and arithmetic *)

Definition ordinal (p : fiscal_period) : Z :=
  match p with FiscalQuarter y q => y * 4 + (q - 1) | FiscalYear y => y end.

(** [__lt__], [__le__]: an order within a kind, an error across kinds *)
Definition same_kind (p q : fiscal_period) : calc unit :=
  ensure (bool_decide (kind p = kind q)) PeriodError.

Definition period_lt (p q : fiscal_period) : calc bool :=
  same_kind p q;; mret (ordinal p <? ordinal q).

Definition period_le (p q : fiscal_period) : calc bool :=
  same_kind p q;; mret (ordinal p <=? ordinal q).

Definition shift (p : fiscal_period) (steps : Z) : calc fiscal_period :=
  match p with
  | FiscalQuarter y q =>
      let o := ordinal p + steps in
      fiscal_quarter (o / 4) (o mod 4 + 1)
  | FiscalYear y => fiscal_year (y + steps)
  end.

Definition next (p : fiscal_period) : calc fiscal_period := shift p 1.
Definition prev (p : fiscal_period) : calc fiscal_period := shift p (-1).

Definition quarters (year : Z) : list fiscal_period :=
  [FiscalQuarter year 1; FiscalQuarter year 2; FiscalQuarter year 3; FiscalQuarter year 4].

(** * Keys *)

Definition str_of_Z (z : Z) : string :=
  ((if (z <? 0)%Z then "-" else "") +:+ string_of_digits (digits (Z.abs_N z)))%string.

Definition key (p : fiscal_period) : string :=
  match p with
  | FiscalQuarter y q => "FY" +:+ str_of_Z y +:+ "Q" +:+ str_of_Z q
  | FiscalYear y => "FY" +:+ str_of_Z y
  end%string.

(** [^FY(\d{4})(?:Q([1-4]))?$], full match *)
Definition match_key (text : string) : option (Z * option Z) :=
  match text with
  | String "F" (String "Y" (String a (String b (String c (String d rest))))) =>
      if is_digit a && is_digit b && is_digit c && is_digit d then
        let year := Z.of_N (undigits [digit_val a; digit_val b; digit_val c; digit_val d]) in
        match rest with
        | EmptyString => Some (year, None)
        | String "Q" (String q EmptyString) =>
            if is_digit q && (1 <=? digit_val q)%N && (digit_val q <=? 4)%N
            then Some (year, Some (Z.of_N (digit_val q))) else None
        | _ => None
        end
      else None
  | _ => None
  end.

Definition parse_period (text : string) : calc fiscal_period :=
  match match_key text with
  | None => Err PeriodError
  | Some (year, None) => fiscal_year year
  | Some (year, Some q) => fiscal_quarter year q
  end.

(** * Dates *)

Record date := Date { d_year : Z; d_month : Z; d_day : Z }.

#[export] Instance date_eq_dec : EqDecision date.
Proof. solve_decision. Defined.

Definition is_leap (y : Z) : bool :=
  (y mod 4 =? 0) && (negb (y mod 100 =? 0) || (y mod 400 =? 0)).

Definition days_in_month (y m : Z) : Z :=
  if m =? 2 then (if is_leap y then 29 else 28)
  else if (m =? 4) || (m =? 6) || (m =? 9) || (m =? 11) then 30 else 31.

Definition days_before_year (y : Z) : Z :=
  let y := y - 1 in y * 365 + y / 4 - y / 100 + y / 400.

Definition days_before_month (y m : Z) : Z :=
  nth (Z.to_nat m) [0; 0; 31; 59; 90; 120; 151; 181; 212; 243; 273; 304; 334] 0
  + (if (2 <? m) && is_leap y then 1 else 0).

Definition toordinal (d : date) : Z :=
  days_before_year (d_year d) + days_before_month (d_year d) (d_month d) + d_day d.

(** [date(y, m, d)] *)
Definition make_date (y m d : Z) : calc date :=
  ensure ((1 <=? y) && (y <=? 9999) && (1 <=? m) && (m <=? 12) && (1 <=? d) && (d <=? days_in_month y m))
    (Escaped PyValueError);;
  mret (Date y m d).

(** [d - timedelta(days=1)], for a date after 0001-01-01 *)
Definition day_before (d : date) : date :=
  if 1 <? d_day d then Date (d_year d) (d_month d) (d_day d - 1)
  else if 1 <? d_month d
       then Date (d_year d) (d_month d - 1) (days_in_month (d_year d) (d_month d - 1))
       else Date (d_year d - 1) 12 31.

Definition add_months (first_of_month : date) (months : Z) : calc date :=
  let t := d_month first_of_month - 1 + months in
  make_date (d_year first_of_month + t / 12) (t mod 12 + 1) 1.

(** * The fiscal calendar *)

(** [FiscalCalendar.__post_init__] *)
Definition fiscal_calendar (year_end_month : Z) : calc Z :=
  ensure ((1 <=? year_end_month) && (year_end_month <=? 12)) PeriodError;;
  mret year_end_month.

Definition year_start (year_end_month fy : Z) : calc date :=
  if year_end_month =? 12 then make_date fy 1 1
  else make_date (fy - 1) (year_end_month + 1) 1.

Definition span (year_end_month : Z) (p : fiscal_period) : calc (date * date) :=
  start ← year_start year_end_month (period_year p);
  start ← match p with
          | FiscalQuarter _ q => add_months start (3 * (q - 1))
          | FiscalYear _ => mret start
          end;
  after ← add_months start (match p with FiscalQuarter _ _ => 3 | FiscalYear _ => 12 end);
  mret (start, day_before after).

Definition days (year_end_month : Z) (p : fiscal_period) : calc Z :=
  '(s, e) ← span year_end_month p;
  mret (toordinal e - toordinal s + 1).

(** * Construction and order *)

Lemma fiscal_quarter_Ok y q p :
  fiscal_quarter y q = Ok p ↔ p = FiscalQuarter y q ∧ period_ok p = true.
Proof.
  unfold fiscal_quarter, check_year, period_ok. split.
  - intros H. ok_inv. simpl. by rewrite Hv, Hv0.
  - intros [-> H]. simpl in H. apply andb_true_iff in H as [H1 H2]. by rewrite H1, H2.
Qed.

Lemma fiscal_year_Ok y p : fiscal_year y = Ok p ↔ p = FiscalYear y ∧ period_ok p = true.
Proof.
  unfold fiscal_year, check_year, period_ok. split.
  - intros H. ok_inv. simpl. by rewrite Hv.
  - intros [-> H]. simpl in H. rewrite andb_true_r in H. by rewrite H.
Qed.

(** A period is determined by its kind and its ordinal. *)
Lemma ordinal_inj p q :
  period_ok p = true → period_ok q = true → kind p = kind q → ordinal p = ordinal q → p = q.
Proof.
  unfold period_ok. destruct p, q; simpl; intros Hp Hq ? Ho; try done; btrue; f_equal; lia.
Qed.

Lemma shift_spec p n q : shift p n = Ok q → kind q = kind p ∧ ordinal q = ordinal p + n ∧ period_ok q = true.
Proof.
  destruct p as [y k|y]; simpl.
  - intros [-> Hok]%fiscal_quarter_Ok. split_and!; [done| |done]. simpl. lia.
  - intros [-> Hok]%fiscal_year_Ok. split_and!; done.
Qed.

Lemma shift_intro p n q :
  period_ok q = true → kind q = kind p → ordinal q = ordinal p + n → shift p n = Ok q.
Proof.
  intros Hok Hk Ho. destruct p as [y k|y], q as [y' k'|y']; try done; simpl in *.
  - apply fiscal_quarter_Ok. split; [|]; unfold period_ok in *; simpl in *; btrue.
    + f_equal; lia.
    + rewrite !andb_true_iff. lia.
  - apply fiscal_year_Ok. by rewrite <- Ho.
Qed.

(** * Keys round-trip *)

Lemma digits_4 y : 1000 ≤ y ≤ 9999 →
  digits (Z.abs_N y) = [Z.to_N (y / 1000); Z.to_N (y / 100 mod 10); Z.to_N (y / 10 mod 10); Z.to_N (y mod 10)].
Proof.
  intros Hy. rewrite digits_big, digits_big, digits_big, digits_small by lia.
  simpl. repeat f_equal; lia.
Qed.

Lemma undigits_4 a b c d :
  Z.of_N (undigits [a; b; c; d]) = Z.of_N a * 1000 + Z.of_N b * 100 + Z.of_N c * 10 + Z.of_N d.
Proof. unfold undigits; simpl. lia. Qed.

Lemma digit_char_val a : is_digit a = true → digit_char (digit_val a) = a ∧ (digit_val a < 10)%N.
Proof.
  unfold is_digit, digit_char, digit_val. intros H. btrue. split; [|lia].
  replace (48 + (N_of_ascii a - 48))%N with (N_of_ascii a) by lia. apply ascii_N_embedding.
Qed.

Lemma match_key_year y : 1000 ≤ y ≤ 9999 → match_key ("FY" +:+ str_of_Z y) = Some (y, None).
Proof.
  intros Hy. unfold str_of_Z. destruct (Z.ltb_spec y 0); [lia|]. rewrite digits_4 by done.
  unfold match_key. rewrite !string_of_digits_cons. simpl.
  repeat match goal with |- context [is_digit (digit_char ?n)] =>
    destruct (digit_char_spec n ltac:(lia)) as [-> ->] end.
  cbn [andb]. rewrite undigits_4. do 2 f_equal. lia.
Qed.

Lemma match_key_quarter y q : 1000 ≤ y ≤ 9999 → 1 ≤ q ≤ 4 →
  match_key ("FY" +:+ str_of_Z y +:+ "Q" +:+ str_of_Z q) = Some (y, Some q).
Proof.
  intros Hy Hq. unfold str_of_Z. destruct (Z.ltb_spec y 0); [lia|]. destruct (Z.ltb_spec q 0); [lia|].
  rewrite digits_4, (digits_small (Z.abs_N q)) by lia.
  unfold match_key. rewrite !string_of_digits_cons. simpl.
  repeat match goal with |- context [is_digit (digit_char ?n)] =>
    destruct (digit_char_spec n ltac:(lia)) as [-> ->] end.
  cbn [andb]. destruct (N.leb_spec 1 (Z.abs_N q)), (N.leb_spec (Z.abs_N q) 4); try lia.
  rewrite undigits_4. cbn [andb]. do 2 f_equal; [lia|f_equal; lia].
Qed.

Lemma parse_key p : period_ok p = true → parse_period (key p) = Ok p.
Proof.
  intros Hok. pose proof Hok as Hb. unfold period_ok in Hb. unfold parse_period.
  destruct p as [y q|y]; simpl in Hb; btrue; unfold key.
  - rewrite match_key_quarter by lia. by apply fiscal_quarter_Ok.
  - rewrite match_key_year by lia. by apply fiscal_year_Ok.
Qed.

Lemma string_of_4_digits a b c d :
  is_digit a = true → is_digit b = true → is_digit c = true → is_digit d = true →
  let y := Z.of_N (undigits [digit_val a; digit_val b; digit_val c; digit_val d]) in
  1000 ≤ y ≤ 9999 → str_of_Z y = String a (String b (String c (String d EmptyString))).
Proof.
  intros Ha Hb Hc Hd y Hy. unfold str_of_Z. destruct (Z.ltb_spec y 0); [lia|].
  rewrite digits_4, !string_of_digits_cons by done.
  pose proof (undigits_4 (digit_val a) (digit_val b) (digit_val c) (digit_val d)) as Hval. fold y in Hval. clearbody y.
  destruct (digit_char_val a Ha) as [Hca ?], (digit_char_val b Hb) as [Hcb ?],
    (digit_char_val c Hc) as [Hcc ?], (digit_char_val d Hd) as [Hcd ?].
  rewrite <- Hca at 1. rewrite <- Hcb at 1. rewrite <- Hcc at 1. rewrite <- Hcd at 1.
  change ("" +:+ ?t)%string with t. repeat f_equal; lia.
Qed.

Lemma match_key_sound s y q :
  match_key s = Some (y, q) → 1000 ≤ y ≤ 9999 →
  s = key (match q with Some q => FiscalQuarter y q | None => FiscalYear y end).
Proof.
  intros H Hy. unfold match_key in H.
  repeat (case_match; try discriminate H); simplify_eq; btrue; unfold key.
  - by erewrite string_of_4_digits.
  - erewrite string_of_4_digits by done.
    match goal with Hq : is_digit ?q = true, _ : (1 ≤ digit_val ?q)%N |- _ =>
      destruct (digit_char_val q Hq) as [Hc ?];
      assert (str_of_Z (Z.of_N (digit_val q)) = String q EmptyString) as ->; [|done] end.
    unfold str_of_Z. rewrite Zabs2N.id, digits_small, string_of_digits_cons, Hc by lia.
    case_match eqn:Hlt; [apply Z.ltb_lt in Hlt; lia|done].
Qed.

Lemma parse_period_sound s p : parse_period s = Ok p → s = key p ∧ period_ok p = true.
Proof.
  unfold parse_period. destruct (match_key s) as [[y [q|]]|] eqn:Hm; [..|done].
  - intros [-> Hok]%fiscal_quarter_Ok. split; [|done]. apply match_key_sound in Hm; [done|].
    unfold period_ok in Hok; simpl in Hok. btrue. lia.
  - intros [-> Hok]%fiscal_year_Ok. split; [|done]. apply match_key_sound in Hm; [done|].
    unfold period_ok in Hok; simpl in Hok. btrue. lia.
Qed.

(** * The calendar *)

(** months since year 0 *)
Definition month_index (d : date) : Z := d_year d * 12 + (d_month d - 1).

Definition first_of (i : Z) : date := Date (i / 12) (i mod 12 + 1) 1.

Lemma make_date_first i :
  make_date (i / 12) (i mod 12 + 1) 1 = if (12 <=? i) && (i <? 120000) then Ok (first_of i) else Err (Escaped PyValueError).
Proof.
  unfold make_date, first_of, days_in_month.
  destruct (Z.leb_spec 12 i), (Z.ltb_spec i 120000); cbn [andb];
    (destruct (Z.leb_spec 1 (i / 12)), (Z.leb_spec (i / 12) 9999); try lia; try done).
  destruct (Z.leb_spec 1 (i mod 12 + 1)); [|lia]. destruct (Z.leb_spec (i mod 12 + 1) 12); [|lia].
  cbn [andb]. repeat case_match; done || lia.
Qed.

Lemma add_months_first i k : add_months (first_of i) k =
  if (12 <=? i + k) && (i + k <? 120000) then Ok (first_of (i + k)) else Err (Escaped PyValueError).
Proof.
  unfold add_months. rewrite <- make_date_first. unfold first_of; cbn [d_year d_month]. f_equal; lia.
Qed.

Lemma year_start_first m fy : 1 ≤ m ≤ 12 → 1000 ≤ fy ≤ 9999 →
  year_start m fy = Ok (first_of (12 * (fy - 1) + m)).
Proof.
  intros Hm Hfy. pose proof (make_date_first (12 * (fy - 1) + m)) as Hmk.
  destruct (Z.leb_spec 12 (12 * (fy - 1) + m)), (Z.ltb_spec (12 * (fy - 1) + m) 120000); try lia.
  cbn [andb] in Hmk. rewrite <- Hmk. unfold year_start.
  destruct (Z.eqb_spec m 12) as [->|]; f_equal; lia.
Qed.

(** the number of months of a period, and the index of its first month *)
Definition months_of (p : fiscal_period) : Z := match kind p with QUARTER => 3 | YEAR => 12 end.
Definition start_index (m : Z) (p : fiscal_period) : Z := months_of p * ordinal p - 12 + m.

Lemma span_spec m p : 1 ≤ m ≤ 12 → period_ok p = true →
  span m p =
    if start_index m p + months_of p <? 120000
    then Ok (first_of (start_index m p), day_before (first_of (start_index m p + months_of p)))
    else Err (Escaped PyValueError).
Proof.
  intros Hm Hok. unfold period_ok in Hok. unfold span.
  destruct p as [y q|y]; simpl in Hok; btrue; rewrite year_start_first by (simpl; lia);
    unfold start_index, months_of; simpl; unfold mbind, result_bind.
  - rewrite add_months_first.
    replace (12 * (y - 1) + m + 3 * (q - 1)) with (3 * (y * 4 + (q - 1)) - 12 + m) by lia.
    set (i := 3 * (y * 4 + (q - 1)) - 12 + m).
    destruct (Z.leb_spec 12 i); [|lia]. destruct (Z.ltb_spec i 120000); [|lia]. cbn [andb].
    rewrite add_months_first. destruct (Z.leb_spec 12 (i + 3)); [|lia]. cbn [andb].
    by destruct (Z.ltb_spec (i + 3) 120000).
  - replace (12 * (y - 1) + m) with (12 * y - 12 + m) by lia. set (i := 12 * y - 12 + m).
    unfold mret, result_ret. rewrite add_months_first.
    destruct (Z.leb_spec 12 (i + 12)); [|lia]. cbn [andb].
    by destruct (Z.ltb_spec (i + 12) 120000).
Qed.

Lemma days_before_year_succ y :
  days_before_year (y + 1) = days_before_year y + 365 + (if is_leap y then 1 else 0).
Proof.
  unfold days_before_year, is_leap. cbv zeta. replace (y + 1 - 1) with y by lia.
  assert (y / 4 = (y - 1) / 4 + (if y mod 4 =? 0 then 1 else 0)) as -> by (destruct (Z.eqb_spec (y mod 4) 0); lia).
  assert (y / 100 = (y - 1) / 100 + (if y mod 100 =? 0 then 1 else 0)) as -> by (destruct (Z.eqb_spec (y mod 100) 0); lia).
  assert (y / 400 = (y - 1) / 400 + (if y mod 400 =? 0 then 1 else 0)) as -> by (destruct (Z.eqb_spec (y mod 400) 0); lia).
  generalize ((y - 1) / 4) ((y - 1) / 100) ((y - 1) / 400). intros u v w.
  destruct (Z.eqb_spec (y mod 4) 0), (Z.eqb_spec (y mod 100) 0), (Z.eqb_spec (y mod 400) 0); cbn; lia.
Qed.

Lemma day_before_first i : toordinal (day_before (first_of i)) = toordinal (first_of i) - 1.
Proof.
  unfold day_before, first_of; cbn [d_day d_month d_year]. change (1 <? 1) with false. cbv iota.
  destruct (Z.ltb_spec 1 (i mod 12 + 1)) as [Hm|Hm].
  - unfold toordinal; cbn [d_day d_month d_year]. generalize (i / 12). intros y.
    replace (i mod 12 + 1 - 1) with (i mod 12) by lia. assert (0 ≤ i mod 12 < 12) as Hb by lia.
    revert Hm Hb. generalize (i mod 12). intros m Hm Hb. unfold days_in_month, days_before_month.
    assert (m = 1 ∨ m = 2 ∨ m = 3 ∨ m = 4 ∨ m = 5 ∨ m = 6 ∨ m = 7 ∨ m = 8 ∨ m = 9 ∨ m = 10 ∨ m = 11) as Hc by lia.
    destruct_or! Hc; subst m; simpl; destruct (is_leap y); lia.
  - unfold toordinal; cbn [d_day d_month d_year]. replace (i mod 12 + 1) with 1 by lia.
    generalize (i / 12). intros y. pose proof (days_before_year_succ (y - 1)) as Hy.
    replace (y - 1 + 1) with y in Hy by lia. rewrite Hy. unfold days_before_month.
    change (Z.to_nat 12) with 12%nat. change (Z.to_nat 1) with 1%nat. cbn.
    destruct (is_leap (y - 1)); lia.
Qed.

Lemma shift_ordinal p q a b : kind p = kind q → ordinal p + a = ordinal q + b → shift p a = shift q b.
Proof. destruct p, q; intros Hk Ho; try done; unfold shift; simpl in *; by rewrite Ho. Qed.

Lemma start_index_shift m p n q :
  shift p n = Ok q → start_index m q = start_index m p + n * months_of p ∧ months_of q = months_of p.
Proof.
  intros (Hk & Ho & _)%shift_spec. unfold start_index, months_of. rewrite Hk, Ho. split; [|done].
  destruct (kind p); lia.
Qed.

Lemma days_spec m p : 1 ≤ m ≤ 12 → period_ok p = true →
  days m p = if start_index m p + months_of p <? 120000
             then Ok (toordinal (first_of (start_index m p + months_of p)) - toordinal (first_of (start_index m p)))
             else Err (Escaped PyValueError).
Proof.
  intros Hm Hok. unfold days. rewrite span_spec by done.
  destruct (_ <? _); [|done]. unfold mbind, result_bind, mret, result_ret.
  rewrite day_before_first. f_equal. lia.
Qed.

Lemma toordinal_first_year i :
  toordinal (first_of (i + 12)) - toordinal (first_of i)
  = 365 + (if is_leap ((i + 10) / 12) then 1 else 0).
Proof.
  unfold toordinal, first_of; cbn [d_year d_month d_day].
  replace ((i + 12) / 12) with (i / 12 + 1) by lia. replace ((i + 12) mod 12) with (i mod 12) by lia.
  rewrite days_before_year_succ. unfold days_before_month.
  destruct (Z.ltb_spec 2 (i mod 12 + 1)); cbn [andb].
  - replace ((i + 10) / 12) with (i / 12 + 1) by lia.
    generalize (is_leap (i / 12)) (is_leap (i / 12 + 1)). intros [] []; lia.
  - replace ((i + 10) / 12) with (i / 12) by lia. generalize (is_leap (i / 12)). intros []; lia.
Qed.

Lemma toordinal_first_succ i : toordinal (first_of i) < toordinal (first_of (i + 1)).
Proof.
  unfold toordinal, first_of; cbn [d_year d_month d_day].
  destruct (decide (i mod 12 = 11)) as [Hm|Hm].
  - replace ((i + 1) / 12) with (i / 12 + 1) by lia. replace ((i + 1) mod 12 + 1) with 1 by lia.
    rewrite Hm, days_before_year_succ. change (11 + 1) with 12. unfold days_before_month.
    change (Z.to_nat 12) with 12%nat. change (Z.to_nat 1) with 1%nat. cbn.
    destruct (is_leap (i / 12)); lia.
  - replace ((i + 1) / 12) with (i / 12) by lia. replace ((i + 1) mod 12) with (i mod 12 + 1) by lia.
    generalize (i / 12). intros y. assert (0 ≤ i mod 12 < 11) as Hb by lia.
    revert Hb. generalize (i mod 12). intros k Hb. unfold days_before_month.
    assert (k = 0 ∨ k = 1 ∨ k = 2 ∨ k = 3 ∨ k = 4 ∨ k = 5 ∨ k = 6 ∨ k = 7 ∨ k = 8 ∨ k = 9 ∨ k = 10) as Hc by lia.
    destruct_or! Hc; subst k; simpl; destruct (is_leap y); lia.
Qed.

Lemma toordinal_first_lt i k : 0 < k → toordinal (first_of i) < toordinal (first_of (i + k)).
Proof.
  intros Hk. replace k with (Z.of_nat (Z.to_nat (k - 1)) + 1) by lia.
  induction (Z.to_nat (k - 1)) as [|n IH]; [apply toordinal_first_succ|].
  etrans; [exact IH|]. replace (i + (Z.of_nat (S n) + 1)) with (i + (Z.of_nat n + 1) + 1) by lia.
  apply toordinal_first_succ.
Qed.

(** * Properties *)

(** [parse_period] and [key] are inverse bijections between the well-formed
    periods and the texts [parse_period] accepts: a key parses to its period,
    and a text that parses is the key of the result. *)
Theorem period_key_roundtrip s p :
  parse_period s = Ok p ↔ s = key p ∧ period_ok p = true.
Proof.
  split; [apply parse_period_sound|]. intros [-> Hok]. by apply parse_key.
Qed.

(** Shifting is an action of the integers on the periods of a kind: steps
    add up whatever the intermediate rollover, zero steps are the identity,
    and an error is always a [PeriodError] (a year outside 1000..9999). *)
Theorem shift_action p q a b :
  period_ok p = true → shift p a = Ok q →
  shift p 0 = Ok p ∧ shift q b = shift p (a + b) ∧ shift q (- a) = Ok p ∧
  period_lt p q = Ok (0 <? a).
Proof.
  intros Hok Hs. pose proof Hs as (Hk & Ho & Hq)%shift_spec.
  split_and!; [by apply shift_intro; [| |lia]|apply shift_ordinal; [done|lia]| |].
  - apply shift_intro; [done|done|lia].
  - unfold period_lt, same_kind. rewrite Hk, bool_decide_eq_true_2 by done. simpl.
    unfold mret, result_ret. f_equal. rewrite Ho. by destruct (Z.ltb_spec (ordinal p) (ordinal p + a)), (Z.ltb_spec 0 a); lia.
Qed.

Theorem shift_action_witness :
  period_ok (FiscalQuarter 2023 4) = true ∧ shift (FiscalQuarter 2023 4) 1 = Ok (FiscalQuarter 2024 1)
  ∧ shift (FiscalQuarter 2024 1) (-5) = shift (FiscalQuarter 2023 4) (1 + -5).
Proof.
  split; [reflexivity|]. split; [reflexivity|].
  apply (shift_action (FiscalQuarter 2023 4) (FiscalQuarter 2024 1) 1 (-5)); reflexivity.
Defined.

(** The periods of a kind tile the calendar: a span is never empty, and the
    day after its last day is the first day of the next period's span, across
    month, year and leap-day boundaries, whatever the fiscal year end. *)
Theorem consecutive_spans_adjacent m p p' s e s' e' :
  fiscal_calendar m = Ok m → period_ok p = true → next p = Ok p' →
  span m p = Ok (s, e) → span m p' = Ok (s', e') →
  toordinal s' = toordinal e + 1 ∧ toordinal s ≤ toordinal e.
Proof.
  intros Hm Hok Hn Hs Hs'. unfold fiscal_calendar in Hm. ok_inv. btrue.
  pose proof (start_index_shift m p 1 p' Hn) as [Hi Hmo].
  pose proof Hn as (_ & _ & Hok')%shift_spec.
  rewrite span_spec in Hs, Hs' by (done || lia).
  repeat case_match; simplify_eq. rewrite day_before_first, Hi, Z.mul_1_l.
  split; [lia|]. enough (toordinal (first_of (start_index m p)) <
    toordinal (first_of (start_index m p + months_of p))) by lia.
  apply toordinal_first_lt. unfold months_of. destruct (kind p); lia.
Qed.

Theorem consecutive_spans_adjacent_witness :
  span 1 (FiscalQuarter 2024 1) = Ok (Date 2023 2 1, Date 2023 4 30) ∧
  span 1 (FiscalQuarter 2024 2) = Ok (Date 2023 5 1, Date 2023 7 31) ∧
  toordinal (Date 2023 5 1) = toordinal (Date 2023 4 30) + 1.
Proof.
  split; [reflexivity|]. split; [reflexivity|].
  apply (consecutive_spans_adjacent 1 (FiscalQuarter 2024 1) (FiscalQuarter 2024 2)
    (Date 2023 2 1) (Date 2023 4 30) (Date 2023 5 1) (Date 2023 7 31)); reflexivity.
Defined.

(** A fiscal year is exactly its four quarters, and has 365 days, plus one when
    the February inside it is a leap one; the only periods that cannot be
    dated are those whose calendar year ends after the last year of
    [datetime.date], where Python's untyped [ValueError] escapes. *)
Theorem year_days m y :
  fiscal_calendar m = Ok m → period_ok (FiscalYear y) = true →
  days m (FiscalYear y) =
    (if (y =? 9999) && (m =? 12) then Err (Escaped PyValueError)
     else Ok (365 + (if is_leap (if m =? 1 then y - 1 else y) then 1 else 0))) ∧
  (d1 ← days m (FiscalQuarter y 1); d2 ← days m (FiscalQuarter y 2);
   d3 ← days m (FiscalQuarter y 3); d4 ← days m (FiscalQuarter y 4);
   mret (d1 + d2 + d3 + d4)) = days m (FiscalYear y).
Proof.
  intros Hm Hok. unfold fiscal_calendar in Hm. ok_inv. btrue.
  pose proof Hok as Hy. unfold period_ok in Hy; simpl in Hy. btrue.
  assert (∀ q, 1 ≤ q ≤ 4 → period_ok (FiscalQuarter y q) = true) as Hq.
  { intros q Hq. unfold period_ok; simpl. rewrite !andb_true_iff. lia. }
  rewrite !days_spec by (done || lia || (apply Hq; lia)).
  unfold start_index, months_of; simpl.
  remember (12 * y - 12 + m) as i eqn:Hi.
  replace (3 * (y * 4 + (1 - 1)) - 12 + m) with i by lia. replace (3 * (y * 4 + (2 - 1)) - 12 + m) with (i + 3) by lia.
  replace (3 * (y * 4 + (3 - 1)) - 12 + m) with (i + 6) by lia. replace (3 * (y * 4 + (4 - 1)) - 12 + m) with (i + 9) by lia.
  rewrite toordinal_first_year. split.
  - destruct (Z.ltb_spec (i + 12) 120000).
    + destruct (Z.eqb_spec y 9999), (Z.eqb_spec m 12); cbn [andb]; try lia.
      all: assert ((i + 10) / 12 = (if m =? 1 then y - 1 else y)) as -> by (destruct (Z.eqb_spec m 1); lia); done.
    + destruct (Z.eqb_spec y 9999), (Z.eqb_spec m 12); cbn [andb]; done || (exfalso; lia).
  - destruct (Z.ltb_spec (i + 3) 120000); [|lia]. destruct (Z.ltb_spec (i + 3 + 3) 120000); [|lia].
    destruct (Z.ltb_spec (i + 6 + 3) 120000); [|lia]. unfold mbind, result_bind, mret, result_ret.
    replace (i + 9 + 3) with (i + 12) by lia. destruct (i + 12 <? 120000); [|done].
    rewrite <- toordinal_first_year. f_equal.
    replace (i + 3 + 3) with (i + 6) by lia. replace (i + 6 + 3) with (i + 9) by lia. lia.
Qed.

Theorem year_days_witness :
  fiscal_calendar 1 = Ok 1 ∧ days 1 (FiscalYear 2025) = Ok 366.
Proof.
  split; [reflexivity|].
  destruct (year_days 1 2025) as [Hd _]; [reflexivity|reflexivity|]. exact Hd.
Defined.
