(* ===== verification/Units.v ===== *)
(** Typed units and their closed algebra
    (packages/calculation-engine/fel_calculation_engine/units.py).

    [unit] is the frozen dataclass [Unit]; [make_unit] is its constructor with
    the [__post_init__] checks, and every operation builds its result through
    it, as the code does. *)

From S2P Require Import Prelude Decimals Errors Periods.

(** * Data *)

Inductive unit_kind := CURRENCY | COUNT | PERCENT | RATIO.

#[export] Instance unit_kind_eq_dec : EqDecision unit_kind.
Proof. solve_decision. Defined.

Record unit_ := Unit { u_kind : unit_kind; currency : option string; per_period : option period_kind }.

#[export] Instance unit_eq_dec : EqDecision unit_.
Proof. solve_decision. Defined.

(** [^[A-Z]{3}$] *)
Definition is_upper (a : ascii) : bool := (65 <=? N_of_ascii a)%N && (N_of_ascii a <=? 90)%N.
Definition iso_4217 (s : string) : bool :=
  match s with
  | String a (String b (String c EmptyString)) => is_upper a && is_upper b && is_upper c
  | _ => false
  end.

(** [Unit.__post_init__] *)
Definition unit_ok (u : unit_) : bool :=
  match u_kind u, currency u with
  | CURRENCY, Some c => iso_4217 c
  | CURRENCY, None => false
  | _, Some _ => false
  | _, None => true
  end.

Definition make_unit (k : unit_kind) (c : option string) (p : option period_kind) : calc unit_ :=
  ensure (unit_ok (Unit k c p)) UnitError;; mret (Unit k c p).

Definition COUNT_UNIT : unit_ := Unit COUNT None None.
Definition PERCENT_UNIT : unit_ := Unit PERCENT None None.
Definition RATIO_UNIT : unit_ := Unit RATIO None None.
Definition currency_unit (code : string) : calc unit_ := make_unit CURRENCY (Some code) None.

(** * Rates *)

Definition per (u : unit_) (p : period_kind) : calc unit_ :=
  match per_period u with
  | Some _ => Err UnitError
  | None => make_unit (u_kind u) (currency u) (Some p)
  end.

Definition stock (u : unit_) : calc unit_ := make_unit (u_kind u) (currency u) None.

Definition is_rate (u : unit_) : bool := match per_period u with Some _ => true | None => false end.

(** * Keys *)

Definition unit_kind_value (k : unit_kind) : string :=
  match k with CURRENCY => "currency" | COUNT => "count" | PERCENT => "percent" | RATIO => "ratio" end.
Definition period_kind_value (k : period_kind) : string :=
  match k with QUARTER => "quarter" | YEAR => "year" end.

Definition unit_kind_of (s : string) : option unit_kind :=
  if String.eqb s "currency" then Some CURRENCY else if String.eqb s "count" then Some COUNT
  else if String.eqb s "percent" then Some PERCENT else if String.eqb s "ratio" then Some RATIO else None.
Definition period_kind_of (s : string) : option period_kind :=
  if String.eqb s "quarter" then Some QUARTER else if String.eqb s "year" then Some YEAR else None.

Definition key (u : unit_) : string :=
  let base := match u_kind u, currency u with
              | CURRENCY, Some c => unit_kind_value CURRENCY +:+ ":" +:+ c
              | CURRENCY, None => unit_kind_value CURRENCY +:+ ":None"
              | k, _ => unit_kind_value k
              end%string in
  match per_period u with
  | None => base
  | Some p => base +:+ "/" +:+ period_kind_value p
  end%string.

(** [s.partition(sep)]: before and after the first separator *)
Fixpoint partition (sep : ascii) (s : string) : string * string :=
  match s with
  | EmptyString => (EmptyString, EmptyString)
  | String a s' =>
      if Ascii.eqb a sep then (EmptyString, s')
      else let '(b, r) := partition sep s' in (String a b, r)
  end.

Definition parse_unit (text : string) : calc unit_ :=
  let '(base, per) := partition "/" text in
  let '(kind_text, code) := partition ":" base in
  k ← from_option_err UnitError (unit_kind_of kind_text);
  p ← (if String.eqb per "" then mret None
       else p ← from_option_err UnitError (period_kind_of per); mret (Some p));
  make_unit k (if String.eqb code "" then None else Some code) p.

(** * Algebra *)

Definition unit_add (u v : unit_) : calc unit_ :=
  if decide (u = v) then mret u else Err UnitError.

Definition unit_sub (u v : unit_) : calc unit_ :=
  if decide (u = v) then mret u else Err UnitError.

Definition is_percent (u : unit_) : bool := match u_kind u with PERCENT => true | _ => false end.

Definition unit_mul (u v : unit_) : calc unit_ :=
  if is_percent u || is_percent v then Err UnitError
  else if is_rate u && is_rate v then Err UnitError
  else
    let p := match per_period u with Some p => Some p | None => per_period v end in
    match u_kind u, u_kind v with
    | RATIO, _ => make_unit (u_kind v) (currency v) p
    | _, RATIO => make_unit (u_kind u) (currency u) p
    | CURRENCY, COUNT => make_unit CURRENCY (currency u) p
    | COUNT, CURRENCY => make_unit CURRENCY (currency v) p
    | _, _ => Err UnitError
    end.

Definition unit_div (u v : unit_) : calc unit_ :=
  if is_percent u || is_percent v then Err UnitError
  else
    p ← (match per_period v with
         | Some _ => if decide (per_period u = per_period v) then mret None else Err UnitError
         | None => mret (per_period u)
         end);
    match u_kind u, u_kind v with
    | _, RATIO => make_unit (u_kind u) (currency u) p
    | CURRENCY, CURRENCY =>
        if decide (currency u = currency v) then make_unit RATIO None p else Err UnitError
    | CURRENCY, COUNT => make_unit CURRENCY (currency u) p
    | COUNT, COUNT => make_unit RATIO None p
    | _, _ => Err UnitError
    end.

(** * Lemmas *)

Lemma make_unit_Ok k c p u : make_unit k c p = Ok u ↔ u = Unit k c p ∧ unit_ok u = true.
Proof.
  unfold make_unit. split; [intros H; ok_inv; done|]. intros [-> H]. by rewrite H.
Qed.

(** Case analysis on units, kinds and optional fields. *)
Ltac unit_cases :=
  repeat match goal with
  | u : unit_ |- _ => destruct u as [[] ? ?]
  end; cbn [u_kind currency per_period] in *.

Ltac unit_ops :=
  unfold unit_mul, unit_div, unit_add, unit_sub, is_percent, is_rate, make_unit, unit_ok, stock, per in *;
  cbn [u_kind currency per_period bool_decide orb andb] in *.

(** A well-formed unit, or a [UnitError]. *)
Definition unit_result (r : calc unit_) : Prop :=
  match r with Ok w => unit_ok w = true | Err e => e = UnitError end.

Lemma unit_result_make k c p : unit_result (make_unit k c p).
Proof. unfold make_unit, ensure. by destruct (unit_ok (Unit k c p)) eqn:Hk. Qed.

Lemma unit_result_err : unit_result (Err UnitError).
Proof. done. Qed.

Ltac unit_result_tac :=
  repeat first [apply unit_result_make | apply unit_result_err | assumption
               | progress unfold mbind, result_bind, mret, result_ret | progress cbv beta iota | case_match].

Lemma unit_add_result u v : unit_ok u = true → unit_result (unit_add u v).
Proof. intros. unfold unit_add. unit_result_tac. Qed.
Lemma unit_sub_result u v : unit_ok u = true → unit_result (unit_sub u v).
Proof. intros. unfold unit_sub. unit_result_tac. Qed.
Lemma unit_mul_result u v : unit_result (unit_mul u v).
Proof. unfold unit_mul. unit_result_tac. Qed.
Lemma unit_div_result u v : unit_result (unit_div u v).
Proof.
  unfold unit_div. case_match; [apply unit_result_err|].
  destruct (per_period v); [case_decide|]; unit_result_tac; by simplify_eq.
Qed.

#[export] Hint Resolve unit_add_result unit_sub_result unit_mul_result unit_div_result : fel.

(** A well-formed unit carries a code exactly when it is a currency. *)
Lemma unit_ok_inv u : unit_ok u = true →
  match u_kind u with
  | CURRENCY => ∃ c, currency u = Some c ∧ iso_4217 c = true
  | _ => currency u = None
  end.
Proof. destruct u as [[] [c|] p]; cbn; naive_solver. Qed.

Lemma make_unit_valid k c p : unit_ok (Unit k c p) = true → make_unit k c p = Ok (Unit k c p).
Proof. intros H. unfold make_unit. by rewrite H. Qed.

(** Reduce an operation on units whose kinds and rates are known. *)
Ltac unit_destruct u :=
  let H := fresh in
  destruct u as [[] ? ?]; match goal with Hu : unit_ok _ = true |- _ => pose proof (unit_ok_inv _ Hu) as H end;
  cbn in H.

Lemma unit_mul_comm u v : unit_ok u = true → unit_ok v = true → unit_mul u v = unit_mul v u.
Proof.
  intros Hu Hv. apply unit_ok_inv in Hu, Hv.
  destruct u as [ku cu pu], v as [kv cv pv]; cbn in *.
  unfold unit_mul, is_percent, is_rate; cbn.
  by destruct ku, kv; destruct_and?; simplify_eq; destruct pu, pv.
Qed.

(** * Keys *)

Lemma partition_app sep s t :
  (∀ a, a ∈ String.list_ascii_of_string s → a ≠ sep) → partition sep (s +:+ String sep t) = (s, t).
Proof.
  induction s as [|a s IH]; intros Hs; cbn.
  - change ("" +:+ ?t)%string with t. cbn. by rewrite Ascii.eqb_refl.
  - rewrite string_app_cons. cbn. rewrite (proj2 (Ascii.eqb_neq a sep)) by (apply Hs; set_solver).
    rewrite IH; [done|]. set_solver.
Qed.

Lemma partition_none sep s :
  (∀ a, a ∈ String.list_ascii_of_string s → a ≠ sep) → partition sep s = (s, EmptyString).
Proof.
  induction s as [|a s IH]; intros Hs; cbn; [done|].
  rewrite (proj2 (Ascii.eqb_neq a sep)) by (apply Hs; set_solver).
  rewrite IH; [done|]. set_solver.
Qed.

Lemma iso_4217_clean c sep : iso_4217 c = true → is_upper sep = false →
  ∀ a, a ∈ String.list_ascii_of_string c → a ≠ sep.
Proof.
  unfold iso_4217. intros Hc Hs a Ha ->. repeat (case_match; try done). subst. cbn in Ha. apply andb_true_iff in Hc as [[? ?]%andb_true_iff ?].
  set_unfold in Ha. destruct_or! Ha; congruence.
Qed.

(** * Properties *)

(** A unit survives its key: [parse] of [key] gives the unit back, for every
    unit the constructor accepts. *)
Theorem unit_key_roundtrip u : unit_ok u = true → parse_unit (key u) = Ok u.
Proof.
  intros Hu. pose proof (unit_ok_inv u Hu) as Hc. destruct u as [k c p]; cbn in Hc.
  destruct k; cbn in Hc; [|subst c; destruct p as [[]|]; reflexivity..].
  destruct Hc as (code & -> & Hiso).
  pose proof (iso_4217_clean code "/" Hiso eq_refl) as Hslash.
  assert (String.eqb code "" = false) as Hne by (by destruct code).
  set (pre := (unit_kind_value CURRENCY +:+ ":" +:+ code)%string).
  assert (∀ a, a ∈ String.list_ascii_of_string pre → a ≠ "/"%char) as Hpre.
  { intros a Ha. subst pre. unfold String.append in Ha. cbn in Ha. set_unfold in Ha. destruct_or! Ha; try (by subst a). by apply Hslash. }
  assert (partition ":" pre = (unit_kind_value CURRENCY, code)) as Hcolon.
  { subst pre. apply partition_app. intros a Ha ->. cbn in Ha. set_solver. }
  assert (partition "/" (key (Unit CURRENCY (Some code) p))
    = (pre, match p with Some p => period_kind_value p | None => EmptyString end)) as Hk.
  { unfold key; cbn [u_kind currency per_period]. destruct p as [p|]; [|by apply partition_none].
    change ("/" +:+ ?t)%string with (String "/" t). by apply partition_app. }
  unfold parse_unit. rewrite Hk, Hcolon. cbn. rewrite Hne.
  destruct p as [[]|]; by apply make_unit_valid.
Qed.

Theorem unit_key_roundtrip_witness :
  unit_ok (Unit CURRENCY (Some "USD") (Some QUARTER)) = true ∧
  parse_unit "currency:USD/quarter" = Ok (Unit CURRENCY (Some "USD") (Some QUARTER)).
Proof.
  split; [reflexivity|]. apply (unit_key_roundtrip (Unit CURRENCY (Some "USD") (Some QUARTER))).
  reflexivity.
Defined.

(** The algebra is closed and fail-closed: on well-formed units every operation
    gives a well-formed unit or [UnitError]; multiplication is commutative,
    error cases included; and a percent is never multiplied or divided. *)
Theorem unit_algebra_closed u v :
  unit_ok u = true → unit_ok v = true →
  unit_result (unit_add u v) ∧ unit_result (unit_sub u v) ∧
  unit_result (unit_mul u v) ∧ unit_result (unit_div u v) ∧
  unit_mul u v = unit_mul v u ∧
  (u_kind u = PERCENT ∨ u_kind v = PERCENT →
   unit_mul u v = Err UnitError ∧ unit_div u v = Err UnitError).
Proof.
  intros Hu Hv. split_and!; auto with fel.
  - by apply unit_mul_comm.
  - unfold unit_mul, unit_div, is_percent.
    intros [->| ->]; rewrite ?orb_true_r; by split.
Qed.

Theorem unit_algebra_closed_witness :
  unit_mul (Unit CURRENCY (Some "USD") None) (Unit COUNT None (Some QUARTER))
  = unit_mul (Unit COUNT None (Some QUARTER)) (Unit CURRENCY (Some "USD") None).
Proof.
  apply (unit_algebra_closed (Unit CURRENCY (Some "USD") None) (Unit COUNT None (Some QUARTER)));
    reflexivity.
Defined.

(** Division undoes multiplication: [(u * v) / v] is [u], rates included,
    except for a count of currency ([COUNT * CURRENCY] is a currency, and
    currency over currency is a plain ratio). *)
Theorem unit_mul_div_cancel u v w :
  unit_ok u = true → unit_ok v = true → unit_mul u v = Ok w →
  if decide (u_kind u = COUNT ∧ u_kind v = CURRENCY)
  then unit_div w v = Ok (Unit RATIO None (per_period u))
  else unit_div w v = Ok u.
Proof.
  intros Hu Hv. apply unit_ok_inv in Hu, Hv.
  destruct u as [ku cu pu], v as [kv cv pv]; cbn in *.
  unfold unit_mul, unit_div, is_percent, is_rate, make_unit, unit_ok; cbn.
  destruct ku, kv; repeat match goal with H : ∃ _, _ |- _ => destruct H as (? & ? & ?) end; simplify_eq;
    destruct pu, pv; cbn; intros Hw; try done;
    try match goal with H : iso_4217 _ = true |- _ => rewrite H in Hw end; cbn in Hw;
    injection Hw as <-; cbn; repeat (case_decide; cbn);
    try match goal with H : iso_4217 _ = true |- _ => rewrite H end;
    try done; try (by exfalso; auto); destruct_and?; by simplify_eq.
Qed.

Theorem unit_mul_div_cancel_witness :
  unit_mul (Unit RATIO None None) (Unit CURRENCY (Some "EUR") (Some YEAR)) = Ok (Unit CURRENCY (Some "EUR") (Some YEAR))
  ∧ unit_div (Unit CURRENCY (Some "EUR") (Some YEAR)) (Unit CURRENCY (Some "EUR") (Some YEAR)) = Ok (Unit RATIO None None).
Proof.
  split; [reflexivity|].
  apply (unit_mul_div_cancel (Unit RATIO None None) (Unit CURRENCY (Some "EUR") (Some YEAR))
    (Unit CURRENCY (Some "EUR") (Some YEAR))); reflexivity.
Defined.
