(* ===== verification/Values.v ===== *)
(** Decimal-only quantities and exactly-one-lineage provenance
    (packages/calculation-engine/fel_calculation_engine/values.py).

    [pyobject] is what a dynamically typed argument can be as far as the gates
    [require_decimal] and [require_safe_id] look at it.  A [quantity] holds a
    finite decimal; [make_quantity] is the constructor with its
    [__post_init__]. *)

From Stdlib Require Import QArith Qabs.
From S2P Require Import Prelude Decimals Errors Periods Units.
Local Open Scope Z_scope.

(** [Context(prec=34, rounding=ROUND_HALF_EVEN, traps=[...])] *)
Definition CALC_CONTEXT : context := Context 34 999999 (-999999).

Inductive pyobject :=
| PyStr (s : string)
| PyDec (d : pydecimal)
| PyOther (type_name : string).

(** * Gates *)

Definition is_alnum (a : ascii) : bool :=
  let n := N_of_ascii a in
  ((48 <=? n) && (n <=? 57) || (65 <=? n) && (n <=? 90) || (97 <=? n) && (n <=? 122))%N.

(** [[A-Za-z0-9._:@-]] *)
Definition is_id_char (a : ascii) : bool :=
  is_alnum a || Ascii.eqb a "." || Ascii.eqb a "_" || Ascii.eqb a ":" || Ascii.eqb a "@" || Ascii.eqb a "-".

Fixpoint all_chars (p : ascii → bool) (s : string) : bool :=
  match s with EmptyString => true | String a s' => p a && all_chars p s' end.

(** [SAFE_ID = ^[A-Za-z0-9][A-Za-z0-9._:@-]{0,127}$] *)
Definition safe_id (s : string) : bool :=
  match s with
  | EmptyString => false
  | String a s' => is_alnum a && all_chars is_id_char s' && (String.length s' <=? 127)%nat
  end.

Definition require_safe_id (value : pyobject) (error : calc_error) : calc string :=
  match value with
  | PyStr s => if safe_id s then Ok s else Err error
  | _ => Err error
  end.

Definition require_decimal (value : pyobject) : calc decimal :=
  match value with
  | PyDec (Finite d) =>
      if prec CALC_CONTEXT <? ndigits (d_coeff d) then Err ValueTypeError else Ok d
  | _ => Err ValueTypeError
  end.

Definition canonical_decimal (value : decimal) : calc string :=
  match dec_normalize CALC_CONTEXT value with
  | Err s => Err (Escaped (PyDecimal s))
  | Ok n =>
      let text := format_f n in
      Ok (if String.eqb text "-0" || String.eqb text "0" then "0"%string else text)
  end.

(** * Lineage *)

Inductive provenance := REPORTED | ASSUMPTION | DERIVED | FORECAST.

#[export] Instance provenance_eq_dec : EqDecision provenance.
Proof. solve_decision. Defined.

Definition provenance_value (p : provenance) : string :=
  match p with REPORTED => "reported" | ASSUMPTION => "assumption" | DERIVED => "derived" | FORECAST => "forecast" end.

Record lineage := Lineage {
  l_provenance : provenance;
  source_span_id : option string;
  assumption_id : option string;
  forecast_run_id : option string;
  derived_from : list string
}.

#[export] Instance lineage_eq_dec : EqDecision lineage.
Proof. solve_decision. Defined.

Definition expected_fields (p : provenance) : bool * bool * bool * bool :=
  match p with
  | REPORTED => (true, false, false, false)
  | ASSUMPTION => (false, true, false, false)
  | FORECAST => (false, false, true, false)
  | DERIVED => (false, false, false, true)
  end.

Definition present_fields (l : lineage) : bool * bool * bool * bool :=
  (bool_decide (is_Some (source_span_id l)), bool_decide (is_Some (assumption_id l)),
   bool_decide (is_Some (forecast_run_id l)), bool_decide (derived_from l ≠ [])).

(** [Lineage.__post_init__] *)
Definition check_lineage (l : lineage) : calc unit :=
  ensure (bool_decide (present_fields l = expected_fields (l_provenance l))) LineageError;;
  for_each (λ o, match o with
                 | Some i => ensure (safe_id i) LineageError
                 | None => Ok tt
                 end) [source_span_id l; assumption_id l; forecast_run_id l];;
  for_each (λ i, ensure (safe_id i) LineageError) (derived_from l);;
  ensure (bool_decide (NoDup (derived_from l))) LineageError.

Definition make_lineage (l : lineage) : calc lineage := check_lineage l;; mret l.

Definition identity (l : lineage) : calc (list string) :=
  match l_provenance l with
  | DERIVED => Ok (provenance_value DERIVED :: sorted_strings (derived_from l))
  | p =>
      single ← from_option_err LineageError
        (match p with
         | REPORTED => source_span_id l
         | ASSUMPTION => assumption_id l
         | _ => forecast_run_id l
         end);
      mret [provenance_value p; single]
  end.

(** * Arithmetic *)

(** every trapped signal becomes a [FormulaError] *)
Definition trap_formula (r : result signal decimal) : calc decimal := map_err (λ _, FormulaError) r.

Definition operate (op : string) (left right : decimal) : calc decimal :=
  trap_formula
    (if String.eqb op "add" then dec_add CALC_CONTEXT left right
     else if String.eqb op "sub" then dec_sub CALC_CONTEXT left right
     else if String.eqb op "mul" then dec_mul CALC_CONTEXT left right
     else dec_div CALC_CONTEXT left right).

Record quantity := Quantity { q_value : decimal; q_unit : unit_ }.

#[export] Instance quantity_eq_dec : EqDecision quantity.
Proof. solve_decision. Defined.

(** [Quantity.__post_init__] *)
Definition make_quantity (v : decimal) (u : unit_) : calc quantity :=
  require_decimal (PyDec (Finite v));; mret (Quantity v u).

Definition q_add (a b : quantity) : calc quantity :=
  v ← operate "add" (q_value a) (q_value b); u ← unit_add (q_unit a) (q_unit b); make_quantity v u.
Definition q_sub (a b : quantity) : calc quantity :=
  v ← operate "sub" (q_value a) (q_value b); u ← unit_sub (q_unit a) (q_unit b); make_quantity v u.
Definition q_mul (a b : quantity) : calc quantity :=
  v ← operate "mul" (q_value a) (q_value b); u ← unit_mul (q_unit a) (q_unit b); make_quantity v u.
Definition q_div (a b : quantity) : calc quantity :=
  v ← operate "div" (q_value a) (q_value b); u ← unit_div (q_unit a) (q_unit b); make_quantity v u.

Definition HUNDRED : decimal := dec_of_Z 100.

Definition to_ratio (q : quantity) : calc quantity :=
  if decide (q_unit q = RATIO_UNIT) then Ok q
  else match u_kind (q_unit q) with
       | PERCENT =>
           u ← make_unit RATIO None (per_period (q_unit q));
           v ← operate "div" (q_value q) HUNDRED;
           make_quantity v u
       | _ => Err UnitError
       end.

Definition to_percent (q : quantity) : calc quantity :=
  match u_kind (q_unit q) with
  | PERCENT => Ok q
  | RATIO =>
      u ← make_unit PERCENT None (per_period (q_unit q));
      v ← operate "mul" (q_value q) HUNDRED;
      make_quantity v u
  | _ => Err UnitError
  end.

Definition quantize (q : quantity) (quantum : decimal) : calc quantity :=
  require_decimal (PyDec (Finite quantum));;
  v ← (match dec_quantize CALC_CONTEXT (q_value q) quantum with
       | Ok v => Ok v
       | Err InvalidOperation => Err FormulaError
       | Err s => Err (Escaped (PyDecimal s))
       end);
  make_quantity v (q_unit q).

(** * Lemmas *)

Lemma calc_context_ok : context_ok CALC_CONTEXT = true.
Proof. reflexivity. Qed.
#[export] Hint Resolve calc_context_ok : fel.

(** what [require_decimal] certifies *)
Definition decimal_ok (d : decimal) : Prop := ndigits (d_coeff d) ≤ prec CALC_CONTEXT.

Lemma require_decimal_Ok v d :
  require_decimal v = Ok d ↔ v = PyDec (Finite d) ∧ decimal_ok d.
Proof.
  unfold require_decimal, decimal_ok. destruct v as [|[d'| |]|]; try naive_solver.
  destruct (Z.ltb_spec (prec CALC_CONTEXT) (ndigits (d_coeff d'))).
  - split; [done|]. intros [[= ->] ?]. lia.
  - split; [intros [= ->]; split; [done|lia]|naive_solver].
Qed.

Lemma make_quantity_Ok v u q : make_quantity v u = Ok q ↔ q = Quantity v u ∧ decimal_ok v.
Proof.
  unfold make_quantity. split.
  - intros H. apply bind_Ok in H as (d & [Hv Hd]%require_decimal_Ok & [= <-]). by simplify_eq.
  - intros [-> Hd]. assert (require_decimal (PyDec (Finite v)) = Ok v) as Hr by by apply require_decimal_Ok.
    by rewrite Hr.
Qed.

(** a quantity the constructors let through *)
Definition quantity_ok (q : quantity) : Prop := decimal_ok (q_value q) ∧ unit_ok (q_unit q) = true.

(** the exact rational result of an operation *)
Definition exact_op (op : string) (x y : Q) : Q :=
  if String.eqb op "add" then (x + y)%Q else if String.eqb op "sub" then (x - y)%Q
  else if String.eqb op "mul" then (x * y)%Q else (x / y)%Q.

Lemma operate_rounds op l r v :
  operate op l r = Ok v → rounds CALC_CONTEXT (exact_op op (dq l) (dq r)) v.
Proof.
  unfold operate, trap_formula, exact_op. intros Hop. apply map_err_Ok in Hop.
  repeat case_match.
  - eapply dec_add_rounds; auto with fel.
  - eapply dec_sub_rounds; auto with fel.
  - eapply dec_mul_rounds; auto with fel.
  - eapply (dec_div_rounds CALC_CONTEXT); auto with fel.
Qed.

Lemma operate_decimal_ok op l r v : operate op l r = Ok v → decimal_ok v.
Proof. by intros [_ ?]%operate_rounds. Qed.

Lemma trap_formula_err r e : trap_formula r = Err e → e = FormulaError.
Proof. destruct r; simpl; congruence. Qed.

Lemma operate_err op l r e : operate op l r = Err e → e = FormulaError.
Proof. apply trap_formula_err. Qed.

(** The four quantity operators share one shape: the number first, then the
    unit, then the constructor. *)
Definition q_apply (op : string) (uop : unit_ → unit_ → calc unit_) (a b : quantity) : calc quantity :=
  v ← operate op (q_value a) (q_value b); u ← uop (q_unit a) (q_unit b); make_quantity v u.

Lemma q_apply_Ok op uop a b q :
  q_apply op uop a b = Ok q ↔
  operate op (q_value a) (q_value b) = Ok (q_value q) ∧ uop (q_unit a) (q_unit b) = Ok (q_unit q).
Proof.
  unfold q_apply. split.
  - intros H. ok_inv. apply make_quantity_Ok in H as [-> _]. done.
  - intros [Hv Hu]. rewrite Hv. unfold mbind, result_bind. rewrite Hu. apply make_quantity_Ok.
    split; [by destruct q|]. by eapply operate_decimal_ok.
Qed.

Lemma q_apply_err op uop a b e :
  (∀ u v, unit_result (uop u v)) ∨ (unit_ok (q_unit a) = true ∧ ∀ u v, unit_ok u = true → unit_result (uop u v)) →
  q_apply op uop a b = Err e → e = FormulaError ∨ e = UnitError.
Proof.
  intros Hu H. unfold q_apply in H.
  apply bind_Err in H as [H|(v & Hv & H)]; [left; by eapply operate_err|].
  apply bind_Err in H as [H|(u & Hu' & H)].
  - right. assert (unit_result (uop (q_unit a) (q_unit b))) as Hr by (destruct Hu as [|[]]; auto).
    rewrite H in Hr. done.
  - assert (make_quantity v u = Ok (Quantity v u)) as Hok; [|congruence].
    apply make_quantity_Ok. split; [done|]. by eapply operate_decimal_ok.
Qed.

Lemma q_apply_ok op uop a b q :
  unit_result (uop (q_unit a) (q_unit b)) → q_apply op uop a b = Ok q → quantity_ok q.
Proof.
  intros Hr [Hv Hu]%q_apply_Ok. rewrite Hu in Hr. split; [by eapply operate_decimal_ok|done].
Qed.

(** the outcome of an operation whose unit is known to be [u] *)
Definition of_unit (u : unit_) (r : calc quantity) : Prop :=
  match r with
  | Ok q => q_unit q = u ∧ quantity_ok q
  | Err e => e = FormulaError
  end.

Lemma q_apply_typed op uop a b u :
  uop (q_unit a) (q_unit b) = Ok u → unit_ok u = true → of_unit u (q_apply op uop a b).
Proof.
  intros Hu Hok. destruct (q_apply op uop a b) as [q|e] eqn:Hq; cbn.
  - apply q_apply_Ok in Hq as [Hv Hq]. assert (q_unit q = u) as <- by congruence.
    split; [done|]. split; [by eapply operate_decimal_ok|done].
  - unfold q_apply in Hq. apply bind_Err in Hq as [Hq|(v & Hv & Hq)]; [by eapply operate_err|].
    rewrite Hu, bind_ok in Hq. apply operate_decimal_ok in Hv.
    rewrite (proj2 (make_quantity_Ok v u _)) in Hq by done. done.
Qed.

Lemma quantize_result q quantum :
  quantity_ok q → decimal_ok quantum →
  of_unit (q_unit q) (quantize q quantum).
Proof.
  intros [_ Hu] Hq. unfold quantize. rewrite (proj2 (require_decimal_Ok _ quantum)) by done. rewrite bind_ok.
  destruct (dec_quantize CALC_CONTEXT (q_value q) quantum) as [v|s] eqn:Hv.
  - rewrite bind_ok. apply dec_quantize_spec in Hv as [_ [_ Hd]]; [|done].
    rewrite (proj2 (make_quantity_Ok v (q_unit q) _)) by done. done.
  - apply dec_quantize_err in Hv as ->; [|done]. done.
Qed.

(** a quantity, or one of the two documented arithmetic failures *)
Definition quantity_result (q : Q) (r : calc quantity) : Prop :=
  match r with
  | Ok z => quantity_ok z ∧ rounds CALC_CONTEXT q (q_value z)
  | Err e => e = FormulaError ∨ e = UnitError
  end.

Lemma q_apply_result op uop a b :
  unit_ok (q_unit a) = true → (∀ u v, unit_ok u = true → unit_result (uop u v)) →
  quantity_result (exact_op op (dq (q_value a)) (dq (q_value b))) (q_apply op uop a b).
Proof.
  intros Ha Hu. destruct (q_apply op uop a b) as [q|e] eqn:Hq; simpl.
  - split; [by eapply q_apply_ok; eauto|]. apply q_apply_Ok in Hq as [Hv _]. by apply operate_rounds.
  - eapply q_apply_err; eauto.
Qed.

(** * Properties *)

(** Quantity arithmetic is closed and correctly rounded: on valid operands each
    operator returns a valid quantity (at most 34 digits, well-formed unit)
    whose value is the exact rational result up to half a unit in its last
    place, or fails with [FormulaError] or [UnitError] and nothing else; in
    particular the digit gate of the constructor never rejects a result. *)
Theorem quantity_arithmetic_sound a b :
  quantity_ok a → quantity_ok b →
  quantity_result (dq (q_value a) + dq (q_value b)) (q_add a b) ∧
  quantity_result (dq (q_value a) - dq (q_value b)) (q_sub a b) ∧
  quantity_result (dq (q_value a) * dq (q_value b)) (q_mul a b) ∧
  quantity_result (dq (q_value a) / dq (q_value b)) (q_div a b).
Proof.
  intros [_ Ha] [_ Hb]. split_and!.
  - apply (q_apply_result "add" unit_add); auto with fel.
  - apply (q_apply_result "sub" unit_sub); auto with fel.
  - apply (q_apply_result "mul" unit_mul); auto with fel.
  - apply (q_apply_result "div" unit_div); auto with fel.
Qed.

Theorem quantity_arithmetic_sound_witness :
  q_div (Quantity (dec_of_Z 1) (Unit CURRENCY (Some "USD") None)) (Quantity (dec_of_Z 3) COUNT_UNIT)
  = Ok (Quantity (Dec false 3333333333333333333333333333333333 (-34)) (Unit CURRENCY (Some "USD") None)) ∧
  nearest (dq (dec_of_Z 1) / dq (dec_of_Z 3)) (Dec false 3333333333333333333333333333333333 (-34)).
Proof.
  assert (q_div (Quantity (dec_of_Z 1) (Unit CURRENCY (Some "USD") None)) (Quantity (dec_of_Z 3) COUNT_UNIT)
    = Ok (Quantity (Dec false 3333333333333333333333333333333333 (-34)) (Unit CURRENCY (Some "USD") None)))
    as Heq by (vm_compute; reflexivity).
  split; [exact Heq|].
  destruct (quantity_arithmetic_sound
    (Quantity (dec_of_Z 1) (Unit CURRENCY (Some "USD") None)) (Quantity (dec_of_Z 3) COUNT_UNIT))
    as (_ & _ & _ & Hdiv).
  - split; [vm_compute; discriminate|reflexivity].
  - split; [vm_compute; discriminate|reflexivity].
  - rewrite Heq in Hdiv. exact (proj1 (proj2 Hdiv)).
Defined.

(** ** Canonical text *)

Lemma canonical_reads a s :
  fits CALC_CONTEXT a = true → canonical_decimal a = Ok s → ∃ d, read_plain s = Some d ∧ deq d a.
Proof.
  intros Hfit Hs. destruct (dec_normalize_spec CALC_CONTEXT calc_context_ok a Hfit) as (n & Hn & Hdeq & _).
  unfold canonical_decimal in Hs. rewrite Hn in Hs. injection Hs as <-.
  destruct (read_plain_format_f n) as (d & Hr & Hd & _).
  destruct (String.eqb_spec (format_f n) "-0") as [He|He]; cbn [orb].
  - rewrite He in Hr. exists (Dec false 0 0). split; [done|]. rewrite <- Hdeq, <- Hd.
    cbn in Hr. injection Hr as <-. unfold deq. by rewrite !dq_zero.
  - destruct (String.eqb_spec (format_f n) "0") as [He'|He'].
    + rewrite He' in Hr. exists d. split; [done|]. by rewrite Hd.
    + exists d. split; [done|]. by rewrite Hd.
Qed.

Lemma canonical_total a : fits CALC_CONTEXT a = true → ∃ s, canonical_decimal a = Ok s.
Proof.
  intros Hfit. destruct (dec_normalize_spec CALC_CONTEXT calc_context_ok a Hfit) as (n & Hn & _).
  unfold canonical_decimal. rewrite Hn. eauto.
Qed.

Lemma canonical_deq a b :
  fits CALC_CONTEXT a = true → fits CALC_CONTEXT b = true → deq a b →
  canonical_decimal a = canonical_decimal b.
Proof.
  intros Ha Hb Heq.
  destruct (dec_normalize_spec CALC_CONTEXT calc_context_ok a Ha) as (n & Hn & Hdn & Hnn & _).
  destruct (dec_normalize_spec CALC_CONTEXT calc_context_ok b Hb) as (m & Hm & Hdm & Hnm & _).
  unfold canonical_decimal. rewrite Hn, Hm.
  assert (deq n m) as Hnmeq by by rewrite Hdn, Hdm.
  destruct (normal_unique n m Hnn Hnm Hnmeq) as (Hc & He & Hs).
  destruct n as [s1 c1 e1], m as [s2 c2 e2]; cbn in *; subst c2 e2.
  destruct (decide (c1 = 0%N)) as [->|Hc1]; [|by rewrite Hs].
  assert (e1 = 0) as -> by (destruct Hnn as [[_ ?]|?]; [done|by cbn in *]).
  by destruct s1, s2.
Qed.

(** The canonical text is a faithful content address for numbers: on every
    decimal of the context it is defined, it reads back to an equal decimal,
    and two decimals have the same text exactly when they are numerically
    equal ([1.50], [1.5] and [15E-1] agree, [-0] and [0] agree, nothing else
    collides). *)
Theorem canonical_decimal_faithful a b :
  fits CALC_CONTEXT a = true → fits CALC_CONTEXT b = true →
  (∃ s d, canonical_decimal a = Ok s ∧ read_plain s = Some d ∧ deq d a) ∧
  (canonical_decimal a = canonical_decimal b ↔ deq a b).
Proof.
  intros Ha Hb. destruct (canonical_total a Ha) as [s Hs]. destruct (canonical_reads a s Ha Hs) as (d & Hd & Hda).
  split; [eauto|]. split; [|by apply canonical_deq].
  intros Heq. rewrite Hs in Heq. symmetry in Heq. destruct (canonical_reads b s Hb Heq) as (d' & Hd' & Hdb).
  simplify_eq. by rewrite <- Hda.
Qed.

Theorem canonical_decimal_faithful_witness :
  fits CALC_CONTEXT (Dec false 150 (-2)) = true ∧
  canonical_decimal (Dec false 150 (-2)) = Ok "1.5"%string ∧
  canonical_decimal (Dec false 150 (-2)) = canonical_decimal (Dec false 15 (-1)).
Proof.
  split; [reflexivity|]. split; [vm_compute; reflexivity|].
  apply (canonical_decimal_faithful (Dec false 150 (-2)) (Dec false 15 (-1))); reflexivity.
Defined.

(** ** Exactness on filing-scale values *)

(** at most [10^18] in magnitude, with at most six decimal places *)
Definition filing_scale (d : decimal) : bool :=
  (-6 <=? d_exp d) && (Z.abs (aligned d (-6)) <=? 10 ^ 24).

Lemma filing_scale_aligned d e :
  filing_scale d = true → -6 ≤ e → e ≤ d_exp d → Z.abs (aligned d e) * 10 ^ (e + 6) ≤ 10 ^ 24.
Proof.
  unfold filing_scale, aligned. intros H He Hd. btrue.
  assert (0 ≤ 10 ^ (e + 6)) by (apply Z.pow_nonneg; lia).
  rewrite <- (Z.abs_eq (10 ^ (e + 6))), <- Z.abs_mul, <- Z.mul_assoc, <- Z.pow_add_r by lia.
  replace (d_exp d - e + (e + 6)) with (d_exp d - -6) by lia. lia.
Qed.

Lemma filing_scale_add a b :
  filing_scale a = true → filing_scale b = true →
  ∃ v, operate "add" a b = Ok v ∧ (dq v == dq a + dq b)%Q.
Proof.
  intros Ha Hb. unfold operate, trap_formula; cbn [String.eqb]. unfold dec_add.
  change (String.eqb "add" "add") with true. cbv iota.
  assert (-6 ≤ d_exp a ∧ -6 ≤ d_exp b) as [Hea Heb] by (unfold filing_scale in *; btrue; lia).
  set (e := Z.min (d_exp a) (d_exp b)).
  pose proof (filing_scale_aligned a e Ha ltac:(lia) ltac:(lia)) as Ba.
  pose proof (filing_scale_aligned b e Hb ltac:(lia) ltac:(lia)) as Bb.
  pose proof (dq_add_exact a b) as Hq.
  destruct (decide (d_coeff (add_exact a b) = 0%N)) as [Hz|Hz].
  { unfold dec_fix. rewrite Hz. cbn [N.eqb map_err]. eexists; split; [done|].
    rewrite <- Hq, dq_zero. destruct (add_exact a b) as [s c e']; cbn in Hz; subst. by rewrite dq_zero. }
  exists (add_exact a b). split; [|done].
  assert (1 ≤ 10 ^ (e + 6)) as Hp by (apply Z.lt_pred_le, Z.pow_pos_nonneg; lia).
  set (t := aligned a e + aligned b e) in *.
  assert (Z.abs t * 10 ^ (e + 6) ≤ 2 * 10 ^ 24) as Ht by nia.
  assert (Hc : d_coeff (add_exact a b) = Z.abs_N t) by reflexivity.
  assert (He' : d_exp (add_exact a b) = e) by reflexivity.
  rewrite Hc in Hz.
  assert (ndigits (Z.abs_N t) ≤ 25) as Hd
    by (apply ndigits_le_iff; [lia|]; apply N2Z.inj_lt; rewrite N2Z.inj_abs_N, pow10_Z by lia; nia).
  assert (e + 6 ≤ 25) by (apply (Z.pow_le_mono_r_iff 10); [lia|lia|]; nia).
  rewrite (dec_fix_exact CALC_CONTEXT (add_exact a b)); [done|..]; unfold adjusted; rewrite ?Hc, ?He'.
  - exact Hz.
  - change (prec CALC_CONTEXT) with 34. lia.
  - change (Etiny CALC_CONTEXT) with (-1000032). lia.
  - change (Emax CALC_CONTEXT) with 999999. lia.
Qed.

Lemma filing_scale_neg d : filing_scale (dec_neg d) = filing_scale d.
Proof.
  unfold filing_scale, aligned, dec_neg; cbn [d_exp]. do 2 f_equal.
  unfold sval; cbn [d_sign d_coeff]. destruct (d_sign d); cbn [negb]; lia.
Qed.

(** Sums and differences of filing-scale values are exact. *)
Theorem filing_scale_sums_exact a b :
  filing_scale a = true → filing_scale b = true →
  (∃ v, operate "add" a b = Ok v ∧ (dq v == dq a + dq b)%Q) ∧
  (∃ v, operate "sub" a b = Ok v ∧ (dq v == dq a - dq b)%Q).
Proof.
  intros Ha Hb. split; [by apply filing_scale_add|].
  destruct (filing_scale_add a (dec_neg b)) as (v & Hv & Hq); [done|by rewrite filing_scale_neg|].
  exists v. split; [exact Hv|]. rewrite Hq, dq_neg. reflexivity.
Qed.

Theorem filing_scale_sums_exact_witness :
  filing_scale (Dec false 999999999999999999999999 (-6)) = true ∧
  ∃ v, operate "add" (Dec false 999999999999999999999999 (-6)) (dec_of_Z 1) = Ok v.
Proof.
  split; [reflexivity|].
  destruct (filing_scale_sums_exact (Dec false 999999999999999999999999 (-6)) (dec_of_Z 1)) as [(v & Hv & _) _];
    [reflexivity|reflexivity|]. exists v. exact Hv.
Defined.

(** Products of filing-scale values are not always exact, although the comment
    on [CALC_CONTEXT] says they are: two 24-digit values multiply to 48 digits,
    which are rounded to 34 without an error. *)
Theorem filing_scale_product_rounds :
  let a := Dec false 999999999999999999999999 (-6) in
  filing_scale a = true ∧ ∃ v, operate "mul" a a = Ok v ∧ ¬ (dq v == dq a * dq a)%Q.
Proof.
  split; [reflexivity|]. eexists. split; [vm_compute; reflexivity|]. vm_compute. discriminate.
Qed.
