(* ===== verification/Formulas.v ===== *)
(** The bounded arithmetic grammar: validation, parsing, unit inference,
    evaluation, rewriting and display of formula trees
    (packages/calculation-engine/fel_calculation_engine/formulas.py).

    The loops over an explicit stack are fixpoints with fuel; [MAX_AST_NODES]
    iterations always suffice, because the source bounds the node count before
    it looks at a node.  The parser recurses structurally on the parse depth
    left, as the source bounds the depth by [MAX_AST_DEPTH]; its state is the
    unread text and the node count.  Text is a sequence of characters below 256. *)

From Stdlib Require Import QArith.
From S2P Require Import Prelude Decimals Errors Periods Units Values.
Local Open Scope Z_scope.

Definition MAX_EXPRESSION_LENGTH : nat := 4096.
Definition MAX_AST_NODES : nat := 512.
Definition MAX_AST_DEPTH : nat := 64.
Arguments MAX_AST_NODES : simpl never.
Arguments MAX_AST_DEPTH : simpl never.
Arguments MAX_EXPRESSION_LENGTH : simpl never.

(** * Trees *)

Inductive formula :=
| Reference (node_id : string)
| Literal (value : decimal)
| Unary (operator : string) (operand : formula)
| Binary (operator : string) (left right : formula).

#[export] Instance formula_eq_dec : EqDecision formula.
Proof. solve_decision. Defined.

(** [_OPERATIONS] *)
Definition operation_of (operator : string) : option string :=
  if String.eqb operator "+" then Some "add"%string
  else if String.eqb operator "-" then Some "sub"%string
  else if String.eqb operator "*" then Some "mul"%string
  else if String.eqb operator "/" then Some "div"%string
  else None.

(** [Reference.__post_init__] *)
Definition check_reference (node_id : string) : calc unit :=
  require_safe_id (PyStr node_id) FormulaError;; mret tt.

(** [Literal.__post_init__] *)
Definition check_literal (value : decimal) : calc unit :=
  map_err (λ e, match e with ValueTypeError => FormulaError | _ => e end)
    (require_decimal (PyDec (Finite value)));;
  ensure ((-250000 <=? d_exp value) && (d_exp value <=? 250000)) FormulaError.

(** ** [validate_formula]: a loop over a stack of nodes with their depths *)

Fixpoint validate_loop (fuel : nat) (stack : list (formula * nat)) (count : nat) : calc unit :=
  match stack with
  | [] => Ok tt
  | (node, depth) :: stack =>
      let count := S count in
      if (MAX_AST_NODES <? count)%nat || (MAX_AST_DEPTH <? depth)%nat then Err FormulaError
      else
        match fuel with
        | O => Err OutOfFuel
        | S fuel =>
            match node with
            | Reference node_id => check_reference node_id;; validate_loop fuel stack count
            | Literal value => check_literal value;; validate_loop fuel stack count
            | Unary operator operand =>
                if String.eqb operator "+" || String.eqb operator "-"
                then validate_loop fuel ((operand, S depth) :: stack) count
                else Err FormulaError
            | Binary operator lhs rhs =>
                match operation_of operator with
                | Some _ => validate_loop fuel ((lhs, S depth) :: (rhs, S depth) :: stack) count
                | None => Err FormulaError
                end
            end
        end
  end.

Definition validate_formula (ast : formula) : calc unit := validate_loop MAX_AST_NODES [(ast, 1%nat)] 0.

(** The dataclass constructors, with their [__post_init__]. *)
Definition make_reference (node_id : string) : calc formula :=
  check_reference node_id;; mret (Reference node_id).
Definition make_literal (value : decimal) : calc formula :=
  check_literal value;; mret (Literal value).
Definition make_unary (operator : string) (operand : formula) : calc formula :=
  validate_formula (Unary operator operand);; mret (Unary operator operand).
Definition make_binary (operator : string) (lhs rhs : formula) : calc formula :=
  validate_formula (Binary operator lhs rhs);; mret (Binary operator lhs rhs).

(** ** [formula_dependencies]: the references, each once, in source order *)

Fixpoint dependencies_loop (fuel : nat) (stack : list formula) (found : list string) : calc (list string) :=
  match stack with
  | [] => Ok found
  | node :: stack =>
      match fuel with
      | O => Err OutOfFuel
      | S fuel =>
          match node with
          | Reference node_id =>
              dependencies_loop fuel stack (if decide (node_id ∈ found) then found else found ++ [node_id])
          | Literal _ => dependencies_loop fuel stack found
          | Unary _ operand => dependencies_loop fuel (operand :: stack) found
          | Binary _ lhs rhs => dependencies_loop fuel (lhs :: rhs :: stack) found
          end
      end
  end.

Definition formula_dependencies (ast : formula) : calc (list string) :=
  validate_formula ast;; dependencies_loop MAX_AST_NODES [ast] [].

(** * Parsing *)

(** [str.isspace] *)
Definition is_space (a : ascii) : bool :=
  let n := N_of_ascii a in
  ((9 <=? n) && (n <=? 13) || (28 <=? n) && (n <=? 32) || (n =? 133) || (n =? 160))%N.

Fixpoint skip_spaces (s : string) : string :=
  match s with
  | String a s' => if is_space a then skip_spaces s' else s
  | EmptyString => s
  end.

Definition head_char (s : string) : option ascii :=
  match s with String a _ => Some a | EmptyString => None end.

(** the [_Parser] object: the text from [offset] on, and [count] *)
Record parser := Parser { rest : string; count : nat }.

(** [peek] *)
Definition peek (p : parser) : option ascii * parser :=
  let r := skip_spaces (rest p) in (head_char r, Parser r (count p)).

(** [self.offset += 1] *)
Definition advance (p : parser) : parser :=
  Parser (match rest p with String _ s => s | EmptyString => EmptyString end) (count p).

(** [self.count += 1] with its bound *)
Definition bump (p : parser) : calc parser :=
  ensure (S (count p) <=? MAX_AST_NODES)%nat FormulaError;; mret (Parser (rest p) (S (count p))).

(** [([eE][+-]?[0-9]+)?] *)
Definition match_exponent (s : string) : Z * string :=
  let digits_from sg t :=
    match span_digits t with
    | ([], _) => (0, s)
    | (l, r) => (sg * Z.of_N (undigits l), r)
    end in
  match s with
  | String e t =>
      if Ascii.eqb e "e" || Ascii.eqb e "E" then
        match t with
        | String "+" t' => digits_from 1 t'
        | String "-" t' => digits_from (-1) t'
        | _ => digits_from 1 t
        end
      else (0, s)
  | EmptyString => (0, s)
  end.

(** [_NUMBER.match] and the [Decimal] it spells *)
Definition match_number (s : string) : option (decimal * string) :=
  let '(ip, r) := span_digits s in
  let '(fp, r') := match r with String "." t => span_digits t | _ => ([], r) end in
  match ip, fp with
  | [], [] => None
  | _, _ =>
      let '(e, r'') := match_exponent r' in
      Some (Dec false (undigits (ip ++ fp)) (e - Z.of_nat (length fp)), r'')
  end.

Definition precedence (c : option ascii) : Z :=
  match c with
  | Some "+" | Some "-" => 1
  | Some "*" | Some "/" => 2
  | _ => -1
  end%char.

(** [text.find(sep)]: the text before and after the first [sep] *)
Fixpoint split_at (sep : ascii) (s : string) : option (string * string) :=
  match s with
  | EmptyString => None
  | String a s' =>
      if Ascii.eqb a sep then Some (EmptyString, s')
      else match split_at sep s' with Some (b, r) => Some (String a b, r) | None => None end
  end.

(** The operand an expression starts with; [expression] parses nested ones. *)
Definition primary (expression : Z → parser → calc (formula * parser)) (p : parser) : calc (formula * parser) :=
  let '(char, p) := peek p in
  match char with
  | Some ("+" as c) | Some ("-" as c) =>
      '(operand, p) ← expression 3 (advance p);
      ast ← make_unary (String c EmptyString) operand; mret (ast, p)
  | Some "(" =>
      '(ast, p) ← expression 0 (advance p);
      let '(close, p) := peek p in
      match close with
      | Some ")" => mret (ast, advance p)
      | _ => Err FormulaError
      end
  | Some "[" =>
      match split_at "]" (rest (advance p)) with
      | None => Err FormulaError
      | Some (node_id, r) => ast ← make_reference node_id; mret (ast, Parser r (count p))
      end
  | _ =>
      match match_number (rest p) with
      | None => Err FormulaError
      | Some (value, r) => ast ← make_literal value; mret (ast, Parser r (count p))
      end
  end%char.

(** [while True:] over the binary operators of at least the minimum precedence *)
Fixpoint operators_loop (expression : Z → parser → calc (formula * parser)) (fuel : nat)
    (minimum : Z) (lhs : formula) (p : parser) : calc (formula * parser) :=
  match fuel with
  | O => Err OutOfFuel
  | S fuel =>
      let '(char, p) := peek p in
      if precedence char <? minimum then Ok (lhs, p)
      else
        match char with
        | None => Ok (lhs, p)
        | Some c =>
            '(rhs, p) ← expression (precedence char + 1) (advance p);
            lhs ← make_binary (String c EmptyString) lhs rhs;
            p ← bump p;
            operators_loop expression fuel minimum lhs p
        end
  end.

(** [expression(minimum, depth)], [depth_left] being [MAX_AST_DEPTH + 1 - depth] *)
Fixpoint expression (depth_left : nat) (minimum : Z) (p : parser) : calc (formula * parser) :=
  match depth_left with
  | O => Err FormulaError
  | S depth_left =>
      '(lhs, p) ← primary (expression depth_left) p;
      p ← bump p;
      operators_loop (expression depth_left) (S MAX_AST_NODES) minimum lhs p
  end.

Definition parse_formula (text : string) : calc formula :=
  ensure (String.length text <=? MAX_EXPRESSION_LENGTH)%nat FormulaError;;
  '(ast, p) ← expression MAX_AST_DEPTH 0 (Parser text 0);
  match peek p with
  | (Some _, _) => Err FormulaError
  | (None, _) =>
      deps ← formula_dependencies ast;
      match deps with
      | [] => Err FormulaError
      | _ => mret ast
      end
  end.

(** * Meaning *)

(** [getattr(left, _OPERATIONS[op])(right)] *)
Definition unit_apply (operator : string) (u v : unit_) : calc unit_ :=
  match operation_of operator with
  | Some op =>
      if String.eqb op "add" then unit_add u v
      else if String.eqb op "sub" then unit_sub u v
      else if String.eqb op "mul" then unit_mul u v
      else unit_div u v
  | None => Err (Escaped PyKeyError)
  end.

Fixpoint infer (units : gmap string unit_) (node : formula) : calc unit_ :=
  match node with
  | Reference node_id => from_option_err (MissingInputError node_id) (units !! node_id)
  | Literal _ => Ok RATIO_UNIT
  | Unary _ operand => infer units operand
  | Binary operator lhs rhs =>
      u ← infer units lhs; v ← infer units rhs; unit_apply operator u v
  end.

Definition infer_formula_unit (ast : formula) (units : gmap string unit_) : calc unit_ :=
  validate_formula ast;; infer units ast.

Definition dec_error (s : signal) : calc_error := Escaped (PyDecimal s).

(** the chain of [if node.operator == ...] ends in a division *)
Definition quantity_apply (operator : string) (a b : quantity) : calc quantity :=
  if String.eqb operator "+" then q_add a b
  else if String.eqb operator "-" then q_sub a b
  else if String.eqb operator "*" then q_mul a b
  else q_div a b.

Fixpoint compute (quantities : gmap string quantity) (node : formula) : calc quantity :=
  match node with
  | Reference node_id => from_option_err (MissingInputError node_id) (quantities !! node_id)
  | Literal value => make_quantity value RATIO_UNIT
  | Unary operator operand =>
      q ← compute quantities operand;
      v ← map_err dec_error
            (dec_plus CALC_CONTEXT (if String.eqb operator "+" then q_value q else dec_neg (q_value q)));
      make_quantity v (q_unit q)
  | Binary operator lhs rhs =>
      a ← compute quantities lhs; b ← compute quantities rhs; quantity_apply operator a b
  end.

(** [except DecimalException] *)
Definition decimal_to_formula_error (e : calc_error) : calc_error :=
  match e with Escaped (PyDecimal _) => FormulaError | _ => e end.

Definition evaluate_formula (ast : formula) (quantities : gmap string quantity) : calc quantity :=
  validate_formula ast;; map_err decimal_to_formula_error (compute quantities ast).

(** * Rewriting and display *)

Fixpoint rewrite_refs (mapping : gmap string string) (node : formula) : calc formula :=
  match node with
  | Reference node_id => make_reference (default node_id (mapping !! node_id))
  | Literal value => mret (Literal value)
  | Unary operator operand => x ← rewrite_refs mapping operand; make_unary operator x
  | Binary operator lhs rhs =>
      l ← rewrite_refs mapping lhs; r ← rewrite_refs mapping rhs; make_binary operator l r
  end.

Definition rewrite_formula_references (ast : formula) (mapping : gmap string string) : calc formula :=
  validate_formula ast;; rewrite_refs mapping ast.

Fixpoint display (node : formula) : string :=
  match node with
  | Reference node_id => "[" +:+ node_id +:+ "]"
  | Literal value => dec_to_string value
  | Unary operator operand => "(" +:+ operator +:+ display operand +:+ ")"
  | Binary operator lhs rhs => "(" +:+ display lhs +:+ " " +:+ operator +:+ " " +:+ display rhs +:+ ")"
  end%string.

Definition format_formula (ast : formula) : calc string := validate_formula ast;; mret (display ast).

(** The bounded loops unfold to large terms: conversion compares them last. *)
#[global] Strategy 100 [validate_loop validate_formula dependencies_loop formula_dependencies expression parse_formula
  infer_formula_unit evaluate_formula rewrite_formula_references format_formula].

(** * Validity, declaratively *)

Fixpoint fsize (f : formula) : nat :=
  match f with
  | Reference _ | Literal _ => 1
  | Unary _ x => S (fsize x)
  | Binary _ l r => S (fsize l + fsize r)
  end.

Fixpoint fdepth (f : formula) : nat :=
  match f with
  | Reference _ | Literal _ => 1
  | Unary _ x => S (fdepth x)
  | Binary _ l r => S (Nat.max (fdepth l) (fdepth r))
  end.

Definition literal_ok (d : decimal) : bool :=
  (ndigits (d_coeff d) <=? 34) && ((-250000 <=? d_exp d) && (d_exp d <=? 250000)).

Definition unary_ok (op : string) : bool := String.eqb op "+" || String.eqb op "-".
Definition binary_ok (op : string) : bool := match operation_of op with Some _ => true | None => false end.

Fixpoint wf (f : formula) : bool :=
  match f with
  | Reference id => safe_id id
  | Literal d => literal_ok d
  | Unary op x => unary_ok op && wf x
  | Binary op l r => binary_ok op && (wf l && wf r)
  end.

Definition formula_ok (f : formula) : bool :=
  wf f && ((fsize f <=? MAX_AST_NODES)%nat && (fdepth f <=? MAX_AST_DEPTH)%nat).

(** the references of a tree in source order, with repetitions *)
Fixpoint refs (f : formula) : list string :=
  match f with
  | Reference id => [id]
  | Literal _ => []
  | Unary _ x => refs x
  | Binary _ l r => refs l ++ refs r
  end.

(** ** Lemmas *)

Lemma fsize_pos f : (1 <= fsize f)%nat.
Proof. destruct f; simpl; lia. Qed.
Lemma fdepth_pos f : (1 <= fdepth f)%nat.
Proof. destruct f; simpl; lia. Qed.

Lemma check_reference_eq id : check_reference id = if safe_id id then Ok tt else Err FormulaError.
Proof. unfold check_reference, require_safe_id. by destruct (safe_id id). Qed.

Lemma check_literal_eq d : check_literal d = if literal_ok d then Ok tt else Err FormulaError.
Proof.
  unfold check_literal, literal_ok, require_decimal, ensure. change (prec CALC_CONTEXT) with 34.
  rewrite (Z.leb_antisym 34 (ndigits (d_coeff d))).
  by destruct (34 <? ndigits (d_coeff d)), (-250000 <=? d_exp d), (d_exp d <=? 250000).
Qed.

(** what the validation loop still has to check of a stack *)
Definition entry_ok (e : formula * nat) : bool :=
  wf (fst e) && (snd e + fdepth (fst e) <=? S MAX_AST_DEPTH)%nat.

Fixpoint stack_size (stack : list formula) : nat :=
  match stack with [] => 0 | f :: stack => fsize f + stack_size stack end.

Lemma andb_swap_pull (a b c : bool) : a && (b && c) = b && (a && c).
Proof. by destruct a, b, c. Qed.

Lemma entry_ok_unary op x d :
  entry_ok (Unary op x, d) = unary_ok op && entry_ok (x, S d).
Proof.
  unfold entry_ok; cbn [fst snd wf fdepth]. rewrite <- andb_assoc.
  by replace (d + S (fdepth x))%nat with (S d + fdepth x)%nat by lia.
Qed.

Lemma entry_ok_binary op l r d :
  entry_ok (Binary op l r, d) = binary_ok op && (entry_ok (l, S d) && entry_ok (r, S d)).
Proof.
  unfold entry_ok; cbn [fst snd wf fdepth]. rewrite <- !andb_assoc. f_equal.
  assert ((d + S (fdepth l `max` fdepth r) <=? S MAX_AST_DEPTH)%nat =
    (S d + fdepth l <=? S MAX_AST_DEPTH)%nat && (S d + fdepth r <=? S MAX_AST_DEPTH)%nat) as ->.
  { apply eq_true_iff_eq. rewrite andb_true_iff, !Nat.leb_le. lia. }
  by destruct (wf l), (wf r), (S d + fdepth l <=? _)%nat.
Qed.

(** The stack loop decides the declarative validity of what is on its stack. *)
Lemma validate_loop_spec fuel stack count :
  (fuel + count = MAX_AST_NODES)%nat →
  validate_loop fuel stack count =
  if (count + stack_size (map fst stack) <=? MAX_AST_NODES)%nat && forallb entry_ok stack
  then Ok tt else Err FormulaError.
Proof.
  revert stack count; induction fuel as [|fuel IH]; intros [|[node depth] stack] count Hf;
    cbn [validate_loop map fst stack_size foldr forallb].
  1,3: destruct (Nat.leb_spec (count + 0) MAX_AST_NODES); [done|lia].
  all: pose proof (fsize_pos node); pose proof (fdepth_pos node).
  1: destruct (Nat.ltb_spec MAX_AST_NODES (S count)); [|lia]; cbn [orb];
     destruct (Nat.leb_spec (count + (fsize node + stack_size (map fst stack))) MAX_AST_NODES); [lia|done].
  destruct (Nat.ltb_spec MAX_AST_NODES (S count)); [lia|]. cbn [orb].
  destruct (Nat.ltb_spec MAX_AST_DEPTH depth) as [Hd|Hd].
  { assert (entry_ok (node, depth) = false) as ->; [|by rewrite andb_false_r].
    unfold entry_ok; cbn [fst snd].
    destruct (Nat.leb_spec (depth + fdepth node) (S MAX_AST_DEPTH)); [lia|apply andb_false_r]. }
  assert (∀ s, (S count + stack_size s)%nat = (count + S (stack_size s))%nat) as Hc by lia.
  destruct node as [id|v|op x|op l r]; cbn [fsize].
  - rewrite check_reference_eq, IH by lia.
    unfold entry_ok at 2; cbn [fst snd wf fdepth].
    destruct (Nat.leb_spec (depth + 1) (S MAX_AST_DEPTH)); [|lia]. rewrite andb_true_r, Hc, andb_swap_pull.
    by destruct (safe_id id).
  - rewrite check_literal_eq, IH by lia.
    unfold entry_ok at 2; cbn [fst snd wf fdepth].
    destruct (Nat.leb_spec (depth + 1) (S MAX_AST_DEPTH)); [|lia]. rewrite andb_true_r, Hc, andb_swap_pull.
    by destruct (literal_ok v).
  - rewrite entry_ok_unary, andb_swap_pull. fold (unary_ok op). rewrite <- andb_assoc.
    destruct (unary_ok op); [|done]. rewrite IH by lia. cbn [map fst stack_size forallb].
    replace (S count + (fsize x + stack_size (map fst stack)))%nat
      with (count + (S (fsize x) + stack_size (map fst stack)))%nat by lia.
    by rewrite andb_swap_pull.
  - rewrite entry_ok_binary. unfold binary_ok. destruct (operation_of op); [|by rewrite andb_false_r].
    rewrite IH by lia. cbn [map fst stack_size forallb].
    cbn [andb].
    replace (S count + (fsize l + (fsize r + stack_size (map fst stack))))%nat
      with (count + (S (fsize l + fsize r) + stack_size (map fst stack)))%nat by lia.
    by rewrite <- !andb_assoc.
Qed.

Lemma validate_formula_eq f : validate_formula f = if formula_ok f then Ok tt else Err FormulaError.
Proof.
  unfold validate_formula. rewrite validate_loop_spec by lia.
  cbn [map fst stack_size forallb]. rewrite andb_true_r. unfold entry_ok, formula_ok; cbn [fst snd].
  by rewrite !Nat.add_0_r, andb_swap_pull.
Qed.

Lemma validate_bind {A} f (k : unit → calc A) :
  (validate_formula f ≫= k) = if formula_ok f then k tt else Err FormulaError.
Proof. rewrite validate_formula_eq. by destruct (formula_ok f). Qed.

Lemma infer_formula_unit_eq f units :
  infer_formula_unit f units = if formula_ok f then infer units f else Err FormulaError.
Proof. apply validate_bind. Qed.

Lemma evaluate_formula_eq f quantities :
  evaluate_formula f quantities =
  if formula_ok f then map_err decimal_to_formula_error (compute quantities f) else Err FormulaError.
Proof. apply validate_bind. Qed.

Lemma rewrite_formula_references_eq f mapping :
  rewrite_formula_references f mapping = if formula_ok f then rewrite_refs mapping f else Err FormulaError.
Proof. apply validate_bind. Qed.

Lemma format_formula_eq f : format_formula f = if formula_ok f then Ok (display f) else Err FormulaError.
Proof. apply validate_bind. Qed.

(** Parts of a valid tree are valid. *)
Lemma formula_ok_parts f :
  formula_ok f = true →
  match f with
  | Unary _ x => formula_ok x = true
  | Binary _ l r => formula_ok l = true ∧ formula_ok r = true
  | _ => True
  end.
Proof.
  unfold formula_ok. destruct f; cbn [wf fsize fdepth]; [done|done| |];
    rewrite !andb_true_iff, !Nat.leb_le; intuition lia.
Qed.

Lemma formula_ok_leaf f : fsize f = 1%nat → wf f = true → formula_ok f = true.
Proof.
  intros Hs Hw. unfold formula_ok. rewrite Hw, Hs.
  destruct f as [| |? x|? l r]; cbn in Hs; [done|done|pose proof (fsize_pos x); lia|pose proof (fsize_pos l); lia].
Qed.

(** ** Dependencies *)

Lemma dependencies_loop_spec fuel stack found :
  (stack_size stack <= fuel)%nat →
  dependencies_loop fuel stack found = Ok (found ++ dict_fromkeys_from found (stack ≫= refs)).
Proof.
  revert stack found; induction fuel as [|fuel IH]; intros [|node stack] found Hf;
    cbn [dependencies_loop stack_size] in *;
    [by rewrite app_nil_r|pose proof (fsize_pos node); lia|by rewrite app_nil_r|].
  destruct node as [id|v|op x|op l r]; cbn [fsize] in Hf.
  - rewrite IH by lia. cbn [mbind list_bind refs app dict_fromkeys_from]. case_decide; [done|].
    rewrite <- app_assoc. simpl. do 3 f_equal. apply dict_fromkeys_from_ext. set_solver.
  - rewrite IH by lia. done.
  - rewrite IH by (cbn; lia). done.
  - rewrite IH by (cbn; lia). cbn [mbind list_bind refs app].
    by rewrite app_assoc.
Qed.

Lemma formula_dependencies_eq f :
  formula_dependencies f = if formula_ok f then Ok (dict_fromkeys (refs f)) else Err FormulaError.
Proof.
  unfold formula_dependencies. rewrite validate_formula_eq. destruct (formula_ok f) eqn:Hok; [|done].
  unfold formula_ok in Hok. btrue. rewrite Nat.leb_le in *.
  change (dependencies_loop MAX_AST_NODES [f] [] = Ok (dict_fromkeys (refs f))).
  rewrite dependencies_loop_spec by (cbn; lia). cbn [mbind list_bind]. by rewrite app_nil_r.
Qed.

Lemma refs_safe f r : formula_ok f = true → r ∈ refs f → safe_id r = true.
Proof.
  unfold formula_ok. intros [Hw _]%andb_true_iff. revert Hw.
  induction f as [id| |op x IH|op a IHa b IHb]; cbn; intros Hw Hr; btrue; set_solver.
Qed.

(** ** The parser: every outcome *)

(** no negative literal; the parser reads a minus sign as an operator *)
Fixpoint unsigned (f : formula) : bool :=
  match f with
  | Reference _ => true
  | Literal d => negb (d_sign d)
  | Unary _ x => unsigned x
  | Binary _ l r => unsigned l && unsigned r
  end.

(** a valid tree read with at least [n] nodes counted, or a [FormulaError] *)
Definition parsed (n : nat) (r : calc (formula * parser)) : Prop :=
  match r with
  | Ok (ast, p) => formula_ok ast = true ∧ unsigned ast = true ∧ (n <= count p <= MAX_AST_NODES)%nat
  | Err e => e = FormulaError
  end.

Lemma make_reference_eq id : make_reference id = if safe_id id then Ok (Reference id) else Err FormulaError.
Proof. unfold make_reference. rewrite check_reference_eq. by destruct (safe_id id). Qed.
Lemma make_literal_eq d : make_literal d = if literal_ok d then Ok (Literal d) else Err FormulaError.
Proof. unfold make_literal. rewrite check_literal_eq. by destruct (literal_ok d). Qed.
Lemma make_unary_eq op x : make_unary op x = if formula_ok (Unary op x) then Ok (Unary op x) else Err FormulaError.
Proof. unfold make_unary. rewrite validate_formula_eq. by destruct (formula_ok _). Qed.
Lemma make_binary_eq op l r :
  make_binary op l r = if formula_ok (Binary op l r) then Ok (Binary op l r) else Err FormulaError.
Proof. unfold make_binary. rewrite validate_formula_eq. by destruct (formula_ok _). Qed.
Lemma bump_eq p :
  bump p = if (S (count p) <=? MAX_AST_NODES)%nat then Ok (Parser (rest p) (S (count p))) else Err FormulaError.
Proof. unfold bump, ensure. by destruct (S (count p) <=? MAX_AST_NODES)%nat. Qed.

Lemma parsed_mono n m r : (m <= n)%nat → parsed n r → parsed m r.
Proof. destruct r as [[ast p]|]; simpl; [|done]. intros ? (? & ? & ?). repeat split; auto; lia. Qed.

Lemma match_number_unsigned s d r : match_number s = Some (d, r) → d_sign d = false.
Proof.
  unfold match_number. intros H. destruct (span_digits s) as [ip r1].
  destruct (match r1 with String "." t => span_digits t | _ => ([], r1) end) as [fp r2].
  destruct (match_exponent r2) as [e r3]. destruct ip, fp; by inversion H.
Qed.

Lemma precedence_ge c : -1 ≤ precedence c.
Proof. destruct c as [[[] [] [] [] [] [] [] []]|]; cbn; lia. Qed.

Section parser_total.
Context (expr : Z → parser → calc (formula * parser)).
Hypothesis Hexpr : ∀ m p, 0 ≤ m → (count p <= MAX_AST_NODES)%nat → parsed (S (count p)) (expr m p).

Lemma primary_parsed p : (count p <= MAX_AST_NODES)%nat → parsed (count p) (primary expr p).
Proof.
  intros Hp. unfold primary, peek. set (s := skip_spaces (rest p)).
  assert (Hnum : parsed (count p)
    (match match_number s with
     | None => Err FormulaError
     | Some (value, r) => ast ← make_literal value; mret (ast, Parser r (count p))
     end)).
  { destruct (match_number s) as [[v r]|] eqn:Hn; [|done]. rewrite make_literal_eq.
    destruct (literal_ok v) eqn:Hv; [|done]. simpl.
    rewrite (match_number_unsigned _ _ _ Hn). split_and!; [by apply formula_ok_leaf|done|lia..]. }
  assert (Hun : ∀ c, parsed (count p)
    ('(operand, p) ← expr 3 (advance (Parser s (count p)));
     ast ← make_unary (String c EmptyString) operand; mret (ast, p))).
  { intros c. pose proof (Hexpr 3 (advance (Parser s (count p))) ltac:(lia) Hp) as Hx.
    destruct (expr 3 _) as [[x p']|e]; [|done]. destruct Hx as (Hok & Hu & Hc).
    unfold mbind, result_bind. rewrite make_unary_eq. destruct (formula_ok (Unary _ x)) eqn:Hf; [|done].
    cbn in *. split_and!; auto; lia. }
  assert (Hparen : parsed (count p)
    ('(ast, p) ← expr 0 (advance (Parser s (count p)));
     let '(close, p) := peek p in
     match close with Some ")" => mret (ast, advance p) | _ => Err FormulaError end%char)).
  { pose proof (Hexpr 0 (advance (Parser s (count p))) ltac:(lia) Hp) as Hx.
    destruct (expr 0 _) as [[x p']|e]; [|done]. destruct Hx as (Hok & Hu & Hc). unfold mbind, result_bind.
    assert (parsed (count p) (mret (x, advance (snd (peek p'))))) as Hclose
      by (cbn in *; split_and!; auto; lia).
    cbn [peek] in *. destruct (head_char (skip_spaces (rest p'))) as [[[] [] [] [] [] [] [] []]|]; done. }
  assert (Hrefs : parsed (count p)
    (match split_at "]" (rest (advance (Parser s (count p)))) with
     | None => Err FormulaError
     | Some (node_id, r) => ast ← make_reference node_id; mret (ast, Parser r (count p))
     end)).
  { destruct (split_at _ _) as [[id r]|]; [|done]. rewrite make_reference_eq.
    destruct (safe_id id) eqn:Hid; [|done]. simpl. split_and!; [by apply formula_ok_leaf|done|lia..]. }
  clearbody s. unfold peek in Hparen. cbn [rest count] in *.
  destruct (head_char s) as [[[] [] [] [] [] [] [] []]|]; first [exact Hnum|apply Hun|exact Hparen|exact Hrefs].
Qed.

Lemma operators_loop_parsed fuel m lhs p :
  0 ≤ m → formula_ok lhs = true → unsigned lhs = true →
  (count p <= MAX_AST_NODES)%nat → (MAX_AST_NODES < fuel + count p)%nat →
  parsed (count p) (operators_loop expr fuel m lhs p).
Proof.
  intros Hm. revert lhs p; induction fuel as [|fuel IH]; intros lhs p Hl Hu Hp Hf; [lia|].
  cbn [operators_loop peek]. set (p1 := Parser (skip_spaces (rest p)) (count p)).
  destruct (head_char (skip_spaces (rest p))) as [c|].
  2: { cbn [precedence]. destruct (Z.ltb_spec (-1) m); [|lia]. cbn. split_and!; auto. }
  destruct (precedence (Some c) <? m); [cbn; split_and!; auto|].
  pose proof (Hexpr (precedence (Some c) + 1) (advance p1) ltac:(pose proof (precedence_ge (Some c)); lia) Hp) as Hx.
  destruct (expr (precedence (Some c) + 1) (advance p1)) as [[x p']|e]; [|done].
  destruct Hx as (Hok & Hux & Hc). unfold mbind, result_bind. rewrite make_binary_eq.
  destruct (formula_ok (Binary _ lhs x)) eqn:Hb; [|done]. rewrite bump_eq.
  destruct (Nat.leb_spec (S (count p')) MAX_AST_NODES); [|done]. cbn [count advance p1] in Hc.
  eapply (parsed_mono (S (count p'))); [lia|]. apply (IH _ (Parser (rest p') (S (count p')))); cbn.
  - done.
  - by rewrite Hu, Hux.
  - lia.
  - lia.
Qed.
End parser_total.

Lemma expression_parsed depth_left m p :
  0 ≤ m → (count p <= MAX_AST_NODES)%nat → parsed (S (count p)) (expression depth_left m p).
Proof.
  revert m p. induction depth_left as [|k IH]; intros m p Hm Hp; [done|]. cbn [expression].
  pose proof (primary_parsed (expression k) IH p Hp) as Hx.
  destruct (primary (expression k) p) as [[x p']|e]; [|done]. destruct Hx as (Hok & Hu & Hc).
  unfold mbind, result_bind. rewrite bump_eq. destruct (Nat.leb_spec (S (count p')) MAX_AST_NODES); [|done].
  eapply (parsed_mono (S (count p'))); [lia|].
  apply (operators_loop_parsed (expression k) IH _ _ _ (Parser (rest p') (S (count p')))); cbn; auto; lia.
Qed.

(** ** Display reads back *)

Definition is_exp_or_dot (a : ascii) : bool := Ascii.eqb a "." || Ascii.eqb a "e" || Ascii.eqb a "E".

(** text that cannot continue a number *)
Definition closes (s : string) : bool :=
  match s with EmptyString => true | String a _ => negb (is_digit a || is_exp_or_dot a) end.

Definition number_text (ip : list N) (frac : option (list N)) (ex : option Z) : string :=
  (string_of_digits ip +:+
   (match frac with None => "" | Some l => "." +:+ string_of_digits l end +:+
    (match ex with None => "" | Some e => "E" +:+ format_signed e end)))%string.

Lemma dec_ext s c c' e e' : c = c' → e = e' → Dec s c e = Dec s c' e'.
Proof. by intros -> ->. Qed.

Lemma closes_not_digit s : closes s = true → starts_with_digit s = false.
Proof. destruct s as [|a s]; [done|]. cbn. destruct (is_digit a); [done|]. done. Qed.

Lemma match_exponent_none s : closes s = true → match_exponent s = (0, s).
Proof.
  destruct s as [|a s]; [done|]. cbn. intros H. btrue. unfold is_exp_or_dot in *. btrue.
  destruct (Ascii.eqb a "e"), (Ascii.eqb a "E"); done.
Qed.

Lemma undigits_digits_nil n : digits n ≠ [].
Proof. intros H. pose proof (ndigits_pos n) as Hn. unfold ndigits in Hn. rewrite H in Hn. cbn in Hn. lia. Qed.

Lemma match_exponent_some e r : closes r = true → match_exponent ("E" +:+ format_signed e +:+ r)%string = (e, r).
Proof.
  intros Hr. unfold format_signed. rewrite string_app_assoc.
  assert (Hspan : ∀ t, t = (string_of_digits (digits (Z.abs_N e)) +:+ r)%string →
    span_digits t = (digits (Z.abs_N e), r)).
  { intros t ->. apply span_digits_app; [apply digits_lt_10|by apply closes_not_digit]. }
  assert (Z.of_N (undigits (digits (Z.abs_N e))) = Z.abs e) as Hv by (rewrite undigits_digits; lia).
  pose proof (undigits_digits_nil (Z.abs_N e)) as Hne.
  destruct (Z.ltb_spec e 0); rewrite !string_app_cons, !string_app_empty; unfold match_exponent;
    change (Ascii.eqb "E" "e" || Ascii.eqb "E" "E") with true; cbv iota beta;
    rewrite (Hspan _ eq_refl); destruct (digits (Z.abs_N e)); [done| |done|]; rewrite Hv; f_equal; lia.
Qed.

Lemma match_number_text ip frac ex r :
  ip ≠ [] → Forall (λ d, (d < 10)%N) ip → Forall (λ d, (d < 10)%N) (default [] frac) → closes r = true →
  match_number (number_text ip frac ex +:+ r)%string
  = Some (Dec false (undigits (ip ++ default [] frac)) (default 0 ex - Z.of_nat (length (default [] frac))), r).
Proof.
  intros Hne Hip Hfp Hr. unfold match_number, number_text. rewrite !string_app_assoc.
  set (tail := (match ex with None => "" | Some e => "E" +:+ format_signed e end +:+ r)%string).
  assert (Hsd : starts_with_digit tail = false ∧ match_exponent tail = (default 0 ex, r)).
  { unfold tail. destruct ex as [e|]; cbn [default].
    - rewrite string_app_assoc, match_exponent_some by done. done.
    - rewrite string_app_empty. split; [by apply closes_not_digit|by apply match_exponent_none]. }
  destruct Hsd as [Hsd Hex].
  assert (Hdot : match tail with String "." t => span_digits t | _ => ([], tail) end = ([], tail)).
  { unfold tail. destruct ex; [done|]. rewrite string_app_empty. destruct r as [|a r]; [done|].
    destruct a as [[] [] [] [] [] [] [] []]; done. }
  destruct frac as [l|]; cbn [default] in *.
  - rewrite span_digits_app by done. rewrite string_app_assoc, string_app_cons, string_app_empty.
    rewrite span_digits_app by done. rewrite Hex. by destruct ip.
  - rewrite string_app_empty, span_digits_app by done. rewrite Hdot, Hex. by destruct ip.
Qed.

(** [str] of a nonnegative decimal is a number of the grammar that reads back to
    the same coefficient and exponent. *)
Lemma match_number_dec_to_string d r :
  d_sign d = false → closes r = true → match_number (dec_to_string d +:+ r)%string = Some (d, r).
Proof.
  destruct d as [sg c e]; cbn [d_sign]. intros -> Hr. unfold dec_to_string; cbn [d_sign d_coeff d_exp].
  pose proof (ndigits_pos c) as Hn. assert (length (digits c) = Z.to_nat (ndigits c)) as Hlen by (unfold ndigits; lia).
  pose proof (undigits_digits_nil c) as Hne. pose proof (digits_lt_10 c) as H10.
  set (ld := e + ndigits c).
  set (dp := if (e <=? 0) && (-6 <? ld) then ld else 1).
  assert (Hdp : (dp = ld ∧ e ≤ 0) ∨ dp = 1) by (unfold dp; destruct (Z.leb_spec e 0), (Z.ltb_spec (-6) ld); cbn; lia).
  clearbody dp.
  assert (Hex : ∀ ip frac, match_number
      ((("" : string) +:+ string_of_digits ip +:+ match frac with None => "" | Some l => "." +:+ string_of_digits l end +:+
        (if (ld =? dp)%Z then "" else "E" +:+ format_signed (ld - dp)%Z)) +:+ r)%string
    = match_number (number_text ip frac (if (ld =? dp)%Z then None else Some (ld - dp)) +:+ r)%string).
  { intros. unfold number_text. by destruct (ld =? dp). }
  assert (Hdef : default 0 (if ld =? dp then None else Some (ld - dp)) = ld - dp)
    by (destruct (Z.eqb_spec ld dp); cbn; lia).
  destruct (Z.leb_spec dp 0); [|destruct (Z.leb_spec (ndigits c) dp)].
  - rewrite (Hex [0%N] (Some (zeros (- dp) ++ digits c))), match_number_text, Hdef; try done.
    + cbn [default from_option]. unfold id.
      rewrite !undigits_app, undigits_zeros, undigits_digits, length_app, Hlen.
      unfold zeros. rewrite length_replicate. do 2 f_equal; apply dec_ext; [change (undigits [0%N]) with 0%N; lia|lia].
    + by repeat constructor.
    + cbn. apply Forall_app; split; [apply zeros_lt_10|done].
  - rewrite (Hex (digits c ++ zeros (dp - ndigits c)) None), match_number_text, Hdef; try done.
    + cbn [default from_option length]. rewrite app_nil_r, undigits_app, undigits_digits.
      assert (dp - ndigits c = 0) as -> by lia. change (zeros 0) with (@nil N).
      do 2 f_equal; apply dec_ext; cbn; lia.
    + by destruct (digits c).
    + apply Forall_app; split; [done|apply zeros_lt_10].
  - rewrite (Hex (take (Z.to_nat dp) (digits c)) (Some (drop (Z.to_nat dp) (digits c)))), match_number_text, Hdef; try done.
    + cbn [default from_option]. unfold id. rewrite take_drop, undigits_digits, length_drop, Hlen. do 2 f_equal; apply dec_ext; lia.
    + destruct (digits c); [done|]. replace (Z.to_nat dp) with (S (Z.to_nat (dp - 1))) by lia. done.
    + by apply Forall_take.
    + cbn. by apply Forall_drop.
Qed.

(** the parse depth a displayed tree needs beyond its own operand *)
Fixpoint nest (f : formula) : nat :=
  match f with
  | Reference _ | Literal _ => 0
  | Unary _ x => 2 + nest x
  | Binary _ l r => Nat.max (1 + nest l) (2 + nest r)
  end.

(** how much the parser counts for a displayed tree: parentheses count too *)
Fixpoint cost (f : formula) : nat :=
  match f with
  | Reference _ | Literal _ => 0
  | Unary _ x => 2 + cost x
  | Binary _ l r => 3 + cost l + cost r
  end.

Definition not_space (s : string) : bool := match s with String a _ => negb (is_space a) | EmptyString => true end.

Lemma skip_spaces_id s : not_space s = true → skip_spaces s = s.
Proof. destruct s as [|a s]; [done|]. cbn. by destruct (is_space a). Qed.

Lemma digit_cases a : is_digit a = true →
  is_space a = false ∧ ∀ {A} (u p b n : A),
  match Some a with Some "+" | Some "-" => u | Some "(" => p | Some "[" => b | _ => n end%char = n.
Proof. destruct a as [[] [] [] [] [] [] [] []]; done. Qed.

Lemma dec_to_string_head d r : d_sign d = false →
  ∃ a s, (dec_to_string d +:+ r)%string = String a s ∧ is_digit a = true.
Proof.
  destruct d as [sg c e]; cbn [d_sign]. intros ->. unfold dec_to_string; cbn [d_sign d_coeff d_exp].
  pose proof (undigits_digits_nil c) as Hne. pose proof (digits_lt_10 c) as H10.
  assert (Hhd : ∀ l s, l ≠ [] → Forall (λ d, (d < 10)%N) l →
    ∃ a s', (string_of_digits l +:+ s)%string = String a s' ∧ is_digit a = true).
  { intros [|x l] s Hl Hf; [done|]. apply Forall_cons in Hf as [Hx _].
    rewrite string_of_digits_cons, string_app_cons. eexists _, _. split; [done|]. by apply digit_char_spec. }
  set (dp := if (e <=? 0) && _ then _ else _). clearbody dp.
  destruct (Z.leb_spec dp 0); [|destruct (Z.leb_spec (ndigits c) dp)];
    rewrite string_app_empty, string_app_assoc; apply Hhd.
  - done.
  - by repeat constructor.
  - by destruct (digits c).
  - apply Forall_app; split; [done|apply zeros_lt_10].
  - destruct (digits c); [done|]. replace (Z.to_nat dp) with (S (Z.to_nat (dp - 1))) by lia. done.
  - by apply Forall_take.
Qed.

Lemma operation_cases op : binary_ok op = true → op = "+"%string ∨ op = "-"%string ∨ op = "*"%string ∨ op = "/"%string.
Proof.
  unfold binary_ok, operation_of.
  destruct (String.eqb_spec op "+"), (String.eqb_spec op "-"), (String.eqb_spec op "*"), (String.eqb_spec op "/"); auto. done.
Qed.

Lemma unary_cases op : unary_ok op = true → op = "+"%string ∨ op = "-"%string.
Proof. unfold unary_ok. destruct (String.eqb_spec op "+"), (String.eqb_spec op "-"); auto. done. Qed.

Lemma split_at_ref id r : safe_id id = true → split_at "]" (id +:+ String "]" r)%string = Some (id, r).
Proof.
  intros Hid.
  assert (Hall : all_chars is_id_char id = true ∨ True) by (by right). clear Hall.
  assert (Hc : ∀ s, all_chars is_id_char s = true → split_at "]" (s +:+ String "]" r)%string = Some (s, r)).
  { induction s as [|a s IH]; [done|]. cbn. intros Ha. btrue. rewrite string_app_cons. cbn [split_at].
    rewrite IH by done. destruct (Ascii.eqb_spec a "]") as [->|]; done. }
  destruct id as [|a s]; [done|]. cbn in Hid. btrue. rewrite string_app_cons. cbn [split_at].
  rewrite Hc by done. destruct (Ascii.eqb_spec a "]") as [->|]; done.
Qed.

Lemma display_not_space f r : wf f = true → unsigned f = true → not_space (display f +:+ r)%string = true.
Proof.
  destruct f as [id|d|op x|op l y]; cbn [display]; rewrite ?string_app_assoc; try done.
  intros _ Hd. cbn in Hd. btrue. destruct (dec_to_string_head d r) as (a & s & -> & Ha); [done|].
  cbn [not_space]. by destruct (digit_cases a Ha) as [-> _].
Qed.

(** An operators loop stops in front of an operator of lower precedence. *)
Lemma operators_loop_stop expr fuel m lhs s c :
  (0 < fuel)%nat → not_space s = true → precedence (head_char s) < m →
  operators_loop expr fuel m lhs (Parser s c) = Ok (lhs, Parser s c).
Proof.
  intros Hf Hs Hp. destruct fuel; [lia|]. cbn [operators_loop peek rest count].
  rewrite skip_spaces_id by done. destruct (Z.ltb_spec (precedence (head_char s)) m); [done|lia].
Qed.

(** one call of [expression] on an operand followed by text it does not read *)
Lemma expression_operand k m f s s' c c' :
  primary (expression k) (Parser s c) = Ok (f, Parser s' c') →
  (S c' <= MAX_AST_NODES)%nat → not_space s' = true → precedence (head_char s') < m →
  expression (S k) m (Parser s c) = Ok (f, Parser s' (S c')).
Proof.
  intros Hp Hc Hs Hm. cbn [expression]. rewrite Hp. unfold mbind, result_bind. rewrite bump_eq. cbn [count rest].
  destruct (Nat.leb_spec (S c') MAX_AST_NODES); [|lia]. apply operators_loop_stop; [lia|done|done].
Qed.

Lemma expression_S k m p :
  expression (S k) m p =
  ('(lhs, p) ← primary (expression k) p; p ← bump p;
   operators_loop (expression k) (S MAX_AST_NODES) m lhs p).
Proof. done. Qed.

Lemma advance_cons a t c : advance (Parser (String a t) c) = Parser t c.
Proof. done. Qed.

Lemma primary_sign expr op t c :
  unary_ok op = true →
  primary expr (Parser (op +:+ t)%string c) =
  ('(operand, p) ← expr 3 (Parser t c); ast ← make_unary op operand; mret (ast, p)).
Proof. intros [-> | ->]%unary_cases; done. Qed.

Definition op_precedence (op : string) : Z := precedence (head_char op).

Lemma operators_loop_step expr fuel lhs t op c :
  binary_ok op = true →
  operators_loop expr (S fuel) 0 lhs (Parser (" " +:+ op +:+ t)%string c) =
  ('(rhs, p) ← expr (op_precedence op + 1) (Parser t c);
   lhs ← make_binary op lhs rhs; p ← bump p; operators_loop expr fuel 0 lhs p).
Proof. intros [-> | [-> | [-> | ->]]]%operation_cases; done. Qed.

Lemma primary_display f : ∀ k s r c,
  formula_ok f = true → unsigned f = true → (nest f <= k)%nat → closes r = true →
  (c + cost f <= MAX_AST_NODES)%nat → skip_spaces s = (display f +:+ r)%string →
  primary (expression k) (Parser s c) = Ok (f, Parser r (c + cost f)).
Proof.
  induction f as [id|d|op x IH|op l IHl y IHr]; intros k s r c Hok Hu Hk Hr Hc Hs; unfold primary; cbn [peek rest];
    rewrite Hs; cbn [display cost nest] in *; pose proof Hok as Hok'; unfold formula_ok in Hok'; cbn [wf] in Hok'; btrue.
  - rewrite !string_app_assoc. cbn [head_char rest count advance]. rewrite string_app_cons, string_app_empty.
    cbn [head_char rest count advance]. change (("]" +:+ r)%string) with (String "]" r).
    rewrite split_at_ref by done. rewrite make_reference_eq.
    match goal with H : safe_id id = true |- _ => rewrite H end. by rewrite Nat.add_0_r.
  - cbn [unsigned] in Hu. btrue. destruct (dec_to_string_head d r) as (a & s' & Heq & Ha); [done|].
    rewrite Heq. cbn [head_char rest count].
    destruct (digit_cases a Ha) as [_ Hd]. rewrite Hd, <- Heq, match_number_dec_to_string by done.
    rewrite make_literal_eq. match goal with H : literal_ok d = true |- _ => rewrite H end. by rewrite Nat.add_0_r.
  - apply formula_ok_parts in Hok as Hx. cbn [unsigned] in Hu.
    destruct k as [|[|k]]; [lia|lia|]. rewrite !string_app_assoc, string_app_cons, string_app_empty.
    cbn [head_char rest count]. rewrite advance_cons.
    assert (Hin : primary (expression (S k)) (Parser (op +:+ display x +:+ ")" +:+ r) c)%string
      = Ok (Unary op x, Parser (")" +:+ r)%string (S (c + cost x)))).
    { rewrite (primary_sign _ op) by done.
      rewrite (expression_operand k 3 x _ (")" +:+ r)%string c (c + cost x));
        [|apply IH; auto; [lia|lia|by apply skip_spaces_id, display_not_space]|lia|done|done].
      unfold mbind, result_bind. by rewrite make_unary_eq, Hok. }
    rewrite (expression_operand _ 0 _ _ _ _ _ Hin) by (done || lia).
    replace (c + (2 + cost x))%nat with (S (S (c + cost x))) by lia. done.
  - apply formula_ok_parts in Hok as Hx. destruct Hx as [Hlo Hyo]. cbn [unsigned] in Hu. btrue.
    destruct k as [|[|k]]; [lia|lia|]. rewrite !string_app_assoc, string_app_cons, string_app_empty.
    cbn [head_char rest count]. rewrite advance_cons.
    set (t := (" " +:+ op +:+ " " +:+ display y +:+ ")" +:+ r)%string).
    assert (Hl : primary (expression (S k)) (Parser (display l +:+ t)%string c) = Ok (l, Parser t (c + cost l))).
    { apply IHl; auto; [lia|lia|]. apply skip_spaces_id, display_not_space; done. }
    rewrite expression_S, Hl, bind_ok, bump_eq. cbn [count rest].
    destruct (Nat.leb_spec (S (c + cost l)) MAX_AST_NODES); [|lia].
    unfold t. rewrite bind_ok, operators_loop_step by done.
    rewrite (expression_operand k _ y _ (")" +:+ r)%string _ (S (c + cost l) + cost y));
      [|apply IHr; auto; [lia|lia|]|lia|done|].
    + unfold mbind, result_bind. rewrite make_binary_eq, Hok, bump_eq. cbn [count rest].
      destruct (Nat.leb_spec (S (S (S (c + cost l) + cost y))) MAX_AST_NODES); [|lia].
      rewrite operators_loop_stop by (done || lia).
      replace (c + (3 + cost l + cost y))%nat with (S (S (S (c + cost l) + cost y))) by lia. done.
    + rewrite <- (skip_spaces_id (display y +:+ ")" +:+ r)%string) at 2; [done|by apply display_not_space].
    + pose proof (precedence_ge (head_char op)). unfold op_precedence. cbn [head_char precedence string_app_cons]. change (-1 < precedence (head_char op) + 1). lia.
Qed.

(** ** Typing *)

Lemma quantity_apply_eq op a b :
  binary_ok op = true →
  ∃ name, operation_of op = Some name ∧ quantity_apply op a b = q_apply name (unit_apply op) a b.
Proof. intros [-> | [-> | [-> | ->]]]%operation_cases; by eexists. Qed.

Lemma unit_apply_result op u v : binary_ok op = true → unit_ok u = true → unit_result (unit_apply op u v).
Proof. intros [-> | [-> | [-> | ->]]]%operation_cases Hu; cbn; auto with fel. Qed.

Definition units_of (quantities : gmap string quantity) : gmap string unit_ := q_unit <$> quantities.

(** every quantity an environment holds passed the constructors *)
Definition env_ok (quantities : gmap string quantity) : Prop := map_Forall (λ _ q, quantity_ok q) quantities.

Lemma literal_decimal_ok d : literal_ok d = true → decimal_ok d.
Proof. unfold literal_ok, decimal_ok. change (prec CALC_CONTEXT) with 34. intros H. btrue. lia. Qed.

Lemma infer_unit_ok quantities f u : env_ok quantities → wf f = true → infer (units_of quantities) f = Ok u → unit_ok u = true.
Proof.
  intros Henv. revert u. induction f as [id|d|op x IH|op l IHl r IHr]; intros u Hwf Hu; cbn [infer wf] in *; btrue.
  - ok_inv. unfold units_of in Hu. rewrite lookup_fmap in Hu. destruct (quantities !! id) as [q|] eqn:Hq; [|done].
    injection Hu as <-. by destruct (Henv _ _ Hq).
  - by injection Hu as <-.
  - by apply IH.
  - ok_inv. pose proof (unit_apply_result op v v0) as Hr. rewrite Hu in Hr. by apply Hr; [|apply IHl].
Qed.

Lemma unit_apply_err op u v e : binary_ok op = true → unit_apply op u v = Err e → e = UnitError.
Proof.
  intros Hop He. assert (∀ r, unit_result r → r = Err e → e = UnitError) as Hr by (by intros [] ? ?; simplify_eq).
  apply operation_cases in Hop as [-> | [-> | [-> | ->]]]; cbn in He;
    [unfold unit_add in He|unfold unit_sub in He|by eapply Hr; [|exact He]; auto with fel..];
    case_decide; by simplify_eq.
Qed.

(** With every reference bound, inference fails only on incompatible units. *)
Lemma infer_err units f e :
  wf f = true → (∀ r, r ∈ refs f → is_Some (units !! r)) → infer units f = Err e → e = UnitError.
Proof.
  revert e. induction f as [id|d|op x IH|op l IHl r IHr]; intros e Hwf Hin; cbn [infer wf refs] in *; btrue.
  - destruct (Hin id) as [u Hu]; [left|]. by rewrite Hu.
  - done.
  - auto.
  - intros [He|(u & _ & He)]%bind_Err; [apply (IHl e); auto; set_solver|].
    apply bind_Err in He as [He|(v & _ & He)]; [apply (IHr e); auto; set_solver|]. by eapply unit_apply_err.
Qed.

(** what a formula of inferred unit [u] evaluates to *)
Definition typed_result (u : unit_) (r : calc quantity) : Prop :=
  match r with
  | Ok q => q_unit q = u ∧ quantity_ok q
  | Err e => e = FormulaError ∨ ∃ s, e = dec_error s
  end.

Lemma compute_typed quantities f u :
  env_ok quantities → wf f = true → infer (units_of quantities) f = Ok u →
  typed_result u (compute quantities f).
Proof.
  intros Henv. revert u. induction f as [id|d|op x IH|op l IHl r IHr]; intros u Hwf Hu; cbn [infer compute wf] in *; btrue.
  - ok_inv. unfold units_of in Hu. rewrite lookup_fmap in Hu. destruct (quantities !! id) as [q|] eqn:Hq; [|done].
    injection Hu as <-. split; [done|]. by apply (Henv id).
  - injection Hu as <-. apply literal_decimal_ok in Hwf.
    rewrite (proj2 (make_quantity_Ok d RATIO_UNIT _)) by done. done.
  - assert (wf x = true) as Hx by done. specialize (IH u Hx Hu).
    destruct (compute quantities x) as [q|e]; [|done]. destruct IH as [Hq Hok]. rewrite bind_ok.
    destruct (dec_plus CALC_CONTEXT _) as [v|s] eqn:Hp; [|right; by exists s]. cbn [map_err]. rewrite bind_ok.
    apply dec_plus_rounds in Hp as [_ Hv]; [|done].
    rewrite (proj2 (make_quantity_Ok v (q_unit q) _)) by done.
    split; [done|]. split; [done|]. apply Hok.
  - ok_inv. specialize (IHl _ ltac:(done) Hv). specialize (IHr _ ltac:(done) Hv0).
    destruct (compute quantities l) as [a|e]; [|done]. rewrite bind_ok.
    destruct (compute quantities r) as [b|e]; [|done]. rewrite bind_ok.
    destruct IHl as [<- [_ Ha]], IHr as [<- _].
    destruct (quantity_apply_eq op a b) as (name & _ & ->); [done|].
    assert (of_unit u (q_apply name (unit_apply op) a b)) as Ht.
    { apply q_apply_typed; [done|]. pose proof (unit_apply_result op (q_unit a) (q_unit b) ltac:(done) Ha) as Hr.
      by rewrite Hu in Hr. }
    destruct (q_apply name (unit_apply op) a b); [done|by left].
Qed.

(** Inference only looks at the references it meets. *)
Lemma infer_mono units units' f u :
  (∀ k v, units !! k = Some v → units' !! k = Some v) → infer units f = Ok u → infer units' f = Ok u.
Proof.
  intros Hm. revert u. induction f as [id|d|op x IH|op l IHl r IHr]; intros u; cbn [infer]; [|done|by apply IH|].
  - rewrite !from_option_err_Ok. apply Hm.
  - intros H. ok_inv. by rewrite (IHl _ Hv), bind_ok, (IHr _ Hv0), bind_ok.
Qed.

Lemma evaluate_formula_of_unit ast quantities units u :
  env_ok quantities → (∀ k v, units !! k = Some v → units_of quantities !! k = Some v) →
  infer_formula_unit ast units = Ok u → of_unit u (evaluate_formula ast quantities).
Proof.
  intros Henv Hm. rewrite infer_formula_unit_eq, evaluate_formula_eq.
  destruct (formula_ok ast) eqn:Hok; [intros Hu|done].
  unfold formula_ok in Hok. apply andb_true_iff in Hok as [Hwf _].
  pose proof (compute_typed quantities ast u Henv Hwf (infer_mono _ _ _ _ Hm Hu)) as Ht.
  destruct (compute quantities ast) as [q|e]; [exact Ht|]. by destruct Ht as [->|[s ->]].
Qed.

(** ** Rewriting *)

Fixpoint rename (mapping : gmap string string) (f : formula) : formula :=
  match f with
  | Reference id => Reference (default id (mapping !! id))
  | Literal d => Literal d
  | Unary op x => Unary op (rename mapping x)
  | Binary op l r => Binary op (rename mapping l) (rename mapping r)
  end.

Lemma rename_shape mapping f : fsize (rename mapping f) = fsize f ∧ fdepth (rename mapping f) = fdepth f.
Proof. induction f as [|?|? ? []|? ? [] ? []]; cbn; lia. Qed.

Lemma rename_wf mapping f :
  map_Forall (λ _ id, safe_id id = true) mapping → wf f = true → wf (rename mapping f) = true.
Proof.
  intros Hm. induction f as [id| |op x IH|op l IHl r IHr]; cbn; intros H; btrue; rewrite ?andb_true_iff; auto.
  destruct (mapping !! id) as [id'|] eqn:Hid; [|done]. by apply (Hm id).
Qed.

Lemma rename_formula_ok mapping f :
  map_Forall (λ _ id, safe_id id = true) mapping → formula_ok f = true → formula_ok (rename mapping f) = true.
Proof.
  unfold formula_ok. intros Hm H. btrue. destruct (rename_shape mapping f) as [-> ->].
  by rewrite rename_wf, !andb_true_iff.
Qed.

Lemma rewrite_refs_rename mapping f :
  map_Forall (λ _ id, safe_id id = true) mapping → formula_ok f = true →
  rewrite_refs mapping f = Ok (rename mapping f).
Proof.
  intros Hm. induction f as [id| |op x IH|op l IHl r IHr]; intros Hok; cbn [rewrite_refs rename];
    pose proof (rename_formula_ok mapping _ Hm Hok) as Hr; cbn [rename] in Hr; apply formula_ok_parts in Hok.
  - rewrite make_reference_eq. unfold formula_ok in Hr. cbn [wf] in Hr. btrue.
    by match goal with H : safe_id _ = true |- _ => rewrite H end.
  - done.
  - by rewrite IH, bind_ok, make_unary_eq, Hr.
  - destruct Hok. by rewrite IHl, bind_ok, IHr, bind_ok, make_binary_eq, Hr.
Qed.

(** the same value, the same failure, or a missing reference on both sides *)
Definition same_outcome (r r' : calc quantity) : Prop :=
  match r, r' with
  | Ok q, Ok q' => q = q'
  | Err e, Err e' => e = e' ∨ ∃ i j, e = MissingInputError i ∧ e' = MissingInputError j
  | _, _ => False
  end.

Lemma same_outcome_refl r : same_outcome r r.
Proof. destruct r; cbn; auto. Qed.

Lemma same_outcome_bind r r' k k' :
  same_outcome r r' → (∀ q, same_outcome (k q) (k' q)) → same_outcome (r ≫= k) (r' ≫= k').
Proof. destruct r, r'; cbn; [intros ->; auto|done|done|done]. Qed.

Lemma compute_rename mapping quantities quantities' f :
  (∀ id, id ∈ refs f → quantities' !! id = quantities !! default id (mapping !! id)) →
  same_outcome (compute quantities (rename mapping f)) (compute quantities' f).
Proof.
  induction f as [id|d|op x IH|op l IHl r IHr]; intros Hm; cbn [rename compute refs] in *.
  - rewrite Hm by set_solver. destruct (quantities !! _); cbn; eauto.
  - apply same_outcome_refl.
  - apply same_outcome_bind; [by apply IH|]. intros q. apply same_outcome_refl.
  - apply same_outcome_bind; [apply IHl; set_solver|]. intros a.
    apply same_outcome_bind; [apply IHr; set_solver|]. intros b. apply same_outcome_refl.
Qed.

Lemma refs_rename mapping f : refs (rename mapping f) = (λ id, default id (mapping !! id)) <$> refs f.
Proof. induction f as [| | |op l IHl r IHr]; cbn; [done|done|done|]. by rewrite IHl, IHr, fmap_app. Qed.

(** * Properties *)

(** The stack loops implement the declarative tree predicates: validation
    accepts exactly the trees with safe references, bounded literals, known
    operators, at most 512 nodes and depth at most 64, and rejects every other
    tree with a [FormulaError]; on accepted trees the dependencies are the
    references in source order, each once. *)
Theorem formula_validation_exact f :
  validate_formula f = (if formula_ok f then Ok tt else Err FormulaError) ∧
  formula_dependencies f = (if formula_ok f then Ok (dict_fromkeys (refs f)) else Err FormulaError).
Proof. split; [apply validate_formula_eq|apply formula_dependencies_eq]. Qed.

(** Parsing is total: every text, of any length, either parses to a valid tree
    without negative literals that references at least one node, or is rejected
    with a [FormulaError]; the parser never runs out of its bounds. *)
Theorem parse_formula_total text :
  match parse_formula text with
  | Ok ast => formula_ok ast = true ∧ unsigned ast = true ∧ refs ast ≠ []
  | Err e => e = FormulaError
  end.
Proof.
  unfold parse_formula, ensure. destruct (String.length text <=? MAX_EXPRESSION_LENGTH)%nat; [|done].
  rewrite bind_ok. pose proof (expression_parsed MAX_AST_DEPTH 0 (Parser text 0)) as Hx.
  destruct (expression MAX_AST_DEPTH 0 (Parser text 0)) as [[ast p]|e].
  - destruct Hx as (Hok & Hu & _); [done|unfold MAX_AST_NODES; cbn; lia|]. rewrite bind_ok. cbn [peek].
    destruct (head_char _); [done|]. rewrite formula_dependencies_eq, Hok, bind_ok.
    destruct (dict_fromkeys (refs ast)) eqn:Hd; [done|]. split_and!; [done|done|]. intros Hr. by rewrite Hr in Hd.
  - apply Hx; [done|unfold MAX_AST_NODES; cbn; lia].
Qed.

(** C40: Display round trip: the text [format_formula] generates for a tree without
    negative literals parses back to the same tree, whenever it is within the
    parser's own bounds on length, parenthesis nesting and count. *)
Theorem format_parse_roundtrip ast text :
  format_formula ast = Ok text → unsigned ast = true → refs ast ≠ [] →
  (String.length text <= MAX_EXPRESSION_LENGTH)%nat → (nest ast < MAX_AST_DEPTH)%nat → (cost ast < MAX_AST_NODES)%nat →
  parse_formula text = Ok ast.
Proof.
  rewrite format_formula_eq. intros Htext Hu Hr Hl Hn Hc.
  destruct (formula_ok ast) eqn:Hok; [|done]. injection Htext as <-.
  unfold parse_formula, ensure. destruct (Nat.leb_spec (String.length (display ast)) MAX_EXPRESSION_LENGTH); [|lia].
  rewrite bind_ok. change MAX_AST_DEPTH with 64%nat in *.
  rewrite (expression_operand 63 0 ast (display ast) "" 0 (cost ast)); [|..|done|done]; [|apply (primary_display _ _ _ "" 0)|].
  - rewrite bind_ok. cbn [peek rest skip_spaces head_char]. rewrite formula_dependencies_eq, Hok, bind_ok.
    destruct (dict_fromkeys (refs ast)) eqn:Hd; [|done]. exfalso. destruct (refs ast) as [|i l] eqn:Hrefs; [done|].
    assert (i ∈ dict_fromkeys (i :: l)) as Hi by (apply elem_of_dict_fromkeys; left). rewrite Hd in Hi. by apply not_elem_of_nil in Hi.
  - done.
  - done.
  - lia.
  - done.
  - cbn. lia.
  - rewrite <- (string_app_nil (display ast)) at 1. apply skip_spaces_id, display_not_space; [|done].
    unfold formula_ok in Hok. by btrue.
  - lia.
Qed.

Definition sample_formula : formula :=
  Binary "/" (Unary "-" (Binary "+" (Reference "a") (Literal (Dec false 250 (-9))))) (Reference "b").

Theorem format_parse_roundtrip_witness :
  format_formula sample_formula = Ok "((-([a] + 2.50E-7)) / [b])"%string ∧
  parse_formula "((-([a] + 2.50E-7)) / [b])" = Ok sample_formula.
Proof.
  assert (format_formula sample_formula = Ok "((-([a] + 2.50E-7)) / [b])"%string) as Hf by (vm_compute; reflexivity).
  split; [exact Hf|].
  apply (format_parse_roundtrip sample_formula "((-([a] + 2.50E-7)) / [b])");
    [exact Hf|reflexivity|discriminate|..]; apply Nat.leb_le; vm_compute; reflexivity.
Defined.

(** Well-typed formulas do not go wrong: when unit inference succeeds on the
    units of valid quantities, evaluation returns a valid quantity of exactly
    the inferred unit, or a [FormulaError] for failed arithmetic; no unit error,
    no missing reference and no untranslated exception is possible. *)
Theorem evaluate_formula_type_sound ast quantities u :
  map_Forall (λ _ q, quantity_ok q) quantities →
  infer_formula_unit ast (q_unit <$> quantities) = Ok u →
  match evaluate_formula ast quantities with
  | Ok q => q_unit q = u ∧ quantity_ok q
  | Err e => e = FormulaError
  end.
Proof.
  intros Henv Hu.
  pose proof (evaluate_formula_of_unit ast quantities (q_unit <$> quantities) u Henv (λ k v H, H) Hu) as Ht.
  unfold of_unit in Ht. exact Ht.
Qed.

Definition sample_env : gmap string quantity :=
  <["a" := Quantity (dec_of_Z 3) RATIO_UNIT]> (<["b" := Quantity (dec_of_Z 7) COUNT_UNIT]> ∅).

Theorem evaluate_formula_type_sound_witness :
  infer_formula_unit (Binary "*" (Reference "a") (Reference "b")) (q_unit <$> sample_env) = Ok COUNT_UNIT ∧
  evaluate_formula (Binary "*" (Reference "a") (Reference "b")) sample_env = Ok (Quantity (dec_of_Z 21) COUNT_UNIT) ∧
  q_unit (Quantity (dec_of_Z 21) COUNT_UNIT) = COUNT_UNIT.
Proof.
  assert (infer_formula_unit (Binary "*" (Reference "a") (Reference "b")) (q_unit <$> sample_env) = Ok COUNT_UNIT)
    as Hu by (vm_compute; reflexivity).
  assert (evaluate_formula (Binary "*" (Reference "a") (Reference "b")) sample_env = Ok (Quantity (dec_of_Z 21) COUNT_UNIT))
    as He by (vm_compute; reflexivity).
  split; [exact Hu|split; [exact He|]].
  assert (map_Forall (λ _ q, quantity_ok q) sample_env) as Henv.
  { apply map_Forall_insert_2; [split; [vm_compute; discriminate|reflexivity]|].
    apply map_Forall_insert_2; [split; [vm_compute; discriminate|reflexivity]|]. apply map_Forall_empty. }
  pose proof (evaluate_formula_type_sound _ _ _ Henv Hu) as H. rewrite He in H. exact (proj1 H).
Defined.

(** Rewriting references is substitution: with safe replacement ids it succeeds
    on every valid tree, the result is valid with exactly the renamed
    dependencies, and it evaluates as the original does in the environment read
    through the mapping. *)
Theorem rewrite_formula_sound ast mapping :
  map_Forall (λ _ id, safe_id id = true) mapping → formula_ok ast = true →
  ∃ ast', rewrite_formula_references ast mapping = Ok ast' ∧ formula_ok ast' = true ∧
    formula_dependencies ast' = Ok (dict_fromkeys ((λ id, default id (mapping !! id)) <$> refs ast)) ∧
    ∀ quantities quantities',
      (∀ id, id ∈ refs ast → quantities' !! id = quantities !! default id (mapping !! id)) →
      same_outcome (evaluate_formula ast' quantities) (evaluate_formula ast quantities').
Proof.
  intros Hm Hok. exists (rename mapping ast). pose proof (rename_formula_ok mapping ast Hm Hok) as Hr.
  split_and!; [|done|by rewrite formula_dependencies_eq, Hr, refs_rename|].
  - rewrite rewrite_formula_references_eq, Hok. by apply rewrite_refs_rename.
  - intros q q' Hq. rewrite !evaluate_formula_eq, Hok, Hr.
    pose proof (compute_rename mapping q q' ast Hq) as Hs.
    destruct (compute q _), (compute q' _); cbn in *; try done.
    destruct Hs as [->|(i & j & -> & ->)]; cbn; eauto.
Qed.

Theorem rewrite_formula_sound_witness :
  map_Forall (λ _ id, safe_id id = true) (<["a" := "a--s1"]> ∅ : gmap string string) ∧
  ∃ ast', rewrite_formula_references sample_formula (<["a" := "a--s1"]> ∅) = Ok ast' ∧
    formula_dependencies ast' = Ok ["a--s1"; "b"]%string.
Proof.
  assert (map_Forall (λ _ id, safe_id id = true) (<["a" := "a--s1"]> ∅ : gmap string string)) as Hm
    by (apply map_Forall_insert_2; [reflexivity|apply map_Forall_empty]).
  split; [exact Hm|].
  destruct (rewrite_formula_sound sample_formula (<["a" := "a--s1"]> ∅) Hm) as (ast' & Hr & _ & Hd & _);
    [vm_compute; reflexivity|].
  exists ast'. split; [exact Hr|]. rewrite Hd. vm_compute. reflexivity.
Defined.
