(* ===== verification/Canonical.v ===== *)
(** Typed canonical JSON and content hashes
    (packages/calculation-engine/fel_calculation_engine/canonical.py).

    [pyvalue] is what a Python object can be as far as [_encode] looks at it; a
    dataclass is its class name with its fields in declaration order, each
    saying whether it is a [canonical_omit_default] field at its default.
    [json.dumps] and [hashlib.sha256] are modelled in full, so content addresses
    are computed.  Text is a sequence of characters below 256. *)

From S2P Require Import Prelude Decimals Errors Periods Units Values.
Local Open Scope Z_scope.

(** * Timezone-aware instants *)

(** A [datetime]: when [aware], the fields are its UTC date and microsecond of the day. *)
Record datetime := Datetime { dt_date : date; dt_us : Z; aware : bool }.

#[export] Instance datetime_eq_dec : EqDecision datetime.
Proof. solve_decision. Defined.

(** microseconds on the UTC time line *)
Definition instant (t : datetime) : Z := toordinal (dt_date t) * 86400000000 + dt_us t.

Definition dt_ltb (a b : datetime) : bool := instant a <? instant b.
(** [max(a, b)] *)
Definition dt_max (a b : datetime) : datetime := if dt_ltb a b then b else a.

(** [f"{n:0{w}d}"] for a nonnegative [n] *)
Definition padded (w : nat) (n : Z) : string :=
  let l := digits (Z.to_N n) in string_of_digits (replicate (w - length l) 0%N ++ l).

Definition date_isoformat (d : date) : string :=
  (padded 4 (d_year d) +:+ "-" +:+ padded 2 (d_month d) +:+ "-" +:+ padded 2 (d_day d))%string.

(** [value.astimezone(UTC).isoformat()] *)
Definition utc_isoformat (t : datetime) : string :=
  let s := dt_us t / 1000000 in
  let us := dt_us t mod 1000000 in
  (date_isoformat (dt_date t) +:+ "T" +:+ padded 2 (s / 3600)%Z +:+ ":" +:+ padded 2 (s / 60 mod 60)%Z +:+ ":" +:+
   padded 2 (s mod 60)%Z +:+ (if (us =? 0)%Z then "" else "." +:+ padded 6 us) +:+ "+00:00")%string.

(** * JSON *)

Inductive json :=
| JNull
| JBool (b : bool)
| JInt (z : Z)
| JStr (s : string)
| JArr (l : list json)
| JObj (fields : list (string * json)).

Definition hex_char (n : N) : ascii := if (n <? 10)%N then ascii_of_N (48 + n) else ascii_of_N (87 + n).

Definition QUOTE : ascii := ascii_of_N 34.

(** one character of a JSON string, [ensure_ascii=True] *)
Definition escape_char (a : ascii) : string :=
  let n := N_of_ascii a in
  if (n =? 34)%N then String "\" (String QUOTE EmptyString) else if (n =? 92)%N then "\\"
  else if (n =? 10)%N then "\n" else if (n =? 13)%N then "\r" else if (n =? 9)%N then "\t"
  else if (n =? 12)%N then "\f" else if (n =? 8)%N then "\b"
  else if ((32 <=? n) && (n <=? 126))%N then String a EmptyString
  else "\u00" +:+ String (hex_char (n / 16)) (String (hex_char (n mod 16)) EmptyString).

Fixpoint escape (s : string) : string :=
  match s with EmptyString => EmptyString | String a s' => escape_char a +:+ escape s' end.

Definition quote (s : string) : string := String QUOTE (escape s +:+ String QUOTE EmptyString).

Fixpoint join (sep : string) (l : list string) : string :=
  match l with
  | [] => EmptyString
  | [x] => x
  | x :: l' => x +:+ sep +:+ join sep l'
  end.

(** the order of [sort_keys=True] *)
Definition key_le {A} (a b : string * A) : Prop := String.le (fst a) (fst b).
#[export] Instance key_le_dec A : RelDecision (@key_le A).
Proof. intros a b. unfold key_le. apply _. Defined.

(** [json.dumps(value, sort_keys=True, separators=(",", ":"), ensure_ascii=True)] *)
Fixpoint dumps (j : json) : string :=
  match j with
  | JNull => "null"
  | JBool true => "true"
  | JBool false => "false"
  | JInt z => str_of_Z z
  | JStr s => quote s
  | JArr l => "[" +:+ join "," (map dumps l) +:+ "]"
  | JObj fields =>
      "{" +:+ join "," (map (λ f, quote (fst f) +:+ ":" +:+ snd f)
                            (py_sorted key_le (map (λ f, (fst f, dumps (snd f))) fields))) +:+ "}"
  end.

(** * Encoding *)

Inductive pyvalue :=
| VNone
| VBool (b : bool)
| VInt (z : Z)
| VStr (s : string)
| VEnum (value : pyvalue)
| VFloat
| VDecimal (d : pydecimal)
| VDatetime (t : datetime)
| VDate (d : date)
| VDataclass (class_name : string) (fields : list (string * (bool * pyvalue)))
| VDict (items : list (option string * pyvalue))
| VList (l : list pyvalue)
| VOther.

Definition MAX_EXPONENT : Z := 1000000 / 4.
Definition RESERVED_PREFIX : ascii := "$".

Definition reserved (key : string) : bool :=
  match key with String a _ => Ascii.eqb a RESERVED_PREFIX | EmptyString => false end.

Definition encode_decimal (d : pydecimal) : calc json :=
  match d with
  | Finite d =>
      ensure (ndigits (d_coeff d) <=? prec CALC_CONTEXT) CanonicalizationError;;
      ensure ((- MAX_EXPONENT <=? d_exp d) && (d_exp d <=? MAX_EXPONENT)) CanonicalizationError;;
      s ← canonical_decimal d;
      mret (JObj [("$decimal"%string, JStr s)])
  | _ => Err CanonicalizationError
  end.

(** [_encode] *)
Fixpoint encode (value : pyvalue) : calc json :=
  match value with
  | VNone => mret JNull
  | VBool b => mret (JBool b)
  | VInt z => mret (JInt z)
  | VStr s => mret (JStr s)
  | VEnum v => encode v
  | VFloat => Err CanonicalizationError
  | VDecimal d => encode_decimal d
  | VDatetime t =>
      if aware t then mret (JObj [("$datetime"%string, JStr (utc_isoformat t))]) else Err CanonicalizationError
  | VDate d => mret (JObj [("$date"%string, JStr (date_isoformat d))])
  | VDataclass class_name fields =>
      encoded ← (fix encode_fields (fs : list (string * (bool * pyvalue))) : calc (list (string * json)) :=
                   match fs with
                   | [] => mret []
                   | (name, (omitted, item)) :: fs' =>
                       if omitted : bool then encode_fields fs'
                       else j ← encode item; js ← encode_fields fs'; mret ((name, j) :: js)
                   end) fields;
      mret (JObj (("$type"%string, JStr class_name) :: encoded))
  | VDict items =>
      encoded ← (fix encode_items (items : list (option string * pyvalue)) : calc (list (string * json)) :=
                   match items with
                   | [] => mret []
                   | (key, item) :: items' =>
                       k ← from_option_err CanonicalizationError key;
                       ensure (negb (reserved k)) CanonicalizationError;;
                       j ← encode item; js ← encode_items items'; mret ((k, j) :: js)
                   end) items;
      mret (JObj encoded)
  | VList l =>
      encoded ← (fix encode_list (l : list pyvalue) : calc (list json) :=
                   match l with
                   | [] => mret []
                   | x :: l' => j ← encode x; js ← encode_list l'; mret (j :: js)
                   end) l;
      mret (JArr encoded)
  | VOther => Err CanonicalizationError
  end.

Definition canonical_json (value : pyvalue) : calc string := dumps <$> encode value.

(** * SHA-256 *)

Module Sha256.
Definition MASK : Z := 4294967295.
Definition add32 (a b : Z) : Z := Z.land (a + b) MASK.
Definition rotr (k x : Z) : Z := Z.lor (Z.shiftr x k) (Z.land (Z.shiftl x (32 - k)) MASK).
Definition not32 (x : Z) : Z := Z.lxor x MASK.

Definition PRIMES : list Z :=
  [2; 3; 5; 7; 11; 13; 17; 19; 23; 29; 31; 37; 41; 43; 47; 53; 59; 61; 67; 71; 73; 79; 83; 89; 97; 101;
   103; 107; 109; 113; 127; 131; 137; 139; 149; 151; 157; 163; 167; 173; 179; 181; 191; 193; 197; 199;
   211; 223; 227; 229; 233; 239; 241; 251; 257; 263; 269; 271; 277; 281; 283; 293; 307; 311].

(** the integer cube root, by bisection on its bits *)
Fixpoint cube_root (bits : nat) (n r : Z) : Z :=
  match bits with
  | O => r
  | S k => let r' := r + 2 ^ Z.of_nat k in cube_root k n (if r' * r' * r' <=? n then r' else r)
  end.

(** the first 32 bits of the fractional parts of the cube roots of the first 64
    primes, and of the square roots of the first eight *)
Definition K : list Z := Eval vm_compute in map (λ p, Z.land (cube_root 36 (p * 2 ^ 96) 0) MASK) PRIMES.
Definition H0 : list Z := Eval vm_compute in map (λ p, Z.land (Z.sqrt (p * 2 ^ 64)) MASK) (take 8 PRIMES).

(** the message with its [0x80], zero padding and 64-bit length *)
Definition pad (bytes : list Z) : list Z :=
  let n := Z.of_nat (length bytes) in
  bytes ++ [128] ++ replicate (Z.to_nat ((55 - n) mod 64)) 0
  ++ map (λ i, Z.land (Z.shiftr (8 * n) (8 * (7 - Z.of_nat i))) 255) (seq 0 8).

Fixpoint words (bytes : list Z) : list Z :=
  match bytes with
  | a :: b :: c :: d :: bytes' => (((a * 256 + b) * 256 + c) * 256 + d) :: words bytes'
  | _ => []
  end.

(** the message schedule; [w] holds the words so far, latest first *)
Fixpoint schedule (n : nat) (w : list Z) : list Z :=
  match n with
  | O => rev w
  | S n =>
      let x15 := nth 14 w 0 in
      let x2 := nth 1 w 0 in
      let s0 := Z.lxor (Z.lxor (rotr 7 x15) (rotr 18 x15)) (Z.shiftr x15 3) in
      let s1 := Z.lxor (Z.lxor (rotr 17 x2) (rotr 19 x2)) (Z.shiftr x2 10) in
      schedule n (add32 (add32 (nth 15 w 0) s0) (add32 (nth 6 w 0) s1) :: w)
  end.

Definition round (st : list Z) (kw : Z * Z) : list Z :=
  match st with
  | [a; b; c; d; e; f; g; h] =>
      let s1 := Z.lxor (Z.lxor (rotr 6 e) (rotr 11 e)) (rotr 25 e) in
      let ch := Z.lxor (Z.land e f) (Z.land (not32 e) g) in
      let t1 := add32 (add32 h s1) (add32 ch (add32 (fst kw) (snd kw))) in
      let s0 := Z.lxor (Z.lxor (rotr 2 a) (rotr 13 a)) (rotr 22 a) in
      let maj := Z.lxor (Z.lxor (Z.land a b) (Z.land a c)) (Z.land b c) in
      [add32 t1 (add32 s0 maj); a; b; c; add32 d t1; e; f; g]
  | _ => st
  end.

Definition compress (st block : list Z) : list Z :=
  zip_with add32 st (fold_left round (zip K (schedule 48 (rev block))) st).

(** the blocks of sixteen words, in order *)
Fixpoint blocks (n : nat) (w : list Z) : list (list Z) :=
  match n with O => [] | S n => take 16 w :: blocks n (drop 16 w) end.

Definition digest (bytes : list Z) : list Z :=
  let w := words (pad bytes) in fold_left compress (blocks (length w / 16) w) H0.

Definition hex_word (w : Z) : string :=
  foldr (λ k s, String (hex_char (Z.to_N (Z.land (Z.shiftr w (4 * k)) 15))) s) EmptyString [7; 6; 5; 4; 3; 2; 1; 0].

Fixpoint bytes_of (s : string) : list Z :=
  match s with EmptyString => [] | String a s' => Z.of_N (N_of_ascii a) :: bytes_of s' end.

Definition hexdigest (s : string) : string := foldr (λ w r, hex_word w +:+ r) EmptyString (digest (bytes_of s)).

Example abc : hexdigest "abc" = "ba7816bf8f01cfea414140de5dae2223b00361a396177a9cb410ff61f20015ad".
Proof. vm_compute. reflexivity. Qed.

Example two_blocks : hexdigest "abcdbcdecdefdefgefghfghighijhijkijkljklmklmnlmnomnopnopq"
  = "248d6a61d20638b8e5c026930c3e6039a33ce45964ff2167f6ecedd419db06c1".
Proof. vm_compute. reflexivity. Qed.
End Sha256.

(** the encoding of canonical JSON is ASCII, so its bytes are its characters *)
Definition sha256_hex (material : string) : string := "sha256:" +:+ Sha256.hexdigest material.

Definition content_hash (value : pyvalue) : calc string := sha256_hex <$> canonical_json value.

(** * Lemmas: encoding fails only with its own error *)

Lemma fits_of_bounds d :
  (ndigits (d_coeff d) <=? prec CALC_CONTEXT) = true →
  (- MAX_EXPONENT <=? d_exp d) && (d_exp d <=? MAX_EXPONENT) = true → fits CALC_CONTEXT d = true.
Proof.
  unfold fits, adjusted. change MAX_EXPONENT with 250000. change (prec CALC_CONTEXT) with 34.
  change (Etiny CALC_CONTEXT) with (-1000032). change (Emax CALC_CONTEXT) with 999999.
  intros Hd He. btrue. rewrite !andb_true_iff, ?orb_true_iff, ?Z.leb_le. lia.
Qed.

(** Induction on values, through the lists inside them. *)
Section pyvalue_induction.
Context (P : pyvalue → Prop).
Context (HNone : P VNone) (HBool : ∀ b, P (VBool b)) (HInt : ∀ z, P (VInt z)) (HStr : ∀ s, P (VStr s))
  (HEnum : ∀ v, P v → P (VEnum v)) (HFloat : P VFloat) (HDecimal : ∀ d, P (VDecimal d))
  (HDatetime : ∀ t, P (VDatetime t)) (HDate : ∀ d, P (VDate d))
  (HDataclass : ∀ n fields, Forall (λ f, P (snd (snd f))) fields → P (VDataclass n fields))
  (HDict : ∀ items, Forall (λ i, P (snd i)) items → P (VDict items))
  (HList : ∀ l, Forall P l → P (VList l)) (HOther : P VOther).

Lemma pyvalue_induction : ∀ v, P v.
Proof.
  fix IH 1. intros [| | | |v| | | | |n fields|items|l|];
    [exact HNone|apply HBool|apply HInt|apply HStr|apply HEnum, IH|exact HFloat|apply HDecimal|apply HDatetime
    |apply HDate| | | |exact HOther].
  - apply HDataclass. induction fields as [|[k [om x]] fields IHf]; constructor; [apply IH|exact IHf].
  - apply HDict. induction items as [|[k x] items IHi]; constructor; [apply IH|exact IHi].
  - apply HList. induction l as [|x l IHl]; constructor; [apply IH|exact IHl].
Qed.
End pyvalue_induction.

Lemma encode_decimal_err d e : encode_decimal d = Err e → e = CanonicalizationError.
Proof.
  unfold encode_decimal. destruct d as [d| |]; [|by intros [= <-]..]. unfold ensure.
  destruct (ndigits (d_coeff d) <=? prec CALC_CONTEXT) eqn:Hd; [|by intros [= <-]]. rewrite bind_ok.
  destruct ((- MAX_EXPONENT <=? d_exp d) && (d_exp d <=? MAX_EXPONENT)) eqn:He; [|by intros [= <-]]. rewrite bind_ok.
  destruct (canonical_total d) as [s ->]; [by apply fits_of_bounds|]. done.
Qed.

Lemma encode_err v : ∀ e, encode v = Err e → e = CanonicalizationError.
Proof.
  induction v as [|b|z|s|v IH| |d|t|d|n fields Hf|items Hi|l Hl|] using pyvalue_induction; intros e; cbn [encode];
    try done; try (by intros [= <-]); [by apply IH|by apply encode_decimal_err|..].
  - destruct (aware t); [done|by intros [= <-]].
  - intros H. apply bind_Err in H as [H|(? & _ & H)]; [|done]. revert H.
    induction Hf as [|[k [[] x]] fields Hx Hf IHf]; [done|exact IHf|].
    intros [H|(j & _ & H)]%bind_Err; [by apply Hx|]. apply bind_Err in H as [H|(js & _ & H)]; [by apply IHf|done].
  - intros H. apply bind_Err in H as [H|(? & _ & H)]; [|done]. revert H.
    induction Hi as [|[k x] items Hx Hi IHi]; [done|].
    intros [H|(k' & _ & H)]%bind_Err; [by destruct k; simplify_eq/=|].
    apply bind_Err in H as [H|(u & _ & H)]; [by apply ensure_Err in H as [_ <-]|].
    apply bind_Err in H as [H|(j & _ & H)]; [by apply Hx|]. apply bind_Err in H as [H|(js & _ & H)]; [by apply IHi|done].
  - intros H. apply bind_Err in H as [H|(? & _ & H)]; [|done]. revert H.
    induction Hl as [|x l Hx Hl IHl]; [done|].
    intros [H|(j & _ & H)]%bind_Err; [by apply Hx|]. apply bind_Err in H as [H|(js & _ & H)]; [by apply IHl|done].
Qed.

Lemma canonical_json_err v e : canonical_json v = Err e → e = CanonicalizationError.
Proof. unfold canonical_json. destruct (encode v) eqn:H; [done|]. intros [= <-]. by eapply encode_err. Qed.

Lemma content_hash_err v e : content_hash v = Err e → e = CanonicalizationError.
Proof.
  unfold content_hash. destruct (canonical_json v) eqn:H; [done|]. intros [= <-]. by eapply canonical_json_err.
Qed.

(** * Lemmas: content addresses are safe identifiers *)



Lemma hex_char_alnum n : (n < 16)%N → is_alnum (hex_char n) = true.
Proof.
  intros Hn. unfold hex_char, is_alnum. destruct (N.ltb_spec n 10);
    rewrite N_ascii_embedding by lia; rewrite !orb_true_iff, !andb_true_iff, !N.leb_le; lia.
Qed.

Lemma string_length_app s t : String.length (s +:+ t) = (String.length s + String.length t)%nat.
Proof. induction s as [|a s IH]; [done|]. rewrite string_app_cons. cbn. by rewrite IH. Qed.

Lemma all_chars_app p s t : all_chars p (s +:+ t)%string = all_chars p s && all_chars p t.
Proof. induction s as [|a s IH]; [done|]. rewrite string_app_cons. cbn. by rewrite IH, andb_assoc. Qed.

Lemma hex_word_spec w : String.length (Sha256.hex_word w) = 8%nat ∧ all_chars is_alnum (Sha256.hex_word w) = true.
Proof.
  split; [done|]. unfold Sha256.hex_word. generalize [7; 6; 5; 4; 3; 2; 1; 0]. intros l.
  induction l as [|k l IH]; [done|]. cbn [foldr all_chars]. rewrite IH, hex_char_alnum; [done|].
  change 15 with (Z.ones 4). rewrite Z.land_ones by lia.
  pose proof (Z.mod_pos_bound (Z.shiftr w (4 * k)) (2 ^ 4) ltac:(lia)). lia.
Qed.

Lemma digest_length bytes : length (Sha256.digest bytes) = 8%nat.
Proof.
  unfold Sha256.digest.
  assert (Hround : ∀ kws st, length st = 8%nat → length (fold_left Sha256.round kws st) = 8%nat).
  { induction kws as [|kw kws IH]; intros st Hst; [done|]. apply IH.
    destruct st as [|a [|b [|c [|d [|e [|f [|g [|h [|]]]]]]]]]; try done. }
  generalize (Sha256.blocks (length (Sha256.words (Sha256.pad bytes)) / 16) (Sha256.words (Sha256.pad bytes))).
  intros bs. assert (length Sha256.H0 = 8%nat) as H0 by done. revert H0. generalize Sha256.H0.
  induction bs as [|b bs IH]; intros st Hst; [done|]. cbn [fold_left]. apply IH.
  unfold Sha256.compress. rewrite length_zip_with, Hround by done. lia.
Qed.

Lemma hexdigest_spec s : String.length (Sha256.hexdigest s) = 64%nat ∧ all_chars is_alnum (Sha256.hexdigest s) = true.
Proof.
  unfold Sha256.hexdigest. change 64%nat with (8 * 8)%nat. rewrite <- (digest_length (Sha256.bytes_of s)) at 2.
  generalize (Sha256.digest (Sha256.bytes_of s)). intros l. induction l as [|w l [IHl IHa]]; [done|]. cbn [foldr].
  destruct (hex_word_spec w) as [Hl Ha]. rewrite string_length_app, all_chars_app, IHl, IHa, Hl, Ha. split; [cbn; lia|done].
Qed.

Lemma sha256_hex_safe m : safe_id (sha256_hex m) = true.
Proof.
  destruct (hexdigest_spec m) as [Hl Ha]. unfold sha256_hex.
  rewrite !string_app_cons, string_app_empty. cbn [safe_id].
  assert (Hid : all_chars is_id_char (Sha256.hexdigest m) = true).
  { clear Hl. induction (Sha256.hexdigest m) as [|a s IH]; [done|]. cbn in *. btrue. rewrite IH by done.
    unfold is_id_char. match goal with H : is_alnum a = true |- _ => by rewrite H end. }
  cbn [all_chars String.length]. rewrite Hid, Hl. done.
Qed.
