(* ===== verification/Nodes.v ===== *)
(** The typed node kinds of a model graph
    (packages/calculation-engine/fel_calculation_engine/nodes.py) and the
    dataclass view of every object a canonical encoding reaches.

    [check_node] is the [__post_init__] of each class; [make_node] the
    constructor.  [inputs] is the single source of the dependency edges. *)

From S2P Require Import Prelude Decimals Errors Periods Units Values Formulas Canonical.
Local Open Scope Z_scope.

(** * Enumerations *)

Inductive node_kind :=
| SOURCE_FACT | ANALYST_ASSUMPTION | OPERATIONAL_DRIVER | FORMULA | AGGREGATION | SCENARIO_OVERRIDE
| FORECAST_MODEL_OUTPUT | VALIDATION_CHECK | REPORTED_FINANCIAL_OUTPUT.

Inductive operator := ADD | SUB | MUL | DIV.
Inductive aggregation_op := SUM | ROLLUP_YEAR.
Inductive check_op := EQUALS | NON_NEGATIVE | LESS_OR_EQUAL | GREATER_OR_EQUAL.

#[export] Instance node_kind_eq_dec : EqDecision node_kind.
Proof. solve_decision. Defined.
#[export] Instance operator_eq_dec : EqDecision operator.
Proof. solve_decision. Defined.
#[export] Instance aggregation_op_eq_dec : EqDecision aggregation_op.
Proof. solve_decision. Defined.
#[export] Instance check_op_eq_dec : EqDecision check_op.
Proof. solve_decision. Defined.

Definition operator_value (o : operator) : string :=
  match o with ADD => "add" | SUB => "sub" | MUL => "mul" | DIV => "div" end.
Definition aggregation_op_value (o : aggregation_op) : string :=
  match o with SUM => "sum" | ROLLUP_YEAR => "rollup_year" end.
Definition check_op_value (o : check_op) : string :=
  match o with
  | EQUALS => "equals" | NON_NEGATIVE => "non_negative"
  | LESS_OR_EQUAL => "less_or_equal" | GREATER_OR_EQUAL => "greater_or_equal"
  end.
Definition node_kind_value (k : node_kind) : string :=
  match k with
  | SOURCE_FACT => "source_fact" | ANALYST_ASSUMPTION => "analyst_assumption"
  | OPERATIONAL_DRIVER => "operational_driver" | FORMULA => "formula" | AGGREGATION => "aggregation"
  | SCENARIO_OVERRIDE => "scenario_override" | FORECAST_MODEL_OUTPUT => "forecast_model_output"
  | VALIDATION_CHECK => "validation_check" | REPORTED_FINANCIAL_OUTPUT => "reported_financial_output"
  end.

Definition GRAMMAR_VERSION : string := "fel-formula/v1".

(** * Nodes *)

(** the fields of the base class [Node] *)
Record base := Base { node_id : string; label : string; n_unit : unit_; n_period : fiscal_period }.

Inductive node :=
| SourceFactNode (b : base) (value : decimal) (as_of : datetime) (source_span_id : string) (fact_id : option string)
| AnalystAssumptionNode (b : base) (value : decimal) (as_of : datetime) (assumption_id : string)
| ForecastModelOutputNode (b : base) (value : decimal) (as_of : datetime)
    (forecast_run_id : string) (dataset_cutoff : datetime) (dataset_version : string)
| ScenarioOverrideNode (b : base) (value : decimal) (as_of : datetime) (target scenario_id assumption_id : string)
| OperationalDriverNode (b : base) (seed : string)
| FormulaNode (b : base) (op : operator) (operands : list string) (formula_version : string)
| ExpressionFormulaNode (b : base) (ast : formula) (formula_version grammar_version : string)
| AggregationNode (b : base) (op : aggregation_op) (operands : list string)
| ValidationCheckNode (b : base) (check : check_op) (operands : list string) (tolerance : option decimal)
| ReportedFinancialOutputNode (b : base) (source metric_id : string) (quantum : option decimal).

#[export] Instance base_eq_dec : EqDecision base.
Proof. solve_decision. Defined.
#[export] Instance node_eq_dec : EqDecision node.
Proof. solve_decision. Defined.

Definition base_of (n : node) : base :=
  match n with
  | SourceFactNode b _ _ _ _ | AnalystAssumptionNode b _ _ _ | ForecastModelOutputNode b _ _ _ _ _
  | ScenarioOverrideNode b _ _ _ _ _ | OperationalDriverNode b _ | FormulaNode b _ _ _
  | ExpressionFormulaNode b _ _ _ | AggregationNode b _ _ | ValidationCheckNode b _ _ _
  | ReportedFinancialOutputNode b _ _ _ => b
  end.

Definition id_of (n : node) : string := node_id (base_of n).
Definition unit_of (n : node) : unit_ := n_unit (base_of n).
Definition period_of (n : node) : fiscal_period := n_period (base_of n).

(** the class attributes [kind] and [provenance] *)
Definition kind_of (n : node) : node_kind :=
  match n with
  | SourceFactNode _ _ _ _ _ => SOURCE_FACT
  | AnalystAssumptionNode _ _ _ _ => ANALYST_ASSUMPTION
  | ForecastModelOutputNode _ _ _ _ _ _ => FORECAST_MODEL_OUTPUT
  | ScenarioOverrideNode _ _ _ _ _ _ => SCENARIO_OVERRIDE
  | OperationalDriverNode _ _ => OPERATIONAL_DRIVER
  | FormulaNode _ _ _ _ | ExpressionFormulaNode _ _ _ _ => FORMULA
  | AggregationNode _ _ _ => AGGREGATION
  | ValidationCheckNode _ _ _ _ => VALIDATION_CHECK
  | ReportedFinancialOutputNode _ _ _ _ => REPORTED_FINANCIAL_OUTPUT
  end.

Definition provenance_of (n : node) : provenance :=
  match n with
  | SourceFactNode _ _ _ _ _ => REPORTED
  | AnalystAssumptionNode _ _ _ _ | ScenarioOverrideNode _ _ _ _ _ _ => ASSUMPTION
  | ForecastModelOutputNode _ _ _ _ _ _ => FORECAST
  | _ => DERIVED
  end.

(** ** Constructors' checks *)

(** [_node_id] *)
Definition check_id (value : string) : calc unit :=
  require_safe_id (PyStr value) NodeValidationError;; mret tt.

(** [_aware] *)
Definition check_aware (t : datetime) : calc unit := ensure (aware t) NodeValidationError.

Definition check_decimal (d : decimal) : calc unit := require_decimal (PyDec (Finite d));; mret tt.

(** [_operands] *)
Definition check_operands (id : string) (operands : list string) (minimum : nat) (exact : option nat) : calc unit :=
  for_each check_id operands;;
  match exact with
  | Some k => ensure (length operands =? k)%nat NodeValidationError
  | None => mret tt
  end;;
  ensure (minimum <=? length operands)%nat NodeValidationError;;
  ensure (bool_decide (NoDup operands)) NodeValidationError;;
  ensure (negb (bool_decide (id ∈ operands))) NodeValidationError.

(** [_LeafNode.__post_init__] after [Node.__post_init__] *)
Definition check_leaf (b : base) (value : decimal) (as_of : datetime) : calc unit :=
  check_id (node_id b);; check_decimal value;; check_aware as_of.

Definition is_fiscal_year (p : fiscal_period) : bool := match p with FiscalYear _ => true | _ => false end.

(** [__post_init__] of each class *)
Definition check_node (n : node) : calc unit :=
  match n with
  | SourceFactNode b value as_of source_span_id fact_id =>
      check_leaf b value as_of;; check_id source_span_id;;
      match fact_id with Some f => check_id f | None => mret tt end
  | AnalystAssumptionNode b value as_of assumption_id =>
      check_leaf b value as_of;; check_id assumption_id
  | ForecastModelOutputNode b value as_of forecast_run_id dataset_cutoff dataset_version =>
      check_leaf b value as_of;; check_id forecast_run_id;; check_id dataset_version;; check_aware dataset_cutoff
  | ScenarioOverrideNode b value as_of target scenario_id assumption_id =>
      check_leaf b value as_of;; check_id target;; check_id scenario_id;; check_id assumption_id;;
      ensure (negb (String.eqb target (node_id b))) NodeValidationError
  | OperationalDriverNode b seed =>
      check_id (node_id b);; check_id seed;; ensure (negb (String.eqb seed (node_id b))) NodeValidationError
  | FormulaNode b op operands formula_version =>
      check_id (node_id b);;
      check_operands (node_id b) operands 2 (match op with SUB | DIV => Some 2%nat | _ => None end);;
      check_id formula_version
  | ExpressionFormulaNode b ast formula_version grammar_version =>
      check_id (node_id b);;
      ensure (String.eqb grammar_version GRAMMAR_VERSION) FormulaError;;
      deps ← formula_dependencies ast;
      ensure (negb (bool_decide (deps = []))) FormulaError;;
      check_id formula_version
  | AggregationNode b op operands =>
      check_id (node_id b);;
      match op with
      | ROLLUP_YEAR =>
          check_operands (node_id b) operands 4 (Some 4%nat);;
          ensure (is_fiscal_year (n_period b)) NodeValidationError
      | SUM => check_operands (node_id b) operands 1 None
      end
  | ValidationCheckNode b check operands tolerance =>
      check_id (node_id b);;
      let exact := match check with NON_NEGATIVE => 1%nat | _ => 2%nat end in
      check_operands (node_id b) operands exact (Some exact);;
      match tolerance with
      | None => mret tt
      | Some t => check_decimal t;; ensure (negb (dec_ltb t dec_zero)) NodeValidationError
      end
  | ReportedFinancialOutputNode b source metric_id quantum =>
      check_id (node_id b);; check_id source;; check_id metric_id;;
      ensure (negb (String.eqb source (node_id b))) NodeValidationError;;
      match quantum with
      | None => ensure (bool_decide (u_kind (n_unit b) = CURRENCY)) NodeValidationError
      | Some q => check_decimal q;; ensure (negb (dec_leb q dec_zero)) NodeValidationError
      end
  end.

Definition make_node (n : node) : calc node := check_node n;; mret n.

(** [ExpressionFormulaNode.from_expression] *)
Definition from_expression (b : base) (expression formula_version : string) : calc node :=
  ast ← parse_formula expression;
  make_node (ExpressionFormulaNode b ast formula_version GRAMMAR_VERSION).

(** ** Inputs *)

(** [(f"{role}[{i}]", ref) for i, ref in enumerate(refs)] *)
Definition enumerate_roles (role : string) (l : list string) : list (string * string) :=
  imap (λ i r, (role +:+ "[" +:+ str_of_Z (Z.of_nat i) +:+ "]", r)%string) l.

(** Role-tagged dependencies in declaration order.  Only an expression node can
    fail here, and only when it was never validated. *)
Definition inputs (n : node) : calc (list (string * string)) :=
  match n with
  | ScenarioOverrideNode _ _ _ target _ _ => mret [("overrides"%string, target)]
  | OperationalDriverNode _ seed => mret [("seed"%string, seed)]
  | FormulaNode _ _ operands _ => mret (enumerate_roles "operand" operands)
  | ExpressionFormulaNode _ ast _ _ =>
      deps ← formula_dependencies ast; mret (enumerate_roles "reference" deps)
  | AggregationNode _ _ operands => mret (enumerate_roles "operand" operands)
  | ValidationCheckNode _ _ operands _ => mret (enumerate_roles "operand" operands)
  | ReportedFinancialOutputNode _ source _ _ => mret [("source"%string, source)]
  | _ => mret []
  end.

(** [lineage] of the leaf kinds *)
Definition leaf_lineage (n : node) : calc lineage :=
  match n with
  | SourceFactNode _ _ _ span _ => make_lineage (Lineage REPORTED (Some span) None None [])
  | AnalystAssumptionNode _ _ _ a => make_lineage (Lineage ASSUMPTION None (Some a) None [])
  | ForecastModelOutputNode _ _ _ run _ _ => make_lineage (Lineage FORECAST None None (Some run) [])
  | ScenarioOverrideNode _ _ _ _ _ a => make_lineage (Lineage ASSUMPTION None (Some a) None [])
  | _ => Err (Escaped PyNotImplementedError)
  end.

(** * The dataclass view of nodes *)

Definition field (name : string) (v : pyvalue) : string * (bool * pyvalue) := (name, (false, v)).

Definition opt_view {A} (f : A → pyvalue) (o : option A) : pyvalue :=
  match o with Some a => f a | None => VNone end.

Definition dec_view (d : decimal) : pyvalue := VDecimal (Finite d).
Definition strs_view (l : list string) : pyvalue := VList (map VStr l).

Definition unit_view (u : unit_) : pyvalue :=
  VDataclass "Unit" [field "kind" (VEnum (VStr (unit_kind_value (u_kind u))));
                     field "currency" (opt_view VStr (currency u));
                     field "per_period" (opt_view (λ p, VEnum (VStr (period_kind_value p))) (per_period u))].

Definition period_view (p : fiscal_period) : pyvalue :=
  match p with
  | FiscalQuarter y q => VDataclass "FiscalQuarter" [field "fiscal_year" (VInt y); field "quarter" (VInt q)]
  | FiscalYear y => VDataclass "FiscalYear" [field "fiscal_year" (VInt y)]
  end.

Fixpoint formula_view (f : formula) : pyvalue :=
  match f with
  | Reference id => VDataclass "Reference" [field "node_id" (VStr id)]
  | Literal d => VDataclass "Literal" [field "value" (dec_view d)]
  | Unary op x => VDataclass "Unary" [field "operator" (VStr op); field "operand" (formula_view x)]
  | Binary op l r =>
      VDataclass "Binary" [field "operator" (VStr op); field "left" (formula_view l); field "right" (formula_view r)]
  end.

Definition base_view (b : base) : list (string * (bool * pyvalue)) :=
  [field "node_id" (VStr (node_id b)); field "label" (VStr (label b));
   field "unit" (unit_view (n_unit b)); field "period" (period_view (n_period b))].

Definition leaf_view (b : base) (value : decimal) (as_of : datetime) : list (string * (bool * pyvalue)) :=
  base_view b ++ [field "value" (dec_view value); field "as_of" (VDatetime as_of)].

Definition node_view (n : node) : pyvalue :=
  match n with
  | SourceFactNode b value as_of source_span_id fact_id =>
      VDataclass "SourceFactNode"
        (leaf_view b value as_of ++ [field "source_span_id" (VStr source_span_id); field "fact_id" (opt_view VStr fact_id)])
  | AnalystAssumptionNode b value as_of assumption_id =>
      VDataclass "AnalystAssumptionNode" (leaf_view b value as_of ++ [field "assumption_id" (VStr assumption_id)])
  | ForecastModelOutputNode b value as_of forecast_run_id dataset_cutoff dataset_version =>
      VDataclass "ForecastModelOutputNode"
        (leaf_view b value as_of ++ [field "forecast_run_id" (VStr forecast_run_id);
           field "dataset_cutoff" (VDatetime dataset_cutoff); field "dataset_version" (VStr dataset_version)])
  | ScenarioOverrideNode b value as_of target scenario_id assumption_id =>
      VDataclass "ScenarioOverrideNode"
        (leaf_view b value as_of ++ [field "target" (VStr target); field "scenario_id" (VStr scenario_id);
           field "assumption_id" (VStr assumption_id)])
  | OperationalDriverNode b seed => VDataclass "OperationalDriverNode" (base_view b ++ [field "seed" (VStr seed)])
  | FormulaNode b op operands formula_version =>
      VDataclass "FormulaNode"
        (base_view b ++ [field "operator" (VEnum (VStr (operator_value op))); field "operands" (strs_view operands);
           field "formula_version" (VStr formula_version)])
  | ExpressionFormulaNode b ast formula_version grammar_version =>
      VDataclass "ExpressionFormulaNode"
        (base_view b ++ [field "ast" (formula_view ast); field "formula_version" (VStr formula_version);
           field "grammar_version" (VStr grammar_version)])
  | AggregationNode b op operands =>
      VDataclass "AggregationNode"
        (base_view b ++ [field "operator" (VEnum (VStr (aggregation_op_value op))); field "operands" (strs_view operands)])
  | ValidationCheckNode b check operands tolerance =>
      VDataclass "ValidationCheckNode"
        (base_view b ++ [field "check" (VEnum (VStr (check_op_value check))); field "operands" (strs_view operands);
           field "tolerance" (opt_view dec_view tolerance)])
  | ReportedFinancialOutputNode b source metric_id quantum =>
      VDataclass "ReportedFinancialOutputNode"
        (base_view b ++ [field "source" (VStr source); field "metric_id" (VStr metric_id);
           field "quantum" (opt_view dec_view quantum)])
  end.

Definition map_base (f : base → base) (n : node) : node :=
  match n with
  | SourceFactNode b v t s i => SourceFactNode (f b) v t s i
  | AnalystAssumptionNode b v t a => AnalystAssumptionNode (f b) v t a
  | ForecastModelOutputNode b v t r c d => ForecastModelOutputNode (f b) v t r c d
  | ScenarioOverrideNode b v t g s a => ScenarioOverrideNode (f b) v t g s a
  | OperationalDriverNode b s => OperationalDriverNode (f b) s
  | FormulaNode b o l v => FormulaNode (f b) o l v
  | ExpressionFormulaNode b a v g => ExpressionFormulaNode (f b) a v g
  | AggregationNode b o l => AggregationNode (f b) o l
  | ValidationCheckNode b c l t => ValidationCheckNode (f b) c l t
  | ReportedFinancialOutputNode b s m q => ReportedFinancialOutputNode (f b) s m q
  end.

(** [dataclasses.replace(node, label=text)], which runs the checks again *)
Definition replace_label (n : node) (text : string) : calc node :=
  make_node (map_base (λ b, Base (node_id b) text (n_unit b) (n_period b)) n).

(** the canonical definition of a node: its label blanked *)
Definition node_definition (n : node) : calc string :=
  n' ← replace_label n ""; canonical_json (node_view n').

(** * Lemmas *)

(** the ids [inputs] refers to, in order *)
Definition input_refs (n : node) : list string :=
  match n with
  | ScenarioOverrideNode _ _ _ target _ _ => [target]
  | OperationalDriverNode _ seed => [seed]
  | FormulaNode _ _ operands _ | AggregationNode _ _ operands | ValidationCheckNode _ _ operands _ => operands
  | ExpressionFormulaNode _ ast _ _ => dict_fromkeys (refs ast)
  | ReportedFinancialOutputNode _ source _ _ => [source]
  | _ => []
  end.

(** a node the constructors let through, over valid units and periods *)
Definition node_ok (n : node) : Prop :=
  check_node n = Ok tt ∧ unit_ok (unit_of n) = true ∧ period_ok (period_of n) = true.

Lemma enumerate_roles_refs role l : (enumerate_roles role l).*2 = l.
Proof. unfold enumerate_roles. rewrite fmap_imap. apply list_eq. intros i. rewrite list_lookup_imap. by destruct (l !! i). Qed.

Lemma check_id_Ok id u : check_id id = Ok u ↔ safe_id id = true.
Proof. unfold check_id, require_safe_id. destruct u, (safe_id id); cbn; naive_solver. Qed.

Lemma check_decimal_Ok d u : check_decimal d = Ok u ↔ decimal_ok d.
Proof.
  unfold check_decimal. destruct u. rewrite bind_Ok. split.
  - intros (d' & [Hd H]%require_decimal_Ok & _). by simplify_eq.
  - intros H. exists d. by rewrite require_decimal_Ok.
Qed.

Lemma check_operands_Ok id l m e u :
  check_operands id l m e = Ok u →
  Forall (λ r, safe_id r = true) l ∧ (m <= length l)%nat ∧ NoDup l ∧ id ∉ l ∧ ∀ k, e = Some k → length l = k.
Proof.
  unfold check_operands. intros H. ok_inv. btrue. split_and!; try done.
  - eapply Forall_impl; [done|]. intros r. apply check_id_Ok.
  - by apply Nat.leb_le.
  - intros k ->. apply ensure_Ok, Nat.eqb_eq in Hv0. done.
Qed.

(** What the constructors guarantee about a node's inputs. *)
Lemma input_refs_ok n :
  check_node n = Ok tt →
  (∃ roles, inputs n = Ok roles ∧ roles.*2 = input_refs n) ∧
  Forall (λ r, safe_id r = true) (input_refs n) ∧ NoDup (input_refs n) ∧
  (id_of n ∈ input_refs n → ∃ b ast v g, n = ExpressionFormulaNode b ast v g).
Proof.
  destruct n as [| | |b v t target s a|b seed|b op l v|b ast v g|b op l|b c l t|b src m q]; intros H;
    cbn [check_node inputs input_refs id_of base_of] in *; unfold id_of; cbn [base_of].
  1-3: split_and!; [by eexists|constructor|constructor|set_solver].
  - ok_inv. apply check_id_Ok in Hv0. btrue. split_and!; [by eexists|by repeat constructor|apply NoDup_singleton|].
    destruct (String.eqb_spec target (node_id b)); [done|]. set_solver.
  - ok_inv. apply check_id_Ok in Hv0. btrue. split_and!; [by eexists|by repeat constructor|apply NoDup_singleton|].
    destruct (String.eqb_spec seed (node_id b)); [done|]. set_solver.
  - ok_inv. apply check_operands_Ok in Hv0 as (? & _ & ? & ? & _).
    split_and!; [eexists; split; [done|apply enumerate_roles_refs]|done|done|done].
  - ok_inv. rewrite formula_dependencies_eq in *. destruct (formula_ok ast) eqn:Hok; [|done]. injection Hv1 as <-.
    split_and!; [eexists; split; [done|apply enumerate_roles_refs]| |apply NoDup_dict_fromkeys|by eauto].
    apply Forall_forall. intros r Hr. rewrite elem_of_dict_fromkeys in Hr. by apply (refs_safe ast).
  - ok_inv. assert (∃ m e, check_operands (node_id b) l m e = Ok tt) as (m & e & Hl)
      by (destruct op; ok_inv; eauto).
    apply check_operands_Ok in Hl as (? & _ & ? & ? & _).
    split_and!; [eexists; split; [done|apply enumerate_roles_refs]|done|done|done].
  - ok_inv. apply check_operands_Ok in Hv0 as (? & _ & ? & ? & _).
    split_and!; [eexists; split; [done|apply enumerate_roles_refs]|done|done|done].
  - ok_inv. apply check_id_Ok in Hv0. btrue. split_and!; [by eexists|by repeat constructor|apply NoDup_singleton|].
    destruct (String.eqb_spec src (node_id b)); [done|]. set_solver.
Qed.

(** Blanking the label keeps every check. *)
Lemma check_map_base f n :
  (∀ b, node_id (f b) = node_id b ∧ n_unit (f b) = n_unit b ∧ n_period (f b) = n_period b) →
  check_node (map_base f n) = check_node n.
Proof.
  intros Hf.
  destruct n as [b| b| b|b|b|b|b|b|b|b]; destruct (Hf b) as (Hi & Hu & Hp); cbn [map_base check_node];
    unfold check_leaf; rewrite ?Hi, ?Hu, ?Hp; reflexivity.
Qed.

(** A leaf carries exactly the lineage field of its provenance. *)
Lemma leaf_lineage_ok n :
  check_node n = Ok tt → provenance_of n ≠ DERIVED →
  ∃ l, leaf_lineage n = Ok l ∧ check_lineage l = Ok tt ∧ l_provenance l = provenance_of n.
Proof.
  assert (Hmake : ∀ l, check_lineage l = Ok tt → make_lineage l = Ok l) by (intros l Hl; unfold make_lineage; by rewrite Hl).
  destruct n; intros H Hp; try done; cbn [check_node leaf_lineage provenance_of] in *; ok_inv;
    repeat match goal with H : check_id _ = Ok _ |- _ => apply check_id_Ok in H end;
    eexists; (split; [apply Hmake|split; [|done]]); unfold check_lineage; cbn;
    repeat match goal with H : safe_id _ = true |- _ => rewrite H; clear H end; done.
Qed.
