(* ===== verification/Iteration.v ===== *)
(** Iteration policies and the record of an iterative run
    (packages/calculation-engine/fel_calculation_engine/iteration.py). *)

From S2P Require Import Prelude Decimals Errors Periods Units Values Formulas Canonical Nodes.
Local Open Scope Z_scope.

Definition MAX_ITERATIONS : Z := 1000.
Definition ITERATION_ALGORITHM : string := "jacobi/v1".

Record iteration_group := IterationGroup {
  group_id : string;
  members : list string;
  seeds : list (string * string);
  absolute_tolerances : list (string * decimal);
  relative_tolerance : decimal;
  max_iterations : Z
}.

#[export] Instance iteration_group_eq_dec : EqDecision iteration_group.
Proof. solve_decision. Defined.

(** [except CalculationEngineError] *)
Definition to_policy_error (e : calc_error) : calc_error := if is_engine_error e then IterationPolicyError else e.

(** [_tolerance] *)
Definition check_tolerance (d : decimal) : calc unit :=
  map_err to_policy_error (require_decimal (PyDec (Finite d));; canonical_json (dec_view d));;
  ensure (negb (dec_ltb d dec_zero)) IterationPolicyError.

Definition check_policy_id (id : string) : calc unit :=
  require_safe_id (PyStr id) IterationPolicyError;; mret tt.

(** [IterationGroup.__post_init__] *)
Definition check_group (g : iteration_group) : calc unit :=
  check_policy_id (group_id g);;
  ensure (negb (bool_decide (members g = []))) IterationPolicyError;;
  for_each check_policy_id (members g);;
  ensure (bool_decide (sorted_strings (dict_fromkeys (members g)) = members g)) IterationPolicyError;;
  ensure (bool_decide ((seeds g).*1 = members g)) IterationPolicyError;;
  ensure (bool_decide ((absolute_tolerances g).*1 = members g)) IterationPolicyError;;
  for_each (λ s, check_policy_id (snd s)) (seeds g);;
  check_tolerance (relative_tolerance g);;
  for_each (λ mt, check_tolerance (snd mt);;
                  ensure (negb (dec_eqb (snd mt) dec_zero && dec_eqb (relative_tolerance g) dec_zero)) IterationPolicyError)
    (absolute_tolerances g);;
  ensure ((1 <=? max_iterations g) && (max_iterations g <=? MAX_ITERATIONS)) IterationPolicyError.

Definition make_group (g : iteration_group) : calc iteration_group := check_group g;; mret g.

(** [IterationGroup.of]; the mappings are their items, keys distinct *)
Definition group_of (group_id : string) (members : list string) (seeds : list (string * string))
    (absolute_tolerances : list (string * decimal)) (relative_tolerance : decimal) (max_iterations : Z)
    : calc iteration_group :=
  for_each check_policy_id (members ++ seeds.*1 ++ absolute_tolerances.*1);;
  make_group (IterationGroup group_id (sorted_strings members) (py_sorted key_le seeds)
                (py_sorted key_le absolute_tolerances) relative_tolerance max_iterations).

(** * The record of a run *)

Record iteration_run := IterationRun {
  run_id : string;
  policy : iteration_group;
  member_definitions : list (string * string);
  run_dependencies : list (string * list string);
  seed_result_ids : list (string * string * string);
  external_result_ids : list (string * string);
  run_cutoff : datetime;
  iterations : Z;
  run_values : list (string * quantity * fiscal_period);
  residuals : list (string * decimal)
}.

Definition pair_view (p : string * string) : pyvalue := VList [VStr (fst p); VStr (snd p)].

Definition group_view (g : iteration_group) : pyvalue :=
  VDataclass "IterationGroup"
    [field "group_id" (VStr (group_id g));
     field "members" (strs_view (members g));
     field "seeds" (VList (map pair_view (seeds g)));
     field "absolute_tolerances" (VList (map (λ p, VList [VStr (fst p); dec_view (snd p)]) (absolute_tolerances g)));
     field "relative_tolerance" (dec_view (relative_tolerance g));
     field "max_iterations" (VInt (max_iterations g))].

Definition quantity_view (q : quantity) : pyvalue :=
  VDataclass "Quantity" [field "value" (dec_view (q_value q)); field "unit" (unit_view (q_unit q))].

(** [IterationRun.payload]: every field but the id *)
Definition run_payload (r : iteration_run) : pyvalue :=
  VDict
    [(Some "schema"%string, VStr "fel-calc-iteration/v1");
     (Some "algorithm"%string, VStr ITERATION_ALGORITHM);
     (Some "policy"%string, group_view (policy r));
     (Some "member_definitions"%string, VList (map pair_view (member_definitions r)));
     (Some "dependencies"%string, VList (map (λ p, VList [VStr (fst p); strs_view (snd p)]) (run_dependencies r)));
     (Some "seed_result_ids"%string,
       VList (map (λ t, VList [VStr (fst (fst t)); VStr (snd (fst t)); VStr (snd t)]) (seed_result_ids r)));
     (Some "external_result_ids"%string, VList (map pair_view (external_result_ids r)));
     (Some "cutoff"%string, VDatetime (run_cutoff r));
     (Some "iterations"%string, VInt (iterations r));
     (Some "values"%string,
       VList (map (λ t, VList [VStr (fst (fst t)); quantity_view (snd (fst t)); period_view (snd t)]) (run_values r)));
     (Some "residuals"%string, VList (map (λ p, VList [VStr (fst p); dec_view (snd p)]) (residuals r)))].

(** [IterationRun.verify] *)
Definition run_verify (r : iteration_run) : calc bool :=
  h ← content_hash (run_payload r); mret (String.eqb h (run_id r)).

(** * Lemmas *)

(** What a policy certifies. *)
Lemma check_group_Ok g :
  check_group g = Ok tt →
  members g ≠ [] ∧ NoDup (members g) ∧ (seeds g).*1 = members g ∧ (absolute_tolerances g).*1 = members g ∧
  1 ≤ max_iterations g ≤ 1000.
Proof.
  unfold check_group. intros H. ok_inv. btrue. split_and!; try done.
  - rewrite <- Hv2. apply NoDup_sorted_strings, NoDup_dict_fromkeys.
  - lia.
  - unfold MAX_ITERATIONS in *. lia.
Qed.
