(* ===== verification/Graph.v ===== *)
(** Model graphs: dependency edges, topological order, cycles, iteration plans
    and type checks (packages/calculation-engine/fel_calculation_engine/graph.py).

    Dictionaries are [gmap]s; a lookup that would raise [KeyError] is [get].
    The heap of Kahn's algorithm is the sorted list of its elements.  The
    explicit-stack loops take fuel, given by their callers as a function of the
    graph's size. *)

From S2P Require Import Prelude Decimals Errors Periods Units Values Formulas Canonical Nodes Iteration.
Local Open Scope Z_scope.

(** * Data *)

Record edge := Edge { e_source : string; e_target : string; e_role : string }.

(** a step of an execution plan: [str | IterationGroup] *)
Inductive step := StepNode (id : string) | StepGroup (g : iteration_group).

#[export] Instance step_eq_dec : EqDecision step.
Proof. solve_decision. Defined.

Record model_graph := ModelGraph {
  nodes : list node;
  edges : list edge;
  order : list string;
  by_id : gmap string node;
  g_dependencies : gmap string (list string);
  g_dependents : gmap string (list string);
  definitions : gmap string string;
  iteration_groups : list iteration_group;
  execution_plan : list step
}.

Notation adjacency := (gmap string (list string)).

(** [m[k]] *)
Definition get {A} (m : gmap string A) (k : string) : calc A := from_option_err (Escaped PyKeyError) (m !! k).

(** [m[k].append(x)] *)
Definition append_at (m : adjacency) (k x : string) : calc adjacency :=
  l ← get m k; mret (<[k := l ++ [x]]> m).

Definition keys {A} (m : gmap string A) : list string := (map_to_list m).*1.

(** * Cycle reporting *)

(** how the scan of a node's dependencies ends *)
Inductive scan_result :=
| ScanCycle (dep : string)
| ScanPush (dep : string) (cursor : nat)
| ScanDone.

(** [while cursor < len(deps)], [rest] being [deps[cursor:]] *)
Fixpoint scan (remaining visited : list string) (on_stack : gmap string nat) (cursor : nat) (rest : list string)
    : scan_result :=
  match rest with
  | [] => ScanDone
  | dep :: rest =>
      if decide (dep ∉ remaining) then scan remaining visited on_stack (S cursor) rest
      else if decide (is_Some (on_stack !! dep)) then ScanCycle dep
      else if decide (dep ∉ visited) then ScanPush dep (S cursor)
      else scan remaining visited on_stack (S cursor) rest
  end.

(** the inner [while stack], the stack listed from its top; [inr] is the cycle
    found, [inl] the nodes visited *)
Fixpoint cycle_loop (fuel : nat) (remaining : list string) (deps : adjacency)
    (stack : list (string * nat)) (on_stack : gmap string nat) (visited : list string)
    : calc (list string + list string) :=
  match stack with
  | [] => Ok (inl visited)
  | (id, cursor) :: below =>
      match fuel with
      | O => Err OutOfFuel
      | S fuel =>
          ds ← get deps id;
          match scan remaining visited on_stack cursor (drop cursor ds) with
          | ScanCycle dep =>
              i ← get on_stack dep;
              mret (inr (drop i (reverse stack.*1) ++ [dep]))
          | ScanPush dep cursor' =>
              cycle_loop fuel remaining deps ((dep, 0%nat) :: (id, cursor') :: below)
                (<[dep := length stack]> on_stack) (dep :: visited)
          | ScanDone => cycle_loop fuel remaining deps below (delete id on_stack) visited
          end
      end
  end.

(** [for start in sorted(remaining)] *)
Fixpoint cycle_starts (remaining : list string) (deps : adjacency) (starts visited : list string)
    : calc (list string) :=
  match starts with
  | [] => Err (CycleError (sorted_strings remaining))
  | start :: starts =>
      if decide (start ∈ visited) then cycle_starts remaining deps starts visited
      else
        r ← cycle_loop (S (2 * length remaining)) remaining deps [(start, 0%nat)] {[start := 0%nat]} (start :: visited);
        match r with
        | inl visited => cycle_starts remaining deps starts visited
        | inr cycle => mret cycle
        end
  end.

(** [_find_cycle] *)
Definition find_cycle (remaining : list string) (deps : adjacency) : calc (list string) :=
  cycle_starts remaining deps (sorted_strings remaining) [].

(** * Kahn's algorithm *)

(** [for dependent in dependents[node_id]] *)
Definition relax (st : list string * gmap string Z) (dependent : string) : calc (list string * gmap string Z) :=
  let '(ready, indegree) := st in
  d ← get indegree dependent;
  let indegree := <[dependent := d - 1]> indegree in
  mret (if d - 1 =? 0 then insert_sorted String.le dependent ready else ready, indegree).

(** [while ready] *)
Fixpoint kahn_loop (fuel : nat) (dependents : adjacency) (ready : list string) (indegree : gmap string Z)
    (order : list string) : calc (list string * gmap string Z) :=
  match ready with
  | [] => Ok (order, indegree)
  | id :: ready =>
      match fuel with
      | O => Err OutOfFuel
      | S fuel =>
          ds ← get dependents id;
          '(ready, indegree) ← foldM relax (ready, indegree) ds;
          kahn_loop fuel dependents ready indegree (order ++ [id])
      end
  end.

(** [_topological_order]; of [by_id] it uses the number of keys *)
Definition topological_order (size_by_id : nat) (dependencies dependents : adjacency) : calc (list string) :=
  let indegree := (λ l, Z.of_nat (length l)) <$> dependencies in
  let ready := sorted_strings (filter (λ k, indegree !! k = Some 0) (keys indegree)) in
  '(order, indegree) ← kahn_loop (size dependencies) dependents ready indegree [];
  if decide (length order = size_by_id) then mret order
  else
    let remaining := filter (λ k, 0 < default 0 (indegree !! k)) (keys indegree) in
    c ← find_cycle remaining dependencies;
    Err (CycleError c).

(** * Strongly connected components *)

(** the first traversal, over dependencies: [finished] in reverse order *)
Fixpoint finish_loop (fuel : nat) (deps : adjacency) (stack : list (string * nat)) (visited finished : list string)
    : calc (list string * list string) :=
  match stack with
  | [] => Ok (visited, finished)
  | (id, cursor) :: below =>
      match fuel with
      | O => Err OutOfFuel
      | S fuel =>
          ds ← get deps id;
          match ds !! cursor with
          | None => finish_loop fuel deps below visited (id :: finished)
          | Some dep =>
              if decide (dep ∈ visited) then finish_loop fuel deps ((id, S cursor) :: below) visited finished
              else finish_loop fuel deps ((dep, 0%nat) :: (id, S cursor) :: below) (dep :: visited) finished
          end
      end
  end.

(** an upper bound on the iterations of one traversal *)
Definition graph_fuel (adj : adjacency) : nat := map_fold (λ _ l n, S (S (length l)) + n)%nat 1%nat adj.

Definition finish_order (deps : adjacency) : calc (list string) :=
  st ← foldM (λ st start,
          let '(visited, finished) := st in
          if decide (start ∈ visited) then mret st
          else finish_loop (graph_fuel deps) deps [(start, 0%nat)] (start :: visited) finished)
        ([], []) (sorted_strings (keys deps));
  mret (snd st).

(** the second traversal, over dependents *)
Fixpoint collect_loop (fuel : nat) (dependents : adjacency) (pending visited members : list string)
    : calc (list string * list string) :=
  match pending with
  | [] => Ok (visited, members)
  | id :: pending =>
      match fuel with
      | O => Err OutOfFuel
      | S fuel =>
          ds ← get dependents id;
          let '(pending, visited) :=
            foldl (λ st dependent, let '(pending, visited) := st in
                     if decide (dependent ∈ visited) then st else (dependent :: pending, dependent :: visited))
              (pending, visited) ds in
          collect_loop fuel dependents pending visited (members ++ [id])
      end
  end.

(** [_components] *)
Definition components (deps dependents : adjacency) : calc (list (list string)) :=
  finished ← finish_order deps;
  st ← foldM (λ st start,
          let '(visited, found) := st in
          if decide (start ∈ visited) then mret st
          else
            '(visited, members) ← collect_loop (S (size deps)) dependents [start] (start :: visited) [];
            mret (visited, found ++ [sorted_strings members]))
        ([], []) finished;
  mret (snd st).

(** * Type checks *)

(** [_formula_unit] *)
Definition operator_unit (op : operator) (u v : unit_) : calc unit_ :=
  match op with ADD => unit_add u v | SUB => unit_sub u v | MUL => unit_mul u v | DIV => unit_div u v end.

Definition formula_unit (op : operator) (operands : list node) : calc unit_ :=
  match operands with
  | [] => Err (Escaped PyIndexError)
  | o :: os => foldM (λ u x, operator_unit op u (unit_of x)) (unit_of o) os
  end.

Definition require_unit (n : node) (computed : unit_) : calc unit :=
  ensure (bool_decide (computed = unit_of n)) UnitError.
Definition require_same_period (n other : node) : calc unit :=
  ensure (bool_decide (period_of other = period_of n)) PeriodError.
Definition require_period_kind (n other : node) : calc unit :=
  ensure (bool_decide (Periods.kind (period_of other) = Periods.kind (period_of n))) PeriodError.

(** [_OVERRIDABLE] *)
Definition overridable (k : node_kind) : bool :=
  match k with ANALYST_ASSUMPTION | OPERATIONAL_DRIVER | SCENARIO_OVERRIDE => true | _ => false end.

Definition first_input (l : list node) : calc node := from_option_err (Escaped PyIndexError) (head l).

Definition same_periods (a b : list fiscal_period) : bool :=
  forallb (λ p, bool_decide (p ∈ b)) a && forallb (λ p, bool_decide (p ∈ a)) b.

(** one iteration of [_check_types] *)
Definition check_node_types (by_id : gmap string node) (id : string) : calc unit :=
  n ← get by_id id;
  roles ← Nodes.inputs n;
  ins ← mapM (λ r, get by_id (snd r)) roles;
  match n with
  | OperationalDriverNode _ _ | ReportedFinancialOutputNode _ _ _ _ =>
      i ← first_input ins; require_unit n (unit_of i);; require_same_period n i
  | ExpressionFormulaNode _ ast _ _ =>
      for_each (require_period_kind n) ins;;
      u ← infer_formula_unit ast (list_to_map (map (λ i, (id_of i, unit_of i)) ins));
      require_unit n u
  | FormulaNode _ op _ _ =>
      for_each (require_period_kind n) ins;;
      u ← formula_unit op ins; require_unit n u
  | AggregationNode _ op _ =>
      for_each (λ i, require_unit n (unit_of i)) ins;;
      match op with
      | SUM => for_each (require_same_period n) ins
      | ROLLUP_YEAR =>
          match period_of n with
          | FiscalYear y => ensure (same_periods (map period_of ins) (quarters y)) PeriodError
          | FiscalQuarter _ _ => Err PeriodError
          end
      end
  | ValidationCheckNode _ _ _ _ =>
      for_each (λ i, require_unit n (unit_of i);; require_period_kind n i) ins
  | ScenarioOverrideNode _ _ _ _ _ _ =>
      target ← first_input ins;
      ensure (overridable (kind_of target)) ScenarioError;;
      require_unit n (unit_of target);; require_same_period n target
  | _ => mret tt
  end.

Definition check_types (by_id : gmap string node) (order : list string) : calc unit :=
  for_each (check_node_types by_id) order.

(** * Iteration plans *)

(** [a <= b] on tuples of strings *)
Fixpoint tuple_leb (a b : list string) : bool :=
  match a, b with
  | [], _ => true
  | _, [] => false
  | x :: a', y :: b' => if decide (x = y) then tuple_leb a' b' else bool_decide (String.le x y)
  end.

Definition tuple_min (l : list (list string)) : option (list string) :=
  match l with [] => None | x :: l => Some (foldl (λ m y, if tuple_leb m y then m else y) x l) end.

Definition first_member (members : list string) : calc string := from_option_err (Escaped PyIndexError) (head members).

(** [len(members) > 1 or members[0] in dependencies[members[0]]] *)
Definition is_cyclic (deps : adjacency) (members : list string) : calc bool :=
  if decide (1 < length members)%nat then mret true
  else m ← first_member members; ds ← get deps m; mret (bool_decide (m ∈ ds)).

Definition is_formula_node (n : node) : bool :=
  match n with FormulaNode _ _ _ _ | ExpressionFormulaNode _ _ _ _ => true | _ => false end.

(** [for member, seed in group.seeds] *)
Definition check_seed (by_id : gmap string node) (g : iteration_group) (ms : string * string) : calc unit :=
  let '(member, seed) := ms in
  n ← get by_id member;
  ensure (is_formula_node n) IterationPolicyError;;
  s ← from_option_err (MissingInputError seed) (by_id !! seed);
  ensure (negb (bool_decide (seed ∈ members g))) IterationPolicyError;;
  require_unit n (unit_of s);; require_same_period n s.

(** [for group in groups]; the state is [(group_ids, declared)] *)
Definition declare_group (by_id : gmap string node) (cyclic : list (list string))
    (st : list string * gmap (list string) iteration_group) (g : iteration_group)
    : calc (list string * gmap (list string) iteration_group) :=
  let '(group_ids, declared) := st in
  ensure (negb (bool_decide (group_id g ∈ group_ids) || bool_decide (is_Some (declared !! members g)))) IterationPolicyError;;
  ensure (bool_decide (members g ∈ cyclic)) IterationPolicyError;;
  for_each (check_seed by_id g) (seeds g);;
  mret (group_id g :: group_ids, <[members g := g]> declared).

(** one component's step and prerequisites *)
Definition plan_component (deps : adjacency) (component_of : gmap string string)
    (declared : gmap (list string) iteration_group)
    (st : adjacency * adjacency * gmap string step) (members : list string)
    : calc (adjacency * adjacency * gmap string step) :=
  let '(prerequisites, successors, steps) := st in
  key ← first_member members;
  refs ← mapM (get deps) members;
  owners ← mapM (get component_of) (concat refs);
  seed_owners ← (match declared !! members with
                 | Some g => mapM (λ s, get component_of (snd s)) (seeds g)
                 | None => mret []
                 end);
  let parents := sorted_strings (dict_fromkeys (filter (λ o, o ≠ key) owners ++ seed_owners)) in
  let st := match declared !! members with Some g => StepGroup g | None => StepNode key end in
  successors ← foldM (λ s p, append_at s p key) successors parents;
  mret (<[key := parents]> prerequisites, successors, <[key := st]> steps).

(** [except CycleError] *)
Definition cycle_to_policy (e : calc_error) : calc_error :=
  match e with CycleError _ => IterationPolicyError | _ => e end.

(** [filter] with a check that can raise *)
Fixpoint filterM {A} (f : A → calc bool) (l : list A) : calc (list A) :=
  match l with
  | [] => mret []
  | x :: l => b ← f x; r ← filterM f l; mret (if b : bool then x :: r else r)
  end.

(** [_iteration_plan] *)
Definition iteration_plan (by_id : gmap string node) (deps dependents : adjacency) (groups : list iteration_group)
    : calc (list step) :=
  comps ← components deps dependents;
  cyclic ← filterM (is_cyclic deps) comps;
  '(_, declared) ← foldM (declare_group by_id cyclic) ([], ∅) groups;
  match tuple_min (filter (λ c, declared !! c = None) cyclic) with
  | Some c => cycle ← find_cycle c deps; Err (CycleError cycle)
  | None => mret tt
  end;;
  heads ← mapM first_member comps;
  let component_of : gmap string string :=
    list_to_map (concat (zip_with (λ c h, map (λ m, (m, h)) c) comps heads)) in
  '(prerequisites, successors, steps) ←
    foldM (plan_component deps component_of declared) (∅, list_to_map (map (λ h, (h, [])) heads), ∅) comps;
  keys ← map_err cycle_to_policy (topological_order (size steps) prerequisites successors);
  mapM (get steps) keys.

(** * [ModelGraph.build] *)

Definition add_node (m : gmap string node) (n : node) : calc (gmap string node) :=
  match m !! id_of n with
  | Some _ => Err GraphError
  | None => mret (<[id_of n := n]> m)
  end.

(** [for role, ref in node.inputs()]; the state is [(edges, deps, dependents)] *)
Definition add_input (by_id : gmap string node) (id : string)
    (st : list edge * list string * adjacency) (input : string * string)
    : calc (list edge * list string * adjacency) :=
  let '(es, deps, dependents) := st in
  let '(role, ref) := input in
  match by_id !! ref with
  | None => Err (MissingInputError ref)
  | Some _ =>
      dependents ← append_at dependents ref id;
      mret (es ++ [Edge ref id role], deps ++ [ref], dependents)
  end.

(** [for node in sorted_nodes]; the state is [(edges, dependencies, dependents)] *)
Definition add_node_edges (by_id : gmap string node) (st : list edge * adjacency * adjacency) (n : node)
    : calc (list edge * adjacency * adjacency) :=
  let '(es, dependencies, dependents) := st in
  roles ← Nodes.inputs n;
  '(es, deps, dependents) ← foldM (add_input by_id (id_of n)) (es, [], dependents) roles;
  mret (es, <[id_of n := deps]> dependencies, dependents).

(** the explicit seed edges of a group *)
Definition add_seed_edge (st : list edge * adjacency * adjacency) (ms : string * string)
    : calc (list edge * adjacency * adjacency) :=
  let '(es, dependencies, dependents) := st in
  let '(member, seed) := ms in
  deps ← get dependencies member;
  ds ← get dependents seed;
  mret (es ++ [Edge seed member "iteration_seed"],
        <[member := dict_fromkeys (deps ++ [seed])]> dependencies,
        if decide (member ∈ ds) then dependents else <[seed := ds ++ [member]]> dependents).

Definition step_members (s : step) : list string :=
  match s with StepNode id => [id] | StepGroup g => members g end.

Definition group_le (a b : iteration_group) : Prop := String.le (group_id a) (group_id b).
#[export] Instance group_le_dec : RelDecision group_le.
Proof. intros a b. unfold group_le. apply _. Defined.

(** the second half of [build]: plan, type checks and definitions *)
Definition plan_graph (by_id : gmap string node) (sorted_nodes : list node) (es : list edge)
    (dependencies dependents : adjacency) (groups : list iteration_group) : calc model_graph :=
  '(plan, order, es, dependencies, dependents) ←
    (match groups with
     | [] =>
         order ← topological_order (size by_id) dependencies dependents;
         mret (map StepNode order, order, es, dependencies, dependents)
     | _ =>
         plan ← iteration_plan by_id dependencies dependents groups;
         '(es, dependencies, dependents) ←
           foldM add_seed_edge (es, dependencies, dependents) (concat (map seeds groups));
         mret (plan, concat (map step_members plan), es, dependencies, dependents)
     end);
  check_types by_id order;;
  defs ← mapM (λ n, d ← node_definition n; mret (id_of n, d)) sorted_nodes;
  mret (ModelGraph sorted_nodes es order by_id dependencies dependents (list_to_map defs) groups plan).

Definition build (node_list : list node) (groups : list iteration_group) : calc model_graph :=
  by_id ← foldM add_node ∅ node_list;
  sorted_nodes ← mapM (get by_id) (sorted_strings (keys by_id));
  '(es, dependencies, dependents) ←
    foldM (add_node_edges by_id) ([], ∅, (λ _, []) <$> by_id) sorted_nodes;
  plan_graph by_id sorted_nodes es dependencies dependents (py_sorted group_le groups).

Definition graph_node (g : model_graph) (id : string) : calc node := from_option_err (MissingInputError id) (by_id g !! id).
Definition dependencies_of (g : model_graph) (id : string) : calc (list string) :=
  graph_node g id;; get (g_dependencies g) id.
Definition dependents_of (g : model_graph) (id : string) : calc (list string) :=
  graph_node g id;; get (g_dependents g) id.

Definition is_expression (n : node) : bool := match n with ExpressionFormulaNode _ _ _ _ => true | _ => false end.

(** [uses_v2] *)
Definition uses_v2 (g : model_graph) : bool :=
  match iteration_groups g with [] => existsb is_expression (nodes g) | _ => true end.

(** * Lemmas: cycle reporting *)

Lemma get_Some {A} (m : gmap string A) k a : m !! k = Some a → get m k = Ok a.
Proof. unfold get. by intros ->. Qed.

Lemma get_Ok {A} (m : gmap string A) k a : get m k = Ok a ↔ m !! k = Some a.
Proof. apply from_option_err_Ok. Qed.

Definition dep_of (deps : adjacency) (u v : string) : Prop := ∃ ds, deps !! u = Some ds ∧ v ∈ ds.

(** a path along dependencies *)
Fixpoint linked (deps : adjacency) (l : list string) : Prop :=
  match l with
  | u :: (v :: _) as l' => dep_of deps u v ∧ linked deps l'
  | _ => True
  end.

(** a closed path: at least one edge, ending where it starts *)
Definition is_cycle (deps : adjacency) (c : list string) : Prop :=
  ∃ x p, c = x :: p ++ [x] ∧ linked deps c.

Lemma linked_snoc deps l u v : linked deps (l ++ [u]) → dep_of deps u v → linked deps (l ++ [u; v]).
Proof.
  induction l as [|a l IH]; [done|]. intros H Huv. destruct l as [|b l]; simpl in *; [naive_solver|].
  destruct H. split; [done|]. by apply IH.
Qed.

Lemma linked_app_r deps l1 l2 : linked deps (l1 ++ l2) → linked deps l2.
Proof.
  induction l1 as [|a l1 IH]; [done|]. cbn [app linked]. intros H. apply IH. destruct (l1 ++ l2); [done|]. by destruct H.
Qed.

Section find_cycle.
Context (deps : adjacency) (remaining : list string).
Hypothesis Hremaining : ∀ x, x ∈ remaining → ∃ ds, deps !! x = Some ds ∧ ∃ y, y ∈ ds ∧ y ∈ remaining.

(** The scan of a list that holds an unresolved node ends at one. *)
Lemma scan_spec visited on_stack cursor rest :
  (∀ x, x ∈ visited → is_Some (on_stack !! x)) → (∃ y, y ∈ rest ∧ y ∈ remaining) →
  match scan remaining visited on_stack cursor rest with
  | ScanCycle y => y ∈ rest ∧ y ∈ remaining ∧ is_Some (on_stack !! y)
  | ScanPush y _ => y ∈ rest ∧ y ∈ remaining ∧ on_stack !! y = None ∧ y ∉ visited
  | ScanDone => False
  end.
Proof.
  intros Hv. revert cursor. induction rest as [|d rest IH]; intros cursor (y & Hy & Hr); [by apply not_elem_of_nil in Hy|].
  cbn [scan]. case_decide as Hd.
  - assert (∃ y, y ∈ rest ∧ y ∈ remaining) as Hex.
    { apply elem_of_cons in Hy as [->|]; [done|eauto]. }
    specialize (IH (S cursor) Hex). destruct (scan _ _ _ _ rest); set_solver.
  - case_decide as Ho; [set_solver|]. case_decide as Hvis.
    + split_and!; [set_solver|done|by apply eq_None_not_Some|done].
    + naive_solver.
Qed.

(** the stack's invariant; [ids] is the current path, from its first node *)
Record cycle_inv (stack : list (string * nat)) (on_stack : gmap string nat) (visited : list string) : Prop := CycleInv {
  ci_nodup : NoDup stack.*1;
  ci_remaining : ∀ x, x ∈ stack.*1 → x ∈ remaining;
  ci_linked : linked deps (reverse stack.*1);
  ci_on_stack : ∀ x i, on_stack !! x = Some i ↔ reverse stack.*1 !! i = Some x;
  ci_visited : ∀ x, x ∈ visited → x ∈ stack.*1;
  ci_cursor : head stack.*2 = Some 0%nat
}.

Lemma cycle_inv_start start :
  start ∈ remaining → cycle_inv [(start, 0%nat)] {[start := 0%nat]} [start].
Proof.
  intros Hs. constructor; cbn; try done.
  - apply NoDup_singleton.
  - set_solver.
  - intros x i. rewrite lookup_singleton_Some. destruct i as [|i]; cbn; naive_solver.
Qed.

Lemma cycle_inv_on_stack stack on_stack visited x :
  cycle_inv stack on_stack visited → x ∈ visited → is_Some (on_stack !! x).
Proof.
  intros Hi Hx. apply (ci_visited _ _ _ Hi) in Hx. rewrite <- elem_of_reverse, list_elem_of_lookup in Hx.
  destruct Hx as [i Hx]. exists i. by apply (ci_on_stack _ _ _ Hi).
Qed.

Lemma cycle_inv_push id c below on_stack visited y c' :
  cycle_inv ((id, c) :: below) on_stack visited → dep_of deps id y → y ∈ remaining →
  on_stack !! y = None →
  cycle_inv ((y, 0%nat) :: (id, c') :: below) (<[y := length ((id, c) :: below)]> on_stack) (y :: visited).
Proof.
  intros Hi Hdep Hr Hnone. destruct Hi as [Hnd Hrem Hlink Hon Hvis Hcur]. cbn [fmap list_fmap fst snd] in *.
  assert (y ∉ id :: below.*1) as Hnew.
  { intros Hy. rewrite <- elem_of_reverse, list_elem_of_lookup in Hy. destruct Hy as [i Hy].
    apply Hon in Hy. congruence. }
  constructor; cbn [fmap list_fmap fst snd].
  - by constructor.
  - set_solver.
  - rewrite !reverse_cons, <- app_assoc. rewrite reverse_cons in Hlink. by apply linked_snoc.
  - intros x i. rewrite (reverse_cons (id :: below.*1) y). destruct (decide (x = y)) as [->|Hne].
    + rewrite lookup_insert_eq. split.
      * intros [= <-]. rewrite lookup_app_r by (rewrite length_reverse; cbn; rewrite length_fmap; lia).
        rewrite length_reverse; cbn. by rewrite length_fmap, Nat.sub_diag.
      * intros Hl. apply lookup_app_Some in Hl as [Hl|[Hle Hl]].
        { apply Hon in Hl. congruence. }
        rewrite length_reverse in *; cbn in *. rewrite length_fmap in *.
        destruct (i - S (length below))%nat eqn:He; [|done]. f_equal. lia.
    + rewrite lookup_insert_ne by done. rewrite Hon. split.
      * intros Hl. by apply lookup_app_l_Some.
      * intros Hl. apply lookup_app_Some in Hl as [Hl|[Hle Hl]]; [done|].
        destruct (_ - _)%nat in Hl; cbn in Hl; [congruence|done].
  - set_solver.
  - done.
Qed.

(** Every unresolved node has an unresolved dependency, so the path only grows
    until it closes: the loop returns a cycle. *)
Lemma cycle_loop_spec fuel stack on_stack visited :
  stack ≠ [] → cycle_inv stack on_stack visited → (length remaining < fuel + length stack)%nat →
  ∃ c, cycle_loop fuel remaining deps stack on_stack visited = Ok (inr c) ∧ is_cycle deps c.
Proof.
  revert stack on_stack visited. induction fuel as [|fuel IH]; intros stack on_stack visited Hne Hi Hf.
  { exfalso. assert (length stack.*1 ≤ length remaining)%nat as Hle.
    { apply submseteq_length, NoDup_submseteq; [apply Hi|]. apply (ci_remaining _ _ _ Hi). }
    rewrite length_fmap in Hle. lia. }
  destruct stack as [|[id c] below]; [done|]. cbn [cycle_loop].
  pose proof (ci_cursor _ _ _ Hi) as [= ->].
  destruct (Hremaining id) as (ds & Hds & Hy); [apply (ci_remaining _ _ _ Hi); set_solver|].
  rewrite (get_Some _ _ _ Hds), bind_ok. change (drop 0 ds) with ds.
  pose proof (scan_spec visited on_stack 0 ds (λ x, cycle_inv_on_stack _ _ _ x Hi) Hy) as Hscan.
  destruct (scan remaining visited on_stack 0 ds) as [y|y c'|].
  - destruct Hscan as (Hyd & Hyr & [i Hyi]). rewrite (get_Some _ _ _ Hyi), bind_ok.
    eexists; split; [done|]. cbn [fmap list_fmap fst] in *.
    apply (ci_on_stack _ _ _ Hi) in Hyi. cbn [fmap list_fmap fst] in *.
    pose proof (ci_linked _ _ _ Hi) as Hlink. cbn [fmap list_fmap fst] in Hlink. rewrite reverse_cons in *.
    exists y. rewrite (drop_S _ _ _ Hyi). exists (drop (S i) (reverse below.*1 ++ [id])). split; [done|].
    rewrite <- app_comm_cons. rewrite app_comm_cons, <- (drop_S _ _ _ Hyi).
    assert (i ≤ length (reverse below.*1))%nat as Hle.
    { apply lookup_lt_Some in Hyi. rewrite length_app in Hyi. cbn in Hyi. lia. }
    rewrite drop_app_le, <- app_assoc by done. cbn [app]. apply linked_snoc; [|by exists ds].
    eapply linked_app_r. rewrite app_assoc, take_drop. exact Hlink.
  - destruct Hscan as (Hyd & Hyr & Hyn & Hyv).
    apply IH; [done| |cbn in *; lia].
    apply (cycle_inv_push _ 0%nat); [done|by exists ds|done|done].
  - done.
Qed.

Lemma find_cycle_spec : remaining ≠ [] → ∃ c, find_cycle remaining deps = Ok c ∧ is_cycle deps c.
Proof.
  intros Hne. unfold find_cycle. destruct (sorted_strings remaining) as [|start starts] eqn:Hs.
  { exfalso. apply Hne. apply (f_equal length) in Hs. unfold sorted_strings in Hs. rewrite length_py_sorted in Hs.
    by destruct remaining. }
  assert (start ∈ remaining) as Hstart by (apply elem_of_sorted_strings; rewrite Hs; left).
  cbn [cycle_starts]. rewrite decide_False by apply not_elem_of_nil.
  destruct (cycle_loop_spec (S (2 * length remaining)) [(start, 0%nat)] {[start := 0%nat]} [start]) as (c & Hc & Hcyc);
    [done|by apply cycle_inv_start|cbn; lia|].
  rewrite Hc, bind_ok. by exists c.
Qed.
End find_cycle.

(** * Lemmas: Kahn's algorithm *)

(** [dependents] is the transpose of [deps], both over the same ids. *)
Record transposed (deps dependents : adjacency) : Prop := Transposed {
  tr_dom : ∀ k, is_Some (deps !! k) ↔ is_Some (dependents !! k);
  tr_nodup : ∀ k ds, deps !! k = Some ds → NoDup ds;
  tr_nodup' : ∀ k ds, dependents !! k = Some ds → NoDup ds;
  tr_closed : ∀ x dx y, deps !! x = Some dx → y ∈ dx → is_Some (deps !! y);
  tr_closed' : ∀ y dy x, dependents !! y = Some dy → x ∈ dy → is_Some (deps !! x);
  tr_iff : ∀ x dx y dy, deps !! x = Some dx → dependents !! y = Some dy → y ∈ dx ↔ x ∈ dy
}.

(** [x] can run after [before] *)
Definition runnable (deps : adjacency) (before : list string) (x : string) : Prop :=
  x ∉ before ∧ ∃ dx, deps !! x = Some dx ∧ ∀ y, y ∈ dx → y ∈ before.

(** the specification of the order: each id is the least that can run next *)
Fixpoint greedy_order (deps : adjacency) (before l : list string) : Prop :=
  match l with
  | [] => True
  | x :: l =>
      runnable deps before x ∧ (∀ y, runnable deps before y → String.le x y) ∧ greedy_order deps (before ++ [x]) l
  end.

Lemma greedy_order_snoc deps before l x :
  greedy_order deps before l → runnable deps (before ++ l) x →
  (∀ y, runnable deps (before ++ l) y → String.le x y) → greedy_order deps before (l ++ [x]).
Proof.
  revert before; induction l as [|a l IH]; intros before Hl Hx Hmin; cbn [app greedy_order] in *.
  - rewrite app_nil_r in *. done.
  - destruct Hl as (Ha & Hamin & Hl). split_and!; [done|done|].
    apply IH; [done|..]; by rewrite <- app_assoc.
Qed.

Lemma greedy_order_app deps before l1 l2 :
  greedy_order deps before (l1 ++ l2) ↔ greedy_order deps before l1 ∧ greedy_order deps (before ++ l1) l2.
Proof.
  revert before; induction l1 as [|a l1 IH]; intros before; cbn [app greedy_order].
  - rewrite app_nil_r. naive_solver.
  - rewrite IH, <- app_assoc. cbn. naive_solver.
Qed.

(** an element's dependencies come before it, and it occurs once *)
Lemma greedy_order_split deps l1 x l2 :
  greedy_order deps [] (l1 ++ x :: l2) → runnable deps l1 x.
Proof. intros H. apply greedy_order_app in H as [_ H]. by destruct H. Qed.

Lemma greedy_order_NoDup deps before l :
  greedy_order deps before l → NoDup l ∧ ∀ x, x ∈ l → x ∉ before ∧ is_Some (deps !! x).
Proof.
  revert before; induction l as [|a l IH]; intros before H; [split; [constructor|set_solver]|].
  destruct H as ((Ha & da & Hda & Hin) & _ & Hl). destruct (IH _ Hl) as [Hnd Hl'].
  split; [constructor; [|done]|].
  - intros Hal. apply Hl' in Hal as [Hal _]. set_solver.
  - intros x [->|Hx]%elem_of_cons; [by rewrite Hda|]. apply Hl' in Hx as [Hx ?]. set_solver.
Qed.

(** The greedy order is determined by the dependencies. *)
Lemma greedy_order_unique deps before l1 l2 :
  greedy_order deps before l1 → greedy_order deps before l2 → length l1 = length l2 → l1 = l2.
Proof.
  revert before l2; induction l1 as [|a l1 IH]; intros before [|b l2] H1 H2 Hlen; try done.
  destruct H1 as (Ha & Hamin & H1), H2 as (Hb & Hbmin & H2).
  assert (a = b) as -> by (apply (anti_symm String.le); auto).
  f_equal. apply (IH (before ++ [b])); auto.
Qed.

Lemma elem_of_keys {A} (m : gmap string A) k : k ∈ keys m ↔ is_Some (m !! k).
Proof.
  unfold keys. rewrite list_elem_of_fmap. split.
  - intros ([k' a] & -> & H). apply elem_of_map_to_list in H. by exists a.
  - intros [a Ha]. exists (k, a). split; [done|]. by apply elem_of_map_to_list.
Qed.

Lemma NoDup_keys {A} (m : gmap string A) : NoDup (keys m).
Proof. apply NoDup_fst_map_to_list. Qed.

Lemma length_keys {A} (m : gmap string A) : length (keys m) = size m.
Proof. unfold keys. by rewrite length_fmap, length_map_to_list. Qed.

Lemma relax_fold ds ready indegree :
  NoDup ds → (∀ x, x ∈ ds → is_Some (indegree !! x)) →
  ∃ ready' indegree', foldM relax (ready, indegree) ds = Ok (ready', indegree') ∧
    (∀ x, indegree' !! x = if decide (x ∈ ds) then Z.pred <$> indegree !! x else indegree !! x) ∧
    (∀ x, x ∈ ready' ↔ x ∈ ready ∨ (x ∈ ds ∧ indegree !! x = Some 1)) ∧
    (StronglySorted String.le ready → StronglySorted String.le ready') ∧
    (NoDup ready → (∀ x, x ∈ ds → x ∉ ready) → NoDup ready').
Proof.
  intros Hnd. revert ready indegree. induction Hnd as [|d ds Hd Hnd IH]; intros ready indegree Hdom.
  { exists ready, indegree. split_and!; try done. set_solver. }
  destruct (Hdom d) as [n Hn]; [left|]. cbn [foldM]. unfold relax at 1.
  rewrite (get_Some _ _ _ Hn), bind_ok. unfold mret, result_ret.
  set (ready1 := if n - 1 =? 0 then _ else _).
  assert (Hr1 : ∀ x, x ∈ ready1 ↔ x ∈ ready ∨ (x = d ∧ n = 1)).
  { intros x. unfold ready1. destruct (Z.eqb_spec (n - 1) 0); [rewrite insert_sorted_perm, elem_of_cons|];
      split; intros Hx; destruct_or?; destruct_and?; auto; [right; split; [done|lia]|lia]. }
  destruct (IH ready1 (<[d := n - 1]> indegree)) as (ready' & indegree' & Hrun & Hdeg & Hready & Hsort & Hnodup).
  { intros x Hx. destruct (decide (x = d)) as [->|]; [done|]. rewrite lookup_insert_ne by done. apply Hdom. by right. }
  exists ready', indegree'. split_and!.
  - exact Hrun.
  - intros x. rewrite Hdeg. destruct (decide (x = d)) as [->|Hne].
    + rewrite decide_False by done. rewrite decide_True by left. rewrite lookup_insert_eq, Hn. done.
    + rewrite lookup_insert_ne by done. apply decide_ext. set_solver.
  - intros x. rewrite Hready, Hr1. destruct (decide (x = d)) as [->|Hne].
    + rewrite Hn. set_solver by congruence.
    + rewrite lookup_insert_ne by done. set_solver.
  - intros Hs. apply Hsort. unfold ready1. case_match; [|done]. by apply insert_sorted_sorted; [apply _..|].
  - intros Hr Hout. apply Hnodup.
    + unfold ready1. case_match; [|done]. rewrite insert_sorted_perm. constructor; [|done]. apply Hout. left.
    + intros x Hx. rewrite Hr1. intros [Hin|[-> _]]; [|done]. apply (Hout x); [by right|done].
Qed.

Section kahn.
Context (deps dependents : adjacency).
Hypothesis Htr : transposed deps dependents.

(** the dependencies of [x] that have not been output *)
Definition pending (done dx : list string) : list string := filter (λ y, y ∉ done) dx.

Record kahn_inv (ready : list string) (indegree : gmap string Z) (done : list string) : Prop := KahnInv {
  ki_degree : ∀ x dx, deps !! x = Some dx → indegree !! x = Some (Z.of_nat (length (pending done dx)));
  ki_dom : ∀ x, is_Some (indegree !! x) → is_Some (deps !! x);
  ki_ready : ∀ x, x ∈ ready ↔ x ∉ done ∧ indegree !! x = Some 0;
  ki_sorted : StronglySorted String.le ready;
  ki_nodup : NoDup ready;
  ki_order : greedy_order deps [] done
}.

Lemma pending_nil done dx : length (pending done dx) = 0%nat → ∀ y, y ∈ dx → y ∈ done.
Proof.
  intros H%length_zero_iff_nil y Hy. destruct (decide (y ∈ done)) as [|Hn]; [done|].
  assert (y ∈ pending done dx) as Hp by (by apply list_elem_of_filter). rewrite H in Hp. by apply not_elem_of_nil in Hp.
Qed.

Lemma pending_snoc done dx id :
  NoDup dx → id ∉ done →
  length (pending done dx) = (length (pending (done ++ [id]) dx) + if decide (id ∈ dx) then 1 else 0)%nat.
Proof.
  intros Hnd Hid. unfold pending. induction Hnd as [|y dx Hy Hnd IH].
  { cbn. by rewrite decide_False by apply not_elem_of_nil. }
  rewrite !filter_cons. destruct (decide (y = id)) as [->|Hne].
  - rewrite decide_True by done. rewrite (decide_False (P := id ∉ done ++ [id])) by set_solver.
    rewrite (decide_True (P := id ∈ id :: dx)) by left. rewrite decide_False in IH by done. cbn. lia.
  - rewrite (decide_ext (id ∈ y :: dx) (id ∈ dx)) by set_solver.
    rewrite (decide_ext (y ∉ done ++ [id]) (y ∉ done)) by set_solver.
    destruct (decide (id ∈ dx)); case_decide; cbn; lia.
Qed.

Lemma runnable_ready ready indegree done x :
  kahn_inv ready indegree done → runnable deps done x ↔ x ∈ ready.
Proof.
  intros Hi. rewrite (ki_ready _ _ _ Hi). split.
  - intros (Hx & dx & Hdx & Hall). split; [done|]. rewrite (ki_degree _ _ _ Hi x dx Hdx).
    assert (pending done dx = []) as ->; [|done].
    apply elem_of_nil_inv. intros y [Hy Hin]%list_elem_of_filter. by apply Hy, Hall.
  - intros [Hx Hdeg]. split; [done|]. destruct (ki_dom _ _ _ Hi x) as [dx Hdx]; [by rewrite Hdeg|].
    exists dx. split; [done|]. rewrite (ki_degree _ _ _ Hi x dx Hdx) in Hdeg. injection Hdeg as Hdeg.
    apply pending_nil. lia.
Qed.

Lemma kahn_inv_step id ready indegree done :
  kahn_inv (id :: ready) indegree done →
  ∃ ds ready' indegree', dependents !! id = Some ds ∧
    foldM relax (ready, indegree) ds = Ok (ready', indegree') ∧ kahn_inv ready' indegree' (done ++ [id]).
Proof.
  intros Hi. assert (runnable deps done id) as Hrun by (apply (runnable_ready _ _ _ _ Hi); left).
  assert (Hid : id ∉ done ∧ indegree !! id = Some 0) by (apply (ki_ready _ _ _ Hi); left). destruct Hid as [Hid Hid0].
  destruct (ki_dom _ _ _ Hi id) as [di Hdi]; [by rewrite Hid0|].
  destruct (proj1 (tr_dom _ _ Htr id)) as [ds Hds]; [by rewrite Hdi|].
  assert (Hdeg : ∀ x dx, deps !! x = Some dx → x ∈ ds →
    indegree !! x = Some (Z.of_nat (S (length (pending (done ++ [id]) dx))))).
  { intros x dx Hdx Hx. rewrite (ki_degree _ _ _ Hi x dx Hdx), (pending_snoc _ _ id) by (done || by eapply tr_nodup).
    rewrite decide_True by (by apply (tr_iff _ _ Htr x dx id ds)). do 2 f_equal. lia. }
  destruct (relax_fold ds ready indegree) as (ready' & indegree' & Hrel & Hdeg' & Hready & Hsort & Hnodup).
  { by eapply tr_nodup'. }
  { intros x Hx. destruct (tr_closed' _ _ Htr _ _ _ Hds Hx) as [dx Hdx]. by rewrite (Hdeg x dx). }
  pose proof (ki_nodup _ _ _ Hi) as [Hidr Hndr]%NoDup_cons.
  pose proof (ki_sorted _ _ _ Hi) as [Hsr Hidle]%StronglySorted_inv.
  assert (Hout : ∀ x, x ∈ ds → x ∉ id :: ready).
  { intros x Hx Hin. apply (ki_ready _ _ _ Hi) in Hin as [_ Hin].
    destruct (tr_closed' _ _ Htr _ _ _ Hds Hx) as [dx Hdx]. rewrite (Hdeg x dx) in Hin by done. injection Hin as Hin. lia. }
  exists ds, ready', indegree'. split_and!; [done|done|]. constructor.
  - intros x dx Hdx. rewrite Hdeg'. case_decide as Hx.
    + rewrite (Hdeg x dx) by done. cbn [fmap option_fmap option_map]. f_equal. lia.
    + rewrite (ki_degree _ _ _ Hi x dx Hdx), (pending_snoc _ _ id) by (done || by eapply tr_nodup).
      rewrite decide_False; [do 2 f_equal; lia|]. intros Hin. apply Hx. by apply (tr_iff _ _ Htr x dx id ds).
  - intros x. rewrite Hdeg'. case_decide; [rewrite fmap_is_Some|]; apply (ki_dom _ _ _ Hi).
  - intros x. rewrite Hready, Hdeg'. split.
    + intros [Hx|[Hx H1]].
      * assert (x ∈ id :: ready) as Hin by (by right). apply (ki_ready _ _ _ Hi) in Hin as [Hxd Hx0].
        rewrite decide_False by (intros Hds'; by apply (Hout x Hds'); right).
        split; [|done]. set_solver.
      * rewrite decide_True by done. rewrite H1. split; [|done]. intros [Hd|Hd]%elem_of_app.
        -- pose proof (ki_order _ _ _ Hi) as Hord. apply list_elem_of_split in Hd as (l1 & l2 & ->).
           apply greedy_order_split in Hord as (_ & dx & Hdx & Hall).
           apply Hid, elem_of_app. left. apply Hall. by apply (tr_iff _ _ Htr x dx id ds).
        -- apply list_elem_of_singleton in Hd as ->. congruence.
    + intros [Hxd Hx0]. case_decide as Hx; [right|left].
      * split; [done|]. destruct (indegree !! x) as [n|]; [|done]. injection Hx0 as Hx0. f_equal. lia.
      * assert (x ∈ id :: ready) as [->|Hin]%elem_of_cons; [|set_solver|done].
        apply (ki_ready _ _ _ Hi). split; [set_solver|done].
  - by apply Hsort.
  - apply Hnodup; [done|]. intros x Hx Hin. by apply (Hout x Hx); right.
  - apply greedy_order_snoc; [apply Hi|done|]. intros y Hy. apply (runnable_ready _ _ _ _ Hi) in Hy.
    apply elem_of_cons in Hy as [->|Hy]; [done|]. by eapply Forall_forall in Hidle.
Qed.

Lemma greedy_length done : greedy_order deps [] done → (length done <= size deps)%nat.
Proof.
  intros H. apply greedy_order_NoDup in H as [Hnd Hin]. rewrite <- length_keys.
  apply submseteq_length, NoDup_submseteq; [done|]. intros x Hx. apply elem_of_keys. by apply Hin.
Qed.

Lemma kahn_loop_spec fuel ready indegree done :
  kahn_inv ready indegree done → (size deps <= fuel + length done)%nat →
  ∃ order indegree', kahn_loop fuel dependents ready indegree done = Ok (order, indegree') ∧
    kahn_inv [] indegree' order.
Proof.
  revert ready indegree done; induction fuel as [|fuel IH]; intros ready indegree done Hi Hf;
    (destruct ready as [|id ready]; [by eexists _, _|]).
  - exfalso. destruct (kahn_inv_step _ _ _ _ Hi) as (ds & r & d & _ & _ & Hi').
    pose proof (greedy_length _ (ki_order _ _ _ Hi')) as Hl. rewrite length_app in Hl. cbn in *. lia.
  - destruct (kahn_inv_step _ _ _ _ Hi) as (ds & r & d & Hds & Hrun & Hi'). cbn [kahn_loop].
    rewrite (get_Some _ _ _ Hds), bind_ok, Hrun, bind_ok. apply IH; [done|]. rewrite length_app. cbn. lia.
Qed.

Lemma kahn_inv_init :
  let indegree := (λ l, Z.of_nat (length l)) <$> deps in
  kahn_inv (sorted_strings (filter (λ k, indegree !! k = Some 0) (keys indegree))) indegree [].
Proof.
  cbv zeta. assert (∀ dx, pending [] dx = dx) as Hp.
  { intros dx. unfold pending. induction dx as [|y dx IH]; [done|].
    rewrite filter_cons, decide_True by apply not_elem_of_nil. by rewrite IH. }
  constructor.
  - intros x dx Hdx. by rewrite lookup_fmap, Hdx, Hp.
  - intros x. by rewrite lookup_fmap, fmap_is_Some.
  - intros x. rewrite elem_of_sorted_strings, list_elem_of_filter, elem_of_keys.
    split; [intros [-> _]; split; [apply not_elem_of_nil|done]|]. intros [_ H]. by rewrite H.
  - apply sorted_strings_sorted.
  - apply NoDup_sorted_strings, NoDup_filter, NoDup_keys.
  - done.
Qed.

(** Kahn's algorithm terminates within its fuel, with the greedy order of all
    ids or with a cycle of the graph. *)
Lemma topological_order_spec :
  (∃ order, topological_order (size deps) deps dependents = Ok order ∧
     greedy_order deps [] order ∧ order ≡ₚ keys deps) ∨
  (∃ c, topological_order (size deps) deps dependents = Err (CycleError c) ∧ is_cycle deps c).
Proof.
  unfold topological_order. pose proof kahn_inv_init as Hinit. cbv zeta in *.
  destruct (kahn_loop_spec (size deps) _ _ _ Hinit) as (order & indegree & Hrun & Hi); [lia|].
  rewrite Hrun, bind_ok. pose proof (ki_order _ _ _ Hi) as Hgreedy.
  destruct (greedy_order_NoDup _ _ _ Hgreedy) as [Hnd Hin].
  case_decide as Hlen.
  - left. exists order. split_and!; [done|done|]. apply submseteq_length_Permutation.
    + apply NoDup_submseteq; [done|]. intros x Hx. apply elem_of_keys. by apply Hin.
    + rewrite length_keys. lia.
  - right. set (remaining := filter (λ k, 0 < default 0 (indegree !! k)) (keys indegree)).
    assert (Hrem : ∀ x, x ∈ remaining ↔ is_Some (deps !! x) ∧ x ∉ order).
    { intros x. unfold remaining. rewrite list_elem_of_filter, elem_of_keys. split.
      - intros [Hpos Hsome]. split; [by apply (ki_dom _ _ _ Hi)|]. intros Hx.
        apply list_elem_of_split in Hx as (l1 & l2 & ->).
        apply greedy_order_split in Hgreedy as (_ & dx & Hdx & Hall).
        rewrite (ki_degree _ _ _ Hi x dx Hdx) in Hpos. cbn in Hpos.
        assert (pending (l1 ++ x :: l2) dx = []) as Hp; [|rewrite Hp in Hpos; cbn in Hpos; lia].
        apply elem_of_nil_inv. intros y [Hy Hyd]%list_elem_of_filter. apply Hy, elem_of_app. left. by apply Hall.
      - intros [[dx Hdx] Hx]. rewrite (ki_degree _ _ _ Hi x dx Hdx). cbn. split; [|done].
        destruct (decide (Z.of_nat (length (pending order dx)) = 0)) as [H0|]; [|lia]. exfalso.
        assert (x ∈ @nil string) as Hn; [|by apply not_elem_of_nil in Hn].
        apply (ki_ready _ _ _ Hi). split; [done|]. rewrite (ki_degree _ _ _ Hi x dx Hdx). by rewrite H0. }
    destruct (find_cycle_spec deps remaining) as (c & Hc & Hcyc).
    + intros x Hx. apply Hrem in Hx as [[dx Hdx] Hx]. exists dx. split; [done|].
      destruct (pending order dx) as [|y l] eqn:Hp.
      * exfalso. assert (x ∈ @nil string) as Hn; [|by apply not_elem_of_nil in Hn].
        apply (ki_ready _ _ _ Hi). split; [done|]. by rewrite (ki_degree _ _ _ Hi x dx Hdx), Hp.
      * assert (y ∈ pending order dx) as [Hy Hyd]%list_elem_of_filter by (rewrite Hp; left).
        exists y. split; [done|]. apply Hrem. split; [|done]. by eapply tr_closed.
    + intros Hnil. apply Hlen. assert (order ≡ₚ keys deps) as ->; [|apply length_keys].
      apply NoDup_Permutation; [done|apply NoDup_keys|]. intros x. rewrite elem_of_keys. split; [by apply Hin|].
      intros Hx. destruct (decide (x ∈ order)) as [|Hn]; [done|].
      assert (x ∈ remaining) as Hr by (by apply Hrem). rewrite Hnil in Hr. by apply not_elem_of_nil in Hr.
    + rewrite Hc, bind_ok. by exists c.
Qed.
End kahn.

(** ** A complete order and a cycle exclude each other *)

Lemma greedy_order_before deps order u v i :
  greedy_order deps [] order → dep_of deps u v → order !! i = Some u → ∃ j, (j < i)%nat ∧ order !! j = Some v.
Proof.
  intros Hg (ds & Hds & Hv) Hu. rewrite <- (take_drop_middle _ _ _ Hu) in Hg.
  apply greedy_order_split in Hg as (_ & dx & Hdx & Hall). rewrite Hds in Hdx. injection Hdx as <-.
  apply Hall, list_elem_of_lookup in Hv as [j Hj]. apply lookup_take_Some in Hj as [Hj Hlt]. by exists j.
Qed.

Lemma greedy_order_linked deps order l : ∀ u w i,
  greedy_order deps [] order → linked deps (u :: l ++ [w]) → order !! i = Some u →
  ∃ j, (j < i)%nat ∧ order !! j = Some w.
Proof.
  induction l as [|v l IH]; intros u w i Hg Hl Hu; cbn [app linked] in Hl.
  - destruct Hl as [Hd _]. by apply (greedy_order_before deps order u w i).
  - destruct Hl as [Hd Hl]. destruct (greedy_order_before _ _ _ _ _ Hg Hd Hu) as (j & Hj & Hv).
    destruct (IH v w j Hg Hl Hv) as (k & Hk & Hw). exists k. split; [lia|done].
Qed.

Lemma greedy_order_acyclic deps order c :
  greedy_order deps [] order → order ≡ₚ keys deps → ¬ is_cycle deps c.
Proof.
  intros Hg Hperm (x & p & -> & Hl). destruct (greedy_order_NoDup _ _ _ Hg) as [Hnd _].
  assert (is_Some (deps !! x)) as Hx.
  { destruct p as [|v p]; cbn in Hl; destruct Hl as [(ds & -> & _) _]; done. }
  apply elem_of_keys in Hx. rewrite <- Hperm in Hx. apply list_elem_of_lookup in Hx as [i Hi].
  destruct (greedy_order_linked deps order p x x i Hg Hl Hi) as (j & Hj & Hxj).
  pose proof (NoDup_lookup _ _ _ _ Hnd Hi Hxj). lia.
Qed.

(** C36: Topological ordering is correct, complete and deterministic.  On a
    well-formed pair of adjacency maps the loop ends within its fuel; it either
    returns a permutation of all ids in which every id follows its dependencies
    and is the least id that could come next (so the order is unique and the
    graph has no cycle), or raises [CycleError] with a concrete closed path of
    the graph; no other outcome is possible. *)
Theorem topological_order_correct deps dependents :
  transposed deps dependents →
  match topological_order (size deps) deps dependents with
  | Ok order =>
      order ≡ₚ keys deps ∧ greedy_order deps [] order ∧ (∀ c, ¬ is_cycle deps c) ∧
      (∀ order', order' ≡ₚ keys deps → greedy_order deps [] order' → order' = order)
  | Err (CycleError c) => is_cycle deps c
  | Err _ => False
  end.
Proof.
  intros Htr. destruct (topological_order_spec _ _ Htr) as [(order & -> & Hg & Hp)|(c & -> & Hc)]; [|done].
  split_and!; [done|done| |].
  - intros c. by apply (greedy_order_acyclic deps order).
  - intros order' Hp' Hg'. apply (greedy_order_unique deps []); [done|done|]. by rewrite Hp, Hp'.
Qed.

Definition sample_deps : adjacency := <["c" := ["a"; "b"]]> (<["b" := ["a"]]> (<["a" := []]> ∅)).
Definition sample_dependents : adjacency := <["a" := ["b"; "c"]]> (<["b" := ["c"]]> (<["c" := []]> ∅)).

Lemma sample_transposed : transposed sample_deps sample_dependents.
Proof.
  unfold sample_deps, sample_dependents.
  assert (Hd : ∀ k ds, (<["c" := ["a"; "b"]]> (<["b" := ["a"]]> (<["a" := []]> ∅)) : adjacency) !! k = Some ds →
    (k, ds) ∈ [("c", ["a"; "b"]); ("b", ["a"]); ("a", [])]%string).
  { intros k ds. rewrite !lookup_insert_Some, lookup_empty. intros H. destruct_or?; destruct_and?; subst; set_solver. }
  assert (Ht : ∀ k ds, (<["a" := ["b"; "c"]]> (<["b" := ["c"]]> (<["c" := []]> ∅)) : adjacency) !! k = Some ds →
    (k, ds) ∈ [("a", ["b"; "c"]); ("b", ["c"]); ("c", [])]%string).
  { intros k ds. rewrite !lookup_insert_Some, lookup_empty. intros H. destruct_or?; destruct_and?; subst; set_solver. }
  constructor.
  - intros k. rewrite <- !elem_of_dom, !dom_insert. set_solver.
  - intros k ds H%Hd. repeat (apply elem_of_cons in H as [[= -> ->]|H]; [by apply (bool_decide_unpack _)|]). set_solver.
  - intros k ds H%Ht. repeat (apply elem_of_cons in H as [[= -> ->]|H]; [by apply (bool_decide_unpack _)|]). set_solver.
  - intros x dx y H%Hd Hy. rewrite <- elem_of_dom, !dom_insert.
    repeat (apply elem_of_cons in H as [[= -> ->]|H]; [set_solver|]). set_solver.
  - intros y dy x H%Ht Hx. rewrite <- elem_of_dom, !dom_insert.
    repeat (apply elem_of_cons in H as [[= -> ->]|H]; [set_solver|]). set_solver.
  - intros x dx y dy Hx%Hd Hy%Ht.
    repeat (apply elem_of_cons in Hx as [[= -> ->]|Hx]); try (by apply not_elem_of_nil in Hx);
      repeat (apply elem_of_cons in Hy as [[= -> ->]|Hy]); try (by apply not_elem_of_nil in Hy);
      rewrite ?elem_of_cons, ?elem_of_nil; naive_solver.
Qed.

Theorem topological_order_correct_witness :
  transposed sample_deps sample_dependents ∧
  topological_order (size sample_deps) sample_deps sample_dependents = Ok ["a"; "b"; "c"]%string ∧
  greedy_order sample_deps [] ["a"; "b"; "c"]%string.
Proof.
  pose proof sample_transposed as Htr. split; [exact Htr|].
  assert (topological_order (size sample_deps) sample_deps sample_dependents = Ok ["a"; "b"; "c"]%string) as Heq
    by (vm_compute; reflexivity).
  split; [exact Heq|]. pose proof (topological_order_correct _ _ Htr) as H. rewrite Heq in H. exact (proj1 (proj2 H)).
Defined.

(** * Lemmas: building a graph *)

(** ** The nodes *)

Lemma add_nodes_Ok l m m' :
  foldM add_node m l = Ok m' →
  NoDup (id_of <$> l) ∧ (∀ n, n ∈ l → m !! id_of n = None) ∧
  ∀ k n, m' !! k = Some n ↔ m !! k = Some n ∨ (n ∈ l ∧ id_of n = k).
Proof.
  revert m; induction l as [|x l IH]; intros m H; cbn [foldM fmap list_fmap] in *.
  { injection H as <-. split_and!; [constructor|set_solver|set_solver]. }
  unfold add_node at 1 in H. destruct (m !! id_of x) eqn:Hx; [done|]. apply IH in H as (Hnd & Hfresh & Hm').
  assert (Hne : ∀ n, n ∈ l → id_of n ≠ id_of x).
  { intros n Hn He. specialize (Hfresh n Hn). by rewrite He, lookup_insert_eq in Hfresh. }
  split_and!.
  - constructor; [|done]. intros (n & He & Hn)%list_elem_of_fmap. by eapply Hne.
  - intros n [->|Hn]%elem_of_cons; [done|]. specialize (Hfresh n Hn). by rewrite lookup_insert_ne in Hfresh by (symmetry; auto).
  - intros k n. rewrite Hm', lookup_insert_Some, elem_of_cons. split.
    + intros [[[<- <-]|[? ?]]|[? ?]]; auto.
    + intros [Hk|[[->|Hn] Hk]]; [|left; left; done|by right].
      destruct (decide (id_of x = k)) as [<-|]; [congruence|]. left; right; done.
Qed.

Lemma add_nodes_Err l m e :
  foldM add_node m l = Err e → e = GraphError ∧ ¬ (NoDup (id_of <$> l) ∧ ∀ n, n ∈ l → m !! id_of n = None).
Proof.
  revert m; induction l as [|x l IH]; intros m H; cbn [foldM fmap list_fmap] in *; [done|].
  unfold add_node at 1 in H. destruct (m !! id_of x) eqn:Hx.
  - injection H as <-. split; [done|]. intros [_ Hf]. specialize (Hf x ltac:(left)). congruence.
  - apply IH in H as [-> Hn]. split; [done|]. intros [[Hxl Hnd]%NoDup_cons Hf]. apply Hn. split; [done|].
    intros n Hin. rewrite lookup_insert_ne; [apply Hf; by right|]. intros He. apply Hxl. rewrite He. by apply list_elem_of_fmap_2.
Qed.

Lemma add_nodes_perm l1 l2 m : l1 ≡ₚ l2 → foldM add_node m l1 = foldM add_node m l2.
Proof.
  intros Hp.
  assert (Hiff : ∀ l l', l ≡ₚ l' → (NoDup (id_of <$> l) ∧ ∀ n, n ∈ l → m !! id_of n = None) →
    (NoDup (id_of <$> l') ∧ ∀ n, n ∈ l' → m !! id_of n = None)).
  { intros l l' Hll [Hnd Hf]. split; [by rewrite <- Hll|]. intros n. rewrite <- Hll. apply Hf. }
  destruct (foldM add_node m l1) as [m1|e1] eqn:H1, (foldM add_node m l2) as [m2|e2] eqn:H2.
  - f_equal. apply add_nodes_Ok in H1 as (_ & _ & H1), H2 as (_ & _ & H2).
    apply map_eq. intros k. apply option_eq. intros n. by rewrite H1, H2, Hp.
  - apply add_nodes_Ok in H1 as (? & ? & _). apply add_nodes_Err in H2 as [_ H2]. exfalso. apply H2. by apply (Hiff l1).
  - apply add_nodes_Ok in H2 as (? & ? & _). apply add_nodes_Err in H1 as [_ H1]. exfalso. apply H1. by apply (Hiff l2).
  - apply add_nodes_Err in H1 as [-> _], H2 as [-> _]. done.
Qed.

(** ** The edges *)

Definition node_edges (n : node) : list edge :=
  match Nodes.inputs n with
  | Ok roles => map (λ r, Edge (snd r) (id_of n) (fst r)) roles
  | Err _ => []
  end.

Lemma add_inputs_spec by_id id roles es deps dependents :
  NoDup roles.*2 → (∀ r, is_Some (by_id !! r) → is_Some (dependents !! r)) →
  match foldM (add_input by_id id) (es, deps, dependents) roles with
  | Ok (es', deps', dependents') =>
      (∀ r, r ∈ roles.*2 → is_Some (by_id !! r)) ∧
      es' = es ++ map (λ r, Edge (snd r) id (fst r)) roles ∧ deps' = deps ++ roles.*2 ∧
      ∀ r, dependents' !! r = (λ l, l ++ if decide (r ∈ roles.*2) then [id] else []) <$> dependents !! r
  | Err e => ∃ r, e = MissingInputError r ∧ r ∈ roles.*2 ∧ by_id !! r = None
  end.
Proof.
  revert es deps dependents; induction roles as [|[role ref] roles IH]; intros es deps dependents Hnd Hdom; cbn [foldM].
  { cbn. split_and!; [set_solver|by rewrite app_nil_r|by rewrite app_nil_r|]. intros r.
    destruct (dependents !! r); cbn; [by rewrite app_nil_r|done]. }
  cbn [fmap list_fmap snd] in *. apply NoDup_cons in Hnd as [Href Hnd].
  unfold add_input at 1. destruct (by_id !! ref) as [n|] eqn:Hn; [|exists ref; split_and!; [done|left|done]].
  destruct (Hdom ref) as [l Hl]; [by rewrite Hn|]. unfold append_at.
  rewrite (get_Some _ _ _ Hl), bind_ok. unfold mret, result_ret. rewrite bind_ok.
  set (dependents1 := <[ref := l ++ [id]]> dependents).
  specialize (IH (es ++ [Edge ref id role]) (deps ++ [ref]) dependents1 Hnd).
  assert (Hdom1 : ∀ r, is_Some (by_id !! r) → is_Some (dependents1 !! r)).
  { intros r Hr. unfold dependents1. destruct (decide (ref = r)) as [->|]; [by rewrite lookup_insert_eq|].
    rewrite lookup_insert_ne by done. by apply Hdom. }
  specialize (IH Hdom1). destruct (foldM _ _ roles) as [[[es' deps'] dependents']|e].
  - destruct IH as (Hin & -> & -> & Hd). split_and!.
    + intros r [->|Hr]%elem_of_cons; [by rewrite Hn|by apply Hin].
    + by rewrite <- app_assoc.
    + by rewrite <- app_assoc.
    + intros r. rewrite Hd. unfold dependents1. destruct (decide (ref = r)) as [<-|Hne].
      * rewrite lookup_insert_eq, Hl. cbn. rewrite decide_False by done.
        rewrite decide_True by left. by rewrite app_nil_r.
      * rewrite lookup_insert_ne by done. by rewrite (decide_ext (r ∈ roles.*2) (r ∈ ref :: roles.*2)) by set_solver.
  - destruct IH as (r & -> & Hr & Hnone). exists r. split_and!; [done|by right|done].
Qed.

Definition dependents_after (sn : list node) (r : string) (l : list string) : list string :=
  l ++ (id_of <$> filter (λ n, r ∈ input_refs n) sn).

Lemma add_edges_spec by_id sn es dependencies dependents :
  Forall (λ n, check_node n = Ok tt) sn → (∀ r, is_Some (by_id !! r) → is_Some (dependents !! r)) →
  match foldM (add_node_edges by_id) (es, dependencies, dependents) sn with
  | Ok (es', dependencies', dependents') =>
      (∀ n r, n ∈ sn → r ∈ input_refs n → is_Some (by_id !! r)) ∧
      es' = es ++ concat (node_edges <$> sn) ∧
      dependencies' = foldl (λ m n, <[id_of n := input_refs n]> m) dependencies sn ∧
      ∀ r, dependents' !! r = dependents_after sn r <$> dependents !! r
  | Err e => ∃ r n, e = MissingInputError r ∧ n ∈ sn ∧ r ∈ input_refs n ∧ by_id !! r = None
  end.
Proof.
  intros Hok. revert es dependencies dependents.
  induction Hok as [|n sn Hn Hok IH]; intros es dependencies dependents Hdom; cbn [foldM].
  { cbn. split_and!; [set_solver|by rewrite app_nil_r|done|]. intros r. unfold dependents_after.
    destruct (dependents !! r); cbn; [by rewrite app_nil_r|done]. }
  destruct (input_refs_ok n Hn) as ((roles & Hroles & Hrefs) & _ & Hnd & _).
  unfold add_node_edges at 1. rewrite Hroles, bind_ok.
  pose proof (add_inputs_spec by_id (id_of n) roles es [] dependents) as Hin. rewrite Hrefs in Hin.
  specialize (Hin Hnd Hdom). destruct (foldM (add_input by_id (id_of n)) _ roles) as [[[es1 deps1] dependents1]|e].
  - destruct Hin as (Hin & -> & -> & Hd1). rewrite bind_ok. unfold mret, result_ret.
    specialize (IH (es ++ map (λ r, Edge (snd r) (id_of n) (fst r)) roles) (<[id_of n := [] ++ input_refs n]> dependencies) dependents1).
    assert (Hdom1 : ∀ r, is_Some (by_id !! r) → is_Some (dependents1 !! r)).
    { intros r Hr. rewrite Hd1, fmap_is_Some. by apply Hdom. }
    specialize (IH Hdom1). destruct (foldM _ _ sn) as [[[es' dependencies'] dependents']|e].
    + destruct IH as (Hin' & -> & -> & Hd'). split_and!.
      * intros n' r [->|Hn']%elem_of_cons Hr; [by apply Hin|by eapply Hin'].
      * cbn [fmap list_fmap concat]. unfold node_edges at 2. by rewrite Hroles, app_assoc.
      * done.
      * intros r. rewrite Hd', Hd1. unfold dependents_after. rewrite filter_cons. destruct (dependents !! r); [|done].
        cbn. f_equal. case_decide; cbn; rewrite <- app_assoc; done.
    + destruct IH as (r & n' & -> & Hn' & Hr & Hnone). exists r, n'. split_and!; [done|by right|done|done].
  - destruct Hin as (r & -> & Hr & Hnone). exists r, n. split_and!; [done|left|done|done].
Qed.

Lemma foldl_insert_lookup {B} (f : node → B) sn (m : gmap string B) k b :
  NoDup (id_of <$> sn) →
  foldl (λ m n, <[id_of n := f n]> m) m sn !! k = Some b ↔
  (∃ n, n ∈ sn ∧ id_of n = k ∧ f n = b) ∨ ((∀ n, n ∈ sn → id_of n ≠ k) ∧ m !! k = Some b).
Proof.
  revert m; induction sn as [|x sn IH]; intros m Hnd; cbn [foldl fmap list_fmap] in *; [set_solver|].
  apply NoDup_cons in Hnd as [Hx Hnd]. rewrite IH by done. clear IH.
  assert (Hne : ∀ n, n ∈ sn → id_of n ≠ id_of x) by (intros n Hn He; apply Hx; rewrite <- He; by apply list_elem_of_fmap_2).
  split.
  - intros [(n & Hn & Hk & Hb)|[Hall Hm]]; [left; exists n; split_and!; [by right|done|done]|].
    apply lookup_insert_Some in Hm as [[Hk Hb]|[Hk Hm]].
    + left. exists x. split_and!; [left|done|done].
    + right. split; [|done]. intros n [->|Hn]%elem_of_cons; auto.
  - intros [(n & [->|Hn]%elem_of_cons & Hk & Hb)|[Hall Hm]].
    + right. split; [intros n Hn; rewrite <- Hk; by apply Hne|]. by rewrite Hk, Hb, lookup_insert_eq.
    + left. by exists n.
    + right. split; [intros n Hn; apply Hall; by right|]. rewrite lookup_insert_ne; [done|]. apply Hall. left.
Qed.

(** the nodes of a built graph: each under its own id, each checked *)
Definition nodes_ok (by_id : gmap string node) : Prop :=
  ∀ k n, by_id !! k = Some n → id_of n = k ∧ check_node n = Ok tt.

Lemma sorted_nodes_spec by_id :
  nodes_ok by_id →
  ∃ sn, mapM (get by_id) (sorted_strings (keys by_id)) = Ok sn ∧
    id_of <$> sn = sorted_strings (keys by_id) ∧ (∀ n, n ∈ sn ↔ by_id !! id_of n = Some n).
Proof.
  intros Hok. destruct (mapM_total (get by_id) (sorted_strings (keys by_id))) as [sn Hsn].
  { intros k Hk. apply elem_of_sorted_strings, elem_of_keys in Hk as [n Hn]. exists n. by apply get_Some. }
  exists sn. apply mapM_Ok in Hsn as Hf. split; [done|].
  assert (Hids : id_of <$> sn = sorted_strings (keys by_id)).
  { clear Hsn. induction Hf as [|k n ks sn Hk Hf IH]; [done|]. cbn. rewrite IH. f_equal.
    apply get_Ok in Hk. by apply Hok in Hk as [-> _]. }
  split; [done|]. intros n. split.
  - intros Hn. apply list_elem_of_lookup in Hn as [i Hi].
    apply Forall2_lookup_r with (i := i) (y := n) in Hf as (k & _ & Hk); [|done].
    apply get_Ok in Hk. by destruct (Hok _ _ Hk) as [-> _].
  - intros Hn. assert (id_of n ∈ sorted_strings (keys by_id)) as Hin
      by (apply elem_of_sorted_strings, elem_of_keys; by rewrite Hn).
    apply list_elem_of_lookup in Hin as [i Hi].
    apply Forall2_lookup_l with (i := i) (x := id_of n) in Hf as (n' & Hn' & Hk); [|done].
    apply get_Ok in Hk. rewrite Hn in Hk. injection Hk as ->. by eapply list_elem_of_lookup_2.
Qed.

Section structure.
Context (by_id : gmap string node) (sn : list node).
Hypothesis Hok : nodes_ok by_id.
Hypothesis Hids : id_of <$> sn = sorted_strings (keys by_id).
Hypothesis Hsn : ∀ n, n ∈ sn ↔ by_id !! id_of n = Some n.

Lemma sn_nodup : NoDup (id_of <$> sn).
Proof. rewrite Hids. apply NoDup_sorted_strings, NoDup_keys. Qed.

Lemma sn_valid : Forall (λ n, check_node n = Ok tt) sn.
Proof. apply Forall_forall. intros n Hn%Hsn. by apply Hok in Hn as [_ ?]. Qed.

Lemma dependencies_eq : foldl (λ m n, <[id_of n := input_refs n]> m) ∅ sn = input_refs <$> by_id.
Proof.
  apply map_eq. intros k. apply option_eq. intros ds.
  rewrite (foldl_insert_lookup input_refs), lookup_fmap, lookup_empty by apply sn_nodup. split.
  - intros [(n & Hn%Hsn & <- & <-)|[_ ?]]; [|done]. by rewrite Hn.
  - intros H. destruct (by_id !! k) as [n|] eqn:Hn; [|done]. injection H as <-. left. exists n.
    destruct (Hok _ _ Hn) as [Hk _]. split_and!; [apply Hsn; by rewrite Hk|done|done].
Qed.

Lemma dependents_transposed dependents :
  (∀ n r, n ∈ sn → r ∈ input_refs n → is_Some (by_id !! r)) →
  (∀ r, dependents !! r = dependents_after sn r <$> ((λ _, []) <$> by_id) !! r) →
  transposed (input_refs <$> by_id) dependents.
Proof.
  intros Hin Hd.
  assert (Hdep : ∀ y dy, dependents !! y = Some dy → is_Some (by_id !! y) ∧ dy = id_of <$> filter (λ n, y ∈ input_refs n) sn).
  { intros y dy H. rewrite Hd, lookup_fmap in H. destruct (by_id !! y); [|done]. injection H as <-. split; done. }
  assert (Hdeps : ∀ x dx, (input_refs <$> by_id) !! x = Some dx → ∃ n, by_id !! x = Some n ∧ n ∈ sn ∧ id_of n = x ∧ dx = input_refs n).
  { intros x dx H. rewrite lookup_fmap in H. destruct (by_id !! x) as [n|] eqn:Hn; [|done]. injection H as <-.
    destruct (Hok _ _ Hn) as [Hk _]. exists n. split_and!; [done|apply Hsn; by rewrite Hk|done|done]. }
  constructor.
  - intros k. rewrite Hd, !lookup_fmap, !fmap_is_Some. done.
  - intros k ds H. destruct (Hdeps _ _ H) as (n & Hn & _ & _ & ->). apply Hok in Hn as [_ Hn].
    by destruct (input_refs_ok n Hn) as (_ & _ & ? & _).
  - intros k ds H. destruct (Hdep _ _ H) as [_ ->].
    eapply sublist_NoDup; [by apply sn_nodup|]. apply fmap_sublist, sublist_filter.
  - intros x dx y H Hy. destruct (Hdeps _ _ H) as (n & _ & Hn & _ & ->). rewrite lookup_fmap, fmap_is_Some. by eapply Hin.
  - intros y dy x H Hx. destruct (Hdep _ _ H) as [_ ->].
    apply list_elem_of_fmap in Hx as (n & -> & [_ Hn%Hsn]%list_elem_of_filter).
    rewrite lookup_fmap, Hn. done.
  - intros x dx y dy Hx Hy. destruct (Hdeps _ _ Hx) as (n & Hn & Hns & Hid & ->), (Hdep _ _ Hy) as [_ ->].
    rewrite list_elem_of_fmap. split.
    + intros H. exists n. split; [done|]. by apply list_elem_of_filter.
    + intros (n' & Hid' & [Hy' Hn'%Hsn]%list_elem_of_filter). congruence.
Qed.
End structure.

(** ** Types and definitions *)

(** a node's inputs, resolved *)
Definition resolves (by_id : gmap string node) (n : node) (ins : list node) : Prop :=
  ∃ roles, Nodes.inputs n = Ok roles ∧ roles.*2 = input_refs n ∧
    mapM (λ r, get by_id (snd r)) roles = Ok ins ∧ Forall2 (λ r i, by_id !! r = Some i) (input_refs n) ins.

Lemma mapM_snd {A} (m : gmap string A) (roles : list (string * string)) :
  mapM (λ r, get m (snd r)) roles = mapM (get m) roles.*2.
Proof. induction roles as [|r roles IH]; [done|]. cbn. by rewrite IH. Qed.

Lemma mapM_get {A} (m : gmap string A) l :
  (∀ r, r ∈ l → is_Some (m !! r)) → ∃ r, mapM (get m) l = Ok r ∧ Forall2 (λ k a, m !! k = Some a) l r.
Proof.
  intros H. destruct (mapM_total (get m) l) as [r Hr].
  { intros k Hk. destruct (H k Hk) as [a Ha]. exists a. by apply get_Some. }
  exists r. split; [done|]. apply mapM_Ok in Hr. eapply Forall2_impl; [done|]. intros k a. by rewrite get_Ok.
Qed.

Lemma resolve_inputs by_id n :
  check_node n = Ok tt → (∀ r, r ∈ input_refs n → is_Some (by_id !! r)) → ∃ ins, resolves by_id n ins.
Proof.
  intros Hn Hin. destruct (input_refs_ok n Hn) as ((roles & Hr & Hrefs) & _).
  destruct (mapM_get by_id (input_refs n) Hin) as (ins & Hm & Hf).
  exists ins, roles. split_and!; [done|done|by rewrite mapM_snd, Hrefs|done].
Qed.

(** the unit environment of an expression node *)
Definition unit_env (ins : list node) : gmap string unit_ := list_to_map (map (λ i, (id_of i, unit_of i)) ins).

Lemma unit_env_bound by_id refs ins r :
  nodes_ok by_id → Forall2 (λ r i, by_id !! r = Some i) refs ins → r ∈ refs → is_Some (unit_env ins !! r).
Proof.
  intros Hok Hf Hr. apply list_elem_of_lookup in Hr as [i Hi].
  destruct (Forall2_lookup_l _ _ _ _ _ Hf Hi) as (n & Hn & Hby).
  destruct (Hok _ _ Hby) as [Hid _]. apply not_eq_None_Some. intros Hnone.
  apply not_elem_of_list_to_map in Hnone. apply Hnone. rewrite list_elem_of_fmap.
  exists (id_of n, unit_of n). split; [done|]. apply list_elem_of_lookup_2 in Hn. by apply (list_elem_of_fmap_2 (λ i, (id_of i, unit_of i))).
Qed.

Lemma operator_unit_err op u v e : operator_unit op u v = Err e → e = UnitError.
Proof.
  destruct op; cbn [operator_unit]; intros He;
    [by apply (unit_apply_err "+" u v)|by apply (unit_apply_err "-" u v)
    |by apply (unit_apply_err "*" u v)|by apply (unit_apply_err "/" u v)].
Qed.

Lemma foldM_Err {E A S} (f : S → A → result E S) l s e :
  foldM f s l = Err e → ∃ s' x, x ∈ l ∧ f s' x = Err e.
Proof.
  revert s; induction l as [|x l IH]; intros s; cbn; [done|]. destruct (f s x) as [s'|e'] eqn:Hx.
  - intros (s'' & y & ? & ?)%IH. exists s'', y. split; [by right|done].
  - intros [= ->]. exists s, x. split; [left|done].
Qed.

Lemma require_unit_err n u e : require_unit n u = Err e → e = UnitError.
Proof. by intros [_ <-]%ensure_Err. Qed.
Lemma require_same_period_err n i e : require_same_period n i = Err e → e = PeriodError.
Proof. by intros [_ <-]%ensure_Err. Qed.
Lemma require_period_kind_err n i e : require_period_kind n i = Err e → e = PeriodError.
Proof. by intros [_ <-]%ensure_Err. Qed.

Definition type_error (e : calc_error) : Prop := e = UnitError ∨ e = PeriodError ∨ e = ScenarioError.

Ltac type_err :=
  repeat match goal with
  | H : (_ ≫= _) = Err _ |- _ => apply bind_Err in H as [H|(? & ? & H)]
  | H : for_each _ _ = Err _ |- _ => apply for_each_Err in H as (? & ? & H)
  | H : require_unit _ _ = Err _ |- _ => apply require_unit_err in H; left; exact H
  | H : require_same_period _ _ = Err _ |- _ => apply require_same_period_err in H; right; left; exact H
  | H : require_period_kind _ _ = Err _ |- _ => apply require_period_kind_err in H; right; left; exact H
  | H : ensure _ _ = Err _ |- _ => apply ensure_Err in H as [_ <-]; unfold type_error; tauto
  | H : Err _ = Err _ |- _ => injection H as <-; unfold type_error; tauto
  | H : Ok _ = Err _ |- _ => discriminate H
  end.

Lemma first_input_err n l e : first_input l = Err e → length l = length (input_refs n) → input_refs n ≠ [] → False.
Proof. destruct l; [|done]. intros _ H Hne. symmetry in H. by apply length_zero_iff_nil in H. Qed.

(** On resolved inputs the type check of a node raises type errors only. *)
Lemma check_node_types_err by_id k n e :
  nodes_ok by_id → by_id !! k = Some n → (∀ r, r ∈ input_refs n → is_Some (by_id !! r)) →
  check_node_types by_id k = Err e → type_error e.
Proof.
  intros Hok Hk Hin. destruct (Hok _ _ Hk) as [_ Hn].
  destruct (resolve_inputs by_id n Hn Hin) as (ins & roles & Hr & Hrefs & Hm & Hf).
  pose proof (Forall2_length _ _ _ Hf) as Hlen.
  unfold check_node_types. rewrite (get_Some _ _ _ Hk), bind_ok, Hr, bind_ok, Hm, bind_ok. clear Hm Hr roles Hrefs.
  destruct n as [| | |b v t g s a|b seed|b op l v|b ast v g|b op l|b c l t|b src m q]; try done; intros H.
  - apply bind_Err in H as [H|(? & _ & H)]; [by apply (first_input_err (ScenarioOverrideNode b v t g s a)) in H|]. type_err.
  - apply bind_Err in H as [H|(? & _ & H)]; [by apply (first_input_err (OperationalDriverNode b seed)) in H|]. type_err.
  - apply bind_Err in H as [H|(? & _ & H)]; [type_err|]. apply bind_Err in H as [H|(? & _ & H)]; [|type_err].
    left. destruct ins as [|i ins].
    + exfalso. cbn [check_node] in Hn. ok_inv. apply check_operands_Ok in Hv0 as (_ & Hle & _).
      cbn [input_refs] in Hlen. cbn in *. lia.
    + apply foldM_Err in H as (? & ? & _ & H). by eapply operator_unit_err.
  - apply bind_Err in H as [H|(? & _ & H)]; [type_err|]. apply bind_Err in H as [H|(? & _ & H)]; [|type_err].
    left. rewrite infer_formula_unit_eq in H. cbn [check_node] in Hn. ok_inv. rewrite formula_dependencies_eq in Hv1.
    destruct (formula_ok ast) eqn:Hast; [|done]. unfold formula_ok in Hast. apply andb_true_iff in Hast as [Hwf _].
    eapply infer_err; [exact Hwf| |exact H]. intros r Hr. eapply unit_env_bound; [done|exact Hf|].
    cbn [input_refs]. by rewrite elem_of_dict_fromkeys.
  - apply bind_Err in H as [H|(? & _ & H)]; [type_err|]. destruct op; [type_err|].
    destruct (period_of _); type_err.
  - type_err.
  - apply bind_Err in H as [H|(? & _ & H)]; [by apply (first_input_err (ReportedFinancialOutputNode b src m q)) in H|]. type_err.
Qed.

Lemma node_definition_err n e : check_node n = Ok tt → node_definition n = Err e → e = CanonicalizationError.
Proof.
  unfold node_definition, replace_label, make_node. intros Hn.
  rewrite check_map_base by done. rewrite Hn, !bind_ok. unfold mret, result_ret. rewrite bind_ok. apply canonical_json_err.
Qed.

(** * What a built graph guarantees *)

(** a step all of whose inputs are in [before] *)
Definition step_ready (by_id : gmap string node) (before : list string) (s : step) : Prop :=
  match s with
  | StepNode k => ∃ n, by_id !! k = Some n ∧ ∀ r, r ∈ input_refs n → r ∈ before
  | StepGroup g =>
      check_group g = Ok tt ∧
      (∀ m, m ∈ members g → ∃ n, by_id !! m = Some n ∧ is_formula_node n = true ∧
         ∀ r, r ∈ input_refs n → r ∈ before ∨ r ∈ members g) ∧
      (∀ m s, (m, s) ∈ seeds g → s ∈ before ∧ ∃ n sn, by_id !! m = Some n ∧ by_id !! s = Some sn ∧
         unit_of sn = unit_of n)
  end.

Record graph_ok (g : model_graph) : Prop := GraphOk {
  go_nodes : nodes_ok (by_id g);
  go_units : ∀ k n, by_id g !! k = Some n → unit_ok (unit_of n) = true;
  go_closed : ∀ k n r, by_id g !! k = Some n → r ∈ input_refs n → is_Some (by_id g !! r);
  go_order : order g ≡ₚ keys (by_id g);
  go_flat : concat (step_members <$> execution_plan g) = order g;
  go_plan : ∀ pre s post, execution_plan g = pre ++ s :: post →
    step_ready (by_id g) (concat (step_members <$> pre)) s;
  go_types : check_types (by_id g) (order g) = Ok tt;
  go_defs : ∀ k n, by_id g !! k = Some n → ∃ d, node_definition n = Ok d ∧ definitions g !! k = Some d
}.

Lemma concat_step_nodes l : concat (step_members <$> (StepNode <$> l)) = l.
Proof. induction l as [|x l IH]; [done|]. cbn. by rewrite IH. Qed.

(** the outcomes of [build] without iteration groups *)
Definition build_result (node_list : list node) (r : calc model_graph) : Prop :=
  match r with
  | Ok g =>
      graph_ok g ∧ nodes g ≡ₚ node_list ∧ id_of <$> nodes g = sorted_strings (id_of <$> node_list) ∧
      edges g = concat (node_edges <$> nodes g) ∧ g_dependencies g = input_refs <$> by_id g ∧
      transposed (g_dependencies g) (g_dependents g) ∧ greedy_order (g_dependencies g) [] (order g)
  | Err (GraphError) => ¬ NoDup (id_of <$> node_list)
  | Err (MissingInputError r) => r ∉ id_of <$> node_list ∧ ∃ n, n ∈ node_list ∧ r ∈ input_refs n
  | Err (CycleError c) =>
      ∃ by_id : gmap string node, (∀ k n, by_id !! k = Some n ↔ n ∈ node_list ∧ id_of n = k) ∧
        is_cycle (input_refs <$> by_id) c
  | Err e => type_error e ∨ e = CanonicalizationError
  end.

Lemma definitions_spec by_id sn defs :
  (∀ n, n ∈ sn ↔ by_id !! id_of n = Some n) → NoDup (id_of <$> sn) → nodes_ok by_id →
  mapM (λ n, d ← node_definition n; mret (id_of n, d)) sn = Ok defs →
  ∀ k n, by_id !! k = Some n → ∃ d, node_definition n = Ok d ∧ (list_to_map defs : gmap string string) !! k = Some d.
Proof.
  intros Hsn Hnd Hok Hdefs k n Hk. apply mapM_Ok in Hdefs. destruct (Hok _ _ Hk) as [Hid _].
  assert (Hf : Forall2 (λ n kd, fst kd = id_of n ∧ node_definition n = Ok (snd kd)) sn defs).
  { eapply Forall2_impl; [exact Hdefs|]. intros m kd (d & Hd & [= <-])%bind_Ok. done. }
  assert (Hfst : defs.*1 = id_of <$> sn).
  { clear -Hf. induction Hf as [|m kd sn defs [Hm _] Hf IH]; [done|]. cbn. by rewrite IH, Hm. }
  assert (n ∈ sn) as Hin by (apply Hsn; by rewrite Hid).
  apply list_elem_of_lookup in Hin as [i Hi].
  destruct (Forall2_lookup_l _ _ _ _ _ Hf Hi) as ([k' d] & Hkd & Hk' & Hd). cbn in *.
  exists d. split; [done|]. apply elem_of_list_to_map; [by rewrite Hfst|].
  apply list_elem_of_lookup_2 in Hkd. by rewrite <- Hid, <- Hk'.
Qed.

(** what the first half of [build] establishes *)
Record structure_ok (node_list : list node) (by_id : gmap string node) (sn : list node) (dependents : adjacency) : Prop := StructureOk {
  so_by_id : ∀ k n, by_id !! k = Some n ↔ n ∈ node_list ∧ id_of n = k;
  so_nodes : nodes_ok by_id;
  so_ids : id_of <$> sn = sorted_strings (keys by_id);
  so_sorted : ∀ n, n ∈ sn ↔ by_id !! id_of n = Some n;
  so_perm : sn ≡ₚ node_list;
  so_closed : ∀ k n r, by_id !! k = Some n → r ∈ input_refs n → is_Some (by_id !! r);
  so_transposed : transposed (input_refs <$> by_id) dependents;
  so_units : ∀ k n, by_id !! k = Some n → unit_ok (unit_of n) = true
}.

Lemma build_structure node_list groups :
  Forall node_ok node_list →
  (∃ by_id sn dependents, structure_ok node_list by_id sn dependents ∧
     build node_list groups =
       plan_graph by_id sn (concat (node_edges <$> sn)) (input_refs <$> by_id) dependents (py_sorted group_le groups)) ∨
  (build node_list groups = Err GraphError ∧ ¬ NoDup (id_of <$> node_list)) ∨
  (∃ r, build node_list groups = Err (MissingInputError r) ∧ r ∉ id_of <$> node_list ∧
     ∃ n, n ∈ node_list ∧ r ∈ input_refs n).
Proof.
  intros Hnodes. assert (Forall (λ n, check_node n = Ok tt) node_list) as Hvalid
    by (eapply Forall_impl; [exact Hnodes|]; by intros n (? & _)).
  unfold build. destruct (foldM add_node ∅ node_list) as [by_id|e] eqn:Hadd.
  2: { apply add_nodes_Err in Hadd as [-> Hn]. right; left. split; [done|]. intros Hnd. apply Hn. split; [done|].
       intros n _. apply lookup_empty. }
  rewrite bind_ok. apply add_nodes_Ok in Hadd as (Hnd & _ & Hby).
  assert (Hby' : ∀ k n, by_id !! k = Some n ↔ n ∈ node_list ∧ id_of n = k).
  { intros k n. rewrite Hby, lookup_empty. naive_solver. }
  assert (Hok : nodes_ok by_id).
  { intros k n [Hn Hk]%Hby'. split; [done|]. by eapply Forall_forall in Hvalid. }
  destruct (sorted_nodes_spec by_id Hok) as (sn & Hm & Hids & Hsn). rewrite Hm, bind_ok.
  pose proof (add_edges_spec by_id sn [] ∅ ((λ _, []) <$> by_id) (sn_valid _ _ Hok Hsn)) as He.
  assert (Hdom : ∀ r, is_Some (by_id !! r) → is_Some (((λ _ : node, [] : list string) <$> by_id) !! r))
    by (intros r; by rewrite lookup_fmap, fmap_is_Some).
  specialize (He Hdom). destruct (foldM (add_node_edges by_id) _ sn) as [[[es deps] dependents]|e].
  2: { destruct He as (r & n & -> & Hn%Hsn & Hr & Hnone). right; right. exists r. apply Hby' in Hn as [Hn _].
       split_and!; [done| |by exists n]. intros (n' & -> & Hn')%list_elem_of_fmap.
       assert (by_id !! id_of n' = Some n') as Hs by (by apply Hby'). congruence. }
  destruct He as (Hclosed & -> & Hdeps & Hdependents). rewrite bind_ok.
  rewrite (dependencies_eq by_id sn Hok Hids Hsn) in Hdeps. subst deps.
  left. exists by_id, sn, dependents. split; [|done]. pose proof (sn_nodup by_id sn Hids) as Hsnd. constructor; try done.
  - apply NoDup_Permutation; [by eapply NoDup_fmap_1|by eapply NoDup_fmap_1|]. intros n. rewrite Hsn, Hby'. naive_solver.
  - intros k n r Hk Hr. apply (Hclosed n); [|done]. apply Hsn. by destruct (Hok _ _ Hk) as [-> _].
  - by apply (dependents_transposed by_id sn Hok Hids Hsn dependents Hclosed).
  - intros k n [Hn _]%Hby'. by eapply Forall_forall in Hnodes as (_ & ? & _).
Qed.

(** a graph over checked nodes, given its plan *)
Lemma planned_graph_ok node_list by_id sn dependents es deps dependents' defs groups plan order :
  structure_ok node_list by_id sn dependents →
  order ≡ₚ keys by_id → concat (step_members <$> plan) = order →
  (∀ pre s post, plan = pre ++ s :: post → step_ready by_id (concat (step_members <$> pre)) s) →
  check_types by_id order = Ok tt →
  mapM (λ n, d ← node_definition n; mret (id_of n, d)) sn = Ok defs →
  graph_ok (ModelGraph sn es order by_id deps dependents' (list_to_map defs) groups plan).
Proof.
  intros [Hby Hok Hids Hsn Hperm Hcl Htr Hu] Hord Hflat Hplan Htypes Hdefs. constructor; cbn; try done.
  apply (definitions_spec by_id sn); [done|by apply (sn_nodup by_id)|done|done].
Qed.

(** Running an order one node at a time, each node is ready in its turn. *)
Lemma greedy_plan_ready by_id order :
  greedy_order (input_refs <$> by_id) [] order →
  ∀ pre s post, StepNode <$> order = pre ++ s :: post → step_ready by_id (concat (step_members <$> pre)) s.
Proof.
  intros Hg pre s post Hplan. apply fmap_app_inv in Hplan as (l1 & l2 & -> & Heq & ->).
  symmetry in Heq. apply fmap_cons_inv in Heq as (k & l3 & -> & -> & ->).
  rewrite concat_step_nodes. apply greedy_order_split in Hg as (_ & dx & Hdx & Hall).
  rewrite lookup_fmap in Hdx. destruct (by_id !! k) as [n|] eqn:Hn; [|done]. injection Hdx as <-. by exists n.
Qed.

Lemma keys_inputs (by_id : gmap string node) : keys (input_refs <$> by_id) ≡ₚ keys by_id.
Proof. apply NoDup_Permutation; [apply NoDup_keys..|]. intros k. by rewrite !elem_of_keys, lookup_fmap, fmap_is_Some. Qed.

Lemma build_spec node_list :
  Forall node_ok node_list → build_result node_list (build node_list []).
Proof.
  intros Hnodes. destruct (build_structure node_list [] Hnodes) as [(by_id & sn & dependents & Hs & ->)|[[-> Hg]|(r & -> & Hr)]];
    [|done|done]. pose proof Hs as [Hby Hok Hids Hsn Hperm' Hcl Htr Hu]. unfold plan_graph.
  cbn [py_sorted]. rewrite <- (map_size_fmap input_refs by_id) at 1.
  destruct (topological_order_spec _ _ Htr) as [(order & -> & Hgreedy & Hperm)|(c & -> & Hc)];
    [|cbn; by exists by_id].
  rewrite !bind_ok. unfold mret, result_ret. rewrite bind_ok.
  rewrite keys_inputs in Hperm.
  destruct (check_types by_id order) as [[]|e] eqn:Htypes.
  2: { unfold check_types in Htypes. apply for_each_Err in Htypes as (k & Hk & He).
       rewrite Hperm in Hk. apply elem_of_keys in Hk as [n Hk].
       assert (type_error e) as Ht by (eapply check_node_types_err; eauto). by destruct Ht as [-> | [-> | ->]]; cbn; left; unfold type_error; auto. }
  rewrite bind_ok. destruct (mapM _ sn) as [defs|e] eqn:Hdefs.
  2: { apply mapM_Err in Hdefs as (n & Hn & [He|(? & _ & He)]%bind_Err); [|done].
       apply node_definition_err in He as ->; [by right|]. by eapply Forall_forall in Hn; [|exact (sn_valid _ _ Hok Hsn)]. }
  rewrite bind_ok. cbn. split_and!; try done.
  - eapply planned_graph_ok; try done; [apply concat_step_nodes|by apply greedy_plan_ready].
  - rewrite Hids. apply sorted_strings_unique. rewrite <- Hperm', Hids. by rewrite sorted_strings_perm.
Qed.

(** * Properties *)

(** Building a graph is correct and fails only for its documented reasons.  On
    checked nodes without iteration groups, a built graph holds exactly the
    given nodes, sorted by id; its edges, dependencies and dependents are those
    the nodes' inputs declare; its order is the greedy topological order, so
    every node runs after its inputs; every node passed its type check and has
    its canonical definition.  A duplicate id, a dangling reference (named), a
    cycle (exhibited), an incompatible unit, period or override target, and an
    unencodable number are the only failures. *)
Theorem build_correct node_list :
  Forall node_ok node_list → build_result node_list (build node_list []).
Proof. apply build_spec. Qed.

Definition sample_usd : unit_ := Unit CURRENCY (Some "USD"%string) None.
Definition sample_base (id : string) : base := Base id "sample" sample_usd (FiscalYear 2024).
Definition sample_time : datetime := Datetime (Date 2024 3 1) 0 true.

Definition sample_nodes : list node :=
  [FormulaNode (sample_base "profit") SUB ["revenue"; "cost"] "v1";
   SourceFactNode (sample_base "revenue") (dec_of_Z 1000) sample_time "span-1" None;
   AnalystAssumptionNode (sample_base "cost") (Dec false 333335 (-3)) sample_time "assume-1";
   ReportedFinancialOutputNode (sample_base "reported") "profit" "net" None;
   ValidationCheckNode (sample_base "sign") NON_NEGATIVE ["profit"] None].

Theorem build_correct_witness :
  ∃ g, build sample_nodes [] = Ok g ∧ order g = ["cost"; "revenue"; "profit"; "reported"; "sign"]%string ∧ graph_ok g.
Proof.
  pose proof (build_correct sample_nodes) as H.
  assert (Forall node_ok sample_nodes) as Hf by (repeat constructor).
  specialize (H Hf).
  assert ((order <$> build sample_nodes []) = Ok ["cost"; "revenue"; "profit"; "reported"; "sign"]%string) as Ho
    by (vm_compute; reflexivity).
  destruct (build sample_nodes []) as [g|e]; [|discriminate Ho].
  exists g. split; [reflexivity|]. split; [by injection Ho|exact (proj1 H)].
Defined.

(** The graph does not depend on the order in which its nodes are given,
    whatever the iteration groups, and neither does a failure. *)
Theorem build_order_independent nodes1 nodes2 groups :
  nodes1 ≡ₚ nodes2 → build nodes1 groups = build nodes2 groups.
Proof. intros Hp. unfold build. by rewrite (add_nodes_perm nodes1 nodes2 ∅ Hp). Qed.

Theorem build_order_independent_witness :
  build sample_nodes [] = build (reverse sample_nodes) [].
Proof. apply (build_order_independent sample_nodes (reverse sample_nodes) []). by rewrite reverse_Permutation. Defined.
