(* ===== verification/Plan.v ===== *)
(** Execution plans with iteration groups: the components of a graph partition it and
    are strongly connected, in a plan that was built every step runs after what it
    reads, and the groups it runs are the cycles of the graph. *)

From S2P Require Import Prelude Decimals Errors Periods Units Values Formulas Canonical Nodes Iteration Graph.
Local Open Scope Z_scope.

(** * The components partition the graph *)

Lemma finish_loop_spec fuel deps stack (visited finished visited' finished' : list string) :
  (∀ x, x ∈ visited → x ∈ finished ∨ x ∈ stack.*1) →
  finish_loop fuel deps stack visited finished = Ok (visited', finished') →
  (∀ x, x ∈ visited → x ∈ visited') ∧ (∀ x, x ∈ visited' → x ∈ finished') ∧ (∀ x, x ∈ finished → x ∈ finished').
Proof.
  revert stack visited finished. induction fuel as [|fuel IH]; intros stack visited finished Hinv H.
  { destruct stack as [|[]]; [|done]. injection H as <- <-. split_and!; [done| |done].
    intros x Hx. destruct (Hinv x Hx) as [|Hn]; [done|by apply elem_of_nil in Hn]. }
  destruct stack as [|[id cursor] below]; cbn [finish_loop] in H.
  { injection H as <- <-. split_and!; [done| |done]. intros x Hx.
    destruct (Hinv x Hx) as [|Hn]; [done|by apply elem_of_nil in Hn]. }
  cbn [fmap list_fmap fst] in Hinv. apply bind_Ok in H as (ds & _ & H). destruct (ds !! cursor) as [dep|].
  - case_decide as Hd.
    + apply IH in H; [done|]. exact Hinv.
    + apply IH in H as (H1 & H2 & H3); [|cbn; set_solver]. split_and!; [|done|done]. intros x Hx. apply H1. by right.
  - apply IH in H as (H1 & H2 & H3); [|set_solver]. split_and!; [done|done|]. intros x Hx. apply H3. by right.
Qed.

Lemma finish_order_spec deps finished k :
  finish_order deps = Ok finished → is_Some (deps !! k) → k ∈ finished.
Proof.
  intros H Hk. unfold finish_order in H. apply bind_Ok in H as ([visited fin] & H & [= <-]). cbn [snd].
  assert (Hk' : k ∈ sorted_strings (keys deps)) by (by apply elem_of_sorted_strings, elem_of_keys).
  enough ((∀ x, x ∈ visited → x ∈ fin) ∧ (∀ x, x ∈ sorted_strings (keys deps) → x ∈ visited)) as [H1 H2] by auto.
  apply (foldM_inv _ (λ pre st, (∀ x, x ∈ st.1 → x ∈ st.2) ∧ ∀ x, x ∈ pre → x ∈ st.1)) in H; [done|set_solver|].
  intros pre x [vis f] [vis' f'] _ [Hsub Hpre] Hstep. cbn [fst snd] in *. case_decide as Hx.
  - injection Hstep as <- <-. split; [done|]. set_solver.
  - apply finish_loop_spec in Hstep as (Hv & Hf & _); [|set_solver]. split; [done|].
    intros y [Hy|Hy]%elem_of_app; apply Hv; [right; by apply Hpre|]. apply list_elem_of_singleton in Hy as ->. left.
Qed.

(** [for dependent in dependents[node_id]]: what is pushed, what was visited *)
Lemma push_unvisited (ds pending visited pending' visited' : list string) :
  foldl (λ st dependent, let '(pending, visited) := st in
           if decide (dependent ∈ visited) then st else (dependent :: pending, dependent :: visited))
    (pending, visited) ds = (pending', visited') →
  ∃ new : list string, pending' = new ++ pending ∧ visited' = new ++ visited ∧ NoDup new ∧ ∀ x, x ∈ new → x ∉ visited.
Proof.
  revert pending visited. induction ds as [|d ds IH]; intros pending visited H; cbn [foldl] in H.
  { injection H as <- <-. exists []. split_and!; [done|done|constructor|set_solver]. }
  case_decide as Hd.
  - by apply IH in H.
  - apply IH in H as (new & -> & -> & Hnd & Hnew). exists (new ++ [d]). rewrite <- !app_assoc. split_and!; [done|done| |].
    + apply NoDup_app. split_and!; [done| |apply NoDup_singleton].
      intros x Hx Hxd. apply list_elem_of_singleton in Hxd as ->. apply (Hnew d Hx). left.
    + intros x [Hx|Hx]%elem_of_app; [|apply list_elem_of_singleton in Hx as ->; done]. intros Hv. apply (Hnew x Hx). by right.
Qed.

(** a component takes the visited nodes that were not visited before it *)
Lemma collect_loop_spec fuel dependents (before pending visited members visited' members' : list string) :
  NoDup (members ++ pending) → (∀ x, x ∈ visited ↔ x ∈ before ∨ x ∈ members ++ pending) →
  (∀ x, x ∈ members ++ pending → x ∉ before) → (∀ x, x ∈ members → is_Some (dependents !! x)) →
  collect_loop fuel dependents pending visited members = Ok (visited', members') →
  NoDup members' ∧ (∀ x, x ∈ visited' ↔ x ∈ before ∨ x ∈ members') ∧ (∀ x, x ∈ members' → x ∉ before) ∧
  (∀ x, x ∈ members' → is_Some (dependents !! x)) ∧ (∀ x, x ∈ members ++ pending → x ∈ members').
Proof.
  revert pending visited members. induction fuel as [|fuel IH]; intros pending visited members Hnd Hv Hb Hd H.
  { destruct pending; [|done]. injection H as <- <-. rewrite app_nil_r in *. split_and!; done. }
  destruct pending as [|id pending]; cbn [collect_loop] in H.
  { injection H as <- <-. rewrite app_nil_r in *. split_and!; done. }
  apply bind_Ok in H as (ds & Hds & H). apply get_Ok in Hds.
  destruct (foldl _ _ ds) as [pending' vis'] eqn:Hpush. apply push_unvisited in Hpush as (new & -> & -> & Hnew & Hfresh).
  assert (Hperm : (members ++ [id]) ++ new ++ pending ≡ₚ new ++ members ++ id :: pending) by (by solve_Permutation).
  apply IH in H as (H1 & H2 & H3 & H4 & H5).
  - split_and!; try done. intros x Hx. apply H5. rewrite Hperm. apply elem_of_app. by right.
  - rewrite Hperm. apply NoDup_app. split_and!; [done| |done]. intros x Hx Hm. apply (Hfresh x Hx), Hv. by right.
  - intros x. rewrite Hperm, !elem_of_app, Hv, elem_of_app. tauto.
  - intros x. rewrite Hperm, elem_of_app. intros [Hx|Hx]; [|by apply Hb]. intros Hx'. apply (Hfresh x Hx), Hv. by left.
  - intros x [Hx|Hx]%elem_of_app; [by apply Hd|]. apply list_elem_of_singleton in Hx as ->. by eexists.
Qed.

(** the components found so far, with what they cover *)
Definition partial_partition (dependents : adjacency) (st : list string * list (list string)) : Prop :=
  (∀ x, x ∈ st.1 ↔ x ∈ concat st.2) ∧ NoDup (concat st.2) ∧ Forall (λ c, c ≠ [] ∧ ∀ x, x ∈ c → is_Some (dependents !! x)) st.2.

Lemma components_spec deps dependents comps :
  transposed deps dependents → components deps dependents = Ok comps →
  concat comps ≡ₚ keys deps ∧ Forall (λ c, c ≠ []) comps.
Proof.
  intros Htr H. unfold components in H. apply bind_Ok in H as (finished & Hfin & H).
  apply bind_Ok in H as ([visited found] & H & [= <-]). cbn [snd].
  apply (foldM_inv _ (λ pre st, partial_partition dependents st ∧ ∀ x, x ∈ pre → x ∈ st.1)) in H as [(Hv & Hnd & Hf) Hall].
  - cbn [fst snd] in *. split; [|eapply Forall_impl; [exact Hf|]; by intros c []].
    apply NoDup_Permutation; [done|apply NoDup_keys|]. intros x. rewrite elem_of_keys. split.
    + intros (c & Hx & Hc)%elem_of_concat. eapply Forall_forall in Hf as [_ Hf]; [|exact Hc]. by apply (tr_dom _ _ Htr), Hf.
    + intros Hx. apply Hv, Hall. by eapply finish_order_spec.
  - split; [|set_solver]. split_and!; [set_solver|constructor|constructor].
  - intros pre x [vis f] st' _ [(Hv & Hnd & Hf) Hpre] Hstep. cbn [fst snd] in *. case_decide as Hx.
    { injection Hstep as <-. split; [done|]. set_solver. }
    apply bind_Ok in Hstep as ([vis' ms] & Hc & [= <-]). cbn [fst snd].
    apply (collect_loop_spec _ _ vis) in Hc as (H1 & H2 & H3 & H4 & H5); [|by apply NoDup_singleton|set_solver..].
    assert (x ∈ ms) as Hstart by (apply H5; left).
    assert (Hin : ∀ y, y ∈ sorted_strings ms ↔ y ∈ ms) by (intros; apply elem_of_sorted_strings).
    unfold partial_partition. cbn [fst snd]. split; [split_and!|].
    + intros y. rewrite concat_app, elem_of_app, H2, Hv. cbn. rewrite app_nil_r, Hin. done.
    + rewrite concat_app. cbn. rewrite app_nil_r, sorted_strings_perm. apply NoDup_app. split_and!; [done| |done].
      intros y Hy%Hv Hy'. by apply (H3 y).
    + apply Forall_app. split; [done|]. constructor; [|constructor]. split; [|intros y Hy%Hin; auto].
      intros He. apply Hin in Hstart. rewrite He in Hstart. by apply elem_of_nil in Hstart.
    + intros y [Hy|Hy]%elem_of_app; apply H2; [left; by apply Hpre|]. apply list_elem_of_singleton in Hy as ->. by right.
Qed.

(** * The components are strongly connected *)

Section kosaraju.
Context (deps dependents : adjacency).

(** [a] reads [b] *)
Definition edge_to (a b : string) : Prop := ∃ ds, deps !! a = Some ds ∧ b ∈ ds.

(** a list of nodes, the last to finish first: when a node finishes, what it and
    the finished ones read is finished, or leads to it *)
Fixpoint finishes (l : list string) : Prop :=
  match l with
  | [] => True
  | y :: l => finishes l ∧ ∀ p z, p ∈ y :: l → edge_to p z → z ∈ l ∨ rtc edge_to z y
  end.

Lemma finishes_suffix l1 l2 : finishes (l1 ++ l2) → finishes l2.
Proof using Type. induction l1 as [|x l1 IH]; [done|]. intros [H _]. by apply IH. Qed.

(** the state of the first traversal: the visited nodes are on the stack or finished,
    each node of the stack leads to the ones above it, and what was read was visited *)
Record searching (stack : list (string * nat)) (visited finished : list string) : Prop := Searching {
  se_nodup : NoDup (stack.*1 ++ finished);
  se_visited : ∀ x, x ∈ visited ↔ x ∈ stack.*1 ++ finished;
  se_black : ∀ p z, p ∈ finished → edge_to p z → z ∈ visited;
  se_gray : ∀ v c ds i z, (v, c) ∈ stack → deps !! v = Some ds → (i < c)%nat → ds !! i = Some z → z ∈ visited;
  se_path : StronglySorted (λ above below : string, rtc edge_to below above) stack.*1;
  se_finishes : finishes finished
}.

Lemma searching_pop id cursor ds below visited finished :
  deps !! id = Some ds → ds !! cursor = None → searching ((id, cursor) :: below) visited finished → searching below visited (id :: finished).
Proof using Type.
  intros Hds Hend [Hnd Hv Hb Hg Hp Hf]. cbn [fmap list_fmap fst app] in *. apply lookup_ge_None in Hend.
  assert (∀ p z, p ∈ id :: finished → edge_to p z → z ∈ visited) as Hblack.
  { intros p z [->|Hp']%elem_of_cons; [|by apply Hb]. intros (ds' & Hds' & Hz). simplify_eq. apply list_elem_of_lookup in Hz as [i Hi].
    apply (Hg id cursor ds i z); [left|done| |done]. apply lookup_lt_Some in Hi. lia. }
  apply StronglySorted_inv in Hp as [Hp1 Hp2]. split; [|intros x|done| |done|split; [done|]].
  - by rewrite <- Permutation_middle.
  - by rewrite Hv, <- Permutation_middle.
  - intros v c ds' i z Hin. apply (Hg v c ds' i z). by right.
  - intros p z Hin Hz%(Hblack p z Hin). apply Hv, elem_of_cons in Hz as [->|[Hz|Hz]%elem_of_app]; [by right| |by left].
    right. rewrite Forall_forall in Hp2. by apply Hp2.
Qed.

Lemma searching_push id cursor ds dep below visited finished :
  deps !! id = Some ds → ds !! cursor = Some dep → dep ∉ visited → searching ((id, cursor) :: below) visited finished →
  searching ((dep, 0%nat) :: (id, S cursor) :: below) (dep :: visited) finished.
Proof using Type.
  intros Hds Hdep Hnew [Hnd Hv Hb Hg Hp Hf]. cbn [fmap list_fmap fst app] in *. split; cbn [fmap list_fmap fst app]; [|intros x| | | |done].
  - constructor; [|done]. intros Hin. apply Hnew. by apply Hv.
  - rewrite !elem_of_cons, Hv, elem_of_cons. tauto.
  - intros p z Hin Hz. right. by apply (Hb p z).
  - intros v c ds' i z [[= -> ->]|[[= -> ->]|Hin]%elem_of_cons]%elem_of_cons Hds' Hi Hz; [lia| |right; by apply (Hg v c ds' i z); [right|..]].
    simplify_eq. destruct (decide (i = cursor)) as [->|]; [simplify_eq; left|]. right. eapply (Hg id cursor _ i z); [left|eassumption|lia|done].
  - constructor; [done|]. assert (edge_to id dep) as He by (exists ds; split; [done|by eapply list_elem_of_lookup_2]).
    apply StronglySorted_inv in Hp as [_ Hp2]. constructor; [by apply rtc_once|]. eapply Forall_impl; [exact Hp2|]. intros x Hx. cbn in Hx. by eapply rtc_r.
Qed.

Lemma searching_skip id cursor ds dep below visited finished :
  deps !! id = Some ds → ds !! cursor = Some dep → dep ∈ visited → searching ((id, cursor) :: below) visited finished →
  searching ((id, S cursor) :: below) visited finished.
Proof using Type.
  intros Hds Hdep Hold [Hnd Hv Hb Hg Hp Hf]. split; [done..| |done|done].
  intros v c ds' i z [[= -> ->]|Hin]%elem_of_cons Hds' Hi Hz; [|by apply (Hg v c ds' i z); [right|..]].
  simplify_eq. destruct (decide (i = cursor)) as [->|]; [by simplify_eq|]. eapply (Hg id cursor _ i z); [left|eassumption|lia|done].
Qed.

Lemma finish_loop_searching fuel stack visited finished visited' finished' :
  searching stack visited finished → finish_loop fuel deps stack visited finished = Ok (visited', finished') → searching [] visited' finished'.
Proof using Type.
  revert stack visited finished. induction fuel as [|fuel IH]; intros stack visited finished Hs H.
  { destruct stack as [|[]]; [|done]. by injection H as <- <-. }
  destruct stack as [|[id cursor] below]; cbn [finish_loop] in H; [by injection H as <- <-|].
  apply bind_Ok in H as (ds & Hds%get_Ok & H). destruct (ds !! cursor) as [dep|] eqn:Hdep; [case_decide|]; (eapply IH; [|exact H]).
  - by eapply searching_skip.
  - by eapply searching_push.
  - by eapply searching_pop.
Qed.

Lemma finish_order_finishes finished : finish_order deps = Ok finished → NoDup finished ∧ finishes finished.
Proof using Type.
  intros H. unfold finish_order in H. apply bind_Ok in H as ([visited fin] & H & [= <-]). cbn [snd].
  enough (searching [] visited fin) as [Hnd _ _ _ _ Hf] by done.
  apply (foldM_inv _ (λ _ st, searching [] st.1 st.2)) in H; [done| |].
  - split; try done; [constructor|intros p z Hp; by apply elem_of_nil in Hp|intros v c ds i z Hp; by apply elem_of_nil in Hp|constructor].
  - intros pre x [vis f] [vis' f'] _ [Hnd Hv Hb Hg Hp Hf] Hstep. cbn [fst snd fmap list_fmap app] in *. case_decide as Hx; [by injection Hstep as <- <-|].
    eapply finish_loop_searching; [|exact Hstep]. split; cbn [fmap list_fmap fst app]; [|intros y| | | |done].
    + constructor; [|done]. intros Hin. apply Hx. by apply Hv.
    + by rewrite !elem_of_cons, Hv.
    + intros p z Hin Hz. right. by apply (Hb p z).
    + intros v c ds i z [= -> ->]%list_elem_of_singleton. lia.
    + constructor; constructor.
Qed.

(** ** A root leads to what leads to it *)

Section root.
Context (s : string) (l : list string).
Hypothesis Hfin : finishes (s :: l).
Hypothesis Hnd : NoDup (s :: l).

(** reading among the nodes that did not finish after [s] *)
Definition within (a b : string) : Prop := edge_to a b ∧ a ∈ s :: l.

(** a path out of the nodes finished by [y] meets one that leads to [y] *)
Lemma path_leaves y l2 n p : finishes (y :: l2) → s ∉ y :: l2 → p ∈ y :: l2 → nsteps within n p s →
  ∃ m z, (m < n)%nat ∧ nsteps within m z s ∧ rtc edge_to z y.
Proof using Type.
  intros [_ Hy] Hs. revert p. induction n as [|n IH]; intros p Hp Hn; inversion Hn as [|? ? z ? [He _] Hrest]; subst; [done|].
  destruct (Hy p z Hp He) as [Hz|Hz]; [|exists n, z; split; [lia|done]].
  destruct (IH z (list_elem_of_further _ _ _ Hz) Hrest) as (m & z' & ? & ? & ?). exists m, z'. split; [lia|done].
Qed.

Lemma root_leads y : rtc within y s → rtc edge_to s y.
Proof using All.
  intros [n Hn]%rtc_nsteps. revert y Hn. induction (lt_wf n) as [n _ IH]. intros y Hn.
  destruct (decide (y = s)) as [->|Hne]; [done|]. assert (y ∈ l) as Hyl.
  { destruct n as [|n]; inversion Hn as [|? ? z ? [_ Hin] _]; subst; [done|]. by apply elem_of_cons in Hin as [->|]. }
  apply list_elem_of_split in Hyl as (l1 & l2 & Hl).
  assert (finishes (y :: l2)) as Hfy by (apply (finishes_suffix (s :: l1)); cbn [app]; by rewrite <- Hl).
  assert (s ∉ y :: l2) as Hs.
  { intros Hs. apply NoDup_cons in Hnd as [Hs' _]. apply Hs'. rewrite Hl. apply elem_of_app. by right. }
  destruct (path_leaves y l2 n y Hfy Hs (list_elem_of_here _ _) Hn) as (m & z & Hm & Hz & Hzy).
  transitivity z; [by eapply IH|done].
Qed.
End root.

(** ** The second traversal *)

Lemma pushed (ds pending visited pending' visited' : list string) :
  foldl (λ st dependent, let '(pending, visited) := st in
           if decide (dependent ∈ visited) then st else (dependent :: pending, dependent :: visited))
    (pending, visited) ds = (pending', visited') →
  (∀ x, x ∈ visited → x ∈ visited') ∧ ∀ x, x ∈ pending' → x ∈ pending ∨ x ∈ ds ∧ x ∉ visited.
Proof using Type.
  revert pending visited. induction ds as [|d ds IH]; intros pending visited H; cbn [foldl] in H; [injection H as <- <-; auto|].
  case_decide as Hd; apply IH in H as [H1 H2].
  - split; [done|]. intros x Hx. destruct (H2 x Hx) as [Hp|[Hp Hn]]; [by left|]. right. split; [by right|done].
  - split; [intros x Hx; apply H1; by right|]. intros x Hx. destruct (H2 x Hx) as [Hp|[Hp Hn]].
    + apply elem_of_cons in Hp as [->|Hp]; [right; split; [left|done]|by left].
    + right. split; [by right|]. intros Hv. apply Hn. by right.
Qed.

Lemma collect_within s l fuel (before pending visited members visited' members' : list string) : transposed deps dependents →
  (∀ y, is_Some (deps !! y) → y ∉ before → y ∈ s :: l) → (∀ x, x ∈ before → x ∈ visited) → (∀ x, x ∈ members ++ pending → rtc (within s l) x s) →
  collect_loop fuel dependents pending visited members = Ok (visited', members') → ∀ x, x ∈ members' → rtc (within s l) x s.
Proof using Type.
  intros Htr Hl. revert pending visited members. induction fuel as [|fuel IH]; intros pending visited members Hv Hin H.
  { destruct pending; [|done]. injection H as <- <-. by rewrite app_nil_r in Hin. }
  destruct pending as [|id pending]; cbn [collect_loop] in H; [injection H as <- <-; by rewrite app_nil_r in Hin|].
  apply bind_Ok in H as (ds & Hds%get_Ok & H). destruct (foldl _ _ ds) as [pending' vis'] eqn:Hpush. apply pushed in Hpush as [Hgrow Hnew].
  eapply IH; [| |exact H]; [by auto|]. intros x [[Hx| ->%list_elem_of_singleton]%elem_of_app|Hx]%elem_of_app; [apply Hin; set_solver|apply Hin; set_solver|].
  destruct (Hnew x Hx) as [Hp|[Hxd Hxv]]; [apply Hin; set_solver|].
  destruct (tr_closed' _ _ Htr id ds x Hds Hxd) as [dx Hdx]. eapply rtc_l; [|apply (Hin id); set_solver]. split.
  - exists dx. split; [done|]. by apply (tr_iff _ _ Htr x dx id ds).
  - apply Hl; [by eexists|]. auto.
Qed.

(** every member of a component leads to every other *)
Lemma components_strong comps : transposed deps dependents → components deps dependents = Ok comps →
  ∀ c a b, c ∈ comps → a ∈ c → b ∈ c → rtc edge_to a b.
Proof using Type.
  intros Htr H. unfold components in H. apply bind_Ok in H as (finished & Hfin & H). apply bind_Ok in H as ([visited found] & H & [= <-]). cbn [snd].
  pose proof (finish_order_finishes _ Hfin) as [Hnd Hf].
  apply (foldM_inv _ (λ pre st, (∀ x, x ∈ pre → x ∈ st.1) ∧ ∀ c a b, c ∈ st.2 → a ∈ c → b ∈ c → rtc edge_to a b)) in H; [by destruct H|split; [set_solver|]; intros c a b Hc; by apply elem_of_nil in Hc|].
  intros pre x [vis fnd] st' [suf Hsuf] [Hpre Hstrong] Hstep. cbn [fst snd] in *. case_decide as Hx.
  { injection Hstep as <-. split; [set_solver|done]. }
  apply bind_Ok in Hstep as ([vis' ms] & Hc & [= <-]). cbn [fst snd].
  assert (finished = pre ++ x :: suf) as Hsplit by by rewrite Hsuf, <- app_assoc. rewrite Hsplit in Hf, Hnd. apply finishes_suffix in Hf. apply NoDup_app in Hnd as (_ & _ & Hnd).
  assert (∀ y, y ∈ ms → rtc (within x suf) y x) as Hms.
  { eapply (collect_within x suf _ vis); [done| | | |exact Hc]; [|set_solver|intros y ->%list_elem_of_singleton; done].
    intros y Hy Hyv. pose proof (finish_order_spec _ _ y Hfin Hy) as Hyf. rewrite Hsplit in Hyf. apply elem_of_app in Hyf as [Hyp|]; [by destruct Hyv; apply Hpre|done]. }
  split.
  - apply (collect_loop_spec _ _ vis) in Hc as (_ & H2 & _ & _ & H5); [|by apply NoDup_singleton|set_solver..].
    intros y [Hy| ->%list_elem_of_singleton]%elem_of_app; apply H2; [left; by apply Hpre|right; apply H5; left].
  - intros c a b [Hcf| ->%list_elem_of_singleton]%elem_of_app; [by apply Hstrong|]. intros Ha Hb. rewrite elem_of_sorted_strings in Ha, Hb.
    transitivity x; [|by apply (root_leads x suf Hf Hnd), Hms]. pose proof (Hms a Ha) as Hr. clear -Hr. induction Hr as [|? ? ? [He _] _ IH]; [done|by eapply rtc_l].
Qed.
End kosaraju.

(** * Reading the plan's inputs *)

Lemma filterM_Ok {A} (f : A → calc bool) l r :
  filterM f l = Ok r → (∀ x, x ∈ r → x ∈ l ∧ f x = Ok true) ∧ (∀ x, x ∈ l → x ∈ r ∨ f x = Ok false).
Proof.
  revert r. induction l as [|x l IH]; intros r H; cbn [filterM] in H.
  { ok_inv. split; [set_solver|]. intros x Hx. by apply elem_of_nil in Hx. }
  apply bind_Ok in H as (b & Hb & H). apply bind_Ok in H as (r' & Hr & H). destruct (IH r' Hr) as [H1 H2].
  destruct b; ok_inv; split.
  - intros y [->|Hy]%elem_of_cons; [split; [left|done]|]. destruct (H1 y Hy). split; [by right|done].
  - intros y [->|Hy]%elem_of_cons; [left; left|]. destruct (H2 y Hy); [left; by right|by right].
  - intros y Hy. destruct (H1 y Hy). split; [by right|done].
  - intros y [->|Hy]%elem_of_cons; [by right|auto].
Qed.

Lemma check_seed_Ok by_id g m s :
  check_seed by_id g (m, s) = Ok tt →
  ∃ n sn, by_id !! m = Some n ∧ is_formula_node n = true ∧ by_id !! s = Some sn ∧ s ∉ members g ∧ unit_of sn = unit_of n.
Proof.
  unfold check_seed. intros H. ok_inv. btrue. apply get_Ok in Hv. do 2 eexists. split_and!; try done.
  unfold require_unit in *. ok_inv. by btrue.
Qed.

(** the declared groups: each a cyclic component, its seeds checked *)
Definition group_declared (by_id : gmap string node) (cyclic : list (list string)) (groups : list iteration_group)
    (c : list string) (g : iteration_group) : Prop :=
  members g = c ∧ c ∈ cyclic ∧ g ∈ groups ∧ Forall (λ ms, check_seed by_id g ms = Ok tt) (seeds g).

Lemma declare_groups_spec by_id cyclic groups ids declared :
  foldM (declare_group by_id cyclic) ([], ∅) groups = Ok (ids, declared) →
  ∀ c g, declared !! c = Some g → group_declared by_id cyclic groups c g.
Proof.
  intros H. refine (foldM_inv _ (λ pre st, ∀ c g, st.2 !! c = Some g → group_declared by_id cyclic groups c g) _ _ (ids, declared) _ _ H).
  - intros c g. cbn. by rewrite lookup_empty.
  - intros pre x [is_ d] [is' d'] Hpre IH Hstep c g Hc. cbn [fst snd declare_group] in *. ok_inv. btrue. simplify_eq.
    apply lookup_insert_Some in Hc as [[<- <-]|[_ Hc]]; [|by apply IH].
    split_and!; [done|done| |done]. eapply elem_of_prefix; [|exact Hpre]. apply elem_of_app. right. left.
Qed.

Section partition.
Context (comps : list (list string)) (heads : list string).
Hypothesis Hnd : NoDup (concat comps).
Hypothesis Hheads : Forall2 (λ c h, head c = Some h) comps heads.

Definition owners_map : gmap string string := list_to_map (concat (zip_with (λ c h, map (λ m, (m, h)) c) comps heads)).

Lemma owner_spec m h : owners_map !! m = Some h ↔ ∃ c, c ∈ comps ∧ head c = Some h ∧ m ∈ c.
Proof.
  unfold owners_map.
  assert (Hfst : (concat (zip_with (λ c h, map (λ m, (m, h)) c) comps heads)).*1 = concat comps).
  { clear Hnd. induction Hheads as [|c h2 cs hs Hc Hf IH]; [done|]. cbn. rewrite fmap_app, (IH Hf). f_equal.
    clear. induction c as [|x c IH]; [done|]. cbn. by f_equal. }
  rewrite <- elem_of_list_to_map by (by rewrite Hfst). rewrite elem_of_concat. split.
  - intros (l & Hm & Hl). apply elem_of_lookup_zip_with in Hl as (i & c & h' & -> & Hc & Hh).
    apply list_elem_of_fmap in Hm as (m' & [= -> ->] & Hm). exists c. split_and!; [by eapply list_elem_of_lookup_2| |done].
    destruct (Forall2_lookup_l _ _ _ _ _ Hheads Hc) as (h2 & Hh' & ?). by simplify_eq.
  - intros (c & Hc & Hh & Hm). apply list_elem_of_lookup in Hc as [i Hi].
    destruct (Forall2_lookup_l _ _ _ _ _ Hheads Hi) as (h' & Hh' & ?). simplify_eq. exists (map (λ m, (m, h)) c). split.
    + by apply (list_elem_of_fmap_2 (λ m, (m, h))).
    + apply elem_of_lookup_zip_with. by exists i, c, h.
Qed.

Lemma head_in (c : list string) h : head c = Some h → h ∈ c.
Proof. destruct c; [done|]. intros [= ->]. left. Qed.

Lemma same_component c c' m : c ∈ comps → c' ∈ comps → m ∈ c → m ∈ c' → c = c'.
Proof.
  clear Hheads. induction comps as [|a cs IH]; intros Hc Hc' Hm Hm'; [by apply elem_of_nil in Hc|].
  cbn in Hnd. apply NoDup_app in Hnd as (_ & Hdis & Hnd').
  apply elem_of_cons in Hc as [->|Hc], Hc' as [->|Hc']; [done| | |by apply IH].
  - destruct (Hdis m Hm). apply elem_of_concat. by exists c'.
  - destruct (Hdis m Hm'). apply elem_of_concat. by exists c.
Qed.

Lemma heads_NoDup : NoDup heads.
Proof.
  induction Hheads as [|c h cs hs Hc Hf IH]; [constructor|]. cbn in Hnd. apply NoDup_app in Hnd as (_ & Hdis & Hnd').
  constructor; [|by apply IH]. intros Hin. apply list_elem_of_lookup in Hin as [i Hi].
  destruct (Forall2_lookup_r _ _ _ _ _ Hf Hi) as (c' & Hc' & Hh). apply (Hdis h (head_in _ _ Hc)).
  apply elem_of_concat. exists c'. split; [by apply head_in|by eapply list_elem_of_lookup_2].
Qed.

Lemma head_of c : c ∈ comps → ∃ h, head c = Some h ∧ h ∈ heads.
Proof.
  intros Hc. apply list_elem_of_lookup in Hc as [i Hi]. destruct (Forall2_lookup_l _ _ _ _ _ Hheads Hi) as (h & Hh & Hch).
  exists h. split; [done|by eapply list_elem_of_lookup_2].
Qed.

Lemma comp_of h : h ∈ heads → ∃ c, c ∈ comps ∧ head c = Some h.
Proof.
  intros Hh. apply list_elem_of_lookup in Hh as [i Hi]. destruct (Forall2_lookup_r _ _ _ _ _ Hheads Hi) as (c & Hc & Hch).
  exists c. split; [by eapply list_elem_of_lookup_2|done].
Qed.

(** * Prerequisites of each component *)

Lemma append_all_spec (key : string) parents (succs succs' : adjacency) :
  NoDup parents → foldM (λ s p, append_at s p key) succs parents = Ok succs' →
  ∀ y, succs' !! y = (λ l, if decide (y ∈ parents) then l ++ [key] else l) <$> succs !! y.
Proof.
  intros Hp. revert succs. induction Hp as [|p parents Hp Hnp IH]; intros succs H y; cbn [foldM] in H.
  { ok_inv. destruct (succs' !! y); [|done]. cbn. by rewrite decide_False by set_solver. }
  destruct (append_at succs p key) as [s1|] eqn:Hs1; [|done]. unfold append_at in Hs1. ok_inv. apply get_Ok in Hv.
  rewrite (IH _ H). destruct (decide (y = p)) as [->|Hne].
  - rewrite lookup_insert_eq, Hv. cbn. rewrite decide_False by done. by rewrite decide_True by left.
  - rewrite lookup_insert_ne by done. destruct (succs !! y); [|done]. cbn. f_equal.
    destruct (decide (y ∈ parents)), (decide (y ∈ p :: parents)) as [Hin|Hin]; try done; exfalso; set_solver.
Qed.

Section prerequisites.
Context (deps : adjacency) (declared : gmap (list string) iteration_group).

Definition planned_step (c : list string) (h : string) : step :=
  match declared !! c with Some g => StepGroup g | None => StepNode h end.

(** the prerequisites of a component: owners of what it reads and of its seeds *)
Record reads (c : list string) (h : string) (parents : list string) : Prop := Reads {
  rd_nodup : NoDup parents;
  rd_owner : ∀ p, p ∈ parents → p ∈ heads;
  rd_deps : ∀ m ds r, m ∈ c → deps !! m = Some ds → r ∈ ds → ∃ o, owners_map !! r = Some o ∧ (o = h ∨ o ∈ parents);
  rd_seeds : ∀ g ms, declared !! c = Some g → ms ∈ seeds g → ∃ o, owners_map !! snd ms = Some o ∧ o ∈ parents
}.

(** the state of the loop after the components [pre] *)
Record plan_inv (pre : list (list string)) (st : adjacency * adjacency * gmap string step) : Prop := PlanInv {
  pi_dom : ∀ h, is_Some (st.1.1 !! h) ↔ ∃ c, c ∈ pre ∧ head c = Some h;
  pi_reads : ∀ c h, c ∈ pre → head c = Some h → ∃ parents, st.1.1 !! h = Some parents ∧ reads c h parents;
  pi_succs : ∀ h, is_Some (st.1.2 !! h) ↔ h ∈ heads;
  pi_trans : ∀ x dx y dy, st.1.1 !! x = Some dx → st.1.2 !! y = Some dy → y ∈ dx ↔ x ∈ dy;
  pi_succ_nodup : ∀ y dy, st.1.2 !! y = Some dy → NoDup dy;
  pi_succ_in : ∀ y dy x, st.1.2 !! y = Some dy → x ∈ dy → is_Some (st.1.1 !! x);
  pi_steps : ∀ h s, st.2 !! h = Some s ↔ ∃ c, c ∈ pre ∧ head c = Some h ∧ s = planned_step c h
}.

Lemma plan_inv_init : plan_inv [] (∅, list_to_map (map (λ h, (h, [])) heads), ∅).
Proof.
  assert (Hl : ∀ y dy, (list_to_map (map (λ h : string, (h, [] : list string)) heads) : adjacency) !! y = Some dy → dy = []).
  { intros y dy H. apply elem_of_list_to_map_2, list_elem_of_fmap in H as (? & [= -> ->] & _). done. }
  constructor; cbn [fst snd].
  - intros h. rewrite lookup_empty. split; [by intros []|intros (c & Hc & _); by apply elem_of_nil in Hc].
  - intros c h Hc. by apply elem_of_nil in Hc.
  - intros h. rewrite list_to_map_is_Some. split; [intros (x & -> & Hx)%list_elem_of_fmap|].
    + apply list_elem_of_fmap in Hx as (? & -> & ?). done.
    + intros Hh. apply list_elem_of_fmap. exists (h, []). split; [done|]. by apply (list_elem_of_fmap_2 (λ h, (h, []))).
  - intros x dx y dy. by rewrite lookup_empty.
  - intros y dy ->%Hl. constructor.
  - intros y dy x ->%Hl Hx. by apply elem_of_nil in Hx.
  - intros h st. rewrite lookup_empty. split; [done|intros (c & Hc & _); by apply elem_of_nil in Hc].
Qed.

Lemma owners_in_heads r o : owners_map !! r = Some o → o ∈ heads.
Proof.
  intros (c & Hc & Hh & _)%owner_spec. destruct (head_of c Hc) as (h & Hh' & Hin). by simplify_eq.
Qed.

(** what one component reads *)
Lemma component_reads (c : list string) h refs owners seed_owners :
  head c = Some h → mapM (get deps) c = Ok refs → mapM (get owners_map) (concat refs) = Ok owners →
  (match declared !! c with Some g => mapM (λ s, get owners_map (snd s)) (seeds g) | None => mret [] end) = Ok seed_owners →
  reads c h (sorted_strings (dict_fromkeys (filter (λ o, o ≠ h) owners ++ seed_owners))).
Proof.
  intros Hh Hrefs Howners Hseeds. apply mapM_Ok in Hrefs, Howners.
  assert (Hin : ∀ o, o ∈ sorted_strings (dict_fromkeys (filter (λ o, o ≠ h) owners ++ seed_owners)) ↔
    (o ≠ h ∧ o ∈ owners) ∨ o ∈ seed_owners).
  { intros o. by rewrite elem_of_sorted_strings, elem_of_dict_fromkeys, elem_of_app, list_elem_of_filter. }
  assert (Hso : ∀ g, declared !! c = Some g → Forall2 (λ ms o, owners_map !! snd ms = Some o) (seeds g) seed_owners).
  { intros g Hg. rewrite Hg in Hseeds. apply mapM_Ok in Hseeds. eapply Forall2_impl; [exact Hseeds|]. intros ? ? ?%get_Ok. done. }
  constructor.
  - apply NoDup_sorted_strings, NoDup_dict_fromkeys.
  - intros p [[_ Hp]|Hp]%Hin.
    + apply list_elem_of_lookup in Hp as [i Hi]. destruct (Forall2_lookup_r _ _ _ _ _ Howners Hi) as (r & _ & Hr%get_Ok).
      by eapply owners_in_heads.
    + destruct (declared !! c) as [g|] eqn:Hg; [|ok_inv; by apply elem_of_nil in Hp].
      apply list_elem_of_lookup in Hp as [i Hi]. destruct (Forall2_lookup_r _ _ _ _ _ (Hso g eq_refl) Hi) as (r & _ & Hr).
      by eapply owners_in_heads.
  - intros m ds r Hm Hds Hr. apply list_elem_of_lookup in Hm as [i Hi].
    destruct (Forall2_lookup_l _ _ _ _ _ Hrefs Hi) as (ds' & Hds' & Hget%get_Ok). simplify_eq.
    assert (r ∈ concat refs) as Hrr by (apply elem_of_concat; exists ds; split; [done|by eapply list_elem_of_lookup_2]).
    apply list_elem_of_lookup in Hrr as [j Hj]. destruct (Forall2_lookup_l _ _ _ _ _ Howners Hj) as (o & Ho & Hown%get_Ok).
    exists o. split; [done|]. destruct (decide (o = h)) as [|Hne]; [by left|]. right. apply Hin. left. split; [done|].
    by eapply list_elem_of_lookup_2.
  - intros g ms Hg Hms. apply list_elem_of_lookup in Hms as [i Hi].
    destruct (Forall2_lookup_l _ _ _ _ _ (Hso g Hg) Hi) as (o & Ho & Hown). exists o. split; [done|].
    apply Hin. right. by eapply list_elem_of_lookup_2.
Qed.

Lemma plan_component_step pre c st st' :
  c ∈ comps → (∀ c', c' ∈ pre → c' ∈ comps) → (∀ c' h, c' ∈ pre → head c' = Some h → head c ≠ Some h) →
  plan_inv pre st → plan_component deps owners_map declared st c = Ok st' → plan_inv (pre ++ [c]) st'.
Proof.
  intros Hc Hpre Hfresh Hi H. destruct st as [[prereqs succs] steps]. unfold plan_component in H.
  apply bind_Ok in H as (h & Hh & H). unfold first_member in Hh. apply from_option_err_Ok in Hh.
  apply bind_Ok in H as (refs & Hrefs & H). apply bind_Ok in H as (owners & Howners & H).
  apply bind_Ok in H as (seed_owners & Hseeds & H). cbv zeta in H.
  pose proof (component_reads c h refs owners seed_owners Hh Hrefs Howners Hseeds) as Hreads.
  set (parents := sorted_strings _) in *. apply bind_Ok in H as (succs' & Hsucc & [= <-]).
  pose proof (append_all_spec _ _ _ _ (rd_nodup _ _ _ Hreads) Hsucc) as Hlook. clear Hsucc Hrefs Howners Hseeds.
  assert (Hnone : prereqs !! h = None).
  { destruct (prereqs !! h) eqn:He; [|done]. assert (is_Some (prereqs !! h)) as Hs by (by eexists).
    apply (pi_dom _ _ Hi) in Hs as (c' & Hc' & Hh'). by destruct (Hfresh c' h Hc' Hh'). }
  assert (Hin : ∀ c', c' ∈ pre ++ [c] ↔ c' ∈ pre ∨ c' = c) by (intros; by rewrite elem_of_app, list_elem_of_singleton).
  assert (Hdy : ∀ y dy, succs' !! y = Some dy → ∃ l, succs !! y = Some l ∧ dy = if decide (y ∈ parents) then l ++ [h] else l).
  { intros y dy Hy. rewrite Hlook in Hy. destruct (succs !! y) as [l|]; [|done]. injection Hy as <-. by exists l. }
  assert (Hnot : ∀ y l, succs !! y = Some l → h ∉ l).
  { intros y l Hy Hl. destruct (pi_succ_in _ _ Hi y l h Hy Hl) as [? ?]. cbn in *. congruence. }
  destruct Hi as [Hdom Hr Hsd Htr Hsn Hsi Hst]. constructor; cbn [fst snd] in *.
  - intros x. rewrite lookup_insert_is_Some', Hdom. setoid_rewrite Hin. split.
    + intros [<-|(c' & ? & ?)]; [exists c; auto|exists c'; auto].
    + intros (c' & [Hc'| ->] & Hx); [right; by exists c'|left; by simplify_eq].
  - intros c' x [Hc'| ->]%Hin Hx.
    + destruct (Hr c' x Hc' Hx) as (ps & Hps & ?). exists ps. split; [|done].
      rewrite lookup_insert_ne; [done|]. intros <-. congruence.
    + simplify_eq. exists parents. by rewrite lookup_insert_eq.
  - intros x. rewrite Hlook, fmap_is_Some. apply Hsd.
  - intros x dx y dy Hx Hy. apply Hdy in Hy as (l & Hl & ->). apply lookup_insert_Some in Hx as [[<- <-]|[Hne Hx]].
    + specialize (Hnot y l Hl). case_decide; [|done]. rewrite elem_of_app, list_elem_of_singleton. tauto.
    + rewrite (Htr x dx y l Hx Hl). case_decide; [|done]. rewrite elem_of_app, list_elem_of_singleton. naive_solver.
  - intros y dy (l & Hl & ->)%Hdy. specialize (Hsn y l Hl). case_decide; [|done]. apply NoDup_app.
    split_and!; [done| |apply NoDup_singleton]. intros x Hx Hxh. apply list_elem_of_singleton in Hxh as ->. by apply (Hnot y l).
  - intros y dy x (l & Hl & ->)%Hdy Hx. rewrite lookup_insert_is_Some'.
    case_decide; [apply elem_of_app in Hx as [Hx|Hx]; [|apply list_elem_of_singleton in Hx as ->; by left]|]; right; by eapply Hsi.
  - intros x stp. rewrite lookup_insert_Some, Hst. setoid_rewrite Hin. unfold planned_step. split.
    + intros [[<- <-]|[Hne (c' & ? & ? & ?)]]; [exists c; auto|exists c'; auto].
    + intros (c' & [Hc'| ->] & Hx & ->); [|left; by simplify_eq]. right. split; [|by exists c'].
      intros <-. by destruct (Hfresh c' h Hc' Hx).
Qed.

Lemma plan_components st :
  foldM (plan_component deps owners_map declared) (∅, list_to_map (map (λ h, (h, [])) heads), ∅) comps = Ok st →
  plan_inv comps st.
Proof.
  intros H. refine (foldM_inv _ plan_inv _ _ st plan_inv_init _ H).
  intros pre c st1 st2 Hpre Hi Hstep. destruct Hpre as [suf Hsuf].
  assert (Hin : ∀ c', c' ∈ pre ++ [c] → c' ∈ comps) by (intros; rewrite Hsuf, elem_of_app; by left).
  apply (plan_component_step pre c st1 st2); [|intros; apply Hin; set_solver| |done|done].
  - apply Hin. set_solver.
  - intros c' h Hc' Hh' Hh. assert (c' = c) as ->.
    { apply (same_component c' c h); [apply Hin; set_solver|apply Hin; set_solver|by apply head_in|by apply head_in]. }
    clear -Hnd Hsuf Hc' Hh. rewrite Hsuf, !concat_app in Hnd. apply NoDup_app in Hnd as (Hnd & _ & _).
    apply NoDup_app in Hnd as (_ & Hdis & _). apply (Hdis h); [apply elem_of_concat; exists c; split; [by apply head_in|done]|].
    cbn. rewrite app_nil_r. by apply head_in.
Qed.

(** The condensed graph is a graph, its successors the transposed prerequisites. *)
Lemma plan_transposed prereqs succs steps :
  plan_inv comps (prereqs, succs, steps) → transposed prereqs succs ∧ size steps = size prereqs.
Proof.
  intros [Hdom Hr Hsd Htr Hsn Hsi Hst]. cbn [fst snd] in *.
  assert (Hheads' : ∀ h, h ∈ heads ↔ ∃ c, c ∈ comps ∧ head c = Some h).
  { intros h. split; [apply comp_of|]. intros (c & Hc & Hh). destruct (head_of c Hc) as (h' & Hh' & ?). by simplify_eq. }
  assert (Hparents : ∀ x dx, prereqs !! x = Some dx → ∃ c, c ∈ comps ∧ head c = Some x ∧ reads c x dx).
  { intros x dx Hx. assert (is_Some (prereqs !! x)) as (c & Hc & Hh)%Hdom by (by eexists).
    destruct (Hr c x Hc Hh) as (ps & Hps & Hrd). simplify_eq. by exists c. }
  split.
  - constructor.
    + intros k. by rewrite Hdom, Hsd, Hheads'.
    + intros k ds (c & _ & _ & Hrd)%Hparents. apply Hrd.
    + done.
    + intros x dx y (c & _ & _ & Hrd)%Hparents Hy. apply Hdom, Hheads', (rd_owner _ _ _ Hrd), Hy.
    + intros y dy x Hy Hx. by eapply Hsi.
    + done.
  - rewrite <- !length_keys. apply Permutation_length, NoDup_Permutation; [apply NoDup_keys..|].
    intros h. rewrite !elem_of_keys, Hdom. split.
    + intros [s Hs]. apply Hst in Hs as (c & ? & ? & _). by exists c.
    + intros (c & Hc & Hh). exists (planned_step c h). apply Hst. by exists c.
Qed.
End prerequisites.
End partition.

(** * A plan that was built *)

Section built.
Context (by_id : gmap string node) (dependents : adjacency) (groups : list iteration_group).
Let deps : adjacency := input_refs <$> by_id.
Hypothesis Hok : nodes_ok by_id.
Hypothesis Htr : transposed deps dependents.
Hypothesis Hgroups : Forall (λ g, check_group g = Ok tt) groups.

Context (comps cyclic : list (list string)) (heads : list string) (declared : gmap (list string) iteration_group).
Hypothesis Hcomps : concat comps ≡ₚ keys deps.
Hypothesis Hne : Forall (λ c, c ≠ []) comps.
Hypothesis Hheads : Forall2 (λ c h, head c = Some h) comps heads.
Hypothesis Hcyclic : ∀ c, c ∈ comps → c ∈ cyclic ∨ is_cyclic deps c = Ok false.
Hypothesis Hcyclic_in : ∀ c, c ∈ cyclic → c ∈ comps.
Hypothesis Hdeclared : ∀ c g, declared !! c = Some g → group_declared by_id cyclic groups c g.
Hypothesis Hall : ∀ c, c ∈ cyclic → is_Some (declared !! c).

Lemma comps_NoDup : NoDup (concat comps).
Proof. rewrite Hcomps. apply NoDup_keys. Qed.

Lemma in_comps m n : by_id !! m = Some n → ∃ c, c ∈ comps ∧ m ∈ c.
Proof.
  intros Hm. assert (m ∈ concat comps) as (c & ? & ?)%elem_of_concat; [|by exists c].
  rewrite Hcomps. apply elem_of_keys. unfold deps. by rewrite lookup_fmap, Hm.
Qed.

(** A component without a group is one node that does not read itself. *)
Lemma undeclared c h n :
  c ∈ comps → head c = Some h → declared !! c = None → by_id !! h = Some n → c = [h] ∧ h ∉ input_refs n.
Proof.
  intros Hc Hh Hd Hn. destruct (Hcyclic c Hc) as [Hcy|Hcy]; [destruct (Hall c Hcy); congruence|].
  unfold is_cyclic in Hcy. case_decide as Hlen; [done|]. unfold first_member in Hcy. rewrite Hh in Hcy. cbn [from_option_err] in Hcy.
  rewrite bind_ok, (get_Some deps h (input_refs n)), bind_ok in Hcy by (unfold deps; by rewrite lookup_fmap, Hn).
  injection Hcy as Hcy. apply bool_decide_eq_false in Hcy. split; [|done].
  destruct c as [|x [|]]; simplify_eq/=; [done|lia].
Qed.

Lemma declared_members c g : declared !! c = Some g → members g = c ∧ c ∈ comps ∧ check_group g = Ok tt.
Proof.
  intros Hg. destruct (Hdeclared c g Hg) as (Hm & Hcy & Hin & _). split_and!; [done|by apply Hcyclic_in|].
  by eapply Forall_forall in Hgroups.
Qed.

(** The members of a component's step are the component. *)
Lemma planned_members c h : c ∈ comps → head c = Some h → step_members (planned_step declared c h) = c.
Proof.
  intros Hc Hh. unfold planned_step. destruct (declared !! c) as [g|] eqn:Hg; [by destruct (declared_members c g Hg)|].
  cbn. assert (is_Some (by_id !! h)) as [n Hn].
  { assert (h ∈ keys deps) as Hk by (rewrite <- Hcomps; apply elem_of_concat; exists c; split; [by apply head_in|done]).
    apply elem_of_keys in Hk. unfold deps in Hk. by rewrite lookup_fmap, fmap_is_Some in Hk. }
  by destruct (undeclared c h n Hc Hh Hg Hn) as [-> _].
Qed.

(** A step is ready once the components it reads have run. *)
Lemma component_ready c h parents before :
  c ∈ comps → head c = Some h → reads comps heads deps declared c h parents →
  (∀ p c' x, p ∈ parents → c' ∈ comps → head c' = Some p → x ∈ c' → x ∈ before) →
  step_ready by_id before (planned_step declared c h).
Proof.
  intros Hc Hh Hrd Hbefore. pose proof comps_NoDup as Hnd.
  assert (Hread : ∀ m n r, m ∈ c → by_id !! m = Some n → r ∈ input_refs n → r ∈ before ∨ r ∈ c).
  { intros m n r Hm Hn Hr. destruct (rd_deps _ _ _ _ _ _ _ Hrd m (input_refs n) r Hm) as (o & Ho & Hor);
      [unfold deps; by rewrite lookup_fmap, Hn|done|].
    apply (owner_spec comps heads Hnd Hheads) in Ho as (c' & Hc' & Hh' & Hr'). destruct Hor as [->|Hor].
    - right. by rewrite (same_component comps Hnd c c' h Hc Hc' (head_in _ _ Hh) (head_in _ _ Hh')).
    - left. by eapply Hbefore. }
  unfold planned_step. destruct (declared !! c) as [g|] eqn:Hg.
  - destruct (declared_members c g Hg) as (Hm & _ & Hcg). destruct (Hdeclared c g Hg) as (_ & _ & _ & Hseeds).
    destruct (check_group_Ok _ Hcg) as (_ & _ & Hfst & _). rewrite Forall_forall in Hseeds. split_and!; [done| |].
    + intros m Hmm. assert (m ∈ (seeds g).*1) as ([m' s] & -> & Hms)%list_elem_of_fmap by (by rewrite Hfst). cbn in *.
      destruct (check_seed_Ok _ _ _ _ (Hseeds _ Hms)) as (n & sn & Hn & Hf & _). exists n. split_and!; [done|done|].
      intros r Hr. rewrite Hm in *. by eapply Hread.
    + intros m s Hms. destruct (check_seed_Ok _ _ _ _ (Hseeds _ Hms)) as (n & sn & Hn & Hf & Hs & Hout & Hu).
      split; [|by exists n, sn]. destruct (rd_seeds _ _ _ _ _ _ _ Hrd g (m, s) Hg Hms) as (o & Ho & Hop). cbn in Ho.
      apply (owner_spec comps heads Hnd Hheads) in Ho as (c' & Hc' & Hh' & Hs'). by eapply Hbefore.
  - assert (is_Some (by_id !! h)) as [n Hn].
    { assert (h ∈ keys deps) as Hk by (rewrite <- Hcomps; apply elem_of_concat; exists c; split; [by apply head_in|done]).
      apply elem_of_keys in Hk. unfold deps in Hk. by rewrite lookup_fmap, fmap_is_Some in Hk. }
    exists n. split; [done|]. destruct (undeclared c h n Hc Hh Hg Hn) as [-> Hself]. intros r Hr.
    destruct (Hread h n r ltac:(left) Hn Hr) as [|Hin]; [done|]. apply list_elem_of_singleton in Hin as ->. done.
Qed.
End built.

Lemma tuple_min_None l : tuple_min l = None → l = [].
Proof. by destruct l. Qed.

Lemma concat_perm {A} (l1 l2 : list (list A)) : l1 ≡ₚ l2 → concat l1 ≡ₚ concat l2.
Proof. induction 1; cbn; [done|by f_equiv|rewrite !app_assoc; f_equiv; apply Permutation_app_comm|by etrans]. Qed.

(** A plan lists the components, in the order of their keys. *)
Lemma plan_covers comps heads (steps : gmap string step) (ks : list string) plan :
  Forall2 (λ c h, head c = Some h) comps heads → Forall2 (λ k s, get steps k = Ok s) ks plan → ks ≡ₚ heads →
  (∀ c h, c ∈ comps → head c = Some h → ∃ s, steps !! h = Some s ∧ step_members s = c) →
  concat (step_members <$> plan) ≡ₚ concat comps.
Proof.
  intros Hheads Hplan Hperm Hmem. set (f := λ k, default [] (step_members <$> steps !! k)).
  assert (step_members <$> plan = f <$> ks) as ->.
  { clear -Hplan. induction Hplan as [|k s ks plan Hk Hf IH]; [done|]. apply get_Ok in Hk. cbn. unfold f at 1. rewrite Hk, IH. done. }
  assert (comps = f <$> heads) as ->.
  { clear Hperm Hplan. induction Hheads as [|c h cs hs Hc Hf IH]; [done|]. cbn. f_equal.
    - destruct (Hmem c h ltac:(left) Hc) as (s & Hs & Hms). unfold f. by rewrite Hs.
    - apply IH. intros c' h' Hc'. apply Hmem. by right. }
  apply concat_perm. by rewrite Hperm.
Qed.

Lemma plan_heads comps heads deps declared st :
  NoDup (concat comps) → Forall2 (λ c h, head c = Some h) comps heads →
  plan_inv comps heads deps declared comps st → keys st.1.1 ≡ₚ heads.
Proof.
  intros Hnd Hheads Hi. apply NoDup_Permutation; [apply NoDup_keys|by eapply heads_NoDup|]. intros h.
  rewrite elem_of_keys, (pi_dom _ _ _ _ _ _ Hi). split; [|by eapply comp_of].
  intros (c & Hc & Hh). destruct (head_of comps heads Hheads c Hc) as (h' & Hh' & ?). by simplify_eq.
Qed.

Lemma iteration_plan_spec by_id dependents groups plan :
  nodes_ok by_id → transposed (input_refs <$> by_id) dependents → Forall (λ g, check_group g = Ok tt) groups →
  iteration_plan by_id (input_refs <$> by_id) dependents groups = Ok plan →
  concat (step_members <$> plan) ≡ₚ keys by_id ∧
  ∀ pre s post, plan = pre ++ s :: post → step_ready by_id (concat (step_members <$> pre)) s.
Proof.
  intros Hok Htr Hgroups H. unfold iteration_plan in H. set (deps := input_refs <$> by_id) in *.
  apply bind_Ok in H as (comps & Hcomps & H). apply components_spec in Hcomps as [Hcomps Hne]; [|done].
  apply bind_Ok in H as (cyclic & Hcy & H). apply filterM_Ok in Hcy as [Hcy1 Hcy2].
  apply bind_Ok in H as ([ids declared] & Hdecl & H). pose proof (declare_groups_spec _ _ _ _ _ Hdecl) as Hdeclared.
  apply bind_Ok in H as ([] & Hnone & H).
  destruct (tuple_min _) as [c|] eqn:Hmin; [by apply bind_Ok in Hnone as (? & _ & ?)|]. clear Hnone. apply tuple_min_None in Hmin. apply bind_Ok in H as (heads & Hheads & H). cbv zeta in H.
  apply mapM_Ok in Hheads. assert (Hheads' : Forall2 (λ c h, head c = Some h) comps heads).
  { eapply Forall2_impl; [exact Hheads|]. intros c h Hh. by apply from_option_err_Ok in Hh. }
  apply bind_Ok in H as ([[prereqs succs] steps] & Hplan & H). apply bind_Ok in H as (ks & Hks & H). apply mapM_Ok in H.
  assert (Hnd : NoDup (concat comps)) by (rewrite Hcomps; apply NoDup_keys).
  pose proof (plan_components comps heads Hnd Hheads' deps declared _ Hplan) as Hi.
  destruct (plan_transposed comps heads Hheads' deps declared _ _ _ Hi) as [Htp Hsize].
  assert (Hdom : ∀ c, c ∈ cyclic → is_Some (declared !! c)).
  { intros c Hc. destruct (declared !! c) eqn:Hd; [by eexists|]. assert (c ∈ filter (λ c, declared !! c = None) cyclic) as Hin
      by (by apply list_elem_of_filter). rewrite Hmin in Hin. by apply elem_of_nil in Hin. }
  apply map_err_Ok in Hks. rewrite Hsize in Hks. destruct (topological_order_spec _ _ Htp) as [(o & Ho & Hg & Hperm)|(c & Hc & _)]; [|congruence].
  assert (o = ks) as -> by congruence. clear Hks Ho Hplan.
  assert (Hstep : ∀ k s, get steps k = Ok s → ∃ c, c ∈ comps ∧ head c = Some k ∧ s = planned_step declared c k).
  { intros k s Hs%get_Ok. by apply (pi_steps _ _ _ _ _ _ Hi) in Hs. }
  assert (Hmem : ∀ c h, c ∈ comps → head c = Some h → step_members (planned_step declared c h) = c).
  { intros c h Hc Hh. eapply (planned_members by_id groups Hgroups comps cyclic declared); try done.
    all: intros c' Hc'; first [by apply Hcy1|destruct (Hcy2 c' Hc'); auto]. }
  assert (Hready : ∀ c h parents before, c ∈ comps → head c = Some h → reads comps heads deps declared c h parents →
    (∀ p c' x, p ∈ parents → c' ∈ comps → head c' = Some p → x ∈ c' → x ∈ before) →
    step_ready by_id before (planned_step declared c h)).
  { intros c h parents before Hc Hh Hrd. eapply (component_ready by_id groups Hgroups comps cyclic heads declared); try done.
    all: intros c' Hc'; first [by apply Hcy1|destruct (Hcy2 c' Hc'); auto]. }
  split.
  - rewrite (plan_covers comps heads steps ks plan); [|done|done|by rewrite Hperm; exact (plan_heads comps heads deps declared _ Hnd Hheads' Hi)|].
    + rewrite Hcomps. apply NoDup_Permutation; [apply NoDup_keys..|]. intros k. unfold deps.
      by rewrite !elem_of_keys, lookup_fmap, fmap_is_Some.
    + intros c h Hc Hh. exists (planned_step declared c h). split; [|by apply Hmem].
      apply (pi_steps _ _ _ _ _ _ Hi). by exists c.
  - intros pre s post ->. apply Forall2_app_inv_r in H as (kpre & krest & Hpre & Hrest & ->).
    inversion Hrest as [|k ? kpost ? Hk Hpost]; subst. destruct (Hstep k s Hk) as (c & Hc & Hh & ->).
    apply greedy_order_split in Hg as (_ & parents & Hparents & Hin).
    destruct (pi_reads _ _ _ _ _ _ Hi c k Hc Hh) as (parents' & Hp' & Hrd). cbn [fst snd] in *. simplify_eq.
    eapply Hready; [done|done|done|]. intros p c' x Hp Hc' Hh' Hx.
    apply Hin, list_elem_of_lookup in Hp as [j Hj]. destruct (Forall2_lookup_l _ _ _ _ _ Hpre Hj) as (s' & Hs' & Hget).
    destruct (Hstep p s' Hget) as (c'' & Hc'' & Hh'' & ->). apply elem_of_concat. exists c'. split; [done|].
    assert (c'' = c') as -> by (eapply (same_component comps Hnd); [done|done|by apply head_in|by apply head_in]).
    rewrite <- (Hmem c' p) by done. apply list_elem_of_fmap_2. by eapply list_elem_of_lookup_2.
Qed.

(** A built graph is well formed, whatever its groups. *)
Lemma build_groups_spec node_list groups g :
  Forall node_ok node_list → Forall (λ g, check_group g = Ok tt) groups → build node_list groups = Ok g →
  graph_ok g ∧ nodes g ≡ₚ node_list ∧ id_of <$> nodes g = sorted_strings (keys (by_id g)).
Proof.
  intros Hnodes Hgroups Hb.
  destruct (build_structure node_list groups Hnodes) as [(by_id & sn & dependents & Hs & Heq)|[[Heq _]|(r & Heq & _)]];
    rewrite Heq in Hb; [|done|done]. clear Heq. unfold plan_graph in Hb.
  apply bind_Ok in Hb as ([[[[plan order] es] deps] dependents'] & Hplan & Hb).
  apply bind_Ok in Hb as ([] & Htypes & Hb). apply bind_Ok in Hb as (defs & Hdefs & Hb). ok_inv. cbn.
  split_and!; [|apply Hs|apply Hs].
  assert (Hgs : Forall (λ g, check_group g = Ok tt) (py_sorted group_le groups)) by (by rewrite py_sorted_perm).
  destruct (py_sorted group_le groups) as [|g0 gs].
  - apply bind_Ok in Hplan as (o & Ho & Hplan). ok_inv. rewrite <- (map_size_fmap input_refs by_id) in Ho at 1.
    destruct (topological_order_spec _ _ (so_transposed _ _ _ _ Hs)) as [(o' & Ho' & Hg & Hperm)|(c & Hc & _)]; [|congruence].
    assert (o' = order) as -> by congruence. rewrite keys_inputs in Hperm.
    eapply planned_graph_ok; try done; [apply concat_step_nodes|by apply greedy_plan_ready].
  - apply bind_Ok in Hplan as (pl & Hpl & Hplan). apply bind_Ok in Hplan as ([[? ?] ?] & _ & Hplan). ok_inv.
    destruct (iteration_plan_spec _ _ _ _ (so_nodes _ _ _ _ Hs) (so_transposed _ _ _ _ Hs) Hgs Hpl) as [Hperm Hready].
    by eapply planned_graph_ok.
Qed.

(** ** The groups are the cycles *)

(** [a] reads [b] *)
Definition depends (by_id : gmap string node) (a b : string) : Prop := ∃ n, by_id !! a = Some n ∧ b ∈ input_refs n.

Lemma edge_to_depends (by_id : gmap string node) a b : edge_to (input_refs <$> by_id) a b ↔ depends by_id a b.
Proof.
  unfold edge_to, depends. setoid_rewrite lookup_fmap. split.
  - intros (ds & Hds & Hb). apply fmap_Some in Hds as (n & Hn & ->). by exists n.
  - intros (n & -> & Hb). by exists (input_refs n).
Qed.

(** what the groups of a graph are to its cycles: they are planned, and their members are
    the nodes that lead to each other *)
Record cycles_declared (g : model_graph) (groups : list iteration_group) : Prop := CyclesDeclared {
  cd_planned : ∀ gr, gr ∈ groups ↔ StepGroup gr ∈ execution_plan g;
  cd_members : ∀ gr a b, gr ∈ groups → a ∈ members gr → b ∈ members gr ↔ tc (depends (by_id g)) a b ∧ tc (depends (by_id g)) b a;
  cd_cycles : ∀ k, tc (depends (by_id g)) k k → ∃ gr, gr ∈ groups ∧ k ∈ members gr
}.

Lemma declare_groups_kept by_id cyclic groups ids declared :
  foldM (declare_group by_id cyclic) ([], ∅) groups = Ok (ids, declared) → ∀ g, g ∈ groups → declared !! members g = Some g.
Proof.
  intros H. refine (foldM_inv _ (λ pre st, ∀ g, g ∈ pre → st.2 !! members g = Some g) _ _ (ids, declared) _ _ H).
  - intros g Hg. by apply elem_of_nil in Hg.
  - intros pre x [is_ d] [is' d'] _ IH Hstep g Hg. cbn [fst snd declare_group] in *. ok_inv. btrue. simplify_eq.
    apply elem_of_app in Hg as [Hg| ->%list_elem_of_singleton]; [|by rewrite lookup_insert_eq].
    specialize (IH g Hg). rewrite lookup_insert_ne; [done|]. intros Heq. rewrite <- Heq in IH. naive_solver.
Qed.

(** the members of a cyclic component lead to each other *)
Lemma cyclic_members deps c : NoDup c → (∀ a b, a ∈ c → b ∈ c → rtc (edge_to deps) a b) → is_cyclic deps c = Ok true →
  ∀ a b, a ∈ c → b ∈ c → tc (edge_to deps) a b.
Proof.
  intros Hnd Hstrong Hcy a b Ha Hb. destruct (decide (a = b)) as [<-|Hne].
  2: { by destruct (proj1 (rtc_tc _ _) (Hstrong a b Ha Hb)). }
  unfold is_cyclic in Hcy. case_decide as Hlen.
  - assert (∃ x, x ∈ c ∧ x ≠ a) as (x & Hx & Hxa).
    { destruct c as [|y [|z c]]; cbn in Hlen; [lia|lia|]. destruct (decide (y = a)) as [->|]; [|exists y; split; [left|done]].
      exists z. split; [right; left|]. apply NoDup_cons in Hnd as [Hn _]. intros ->. apply Hn. left. }
    destruct (proj1 (rtc_tc _ _) (Hstrong a x Ha Hx)) as [|H1]; [done|]. eapply tc_rtc_r; [exact H1|by apply Hstrong].
  - apply bind_Ok in Hcy as (m & Hm & Hcy). apply bind_Ok in Hcy as (ds & Hds & [= Hin]). apply bool_decide_eq_true in Hin.
    destruct c as [|y [|]]; cbn in Hlen; [by apply elem_of_nil in Ha| |lia]. injection Hm as <-. apply list_elem_of_singleton in Ha as ->.
    apply tc_once. exists ds. split; [by apply get_Ok|done].
Qed.

Lemma in_concat_NoDup (cs : list (list string)) c : NoDup (concat cs) → c ∈ cs → NoDup c.
Proof. intros Hnd (l1 & l2 & ->)%list_elem_of_split. rewrite concat_app in Hnd. apply NoDup_app in Hnd as (_ & _ & Hnd). cbn in Hnd. by apply NoDup_app in Hnd as (? & _). Qed.

(** an iteration plan runs the groups it was given, and each is a cycle *)
Lemma iteration_plan_groups by_id dependents groups plan :
  transposed (input_refs <$> by_id) dependents →
  iteration_plan by_id (input_refs <$> by_id) dependents groups = Ok plan →
  (∀ gr, gr ∈ groups ↔ StepGroup gr ∈ plan) ∧ ∀ gr a b, gr ∈ groups → a ∈ members gr → b ∈ members gr → tc (depends by_id) a b.
Proof.
  intros Htr H. unfold iteration_plan in H. set (deps := input_refs <$> by_id) in *.
  apply bind_Ok in H as (comps & Hcomps & H). pose proof (components_strong _ _ _ Htr Hcomps) as Hstrong. apply components_spec in Hcomps as [Hcomps _]; [|done].
  assert (Hnd : NoDup (concat comps)) by (rewrite Hcomps; apply NoDup_keys).
  apply bind_Ok in H as (cyclic & Hcy & H). apply filterM_Ok in Hcy as [Hcy _].
  apply bind_Ok in H as ([ids declared] & Hdecl & H). pose proof (declare_groups_spec _ _ _ _ _ Hdecl) as Hdeclared. pose proof (declare_groups_kept _ _ _ _ _ Hdecl) as Hkept.
  apply bind_Ok in H as ([] & _ & H). apply bind_Ok in H as (heads & Hheads & H). cbv zeta in H. apply mapM_Ok in Hheads.
  assert (Hheads' : Forall2 (λ c h, head c = Some h) comps heads) by (eapply Forall2_impl; [exact Hheads|]; intros c h Hh; by apply from_option_err_Ok in Hh).
  apply bind_Ok in H as ([[prereqs succs] steps] & Hplan & H). apply bind_Ok in H as (ks & Hks & H). apply mapM_Ok in H.
  pose proof (plan_components comps heads Hnd Hheads' deps declared _ Hplan) as Hi.
  destruct (plan_transposed comps heads Hheads' deps declared _ _ _ Hi) as [Htp Hsize].
  apply map_err_Ok in Hks. rewrite Hsize in Hks. destruct (topological_order_spec _ _ Htp) as [(o & Ho & _ & Hperm)|(c & Hc & _)]; [|congruence].
  assert (o = ks) as -> by congruence. split.
  - intros gr. split.
    + intros Hgr. destruct (Hdeclared _ _ (Hkept gr Hgr)) as (_ & Hin & _). apply Hcy in Hin as [Hin _].
      destruct (head_of comps heads Hheads' _ Hin) as (h & Hh & _).
      assert (steps !! h = Some (StepGroup gr)) as Hs by (apply (pi_steps _ _ _ _ _ _ Hi); exists (members gr); split; [done|]; split; [done|]; unfold planned_step; by rewrite (Hkept gr Hgr)).
      assert (h ∈ ks) as Hk by (rewrite Hperm; apply elem_of_keys, (pi_dom _ _ _ _ _ _ Hi); by exists (members gr)).
      apply list_elem_of_lookup in Hk as [i Hk]. destruct (Forall2_lookup_l _ _ _ _ _ H Hk) as (st & Hst & Hget%get_Ok). assert (st = StepGroup gr) as -> by congruence. by eapply list_elem_of_lookup_2.
    + intros Hgr. apply list_elem_of_lookup in Hgr as [i Hgr]. destruct (Forall2_lookup_r _ _ _ _ _ H Hgr) as (k & _ & Hget%get_Ok).
      apply (pi_steps _ _ _ _ _ _ Hi) in Hget as (c & _ & _ & Heq). unfold planned_step in Heq. destruct (declared !! c) as [gr'|] eqn:Hd; [|done]. injection Heq as <-.
      by destruct (Hdeclared c gr Hd) as (_ & _ & ? & _).
  - intros gr a b Hgr Ha Hb. destruct (Hdeclared _ _ (Hkept gr Hgr)) as (_ & Hin & _). apply Hcy in Hin as [Hin Hcyc].
    apply (tc_congruence id (depends by_id) a b (λ x y, proj1 (edge_to_depends by_id x y))).
    apply (cyclic_members deps (members gr)); [by eapply in_concat_NoDup|intros x y; by apply Hstrong|done|done|done].
Qed.

(** ** Places in a plan *)

Section places.
Context (g : model_graph).
Hypothesis Hg : graph_ok g.

Definition placed (i : nat) (k : string) : Prop := ∃ st, execution_plan g !! i = Some st ∧ k ∈ step_members st.

Lemma concat_place (ls : list (list string)) i j a b x : NoDup (concat ls) → ls !! i = Some a → ls !! j = Some b → x ∈ a → x ∈ b → i = j.
Proof using Type.
  revert i j. induction ls as [|l ls IH]; intros i j Hnd Hi Hj Ha Hb; [done|]. cbn in Hnd. apply NoDup_app in Hnd as (_ & Hdis & Hnd).
  assert (∀ n c, ls !! n = Some c → x ∈ c → x ∈ concat ls) as Hin by (intros n c Hc Hx; apply elem_of_concat; exists c; split; [done|by eapply list_elem_of_lookup_2]).
  destruct i as [|i], j as [|j]; cbn in *; simplify_eq; [done|by destruct (Hdis x Ha); eapply Hin|by destruct (Hdis x Hb); eapply Hin|]. f_equal. by eapply IH.
Qed.

Lemma placed_unique i j k : placed i k → placed j k → i = j.
Proof using All.
  intros (s & Hs & Hk) (t & Ht & Hk'). eapply (concat_place (step_members <$> execution_plan g)); [| | |exact Hk|exact Hk'].
  - rewrite (go_flat _ Hg), (go_order _ Hg). apply NoDup_keys.
  - by rewrite list_lookup_fmap, Hs.
  - by rewrite list_lookup_fmap, Ht.
Qed.

Lemma in_steps (l : list step) k : k ∈ concat (step_members <$> l) → ∃ i st, l !! i = Some st ∧ k ∈ step_members st.
Proof using Type. intros (c & Hk & (st & -> & Hst)%list_elem_of_fmap)%elem_of_concat. apply list_elem_of_lookup in Hst as [i Hi]. by exists i, st. Qed.

Lemma placed_node k n : by_id g !! k = Some n → ∃ i, placed i k.
Proof using All.
  intros Hk. assert (k ∈ concat (step_members <$> execution_plan g)) as (i & st & Hi & Hin)%in_steps; [|by exists i, st].
  rewrite (go_flat _ Hg), (go_order _ Hg). apply elem_of_keys. by eexists.
Qed.

(** what a node reads is placed before it, or in its own group *)
Lemma depends_placed a b i : depends (by_id g) a b → placed i a →
  ∃ j, placed j b ∧ (j ≤ i)%nat ∧ (j = i → ∃ gr, execution_plan g !! i = Some (StepGroup gr)).
Proof using All.
  intros (n & Hn & Hb) (st & Hst & Ha). pose proof (go_plan _ Hg (take i (execution_plan g)) st (drop (S i) (execution_plan g))) as Hready.
  rewrite take_drop_middle in Hready by done. specialize (Hready eq_refl).
  assert (b ∈ concat (step_members <$> take i (execution_plan g)) → ∃ j, placed j b ∧ (j ≤ i)%nat ∧ (j = i → ∃ gr, execution_plan g !! i = Some (StepGroup gr))) as Hbefore.
  { intros (j & s' & Hj & Hin)%in_steps. apply lookup_take_Some in Hj as [Hj Hlt]. exists j. split; [by exists s'|]. split; [lia|]. intros ->. lia. }
  destruct st as [k|gr]; cbn [step_ready step_members] in *.
  - destruct Hready as (n' & Hn' & Hin). apply list_elem_of_singleton in Ha as ->. simplify_eq. by apply Hbefore, Hin.
  - destruct Hready as (_ & Hm & _). destruct (Hm a Ha) as (n' & Hn' & _ & Hin). simplify_eq. destruct (Hin b Hb) as [?|Hbm]; [by apply Hbefore|].
    exists i. split; [by exists (StepGroup gr)|]. split; [lia|]. intros _. by exists gr.
Qed.

Lemma leads_placed a b i : tc (depends (by_id g)) a b → placed i a →
  ∃ j, placed j b ∧ (j ≤ i)%nat ∧ (j = i → ∃ gr, execution_plan g !! i = Some (StepGroup gr)).
Proof using All.
  intros H. revert i. induction H as [a b H|a x b H _ IH]; intros i Hi; [by apply depends_placed with a|].
  destruct (depends_placed a x i H Hi) as (j & Hj & Hle & Hgr). destruct (IH j Hj) as (k & Hk & Hle' & _). exists k. split; [done|]. split; [lia|]. intros ->. apply Hgr. lia.
Qed.

Lemma cycles_from_plan groups : (∀ gr, gr ∈ groups ↔ StepGroup gr ∈ execution_plan g) →
  (∀ gr a b, gr ∈ groups → a ∈ members gr → b ∈ members gr → tc (depends (by_id g)) a b) → cycles_declared g groups.
Proof using All.
  intros Hplanned Hcyc. split; [done| |].
  - intros gr a b Hgr Ha. split; [intros Hb; by split; apply (Hcyc gr)|]. intros [Hab Hba].
    pose proof (proj1 (Hplanned gr) Hgr) as Hin. apply list_elem_of_lookup in Hin as [i Hi]. assert (placed i a) as Hpa by (by exists (StepGroup gr)).
    destruct (leads_placed a b i Hab Hpa) as (j & Hj & Hle & _). destruct (leads_placed b a j Hba Hj) as (i' & Hi' & Hle' & _).
    assert (j = i) as -> by (pose proof (placed_unique i i' a Hpa Hi'); lia). destruct Hj as (st & Hst & Hb). by simplify_eq.
  - intros k Hk. assert (∃ n, by_id g !! k = Some n) as [n Hn] by (inversion Hk as [? ? (n & ? & _)|? ? ? (n & ? & _) _]; by exists n).
    destruct (placed_node k n Hn) as [i Hi]. destruct (leads_placed k k i Hk Hi) as (j & Hj & _ & Hgr). destruct Hgr as [gr Hgr]; [by eapply placed_unique|].
    exists gr. destruct Hi as (st & Hst & Hin). simplify_eq. split; [|done]. apply Hplanned. by eapply list_elem_of_lookup_2.
Qed.
End places.

(** A built graph's groups are its cycles. *)
Lemma build_groups_cycles node_list groups g :
  Forall node_ok node_list → Forall (λ g, check_group g = Ok tt) groups → build node_list groups = Ok g → cycles_declared g groups.
Proof.
  intros Hnodes Hgroups Hb. pose proof (build_groups_spec node_list groups g Hnodes Hgroups Hb) as [Hok _]. apply cycles_from_plan; [done|..].
  all: destruct (build_structure node_list groups Hnodes) as [(by_id & sn & dependents & Hs & Heq)|[[Heq _]|(r & Heq & _)]]; rewrite Heq in Hb; [|done|done].
  all: clear Heq; unfold plan_graph in Hb; apply bind_Ok in Hb as ([[[[plan order] es] deps] dependents'] & Hplan & Hb);
    apply bind_Ok in Hb as ([] & _ & Hb); apply bind_Ok in Hb as (defs & _ & Hb); ok_inv; cbn.
  all: assert (∀ gr, gr ∈ py_sorted group_le groups ↔ gr ∈ groups) as Hin by (intros gr; by rewrite py_sorted_perm).
  all: destruct (py_sorted group_le groups) as [|g0 gs] eqn:Hgs.
  - apply bind_Ok in Hplan as (o & _ & Hplan). ok_inv. intros gr. rewrite <- Hin. split; [by intros ?%elem_of_nil|]. by intros (? & ? & _)%list_elem_of_fmap.
  - apply bind_Ok in Hplan as (pl & Hpl & Hplan). apply bind_Ok in Hplan as ([[? ?] ?] & _ & Hplan). ok_inv.
    intros gr. rewrite <- Hin. by apply (iteration_plan_groups _ _ _ _ (so_transposed _ _ _ _ Hs) Hpl).
  - intros gr a b Hgr%Hin. by apply elem_of_nil in Hgr.
  - apply bind_Ok in Hplan as (pl & Hpl & Hplan). apply bind_Ok in Hplan as ([[? ?] ?] & _ & Hplan). ok_inv.
    intros gr a b Hgr%Hin. by apply (iteration_plan_groups _ _ _ _ (so_transposed _ _ _ _ Hs) Hpl).
Qed.

(** ** The dependents a built graph records *)

Lemma declare_groups_all by_id cyclic groups ids declared :
  foldM (declare_group by_id cyclic) ([], ∅) groups = Ok (ids, declared) →
  ∀ g, g ∈ groups → Forall (λ ms, check_seed by_id g ms = Ok tt) (seeds g).
Proof.
  intros H. refine (foldM_inv _ (λ pre _, ∀ g, g ∈ pre → Forall (λ ms, check_seed by_id g ms = Ok tt) (seeds g)) _ _ (ids, declared) _ _ H).
  - intros g Hg. by apply elem_of_nil in Hg.
  - intros pre x [is_ d] [is' d'] _ IH Hstep g [Hg| ->%list_elem_of_singleton]%elem_of_app; [by apply IH|].
    cbn [declare_group] in Hstep. by ok_inv.
Qed.

Lemma seed_edges_dependents es deps dts ms es' deps' dts' :
  foldM add_seed_edge (es, deps, dts) ms = Ok (es', deps', dts') →
  ∀ e ds', dts' !! e = Some ds' →
    ∃ ds, dts !! e = Some ds ∧ (NoDup ds → NoDup ds') ∧ ∀ k, k ∈ ds' ↔ k ∈ ds ∨ (k, e) ∈ ms.
Proof.
  intros H. refine (foldM_inv _ (λ pre st, ∀ e ds', st.2 !! e = Some ds' →
    ∃ ds, dts !! e = Some ds ∧ (NoDup ds → NoDup ds') ∧ ∀ k, k ∈ ds' ↔ k ∈ ds ∨ (k, e) ∈ pre) _ _ (es', deps', dts') _ _ H).
  - intros e ds' Hd. exists ds'. split_and!; [done|done|]. intros k. set_solver.
  - intros pre [m sd] [[es1 deps1] dts1] [[es2 deps2] dts2] _ IH Hstep e ds' Hd. cbn [snd add_seed_edge] in *.
    apply bind_Ok in Hstep as (dps & _ & Hstep). apply bind_Ok in Hstep as (ds1 & Hds1%get_Ok & Hstep). injection Hstep as <- <- <-.
    destruct (decide (m ∈ ds1)) as [Hin|Hin].
    + destruct (IH e ds' Hd) as (ds & Hds & Hnd & Hk). exists ds. split; [done|]. split; [done|]. intros k. rewrite Hk, elem_of_app, list_elem_of_singleton.
      split; [naive_solver|]. intros [?|[?|[= -> ->]]]; [by left|by right|]. simplify_eq. by apply Hk.
    + apply lookup_insert_Some in Hd as [[<- <-]|[Hne Hd]].
      * destruct (IH sd ds1 Hds1) as (ds & Hds & Hnd & Hk). exists ds. split; [done|]. split.
        { intros Hn. apply NoDup_app. split; [by apply Hnd|]. split; [|apply NoDup_singleton]. intros x Hx ->%list_elem_of_singleton. done. }
        intros k. rewrite !elem_of_app, Hk, !list_elem_of_singleton. naive_solver.
      * destruct (IH e ds' Hd) as (ds & Hds & Hnd & Hk). exists ds. split; [done|]. split; [done|]. intros k.
        rewrite Hk, elem_of_app, list_elem_of_singleton. naive_solver.
Qed.

(** A node's recorded dependents are the nodes that read it, and formulas a
    group seeds from it. *)
Lemma build_dependents node_list groups g :
  Forall node_ok node_list → build node_list groups = Ok g →
  iteration_groups g = py_sorted group_le groups ∧
  ∀ e ds, dependents_of g e = Ok ds → is_Some (by_id g !! e) ∧ NoDup ds ∧
    (∀ k, k ∈ ds → ∃ n, by_id g !! k = Some n ∧ (e ∈ input_refs n ∨ is_formula_node n = true)) ∧
    (∀ k n, by_id g !! k = Some n → e ∈ input_refs n → k ∈ ds).
Proof.
  intros Hnodes Hb. destruct (build_structure node_list groups Hnodes) as [(by_id & sn & dts & Hs & Heq)|[[Heq _]|(r & Heq & _)]];
    rewrite Heq in Hb; try discriminate Hb. clear Heq.
  unfold plan_graph in Hb. apply bind_Ok in Hb as ([[[[plan order] es] deps] dts'] & Hplan & Hb).
  apply bind_Ok in Hb as ([] & _ & Hb). apply bind_Ok in Hb as (defs & _ & Hb). injection Hb as <-. split; [done|].
  assert (∀ e ds', dts' !! e = Some ds' → ∃ ds, dts !! e = Some ds ∧ (NoDup ds → NoDup ds') ∧
    (∀ k, k ∈ ds → k ∈ ds') ∧ ∀ k, k ∈ ds' → k ∈ ds ∨ ∃ n, by_id !! k = Some n ∧ is_formula_node n = true) as Hdts.
  { destruct (py_sorted group_le groups) as [|g0 gs] eqn:Hgs.
    - apply bind_Ok in Hplan as (o & _ & Hplan). injection Hplan as _ _ _ _ <-. intros e ds' Hd. exists ds'. split_and!; auto.
    - apply bind_Ok in Hplan as (pl & Hpl & Hplan). apply bind_Ok in Hplan as ([[es1 deps1] dts1] & Hseed & Hplan).
      injection Hplan as _ _ _ _ <-. intros e ds' Hd.
      destruct (seed_edges_dependents _ _ _ _ _ _ _ Hseed e ds' Hd) as (ds & Hds & Hnd & Hk). exists ds. split; [done|]. split; [done|].
      split; [intros k ?; apply Hk; by left|]. intros k [?|Hke]%Hk; [by left|right].
      unfold iteration_plan in Hpl. apply bind_Ok in Hpl as (comps & _ & Hpl). apply bind_Ok in Hpl as (cyc & _ & Hpl).
      apply bind_Ok in Hpl as ([ids declared] & Hdecl & _).
      apply list_elem_of_In, in_concat in Hke as (sl & Hsl & Hke). apply in_map_iff in Hsl as (gg & <- & Hgg).
      pose proof (declare_groups_all _ _ _ _ _ Hdecl gg (proj2 (list_elem_of_In _ _) Hgg)) as Hc.
      apply list_elem_of_In, (proj1 (Forall_forall _ _) Hc (k, e)), check_seed_Ok in Hke as (n & _ & Hn & Hf & _). by exists n. }
  intros e ds' He. unfold dependents_of, graph_node in He. cbn [Graph.by_id g_dependents] in *.
  apply bind_Ok in He as (ne & Hne%from_option_err_Ok & Hds'%get_Ok). destruct (Hdts e ds' Hds') as (ds & Hds & Hnd & Hin & Hout).
  destruct Hs as [_ _ _ _ _ _ Htr _]. assert (∀ k n, by_id !! k = Some n → e ∈ input_refs n ↔ k ∈ ds) as Hiff.
  { intros k n Hk. apply (tr_iff _ _ Htr k _ e ds); [by rewrite lookup_fmap, Hk|done]. }
  split; [by eexists|]. split; [apply Hnd; by eapply tr_nodup'|]. split.
  - intros k [Hk|(n & Hn & Hf)]%Hout; [|exists n; auto].
    destruct (tr_closed' _ _ Htr e ds k Hds Hk) as [dx Hdx]. rewrite lookup_fmap in Hdx. destruct (by_id !! k) as [n|] eqn:Hn; [|done].
    exists n. split; [done|]. left. by apply (Hiff k n).
  - intros k n Hn He. apply Hin. by apply (Hiff k n).
Qed.

(** * Properties *)

(** C35: A graph built with iteration groups is well formed.  Whatever the groups,
    when [build] succeeds on checked nodes and groups the graph holds exactly the
    given nodes; its plan runs every node once, alone or in a group; a node alone
    runs after all its inputs, a group after its seeds and every input its members
    read outside of it; a group's members are formulas of their seeds' units; and
    all nodes passed their type checks.  The groups are the cycles: the plan runs
    each group given and no other, a member's group is the nodes that it reads,
    however indirectly, and that read it, and every node that reads itself is in
    one. *)
Theorem build_groups_correct node_list groups g :
  Forall node_ok node_list → Forall (λ g, check_group g = Ok tt) groups → build node_list groups = Ok g →
  graph_ok g ∧ nodes g ≡ₚ node_list ∧ id_of <$> nodes g = sorted_strings (keys (by_id g)) ∧ cycles_declared g groups.
Proof.
  intros Hnodes Hgroups Hb. destruct (build_groups_spec node_list groups g Hnodes Hgroups Hb) as (? & ? & ?).
  split_and!; try done. by apply (build_groups_cycles node_list).
Qed.

(** two formulas that read each other, their seed, and what they read outside *)
Definition half : decimal := Dec false 5 (-1).
Definition loop_nodes : list node :=
  [AnalystAssumptionNode (sample_base "base") (dec_of_Z 100) sample_time "assume-1";
   AnalystAssumptionNode (sample_base "seed") (dec_of_Z 0) sample_time "assume-2";
   ExpressionFormulaNode (sample_base "x") (Binary "+" (Binary "*" (Literal half) (Reference "y")) (Reference "base")) "v1" GRAMMAR_VERSION;
   ExpressionFormulaNode (sample_base "y") (Binary "*" (Literal half) (Reference "x")) "v1" GRAMMAR_VERSION].
Definition loop_group : iteration_group :=
  IterationGroup "loop" ["x"; "y"]%string [("x", "seed"); ("y", "seed")]%string
    [("x", Dec false 1 (-1)); ("y", Dec false 1 (-1))]%string dec_zero 100.

Theorem build_groups_correct_witness :
  ∃ g, build loop_nodes [loop_group] = Ok g ∧
    execution_plan g = [StepNode "base"; StepNode "seed"; StepGroup loop_group]%string ∧ graph_ok g ∧ cycles_declared g [loop_group].
Proof.
  assert ((execution_plan <$> build loop_nodes [loop_group]) = Ok [StepNode "base"; StepNode "seed"; StepGroup loop_group]%string) as Hp
    by (vm_compute; reflexivity).
  destruct (build loop_nodes [loop_group]) as [g|e] eqn:Hb; [|discriminate Hp]. exists g.
  split; [reflexivity|]. split; [by injection Hp|].
  assert (Forall node_ok loop_nodes) as Hn by repeat constructor.
  assert (Forall (λ g, check_group g = Ok tt) [loop_group]) as Hc by (constructor; [vm_compute; reflexivity|constructor]).
  destruct (build_groups_correct loop_nodes [loop_group] g Hn Hc Hb) as (H1 & _ & _ & H2). exact (conj H1 H2).
Defined.
