(* ===== verification/Rounding.v ===== *)
(** ISO 4217 minor-unit quanta
    (packages/calculation-engine/fel_calculation_engine/rounding.py). *)

From S2P Require Import Prelude Decimals Errors.
Local Open Scope Z_scope.

Definition TWO_DIGITS : list string :=
  ["AED"; "AFN"; "ALL"; "AMD"; "ANG"; "AOA"; "ARS"; "AUD"; "AWG"; "AZN"; "BAM"; "BBD"; "BDT"; "BGN"; "BMD"; "BND";
   "BOB"; "BRL"; "BSD"; "BTN"; "BWP"; "BYN"; "BZD"; "CAD"; "CDF"; "CHF"; "CNY"; "COP"; "CRC"; "CUP"; "CVE"; "CZK";
   "DKK"; "DOP"; "DZD"; "EGP"; "ERN"; "ETB"; "EUR"; "FJD"; "FKP"; "GBP"; "GEL"; "GHS"; "GIP"; "GMD"; "GTQ"; "GYD";
   "HKD"; "HNL"; "HTG"; "HUF"; "IDR"; "ILS"; "INR"; "IRR"; "JMD"; "KES"; "KGS"; "KHR"; "KYD"; "KZT"; "LAK"; "LBP";
   "LKR"; "LRD"; "LSL"; "MAD"; "MDL"; "MGA"; "MKD"; "MMK"; "MNT"; "MOP"; "MRU"; "MUR"; "MVR"; "MWK"; "MXN"; "MYR";
   "MZN"; "NAD"; "NGN"; "NIO"; "NOK"; "NPR"; "NZD"; "PAB"; "PEN"; "PGK"; "PHP"; "PKR"; "PLN"; "QAR"; "RON"; "RSD";
   "RUB"; "SAR"; "SBD"; "SCR"; "SDG"; "SEK"; "SGD"; "SHP"; "SLE"; "SOS"; "SRD"; "SSP"; "STN"; "SVC"; "SYP"; "SZL";
   "THB"; "TJS"; "TMT"; "TOP"; "TRY"; "TTD"; "TWD"; "TZS"; "UAH"; "USD"; "UYU"; "UZS"; "WST"; "YER"; "ZAR"; "ZMW";
   "ZWG"].

Definition NO_DIGITS : list string :=
  ["BIF"; "CLP"; "DJF"; "GNF"; "ISK"; "JPY"; "KMF"; "KRW"; "PYG"; "RWF"; "UGX"; "VND"; "VUV"; "XAF"; "XOF"; "XPF"].

Definition THREE_DIGITS : list string := ["BHD"; "IQD"; "JOD"; "KWD"; "LYD"; "OMR"; "TND"].

Definition in_table (l : list string) (c : string) : bool := existsb (String.eqb c) l.

(** [_MINOR_UNITS.get(currency)] *)
Definition minor_units (c : string) : option Z :=
  if in_table TWO_DIGITS c then Some 2
  else if in_table NO_DIGITS c then Some 0
  else if in_table THREE_DIGITS c then Some 3
  else if String.eqb c "CLF" || String.eqb c "UYW" then Some 4
  else None.

(** [Decimal(1).scaleb(-digits)] *)
Definition minor_unit_quantum (c : string) : calc decimal :=
  match minor_units c with
  | Some digits => mret (Dec false 1 (- digits))
  | None => Err UnitError
  end.
