(* ===== verification/Snapshot.v ===== *)
(** Content-addressed graph snapshots and the in-memory snapshot store
    (packages/calculation-engine/fel_calculation_engine/snapshot.py and store.py). *)

From S2P Require Import Prelude Decimals Errors Periods Units Values Formulas Canonical Nodes Iteration Graph.
Local Open Scope Z_scope.

(** * Snapshots *)

Record snapshot := Snapshot {
  snapshot_id : string;
  model_id : string;
  version : Z;
  parent_snapshot_id : option string;
  scenario_id : option string;
  graph : model_graph
}.

(** [_payload] *)
Definition payload_of (model_id : string) (version : Z) (parent_snapshot_id scenario_id : option string)
    (nodes : list node) (groups : list iteration_group) : pyvalue :=
  let v2 := negb (bool_decide (groups = [])) || existsb is_expression nodes in
  VDict ([(Some "schema"%string, VStr (if v2 then "fel-calc-snapshot/v2" else "fel-calc-snapshot/v1"));
          (Some "model_id"%string, VStr model_id);
          (Some "version"%string, VInt version);
          (Some "parent_snapshot_id"%string, opt_view VStr parent_snapshot_id);
          (Some "scenario_id"%string, opt_view VStr scenario_id);
          (Some "nodes"%string, VList (map node_view nodes))]
         ++ if v2 then [(Some "iteration_groups"%string, VList (map group_view groups))] else []).

Definition payload (s : snapshot) : pyvalue :=
  payload_of (model_id s) (version s) (parent_snapshot_id s) (scenario_id s)
    (nodes (graph s)) (iteration_groups (graph s)).

Definition check_snapshot_id (id : string) : calc unit := require_safe_id (PyStr id) SnapshotError;; mret tt.

(** [GraphSnapshot.build] *)
Definition build_snapshot (model_id : string) (node_list : list node) (parent : option snapshot)
    (scenario_id : option string) (groups : option (list iteration_group)) : calc snapshot :=
  check_snapshot_id model_id;;
  match scenario_id with Some s => check_snapshot_id s | None => mret tt end;;
  match parent with
  | Some p => ensure (String.eqb (Snapshot.model_id p) model_id) SnapshotError
  | None => mret tt
  end;;
  let groups := match groups, parent with
                | None, Some p => iteration_groups (graph p)
                | Some g, _ => g
                | None, None => []
                end in
  g ← build node_list groups;
  let version := match parent with None => 1 | Some p => Snapshot.version p + 1 end in
  let parent_id := Snapshot.snapshot_id <$> parent in
  h ← content_hash (payload_of model_id version parent_id scenario_id (nodes g) (iteration_groups g));
  mret (Snapshot h model_id version parent_id scenario_id g).

(** [derive] *)
Definition derive (s : snapshot) (node_list : list node) (scenario_id : option string)
    (groups : option (list iteration_group)) : calc snapshot :=
  build_snapshot (model_id s) node_list (Some s) scenario_id groups.

Definition node_map (l : list node) : gmap string node := foldl (λ m n, <[id_of n := n]> m) ∅ l.
Definition node_values (m : gmap string node) : list node := (map_to_list m).*2.

(** [with_nodes] *)
Definition with_nodes (s : snapshot) (replacements : list node) (scenario_id : option string)
    (groups : option (list iteration_group)) : calc snapshot :=
  let merged := foldl (λ m n, <[id_of n := n]> m) (node_map (nodes (graph s))) replacements in
  derive s (node_values merged) scenario_id groups.

Definition verify (s : snapshot) : calc bool :=
  h ← content_hash (payload s); mret (String.eqb h (snapshot_id s)).

(** * The in-memory store *)

Record store := Store { st_by_id : gmap string snapshot; st_by_model : gmap string (list string) }.

Definition empty_store : store := Store ∅ ∅.

(** [put] *)
Definition put (st : store) (s : snapshot) : calc (string * store) :=
  ok ← verify s;
  ensure ok SnapshotError;;
  match st_by_id st !! snapshot_id s with
  | Some _ => mret (snapshot_id s, st)
  | None =>
      match parent_snapshot_id s with
      | Some p => ensure (bool_decide (is_Some (st_by_id st !! p))) SnapshotError
      | None => mret tt
      end;;
      mret (snapshot_id s,
            Store (<[snapshot_id s := s]> (st_by_id st))
                  (<[model_id s := default [] (st_by_model st !! model_id s) ++ [snapshot_id s]]> (st_by_model st)))
  end.

(** [get] *)
Definition get_snapshot (st : store) (id : string) : calc snapshot := from_option_err SnapshotError (st_by_id st !! id).

(** [lineage]: root first *)
Fixpoint lineage_loop (fuel : nat) (st : store) (current : option string) (chain : list snapshot) : calc (list snapshot) :=
  match current with
  | None => mret chain
  | Some id =>
      match fuel with
      | O => Err OutOfFuel
      | S fuel => s ← get_snapshot st id; lineage_loop fuel st (parent_snapshot_id s) (s :: chain)
      end
  end.

Definition snapshot_lineage (st : store) (id : string) : calc (list snapshot) :=
  lineage_loop (S (size (st_by_id st))) st (Some id) [].

(** the sort key [(version, snapshot_id)] *)
Definition version_le (a b : snapshot) : Prop :=
  version a < version b ∨ (version a = version b ∧ String.le (snapshot_id a) (snapshot_id b)).
#[export] Instance version_le_dec : RelDecision version_le.
Proof. intros a b. unfold version_le. apply _. Defined.

#[export] Instance version_le_trans : Transitive version_le.
Proof. intros a b c. unfold version_le. intros [?|[? ?]] [?|[? ?]]; [left; lia..|right; split; [lia|by etrans]]. Qed.
#[export] Instance version_le_total : Total version_le.
Proof.
  intros a b. unfold version_le. destruct (Z.lt_trichotomy (version a) (version b)) as [?|[?|?]]; [by left; left| |by right; left].
  destruct (total String.le (snapshot_id a) (snapshot_id b)); [left|right]; right; split; try done; lia.
Qed.

(** [versions] *)
Definition versions (st : store) (model : string) : calc (list snapshot) :=
  l ← mapM (get (st_by_id st)) (default [] (st_by_model st !! model));
  mret (py_sorted version_le l).

(** * The store as a state machine *)

(** a store reached from the empty one by successful [put]s *)
Inductive store_reachable : store → Prop :=
| reach_empty : store_reachable empty_store
| reach_put st s id st' : store_reachable st → put st s = Ok (id, st') → store_reachable st'.

(** [l] lists the stored snapshots in insertion order. *)
Record store_inv (st : store) (l : list snapshot) : Prop := StoreInv {
  si_nodup : NoDup (snapshot_id <$> l);
  si_by_id : ∀ k s, st_by_id st !! k = Some s ↔ s ∈ l ∧ snapshot_id s = k;
  si_parent : ∀ pre s post, l = pre ++ s :: post →
    match parent_snapshot_id s with None => True | Some p => ∃ q, q ∈ pre ∧ snapshot_id q = p end;
  si_by_model : ∀ m, default [] (st_by_model st !! m) = snapshot_id <$> filter (λ s, model_id s = m) l;
  si_verified : Forall (λ s, verify s = Ok true) l
}.

Lemma store_inv_put st l s id st' :
  store_inv st l → put st s = Ok (id, st') →
  id = snapshot_id s ∧ ∃ l', store_inv st' l' ∧ (st' = st ∧ l' = l ∧ is_Some (st_by_id st !! id) ∨ l' = l ++ [s]).
Proof.
  intros [Hnd Hby Hpar Hmod Hver] H. unfold put in H.
  apply bind_Ok in H as (ok & Hok & H). apply bind_Ok in H as ([] & Hens & H). apply ensure_Ok in Hens as ->.
  destruct (st_by_id st !! snapshot_id s) as [s0|] eqn:Hs; [ok_inv; split; [done|]; exists l; split; [done|left]; split_and!; [done|done|by eexists]|].
  apply bind_Ok in H as ([] & Hp & H). ok_inv. split; [done|]. exists (l ++ [s]).
  assert (Hnew : ∀ q, q ∈ l → snapshot_id q ≠ snapshot_id s).
  { intros q Hq He. assert (st_by_id st !! snapshot_id s = Some q) by (by apply Hby). congruence. }
  split; [|by right]. constructor; cbn [st_by_id st_by_model].
  - rewrite fmap_app. apply NoDup_app. split_and!; [done| |apply NoDup_singleton].
    intros k (q & -> & Hq)%list_elem_of_fmap Hk. apply list_elem_of_singleton in Hk. by apply (Hnew q).
  - intros k q. rewrite lookup_insert_Some, Hby, elem_of_app, list_elem_of_singleton. split.
    + intros [[<- <-]|[Hne [Hq Hk]]]; [by auto|by auto].
    + intros [[Hq| ->] <-]; [right; split; [by intros ?; apply (Hnew q)|done]|by left].
  - intros pre q post Heq. destruct (decide (post = [])) as [->|Hne].
    + apply app_inj_tail in Heq as [<- <-]. destruct (parent_snapshot_id s) as [p|]; [|done].
      apply ensure_Ok in Hp. btrue. destruct Hp as [q Hq]. apply Hby in Hq. by exists q.
    + destruct (exists_last Hne) as (post' & z & ->). rewrite app_comm_cons, app_assoc in Heq.
      apply app_inj_tail in Heq as [-> <-]. by apply (Hpar pre q post').
  - intros m. rewrite filter_app, fmap_app. destruct (decide (m = model_id s)) as [->|Hne].
    + rewrite lookup_insert_eq. cbn [default]. rewrite Hmod. f_equal. by rewrite filter_cons_True.
    + rewrite lookup_insert_ne by done. rewrite Hmod, filter_cons_False by done. cbn. by rewrite app_nil_r.
  - apply Forall_app. split; [done|]. by constructor.
Qed.

Lemma store_reachable_inv st : store_reachable st → ∃ l, store_inv st l.
Proof.
  induction 1 as [|st s id st' _ [l Hl] Hput].
  - exists []. constructor; cbn; [constructor| |by intros []|done|constructor].
    intros k s. rewrite lookup_empty. set_solver.
  - destruct (store_inv_put st l s id st' Hl Hput) as (_ & l' & Hl' & _). by exists l'.
Qed.

(** a chain of ancestors, the first below [parent] *)
Fixpoint rooted (parent : option string) (c : list snapshot) : Prop :=
  match c with
  | [] => True
  | s :: c => parent_snapshot_id s = parent ∧ rooted (Some (snapshot_id s)) c
  end.

Lemma store_inv_length st l : store_inv st l → length l = size (st_by_id st).
Proof.
  intros Hi. rewrite <- length_keys, <- (length_fmap snapshot_id l). apply Permutation_length, NoDup_Permutation;
    [apply Hi|apply NoDup_keys|]. intros k. rewrite elem_of_keys, list_elem_of_fmap. split.
  - intros (s & -> & Hs). exists s. by apply (si_by_id _ _ Hi).
  - intros [s Hs]. apply (si_by_id _ _ Hi) in Hs as [Hs <-]. by exists s.
Qed.

(** Walking parents from the [i]-th stored snapshot ends within [i + 1] steps. *)
Lemma lineage_loop_spec st l i s fuel chain :
  store_inv st l → l !! i = Some s → (i < fuel)%nat → rooted (Some (snapshot_id s)) chain →
  ∃ c, lineage_loop fuel st (Some (snapshot_id s)) chain = Ok (c ++ s :: chain) ∧ rooted None (c ++ s :: chain) ∧
    ∀ q, q ∈ c → q ∈ l.
Proof.
  intros Hi. revert i s chain. induction fuel as [|fuel IH]; intros i s chain Hs Hlt Hroot; [lia|].
  cbn [lineage_loop]. unfold get_snapshot at 1.
  rewrite (proj2 (si_by_id _ _ Hi (snapshot_id s) s)) by (split; [by eapply list_elem_of_lookup_2|done]).
  cbn [from_option_err]. rewrite bind_ok. pose proof (si_parent _ _ Hi (take i l) s (drop (S i) l)) as Hp.
  rewrite take_drop_middle in Hp by done. specialize (Hp eq_refl). destruct (parent_snapshot_id s) as [p|] eqn:Hpar.
  - destruct Hp as (q & Hq & <-). apply list_elem_of_lookup in Hq as [j Hj]. apply lookup_take_Some in Hj as [Hj Hji].
    destruct (IH j q (s :: chain) Hj ltac:(lia)) as (c & Hc & Hr & Hin); [by cbn|].
    exists (c ++ [q]). rewrite <- app_assoc. cbn. split_and!; [done|done|].
    intros x [Hx|Hx]%elem_of_app; [by apply Hin|]. apply list_elem_of_singleton in Hx as ->. by eapply list_elem_of_lookup_2.
  - exists []. cbn. split_and!; [by destruct fuel|by rewrite Hpar|done|set_solver].
Qed.

(** two versions of the sample model, stored in order *)
Definition sample_store : calc store :=
  s1 ← build_snapshot "model" sample_nodes None None None;
  s2 ← derive s1 sample_nodes (Some "bull"%string) None;
  '(_, st) ← put empty_store s1;
  '(_, st) ← put st s2;
  mret st.

Lemma sample_store_spec : ∃ st s2, sample_store = Ok st ∧ store_reachable st ∧ st_by_id st !! snapshot_id s2 = Some s2.
Proof.
  assert (is_ok sample_store = true) as H by (vm_compute; reflexivity). unfold sample_store in *.
  destruct (build_snapshot _ _ _ _ _) as [s1|]; [|discriminate H]. rewrite bind_ok in *.
  destruct (derive _ _ _ _) as [s2|]; [|discriminate H]. rewrite bind_ok in *.
  destruct (put empty_store s1) as [[i1 st1]|] eqn:H1; [|discriminate H]. rewrite bind_ok in *.
  destruct (put st1 s2) as [[i2 st2]|] eqn:H2; [|discriminate H]. rewrite bind_ok in *.
  assert (store_reachable st2) as Hr by (eapply reach_put; [eapply reach_put; [constructor|exact H1]|exact H2]).
  pose proof (reach_put _ _ _ _ reach_empty H1) as Hr1. destruct (store_reachable_inv _ Hr1) as [l1 Hi1].
  destruct (store_inv_put _ _ _ _ _ Hi1 H2) as (-> & l2 & Hi2 & [(-> & -> & [s Hs])| ->]).
  - exists st1, s. split; [reflexivity|]. split; [exact Hr1|]. by rewrite (proj2 (proj1 (si_by_id _ _ Hi1 _ _) Hs)).
  - exists st2, s2. split; [reflexivity|]. split; [exact Hr|]. apply (si_by_id _ _ Hi2). split; [|done].
    apply elem_of_app. right. left.
Qed.

(** * Properties *)

(** A built snapshot is what its id says.  It verifies against its own content,
    continues its parent's version count, keeps the parent's iteration groups
    unless given others, and does not depend on the order of its nodes. *)
Theorem build_snapshot_verifies model nodes parent scenario groups s :
  build_snapshot model nodes parent scenario groups = Ok s →
  verify s = Ok true ∧ model_id s = model ∧ scenario_id s = scenario ∧
  version s = match parent with None => 1 | Some p => version p + 1 end ∧
  parent_snapshot_id s = snapshot_id <$> parent ∧
  (∃ gs, build nodes gs = Ok (graph s) ∧
     gs = match groups, parent with Some g, _ => g | None, Some p => iteration_groups (graph p) | None, None => [] end) ∧
  ∀ nodes', nodes' ≡ₚ nodes → build_snapshot model nodes' parent scenario groups = Ok s.
Proof.
  intros H. pose proof H as H0. unfold build_snapshot in H. cbv zeta in H.
  apply bind_Ok in H as ([] & _ & H). apply bind_Ok in H as ([] & _ & H). apply bind_Ok in H as ([] & _ & H).
  apply bind_Ok in H as (g & Hg & H). apply bind_Ok in H as (h & Hh & H). injection H as <-. split_and!; try reflexivity.
  - unfold verify, payload. cbn [model_id version parent_snapshot_id scenario_id graph snapshot_id]. rewrite Hh, bind_ok. by rewrite String.eqb_refl.
  - eexists. split; [exact Hg|]. by destruct groups, parent.
  - intros nodes' Hp. rewrite <- H0. unfold build_snapshot. destruct (check_snapshot_id model); [|done]. rewrite !bind_ok.
    unfold build. by rewrite (add_nodes_perm nodes' nodes ∅ Hp).
Qed.

Theorem build_snapshot_verifies_witness :
  ∃ s, build_snapshot "model" sample_nodes None None None = Ok s ∧ verify s = Ok true ∧
    build_snapshot "model" (reverse sample_nodes) None None None = Ok s.
Proof.
  assert (is_ok (build_snapshot "model" sample_nodes None None None) = true) as H by (vm_compute; reflexivity).
  destruct (build_snapshot "model" sample_nodes None None None) as [s|e] eqn:Hs; [|discriminate H].
  exists s. split; [reflexivity|].
  destruct (build_snapshot_verifies "model" sample_nodes None None None s Hs) as (Hv & _ & _ & _ & _ & _ & Hperm).
  split; [exact Hv|]. apply Hperm. apply reverse_Permutation.
Defined.

(** A snapshot's lineage is complete.  In any store reached by successful
    [put]s, walking the parents of a stored snapshot ends (the model's bound is
    never hit, no parent is missing) and returns the chain from a parentless root
    to the snapshot itself, each the parent of the next and each unaltered since
    it was hashed; an unknown id is refused. *)
Theorem store_lineage_complete st id :
  store_reachable st →
  match snapshot_lineage st id with
  | Ok chain => ∃ c s, chain = c ++ [s] ∧ snapshot_id s = id ∧ rooted None chain ∧
      Forall (λ q, st_by_id st !! snapshot_id q = Some q ∧ verify q = Ok true) chain
  | Err e => e = SnapshotError ∧ st_by_id st !! id = None
  end.
Proof.
  intros [l Hi]%store_reachable_inv. unfold snapshot_lineage.
  destruct (st_by_id st !! id) as [s|] eqn:Hs.
  2: { cbn [lineage_loop]. unfold get_snapshot. by rewrite Hs. }
  apply (si_by_id _ _ Hi) in Hs as [Hin <-]. pose proof Hin as Hl. apply list_elem_of_lookup in Hl as [i Hl].
  destruct (lineage_loop_spec st l i s (S (size (st_by_id st))) [] Hi Hl) as (c & -> & Hr & Hc); [|done|].
  { apply lookup_lt_Some in Hl. rewrite (store_inv_length st l Hi) in Hl. lia. }
  exists c, s. split_and!; [done|done|done|]. apply Forall_forall. intros q Hq. assert (q ∈ l) as Hql.
  { apply elem_of_app in Hq as [Hq|Hq]; [by apply Hc|]. by apply list_elem_of_singleton in Hq as ->. }
  split; [by apply (si_by_id _ _ Hi)|]. pose proof (si_verified _ _ Hi) as Hv. by eapply Forall_forall in Hv.
Qed.

Theorem store_lineage_complete_witness :
  ∃ st s c, store_reachable st ∧ st_by_id st !! snapshot_id s = Some s ∧
    snapshot_lineage st (snapshot_id s) = Ok c ∧ rooted None c.
Proof.
  destruct sample_store_spec as (st & s & _ & Hr & Hs). pose proof (store_lineage_complete st (snapshot_id s) Hr) as H.
  destruct (snapshot_lineage st (snapshot_id s)) as [c|e] eqn:Hc.
  - exists st, s, c. split; [exact Hr|]. split; [exact Hs|]. split; [exact Hc|]. destruct H as (? & ? & _ & _ & H & _). exact H.
  - exfalso. destruct H as [_ H]. rewrite Hs in H. discriminate H.
Defined.

(** Version listing is complete and ordered: it returns exactly the stored
    snapshots of the model, each once, by version and then by id. *)
Theorem store_versions_sorted st m :
  store_reachable st →
  ∃ l, versions st m = Ok l ∧ StronglySorted version_le l ∧ NoDup l ∧
    ∀ s, s ∈ l ↔ st_by_id st !! snapshot_id s = Some s ∧ model_id s = m.
Proof.
  intros [l Hi]%store_reachable_inv. unfold versions. rewrite (si_by_model _ _ Hi).
  assert (Hm : mapM (get (st_by_id st)) (snapshot_id <$> filter (λ s, model_id s = m) l) = Ok (filter (λ s, model_id s = m) l)).
  { apply mapM_Ok, Forall2_fmap_l, Forall_Forall2_diag, Forall_forall. intros s [_ Hs]%list_elem_of_filter.
    by apply get_Some, (si_by_id _ _ Hi). }
  rewrite Hm, bind_ok. eexists. split; [done|]. split; [apply py_sorted_sorted; apply _|]. split.
  - apply NoDup_py_sorted, NoDup_filter, (NoDup_fmap_1 snapshot_id), Hi.
  - intros s. rewrite elem_of_py_sorted, list_elem_of_filter, (si_by_id _ _ Hi). naive_solver.
Qed.

Theorem store_versions_sorted_witness :
  ∃ st s l, store_reachable st ∧ versions st (model_id s) = Ok l ∧ s ∈ l ∧ StronglySorted version_le l.
Proof.
  destruct sample_store_spec as (st & s & _ & Hr & Hs).
  destruct (store_versions_sorted st (model_id s) Hr) as (l & Hl & Hsort & _ & Hin).
  exists st, s, l. split; [exact Hr|]. split; [exact Hl|]. split; [apply Hin; split; [exact Hs|reflexivity]|exact Hsort].
Defined.
