(* ===== verification/Scenario.v ===== *)
(** Sparse scenario layers over a base snapshot
    (packages/calculation-engine/fel_calculation_engine/scenario.py). *)

From S2P Require Import Prelude Decimals Errors Periods Units Values Formulas Canonical Nodes Iteration Graph Snapshot.
Local Open Scope Z_scope.

Record scenario := Scenario {
  sc_id : string;
  sc_label : string;
  overrides : list (string * decimal);
  sc_as_of : datetime
}.

Definition check_scenario_id (id : string) : calc unit := require_safe_id (PyStr id) ScenarioError;; mret tt.

(** [Scenario.__post_init__] *)
Definition check_scenario (s : scenario) : calc unit :=
  check_scenario_id (sc_id s);;
  ensure (aware (sc_as_of s)) ScenarioError;;
  ensure (negb (bool_decide (overrides s = []))) ScenarioError;;
  let ks := (overrides s).*1 in
  ensure (bool_decide (ks = sorted_strings ks) && bool_decide (NoDup ks)) ScenarioError;;
  for_each (λ kv, check_scenario_id (fst kv);; check_decimal (snd kv)) (overrides s).

Definition make_scenario (s : scenario) : calc scenario := check_scenario s;; mret s.

(** [Scenario.of]; the mapping is its items, keys distinct *)
Definition scenario_of (id label : string) (items : list (string * decimal)) (as_of : datetime) : calc scenario :=
  make_scenario (Scenario id label (py_sorted key_le items) as_of).

(** the overrides that shadow [current] *)
Definition shadows_of (g : model_graph) (current : string) : calc (list string) :=
  ds ← dependents_of g current;
  filterM (λ d, n ← get (by_id g) d;
                roles ← Nodes.inputs n;
                mret (bool_decide (kind_of n = SCENARIO_OVERRIDE) &&
                      bool_decide (roles = [("overrides"%string, current)]))) ds.

(** [_effective] *)
Fixpoint effective_loop (fuel : nat) (g : model_graph) (current : string) : calc string :=
  match fuel with
  | O => Err OutOfFuel
  | S fuel =>
      shadows ← shadows_of g current;
      match shadows with
      | [] => mret current
      | [s] => effective_loop fuel g s
      | _ => Err ScenarioError
      end
  end.

Definition effective (g : model_graph) (id : string) : calc string := effective_loop (S (size (by_id g))) g id.

Definition swap_refs (old new : string) (l : list string) : list string :=
  map (λ r, if String.eqb r old then new else r) l.

(** [_rewire] *)
Definition rewire (n : node) (old new : string) : calc node :=
  match n with
  | OperationalDriverNode b _ => make_node (OperationalDriverNode b new)
  | ExpressionFormulaNode b ast v g =>
      ast' ← rewrite_formula_references ast {[old := new]};
      make_node (ExpressionFormulaNode b ast' v g)
  | FormulaNode b op l v => make_node (FormulaNode b op (swap_refs old new l) v)
  | AggregationNode b op l => make_node (AggregationNode b op (swap_refs old new l))
  | ValidationCheckNode b c l t => make_node (ValidationCheckNode b c (swap_refs old new l) t)
  | ReportedFinancialOutputNode b _ m q => make_node (ReportedFinancialOutputNode b new m q)
  | _ => Err ScenarioError
  end.

Definition override_id_of (s : scenario) (target : string) : string := (target +:+ "--" +:+ sc_id s)%string.

(** the node an override becomes *)
Definition override_node (s : scenario) (target : node) (effective_id : string) (value : decimal) : calc node :=
  make_node (ScenarioOverrideNode
    (Base (override_id_of s (id_of target)) (sc_label s +:+ ": " +:+ label (base_of target))%string
          (unit_of target) (period_of target))
    value (sc_as_of s) effective_id (sc_id s) (sc_id s +:+ ":" +:+ id_of target)%string).

(** [for dependent_id in graph.dependents(effective_id)] *)
Definition rewire_dependent (effective_id override_id : string) (nodes : gmap string node) (d : string)
    : calc (gmap string node) :=
  n ← get nodes d;
  match kind_of n with
  | SCENARIO_OVERRIDE => mret nodes
  | _ => n' ← rewire n effective_id override_id; mret (<[d := n']> nodes)
  end.

(** [for target_id, value in scenario.overrides]; the state is [(nodes, seed_rewrites)] *)
Definition apply_override (g : model_graph) (s : scenario) (st : gmap string node * gmap string string)
    (kv : string * decimal) : calc (gmap string node * gmap string string) :=
  let '(nodes, seed_rewrites) := st in
  let '(target_id, value) := kv in
  target ← graph_node g target_id;
  ensure (overridable (kind_of target) && negb (bool_decide (kind_of target = SCENARIO_OVERRIDE))) ScenarioError;;
  effective_id ← effective g target_id;
  let override_id := override_id_of s target_id in
  ensure (negb (bool_decide (is_Some (nodes !! override_id)))) ScenarioError;;
  o ← override_node s target effective_id value;
  dependents ← dependents_of g effective_id;
  nodes ← foldM (rewire_dependent effective_id override_id) (<[override_id := o]> nodes) dependents;
  mret (nodes, <[effective_id := override_id]> seed_rewrites).

Definition rewrite_group (seed_rewrites : gmap string string) (g : iteration_group) : calc iteration_group :=
  make_group (IterationGroup (group_id g) (members g)
    (map (λ ms, (fst ms, default (snd ms) (seed_rewrites !! snd ms))) (seeds g))
    (absolute_tolerances g) (relative_tolerance g) (max_iterations g)).

Definition apply_scenario (b : snapshot) (s : scenario) : calc snapshot :=
  '(nodes, seed_rewrites) ← foldM (apply_override (graph b) s) (node_map (nodes (graph b)), ∅) (overrides s);
  groups ← mapM (rewrite_group seed_rewrites) (iteration_groups (graph b));
  derive b (node_values nodes) (Some (sc_id s)) (Some groups).

(** * Lemmas *)

Lemma rewire_Ok n old new n' :
  rewire n old new = Ok n' → base_of n' = base_of n ∧ kind_of n' = kind_of n ∧ provenance_of n = DERIVED.
Proof.
  intros H. destruct n; cbn in H; try done; try (apply bind_Ok in H as (a & _ & H));
    unfold make_node in H; ok_inv; done.
Qed.

Lemma node_map_lookup l k n :
  NoDup (id_of <$> l) → node_map l !! k = Some n ↔ n ∈ l ∧ id_of n = k.
Proof.
  intros Hnd. unfold node_map. rewrite (foldl_insert_lookup (λ n, n)) by done. rewrite lookup_empty. split.
  - intros [(m & Hm & Hk & ->)|[_ ?]]; [|done]. done.
  - intros [Hn Hk]. left. by exists n.
Qed.

Lemma in_node_values m n : n ∈ node_values m ↔ ∃ k, m !! k = Some n.
Proof.
  unfold node_values. rewrite list_elem_of_fmap. split.
  - intros ([k n'] & -> & H). exists k. by apply elem_of_map_to_list.
  - intros [k H]. exists (k, n). split; [done|]. by apply elem_of_map_to_list.
Qed.

(** A built graph stores exactly its nodes, each under its own id. *)
Lemma build_by_id l gs g :
  build l gs = Ok g →
  NoDup (id_of <$> nodes g) ∧ (∀ k n, by_id g !! k = Some n ↔ n ∈ nodes g ∧ id_of n = k) ∧ ∀ n, n ∈ nodes g ↔ n ∈ l.
Proof.
  intros H. unfold build in H. apply bind_Ok in H as (m & Hm & H). apply bind_Ok in H as (sn & Hsn & H).
  apply bind_Ok in H as ([[es deps] dts] & _ & H).
  assert (nodes g = sn ∧ by_id g = m) as [-> ->].
  { unfold plan_graph in H. apply bind_Ok in H as ([[[[? ?] ?] ?] ?] & _ & H). ok_inv. done. }
  apply add_nodes_Ok in Hm as (Hnd & _ & Hm). apply mapM_Ok in Hsn.
  assert (Hm' : ∀ k n, m !! k = Some n ↔ n ∈ l ∧ id_of n = k) by (intros k n; rewrite Hm, lookup_empty; naive_solver).
  assert (Hin : ∀ n, n ∈ sn ↔ ∃ k, m !! k = Some n).
  { intros n. split.
    - intros Hn. apply list_elem_of_lookup in Hn as [i Hi]. destruct (Forall2_lookup_r _ _ _ _ _ Hsn Hi) as (k & _ & Hk%get_Ok). by exists k.
    - intros [k Hk]. assert (k ∈ sorted_strings (keys m)) as Hks by (apply elem_of_sorted_strings, elem_of_keys; by eexists).
      apply list_elem_of_lookup in Hks as [i Hi]. destruct (Forall2_lookup_l _ _ _ _ _ Hsn Hi) as (n' & Hn' & Hk'%get_Ok).
      simplify_eq. by eapply list_elem_of_lookup_2. }
  assert (Hids : id_of <$> sn = sorted_strings (keys m)).
  { clear -Hsn Hm'. induction Hsn as [|k n ks ns Hk%get_Ok Hf IH]; [done|]. cbn. rewrite IH. by apply Hm' in Hk as [_ ->]. }
  split_and!.
  - rewrite Hids. apply NoDup_sorted_strings, NoDup_keys.
  - intros k n. rewrite Hm', Hin. split; [intros [? ?]; split; [exists k; by apply Hm'|done]|].
    intros [[k' Hk'%Hm'] Hk]. by destruct Hk'.
  - intros n. rewrite Hin. setoid_rewrite Hm'. naive_solver.
Qed.

(** ** What one override does *)

(** the override node of a target, over its effective tail *)
Definition shadowing (g : model_graph) (s : scenario) (nodes : gmap string node) (kv : string * decimal) : Prop :=
  ∃ target eff, by_id g !! fst kv = Some target ∧ effective g (fst kv) = Ok eff ∧
    overridable (kind_of target) = true ∧ kind_of target ≠ SCENARIO_OVERRIDE ∧
    nodes !! override_id_of s (fst kv) =
      Some (ScenarioOverrideNode
              (Base (override_id_of s (id_of target)) (sc_label s +:+ ": " +:+ label (base_of target))%string
                 (unit_of target) (period_of target))
              (snd kv) (sc_as_of s) eff (sc_id s) (sc_id s +:+ ":" +:+ id_of target)%string).

(** the same node, except for what a derived node reads *)
Definition same_but_inputs (n n' : node) : Prop :=
  base_of n' = base_of n ∧ kind_of n' = kind_of n ∧ (provenance_of n ≠ DERIVED → n' = n).

#[export] Instance same_but_inputs_refl : Reflexive same_but_inputs.
Proof. by intros n. Qed.

Lemma kind_provenance n n' : kind_of n' = kind_of n → provenance_of n' = provenance_of n.
Proof. by destruct n, n'. Qed.

Lemma same_but_inputs_trans n1 n2 n3 : same_but_inputs n1 n2 → same_but_inputs n2 n3 → same_but_inputs n1 n3.
Proof.
  intros (H1 & H2 & H3) (H4 & H5 & H6). split_and!; [congruence..|]. intros Hp. rewrite H6; [by apply H3|].
  by rewrite (kind_provenance n1 n2).
Qed.

(** a map of nodes evolves: no key is lost, and only derived nodes change *)
Definition evolves (m m' : gmap string node) : Prop :=
  (∀ k, is_Some (m' !! k) ↔ is_Some (m !! k)) ∧
  ∀ k n, m !! k = Some n → ∃ n', m' !! k = Some n' ∧ same_but_inputs n n'.

Lemma rewire_dependents eff oid ds m m' : foldM (rewire_dependent eff oid) m ds = Ok m' → evolves m m'.
Proof.
  intros H. refine (foldM_inv _ (λ _ m', evolves m m') _ _ m' _ _ H).
  - split; [done|]. intros k n Hk. exists n. by split.
  - intros pre d m1 m2 _ [Hdom Hsame] Hstep. unfold rewire_dependent in Hstep. apply bind_Ok in Hstep as (n & Hn%get_Ok & Hstep).
    assert (m2 = m1 ∨ ∃ n', rewire n eff oid = Ok n' ∧ m2 = <[d := n']> m1) as [->|(n' & Hn' & ->)]; [|done|].
    { destruct (kind_of n); try (ok_inv; by left); apply bind_Ok in Hstep as (n' & ? & Hs); ok_inv; right; by exists n'. }
    apply rewire_Ok in Hn' as (Hb & Hk & Hp). split.
    + intros k. rewrite lookup_insert_is_Some', Hdom. split; [intros [<-|?]; [apply Hdom; by eexists|done]|by right].
    + intros k n0 Hk0. destruct (Hsame k n0 Hk0) as (n1 & Hn1 & Hsb). destruct (decide (k = d)) as [->|Hne].
      * exists n'. rewrite lookup_insert_eq. split; [done|]. simplify_eq. eapply same_but_inputs_trans; [done|]. by split_and!.
      * exists n1. by rewrite lookup_insert_ne.
Qed.

Record scenario_inv (g : model_graph) (s : scenario) (m0 : gmap string node) (pre : list (string * decimal))
    (m : gmap string node) : Prop := ScenarioInv {
  sv_kept : ∀ k n, m0 !! k = Some n → ∃ n', m !! k = Some n' ∧ same_but_inputs n n';
  sv_dom : ∀ k, is_Some (m !! k) ↔ is_Some (m0 !! k) ∨ k ∈ override_id_of s <$> pre.*1;
  sv_fresh : ∀ t, t ∈ pre.*1 → m0 !! override_id_of s t = None;
  sv_shadow : Forall (shadowing g s m) pre
}.

Lemma shadowing_mono g s m m' kv :
  (∀ k n, m !! k = Some n → provenance_of n ≠ DERIVED → m' !! k = Some n) → shadowing g s m kv → shadowing g s m' kv.
Proof.
  intros Hm (t & eff & Ht & He & Ho & Hk & Hn). exists t, eff. split_and!; try done. by apply Hm.
Qed.

Lemma apply_override_inv g s m0 pre kv m sr m' sr' :
  scenario_inv g s m0 pre m → apply_override g s (m, sr) kv = Ok (m', sr') → scenario_inv g s m0 (pre ++ [kv]) m'.
Proof.
  intros [Hkept Hdom Hfr Hsh] H. destruct kv as [t v]. unfold apply_override in H.
  apply bind_Ok in H as (target & Ht & H). unfold graph_node in Ht. apply from_option_err_Ok in Ht.
  apply bind_Ok in H as ([] & Hover & H). apply ensure_Ok in Hover. btrue.
  apply bind_Ok in H as (eff & Heff & H). cbv zeta in H. apply bind_Ok in H as ([] & Hfresh & H). apply ensure_Ok in Hfresh. btrue.
  apply bind_Ok in H as (o & Ho & H). apply bind_Ok in H as (ds & _ & H). apply bind_Ok in H as (m2 & Hm2 & H). ok_inv.
  unfold override_node, make_node in Ho. apply bind_Ok in Ho as ([] & _ & Ho). ok_inv.
  set (oid := override_id_of s t) in *.
  assert (Hnone : m !! oid = None) by (destruct (m !! oid); [destruct Hfresh; by eexists|done]).
  apply rewire_dependents in Hm2 as [Hd2 Hs2].
  assert (Hold : ∀ k n, m !! k = Some n → ∃ n', m' !! k = Some n' ∧ same_but_inputs n n').
  { intros k n Hk. apply Hs2. rewrite lookup_insert_ne; [done|]. intros <-. congruence. }
  assert (Hleaf : ∀ k n, m !! k = Some n → provenance_of n ≠ DERIVED → m' !! k = Some n).
  { intros k n Hk Hp. destruct (Hold k n Hk) as (n' & Hn' & _ & _ & Hs). by rewrite <- (Hs Hp). }
  constructor.
  - intros k n Hk. destruct (Hkept k n Hk) as (n1 & Hn1 & Hs1). destruct (Hold k n1 Hn1) as (n2 & Hn2 & Hs2').
    exists n2. split; [done|]. by eapply same_but_inputs_trans.
  - intros k. rewrite Hd2, lookup_insert_is_Some', Hdom, !fmap_app, elem_of_app. cbn. rewrite list_elem_of_singleton.
    fold oid. naive_solver.
  - intros t'. rewrite fmap_app, elem_of_app. intros [Ht'|Ht']; [by apply Hfr|].
    cbn in Ht'. apply list_elem_of_singleton in Ht' as ->. fold oid. destruct (m0 !! oid) as [n|] eqn:Hm0; [|done].
    destruct (Hkept _ _ Hm0) as (n' & Hn' & _). congruence.
  - apply Forall_app. split; [eapply Forall_impl; [exact Hsh|]; intros kv; by apply shadowing_mono|].
    constructor; [|constructor]. exists target, eff. cbn [fst snd]. fold oid. split_and!; try done.
    destruct (Hs2 oid _ (lookup_insert_eq _ _ _)) as (n' & Hn' & _ & _ & Hsame). by rewrite Hn', Hsame.
Qed.

(** What applying a scenario builds: the nodes after all overrides, and the
    groups with their seeds re-pointed. *)
Lemma apply_scenario_nodes l gs b s s' :
  build l gs = Ok (graph b) → apply_scenario b s = Ok s' →
  ∃ m sr groups,
    foldM (apply_override (graph b) s) (node_map (nodes (graph b)), ∅) (overrides s) = Ok (m, sr) ∧
    mapM (rewrite_group sr) (iteration_groups (graph b)) = Ok groups ∧
    derive b (node_values m) (Some (sc_id s)) (Some groups) = Ok s' ∧
    build (node_values m) groups = Ok (graph s') ∧
    (∀ k n, node_map (nodes (graph b)) !! k = Some n ↔ by_id (graph b) !! k = Some n) ∧
    scenario_inv (graph b) s (node_map (nodes (graph b))) (overrides s) m ∧
    (∀ k n, by_id (graph s') !! k = Some n ↔ m !! k = Some n).
Proof.
  intros Hb H. destruct (build_by_id _ _ _ Hb) as (Hnd & Hby & _). unfold apply_scenario in H.
  apply bind_Ok in H as ([m sr] & Hm & H). apply bind_Ok in H as (groups & Hgs & H).
  assert (Hi : scenario_inv (graph b) s (node_map (nodes (graph b))) (overrides s) m).
  { refine (foldM_inv _ (λ pre st, scenario_inv (graph b) s (node_map (nodes (graph b))) pre st.1) _ _ (m, sr) _ _ Hm).
    - constructor; cbn; [intros k n ?; by exists n| |set_solver|constructor]. intros k. set_solver.
    - intros pre kv [m1 sr1] [m2 sr2] _. apply apply_override_inv. }
  assert (Hbase : ∀ k n, node_map (nodes (graph b)) !! k = Some n ↔ by_id (graph b) !! k = Some n).
  { intros k n. by rewrite node_map_lookup, Hby. }
  assert (Hg' : build (node_values m) groups = Ok (graph s')).
  { unfold derive, build_snapshot in H. cbv zeta in H.
    apply bind_Ok in H as ([] & _ & H). apply bind_Ok in H as ([] & _ & H). apply bind_Ok in H as ([] & _ & H).
    apply bind_Ok in H as (g' & Hg' & H). apply bind_Ok in H as (h & _ & H). by injection H as <-. }
  exists m, sr, groups. repeat (split; [done|]). destruct (build_by_id _ _ _ Hg') as (_ & Hby' & Hin').
  assert (Hids : ∀ k n, m !! k = Some n → id_of n = k).
  { intros k n Hk. assert (is_Some (m !! k)) as [[n0 Hn0]|Hk']%(sv_dom _ _ _ _ _ Hi) by (by eexists).
    - destruct (sv_kept _ _ _ _ _ Hi k n0 Hn0) as (n1 & Hn1 & Hb1 & _). simplify_eq. unfold id_of. rewrite Hb1.
      apply Hbase, Hby in Hn0 as [_ Hid]. exact Hid.
    - apply list_elem_of_fmap in Hk' as (t & -> & ([t' v] & -> & Htv)%list_elem_of_fmap).
      pose proof (sv_shadow _ _ _ _ _ Hi) as Hsh. eapply Forall_forall in Hsh as (target & eff & Ht & _ & _ & _ & Hn); [|exact Htv].
      cbn [fst] in *. simplify_eq. unfold id_of at 1. cbn. by apply Hby in Ht as [_ ->]. }
  intros k n. rewrite Hby', Hin', in_node_values. split; [|intros Hk; split; [by exists k|by apply Hids]].
  intros [[k' Hk'] <-]. by rewrite (Hids _ _ Hk').
Qed.

(** * Properties *)

(** Applying a scenario is sparse and only adds.  The child continues the base
    snapshot's model under the scenario's id; every override of the scenario is a
    node holding its value, shadowing the effective tail of an assumption or
    driver with that node's unit and period; every base node is still there under
    its id, label, unit, period and kind, unchanged if it is a leaf (source
    facts, assumptions, forecasts, earlier overrides) and at most re-pointed
    otherwise; and there is nothing else. *)
Theorem apply_scenario_sparse l gs b s s' :
  build l gs = Ok (graph b) → apply_scenario b s = Ok s' →
  model_id s' = model_id b ∧ version s' = version b + 1 ∧ parent_snapshot_id s' = Some (snapshot_id b) ∧
  scenario_id s' = Some (sc_id s) ∧
  Forall (shadowing (graph b) s (by_id (graph s'))) (overrides s) ∧
  (∀ k n, by_id (graph b) !! k = Some n → ∃ n', by_id (graph s') !! k = Some n' ∧ same_but_inputs n n') ∧
  (∀ k, is_Some (by_id (graph s') !! k) ↔
     is_Some (by_id (graph b) !! k) ∨ k ∈ override_id_of s <$> (overrides s).*1).
Proof.
  intros Hb H. destruct (apply_scenario_nodes l gs b s s' Hb H) as (m & sr & groups & _ & _ & Hd & _ & Hbase & Hi & Hm').
  assert (model_id s' = model_id b ∧ version s' = version b + 1 ∧ parent_snapshot_id s' = Some (snapshot_id b) ∧
    scenario_id s' = Some (sc_id s)) as (-> & -> & -> & ->).
  { unfold derive, build_snapshot in Hd. cbv zeta in Hd.
    apply bind_Ok in Hd as ([] & _ & Hd). apply bind_Ok in Hd as ([] & _ & Hd). apply bind_Ok in Hd as ([] & _ & Hd).
    apply bind_Ok in Hd as (g' & _ & Hd). apply bind_Ok in Hd as (h & _ & Hd). by injection Hd as <-. }
  repeat (split; [done|]). split; [|split].
  - eapply Forall_impl; [apply Hi|]. intros kv. apply shadowing_mono. intros k n Hk _. by apply Hm'.
  - intros k n Hk%Hbase. destruct (sv_kept _ _ _ _ _ Hi k n Hk) as (n' & Hn' & Hs). exists n'. split; [by apply Hm'|done].
  - intros k. transitivity (is_Some (m !! k)).
    + split; intros [n Hn]; exists n; by apply Hm'.
    + rewrite (sv_dom _ _ _ _ _ Hi). split; (intros [[n Hn]|?]; [left; exists n; by apply Hbase|by right]).
Qed.

Definition sample_scenario : scenario := Scenario "bull" "Bull case" [("cost"%string, dec_of_Z 200)] sample_time.

Theorem apply_scenario_sparse_witness :
  ∃ b s', build sample_nodes [] = Ok (graph b) ∧ apply_scenario b sample_scenario = Ok s' ∧
    is_Some (by_id (graph s') !! "cost--bull"%string).
Proof.
  assert (is_ok (g ← build sample_nodes []; apply_scenario (Snapshot "base" "model" 1 None None g) sample_scenario) = true)
    as H by (vm_compute; reflexivity).
  destruct (build sample_nodes []) as [g|] eqn:Hg; [|discriminate H]. rewrite bind_ok in H.
  destruct (apply_scenario (Snapshot "base" "model" 1 None None g) sample_scenario) as [s'|] eqn:Hs; [|discriminate H].
  exists (Snapshot "base" "model" 1 None None g), s'. split; [reflexivity|]. split; [exact Hs|].
  destruct (apply_scenario_sparse sample_nodes [] (Snapshot "base" "model" 1 None None g) sample_scenario s' Hg Hs)
    as (_ & _ & _ & _ & _ & _ & Hdom).
  apply Hdom. right. apply list_elem_of_here.
Defined.
