(* ===== verification/ScenarioEffect.v ===== *)
(** An applied scenario takes effect: whatever read an overridden assumption or
    driver in the base reads the override in the child, group seeds included,
    and everything else reads what it read. *)

From S2P Require Import Prelude Decimals Errors Periods Units Values Formulas Canonical Nodes Iteration Graph Plan Snapshot Scenario.
Local Open Scope Z_scope.

(** * Effective tails *)

(** [s] overrides [c] *)
Definition shadows (g : model_graph) (c s : string) : Prop :=
  ∃ b v t sid a, by_id g !! s = Some (ScenarioOverrideNode b v t c sid a).

Lemma shadows_of_Ok g c l s : shadows_of g c = Ok l → s ∈ l → shadows g c s.
Proof.
  unfold shadows_of. intros (ds & _ & H)%bind_Ok Hs. apply filterM_Ok in H as [H _]. destruct (H s Hs) as [_ Hf].
  apply bind_Ok in Hf as (n & Hn%get_Ok & Hf). apply bind_Ok in Hf as (roles & Hroles & [= Hf]). btrue.
  destruct n; try done. cbn in *. ok_inv. simplify_eq. by do 5 eexists.
Qed.

Lemma effective_chain fuel g c e : effective_loop fuel g c = Ok e → rtc (shadows g) c e.
Proof.
  revert c. induction fuel as [|fuel IH]; intros c H; [done|]. cbn [effective_loop] in H.
  apply bind_Ok in H as (l & Hl & H). destruct l as [|s [|s' l]]; [by injection H as <-| |done].
  eapply rtc_l; [|by apply IH]. eapply shadows_of_Ok; [done|apply list_elem_of_here].
Qed.

(** an effective tail has one origin that is not itself an override *)
Lemma effective_origin g c c' e :
  effective g c = Ok e → effective g c' = Ok e →
  (∀ n, by_id g !! c = Some n → kind_of n ≠ SCENARIO_OVERRIDE) →
  (∀ n, by_id g !! c' = Some n → kind_of n ≠ SCENARIO_OVERRIDE) → c = c'.
Proof.
  intros H%effective_chain H'%effective_chain Hc Hc'. revert c' H' Hc'.
  refine (rtc_ind_r (R := shadows g) (λ e, ∀ c', rtc (shadows g) c' e → (∀ n, by_id g !! c' = Some n → kind_of n ≠ SCENARIO_OVERRIDE) → c = c')
    c _ _ e H); clear e H.
  - intros c' H Hc'. apply rtc_inv_r in H as [<-|(y & _ & (b & v & t & sid & a & Hn))]; [done|]. by apply Hc in Hn.
  - intros y e _ (b & v & t & sid & a & Hn) IH c' H Hc'. apply rtc_inv_r in H as [->|(y' & H & (b' & v' & t' & sid' & a' & Hn'))].
    + by apply Hc' in Hn.
    + simplify_eq. by apply IH.
Qed.

(** * What re-pointing does to a node's inputs *)

Definition pointed (old new r : string) : string := if String.eqb r old then new else r.
Definition subst (sr : gmap string string) (r : string) : string := default r (sr !! r).

Lemma pointed_other old new r : r ≠ old → pointed old new r = r.
Proof. intros Hr. unfold pointed. by destruct (String.eqb_spec r old). Qed.

Lemma pointed_same old new : pointed old new old = new.
Proof. unfold pointed. by rewrite String.eqb_refl. Qed.

Lemma rewire_refs n old new n' :
  rewire n old new = Ok n' → safe_id new = true → new ∉ input_refs n → old ∈ input_refs n ∨ is_formula_node n = true →
  input_refs n' = pointed old new <$> input_refs n.
Proof.
  intros H Hsafe Hnew Hold. destruct n as [| | | |b seed|b op l v|b ast v g|b op l|b c l t|b src m q]; cbn [rewire] in H; try done;
    [| |apply bind_Ok in H as (ast' & Hast & H)| | |]; unfold make_node in H; apply bind_Ok in H as ([] & _ & H); injection H as <-;
    cbn [input_refs] in *.
  - destruct Hold as [->%list_elem_of_singleton|?]; [|done]. cbn. by rewrite pointed_same.
  - done.
  - rewrite rewrite_formula_references_eq in Hast. destruct (formula_ok ast) eqn:Hok; [|done].
    rewrite rewrite_refs_rename in Hast by (done || by apply map_Forall_singleton). injection Hast as <-. rewrite refs_rename.
    assert ((λ id, default id ({[old := new]} !! id)) <$> refs ast = pointed old new <$> refs ast) as ->.
    { apply list_fmap_ext. intros i x _. unfold pointed. destruct (String.eqb_spec x old) as [->|Hx]; [by rewrite lookup_singleton_eq|].
      by rewrite lookup_singleton_ne. }
    apply dict_fromkeys_fmap. rewrite elem_of_dict_fromkeys in Hnew. intros x y Hx Hy. unfold pointed.
    destruct (String.eqb_spec x old) as [->|], (String.eqb_spec y old) as [->|]; [done|intros <-|intros ->|]; done.
  - done.
  - done.
  - destruct Hold as [->%list_elem_of_singleton|?]; [|done]. cbn. by rewrite pointed_same.
Qed.

(** * The overrides applied so far *)

Section effect.
Context (g : model_graph) (s : scenario) (m0 : gmap string node).
Hypothesis Hbase : ∀ k n, m0 !! k = Some n ↔ by_id g !! k = Some n.
Hypothesis Hids : ∀ k n, by_id g !! k = Some n → id_of n = k.
Hypothesis Hclosed : ∀ k n r, by_id g !! k = Some n → r ∈ input_refs n → is_Some (by_id g !! r).
Hypothesis Hdeps : ∀ e ds, dependents_of g e = Ok ds → is_Some (by_id g !! e) ∧ NoDup ds ∧
  (∀ k, k ∈ ds → ∃ n, by_id g !! k = Some n ∧ (e ∈ input_refs n ∨ is_formula_node n = true)) ∧
  (∀ k n, by_id g !! k = Some n → e ∈ input_refs n → k ∈ ds).

Definition derived_of (n : node) (f : string → string) (n' : node) : Prop :=
  kind_of n' = kind_of n ∧ (kind_of n ≠ SCENARIO_OVERRIDE → input_refs n' = f <$> input_refs n).

Record effect_inv (pre : list (string * decimal)) (m : gmap string node) (sr : gmap string string) : Prop := {
  ei_nodes : scenario_inv g s m0 pre m;
  ei_map e o : sr !! e = Some o ↔ ∃ t, t ∈ pre.*1 ∧ effective g t = Ok e ∧ o = override_id_of s t;
  ei_base e o : sr !! e = Some o → is_Some (m0 !! e);
  ei_refs k n : m0 !! k = Some n → ∃ n', m !! k = Some n' ∧ derived_of n (subst sr) n';
}.

Lemma ei_fresh pre m sr e o : effect_inv pre m sr → sr !! e = Some o → m0 !! o = None ∧ is_Some (m !! o).
Proof.
  intros [Hn Hmap _ _] (t & Ht & _ & ->)%Hmap. split; [by apply (sv_fresh _ _ _ _ _ Hn)|].
  apply (sv_dom _ _ _ _ _ Hn). right. by apply list_elem_of_fmap_2.
Qed.

(** re-pointing the dependents, one after the other *)
Lemma rewire_all pre m sr e o on ds m' :
  effect_inv pre m sr → m !! o = None → is_Some (m0 !! e) → sr !! e = None → safe_id o = true → NoDup ds →
  (∀ k, k ∈ ds → ∃ n, by_id g !! k = Some n ∧ (e ∈ input_refs n ∨ is_formula_node n = true)) →
  foldM (rewire_dependent e o) (<[o := on]> m) ds = Ok m' →
  ∀ k n, m0 !! k = Some n → ∃ n', m' !! k = Some n' ∧
    derived_of n (λ r, if decide (k ∈ ds) then pointed e o (subst sr r) else subst sr r) n'.
Proof.
  intros Hi Ho He Hsr Hsafe Hnd Hds H. assert (m0 !! o = None) as Ho0.
  { destruct (m0 !! o) as [n|] eqn:Hn; [|done]. destruct (ei_refs _ _ _ Hi o n Hn) as (n' & Hn' & _). congruence. }
  refine (foldM_inv _ (λ dpre m', ∀ k n, m0 !! k = Some n → ∃ n', m' !! k = Some n' ∧
    derived_of n (λ r, if decide (k ∈ dpre) then pointed e o (subst sr r) else subst sr r) n') _ _ m' _ _ H).
  - intros k n Hk. destruct (ei_refs _ _ _ Hi k n Hk) as (n' & Hn' & Hd). exists n'. split.
    + rewrite lookup_insert_ne; [done|]. intros <-. congruence.
    + destruct (decide (k ∈ [])) as [[]%not_elem_of_nil|]; done.
  - intros dpre d m1 m2 Hpre IH Hstep k n Hk.
    assert (d ∉ dpre) as Hd.
    { intros Hin. destruct Hpre as [l' ->]. apply NoDup_app in Hnd as (Hnd & _). apply NoDup_app in Hnd as (_ & Hnd & _).
      apply (Hnd d Hin), list_elem_of_here. }
    unfold rewire_dependent in Hstep. apply bind_Ok in Hstep as (n1 & Hn1%get_Ok & Hstep).
    destruct (IH k n Hk) as (nk & Hnk & Hkind & Hrefs). destruct (decide (d = k)) as [->|Hne].
    + simplify_eq. assert (kind_of n ≠ SCENARIO_OVERRIDE → input_refs n1 = subst sr <$> input_refs n) as Hr1.
      { intros Hov. rewrite (Hrefs Hov). apply list_fmap_ext. intros _ r _. by rewrite decide_False by done. }
      destruct (decide (kind_of n = SCENARIO_OVERRIDE)) as [Hov|Hov].
      * rewrite Hkind, Hov in Hstep. ok_inv. exists n1. split; [done|]. by split.
      * assert (∃ n2, rewire n1 e o = Ok n2 ∧ m2 = <[k := n2]> m1) as (n2 & Hn2 & ->).
        { destruct (kind_of n1) eqn:Hk1; try (apply bind_Ok in Hstep as (n2 & Hn2 & Hstep); ok_inv; by exists n2). congruence. }
        exists n2. rewrite lookup_insert_eq. split; [done|]. destruct (rewire_Ok _ _ _ _ Hn2) as (_ & Hk2 & _).
        split; [congruence|]. intros _. clear Hrefs. specialize (Hr1 Hov).
        assert (k ∈ ds) as (nk & Hnk & Hek)%Hds by (destruct Hpre as [l' ->]; set_solver).
        apply Hbase in Hnk. simplify_eq.
        rewrite (rewire_refs _ _ _ _ Hn2 Hsafe).
        -- rewrite Hr1, <- list_fmap_compose. apply list_fmap_ext. intros _ r _.
           by rewrite decide_True by (apply elem_of_app; right; apply list_elem_of_here).
        -- rewrite Hr1. intros (r & Hr & Hin)%list_elem_of_fmap. unfold subst in Hr. destruct (sr !! r) as [o'|] eqn:Hsr'; cbn in Hr; subst.
           ++ destruct (ei_fresh _ _ _ _ _ Hi Hsr') as [_ Hsome]. rewrite Ho in Hsome. by destruct Hsome.
           ++ apply Hbase in Hk. destruct (Hclosed _ _ _ Hk Hin) as [no Hno%Hbase]. congruence.
        -- destruct Hek as [Hek|Hek]; [left|right].
           ++ rewrite Hr1. apply list_elem_of_fmap. exists e. by unfold subst; rewrite Hsr.
           ++ by destruct n, n1.
    + exists nk. assert (m2 = m1 ∨ ∃ n2, m2 = <[d := n2]> m1) as Hm2.
      { destruct (kind_of n1); try (ok_inv; by left); apply bind_Ok in Hstep as (n2 & _ & Hstep); ok_inv; right; by exists n2. }
      split; [destruct Hm2 as [->|[n2 ->]]; [done|by rewrite lookup_insert_ne]|]. split; [done|]. intros Hov. rewrite (Hrefs Hov).
      apply list_fmap_ext. intros _ r _. destruct (decide (k ∈ dpre)), (decide (k ∈ dpre ++ [d])); set_solver.
Qed.

Lemma effect_step pre m sr kv m' sr' :
  effect_inv pre m sr → apply_override g s (m, sr) kv = Ok (m', sr') → effect_inv (pre ++ [kv]) m' sr'.
Proof.
  intros Hi H. pose proof (apply_override_inv g s m0 pre kv m sr m' sr' (ei_nodes _ _ _ Hi) H) as Hi'. destruct kv as [t v].
  unfold apply_override in H. apply bind_Ok in H as (target & Ht & H). unfold graph_node in Ht. apply from_option_err_Ok in Ht.
  apply bind_Ok in H as ([] & Hover & H). apply ensure_Ok in Hover. btrue.
  apply bind_Ok in H as (e & Heff & H). cbv zeta in H. apply bind_Ok in H as ([] & Hfresh & H). apply ensure_Ok in Hfresh. btrue.
  apply bind_Ok in H as (on & Hon & H). apply bind_Ok in H as (ds & Hds & H). apply bind_Ok in H as (m2 & Hm2 & H). ok_inv.
  set (o := override_id_of s t) in *. assert (m !! o = None) as Ho by (destruct (m !! o); [destruct Hfresh; by eexists|done]).
  destruct (Hdeps e ds Hds) as ([ne Hne] & Hnd & Hin & Hout). apply Hbase in Hne.
  assert (t ∉ pre.*1) as Htpre.
  { intros Hin'. assert (is_Some (m !! o)) as [n Hn]; [|congruence]. apply (sv_dom _ _ _ _ _ (ei_nodes _ _ _ Hi)). right. by apply list_elem_of_fmap_2. }
  assert (sr !! e = None) as Hsr.
  { destruct (sr !! e) as [o'|] eqn:Hsr; [|done]. apply (ei_map _ _ _ Hi) in Hsr as (t' & Ht' & Heff' & _).
    destruct Htpre. enough (t' = t) as <- by done. apply (effective_origin g t' t e); [done|done| |intros n Hn; by simplify_eq].
    intros n Hn. apply list_elem_of_fmap in Ht' as ([t1 v1] & -> & Hkv). pose proof (sv_shadow _ _ _ _ _ (ei_nodes _ _ _ Hi)) as Hsh.
    eapply Forall_forall in Hsh as (target' & _ & Ht1 & _ & _ & Hk1 & _); [|exact Hkv]. cbn [fst] in *. by simplify_eq. }
  assert (safe_id o = true) as Hsafe.
  { unfold override_node, make_node in Hon. apply bind_Ok in Hon as ([] & Hon & _). cbn [check_node] in Hon. ok_inv.
    repeat match goal with H : check_id _ = Ok _ |- _ => apply check_id_Ok in H end.
    rewrite (Hids _ _ Ht) in *.
    unfold check_leaf in Hv. ok_inv. by match goal with H : check_id _ = Ok _ |- _ => apply check_id_Ok in H end. }
  pose proof (rewire_all pre m sr e o on ds m' Hi Ho (ex_intro _ _ Hne) Hsr Hsafe Hnd Hin Hm2) as Hall.
  constructor; [done| | |].
  - intros e' o'. rewrite fmap_app. setoid_rewrite elem_of_app. cbn [fmap list_fmap fst]. setoid_rewrite list_elem_of_singleton.
    destruct (decide (e' = e)) as [->|Hne'].
    + rewrite lookup_insert_eq. split; [intros [= <-]; exists t; auto|]. intros (t' & [Ht'| ->] & Heff' & ->); [|done].
      assert (sr !! e = Some (override_id_of s t')) as Hs; [|congruence]. apply (ei_map _ _ _ Hi). by exists t'.
    + rewrite lookup_insert_ne, (ei_map _ _ _ Hi) by done. split; [intros (t' & ? & ? & ?); exists t'; auto|].
      intros (t' & [Ht'| ->] & Heff' & ->); [by exists t'|congruence].
  - intros e' o' [[<- _]|[_ Hs]]%lookup_insert_Some; [by eexists|by eapply ei_base].
  - intros k n Hk. destruct (Hall k n Hk) as (n' & Hn' & Hkind & Hrefs). exists n'. split; [done|]. split; [done|]. intros Hov.
    rewrite (Hrefs Hov). apply list_fmap_ext. intros i r Hr%list_elem_of_lookup_2. destruct (decide (r = e)) as [->|Hre].
    + rewrite decide_True by (apply (Hout k n); [by apply Hbase|done]). unfold subst. rewrite Hsr, lookup_insert_eq. cbn. by rewrite pointed_same.
    + unfold subst. rewrite lookup_insert_ne by done. destruct (decide (k ∈ ds)); [|done]. apply pointed_other.
      destruct (sr !! r) as [o'|] eqn:Hs; cbn; [|done]. intros ->. destruct (ei_fresh _ _ _ _ _ Hi Hs) as [Hn _]. congruence.
Qed.
End effect.

Lemma closed_scenario l gs b :
  Forall node_ok l → build l gs = Ok (graph b) → ∀ k n r, by_id (graph b) !! k = Some n → r ∈ input_refs n → is_Some (by_id (graph b) !! r).
Proof.
  intros Hl Hb k n r Hk Hr. destruct (build_structure l gs Hl) as [(by_id0 & sn & dts & Hs & Heq)|[[Heq _]|(r' & Heq & _)]];
    rewrite Heq in Hb; try discriminate Hb. unfold plan_graph in Hb. apply bind_Ok in Hb as ([[[[? ?] ?] ?] ?] & _ & Hb).
  apply bind_Ok in Hb as ([] & _ & Hb). apply bind_Ok in Hb as (? & _ & Hb). injection Hb as Hb. rewrite <- Hb in *. cbn in *.
  by eapply (so_closed _ _ _ _ Hs).
Qed.

Lemma build_iteration_groups l gs g : build l gs = Ok g → iteration_groups g = py_sorted group_le gs.
Proof.
  unfold build. intros (m & _ & H)%bind_Ok. apply bind_Ok in H as (sn & _ & H). apply bind_Ok in H as ([[es deps] dts] & _ & H).
  unfold plan_graph in H. apply bind_Ok in H as ([[[[? ?] ?] ?] ?] & _ & H). apply bind_Ok in H as ([] & _ & H).
  apply bind_Ok in H as (? & _ & H). by injection H as <-.
Qed.

(** a group with its seeds read through [sr] *)
Definition reseeded (sr : gmap string string) (g : iteration_group) : iteration_group :=
  IterationGroup (group_id g) (members g) ((λ ms, (ms.1, subst sr ms.2)) <$> seeds g)
    (absolute_tolerances g) (relative_tolerance g) (max_iterations g).

Lemma rewrite_groups_Ok sr l groups : mapM (rewrite_group sr) l = Ok groups → groups = reseeded sr <$> l.
Proof.
  intros H%mapM_Ok. induction H as [|g g' l groups Hg _ IH]; [done|]. cbn. rewrite <- IH. f_equal.
  unfold rewrite_group, make_group in Hg. apply bind_Ok in Hg as ([] & _ & Hg). by injection Hg as <-.
Qed.

(** * Properties *)

(** An applied scenario takes effect.  Let [sr] send the effective tail of each
    overridden assumption or driver to its override.  In the child every node
    of the base that is not itself an override reads, input by input, what it
    read in the base through [sr], and so do the seeds of the iteration groups;
    hence nothing but the override reads an overridden tail any more. *)
Theorem apply_scenario_effect l gs b s s' :
  Forall node_ok l → build l gs = Ok (graph b) → apply_scenario b s = Ok s' →
  ∃ sr : gmap string string,
    (∀ e o, sr !! e = Some o ↔ ∃ t, t ∈ (overrides s).*1 ∧ effective (graph b) t = Ok e ∧ o = override_id_of s t) ∧
    (∀ k n, by_id (graph b) !! k = Some n → kind_of n ≠ SCENARIO_OVERRIDE →
      ∃ n', by_id (graph s') !! k = Some n' ∧ input_refs n' = subst sr <$> input_refs n) ∧
    iteration_groups (graph s') ≡ₚ reseeded sr <$> iteration_groups (graph b) ∧
    (∀ e k n', is_Some (sr !! e) → by_id (graph s') !! k = Some n' → kind_of n' ≠ SCENARIO_OVERRIDE → e ∉ input_refs n').
Proof.
  intros Hl Hb H. destruct (apply_scenario_nodes l gs b s s' Hb H) as (m & sr & groups & Hm & Hgs & _ & Hg' & Hbase & Hnodes & Hm').
  destruct (build_dependents l gs (graph b) Hl Hb) as [_ Hdeps].
  assert (∀ k n, by_id (graph b) !! k = Some n → id_of n = k) as Hids.
  { intros k n Hk. destruct (build_by_id _ _ _ Hb) as (_ & Hby & _). by apply Hby in Hk as [_ ->]. }
  pose proof (closed_scenario l gs b Hl Hb) as Hclosed.
  assert (effect_inv (graph b) s (node_map (nodes (graph b))) (overrides s) m sr) as Hi.
  { refine (foldM_inv _ (λ pre st, effect_inv (graph b) s (node_map (nodes (graph b))) pre st.1 st.2) _ _ (m, sr) _ _ Hm).
    - constructor; cbn.
      + constructor; cbn; [intros k n ?; by exists n| |set_solver|constructor]. intros k. set_solver.
      + intros e o. rewrite lookup_empty. split; [done|]. intros (t & []%not_elem_of_nil & _).
      + intros e o. by rewrite lookup_empty.
      + intros k n Hk. exists n. split; [done|]. split; [done|]. intros _. rewrite <- list_fmap_id at 1. apply list_fmap_ext. intros _ r _. unfold subst. by rewrite lookup_empty.
    - intros pre kv [m1 sr1] [m2 sr2] _. by apply effect_step. }
  exists sr. split; [apply Hi|]. split; [|split].
  - intros k n Hk Hov. apply Hbase in Hk. destruct (ei_refs _ _ _ _ _ _ Hi k n Hk) as (n' & Hn' & _ & Hr). exists n'. split; [by apply Hm'|by apply Hr].
  - rewrite (build_iteration_groups _ _ _ Hg'), py_sorted_perm. by rewrite (rewrite_groups_Ok _ _ _ Hgs).
  - intros e k n' [o Ho] Hk Hov Hin. apply Hm' in Hk.
    assert (is_Some (node_map (nodes (graph b)) !! k)) as [n Hn].
    { assert (is_Some (m !! k)) as [?|Hk']%(sv_dom _ _ _ _ _ Hnodes) by (by eexists); [done|]. exfalso.
      apply list_elem_of_fmap in Hk' as (t & -> & ([t' v] & -> & Hkv)%list_elem_of_fmap). pose proof (sv_shadow _ _ _ _ _ Hnodes) as Hsh.
      eapply Forall_forall in Hsh as (target & eff & _ & _ & _ & _ & Hn); [|exact Hkv]. cbn [fst] in *. by simplify_eq. }
    destruct (ei_refs _ _ _ _ _ _ Hi k n Hn) as (n1 & Hn1 & Hkind & Hr). simplify_eq. rewrite Hr in Hin by congruence.
    apply list_elem_of_fmap in Hin as (r & Hr' & _). unfold subst in Hr'. destruct (sr !! r) as [o'|] eqn:Hs; cbn in Hr'; subst; [|congruence].
    destruct (ei_fresh _ _ _ _ _ _ _ _ Hi Hs) as [Hnone _]. destruct (ei_base _ _ _ _ _ _ Hi _ _ Ho) as [? ?]. congruence.
Qed.

Lemma sample_nodes_ok : Forall node_ok sample_nodes.
Proof. repeat constructor. Qed.

Theorem apply_scenario_effect_witness :
  ∃ b s', build sample_nodes [] = Ok (graph b) ∧ apply_scenario b sample_scenario = Ok s' ∧
    ∀ k n', by_id (graph s') !! k = Some n' → kind_of n' ≠ SCENARIO_OVERRIDE → "cost"%string ∉ input_refs n'.
Proof.
  assert (is_ok (g ← build sample_nodes []; apply_scenario (Snapshot "base" "model" 1 None None g) sample_scenario) = true)
    as H by (vm_compute; reflexivity).
  assert ((g ← build sample_nodes []; effective g "cost") = Ok "cost"%string) as He by (vm_compute; reflexivity).
  destruct (build sample_nodes []) as [g|] eqn:Hg; [|discriminate H]. rewrite bind_ok in H. change (effective g "cost" = Ok "cost"%string) in He.
  destruct (apply_scenario (Snapshot "base" "model" 1 None None g) sample_scenario) as [s'|] eqn:Hs; [|discriminate H].
  exists (Snapshot "base" "model" 1 None None g), s'. split; [reflexivity|]. split; [exact Hs|].
  destruct (apply_scenario_effect sample_nodes [] (Snapshot "base" "model" 1 None None g) sample_scenario s' sample_nodes_ok Hg Hs)
    as (sr & Hsr & _ & _ & Hno).
  intros k n' Hk Hov. apply (Hno "cost"%string k n'); [|exact Hk|exact Hov]. exists "cost--bull"%string. apply Hsr. exists "cost"%string.
  split; [apply list_elem_of_here|]. split; [exact He|reflexivity].
Defined.
