(* ===== verification/Engine.v ===== *)
(** The calculation engine: one immutable result per node of a snapshot, in
    plan order, under an evaluation cutoff
    (packages/calculation-engine/fel_calculation_engine/engine.py).

    Telemetry events carry no value back into the computation and are left out,
    as are the durations measured for them.  [evaluate] takes an aware cutoff as
    a UTC instant. *)

From Stdlib Require Import QArith Qabs.
From S2P Require Import Prelude Decimals Errors Periods Units Values Formulas Canonical Nodes Iteration Graph Rounding Snapshot.
Local Open Scope Z_scope.

Definition RESULT_SCHEMA : string := "fel-calc-result/v1".
Definition RESULT_SCHEMA_V2 : string := "fel-calc-result/v2".
Definition EVALUATION_SCHEMA : string := "fel-calc-evaluation/v1".

(** * Results *)

Record calc_result := CalcResult {
  result_id : string;
  r_node_id : string;
  r_kind : node_kind;
  r_provenance : provenance;
  r_value : decimal;
  r_unit : unit_;
  r_period : fiscal_period;
  available_at : datetime;
  r_lineage : lineage;
  input_result_ids : list string;
  r_formula_version : option string;
  passed : option bool;
  iteration_run_id : option string;
  schema : string
}.

(** [CalcResult.__post_init__] *)
Definition make_result (r : calc_result) : calc calc_result :=
  check_decimal (r_value r);; ensure (aware (available_at r)) ValueTypeError;; mret r.

(** the property [quantity] *)
Definition result_quantity (r : calc_result) : calc quantity := make_quantity (r_value r) (r_unit r).

Record evaluation_result := EvaluationResult {
  evaluation_id : string;
  ev_snapshot_id : string;
  ev_cutoff : datetime;
  ev_order : list string;
  results : gmap string calc_result;
  failed_checks : list string;
  iteration_runs : gmap string iteration_run;
  ev_schema : string
}.

(** [EvaluationResult.result] *)
Definition result_of (e : evaluation_result) (id : string) : calc calc_result :=
  from_option_err (MissingInputError id) (results e !! id).

Definition quantity_of (e : evaluation_result) (id : string) : calc quantity :=
  r ← result_of e id; result_quantity r.

(** [trace]: a pre-order walk over result ids *)
Fixpoint trace_loop (fuel : nat) (by_result_id : gmap string calc_result) (stack : list calc_result)
    (seen : list string) (chain : list calc_result) : calc (list calc_result) :=
  match stack with
  | [] => mret chain
  | current :: stack =>
      match fuel with
      | O => Err OutOfFuel
      | S fuel =>
          if decide (result_id current ∈ seen) then trace_loop fuel by_result_id stack seen chain
          else
            parents ← mapM (get by_result_id) (input_result_ids current);
            trace_loop fuel by_result_id (parents ++ stack) (result_id current :: seen) (chain ++ [current])
      end
  end.

(** a bound on the entries the walk can push *)
Definition trace_fuel (by_result_id : gmap string calc_result) (start : calc_result) : nat :=
  S (length (input_result_ids start) + map_fold (λ _ r n, length (input_result_ids r) + n)%nat 0%nat by_result_id)%nat.

(** [{r.result_id: r for r in self.results.values()}], result ids being distinct *)
Definition by_result_id (e : evaluation_result) : gmap string calc_result :=
  list_to_map (map (λ r, (result_id r, r)) (map_to_list (results e)).*2).

Definition trace (e : evaluation_result) (id : string) : calc (list calc_result) :=
  r ← result_of e id;
  trace_loop (trace_fuel (by_result_id e) r) (by_result_id e) [r] [] [].

(** * One node *)

(** [_require_available] *)
Definition require_available (n : node) (stamp cutoff : datetime) : calc unit :=
  ensure (negb (dt_ltb cutoff stamp)) (CutoffViolationError (id_of n)).

Definition quantity_op (op : operator) (a b : quantity) : calc quantity :=
  match op with ADD => q_add a b | SUB => q_sub a b | MUL => q_mul a b | DIV => q_div a b end.

Definition first_result (l : list calc_result) : calc calc_result := from_option_err (Escaped PyIndexError) (head l).

(** [_fold] *)
Definition fold_formula (op : operator) (inputs : list calc_result) : calc quantity :=
  i ← first_result inputs;
  acc ← result_quantity i;
  foldM (λ acc p, rhs ← result_quantity p; quantity_op op acc rhs) acc (tail inputs).

(** The interpreter's default decimal context, which the built-in [abs] rounds under. *)
Definition AMBIENT_CONTEXT : context := Context 28 999999 (-999999).

(** [_check] *)
Definition check_result (check : check_op) (tolerance : option decimal) (inputs : list calc_result)
    : calc (decimal * bool) :=
  i ← first_result inputs;
  left ← result_quantity i;
  match check with
  | NON_NEGATIVE => mret (q_value left, dec_leb dec_zero (q_value left))
  | _ =>
      j ← from_option_err (Escaped PyIndexError) (inputs !! 1%nat);
      right ← result_quantity j;
      residual ← q_sub left right;
      let v := q_value residual in
      match check with
      | EQUALS =>
          a ← map_err dec_error (dec_fix AMBIENT_CONTEXT (dec_abs v));
          mret (v, dec_leb a (default dec_zero tolerance))
      | LESS_OR_EQUAL => mret (v, dec_leb v dec_zero)
      | _ => mret (v, dec_leb dec_zero v)
      end
  end.

Record computed := Computed {
  c_quantity : quantity;
  c_available_at : datetime;
  c_lineage : lineage;
  c_version : option string;
  c_passed : option bool
}.

(** [max] of a nonempty sequence *)
Definition latest (l : list calc_result) : calc datetime :=
  match l with
  | [] => Err (Escaped PyValueError)
  | r :: l => mret (foldl (λ t p, dt_max t (available_at p)) (available_at r) l)
  end.

(** the inputs of a formula by node id; the last one of an id wins *)
Definition quantity_env (inputs : list calc_result) : calc (gmap string quantity) :=
  foldM (λ m p, q ← result_quantity p; mret (<[r_node_id p := q]> m)) ∅ inputs.

(** [_compute] *)
Definition compute (n : node) (inputs : list calc_result) (cutoff : datetime) : calc computed :=
  match n with
  | SourceFactNode b value as_of _ _ | AnalystAssumptionNode b value as_of _
  | ScenarioOverrideNode b value as_of _ _ _ =>
      require_available n as_of cutoff;;
      q ← make_quantity value (n_unit b); l ← leaf_lineage n;
      mret (Computed q as_of l None None)
  | ForecastModelOutputNode b value as_of _ dataset_cutoff _ =>
      require_available n as_of cutoff;; require_available n dataset_cutoff cutoff;;
      q ← make_quantity value (n_unit b); l ← leaf_lineage n;
      mret (Computed q (dt_max as_of dataset_cutoff) l None None)
  | _ =>
      at_ ← latest inputs;
      l ← make_lineage (Lineage DERIVED None None None (map result_id inputs));
      match n with
      | OperationalDriverNode _ _ =>
          i ← first_result inputs; q ← result_quantity i; mret (Computed q at_ l None None)
      | ExpressionFormulaNode _ ast version _ =>
          env ← quantity_env inputs; q ← evaluate_formula ast env; mret (Computed q at_ l (Some version) None)
      | FormulaNode _ op _ version =>
          q ← fold_formula op inputs; mret (Computed q at_ l (Some version) None)
      | AggregationNode _ op _ =>
          q ← fold_formula ADD inputs; mret (Computed q at_ l (Some (aggregation_op_value op)) None)
      | ValidationCheckNode b check _ tolerance =>
          '(v, ok) ← check_result check tolerance inputs;
          q ← make_quantity v (n_unit b); mret (Computed q at_ l (Some (check_op_value check)) (Some ok))
      | ReportedFinancialOutputNode b _ _ quantum =>
          quantum ← (match quantum, currency (n_unit b) with
                     | Some q, _ => mret q
                     | None, None => Err UnitError
                     | None, Some c => minor_unit_quantum c
                     end);
          i ← first_result inputs; q ← result_quantity i; q ← quantize q quantum;
          mret (Computed q at_ l None None)
      | _ => Err ValueTypeError
      end
  end.

(** * An iteration group *)

(** one member under the values of the previous sweep *)
Definition sweep_member (n : node) (env : gmap string quantity) : calc quantity :=
  match n with
  | ExpressionFormulaNode _ ast _ _ => evaluate_formula ast env
  | FormulaNode _ op operands _ =>
      o ← from_option_err (Escaped PyIndexError) (head operands);
      q ← get env o;
      foldM (λ q r, rhs ← get env r; quantity_op op q rhs) q (tail operands)
  | _ => Err (Escaped PyAttributeError)
  end.

(** the simultaneous update of all members *)
Definition sweep (by_id : gmap string node) (members : list string) (env : gmap string quantity)
    : calc (list (string * quantity)) :=
  mapM (λ m, n ← get by_id m; q ← sweep_member n env; mret (m, q)) members.

(** residual and threshold of one member *)
Definition convergence_test (g : iteration_group) (tolerances : gmap string decimal)
    (previous : gmap string quantity) (current : string * quantity) : calc (decimal * bool) :=
  let '(m, q) := current in
  old ← get previous m;
  let new_ := q_value q in let old := q_value old in
  residual ← map_err dec_error (dec_sub CALC_CONTEXT new_ old);
  tolerance ← get tolerances m;
  scaled ← map_err dec_error (dec_mul CALC_CONTEXT (relative_tolerance g) (dec_max (dec_abs new_) (dec_abs old)));
  threshold ← map_err dec_error (dec_add CALC_CONTEXT tolerance scaled);
  mret (dec_abs residual, dec_leb (dec_abs residual) threshold).

(** what a converged run produced: sweeps done, last values, last residuals *)
Record converged := Converged {
  cv_iterations : Z;
  cv_values : list (string * quantity);
  cv_residuals : list (string * decimal)
}.

(** [for iteration in range(1, max_iterations + 1)], [fuel] being the sweeps left *)
Fixpoint jacobi (fuel : nat) (by_id : gmap string node) (g : iteration_group)
    (external previous : gmap string quantity) (completed : Z) : calc converged :=
  match fuel with
  | O => Err IterationConvergenceError
  | S fuel =>
      current ← sweep by_id (members g) (previous ∪ external);
      tests ← mapM (convergence_test g (list_to_map (absolute_tolerances g)) previous) current;
      if forallb snd tests
      then mret (Converged (completed + 1) current (zip current.*1 tests.*1))
      else jacobi fuel by_id g external (list_to_map current) (completed + 1)
  end.

Definition external_ids_of (by_id : gmap string node) (g : iteration_group) : calc (list string) :=
  refs ← mapM (λ m, n ← get by_id m; roles ← Nodes.inputs n; mret roles.*2) (members g);
  mret (sorted_strings (dict_fromkeys (filter (λ r, r ∉ members g) (concat refs)))).

Definition formula_version_of (n : node) : calc string :=
  match n with
  | FormulaNode _ _ _ v | ExpressionFormulaNode _ _ v _ => mret v
  | _ => Err (Escaped PyAttributeError)
  end.

(** the result of one member of a converged group *)
Definition member_result (at_ : datetime) (lin : lineage) (input_ids : list string) (run_id : string)
    (nq : node * (string * quantity)) : calc (string * calc_result) :=
  let '(n, (m, q)) := nq in
  h ← content_hash (VDict [(Some "schema"%string, VStr "fel-calc-iterative-result/v1");
                           (Some "run_id"%string, VStr run_id); (Some "node_id"%string, VStr m)]);
  v ← formula_version_of n;
  r ← make_result (CalcResult h m (kind_of n) (provenance_of n) (q_value q) (unit_of n) (period_of n) at_
                     lin input_ids (Some v) None (Some run_id) RESULT_SCHEMA_V2);
  mret (m, r).

(** [_iterate] *)
Definition iterate (gr : model_graph) (g : iteration_group) (results : gmap string calc_result) (cutoff : datetime)
    : calc (list (string * calc_result) * iteration_run) :=
  external_ids ← external_ids_of (by_id gr) g;
  let parent_ids := sorted_strings (dict_fromkeys (external_ids ++ (seeds g).*2)) in
  parents ← mapM (get results) parent_ids;
  let input_ids := dict_fromkeys (map result_id parents) in
  at_ ← latest parents;
  lin ← make_lineage (Lineage DERIVED None None None input_ids);
  previous ← mapM (λ ms, r ← get results (snd ms); q ← result_quantity r; mret (fst ms, q)) (seeds g);
  external ← mapM (λ i, r ← get results i; q ← result_quantity r; mret (i, q)) external_ids;
  map_err decimal_to_formula_error
    (cv ← jacobi (Z.to_nat (max_iterations g)) (by_id gr) g (list_to_map external) (list_to_map previous) 0;
     member_nodes ← mapM (get (by_id gr)) (members g);
     defs ← mapM (λ m, d ← get (definitions gr) m; mret (m, d)) (members g);
     deps ← mapM (λ n, roles ← Nodes.inputs n; mret (id_of n, roles.*2)) member_nodes;
     seed_ids ← mapM (λ ms, r ← get results (snd ms); mret (fst ms, snd ms, result_id r)) (seeds g);
     ext_ids ← mapM (λ i, r ← get results i; mret (i, result_id r)) external_ids;
     let values := zip_with (λ mq n, (fst mq, snd mq, period_of n)) (cv_values cv) member_nodes in
     let record := IterationRun "" g defs deps seed_ids ext_ids cutoff (cv_iterations cv) values
                     (py_sorted key_le (cv_residuals cv)) in
     run_id ← content_hash (run_payload record);
     let record := IterationRun run_id g defs deps seed_ids ext_ids cutoff (cv_iterations cv) values
                     (py_sorted key_le (cv_residuals cv)) in
     outputs ← mapM (member_result at_ lin input_ids run_id) (zip member_nodes (cv_values cv));
     mret (outputs, record)).

(** * The evaluation loop *)

(** the state of the loop: [results], [iteration_runs], [failed] *)
Record eval_state := EvalState {
  es_results : gmap string calc_result;
  es_runs : gmap string iteration_run;
  es_failed : list string
}.

(** the hashed material of a plain node's result *)
Definition result_material (cutoff : datetime) (input_ids : list string) (definition schema : string) : string :=
  ("{" +:+ quote "cutoff" +:+ ":" +:+ quote (utc_isoformat cutoff) +:+ "," +:+ quote "inputs" +:+ ":[" +:+
   join ", " (map quote input_ids) +:+ "]," +:+ quote "node" +:+ ":" +:+ definition +:+ "," +:+ quote "schema" +:+ ":" +:+
   String QUOTE (schema +:+ String QUOTE "}"))%string.

Definition schema_of (n : node) : string := if is_expression n then RESULT_SCHEMA_V2 else RESULT_SCHEMA.

(** the fields of a plain node's result *)
Definition plain_result (cutoff : datetime) (n : node) (definition : string) (ins : list calc_result) (c : computed)
    : calc_result :=
  let input_ids := map result_id ins in
  CalcResult (sha256_hex (result_material cutoff input_ids definition (schema_of n))) (id_of n)
    (kind_of n) (provenance_of n) (q_value (c_quantity c)) (q_unit (c_quantity c)) (period_of n)
    (c_available_at c) (c_lineage c) input_ids (c_version c) (c_passed c) None (schema_of n).

(** a plain node of the plan; [by_id] holds a node under its own id *)
Definition eval_node (gr : model_graph) (cutoff : datetime) (st : eval_state) (id : string) : calc eval_state :=
  n ← get (by_id gr) id;
  roles ← Nodes.inputs n;
  ins ← mapM (λ r, get (es_results st) (snd r)) roles;
  c ← compute n ins cutoff;
  definition ← get (definitions gr) id;
  r ← make_result (plain_result cutoff n definition ins c);
  mret (EvalState (<[id := r]> (es_results st)) (es_runs st)
          (match c_passed c with Some false => es_failed st ++ [id] | _ => es_failed st end)).

(** [results.update(group_results)] *)
Definition update_all (m : gmap string calc_result) (l : list (string * calc_result)) : gmap string calc_result :=
  foldl (λ m kv, <[fst kv := snd kv]> m) m l.

Definition eval_step (gr : model_graph) (cutoff : datetime) (st : eval_state) (s : step) : calc eval_state :=
  match s with
  | StepNode id => eval_node gr cutoff st id
  | StepGroup g =>
      '(outputs, record) ← iterate gr g (es_results st) cutoff;
      mret (EvalState (update_all (es_results st) outputs) (<[run_id record := record]> (es_runs st)) (es_failed st))
  end.

Definition eval_plan (gr : model_graph) (cutoff : datetime) : calc eval_state :=
  foldM (eval_step gr cutoff) (EvalState ∅ ∅ []) (execution_plan gr).

(** [evaluate] *)
Definition evaluate (s : snapshot) (cutoff : datetime) : calc evaluation_result :=
  ensure (aware cutoff) (CutoffViolationError "");;
  let gr := graph s in
  st ← eval_plan gr cutoff;
  ids ← mapM (λ id, r ← get (es_results st) id; mret (result_id r)) (order gr);
  let schema := if uses_v2 gr then "fel-calc-evaluation/v2"%string else EVALUATION_SCHEMA in
  h ← content_hash (VDict [(Some "schema"%string, VStr schema); (Some "snapshot_id"%string, VStr (snapshot_id s));
                           (Some "cutoff"%string, VDatetime cutoff); (Some "results"%string, strs_view ids)]);
  mret (EvaluationResult h (snapshot_id s) cutoff (order gr) (es_results st) (es_failed st) (es_runs st) schema).

(** * Lemmas: the arithmetic of one node *)

Definition rq (r : calc_result) : quantity := Quantity (r_value r) (r_unit r).

(** what every stored result satisfies for its node *)
Record result_sound (cutoff : datetime) (n : node) (r : calc_result) : Prop := ResultSound {
  rs_node : r_node_id r = id_of n;
  rs_unit : r_unit r = unit_of n;
  rs_value : decimal_ok (r_value r);
  rs_aware : aware (available_at r) = true;
  rs_cutoff : instant (available_at r) ≤ instant cutoff;
  rs_safe : safe_id (result_id r) = true
}.

Lemma result_quantity_eq r : decimal_ok (r_value r) → result_quantity r = Ok (rq r).
Proof. intros H. by apply make_quantity_Ok. Qed.

Lemma rq_ok cutoff n r : unit_ok (unit_of n) = true → result_sound cutoff n r → quantity_ok (rq r).
Proof. intros Hu H. split; cbn; [apply H|]. by rewrite (rs_unit _ _ _ H). Qed.

Lemma operator_unit_result op u v : unit_ok u = true → unit_result (operator_unit op u v).
Proof. intros. destruct op; cbn; auto with fel. Qed.

Lemma quantity_op_typed op a b u :
  quantity_ok a → operator_unit op (q_unit a) (q_unit b) = Ok u → of_unit u (quantity_op op a b).
Proof.
  intros [_ Ha] Hu. assert (unit_ok u = true) as Hok.
  { pose proof (operator_unit_result op (q_unit a) (q_unit b) Ha) as H. by rewrite Hu in H. }
  destruct op; cbn in *;
    [apply (q_apply_typed "add" unit_add)|apply (q_apply_typed "sub" unit_sub)
    |apply (q_apply_typed "mul" unit_mul)|apply (q_apply_typed "div" unit_div)]; done.
Qed.

(** A left fold of an operator over quantities follows the fold over their units. *)
Lemma fold_typed {A B} op (fu : A → unit_) (fq : B → calc quantity) (is_ : list A) (rs : list B) acc u :
  Forall2 (λ i r, ∃ q, fq r = Ok q ∧ q_unit q = fu i ∧ quantity_ok q) is_ rs → quantity_ok acc →
  foldM (λ u x, operator_unit op u (fu x)) (q_unit acc) is_ = Ok u →
  of_unit u (foldM (λ acc p, rhs ← fq p; quantity_op op acc rhs) acc rs).
Proof.
  intros Hf. revert acc. induction Hf as [|i r is_ rs (q & Hq & Hqu & Hqo) Hf IH]; intros acc Hacc Hu; cbn [foldM] in *.
  - injection Hu as <-. done.
  - destruct (operator_unit op (q_unit acc) (fu i)) as [u1|] eqn:Hu1; [|done].
    rewrite Hq, bind_ok. rewrite <- Hqu in Hu1. pose proof (quantity_op_typed op acc q u1 Hacc Hu1) as Ht.
    destruct (quantity_op op acc q) as [acc'|e]; cbn in Ht; [|by subst]. destruct Ht as [<- Hok].
    by apply IH.
Qed.

Lemma foldM_unit_add (u : unit_) (l : list node) :
  Forall (λ i, unit_of i = u) l → foldM (λ u x, operator_unit ADD u (unit_of x)) u l = Ok u.
Proof. induction 1 as [|i l Hi Hl IH]; [done|]. cbn. unfold unit_add. by rewrite decide_True. Qed.

Section one_node.
Context (cutoff : datetime) (by_id : gmap string node).
Hypothesis Hnodes : nodes_ok by_id.
Hypothesis Hunits : ∀ k n, by_id !! k = Some n → unit_ok (unit_of n) = true.

Lemma sound_rq (is_ : list node) (rs : list calc_result) refs :
  Forall2 (λ r i, by_id !! r = Some i) refs is_ → Forall2 (result_sound cutoff) is_ rs →
  Forall2 (λ i r, ∃ q, result_quantity r = Ok q ∧ q_unit q = unit_of i ∧ quantity_ok q) is_ rs.
Proof.
  intros Hi Hr. revert refs Hi. induction Hr as [|i r is_ rs Hs Hr IH]; intros refs Hi; [constructor|].
  inversion Hi as [|k i' refs' is' Hk Hi']; subst. constructor; [|by eapply IH].
  exists (rq r). split_and!; [by apply result_quantity_eq, (rs_value _ _ _ Hs)|apply (rs_unit _ _ _ Hs)|].
  eapply rq_ok; [by eapply Hunits|done].
Qed.

Lemma latest_spec rs t :
  latest rs = Ok t → (∃ r, r ∈ rs ∧ t = available_at r) ∧ ∀ r, r ∈ rs → instant (available_at r) ≤ instant t.
Proof.
  destruct rs as [|r0 rs]; [done|]. cbn. intros [= <-].
  assert (H : ∀ rs t0, let t := foldl (λ t p, dt_max t (available_at p)) t0 rs in
    (t = t0 ∨ ∃ r, r ∈ rs ∧ t = available_at r) ∧ instant t0 ≤ instant t ∧ ∀ r, r ∈ rs → instant (available_at r) ≤ instant t).
  { clear. induction rs as [|r rs IH]; intros t0; cbn [foldl]; [split_and!; [by left|done|set_solver]|].
    destruct (IH (dt_max t0 (available_at r))) as (H1 & H2 & H3).
    assert (instant t0 ≤ instant (dt_max t0 (available_at r)) ∧ instant (available_at r) ≤ instant (dt_max t0 (available_at r))
            ∧ (dt_max t0 (available_at r) = t0 ∨ dt_max t0 (available_at r) = available_at r)) as (Ha & Hb & Hc).
    { unfold dt_max, dt_ltb. destruct (Z.ltb_spec (instant t0) (instant (available_at r))); split_and!; auto; lia. }
    split_and!.
    - destruct H1 as [H1|(r' & Hr' & H1)]; [|right; exists r'; split; [by right|done]].
      rewrite H1. destruct Hc as [->| ->]; [by left|right; exists r; split; [left|done]].
    - lia.
    - intros r' [->|Hr']%elem_of_cons; [lia|auto]. }
  destruct (H rs (available_at r0)) as (H1 & H2 & H3). split.
  - destruct H1 as [->|(r & Hr & ->)]; [exists r0; split; [left|done]|exists r; split; [by right|done]].
  - intros r [->|Hr]%elem_of_cons; auto.
Qed.

(** The quantities an expression sees are those of its inputs, by id. *)
Lemma quantity_env_spec rs :
  NoDup (r_node_id <$> rs) → Forall (λ r, decimal_ok (r_value r)) rs →
  ∃ env, quantity_env rs = Ok env ∧ ∀ k q, env !! k = Some q ↔ ∃ r, r ∈ rs ∧ r_node_id r = k ∧ rq r = q.
Proof.
  unfold quantity_env. intros Hnd Hd.
  assert (H : ∀ rs (m : gmap string quantity), NoDup (r_node_id <$> rs) → Forall (λ r, decimal_ok (r_value r)) rs →
    (∀ r, r ∈ rs → m !! r_node_id r = None) →
    ∃ env, foldM (λ m p, q ← result_quantity p; mret (<[r_node_id p := q]> m)) m rs = Ok env ∧
      ∀ k q, env !! k = Some q ↔ m !! k = Some q ∨ ∃ r, r ∈ rs ∧ r_node_id r = k ∧ rq r = q).
  { clear. induction rs as [|r rs IH]; intros m Hnd Hd Hm; cbn [foldM fmap list_fmap] in *.
    { exists m. split; [done|]. set_solver. }
    apply NoDup_cons in Hnd as [Hr Hnd]. apply Forall_cons in Hd as [Hdr Hd].
    rewrite result_quantity_eq, bind_ok by done. unfold mret, result_ret.
    assert (Hne : ∀ r', r' ∈ rs → r_node_id r' ≠ r_node_id r) by (intros r' Hr' He; apply Hr; rewrite <- He; by apply list_elem_of_fmap_2).
    destruct (IH (<[r_node_id r := rq r]> m) Hnd Hd) as (env & He & Henv).
    { intros r' Hr'. rewrite lookup_insert_ne by (symmetry; auto). apply Hm. by right. }
    exists env. split; [exact He|]. intros k q. rewrite Henv, lookup_insert_Some.
    pose proof (Hm r ltac:(left)) as Hmr. split.
    - intros [[[<- <-]|[? ?]]|(r' & ? & ? & ?)]; [right; exists r; split_and!; [left|done|done]|by left|].
      right. exists r'. split_and!; [by right|done|done].
    - intros [Hk|(r' & [->|Hr']%elem_of_cons & <- & <-)]; [|by left; left|right; by exists r'].
      left; right. split; [|done]. intros <-. congruence. }
  destruct (H rs ∅ Hnd Hd) as (env & He & Henv); [intros; apply lookup_empty|].
  exists env. split; [done|]. intros k q. rewrite Henv, lookup_empty. naive_solver.
Qed.
End one_node.

(** what the graph's type check of a node says about its inputs' units *)
Definition inputs_typed (n : node) (ins : list node) : Prop :=
  match n with
  | OperationalDriverNode _ _ | ReportedFinancialOutputNode _ _ _ _ => Forall (λ i, unit_of i = unit_of n) ins
  | ExpressionFormulaNode _ ast _ _ => infer_formula_unit ast (unit_env ins) = Ok (unit_of n)
  | FormulaNode _ op _ _ => formula_unit op ins = Ok (unit_of n)
  | AggregationNode _ _ _ | ValidationCheckNode _ _ _ _ => Forall (λ i, unit_of i = unit_of n) ins
  | _ => True
  end.

Lemma require_unit_Ok n u t : require_unit n u = Ok t → u = unit_of n.
Proof. unfold require_unit. intros H. ok_inv. by btrue. Qed.

Lemma check_node_types_Ok by_id k n ins :
  by_id !! k = Some n → resolves by_id n ins → check_node_types by_id k = Ok tt → inputs_typed n ins.
Proof.
  intros Hk (roles & Hr & Hrefs & Hm & Hf) H. unfold check_node_types in H.
  rewrite (get_Some _ _ _ Hk), bind_ok, Hr, bind_ok, Hm, bind_ok in H. pose proof (Forall2_length _ _ _ Hf) as Hlen.
  destruct n as [| | | |b seed|b op l v|b ast v g|b op l|b c l t|b src m q]; try exact I; cbn [inputs_typed input_refs] in *.
  - ok_inv. destruct ins as [|i [|]]; try done. cbn in Hv. injection Hv as <-. constructor; [|constructor].
    by apply require_unit_Ok in Hv0.
  - ok_inv. apply require_unit_Ok in H. congruence.
  - ok_inv. apply require_unit_Ok in H. unfold unit_env; congruence.
  - ok_inv. eapply Forall_impl; [exact Hv|]. intros i Hi. by apply require_unit_Ok in Hi.
  - ok_inv. eapply Forall_impl; [exact H|]. intros i Hi. cbv beta in Hi. ok_inv. match goal with Hr : require_unit _ _ = _ |- _ => by apply require_unit_Ok in Hr end.
  - ok_inv. destruct ins as [|i [|]]; try done. cbn in Hv. injection Hv as <-. constructor; [|constructor].
    by apply require_unit_Ok in Hv0.
Qed.

(** the failures evaluation of a node can raise *)
Definition eval_error (e : calc_error) : Prop :=
  (∃ id, e = CutoffViolationError id) ∨ e = FormulaError ∨ e = UnitError ∨ e = LineageError ∨
  e = IterationConvergenceError ∨ e = CanonicalizationError ∨ e = dec_error Overflow.

Ltac eval_err := unfold eval_error; intuition eauto.

(** what a node's computation promises *)
Definition computed_sound (cutoff : datetime) (n : node) (ins : list calc_result) (r : calc computed) : Prop :=
  match r with
  | Ok c =>
      q_unit (c_quantity c) = unit_of n ∧ decimal_ok (q_value (c_quantity c)) ∧
      aware (c_available_at c) = true ∧ instant (c_available_at c) ≤ instant cutoff ∧
      (∀ i, i ∈ ins → provenance_of n = DERIVED → instant (available_at i) ≤ instant (c_available_at c)) ∧
      check_lineage (c_lineage c) = Ok tt ∧ l_provenance (c_lineage c) = provenance_of n ∧
      (provenance_of n = DERIVED → derived_from (c_lineage c) = map result_id ins)
  | Err e => eval_error e
  end.

Lemma require_available_Ok n t cutoff u : require_available n t cutoff = Ok u ↔ instant t ≤ instant cutoff.
Proof.
  unfold require_available, dt_ltb. destruct u. rewrite ensure_Ok, negb_true_iff, Z.ltb_ge. done.
Qed.

Lemma require_available_cases n t cutoff :
  (require_available n t cutoff = Ok tt ∧ instant t ≤ instant cutoff) ∨
  require_available n t cutoff = Err (CutoffViolationError (id_of n)).
Proof.
  destruct (require_available n t cutoff) as [[]|e] eqn:H.
  - left. split; [done|]. by apply require_available_Ok in H.
  - right. unfold require_available in H. apply ensure_Err in H as [_ <-]. done.
Qed.

Lemma check_leaf_Ok b v t u : check_leaf b v t = Ok u → decimal_ok v ∧ aware t = true.
Proof. unfold check_leaf, check_aware. intros H. ok_inv. apply check_decimal_Ok in Hv0. done. Qed.

(** A leaf yields its own value, stamped with its own availability. *)
Lemma leaf_sound cutoff n b v t :
  check_node n = Ok tt → provenance_of n ≠ DERIVED → base_of n = b → decimal_ok v → aware t = true →
  instant t ≤ instant cutoff → ∀ ins,
  computed_sound cutoff n ins
    (q ← make_quantity v (n_unit b); l ← leaf_lineage n; mret (Computed q t l None None)).
Proof.
  intros Hn Hp <- Hv Ht Hc ins. rewrite (proj2 (make_quantity_Ok v _ _)) by done. rewrite bind_ok.
  destruct (leaf_lineage_ok n Hn Hp) as (l & -> & Hl & Hlp). rewrite bind_ok. cbn. by split_and!.
Qed.

Lemma dt_max_cases a b : dt_max a b = a ∨ dt_max a b = b.
Proof. unfold dt_max. destruct (dt_ltb a b); auto. Qed.

Lemma check_derived ids :
  ids ≠ [] → Forall (λ i, safe_id i = true) ids →
  check_lineage (Lineage DERIVED None None None ids) = if bool_decide (NoDup ids) then Ok tt else Err LineageError.
Proof.
  intros Hne Hsafe. unfold check_lineage.
  assert (present_fields (Lineage DERIVED None None None ids) = expected_fields DERIVED) as Hp.
  { unfold present_fields; cbn. by rewrite bool_decide_eq_true_2. }
  cbn [l_provenance]. rewrite (bool_decide_eq_true_2 _ Hp). cbn [ensure]. rewrite bind_ok.
  cbn [for_each source_span_id assumption_id forecast_run_id derived_from]. rewrite bind_ok.
  assert (for_each (λ i, ensure (safe_id i) LineageError) ids = Ok tt) as ->.
  { apply for_each_Ok. eapply Forall_impl; [exact Hsafe|]. intros i Hi. by rewrite Hi. }
  rewrite bind_ok. unfold ensure. by destruct (bool_decide (NoDup ids)).
Qed.

Lemma derived_lineage ids :
  ids ≠ [] → Forall (λ i, safe_id i = true) ids →
  match make_lineage (Lineage DERIVED None None None ids) with
  | Ok l => l = Lineage DERIVED None None None ids ∧ check_lineage l = Ok tt ∧ NoDup ids
  | Err e => e = LineageError ∧ ¬ NoDup ids
  end.
Proof.
  intros Hne Hsafe. unfold make_lineage. pose proof (check_derived ids Hne Hsafe) as Hc.
  rewrite Hc. destruct (bool_decide (NoDup ids)) eqn:Hd; btrue; [|done]. rewrite bind_ok. cbn. by rewrite Hc.
Qed.

(** a quantity of the node's unit, or an evaluation failure *)
Definition of_unit_or_error (u : unit_) (r : calc quantity) : Prop :=
  match r with Ok q => q_unit q = u ∧ quantity_ok q | Err e => eval_error e end.

Lemma of_unit_weaken u r : of_unit u r → of_unit_or_error u r.
Proof. destruct r; [done|]. cbn. intros ->. eval_err. Qed.

(** the part of a derived node's computation after its lineage *)
Definition body_sound (n : node) (t : datetime) (l : lineage) (r : calc computed) : Prop :=
  match r with
  | Ok c => q_unit (c_quantity c) = unit_of n ∧ decimal_ok (q_value (c_quantity c)) ∧ c_available_at c = t ∧ c_lineage c = l
  | Err e => eval_error e
  end.

Lemma body_sound_quantity n t l r v p :
  of_unit_or_error (unit_of n) r → body_sound n t l (q ← r; mret (Computed q t l v p)).
Proof. destruct r as [q|e]; [|done]. intros [Hu [Hd _]]. by cbn. Qed.

(** what every derived kind does before its arithmetic *)
Lemma derived_sound cutoff n ins (is_ : list node) (body : datetime → lineage → calc computed) :
  provenance_of n = DERIVED → is_ ≠ [] → Forall2 (result_sound cutoff) is_ ins →
  (∀ t l, body_sound n t l (body t l)) →
  computed_sound cutoff n ins
    (t ← latest ins; l ← make_lineage (Lineage DERIVED None None None (map result_id ins)); body t l).
Proof.
  intros Hp Hne Hf Hbody. destruct ins as [|i0 ins0] eqn:Hins; [by inversion Hf; subst|]. rewrite <- Hins in *.
  destruct (latest ins) as [t|e] eqn:Ht; [|subst ins; done]. rewrite bind_ok.
  apply latest_spec in Ht as [(r & Hr & ->) Hle].
  assert (Hall : ∀ r, r ∈ ins → ∃ i, result_sound cutoff i r).
  { intros r' Hr'. apply list_elem_of_lookup in Hr' as [j Hj].
    destruct (Forall2_lookup_r _ _ _ _ _ Hf Hj) as (i & _ & Hi). by exists i. }
  pose proof (derived_lineage (map result_id ins)) as Hl.
  assert (Hids : map result_id ins ≠ []) by (subst ins; done).
  assert (Hsafe : Forall (λ i, safe_id i = true) (map result_id ins)).
  { apply Forall_fmap, Forall_forall. intros r' Hr'. destruct (Hall r' Hr') as [i Hi]. apply (rs_safe _ _ _ Hi). }
  specialize (Hl Hids Hsafe). destruct (make_lineage _) as [l|e]; [|destruct Hl as [-> _]; cbn; eval_err].
  destruct Hl as (-> & Hl & _). rewrite bind_ok.
  specialize (Hbody (available_at r) (Lineage DERIVED None None None (map result_id ins))).
  destruct (body _ _) as [c|e]; [|exact Hbody]. destruct Hbody as (Hu & Hd & Hat & Hlin). destruct (Hall r Hr) as [i Hi].
  cbn. rewrite Hat, Hlin. split_and!; try done.
  - apply (rs_aware _ _ _ Hi).
  - apply (rs_cutoff _ _ _ Hi).
  - intros j Hj _. by apply Hle.
Qed.

(** A quantum is a power of ten the calculation context represents exactly. *)
Lemma minor_unit_quantum_ok c :
  match minor_unit_quantum c with Ok q => decimal_ok q | Err e => e = UnitError end.
Proof.
  unfold minor_unit_quantum. destruct (minor_units c) as [k|]; [|done]. cbn. by vm_compute.
Qed.

(** Only leaves have no inputs. *)
Lemma refs_nonempty n : check_node n = Ok tt → provenance_of n = DERIVED → input_refs n ≠ [].
Proof.
  intros Hn Hp.
  destruct n as [| | | |b seed|b op l v|b ast v g|b op l|b c l t|b src m q]; try done; cbn [check_node input_refs] in *; ok_inv.
  - apply check_operands_Ok in Hv0 as (_ & ? & _). by destruct l; cbn in *; [lia|].
  - rewrite formula_dependencies_eq in *. destruct (formula_ok ast); [|done]. simplify_eq. by btrue.
  - destruct op; ok_inv; match goal with H : check_operands _ _ _ _ = _ |- _ => apply check_operands_Ok in H as (_ & ? & _) end;
      by destruct l; cbn in *; [lia|].
  - apply check_operands_Ok in Hv0 as (_ & Hl & _). by destruct l; cbn in *; [destruct c; lia|].
Qed.

Section compute_sound.
Context (cutoff : datetime) (by_id : gmap string node).
Hypothesis Hnodes : nodes_ok by_id.
Hypothesis Hunits : ∀ k n, by_id !! k = Some n → unit_ok (unit_of n) = true.

Lemma fold_formula_typed op is_ ins refs u :
  Forall2 (λ r i, by_id !! r = Some i) refs is_ → Forall2 (result_sound cutoff) is_ ins →
  formula_unit op is_ = Ok u → of_unit u (fold_formula op ins).
Proof.
  intros Hi Hr Hu. pose proof (sound_rq cutoff by_id Hunits is_ ins refs Hi Hr) as Hq.
  destruct Hq as [|i r is' ins' (q & Hrq & Hqu & Hqo) Hq]; [done|].
  unfold fold_formula. cbn [first_result head from_option_err]. rewrite bind_ok, Hrq, bind_ok. cbn [tail].
  apply (fold_typed op unit_of result_quantity is'); [done|done|]. cbn [formula_unit] in Hu. by rewrite Hqu.
Qed.

Lemma check_result_spec check tolerance ins u :
  Forall (λ r, ∃ q, result_quantity r = Ok q ∧ q_unit q = u ∧ quantity_ok q) ins →
  length ins = (match check with NON_NEGATIVE => 1 | _ => 2 end)%nat →
  match check_result check tolerance ins with
  | Ok (v, _) => decimal_ok v
  | Err e => eval_error e
  end.
Proof.
  intros Hf Hlen. destruct Hf as [|i ins' (q & Hq & Hqu & Hqd & Hquo) Hf]; [by destruct check|].
  unfold check_result. cbn [first_result head from_option_err]. rewrite bind_ok, Hq, bind_ok.
  assert (Hres : check ≠ NON_NEGATIVE → ∃ j q', ins' = [j] ∧ result_quantity j = Ok q' ∧ of_unit u (q_sub q q')).
  { intros Hc. destruct ins' as [|j [|]]; try (by destruct check). apply Forall_cons in Hf as [(q' & Hq' & Hqu' & _) _].
    exists j, q'. split_and!; [done|done|]. apply (q_apply_typed "sub" unit_sub); [|by rewrite <- Hqu].
    unfold unit_sub. rewrite Hqu, Hqu'. by rewrite decide_True. }
  destruct (decide (check = NON_NEGATIVE)) as [->|Hc]; [done|].
  destruct (Hres Hc) as (j & q' & -> & Hq' & Hsub).
  assert (Hgoal : ∀ k : decimal → calc (decimal * bool),
    (∀ v, decimal_ok v → match k v with Ok (v', _) => v' = v | Err e => e = dec_error Overflow end) →
    match (j' ← from_option_err (Escaped PyIndexError) ([i; j] !! 1%nat); right ← result_quantity j';
           residual ← q_sub q right; k (q_value residual)) with
    | Ok (v, _) => decimal_ok v | Err e => eval_error e end).
  { intros k Hk. cbn [lookup list_lookup from_option_err]. rewrite bind_ok, Hq', bind_ok.
    destruct (q_sub q q') as [res|e]; [|cbn in Hsub |- *; subst; eval_err]. rewrite bind_ok. destruct Hsub as [_ [Hd _]].
    specialize (Hk _ Hd). destruct (k (q_value res)) as [[v ok]|e]; [by subst|]. subst. eval_err. }
  destruct check; [|done|by apply (Hgoal (λ v, mret (v, dec_leb v dec_zero)))|by apply (Hgoal (λ v, mret (v, dec_leb dec_zero v)))].
  apply (Hgoal (λ v, a ← map_err dec_error (dec_fix AMBIENT_CONTEXT (dec_abs v)); mret (v, dec_leb a (default dec_zero tolerance)))).
  intros v _. destruct (dec_fix AMBIENT_CONTEXT (dec_abs v)) as [a|s] eqn:Ha; [done|]. cbn.
  apply dec_fix_err in Ha. by subst.
Qed.

Lemma aggregate_unit (u : unit_) is_ :
  is_ ≠ [] → Forall (λ i, unit_of i = u) is_ → formula_unit ADD is_ = Ok u.
Proof.
  destruct 2 as [|i is_ Hi Hf]; [done|]. cbn [formula_unit]. subst u. by apply foldM_unit_add.
Qed.

Lemma expression_typed ast is_ ins refs u :
  Forall2 (λ r i, by_id !! r = Some i) refs is_ → NoDup refs → Forall2 (result_sound cutoff) is_ ins →
  infer_formula_unit ast (unit_env is_) = Ok u →
  ∃ env, quantity_env ins = Ok env ∧ of_unit u (evaluate_formula ast env).
Proof.
  intros Hi Hnd Hr Hu.
  assert (Hids : r_node_id <$> ins = refs ∧ id_of <$> is_ = refs).
  { clear Hu Hnd. revert refs Hi. induction Hr as [|i r is' ins' Hs Hr IH]; intros refs Hi; inversion Hi as [|k ? refs' ? Hk Hi']; subst; [done|].
    destruct (IH _ Hi') as [<- Hid]. cbn. destruct (Hnodes _ _ Hk) as [Hid' _].
    by rewrite (rs_node _ _ _ Hs), Hid, Hid'. }
  destruct Hids as [Hids Hids'].
  destruct (quantity_env_spec ins) as (env & Henv & Hspec).
  { by rewrite Hids. }
  { apply Forall_forall. intros r Hrin. apply list_elem_of_lookup in Hrin as [j Hj].
    destruct (Forall2_lookup_r _ _ _ _ _ Hr Hj) as (i & _ & Hs). apply (rs_value _ _ _ Hs). }
  exists env. split; [done|]. apply (evaluate_formula_of_unit ast env (unit_env is_)); [|intros k v Hk|done].
  - intros k q (r & Hrin & _ & <-)%Hspec. apply list_elem_of_lookup in Hrin as [j Hj].
    destruct (Forall2_lookup_r _ _ _ _ _ Hr Hj) as (i & Hij & Hs).
    destruct (Forall2_lookup_r _ _ _ _ _ Hi Hij) as (k' & _ & Hk'). by eapply rq_ok; [eapply Hunits|].
  - unfold unit_env in Hk. apply elem_of_list_to_map_2, list_elem_of_fmap in Hk as (i & [= -> ->] & Hiin).
    apply list_elem_of_lookup in Hiin as [j Hj]. destruct (Forall2_lookup_l _ _ _ _ _ Hr Hj) as (r & Hrj & Hs).
    unfold units_of. rewrite lookup_fmap. assert (env !! id_of i = Some (rq r)) as ->.
    { apply Hspec. exists r. split_and!; [by eapply list_elem_of_lookup_2|apply (rs_node _ _ _ Hs)|done]. }
    cbn. by rewrite (rs_unit _ _ _ Hs).
Qed.

(** The computation of a node on sound inputs is sound. *)
Lemma compute_sound n is_ ins :
  check_node n = Ok tt → unit_ok (unit_of n) = true →
  Forall2 (λ r i, by_id !! r = Some i) (input_refs n) is_ → inputs_typed n is_ →
  Forall2 (result_sound cutoff) is_ ins → computed_sound cutoff n ins (compute n ins cutoff).
Proof.
  intros Hn Hu Hi Ht Hr. pose proof (Forall2_length _ _ _ Hi) as Hlen. pose proof (Forall2_length _ _ _ Hr) as Hlen'.
  destruct (input_refs_ok n Hn) as (_ & _ & Hnd & _).
  pose proof (sound_rq cutoff by_id Hunits is_ ins _ Hi Hr) as Hq.
  assert (Hne : provenance_of n = DERIVED → is_ ≠ []).
  { intros Hp ->. destruct (refs_nonempty n Hn Hp). by apply length_zero_iff_nil. }
  destruct n as [b v t sp f|b v t a|b v t run cut ver|b v t tg sc a|b seed|b op l v|b ast v g|b op l|b ck l tol|b src m quantum];
    unfold compute; cbn [inputs_typed] in Ht.
  - pose proof Hn as Hn'. cbn [check_node] in Hn. ok_inv. apply check_leaf_Ok in Hv as [Hd Ha].
    destruct (require_available_cases (SourceFactNode b v t sp f) t cutoff) as [[-> Hc]| ->]; [rewrite bind_ok|cbn; eval_err].
    by apply leaf_sound.
  - pose proof Hn as Hn'. cbn [check_node] in Hn. ok_inv. apply check_leaf_Ok in Hv as [Hd Ha].
    destruct (require_available_cases (AnalystAssumptionNode b v t a) t cutoff) as [[-> Hc]| ->]; [rewrite bind_ok|cbn; eval_err].
    by apply leaf_sound.
  - pose proof Hn as Hn'. cbn [check_node] in Hn. ok_inv. apply check_leaf_Ok in Hv as [Hd Ha]. unfold check_aware in *. ok_inv.
    destruct (require_available_cases (ForecastModelOutputNode b v t run cut ver) t cutoff) as [[-> Hc]| ->]; [rewrite bind_ok|cbn; eval_err].
    destruct (require_available_cases (ForecastModelOutputNode b v t run cut ver) cut cutoff) as [[-> Hc']| ->]; [rewrite bind_ok|cbn; eval_err].
    apply leaf_sound; try done; by destruct (dt_max_cases t cut) as [-> | ->].
  - pose proof Hn as Hn'. cbn [check_node] in Hn. ok_inv. apply check_leaf_Ok in Hv as [Hd Ha].
    destruct (require_available_cases (ScenarioOverrideNode b v t tg sc a) t cutoff) as [[-> Hc]| ->]; [rewrite bind_ok|cbn; eval_err].
    by apply leaf_sound.
  - apply (derived_sound cutoff _ ins is_); auto. intros t l.
    destruct Hq as [|i r is' ins' (q & Hrq & Hqu & Hqo) Hq]; [by destruct Hne|].
    apply Forall_cons in Ht as [Ht _]. cbn [first_result head from_option_err]. rewrite bind_ok.
    apply body_sound_quantity. rewrite Hrq. split; [congruence|done].
  - apply (derived_sound cutoff _ ins is_); auto. intros t l'.
    apply body_sound_quantity, of_unit_weaken. by eapply fold_formula_typed.
  - apply (derived_sound cutoff _ ins is_); auto. intros t l'.
    destruct (expression_typed ast is_ ins _ (unit_of (ExpressionFormulaNode b ast v g)) Hi Hnd Hr Ht) as (env & -> & He).
    rewrite bind_ok. by apply body_sound_quantity, of_unit_weaken.
  - apply (derived_sound cutoff _ ins is_); auto. intros t l'.
    apply body_sound_quantity, of_unit_weaken. eapply fold_formula_typed; [done|done|]. apply aggregate_unit; [by apply Hne|done].
  - apply (derived_sound cutoff _ ins is_); auto. intros t l'.
    pose proof (check_result_spec ck tol ins (unit_of (ValidationCheckNode b ck l tol))) as Hck.
    ospecialize * Hck.
    { apply Forall_forall. intros r Hrin. apply list_elem_of_lookup in Hrin as [j Hj].
      destruct (Forall2_lookup_r _ _ _ _ _ Hq Hj) as (i & Hij & q & Hrq & Hqu & Hqo).
      rewrite Forall_lookup in Ht. rewrite (Ht _ _ Hij) in Hqu. by exists q. }
    { cbn [check_node] in Hn. ok_inv. apply check_operands_Ok in Hv0 as (_ & _ & _ & _ & Hl). cbn [input_refs] in Hlen.
      rewrite <- Hlen', <- Hlen. rewrite (Hl _ eq_refl). by destruct ck. }
    destruct (check_result ck tol ins) as [[v ok]|e]; [|exact Hck]. rewrite bind_ok. apply body_sound_quantity.
    rewrite (proj2 (make_quantity_Ok v _ _)) by done. by cbn.
  - apply (derived_sound cutoff _ ins is_); auto. intros t l'.
    assert (Hqt : match (match quantum, currency (n_unit b) with
                         | Some q, _ => mret q | None, None => Err UnitError | None, Some c => minor_unit_quantum c end) with
                  | Ok q => decimal_ok q | Err e => e = UnitError end).
    { cbn [check_node] in Hn. ok_inv. destruct quantum as [q|]; [ok_inv; by eapply check_decimal_Ok|].
      destruct (currency (n_unit b)) as [c|]; [apply minor_unit_quantum_ok|done]. }
    destruct (match quantum, currency (n_unit b) with
                         | Some q, _ => mret q | None, None => Err UnitError | None, Some c => minor_unit_quantum c end)
      as [q0|e]; [|subst; cbn; eval_err]. rewrite bind_ok.
    destruct Hq as [|i r is' ins' (q & Hrq & Hqu & Hqo) Hq]; [by destruct Hne|].
    apply Forall_cons in Ht as [Ht _]. cbn [first_result head from_option_err]. rewrite bind_ok, Hrq, bind_ok.
    apply body_sound_quantity, of_unit_weaken. pose proof (quantize_result q q0 Hqo Hqt) as Hqr. by rewrite Hqu, Ht in Hqr.
Qed.
End compute_sound.

(** * Properties *)

(** What a validation check decides.  A comparison's residual is the rounded
    difference of its two inputs, and the order checks pass exactly when that
    residual has the right sign; a sign check reports its one input.  An equality
    check passes exactly when the residual is within the tolerance (zero when none
    is declared), provided the interpreter's own 28-digit context holds the
    residual. *)
Theorem validation_check_outcome check tolerance i j ins v ok :
  check_result check tolerance (i :: j :: ins) = Ok (v, ok) →
  match check with
  | NON_NEGATIVE => v = r_value i ∧ (ok = true ↔ (0 <= dq v)%Q)
  | EQUALS =>
      rounds CALC_CONTEXT (dq (r_value i) - dq (r_value j)) v ∧
      (fits AMBIENT_CONTEXT v = true → ok = true ↔ (Qabs (dq v) <= dq (default dec_zero tolerance))%Q)
  | LESS_OR_EQUAL => rounds CALC_CONTEXT (dq (r_value i) - dq (r_value j)) v ∧ (ok = true ↔ (dq v <= 0)%Q)
  | GREATER_OR_EQUAL => rounds CALC_CONTEXT (dq (r_value i) - dq (r_value j)) v ∧ (ok = true ↔ (0 <= dq v)%Q)
  end.
Proof.
  intros H. unfold check_result in H. cbn [first_result head from_option_err lookup list_lookup] in H.
  rewrite bind_ok in H. apply bind_Ok in H as (l & Hl & H). unfold result_quantity in Hl. apply make_quantity_Ok in Hl as [-> Hdi].
  assert (Hz : dq dec_zero == 0) by reflexivity.
  destruct (decide (check = NON_NEGATIVE)) as [->|Hne].
  { ok_inv. split; [done|]. cbn [q_value]. by rewrite dec_leb_spec, Hz. }
  assert (∃ res, q_sub (Quantity (r_value i) (r_unit i)) (Quantity (r_value j) (r_unit j)) = Ok res ∧
    match check with
    | EQUALS => a ← map_err dec_error (dec_fix AMBIENT_CONTEXT (dec_abs (q_value res)));
                mret (q_value res, dec_leb a (default dec_zero tolerance))
    | LESS_OR_EQUAL => mret (q_value res, dec_leb (q_value res) dec_zero)
    | _ => mret (q_value res, dec_leb dec_zero (q_value res))
    end = Ok (v, ok)) as (res & Hres & Hv).
  { destruct check; try done; cbn [from_option_err] in H; rewrite bind_ok in H;
      apply bind_Ok in H as (r & Hr & H); unfold result_quantity in Hr; apply make_quantity_Ok in Hr as [-> Hdj];
      apply bind_Ok in H as (res & Hres & H); by exists res. }
  apply (q_apply_Ok "sub" unit_sub) in Hres as [Hop _]. apply operate_rounds in Hop. cbn [q_value] in Hop.
  clear H. destruct check; [|done| |]; cbn in Hv; ok_inv.
  - match goal with H : dec_fix _ _ = Ok _ |- _ => rename H into Ha end. split; [exact Hop|]. intros Hfit.
    rewrite dec_fix_of_fits in Ha; [|done|by destruct (q_value res)]. ok_inv. by rewrite dec_leb_spec, dq_abs.
  - split; [exact Hop|]. by rewrite dec_leb_spec, Hz.
  - split; [exact Hop|]. by rewrite dec_leb_spec, Hz.
Qed.

(** a result holding [d] dollars, all other fields fixed *)
Definition sample_result (d : decimal) : calc_result :=
  CalcResult "r" "n" FORMULA DERIVED d sample_usd (FiscalYear 2024) sample_time
    (Lineage DERIVED None None None ["p"%string]) ["p"%string] None None None RESULT_SCHEMA.

Theorem validation_check_outcome_witness :
  check_result EQUALS (Some (Dec false 1 (-2))) [sample_result (Dec false 10001 (-2)); sample_result (dec_of_Z 100)]
  = Ok (Dec false 1 (-2), true) ∧
  (true = true ↔ (Qabs (dq (Dec false 1 (-2))) <= dq (Dec false 1 (-2)))%Q).
Proof.
  assert (check_result EQUALS (Some (Dec false 1 (-2))) [sample_result (Dec false 10001 (-2)); sample_result (dec_of_Z 100)]
    = Ok (Dec false 1 (-2), true)) as Heq by (vm_compute; reflexivity).
  split; [exact Heq|]. destruct (validation_check_outcome _ _ _ _ _ _ _ Heq) as [_ H]. apply H. reflexivity.
Defined.

(** The equality check compares the residual after rounding it to 28 digits, not
    the residual it reports: with a tolerance of 1, a residual of
    1.0000000000000000000000000000001 passes. *)
Theorem equals_check_rounds_residual :
  ∃ v, check_result EQUALS (Some (dec_of_Z 1)) [sample_result (Dec false 20000000000000000000000000000001 (-31)); sample_result (dec_of_Z 1)]
       = Ok (v, true) ∧ (dq (dec_of_Z 1) < Qabs (dq v))%Q.
Proof. exists (Dec false 10000000000000000000000000000001 (-31)). split; [vm_compute; reflexivity|]. vm_compute. reflexivity. Qed.
