(* ===== verification/Jacobi.v ===== *)
(** The iterative solution of a declared group: sweeps keep every member at its
    declared unit, and a run ends with a certificate that the last sweep moved
    no member further than its tolerance. *)

From S2P Require Import Prelude Decimals Errors Periods Units Values Formulas Canonical Nodes Iteration Graph Engine.
Local Open Scope Z_scope.

(** [k] sweeps, none of them convergent, lead from the values [p] to [q]. *)
Inductive sweeps (by_id : gmap string node) (g : iteration_group) (external : gmap string quantity)
    : nat → gmap string quantity → gmap string quantity → Prop :=
| sweeps_O p : sweeps by_id g external 0 p p
| sweeps_S k p current tests q :
    sweep by_id (members g) (p ∪ external) = Ok current →
    mapM (convergence_test g (list_to_map (absolute_tolerances g)) p) current = Ok tests →
    forallb snd tests = false →
    sweeps by_id g external k (list_to_map current) q →
    sweeps by_id g external (S k) p q.

(** [current] is one sweep from [p], and every member moved within its tolerance. *)
Definition settled (by_id : gmap string node) (g : iteration_group) (external p : gmap string quantity)
    (current : list (string * quantity)) (residuals : list (string * decimal)) : Prop :=
  sweep by_id (members g) (p ∪ external) = Ok current ∧ residuals.*1 = members g ∧
  Forall2 (λ mq mr, convergence_test g (list_to_map (absolute_tolerances g)) p mq = Ok (snd mr, true)) current residuals.

Definition iteration_error (e : calc_error) : Prop :=
  e = IterationConvergenceError ∨ e = FormulaError ∨ ∃ s, e = dec_error s.

Section group.
Context (cutoff : datetime) (by_id : gmap string node) (g : iteration_group).
Hypothesis Hnodes : nodes_ok by_id.
Hypothesis Hunits : ∀ k n, by_id !! k = Some n → unit_ok (unit_of n) = true.
Hypothesis Hclosed : ∀ k n r, by_id !! k = Some n → r ∈ input_refs n → is_Some (by_id !! r).
Hypothesis Hgroup : check_group g = Ok tt.
Hypothesis Htypes : ∀ m, m ∈ members g → check_node_types by_id m = Ok tt.
Hypothesis Hformulas : ∀ m, m ∈ members g → ∃ n, by_id !! m = Some n ∧ is_formula_node n = true.

(** a value for the node [r], at its declared unit *)
Definition env_typed_at (env : gmap string quantity) (r : string) : Prop :=
  ∃ n q, by_id !! r = Some n ∧ env !! r = Some q ∧ q_unit q = unit_of n ∧ quantity_ok q.

Definition covers (env : gmap string quantity) : Prop :=
  env_ok env ∧ ∀ m n r, m ∈ members g → by_id !! m = Some n → r ∈ input_refs n → env_typed_at env r.

Lemma sweep_member_typed env m n :
  covers env → m ∈ members g → by_id !! m = Some n → of_unit (unit_of n) (sweep_member n env).
Proof.
  intros [Hok Henv] Hm Hn. destruct (Hnodes _ _ Hn) as [_ Hc].
  destruct (resolve_inputs by_id n Hc (λ r, Hclosed _ _ r Hn)) as (ins & Hres).
  pose proof (check_node_types_Ok _ _ _ _ Hn Hres (Htypes m Hm)) as Ht. destruct Hres as (_ & _ & _ & _ & Hf).
  destruct (Hformulas m Hm) as (n' & Hn' & Hform). assert (n' = n) as -> by congruence.
  assert (Hr : ∀ r i, r ∈ input_refs n → by_id !! r = Some i → ∃ q, env !! r = Some q ∧ q_unit q = unit_of i ∧ quantity_ok q).
  { intros r i Hr Hi. destruct (Henv m n r Hm Hn Hr) as (i' & q & Hi' & Hq & Hqu & Hqo).
    assert (i' = i) as -> by congruence. by exists q. }
  destruct n as [| | | | |b op l v|b ast v gv| | |]; try done; cbn [inputs_typed input_refs] in *.
  - destruct Hf as [|o i l ins Hi Hf]; [cbn in Ht; discriminate|]. cbn [sweep_member head from_option_err tail].
    rewrite bind_ok. destruct (Hr o i ltac:(left) Hi) as (q & Hq & Hqu & Hqo). rewrite (get_Some _ _ _ Hq), bind_ok.
    apply (fold_typed op unit_of (get env) ins); [|done|by rewrite Hqu].
    clear Ht Hi. assert (Hr' : ∀ r i, r ∈ l → by_id !! r = Some i → ∃ q, env !! r = Some q ∧ q_unit q = unit_of i ∧ quantity_ok q)
      by (intros r i' Hrl; apply Hr; by right).
    clear -Hf Hr'. induction Hf as [|r i l ins Hi Hf IH]; [constructor|]. constructor.
    + destruct (Hr' r i ltac:(left) Hi) as (q & Hq & Hqu & Hqo). exists q. split; [by apply get_Some|done].
    + apply IH. intros r' i' Hr2. apply Hr'. by right.
  - cbn [sweep_member]. apply (evaluate_formula_of_unit ast env (unit_env ins)); [done| |done].
    intros k v' Hk. unfold unit_env in Hk. apply elem_of_list_to_map_2, list_elem_of_fmap in Hk as (i & [= -> ->] & Hiin).
    apply list_elem_of_lookup in Hiin as [j Hj]. destruct (Forall2_lookup_r _ _ _ _ _ Hf Hj) as (r & Hrj & Hi).
    destruct (Hnodes _ _ Hi) as [Hid _]. rewrite Hid.
    destruct (Hr r i ltac:(by eapply list_elem_of_lookup_2) Hi) as (q & Hq & Hqu & _).
    unfold units_of. rewrite lookup_fmap, Hq. cbn. by rewrite Hqu.
Qed.

(** the values of a sweep, in member order, each at its member's unit *)
Definition values_typed (l : list (string * quantity)) : Prop :=
  Forall2 (λ m mq, fst mq = m ∧ ∃ n, by_id !! m = Some n ∧ q_unit (snd mq) = unit_of n ∧ quantity_ok (snd mq)) (members g) l.

Lemma sweep_typed env :
  covers env →
  match sweep by_id (members g) env with Ok l => values_typed l | Err e => e = FormulaError end.
Proof.
  intros Henv. destruct (sweep by_id (members g) env) as [l|e] eqn:Hs; unfold sweep in Hs.
  - apply mapM_Ok in Hs. unfold values_typed. rewrite Forall2_same_length_lookup in *. destruct Hs as [Hlen Hs].
    split; [done|]. intros i m mq Hm Hmq. specialize (Hs i m mq Hm Hmq). cbv beta in Hs. ok_inv. cbn.
    apply get_Ok in Hv. apply list_elem_of_lookup_2 in Hm. pose proof (sweep_member_typed env m v Henv Hm Hv) as Ht.
    rewrite Hv0 in Ht. destruct Ht as [Hu Hq]. eauto.
  - apply mapM_Err in Hs as (m & Hm & He). destruct (Hformulas m Hm) as (n & Hn & _).
    rewrite (get_Some _ _ _ Hn), bind_ok in He. pose proof (sweep_member_typed env m n Henv Hm Hn) as Ht.
    destruct (sweep_member n env); [done|]. cbn in He. injection He as <-. exact Ht.
Qed.

Lemma values_ids l : values_typed l → l.*1 = members g.
Proof.
  unfold values_typed. generalize (members g). induction 1 as [|m [m' q] ms l [Hm _] Hf IH]; [done|]. cbn in *. by rewrite IH, Hm.
Qed.

Lemma values_lookup l m :
  values_typed l → m ∈ members g → env_typed_at (list_to_map l) m.
Proof.
  intros Hl Hm. pose proof (values_ids l Hl) as Hids. destruct (check_group_Ok _ Hgroup) as (_ & Hnd & _).
  apply list_elem_of_lookup in Hm as [i Hi].
  destruct (Forall2_lookup_l _ _ _ _ _ Hl Hi) as ([m' q] & Hq & Hm' & n & Hn & Hu & Hok). cbn in *. subst m'.
  exists n, q. split_and!; [done| |done|done]. apply elem_of_list_to_map; [by rewrite Hids|]. by eapply list_elem_of_lookup_2.
Qed.

Lemma values_env_ok l : values_typed l → env_ok (list_to_map l).
Proof.
  intros Hl k q Hk. apply elem_of_list_to_map_2 in Hk. apply list_elem_of_lookup in Hk as [i Hi].
  destruct (Forall2_lookup_r _ _ _ _ _ Hl Hi) as (m & _ & _ & n & _ & _ & Hq). exact Hq.
Qed.

Section run.
Context (external : gmap string quantity).
Hypothesis Hext_ok : env_ok external.
Hypothesis Hext : ∀ m n r, m ∈ members g → by_id !! m = Some n → r ∈ input_refs n → r ∉ members g → env_typed_at external r.
Hypothesis Hext_dom : ∀ r, is_Some (external !! r) → r ∉ members g.

Lemma covers_union l : values_typed l → covers (list_to_map l ∪ external).
Proof.
  intros Hl. split.
  - intros k q [Hk|[_ Hk]]%lookup_union_Some_raw; [by eapply values_env_ok|by eapply Hext_ok].
  - intros m n r Hm Hn Hr. destruct (decide (r ∈ members g)) as [Hin|Hout].
    + destruct (values_lookup l r Hl Hin) as (n' & q & ? & Hq & ? & ?). exists n', q.
      split_and!; [done|by apply lookup_union_Some_l|done|done].
    + destruct (Hext m n r Hm Hn Hr Hout) as (n' & q & ? & Hq & ? & ?). exists n', q.
      split_and!; [done| |done|done]. rewrite lookup_union_r; [done|]. apply not_elem_of_list_to_map_1.
      by rewrite (values_ids l Hl).
Qed.

Lemma convergence_test_err p mq e :
  fst mq ∈ members g → is_Some (p !! fst mq) →
  convergence_test g (list_to_map (absolute_tolerances g)) p mq = Err e → ∃ s, e = dec_error s.
Proof.
  destruct mq as [m q]. intros Hm [old Hold] H. unfold convergence_test in H. cbn [fst] in *.
  rewrite (get_Some _ _ _ Hold), bind_ok in H.
  apply bind_Err in H as [H|(res & _ & H)]; [destruct (dec_sub _ _ _); [done|injection H as <-; eauto]|].
  destruct (check_group_Ok _ Hgroup) as (_ & _ & _ & Ht & _). rewrite <- Ht in Hm.
  apply list_to_map_is_Some in Hm as [t' Ht']. cbn [fst] in *. rewrite (get_Some _ _ _ Ht'), bind_ok in H.
  apply bind_Err in H as [H|(sc & _ & H)]; [destruct (dec_mul _ _ _); [done|injection H as <-; eauto]|].
  apply bind_Err in H as [H|(th & _ & H)]; [destruct (dec_add _ _ _); [done|injection H as <-; eauto]|]. done.
Qed.

(** A run of [jacobi] ends with a settled sweep, the first one, within its budget. *)
Lemma jacobi_spec fuel l completed :
  values_typed l →
  match jacobi fuel by_id g external (list_to_map l) completed with
  | Ok cv =>
      ∃ k p, sweeps by_id g external k (list_to_map l) p ∧ (k < fuel)%nat ∧ cv_iterations cv = completed + Z.of_nat k + 1 ∧
        settled by_id g external p (cv_values cv) (cv_residuals cv) ∧ values_typed (cv_values cv)
  | Err e => iteration_error e ∧ (e = IterationConvergenceError → ∃ p, sweeps by_id g external fuel (list_to_map l) p)
  end.
Proof.
  revert l completed. induction fuel as [|fuel IH]; intros l completed Hl; cbn [jacobi].
  { split; [by left|]. intros _. eexists. constructor. }
  pose proof (sweep_typed _ (covers_union l Hl)) as Hsw.
  destruct (sweep by_id (members g) (list_to_map l ∪ external)) as [cur|e] eqn:Hcur; [|subst; split; [by right; left|done]].
  rewrite bind_ok. destruct (mapM _ cur) as [tests|e] eqn:Htests.
  2: { apply mapM_Err in Htests as (mq & Hmq & He). assert (∃ s, e = dec_error s) as [s ->].
       { eapply convergence_test_err; [| |done].
         - rewrite <- (values_ids cur Hsw). by apply list_elem_of_fmap_2.
         - apply list_to_map_is_Some. rewrite (values_ids l Hl), <- (values_ids cur Hsw). by apply list_elem_of_fmap_2. }
       split; [unfold iteration_error; eauto|done]. }
  rewrite bind_ok. destruct (forallb snd tests) eqn:Hall.
  - exists 0%nat, (list_to_map l). cbn. split_and!; [constructor|lia|lia| |done].
    assert (Hlen : length cur = length tests) by (apply mapM_Ok, Forall2_length in Htests; done).
    split; [done|]. split.
    { rewrite fst_zip; [by apply values_ids|]. rewrite !length_fmap. lia. }
    apply mapM_Ok in Htests. clear -Htests Hall. induction Htests as [|mq [r b] cur tests H Hf IH]; [constructor|].
    cbn in *. apply andb_true_iff in Hall as [-> Hall]. constructor; [done|]. by apply IH.
  - specialize (IH cur (completed + 1) Hsw).
    destruct (jacobi fuel _ _ _ _ _) as [cv|e].
    + destruct IH as (k & p & Hk & Hlt & Hit & Hset & Hv). exists (S k), p.
      split_and!; [by eapply sweeps_S|lia|lia|done|done].
    + destruct IH as [He Hn]. split; [done|]. intros He'. destruct (Hn He') as [p Hp]. exists p. by eapply sweeps_S.
Qed.
End run.
End group.
