(* ===== verification/Evaluation.v ===== *)
(** Evaluation of a whole graph: what [evaluate] promises for every node of a
    built graph, by an invariant over the execution plan. *)

From S2P Require Import Prelude Decimals Errors Periods Units Values Formulas Canonical Nodes Iteration Graph Plan Snapshot Engine Jacobi.
Local Open Scope Z_scope.

(** * What a stored result promises *)

Record result_good (cutoff : datetime) (results : gmap string calc_result) (n : node) (r : calc_result) : Prop := ResultGood {
  rg_sound : result_sound cutoff n r;
  rg_kind : r_kind r = kind_of n;
  rg_provenance : r_provenance r = provenance_of n;
  rg_period : r_period r = period_of n;
  rg_lineage : check_lineage (r_lineage r) = Ok tt ∧ l_provenance (r_lineage r) = provenance_of n;
  rg_derived : provenance_of n = DERIVED → derived_from (r_lineage r) = input_result_ids r ∧ input_result_ids r ≠ [];
  rg_inputs : ∀ i, i ∈ input_result_ids r → ∃ k r', results !! k = Some r' ∧ result_id r' = i ∧
    (provenance_of n = DERIVED → instant (available_at r') ≤ instant (available_at r))
}.

Lemma result_good_mono cutoff m m' n r : m ⊆ m' → result_good cutoff m n r → result_good cutoff m' n r.
Proof.
  intros Hm [? ? ? ? ? ? Hi]. constructor; try done. intros i Hin. destruct (Hi i Hin) as (k & r' & Hk & ?).
  exists k, r'. split; [by eapply lookup_weaken|done].
Qed.

(** The result of a plain node is its computation on the results of its inputs. *)
Definition node_equation (gr : model_graph) (cutoff : datetime) (results : gmap string calc_result) (id : string) : Prop :=
  ∃ n ins c d, by_id gr !! id = Some n ∧ Forall2 (λ ref i, results !! ref = Some i) (input_refs n) ins ∧
    compute n ins cutoff = Ok c ∧ node_definition n = Ok d ∧ results !! id = Some (plain_result cutoff n d ins c).

(** the quantity stored for a node *)
Definition value_at (results : gmap string calc_result) (id : string) : option quantity := rq <$> results !! id.

Definition is_external (gr : model_graph) (g : iteration_group) (r : string) : Prop :=
  r ∉ members g ∧ ∃ m n, m ∈ members g ∧ by_id gr !! m = Some n ∧ r ∈ input_refs n.

(** The results of a group are the first settled sweep from its seeds. *)
Definition group_equation (gr : model_graph) (results : gmap string calc_result) (g : iteration_group) : Prop :=
  ∃ external start k p current residuals,
    (∀ r, is_external gr g r → is_Some (external !! r)) ∧
    (∀ r q, external !! r = Some q → is_external gr g r ∧ value_at results r = Some q) ∧
    Forall2 (λ ms mq, fst mq = fst ms ∧ value_at results (snd ms) = Some (snd mq)) (seeds g) start ∧
    sweeps (by_id gr) g external k (list_to_map start) p ∧ Z.of_nat k < max_iterations g ∧
    settled (by_id gr) g external p current residuals ∧
    Forall (λ mq, value_at results (fst mq) = Some (snd mq)) current.

(** * One group *)

Section group.
Context (gr : model_graph) (cutoff : datetime) (g : iteration_group) (before : list string) (results : gmap string calc_result).
Hypothesis Hgr : graph_ok gr.
Hypothesis Hready : step_ready (by_id gr) before (StepGroup g).
Hypothesis Htypes : ∀ m, m ∈ members g → check_node_types (by_id gr) m = Ok tt.
Hypothesis Hbefore : ∀ k, k ∈ before → ∃ n r, by_id gr !! k = Some n ∧ results !! k = Some r ∧ result_sound cutoff n r.

Lemma member_node m : m ∈ members g → ∃ n, by_id gr !! m = Some n ∧ is_formula_node n = true.
Proof. destruct Hready as (_ & Hm & _). intros H. destruct (Hm m H) as (n & Hn & Hf & _). by exists n. Qed.

Lemma external_ids_spec :
  ∃ ids, external_ids_of (by_id gr) g = Ok ids ∧ NoDup ids ∧ ∀ r, r ∈ ids ↔ is_external gr g r.
Proof.
  unfold external_ids_of.
  destruct (mapM_total (λ m, n ← get (by_id gr) m; roles ← Nodes.inputs n; mret roles.*2) (members g)) as [refs Hrefs].
  { intros m Hm. destruct (member_node m Hm) as (n & Hn & _). destruct (go_nodes _ Hgr _ _ Hn) as [_ Hc].
    destruct (input_refs_ok n Hc) as ((roles & Hr & _) & _). exists (roles.*2). by rewrite (get_Some _ _ _ Hn), bind_ok, Hr. }
  rewrite Hrefs, bind_ok. eexists. split; [done|]. split; [apply NoDup_sorted_strings, NoDup_dict_fromkeys|].
  intros r. rewrite elem_of_sorted_strings, elem_of_dict_fromkeys, list_elem_of_filter, elem_of_concat.
  unfold is_external. apply mapM_Ok in Hrefs.
  assert (Hone : ∀ m l, (n ← get (by_id gr) m; roles ← Nodes.inputs n; mret roles.*2) = Ok l →
    ∃ n, by_id gr !! m = Some n ∧ l = input_refs n).
  { intros m l H. ok_inv. apply get_Ok in Hv. destruct (go_nodes _ Hgr _ _ Hv) as [_ Hc].
    destruct (input_refs_ok _ Hc) as ((roles & Hr & Heq) & _). exists v. split; [done|]. congruence. }
  split; (intros [Hr H]; split; [done|]).
  - destruct H as (l & Hrl & Hl). apply list_elem_of_lookup in Hl as [i Hi].
    destruct (Forall2_lookup_r _ _ _ _ _ Hrefs Hi) as (m & Hm & He). destruct (Hone _ _ He) as (n & Hn & ->).
    exists m, n. split_and!; [by eapply list_elem_of_lookup_2|done|done].
  - destruct H as (m & n & Hm & Hn & Hrn). apply list_elem_of_lookup in Hm as [i Hi].
    destruct (Forall2_lookup_l _ _ _ _ _ Hrefs Hi) as (l & Hl & He). destruct (Hone _ _ He) as (n' & Hn' & ->).
    exists (input_refs n'). split; [by simplify_eq|by eapply list_elem_of_lookup_2].
Qed.

Lemma external_before r : is_external gr g r → r ∈ before.
Proof.
  intros (Hr & m & n & Hm & Hn & Hrn). destruct Hready as (_ & Hms & _).
  destruct (Hms m Hm) as (n' & Hn' & _ & Hin). simplify_eq. by destruct (Hin r Hrn).
Qed.

Lemma read_before l :
  (∀ k, k ∈ l → k ∈ before) → ∃ rs, mapM (get results) l = Ok rs ∧
    Forall2 (λ k r, results !! k = Some r ∧ ∃ n, by_id gr !! k = Some n ∧ result_sound cutoff n r) l rs.
Proof.
  intros Hl. destruct (mapM_get results l) as (rs & Hrs & Hf).
  { intros k Hk. destruct (Hbefore k (Hl k Hk)) as (n & r & _ & Hr & _). by exists r. }
  exists rs. split; [done|]. rewrite Forall2_same_length_lookup in *. destruct Hf as [Hlen Hf]. split; [done|].
  intros i k r Hk Hr. specialize (Hf i k r Hk Hr). split; [done|].
  apply list_elem_of_lookup_2 in Hk. destruct (Hbefore k (Hl k Hk)) as (n & r' & Hn & Hr' & Hs). simplify_eq. by exists n.
Qed.

(** the quantities read for the external references *)
Lemma read_external ids :
  NoDup ids → (∀ r, r ∈ ids ↔ is_external gr g r) →
  ∃ ext, mapM (λ i, r ← get results i; q ← result_quantity r; mret (i, q)) ids = Ok ext ∧
    (∀ r q, (list_to_map ext : gmap string quantity) !! r = Some q ↔ is_external gr g r ∧ value_at results r = Some q).
Proof.
  intros Hnd Hids.
  assert (Hone : ∀ i, i ∈ ids → ∃ n r, by_id gr !! i = Some n ∧ results !! i = Some r ∧ result_sound cutoff n r ∧
    (r ← get results i; q ← result_quantity r; mret (i, q)) = Ok (i, rq r)).
  { intros i Hi. destruct (Hbefore i) as (n & r & Hn & Hr & Hs); [by apply external_before, Hids|].
    exists n, r. split_and!; [done..|]. by rewrite (get_Some _ _ _ Hr), bind_ok, result_quantity_eq by apply Hs. }
  destruct (mapM_total (λ i, r ← get results i; q ← result_quantity r; mret (i, q)) ids) as [ext Hext].
  { intros i Hi. destruct (Hone i Hi) as (n & r & _ & _ & _ & He). by eexists. }
  exists ext. split; [done|]. apply mapM_Ok in Hext.
  assert (Hfst : ext.*1 = ids).
  { clear -Hext Hone. induction Hext as [|i p ids ext Hp Hf IH]; [done|]. cbn. rewrite IH; [|intros; apply Hone; by right].
    destruct (Hone i ltac:(left)) as (n & r & _ & _ & _ & He). rewrite He in Hp. by injection Hp as <-. }
  intros r q. rewrite <- elem_of_list_to_map by (by rewrite Hfst). unfold value_at. split.
  - intros Hin. apply list_elem_of_lookup in Hin as [j Hj].
    destruct (Forall2_lookup_r _ _ _ _ _ Hext Hj) as (i & Hi & He). apply list_elem_of_lookup_2 in Hi.
    destruct (Hone i Hi) as (n & r' & _ & Hr' & _ & He'). rewrite He in He'. injection He' as -> ->.
    split; [by apply Hids|]. by rewrite Hr'.
  - intros [Hr Hq]. apply Hids in Hr. destruct (Hone r Hr) as (n & r' & _ & Hr' & _ & He').
    rewrite Hr' in Hq. injection Hq as <-. apply list_elem_of_lookup in Hr as [j Hj].
    destruct (Forall2_lookup_l _ _ _ _ _ Hext Hj) as (p & Hp & He). rewrite He in He'. injection He' as ->.
    by eapply list_elem_of_lookup_2.
Qed.

(** the starting values read from the seeds *)
Lemma read_seeds :
  ∃ start, mapM (λ ms, r ← get results (snd ms); q ← result_quantity r; mret (fst ms, q)) (seeds g) = Ok start ∧
    Forall2 (λ ms mq, fst mq = fst ms ∧ value_at results (snd ms) = Some (snd mq)) (seeds g) start ∧
    values_typed (by_id gr) g start.
Proof.
  destruct Hready as (Hg & _ & Hs). destruct (check_group_Ok _ Hg) as (_ & _ & Hfst & _).
  assert (Hone : ∀ ms, ms ∈ seeds g → ∃ r n, results !! snd ms = Some r ∧ by_id gr !! fst ms = Some n ∧
    q_unit (rq r) = unit_of n ∧ quantity_ok (rq r) ∧ result_quantity r = Ok (rq r)).
  { intros [m s] Hms. destruct (Hs m s Hms) as (Hb & n & sn & Hn & Hsn & Hu).
    destruct (Hbefore s Hb) as (sn' & r & Hsn' & Hr & Hsound). simplify_eq. exists r, n. cbn.
    split_and!; [done|done|by rewrite (rs_unit _ _ _ Hsound)| |].
    - eapply rq_ok; [by eapply (go_units _ Hgr)|done].
    - apply result_quantity_eq, Hsound. }
  destruct (mapM_total (λ ms, r ← get results (snd ms); q ← result_quantity r; mret (fst ms, q)) (seeds g)) as [start Hst].
  { intros ms Hms. destruct (Hone ms Hms) as (r & n & Hr & _ & _ & _ & Hq).
    exists (fst ms, rq r). by rewrite (get_Some _ _ _ Hr), bind_ok, Hq. }
  exists start. split; [done|]. apply mapM_Ok in Hst.
  assert (Hf : Forall2 (λ ms mq, (fst mq = fst ms ∧ value_at results (snd ms) = Some (snd mq)) ∧
      ∃ n, by_id gr !! fst ms = Some n ∧ q_unit (snd mq) = unit_of n ∧ quantity_ok (snd mq)) (seeds g) start).
  { clear -Hone Hst. induction Hst as [|ms mq ss st He Hf IH]; [constructor|]. constructor; [|apply IH; intros; apply Hone; by right].
    destruct (Hone ms ltac:(left)) as (r & n & Hr & Hn & Hu & Hok & Hq). rewrite (get_Some _ _ _ Hr), bind_ok, Hq, bind_ok in He.
    injection He as <-. unfold value_at. rewrite Hr. split; [done|by exists n]. }
  split; [eapply Forall2_impl; [done|]; by intros ? ? []|]. unfold values_typed. rewrite <- Hfst, Forall2_fmap_l.
  eapply Forall2_impl; [done|]. intros ms mq [[? _] ?]. by cbn.
Qed.

(** members' results from a converged run *)
Lemma member_results t parents run_id ns l :
  aware t = true → instant t ≤ instant cutoff →
  parents ≠ [] → NoDup parents → Forall (λ i, safe_id i = true) parents →
  (∀ i, i ∈ parents → ∃ k r', results !! k = Some r' ∧ result_id r' = i ∧ instant (available_at r') ≤ instant t) →
  Forall2 (λ m n, by_id gr !! m = Some n) (members g) ns → values_typed (by_id gr) g l →
  match mapM (member_result t (Lineage DERIVED None None None parents) parents run_id) (zip ns l) with
  | Ok outputs =>
      outputs.*1 = members g ∧ Forall2 (λ mq mr, fst mr = fst mq ∧ rq (snd mr) = snd mq) l outputs ∧
      Forall (λ mr, ∃ n, by_id gr !! fst mr = Some n ∧ result_good cutoff results n (snd mr)) outputs ∧
      Forall (λ mr, passed (snd mr) ≠ Some false) outputs
  | Err e => e = CanonicalizationError
  end.
Proof.
  intros Hat Hct Hne Hnd Hsafe Hpar Hns Hl. unfold values_typed in Hl.
  assert (Hform : Forall (λ m, ∀ n, by_id gr !! m = Some n → is_formula_node n = true) (members g)).
  { apply Forall_forall. intros m Hm n Hn. destruct (member_node m Hm) as (n' & Hn' & Hf). by simplify_eq. }
  clear Htypes Hready Hbefore. revert l Hl Hform. induction Hns as [|m n ms ns Hn Hns IH]; intros l Hl Hform.
  { inversion Hl; subst. cbn. split_and!; [done|constructor|constructor|constructor]. }
  inversion Hl as [|? [m' q] ? l' (Hm' & n' & Hn' & Hu & Hq) Hl']; subst. cbn [fst snd] in *. simplify_eq.
  apply Forall_cons in Hform as [Hfn Hform]. specialize (Hfn _ Hn). specialize (IH l' Hl' Hform). cbn [zip zip_with mapM member_result].
  destruct (content_hash _) as [h|e] eqn:Hh; [|by apply content_hash_err in Hh as ->]. rewrite bind_ok.
  assert (∃ v, formula_version_of n = Ok v) as [v Hv] by (destruct n; try done; by eexists). rewrite Hv, bind_ok.
  unfold make_result at 1. cbn [r_value available_at]. destruct Hq as [Hqd Hqu].
  rewrite (proj2 (check_decimal_Ok (q_value q) tt)), bind_ok, Hat by done. cbn [ensure]. rewrite !bind_ok.
  unfold mret, result_ret. rewrite bind_ok.
  destruct (mapM _ (zip ns l')) as [outs|e]; [|exact IH]. rewrite bind_ok. destruct IH as (Hf1 & Hf2 & Hf3 & Hf4).
  cbn. split_and!; [by rewrite Hf1|constructor; [|done]|constructor; [|done]|by constructor].
  - cbn. split; [done|]. unfold rq. cbn. rewrite <- Hu. by destruct q.
  - exists n. split; [done|]. destruct (go_nodes _ Hgr _ _ Hn) as [Hid Hc].
    assert (Hp : provenance_of n = DERIVED) by (by destruct n).
    constructor; try done; cbn.
    + constructor; cbn; try done. unfold content_hash in Hh. destruct (canonical_json _); [|done].
      injection Hh as <-. apply sha256_hex_safe.
    + rewrite Hp. split; [|done]. rewrite check_derived by done. by rewrite bool_decide_eq_true_2.
    + intros i Hi. destruct (Hpar i Hi) as (k & r' & ? & ? & ?). eauto.
Qed.

(** a group's results before they are stored *)
Definition group_outputs (outputs : list (string * calc_result)) : Prop :=
  ∃ external start k p current residuals,
    (∀ r, is_external gr g r → is_Some (external !! r)) ∧
    (∀ r q, external !! r = Some q → is_external gr g r ∧ value_at results r = Some q) ∧
    Forall2 (λ ms mq, fst mq = fst ms ∧ value_at results (snd ms) = Some (snd mq)) (seeds g) start ∧
    sweeps (by_id gr) g external k (list_to_map start) p ∧ Z.of_nat k < max_iterations g ∧
    settled (by_id gr) g external p current residuals ∧
    Forall2 (λ mq mr, fst mr = fst mq ∧ rq (snd mr) = snd mq) current outputs.

Lemma read_definitions :
  ∃ defs, mapM (λ m, d ← get (definitions gr) m; mret (m, d)) (members g) = Ok defs.
Proof.
  apply mapM_total. intros m Hm. destruct (member_node m Hm) as (n & Hn & _).
  destruct (go_defs _ Hgr _ _ Hn) as (d & _ & Hd). exists (m, d). by rewrite (get_Some _ _ _ Hd).
Qed.

Lemma read_dependencies ns :
  Forall2 (λ m n, by_id gr !! m = Some n) (members g) ns →
  ∃ deps, mapM (λ n, roles ← Nodes.inputs n; mret (id_of n, roles.*2)) ns = Ok deps.
Proof.
  intros Hf. apply mapM_total. intros n Hn. apply list_elem_of_lookup in Hn as [i Hi].
  destruct (Forall2_lookup_r _ _ _ _ _ Hf Hi) as (m & _ & Hm). destruct (go_nodes _ Hgr _ _ Hm) as [_ Hc].
  destruct (input_refs_ok n Hc) as ((roles & -> & _) & _). by eexists.
Qed.

Lemma read_ids {A B} (f : A → string) (h : A → string → B) l :
  (∀ a, a ∈ l → f a ∈ before) → ∃ ids, mapM (λ a, r ← get results (f a); mret (h a (result_id r))) l = Ok ids.
Proof.
  intros Hl. apply mapM_total. intros a Ha. destruct (Hbefore (f a) (Hl a Ha)) as (n & r & _ & Hr & _).
  eexists. by rewrite (get_Some _ _ _ Hr).
Qed.

Lemma seed_before ms : ms ∈ seeds g → snd ms ∈ before.
Proof. destruct Hready as (_ & _ & Hs). destruct ms as [m s]. intros H. by destruct (Hs m s H). Qed.

(** the inputs of the whole group: its parents' ids, their latest availability *)
Lemma read_parents ids :
  (∀ r, r ∈ ids → r ∈ before) →
  ∃ parents t, mapM (get results) (sorted_strings (dict_fromkeys (ids ++ (seeds g).*2))) = Ok parents ∧
    latest parents = Ok t ∧ aware t = true ∧ instant t ≤ instant cutoff ∧
    Forall (λ i, safe_id i = true) (dict_fromkeys (map result_id parents)) ∧
    dict_fromkeys (map result_id parents) ≠ [] ∧
    (∀ i, i ∈ dict_fromkeys (map result_id parents) →
       ∃ k r', results !! k = Some r' ∧ result_id r' = i ∧ instant (available_at r') ≤ instant t).
Proof.
  intros Hids. assert (Hall : ∀ k, k ∈ sorted_strings (dict_fromkeys (ids ++ (seeds g).*2)) → k ∈ before).
  { intros k. rewrite elem_of_sorted_strings, elem_of_dict_fromkeys, elem_of_app.
    intros [Hk|(ms & -> & Hms)%list_elem_of_fmap]; [by apply Hids|by apply seed_before]. }
  destruct (read_before _ Hall) as (parents & Hp & Hf). exists parents.
  assert (Hin : ∀ r, r ∈ parents → ∃ k n, results !! k = Some r ∧ result_sound cutoff n r).
  { intros r Hr. apply list_elem_of_lookup in Hr as [i Hi].
    destruct (Forall2_lookup_r _ _ _ _ _ Hf Hi) as (k & _ & Hk & n & _ & Hs). eauto. }
  assert (Hne : parents ≠ []).
  { intros ->. apply Forall2_length in Hf. cbn in Hf. apply length_zero_iff_nil in Hf.
    destruct Hready as (Hg & _). destruct (check_group_Ok _ Hg) as (Hm & _ & Hfst & _).
    destruct (seeds g) as [|[m s] ss] eqn:Hseeds; [by rewrite <- Hfst in Hm|].
    assert (s ∈ sorted_strings (dict_fromkeys (ids ++ ((m, s) :: ss).*2))) as Hs.
    { rewrite elem_of_sorted_strings, elem_of_dict_fromkeys, elem_of_app. right. left. }
    rewrite Hf in Hs. by apply elem_of_nil in Hs. }
  destruct (latest parents) as [t|e] eqn:Ht; [|by destruct parents]. exists t.
  destruct (latest_spec _ _ Ht) as [(r0 & Hr0 & ->) Hle]. destruct (Hin r0 Hr0) as (_ & n0 & _ & Hs0).
  split_and!; [done|done|apply Hs0|apply Hs0| | |].
  - apply Forall_forall. intros i. rewrite elem_of_dict_fromkeys. intros (r & -> & Hr)%list_elem_of_fmap.
    destruct (Hin r Hr) as (_ & n & _ & Hs). apply Hs.
  - destruct parents; [done|]. by unfold dict_fromkeys; cbn.
  - intros i. rewrite elem_of_dict_fromkeys. intros (r & -> & Hr)%list_elem_of_fmap.
    destruct (Hin r Hr) as (k & n & Hk & Hs). exists k, r. split_and!; [done..|]. by apply Hle.
Qed.

Lemma iterate_spec :
  match iterate gr g results cutoff with
  | Ok (outputs, record) =>
      outputs.*1 = members g ∧ group_outputs outputs ∧
      Forall (λ mr, ∃ n, by_id gr !! fst mr = Some n ∧ result_good cutoff results n (snd mr)) outputs ∧
      Forall (λ mr, passed (snd mr) ≠ Some false) outputs
  | Err e => eval_error e
  end.
Proof.
  unfold iterate. destruct external_ids_spec as (ids & -> & Hnd & Hids). rewrite bind_ok.
  assert (Hb : ∀ r, r ∈ ids → r ∈ before) by (intros r Hr; by apply external_before, Hids).
  destruct (read_parents ids Hb) as (parents & t & -> & Ht & Hat & Hct & Hsafe & Hne & Hpar). rewrite bind_ok, Ht, bind_ok.
  pose proof (derived_lineage _ Hne Hsafe) as Hl. destruct (make_lineage _) as [lin|e]; [|by destruct Hl as [_ []]; apply NoDup_dict_fromkeys].
  destruct Hl as (-> & _ & Hndp). rewrite bind_ok.
  destruct read_seeds as (start & -> & Hstart & Hvt). rewrite bind_ok.
  destruct (read_external ids Hnd Hids) as (ext & -> & Hext). rewrite bind_ok.
  destruct Hready as (Hg & Hms & _). destruct (check_group_Ok _ Hg) as (_ & _ & _ & _ & Hmax).
  assert (Hj := jacobi_spec (by_id gr) g (go_nodes _ Hgr) (go_closed _ Hgr) Hg Htypes member_node (list_to_map ext)).
  ospecialize (Hj _ _ (Z.to_nat (max_iterations g)) start 0 Hvt).
  { intros r q [Hr Hq]%Hext. destruct (Hbefore r (external_before r Hr)) as (n & res & Hn & Hres & Hs).
    unfold value_at in Hq. rewrite Hres in Hq. injection Hq as <-. eapply rq_ok; [by eapply (go_units _ Hgr)|done]. }
  { intros m n r Hm Hn Hr Hout. assert (is_external gr g r) as He by (split; [done|by exists m, n]).
    destruct (Hbefore r (external_before r He)) as (n' & res & Hn' & Hres & Hs). exists n', (rq res).
    split_and!; [done|apply Hext; split; [done|]; unfold value_at; by rewrite Hres|apply Hs|].
    eapply rq_ok; [by eapply (go_units _ Hgr)|done]. }
  destruct (jacobi (Z.to_nat (max_iterations g)) _ _ _ _ _) as [cv|e].
  2: { destruct Hj as [[-> |[-> |[s ->]]] _]; cbn; eval_err. }
  rewrite bind_ok. destruct Hj as (k & p & Hk & Hlt & _ & Hset & Hval).
  destruct (mapM_get (by_id gr) (members g)) as (ns & -> & Hns).
  { intros m Hm. destruct (member_node m Hm) as (n & Hn & _). by exists n. }
  rewrite bind_ok. destruct read_definitions as (defs & ->). rewrite bind_ok.
  destruct (read_dependencies ns Hns) as (deps & ->). rewrite bind_ok.
  destruct (read_ids snd (λ ms i, (fst ms, snd ms, i)) (seeds g) seed_before) as (sids & ->). rewrite bind_ok.
  destruct (read_ids (λ i, i) (λ a i, (a, i)) ids Hb) as (eids & ->). rewrite bind_ok. cbv zeta.
  destruct (content_hash _) as [h|e] eqn:Hh; [|apply content_hash_err in Hh as ->; cbn; eval_err]. rewrite bind_ok.
  pose proof (member_results t (dict_fromkeys (map result_id parents)) h ns (cv_values cv) Hat Hct Hne Hndp Hsafe Hpar Hns Hval) as Hr.
  destruct (mapM (member_result _ _ _ _) _) as [outputs|e]; [|subst; cbn; eval_err]. rewrite bind_ok.
  destruct Hr as (Hf1 & Hf2 & Hf3 & Hf4). cbn. split_and!; [done| |done|done].
  exists (list_to_map ext), start, k, p, (cv_values cv), (cv_residuals cv). split_and!; try done; [|by intros r q ?%Hext|lia].
  intros r Hr. destruct (Hbefore r (external_before r Hr)) as (n & res & _ & Hres & _). exists (rq res).
  apply Hext. split; [done|]. unfold value_at. by rewrite Hres.
Qed.
End group.

(** * The plan *)

Lemma value_at_mono m m' k q : m ⊆ m' → value_at m k = Some q → value_at m' k = Some q.
Proof.
  unfold value_at. intros Hm. destruct (m !! k) as [r|] eqn:Hk; [|done]. by rewrite (lookup_weaken _ _ _ _ Hk Hm).
Qed.

Lemma node_equation_mono gr cutoff m m' id : m ⊆ m' → node_equation gr cutoff m id → node_equation gr cutoff m' id.
Proof.
  intros Hm (n & ins & c & d & Hn & Hins & Hc & Hd & Hr). exists n, ins, c, d. split_and!; try done.
  - eapply Forall2_impl; [exact Hins|]. intros r i Hi. by apply (lookup_weaken m).
  - by apply (lookup_weaken m).
Qed.

Lemma group_equation_mono gr m m' g : m ⊆ m' → group_equation gr m g → group_equation gr m' g.
Proof.
  intros Hm (ext & start & k & p & cur & res & Hdom & Hext & Hst & Hk & Hlt & Hset & Hcur).
  exists ext, start, k, p, cur, res. split_and!; try done.
  - intros r q Hq. destruct (Hext r q Hq). split; [done|]. by eapply value_at_mono.
  - eapply Forall2_impl; [done|]. intros ms mq [? ?]. split; [done|]. by eapply value_at_mono.
  - eapply Forall_impl; [done|]. intros mq ?. by eapply value_at_mono.
Qed.

Definition step_equation (gr : model_graph) (cutoff : datetime) (results : gmap string calc_result) (s : step) : Prop :=
  match s with StepNode id => node_equation gr cutoff results id | StepGroup g => group_equation gr results g end.

Lemma step_equation_mono gr cutoff m m' s : m ⊆ m' → step_equation gr cutoff m s → step_equation gr cutoff m' s.
Proof. destruct s; [apply node_equation_mono|apply group_equation_mono]. Qed.

(** the loop invariant: after the steps [pre] *)
Record eval_inv (gr : model_graph) (cutoff : datetime) (pre : list step) (st : eval_state) : Prop := EvalInv {
  ei_dom : ∀ k, is_Some (es_results st !! k) ↔ k ∈ concat (step_members <$> pre);
  ei_good : ∀ k r, es_results st !! k = Some r →
    ∃ n, by_id gr !! k = Some n ∧ result_good cutoff (es_results st) n r;
  ei_equations : Forall (step_equation gr cutoff (es_results st)) pre;
  ei_failed : ∀ id, id ∈ es_failed st ↔ ∃ r, es_results st !! id = Some r ∧ passed r = Some false
}.

Section plan.
Context (gr : model_graph) (cutoff : datetime).
Hypothesis Hgr : graph_ok gr.

Lemma inv_before pre st k :
  eval_inv gr cutoff pre st → k ∈ concat (step_members <$> pre) →
  ∃ n r, by_id gr !! k = Some n ∧ es_results st !! k = Some r ∧ result_sound cutoff n r.
Proof.
  intros Hi Hk. apply (ei_dom _ _ _ _ Hi) in Hk as [r Hr]. destruct (ei_good _ _ _ _ Hi k r Hr) as (n & Hn & Hg).
  exists n, r. split_and!; [done|done|apply Hg].
Qed.

Lemma plan_types id : id ∈ concat (step_members <$> execution_plan gr) → check_node_types (by_id gr) id = Ok tt.
Proof.
  intros Hid. rewrite (go_flat _ Hgr) in Hid. pose proof (go_types _ Hgr) as Ht. unfold check_types in Ht.
  apply for_each_Ok in Ht. by eapply Forall_forall in Ht.
Qed.

(** A ready node computes on its inputs' results. *)
Lemma plain_good (results : gmap string calc_result) n is_ ins c d :
  check_node n = Ok tt → Forall2 (λ r i, by_id gr !! r = Some i) (input_refs n) is_ →
  Forall2 (λ r i, results !! r = Some i) (input_refs n) ins → computed_sound cutoff n ins (Ok c) →
  result_good cutoff results n (plain_result cutoff n d ins c).
Proof.
  intros Hn Hi Hr (Hu & Hd & Ha & Hc & Hmax & Hl & Hlp & Hder). constructor; cbn; try done.
  - constructor; cbn; try done. apply sha256_hex_safe.
  - intros Hp. split; [by apply Hder|]. intros He. apply fmap_nil_inv in He as ->. apply Forall2_length in Hr.
    apply (refs_nonempty n Hn Hp). by apply length_zero_iff_nil.
  - intros i (r & -> & Hrin)%list_elem_of_fmap. pose proof Hrin as Hj. apply list_elem_of_lookup in Hj as [j Hj].
    destruct (Forall2_lookup_r _ _ _ _ _ Hr Hj) as (k & _ & Hk). exists k, r. split_and!; [done|done|]. by apply Hmax.
Qed.

(** Storing a plain node's result extends the invariant by its step. *)
Lemma inv_store pre st id n is_ ins c d :
  eval_inv gr cutoff pre st → id ∉ concat (step_members <$> pre) → by_id gr !! id = Some n → check_node n = Ok tt →
  Forall2 (λ r i, by_id gr !! r = Some i) (input_refs n) is_ →
  Forall2 (λ r i, es_results st !! r = Some i) (input_refs n) ins →
  computed_sound cutoff n ins (Ok c) → compute n ins cutoff = Ok c → node_definition n = Ok d →
  eval_inv gr cutoff (pre ++ [StepNode id])
    (EvalState (<[id := plain_result cutoff n d ins c]> (es_results st)) (es_runs st)
       (match c_passed c with Some false => es_failed st ++ [id] | _ => es_failed st end)).
Proof.
  intros Hi Hfresh Hn Hc Hf Hins Hcs Hcomp Hd.
  assert (Hnone : es_results st !! id = None).
  { destruct (es_results st !! id) eqn:He; [|done]. destruct Hfresh. apply (ei_dom _ _ _ _ Hi). by eexists. }
  pose proof (insert_subseteq (es_results st) id (plain_result cutoff n d ins c) Hnone) as Hsub.
  assert (Hins' : Forall2 (λ r i, <[id:=plain_result cutoff n d ins c]> (es_results st) !! r = Some i) (input_refs n) ins).
  { eapply Forall2_impl; [exact Hins|]. intros r i Hr. by apply (lookup_weaken (es_results st)). }
  constructor; cbn [es_results es_failed].
  - intros k. rewrite lookup_insert_is_Some', (ei_dom _ _ _ _ Hi), fmap_app, concat_app, elem_of_app. cbn. set_solver.
  - intros k r [[<- <-]|[Hne Hk]]%lookup_insert_Some.
    + exists n. split; [done|]. by eapply plain_good.
    + destruct (ei_good _ _ _ _ Hi k r Hk) as (n' & Hn' & Hg). exists n'. split; [done|]. by eapply result_good_mono.
  - apply Forall_app. split.
    + eapply Forall_impl; [apply Hi|]. intros s. by apply step_equation_mono.
    + constructor; [|constructor]. exists n, ins, c, d. split_and!; try done. by rewrite lookup_insert_eq.
  - intros k. assert (Hk : k ∈ es_failed st → k ≠ id).
    { intros (r & Hr & _)%(ei_failed _ _ _ _ Hi) ->. congruence. }
    pose proof (ei_failed _ _ _ _ Hi k) as Hfk.
    assert (Hpass : passed (plain_result cutoff n d ins c) = c_passed c) by done.
    setoid_rewrite lookup_insert_Some. destruct (decide (k = id)) as [->|Hne].
    + transitivity (c_passed c = Some false); [|naive_solver].
      destruct (c_passed c) as [[|]|]; rewrite ?elem_of_app, ?list_elem_of_singleton; naive_solver.
    + transitivity (k ∈ es_failed st); [|rewrite Hfk; naive_solver].
      destruct (c_passed c) as [[|]|]; rewrite ?elem_of_app, ?list_elem_of_singleton; naive_solver.
Qed.

Lemma eval_node_spec pre id post st :
  execution_plan gr = pre ++ StepNode id :: post → eval_inv gr cutoff pre st → id ∉ concat (step_members <$> pre) →
  match eval_node gr cutoff st id with
  | Ok st' => eval_inv gr cutoff (pre ++ [StepNode id]) st'
  | Err e => eval_error e
  end.
Proof.
  intros Hplan Hi Hfresh. destruct (go_plan _ Hgr _ _ _ Hplan) as (n & Hn & Hin).
  destruct (go_nodes _ Hgr _ _ Hn) as [Hid Hc]. unfold eval_node. rewrite (get_Some _ _ _ Hn), bind_ok.
  destruct (resolve_inputs (by_id gr) n Hc (λ r, go_closed _ Hgr _ _ r Hn)) as (is_ & Hres).
  assert (Ht : inputs_typed n is_).
  { eapply check_node_types_Ok; [done|done|]. apply plan_types. rewrite Hplan, fmap_app, concat_app, elem_of_app. right.
    cbn. left. }
  destruct Hres as (roles & -> & Hrefs & _ & Hf). rewrite bind_ok, mapM_snd, Hrefs.
  destruct (mapM_get (es_results st) (input_refs n)) as (ins & -> & Hins).
  { intros r Hr. by apply (ei_dom _ _ _ _ Hi), Hin. }
  rewrite bind_ok. assert (Hsound : Forall2 (result_sound cutoff) is_ ins).
  { rewrite Forall2_same_length_lookup. split; [apply Forall2_length in Hf, Hins; lia|].
    intros j i r Hij Hrj. destruct (Forall2_lookup_r _ _ _ _ _ Hf Hij) as (k & Hk & Hki).
    destruct (Forall2_lookup_r _ _ _ _ _ Hins Hrj) as (k' & Hk' & Hkr). simplify_eq.
    destruct (ei_good _ _ _ _ Hi _ _ Hkr) as (n' & Hn' & Hg). simplify_eq. apply Hg. }
  pose proof (compute_sound cutoff (by_id gr) (go_nodes _ Hgr) (go_units _ Hgr) n is_ ins Hc (go_units _ Hgr _ _ Hn) Hf Ht Hsound) as Hcs.
  destruct (compute n ins cutoff) as [c|e] eqn:Hcomp; [|exact Hcs]. rewrite bind_ok.
  destruct (go_defs _ Hgr _ _ Hn) as (d & Hd & Hdefs). rewrite (get_Some _ _ _ Hdefs), bind_ok.
  unfold make_result. cbn [r_value plain_result available_at]. pose proof Hcs as (_ & Hdec & Haw & _).
  rewrite (proj2 (check_decimal_Ok _ tt) Hdec), bind_ok, Haw. cbn [ensure]. rewrite !bind_ok. unfold mret, result_ret. rewrite bind_ok.
  by apply (inv_store pre st id n is_ ins c d).
Qed.

(** storing several results at fresh keys *)
Lemma update_all_lookup (m : gmap string calc_result) l k r :
  NoDup l.*1 → (update_all m l !! k = Some r ↔ (k, r) ∈ l ∨ k ∉ l.*1 ∧ m !! k = Some r).
Proof.
  unfold update_all. revert m. induction l as [|[k0 r0] l IH]; intros m Hnd; cbn [foldl fmap list_fmap fst snd] in *.
  { set_solver. }
  apply NoDup_cons in Hnd as [Hk0 Hnd]. rewrite IH by done. rewrite elem_of_cons, not_elem_of_cons, lookup_insert_Some.
  assert (∀ r', (k0, r') ∈ l → False) as Hno by (intros r' Hr'; apply Hk0; by apply (list_elem_of_fmap_2 fst l (k0, r'))).
  split.
  - intros [H|(Hk & [[<- <-]|[Hne H]])]; [by left; right|by left; left|]. by right.
  - intros [[[= <- <-]|H]|[[Hne Hk] H]]; [right; split; [done|by left]|by left|right; split; [done|by right]].
Qed.

(** Storing a group's results extends the invariant by its step. *)
Lemma inv_update pre st g outputs runs :
  eval_inv gr cutoff pre st → NoDup (members g) → (∀ m, m ∈ members g → m ∉ concat (step_members <$> pre)) →
  outputs.*1 = members g → group_outputs gr g (es_results st) outputs →
  Forall (λ mr, ∃ n, by_id gr !! fst mr = Some n ∧ result_good cutoff (es_results st) n (snd mr)) outputs →
  Forall (λ mr, passed (snd mr) ≠ Some false) outputs →
  eval_inv gr cutoff (pre ++ [StepGroup g]) (EvalState (update_all (es_results st) outputs) runs (es_failed st)).
Proof.
  intros Hi Hnd Hfresh Hfst Hout Hgood Hpass. set (m := es_results st) in *.
  assert (Hlook : ∀ k r, update_all m outputs !! k = Some r ↔ (k, r) ∈ outputs ∨ k ∉ members g ∧ m !! k = Some r).
  { intros k r. rewrite <- Hfst. apply update_all_lookup. by rewrite Hfst. }
  assert (Hsub : m ⊆ update_all m outputs).
  { apply map_subseteq_spec. intros k r Hk. apply Hlook. right. split; [|done]. intros Hin. apply (Hfresh k Hin).
    apply (ei_dom _ _ _ _ Hi). by eexists. }
  assert (Hmem : ∀ k, k ∈ members g ↔ ∃ r, (k, r) ∈ outputs).
  { intros k. rewrite <- Hfst, list_elem_of_fmap. split; [intros ([? r] & -> & ?); by exists r|intros [r ?]; by exists (k, r)]. }
  rewrite Forall_forall in Hgood, Hpass. constructor; cbn [es_results es_failed].
  - intros k. rewrite fmap_app, concat_app, elem_of_app, <- (ei_dom _ _ _ _ Hi). cbn. rewrite app_nil_r. split.
    + intros [r [Hin|[_ Hk]]%Hlook]; [right; apply Hmem; by exists r|left; by exists r].
    + intros [[r Hr]|[r Hr]%Hmem]; exists r; [by apply (lookup_weaken m)|apply Hlook; by left].
  - intros k r [Hin|[_ Hk]]%Hlook.
    + destruct (Hgood _ Hin) as (n & Hn & Hg). exists n. split; [done|]. by eapply result_good_mono.
    + destruct (ei_good _ _ _ _ Hi k r Hk) as (n' & Hn' & Hg). exists n'. split; [done|]. by eapply result_good_mono.
  - apply Forall_app. split; [eapply Forall_impl; [apply Hi|]; intros s; by apply step_equation_mono|].
    constructor; [|constructor]. destruct Hout as (ext & start & k & p & cur & res & Hdom & Hext & Hst & Hk & Hlt & Hset & Hcur).
    exists ext, start, k, p, cur, res. split_and!; try done.
    + intros r q Hq. destruct (Hext r q Hq). split; [done|]. by eapply value_at_mono.
    + eapply Forall2_impl; [exact Hst|]. intros ms mq [? ?]. split; [done|]. by eapply value_at_mono.
    + apply Forall_forall. intros mq Hmq. apply list_elem_of_lookup in Hmq as [j Hj].
      destruct (Forall2_lookup_l _ _ _ _ _ Hcur Hj) as ([m' r] & Hr & Hf & Hq). cbn in *. subst m'. unfold value_at.
      rewrite (proj2 (Hlook (fst mq) r)) by (left; by eapply list_elem_of_lookup_2). cbn. by rewrite Hq.
  - intros k. rewrite (ei_failed _ _ _ _ Hi). split.
    + intros (r & Hr & Hp). exists r. split; [by apply (lookup_weaken m)|done].
    + intros (r & [Hin|[_ Hk]]%Hlook & Hp); [by destruct (Hpass _ Hin)|by exists r].
Qed.

Lemma eval_group_spec pre g post st :
  execution_plan gr = pre ++ StepGroup g :: post → eval_inv gr cutoff pre st →
  (∀ m, m ∈ members g → m ∉ concat (step_members <$> pre)) →
  match eval_step gr cutoff st (StepGroup g) with
  | Ok st' => eval_inv gr cutoff (pre ++ [StepGroup g]) st'
  | Err e => eval_error e
  end.
Proof.
  intros Hplan Hi Hfresh. pose proof (go_plan _ Hgr _ _ _ Hplan) as Hready. cbn [eval_step].
  assert (Ht : ∀ m, m ∈ members g → check_node_types (by_id gr) m = Ok tt).
  { intros m Hm. apply plan_types. rewrite Hplan, fmap_app, concat_app, elem_of_app. right. cbn. apply elem_of_app. by left. }
  pose proof (iterate_spec gr cutoff g _ (es_results st) Hgr Hready Ht (λ k, inv_before pre st k Hi)) as Hit.
  destruct (iterate gr g (es_results st) cutoff) as [[outputs record]|e]; [|exact Hit]. rewrite bind_ok.
  destruct Hit as (Hfst & Hout & Hgood & Hpass). destruct Hready as (Hg & _). destruct (check_group_Ok _ Hg) as (_ & Hnd & _).
  by apply inv_update.
Qed.

Lemma plan_fresh pre s post m :
  execution_plan gr = pre ++ s :: post → m ∈ step_members s → m ∉ concat (step_members <$> pre).
Proof.
  intros Hplan Hm Hin. assert (NoDup (order gr)) as Hnd by (rewrite (go_order _ Hgr); apply NoDup_keys).
  rewrite <- (go_flat _ Hgr), Hplan, fmap_app, concat_app in Hnd. apply NoDup_app in Hnd as (_ & Hdis & _).
  apply (Hdis m Hin). cbn. apply elem_of_app. by left.
Qed.

Lemma eval_plan_spec :
  match eval_plan gr cutoff with
  | Ok st => eval_inv gr cutoff (execution_plan gr) st
  | Err e => eval_error e
  end.
Proof.
  unfold eval_plan.
  enough (H : ∀ post pre st, execution_plan gr = pre ++ post → eval_inv gr cutoff pre st →
    match foldM (eval_step gr cutoff) st post with
    | Ok st' => eval_inv gr cutoff (execution_plan gr) st' | Err e => eval_error e end).
  { apply (H _ []); [done|]. constructor; cbn.
    - intros k. rewrite lookup_empty. split; [by intros []|set_solver].
    - intros k r. by rewrite lookup_empty.
    - constructor.
    - intros id. setoid_rewrite lookup_empty. split; [set_solver|naive_solver]. }
  induction post as [|s post IH]; intros pre st Hplan Hi; cbn [foldM]; [by rewrite Hplan, app_nil_r|].
  assert (Hstep : match eval_step gr cutoff st s with
                  | Ok st' => eval_inv gr cutoff (pre ++ [s]) st' | Err e => eval_error e end).
  { destruct s as [id|g].
    - eapply eval_node_spec; [done|done|]. eapply plan_fresh; [done|]. left.
    - eapply eval_group_spec; [done|done|]. intros m Hm. by eapply plan_fresh. }
  destruct (eval_step gr cutoff st s) as [st'|e]; [|exact Hstep]. apply (IH (pre ++ [s])); [by rewrite <- app_assoc|done].
Qed.
End plan.

(** ** The evaluation result *)

Lemma evaluate_spec s cutoff :
  graph_ok (graph s) →
  match evaluate s cutoff with
  | Ok e =>
      aware cutoff = true ∧ ev_cutoff e = cutoff ∧ ev_order e = order (graph s) ∧
      ∃ st, eval_inv (graph s) cutoff (execution_plan (graph s)) st ∧ results e = es_results st ∧ failed_checks e = es_failed st
  | Err e => eval_error e
  end.
Proof.
  intros Hgr. unfold evaluate. destruct (aware cutoff) eqn:Ha; cbn [ensure]; [rewrite bind_ok|cbn; eval_err].
  pose proof (eval_plan_spec (graph s) cutoff Hgr) as Hp. destruct (eval_plan (graph s) cutoff) as [st|e]; [|exact Hp].
  rewrite bind_ok. destruct (mapM_total (λ id, r ← get (es_results st) id; mret (result_id r)) (order (graph s))) as [ids Hids].
  { intros id Hid. assert (is_Some (es_results st !! id)) as [r Hr].
    { apply (ei_dom _ _ _ _ Hp). by rewrite (go_flat _ Hgr). }
    exists (result_id r). by rewrite (get_Some _ _ _ Hr). }
  rewrite Hids, bind_ok. cbv zeta. destruct (content_hash _) as [h|e] eqn:Hh; [|apply content_hash_err in Hh as ->; cbn; eval_err].
  cbn. split_and!; try done. by exists st.
Qed.

Lemma evaluated s cutoff e k :
  graph_ok (graph s) → evaluate s cutoff = Ok e →
  (is_Some (results e !! k) ↔ is_Some (by_id (graph s) !! k)) ∧
  (∀ r, results e !! k = Some r → ∃ n, by_id (graph s) !! k = Some n ∧ id_of n = k ∧ check_node n = Ok tt ∧
     result_good cutoff (results e) n r).
Proof.
  intros Hgr He. pose proof (evaluate_spec s cutoff Hgr) as H. rewrite He in H.
  destruct H as (_ & _ & _ & st & Hi & -> & _). split.
  - rewrite (ei_dom _ _ _ _ Hi), (go_flat _ Hgr), (go_order _ Hgr). apply elem_of_keys.
  - intros r Hr. destruct (ei_good _ _ _ _ Hi k r Hr) as (n & Hn & Hg). exists n.
    destruct (go_nodes _ Hgr _ _ Hn). by split_and!.
Qed.

(** ** A run to try the theorems on *)

(** the two mutually recursive formulas of [loop_nodes], as a snapshot *)
Definition loop_snapshot (g : model_graph) : snapshot := Snapshot "snap" "model" 1 None None g.

Definition holds (e : evaluation_result) (id : string) (v : decimal) : bool :=
  match results e !! id with Some r => dec_eqb (r_value r) v | None => false end.

Definition loop_runs : bool :=
  match build loop_nodes [loop_group] with
  | Ok g =>
      bool_decide (execution_plan g = [StepNode "base"; StepNode "seed"; StepGroup loop_group]%string) &&
      match evaluate (loop_snapshot g) sample_time with
      | Ok e => holds e "base" (dec_of_Z 100) && holds e "x" (Dec false 13330078125 (-8))
      | Err _ => false
      end
  | Err _ => false
  end.

(** Both formulas settle: x = 0.5 y + 100 and y = 0.5 x, from (0, 0). *)
Lemma loop_evaluated :
  ∃ g e, build loop_nodes [loop_group] = Ok g ∧ graph_ok g ∧ evaluate (loop_snapshot g) sample_time = Ok e ∧
    execution_plan g = [StepNode "base"; StepNode "seed"; StepGroup loop_group]%string ∧
    is_Some (results e !! "x"%string) ∧ is_Some (results e !! "base"%string).
Proof.
  assert (loop_runs = true) as H by (vm_compute; reflexivity). unfold loop_runs in H.
  destruct (build loop_nodes [loop_group]) as [g|] eqn:Hg; [|discriminate H]. apply andb_true_iff in H as [Hp H].
  destruct (evaluate (loop_snapshot g) sample_time) as [e|] eqn:He; [|discriminate H].
  apply andb_true_iff in H as [Hb Hx]. unfold holds in Hb, Hx. exists g, e.
  split; [reflexivity|]. split.
  { refine (proj1 (build_groups_spec loop_nodes [loop_group] g _ _ Hg)); [repeat constructor|].
    constructor; [vm_compute; reflexivity|constructor]. }
  split; [exact He|]. split; [exact (bool_decide_eq_true_1 _ Hp)|]. split.
  - destruct (results e !! "x"%string) as [r|]; [by exists r|discriminate Hx].
  - destruct (results e !! "base"%string) as [r|]; [by exists r|discriminate Hb].
Qed.

(** * Properties *)

(** C8: Evaluation is total and type-sound.  On a built graph, with or without
    iteration groups, an evaluation either fails with one of its documented
    errors (a naive or violated cutoff, arithmetic, an unknown currency, repeated
    parents, an unsettled group, an unencodable number) or an overflow of the
    tolerance test, never on a missing key or index; or it yields exactly one
    result for every node, of that node's kind, provenance, period and declared
    unit, whose value the calculation context can hold. *)
Theorem evaluate_total_and_typed s cutoff :
  graph_ok (graph s) →
  match evaluate s cutoff with
  | Ok e => ∀ k,
      (is_Some (results e !! k) ↔ is_Some (by_id (graph s) !! k)) ∧
      ∀ n r, by_id (graph s) !! k = Some n → results e !! k = Some r →
        r_node_id r = k ∧ r_kind r = kind_of n ∧ r_provenance r = provenance_of n ∧
        r_period r = period_of n ∧ r_unit r = unit_of n ∧ decimal_ok (r_value r)
  | Err e => eval_error e
  end.
Proof.
  intros Hgr. pose proof (evaluate_spec s cutoff Hgr) as H. destruct (evaluate s cutoff) as [e|e] eqn:He; [|exact H].
  intros k. destruct (evaluated s cutoff e k Hgr He) as [Hdom Hgood]. split; [exact Hdom|].
  intros n r Hn Hr. destruct (Hgood r Hr) as (n' & Hn' & Hid & _ & Hg). simplify_eq.
  destruct Hg as [[Hnode ? ?] ? ? ?]. split_and!; try done. 
Qed.

Theorem evaluate_total_and_typed_witness :
  ∃ g e, graph_ok g ∧ evaluate (loop_snapshot g) sample_time = Ok e ∧
    ∀ r n, by_id g !! "x"%string = Some n → results e !! "x"%string = Some r → r_unit r = unit_of n.
Proof.
  destruct loop_evaluated as (g & e & _ & Hg & He & _). exists g, e. split; [exact Hg|]. split; [exact He|].
  intros r n Hn Hr. pose proof (evaluate_total_and_typed (loop_snapshot g) sample_time Hg) as H. rewrite He in H.
  destruct (H "x"%string) as [_ H']. exact (proj1 (proj2 (proj2 (proj2 (proj2 (H' n r Hn Hr)))))).
Defined.

(** the instants a leaf was not knowable before *)
Definition stamps (n : node) : list datetime :=
  match n with
  | SourceFactNode _ _ as_of _ _ | AnalystAssumptionNode _ _ as_of _ | ScenarioOverrideNode _ _ as_of _ _ _ => [as_of]
  | ForecastModelOutputNode _ _ as_of _ dataset_cutoff _ => [as_of; dataset_cutoff]
  | _ => []
  end.

Lemma compute_stamps n ins cutoff c t :
  compute n ins cutoff = Ok c → t ∈ stamps n → instant t ≤ instant cutoff ∧ instant t ≤ instant (c_available_at c).
Proof.
  destruct n as [b v t0 sp f|b v t0 a|b v t0 run cut ver|b v t0 tg sc a| | | | | |]; cbn [compute stamps]; intros H Ht; try by apply elem_of_nil in Ht.
  1, 2, 4: apply list_elem_of_singleton in Ht as ->; ok_inv; cbn; split; [by eapply require_available_Ok|done].
  ok_inv. apply require_available_Ok in Hv, Hv0. cbn. unfold dt_max, dt_ltb.
  apply elem_of_cons in Ht as [->|Ht]; [|apply list_elem_of_singleton in Ht as ->];
    destruct (Z.ltb_spec (instant t0) (instant cut)); lia.
Qed.

(** a node is evaluated on its own or in a group of formulas *)
Lemma node_step g k n :
  graph_ok g → by_id g !! k = Some n →
  StepNode k ∈ execution_plan g ∨
  ∃ gr, StepGroup gr ∈ execution_plan g ∧ k ∈ members gr ∧ is_formula_node n = true.
Proof.
  intros Hg Hn. assert (k ∈ concat (step_members <$> execution_plan g)) as Hk.
  { rewrite (go_flat _ Hg), (go_order _ Hg). apply elem_of_keys. by exists n. }
  apply elem_of_concat in Hk as (l & Hkl & (s & -> & Hs)%list_elem_of_fmap). pose proof Hs as Hin.
  apply list_elem_of_split in Hs as (pre & post & Hplan). pose proof (go_plan _ Hg _ _ _ Hplan) as Hready.
  destruct s as [id|gr]; cbn [step_members] in Hkl; [apply list_elem_of_singleton in Hkl as ->; by left|].
  right. exists gr. split_and!; [done|done|]. destruct Hready as (_ & Hm & _).
  destruct (Hm k Hkl) as (n' & Hn' & Hf & _). by simplify_eq.
Qed.

Lemma evaluated_equation s cutoff e st :
  graph_ok (graph s) → evaluate s cutoff = Ok e → st ∈ execution_plan (graph s) →
  step_equation (graph s) cutoff (results e) st.
Proof.
  intros Hgr He Hin. pose proof (evaluate_spec s cutoff Hgr) as H. rewrite He in H.
  destruct H as (_ & _ & _ & st' & Hi & -> & _). pose proof (ei_equations _ _ _ _ Hi) as Hf. by eapply Forall_forall in Hf.
Qed.

(** C9: No look-ahead.  An evaluation that succeeds used no input newer than its
    cutoff: every leaf of the graph was knowable by the cutoff, every result is
    stamped no later than the cutoff and no earlier than its own leaf's stamps,
    and a derived result no earlier than any result it was computed from. *)
Theorem evaluate_no_look_ahead s cutoff e k n r :
  graph_ok (graph s) → evaluate s cutoff = Ok e → by_id (graph s) !! k = Some n → results e !! k = Some r →
  aware cutoff = true ∧ aware (available_at r) = true ∧ instant (available_at r) ≤ instant cutoff ∧
  (∀ t, t ∈ stamps n → instant t ≤ instant cutoff ∧ instant t ≤ instant (available_at r)) ∧
  (provenance_of n = DERIVED → ∀ i, i ∈ input_result_ids r →
     ∃ j r', results e !! j = Some r' ∧ result_id r' = i ∧ instant (available_at r') ≤ instant (available_at r)).
Proof.
  intros Hgr He Hn Hr. pose proof (evaluate_spec s cutoff Hgr) as H. rewrite He in H. destruct H as [Ha _].
  destruct (evaluated s cutoff e k Hgr He) as [_ Hgood]. destruct (Hgood r Hr) as (n' & Hn' & Hid & _ & Hg). assert (n' = n) as -> by congruence.
  split_and!; [done|apply Hg|apply Hg| |].
  - intros t Ht. destruct (node_step _ _ _ Hgr Hn) as [Hin|(gr & _ & _ & Hf)].
    + destruct (evaluated_equation s cutoff e _ Hgr He Hin) as (n2 & ins & c & d & Hn2 & _ & Hc & _ & Heq).
      assert (n2 = n) as -> by congruence. assert (r = plain_result cutoff n d ins c) as -> by congruence.
      by eapply compute_stamps.
    + destruct n; try done; by apply elem_of_nil in Ht.
  - intros Hp i Hi. destruct (rg_inputs _ _ _ _ Hg i Hi) as (j & r' & ? & ? & ?). exists j, r'. auto.
Qed.

Theorem evaluate_no_look_ahead_witness :
  ∃ g e n r, evaluate (loop_snapshot g) sample_time = Ok e ∧ by_id g !! "x"%string = Some n ∧
    results e !! "x"%string = Some r ∧ instant (available_at r) ≤ instant sample_time.
Proof.
  destruct loop_evaluated as (g & e & _ & Hg & He & _ & [r Hr] & _).
  destruct (evaluated (loop_snapshot g) sample_time e "x"%string Hg He) as [_ Hn].
  destruct (Hn r Hr) as (n & Hn' & _). exists g, e, n, r. split; [exact He|]. split; [exact Hn'|]. split; [exact Hr|].
  exact (proj1 (proj2 (proj2 (evaluate_no_look_ahead (loop_snapshot g) sample_time e "x"%string n r Hg He Hn' Hr)))).
Defined.

(** C7: Every plain node's result is its computation applied to the results of the
    nodes its inputs name, in their declared order, under the calculation
    context; its id hashes the cutoff, those results' ids and the node's
    canonical definition.  The failed checks are exactly the checks whose result
    did not pass, and the results keep the graph's order. *)
Theorem evaluate_node_equations s cutoff e :
  graph_ok (graph s) → evaluate s cutoff = Ok e →
  ev_order e = order (graph s) ∧
  (∀ id, id ∈ failed_checks e ↔ ∃ r, results e !! id = Some r ∧ passed r = Some false) ∧
  ∀ id, StepNode id ∈ execution_plan (graph s) →
    ∃ n ins c d, by_id (graph s) !! id = Some n ∧ Forall2 (λ ref i, results e !! ref = Some i) (input_refs n) ins ∧
      compute n ins cutoff = Ok c ∧ node_definition n = Ok d ∧
      results e !! id = Some (plain_result cutoff n d ins c).
Proof.
  intros Hgr He. pose proof (evaluate_spec s cutoff Hgr) as H. rewrite He in H.
  destruct H as (_ & _ & Ho & st & Hi & Hres & Hfail). split_and!; [done| |].
  - intros id. rewrite Hres, Hfail. apply Hi.
  - intros id Hin. exact (evaluated_equation s cutoff e _ Hgr He Hin).
Qed.

Theorem evaluate_node_equations_witness :
  ∃ g e, evaluate (loop_snapshot g) sample_time = Ok e ∧
    ∃ n ins c d, by_id g !! "base"%string = Some n ∧ Forall2 (λ ref i, results e !! ref = Some i) (input_refs n) ins ∧
      compute n ins sample_time = Ok c ∧ node_definition n = Ok d ∧
      results e !! "base"%string = Some (plain_result sample_time n d ins c).
Proof.
  destruct loop_evaluated as (g & e & _ & Hg & He & Hp & _). exists g, e. split; [exact He|].
  destruct (evaluate_node_equations (loop_snapshot g) sample_time e Hg He) as (_ & _ & H). apply H.
  cbn [graph loop_snapshot]. rewrite Hp. apply list_elem_of_here.
Defined.

(** C10: Every iteration group of an evaluated graph holds a certified fixed point:
    its members' results are the first Jacobi sweep, from the seeds' values and
    the external inputs' values, in which every member moved within its absolute
    plus relative tolerance; it was reached within the declared number of
    sweeps, no earlier sweep settled, and every member has a residual on record. *)
Theorem evaluate_group_solution s cutoff e g :
  graph_ok (graph s) → evaluate s cutoff = Ok e → StepGroup g ∈ execution_plan (graph s) →
  ∃ external start k p current residuals,
    (∀ r, is_external (graph s) g r → is_Some (external !! r)) ∧
    (∀ r q, external !! r = Some q → is_external (graph s) g r ∧ value_at (results e) r = Some q) ∧
    Forall2 (λ ms mq, fst mq = fst ms ∧ value_at (results e) (snd ms) = Some (snd mq)) (seeds g) start ∧
    sweeps (by_id (graph s)) g external k (list_to_map start) p ∧ Z.of_nat k < max_iterations g ∧
    settled (by_id (graph s)) g external p current residuals ∧
    Forall (λ mq, value_at (results e) (fst mq) = Some (snd mq)) current.
Proof. intros Hgr He Hin. exact (evaluated_equation s cutoff e _ Hgr He Hin). Qed.

Theorem evaluate_group_solution_witness :
  ∃ g e, evaluate (loop_snapshot g) sample_time = Ok e ∧ group_equation g (results e) loop_group.
Proof.
  destruct loop_evaluated as (g & e & _ & Hg & He & Hp & _). exists g, e. split; [exact He|].
  apply (evaluate_group_solution (loop_snapshot g) sample_time e loop_group Hg He).
  cbn [graph loop_snapshot]. rewrite Hp. apply list_elem_of_further, list_elem_of_further, list_elem_of_here.
Defined.

(** Lineage is retained: every result carries the one lineage field of its
    provenance, a leaf none of the others, and a derived result names exactly
    the results it was computed from, each a result of this evaluation. *)
Theorem evaluate_lineage s cutoff e k n r :
  graph_ok (graph s) → evaluate s cutoff = Ok e → by_id (graph s) !! k = Some n → results e !! k = Some r →
  check_lineage (r_lineage r) = Ok tt ∧ l_provenance (r_lineage r) = provenance_of n ∧
  (provenance_of n = DERIVED → derived_from (r_lineage r) = input_result_ids r ∧ input_result_ids r ≠ []) ∧
  ∀ i, i ∈ input_result_ids r → ∃ j r', results e !! j = Some r' ∧ result_id r' = i.
Proof.
  intros Hgr He Hn Hr. destruct (evaluated s cutoff e k Hgr He) as [_ Hgood].
  destruct (Hgood r Hr) as (n' & Hn' & _ & _ & Hg). assert (n' = n) as -> by congruence. destruct (rg_lineage _ _ _ _ Hg).
  split_and!; [done|done|apply Hg|]. intros i Hi. destruct (rg_inputs _ _ _ _ Hg i Hi) as (j & r' & ? & ? & _). by exists j, r'.
Qed.

Theorem evaluate_lineage_witness :
  ∃ g e n r, evaluate (loop_snapshot g) sample_time = Ok e ∧ by_id g !! "x"%string = Some n ∧
    results e !! "x"%string = Some r ∧ l_provenance (r_lineage r) = provenance_of n.
Proof.
  destruct loop_evaluated as (g & e & _ & Hg & He & _ & [r Hr] & _).
  destruct (evaluated (loop_snapshot g) sample_time e "x"%string Hg He) as [_ Hn].
  destruct (Hn r Hr) as (n & Hn' & _). exists g, e, n, r. split; [exact He|]. split; [exact Hn'|]. split; [exact Hr|].
  exact (proj1 (proj2 (evaluate_lineage (loop_snapshot g) sample_time e "x"%string n r Hg He Hn' Hr))).
Defined.
