(* ===== verification/Trace.v ===== *)
(** The provenance walk of an evaluation result: it ends, visits each result
    once, and reaches every result the traced one was computed from. *)

From S2P Require Import Prelude Decimals Errors Periods Units Values Formulas Canonical Nodes Iteration Graph Plan Snapshot Engine Jacobi Evaluation.
Local Open Scope Z_scope.

(** [b] is a result of [e] that [a] was computed from *)
Definition input_of (e : evaluation_result) (a b : calc_result) : Prop :=
  (∃ k, results e !! k = Some b) ∧ result_id b ∈ input_result_ids a.

(** every input id names a result of the evaluation *)
Definition inputs_resolved (e : evaluation_result) : Prop :=
  ∀ k r i, results e !! k = Some r → i ∈ input_result_ids r → ∃ j r', results e !! j = Some r' ∧ result_id r' = i.

Section walk.
Context (e : evaluation_result) (r0 : calc_result).
Hypothesis Hres : inputs_resolved e.
Let M := by_result_id e.

Lemma by_id_Some i r : M !! i = Some r → result_id r = i ∧ ∃ k, results e !! k = Some r.
Proof.
  intros H. apply elem_of_list_to_map_2, list_elem_of_fmap in H as (r' & [= -> ->] & Hr).
  split; [done|]. apply list_elem_of_fmap in Hr as ([k r''] & -> & Hk). exists k. by apply elem_of_map_to_list.
Qed.

Lemma by_id_is_Some k r : results e !! k = Some r → is_Some (M !! result_id r).
Proof.
  intros H. apply list_to_map_is_Some. rewrite <- list_fmap_compose.
  apply (list_elem_of_fmap_2 (λ r, result_id r)). apply (list_elem_of_fmap_2 snd _ (k, r)). by apply elem_of_map_to_list.
Qed.

Lemma read_inputs k r :
  results e !! k = Some r → ∃ ps, mapM (get M) (input_result_ids r) = Ok ps ∧ Forall2 (λ i p, M !! i = Some p) (input_result_ids r) ps.
Proof.
  intros H. apply mapM_get. intros i Hi. destruct (Hres k r i H Hi) as (j & r' & Hj & <-). by eapply by_id_is_Some.
Qed.

(** what expanding the results not yet seen can still push *)
Definition pending_pushes (seen : list string) : nat :=
  map_fold (λ _ r n, length (input_result_ids r) + n)%nat 0%nat (filter (λ ir, ir.1 ∉ seen) M).

Lemma unseen_insert i seen r :
  M !! i = Some r → i ∉ seen →
  filter (λ ir, ir.1 ∉ seen) M = <[i := r]> (filter (λ ir, ir.1 ∉ i :: seen) M).
Proof.
  intros Hi Hout. apply map_eq. intros j. destruct (decide (j = i)) as [->|Hne].
  - rewrite lookup_insert_eq. by apply map_lookup_filter_Some.
  - rewrite lookup_insert_ne by done. apply option_eq. intros r'. rewrite !map_lookup_filter_Some. cbn. set_solver.
Qed.

Lemma pending_pushes_expand i seen r :
  M !! i = Some r → i ∉ seen → (length (input_result_ids r) + pending_pushes (i :: seen) = pending_pushes seen)%nat.
Proof.
  intros Hi Hout. unfold pending_pushes. rewrite (unseen_insert i seen r Hi Hout).
  rewrite map_fold_insert_L; [done|intros; lia|]. apply map_lookup_filter_None. right. intros ? ?. cbn. set_solver.
Qed.

Lemma pending_pushes_seen i seen r : M !! i = Some r → (pending_pushes (i :: seen) <= pending_pushes seen)%nat.
Proof.
  intros Hi. destruct (decide (i ∈ seen)) as [Hin|Hout]; [|pose proof (pending_pushes_expand i seen r Hi Hout); lia].
  unfold pending_pushes. apply Nat.eq_le_incl. f_equal. apply map_filter_ext. intros j r' _. cbn. set_solver.
Qed.

(** the state of the walk after its first step *)
Record walk_inv (stack : list calc_result) (seen : list string) (chain : list calc_result) : Prop := WalkInv {
  wi_stack : Forall (λ r, M !! result_id r = Some r ∧ rtc (input_of e) r0 r) stack;
  wi_seen : ∀ i, i ∈ seen ↔ i ∈ result_id <$> chain;
  wi_nodup : NoDup (result_id <$> chain);
  wi_head : head chain = Some r0;
  wi_reach : Forall (λ r, rtc (input_of e) r0 r) chain;
  wi_closed : ∀ c i, c ∈ chain → i ∈ input_result_ids c → i ∈ seen ∨ i ∈ result_id <$> stack
}.

Lemma expand_stack r ps :
  rtc (input_of e) r0 r → Forall2 (λ i p, M !! i = Some p) (input_result_ids r) ps →
  Forall (λ p, M !! result_id p = Some p ∧ rtc (input_of e) r0 p) ps ∧ result_id <$> ps = input_result_ids r.
Proof.
  intros Hr Hf. split.
  - apply Forall_forall. intros p Hp. apply list_elem_of_lookup in Hp as [j Hj].
    destruct (Forall2_lookup_r _ _ _ _ _ Hf Hj) as (i & Hi & Hip). destruct (by_id_Some _ _ Hip) as [<- [k Hk]].
    split; [done|]. eapply rtc_r; [exact Hr|]. split; [by exists k|]. by eapply list_elem_of_lookup_2.
  - clear Hr. induction Hf as [|i p is_ ps Hip Hf IH]; [done|]. destruct (by_id_Some _ _ Hip) as [<- _]. cbn. by rewrite IH.
Qed.

Lemma walk_visit r stack seen chain ps :
  walk_inv (r :: stack) seen chain → result_id r ∉ seen →
  Forall2 (λ i p, M !! i = Some p) (input_result_ids r) ps →
  walk_inv (ps ++ stack) (result_id r :: seen) (chain ++ [r]).
Proof.
  intros [Hst Hseen Hnd Hhd Hreach Hcl] Hout Hf. apply Forall_cons in Hst as [[Hr Hrr] Hst].
  destruct (expand_stack r ps Hrr Hf) as [Hps Hids]. constructor.
  - by apply Forall_app.
  - intros i. rewrite fmap_app, elem_of_cons, elem_of_app, Hseen. cbn. rewrite list_elem_of_singleton. tauto.
  - rewrite fmap_app. apply NoDup_app. split_and!; [done| |apply NoDup_singleton].
    intros i Hi Hir. cbn in Hir. apply list_elem_of_singleton in Hir as ->. by apply Hout, Hseen.
  - by destruct chain.
  - apply Forall_app. by split; [|constructor].
  - intros c i [Hc|Hc]%elem_of_app Hi; rewrite elem_of_cons, fmap_app, elem_of_app, Hids.
    + destruct (Hcl c i Hc Hi) as [|Hi']; [by auto|]. cbn in Hi'. apply elem_of_cons in Hi' as [|]; auto.
    + apply list_elem_of_singleton in Hc as ->. auto.
Qed.

Lemma trace_loop_spec fuel stack seen chain :
  (length stack + pending_pushes seen <= fuel)%nat → walk_inv stack seen chain →
  ∃ chain' seen', trace_loop fuel M stack seen chain = Ok chain' ∧ walk_inv [] seen' chain'.
Proof.
  revert stack seen chain. induction fuel as [|fuel IH]; intros stack seen chain Hfuel Hi.
  { destruct stack; cbn in Hfuel; [|lia]. cbn. eauto. }
  destruct stack as [|r stack]; [cbn; eauto|]. cbn [trace_loop length] in *.
  pose proof (wi_stack _ _ _ Hi) as Hst. apply Forall_cons in Hst as [[Hr Hrr] Hst].
  case_decide as Hin.
  - apply IH; [lia|]. destruct Hi as [_ Hseen Hnd Hhd Hreach Hcl]. constructor; try done.
    intros c i Hc Hi'. destruct (Hcl c i Hc Hi') as [|Hs]; [by auto|]. cbn in Hs. apply elem_of_cons in Hs as [->|]; auto.
  - destruct (by_id_Some _ _ Hr) as [_ [k Hk]]. destruct (read_inputs k r Hk) as (ps & Hps & Hf). rewrite Hps, bind_ok.
    apply IH; [|by apply walk_visit]. pose proof (pending_pushes_expand _ _ _ Hr Hin) as Hp. apply Forall2_length in Hf.
    rewrite length_app. lia.
Qed.

Lemma trace_walk k :
  results e !! k = Some r0 →
  ∃ chain seen, trace_loop (trace_fuel M r0) M [r0] [] [] = Ok chain ∧ walk_inv [] seen chain.
Proof.
  intros Hk. unfold trace_fuel. cbn [trace_loop]. rewrite decide_False by set_solver.
  destruct (read_inputs k r0 Hk) as (ps & Hps & Hf). rewrite Hps, bind_ok.
  destruct (expand_stack r0 ps) as [Hst Hids]; [done|done|]. apply trace_loop_spec.
  - destruct (by_id_is_Some k r0 Hk) as [r' Hr']. pose proof (pending_pushes_seen (result_id r0) [] r' Hr') as Hp.
    assert (pending_pushes [] = map_fold (λ _ r n, length (input_result_ids r) + n)%nat 0%nat M) as <-.
    { unfold pending_pushes. f_equal. apply map_filter_id. intros. cbn. set_solver. }
    apply Forall2_length in Hf. rewrite length_app. cbn. lia.
  - constructor; cbn.
    + by rewrite app_nil_r.
    + done.
    + apply NoDup_singleton.
    + done.
    + by constructor.
    + intros c i Hc%list_elem_of_singleton Hi. subst c. right. by rewrite app_nil_r, Hids.
Qed.
End walk.

(** C37: Tracing a result ends, without a missing key, whatever the graph.  The chain
    starts at the traced result, lists each result id once, holds only results
    it was transitively computed from, and holds all of them: with a result, every
    input of it.  Only an unknown node is refused. *)
Theorem trace_complete s cutoff e k :
  graph_ok (graph s) → evaluate s cutoff = Ok e →
  match trace e k with
  | Ok chain => ∃ r, results e !! k = Some r ∧ head chain = Some r ∧ NoDup (result_id <$> chain) ∧
      (∀ c, c ∈ chain → rtc (input_of e) r c) ∧
      (∀ c i, c ∈ chain → i ∈ input_result_ids c → i ∈ result_id <$> chain)
  | Err err => err = MissingInputError k ∧ results e !! k = None
  end.
Proof.
  intros Hgr He. assert (Hres : inputs_resolved e).
  { intros j r i Hj Hi. destruct (evaluated s cutoff e j Hgr He) as [_ Hg]. destruct (Hg r Hj) as (n & _ & _ & _ & Hgood).
    destruct (rg_inputs _ _ _ _ Hgood i Hi) as (j' & r' & ? & ? & _). by exists j', r'. }
  unfold trace, result_of. destruct (results e !! k) as [r|] eqn:Hk; [|done]. cbn [from_option_err]. rewrite bind_ok.
  destruct (trace_walk e r Hres k Hk) as (chain & seen & -> & [_ Hseen Hnd Hhd Hreach Hcl]). exists r.
  split_and!; [done|done|done|by apply Forall_forall|].
  intros c i Hc Hi. destruct (Hcl c i Hc Hi) as [Hs|Hs]; [by apply Hseen|by apply elem_of_nil in Hs].
Qed.

Theorem trace_complete_witness :
  ∃ g e chain, evaluate (loop_snapshot g) sample_time = Ok e ∧ trace e "x" = Ok chain ∧ NoDup (result_id <$> chain).
Proof.
  destruct loop_evaluated as (g & e & _ & Hg & He & _ & [r Hr] & _).
  pose proof (trace_complete (loop_snapshot g) sample_time e "x"%string Hg He) as H.
  destruct (trace e "x") as [chain|err] eqn:Ht.
  - exists g, e, chain. split; [exact He|]. split; [exact Ht|]. destruct H as (? & _ & _ & Hnd & _). exact Hnd.
  - exfalso. destruct H as [_ H]. rewrite Hr in H. discriminate H.
Defined.
