(* ===== verification/Ratios.v ===== *)
(** Quotients of integers between 0 and 1, as the fusion and calibration code
    computes them: divide in a context, then [quantize] to a fixed number of
    places.  The two roundings together stay within 0.51 units of the last
    place of the exact ratio, and none of the signals is raised. *)

From Stdlib Require Import QArith Qabs Qpower Lqa.
From S2P Require Import Prelude Decimals.
Local Open Scope Z_scope.

Section powers.
Local Open Scope Q_scope.

Lemma q10_lt a b : (a < b)%Z → q10 a < q10 b.
Proof.
  intros H. rewrite (q10_split b a) by lia.
  assert (1 < inject_Z (10 ^ (b - a))) as H1.
  { change 1 with (inject_Z 1). rewrite <- Zlt_Qlt. apply Z.pow_gt_1; lia. }
  pose proof (q10_pos a). rewrite <- (Qmult_1_l (q10 a)) at 1.
  by apply Qmult_lt_compat_r.
Qed.

Lemma q10_le a b : (a ≤ b)%Z → q10 a <= q10 b.
Proof.
  intros H. destruct (decide (a = b)) as [->|]; [apply Qle_refl|]. apply Qlt_le_weak, q10_lt. lia.
Qed.

Lemma q10_lt_inv a b : q10 a < q10 b → (a < b)%Z.
Proof. intros H. destruct (Z.lt_ge_cases a b) as [|Hge]; [done|]. apply q10_le in Hge. exfalso. lra. Qed.

Lemma Qabs_dq d : Qabs (dq d) == inject_Z (Z.of_N (d_coeff d)) * q10 (d_exp d).
Proof.
  rewrite dq_unfold, Qabs_scaled. unfold sval. by assert (Z.abs (if d_sign d then - Z.of_N (d_coeff d) else Z.of_N (d_coeff d)) = Z.of_N (d_coeff d)) as -> by (case_match; lia).
Qed.

(** the leading digit's place bounds the magnitude *)
Lemma dq_lower d : d_coeff d ≠ 0%N → q10 (adjusted d) <= Qabs (dq d).
Proof.
  intros H0. rewrite Qabs_dq. pose proof (ndigits_lower _ H0) as Hl. pose proof (ndigits_pos (d_coeff d)).
  unfold adjusted. replace (ndigits (d_coeff d) + d_exp d - 1)%Z with (ndigits (d_coeff d) - 1 + d_exp d)%Z by lia.
  rewrite q10_add, (q10_Z (_ - 1)) by lia. apply Qmult_le_compat_r; [|apply Qlt_le_weak, q10_pos].
  rewrite <- Zle_Qle. pose proof (pow10_Z (ndigits (d_coeff d) - 1) ltac:(lia)). lia.
Qed.

Lemma adjusted_lt d k : d_coeff d ≠ 0%N → Qabs (dq d) < q10 k → (adjusted d < k)%Z.
Proof. intros H0 H. apply q10_lt_inv. eapply Qle_lt_trans; [by apply dq_lower|done]. Qed.

Lemma dq_upper d : Qabs (dq d) < q10 (adjusted d + 1).
Proof.
  rewrite Qabs_dq. pose proof (ndigits_upper (d_coeff d)) as Hl. pose proof (ndigits_pos (d_coeff d)).
  unfold adjusted. replace (ndigits (d_coeff d) + d_exp d - 1 + 1)%Z with (ndigits (d_coeff d) + d_exp d)%Z by lia.
  rewrite q10_add, (q10_Z (ndigits _)) by lia. apply Qmult_lt_compat_r; [apply q10_pos|].
  rewrite <- Zlt_Qlt. pose proof (pow10_Z (ndigits (d_coeff d)) ltac:(lia)). lia.
Qed.

Lemma strip_zeros_adjusted f co e limit co' e' :
  strip_zeros f co e limit = (co', e') → (ndigits co' + e' <= ndigits co + e \/ co' = 0%N)%Z.
Proof.
  intros Hs%(strip_zeros_dq f false). destruct (decide (co' = 0%N)) as [|H0]; [by right|left].
  assert (adjusted (Dec false co' e') < adjusted (Dec false co e) + 1)%Z as Ha.
  { apply adjusted_lt; [done|]. unfold deq in Hs. rewrite Hs. apply dq_upper. }
  unfold adjusted in Ha; cbn in Ha. lia.
Qed.
End powers.

(** * Rounding loses nothing, or keeps every digit of the precision *)

Section full.
Context (c : context) (Hc : context_ok c = true).

Lemma round_half_even_lower co k p :
  0 ≤ k → 0 ≤ p → (pow10 (p + k) ≤ co)%N → (pow10 p ≤ round_half_even co k)%N.
Proof using Type.
  intros Hk Hp. rewrite pow10_add by lia. intros Hco.
  pose proof (round_half_even_spec co k Hk) as Hs. pose proof (pow10_pos k).
  set (m := pow10 k) in *. set (r := round_half_even co k) in *. set (u := pow10 p) in *.
  clearbody m r u. destruct (N.le_gt_cases u r) as [|Hgt]; [done|]. exfalso. nia.
Qed.

Lemma dec_fix_full d d' :
  d_coeff d ≠ 0%N → dec_fix c d = Ok d' →
  d' = d ∨ prec c ≤ ndigits (d_coeff d') ∨ d_exp d' = Etiny c.
Proof using Hc.
  unfold context_ok in Hc. intros H0 Hfix. unfold dec_fix in Hfix.
  assert (1 ≤ prec c) as Hp by (btrue; lia).
  destruct (N.eqb_spec (d_coeff d) 0) as [|_]; [done|].
  case_match; simplify_eq. cbv zeta in Hfix. set (em := Z.max _ _) in *.
  destruct (Z.ltb_spec (d_exp d) em) as [Hlt|Hge]; [|left; by simplify_eq].
  right. set (r := round_half_even _ _) in *.
  destruct (Z.ltb_spec (prec c) (ndigits r)) as [Hcar|Hnc]; case_match; simplify_eq; cbn [d_coeff d_exp].
  - left. pose proof (ndigits_pos (r / 10)). rewrite (ndigits_big r) in Hcar; [lia|].
    apply N.nlt_ge. intros ?%ndigits_small. lia.
  - destruct (Z.le_gt_cases (ndigits (d_coeff d) + d_exp d - prec c) (Etiny c)) as [|Hgt]; [right; lia|].
    left. assert (pow10 (prec c - 1) ≤ r)%N as Hr.
    { apply round_half_even_lower; [lia..|]. etrans; [|by apply ndigits_lower].
      apply pow10_le_mono. lia. }
    apply Z.nlt_ge. intros Hbad. assert (prec c ≠ 1).
    { intros Hp1. pose proof (ndigits_pos r). lia. }
    assert (ndigits r ≤ prec c - 1) as Hle%ndigits_le_iff by lia; lia.
Qed.

Lemma dec_fix_total d :
  Etiny c < Etop c → ndigits (d_coeff d) + d_exp d ≤ Emax c → ∃ d', dec_fix c d = Ok d'.
Proof using Hc.
  intros Ht Hd. unfold dec_fix. destruct (d_coeff d =? 0)%N; [by eexists|].
  destruct (Z.ltb_spec (Etop c) (ndigits (d_coeff d) + d_exp d - prec c)) as [Hb|_]; [unfold Etop in Hb; lia|].
  cbv zeta. destruct (_ <? _) eqn:Hlt; [|by eexists].
  set (em := Z.max _ _). set (r := round_half_even _ _).
  destruct (Z.ltb_spec (Etop c) (if prec c <? ndigits r then em + 1 else em)) as [Hb|_]; [|by eexists].
  exfalso. unfold Etop in *. subst em. case_match; lia.
Qed.

(** A quotient is exact, or has every digit of the precision, or is subnormal. *)
Lemma dec_div_full a b d :
  dec_div c a b = Ok d →
  (dq d == dq a / dq b)%Q ∨ prec c ≤ ndigits (d_coeff d) ∨ d_exp d = Etiny c.
Proof using Hc.
  intros Hdiv. assert (1 ≤ prec c) as Hp by (unfold context_ok in Hc; btrue; lia).
  unfold dec_div in Hdiv.
  destruct (N.eqb_spec (d_coeff b) 0) as [|Hb]; [by case_match|].
  destruct (N.eqb_spec (d_coeff a) 0) as [Ha|Ha].
  { left. unfold dec_fix in Hdiv; cbn in Hdiv. simplify_eq.
    destruct a as [sa ca ea]; cbn in Ha; subst. rewrite !dq_zero. unfold Qdiv. by rewrite Qmult_0_l. }
  set (sh := ndigits (d_coeff b) - ndigits (d_coeff a) + prec c + 1) in *.
  set (num := if 0 <=? sh then _ else d_coeff a) in *.
  set (den := if 0 <=? sh then d_coeff b else _) in *. cbv zeta in Hdiv.
  destruct (scaled_quotient_digits (prec c) _ _ (d_coeff a) (d_coeff b) num den
    Hp Ha Hb eq_refl eq_refl eq_refl eq_refl) as [Hdig Hden].
  assert (num / den ≠ 0)%N as Hq0 by (intros Hz; rewrite Hz, ndigits_small in Hdig; lia).
  destruct (N.eqb_spec (num mod den) 0) as [Hrem|Hrem]; cbn [negb] in Hdiv.
  - destruct (strip_zeros _ _ _ _) as [co e'] eqn:Hstrip.
    pose proof (strip_zeros_dq _ (xorb (d_sign a) (d_sign b)) _ _ _ _ _ Hstrip) as Hdq.
    assert (co ≠ 0)%N as Hco0.
    { intros ->. unfold deq in Hdq. rewrite dq_zero in Hdq. symmetry in Hdq. by apply dq_nonzero in Hdq. }
    destruct (dec_fix_full (Dec _ co e') _ Hco0 Hdiv) as [->|Hf]; [left|by right].
    unfold deq in Hdq. rewrite Hdq, dq_unfold, sval_sgn; cbn [d_exp].
    pose proof (dq_quotient a b num den sh Hb eq_refl eq_refl) as Hval.
    assert (Z.of_N num = Z.of_N (num / den) * Z.of_N den) as Hn.
    { rewrite <- N2Z.inj_mul. f_equal. rewrite N.mul_comm. by apply N.Div0.div_exact. }
    assert (~ inject_Z (Z.of_N den) == 0)%Q as Hden0 by (unfold Qeq; cbn; lia).
    apply (Qmult_inj_r _ _ (inject_Z (Z.of_N den))); [done|].
    rewrite Hval, Hn, !inject_Z_mult. ring.
  - generalize dependent (num / den)%N. intros q Hdiv Hdig Hq0.
    set (co := if (q mod 5 =? 0)%N then (q + 1)%N else q) in *.
    assert (q ≤ co)%N as Hco by (subst co; case_match; lia). clearbody co.
    destruct (dec_fix_full (Dec _ co _) _ ltac:(cbn [d_coeff]; lia) Hdiv) as [->|Hf]; [|by right].
    apply dec_fix_digits in Hdiv; [|done]. cbn [d_coeff] in Hdiv |- *.
    assert (ndigits q ≤ prec c); [|lia]. apply ndigits_le_iff; [lia|]. apply ndigits_le_iff in Hdiv; [|done]. lia.
Qed.

(** The error of a division, relative to the quotient. *)
(** a nearest value with every digit of the precision is relatively close *)
Lemma full_digits_close q d :
  2 ≤ prec c → nearest q d → prec c ≤ ndigits (d_coeff d) → (Qabs (dq d - q) <= Qabs q * q10 (1 - prec c))%Q.
Proof using Type.
  intros Hp Hn Hd. unfold nearest in Hn. pose proof (Qabs_nonneg q). pose proof (q10_pos (1 - prec c)).
  assert (d_coeff d ≠ 0)%N as Hd0 by (intros Hz; rewrite Hz, ndigits_small in Hd by done; lia).
  pose proof (dq_lower d Hd0) as Hl.
  assert (q10 (prec c - 1 + d_exp d) <= Qabs (dq d))%Q as Hl'
    by (eapply Qle_trans; [|done]; apply q10_le; unfold adjusted; lia).
  rewrite q10_add in Hl'.
  assert (Qabs (dq d) <= Qabs q + (1 # 2) * q10 (d_exp d))%Q as Hu.
  { assert (dq d == q + (dq d - q))%Q as Hs by ring. rewrite Hs at 1.
    eapply Qle_trans; [apply Qabs_triangle|]. lra. }
  assert (q10 (prec c - 1) * q10 (1 - prec c) == 1)%Q as Hinv.
  { rewrite <- q10_add. by replace (prec c - 1 + (1 - prec c)) with 0 by lia. }
  assert (q10 1 <= q10 (prec c - 1))%Q as Hten by (apply q10_le; lia). change (q10 1) with (10 # 1)%Q in Hten.
  pose proof (q10_pos (d_exp d)).
  set (T := q10 (prec c - 1)) in *. set (I := q10 (1 - prec c)) in *. set (x := q10 (d_exp d)) in *. set (m := Qabs q) in *.
  assert (x * (T - (1 # 2)) * I <= m * I)%Q by (apply Qmult_le_compat_r; lra).
  assert (I <= 1 # 10)%Q by (apply (Qmult_le_l _ _ (10#1)); [reflexivity|]; nra).
  assert (x * (T - (1 # 2)) * I == x - (1 # 2) * x * I)%Q by (rewrite <- (Qmult_1_r x) at 2; rewrite <- Hinv; ring).
  nra.
Qed.

Lemma dec_div_close a b d :
  2 ≤ prec c → dec_div c a b = Ok d →
  (Qabs (dq d - dq a / dq b) <= Qabs (dq a / dq b) * q10 (1 - prec c) + (1 # 2) * q10 (Etiny c))%Q.
Proof using Hc.
  intros Hp Hdiv. destruct (dec_div_rounds c Hc _ _ _ Hdiv) as [[Hn _] _]. pose proof Hn as Hnear. unfold nearest in Hn.
  set (q := (dq a / dq b)%Q) in *.
  pose proof (Qabs_nonneg q). pose proof (q10_pos (Etiny c)). pose proof (q10_pos (1 - prec c)).
  assert (0 <= Qabs q * q10 (1 - prec c))%Q by (apply Qmult_le_0_compat; lra).
  destruct (dec_div_full _ _ _ Hdiv) as [He|[Hd|He]].
  - fold q in He. assert (dq d - q == 0)%Q as -> by (rewrite He; ring). change (Qabs 0) with 0%Q. lra.
  - pose proof (full_digits_close q d Hp Hnear Hd). lra.
  - rewrite He in Hn. lra.
Qed.

(** Above the subnormal range a rounded value is relatively close. *)
Lemma dec_fix_close d d' :
  2 ≤ prec c → Etiny c ≤ d_exp d → dec_fix c d = Ok d' → (Qabs (dq d' - dq d) <= Qabs (dq d) * q10 (1 - prec c))%Q.
Proof using Hc.
  intros Hp He Hfix. pose proof (Qabs_nonneg (dq d)). pose proof (q10_pos (1 - prec c)).
  assert (0 <= Qabs (dq d) * q10 (1 - prec c))%Q as Hpos by (apply Qmult_le_0_compat; lra).
  assert (dq d' == dq d → Qabs (dq d' - dq d) <= Qabs (dq d) * q10 (1 - prec c))%Q as Hexact.
  { intros Heq. assert (dq d' - dq d == 0)%Q as -> by (rewrite Heq; ring). exact Hpos. }
  destruct (decide (d_coeff d = 0%N)) as [Hc0|Hc0].
  - apply Hexact. unfold dec_fix in Hfix. rewrite Hc0 in Hfix. injection Hfix as <-. destruct d as [s co e]; cbn in *; subst. by rewrite !dq_zero.
  - destruct (dec_fix_rounds c Hc _ _ Hfix) as [Hn _]. destruct (dec_fix_full _ _ Hc0 Hfix) as [->|[Hd|Hd]];
      [by apply Hexact|by apply full_digits_close|]. apply Hexact.
    destruct (dec_fix_rounded c Hc d d' Hc0 Hfix) as (k & Hk & Hexp & _ & Hs). assert (k = 0) as -> by lia.
    rewrite !dq_unfold, Hexp, Z.add_0_r. assert (sval d' = sval d) as -> by lia. reflexivity.
Qed.
End full.

(** * The ratio of two integers, to a fixed number of places *)

Section ratio.
Context (c : context) (Hc : context_ok c = true) (Hrange : Etiny c < Etop c).

Lemma dq_of_Z z : (dq (dec_of_Z z) == inject_Z z)%Q.
Proof.
  unfold dec_of_Z. rewrite dq_unfold. unfold q10, sval; cbn [d_sign d_coeff d_exp].
  change ((10 # 1) ^ 0)%Q with 1%Q. rewrite Qmult_1_r.
  by assert ((if z <? 0 then - Z.of_N (Z.abs_N z) else Z.of_N (Z.abs_N z)) = z) as -> by (case_match; lia).
Qed.

(** Dividing by something not smaller does not overflow. *)
Lemma dec_div_unit_total a b :
  0 ≤ a ≤ b → 0 < b → 3 ≤ Emax c → ∃ d, dec_div c (dec_of_Z a) (dec_of_Z b) = Ok d.
Proof using Hc Hrange.
  intros Hab Hb HE. unfold dec_div, dec_of_Z; cbn [d_sign d_coeff d_exp].
  assert (1 ≤ prec c) as Hp by (unfold context_ok in Hc; btrue; lia).
  destruct (N.eqb_spec (Z.abs_N b) 0) as [|Hb0]; [lia|].
  destruct (N.eqb_spec (Z.abs_N a) 0) as [Ha0|Ha0].
  { apply dec_fix_total; [done..|]. cbn [d_coeff d_exp]. rewrite ndigits_small by done. lia. }
  set (A := Z.abs_N a) in *. set (B := Z.abs_N b) in *. assert (A ≤ B)%N as HAB by lia. clearbody A B.
  assert (ndigits A ≤ ndigits B) as Hnd.
  { apply ndigits_le_iff; [apply ndigits_pos|]. pose proof (ndigits_upper B). lia. }
  set (sh := ndigits B - ndigits A + prec c + 1) in *. destruct (Z.leb_spec 0 sh) as [Hsh|]; [|lia].
  set (num := (A * pow10 sh)%N). change (d_coeff (dec_of_Z b)) with B.
  assert (ndigits (num / B) ≤ prec c + 2) as Hq.
  { apply ndigits_le_iff; [lia|]. apply N.Div0.div_lt_upper_bound.
    pose proof (ndigits_upper A). pose proof (ndigits_lower B Hb0).
    assert (pow10 (ndigits A) * pow10 sh = pow10 (ndigits B - 1) * pow10 (prec c + 2))%N as Heq.
    { pose proof (ndigits_pos A). pose proof (ndigits_pos B). rewrite <- !pow10_add by lia. f_equal. lia. }
    pose proof (pow10_pos sh). pose proof (pow10_pos (prec c + 2)).
    apply N.lt_le_trans with (pow10 (ndigits A) * pow10 sh)%N; [by apply N.mul_lt_mono_pos_r|].
    rewrite Heq. by apply N.mul_le_mono_r. }
  destruct (negb _); [|destruct (strip_zeros _ _ _ _) as [co e'] eqn:Hs].
  - apply dec_fix_total; [done..|]. cbn [d_coeff d_exp].
    assert (ndigits (if (num / B mod 5 =? 0)%N then num / B + 1 else num / B) ≤ prec c + 3); [|lia].
    apply ndigits_le_iff in Hq; [|lia]. apply ndigits_le_iff; [lia|].
    pose proof (pow10_lt_mono (prec c + 2) (prec c + 3) ltac:(lia) ltac:(lia)).
    generalize dependent (num / B)%N. intros q Hq. case_match; lia.
  - apply dec_fix_total; [done..|]. cbn [d_coeff d_exp].
    destruct (strip_zeros_le _ _ _ _ _ _ Hs) as (_ & _ & Hco).
    destruct (strip_zeros_adjusted _ _ _ _ _ _ Hs) as [Ha| ->]; [lia|]. destruct Hco; [|done].
    pose proof (ndigits_upper B). pose proof (ndigits_lower A Ha0). pose proof (ndigits_pos A). pose proof (ndigits_pos B).
    pose proof (pow10_le_mono (ndigits B) (ndigits A - 1 + sh) ltac:(lia)) as Hle.
    rewrite pow10_add in Hle by lia. pose proof (pow10_pos sh).
    assert (1 ≤ num / B)%N; [|lia]. apply N.div_le_lower_bound; [done|]. unfold num. nia.
Qed.

(** Divide and quantize: no signal, and within 0.51 units of the last place. *)
Lemma ratio_places a b s co k :
  0 ≤ a ≤ b → 0 < b → 3 ≤ Emax c → 0 ≤ k → k + 4 ≤ prec c → Etiny c ≤ - k - 3 →
  ∃ d1 d2, dec_div c (dec_of_Z a) (dec_of_Z b) = Ok d1 ∧ dec_quantize c d1 (Dec s co (- k)) = Ok d2 ∧
    d_exp d2 = - k ∧ 0 ≤ sval d2 ∧
    (Qabs (dq d2 - inject_Z a / inject_Z b) <= (51 # 100) * q10 (- k))%Q.
Proof using Hc Hrange.
  intros Hab Hb HE Hk Hp Ht. destruct (dec_div_unit_total a b Hab Hb HE) as [d1 Hd1]. exists d1.
  pose proof (dec_div_close c Hc _ _ _ ltac:(lia) Hd1) as Hclose. rewrite !dq_of_Z in Hclose.
  assert (0 < inject_Z b)%Q as Hb0 by (change 0%Q with (inject_Z 0); by rewrite <- Zlt_Qlt).
  assert (0 <= inject_Z a / inject_Z b <= 1)%Q as Hunit.
  { split; [apply Qle_shift_div_l|apply Qle_shift_div_r]; try done.
    - rewrite Qmult_0_l. change 0%Q with (inject_Z 0). rewrite <- Zle_Qle. lia.
    - rewrite Qmult_1_l, <- Zle_Qle. lia. }
  set (q := (inject_Z a / inject_Z b)%Q) in *. clearbody q.
  rewrite (Qabs_pos q) in Hclose by lra.
  assert (q10 (1 - prec c) <= q10 (- k) * (1 # 1000))%Q as Hs1.
  { change (1 # 1000)%Q with (q10 (-3)). rewrite <- q10_add. apply q10_le. lia. }
  assert (q10 (Etiny c) <= q10 (- k) * (1 # 1000))%Q as Hs2.
  { change (1 # 1000)%Q with (q10 (-3)). rewrite <- q10_add. apply q10_le. lia. }
  pose proof (q10_pos (- k)) as Hu. pose proof (q10_le (- k) 0 ltac:(lia)) as Hu1. change (q10 0) with 1%Q in Hu1.
  set (u := q10 (- k)) in *.
  assert (Qabs (dq d1 - q) <= (1 # 1000) * u + (1 # 2000) * u)%Q as Hd by nra.
  assert (Qabs (dq d1) < 2)%Q as H1.
  { apply Qabs_Qle_condition in Hd. apply Qabs_Qlt_condition. lra. }
  assert (d_coeff d1 ≠ 0%N → adjusted d1 ≤ 0) as Hadj.
  { intros H0. enough (adjusted d1 < 1) by lia. apply adjusted_lt; [done|]. change (q10 1) with (10 # 1)%Q. lra. }
  pose proof (rescale_nearest d1 (- k)) as Hn. pose proof (rescale_exp d1 (- k)) as He.
  set (d2 := rescale d1 (- k)) in *. exists d2. unfold nearest in Hn. rewrite He in Hn. fold u in Hn.
  assert (Qabs (dq d2 - q) <= (51 # 100) * u)%Q as Hfin.
  { assert (dq d2 - q == (dq d2 - dq d1) + (dq d1 - q))%Q as -> by ring.
    eapply Qle_trans; [apply Qabs_triangle|]. lra. }
  apply Qabs_Qle_condition in Hfin as Hb2.
  assert (ndigits (d_coeff d2) ≤ k + 1 ∧ adjusted d2 ≤ 0) as [Hnd Had].
  { destruct (decide (d_coeff d2 = 0%N)) as [H0|H0].
    - unfold adjusted. rewrite H0, ndigits_small, He by done. lia.
    - assert (adjusted d2 < 1) as Ha.
      { apply adjusted_lt; [done|]. change (q10 1) with (10 # 1)%Q. apply Qabs_Qlt_condition. lra. }
      unfold adjusted in *. lia. }
  split; [done|]. split_and!.
  - apply dec_quantize_Ok; [done|]. cbn [d_exp]. split_and!; [lia|lia|done|lia|lia|]. intros H0. specialize (Hadj H0). lia.
  - done.
  - assert (-1 < sval d2); [|lia]. rewrite Zlt_Qlt. rewrite dq_unfold, He in Hb2. fold u in Hb2.
    change (inject_Z (-1)) with (-1)%Q. apply (Qmult_lt_r _ _ u); [done|]. lra.
  - done.
Qed.
End ratio.
