(* ===== verification/Isotonic.v ===== *)
(** [workers/src/fel_workers/extraction/isotonic.py]: isotonic calibration by
    weighted pool-adjacent-violators.

    Inputs arrive as arbitrary Python objects ([pyobj]) and every check of the
    code is made on them, so that artifacts and samples are validated as the
    code validates them.  A dict is the list of its items in order; a key that
    is not a [str] is [None].  The means are exact ratios of integers, rounded
    to 12 places in the module's own context of 50 digits. *)

From Stdlib Require Import QArith Qabs Qround Lqa.
From S2P Require Import Prelude Decimals Ratios.
Local Open Scope Z_scope.

(** * Data *)

Inductive pyobj :=
| PStr (s : string)
| PInt (z : Z)
| PBool (b : bool)
| PNone
| PList (l : list pyobj)
| PTuple (l : list pyobj)
| PDict (items : list (option string * pyobj))
| PObject.  (** any other type, subclasses of the above included *)

Inductive error_code := invalid_sample | limit_exceeded | invalid_artifact.

(** [CalibrationError], and the built-in errors the code could let escape *)
Inductive failure := CalibrationError (code : error_code) | IndexError | ValueError.

#[export] Instance error_code_eq_dec : EqDecision error_code.
Proof. solve_decision. Defined.
#[export] Instance failure_eq_dec : EqDecision failure.
Proof. solve_decision. Defined.

Notation outcome := (result failure).

Definition fail {A} (code : error_code) : outcome A := Err (CalibrationError code).

Record block := Block { lower_score : string; upper_score : string; count : Z; positive : Z }.

#[export] Instance block_eq_dec : EqDecision block.
Proof. solve_decision. Defined.

Inductive fit_status := fitted | insufficient_data.

#[export] Instance fit_status_eq_dec : EqDecision fit_status.
Proof. solve_decision. Defined.

Definition status_text (s : fit_status) : string :=
  match s with fitted => "fitted" | insufficient_data => "insufficient_data" end.

Definition MAX_SAMPLES : Z := 100000.
Definition MAX_DEPTH : Z := 16.
Definition MIN_N : Z := 100.
Definition MIN_CLASS : Z := 20.
Definition QUANT : decimal := Dec false 1 (-12).
Definition SCHEMA : string := "isotonic-v1".
Definition EVAL_SCHEMA : string := "isotonic-evaluation/v1".
Definition ARTIFACT_KEYS : list string := ["schema_version"; "status"; "n"; "positive"; "negative"; "blocks"]%string.
Definition BLOCK_KEYS : list string := ["lower_score"; "upper_score"; "count"; "positive"]%string.

(** * Arithmetic in the isolated context *)

Definition isolated : context := Context 50 999999 (-999999).

(** No signal is trapped: a failed operation yields an infinity or [NaN], which
    [quantize] turns to [NaN]. *)
Definition ratio12 (numerator denominator : Z) : pydecimal :=
  match dec_div isolated (dec_of_Z numerator) (dec_of_Z denominator) with
  | Ok value => match dec_quantize isolated value QUANT with Ok d => Finite d | Err _ => NaN end
  | Err _ => NaN
  end.

Definition fraction12 (value : Q) : pydecimal := ratio12 (Qnum (Qred value)) (Zpos (Qden (Qred value))).

Definition emit12 (value : pydecimal) : string :=
  match value with Finite d => format_f d | Infinite s => if s then "-Infinity" else "Infinity" | NaN => "NaN" end.

(** [Fraction(value)] *)
Definition fraction_of (value : pydecimal) : outcome Q :=
  match value with Finite d => Ok (Qred (dq d)) | _ => Err ValueError end.

(** * Checks on the input objects *)

Fixpoint check_depth (value : pyobj) (depth : Z) : outcome unit :=
  match value with
  | PDict items =>
      if MAX_DEPTH <? depth then fail limit_exceeded
      else (fix go (l : list (option string * pyobj)) : outcome unit :=
              match l with
              | [] => Ok tt
              | (_, inner) :: l' => match check_depth inner (depth + 1) with Ok _ => go l' | Err e => Err e end
              end) items
  | PList l =>
      if MAX_DEPTH <? depth then fail limit_exceeded
      else (fix go (l : list pyobj) : outcome unit :=
              match l with
              | [] => Ok tt
              | inner :: l' => match check_depth inner (depth + 1) with Ok _ => go l' | Err e => Err e end
              end) l
  | _ => Ok tt
  end.

(** the regular expression [[0-9]{0,k}[1-9]] *)
Fixpoint fraction_digits (k : nat) (s : string) {struct s} : bool :=
  match s with
  | EmptyString => false
  | String a EmptyString => is_digit a && negb (digit_val a =? 0)%N
  | String a s' => match k with O => false | S k' => is_digit a && fraction_digits k' s' end
  end.

(** [(?:0|1|0\.[0-9]{0,11}[1-9])], on the whole string *)
Definition score_match (s : string) : bool :=
  match s with
  | "0"%string | "1"%string => true
  | String "0" (String "." t) => fraction_digits 11 t
  | _ => false
  end.

Definition canonical_score (value : pyobj) (code : error_code) : outcome string :=
  match value with
  | PStr s => if score_match s then Ok s else fail code
  | _ => fail code
  end.

Definition actual_int (value : pyobj) (code : error_code) : outcome Z :=
  match value with PInt z => Ok z | _ => fail code end.

Definition bounded_count (value : pyobj) (code : error_code) : outcome Z :=
  number ← actual_int value code;
  if (number <? 0) || (MAX_SAMPLES <? number) then fail code else Ok number.

(** [type(value) in _SEQUENCE_TYPES] *)
Definition sequence (value : pyobj) : option (list pyobj) :=
  match value with PList l | PTuple l => Some l | _ => None end.

Definition parse_row (row : pyobj) : outcome (string * Z) :=
  match sequence row with
  | Some [score; label] =>
      score ← canonical_score score invalid_sample;
      label ← actual_int label invalid_sample;
      if bool_decide (label = 0 ∨ label = 1) then Ok (score, label) else fail invalid_sample
  | _ => fail invalid_sample
  end.

Definition parse_samples (samples : pyobj) : outcome (list (string * Z)) :=
  match sequence samples with
  | None => fail invalid_sample
  | Some rows => if MAX_SAMPLES <? Z.of_nat (length rows) then fail limit_exceeded else mapM parse_row rows
  end.

Definition support (n positive negative : Z) : bool :=
  (MIN_N <=? n) && (MIN_CLASS <=? positive) && (MIN_CLASS <=? negative).

(** * Pooling adjacent violators *)

Definition should_merge (left right : block) : bool :=
  positive right * count left <=? positive left * count right.

Definition merge (left right : block) : block :=
  Block (lower_score left) (upper_score right) (count left + count right) (positive left + positive right).

(** The [while] loop, the stack with its top first: each merge pops one more. *)
Fixpoint settle (group : block) (stack : list block) : list block :=
  match stack with
  | top :: stack' => if should_merge top group then settle (merge top group) stack' else group :: stack
  | [] => [group]
  end.

Definition pool (groups : list block) : list block :=
  reverse (foldl (λ stack group, settle group stack) [] groups).

(** [Decimal(score)] *)
Definition score_dec (s : string) : decimal := default dec_zero (read_plain s).

Definition score_le (a b : string) : Prop := dec_leb (score_dec a) (score_dec b) = true.
#[export] Instance score_le_dec : RelDecision score_le.
Proof. intros a b. unfold score_le. apply _. Defined.

(** The two dicts, [counts] and [positives], are filled together. *)
Definition tally (st : gmap string Z * gmap string Z) (sample : string * Z) : gmap string Z * gmap string Z :=
  let '(counts, positives) := st in
  (<[sample.1 := default 0 (counts !! sample.1) + 1]> counts,
   <[sample.1 := default 0 (positives !! sample.1) + sample.2]> positives).

(** [sorted(counts, key=Decimal)]: the keys in order of insertion, sorted. *)
Definition aggregate (samples : list (string * Z)) : list block :=
  let '(counts, positives) := foldl tally (∅, ∅) samples in
  let ordered := py_sorted score_le (dict_fromkeys samples.*1) in
  (λ score, Block score score (default 0 (counts !! score)) (default 0 (positives !! score))) <$> ordered.

Definition public_blocks (blocks : list block) : pyobj :=
  PList ((λ b, PDict [(Some "lower_score", PStr (lower_score b)); (Some "upper_score", PStr (upper_score b));
                      (Some "count", PInt (count b)); (Some "positive", PInt (positive b))])%string <$> blocks).

(** * Validating an artifact *)

(** [set(d) == keys] *)
Definition keys_are (items : list (option string * pyobj)) (keys : list string) : bool :=
  forallb (λ i : option string * pyobj, match i.1 with Some k => bool_decide (k ∈ keys) | None => false end) items
  && forallb (λ k, bool_decide (Some k ∈ items.*1)) keys.

(** [typed[key]], on a dict that has the key *)
Fixpoint item (key : string) (items : list (option string * pyobj)) : pyobj :=
  match items with
  | [] => PNone
  | (k, v) :: items' => if decide (k = Some key) then v else item key items'
  end.

Definition block_tuple (value : pyobj) : outcome block :=
  match value with
  | PDict typed =>
      if negb (keys_are typed BLOCK_KEYS) then fail invalid_artifact else
      lower ← canonical_score (item "lower_score" typed) invalid_artifact;
      upper ← canonical_score (item "upper_score" typed) invalid_artifact;
      if dec_ltb (score_dec upper) (score_dec lower) then fail invalid_artifact else
      count ← bounded_count (item "count" typed) invalid_artifact;
      positive ← bounded_count (item "positive" typed) invalid_artifact;
      if (count <? 1) || (count <? positive) then fail invalid_artifact
      else Ok (Block lower upper count positive)
  | _ => fail invalid_artifact
  end.

(** two adjacent blocks of a fitted artifact, in the wrong order *)
Definition misordered (previous block : block) : bool :=
  dec_leb (score_dec (lower_score block)) (score_dec (upper_score previous)) || should_merge previous block.

Fixpoint check_order (previous : option block) (blocks : list block) : outcome unit :=
  match blocks with
  | [] => Ok tt
  | b :: blocks' =>
      if match previous with Some p => misordered p b | None => false end then fail invalid_artifact
      else check_order (Some b) blocks'
  end.

Definition total (f : block → Z) (blocks : list block) : Z := foldr (λ b s, f b + s) 0 blocks.

Definition nonempty {A} (l : list A) : bool := match l with [] => false | _ => true end.

Definition parse_status (value : pyobj) : outcome fit_status :=
  match value with
  | PStr s =>
      if decide (s = "fitted"%string) then Ok fitted
      else if decide (s = "insufficient_data"%string) then Ok insufficient_data
      else fail invalid_artifact
  | _ => fail invalid_artifact
  end.

Definition validate_artifact (artifact : pyobj) : outcome (fit_status * list block) :=
  _ ← check_depth artifact 1;
  match artifact with
  | PDict typed =>
      if negb (keys_are typed ARTIFACT_KEYS) then fail invalid_artifact else
      match item "schema_version" typed with
      | PStr s =>
          if negb (bool_decide (s = SCHEMA)) then fail invalid_artifact else
          status ← parse_status (item "status" typed);
          n ← bounded_count (item "n" typed) invalid_artifact;
          pos ← bounded_count (item "positive" typed) invalid_artifact;
          neg ← bounded_count (item "negative" typed) invalid_artifact;
          if negb (pos + neg =? n) then fail invalid_artifact else
          match item "blocks" typed with
          | PList raw_blocks =>
              blocks ← mapM block_tuple raw_blocks;
              let enough := support n pos neg in
              match status with
              | insufficient_data => if nonempty blocks || enough then fail invalid_artifact else Ok (status, blocks)
              | fitted =>
                  if negb (nonempty blocks) || negb enough || negb (total count blocks =? n)
                     || negb (total positive blocks =? pos) then fail invalid_artifact
                  else _ ← check_order None blocks; Ok (status, blocks)
              end
          | _ => fail invalid_artifact
          end
      | _ => fail invalid_artifact
      end
  | _ => fail invalid_artifact
  end.

(** * Fitting and predicting *)

Definition mean (b : block) : pydecimal := ratio12 (positive b) (count b).

(** [bisect_right(blocks, x, key=lower_score)]: the fuel is the interval's length *)
Fixpoint bisect_loop (fuel : nat) (blocks : list block) (x : decimal) (lo hi : nat) : nat :=
  match fuel with
  | O => lo
  | S fuel' =>
      if (lo <? hi)%nat then
        let mid := ((lo + hi) / 2)%nat in
        match blocks !! mid with
        | Some b =>
            if dec_ltb x (score_dec (lower_score b)) then bisect_loop fuel' blocks x lo mid
            else bisect_loop fuel' blocks x (S mid) hi
        | None => lo
        end
      else lo
  end.

Definition bisect_right (blocks : list block) (x : decimal) : nat :=
  bisect_loop (S (length blocks)) blocks x 0 (length blocks).

Definition left_step (blocks : list block) (score : string) : outcome pydecimal :=
  if negb (nonempty blocks) then fail invalid_artifact else
  let index := bisect_right blocks (score_dec score) in
  match blocks !! (index - 1)%nat with Some b => Ok (mean b) | None => Err IndexError end.

Definition zsum (l : list Z) : Z := foldr Z.add 0 l.

Definition artifact_of (status : fit_status) (n pos neg : Z) (blocks : list block) : pyobj :=
  PDict [(Some "schema_version", PStr SCHEMA); (Some "status", PStr (status_text status)); (Some "n", PInt n);
         (Some "positive", PInt pos); (Some "negative", PInt neg); (Some "blocks", public_blocks blocks)]%string.

Definition fit (samples : pyobj) : outcome pyobj :=
  parsed ← parse_samples samples;
  let n := Z.of_nat (length parsed) in
  let pos := zsum parsed.*2 in
  let neg := n - pos in
  let enough := support n pos neg in
  let blocks := if enough then pool (aggregate parsed) else [] in
  let status := if enough then fitted else insufficient_data in
  Ok (artifact_of status n pos neg blocks).

Definition predict (artifact score : pyobj) : outcome pydecimal :=
  '(status, blocks) ← validate_artifact artifact;
  canonical ← canonical_score score invalid_sample;
  match status with
  | insufficient_data => Ok (Finite dec_zero)
  | fitted => left_step blocks canonical
  end.

(** * Evaluation *)

Definition bin_index (probability : pydecimal) : outcome Z :=
  p ← fraction_of probability;
  Ok (Z.min 9 (Qfloor (p * 10))).

(** [l[i] = f(l[i])], with Python's negative indices *)
Definition update_at {A} (i : Z) (f : A → A) (l : list A) : outcome (list A) :=
  let k := if i <? 0 then i + Z.of_nat (length l) else i in
  if (0 <=? k) && (k <? Z.of_nat (length l)) then Ok (alter f (Z.to_nat k) l) else Err IndexError.

Record bins := Bins { brier_sum : Q; bin_counts : list Z; bin_prob : list Q; bin_pos : list Z }.

Definition empty_bins : bins := Bins 0 (replicate 10 0) (replicate 10 0%Q) (replicate 10 0).

Definition add_prediction (st : bins) (x : pydecimal * (string * Z)) : outcome bins :=
  let '(probability, (_, label)) := x in
  prob ← fraction_of probability;
  let brier := Qred (brier_sum st + (prob - inject_Z label) * (prob - inject_Z label))%Q in
  index ← bin_index probability;
  counts ← update_at index (λ k, k + 1) (bin_counts st);
  probs ← update_at index (λ p, Qred (p + prob)%Q) (bin_prob st);
  poss ← update_at index (λ k, k + label) (bin_pos st);
  Ok (Bins brier counts probs poss).

Record bin_row := BinRow { row_index : Z; row_count : Z; mean_probability : option Q; positive_rate : option Q }.

(** one turn of the reporting loop; the index is the position in [bin_counts] *)
Definition report_bin (st : bins) (acc : Q * list bin_row) (index : nat) : outcome (Q * list bin_row) :=
  let '(ece_sum, rows) := acc in
  match bin_counts st !! index, bin_prob st !! index, bin_pos st !! index with
  | Some k, Some p, Some pos =>
      if k =? 0 then Ok (ece_sum, rows ++ [BinRow (Z.of_nat index) 0 None None])
      else
        let mean_p := Qred (p / inject_Z k) in
        let rate := Qred (inject_Z pos / inject_Z k) in
        Ok (Qred (ece_sum + inject_Z k * Qabs (mean_p - rate))%Q,
            rows ++ [BinRow (Z.of_nat index) k (Some mean_p) (Some rate)])
  | _, _, _ => Err IndexError
  end.

Definition optional_text (q : option Q) : pyobj :=
  match q with Some q => PStr (emit12 (fraction12 q)) | None => PNone end.

Definition bin_object (r : bin_row) : pyobj :=
  PDict [(Some "index", PInt (row_index r)); (Some "count", PInt (row_count r));
         (Some "mean_probability", optional_text (mean_probability r));
         (Some "positive_rate", optional_text (positive_rate r))]%string.

Definition report_object (status : string) (n pos neg : Z) (sufficient : bool) (brier ece : option Q) (rows : list bin_row) : pyobj :=
  PDict [(Some "schema_version", PStr EVAL_SCHEMA); (Some "status", PStr status); (Some "n", PInt n);
         (Some "positive", PInt pos); (Some "negative", PInt neg); (Some "sufficient", PBool sufficient);
         (Some "brier", optional_text brier); (Some "ece", optional_text ece);
         (Some "bins", PList (bin_object <$> rows))]%string.

Definition eval_status (status : fit_status) (enough : bool) : string :=
  match status with
  | insufficient_data => "insufficient_calibration"
  | fitted => if enough then "evaluated" else "insufficient_evaluation"
  end.

(** the mean squared error, the calibration error and the bins of an evaluation *)
Definition scores (blocks : list block) (samples : list (string * Z)) : outcome (Q * Q * list bin_row) :=
  let n := inject_Z (Z.of_nat (length samples)) in
  predictions ← mapM (left_step blocks) samples.*1;
  st ← foldM add_prediction empty_bins (zip predictions samples);
  '(ece_sum, rows) ← foldM (report_bin st) (0%Q, []) (seq 0 10);
  Ok ((brier_sum st / n)%Q, (ece_sum / n)%Q, rows).

Definition evaluation (status : fit_status) (blocks : list block) (samples : list (string * Z)) : outcome pyobj :=
  let n := Z.of_nat (length samples) in
  let pos := zsum samples.*2 in
  let neg := n - pos in
  let text := eval_status status (support n pos neg) in
  if negb (bool_decide (text = "evaluated"%string)) then Ok (report_object text n pos neg false None None [])
  else
    '(brier, ece, rows) ← scores blocks samples;
    Ok (report_object "evaluated" n pos neg true (Some brier) (Some ece) rows).

Definition evaluate (artifact samples : pyobj) : outcome pyobj :=
  '(status, blocks) ← validate_artifact artifact;
  parsed ← parse_samples samples;
  evaluation status blocks parsed.

(** two samples of every score from 0.01 to 0.99 but the multiples of 0.1 *)
Definition sample_ks : list nat := filter (λ k, Nat.modulo k 10 ≠ 0%nat) (seq 1 99).
Definition sample_rows : pyobj :=
  PList (concat ((λ k, let s := PStr (format_f (Dec false (N.of_nat k) (-2))) in
    [PTuple [s; PInt (Z.of_nat (k / 50))]; PTuple [s; PInt (Z.of_nat ((k * k) mod 2))]]) <$> sample_ks)).
