(* ===== verification/Pooling.v ===== *)
(** Pooling adjacent violators computes the isotonic least-squares fit.

    [pool] cuts the ordered groups into consecutive segments, one block each.
    No suffix of a segment has a larger mean than its block (so no split of the
    segment improves the fit), and the blocks' means strictly increase; from
    these two facts the optimality of the block means follows by Abel
    summation. *)

From Stdlib Require Import QArith Qabs Lqa.
From S2P Require Import Prelude Decimals Ratios Isotonic.
Local Open Scope Z_scope.

(** the mean of [a] is below the mean of [b], cross-multiplied *)
Definition mean_lt (a b : block) : Prop := positive a * count b < positive b * count a.

(** [b] is the pool of the consecutive groups [seg]. *)
Record pools (b : block) (seg : list block) : Prop := {
  pools_count : count b = total count seg;
  pools_positive : positive b = total positive seg;
  pools_lower : lower_score <$> head seg = Some (lower_score b);
  pools_upper : upper_score <$> last seg = Some (upper_score b);
  pools_suffix pre suf : seg = pre ++ suf → total positive suf * count b ≤ positive b * total count suf;
}.

Lemma total_cons f b l : total f (b :: l) = f b + total f l.
Proof. done. Qed.

Lemma total_app f l1 l2 : total f (l1 ++ l2) = total f l1 + total f l2.
Proof. induction l1 as [|b l1 IH]; [done|]. cbn [app]. rewrite !total_cons, IH. lia. Qed.

Lemma total_pos f l : Forall (λ b, 0 < f b) l → l ≠ [] → 0 < total f l.
Proof.
  destruct 1 as [|b l Hb Hl]; [done|]. intros _. rewrite total_cons.
  enough (0 ≤ total f l) by lia. induction Hl as [|x l Hx Hl IH]; [done|]. rewrite total_cons. lia.
Qed.

Lemma should_merge_false a b : should_merge a b = false ↔ mean_lt a b.
Proof. unfold should_merge, mean_lt. rewrite Z.leb_gt. done. Qed.

Lemma pools_single g : pools g [g].
Proof.
  split; cbn; try lia; [done..|]. intros pre suf Heq. destruct pre as [|x pre]; cbn in Heq; simplify_eq.
  - cbn. lia.
  - destruct pre; [|done]. destruct suf; [|done]. cbn. lia.
Qed.

Lemma pools_ne b seg : pools b seg → seg ≠ [].
Proof. intros H ->. by apply pools_lower in H. Qed.

(** the inequality behind a merge *)
Lemma merge_ratio PL WL PR WR PS WS :
  0 < WL → PR * WL ≤ PL * WR → PS * WL ≤ PL * WS → 0 ≤ WL - WS → 0 ≤ WR →
  (PS + PR) * (WL + WR) ≤ (PL + PR) * (WS + WR).
Proof.
  intros HWL Hm Hs Hpre HWR.
  assert (PR * (WL - WS) ≤ WR * (PL - PS)); [|nia].
  apply (Z.mul_le_mono_pos_l _ _ WL); [done|].
  assert (PR * WL * (WL - WS) ≤ PL * WR * (WL - WS)) by (apply Z.mul_le_mono_nonneg_r; lia).
  assert (PL * (WL - WS) * WR ≤ (PL - PS) * WL * WR) by (apply Z.mul_le_mono_nonneg_r; lia).
  lia.
Qed.

Lemma pools_merge a b sa sb :
  Forall (λ g, 0 < count g) sa → Forall (λ g, 0 < count g) sb →
  pools a sa → pools b sb → should_merge a b = true → pools (merge a b) (sa ++ sb).
Proof.
  intros Hca Hcb Ha Hb Hm. pose proof (pools_ne _ _ Ha) as Hna. pose proof (pools_ne _ _ Hb) as Hnb.
  unfold should_merge in Hm. apply Z.leb_le in Hm.
  pose proof (total_pos count sa Hca Hna) as Hpa. pose proof (total_pos count sb Hcb Hnb) as Hpb.
  split; cbn [count positive lower_score upper_score merge].
  - rewrite total_app. by rewrite (pools_count _ _ Ha), (pools_count _ _ Hb).
  - rewrite total_app. by rewrite (pools_positive _ _ Ha), (pools_positive _ _ Hb).
  - rewrite <- (pools_lower _ _ Ha). by destruct sa.
  - rewrite <- (pools_upper _ _ Hb). f_equal. rewrite last_app. by destruct (last sb) eqn:Hl; [|apply last_None in Hl].
  - intros pre suf Heq. apply app_eq_inv in Heq as [(k & Hk & ->)|(k & -> & Hk)].
    + (* the suffix starts inside [a] *)
      rewrite !total_app. rewrite <- (pools_positive _ _ Hb), <- (pools_count _ _ Hb).
      pose proof (pools_suffix _ _ Ha pre k Hk). rewrite (pools_count _ _ Ha), (pools_count _ _ Hb) in *.
      assert (0 ≤ total count pre).
      { subst sa. apply Forall_app in Hca as [Hp _]. destruct (decide (pre = [])) as [->|]; [done|].
        by apply Z.lt_le_incl, total_pos. }
      apply merge_ratio; try lia. subst sa. rewrite total_app. lia.
    + (* the suffix is one of [b] *)
      pose proof (pools_suffix _ _ Hb k suf Hk) as Hs. rewrite (pools_count _ _ Ha), (pools_count _ _ Hb) in *.
      assert (0 ≤ total count suf).
      { subst sb. apply Forall_app in Hcb as [_ Hp]. destruct (decide (suf = [])) as [->|]; [done|].
        by apply Z.lt_le_incl, total_pos. }
      apply (Z.mul_le_mono_pos_l _ _ (total count sb)); [done|]. nia.
Qed.

(** * The stack *)

Lemma settle_spec g sg stack segs :
  Forall (λ g, 0 < count g) sg → Forall (Forall (λ g, 0 < count g)) segs →
  pools g sg → Forall2 pools stack segs → Sorted (flip mean_lt) stack →
  ∃ segs', Forall2 pools (settle g stack) segs' ∧ concat (reverse segs') = concat (reverse segs) ++ sg ∧
    Sorted (flip mean_lt) (settle g stack).
Proof.
  revert g sg segs. induction stack as [|top stack IH]; intros g sg segs Hsg Hsegs Hg Hst Hord; cbn [settle].
  - apply Forall2_nil_inv_l in Hst as ->. exists [sg]. split_and!; [by constructor| |by repeat constructor].
    cbn. by rewrite app_nil_r.
  - apply Forall2_cons_inv_l in Hst as (stop & segs' & Htop & Hst & ->).
    apply Forall_cons in Hsegs as [Hstop Hsegs]. destruct (should_merge top g) eqn:Hm.
    + apply Sorted_inv in Hord as [Hord _].
      destruct (IH (merge top g) (stop ++ sg) segs') as (segs2 & H2 & Hc & Hs); [by apply Forall_app|done|by apply pools_merge|done|done|].
      exists segs2. split_and!; [done| |done]. rewrite Hc, reverse_cons, concat_app. cbn. by rewrite app_nil_r, <- app_assoc.
    + exists (sg :: stop :: segs'). split_and!; [by constructor; [|constructor]| |].
      * rewrite (reverse_cons (stop :: segs')), concat_app. cbn. by rewrite app_nil_r.
      * constructor; [done|]. constructor. by apply should_merge_false.
Qed.

Lemma pool_loop_spec gs stack segs :
  Forall (λ g, 0 < count g) gs → Forall (Forall (λ g, 0 < count g)) segs →
  Forall2 pools stack segs → Sorted (flip mean_lt) stack →
  ∃ segs', let stack' := foldl (λ stack group, settle group stack) stack gs in
    Forall2 pools stack' segs' ∧ concat (reverse segs') = concat (reverse segs) ++ gs ∧ Sorted (flip mean_lt) stack'.
Proof.
  revert stack segs. induction gs as [|g gs IH]; intros stack segs Hgs Hsegs Hst Hord; cbn [foldl].
  - exists segs. by rewrite app_nil_r.
  - apply Forall_cons in Hgs as [Hg Hgs].
    destruct (settle_spec g [g] stack segs) as (segs1 & H1 & Hc1 & Hs1); [by repeat constructor|done|apply pools_single|done..|].
    destruct (IH (settle g stack) segs1) as (segs2 & H2 & Hc2 & Hs2); [done| |done|done|].
    { apply Forall_forall. intros s Hs. apply Forall_forall. intros x Hx.
      assert (x ∈ concat (reverse segs1)) as Hin by (apply elem_of_concat; exists s; by rewrite elem_of_reverse).
      rewrite Hc1, elem_of_app in Hin. destruct Hin as [Hin|Hin%list_elem_of_singleton]; [|by subst].
      apply elem_of_concat in Hin as (s' & Hx' & Hs'). rewrite elem_of_reverse in Hs'.
      eapply Forall_forall in Hsegs; [|done]. by eapply Forall_forall in Hsegs. }
    exists segs2. split_and!; [done| |done]. by rewrite Hc2, Hc1, <- app_assoc.
Qed.

(** Pooling cuts the groups into segments and pools each; the means increase. *)
Lemma pool_spec gs :
  Forall (λ g, 0 < count g) gs →
  ∃ segs, Forall2 pools (pool gs) segs ∧ concat segs = gs ∧ Sorted mean_lt (pool gs).
Proof.
  intros Hgs. destruct (pool_loop_spec gs [] []) as (segs & H & Hc & Hs); [done|constructor..|].
  cbv zeta in *. exists (reverse segs). unfold pool. split_and!; [by apply Forall2_reverse|done|].
  by apply (Sorted_reverse (flip mean_lt)).
Qed.

(** * Optimality *)

Section optimal.
Local Open Scope Q_scope.

Definition qsum {A} (f : A → Q) (l : list A) : Q := foldr (λ x s, f x + s) 0 l.

Lemma qsum_cons {A} (f : A → Q) x l : qsum f (x :: l) = f x + qsum f l.
Proof. done. Qed.

Lemma qsum_app {A} (f : A → Q) l1 l2 : qsum f (l1 ++ l2) == qsum f l1 + qsum f l2.
Proof. induction l1 as [|x l1 IH]; cbn [app]; [cbn; ring|]. rewrite !qsum_cons, IH. ring. Qed.

Lemma qsum_ext {A} (f g : A → Q) l : (∀ x, x ∈ l → f x == g x) → qsum f l == qsum g l.
Proof.
  induction l as [|x l IH]; intros H; [reflexivity|]. rewrite !qsum_cons, (H x) by apply list_elem_of_here.
  rewrite IH; [reflexivity|]. intros y Hy. apply H. by apply list_elem_of_further.
Qed.

Lemma qsum_le {A} (f g : A → Q) l : (∀ x, x ∈ l → f x <= g x) → qsum f l <= qsum g l.
Proof.
  induction l as [|x l IH]; intros H; [apply Qle_refl|]. rewrite !qsum_cons.
  apply Qplus_le_compat; [apply H, list_elem_of_here|]. apply IH. intros y Hy. apply H. by apply list_elem_of_further.
Qed.

Lemma qsum_plus {A} (f g : A → Q) l : qsum (λ x, f x + g x) l == qsum f l + qsum g l.
Proof. induction l as [|x l IH]; [reflexivity || (cbn; ring)|]. rewrite !qsum_cons, IH. ring. Qed.

Lemma qsum_scale {A} (f : A → Q) a l : qsum (λ x, a * f x) l == a * qsum f l.
Proof. induction l as [|x l IH]; [reflexivity || (cbn; ring)|]. rewrite !qsum_cons, IH. ring. Qed.

Lemma qsum_total (f : block → Z) l : qsum (λ b, inject_Z (f b)) l == inject_Z (total f l).
Proof. induction l as [|x l IH]; [reflexivity|]. by rewrite total_cons, inject_Z_plus, qsum_cons, IH. Qed.

(** Abel summation: against weights whose suffixes are all nonnegative, a
    nondecreasing sequence sums to at least its lower bound times the total. *)
Lemma abel {A} (h c : A → Q) a l :
  (∀ pre suf, l = pre ++ suf → 0 <= qsum c suf) →
  StronglySorted (λ x y, h x <= h y) l → Forall (λ x, a <= h x) l →
  a * qsum c l <= qsum (λ x, h x * c x) l.
Proof.
  intros Hsuf Hs. revert a Hsuf. induction Hs as [|x l Hl IH Hx]; intros a Hsuf Ha; rewrite ?qsum_cons.
  - cbn. lra.
  - apply Forall_cons in Ha as [Hax _]. specialize (IH (h x)).
    assert (∀ pre suf, l = pre ++ suf → 0 <= qsum c suf) as Hsuf'.
    { intros pre suf ->. by apply (Hsuf (x :: pre) suf). }
    specialize (IH Hsuf' Hx). pose proof (Hsuf [] (x :: l) eq_refl) as H0. rewrite qsum_cons in H0.
    assert (a * (c x + qsum c l) <= h x * (c x + qsum c l)) by (apply Qmult_le_compat_r; done). lra.
Qed.

Definition mean_of (b : block) : Q := inject_Z (positive b) / inject_Z (count b).

(** the squared error of predicting [x] for every sample of a group *)
Definition group_error (x : Q) (g : block) : Q :=
  inject_Z (count g) * x * x - 2 * inject_Z (positive g) * x + inject_Z (positive g).

Lemma mean_of_spec b : (0 < count b)%Z → mean_of b * inject_Z (count b) == inject_Z (positive b).
Proof. intros. unfold mean_of. field. unfold Qeq; cbn. lia. Qed.

Lemma segment_optimal b seg (h : block → Q) :
  (0 < count b)%Z → pools b seg → StronglySorted (λ x y, h x <= h y) seg →
  qsum (λ g, group_error (mean_of b) g + inject_Z (count g) * ((h g - mean_of b) * (h g - mean_of b))) seg
    <= qsum (λ g, group_error (h g) g) seg.
Proof.
  intros Hb Hp Hs. pose proof (mean_of_spec b Hb) as Hm. set (m := mean_of b) in *. clearbody m.
  set (c := λ g : block, inject_Z (count g) * m - inject_Z (positive g)).
  assert (∀ l, qsum c l == inject_Z (total count l) * m - inject_Z (total positive l)) as Hc.
  { intros l. unfold c. induction l as [|x l IH]; [reflexivity|]. rewrite !total_cons, !inject_Z_plus, qsum_cons, IH. ring. }
  assert (0 < inject_Z (count b)) as Hb' by (change 0 with (inject_Z 0); by rewrite <- Zlt_Qlt).
  assert (0 <= qsum (λ g, h g * c g) seg) as Hab.
  { destruct seg as [|g0 seg]; [by apply Qle_refl|].
    eapply Qle_trans; [|apply (abel h c (h g0))].
    - rewrite Hc, <- (pools_count _ _ Hp), <- (pools_positive _ _ Hp). apply Qle_lteq; right. rewrite <- Hm. ring.
    - intros pre suf Hsplit. rewrite Hc. pose proof (pools_suffix _ _ Hp pre suf Hsplit) as Hz.
      rewrite Zle_Qle, !inject_Z_mult in Hz. apply (Qmult_le_r _ _ (inject_Z (count b))); [done|].
      rewrite <- Hm in Hz. nra.
    - done.
    - apply StronglySorted_inv in Hs as [_ Hs]. constructor; [apply Qle_refl|done]. }
  assert (qsum c seg == 0) as Hc0.
  { rewrite Hc, <- (pools_count _ _ Hp), <- (pools_positive _ _ Hp), <- Hm. ring. }
  assert (qsum (λ g, group_error (h g) g) seg ==
    qsum (λ g, group_error m g + inject_Z (count g) * ((h g - m) * (h g - m))) seg
    + (2 * qsum (λ g, h g * c g) seg + (- 2 * m) * qsum c seg)) as ->.
  { rewrite <- !qsum_scale, <- !qsum_plus. apply qsum_ext. intros g _. unfold c, group_error. ring. }
  rewrite Hc0. lra.
Qed.

(** The block means minimise the squared error among nondecreasing fits, and a
    fit is worse by at least its squared distance to them. *)
Lemma pooled_optimal blocks segs (m h : block → Q) :
  Forall2 pools blocks segs → Forall (λ b, (0 < count b)%Z) blocks →
  (∀ b seg g, (b, seg) ∈ zip blocks segs → g ∈ seg → m g == mean_of b) →
  StronglySorted (λ x y, h x <= h y) (concat segs) →
  qsum (λ g, group_error (m g) g + inject_Z (count g) * ((h g - m g) * (h g - m g))) (concat segs)
    <= qsum (λ g, group_error (h g) g) (concat segs).
Proof.
  induction 1 as [|b seg blocks segs Hb Hp IH]; intros Hpos Hm Hs; cbn [concat] in *; [apply Qle_refl|].
  apply Forall_cons in Hpos as [Hb0 Hpos]. apply StronglySorted_app in Hs as (_ & Hs1 & Hs2).
  rewrite !qsum_app. apply Qplus_le_compat.
  - eapply Qle_trans; [|by apply (segment_optimal b)].
    apply Qle_lteq; right. apply qsum_ext. intros g Hg. unfold group_error.
    rewrite (Hm b seg g); [reflexivity|apply list_elem_of_here|done].
  - apply IH; [done| |done]. intros b' seg' g Hz. apply Hm. by apply list_elem_of_further.
Qed.
End optimal.
