(* ===== verification/Calibration.v ===== *)
(** Calibration end to end: canonical scores, the aggregation of samples, the
    validation of artifacts, prediction, and the least-squares theorem of [fit]. *)

From Stdlib Require Import QArith Qabs Qround Lqa.
From S2P Require Import Prelude Decimals Ratios Isotonic Pooling.
Local Open Scope Z_scope.

(** * Canonical scores are one spelling per value *)

Lemma digit_char_value a : is_digit a = true → digit_char (digit_val a) = a ∧ (digit_val a < 10)%N.
Proof.
  unfold is_digit, digit_char, digit_val. intros H. btrue. split; [|lia].
  replace (48 + (N_of_ascii a - 48))%N with (N_of_ascii a) by lia. apply ascii_N_embedding.
Qed.

Lemma fraction_digits_spec k s :
  fraction_digits k s = true →
  ∃ l, s = string_of_digits l ∧ Forall (λ d, d < 10)%N l ∧ (1 ≤ length l ≤ S k)%nat ∧ (undigits l mod 10 ≠ 0)%N.
Proof.
  revert k. induction s as [|a s IH]; intros k H; cbn [fraction_digits] in H; [done|].
  destruct s as [|b s].
  - btrue. destruct (digit_char_value a) as [Ha Hlt]; [done|]. exists [digit_val a]. split_and!.
    + by rewrite string_of_digits_cons, Ha.
    + by repeat constructor.
    + cbn. lia.
    + cbn. lia.
    + apply N.eqb_neq in H0. assert (undigits [digit_val a] = digit_val a) as -> by (unfold undigits; cbn [fold_left]; lia).
      rewrite N.mod_small; lia.
  - destruct k as [|k]; [done|]. btrue. destruct (digit_char_value a) as [Ha Hlt]; [done|].
    destruct (IH k H0) as (l & Hs & Hl & Hlen & Hu). exists (digit_val a :: l). split_and!.
    + by rewrite string_of_digits_cons, Ha, Hs.
    + by constructor.
    + cbn. lia.
    + cbn. lia.
    + change (digit_val a :: l) with ([digit_val a] ++ l). rewrite undigits_app.
      destruct l as [|d l]; [cbn in Hlen; lia|]. cbn [length]. rewrite Nat2N.inj_succ, N.pow_succ_r'.
      replace (undigits [digit_val a] * (10 * 10 ^ N.of_nat (length l)) + undigits (d :: l))%N
        with (undigits (d :: l) + undigits [digit_val a] * 10 ^ N.of_nat (length l) * 10)%N by lia.
      by rewrite N.Div0.mod_add.
Qed.

Lemma undigits_inj l1 l2 :
  Forall (λ d, d < 10)%N l1 → Forall (λ d, d < 10)%N l2 → length l1 = length l2 → undigits l1 = undigits l2 → l1 = l2.
Proof.
  revert l2. induction l1 as [|d l1 IH] using rev_ind; intros l2 H1 H2 Hlen Hu.
  - by destruct l2.
  - destruct l2 as [|e l2 _] using rev_ind; [rewrite length_app in Hlen; cbn in Hlen; lia|].
    rewrite !length_app in Hlen. apply Forall_app in H1 as [H1 Hd], H2 as [H2 He].
    apply Forall_cons in Hd as [Hd _], He as [He _]. rewrite !undigits_snoc in Hu.
    cbn [length] in Hlen. assert (undigits l1 = undigits l2 ∧ d = e) as [Hu' ->].
    { clear - Hu Hd He. generalize dependent (undigits l1). generalize dependent (undigits l2). intros. lia. }
    by rewrite (IH l2) by (done || lia).
Qed.

(** the three shapes of a canonical score and the decimals they denote *)
Lemma score_match_cases s :
  score_match s = true →
  (s = "0"%string ∧ score_dec s = Dec false 0 0) ∨ (s = "1"%string ∧ score_dec s = Dec false 1 0) ∨
  ∃ l, s = ("0." +:+ string_of_digits l)%string ∧ score_dec s = Dec false (undigits l) (- Z.of_nat (length l)) ∧
    Forall (λ d, d < 10)%N l ∧ (1 ≤ length l)%nat ∧ (undigits l mod 10 ≠ 0)%N.
Proof.
  intros H. destruct (decide (s = "0"%string)) as [->|H0]; [by left|].
  destruct (decide (s = "1"%string)) as [->|H1]; [by right; left|]. right. right.
  assert (∃ t, s = String "0" (String "." t) ∧ fraction_digits 11 t = true) as (t & -> & Ht).
  { unfold score_match in H. repeat case_match; simplify_eq; eauto. }
  destruct (fraction_digits_spec _ _ Ht) as (l & -> & Hl & Hlen & Hu). exists l.
  split_and!; [done| |done|lia|done]. unfold score_dec.
  assert (read_plain (String "0" (String "." (string_of_digits l))) = read_unsigned false (plain_text [0%N] l)) as ->.
  { unfold plain_text. destruct l; [cbn in Hlen; lia|done]. }
  rewrite read_unsigned_digits by (done || by repeat constructor). done.
Qed.

Lemma score_dec_inj s t : score_match s = true → score_match t = true → deq (score_dec s) (score_dec t) → s = t.
Proof.
  intros Hs Ht Heq.
  assert (∀ u, score_match u = true → normal (score_dec u)) as Hn.
  { intros u [[_ ->]|[[_ ->]|(l & _ & -> & _ & _ & Hu)]]%score_match_cases; [by left|by right|by right]. }
  destruct (normal_unique _ _ (Hn s Hs) (Hn t Ht) Heq) as (Hc & He & _).
  apply score_match_cases in Hs as [[-> Hd]|[[-> Hd]|(l & -> & Hd & Hl & Hlen & Hu)]],
    Ht as [[-> Hd']|[[-> Hd']|(l' & -> & Hd' & Hl' & Hlen' & Hu')]];
    rewrite ?Hd, ?Hd' in Hc, He; cbn [d_coeff d_exp] in Hc, He; try done; try lia.
  do 2 f_equal. apply undigits_inj; [done|done|lia|done].
Qed.

#[export] Instance score_le_total : Total score_le.
Proof. intros a b. unfold score_le. rewrite !dec_leb_spec. apply Qle_total || (destruct (Qlt_le_dec (dq (score_dec a)) (dq (score_dec b))); [left; by apply Qlt_le_weak|by right]). Qed.
#[export] Instance score_le_trans : Transitive score_le.
Proof. intros a b c. unfold score_le. rewrite !dec_leb_spec. apply Qle_trans. Qed.

(** * Aggregation counts the samples of each score *)

Definition with_score (s : string) (samples : list (string * Z)) : list (string * Z) :=
  filter (λ x, x.1 = s) samples.

Definition count_of (s : string) (samples : list (string * Z)) : Z := Z.of_nat (length (with_score s samples)).
Definition labels_of (s : string) (samples : list (string * Z)) : Z := zsum (with_score s samples).*2.

Lemma tally_spec samples st s :
  default 0 ((foldl tally st samples).1 !! s) = default 0 (st.1 !! s) + count_of s samples ∧
  default 0 ((foldl tally st samples).2 !! s) = default 0 (st.2 !! s) + labels_of s samples.
Proof.
  revert st. induction samples as [|[t y] samples IH]; intros [cs ps]; cbn [foldl].
  - unfold count_of, labels_of; cbn. lia.
  - destruct (IH (tally (cs, ps) (t, y))) as [-> ->]. unfold tally, count_of, labels_of, with_score; cbn [fst snd].
    rewrite filter_cons. case_decide as Ht; cbn [fst] in Ht.
    + subst. rewrite !lookup_insert_eq. cbn [default length fmap list_fmap zsum foldr snd]. unfold zsum. cbn. lia.
    + rewrite !lookup_insert_ne by done. done.
Qed.

Definition sample_group (samples : list (string * Z)) (s : string) : block :=
  Block s s (count_of s samples) (labels_of s samples).

Definition ordered_scores (samples : list (string * Z)) : list string :=
  py_sorted score_le (dict_fromkeys samples.*1).

Lemma aggregate_spec samples : aggregate samples = sample_group samples <$> ordered_scores samples.
Proof.
  unfold aggregate, ordered_scores. pose proof (tally_spec samples (∅, ∅)) as H.
  destruct (foldl tally (∅, ∅) samples) as [cs ps]; cbn [fst snd] in *.
  apply list_fmap_ext. intros i s Hs. unfold sample_group. destruct (H s) as [-> ->]. by rewrite !lookup_empty.
Qed.

Lemma elem_of_ordered_scores s samples : s ∈ ordered_scores samples ↔ s ∈ samples.*1.
Proof. unfold ordered_scores. by rewrite elem_of_py_sorted, elem_of_dict_fromkeys. Qed.

Lemma NoDup_ordered_scores samples : NoDup (ordered_scores samples).
Proof. apply NoDup_py_sorted, NoDup_dict_fromkeys. Qed.

Lemma count_of_pos s samples : s ∈ samples.*1 → 0 < count_of s samples.
Proof.
  intros (x & -> & Hx)%list_elem_of_fmap. unfold count_of.
  destruct (with_score x.1 samples) eqn:He; [|cbn; lia].
  assert (x ∈ with_score x.1 samples) as Hin by (by apply list_elem_of_filter). rewrite He in Hin. by apply not_elem_of_nil in Hin.
Qed.

(** The distinct scores, strictly increasing. *)
Lemma ordered_scores_sorted samples :
  Forall (λ x, score_match x.1 = true) samples →
  StronglySorted (λ s t, dq (score_dec s) < dq (score_dec t))%Q (ordered_scores samples).
Proof.
  intros Hm. assert (Forall (λ s, score_match s = true) (ordered_scores samples)) as Hall.
  { apply Forall_forall. intros s Hs%elem_of_ordered_scores. apply list_elem_of_fmap in Hs as (x & -> & Hx).
    eapply Forall_forall in Hm; done. }
  pose proof (NoDup_ordered_scores samples) as Hnd. pose proof (py_sorted_sorted score_le (dict_fromkeys samples.*1)) as Hs.
  fold (ordered_scores samples) in Hs. induction Hs as [|s l Hl IH Hle]; [constructor|].
  apply NoDup_cons in Hnd as [Hnin Hnd]. apply Forall_cons in Hall as [Hsm Hall]. constructor; [by apply IH|].
  apply Forall_forall. intros t Ht. pose proof (proj1 (Forall_forall _ _) Hle t Ht) as Hst.
  unfold score_le in Hst. apply dec_leb_spec in Hst. apply Qle_lteq in Hst as [|Heq]; [done|].
  exfalso. apply Hnin. assert (s = t) as ->; [|done]. apply score_dec_inj; [done| |done].
  eapply Forall_forall in Hall; done.
Qed.

(** * Sums over samples are sums over groups *)

Section sums.
Local Open Scope Q_scope.

Lemma qsum_zero {A} (f : A → Q) l : (∀ x, x ∈ l → f x == 0) → qsum f l == 0.
Proof. intros H. rewrite (qsum_ext f (λ _, 0) l H). induction l as [|x l IH]; [reflexivity|]. rewrite qsum_cons, IH; [ring|]. intros y Hy. apply H. by apply list_elem_of_further. Qed.

Lemma qsum_indicator `{EqDecision A} (k : A) (v : Q) keys :
  NoDup keys → k ∈ keys → qsum (λ k', if decide (k = k') then v else 0) keys == v.
Proof.
  induction 1 as [|x keys Hx Hnd IH]; intros Hk; [by apply not_elem_of_nil in Hk|]. rewrite qsum_cons.
  apply elem_of_cons in Hk as [->|Hk].
  - rewrite decide_True by done. rewrite qsum_zero; [ring|]. intros y Hy. rewrite decide_False; [reflexivity|]. by intros ->.
  - rewrite IH by done. rewrite decide_False; [ring|]. by intros ->.
Qed.

Lemma qsum_partition (f : string * Z → Q) keys samples :
  NoDup keys → (∀ s, s ∈ samples.*1 → s ∈ keys) → qsum f samples == qsum (λ k, qsum f (with_score k samples)) keys.
Proof.
  intros Hnd. induction samples as [|x samples IH]; intros Hin.
  - symmetry. by apply qsum_zero.
  - rewrite qsum_cons, IH by (intros s Hs; apply Hin; by apply list_elem_of_further).
    rewrite <- (qsum_indicator x.1 (f x) keys) at 1; [|done|apply Hin, list_elem_of_here].
    rewrite <- qsum_plus. apply qsum_ext. intros k _. unfold with_score. rewrite filter_cons.
    case_decide; [by rewrite qsum_cons|ring].
Qed.

Definition valid_sample (x : string * Z) : Prop := score_match x.1 = true ∧ (x.2 = 0 ∨ x.2 = 1)%Z.

(** the squared error of predicting [h] on samples, and the squared distance of two fits *)
Definition squared_error (h : string → Q) (samples : list (string * Z)) : Q :=
  qsum (λ x, (h x.1 - inject_Z x.2) * (h x.1 - inject_Z x.2)) samples.
Definition squared_distance (h m : string → Q) (samples : list (string * Z)) : Q :=
  qsum (λ x, (h x.1 - m x.1) * (h x.1 - m x.1)) samples.

Lemma binary_error c (l : list (string * Z)) :
  Forall valid_sample l →
  qsum (λ x, (c - inject_Z x.2) * (c - inject_Z x.2)) l ==
  inject_Z (Z.of_nat (length l)) * c * c - 2 * inject_Z (zsum l.*2) * c + inject_Z (zsum l.*2).
Proof.
  induction 1 as [|[s y] l [_ Hy] Hl IH]; [cbn; ring|]. rewrite qsum_cons, IH. cbn [fst snd] in *.
  change (zsum ((s, y) :: l).*2) with (y + zsum l.*2)%Z. cbn [length]. rewrite Nat2Z.inj_succ, <- Z.add_1_r, !inject_Z_plus.
  destruct Hy as [-> | ->]; [change (inject_Z 0) with 0|]; change (inject_Z 1) with 1; ring.
Qed.

Lemma constant_sum c (l : list (string * Z)) : qsum (λ _, c) l == inject_Z (Z.of_nat (length l)) * c.
Proof. induction l as [|x l IH]; [cbn; ring|]. rewrite qsum_cons, IH. cbn [length]. rewrite Nat2Z.inj_succ, <- Z.add_1_r, inject_Z_plus. change (inject_Z 1) with 1. ring. Qed.

Lemma elem_of_with_score x s samples : x ∈ with_score s samples ↔ x.1 = s ∧ x ∈ samples.
Proof. unfold with_score. by rewrite list_elem_of_filter. Qed.

Lemma Forall_with_score P s samples : Forall P samples → Forall P (with_score s samples).
Proof. rewrite !Forall_forall. intros H x [_ Hx]%elem_of_with_score. by apply H. Qed.

(** the squared error over the samples is the groups' *)
Lemma squared_error_groups h samples :
  Forall valid_sample samples →
  squared_error h samples == qsum (λ g, group_error (h (lower_score g)) g) (sample_group samples <$> ordered_scores samples).
Proof.
  intros Hv. unfold squared_error. rewrite (qsum_partition _ (ordered_scores samples));
    [|apply NoDup_ordered_scores|by intros s; rewrite elem_of_ordered_scores].
  induction (ordered_scores samples) as [|s keys IH]; [reflexivity|]. rewrite fmap_cons, !qsum_cons, IH.
  apply Qplus_inj_r. rewrite (qsum_ext _ (λ x, (h s - inject_Z x.2) * (h s - inject_Z x.2)))
    by (intros x [-> _]%elem_of_with_score; reflexivity).
  rewrite binary_error by (by apply Forall_with_score). reflexivity.
Qed.

Lemma squared_distance_groups h m samples :
  squared_distance h m samples ==
  qsum (λ g, inject_Z (count g) * ((h (lower_score g) - m (lower_score g)) * (h (lower_score g) - m (lower_score g))))
    (sample_group samples <$> ordered_scores samples).
Proof.
  unfold squared_distance. rewrite (qsum_partition _ (ordered_scores samples));
    [|apply NoDup_ordered_scores|by intros s; rewrite elem_of_ordered_scores].
  induction (ordered_scores samples) as [|s keys IH]; [reflexivity|]. rewrite fmap_cons, !qsum_cons, IH.
  apply Qplus_inj_r. rewrite (qsum_ext _ (λ _, (h s - m s) * (h s - m s)))
    by (intros x [-> _]%elem_of_with_score; reflexivity).
  apply constant_sum.
Qed.
End sums.

(** * Ordered blocks and the step function they define *)

Definition lower_q (b : block) : Q := dq (score_dec (lower_score b)).
Definition upper_q (b : block) : Q := dq (score_dec (upper_score b)).

(** what [block_tuple] checks of one block *)
Record block_ok (b : block) : Prop := {
  block_scores : score_match (lower_score b) = true ∧ score_match (upper_score b) = true;
  block_range : (lower_q b <= upper_q b)%Q;
  block_count : 1 ≤ count b ≤ MAX_SAMPLES;
  block_positive : 0 ≤ positive b ≤ count b;
}.

(** [a] comes before [b]: below it and with a smaller mean *)
Definition before (a b : block) : Prop := (upper_q a < lower_q b)%Q ∧ (mean_of a < mean_of b)%Q.

Definition ladder (blocks : list block) : Prop := Forall block_ok blocks ∧ StronglySorted before blocks.

Lemma mean_lt_Q a b : 0 < count a → 0 < count b → mean_lt a b ↔ (mean_of a < mean_of b)%Q.
Proof.
  intros Ha Hb. unfold mean_lt, mean_of. destruct a as [? ? ca pa], b as [? ? cb pb]; cbn in *.
  destruct ca as [|ca|], cb as [|cb|]; try lia. unfold Qlt, Qdiv, Qmult, Qinv; cbn. lia.
Qed.

Lemma misordered_false a b :
  0 < count a → 0 < count b → misordered a b = false ↔ before a b.
Proof.
  intros Ha Hb. unfold misordered, before. rewrite orb_false_iff, should_merge_false, mean_lt_Q by done.
  assert (dec_leb (score_dec (lower_score b)) (score_dec (upper_score a)) = false ↔ (upper_q a < lower_q b)%Q) as ->; [|done].
  unfold upper_q, lower_q. rewrite <- not_true_iff_false, dec_leb_spec. split; [apply Qnot_le_lt|apply Qlt_not_le].
Qed.

Lemma before_strongly blocks : Forall block_ok blocks → Sorted before blocks → StronglySorted before blocks.
Proof.
  intros Hok Hs. induction Hs as [|b l Hs IH Hhd]; [constructor|].
  apply Forall_cons in Hok as [Hb Hok]. specialize (IH Hok). constructor; [done|].
  destruct Hhd as [|c l Hbc]; [constructor|]. apply StronglySorted_inv in IH as [_ Hc]. constructor; [done|].
  apply Forall_cons in Hok as [Hcok _]. eapply Forall_impl; [exact Hc|]. intros d [Hcd1 Hcd2]. destruct Hbc as [H1 H2].
  pose proof (block_range c Hcok). split; lra.
Qed.

Lemma check_order_spec blocks u :
  Forall block_ok blocks → check_order None blocks = Ok u ↔ StronglySorted before blocks.
Proof.
  intros Hok. destruct u.
  assert (∀ p l, Forall block_ok (p :: l) → check_order (Some p) l = Ok tt ↔ Sorted before (p :: l)) as Hgen.
  { intros p l. revert p. induction l as [|b l IH]; intros p Hpl; cbn [check_order].
    - split; [by repeat constructor|done].
    - pose proof Hpl as [Hp [Hb _]%Forall_cons]%Forall_cons. apply Forall_cons in Hpl as [_ Hbl].
      pose proof (misordered_false p b ltac:(destruct (block_count p Hp); lia) ltac:(destruct (block_count b Hb); lia)) as Hm.
      destruct (misordered p b).
      + split; [done|]. intros [_ Hpb%HdRel_inv%Hm]%Sorted_inv. done.
      + rewrite IH by done. split; [intros Hs; constructor; [done|constructor; by apply Hm]|by intros [? _]%Sorted_inv]. }
  assert (check_order None blocks = Ok tt ↔ Sorted before blocks) as ->.
  { destruct blocks as [|b l]; [split; [constructor|done]|]. by apply (Hgen b l). }
  split; [by apply before_strongly|apply StronglySorted_Sorted].
Qed.

(** ** [bisect_right] counts the blocks that start at or below the query *)

Lemma bisect_loop_spec fuel blocks x lo hi :
  (hi - lo < fuel)%nat → (lo ≤ hi ≤ length blocks)%nat → StronglySorted (λ a b, lower_q a <= lower_q b)%Q blocks →
  (∀ j b, (j < lo)%nat → blocks !! j = Some b → (lower_q b <= dq x)%Q) →
  (∀ j b, (hi ≤ j)%nat → blocks !! j = Some b → (dq x < lower_q b)%Q) →
  let i := bisect_loop fuel blocks x lo hi in
  (i ≤ length blocks)%nat ∧ ∀ j b, blocks !! j = Some b → (j < i)%nat ↔ (lower_q b <= dq x)%Q.
Proof.
  intros Hf Hr Hs. revert lo hi Hf Hr. induction fuel as [|fuel IH]; intros lo hi Hf Hr Hlo Hhi; [lia|]. cbn [bisect_loop].
  destruct (Nat.ltb_spec lo hi) as [Hlt|Hge]; cycle 1.
  { cbv zeta. split; [lia|]. intros j b Hj. split; [intros; by apply (Hlo j)|].
    intros Hle. destruct (Nat.lt_ge_cases j lo) as [|Hge']; [done|]. assert (hi ≤ j)%nat as Hj' by lia.
    pose proof (Hhi j b Hj' Hj). exfalso. lra. }
  set (mid := ((lo + hi) / 2)%nat). assert (lo ≤ mid < hi)%nat as Hmid.
  { unfold mid. split; [apply Nat.div_le_lower_bound; lia|apply Nat.Div0.div_lt_upper_bound; lia]. }
  destruct (lookup_lt_is_Some_2 blocks mid) as [m Hm]; [lia|]. cbv zeta. rewrite Hm.
  destruct (dec_ltb x (score_dec (lower_score m))) eqn:Hx.
  - apply dec_ltb_spec in Hx. apply IH; [lia|lia|done|]. intros j b Hj Hb.
    destruct (decide (j = mid)) as [->|]; [by simplify_eq|].
    pose proof (StronglySorted_lookup _ _ mid j m b Hs ltac:(lia) Hm Hb). cbn in *. unfold lower_q in *. lra.
  - assert (lower_q m <= dq x)%Q as Hx'.
    { apply Qnot_lt_le. intros Hbad. unfold lower_q in Hbad. apply dec_ltb_spec in Hbad. congruence. }
    apply IH; [lia|lia| |done]. intros j b Hj Hb.
    destruct (decide (j = mid)) as [->|]; [by simplify_eq|].
    pose proof (StronglySorted_lookup _ _ j mid b m Hs ltac:(lia) Hb Hm). cbn in *. lra.
Qed.

Lemma ladder_lower blocks : ladder blocks → StronglySorted (λ a b, lower_q a <= lower_q b)%Q blocks.
Proof.
  intros [Hok Hs]. induction Hs as [|b l Hs IH Hb]; [constructor|]. apply Forall_cons in Hok as [Hbok Hok].
  constructor; [by apply IH|]. eapply Forall_impl; [exact Hb|]. intros c [Hc _]. pose proof (block_range b Hbok). lra.
Qed.

(** the block the step function selects *)
Definition step_index (blocks : list block) (s : string) : nat := (bisect_right blocks (score_dec s) - 1)%nat.
Definition step_value (blocks : list block) (s : string) : Q :=
  match blocks !! step_index blocks s with Some b => mean_of b | None => 0%Q end.

Lemma bisect_right_spec blocks x :
  ladder blocks → (bisect_right blocks x ≤ length blocks)%nat ∧
    ∀ j b, blocks !! j = Some b → (j < bisect_right blocks x)%nat ↔ (lower_q b <= dq x)%Q.
Proof.
  intros Hl. apply bisect_loop_spec; [lia|lia|by apply ladder_lower|lia|].
  intros j b Hj Hb. apply lookup_lt_Some in Hb. lia.
Qed.

Lemma step_index_lookup blocks s : ladder blocks → blocks ≠ [] → ∃ b, blocks !! step_index blocks s = Some b.
Proof.
  intros Hl Hne. apply lookup_lt_is_Some. destruct (bisect_right_spec blocks (score_dec s) Hl) as [Hle _].
  unfold step_index. destruct blocks; [done|]. cbn [length] in *. lia.
Qed.

Lemma left_step_spec blocks s :
  ladder blocks → blocks ≠ [] →
  ∃ b, b ∈ blocks ∧ left_step blocks s = Ok (mean b) ∧ step_value blocks s = mean_of b.
Proof.
  intros Hl Hne. destruct (step_index_lookup blocks s Hl Hne) as [b Hb]. exists b.
  split; [by eapply list_elem_of_lookup_2|]. unfold left_step, step_value. unfold step_index in *. rewrite Hb.
  by destruct blocks.
Qed.

(** The selected block is the last one that starts at or below the score. *)
Lemma step_value_block blocks s i b :
  ladder blocks → blocks !! i = Some b → (lower_q b <= dq (score_dec s) <= upper_q b)%Q → step_value blocks s = mean_of b.
Proof.
  intros Hl Hb [Hlo Hup]. destruct (bisect_right_spec blocks (score_dec s) Hl) as [Hle Hsp].
  assert (bisect_right blocks (score_dec s) = S i) as Hi.
  { pose proof (proj2 (Hsp i b Hb) Hlo). destruct (decide (bisect_right blocks (score_dec s) = S i)) as [|Hne]; [done|].
    destruct (lookup_lt_is_Some_2 blocks (S i)) as [c Hc]; [lia|].
    pose proof (proj1 (Hsp (S i) c Hc) ltac:(lia)) as Hcs. destruct Hl as [_ Hs].
    destruct (StronglySorted_lookup _ _ i (S i) b c Hs ltac:(lia) Hb Hc). exfalso. lra. }
  unfold step_value, step_index. rewrite Hi. cbn [Nat.sub]. rewrite Nat.sub_0_r. by rewrite Hb.
Qed.

(** The step function is nondecreasing. *)
Lemma step_value_mono blocks s t : ladder blocks → score_le s t → (step_value blocks s <= step_value blocks t)%Q.
Proof.
  intros Hl Hst. destruct (decide (blocks = [])) as [->|Hne]; [apply Qle_refl|].
  destruct (step_index_lookup blocks s Hl Hne) as [b Hb], (step_index_lookup blocks t Hl Hne) as [c Hc].
  unfold step_value. rewrite Hb, Hc.
  destruct (bisect_right_spec blocks (score_dec s) Hl) as [_ Hs], (bisect_right_spec blocks (score_dec t) Hl) as [_ Ht].
  assert (step_index blocks s ≤ step_index blocks t)%nat as Hle.
  { unfold step_index in *. destruct (Nat.le_gt_cases (bisect_right blocks (score_dec s)) 1) as [|Hgt]; [lia|].
    apply (Hs _ b) in Hb as Hb'. pose proof (proj1 Hb' ltac:(lia)) as Hbs.
    unfold score_le in Hst. apply dec_leb_spec in Hst. pose proof (proj2 (Ht _ b Hb) ltac:(lra)). lia. }
  destruct (decide (step_index blocks s = step_index blocks t)) as [Heq|].
  - rewrite Heq in Hb. simplify_eq. apply Qle_refl.
  - destruct Hl as [_ Hso]. destruct (StronglySorted_lookup _ _ (step_index blocks s) (step_index blocks t) b c Hso ltac:(lia) Hb Hc) as [_ Hm]. by apply Qlt_le_weak.
Qed.

(** * The artifact of a fit *)

Lemma total_le_member f l b : (∀ x, x ∈ l → 0 ≤ f x) → b ∈ l → f b ≤ total f l.
Proof.
  intros H. induction l as [|x l IH]; intros Hb; [by apply not_elem_of_nil in Hb|]. rewrite total_cons.
  assert (0 ≤ total f l).
  { clear IH Hb. induction l as [|y l IH]; [done|]. rewrite total_cons. pose proof (H y ltac:(set_solver)).
    assert (0 ≤ total f l); [|lia]. apply IH. intros z Hz. apply H. set_solver. }
  apply elem_of_cons in Hb as [->|Hb]; [lia|]. pose proof (H x ltac:(set_solver)).
  assert (f b ≤ total f l); [|lia]. apply IH; [|done]. intros z Hz. apply H. set_solver.
Qed.

Lemma total_mono f g l : (∀ x, x ∈ l → f x ≤ g x) → total f l ≤ total g l.
Proof.
  induction l as [|x l IH]; intros H; [done|]. rewrite !total_cons. pose proof (H x ltac:(set_solver)).
  assert (total f l ≤ total g l); [|lia]. apply IH. set_solver.
Qed.

Lemma total_const_0 l : total (λ _, 0) l = 0.
Proof. induction l; [done|]. by rewrite total_cons. Qed.

Lemma total_concat f bs segs :
  Forall2 (λ b seg, f b = total f seg) bs segs → total f bs = total f (concat segs).
Proof. induction 1 as [|b seg bs segs Hb H IH]; [done|]. cbn [concat]. by rewrite total_app, total_cons, Hb, IH. Qed.

Lemma labels_range l : Forall valid_sample l → 0 ≤ zsum l.*2 ≤ Z.of_nat (length l).
Proof.
  induction 1 as [|[s y] l [_ Hy] Hl IH]; [done|]. cbn [fst snd] in *. cbn [length].
  change (zsum ((s, y) :: l).*2) with (y + zsum l.*2). lia.
Qed.

Lemma StronglySorted_concat {A} (R : relation A) segs seg : StronglySorted R (concat segs) → seg ∈ segs → StronglySorted R seg.
Proof.
  intros Hs Hseg. induction segs as [|s segs IH]; [by apply not_elem_of_nil in Hseg|].
  cbn [concat] in Hs. apply StronglySorted_app in Hs as (_ & H1 & H2). apply elem_of_cons in Hseg as [->|Hseg]; [done|by apply IH].
Qed.

Definition groups_of (samples : list (string * Z)) : list block := sample_group samples <$> ordered_scores samples.

(** Each sample is counted once. *)
Lemma groups_totals samples :
  total count (groups_of samples) = Z.of_nat (length samples) ∧ total positive (groups_of samples) = zsum samples.*2.
Proof.
  assert (∀ l : list (string * Z), qsum (λ x, inject_Z x.2) l == inject_Z (zsum l.*2))%Q as Hlab.
  { induction l as [|[s y] l IH]; [reflexivity|]. rewrite qsum_cons, IH.
    change (zsum ((s, y) :: l).*2) with (y + zsum l.*2). by rewrite inject_Z_plus. }
  assert (∀ (f : string * Z → Q) (w : block → Z),
    (∀ k, k ∈ ordered_scores samples → qsum f (with_score k samples) == inject_Z (w (sample_group samples k)))%Q →
    (qsum f samples == inject_Z (total w (groups_of samples)))%Q) as Hsum.
  { intros f w Hw. rewrite (qsum_partition f (ordered_scores samples));
      [|apply NoDup_ordered_scores|by intros s; rewrite elem_of_ordered_scores].
    rewrite <- qsum_total. unfold groups_of. induction (ordered_scores samples) as [|k l IH]; [reflexivity|].
    rewrite fmap_cons, !qsum_cons, (Hw k) by apply list_elem_of_here. rewrite IH; [reflexivity|].
    intros k' Hk'. apply Hw. by apply list_elem_of_further. }
  split; apply inject_Z_injective.
  - rewrite <- (Hsum (λ _, 1%Q)); [rewrite constant_sum; ring|]. intros k _. rewrite constant_sum. cbn [count sample_group]. unfold count_of. ring.
  - rewrite <- (Hsum (λ x, inject_Z x.2)); [apply Hlab|]. intros k _. apply Hlab.
Qed.

Lemma groups_ok samples :
  Forall valid_sample samples → Forall (λ g, 1 ≤ count g ∧ 0 ≤ positive g ≤ count g ∧ score_match (lower_score g) = true) (groups_of samples).
Proof.
  intros Hv. apply Forall_fmap, Forall_forall. intros s Hs%elem_of_ordered_scores. unfold compose; cbn [sample_group count positive lower_score].
  pose proof (count_of_pos s samples Hs). pose proof (labels_range (with_score s samples) (Forall_with_score _ _ _ Hv)).
  split_and!; unfold count_of, labels_of in *; try lia.
  apply list_elem_of_fmap in Hs as (x & -> & Hx). by destruct (proj1 (Forall_forall _ _) Hv x Hx).
Qed.

Lemma groups_sorted samples :
  Forall valid_sample samples → StronglySorted (λ a b, lower_q a < lower_q b)%Q (groups_of samples).
Proof.
  intros Hv. unfold groups_of. pose proof (ordered_scores_sorted samples) as Hs.
  ospecialize (Hs _); [eapply Forall_impl; [done|]; by intros x []|].
  induction Hs as [|s l Hs IH Hl]; [constructor|]. rewrite fmap_cons. constructor; [done|]. by apply Forall_fmap.
Qed.

Lemma group_bounds samples g : g ∈ groups_of samples → lower_score g = upper_score g.
Proof. by intros (s & -> & _)%list_elem_of_fmap. Qed.

(** the ends of a pooled segment *)
Lemma pools_ends b seg samples :
  pools b seg → Forall (λ g, g ∈ groups_of samples) seg →
  ∃ g g', head seg = Some g ∧ last seg = Some g' ∧ lower_q b = lower_q g ∧ upper_q b = lower_q g' ∧
    lower_score b = lower_score g ∧ upper_score b = lower_score g' ∧ g ∈ seg ∧ g' ∈ seg.
Proof.
  intros Hp Hin. pose proof (pools_lower _ _ Hp) as Hl. pose proof (pools_upper _ _ Hp) as Hu.
  destruct (head seg) as [g|] eqn:Hg; [|done]. destruct (last seg) as [g'|] eqn:Hg'; [|done]. cbn in Hl, Hu. simplify_eq.
  apply last_Some_elem_of in Hg' as Hg'in. apply head_Some_elem_of in Hg as Hgin. exists g, g'.
  unfold lower_q, upper_q. rewrite <- Hl, <- Hu.
  assert (lower_score g' = upper_score g') as Heq by (eapply group_bounds; eapply Forall_forall in Hin; [exact Hin|done]).
  by rewrite Heq.
Qed.

Section fitted.
Context (samples : list (string * Z)) (Hv : Forall valid_sample samples).

Lemma segment_groups segs seg : concat segs = groups_of samples → seg ∈ segs → Forall (λ g, g ∈ groups_of samples) seg.
Proof using Type. intros Hc Hs. apply Forall_forall. intros g Hg. rewrite <- Hc. apply elem_of_concat. eauto. Qed.

Lemma groups_member g :
  g ∈ groups_of samples → 1 ≤ count g ∧ 0 ≤ positive g ≤ count g ∧ score_match (lower_score g) = true.
Proof using Hv. intros Hg. by apply (proj1 (Forall_forall _ _) (groups_ok samples Hv)). Qed.

(** A pooled block passes the checks of one block. *)
Lemma pooled_block_ok b seg :
  pools b seg → Forall (λ g, g ∈ groups_of samples) seg → StronglySorted (λ x y, lower_q x < lower_q y)%Q seg →
  count b ≤ MAX_SAMPLES → block_ok b.
Proof using Hv.
  intros Hp Hin Hs Hmax. destruct (pools_ends b seg samples Hp Hin) as (g & g' & Hg & Hg' & Hl & Hu & Hls & Hus & Hgin & Hgin').
  assert (∀ x, x ∈ seg → 1 ≤ count x ∧ 0 ≤ positive x ≤ count x ∧ score_match (lower_score x) = true) as Hall.
  { intros x Hx. apply groups_member. by eapply Forall_forall in Hin. }
  split.
  - rewrite Hls, Hus. split; by apply Hall.
  - rewrite Hl, Hu. destruct seg as [|x seg]; [done|]. cbn in Hg. simplify_eq.
    apply StronglySorted_inv in Hs as [_ Hs]. apply elem_of_cons in Hgin' as [->|Hgin']; [apply Qle_refl|].
    eapply Forall_forall in Hs; [|exact Hgin']. by apply Qlt_le_weak.
  - split; [|done]. rewrite (pools_count _ _ Hp). etrans; [apply (Hall g Hgin)|].
    apply total_le_member; [|done]. intros x Hx. destruct (Hall x Hx). lia.
  - rewrite (pools_count _ _ Hp), (pools_positive _ _ Hp). split.
    + rewrite <- (total_const_0 seg). apply total_mono. intros x Hx. apply Hall, Hx.
    + apply total_mono. intros x Hx. apply Hall, Hx.
Qed.

(** The pooled blocks form a ladder with the samples' totals. *)
Lemma pooled_ladder :
  Z.of_nat (length samples) ≤ MAX_SAMPLES → samples ≠ [] →
  let blocks := pool (aggregate samples) in
  ladder blocks ∧ blocks ≠ [] ∧ total count blocks = Z.of_nat (length samples) ∧ total positive blocks = zsum samples.*2 ∧
  ∃ segs, Forall2 pools blocks segs ∧ concat segs = groups_of samples.
Proof using Hv.
  intros Hmax Hne. cbv zeta. rewrite aggregate_spec. fold (groups_of samples).
  destruct (pool_spec (groups_of samples)) as (segs & Hp & Hc & Hs).
  { eapply Forall_impl; [by apply groups_ok|]. intros g [? _]. cbn. lia. }
  set (blocks := pool (groups_of samples)) in *. clearbody blocks.
  destruct (groups_totals samples) as [Htc Htp].
  assert (total count blocks = Z.of_nat (length samples)) as Hbc.
  { rewrite <- Htc, <- Hc. apply total_concat. eapply Forall2_impl; [done|]. intros b seg Hb. apply (pools_count _ _ Hb). }
  assert (total positive blocks = zsum samples.*2) as Hbp.
  { rewrite <- Htp, <- Hc. apply total_concat. eapply Forall2_impl; [done|]. intros b seg Hb. apply (pools_positive _ _ Hb). }
  pose proof (groups_sorted samples Hv) as Hgs. rewrite <- Hc in Hgs.
  assert (Forall2 (λ b seg, pools b seg ∧ Forall (λ g, g ∈ groups_of samples) seg) blocks segs) as Hp2.
  { apply Forall2_same_length_lookup. split; [by eapply Forall2_length|]. intros i b seg Hb Hseg.
    split; [by eapply Forall2_lookup_lr|]. apply (segment_groups segs); [done|]. by eapply list_elem_of_lookup_2. }
  assert (∀ b, b ∈ blocks → 0 ≤ count b) as Hcnn.
  { intros b Hb. apply list_elem_of_lookup in Hb as [i Hi]. destruct (Forall2_lookup_l _ _ _ _ _ Hp2 Hi) as (seg & _ & Hb & Hin).
    rewrite (pools_count _ _ Hb), <- (total_const_0 seg). apply total_mono. intros x Hx.
    eapply Forall_forall in Hin; [|done]. apply groups_member in Hin. lia. }
  assert (Forall block_ok blocks) as Hok.
  { apply Forall_forall. intros b Hb. pose proof (total_le_member count blocks b Hcnn Hb) as Hle.
    apply list_elem_of_lookup in Hb as [i Hi]. destruct (Forall2_lookup_l _ _ _ _ _ Hp2 Hi) as (seg & Hseg & Hb & Hin).
    apply (pooled_block_ok b seg); [done|done| |lia].
    apply list_elem_of_lookup_2 in Hseg. by apply (StronglySorted_concat _ segs). }
  split_and!; [|intros ->; cbn in Hbc; by destruct samples|done|done|by exists segs].
  split; [done|]. apply before_strongly; [done|].
  clear Hbc Hbp Hcnn Hc. revert Hp Hs Hgs Hp2 Hok. intros Hp. induction Hp as [|b seg blocks segs Hb Hp IH]; intros Hs Hgs Hp2 Hok; [constructor|].
  apply Forall2_cons in Hp2 as [[_ Hin] Hp2]. apply Forall_cons in Hok as [Hbok Hok].
  cbn [concat] in Hgs. apply StronglySorted_app in Hgs as (Hcross & _ & Hgs). apply Sorted_inv in Hs as [Hs Hhd].
  constructor; [by apply IH|]. destruct Hp as [|c sc blocks segs Hc Hp]; [constructor|]. constructor.
  apply HdRel_inv in Hhd. apply Forall_cons in Hok as [Hcok _]. apply Forall2_cons in Hp2 as [[_ Hin'] _].
  destruct (pools_ends b seg samples Hb Hin) as (_ & g' & _ & _ & _ & Hu & _ & _ & _ & Hg').
  destruct (pools_ends c sc samples Hc Hin') as (g & _ & _ & _ & Hl & _ & _ & _ & Hg & _).
  split.
  - rewrite Hu, Hl. apply Hcross; [done|]. cbn [concat]. apply elem_of_app. by left.
  - apply mean_lt_Q; [destruct (block_count b Hbok); lia|destruct (block_count c Hcok); lia|done].
Qed.
End fitted.

(** * Objects: what the checks accept, and the one kind of error they raise *)

(** the call returns, or raises [CalibrationError] *)
Definition safe {A} (r : outcome A) : Prop := match r with Err (CalibrationError _) | Ok _ => True | _ => False end.

Lemma safe_bind {A B} (r : outcome A) (f : A → outcome B) : safe r → (∀ a, r = Ok a → safe (f a)) → safe (r ≫= f).
Proof. destruct r as [a|e]; cbn; [intros _ H; by apply H|done]. Qed.

Lemma safe_mapM {A B} (f : A → outcome B) l : (∀ x, x ∈ l → safe (f x)) → safe (mapM f l).
Proof.
  intros H. destruct (mapM f l) as [r|e] eqn:He; [done|]. apply mapM_Err in He as (x & Hx & He).
  specialize (H x Hx). by rewrite He in H.
Qed.

Lemma safe_fail {A} code : safe (fail code : outcome A).
Proof. done. Qed.

#[local] Hint Resolve safe_fail : core.

(** one step of a proof of [safe] *)
Ltac safe_step :=
  match goal with
  | |- safe (fail _) => done
  | |- safe (Ok _) => done
  | |- safe (mret _) => done
  | |- safe (_ ≫= _) => apply safe_bind; [|intros]
  | |- safe (if ?b then _ else _) => destruct b
  | |- safe (match ?x with _ => _ end) => destruct x
  end.

Lemma canonical_score_safe v c : safe (canonical_score v c).
Proof. destruct v; cbn; try done. by case_match. Qed.
Lemma bounded_count_safe v c : safe (bounded_count v c).
Proof. unfold bounded_count, actual_int. repeat safe_step. Qed.
Lemma parse_row_safe v : safe (parse_row v).
Proof.
  unfold parse_row. destruct (sequence v) as [[|a [|b [|]]]|]; try done.
  apply safe_bind; [apply canonical_score_safe|intros s _]. unfold actual_int. repeat safe_step.
Qed.
Lemma parse_samples_safe v : safe (parse_samples v).
Proof. unfold parse_samples. repeat safe_step. apply safe_mapM. intros; apply parse_row_safe. Qed.

Lemma block_tuple_safe v : safe (block_tuple v).
Proof.
  destruct v; try done. cbn [block_tuple]. safe_step; [done|].
  repeat first [apply canonical_score_safe | apply bounded_count_safe | safe_step].
Qed.

Lemma check_depth_safe v d : safe (check_depth v d).
Proof.
  revert v d. fix IH 1. intros [s|z|b| |l|l|items|] d; cbn [check_depth]; try done; (case_match; [done|]).
  - induction l as [|i l IHl]; [done|]. pose proof (IH i (d + 1)) as Hi. by destruct (check_depth i (d + 1)).
  - induction items as [|[k i] l IHl]; [done|]. pose proof (IH i (d + 1)) as Hi. by destruct (check_depth i (d + 1)).
Qed.

Lemma check_order_safe p l : safe (check_order p l).
Proof. revert p. induction l as [|b l IH]; intros p; cbn [check_order]; [done|]. safe_step; [done|apply IH]. Qed.

Lemma validate_artifact_safe a : safe (validate_artifact a).
Proof.
  unfold validate_artifact. apply safe_bind; [apply check_depth_safe|intros _ _].
  destruct a; try done. safe_step; [done|]. destruct (item _ _); try done.
  repeat first [apply bounded_count_safe | apply check_order_safe | apply safe_mapM; intros; apply block_tuple_safe
    | unfold parse_status; safe_step].
Qed.

Lemma canonical_score_Ok v c s : canonical_score v c = Ok s ↔ v = PStr s ∧ score_match s = true.
Proof. destruct v; cbn; try naive_solver. case_match; naive_solver congruence. Qed.

Lemma bounded_count_Ok v c z : bounded_count v c = Ok z ↔ v = PInt z ∧ 0 ≤ z ≤ MAX_SAMPLES.
Proof.
  unfold bounded_count, actual_int. destruct v; cbn; try naive_solver.
  destruct (Z.ltb_spec z0 0), (Z.ltb_spec MAX_SAMPLES z0); cbn; naive_solver lia.
Qed.

Lemma parse_row_Ok v x : parse_row v = Ok x → valid_sample x.
Proof.
  unfold parse_row. destruct (sequence v) as [[|a [|b [|]]]|]; try done. intros H. ok_inv.
  apply canonical_score_Ok in Hv as [-> Hs]. case_bool_decide as Hy; [|done]. simplify_eq. by split.
Qed.

Lemma parse_samples_Ok v samples :
  parse_samples v = Ok samples → Forall valid_sample samples ∧ Z.of_nat (length samples) ≤ MAX_SAMPLES.
Proof.
  unfold parse_samples. destruct (sequence v) as [rows|]; [|done].
  destruct (Z.ltb_spec MAX_SAMPLES (Z.of_nat (length rows))); [done|]. intros Hm%mapM_Ok. split.
  - apply Forall_forall. intros x Hx. apply list_elem_of_lookup in Hx as [i Hi].
    destruct (Forall2_lookup_r _ _ _ _ _ Hm Hi) as (r & _ & Hr). by eapply parse_row_Ok.
  - by rewrite <- (Forall2_length _ _ _ Hm).
Qed.

Lemma block_tuple_Ok v b : block_tuple v = Ok b → block_ok b.
Proof.
  destruct v; try done. cbn [block_tuple]. destruct (negb _); [done|]. intros Hb. ok_inv. case_match eqn:Hlt; [done|]. ok_inv.
  case_match eqn:Hc; [done|]. ok_inv. apply canonical_score_Ok in Hv as [_ Hs1], Hv0 as [_ Hs2].
  apply bounded_count_Ok in Hv1 as [_ Hn1], Hv2 as [_ Hn2]. apply orb_false_iff in Hc as [Hc1%Z.ltb_ge Hc2%Z.ltb_ge].
  split; cbn [lower_score upper_score count positive]; [done| |lia|lia].
  unfold lower_q, upper_q; cbn. apply Qnot_lt_le. intros Hbad%dec_ltb_spec. congruence.
Qed.

(** What an accepted artifact promises. *)
Lemma validate_artifact_Ok a status blocks :
  validate_artifact a = Ok (status, blocks) →
  (status = insufficient_data ∧ blocks = []) ∨ (status = fitted ∧ ladder blocks ∧ blocks ≠ []).
Proof.
  unfold validate_artifact. intros Ha. ok_inv. destruct a; try done. destruct (negb _); [done|].
  destruct (item "schema_version" items); try done. destruct (negb _); [done|]. ok_inv. destruct (negb _); [done|].
  destruct (item "blocks" items); try done. ok_inv.
  assert (Forall block_ok v3) as Hok.
  { apply mapM_Ok in Hv4. apply Forall_forall. intros b Hb. apply list_elem_of_lookup in Hb as [i Hi].
    destruct (Forall2_lookup_r _ _ _ _ _ Hv4 Hi) as (r & _ & Hr). by eapply block_tuple_Ok. }
  destruct v; case_match eqn:Hc; try done.
  - ok_inv. right. btrue. apply check_order_spec in Hv5; [|done]. by destruct blocks.
  - simplify_eq. left. btrue. by destruct blocks.
Qed.

(** * Means, in twelve places *)

Definition unit12 : Q := q10 (-12).

Lemma ratio12_spec a b :
  0 ≤ a ≤ b → 0 < b →
  ∃ d, ratio12 a b = Finite d ∧ d_exp d = -12 ∧ 0 ≤ sval d ∧
    (Qabs (dq d - inject_Z a / inject_Z b) <= (51 # 100) * unit12)%Q.
Proof.
  intros Hab Hb. destruct (ratio_places isolated eq_refl eq_refl a b false 1 12 Hab Hb) as (d1 & d2 & H1 & H2 & He & Hs & Hd);
    [reflexivity || (vm_compute; congruence)..|].
  exists d2. unfold ratio12. rewrite H1. change (Dec false 1 (Z.opp 12)) with QUANT in H2. rewrite H2. by split_and!.
Qed.

(** A finite decimal of twelve places within 0.51 units of a ratio between 0
    and 1 is itself between 0 and 1. *)
Lemma twelve_places_unit d q :
  d_exp d = -12 → (0 <= q <= 1)%Q → (Qabs (dq d - q) <= (51 # 100) * unit12)%Q → (0 <= dq d <= 1)%Q.
Proof.
  intros He Hq Hd%Qabs_Qle_condition. rewrite dq_unfold, He in *. fold unit12 in *.
  assert (unit12 == 1 # 1000000000000)%Q as Hu by reflexivity. rewrite Hu in *.
  assert (-1 < sval d < 1000000000001) as [Hlo Hhi].
  { rewrite !Zlt_Qlt. split; apply (Qmult_lt_r _ _ (1 # 1000000000000)); try reflexivity.
    - change (inject_Z (-1)) with (-1)%Q. lra.
    - change (inject_Z 1000000000001) with (1000000000001 # 1)%Q. lra. }
  assert (0 <= inject_Z (sval d) <= 1000000000000 # 1)%Q as [? ?].
  { change 0%Q with (inject_Z 0). change (1000000000000 # 1)%Q with (inject_Z 1000000000000). rewrite <- !Zle_Qle. lia. }
  split; [apply Qmult_le_0_compat; [done|discriminate]|].
  apply Qle_trans with ((1000000000000 # 1) * (1 # 1000000000000))%Q; [by apply Qmult_le_compat_r|discriminate].
Qed.

Lemma mean_of_unit b : block_ok b → (0 <= mean_of b <= 1)%Q.
Proof.
  intros [_ _ [Hc _] [Hp0 Hp]]. unfold mean_of.
  assert (0 < inject_Z (count b))%Q by (change 0%Q with (inject_Z 0); rewrite <- Zlt_Qlt; lia).
  split; [apply Qle_shift_div_l|apply Qle_shift_div_r]; try done.
  - rewrite Qmult_0_l. change 0%Q with (inject_Z 0). by rewrite <- Zle_Qle.
  - by rewrite Qmult_1_l, <- Zle_Qle.
Qed.

Lemma mean_spec b :
  block_ok b → ∃ d, mean b = Finite d ∧ d_exp d = -12 ∧ (0 <= dq d <= 1)%Q ∧ (Qabs (dq d - mean_of b) <= (51 # 100) * unit12)%Q.
Proof.
  intros Hb. destruct (block_count b Hb), (block_positive b Hb). destruct (ratio12_spec (positive b) (count b)) as (d & Hd & He & _ & Hq); [lia|lia|].
  exists d. split_and!; [done|done| | |done]; by apply (twelve_places_unit d (mean_of b)); [|by apply mean_of_unit|].
Qed.

(** Means of two blocks of a ladder are further apart than the rounding: the
    counts are at most 100000. *)
Lemma mean_gap a b :
  block_ok a → block_ok b → (mean_of a < mean_of b)%Q → (mean_of a + (1 # 10000000000) <= mean_of b)%Q.
Proof.
  intros [_ _ [Ha HA] _] [_ _ [Hb HB] _] Hlt. unfold mean_of, MAX_SAMPLES in *.
  destruct a as [? ? ca pa], b as [? ? cb pb]; cbn in *. destruct ca as [|ca|], cb as [|cb|]; try lia.
  unfold Qlt, Qle, Qdiv, Qmult, Qinv, Qplus in *; cbn in *. rewrite ?Z.mul_1_r in *. nia.
Qed.

(** * Round trip: what [fit] writes is what validation reads *)

Lemma item_here k v l : item k ((Some k, v) :: l) = v.
Proof. cbn. by rewrite decide_True. Qed.
Lemma item_next k k' v l : k' ≠ k → item k ((Some k', v) :: l) = item k l.
Proof. intros. cbn. rewrite decide_False; [done|congruence]. Qed.

(** look the items of a literal dict up *)
Ltac items := repeat first [rewrite item_here | rewrite item_next by done].

Lemma canonical_score_str s c : score_match s = true → canonical_score (PStr s) c = Ok s.
Proof. intros. by apply canonical_score_Ok. Qed.
Lemma bounded_count_int z c : 0 ≤ z ≤ MAX_SAMPLES → bounded_count (PInt z) c = Ok z.
Proof. intros. by apply bounded_count_Ok. Qed.

Definition public_block (b : block) : pyobj :=
  PDict [(Some "lower_score", PStr (lower_score b)); (Some "upper_score", PStr (upper_score b));
         (Some "count", PInt (count b)); (Some "positive", PInt (positive b))]%string.

Lemma block_tuple_public b : block_ok b → block_tuple (public_block b) = Ok b.
Proof.
  intros [[Hs1 Hs2] Hr [Hc1 Hc2] [Hp1 Hp2]]. unfold block_tuple, public_block.
  assert (keys_are _ BLOCK_KEYS = true) as -> by reflexivity. cbn [negb]. items.
  rewrite !canonical_score_str by done. cbn [mbind result_bind].
  assert (dec_ltb (score_dec (upper_score b)) (score_dec (lower_score b)) = false) as ->.
  { rewrite <- not_true_iff_false, dec_ltb_spec. unfold lower_q, upper_q in Hr. intros ?. lra. }
  rewrite !bounded_count_int by lia. cbn [mbind result_bind].
  destruct (Z.ltb_spec (count b) 1), (Z.ltb_spec (count b) (positive b)); try lia. by destruct b.
Qed.

Lemma check_depth_flat_list l d :
  d <= MAX_DEPTH → (∀ v, v ∈ l → check_depth v (d + 1) = Ok tt) → check_depth (PList l) d = Ok tt.
Proof.
  intros Hd Hl. cbn [check_depth]. destruct (Z.ltb_spec MAX_DEPTH d); [lia|]. induction l as [|v l IH]; [done|].
  rewrite (Hl v) by set_solver. apply IH. set_solver.
Qed.

Lemma check_depth_flat_dict (l : list (option string * pyobj)) d :
  d <= MAX_DEPTH → Forall (λ i, check_depth i.2 (d + 1) = Ok tt) l → check_depth (PDict l) d = Ok tt.
Proof.
  intros Hd Hl. cbn [check_depth]. destruct (Z.ltb_spec MAX_DEPTH d); [lia|].
  induction Hl as [|[k v] l Hv Hl IH]; [done|]. cbn [snd] in Hv. by rewrite Hv.
Qed.

Lemma validate_artifact_fitted n pos neg blocks :
  ladder blocks → blocks ≠ [] → 0 ≤ n ≤ MAX_SAMPLES → 0 ≤ pos → 0 ≤ neg → pos + neg = n → support n pos neg = true →
  total count blocks = n → total positive blocks = pos →
  validate_artifact (artifact_of fitted n pos neg blocks) = Ok (fitted, blocks).
Proof.
  intros [Hok Hs] Hne Hn Hp Hg Hsum Hen Hc Hpos. unfold validate_artifact, artifact_of.
  assert (check_depth (public_blocks blocks) 2 = Ok tt) as Hdepth.
  { apply check_depth_flat_list; [done|]. by intros v (b & -> & _)%list_elem_of_fmap. }
  set (o := PDict _). assert (check_depth o 1 = Ok tt) as ->.
  { apply check_depth_flat_dict; [done|]. repeat (constructor; [done|]). by constructor. }
  unfold o. cbn [mbind result_bind]. assert (keys_are _ ARTIFACT_KEYS = true) as -> by reflexivity. cbn [negb]. items.
  assert (bool_decide (SCHEMA = SCHEMA) = true) as -> by reflexivity. cbn [negb].
  assert (parse_status (PStr (status_text fitted)) = Ok fitted) as -> by reflexivity.
  rewrite !bounded_count_int by lia. cbn [mbind result_bind].
  destruct (Z.eqb_spec (pos + neg) n); [|done]. cbn [negb]. unfold public_blocks.
  assert (mapM block_tuple (public_block <$> blocks) = Ok blocks) as Hmap.
  { apply mapM_Ok. apply Forall2_fmap_l. apply Forall_Forall2_diag. eapply Forall_impl; [exact Hok|]. apply block_tuple_public. }
  unfold public_block in Hmap. rewrite Hmap. cbn [mbind result_bind].
  rewrite Hen, Hc, Hpos, !Z.eqb_refl. cbn [negb orb]. rewrite !orb_false_r.
  assert (check_order None blocks = Ok tt) as -> by (by apply check_order_spec). by destruct blocks.
Qed.

Lemma validate_artifact_insufficient n pos neg :
  0 ≤ n ≤ MAX_SAMPLES → 0 ≤ pos → 0 ≤ neg → pos + neg = n → support n pos neg = false →
  validate_artifact (artifact_of insufficient_data n pos neg []) = Ok (insufficient_data, []).
Proof.
  intros Hn Hp Hg Hsum Hen. unfold validate_artifact, artifact_of. set (o := PDict _).
  assert (check_depth o 1 = Ok tt) as -> by reflexivity. unfold o. cbn [mbind result_bind].
  assert (keys_are _ ARTIFACT_KEYS = true) as -> by reflexivity. cbn [negb]. items.
  assert (bool_decide (SCHEMA = SCHEMA) = true) as -> by reflexivity. cbn [negb].
  assert (parse_status (PStr (status_text insufficient_data)) = Ok insufficient_data) as -> by reflexivity.
  rewrite !bounded_count_int by lia. cbn [mbind result_bind].
  destruct (Z.eqb_spec (pos + neg) n); [|done]. cbn [negb]. unfold public_blocks. cbn [mapM mbind result_bind fmap list_fmap mret result_ret].
  by rewrite Hen.
Qed.

(** the ends of a sorted segment bound it *)
Lemma sorted_ends (seg : list block) x :
  StronglySorted (λ a b, lower_q a < lower_q b)%Q seg → x ∈ seg →
  ∀ g g', head seg = Some g → last seg = Some g' → (lower_q g <= lower_q x <= lower_q g')%Q.
Proof.
  intros Hs Hx g g' Hg Hg'. apply list_elem_of_lookup in Hx as [i Hi]. rewrite last_lookup in Hg'.
  destruct seg as [|y seg]; [done|]. cbn in Hg. simplify_eq.
  apply lookup_lt_Some in Hi as Hlt. split.
  - destruct i as [|i]; [cbn in Hi; simplify_eq; apply Qle_refl|].
    apply Qlt_le_weak, (StronglySorted_lookup _ _ 0 (S i) g x Hs); [lia|done|done].
  - destruct (decide (i = pred (length (g :: seg)))) as [->|]; [rewrite Hi in Hg'; simplify_eq; apply Qle_refl|].
    apply Qlt_le_weak, (StronglySorted_lookup _ _ i (pred (length (g :: seg))) x g' Hs); [lia|done|done].
Qed.

(** On the samples' scores the step function is the pooled means. *)
Lemma step_value_pooled samples blocks segs b seg g :
  ladder blocks → Forall2 pools blocks segs → concat segs = groups_of samples → Forall valid_sample samples →
  (b, seg) ∈ zip blocks segs → g ∈ seg → step_value blocks (lower_score g) = mean_of b.
Proof.
  intros Hl Hp Hc Hv Hz Hg. apply list_elem_of_lookup in Hz as [i Hi]. rewrite lookup_zip_with in Hi.
  destruct (blocks !! i) as [b'|] eqn:Hb; [|done]. destruct (segs !! i) as [seg'|] eqn:Hseg; [|done]. cbn in Hi. simplify_eq.
  pose proof (Forall2_lookup_lr _ _ _ _ _ _ Hp Hb Hseg) as Hpb. apply list_elem_of_lookup_2 in Hseg as Hin.
  destruct (pools_ends b seg samples Hpb (segment_groups samples segs seg Hc Hin)) as (x & y & Hx & Hy & Hlo & Hup & _).
  apply (step_value_block blocks _ i b Hl Hb). rewrite Hlo, Hup.
  apply (sorted_ends seg g); [|done..]. apply (StronglySorted_concat _ segs); [|done]. rewrite Hc. by apply groups_sorted.
Qed.

(** * Prediction *)

Lemma left_step_twelve blocks s :
  ladder blocks → blocks ≠ [] →
  ∃ d, left_step blocks s = Ok (Finite d) ∧ d_exp d = -12 ∧ (0 <= dq d <= 1)%Q ∧
    (Qabs (dq d - step_value blocks s) <= (51 # 100) * unit12)%Q.
Proof.
  intros Hl Hne. destruct (left_step_spec blocks s Hl Hne) as (b & Hb & Hstep & Hval).
  destruct (mean_spec b) as (d & Hd & He & Hu & Hq); [by apply (proj1 (Forall_forall _ _) (proj1 Hl))|].
  exists d. rewrite Hstep, Hd, Hval. done.
Qed.

(** Predictions keep the order of the scores, and differ when their blocks do. *)
Lemma left_step_mono blocks s t d d' :
  ladder blocks → score_le s t → left_step blocks s = Ok (Finite d) → left_step blocks t = Ok (Finite d') →
  (dq d <= dq d')%Q ∧ (dq d == dq d' → step_value blocks s == step_value blocks t)%Q.
Proof.
  intros Hl Hst Hd Hd'. assert (blocks ≠ []) as Hne by (intros ->; discriminate Hd).
  destruct (left_step_spec blocks s Hl Hne) as (b & Hb & Hs & Hvs), (left_step_spec blocks t Hl Hne) as (c & Hc & Ht & Hvt).
  pose proof (step_value_mono blocks s t Hl Hst) as Hle. rewrite Hvs, Hvt in *.
  assert (block_ok b) as Hbok by (by apply (proj1 (Forall_forall _ _) (proj1 Hl))).
  assert (block_ok c) as Hcok by (by apply (proj1 (Forall_forall _ _) (proj1 Hl))).
  destruct (mean_spec b Hbok) as (e & He & _ & _ & Hqe), (mean_spec c Hcok) as (e' & He' & _ & _ & Hqe'). simplify_eq.
  rewrite He in Hs. rewrite He' in Ht. rewrite Hs in Hd. rewrite Ht in Hd'. simplify_eq.
  apply Qabs_Qle_condition in Hqe, Hqe'. assert (unit12 == 1 # 1000000000000)%Q as Hu by reflexivity. rewrite Hu in *.
  apply Qle_lteq in Hle as [Hlt|Heq].
  - pose proof (mean_gap b c Hbok Hcok Hlt). split; [lra|]. intros. exfalso. lra.
  - assert (b = c) as <-.
    { destruct Hl as [_ Hs']. apply list_elem_of_lookup in Hb as [i Hi], Hc as [j Hj].
      destruct (Nat.lt_trichotomy i j) as [Hij|[->|Hij]]; [|congruence|].
      - destruct (StronglySorted_lookup _ _ i j b c Hs' Hij Hi Hj). exfalso. lra.
      - destruct (StronglySorted_lookup _ _ j i c b Hs' Hij Hj Hi). exfalso. lra. }
    rewrite He in He'. simplify_eq. split; [apply Qle_refl|reflexivity].
Qed.

Lemma predict_eq a s :
  predict a s = (validate_artifact a ≫= λ '(status, blocks), canonical_score s invalid_sample ≫= λ canonical,
    match status with insufficient_data => Ok (Finite dec_zero) | fitted => left_step blocks canonical end).
Proof. done. Qed.

(** * Properties *)

Definition positives (samples : list (string * Z)) : Z := zsum samples.*2.
Definition size (samples : list (string * Z)) : Z := Z.of_nat (length samples).
Definition enough (samples : list (string * Z)) : bool :=
  support (size samples) (positives samples) (size samples - positives samples).

Lemma enough_nonempty samples : enough samples = true → samples ≠ [].
Proof. intros H ->. discriminate H. Qed.

Lemma fit_eq o samples :
  parse_samples o = Ok samples →
  fit o = Ok (artifact_of (if enough samples then fitted else insufficient_data) (size samples) (positives samples)
    (size samples - positives samples) (if enough samples then pool (aggregate samples) else [])).
Proof. intros H. unfold fit. by rewrite H. Qed.

(** the fit of enough samples: a ladder that validation reads back *)
Lemma fit_validates o samples :
  parse_samples o = Ok samples → enough samples = true →
  let blocks := pool (aggregate samples) in
  let artifact := artifact_of fitted (size samples) (positives samples) (size samples - positives samples) blocks in
  fit o = Ok artifact ∧ validate_artifact artifact = Ok (fitted, blocks) ∧ ladder blocks ∧ blocks ≠ [].
Proof.
  intros Ho He. cbv zeta. destruct (parse_samples_Ok o samples Ho) as [Hv Hmax].
  pose proof (enough_nonempty samples He) as Hne.
  destruct (pooled_ladder samples Hv Hmax Hne) as (Hl & Hb & Htc & Htp & _).
  pose proof (labels_range samples Hv) as Hr. rewrite (fit_eq o samples Ho), He.
  split_and!; [done| |done|done].
  apply validate_artifact_fitted; unfold size, positives in *; try done; try lia.
Qed.

(** C38: [fit] is the isotonic least-squares regression of its samples.  With enough
    samples, the artifact's step function is nondecreasing; among all functions
    of the score that do not decrease on the samples' scores it has the least
    squared error, and any other is worse by at least its squared distance to
    it (so the minimum is unique on the samples); and [predict] returns its
    value to within 0.51 of the twelfth decimal place. *)
Theorem fit_least_squares o samples :
  parse_samples o = Ok samples → enough samples = true →
  ∃ artifact m, fit o = Ok artifact ∧
    (∀ s t, score_le s t → m s <= m t)%Q ∧
    (∀ h : string → Q, (∀ s t, s ∈ samples.*1 → t ∈ samples.*1 → score_le s t → h s <= h t)%Q →
      squared_error m samples + squared_distance h m samples <= squared_error h samples)%Q ∧
    (∀ s, score_match s = true → ∃ d, predict artifact (PStr s) = Ok (Finite d) ∧ d_exp d = -12 ∧
      (Qabs (dq d - m s) <= (51 # 100) * (1 # 1000000000000))%Q).
Proof.
  intros Ho He. destruct (fit_validates o samples Ho He) as (Hfit & Hval & Hl & Hb).
  destruct (parse_samples_Ok o samples Ho) as [Hv Hmax].
  destruct (pooled_ladder samples Hv Hmax (enough_nonempty samples He)) as (_ & _ & _ & _ & segs & Hp & Hc).
  set (blocks := pool (aggregate samples)) in *. eexists _, (step_value blocks). split; [exact Hfit|].
  split_and!.
  - intros s t Hst. by apply step_value_mono.
  - intros h Hh. rewrite squared_error_groups, squared_distance_groups, <- qsum_plus, squared_error_groups by done.
    fold (groups_of samples). rewrite <- Hc.
    apply (pooled_optimal blocks segs (λ g, step_value blocks (lower_score g)) (λ g, h (lower_score g))); [done| | |].
    + eapply Forall_impl; [exact (proj1 Hl)|]. intros b Hbok. destruct (block_count b Hbok). lia.
    + intros b seg g Hz Hg. by rewrite (step_value_pooled samples blocks segs b seg g).
    + rewrite Hc. unfold groups_of. pose proof (ordered_scores_sorted samples) as Hs.
      ospecialize (Hs _); [eapply Forall_impl; [exact Hv|]; by intros x []|].
      assert (∀ s, s ∈ ordered_scores samples → s ∈ samples.*1) as Hin by (intros s; by rewrite elem_of_ordered_scores).
      induction Hs as [|s l Hs IH Hlt]; [constructor|]. rewrite fmap_cons. constructor.
      * apply IH. intros t Ht. apply Hin. by apply list_elem_of_further.
      * apply Forall_fmap, Forall_forall. intros t Ht. cbn. apply Hh; [apply Hin, list_elem_of_here|by apply Hin, list_elem_of_further|].
        unfold score_le. apply dec_leb_spec, Qlt_le_weak. by apply (proj1 (Forall_forall _ _) Hlt).
  - intros s Hs. rewrite predict_eq, Hval. cbn [mbind result_bind]. rewrite canonical_score_str by done. cbn [mbind result_bind].
    destruct (left_step_twelve blocks s Hl Hb) as (d & -> & He' & _ & Hd). by exists d.
Qed.

(** the least-squares theorem at 180 samples *)
Lemma fit_least_squares_witness :
  ∃ samples artifact m, parse_samples sample_rows = Ok samples ∧ enough samples = true ∧ fit sample_rows = Ok artifact ∧
    (∀ s t, score_le s t → m s <= m t)%Q ∧
    ∃ d, predict artifact (PStr "0.5") = Ok (Finite d) ∧ (Qabs (dq d - m "0.5"%string) <= (51 # 100) * (1 # 1000000000000))%Q.
Proof.
  assert (is_ok (parse_samples sample_rows) && match parse_samples sample_rows with Ok l => enough l | _ => false end = true) as Hb
    by (vm_compute; reflexivity).
  destruct (parse_samples sample_rows) as [samples|] eqn:Hs; [|discriminate Hb]. cbn in Hb.
  destruct (fit_least_squares sample_rows samples Hs Hb) as (artifact & m & Hf & Hm & _ & Hp).
  exists samples, artifact, m. split; [reflexivity|]. split; [exact Hb|]. split; [exact Hf|]. split; [exact Hm|].
  destruct (Hp "0.5"%string eq_refl) as (d & Hd & _ & Hq). exists d. split; [exact Hd|exact Hq].
Defined.

(** Fitting and validating fit together.  [fit] fails only with a
    [CalibrationError], and only on samples it cannot read; every artifact it
    writes is accepted by validation, which reads back the status and the
    blocks; the status is [fitted] exactly when there are at least 100 samples
    with at least 20 of each outcome, the counts are those of the samples, and
    the blocks of a fit account for every sample. *)
Theorem fit_artifact_accepted o :
  match fit o with
  | Ok artifact =>
      ∃ samples blocks, parse_samples o = Ok samples ∧
        let status := if enough samples then fitted else insufficient_data in
        artifact = artifact_of status (size samples) (positives samples) (size samples - positives samples) blocks ∧
        validate_artifact artifact = Ok (status, blocks) ∧
        (enough samples = true ↔ 100 ≤ size samples ∧ 20 ≤ positives samples ∧ 20 ≤ size samples - positives samples) ∧
        (enough samples = true → total count blocks = size samples ∧ total positive blocks = positives samples)
  | Err e => ∃ code, e = CalibrationError code ∧ parse_samples o = Err e
  end.
Proof.
  destruct (parse_samples o) as [samples|e] eqn:Ho.
  - rewrite (fit_eq o samples Ho). exists samples. destruct (parse_samples_Ok o samples Ho) as [Hv Hmax].
    pose proof (labels_range samples Hv) as Hr.
    assert (enough samples = true ↔ 100 ≤ size samples ∧ 20 ≤ positives samples ∧ 20 ≤ size samples - positives samples) as Hen.
    { unfold enough, support, MIN_N, MIN_CLASS. rewrite !andb_true_iff, !Z.leb_le. tauto. }
    destruct (enough samples) eqn:He.
    + destruct (fit_validates o samples Ho He) as (_ & Hval & _).
      destruct (pooled_ladder samples Hv Hmax (enough_nonempty samples He)) as (_ & _ & Htc & Htp & _).
      exists (pool (aggregate samples)). by split_and!.
    + exists []. split; [done|]. split; [done|]. split; [|by split]. apply validate_artifact_insufficient; unfold size, positives in *; try lia. done.
  - pose proof (parse_samples_safe o) as Hs. rewrite Ho in Hs. unfold fit. rewrite Ho. cbn.
    destruct e as [code| |]; try done. by exists code.
Qed.

(** Prediction is safe, bounded and monotone on every artifact, whoever wrote
    it.  [predict] fails only with a [CalibrationError].  On an accepted fitted
    artifact it returns a twelve-place decimal between 0 and 1, within 0.51
    units of the last place of the observed rate of the selected block; a
    higher score never predicts less; and two scores with equal predictions
    have equal rates, so rounding merges no two blocks.  On an artifact without
    enough data it returns the unquantized zero. *)
Theorem predict_sound artifact score :
  match predict artifact score with
  | Err e => ∃ code, e = CalibrationError code
  | Ok p =>
      ∃ s status blocks, score = PStr s ∧ score_match s = true ∧ validate_artifact artifact = Ok (status, blocks) ∧
        match status with
        | insufficient_data => p = Finite dec_zero
        | fitted =>
            ∃ d, p = Finite d ∧ d_exp d = -12 ∧ (0 <= dq d <= 1)%Q ∧
              (Qabs (dq d - step_value blocks s) <= (51 # 100) * (1 # 1000000000000))%Q ∧
              ∀ t, score_match t = true → score_le s t → ∃ d', predict artifact (PStr t) = Ok (Finite d') ∧
                (dq d <= dq d')%Q ∧ (dq d == dq d' → step_value blocks s == step_value blocks t)%Q
        end
  end.
Proof.
  rewrite predict_eq. destruct (validate_artifact artifact) as [[status blocks]|e] eqn:Ha; cycle 1.
  { pose proof (validate_artifact_safe artifact) as Hs. rewrite Ha in Hs. destruct e as [code| |]; try done. by exists code. }
  cbn [mbind result_bind]. destruct (canonical_score score invalid_sample) as [s|e] eqn:Hc; cycle 1.
  { pose proof (canonical_score_safe score invalid_sample) as Hs. rewrite Hc in Hs. destruct e as [code| |]; try done. by exists code. }
  cbn [mbind result_bind]. apply canonical_score_Ok in Hc as [-> Hm].
  destruct (validate_artifact_Ok _ _ _ Ha) as [[-> ->]|(-> & Hl & Hne)]; [by exists s, insufficient_data, []|].
  destruct (left_step_twelve blocks s Hl Hne) as (d & Hd & He & Hu & Hq). rewrite Hd.
  exists s, fitted, blocks. split_and!; [done..|]. exists d. split; [done|]. split; [done|]. split; [done|]. split; [done|].
  intros t Ht Hst. rewrite predict_eq, Ha. cbn [mbind result_bind]. rewrite canonical_score_str by done. cbn [mbind result_bind].
  destruct (left_step_twelve blocks t Hl Hne) as (d' & Hd' & _). exists d'. split; [done|]. by apply (left_step_mono blocks).
Qed.
