(* ===== verification/CalibrationReport.v ===== *)
(** The evaluation report of a frozen calibration artifact: Brier score,
    expected calibration error and the ten reliability bins. *)

From Stdlib Require Import QArith Qabs Qround Lqa.
From S2P Require Import Prelude Decimals Ratios Isotonic Pooling Calibration.
Local Open Scope Z_scope.

(** * Specification *)

(** the probability [predict] assigns to a score *)
Definition predicted (blocks : list block) (s : string) : Q :=
  match left_step blocks s with Ok (Finite d) => dq d | _ => 0%Q end.

Definition bin_of (p : Q) : nat := Z.to_nat (Z.min 9 (Qfloor (p * 10))).

(** the samples whose prediction falls in a bin *)
Definition members (blocks : list block) (samples : list (string * Z)) (i : nat) : list (string * Z) :=
  filter (λ x, bin_of (predicted blocks x.1) = i) samples.

Section spec.
Local Open Scope Q_scope.

Definition size_q (samples : list (string * Z)) : Q := inject_Z (Z.of_nat (length samples)).
Definition sum_predicted (blocks : list block) (l : list (string * Z)) : Q := qsum (λ x, predicted blocks x.1) l.
Definition sum_labels (l : list (string * Z)) : Q := inject_Z (zsum l.*2).

(** total predicted minus total observed, bin by bin *)
Definition calibration_gap (blocks : list block) (samples : list (string * Z)) : Q :=
  qsum (λ i, Qabs (sum_predicted blocks (members blocks samples i) - sum_labels (members blocks samples i))) (seq 0 10).
End spec.

(** * One sample *)

Definition bins_ok (st : bins) : Prop := length (bin_counts st) = 10%nat ∧ length (bin_prob st) = 10%nat ∧ length (bin_pos st) = 10%nat.

Lemma update_at_Ok {A} (i : nat) (f : A → A) l : (i < length l)%nat → update_at (Z.of_nat i) f l = Ok (alter f i l).
Proof.
  intros H. unfold update_at. destruct (Z.ltb_spec (Z.of_nat i) 0); [lia|].
  destruct (Z.leb_spec 0 (Z.of_nat i)), (Z.ltb_spec (Z.of_nat i) (Z.of_nat (length l))); try lia. cbn. by rewrite Nat2Z.id.
Qed.

Lemma bin_of_range p : (0 <= p)%Q → (bin_of p < 10)%nat ∧ Z.of_nat (bin_of p) = Z.min 9 (Qfloor (p * 10)).
Proof.
  intros Hp. unfold bin_of. assert (0 ≤ Qfloor (p * 10)); [|lia].
  change 0 with (Qfloor 0). apply Qfloor_resp_le. apply Qmult_le_0_compat; [done|discriminate].
Qed.

(** A bin holds the predictions of its tenth of the unit interval, the last
    also 1. *)
Lemma bin_of_bounds p :
  (0 <= p <= 1)%Q → (inject_Z (Z.of_nat (bin_of p)) * (1 # 10) <= p)%Q ∧
  ((p < (inject_Z (Z.of_nat (bin_of p)) + 1) * (1 # 10))%Q ∨ bin_of p = 9%nat).
Proof.
  intros [Hp0 Hp1]. destruct (bin_of_range p Hp0) as [Hlt Heq]. rewrite Heq.
  pose proof (Qfloor_le (p * 10)) as Hf. pose proof (Qlt_floor (p * 10)) as Hg. split.
  - assert (inject_Z (Z.min 9 (Qfloor (p * 10))) <= inject_Z (Qfloor (p * 10)))%Q by (rewrite <- Zle_Qle; lia). lra.
  - destruct (Z.le_gt_cases 9 (Qfloor (p * 10))) as [Hge|Hlt9]; [right; lia|left].
    replace (Z.min 9 (Qfloor (p * 10))) with (Qfloor (p * 10)) by lia. rewrite inject_Z_plus in Hg. change (inject_Z 1) with 1%Q in Hg. lra.
Qed.

Definition nth_z (l : list Z) (i : nat) : Z := default 0 (l !! i).
Definition nth_q (l : list Q) (i : nat) : Q := default 0%Q (l !! i).

(** what one more sample does to the bins *)
Lemma add_prediction_spec st d s y :
  bins_ok st → (0 <= dq d)%Q →
  ∃ st', add_prediction st (Finite d, (s, y)) = Ok st' ∧ bins_ok st' ∧
    (brier_sum st' == brier_sum st + (dq d - inject_Z y) * (dq d - inject_Z y))%Q ∧
    ∀ i, (i < 10)%nat →
      nth_z (bin_counts st') i = nth_z (bin_counts st) i + (if decide (bin_of (dq d) = i) then 1 else 0) ∧
      (nth_q (bin_prob st') i == nth_q (bin_prob st) i + (if decide (bin_of (dq d) = i) then dq d else 0))%Q ∧
      nth_z (bin_pos st') i = nth_z (bin_pos st) i + (if decide (bin_of (dq d) = i) then y else 0).
Proof.
  intros (Hc & Hp & Ho) Hd. destruct (bin_of_range (dq d) Hd) as [Hlt Heq].
  assert (Qfloor (Qred (dq d) * 10) = Qfloor (dq d * 10)) as Hfl by (apply Qfloor_comp; by rewrite Qred_correct).
  unfold add_prediction, bin_index, fraction_of. cbn [mbind result_bind].
  rewrite Hfl, <- Heq, !update_at_Ok by lia. cbn [mbind result_bind]. eexists. split; [reflexivity|].
  split; [by unfold bins_ok; cbn; rewrite !length_alter|].
  cbn [brier_sum bin_counts bin_prob bin_pos]. split; [by rewrite !Qred_correct|].
  intros i Hi. unfold nth_z, nth_q. case_decide as Hb.
  - subst i. rewrite !list_lookup_alter_eq.
    destruct (lookup_lt_is_Some_2 (bin_counts st) (bin_of (dq d))) as [a ->]; [lia|].
    destruct (lookup_lt_is_Some_2 (bin_prob st) (bin_of (dq d))) as [b ->]; [lia|].
    destruct (lookup_lt_is_Some_2 (bin_pos st) (bin_of (dq d))) as [c ->]; [lia|]. cbn. split_and!; [done|by rewrite !Qred_correct|done].
  - rewrite !list_lookup_alter_ne by done. split_and!; [lia|ring|lia].
Qed.

(** * The loop over the samples *)

Section loop.
Context (blocks : list block) (Hl : ladder blocks) (Hne : blocks ≠ []).

Lemma predicted_spec s : ∃ d, left_step blocks s = Ok (Finite d) ∧ predicted blocks s = dq d ∧ (0 <= dq d <= 1)%Q.
Proof using Hl Hne.
  destruct (left_step_twelve blocks s Hl Hne) as (d & Hd & _ & Hu & _). exists d. unfold predicted. by rewrite Hd.
Qed.

Lemma predictions_loop samples st :
  bins_ok st →
  ∃ predictions st', mapM (left_step blocks) samples.*1 = Ok predictions ∧
    foldM add_prediction st (zip predictions samples) = Ok st' ∧ bins_ok st' ∧
    (brier_sum st' == brier_sum st + squared_error (predicted blocks) samples)%Q ∧
    ∀ i, (i < 10)%nat → let l := members blocks samples i in
      nth_z (bin_counts st') i = nth_z (bin_counts st) i + Z.of_nat (length l) ∧
      (nth_q (bin_prob st') i == nth_q (bin_prob st) i + sum_predicted blocks l)%Q ∧
      nth_z (bin_pos st') i = nth_z (bin_pos st) i + zsum l.*2.
Proof using Hl Hne.
  revert st. induction samples as [|[s y] samples IH]; intros st Hst.
  - exists [], st. split_and!; [done|done|apply Hst..| |]; [unfold squared_error; cbn; ring|].
    intros i _. cbv zeta. unfold members, sum_predicted; cbn. split_and!; [lia|ring|lia].
  - destruct (predicted_spec s) as (d & Hd & Hpd & Hu). destruct (add_prediction_spec st d s y Hst (proj1 Hu)) as (st1 & Hst1 & Hok1 & Hb1 & Hi1).
    destruct (IH st1 Hok1) as (ps & st2 & Hps & Hf & Hok2 & Hb2 & Hi2). exists (Finite d :: ps), st2.
    split; [cbn [fmap list_fmap fst mapM]; rewrite Hd; cbn [mbind result_bind]; by unfold mbind, result_bind in *; rewrite Hps|].
    split; [cbn [zip zip_with foldM]; by rewrite Hst1|]. split; [done|]. split.
    + rewrite Hb2, Hb1. unfold squared_error. rewrite qsum_cons. cbn [fst snd]. rewrite Hpd. ring.
    + intros i Hi. destruct (Hi1 i Hi) as (Hc1 & Hp1 & Ho1), (Hi2 i Hi) as (Hc2 & Hp2 & Ho2). cbv zeta in *.
      rewrite Hc2, Hp2, Ho2, Hc1, Hp1, Ho1. unfold members. rewrite filter_cons. cbn [fst]. rewrite Hpd.
      case_decide; [|split_and!; [lia|ring|lia]]. cbn [length]. unfold sum_predicted. rewrite qsum_cons. cbn [fst]. rewrite Hpd.
      change (zsum ((s, y) :: filter (λ x, bin_of (predicted blocks x.1) = i) samples).*2)
        with (y + zsum (filter (λ x, bin_of (predicted blocks x.1) = i) samples).*2).
      split_and!; [lia|ring|lia].
Qed.
End loop.

(** * The report's rows *)

Definition row_ok (blocks : list block) (samples : list (string * Z)) (i : nat) (row : bin_row) : Prop :=
  let l := members blocks samples i in
  row_index row = Z.of_nat i ∧ row_count row = Z.of_nat (length l) ∧
  match mean_probability row, positive_rate row with
  | None, None => l = []
  | Some m, Some r => l ≠ [] ∧ (m == sum_predicted blocks l / size_q l)%Q ∧ (r == sum_labels l / size_q l)%Q
  | _, _ => False
  end.

Lemma size_q_pos l : l ≠ [] → (0 < size_q l)%Q.
Proof. intros. unfold size_q. change 0%Q with (inject_Z 0). rewrite <- Zlt_Qlt. destruct l; [done|cbn; lia]. Qed.

Lemma gap_term p r c : (0 < c)%Q → (c * Qabs (p / c - r / c) == Qabs (p - r))%Q.
Proof.
  intros Hc. rewrite <- (Qabs_pos c) at 1 by lra. rewrite <- Qabs_Qmult. apply Qabs_wd. field. lra.
Qed.

Section rows.
Context (blocks : list block) (samples : list (string * Z)) (st : bins).
Hypothesis Hok : bins_ok st.
Hypothesis Hst : ∀ i, (i < 10)%nat → let l := members blocks samples i in
  nth_z (bin_counts st) i = Z.of_nat (length l) ∧ (nth_q (bin_prob st) i == sum_predicted blocks l)%Q ∧
  nth_z (bin_pos st) i = zsum l.*2.

Definition gap (i : nat) : Q :=
  Qabs (sum_predicted blocks (members blocks samples i) - sum_labels (members blocks samples i)).

Lemma report_bin_spec ece rows i :
  (i < 10)%nat →
  ∃ ece' row, report_bin st (ece, rows) i = Ok (ece', rows ++ [row]) ∧ row_ok blocks samples i row ∧ (ece' == ece + gap i)%Q.
Proof using Hok Hst.
  intros Hi. destruct Hok as (Hc & Hp & Ho). destruct (Hst i Hi) as (Hci & Hpi & Hoi). cbv zeta in *.
  unfold report_bin. unfold nth_z, nth_q in *.
  destruct (lookup_lt_is_Some_2 (bin_counts st) i) as [k Hk]; [lia|]. destruct (lookup_lt_is_Some_2 (bin_prob st) i) as [p Hpk]; [lia|].
  destruct (lookup_lt_is_Some_2 (bin_pos st) i) as [o Hok']; [lia|]. rewrite Hk, Hpk, Hok' in *. cbn [from_option id] in *. unfold gap.
  set (l := members blocks samples i) in *. destruct (Z.eqb_spec k 0) as [H0|H0].
  - assert (l = []) as Hl0 by (destruct l; [done|cbn in Hci; lia]). eexists ece, _. split; [reflexivity|]. split.
    + unfold row_ok. fold l. cbn. rewrite Hl0. by split_and!.
    + rewrite Hl0. assert (Qabs (sum_predicted blocks [] - sum_labels []) == 0)%Q as -> by reflexivity. ring.
  - assert (l ≠ []) as Hl0 by (intros Hnil; rewrite Hnil in Hci; cbn in Hci; lia). pose proof (size_q_pos l Hl0) as Hs.
    assert (inject_Z k == size_q l)%Q as Hks by (unfold size_q; by rewrite Hci).
    eexists _, _. split; [reflexivity|]. split.
    + unfold row_ok. fold l. cbn [row_index row_count mean_probability positive_rate].
      split; [done|]. split; [done|]. split; [done|]. rewrite !Qred_correct, Hks, Hpi. split; [reflexivity|].
      unfold sum_labels. by rewrite Hoi.
    + rewrite !Qred_correct, Hks, Hpi, Hoi. fold (sum_labels l). by rewrite gap_term.
Qed.

Lemma report_loop idx ece rows :
  Forall (λ i, i < 10)%nat idx →
  ∃ ece' rows', foldM (report_bin st) (ece, rows) idx = Ok (ece', rows ++ rows') ∧ Forall2 (row_ok blocks samples) idx rows' ∧
    (ece' == ece + qsum gap idx)%Q.
Proof using Hok Hst.
  intros Hidx. revert ece rows. induction Hidx as [|i idx Hi Hidx IH]; intros ece rows; cbn [foldM].
  - exists ece, []. rewrite app_nil_r. split_and!; [done|constructor|cbn; ring].
  - destruct (report_bin_spec ece rows i Hi) as (e1 & row & -> & Hrow & He1).
    destruct (IH e1 (rows ++ [row])) as (e2 & rows' & -> & Hrows & He2). exists e2, (row :: rows').
    rewrite <- app_assoc. split_and!; [done|by constructor|]. rewrite He2, He1, qsum_cons. ring.
Qed.
End rows.

(** the scores of an evaluated artifact *)
Lemma scores_spec blocks samples :
  ladder blocks → blocks ≠ [] → samples ≠ [] →
  ∃ brier ece rows, scores blocks samples = Ok (brier, ece, rows) ∧
    (brier == squared_error (predicted blocks) samples / size_q samples)%Q ∧
    (ece == calibration_gap blocks samples / size_q samples)%Q ∧
    Forall2 (row_ok blocks samples) (seq 0 10) rows.
Proof.
  intros Hl Hne Hs. destruct (predictions_loop blocks Hl Hne samples empty_bins) as (ps & st & Hps & Hf & Hok & Hb & Hi); [by split_and!|].
  destruct (report_loop blocks samples st Hok) with (idx := seq 0 10) (ece := 0%Q) (rows := @nil bin_row)
    as (ece & rows & Hr & Hrows & He).
  { intros i Hlt. destruct (Hi i Hlt) as (Hc & Hp & Ho). cbv zeta in *.
    assert (nth_z (bin_counts empty_bins) i = 0 ∧ nth_q (bin_prob empty_bins) i = 0%Q ∧ nth_z (bin_pos empty_bins) i = 0) as (Hc0 & Hp0 & Ho0).
    { unfold nth_z, nth_q, empty_bins; cbn [bin_counts bin_prob bin_pos]. rewrite !lookup_replicate_2 by done. done. }
    rewrite Hc, Hp, Ho, Hc0, Hp0, Ho0. split_and!; [lia|ring|lia]. }
  { apply Forall_forall. intros i Hin. apply elem_of_seq in Hin. lia. }
  eexists _, _, rows. unfold scores. rewrite Hps. cbn [mbind result_bind]. rewrite Hf. cbn [mbind result_bind]. rewrite Hr.
  cbn [mbind result_bind app]. split; [reflexivity|]. fold (size_q samples). split_and!; [| |done].
  - rewrite Hb. cbn [brier_sum empty_bins]. by rewrite Qplus_0_l.
  - rewrite He. unfold calibration_gap. fold (qsum (gap blocks samples) (seq 0 10)). by rewrite Qplus_0_l.
Qed.

(** * Bounds *)

Section bounds.
Local Open Scope Q_scope.
Context (blocks : list block) (Hl : ladder blocks) (Hne : blocks ≠ []).
Context (samples : list (string * Z)) (Hv : Forall valid_sample samples).

Lemma predicted_unit s : 0 <= predicted blocks s <= 1.
Proof using Hl Hne. destruct (predicted_spec blocks Hl Hne s) as (d & _ & -> & H). done. Qed.

Lemma error_term s y : valid_sample (s, y) → 0 <= (predicted blocks s - inject_Z y) * (predicted blocks s - inject_Z y) <= 1.
Proof using Hl Hne.
  intros [_ Hy]. cbn [snd] in Hy. pose proof (predicted_unit s).
  destruct Hy as [-> | ->]; [change (inject_Z 0) with 0|change (inject_Z 1) with 1]; nra.
Qed.

Lemma squared_error_bounds : 0 <= squared_error (predicted blocks) samples <= size_q samples.
Proof using Hl Hne Hv.
  unfold squared_error, size_q. split.
  - rewrite <- (qsum_zero (λ _ : string * Z, 0) samples) by reflexivity. apply qsum_le. intros [s y] Hx.
    apply error_term. by apply (proj1 (Forall_forall _ _) Hv).
  - rewrite <- (Qmult_1_r (inject_Z _)), <- constant_sum. apply qsum_le. intros [s y] Hx.
    apply error_term. by apply (proj1 (Forall_forall _ _) Hv).
Qed.

Lemma gap_bounds l : Forall valid_sample l → Qabs (sum_predicted blocks l - sum_labels l) <= size_q l.
Proof using Hl Hne.
  intros Hl'. apply Qabs_Qle_condition. unfold sum_labels, size_q. pose proof (labels_range l Hl') as [Hz0 Hz1].
  rewrite Zle_Qle in Hz0, Hz1. change (inject_Z 0) with 0 in Hz0.
  assert (0 <= sum_predicted blocks l <= inject_Z (Z.of_nat (length l))); [|lra]. unfold sum_predicted. split.
  - rewrite <- (qsum_zero (λ _ : string * Z, 0) l) by reflexivity. apply qsum_le. intros x _. apply predicted_unit.
  - rewrite <- (Qmult_1_r (inject_Z _)), <- constant_sum. apply qsum_le. intros x _. apply predicted_unit.
Qed.

(** every sample falls in one of the ten bins *)
Lemma members_total : qsum (λ i, size_q (members blocks samples i)) (seq 0 10) == size_q samples.
Proof using Hl Hne.
  clear Hv. induction samples as [|[s y] l IH]; [reflexivity|].
  destruct (bin_of_range (predicted blocks s)) as [Hlt _]; [apply predicted_unit|].
  assert (size_q ((s, y) :: l) == 1 + size_q l) as ->.
  { unfold size_q. cbn [length]. rewrite Nat2Z.inj_succ, <- Z.add_1_l, inject_Z_plus. reflexivity. }
  rewrite <- IH, <- (qsum_indicator (bin_of (predicted blocks s)) 1 (seq 0 10)); [|apply NoDup_seq|apply elem_of_seq; lia].
  rewrite <- qsum_plus. apply qsum_ext. intros i _. unfold members. rewrite filter_cons. cbn [fst].
  case_decide; [|ring]. unfold size_q. cbn [length]. rewrite Nat2Z.inj_succ, <- Z.add_1_l, inject_Z_plus. reflexivity.
Qed.

Lemma calibration_gap_bounds : 0 <= calibration_gap blocks samples <= size_q samples.
Proof using Hl Hne Hv.
  unfold calibration_gap. split.
  - rewrite <- (qsum_zero (λ _ : nat, 0) (seq 0 10)) by reflexivity. apply qsum_le. intros i _. apply Qabs_nonneg.
  - rewrite <- members_total. apply qsum_le. intros i _. apply gap_bounds. unfold members.
    apply Forall_forall. intros x [_ Hx]%list_elem_of_filter. by apply (proj1 (Forall_forall _ _) Hv).
Qed.
End bounds.

(** a rational of the unit interval, printed in twelve places *)
Lemma optional_text_places q :
  (0 <= q <= 1)%Q → ∃ d, optional_text (Some q) = PStr (format_f d) ∧ d_exp d = -12 ∧ (0 <= dq d <= 1)%Q ∧
    (Qabs (dq d - q) <= (51 # 100) * (1 # 1000000000000))%Q.
Proof.
  intros Hq. rewrite <- (Qred_correct q) in Hq. set (r := Qred q) in *.
  assert (inject_Z (Qnum r) / inject_Z (Zpos (Qden r)) == r)%Q as Hr by (by destruct r as [n d]; rewrite <- Qmake_Qdiv).
  assert (0 ≤ Qnum r ≤ Zpos (Qden r)) as Hn.
  { destruct Hq as [H0 H1]. unfold Qle in H0, H1; cbn in H0, H1. lia. }
  destruct (ratio12_spec (Qnum r) (Zpos (Qden r)) Hn eq_refl) as (d & Hd & He & _ & Hc). rewrite Hr in Hc.
  exists d. unfold optional_text, fraction12. fold r. rewrite Hd. split; [done|]. split; [done|].
  split; [by apply (twelve_places_unit d r)|]. rewrite <- (Qred_correct q). done.
Qed.

Lemma ratio_unit a b : (0 <= a <= b)%Q → (0 < b)%Q → (0 <= a / b <= 1)%Q.
Proof.
  intros Ha Hb. split; [apply Qle_shift_div_l|apply Qle_shift_div_r]; try done; [rewrite Qmult_0_l|rewrite Qmult_1_l]; lra.
Qed.

(** * Properties *)

(** An evaluation reports what it says.  [evaluate] fails only with a
    [CalibrationError].  For an accepted fitted artifact and at least 100
    samples with 20 of each outcome, the Brier score is the mean squared error
    of the predictions and the calibration error the mean over the ten bins of
    the gap between predicted and observed, both between 0 and 1 and printed to
    within 0.51 of the twelfth place; row [i] of the ten counts exactly the
    samples whose prediction lies in its tenth of the unit interval, with their
    mean prediction and their observed rate, or no values when it is empty.
    Otherwise no score is reported, only why. *)
Theorem evaluate_report artifact o :
  match evaluate artifact o with
  | Err e => ∃ code, e = CalibrationError code
  | Ok report =>
      ∃ status blocks samples, validate_artifact artifact = Ok (status, blocks) ∧ parse_samples o = Ok samples ∧
        let made := report_object (eval_status status (enough samples)) (size samples) (positives samples) (size samples - positives samples) in
        if decide (status = fitted ∧ enough samples = true) then
          ∃ brier ece rows, report = made true (Some brier) (Some ece) rows ∧
            (brier == squared_error (predicted blocks) samples / size_q samples)%Q ∧
            (ece == calibration_gap blocks samples / size_q samples)%Q ∧
            Forall (λ q : Q, ∃ d, optional_text (Some q) = PStr (format_f d) ∧ d_exp d = -12 ∧ (0 <= dq d <= 1)%Q ∧
              (Qabs (dq d - q) <= (51 # 100) * (1 # 1000000000000))%Q) [brier; ece] ∧
            Forall2 (row_ok blocks samples) (seq 0 10) rows ∧
            (∀ i s y, (s, y) ∈ members blocks samples i → (s, y) ∈ samples ∧
              (inject_Z (Z.of_nat i) * (1 # 10) <= predicted blocks s)%Q ∧
              ((predicted blocks s < (inject_Z (Z.of_nat i) + 1) * (1 # 10))%Q ∨ i = 9%nat))
        else report = made false None None []
  end.
Proof.
  unfold evaluate. destruct (validate_artifact artifact) as [[status blocks]|e] eqn:Ha; cycle 1.
  { pose proof (validate_artifact_safe artifact) as Hs. rewrite Ha in Hs. destruct e as [code| |]; try done. by exists code. }
  cbn [mbind result_bind]. destruct (parse_samples o) as [samples|e] eqn:Ho; cycle 1.
  { pose proof (parse_samples_safe o) as Hs. rewrite Ho in Hs. destruct e as [code| |]; try done. by exists code. }
  cbn [mbind result_bind]. unfold evaluation. fold (size samples) (positives samples) (enough samples).
  destruct (parse_samples_Ok o samples Ho) as [Hv _].
  destruct (validate_artifact_Ok _ _ _ Ha) as [[-> ->]|(-> & Hl & Hne)].
  { exists insufficient_data, [], samples. split; [done|]. split; [done|]. cbv zeta. by rewrite decide_False by naive_solver. }
  destruct (enough samples) eqn:He; cbn [eval_status].
  - destruct (scores_spec blocks samples Hl Hne (enough_nonempty samples He)) as (brier & ece & rows & Hsc & Hb & Hc & Hr).
    assert (bool_decide ("evaluated" = "evaluated"%string) = true) as -> by done. cbn [negb]. rewrite Hsc. cbn [mbind result_bind].
    exists fitted, blocks, samples. split; [done|]. split; [done|]. cbv zeta. rewrite decide_True by (by rewrite He).
    pose proof (size_q_pos samples (enough_nonempty samples He)) as Hs.
    exists brier, ece, rows. rewrite He. split; [done|]. split; [done|]. split; [done|]. split.
    { repeat constructor; apply optional_text_places; rewrite ?Hb, ?Hc; apply ratio_unit; try done;
        [by apply squared_error_bounds|by apply calibration_gap_bounds]. }
    split; [done|]. intros i s y [<- Hin]%list_elem_of_filter. split; [done|].
    apply bin_of_bounds. by apply predicted_unit.
  - exists fitted, blocks, samples. split; [done|]. split; [done|]. cbv zeta. rewrite decide_False by (rewrite He; naive_solver). by rewrite He.
Qed.
