(* ===== verification/Fusion.v ===== *)
(** [packages/retrieval/fel_retrieval/fusion.py]: concurrent lane execution,
    evidence dedupe, reciprocal-rank fusion and the reranker hook.

    A Python dict is the list of its items in insertion order ([Dicts]), so that
    iteration orders are explicit and can be shown not to matter.  Scores are
    decimals of the default context (28 digits). *)

From Stdlib Require Import QArith Qabs Lqa.
From S2P Require Import Prelude Dicts Decimals Ratios Periods Canonical.
Local Open Scope Z_scope.

(** [min(l, key=f)]: the first of the least elements *)
Fixpoint min_by {A} (le : A → A → bool) (x : A) (l : list A) : A :=
  match l with
  | [] => x
  | y :: l' => min_by le (if le x y then x else y) l'
  end.

(** * Lane candidates *)

Record lane_candidate := LaneCandidate {
  item_id : string; lane : string; lane_rank : Z; raw_score : string; kind : string;
  source_span_id : string; document_version_id : string; document_id : string; published_at : datetime;
  financial_fact_id : option string; table_id : option string; table_row_index : option Z;
}.

#[export] Instance lane_candidate_eq_dec : EqDecision lane_candidate.
Proof. solve_decision. Defined.

Definition LANE_DENSE : string := "dense".
Definition LANE_LEXICAL : string := "lexical".
Definition LANE_FACTS : string := "facts".
Definition LANE_TABLES : string := "tables".
Definition LANE_ORDER : list string := [LANE_DENSE; LANE_LEXICAL; LANE_FACTS; LANE_TABLES].
Definition RRF_K : Z := 60.
Definition RERANK_TOP_N : Z := 100.
Definition RRF_QUANT : decimal := Dec false 1 (-12).
Definition DEFAULT_CONTEXT : context := Context 28 999999 (-999999).

Inductive fusion_error :=
| LaneExecutionError (lane : string) (cause : string)
| ValueError_top_k
| MinOfEmpty       (** [ValueError] of [min] on no items *)
| KeyError
| IndexError
| DecimalSignal (s : signal).

#[export] Instance fusion_error_eq_dec : EqDecision fusion_error.
Proof. solve_decision. Defined.

Notation fusion := (result fusion_error).

Definition arith {A} (r : result signal A) : fusion A := map_err DecimalSignal r.

(** * Data of the result *)

Record contribution := Contribution {
  c_lane : string; c_lane_rank : Z; c_raw_score : string; rrf_contribution : string; variant_index : Z }.

Record fused_candidate := FusedCandidate {
  f_item_id : string; f_kind : string; contributions : list contribution; fused_score : string; fused_rank : Z;
  f_source_span_id : string; f_document_version_id : string; f_document_id : string; f_published_at : datetime;
  f_financial_fact_id : option string; f_table_id : option string; f_table_row_index : option Z }.

(** the [detail] dict of each kind of decision *)
Inductive detail :=
| MergeDetail (provenance : list string) (survivor : string) (merged : list string)
| FusionDetail (k : Z) (fused_count : Z)
| RerankDetail (top_n : Z) (reranker : string).

Record decision := RetrievalDecision {
  stage : string; code : string; item_ids : list string; decision_detail : detail; occurred_at : option string }.

Record fusion_result := FusionResult { candidates : list fused_candidate; decisions : list decision }.

(** ** [to_dict] and [to_canonical_json] *)

Definition opt_json {A} (f : A → json) (o : option A) : json := match o with Some a => f a | None => JNull end.

Definition contribution_json (c : contribution) : json :=
  JObj [("lane", JStr (c_lane c)); ("variant_index", JInt (variant_index c)); ("lane_rank", JInt (c_lane_rank c));
        ("raw_score", JStr (c_raw_score c)); ("rrf_contribution", JStr (rrf_contribution c))]%string.

Definition candidate_json (c : fused_candidate) : json :=
  JObj [("item_id", JStr (f_item_id c)); ("kind", JStr (f_kind c));
        ("contributions", JArr (map contribution_json (contributions c)));
        ("fused_score", JStr (fused_score c)); ("fused_rank", JInt (fused_rank c));
        ("source_span_id", JStr (f_source_span_id c)); ("document_version_id", JStr (f_document_version_id c));
        ("document_id", JStr (f_document_id c)); ("financial_fact_id", opt_json JStr (f_financial_fact_id c));
        ("table_id", opt_json JStr (f_table_id c)); ("table_row_index", opt_json JInt (f_table_row_index c))]%string.

Definition detail_json (d : detail) : json :=
  match d with
  | MergeDetail p s m => JObj [("provenance", JArr (map JStr p)); ("survivor", JStr s); ("merged", JArr (map JStr m))]
  | FusionDetail k n => JObj [("k", JInt k); ("fused_count", JInt n)]
  | RerankDetail n r => JObj [("top_n", JInt n); ("reranker", JStr r)]
  end%string.

Definition decision_json (d : decision) : json :=
  JObj [("stage", JStr (stage d)); ("code", JStr (code d)); ("item_ids", JArr (map JStr (item_ids d)));
        ("detail", detail_json (decision_detail d))]%string.

Definition result_json (r : fusion_result) : json :=
  JObj [("candidates", JArr (map candidate_json (candidates r))); ("decisions", JArr (map decision_json (decisions r)))]%string.

Definition to_canonical_json (r : fusion_result) : string := dumps (result_json r).

(** * Rerankers *)

(** The [Reranker] protocol; a call returns the candidates in a new order. *)
Record reranker := Reranker { name : string; rerank : list fused_candidate → Z → list fused_candidate }.

Definition NoopReranker : reranker := Reranker "noop" (λ candidates _, candidates).

(** * Concurrent lane execution *)

(** what a lane call does when its thread runs it *)
Notation lane_call := (result string (list lane_candidate)).

(** The pool: the outcome of each future, once it is done. *)
Notation pool_state := (gmap nat lane_call).

(** Some thread completes future [i]. *)
Definition complete (calls : list (string * lane_call)) (st : pool_state) (i : nat) : pool_state :=
  match calls !! i with Some (_, outcome) => <[i := outcome]> st | None => st end.

(** reading the futures in the order they were submitted, blocking until each is done *)
Definition collect (calls : list (string * lane_call)) (st : pool_state) : option (fusion (dict (list lane_candidate))) :=
  foldr (λ i k (results : dict (list lane_candidate)),
      match calls !! i, st !! i with
      | Some (lane, _), Some (Ok hits) => k (dict_set lane hits results)
      | Some (lane, _), Some (Err cause) => Some (Err (LaneExecutionError lane cause))
      | _, _ => None
      end) (λ results, Some (Ok results)) (seq 0 (length calls)) [].

(** [execute_lanes], for a schedule of completions; [None]: still waiting *)
Definition execute_lanes (calls : list (string * lane_call)) (schedule : list nat) : option (fusion (dict (list lane_candidate))) :=
  if bool_decide (calls = []) then Some (Ok []) else collect calls (foldl (complete calls) ∅ schedule).

(** * Dedupe *)

Definition row_text (o : option Z) : string := match o with Some z => str_of_Z z | None => "None" end.

Definition provenance_key (c : lane_candidate) : list string :=
  match financial_fact_id c with
  | Some f => ["fact"%string; f]
  | None =>
      match table_id c with
      | Some t => ["table"%string; t; row_text (table_row_index c)]
      | None => ["span"%string; source_span_id c]
      end
  end.

(** tuples of strings compare lexicographically *)
Fixpoint texts_leb (a b : list string) : bool :=
  match a, b with
  | [], _ => true
  | _ :: _, [] => false
  | x :: a', y :: b' => if decide (x = y) then texts_leb a' b' else bool_decide (String.le x y)
  end.
Definition texts_le (a b : list string) : Prop := texts_leb a b = true.
#[export] Instance texts_le_dec : RelDecision texts_le.
Proof. intros a b. unfold texts_le. apply _. Defined.

Definition best_rank (appearances : list lane_candidate) : fusion Z :=
  match lane_rank <$> appearances with
  | [] => Err MinOfEmpty
  | r :: rs => Ok (min_by Z.leb r rs)
  end.

(** the key of [min(item_ids, key=...)]: rank, then item id *)
Definition winner_leb (a b : Z * string) : bool :=
  if decide (a.1 = b.1) then bool_decide (String.le a.2 b.2) else a.1 <=? b.1.

Definition lookup_item (by_item : dict (list lane_candidate)) (iid : string) : fusion (list lane_candidate) :=
  from_option_err KeyError (dict_get iid by_item).

Definition keyed (by_item : dict (list lane_candidate)) (iid : string) : fusion (Z * string) :=
  apps ← lookup_item by_item iid; r ← best_rank apps; Ok (r, iid).

Definition winner_of (by_item : dict (list lane_candidate)) (ids : list string) : fusion string :=
  keys ← mapM (keyed by_item) ids;
  match keys with [] => Err MinOfEmpty | k :: ks => Ok (min_by winner_leb k ks).2 end.

Definition group_items (by_item : dict (list lane_candidate)) : fusion (list (list string * list string)) :=
  foldM (λ groups item,
    match item.2 with
    | [] => Err IndexError
    | c :: _ => Ok (dict_push (provenance_key c) item.1 groups)
    end) [] by_item.

Definition merge_decision (key : list string) (winner : string) (ids : list string) : decision :=
  RetrievalDecision "dedupe" "provenance_merge" (sorted_strings ids)
    (MergeDetail key winner (sorted_strings (filter (λ iid, iid ≠ winner) ids))) None.

Definition dedupe_group (by_item : dict (list lane_candidate)) (st : dict (list lane_candidate) * list decision)
    (group : list string * list string) : fusion (dict (list lane_candidate) * list decision) :=
  let '(survivors, decisions) := st in
  let '(key, ids) := group in
  winner ← winner_of by_item ids;
  apps ← lookup_item by_item winner;
  Ok (dict_set winner apps survivors,
      if (1 <? length ids)%nat then decisions ++ [merge_decision key winner ids] else decisions).

Definition evidence_le (a b : list string * list string) : Prop := texts_le a.1 b.1.
#[export] Instance evidence_le_dec : RelDecision evidence_le.
Proof. intros a b. unfold evidence_le. apply _. Defined.

Definition dedupe (by_item : dict (list lane_candidate)) : fusion (dict (list lane_candidate) * list decision) :=
  groups ← group_items by_item;
  foldM (dedupe_group by_item) ([], []) (py_sorted evidence_le groups).

(** * Reciprocal-rank fusion *)

Definition rrf_term (lane_rank : Z) : fusion decimal :=
  q ← arith (dec_div DEFAULT_CONTEXT (dec_of_Z 1) (dec_of_Z (RRF_K + lane_rank)));
  arith (dec_quantize DEFAULT_CONTEXT q RRF_QUANT).

(** [lane_priority.get(lane, len(LANE_ORDER))] *)
Fixpoint priority_from (lanes : list string) (l : string) : Z :=
  match lanes with [] => 0 | x :: lanes' => if decide (x = l) then 0 else 1 + priority_from lanes' l end.
Definition lane_priority (l : string) : Z := priority_from LANE_ORDER l.

Definition appearance_leb (a b : lane_candidate) : bool :=
  if decide (lane_priority (lane a) = lane_priority (lane b)) then lane_rank a <=? lane_rank b
  else lane_priority (lane a) <=? lane_priority (lane b).
Definition appearance_le (a b : lane_candidate) : Prop := appearance_leb a b = true.
#[export] Instance appearance_le_dec : RelDecision appearance_le.
Proof. intros a b. unfold appearance_le. apply _. Defined.

Definition add_contribution (st : decimal * list contribution) (app : lane_candidate) : fusion (decimal * list contribution) :=
  let '(total, contributions) := st in
  term ← rrf_term (lane_rank app);
  total ← arith (dec_add DEFAULT_CONTEXT total term);
  Ok (total, contributions ++ [Contribution (lane app) (lane_rank app) (raw_score app) (format_f term) 0]).

Record scored := Scored { s_total : decimal; s_item_id : string; fused : fused_candidate }.

Definition score_item (item : string * list lane_candidate) : fusion scored :=
  let '(iid, appearances) := item in
  let ordered := py_sorted appearance_le appearances in
  '(total, contributions) ← foldM add_contribution (dec_zero, []) ordered;
  match ordered with
  | [] => Err IndexError
  | representative :: _ =>
      Ok (Scored total iid
        (FusedCandidate iid (kind representative) contributions (format_f total) 0 (source_span_id representative)
           (document_version_id representative) (document_id representative) (published_at representative)
           (financial_fact_id representative) (table_id representative) (table_row_index representative)))
  end.

(** [-total], rounded in the context as Python's unary minus is *)
Definition sort_key (s : scored) : fusion (decimal * scored) :=
  k ← arith (dec_plus DEFAULT_CONTEXT (dec_neg (s_total s))); Ok (k, s).

Definition key_leb (a b : decimal * scored) : bool :=
  if dec_eqb a.1 b.1 then bool_decide (String.le (s_item_id a.2) (s_item_id b.2)) else dec_leb a.1 b.1.
Definition scored_le (a b : decimal * scored) : Prop := key_leb a b = true.
#[export] Instance scored_le_dec : RelDecision scored_le.
Proof. intros a b. unfold scored_le. apply _. Defined.

Definition with_rank (c : fused_candidate) (rank : Z) : fused_candidate :=
  FusedCandidate (f_item_id c) (f_kind c) (contributions c) (fused_score c) rank (f_source_span_id c)
    (f_document_version_id c) (f_document_id c) (f_published_at c) (f_financial_fact_id c) (f_table_id c) (f_table_row_index c).

Definition fuse_survivors (survivors : dict (list lane_candidate)) : fusion (list fused_candidate) :=
  entries ← mapM score_item survivors;
  keys ← mapM sort_key entries;
  Ok (imap (λ i k, with_rank (fused k.2) (Z.of_nat i + 1)) (py_sorted scored_le keys)).

(** * Grouping and the whole pipeline *)

Definition group_by_item (lane_results : dict (list lane_candidate)) : fusion (dict (list lane_candidate)) :=
  let known := filter (λ l, l ∈ lane_results.*1) LANE_ORDER in
  let extra := sorted_strings (filter (λ l, l ∉ LANE_ORDER) lane_results.*1) in
  foldM (λ by_item l,
    hits ← from_option_err KeyError (dict_get l lane_results);
    Ok (foldl (λ by_item c, dict_push (item_id c) c by_item) by_item hits)) [] (known ++ extra).

Definition fuse (lane_results : dict (list lane_candidate)) (fused_top_k : Z) (active_reranker : reranker) (stamp : option string)
  : fusion fusion_result :=
  if fused_top_k <? 0 then Err ValueError_top_k else
  by_item ← group_by_item lane_results;
  '(survivors, dedupe_decisions) ← dedupe by_item;
  ranked ← fuse_survivors survivors;
  let hook_input := take (Z.to_nat RERANK_TOP_N) ranked in
  let reranked := rerank active_reranker hook_input RERANK_TOP_N in
  let decisions := dedupe_decisions
    ++ [RetrievalDecision "fusion" "rrf_k60" (f_item_id <$> ranked) (FusionDetail RRF_K (Z.of_nat (length ranked))) None;
        RetrievalDecision "rerank" (name active_reranker) (f_item_id <$> hook_input) (RerankDetail RERANK_TOP_N (name active_reranker)) None] in
  let final := take (Z.to_nat fused_top_k) (reranked ++ drop (Z.to_nat RERANK_TOP_N) ranked) in
  let decisions := match stamp with
    | Some t => (λ d, RetrievalDecision (stage d) (code d) (item_ids d) (decision_detail d) (Some t)) <$> decisions
    | None => decisions
    end in
  Ok (FusionResult final decisions).
