(* ===== verification/FusionRanking.v ===== *)
(** What the fusion pipeline promises: grouping and dedupe keep the best item
    of every piece of evidence, the ranking is by reciprocal-rank score, and
    neither the order of the lanes nor the schedule of the threads matters. *)

From Stdlib Require Import QArith Qabs Lqa.
From S2P Require Import Prelude Dicts Decimals Ratios Periods Canonical Fusion.
Local Open Scope Z_scope.

(** * Orders *)

Section min_by.
Context {A : Type} (le : A → A → bool).
Context (Htotal : ∀ x y, le x y = true ∨ le y x = true) (Htrans : ∀ x y z, le x y = true → le y z = true → le x z = true).

Lemma min_by_spec x l : min_by le x l ∈ x :: l ∧ ∀ y, y ∈ x :: l → le (min_by le x l) y = true.
Proof using Htotal Htrans.
  revert x. induction l as [|z l IH]; intros x; cbn [min_by].
  - split; [apply list_elem_of_here|]. intros y ->%list_elem_of_singleton. by destruct (Htotal x x).
  - destruct (IH (if le x z then x else z)) as [Hin Hle]. split.
    + apply elem_of_cons in Hin as [->|Hin]; [destruct (le x z)|]; set_solver.
    + assert (le (min_by le (if le x z then x else z) l) (if le x z then x else z) = true) as Hm by (apply Hle, list_elem_of_here).
      intros y Hy. apply elem_of_cons in Hy as [->|[->|Hy]%elem_of_cons].
      * destruct (le x z) eqn:Hxz; [done|]. eapply Htrans; [exact Hm|]. by destruct (Htotal x z) as [H|H]; [congruence|].
      * destruct (le x z) eqn:Hxz; [by eapply Htrans|done].
      * apply Hle. by apply list_elem_of_further.
Qed.
End min_by.

Lemma winner_leb_spec a b : winner_leb a b = true ↔ a.1 < b.1 ∨ (a.1 = b.1 ∧ String.le a.2 b.2).
Proof.
  unfold winner_leb. case_decide as H; [rewrite bool_decide_eq_true|rewrite Z.leb_le]; [|lia].
  split; [by right|]. intros [?|[_ ?]]; [lia|done].
Qed.

Lemma winner_leb_total a b : winner_leb a b = true ∨ winner_leb b a = true.
Proof.
  rewrite !winner_leb_spec. destruct (Z.lt_trichotomy a.1 b.1) as [H|[H|H]]; [by left; left| |by right; left].
  destruct (total String.le a.2 b.2); [left|right]; by right.
Qed.

Lemma winner_leb_trans a b c : winner_leb a b = true → winner_leb b c = true → winner_leb a c = true.
Proof.
  rewrite !winner_leb_spec. intros [?|[? Hab]] [?|[? Hbc]]; [left; lia|left; lia|left; lia|].
  right. split; [lia|]. by trans b.2.
Qed.

Lemma winner_leb_antisym a b : winner_leb a b = true → winner_leb b a = true → a = b.
Proof.
  rewrite !winner_leb_spec. destruct a as [ra a], b as [rb b]; cbn. intros [?|[Heq Hab]] [?|[Heq' Hba]]; try lia. subst.
  f_equal. by apply (anti_symm String.le).
Qed.

#[export] Instance texts_le_total : Total texts_le.
Proof.
  intros a. unfold texts_le. induction a as [|x a IH]; intros [|y b]; cbn; auto.
  destruct (decide (x = y)) as [->|Hne]; [rewrite decide_True by done; apply IH|].
  rewrite (decide_False (P := y = x)) by done. rewrite !bool_decide_eq_true. apply (total String.le).
Qed.

#[export] Instance texts_le_trans : Transitive texts_le.
Proof.
  intros a. unfold texts_le. induction a as [|x a IH]; intros [|y b] [|z c]; cbn; try done.
  repeat case_decide; subst; rewrite ?bool_decide_eq_true; try done; try (by apply IH).
  - intros Hab Hbc. exfalso. match goal with H : _ ≠ _ |- _ => apply H end. by apply (anti_symm String.le).
  - intros Hab Hbc. by trans y.
Qed.

#[export] Instance appearance_le_total : Total appearance_le.
Proof.
  intros a b. unfold appearance_le, appearance_leb. destruct (decide (lane_priority (lane a) = lane_priority (lane b))) as [H|H].
  - rewrite decide_True by done. rewrite !Z.leb_le. lia.
  - rewrite decide_False by done. rewrite !Z.leb_le. lia.
Qed.

#[export] Instance appearance_le_trans : Transitive appearance_le.
Proof.
  intros a b c. unfold appearance_le, appearance_leb. repeat case_decide; rewrite ?Z.leb_le; lia.
Qed.

(** * Grouping *)

Definition lanes_of (lane_results : dict (list lane_candidate)) : list string :=
  filter (λ l, l ∈ lane_results.*1) LANE_ORDER ++ sorted_strings (filter (λ l, l ∉ LANE_ORDER) lane_results.*1).

(** every hit, lane by lane in the fixed order *)
Definition hits_of (lane_results : dict (list lane_candidate)) : list lane_candidate :=
  concat ((λ l, default [] (dict_get l lane_results)) <$> lanes_of lane_results).

Definition appearances (hits : list lane_candidate) (iid : string) : list lane_candidate := filter (λ c, item_id c = iid) hits.
Definition items_of (hits : list lane_candidate) : list string := dict_fromkeys (item_id <$> hits).

Lemma lanes_of_known lr l : l ∈ lanes_of lr → l ∈ lr.*1.
Proof.
  unfold lanes_of. rewrite elem_of_app, list_elem_of_filter, elem_of_sorted_strings, list_elem_of_filter. naive_solver.
Qed.

Lemma group_by_item_eq lr :
  group_by_item lr = Ok ((λ i, (i, appearances (hits_of lr) i)) <$> items_of (hits_of lr)).
Proof.
  unfold group_by_item, items_of, appearances. rewrite <- push_all. unfold hits_of. fold (lanes_of lr).
  assert (∀ l, l ∈ lanes_of lr → l ∈ lr.*1) as Hin by apply lanes_of_known.
  generalize (@nil (string * list lane_candidate)). induction (lanes_of lr) as [|l ls IH]; intros d; [done|]. cbn [foldM].
  destruct (dict_get l lr) as [cs|] eqn:Hl; cycle 1.
  { exfalso. apply dict_get_None in Hl. apply Hl, Hin, list_elem_of_here. }
  cbn [from_option_err mbind result_bind]. rewrite fmap_cons. cbn [concat]. rewrite foldl_app, Hl.
  apply IH. intros l' Hl'. apply Hin. by apply list_elem_of_further.
Qed.

(** Grouping depends only on what each lane returned, not on the dict's order. *)
Lemma hits_of_perm lr1 lr2 : NoDup lr1.*1 → lr1 ≡ₚ lr2 → hits_of lr1 = hits_of lr2.
Proof.
  intros Hnd Hp. unfold hits_of. assert (lanes_of lr1 = lanes_of lr2) as <-.
  { unfold lanes_of. f_equal.
    - apply list_filter_iff. intros l. by rewrite Hp.
    - apply sorted_strings_unique. by rewrite Hp. }
  f_equal. apply list_fmap_ext. intros i l _. by rewrite (dict_get_perm l lr1 lr2).
Qed.

Lemma appearances_ne hits i : i ∈ items_of hits → appearances hits i ≠ [].
Proof.
  unfold items_of. rewrite elem_of_dict_fromkeys. intros (c & -> & Hc)%list_elem_of_fmap Hn.
  assert (c ∈ appearances hits (item_id c)) as Hin by (by apply list_elem_of_filter). rewrite Hn in Hin. by apply not_elem_of_nil in Hin.
Qed.

(** * Dedupe *)

Definition key_of (apps : list lane_candidate) : list string := match apps with c :: _ => provenance_key c | [] => [] end.

(** the least lane rank of an item *)
Definition best_of (apps : list lane_candidate) : Z := match lane_rank <$> apps with [] => 0 | r :: rs => min_by Z.leb r rs end.

(** [i] beats [j]: a better best rank, then a smaller id *)
Definition beats (F : string → list lane_candidate) (i j : string) : Prop := winner_leb (best_of (F i), i) (best_of (F j), j) = true.

Section dedupe.
Context (ids : list string) (F : string → list lane_candidate).
Hypothesis Hnd : NoDup ids.
Hypothesis Hne : ∀ i, i ∈ ids → F i ≠ [].

Let by_item : dict (list lane_candidate) := (λ i, (i, F i)) <$> ids.

Definition group_of_key (k : list string) : list string := filter (λ i, key_of (F i) = k) ids.
Definition group_keys : list (list string) := dict_fromkeys ((λ i, key_of (F i)) <$> ids).

(** the survivor of a group *)
Definition winner (group : list string) : string :=
  match (λ i, (best_of (F i), i)) <$> group with [] => EmptyString | k :: ks => (min_by winner_leb k ks).2 end.

Lemma group_items_eq : group_items by_item = Ok ((λ k, (k, group_of_key k)) <$> group_keys).
Proof using Hne.
  unfold group_items, group_of_key, group_keys. rewrite <- (push_all (λ i, key_of (F i))). unfold by_item.
  generalize (@nil (list string * list string)). revert Hne. clear. induction ids as [|i l IH]; intros Hne d; [done|].
  rewrite fmap_cons. cbn [foldM foldl fst snd]. pose proof (Hne i (list_elem_of_here _ _)) as Hi.
  destruct (F i) as [|c apps] eqn:Hf; [done|]. cbn [key_of].
  apply IH. intros j Hj. apply Hne. by apply list_elem_of_further.
Qed.

Lemma keyed_eq i : i ∈ ids → keyed by_item i = Ok (best_of (F i), i).
Proof using Hne.
  intros Hi. unfold keyed, lookup_item, by_item. rewrite dict_get_fmap by done. cbn [from_option_err mbind result_bind].
  unfold best_rank, best_of. pose proof (Hne i Hi). destruct (F i); done.
Qed.

Lemma winner_of_eq group : group ≠ [] → (∀ i, i ∈ group → i ∈ ids) → winner_of by_item group = Ok (winner group).
Proof using Hne.
  intros Hg Hin. unfold winner_of, winner.
  assert (mapM (keyed by_item) group = Ok ((λ i, (best_of (F i), i)) <$> group)) as ->.
  { apply mapM_Ok. apply Forall2_fmap_r. apply Forall_Forall2_diag, Forall_forall. intros i Hi. by apply keyed_eq, Hin. }
  cbn [mbind result_bind]. by destruct group.
Qed.

Lemma winner_spec group : group ≠ [] → winner group ∈ group ∧ ∀ j, j ∈ group → beats F (winner group) j.
Proof using Type.
  intros Hg. unfold winner, beats. destruct group as [|i group]; [done|]. rewrite fmap_cons.
  destruct (min_by_spec winner_leb winner_leb_total winner_leb_trans (best_of (F i), i) ((λ i, (best_of (F i), i)) <$> group)) as [Hin Hle].
  rewrite <- (fmap_cons (λ i, (best_of (F i), i))) in Hin, Hle.
  apply list_elem_of_fmap in Hin as (w & Hw & Hin). rewrite Hw in *. cbn [snd]. split; [done|].
  intros j Hj. apply Hle. apply list_elem_of_fmap. by exists j.
Qed.

Lemma group_of_key_ids k i : i ∈ group_of_key k ↔ key_of (F i) = k ∧ i ∈ ids.
Proof using Type. unfold group_of_key. by rewrite list_elem_of_filter. Qed.

Lemma group_of_key_ne k : k ∈ group_keys → group_of_key k ≠ [].
Proof using Type.
  unfold group_keys. rewrite elem_of_dict_fromkeys. intros (i & -> & Hi)%list_elem_of_fmap Hn.
  assert (i ∈ group_of_key (key_of (F i))) as Hin by (by apply group_of_key_ids). rewrite Hn in Hin. by apply not_elem_of_nil in Hin.
Qed.

(** the groups in the order [_dedupe] visits them *)
Definition sorted_groups : list (list string * list string) := py_sorted evidence_le ((λ k, (k, group_of_key k)) <$> group_keys).

Lemma sorted_groups_spec g : g ∈ sorted_groups → g.2 = group_of_key g.1 ∧ g.1 ∈ group_keys.
Proof using Type. unfold sorted_groups. rewrite elem_of_py_sorted. by intros (k & -> & Hk)%list_elem_of_fmap. Qed.

Lemma sorted_groups_keys : NoDup sorted_groups.*1 ∧ ∀ k, k ∈ sorted_groups.*1 ↔ k ∈ group_keys.
Proof using Type.
  assert (sorted_groups.*1 ≡ₚ group_keys) as Hp.
  { unfold sorted_groups. rewrite py_sorted_perm. rewrite <- list_fmap_compose. by rewrite list_fmap_id. }
  split; [rewrite Hp; apply NoDup_dict_fromkeys|]. intros k. by rewrite Hp.
Qed.

(** An id is in one group only. *)
Lemma winner_key k : k ∈ group_keys → key_of (F (winner (group_of_key k))) = k ∧ winner (group_of_key k) ∈ ids.
Proof using Type.
  intros Hk. destruct (winner_spec (group_of_key k) (group_of_key_ne k Hk)) as [Hw _]. by apply group_of_key_ids.
Qed.

Definition survivors : dict (list lane_candidate) := (λ g, (winner g.2, F (winner g.2))) <$> sorted_groups.
Definition merges : list decision :=
  (λ g, merge_decision g.1 (winner g.2) g.2) <$> filter (λ g : list string * list string, (1 < length g.2)%nat) sorted_groups.

Lemma dedupe_loop gs done ds :
  NoDup gs.*1 → (∀ g, g ∈ gs → g.2 = group_of_key g.1 ∧ g.1 ∈ group_keys) →
  (∀ g, g ∈ gs → winner g.2 ∉ done.*1) →
  foldM (dedupe_group by_item) (done, ds) gs =
    Ok (done ++ ((λ g, (winner g.2, F (winner g.2))) <$> gs),
        ds ++ ((λ g, merge_decision g.1 (winner g.2) g.2) <$> filter (λ g : list string * list string, (1 < length g.2)%nat) gs)).
Proof using Hne.
  revert done ds. induction gs as [|[k g] gs IH]; intros dn ds Hg Hgs Hdn; [by rewrite !app_nil_r|].
  destruct (Hgs (k, g) (list_elem_of_here _ _)) as [Hgk Hk]; cbn [fst snd] in Hgk, Hk.
  cbn [fmap list_fmap fst] in Hg. apply NoDup_cons in Hg as [Hkn Hg].
  destruct (winner_key k Hk) as [Hwk Hwi]. rewrite <- Hgk in Hwk, Hwi.
  cbn [foldM dedupe_group]. rewrite winner_of_eq; [|by rewrite Hgk; apply group_of_key_ne|intros i; rewrite Hgk, group_of_key_ids; naive_solver].
  cbn [mbind result_bind]. unfold lookup_item, by_item at 1. rewrite dict_get_fmap by done. cbn [from_option_err mbind result_bind].
  rewrite dict_set_new by apply (Hdn (k, g)), list_elem_of_here.
  rewrite IH; [|done|intros g' Hg'; apply Hgs; by apply list_elem_of_further|].
  - rewrite fmap_cons, filter_cons. cbn [fst snd]. f_equal. f_equal; [by rewrite <- app_assoc|].
    destruct (Nat.ltb_spec 1 (length g)); [rewrite decide_True by done|rewrite decide_False by lia; done].
    by rewrite fmap_cons, <- app_assoc.
  - intros g' Hg'. rewrite fmap_app, elem_of_app. intros [Hin|Hin].
    + apply (Hdn g'); [by apply list_elem_of_further|done].
    + cbn in Hin. apply list_elem_of_singleton in Hin.
      destruct (Hgs g' (list_elem_of_further _ _ _ Hg')) as [Hg'k Hk'].
      destruct (winner_key g'.1 Hk') as [Hwk' _]. rewrite <- Hg'k, Hin, Hwk in Hwk'. apply Hkn. rewrite Hwk'.
      apply list_elem_of_fmap. by exists g'.
Qed.

Lemma dedupe_eq : dedupe by_item = Ok (survivors, merges).
Proof using Hne.
  unfold dedupe. rewrite group_items_eq. cbn [mbind result_bind]. fold sorted_groups.
  rewrite dedupe_loop; [done|apply sorted_groups_keys|apply sorted_groups_spec|]. intros g _. apply not_elem_of_nil.
Qed.

(** The survivors are the items no item with their evidence beats. *)
Lemma survivors_spec i apps :
  (i, apps) ∈ survivors ↔ i ∈ ids ∧ apps = F i ∧ ∀ j, j ∈ ids → key_of (F j) = key_of (F i) → beats F i j.
Proof using Hne.
  unfold survivors. rewrite list_elem_of_fmap. split.
  - intros (g & [= -> ->] & Hg). destruct (sorted_groups_spec g Hg) as [Hgk Hk]. destruct (winner_key g.1 Hk) as [Hwk Hwi].
    rewrite <- Hgk in Hwk, Hwi. split_and!; [done|done|]. intros j Hj Hkj. apply winner_spec.
    + rewrite Hgk. by apply group_of_key_ne.
    + rewrite Hgk. apply group_of_key_ids. by rewrite Hkj.
  - intros (Hi & -> & Hbest). exists (key_of (F i), group_of_key (key_of (F i))). cbn [snd].
    assert (key_of (F i) ∈ group_keys) as Hk.
    { unfold group_keys. apply elem_of_dict_fromkeys, list_elem_of_fmap. by exists i. }
    destruct (winner_spec (group_of_key (key_of (F i))) (group_of_key_ne _ Hk)) as [Hw Hb].
    apply group_of_key_ids in Hw as [Hwk Hwi]. specialize (Hb i ltac:(by apply group_of_key_ids)).
    specialize (Hbest _ Hwi Hwk). pose proof (winner_leb_antisym _ _ Hb Hbest) as [= Heq1 Heq2]. rewrite Heq2. split; [done|].
    unfold sorted_groups. rewrite elem_of_py_sorted. apply list_elem_of_fmap. by exists (key_of (F i)).
Qed.

Lemma survivors_NoDup : NoDup survivors.*1.
Proof using Hne.
  unfold survivors. rewrite <- list_fmap_compose. unfold compose. cbn [fst].
  destruct sorted_groups_keys as [Hn _]. pose proof sorted_groups_spec as Hspec. revert Hn Hspec.
  generalize sorted_groups. intros gs Hn Hspec. induction gs as [|g gs IH]; [constructor|].
  cbn [fmap list_fmap] in *. apply NoDup_cons in Hn as [Hg Hn]. constructor; [|apply IH; [done|intros; apply Hspec; by apply list_elem_of_further]].
  intros (g' & Heq & Hg')%list_elem_of_fmap. destruct (Hspec g (list_elem_of_here _ _)) as [H1 Hk1], (Hspec g' (list_elem_of_further _ _ _ Hg')) as [H2 Hk2].
  destruct (winner_key g.1 Hk1) as [Hw1 _], (winner_key g'.1 Hk2) as [Hw2 _]. rewrite <- H1 in Hw1. rewrite <- H2 in Hw2.
  apply Hg. apply list_elem_of_fmap. exists g'. split; [congruence|done].
Qed.

Lemma sorted_groups_elem g : g ∈ sorted_groups ↔ ∃ k, k ∈ group_keys ∧ g = (k, group_of_key k).
Proof using Type. unfold sorted_groups. rewrite elem_of_py_sorted, list_elem_of_fmap. naive_solver. Qed.

Lemma survivor_ids w : w ∈ survivors.*1 ↔ ∃ k, k ∈ group_keys ∧ w = winner (group_of_key k).
Proof using Type.
  unfold survivors. rewrite <- list_fmap_compose, list_elem_of_fmap. unfold compose; cbn [fst]. split.
  - intros (g & -> & (k & Hk & ->)%sorted_groups_elem). by exists k.
  - intros (k & Hk & ->). exists (k, group_of_key k). split; [done|]. apply sorted_groups_elem. by exists k.
Qed.

Lemma merges_elem d :
  d ∈ merges ↔ ∃ k, k ∈ group_keys ∧ (1 < length (group_of_key k))%nat ∧ d = merge_decision k (winner (group_of_key k)) (group_of_key k).
Proof using Type.
  unfold merges. rewrite list_elem_of_fmap. split.
  - intros (g & -> & [Hlen (k & Hk & ->)%sorted_groups_elem]%list_elem_of_filter). by exists k.
  - intros (k & Hk & Hlen & ->). exists (k, group_of_key k). split; [done|]. apply list_elem_of_filter. split; [done|].
    apply sorted_groups_elem. by exists k.
Qed.

Lemma item_key i : i ∈ ids → key_of (F i) ∈ group_keys.
Proof using Type. intros Hi. unfold group_keys. apply elem_of_dict_fromkeys, list_elem_of_fmap. by exists i. Qed.
End dedupe.

(** * Scores *)

Definition UNIT12 : Q := (1 # 1000000000000)%Q.

(** what [rrf_term] computes exactly *)
Definition rrf (lane_rank : Z) : Q := (1 / inject_Z (RRF_K + lane_rank))%Q.

Lemma rrf_term_spec r :
  1 ≤ r → ∃ d, rrf_term r = Ok d ∧ d_exp d = -12 ∧ 0 ≤ sval d ∧ (dq d <= 1)%Q ∧ (Qabs (dq d - rrf r) <= (51 # 100) * UNIT12)%Q.
Proof.
  intros Hr. destruct (ratio_places DEFAULT_CONTEXT eq_refl eq_refl 1 (RRF_K + r) false 1 12) as (d1 & d2 & H1 & H2 & He & Hs & Hd);
    [unfold RRF_K; lia|unfold RRF_K; lia|vm_compute; congruence..|].
  change (q10 (- (12))) with UNIT12 in Hd. change (inject_Z 1) with 1%Q in Hd. fold (rrf r) in Hd.
  exists d2. unfold rrf_term. rewrite H1. cbn [arith map_err mbind result_bind].
  change (Dec false 1 (Z.opp 12)) with RRF_QUANT in H2. rewrite H2. split_and!; [done|done|done| |done].
  apply Qabs_Qle_condition in Hd. assert (rrf r <= 1 # 2)%Q; [|unfold UNIT12 in *; lra].
  unfold rrf. apply Qle_shift_div_r; [change 0%Q with (inject_Z 0); rewrite <- Zlt_Qlt; unfold RRF_K; lia|].
  assert (inject_Z 2 <= inject_Z (RRF_K + r))%Q as H by (rewrite <- Zle_Qle; unfold RRF_K; lia). change (inject_Z 2) with 2%Q in H. lra.
Qed.

Section score.
Local Open Scope Q_scope.

Definition rrf_sum (apps : list lane_candidate) : Q := foldr (λ a s, rrf (lane_rank a) + s) 0 apps.

Lemma rrf_sum_perm l1 l2 : l1 ≡ₚ l2 → rrf_sum l1 == rrf_sum l2.
Proof. induction 1; cbn; [reflexivity|by rewrite IHPermutation|ring|by etransitivity]. Qed.
End score.

(** Adding a term of twelve places is exact while the total stays below 10^16. *)
Lemma add_exact_12 t d :
  (t = dec_zero ∨ d_exp t = -12) → 0 ≤ sval t → d_exp d = -12 → 0 ≤ sval d → (dq t + dq d < inject_Z (10 ^ 16))%Q →
  ∃ t', dec_add DEFAULT_CONTEXT t d = Ok t' ∧ d_exp t' = -12 ∧ 0 ≤ sval t' ∧ (dq t' == dq t + dq d)%Q.
Proof.
  intros Ht Hst He Hsd Hlt. pose proof (dq_add_exact t d) as Hdq. rewrite <- Hdq in Hlt.
  assert (d_exp (add_exact t d) = -12) as Hexp.
  { unfold add_exact; cbn [d_exp]. destruct Ht as [->|Ht]; [cbn; lia|lia]. }
  assert (0 ≤ sval (add_exact t d)) as Hpos.
  { unfold add_exact, sval, aligned; cbn [d_sign d_coeff]. set (e := Z.min (d_exp t) (d_exp d)).
    assert (0 ≤ sval t * 10 ^ (d_exp t - e)) by (apply Z.mul_nonneg_nonneg; [done|by apply Z.pow_nonneg]).
    assert (0 ≤ sval d * 10 ^ (d_exp d - e)) by (apply Z.mul_nonneg_nonneg; [done|by apply Z.pow_nonneg]).
    destruct (Z.eqb_spec (sval t * 10 ^ (d_exp t - e) + sval d * 10 ^ (d_exp d - e)) 0) as [Hz|Hz];
      [rewrite Hz; by destruct (d_sign t && d_sign d)|]. destruct (Z.ltb_spec (sval t * 10 ^ (d_exp t - e) + sval d * 10 ^ (d_exp d - e)) 0); lia. }
  assert (ndigits (d_coeff (add_exact t d)) ≤ 28) as Hnd.
  { apply ndigits_le_iff; [lia|]. rewrite dq_unfold, Hexp in Hlt.
    assert (sval (add_exact t d) < 10 ^ 28) as Hs.
    { rewrite Zlt_Qlt. apply (Qmult_lt_r _ _ (q10 (-12))); [apply q10_pos|]. eapply Qlt_le_trans; [exact Hlt|]. vm_compute. discriminate. }
    unfold sval in Hs, Hpos. change (pow10 28) with (N.of_nat 0 + 10000000000000000000000000000)%N.
    destruct (d_sign (add_exact t d)); lia. }
  exists (add_exact t d). split; [|by split_and!]. unfold dec_add. apply dec_fix_fits; [reflexivity|done|rewrite Hexp; vm_compute; split; discriminate|].
  unfold adjusted. rewrite Hexp. cbn [Emax DEFAULT_CONTEXT]. lia.
Qed.

(** what a contribution says of the appearance it comes from *)
Definition contribution_ok (app : lane_candidate) (c : contribution) : Prop :=
  c_lane c = lane app ∧ c_lane_rank c = lane_rank app ∧ c_raw_score c = raw_score app ∧ variant_index c = 0 ∧
  ∃ d, rrf_contribution c = format_f d ∧ d_exp d = -12 ∧ (Qabs (dq d - rrf (lane_rank app)) <= (51 # 100) * UNIT12)%Q.

Lemma contributions_loop apps t cs m :
  Forall (λ a, 1 ≤ lane_rank a) apps → (t = dec_zero ∨ d_exp t = -12) → 0 ≤ sval t → (dq t <= inject_Z m)%Q →
  m + Z.of_nat (length apps) < 10 ^ 16 →
  ∃ t' cs', foldM add_contribution (t, cs) apps = Ok (t', cs ++ cs') ∧ (t' = dec_zero ∨ d_exp t' = -12) ∧ 0 ≤ sval t' ∧
    (dq t' <= inject_Z (m + Z.of_nat (length apps)))%Q ∧ Forall2 contribution_ok apps cs' ∧
    (Qabs (dq t' - (dq t + rrf_sum apps)) <= inject_Z (Z.of_nat (length apps)) * ((51 # 100) * UNIT12))%Q.
Proof.
  intros Hr. revert t cs m. induction Hr as [|a apps Ha Hr IH]; intros t cs m Ht Hs Hm Hb.
  - exists t, []. rewrite app_nil_r. split_and!; [done|done|done|by rewrite Z.add_0_r|constructor|].
    cbn [rrf_sum foldr length]. assert (dq t - (dq t + 0) == 0)%Q as -> by ring. vm_compute. discriminate.
  - destruct (rrf_term_spec (lane_rank a) Ha) as (d & Hd & He & Hsd & Hd1 & Hc). cbn [length] in Hb.
    destruct (add_exact_12 t d Ht Hs He Hsd) as (t1 & Hadd & He1 & Hs1 & Hq1).
    { apply Qle_lt_trans with (inject_Z (m + 1)); [rewrite inject_Z_plus; change (inject_Z 1) with 1%Q; lra|]. rewrite <- Zlt_Qlt. lia. }
    destruct (IH t1 (cs ++ [Contribution (lane a) (lane_rank a) (raw_score a) (format_f d) 0]) (m + 1)) as (t2 & cs2 & Hf & Ht2 & Hs2 & Hm2 & Hcs & Hq2);
      [by right|done|rewrite Hq1, inject_Z_plus; change (inject_Z 1) with 1%Q; lra|lia|].
    exists t2, (Contribution (lane a) (lane_rank a) (raw_score a) (format_f d) 0 :: cs2).
    cbn [foldM add_contribution]. rewrite Hd. cbn [mbind result_bind]. rewrite Hadd. cbn [arith map_err mbind result_bind].
    rewrite Hf, <- app_assoc. split_and!; [done|done|done| | |].
    + eapply Qle_trans; [exact Hm2|]. rewrite <- Zle_Qle. cbn [length]. lia.
    + constructor; [|done]. unfold contribution_ok; cbn. split_and!; [done..|]. by exists d.
    + cbn [rrf_sum foldr length]. fold (rrf_sum apps).
      assert (dq t2 - (dq t + (rrf (lane_rank a) + rrf_sum apps)) ==
        (dq t2 - (dq t1 + rrf_sum apps)) + (dq d - rrf (lane_rank a)))%Q as -> by (rewrite Hq1; ring).
      eapply Qle_trans; [apply Qabs_triangle|]. rewrite Nat2Z.inj_succ, <- Z.add_1_r, inject_Z_plus. change (inject_Z 1) with 1%Q. lra.
Qed.

(** * Ranking *)

(** the number a candidate's printed score denotes *)
Definition score_of (c : fused_candidate) : Q := dq (default dec_zero (read_plain (fused_score c))).

(** A candidate carries the appearances of its item: one contribution each, in
    lane order, the sum of their terms as its score, and the provenance of the
    first of them. *)
Record candidate_ok (apps : list lane_candidate) (c : fused_candidate) : Prop := {
  cand_contributions : ∃ ordered, ordered ≡ₚ apps ∧ StronglySorted appearance_le ordered ∧ Forall2 contribution_ok ordered (contributions c) ∧
    (kind <$> head ordered) = Some (f_kind c) ∧ (source_span_id <$> head ordered) = Some (f_source_span_id c) ∧
    (document_version_id <$> head ordered) = Some (f_document_version_id c) ∧ (document_id <$> head ordered) = Some (f_document_id c) ∧
    (published_at <$> head ordered) = Some (f_published_at c) ∧ (financial_fact_id <$> head ordered) = Some (f_financial_fact_id c) ∧
    (table_id <$> head ordered) = Some (f_table_id c) ∧ (table_row_index <$> head ordered) = Some (f_table_row_index c);
  cand_score : (Qabs (score_of c - rrf_sum apps) <= inject_Z (Z.of_nat (length apps)) * ((51 # 100) * UNIT12))%Q;
}.

Definition hits_ok (apps : list lane_candidate) : Prop :=
  apps ≠ [] ∧ Forall (λ a, 1 ≤ lane_rank a) apps ∧ Z.of_nat (length apps) < 10 ^ 16.

Definition scored_ok (item : string * list lane_candidate) (s : scored) : Prop :=
  s_item_id s = item.1 ∧ f_item_id (fused s) = item.1 ∧ candidate_ok item.2 (fused s) ∧
  (score_of (fused s) == dq (s_total s))%Q ∧ (s_total s = dec_zero ∨ d_exp (s_total s) = -12) ∧ 0 ≤ sval (s_total s) ∧
  (dq (s_total s) < inject_Z (10 ^ 16))%Q.

Lemma score_item_spec i apps : hits_ok apps → ∃ s, score_item (i, apps) = Ok s ∧ scored_ok (i, apps) s.
Proof.
  intros (Hne & Hr & Hlen). pose proof (py_sorted_perm appearance_le apps) as Hp.
  pose proof (py_sorted_sorted appearance_le apps) as Hs. set (ordered := py_sorted appearance_le apps) in *.
  assert (length ordered = length apps) as Hlo by (by rewrite Hp).
  destruct (contributions_loop ordered dec_zero [] 0) as (t & cs & Hf & Ht & Hst & Hm & Hcs & Hq);
    [by rewrite Hp|by left|done|discriminate|lia|].
  unfold score_item. fold ordered. rewrite Hf. cbn [mbind result_bind app].
  assert (ordered ≠ []) as Ho by (intros Hn; rewrite Hn in Hlo; destruct apps; done).
  destruct ordered as [|rep rest] eqn:Hord; [done|]. eexists. split; [reflexivity|].
  unfold scored_ok; cbn [s_item_id fused f_item_id s_total fst snd].
  assert (∀ c, fused_score c = format_f t → (score_of c == dq t)%Q) as Hscore.
  { intros c Hc. unfold score_of. rewrite Hc. destruct (read_plain_format_f t) as (d' & -> & Hd & _). exact Hd. }
  split; [done|]. split; [done|]. split; [|split; [by apply Hscore|split; [done|split; [done|]]]].
  - split.
    + exists (rep :: rest). cbn [contributions f_kind f_source_span_id f_document_version_id f_document_id f_published_at f_financial_fact_id f_table_id f_table_row_index head fmap option_fmap option_map].
      by split_and!.
    + rewrite Hscore by done. rewrite <- (rrf_sum_perm _ _ Hp). rewrite Hlo in Hq.
      assert (dq t - (dq dec_zero + rrf_sum (rep :: rest)) == dq t - rrf_sum (rep :: rest))%Q as Heq; [|by rewrite Heq in Hq].
      change (dq dec_zero) with 0%Q. ring.
  - eapply Qle_lt_trans; [exact Hm|]. rewrite <- Zlt_Qlt. lia.
Qed.

Lemma sort_key_spec s :
  (s_total s = dec_zero ∨ d_exp (s_total s) = -12) → (0 ≤ sval (s_total s)) → (dq (s_total s) < inject_Z (10 ^ 16))%Q →
  ∃ k, sort_key s = Ok (k, s) ∧ (dq k == - dq (s_total s))%Q.
Proof.
  intros Ht Hs Hb. unfold sort_key. destruct Ht as [->|He].
  { eexists. split; [reflexivity|reflexivity]. }
  set (t := s_total s) in *. assert (dec_plus DEFAULT_CONTEXT (dec_neg t) = Ok (if (d_coeff t =? 0)%N then dec_abs t else dec_neg t)) as ->.
  { unfold dec_plus. cbn [d_coeff dec_neg]. assert (dec_abs (dec_neg t) = dec_abs t) as -> by done.
    assert (ndigits (d_coeff t) ≤ 28) as Hnd.
    { apply ndigits_le_iff; [lia|]. assert (sval t < 10 ^ 28) as Hs28.
      { rewrite Zlt_Qlt. apply (Qmult_lt_r _ _ (q10 (-12))); [apply q10_pos|]. rewrite dq_unfold, He in Hb.
        eapply Qlt_le_trans; [exact Hb|]. vm_compute. discriminate. }
      unfold sval in *. change (pow10 28) with 10000000000000000000000000000%N. destruct (d_sign t); lia. }
    assert (∀ d, d_coeff d = d_coeff t → d_exp d = d_exp t → dec_fix DEFAULT_CONTEXT d = Ok d) as Hfix.
    { intros d Hdc Hde. apply dec_fix_fits; [reflexivity|by rewrite Hdc|rewrite Hde, He; vm_compute; split; discriminate|].
      unfold adjusted. rewrite Hdc, Hde, He. cbn [Emax DEFAULT_CONTEXT]. lia. }
    by case_match; apply Hfix. }
  cbn [arith map_err mbind result_bind]. eexists. split; [reflexivity|].
  destruct (N.eqb_spec (d_coeff t) 0) as [H0|H0]; [|apply dq_neg].
  destruct t as [sg co e]; cbn in H0; subst. unfold dec_abs; cbn [d_coeff d_exp]. by rewrite !dq_zero.
Qed.

Lemma scored_le_spec a b :
  scored_le a b ↔ (dq a.1 < dq b.1)%Q ∨ ((dq a.1 == dq b.1)%Q ∧ String.le (s_item_id a.2) (s_item_id b.2)).
Proof.
  unfold scored_le, key_leb. pose proof (dec_eqb_spec a.1 b.1) as He. unfold deq in He. destruct (dec_eqb a.1 b.1).
  - rewrite bool_decide_eq_true. assert (dq a.1 == dq b.1)%Q as Heq by (by apply He).
    split; [by right|]. intros [Hlt|[_ H]]; [|done]. rewrite Heq in Hlt. by apply Qlt_irrefl in Hlt.
  - rewrite dec_leb_spec. split.
    + intros [Hlt|Heq]%Qle_lteq; [by left|]. apply He in Heq. discriminate.
    + intros [Hlt|[Heq _]]; [by apply Qlt_le_weak|]. apply He in Heq. discriminate.
Qed.

#[export] Instance scored_le_total : Total scored_le.
Proof.
  intros a b. rewrite !scored_le_spec. destruct (Q_dec (dq a.1) (dq b.1)) as [[?|?]|Heq]; [by left; left|by right; left|].
  destruct (total String.le (s_item_id a.2) (s_item_id b.2)); [left|right]; right; (split; [by rewrite Heq|done]).
Qed.

#[export] Instance scored_le_trans : Transitive scored_le.
Proof.
  intros a b c. rewrite !scored_le_spec. intros [H1|[H1 H1']] [H2|[H2 H2']].
  - left. by eapply Qlt_trans.
  - left. by rewrite <- H2.
  - left. by rewrite H1.
  - right. split; [by rewrite H1|]. by trans (s_item_id b.2).
Qed.

(** a higher score first; the smaller id first on equal scores *)
Definition ranked_before (a b : fused_candidate) : Prop :=
  (score_of b < score_of a)%Q ∨ ((score_of a == score_of b)%Q ∧ String.le (f_item_id a) (f_item_id b)).

Lemma candidate_ok_rank apps c r : candidate_ok apps c → candidate_ok apps (with_rank c r).
Proof. intros [H1 H2]. by split. Qed.

Lemma Forall2_fmap_same {A B C} (R : A → B → Prop) (f : A → C) (g : B → C) l k :
  Forall2 R l k → (∀ x y, R x y → f x = g y) → f <$> l = g <$> k.
Proof. induction 1 as [|x y l k Hxy H IH]; intros Hfg; [done|]. rewrite !fmap_cons, (Hfg x y Hxy), IH by done. done. Qed.

Lemma mapM_Forall2 {E A B} (f : A → result E B) (P : A → Prop) (R : A → B → Prop) l :
  Forall P l → (∀ x, P x → ∃ y, f x = Ok y ∧ R x y) → ∃ k, mapM f l = Ok k ∧ Forall2 R l k.
Proof.
  intros Hl Hf. induction Hl as [|x l Hx Hl (k & Hk & HR)]; [by exists []; split; [|constructor]|].
  destruct (Hf x Hx) as (y & Hy & Hxy). exists (y :: k). cbn [mapM]. rewrite Hy. cbn [mbind result_bind].
  unfold mbind, result_bind in *. rewrite Hk. split; [done|by constructor].
Qed.

(** what is known of an entry once its sort key is computed *)
Definition entry_ok (survivors : dict (list lane_candidate)) (k : decimal * scored) : Prop :=
  (score_of (fused k.2) == - dq k.1)%Q ∧ f_item_id (fused k.2) = s_item_id k.2 ∧
  ∃ apps, (s_item_id k.2, apps) ∈ survivors ∧ candidate_ok apps (fused k.2).

Lemma survivor_keys survivors :
  Forall (λ i, hits_ok i.2) survivors →
  ∃ entries keys, mapM score_item survivors = Ok entries ∧ mapM sort_key entries = Ok keys ∧ Forall (entry_ok survivors) keys ∧
    (λ k : decimal * scored, f_item_id (fused k.2)) <$> keys = survivors.*1.
Proof.
  intros Hs. destruct (mapM_Forall2 score_item (λ i, hits_ok i.2) scored_ok survivors Hs) as (entries & He & Hok).
  { intros [i apps] Hi. by apply score_item_spec. }
  assert (Forall (λ s, ∃ item, item ∈ survivors ∧ scored_ok item s) entries) as Hent.
  { apply Forall_forall. intros s Hin. apply list_elem_of_lookup in Hin as [i Hi].
    destruct (Forall2_lookup_r _ _ _ _ _ Hok Hi) as (item & Hitem & Hsok). exists item. split; [by eapply list_elem_of_lookup_2|done]. }
  destruct (mapM_Forall2 sort_key _ (λ s k, k.2 = s ∧ (dq k.1 == - dq (s_total s))%Q ∧ ∃ item, item ∈ survivors ∧ scored_ok item s) entries Hent) as (keys & Hk & Hkok).
  { intros s (item & Hin & Hsok). destruct Hsok as (H1 & H2 & H3 & H4 & Ht & Hst & Hb).
    destruct (sort_key_spec s Ht Hst Hb) as (k & Hks & Hkq). exists (k, s). split; [done|]. split; [done|]. split; [done|]. by exists item. }
  exists entries, keys. split_and!; [done|done| |].
  - apply Forall_forall. intros k Hin. apply list_elem_of_lookup in Hin as [i Hi].
    destruct (Forall2_lookup_r _ _ _ _ _ Hkok Hi) as (s & _ & Hks & Hkq & [j apps] & Hj & Hid & Hfid & Hc & Hsc & _). cbn [fst snd] in *.
    unfold entry_ok. rewrite Hks. split; [rewrite Hkq, Hsc; ring|]. split; [congruence|]. exists apps. by rewrite Hid.
  - transitivity ((λ s, f_item_id (fused s)) <$> entries).
    + symmetry. eapply Forall2_fmap_same; [exact Hkok|]. intros s k (-> & _). done.
    + symmetry. eapply Forall2_fmap_same; [exact Hok|]. intros item s (_ & -> & _). done.
Qed.

(** Fusing survivors scores every one and ranks them. *)
Lemma fuse_survivors_spec survivors :
  Forall (λ i, hits_ok i.2) survivors →
  ∃ ranked, fuse_survivors survivors = Ok ranked ∧ f_item_id <$> ranked ≡ₚ survivors.*1 ∧
    (∀ i c, ranked !! i = Some c → fused_rank c = Z.of_nat i + 1 ∧ ∃ apps, (f_item_id c, apps) ∈ survivors ∧ candidate_ok apps c) ∧
    (∀ i j a b, (i < j)%nat → ranked !! i = Some a → ranked !! j = Some b → ranked_before a b).
Proof.
  intros Hs. destruct (survivor_keys survivors Hs) as (entries & keys & He & Hk & Hall & Hids).
  unfold fuse_survivors. rewrite He. cbn [mbind result_bind]. rewrite Hk. cbn [mbind result_bind].
  pose proof (py_sorted_perm scored_le keys) as Hperm. pose proof (py_sorted_sorted scored_le keys) as Hsorted.
  rewrite <- Hperm in Hall. set (ks := py_sorted scored_le keys) in *. eexists. split; [reflexivity|]. split_and!.
  - rewrite <- Hids, <- Hperm. apply reflexive_eq, list_eq. intros i. fold ks. rewrite !list_lookup_fmap, list_lookup_imap.
    by destruct (ks !! i).
  - intros i c Hc. rewrite list_lookup_imap in Hc. destruct (ks !! i) as [k|] eqn:Hk'; [|done]. cbn in Hc. simplify_eq.
    split; [done|]. destruct (Forall_lookup_1 _ _ _ _ Hall Hk') as (_ & Hid & apps & Hin & Hc). exists apps. cbn [with_rank f_item_id].
    rewrite Hid. split; [done|by apply candidate_ok_rank].
  - intros i j a b Hij Ha Hb. rewrite list_lookup_imap in Ha, Hb.
    destruct (ks !! i) as [k|] eqn:Hi; [|done]. destruct (ks !! j) as [k'|] eqn:Hj; [|done].
    cbn in Ha, Hb. simplify_eq. pose proof (StronglySorted_lookup _ _ i j k k' Hsorted Hij Hi Hj) as Hle. apply scored_le_spec in Hle.
    destruct (Forall_lookup_1 _ _ _ _ Hall Hi) as (Hsi & Hidi & _), (Forall_lookup_1 _ _ _ _ Hall Hj) as (Hsj & Hidj & _).
    unfold ranked_before. change (score_of (with_rank (fused k.2) (Z.of_nat i + 1))) with (score_of (fused k.2)).
    change (score_of (with_rank (fused k'.2) (Z.of_nat j + 1))) with (score_of (fused k'.2)). cbn [with_rank f_item_id].
    rewrite Hsi, Hsj, Hidi, Hidj. destruct Hle as [Hlt|[Heq Hle]]; [left; lra|right; split; [rewrite Heq; reflexivity|done]].
Qed.

(** * The thread pool *)

Definition lane_result (results : dict (list lane_candidate)) (call : string * lane_call) : fusion (dict (list lane_candidate)) :=
  match call.2 with
  | Ok hits => Ok (dict_set call.1 hits results)
  | Err cause => Err (LaneExecutionError call.1 cause)
  end.

(** Once every future is done, the results are those of running the calls one
    after the other. *)
Lemma collect_done calls st :
  (∀ i c, calls !! i = Some c → st !! i = Some c.2) → collect calls st = Some (foldM lane_result [] calls).
Proof.
  intros Hst. unfold collect. set (step := λ i k results, _).
  assert (∀ m a results, m = length (drop a calls) → foldr step (λ results, Some (Ok results)) (seq a m) results = Some (foldM lane_result results (drop a calls))) as H.
  { induction m as [|m IH]; intros a results Hm; [by destruct (drop a calls)|].
    destruct (drop a calls) as [|c rest] eqn:Hd; [done|]. assert (calls !! a = Some c) as Hc.
    { replace a with (a + 0)%nat by lia. rewrite <- lookup_drop, Hd. done. }
    assert (drop (S a) calls = rest) as Hrest by (by rewrite <- Nat.add_1_r, <- drop_drop, Hd).
    cbn [seq foldr]. unfold step at 1. pose proof (Hst a c Hc) as Hsa. rewrite Hc. destruct c as [l o]; cbn [snd] in *. rewrite Hsa.
    destruct o as [hits|cause]; cbn [snd foldM].
    - unfold lane_result at 1. cbn [fst snd]. rewrite IH by (rewrite Hrest; cbn in Hm; lia). by rewrite Hrest.
    - done. }
  apply (H (length calls) 0%nat []). done.
Qed.

Lemma complete_all calls schedule i c :
  calls !! i = Some c → i ∈ schedule → foldl (complete calls) ∅ schedule !! i = Some c.2.
Proof.
  intros Hc. generalize (∅ : pool_state).
  assert (∀ s st, st !! i = Some c.2 → foldl (complete calls) st s !! i = Some c.2) as Hkeep.
  { induction s as [|j s IH]; intros st Hst; [done|]. cbn [foldl]. apply IH. unfold complete.
    destruct (decide (i = j)) as [->|Hne]; [rewrite Hc; destruct c; by rewrite lookup_insert_eq|].
    destruct (calls !! j) as [[]|]; [by rewrite lookup_insert_ne|done]. }
  induction schedule as [|j s IH]; intros st Hi; [by apply not_elem_of_nil in Hi|]. cbn [foldl].
  apply elem_of_cons in Hi as [<-|Hi]; [|by apply IH]. apply Hkeep. unfold complete. rewrite Hc. destruct c. by rewrite lookup_insert_eq.
Qed.

(** every future completes at some point of the schedule *)
Definition complete_schedule (calls : list (string * lane_call)) (schedule : list nat) : Prop :=
  ∀ i, (i < length calls)%nat → i ∈ schedule.

Lemma execute_lanes_eq calls schedule :
  complete_schedule calls schedule → execute_lanes calls schedule = Some (foldM lane_result [] calls).
Proof.
  intros Hs. unfold execute_lanes. case_bool_decide as Hc; [by subst|]. apply collect_done. intros i c Hi.
  apply complete_all; [done|]. apply Hs. by eapply lookup_lt_Some.
Qed.

Definition lane_hits (c : string * lane_call) : string * list lane_candidate :=
  (c.1, match c.2 with Ok hits => hits | Err _ => [] end).

Lemma lanes_all_ok calls results :
  NoDup (results.*1 ++ calls.*1) → Forall (λ c : string * lane_call, is_ok c.2 = true) calls →
  foldM lane_result results calls = Ok (results ++ (lane_hits <$> calls)).
Proof.
  revert results. induction calls as [|[l o] calls IH]; intros results Hnd Hok; [by rewrite app_nil_r|].
  apply Forall_cons in Hok as [Ho Hok]. cbn [fmap list_fmap fst] in Hnd. cbn [snd] in Ho. destruct o as [hits|]; [|done].
  cbn [foldM lane_result fst snd]. unfold lane_result at 1. cbn [fst snd].
  rewrite dict_set_new by (apply NoDup_app in Hnd as (_ & Hnd & _); intros Hin; apply (Hnd l Hin), list_elem_of_here).
  rewrite IH; [|rewrite fmap_app, <- app_assoc; done|done]. by rewrite <- app_assoc.
Qed.

Lemma lanes_fail calls results e :
  foldM lane_result results calls = Err e → ∃ l cause, (l, Err cause) ∈ calls ∧ e = LaneExecutionError l cause.
Proof.
  revert results. induction calls as [|[l o] calls IH]; intros results; cbn [foldM]; [done|].
  unfold lane_result at 1. cbn [fst snd]. destruct o as [hits|cause].
  - intros H. destruct (IH _ H) as (l' & cause & Hin & ->). exists l', cause. split; [by apply list_elem_of_further|done].
  - intros [= <-]. exists l, cause. split; [apply list_elem_of_here|done].
Qed.

Lemma lanes_succeed calls results r :
  foldM lane_result results calls = Ok r → Forall (λ c : string * lane_call, is_ok c.2 = true) calls.
Proof.
  revert results. induction calls as [|[l o] calls IH]; intros results; cbn [foldM]; [constructor|].
  unfold lane_result at 1. cbn [fst snd]. destruct o as [hits|cause]; [|done]. intros H. constructor; [done|]. by eapply IH.
Qed.

Lemma fuse_perm lr1 lr2 k rr stamp : NoDup lr1.*1 → lr1 ≡ₚ lr2 → fuse lr1 k rr stamp = fuse lr2 k rr stamp.
Proof. intros Hnd Hp. unfold fuse. by rewrite !group_by_item_eq, (hits_of_perm lr1 lr2). Qed.

(** * The pipeline *)

(** an item that no item with the same evidence beats *)
Definition survives (hits : list lane_candidate) (i : string) : Prop :=
  i ∈ items_of hits ∧ ∀ j, j ∈ items_of hits → key_of (appearances hits j) = key_of (appearances hits i) → beats (appearances hits) i j.

(** ranks start at one, and there are few enough hits for exact sums *)
Definition lanes_ok (lane_results : dict (list lane_candidate)) : Prop :=
  Forall (λ c, 1 ≤ lane_rank c) (hits_of lane_results) ∧ Z.of_nat (length (hits_of lane_results)) < 10 ^ 16.

Lemma lanes_hits_ok lr i : lanes_ok lr → i ∈ items_of (hits_of lr) → hits_ok (appearances (hits_of lr) i).
Proof.
  intros [Hr Hn] Hi. split; [by apply appearances_ne|]. split.
  { apply Forall_forall. intros c [_ Hc]%list_elem_of_filter. by apply (proj1 (Forall_forall _ _) Hr). }
  pose proof (length_filter (λ c, item_id c = i) (hits_of lr)). unfold appearances. lia.
Qed.

Lemma dedupe_hits hits :
  dedupe ((λ i, (i, appearances hits i)) <$> items_of hits) =
    Ok (survivors (items_of hits) (appearances hits), merges (items_of hits) (appearances hits)).
Proof. apply dedupe_eq. intros i. apply appearances_ne. Qed.

Lemma survivors_hits hits i apps :
  (i, apps) ∈ survivors (items_of hits) (appearances hits) ↔ survives hits i ∧ apps = appearances hits i.
Proof. rewrite survivors_spec by (intros ?; apply appearances_ne). unfold survives. naive_solver. Qed.

Definition stamped (stamp : option string) (d : decision) : decision :=
  match stamp with Some t => RetrievalDecision (stage d) (code d) (item_ids d) (decision_detail d) (Some t) | None => d end.

(** the pipeline in one equation, for any reranker *)
Lemma fuse_eq lr k rr stamp :
  lanes_ok lr → 0 ≤ k →
  let hits := hits_of lr in
  ∃ ranked, fuse_survivors (survivors (items_of hits) (appearances hits)) = Ok ranked ∧
    fuse lr k rr stamp = Ok (FusionResult
      (take (Z.to_nat k) (rerank rr (take 100 ranked) RERANK_TOP_N ++ drop 100 ranked))
      (stamped stamp <$> (merges (items_of hits) (appearances hits) ++
        [RetrievalDecision "fusion" "rrf_k60" (f_item_id <$> ranked) (FusionDetail 60 (Z.of_nat (length ranked))) None;
         RetrievalDecision "rerank" (name rr) (f_item_id <$> take 100 ranked) (RerankDetail 100 (name rr)) None]))).
Proof.
  intros Hok Hk hits. destruct (fuse_survivors_spec (survivors (items_of hits) (appearances hits))) as (ranked & Hr & _).
  { apply Forall_forall. intros [i apps] [[Hi _] ->]%survivors_hits. by apply lanes_hits_ok. }
  exists ranked. split; [done|]. unfold fuse. destruct (Z.ltb_spec k 0); [lia|].
  rewrite group_by_item_eq. cbn [mbind result_bind]. fold hits. rewrite dedupe_hits. cbn [mbind result_bind]. rewrite Hr.
  cbn [mbind result_bind]. f_equal. f_equal. destruct stamp as [t|]; [done|]. symmetry. apply list_fmap_id.
Qed.

(** * Properties *)

(** Dedupe keeps exactly one item per piece of evidence, the best.  Grouping
    and dedupe never fail.  The survivors, each with all its appearances, are
    exactly the items that no item with the same provenance beats (a smaller
    best rank, then a smaller id); every item shares its provenance with one
    survivor; and there is one merge decision for each provenance shared by
    several items, naming all of them and the survivor. *)
Theorem dedupe_keeps_best lane_results :
  let hits := hits_of lane_results in
  ∃ kept decisions, (group_by_item lane_results ≫= dedupe) = Ok (kept, decisions) ∧
    NoDup kept.*1 ∧ (∀ i apps, (i, apps) ∈ kept ↔ survives hits i ∧ apps = appearances hits i) ∧
    (∀ i, i ∈ items_of hits → ∃ w, w ∈ kept.*1 ∧ key_of (appearances hits w) = key_of (appearances hits i) ∧
      ∀ w', w' ∈ kept.*1 → key_of (appearances hits w') = key_of (appearances hits i) → w' = w) ∧
    (∀ d, d ∈ decisions ↔ ∃ w, let merged := filter (λ i, key_of (appearances hits i) = key_of (appearances hits w)) (items_of hits) in
      w ∈ kept.*1 ∧ (1 < length merged)%nat ∧ d = merge_decision (key_of (appearances hits w)) w merged).
Proof.
  intros hits. set (F := appearances hits). set (ids := items_of hits).
  assert (∀ i, i ∈ ids → F i ≠ []) as Hne by (intros i; apply appearances_ne).
  exists (survivors ids F), (merges ids F). rewrite group_by_item_eq. cbn [mbind result_bind]. split; [apply dedupe_hits|].
  split; [by apply survivors_NoDup|]. split; [apply survivors_hits|]. split.
  - intros i Hi. pose proof (item_key ids F i Hi) as Hk. exists (winner F (group_of_key ids F (key_of (F i)))).
    split; [apply survivor_ids; by exists (key_of (F i))|]. split; [by apply winner_key|].
    intros w' (k & Hk' & ->)%survivor_ids Hkw. by rewrite <- Hkw, (proj1 (winner_key ids F k Hk')).
  - intros d. rewrite merges_elem. cbv zeta. split.
    + intros (k & Hk & Hlen & ->). exists (winner F (group_of_key ids F k)). rewrite (proj1 (winner_key ids F k Hk)).
      split; [apply survivor_ids; by exists k|done].
    + intros (w & (k & Hk & ->)%survivor_ids & Hlen & ->). rewrite (proj1 (winner_key ids F k Hk)) in *. by exists k.
Qed.

Lemma fuse_ranking lane_results k rr stamp :
  lanes_ok lane_results →
  let hits := hits_of lane_results in
  if decide (k < 0) then fuse lane_results k rr stamp = Err ValueError_top_k else
  ∃ res ranked, fuse lane_results k rr stamp = Ok res ∧
    candidates res = take (Z.to_nat k) (rerank rr (take 100 ranked) RERANK_TOP_N ++ drop 100 ranked) ∧
    (rr = NoopReranker → candidates res = take (Z.to_nat k) ranked) ∧
    NoDup (f_item_id <$> ranked) ∧ (∀ i, i ∈ f_item_id <$> ranked ↔ survives hits i) ∧
    (∀ i c, ranked !! i = Some c → fused_rank c = Z.of_nat i + 1 ∧ candidate_ok (appearances hits (f_item_id c)) c) ∧
    (∀ i j a b, (i < j)%nat → ranked !! i = Some a → ranked !! j = Some b → ranked_before a b).
Proof.
  intros Hok hits. destruct (decide (k < 0)) as [Hk|Hk].
  { unfold fuse. by destruct (Z.ltb_spec k 0); [|lia]. }
  destruct (fuse_eq lane_results k rr stamp Hok ltac:(lia)) as (ranked & Hr & Hf). fold hits in Hr, Hf.
  destruct (fuse_survivors_spec (survivors (items_of hits) (appearances hits))) as (ranked' & Hr' & Hids & Hc & Hord).
  { apply Forall_forall. intros [i apps] [[Hi _] ->]%survivors_hits. by apply lanes_hits_ok. }
  rewrite Hr in Hr'. injection Hr' as <-. eexists _, ranked. split; [exact Hf|]. cbn [candidates]. split; [done|].
  split; [intros ->; cbn [rerank NoopReranker]; by rewrite take_drop|].
  split; [rewrite Hids; apply survivors_NoDup; intros i; apply appearances_ne|]. split; [|split; [|exact Hord]].
  - intros i. rewrite Hids, list_elem_of_fmap. split.
    + intros ([j apps] & -> & [Hs _]%survivors_hits). done.
    + intros Hs. exists (i, appearances hits i). split; [done|]. by apply survivors_hits.
  - intros i c Hi. destruct (Hc i c Hi) as (Hrank & apps & [_ ->]%survivors_hits & Hcand). done.
Qed.

(** C39: Fusion ranks the survivors by reciprocal rank.  A negative budget is the only
    [ValueError].  Otherwise, on hits ranked from one, fusion succeeds with any
    reranker; there is one ranking, holding every survivor of dedupe once, each
    with its own appearances as contributions in lane order and with a printed
    score within 0.51e-12 per contribution of the sum of 1/(60 + rank); it is
    ordered by that score, ties by id, and numbered from one; the candidates
    returned are the reranker's order of the first hundred followed by the rest,
    cut to the budget, which is the ranking itself for the no-op reranker. *)
Theorem fuse_ranked lane_results k rr stamp :
  lanes_ok lane_results →
  let hits := hits_of lane_results in
  if decide (k < 0) then fuse lane_results k rr stamp = Err ValueError_top_k else
  ∃ res ranked, fuse lane_results k rr stamp = Ok res ∧
    candidates res = take (Z.to_nat k) (rerank rr (take 100 ranked) RERANK_TOP_N ++ drop 100 ranked) ∧
    (rr = NoopReranker → candidates res = take (Z.to_nat k) ranked) ∧
    NoDup (f_item_id <$> ranked) ∧ (∀ i, i ∈ f_item_id <$> ranked ↔ survives hits i) ∧
    (∀ i c, ranked !! i = Some c → fused_rank c = Z.of_nat i + 1 ∧ candidate_ok (appearances hits (f_item_id c)) c) ∧
    (∀ i j a b, (i < j)%nat → ranked !! i = Some a → ranked !! j = Some b → ranked_before a b).
Proof. apply fuse_ranking. Qed.

Definition sample_candidate (i l : string) (r : Z) (span : string) : lane_candidate :=
  LaneCandidate i l r "0.500000" "span" span "dv" "doc" (Datetime (Date 2024 1 1) 0 true) None None None.

(** item b shares its evidence with item a and loses to it *)
Definition sample_calls : list (string * lane_call) :=
  [("lexical", Ok [sample_candidate "b" "lexical" 1 "s1"; sample_candidate "c" "lexical" 2 "s2"; sample_candidate "a" "lexical" 3 "s1"]);
   ("dense", Ok [sample_candidate "a" "dense" 1 "s1"; sample_candidate "c" "dense" 2 "s2"])]%string.
Definition sample_lanes : dict (list lane_candidate) := lane_hits <$> sample_calls.

(** the ranking of a two-lane example *)
Lemma fuse_ranked_witness :
  lanes_ok sample_lanes ∧ ∃ res, fuse sample_lanes 10 NoopReranker None = Ok res ∧ f_item_id <$> candidates res = ["a"; "c"]%string ∧
    ∀ i c, candidates res !! i = Some c → fused_rank c = Z.of_nat i + 1.
Proof.
  assert (lanes_ok sample_lanes) as Hok by (split; [repeat constructor; vm_compute; discriminate|vm_compute; reflexivity]).
  split; [exact Hok|]. destruct (fuse_ranked sample_lanes 10 NoopReranker None Hok) as (res & ranked & Hf & _ & Hn & _ & _ & Hc & _).
  exists res. split; [exact Hf|]. specialize (Hn eq_refl). split.
  - assert ((λ r, f_item_id <$> candidates r) <$> fuse sample_lanes 10 NoopReranker None = Ok ["a"; "c"]%string) as H by (vm_compute; reflexivity).
    rewrite Hf in H. by injection H.
  - intros i c Hi. rewrite Hn in Hi. apply lookup_take_Some in Hi as [Hi _]. exact (proj1 (Hc i c Hi)).
Defined.

(** Concurrency and iteration order do not show.  Take the same lane calls in two
    submission orders, with distinct lane names, and any two schedules in which
    every thread completes.  Either both executions fail, each with a
    [LaneExecutionError] naming a lane whose call raised and its cause (no
    partial set is fused), or both collect every lane, and then fusion, for any
    budget, reranker and stamp, gives the same result. *)
Theorem fusion_deterministic calls1 calls2 schedule1 schedule2 :
  NoDup calls1.*1 → calls1 ≡ₚ calls2 → complete_schedule calls1 schedule1 → complete_schedule calls2 schedule2 →
  match execute_lanes calls1 schedule1, execute_lanes calls2 schedule2 with
  | Some (Ok lanes1), Some (Ok lanes2) =>
      lanes1 = lane_hits <$> calls1 ∧ Forall (λ c : string * lane_call, is_ok c.2 = true) calls1 ∧
      ∀ k rr stamp, fuse lanes1 k rr stamp = fuse lanes2 k rr stamp
  | Some (Err e1), Some (Err e2) =>
      (∃ l cause, (l, Err cause) ∈ calls1 ∧ e1 = LaneExecutionError l cause) ∧
      (∃ l cause, (l, Err cause) ∈ calls1 ∧ e2 = LaneExecutionError l cause)
  | _, _ => False
  end.
Proof.
  intros Hnd Hp H1 H2. rewrite !execute_lanes_eq by done.
  assert (NoDup calls2.*1) as Hnd2 by (by rewrite <- Hp).
  destruct (foldM lane_result [] calls1) as [lanes1|e1] eqn:Hl1.
  - apply lanes_succeed in Hl1 as Hok. assert (Forall (λ c : string * lane_call, is_ok c.2 = true) calls2) as Hok2 by (by rewrite <- Hp).
    rewrite (lanes_all_ok calls2 []) by done. rewrite (lanes_all_ok calls1 []) in Hl1 by done. cbn [app] in *. simplify_eq.
    split; [done|]. split; [done|]. intros k rr stamp. apply fuse_perm; [|by rewrite Hp]. by rewrite <- list_fmap_compose.
  - destruct (foldM lane_result [] calls2) as [lanes2|e2] eqn:Hl2.
    + apply lanes_succeed in Hl2 as Hok2. rewrite <- Hp in Hok2. by rewrite (lanes_all_ok calls1 []) in Hl1 by done.
    + split; [by eapply lanes_fail|]. setoid_rewrite Hp. by eapply lanes_fail.
Qed.

(** two submission orders and two schedules of the example *)
Lemma fusion_deterministic_witness :
  complete_schedule sample_calls [1; 0]%nat ∧ ∀ k rr stamp,
    match execute_lanes sample_calls [1; 0]%nat, execute_lanes (reverse sample_calls) [0; 1]%nat with
    | Some (Ok lanes1), Some (Ok lanes2) => fuse lanes1 k rr stamp = fuse lanes2 k rr stamp
    | _, _ => False
    end.
Proof.
  assert (complete_schedule sample_calls [1; 0]%nat) as H1 by (intros [|[|i]] Hi; [apply list_elem_of_further|idtac|cbn in Hi; lia]; apply list_elem_of_here).
  assert (complete_schedule (reverse sample_calls) [0; 1]%nat) as H2
    by (intros [|[|i]] Hi; [idtac|apply list_elem_of_further|cbn in Hi; lia]; apply list_elem_of_here).
  split; [exact H1|]. intros k rr stamp.
  pose proof (fusion_deterministic sample_calls (reverse sample_calls) [1; 0]%nat [0; 1]%nat) as H.
  ospecialize (H _ _ H1 H2); [by apply (bool_decide_unpack _); vm_compute|symmetry; apply reverse_Permutation|].
  assert (is_Some (execute_lanes sample_calls [1; 0]%nat ≫= λ r, match r with Ok l => Some l | _ => None end)) as [l1 Hl1] by (vm_compute; eauto).
  destruct (execute_lanes sample_calls [1; 0]%nat) as [[lanes1|e]|]; [|discriminate Hl1|discriminate Hl1].
  destruct (execute_lanes (reverse sample_calls) [0; 1]%nat) as [[lanes2|e]|]; [|exact H|exact H]. apply H.
Defined.
