(* ===== verification/Text.v ===== *)
(** Python's [str] methods on texts of characters below 256. *)

From S2P Require Import Prelude.

Definition is_space (a : ascii) : bool :=
  let n := N_of_ascii a in ((9 <=? n) && (n <=? 13) || (28 <=? n) && (n <=? 32) || (n =? 133) || (n =? 160))%N.

Fixpoint lstrip (s : string) : string :=
  match s with String a s' => if is_space a then lstrip s' else s | EmptyString => EmptyString end.
Fixpoint rstrip (s : string) : string :=
  match s with
  | EmptyString => EmptyString
  | String a s' => match rstrip s' with EmptyString => if is_space a then EmptyString else String a EmptyString | t => String a t end
  end.
(** [s.strip()] *)
Definition strip (s : string) : string := rstrip (lstrip s).

Fixpoint map_chars (f : ascii → ascii) (s : string) : string :=
  match s with EmptyString => EmptyString | String a s' => String (f a) (map_chars f s') end.

(** [s.lower()] *)
Definition lower_char (a : ascii) : ascii :=
  let n := N_of_ascii a in
  if ((65 <=? n) && (n <=? 90) || (192 <=? n) && (n <=? 222) && negb (n =? 215))%N then ascii_of_N (n + 32) else a.
Definition lower : string → string := map_chars lower_char.

(** [s.upper()] of ASCII text *)
Definition upper_char (a : ascii) : ascii :=
  let n := N_of_ascii a in if ((97 <=? n) && (n <=? 122))%N then ascii_of_N (n - 32) else a.
Definition upper : string → string := map_chars upper_char.

Fixpoint isascii (s : string) : bool :=
  match s with EmptyString => true | String a s' => (N_of_ascii a <? 128)%N && isascii s' end.

(** [s.partition(c)] *)
Fixpoint partition (c : ascii) (s : string) : string * string * string :=
  match s with
  | EmptyString => (EmptyString, EmptyString, EmptyString)
  | String a s' =>
      if Ascii.eqb a c then (EmptyString, String a EmptyString, s')
      else let '(h, sep, t) := partition c s' in (String a h, sep, t)
  end.

(** [sub in s] *)
Fixpoint contains (sub s : string) : bool :=
  String.prefix sub s || match s with EmptyString => false | String _ s' => contains sub s' end.

Fixpoint remove_char (c : ascii) (s : string) : string :=
  match s with EmptyString => EmptyString | String a s' => if Ascii.eqb a c then remove_char c s' else String a (remove_char c s') end.

(** [s.replace(sub, "")] is [remove_sub sub 0 s]; [skip] characters are still inside the last occurrence *)
Fixpoint remove_sub (sub : string) (skip : nat) (s : string) : string :=
  match s with
  | EmptyString => EmptyString
  | String a s' =>
      match skip with
      | S k => remove_sub sub k s'
      | O => if String.prefix sub s then remove_sub sub (String.length sub - 1) s' else String a (remove_sub sub 0 s')
      end
  end.

(** [s.split()]; [word] is the part of the next word read so far *)
Fixpoint split_from (word : string) (s : string) : list string :=
  match s with
  | EmptyString => match word with EmptyString => [] | _ => [word] end
  | String a s' =>
      if is_space a then match word with EmptyString => split_from EmptyString s' | _ => word :: split_from EmptyString s' end
      else split_from (word +:+ String a EmptyString) s'
  end.
Definition split (s : string) : list string := split_from EmptyString s.

(** * Characters of a text *)

Notation chars := String.list_ascii_of_string.

Lemma chars_app s t : chars (s +:+ t)%string = chars s ++ chars t.
Proof. induction s as [|a s IH]; [done|]. change (a :: chars (s +:+ t)%string = a :: chars s ++ chars t). by rewrite IH. Qed.

Lemma remove_char_id c s : c ∉ chars s → remove_char c s = s.
Proof.
  induction s as [|a s IH]; [done|]. cbn [chars remove_char]. intros [Hne Hs]%not_elem_of_cons.
  destruct (Ascii.eqb_spec a c) as [->|]; [done|]. by rewrite IH.
Qed.

Lemma elem_of_remove_char c s a : a ∈ chars (remove_char c s) ↔ a ∈ chars s ∧ a ≠ c.
Proof.
  induction s as [|b s IH]; cbn [chars remove_char]; [set_solver|].
  destruct (Ascii.eqb_spec b c) as [->|]; cbn [chars]; rewrite ?elem_of_cons, IH; [naive_solver|].
  split; [intros [->|[? ?]]; auto|intros [[->|?] ?]; auto].
Qed.

Lemma chars_remove_char c s : chars (remove_char c s) = filter (λ a, a ≠ c) (chars s).
Proof.
  induction s as [|b s IH]; cbn [chars remove_char]; [done|].
  destruct (Ascii.eqb_spec b c) as [->|]; [rewrite filter_cons_False by (intros H; by apply H)|rewrite filter_cons_True by done; cbn [chars]; f_equal]; done.
Qed.

Lemma lstrip_spec s : ∃ pre, chars s = pre ++ chars (lstrip s) ∧ Forall (λ a, is_space a = true) pre.
Proof.
  induction s as [|a s (pre & Hs & Hpre)]; [by exists []|]. cbn [chars lstrip]. destruct (is_space a) eqn:Ha; [|by exists []].
  exists (a :: pre). rewrite Hs. split; [done|by constructor].
Qed.

Lemma rstrip_spec s : ∃ post, chars s = chars (rstrip s) ++ post ∧ Forall (λ a, is_space a = true) post.
Proof.
  induction s as [|a s (post & Hs & Hpost)]; [by exists []|]. cbn [chars rstrip]. destruct (rstrip s) as [|b t] eqn:Ht.
  - destruct (is_space a) eqn:Ha; [exists (a :: post); split; [by rewrite Hs|by constructor]|exists post; by rewrite Hs].
  - exists post. by rewrite Hs.
Qed.

(** stripping removes white space only *)
Lemma strip_spec s : ∃ pre post, chars s = pre ++ chars (strip s) ++ post ∧
  Forall (λ a, is_space a = true) pre ∧ Forall (λ a, is_space a = true) post.
Proof.
  destruct (lstrip_spec s) as (pre & Hpre & ?). destruct (rstrip_spec (lstrip s)) as (post & Hpost & ?).
  exists pre, post. split; [|done]. by rewrite Hpre, Hpost at 1.
Qed.

Lemma strip_id s : Forall (λ a, is_space a = false) (chars s) → strip s = s.
Proof.
  intros H. unfold strip. assert (lstrip s = s) as ->.
  { destruct s as [|a s]; [done|]. cbn in *. apply Forall_cons in H as [-> _]. done. }
  induction s as [|a s IH]; [done|]. cbn [chars] in H. apply Forall_cons in H as [Ha H]. cbn [rstrip]. rewrite (IH H). destruct s; [by rewrite Ha|done].
Qed.

Lemma chars_map_chars f s : chars (map_chars f s) = f <$> chars s.
Proof. induction s as [|a s IH]; [done|]. cbn. by f_equal. Qed.

Lemma map_chars_id f s : Forall (λ a, f a = a) (chars s) → map_chars f s = s.
Proof. induction s as [|a s IH]; [done|]. cbn [chars map_chars]. intros [-> H]%Forall_cons. by rewrite IH. Qed.

Lemma chars_inj s t : chars s = chars t → s = t.
Proof. intros H. by rewrite <- (String.string_of_list_ascii_of_string s), <- (String.string_of_list_ascii_of_string t), H. Qed.

Lemma contains_char c s : contains (String c EmptyString) s = bool_decide (c ∈ chars s).
Proof.
  induction s as [|a s IH]; cbn [contains chars]; [done|]. rewrite IH. cbn [String.prefix].
  destruct (Ascii.ascii_dec c a) as [->|Hne].
  - assert (String.prefix "" s = true) as -> by by destruct s. symmetry. apply bool_decide_eq_true. left.
  - cbn [orb]. apply bool_decide_ext. rewrite elem_of_cons. naive_solver.
Qed.
