(* ===== verification/Regex.v ===== *)
(** Python's [re]: a backtracking matcher for the constructs the extraction
    normalizer's patterns use, and the relation it implements.

    A text is a list of characters below 256 and a position an index in it.  The
    matcher explores alternatives in the engine's order, greedy repetitions
    first, and returns the first full match; a repetition stops at an iteration
    that consumes nothing. *)

From S2P Require Import Prelude Text.


(** * Syntax *)

Inductive regex :=
| Empty
| Chars (p : ascii → bool)           (* one character of a class *)
| Seq (r1 r2 : regex)
| Alt (r1 r2 : regex)
| Star (r : regex)                   (* greedy *)
| Group (name : string) (r : regex)  (* (?P<name>r) *)
| Backref (name : string)            (* (?P=name), ignoring case *)
| Boundary                           (* \b *)
| NotAhead (r : regex).              (* (?!r) *)

Definition Opt (r : regex) : regex := Alt r Empty.
Definition Plus (r : regex) : regex := Seq r (Star r).

(** * Characters *)

(** [\w]: the letters, digits and other numeric characters, and the underscore *)
Definition is_word (a : ascii) : bool :=
  let n := N_of_ascii a in
  ((48 <=? n) && (n <=? 57) || (65 <=? n) && (n <=? 90) || (97 <=? n) && (n <=? 122) || (n =? 95)
   || (n =? 170) || (n =? 178) || (n =? 179) || (n =? 181) || (n =? 185) || (n =? 186) || (188 <=? n) && (n <=? 190)
   || (192 <=? n) && negb (n =? 215) && negb (n =? 247))%N.

Definition char (c : ascii) (a : ascii) : bool := bool_decide (a = c).

(** a character of a pattern under [re.IGNORECASE] *)
Definition char_ci (c : ascii) (a : ascii) : bool := bool_decide (lower_char a = lower_char c).

(** a literal under [re.IGNORECASE] *)
Fixpoint word (s : string) : regex :=
  match s with
  | EmptyString => Empty
  | String c EmptyString => Chars (char_ci c)
  | String c s' => Seq (Chars (char_ci c)) (word s')
  end.

(** * Matching *)

Notation captures := (list (string * (nat * nat))).

Fixpoint capture (name : string) (caps : captures) : option (nat * nat) :=
  match caps with
  | [] => None
  | (n, span) :: caps' => if decide (n = name) then Some span else capture name caps'
  end.

Definition slice {A} (text : list A) (i j : nat) : list A := take (j - i) (drop i text).

Section matcher.
Context (text : list ascii).

Notation state := (nat * captures)%type.

Definition word_at (i : nat) : bool := match text !! i with Some a => is_word a | None => false end.
Definition at_boundary (i : nat) : bool :=
  xorb (match i with O => false | S i' => word_at i' end) (word_at i).

Definition ref_text (name : string) (caps : captures) : option (list ascii) :=
  (λ span, slice text span.1 span.2) <$> capture name caps.

Section star.
Context (iter : (state → option state) → state → option state) (k : state → option state).
Fixpoint star (n : nat) (s : state) : option state :=
  match n with
  | O => k s
  | S n' =>
      match iter (λ s', if (s'.1 <=? s.1)%nat then None else star n' s') s with
      | Some r => Some r
      | None => k s
      end
  end.
End star.

Fixpoint run (r : regex) (k : state → option state) (s : state) : option state :=
  match r with
  | Empty => k s
  | Chars p =>
      match text !! s.1 with
      | Some a => if p a then k (S s.1, s.2) else None
      | None => None
      end
  | Seq r1 r2 => run r1 (run r2 k) s
  | Alt r1 r2 => match run r1 k s with Some x => Some x | None => run r2 k s end
  | Star r => star (run r) k (length text - s.1) s
  | Group name r => run r (λ s', k (s'.1, (name, (s.1, s'.1)) :: s'.2)) s
  | Backref name =>
      match ref_text name s.2 with
      | Some t =>
          if bool_decide (lower_char <$> slice text s.1 (s.1 + length t) = lower_char <$> t)
          then k ((s.1 + length t)%nat, s.2) else None
      | None => None
      end
  | Boundary => if at_boundary s.1 then k s else None
  | NotAhead r => match run r Some s with Some _ => None | None => k s end
  end.

Definition match_at (r : regex) (i : nat) : option state := run r Some (i, []).

(** [pattern.search(text)]: the first start that matches *)
Fixpoint search_from (r : regex) (n i : nat) : option (nat * state) :=
  match match_at r i with
  | Some s => Some (i, s)
  | None => match n with O => None | S n' => search_from r n' (S i) end
  end.

Definition search (r : regex) : option (nat * state) := search_from r (length text) 0.

(** [pattern.sub(repl, text)] of a pattern that matches no empty text: the first
    match from [pos] on is replaced, and the search goes on behind it *)
Fixpoint sub_from (r : regex) (repl : list ascii) (n pos : nat) : list ascii :=
  match n with
  | O => drop pos text
  | S n' =>
      match search_from r (length text - pos) pos with
      | Some (i, s) => slice text pos i ++ repl ++ sub_from r repl n' s.1
      | None => drop pos text
      end
  end.

(** * What a match means *)

Inductive matches : regex → state → state → Prop :=
| m_empty s : matches Empty s s
| m_chars p i a caps : text !! i = Some a → p a = true → matches (Chars p) (i, caps) (S i, caps)
| m_seq r1 r2 s1 s2 s3 : matches r1 s1 s2 → matches r2 s2 s3 → matches (Seq r1 r2) s1 s3
| m_left r1 r2 s1 s2 : matches r1 s1 s2 → matches (Alt r1 r2) s1 s2
| m_right r1 r2 s1 s2 : matches r2 s1 s2 → matches (Alt r1 r2) s1 s2
| m_stop r s : matches (Star r) s s
| m_more r s1 s2 s3 : matches r s1 s2 → matches (Star r) s2 s3 → matches (Star r) s1 s3
| m_group name r i caps j caps' :
    matches r (i, caps) (j, caps') → matches (Group name r) (i, caps) (j, (name, (i, j)) :: caps')
| m_backref name i caps t :
    ref_text name caps = Some t → lower_char <$> slice text i (i + length t) = lower_char <$> t →
    matches (Backref name) (i, caps) ((i + length t)%nat, caps)
| m_boundary s : at_boundary s.1 = true → matches Boundary s s
| m_ahead r s : matches (NotAhead r) s s.

Lemma star_sound (r : regex) k n s x :
  (∀ k s x, run r k s = Some x → ∃ s', matches r s s' ∧ k s' = Some x) →
  star (run r) k n s = Some x → ∃ s', matches (Star r) s s' ∧ k s' = Some x.
Proof.
  intros Hr. revert s. induction n as [|n IH]; intros s; cbn [star]; [intros; exists s; split; [constructor|done]|].
  destruct (run r _ s) as [y|] eqn:Hy; [|intros; exists s; split; [constructor|done]].
  intros [= <-]. apply Hr in Hy as (s2 & Hm & Hk). destruct (s2.1 <=? s.1)%nat; [done|].
  apply IH in Hk as (s' & Hs & Hk). exists s'. split; [by eapply m_more|done].
Qed.

(** every result of the matcher is a match *)
Lemma run_sound r k s x : run r k s = Some x → ∃ s', matches r s s' ∧ k s' = Some x.
Proof.
  revert k s x. induction r as [|p|r1 IH1 r2 IH2|r1 IH1 r2 IH2|r IH|name r IH|name| |r IH]; intros k s x; cbn [run].
  - intros H. exists s. split; [constructor|done].
  - destruct s as [i caps]; cbn. destruct (text !! i) as [a|] eqn:Ha; [|done]. destruct (p a) eqn:Hp; [|done].
    intros H. exists (S i, caps). split; [by econstructor|done].
  - intros (s2 & H1 & Hk)%IH1. apply IH2 in Hk as (s' & H2 & Hk). exists s'. split; [by econstructor|done].
  - destruct (run r1 k s) as [y|] eqn:Hy; [intros [= <-]|intros Hy'].
    + apply IH1 in Hy as (s' & H1 & Hk). exists s'. split; [by constructor|done].
    + apply IH2 in Hy' as (s' & H2 & Hk). exists s'. split; [by apply m_right|done].
  - by apply star_sound.
  - intros ([j caps'] & H & Hk)%IH. destruct s as [i caps]. cbn in *. eexists. split; [econstructor; exact H|exact Hk].
  - destruct s as [i caps]; cbn [fst snd]. destruct (ref_text name caps) as [t|] eqn:Ht; [|done]. case_bool_decide as Hl; [|done].
    intros H. eexists. split; [by eapply m_backref|done].
  - destruct (at_boundary s.1) eqn:Hb; [|done]. intros H. exists s. split; [by constructor|done].
  - destruct (run r Some s); [done|]. intros H. exists s. split; [constructor|done].
Qed.

Lemma run_fails r k s : (∀ s', matches r s s' → k s' = None) → run r k s = None.
Proof. intros Hk. destruct (run r k s) as [x|] eqn:Hx; [|done]. apply run_sound in Hx as (s' & Hm & Hs). by rewrite Hk in Hs. Qed.

Lemma search_from_sound r n j i s :
  (j + n = length text)%nat → search_from r n j = Some (i, s) → (j ≤ i ≤ length text)%nat ∧ matches r (i, []) s.
Proof.
  revert j. induction n as [|n IH]; intros j Hj; cbn [search_from]; unfold match_at; destruct (run r Some (j, [])) as [s'|] eqn:Hs.
  - intros [= <- <-]. apply run_sound in Hs as (s'' & Hm & [= <-]). split; [lia|done].
  - done.
  - intros [= <- <-]. apply run_sound in Hs as (s'' & Hm & [= <-]). split; [lia|done].
  - intros H. destruct (IH (S j) ltac:(lia) H). split; [lia|done].
Qed.

Lemma search_sound r i s : search r = Some (i, s) → (i ≤ length text)%nat ∧ matches r (i, []) s.
Proof. intros H. destruct (search_from_sound r (length text) 0 i s ltac:(lia) H) as [? ?]. split; [lia|done]. Qed.

Lemma search_here r s : match_at r 0 = Some s → search r = Some (0%nat, s).
Proof. unfold search. destruct (length text); cbn [search_from]; by intros ->. Qed.

(** a match moves forward and stays in the text *)
Lemma matches_bounds r s s' : matches r s s' → (s.1 ≤ length text)%nat → (s.1 ≤ s'.1 ≤ length text)%nat.
Proof.
  induction 1 as [| p i a caps Ha _ | | | | | | | name i caps t Ht Hl | |]; cbn in *; try lia.
  - apply lookup_lt_Some in Ha. lia.
  - intros Hi. assert (length (slice text i (i + length t)) = length t) as Hlen.
    { apply (f_equal length) in Hl. by rewrite !length_fmap in Hl. }
    unfold slice in Hlen. rewrite length_take, length_drop in Hlen. lia.
Qed.

(** [sub] with an empty replacement only deletes *)
Lemma sublist_sub_from r n pos : (pos ≤ length text)%nat → sublist (sub_from r [] n pos) (drop pos text).
Proof using Type.
  revert pos. induction n as [|n IH]; intros pos Hpos; cbn [sub_from]; [done|].
  destruct (search_from r (length text - pos) pos) as [[i s]|] eqn:Hs; [|done].
  apply search_from_sound in Hs as [[Hi Hl] Hm]; [|lia]. apply matches_bounds in Hm; [|done]. cbn [fst] in Hm.
  cbn [app]. rewrite <- (take_drop (i - pos) (drop pos text)) at 1. unfold slice. apply sublist_app; [done|].
  rewrite drop_drop. replace (pos + (i - pos))%nat with i by lia.
  etrans; [apply IH; lia|]. replace s.1 with (i + (s.1 - i))%nat by lia. rewrite <- drop_drop. apply sublist_drop.
Qed.

(** ** What a match consumes *)

Lemma slice_app i j k : (i ≤ j ≤ k)%nat → slice text i k = slice text i j ++ slice text j k.
Proof using Type.
  intros Hij. unfold slice. replace (k - i)%nat with ((j - i) + (k - j))%nat by lia.
  rewrite <- take_take_drop, drop_drop. do 3 f_equal. lia.
Qed.

Lemma slice_one i a : text !! i = Some a → slice text i (S i) = [a].
Proof using Type. intros Ha. unfold slice. replace (S i - i)%nat with 1%nat by lia. by rewrite (drop_S _ _ _ Ha). Qed.

(** every class of the pattern is in [P] *)
Fixpoint classes (P : ascii → Prop) (r : regex) : Prop :=
  match r with
  | Empty | Boundary | NotAhead _ => True
  | Chars p => ∀ a, p a = true → P a
  | Seq r1 r2 | Alt r1 r2 => classes P r1 ∧ classes P r2
  | Star r | Group _ r => classes P r
  | Backref _ => False
  end.

Lemma matches_classes P r s s' :
  matches r s s' → classes P r → (s.1 ≤ length text)%nat → Forall P (slice text s.1 s'.1).
Proof using Type.
  assert (∀ i, slice text i i = []) as Hnil by (intros; unfold slice; by rewrite Nat.sub_diag).
  induction 1; cbn [classes fst]; intros Hc Hl; rewrite ?Hnil; try done.
  - erewrite slice_one by done. constructor; [by apply Hc|done].
  - destruct Hc. assert (s1.1 ≤ s2.1 ≤ length text)%nat by (by eapply matches_bounds).
    assert (s2.1 ≤ s3.1 ≤ length text)%nat by (eapply matches_bounds; [done|lia]).
    rewrite (slice_app s1.1 s2.1) by lia. apply Forall_app. split; [apply IHmatches1; done|apply IHmatches2; [done|lia]].
  - apply IHmatches; [apply Hc|done].
  - apply IHmatches; [apply Hc|done].
  - assert (s1.1 ≤ s2.1 ≤ length text)%nat by (by eapply matches_bounds).
    assert (s2.1 ≤ s3.1 ≤ length text)%nat by (eapply matches_bounds; [done|lia]).
    rewrite (slice_app s1.1 s2.1) by lia. apply Forall_app. split; [apply IHmatches1; done|apply IHmatches2; [done|lia]].
  - by apply IHmatches.
Qed.

Fixpoint no_group (r : regex) : Prop :=
  match r with
  | Group _ _ => False
  | Seq r1 r2 | Alt r1 r2 => no_group r1 ∧ no_group r2
  | Star r => no_group r
  | _ => True
  end.

Lemma matches_no_group r s s' : matches r s s' → no_group r → s'.2 = s.2.
Proof using Type. induction 1; cbn [no_group snd]; try done; try (intros [? ?]); intuition congruence. Qed.

Lemma matches_seq r1 r2 s s' : matches (Seq r1 r2) s s' → ∃ s2, matches r1 s s2 ∧ matches r2 s2 s'.
Proof using Type. inversion 1; subst. eauto. Qed.
Lemma matches_alt r1 r2 s s' : matches (Alt r1 r2) s s' → matches r1 s s' ∨ matches r2 s s'.
Proof using Type. inversion 1; subst; auto. Qed.
Lemma matches_opt r s s' : matches (Opt r) s s' → matches r s s' ∨ s' = s.
Proof using Type. intros [H|H]%matches_alt; [by left|right]. by inversion H. Qed.
Lemma matches_chars p s s' : matches (Chars p) s s' → ∃ a, text !! s.1 = Some a ∧ p a = true ∧ s' = (S s.1, s.2).
Proof using Type. inversion 1; subst. eauto. Qed.
Lemma matches_group name r s s' :
  matches (Group name r) s s' → ∃ j caps, matches r s (j, caps) ∧ s' = (j, (name, (s.1, j)) :: caps).
Proof using Type. inversion 1; subst. eauto. Qed.

Lemma matches_word w s s' :
  matches (word w) s s' → (s.1 ≤ length text)%nat → lower_char <$> slice text s.1 s'.1 = lower_char <$> chars w.
Proof using Type.
  revert s s'. induction w as [|c w IH]; intros s s' Hm Hs; cbn [word] in Hm.
  - inversion Hm; subst. unfold slice. by rewrite Nat.sub_diag.
  - assert (∃ s2, matches (Chars (char_ci c)) s s2 ∧ matches (word w) s2 s') as (s2 & H1 & H2).
    { destruct w; [exists s'; split; [done|constructor]|by apply matches_seq]. }
    apply matches_chars in H1 as (a & Ha & Hp & ->). unfold char_ci in Hp. apply bool_decide_eq_true in Hp.
    apply lookup_lt_Some in Ha as Hlt. assert (S s.1 ≤ s'.1 ≤ length text)%nat by (apply matches_bounds in H2; cbn in *; lia).
    rewrite (slice_app s.1 (S s.1)) by lia. rewrite (slice_one _ a Ha), fmap_app. cbn [fmap list_fmap app chars].
    rewrite Hp. f_equal. apply IH in H2; [done|cbn; lia].
Qed.

Fixpoint groups (r : regex) : list string :=
  match r with
  | Group name r => name :: groups r
  | Seq r1 r2 | Alt r1 r2 => groups r1 ++ groups r2
  | Star r => groups r
  | _ => []
  end.

(** a match adds captures of its own groups, inside what it consumed *)
Lemma matches_captures r s s' :
  matches r s s' → (s.1 ≤ length text)%nat →
  ∃ extra, s'.2 = extra ++ s.2 ∧ Forall (λ c, c.1 ∈ groups r ∧ (s.1 ≤ c.2.1 ≤ c.2.2)%nat ∧ (c.2.2 ≤ s'.1)%nat) extra.
Proof using Type.
  induction 1 as [| | r1 r2 s1 s2 s3 H1 IH1 H2 IH2 |? ? ? ? ? IH|? ? ? ? ? IH| |r s1 s2 s3 H1 IH1 H2 IH2|name r i caps j caps' H IH| | |];
    cbn [groups fst snd] in *; intros Hl; try (exists []; split; [done|constructor]).
  - destruct (IH1 Hl) as (e1 & E1 & F1). pose proof (matches_bounds _ _ _ H1 Hl). destruct IH2 as (e2 & E2 & F2); [lia|].
    pose proof (matches_bounds _ _ _ H2 ltac:(lia)). exists (e2 ++ e1). split; [by rewrite E2, E1, app_assoc|]. apply Forall_app.
    split; [eapply Forall_impl; [exact F2|]|eapply Forall_impl; [exact F1|]]; intros c (? & ? & ?); cbn; rewrite elem_of_app; (split; [tauto|lia]).
  - destruct (IH Hl) as (e & E & F). exists e. split; [done|]. eapply Forall_impl; [exact F|]. intros c (? & ? & ?). rewrite elem_of_app. tauto.
  - destruct (IH Hl) as (e & E & F). exists e. split; [done|]. eapply Forall_impl; [exact F|]. intros c (? & ? & ?). rewrite elem_of_app. tauto.
  - destruct (IH1 Hl) as (e1 & E1 & F1). pose proof (matches_bounds _ _ _ H1 Hl). destruct IH2 as (e2 & E2 & F2); [lia|].
    pose proof (matches_bounds _ _ _ H2 ltac:(lia)). exists (e2 ++ e1). split; [by rewrite E2, E1, app_assoc|]. apply Forall_app.
    split; [eapply Forall_impl; [exact F2|]|eapply Forall_impl; [exact F1|]]; intros c (? & ? & ?); cbn; (split; [tauto|lia]).
  - destruct (IH Hl) as (e & -> & F). pose proof (matches_bounds _ _ _ H Hl) as Hb. cbn in Hb. exists ((name, (i, j)) :: e). split; [done|]. constructor.
    + cbn. split; [left|lia].
    + eapply Forall_impl; [exact F|]. intros c (? & ? & ?). split; [by right|lia].
Qed.

Lemma capture_skip name extra caps :
  Forall (λ c, c.1 ≠ name) extra → capture name (extra ++ caps) = capture name caps.
Proof using Type. induction 1 as [|[n sp] extra Hne _ IH]; [done|]. cbn [app capture]. by rewrite decide_False. Qed.

(** ** Equations *)

Lemma run_seq r1 r2 k s : run (Seq r1 r2) k s = run r1 (run r2 k) s.
Proof. done. Qed.
Lemma run_group name r k s : run (Group name r) k s = run r (λ s', k (s'.1, (name, (s.1, s'.1)) :: s'.2)) s.
Proof. done. Qed.
Lemma run_left r1 r2 k s x : run r1 k s = Some x → run (Alt r1 r2) k s = Some x.
Proof. cbn [run]. by intros ->. Qed.
Lemma run_right r1 r2 k s : run r1 k s = None → run (Alt r1 r2) k s = run r2 k s.
Proof. cbn [run]. by intros ->. Qed.
Lemma run_opt_none r k s : run r k s = None → run (Opt r) k s = k s.
Proof. apply run_right. Qed.
Lemma run_chars p k i caps a : text !! i = Some a → p a = true → run (Chars p) k (i, caps) = k (S i, caps).
Proof. intros Ha Hp. cbn [run fst snd]. by rewrite Ha, Hp. Qed.

(** ** Runs of one class *)

(** a greedy run of a class stops where the class ends *)
Lemma star_run p k i j caps x :
  (i ≤ j ≤ length text)%nat → (∀ n, (i ≤ n < j)%nat → ∃ a, text !! n = Some a ∧ p a = true) →
  (∀ a, text !! j = Some a → p a = false) → k (j, caps) = Some x → run (Star (Chars p)) k (i, caps) = Some x.
Proof.
  intros Hij Hin Hout Hk. change (star (run (Chars p)) k (length text - i) (i, caps) = Some x).
  assert (∀ n i, (i ≤ j)%nat → (j - i ≤ n)%nat → (∀ m, (i ≤ m < j)%nat → ∃ a, text !! m = Some a ∧ p a = true) →
    star (run (Chars p)) k n (i, caps) = Some x) as Hstar; [|apply Hstar; [lia|lia|done]].
  clear i Hij Hin. induction n as [|n IH]; intros i Hi Hn Hin.
  - assert (i = j) as -> by lia. done.
  - cbn [star run fst snd]. destruct (decide (i = j)) as [->|Hne].
    + destruct (text !! j) as [a|] eqn:Ha; [rewrite (Hout a eq_refl)|]; done.
    + destruct (Hin i) as (a & -> & ->); [lia|]. assert ((S i <=? i)%nat = false) as -> by (apply Nat.leb_gt; lia).
      change (match star (run (Chars p)) k n (S i, caps) with Some r => Some r | None => k (i, caps) end = Some x).
      rewrite (IH (S i)); [done|lia|lia|]. intros m Hm. apply Hin. lia.
Qed.

Lemma chars_fail p k i caps : (∀ a, text !! i = Some a → p a = false) → run (Chars p) k (i, caps) = None.
Proof. intros H. cbn [run fst]. destruct (text !! i) as [a|] eqn:Ha; [by rewrite (H a eq_refl)|done]. Qed.

Lemma star_none p k i caps : (∀ a, text !! i = Some a → p a = false) → run (Star (Chars p)) k (i, caps) = k (i, caps).
Proof.
  intros H. change (star (run (Chars p)) k (length text - i) (i, caps) = k (i, caps)).
  destruct (length text - i)%nat; [done|]. cbn [star]. by rewrite chars_fail.
Qed.
End matcher.
