(* ===== verification/IsoDates.v ===== *)
(** [datetime.date.fromisoformat], and that [isoformat] reads back.

    The calendar forms [YYYY-MM-DD] and [YYYYMMDD] and the ISO week forms
    [YYYY-Www], [YYYYWww], [YYYY-Www-D] and [YYYYWwwD] are read; the text must take 7, 8
    or 10 bytes, and what stands after the day is not looked at. *)

From S2P Require Import Prelude Text Decimals Periods Canonical.
Local Open Scope Z_scope.

(** the bytes of a text in UTF-8 *)
Fixpoint utf8_length (s : string) : nat :=
  match s with
  | EmptyString => 0
  | String a s' => ((if (N_of_ascii a <? 128)%N then 1 else 2) + utf8_length s')%nat
  end.

(** [n] digits, and what follows them *)
Fixpoint take_digits (n : nat) (acc : Z) (s : string) : option (Z * string) :=
  match n with
  | O => Some (acc, s)
  | S n' =>
      match s with
      | String a s' => if is_digit a then take_digits n' (10 * acc + Z.of_N (digit_val a)) s' else None
      | EmptyString => None
      end
  end.

Definition skip (c : ascii) (s : string) : option string :=
  match s with String a s' => if Ascii.eqb a c then Some s' else None | EmptyString => None end.

(** [date(y, m, d)], without its error *)
Definition date_of (y m d : Z) : option date :=
  match make_date y m d with Ok dt => Some dt | Err _ => None end.

(** Monday is 0 *)
Definition weekday (d : date) : Z := (toordinal d + 6) mod 7.

(** [date.fromordinal], from [0001-01-01] on *)
Definition ord_to_date (ordinal : Z) : option date :=
  if ordinal <? 1 then None else
  let n := ordinal - 1 in
  let n400 := n / 146097 in let n := n mod 146097 in
  let n100 := n / 36524 in let n := n mod 36524 in
  let n4 := n / 1461 in let n := n mod 1461 in
  let n1 := n / 365 in let n := n mod 365 in
  let year := n400 * 400 + 1 + n100 * 100 + n4 * 4 + n1 in
  if (n1 =? 4) || (n100 =? 4) then date_of (year - 1) 12 31
  else
    let month := Z.shiftr (n + 50) 5 in
    let preceding := days_before_month year month in
    let month := if n <? preceding then month - 1 else month in
    let preceding := if n <? preceding then preceding - days_in_month year month else preceding in
    date_of year month (n - preceding + 1).

Definition iso_week1_monday (year : Z) : Z :=
  let first_day := days_before_year year + 1 in
  let first_weekday := (first_day + 6) mod 7 in
  let week1_monday := first_day - first_weekday in
  if 3 <? first_weekday then week1_monday + 7 else week1_monday.

Definition iso_to_date (iso_year iso_week iso_day : Z) : option date :=
  let first_weekday := (days_before_year iso_year + 1 + 6) mod 7 in
  let week_ok := (0 <? iso_week) && (iso_week <? 53)
                 || (iso_week =? 53) && ((first_weekday =? 3) || (first_weekday =? 2) && is_leap iso_year) in
  if week_ok && (0 <? iso_day) && (iso_day <? 8)
  then ord_to_date (iso_week1_monday iso_year + (iso_week - 1) * 7 + iso_day - 1) else None.

Definition date_fromisoformat (s : string) : option date :=
  if bool_decide (utf8_length s ∈ [7; 8; 10]%nat) then
    '(year, r) ← take_digits 4 0 s;
    let dash := match skip "-" r with Some _ => true | None => false end in
    let r := default r (skip "-" r) in
    let separated r := if dash then skip "-" r else Some r in
    match r with
    | String "W" r =>
        '(iso_week, r) ← take_digits 2 0 r;
        match r with
        | EmptyString => iso_to_date year iso_week 1
        | _ =>
            r ← separated r;
            '(iso_day, _) ← take_digits 1 0 r;
            iso_to_date year iso_week iso_day
        end
    | _ =>
        '(month, r) ← take_digits 2 0 r;
        r ← separated r;
        '(day, _) ← take_digits 2 0 r;
        date_of year month day
    end
  else None.

(** * [isoformat] reads back *)

Lemma take_digits_app l acc rest :
  Forall (λ d, (d < 10)%N) l →
  take_digits (length l) acc (string_of_digits l +:+ rest)%string = Some (acc * 10 ^ Z.of_nat (length l) + Z.of_N (undigits l), rest).
Proof.
  intros Hl. revert acc. induction Hl as [|d l Hd Hl IH]; intros acc; cbn [length take_digits].
  - change (10 ^ Z.of_nat 0) with 1. change (undigits []) with 0%N. by rewrite Z.mul_1_r, Z.add_0_r.
  - rewrite string_of_digits_cons, string_app_cons. destruct (digit_char_spec d Hd) as [-> ->]. rewrite IH. do 2 f_equal.
    change (d :: l) with ([d] ++ l). rewrite undigits_app, Nat2Z.inj_succ, Z.pow_succ_r, N2Z.inj_add, N2Z.inj_mul, N2Z.inj_pow, nat_N_Z by lia.
    change (undigits [d]) with (10 * 0 + d)%N. lia.
Qed.

Lemma padded_digits w n : 0 ≤ n < 10 ^ Z.of_nat w → (0 < w)%nat →
  ∃ l, padded w n = string_of_digits l ∧ Forall (λ d, (d < 10)%N) l ∧ length l = w ∧ Z.of_N (undigits l) = n.
Proof.
  intros Hn Hw. unfold padded. exists (replicate (w - length (digits (Z.to_N n))) 0%N ++ digits (Z.to_N n)). split; [done|].
  split; [apply Forall_app; split; [by apply Forall_replicate|apply digits_lt_10]|].
  assert (length (digits (Z.to_N n)) ≤ w)%nat as Hl.
  { assert (ndigits (Z.to_N n) ≤ Z.of_nat w) as Hd; [|unfold ndigits in Hd; lia].
    apply ndigits_le_iff; [lia|]. unfold pow10. apply N2Z.inj_lt. rewrite N2Z.inj_pow, !Z2N.id by lia. lia. }
  split; [rewrite length_app, length_replicate; lia|].
  rewrite undigits_app, undigits_digits. assert (undigits (replicate (w - length (digits (Z.to_N n))) 0%N) = 0%N) as ->.
  { pose proof (undigits_zeros (Z.of_nat (w - length (digits (Z.to_N n))))) as Hz. unfold zeros in Hz. by rewrite Nat2Z.id in Hz. }
  lia.
Qed.

Lemma take_padded w n rest : 0 ≤ n < 10 ^ Z.of_nat w → (0 < w)%nat → take_digits w 0 (padded w n +:+ rest)%string = Some (n, rest).
Proof.
  intros Hn Hw. destruct (padded_digits w n Hn Hw) as (l & -> & Hl & <- & <-). by rewrite take_digits_app.
Qed.

Lemma utf8_digits l rest : Forall (λ d, (d < 10)%N) l → utf8_length (string_of_digits l +:+ rest)%string = (length l + utf8_length rest)%nat.
Proof.
  induction 1 as [|d l Hd _ IH]; [done|]. rewrite string_of_digits_cons, string_app_cons. cbn [utf8_length length].
  rewrite IH. assert (N_of_ascii (digit_char d) <? 128 = true)%N as ->; [|done].
  unfold digit_char. rewrite N_ascii_embedding by lia. apply N.ltb_lt. lia.
Qed.

Lemma utf8_padded w n rest : 0 ≤ n < 10 ^ Z.of_nat w → (0 < w)%nat → utf8_length (padded w n +:+ rest)%string = (w + utf8_length rest)%nat.
Proof. intros Hn Hw. destruct (padded_digits w n Hn Hw) as (l & -> & Hl & <- & _). by apply utf8_digits. Qed.

Definition date_ok (d : date) : Prop := date_of (d_year d) (d_month d) (d_day d) = Some d.

Lemma date_of_ok y m d dt : date_of y m d = Some dt → date_ok dt.
Proof.
  unfold date_ok, date_of. destruct (make_date y m d) as [x|] eqn:Hm; [|done]. intros [= <-].
  pose proof Hm as Hm'. unfold make_date in Hm'. apply bind_Ok in Hm' as (_ & _ & [= <-]). cbn. by rewrite Hm.
Qed.

Lemma date_ok_bounds d : date_ok d → 1 ≤ d_year d ≤ 9999 ∧ 1 ≤ d_month d ≤ 12 ∧ 1 ≤ d_day d ≤ 31.
Proof.
  unfold date_ok, date_of, make_date. destruct (ensure _ _) eqn:He; [|done]. intros _. apply ensure_Ok in He. btrue.
  assert (days_in_month (d_year d) (d_month d) ≤ 31) by (unfold days_in_month; repeat case_match; lia). lia.
Qed.

Lemma padded_first w n rest : 0 ≤ n < 10 ^ Z.of_nat w → (0 < w)%nat →
  ∃ a t, (padded w n +:+ rest)%string = String a t ∧ is_digit a = true.
Proof.
  intros Hn Hw. destruct (padded_digits w n Hn Hw) as (l & -> & Hl & Hlen & _). destruct l as [|x l]; [cbn in Hlen; lia|].
  apply Forall_cons in Hl as [Hx _]. eexists _, _. split; [done|]. by apply digit_char_spec.
Qed.

Lemma dash_app t : ("-" +:+ t)%string = String "-" t.
Proof. done. Qed.

Lemma fromisoformat_isoformat d : date_ok d → date_fromisoformat (date_isoformat d) = Some d.
Proof.
  intros Hd. pose proof (date_ok_bounds d Hd) as (Hy & Hm & Hday). unfold date_fromisoformat, date_isoformat.
  rewrite <- (string_app_nil (padded 2 (d_day d))). rewrite !dash_app.
  rewrite utf8_padded by lia. cbn [utf8_length]. rewrite utf8_padded by lia. cbn [utf8_length]. rewrite utf8_padded by lia.
  rewrite bool_decide_true by (apply (bool_decide_unpack _); vm_compute; exact I).
  rewrite take_padded by lia. cbn [mbind option_bind skip Ascii.eqb Bool.eqb default from_option id].
  pose proof (take_padded 2 (d_month d) (String "-" (padded 2 (d_day d) +:+ "")) ltac:(lia) ltac:(lia)) as Htake.
  destruct (padded_first 2 (d_month d) (String "-" (padded 2 (d_day d) +:+ ""))) as (a & t & Ha & Hdig); [lia|lia|].
  rewrite Ha in *. destruct a as [[] [] [] [] [] [] [] []]; cbn in Hdig; try done; cbn beta iota; rewrite Htake; cbn [mbind option_bind skip Ascii.eqb Bool.eqb];
    rewrite take_padded by lia; exact Hd.
Qed.
