(* ===== verification/Moments.v ===== *)
(** [datetime.datetime]: [isoformat], [fromisoformat] and the order of instants.

    A moment is its local date and microsecond of the day, with the offset of its
    zone in microseconds when it has one.  Two moments compare only when both or
    neither have a zone. *)

From S2P Require Import Prelude Text Decimals Periods Values Canonical IsoDates.
Local Open Scope Z_scope.

Record moment := Moment { m_date : date; m_us : Z; m_offset : option Z }.

#[export] Instance moment_eq_dec : EqDecision moment.
Proof. solve_decision. Defined.

Definition DAY_US : Z := 86400000000.

(** [a > b]; [None] is the [TypeError] of a naive and an aware moment *)
Definition moment_gtb (a b : moment) : option bool :=
  let local t := toordinal (m_date t) * DAY_US + m_us t in
  match m_offset a, m_offset b with
  | None, None => Some (local b <? local a)
  | Some x, Some y => Some (local b - y <? local a - x)
  | _, _ => None
  end.

(** * [isoformat] *)

Definition fraction_text (us : Z) : string := if us =? 0 then "" else ("." +:+ padded 6 us)%string.

Definition time_isoformat (us : Z) : string :=
  let s := us / 1000000 in
  (padded 2 (s / 3600)%Z +:+ ":" +:+ padded 2 (s / 60 mod 60)%Z +:+ ":" +:+ padded 2 (s mod 60)%Z +:+ fraction_text (us mod 1000000)%Z)%string.

Definition offset_text (offset : Z) : string :=
  let us := Z.abs offset in
  let s := us / 1000000 in
  ((if (offset <? 0)%Z then "-" else "+") +:+ padded 2 (s / 3600)%Z +:+ ":" +:+ padded 2 (s / 60 mod 60)%Z +:+
   (if ((s mod 60 =? 0) && (us mod 1000000 =? 0))%Z then "" else ":" +:+ padded 2 (s mod 60)%Z +:+ fraction_text (us mod 1000000)%Z))%string.

Definition isoformat (t : moment) : string :=
  (date_isoformat (m_date t) +:+ "T" +:+ time_isoformat (m_us t) +:+ match m_offset t with Some o => offset_text o | None => "" end)%string.

(** * [fromisoformat] *)

Fixpoint span_digit_chars (l : list ascii) : nat :=
  match l with a :: l' => if is_digit a then S (span_digit_chars l') else 0 | [] => 0 end.

(** where the date ends: after the 7, 8 or 10 characters of its form *)
Definition separator_location (s : string) : nat :=
  let at_ (i : nat) c := bool_decide (chars s !! i = Some c) in
  let digit_at (i : nat) := match chars s !! i with Some a => is_digit a | None => false end in
  if (String.length s =? 7)%nat then 7
  else if at_ 4%nat "-"%char then
    if at_ 5%nat "W"%char then (if at_ 8%nat "-"%char then (if digit_at 10%nat then 8 else 10) else 8)
    else 10
  else if at_ 4%nat "W"%char then
    let run := span_digit_chars (drop 7 (chars s)) in
    if (run <? 2)%nat then 7 + run else if Nat.even (7 + run) then 7 else 8
  else 8.

Definition is_point (a : ascii) : bool := Ascii.eqb a "." || Ascii.eqb a ",".

(** up to six digits of a fraction of a second; further digits are dropped *)
Definition read_fraction (s : string) : option Z :=
  match span_digits s with
  | ([], _) => None
  | (l, EmptyString) => Some (Z.of_N (undigits (take 6 l)) * 10 ^ Z.of_nat (6 - length l))
  | _ => None
  end.

(** [HH[:?MM[:?SS[.ffffff]]]], in microseconds with the hours, minutes and seconds *)
Definition read_clock (s : string) : option (Z * Z * Z * Z) :=
  '(hh, r) ← take_digits 2 0 s;
  match r with
  | EmptyString => Some (hh, 0, 0, 0)
  | String c r' =>
      if is_point c then us ← read_fraction r'; Some (hh, 0, 0, us) else
      let colon := Ascii.eqb c ":" in
      '(mm, r) ← take_digits 2 0 (if colon then r' else r);
      match r with
      | EmptyString => Some (hh, mm, 0, 0)
      | String c r' =>
          if is_point c then us ← read_fraction r'; Some (hh, mm, 0, us) else
          r ← (if colon then skip ":" r else Some r);
          '(ss, r) ← take_digits 2 0 r;
          match r with
          | EmptyString => Some (hh, mm, ss, 0)
          | String c r' => if is_point c then us ← read_fraction r'; Some (hh, mm, ss, us) else None
          end
      end
  end.

Definition clock_us (t : Z * Z * Z * Z) : Z := let '(hh, mm, ss, us) := t in ((hh * 60 + mm) * 60 + ss) * 1000000 + us.

Definition clock_ok (t : Z * Z * Z * Z) : bool := let '(hh, mm, ss, us) := t in (hh <? 24) && (mm <? 60) && (ss <? 60).

(** the text up to the zone, the sign that begins it and what follows *)
Definition split_zone (s : string) : string * option (ascii * string) :=
  let cut c := let '(h, sep, t) := partition c s in if bool_decide (sep = ""%string) then None else Some (h, Some (c, t)) in
  match cut "-"%char with Some x => x | None =>
  match cut "+"%char with Some x => x | None =>
  match cut "Z"%char with Some x => x | None => (s, None) end end end.

(** [None] is the error of a text that is no zone *)
Definition read_zone (zone : option (ascii * string)) : option (option Z) :=
  match zone with
  | None => Some None
  | Some (c, EmptyString) => if Ascii.eqb c "Z" then Some (Some 0) else None
  | Some (c, t) =>
      if bool_decide (String.length t ∈ [1; 3]%nat) then None else
      z ← read_clock t;
      let offset := clock_us z in
      if offset <? DAY_US then Some (Some (if Ascii.eqb c "-" then - offset else offset)) else None
  end.

Definition fromisoformat (s : string) : option moment :=
  if (String.length s <? 7)%nat then None else
  let n := separator_location s in
  d ← date_fromisoformat (String.substring 0 n s);
  if (String.length s <=? n)%nat then Some (Moment d 0 None) else
  let '(clock, zone) := split_zone (String.substring (S n) (String.length s - S n) s) in
  t ← read_clock clock;
  offset ← read_zone zone;
  if clock_ok t then Some (Moment d (clock_us t) offset) else None.

(** [s.replace("Z", "+00:00")] *)
Fixpoint replace_Z (s : string) : string :=
  match s with EmptyString => EmptyString | String a s' => if Ascii.eqb a "Z" then ("+00:00" +:+ replace_Z s')%string else String a (replace_Z s') end.

(** * [isoformat] reads back *)

Definition moment_ok (t : moment) : Prop :=
  date_ok (m_date t) ∧ 0 ≤ m_us t < DAY_US ∧ match m_offset t with Some o => Z.abs o < DAY_US | None => True end.

(** the characters of a time without its zone *)
Definition clock_char (a : ascii) : bool := is_digit a || Ascii.eqb a ":" || Ascii.eqb a ".".

Lemma all_chars_impl (p q : ascii → bool) s : (∀ a, p a = true → q a = true) → all_chars p s = true → all_chars q s = true.
Proof. intros Hpq. induction s as [|a s IH]; [done|]. cbn. intros [Ha Hs]%andb_true_iff. by rewrite Hpq, IH. Qed.

Lemma all_chars_padded w n : 0 ≤ n < 10 ^ Z.of_nat w → (0 < w)%nat → all_chars is_digit (padded w n) = true.
Proof.
  intros Hn Hw. destruct (padded_digits w n Hn Hw) as (l & -> & Hl & _). induction Hl as [|d l Hd _ IH]; [done|].
  rewrite string_of_digits_cons. cbn. destruct (digit_char_spec d Hd) as [-> _]. exact IH.
Qed.

Lemma length_padded w n : 0 ≤ n < 10 ^ Z.of_nat w → (0 < w)%nat → String.length (padded w n) = w.
Proof.
  intros Hn Hw. destruct (padded_digits w n Hn Hw) as (l & -> & _ & <- & _). clear. induction l as [|d l IH]; [done|]. rewrite string_of_digits_cons. cbn. by rewrite IH.
Qed.

Lemma partition_found c s t : all_chars (λ a, negb (Ascii.eqb a c)) s = true → partition c (s +:+ String c t)%string = (s, String c EmptyString, t).
Proof.
  induction s as [|a s IH]; [|rewrite string_app_cons]; cbn; [intros _; change ("" +:+ String c t)%string with (String c t); cbn; by rewrite Ascii.eqb_refl|].
  intros [Ha Hs]%andb_true_iff. apply negb_true_iff in Ha. by rewrite Ha, IH.
Qed.

Lemma partition_missing c s : all_chars (λ a, negb (Ascii.eqb a c)) s = true → partition c s = (s, EmptyString, EmptyString).
Proof.
  induction s as [|a s IH]; [done|]. cbn. intros [Ha Hs]%andb_true_iff. apply negb_true_iff in Ha. by rewrite Ha, IH.
Qed.

Lemma substring_app s t : String.substring 0 (String.length s) (s +:+ t)%string = s.
Proof. induction s as [|a s IH]; [by destruct t|]. rewrite string_app_cons. cbn. by rewrite IH. Qed.

Lemma substring_all s : String.substring 0 (String.length s) s = s.
Proof. rewrite <- (string_app_nil s) at 2. apply substring_app. Qed.

Lemma substring_skip s t m : String.substring (String.length s) m (s +:+ t)%string = String.substring 0 m t.
Proof. induction s as [|a s IH]; [done|]. rewrite string_app_cons. cbn. exact IH. Qed.

Lemma replace_Z_id s : all_chars (λ a, negb (Ascii.eqb a "Z")) s = true → replace_Z s = s.
Proof.
  induction s as [|a s IH]; [done|]. cbn. intros [Ha Hs]%andb_true_iff. apply negb_true_iff in Ha. by rewrite Ha, IH.
Qed.

Lemma clock_char_not a c : clock_char c = false → clock_char a = true → negb (Ascii.eqb a c) = true.
Proof. intros Hc Ha. apply negb_true_iff, Ascii.eqb_neq. congruence. Qed.

(** * The clock *)

Lemma read_fraction_padded us : 0 < us < 1000000 → read_fraction (padded 6 us) = Some us.
Proof.
  intros Hus. destruct (padded_digits 6 us ltac:(cbn; lia) ltac:(lia)) as (l & -> & Hl & Hlen & Hval). unfold read_fraction.
  pose proof (span_digits_app l EmptyString Hl eq_refl) as Hs. rewrite string_app_nil in Hs. rewrite Hs.
  destruct l as [|d l]; [done|]. rewrite take_ge by lia. rewrite Hlen, Hval. cbn. f_equal. lia.
Qed.

Lemma colon_app t : (":" +:+ t)%string = String ":" t.
Proof. done. Qed.

Lemma read_clock_minutes hh mm : 0 ≤ hh < 100 → 0 ≤ mm < 100 → read_clock (padded 2 hh +:+ ":" +:+ padded 2 mm)%string = Some (hh, mm, 0, 0).
Proof.
  intros Hh Hm. unfold read_clock. rewrite colon_app, take_padded by (cbn; lia). cbn -[padded take_digits].
  rewrite <- (string_app_nil (padded 2 mm)), take_padded by (cbn; lia). done.
Qed.

Lemma read_clock_seconds hh mm ss us : 0 ≤ hh < 100 → 0 ≤ mm < 100 → 0 ≤ ss < 100 → 0 ≤ us < 1000000 →
  read_clock (padded 2 hh +:+ ":" +:+ padded 2 mm +:+ ":" +:+ padded 2 ss +:+ fraction_text us)%string = Some (hh, mm, ss, us).
Proof.
  intros Hh Hm Hs Hus. unfold read_clock. rewrite !colon_app, take_padded by (cbn; lia). cbn -[padded take_digits fraction_text].
  rewrite take_padded by (cbn; lia). cbn -[padded take_digits fraction_text].
  rewrite take_padded by (cbn; lia). cbn -[padded take_digits fraction_text].
  unfold fraction_text. destruct (Z.eqb_spec us 0) as [->|Hne]; [done|].
  change ("." +:+ padded 6 us)%string with (String "." (padded 6 us)). cbn -[padded read_fraction].
  by rewrite read_fraction_padded by lia.
Qed.

Definition clock_of (us : Z) : Z * Z * Z * Z := let s := us / 1000000 in (s / 3600, s / 60 mod 60, s mod 60, us mod 1000000).

Lemma clock_of_us us : 0 ≤ us < DAY_US → clock_us (clock_of us) = us ∧ clock_ok (clock_of us) = true.
Proof. intros H. unfold clock_of, clock_us, clock_ok, DAY_US in *. split; [lia|]. rewrite !andb_true_iff, !Z.ltb_lt. lia. Qed.

Lemma read_time us : 0 ≤ us < DAY_US → read_clock (time_isoformat us) = Some (clock_of us).
Proof. intros H. unfold time_isoformat, clock_of, DAY_US in *. rewrite read_clock_seconds by lia. done. Qed.

Lemma all_chars_clock w n : 0 ≤ n < 10 ^ Z.of_nat w → (0 < w)%nat → all_chars clock_char (padded w n) = true.
Proof. intros Hn Hw. eapply all_chars_impl; [|by apply all_chars_padded]. intros a Ha. unfold clock_char. by rewrite Ha. Qed.

Lemma all_chars_fraction us : 0 ≤ us < 1000000 → all_chars clock_char (fraction_text us) = true.
Proof. intros H. unfold fraction_text. case_match; [done|]. cbn -[padded]. rewrite all_chars_app, all_chars_clock by (cbn; lia). done. Qed.

Lemma all_chars_time us : 0 ≤ us < DAY_US → all_chars clock_char (time_isoformat us) = true.
Proof.
  intros H. unfold time_isoformat, DAY_US in *. rewrite !colon_app, !all_chars_app. cbn [all_chars]. rewrite !all_chars_app. cbn [all_chars].
  rewrite !all_chars_app, !all_chars_clock, all_chars_fraction by (cbn; lia). done.
Qed.

(** * The zone *)

Lemma offset_text_shape o : Z.abs o < DAY_US →
  ∃ c t, offset_text o = String c t ∧ c = (if (o <? 0)%Z then "-" else "+")%char ∧
    read_clock t = Some (clock_of (Z.abs o)) ∧ t ≠ EmptyString ∧ String.length t ∉ [1; 3]%nat ∧ all_chars clock_char t = true.
Proof.
  intros Ho. unfold DAY_US in Ho. unfold offset_text, clock_of. set (us := Z.abs o) in *. assert (0 ≤ us) by (unfold us; lia). clearbody us.
  eexists _, _. split; [|split; [done|]]; [by destruct (o <? 0)|].
  assert (0 ≤ us / 1000000 / 3600 < 24 ∧ 0 ≤ us / 1000000 / 60 mod 60 < 60 ∧ 0 ≤ us / 1000000 mod 60 < 60 ∧ 0 ≤ us mod 1000000 < 1000000) as (Hh & Hm & Hs & Hf) by lia.
  destruct ((us / 1000000 mod 60 =? 0) && (us mod 1000000 =? 0)) eqn:Hz.
  - apply andb_true_iff in Hz as [Hz1%Z.eqb_eq Hz2%Z.eqb_eq]. rewrite Hz1, Hz2, string_app_nil. change ("" +:+ ?s)%string with s.
    rewrite read_clock_minutes by lia. split; [done|]. rewrite colon_app, string_length_app. cbn -[padded]. rewrite !length_padded by (cbn; lia).
    split; [intros Hn%(f_equal String.length); rewrite string_length_app in Hn; cbn -[padded] in Hn; rewrite length_padded in Hn by (cbn; lia); lia|].
    split; [by apply (bool_decide_unpack _); vm_compute|].
    rewrite all_chars_app. cbn [all_chars]. rewrite !all_chars_clock by (cbn; lia). done.
  - change ("" +:+ ?s)%string with s. rewrite read_clock_seconds by lia. split; [done|].
    rewrite !colon_app, string_length_app. cbn -[padded fraction_text]. rewrite !string_length_app. cbn -[padded fraction_text]. rewrite !string_length_app.
    rewrite !length_padded by (cbn; lia).
    split; [intros Hn%(f_equal String.length); rewrite string_length_app in Hn; cbn -[padded fraction_text] in Hn; rewrite length_padded in Hn by (cbn; lia); lia|].
    split; [rewrite !not_elem_of_cons; split_and!; [lia|lia|apply not_elem_of_nil]|].
    rewrite all_chars_app. cbn [all_chars]. rewrite all_chars_app. cbn [all_chars]. rewrite all_chars_app.
    rewrite !all_chars_clock, all_chars_fraction by (cbn; lia). done.
Qed.

Lemma split_zone_none s : all_chars clock_char s = true → split_zone s = (s, None).
Proof.
  intros Hs. unfold split_zone. rewrite !partition_missing; [done|..]; eapply all_chars_impl; try exact Hs; intros a; by apply clock_char_not.
Qed.

Lemma split_zone_some s (negative : bool) t : let c := (if negative then "-" else "+")%char in
  all_chars clock_char s = true → all_chars clock_char t = true → split_zone (s +:+ String c t)%string = (s, Some (c, t)).
Proof.
  intros c Hs Ht. assert (∀ d u, clock_char d = false → all_chars clock_char u = true → all_chars (λ a, negb (Ascii.eqb a d)) u = true) as Hnot.
  { intros d u Hd. apply all_chars_impl. intros a. by apply clock_char_not. }
  unfold split_zone. subst c. destruct negative; [by rewrite partition_found by (by apply Hnot)|].
  rewrite partition_missing; [|rewrite all_chars_app; cbn; by rewrite !Hnot]. by rewrite partition_found by (by apply Hnot).
Qed.

Lemma read_zone_offset o c t : Z.abs o < DAY_US → offset_text o = String c t →
  c = (if (o <? 0)%Z then "-" else "+")%char ∧ all_chars clock_char t = true ∧ read_zone (Some (c, t)) = Some (Some o).
Proof.
  intros Ho Heq. destruct (offset_text_shape o Ho) as (c' & t' & Heq' & Hc & Hread & Hne & Hlen & Hchars).
  rewrite Heq in Heq'. injection Heq' as <- <-. split; [done|split; [done|]]. unfold read_zone. destruct t as [|a t]; [done|].
  rewrite bool_decide_false by done. rewrite Hread. cbn [mbind option_bind].
  destruct (clock_of_us (Z.abs o)) as [Hus _]; [lia|]. rewrite Hus. destruct (Z.ltb_spec (Z.abs o) DAY_US); [|lia].
  do 2 f_equal. rewrite Hc. destruct (Z.ltb_spec o 0); cbn; lia.
Qed.

(** ** The date part *)

Lemma date_text_shape d : date_ok d → ∃ y1 y2 y3 y4 m1 m2 d1 d2,
  date_isoformat d = String y1 (String y2 (String y3 (String y4 (String "-" (String m1 (String m2 (String "-" (String d1 (String d2 ""))))))))) ∧
  Forall (λ a, is_digit a = true) [y1; y2; y3; y4; m1; m2; d1; d2].
Proof.
  intros Hd. pose proof (date_ok_bounds d Hd) as (Hy & Hm & Hday). unfold date_isoformat.
  assert (∀ w n, 0 ≤ n < 10 ^ Z.of_nat w → (0 < w)%nat → ∃ l, padded w n = foldr String "" l ∧ length l = w ∧ Forall (λ a, is_digit a = true) l) as Hshape.
  { intros w n Hn Hw. destruct (padded_digits w n Hn Hw) as (l & -> & Hl & <- & _). exists (digit_char <$> l). rewrite length_fmap. split_and!; [|done|].
    - clear. induction l as [|x l IH]; [done|]. rewrite string_of_digits_cons, IH. done.
    - apply Forall_fmap. eapply Forall_impl; [done|]. intros x Hx. by destruct (digit_char_spec x Hx). }
  destruct (Hshape 4%nat (d_year d)) as (ly & -> & Hly & Hdy); [cbn; lia|lia|].
  destruct (Hshape 2%nat (d_month d)) as (lm & -> & Hlm & Hdm); [cbn; lia|lia|].
  destruct (Hshape 2%nat (d_day d)) as (ld & -> & Hld & Hdd); [cbn; lia|lia|].
  destruct ly as [|y1 [|y2 [|y3 [|y4 []]]]]; try done. destruct lm as [|m1 [|m2 []]]; try done. destruct ld as [|d1 [|d2 []]]; try done.
  exists y1, y2, y3, y4, m1, m2, d1, d2. split; [done|].
  rewrite !Forall_cons in *. naive_solver.
Qed.

Lemma separator_location_date d rest : date_ok d → separator_location (date_isoformat d +:+ rest)%string = 10%nat.
Proof.
  intros Hd. destruct (date_text_shape d Hd) as (y1 & y2 & y3 & y4 & m1 & m2 & d1 & d2 & -> & Hdig).
  unfold separator_location. rewrite string_length_app. destruct (Nat.eqb_spec (String.length (String y1 (String y2 (String y3 (String y4 (String "-" (String m1 (String m2 (String "-" (String d1 (String d2 "")))))))))) + String.length rest) 7) as [Hl|_]; [cbn in Hl; lia|].
  rewrite chars_app. cbn. rewrite bool_decide_true by done. rewrite bool_decide_false; [done|].
  intros [= ->]. rewrite !Forall_cons in Hdig. naive_solver.
Qed.

Lemma date_isoformat_not_Z d : date_ok d → all_chars (λ a, negb (Ascii.eqb a "Z")) (date_isoformat d) = true.
Proof.
  intros Hd. destruct (date_text_shape d Hd) as (y1 & y2 & y3 & y4 & m1 & m2 & d1 & d2 & -> & Hdig). rewrite !Forall_cons in Hdig. cbn.
  assert (∀ a, is_digit a = true → negb (Ascii.eqb a "Z") = true) as Hz by (intros a Ha; apply negb_true_iff, Ascii.eqb_neq; by intros ->).
  destruct_and!. by rewrite !Hz.
Qed.

(** the text after the date *)
Definition clock_text (t : moment) : string := time_isoformat (m_us t) +:+ match m_offset t with Some o => offset_text o | None => "" end.

Lemma clock_text_spec t : moment_ok t →
  let '(clock, zone) := split_zone (clock_text t) in read_clock clock = Some (clock_of (m_us t)) ∧ read_zone zone = Some (m_offset t).
Proof.
  intros (_ & Hus & Ho). unfold clock_text. pose proof (all_chars_time _ Hus) as Hc. destruct (m_offset t) as [o|].
  - destruct (offset_text_shape o Ho) as (c & z & Hz & _). destruct (read_zone_offset o c z Ho Hz) as (-> & Hchars & Hread). rewrite Hz.
    rewrite split_zone_some by done. split; [by apply read_time|done].
  - rewrite string_app_nil, split_zone_none by done. split; [by apply read_time|done].
Qed.

Lemma isoformat_not_Z t : moment_ok t → all_chars (λ a, negb (Ascii.eqb a "Z")) (isoformat t) = true.
Proof.
  intros (Hd & Hus & Ho). unfold isoformat. change ("T" +:+ ?s)%string with (String "T" s).
  rewrite all_chars_app, date_isoformat_not_Z by done. cbn -[time_isoformat]. rewrite all_chars_app.
  assert (∀ s, all_chars clock_char s = true → all_chars (λ a, negb (Ascii.eqb a "Z")) s = true) as Hz
    by (intros s; apply all_chars_impl; intros a; by apply clock_char_not).
  rewrite Hz by (by apply all_chars_time). destruct (m_offset t) as [o|]; [|done].
  destruct (offset_text_shape o Ho) as (c & z & -> & -> & _ & _ & _ & Hchars). cbn. rewrite Hz by done. by destruct (o <? 0).
Qed.

Lemma fromisoformat_restores (t : moment) : moment_ok t → fromisoformat (replace_Z (isoformat t)) = Some t.
Proof.
  intros Hok. pose proof Hok as (Hd & Hus & Ho). rewrite replace_Z_id by (by apply isoformat_not_Z).
  assert (isoformat t = date_isoformat (m_date t) +:+ String "T" (clock_text t))%string as -> by done.
  assert (String.length (date_isoformat (m_date t)) = 10%nat) as Hten by (by destruct (date_text_shape _ Hd) as (? & ? & ? & ? & ? & ? & ? & ? & -> & _)).
  unfold fromisoformat. rewrite separator_location_date by done. rewrite string_length_app, Hten.
  destruct (Nat.ltb_spec (10 + String.length (String "T" (clock_text t))) 7); [lia|]. rewrite <- Hten, substring_app, Hten.
  rewrite fromisoformat_isoformat by done. cbn [mbind option_bind].
  destruct (Nat.leb_spec (10 + String.length (String "T" (clock_text t))) 10) as [Hle|_]; [cbn in Hle; lia|].
  assert (date_isoformat (m_date t) +:+ String "T" (clock_text t) = (date_isoformat (m_date t) +:+ "T") +:+ clock_text t)%string as -> by (by rewrite string_app_assoc).
  assert (11 = String.length (date_isoformat (m_date t) +:+ "T"))%nat as Heleven by (by rewrite string_length_app, Hten).
  rewrite Heleven, substring_skip, <- Heleven. cbn [String.length]. replace (10 + S (String.length (clock_text t)) - 11)%nat with (String.length (clock_text t)) by lia.
  rewrite substring_all. pose proof (clock_text_spec t Hok) as Hspec. destruct (split_zone (clock_text t)) as [clock zone]. destruct Hspec as [-> ->].
  cbn [mbind option_bind]. destruct (clock_of_us _ Hus) as [-> ->]. by destruct t.
Qed.

(** What a checkpoint stores of a publication time, [_restore_output] reads back
    as the same time: its zone, its microseconds and all. *)
Theorem published_at_roundtrip (t : moment) : moment_ok t → fromisoformat (replace_Z (isoformat t)) = Some t.
Proof. apply fromisoformat_restores. Qed.

Lemma published_at_roundtrip_witness :
  let t := Moment (Date 2024 2 29) 45045123456 (Some (-30500000)) in moment_ok t ∧ fromisoformat (replace_Z (isoformat t)) = Some t.
Proof.
  intros t. assert (moment_ok t) as Hok by (split; [reflexivity|split; [split; vm_compute; [discriminate|reflexivity]|reflexivity]]).
  split; [exact Hok|exact (published_at_roundtrip t Hok)].
Defined.
