(* ===== verification/Payload.v ===== *)
(** Extraction payloads: JSON-like Python values, their text, and the helpers
    every validator uses.

    A payload arrives as whatever a model produced, so every access is made on a
    [value] of dynamic type.  A float is represented by its [repr].  The module
    covers [str], [repr], truth, [dict.get], [str.strip], [Decimal(str)],
    workers/src/fel_workers/extraction/hashing.py and the unit vocabulary of
    packages/ontology/fel_ontology/units.py.  Text is a sequence of characters
    below 256. *)

From S2P Require Import Prelude Dicts Text Decimals Periods Canonical.
Local Open Scope Z_scope.

(** * Values *)

Inductive value :=
| NoneV
| BoolV (b : bool)
| IntV (z : Z)
| FloatV (repr : string)
| StrV (s : string)
| ListV (l : list value)
| DictV (items : list (string * value)).

Notation payload := (list (string * value)).

Definition is_str (s : string) (v : value) : bool := match v with StrV t => bool_decide (t = s) | _ => false end.
Definition is_none (v : value) : bool := match v with NoneV => true | _ => false end.

(** [v] when it is an [int] and not a [bool] *)
Definition int_or_none (v : value) : option Z := match v with IntV z => Some z | _ => None end.

(** [type(v).__name__] *)
Definition type_name (v : value) : string :=
  match v with
  | NoneV => "NoneType" | BoolV _ => "bool" | IntV _ => "int" | FloatV _ => "float" | StrV _ => "str"
  | ListV _ => "list" | DictV _ => "dict"
  end.

(** a value a set can look up *)
Definition hashable (v : value) : bool := match v with ListV _ | DictV _ => false | _ => true end.

(** [d.get(k)] *)
Definition get (k : string) (d : list (string * value)) : value := default NoneV (dict_get k d).
(** [k in d] *)
Definition has (k : string) (d : list (string * value)) : bool := bool_decide (is_Some (dict_get k d)).

(** [bool(v)] *)
Definition truth (v : value) : bool :=
  match v with
  | NoneV => false
  | BoolV b => b
  | IntV z => negb (z =? 0)
  | FloatV t => negb (bool_decide (t = "0.0" ∨ t = "-0.0")%string)
  | StrV s => negb (bool_decide (s = ""%string))
  | ListV l => match l with [] => false | _ => true end
  | DictV l => match l with [] => false | _ => true end
  end.

(** [d.get(k) or {}], when it is a dict *)
Definition dict_or_empty (v : value) : option (list (string * value)) :=
  if truth v then match v with DictV items => Some items | _ => None end else Some [].

(** * Text *)

Definition APOSTROPHE : ascii := ascii_of_N 39.

Definition repr_char (q a : ascii) : string :=
  let n := N_of_ascii a in
  if Ascii.eqb a q || (n =? 92)%N then String "\" (String a EmptyString)
  else if (n =? 9)%N then "\t" else if (n =? 10)%N then "\n" else if (n =? 13)%N then "\r"
  else if ((n <? 32) || (127 <=? n) && (n <=? 160) || (n =? 173))%N
    then "\x" +:+ String (hex_char (n / 16)) (String (hex_char (n mod 16)) EmptyString)
  else String a EmptyString.

Fixpoint repr_chars (q : ascii) (s : string) : string :=
  match s with EmptyString => EmptyString | String a s' => repr_char q a +:+ repr_chars q s' end.

(** [repr(s)] of a string *)
Definition repr_str (s : string) : string :=
  let single := String APOSTROPHE EmptyString in let double := String QUOTE EmptyString in
  let q := if contains single s && negb (contains double s) then QUOTE else APOSTROPHE in
  String q (repr_chars q s +:+ String q EmptyString).

Fixpoint repr (v : value) : string :=
  match v with
  | NoneV => "None"
  | BoolV true => "True"
  | BoolV false => "False"
  | IntV z => str_of_Z z
  | FloatV t => t
  | StrV s => repr_str s
  | ListV l => "[" +:+ join ", " (map repr l) +:+ "]"
  | DictV items => "{" +:+ join ", " (map (λ kv, repr_str (fst kv) +:+ ": " +:+ repr (snd kv)) items) +:+ "}"
  end.

(** [str(v)] *)
Definition py_str (v : value) : string := match v with StrV s => s | _ => repr v end.

(** * [Decimal(text)] *)

(** the exponents the decimal module can represent *)
Definition MAX_EMAX : Z := 999999999999999999.
Definition MIN_ETINY : Z := -1999999999999999997.

Definition representable (d : decimal) : bool :=
  (MIN_ETINY <=? d_exp d) && (if (d_coeff d =? 0)%N then d_exp d <=? MAX_EMAX else adjusted d <=? MAX_EMAX).

(** the optional exponent that ends the text *)
Definition read_exponent (s : string) : option Z :=
  match s with
  | EmptyString => Some 0
  | String e s' =>
      if Ascii.eqb e "e" || Ascii.eqb e "E" then
        let '(sign, r) := match s' with String "-" r => (-1, r) | String "+" r => (1, r) | _ => (1, s') end in
        match span_digits r with
        | ([], _) => None
        | (l, EmptyString) => Some (sign * Z.of_N (undigits l))
        | _ => None
        end
      else None
  end.

Definition read_number (sign : bool) (s : string) : option decimal :=
  let '(ip, r) := span_digits s in
  let '(fp, r) := match r with String "." r' => span_digits r' | _ => ([], r) end in
  match ip ++ fp, read_exponent r with
  | [], _ | _, None => None
  | l, Some e =>
      let d := Dec sign (undigits l) (e - Z.of_nat (length fp)) in
      if representable d then Some d else None
  end.

Fixpoint all_digits (s : string) : bool :=
  match s with EmptyString => true | String a s' => is_digit a && all_digits s' end.

Definition is_nan_text (s : string) : bool :=
  match s with
  | String "n" (String "a" (String "n" diag)) | String "s" (String "n" (String "a" (String "n" diag))) => all_digits diag
  | _ => false
  end.

(** [Decimal(s)]; [None] is [InvalidOperation] *)
Definition decimal_of_text (s : string) : option pydecimal :=
  let s := remove_char "_" (strip s) in
  let '(sign, r) := match s with String "-" r => (true, r) | String "+" r => (false, r) | _ => (false, s) end in
  let l := lower r in
  if bool_decide (l = "inf" ∨ l = "infinity")%string then Some (Infinite sign)
  else if is_nan_text l then Some NaN
  else Finite <$> read_number sign r.

(** * Exceptions

    [ValueError] and [KeyError] carry the text [str] gives them. *)

Inductive exception :=
| ValueError (message : string)
| KeyError (message : string)
| AttributeError
| TypeError
| OverflowError
| DecimalSignal (s : signal).

#[export] Instance exception_eq_dec : EqDecision exception.
Proof. solve_decision. Defined.

Notation checked := (result exception).

(** [v in a_set_of_strings]: [TypeError] on a list or a dict *)
Definition in_set (v : value) (names : list string) : checked bool :=
  if hashable v then Ok (match v with StrV s => bool_decide (s ∈ names) | _ => false end) else Err TypeError.

(** * Decimal operators in the default context *)

Definition DEFAULT_CONTEXT : context := Context 28 999999 (-999999).

Definition arith {A} (r : result signal A) : checked A := map_err DecimalSignal r.

(** [abs(d)] *)
Definition py_abs (d : decimal) : checked decimal := arith (dec_fix DEFAULT_CONTEXT (dec_abs d)).

(** [-d]; [-Decimal("0")] is [0] *)
Definition py_neg (d : decimal) : checked decimal :=
  arith (dec_fix DEFAULT_CONTEXT (if (d_coeff d =? 0)%N then dec_abs d else dec_neg d)).

(** * Hashes *)

(** [json.dumps(value, sort_keys=True, separators=(",", ":"))] *)
Fixpoint canonical_json (v : value) : string :=
  match v with
  | NoneV => "null"
  | BoolV true => "true"
  | BoolV false => "false"
  | IntV z => str_of_Z z
  | FloatV t => if bool_decide (t = "nan")%string then "NaN" else if bool_decide (t = "inf")%string then "Infinity"
                else if bool_decide (t = "-inf")%string then "-Infinity" else t
  | StrV s => quote s
  | ListV l => "[" +:+ join "," (map canonical_json l) +:+ "]"
  | DictV items =>
      "{" +:+ join "," (map (λ f, quote (fst f) +:+ ":" +:+ snd f)
                            (py_sorted key_le (map (λ f, (fst f, canonical_json (snd f))) items))) +:+ "}"
  end.

Definition hash_json (v : value) : string := sha256_hex (canonical_json v).

(** * Units *)

Definition UNIT_POLICY_VERSION : string := "unit-comparison/v1".

Definition ALIASES : list (string * string) :=
  ((λ u, (u, u)) <$> ["count"; "currency"; "pure"; "ratio"; "shares"; "customers"; "percent"; "percentage_points"]%string) ++
  [("%", "percent"); ("pct", "percent"); ("percentage", "percent"); ("pp", "percentage_points")]%string.

Section units.
(** the ISO 4217 codes of fel_ontology/data/currency-codes.json *)
Context (currency_codes : list string).

Definition canonical_unit_text (unit_text : string) : string :=
  let text := strip unit_text in
  let '(numerator, slash, suffix) := partition "/" text in
  if isascii numerator then
    if bool_decide (upper numerator ∈ currency_codes) then upper numerator +:+ slash +:+ suffix
    else if bool_decide (lower numerator = "currency"%string) then lower numerator +:+ slash +:+ suffix
    else match dict_get (lower numerator) ALIASES with
         | Some a => if bool_decide (slash = ""%string) then a else text
         | None => text
         end
  else text.

Definition canonical_unit (v : value) : value := match v with StrV s => StrV (canonical_unit_text s) | _ => v end.

Definition is_monetary_unit (v : value) : bool :=
  match canonical_unit v with
  | StrV unit =>
      let numerator := (partition "/" unit).1.1 in
      bool_decide (numerator = "currency"%string) || bool_decide (numerator ∈ currency_codes)
  | _ => false
  end.
End units.

(** the context the operators run in has every digit the library reads *)
Lemma default_context_ok : context_ok DEFAULT_CONTEXT = true.
Proof. reflexivity. Qed.

(** induction on values, through the lists inside them *)
Section value_induction.
Context (P : value → Prop).
Context (HNone : P NoneV) (HBool : ∀ b, P (BoolV b)) (HInt : ∀ z, P (IntV z)) (HFloat : ∀ r, P (FloatV r)) (HStr : ∀ s, P (StrV s)).
Context (HList : ∀ l, Forall P l → P (ListV l)) (HDict : ∀ items, Forall (λ kv, P kv.2) items → P (DictV items)).

Lemma value_induction : ∀ v, P v.
Proof using HNone HBool HInt HFloat HStr HList HDict.
  fix IH 1. intros [|b|z|r|s|l|items]; [exact HNone|apply HBool|apply HInt|apply HFloat|apply HStr|apply HList|apply HDict].
  - induction l as [|x l IHl]; [constructor|]. constructor; [apply IH|exact IHl].
  - induction items as [|[k x] items IHi]; [constructor|]. constructor; [apply IH|exact IHi].
Qed.
End value_induction.
