(* ===== verification/Numeric.v ===== *)
(** [workers/src/fel_workers/extraction/normalize/numeric.py]: reading a number
    out of issuer text, and writing a decimal back as contract text.

    [NUM_RE] is the source's pattern, construct by construct, over the matcher of
    [Regex].  The magnitude suffix is returned as an exponent beside the mantissa;
    arithmetic on the mantissa ([abs], unary minus, [normalize]) rounds in the
    default context of 28 digits.

    [workers/src/fel_workers/extraction/validate/range.py]: bounds of a guidance
    range, and the plausible decimal exponents. *)

From Stdlib Require Import QArith Qabs.
From S2P Require Import Prelude Dicts Text Regex Decimals Payload.
Local Open Scope Z_scope.

(** * The pattern *)

Definition SCALE_SUFFIX : list (string * Z) :=
  [("k", 3); ("thousand", 3); ("m", 6); ("mm", 6); ("mn", 6); ("million", 6);
   ("b", 9); ("bn", 9); ("billion", 9); ("tn", 12); ("trillion", 12)]%string.

Definition digit : regex := Chars is_digit.
Definition spaces : regex := Star (Chars is_space).

(** [\d{1,3}(?:,\d{3})+] *)
Definition grouped_digits : regex :=
  Seq (Seq digit (Opt (Seq digit (Opt digit))))
      (Plus (Seq (Chars (char ",")) (Seq digit (Seq digit digit)))).

(** [(?:grouped|\d+)(?:\.\d+)?|\.\d+] *)
Definition body_re : regex :=
  Alt (Seq (Alt grouped_digits (Plus digit)) (Opt (Seq (Chars (char ".")) (Plus digit))))
      (Seq (Chars (char ".")) (Plus digit)).

Definition suffix_alternation : regex :=
  Alt (word "trillion") (Alt (word "billion") (Alt (word "million") (Alt (word "thousand")
  (Alt (word "mm") (Alt (word "mn") (Alt (word "bn") (Alt (word "tn")
  (Chars (λ a, char_ci "k" a || char_ci "m" a || char_ci "b" a))))))))).

Definition closing (name : string) : regex := Opt (Group name (Seq spaces (Chars (char ")")))).

(** [(?:\s*(?P<suffix>...)s?\b(?!/(?P=suffix)))?] *)
Definition suffix_re : regex :=
  Opt (Seq spaces (Seq (Group "suffix" suffix_alternation)
    (Seq (Opt (Chars (char_ci "s"))) (Seq Boundary (NotAhead (Seq (Chars (char "/")) (Backref "suffix"))))))).

Definition NUM_RE : regex :=
  Seq (Opt (Group "open" (Chars (char "("))))
  (Seq spaces
  (Seq (Opt (Group "sign" (Chars (λ a, char "-" a || char "+" a))))
  (Seq spaces
  (Seq (Group "body" body_re)
  (Seq (closing "close_bare")
  (Seq suffix_re
       (closing "close_suffixed"))))))).

(** * Reading *)

Definition group (text : list ascii) (name : string) (caps : captures) : option string :=
  String.string_of_list_ascii <$> ref_text text name caps.

(** [char.isdigit()] *)
Definition isdigit (a : ascii) : bool :=
  is_digit a || let n := N_of_ascii a in ((n =? 178) || (n =? 179) || (n =? 185))%N.

Definition adjacent_grouping (a : option ascii) : bool :=
  match a with Some a => char "," a || char "." a | None => false end.

Definition body_span (caps : captures) : nat * nat := default (0%nat, 0%nat) (capture "body" caps).

Definition require_full_consumption (raw_value : string) (cleaned : list ascii) (start stop : nat) (caps : captures) : checked unit :=
  let leftover := take start cleaned ++ drop stop cleaned in
  ensure (negb (existsb isdigit leftover))
    (ValueError ("raw_value has an unconsumed numeric remainder: " +:+ repr_str raw_value +:+
      " (read only " +:+ repr_str (String.string_of_list_ascii (slice cleaned start stop)) +:+ ")")%string);;
  let '(body_start, body_end) := body_span caps in
  let before := match body_start with O => None | S i => cleaned !! i end in
  let after := cleaned !! body_end in
  ensure (negb (adjacent_grouping before || adjacent_grouping after))
    (ValueError ("raw_value has a malformed grouped number: " +:+ repr_str raw_value +:+
      " (read only " +:+ repr_str (String.string_of_list_ascii (slice cleaned body_start body_end)) +:+ ")")%string).

Definition sign_text (value : decimal) : string :=
  if dec_ltb dec_zero value then "positive" else if dec_ltb value dec_zero then "negative" else "zero".

(** [raw_value.replace("$", "").replace("%", "").strip()] *)
Definition cleaned_text (raw_value : string) : list ascii := chars (strip (remove_char "%" (remove_char "$" raw_value))).

Definition parse_numeric (raw_value : string) : checked (decimal * Z * string) :=
  ensure (negb (bool_decide (raw_value = ""%string))) (ValueError "raw_value required");;
  let cleaned := cleaned_text raw_value in
  match search cleaned NUM_RE with
  | None => Err (ValueError ("no numeric token in raw_value: " +:+ repr_str raw_value)%string)
  | Some (start, (stop, caps)) =>
      require_full_consumption raw_value cleaned start stop caps;;
      let body := remove_char "," (default ""%string (group cleaned "body" caps)) in
      value ← match decimal_of_text body with
              | Some (Finite d) => Ok d
              | _ => Err (ValueError ("invalid decimal: " +:+ repr_str body)%string)
              end;
      scale ← match group cleaned "suffix" caps with
              | None | Some EmptyString => Ok 0
              | Some suffix => from_option_err (KeyError (repr_str (lower suffix))) (dict_get (lower suffix) SCALE_SUFFIX)
              end;
      let explicit_sign := group cleaned "sign" caps in
      let parenthesized :=
        match group cleaned "open" caps, group cleaned "close_bare" caps, group cleaned "close_suffixed" caps with
        | Some _, Some _, _ | Some _, _, Some _ => true
        | _, _, _ => false
        end in
      value ← (if bool_decide (explicit_sign = Some "-"%string) || parenthesized then a ← py_abs value; py_neg a
               else if bool_decide (explicit_sign = Some "+"%string) then py_abs value
               else Ok value);
      Ok (value, scale, sign_text value)
  end.

(** * Writing *)

Fixpoint rstrip_char (c : ascii) (s : string) : string :=
  match s with
  | EmptyString => EmptyString
  | String a s' => match rstrip_char c s' with EmptyString => if Ascii.eqb a c then EmptyString else String a EmptyString | t => String a t end
  end.

Definition format_decimal (value : decimal) : checked string :=
  normalized ← (if dec_eqb value dec_zero then Ok dec_zero else arith (dec_normalize DEFAULT_CONTEXT value));
  let text := format_f normalized in
  let text := if contains "." text then rstrip_char "." (rstrip_char "0" text) else text in
  Ok (if bool_decide (text = ""%string) then "0"%string else text).

(** * Matching contract text *)

Section contract_text.
Context (text : list ascii) (b j : nat).
Notation L := (length text).
Hypothesis (Hb : b = 0%nat ∨ b = 1%nat ∧ text !! 0%nat = Some ("-"%char : ascii)).
Hypothesis (Hbj : (b < j ≤ L)%nat).
Hypothesis (Hint : ∀ i, (b ≤ i < j)%nat → ∃ a, text !! i = Some a ∧ is_digit a = true).
Hypothesis (Hpoint : j = L ∨ text !! j = Some ("."%char : ascii) ∧ (S j < L)%nat ∧ ∀ i, (S j ≤ i < L)%nat → ∃ a, text !! i = Some a ∧ is_digit a = true).

Lemma text_char i a : text !! i = Some a → a = "-"%char ∨ a = "."%char ∨ is_digit a = true.
Proof using All.
  intros Ha. destruct (decide (i < b)%nat).
  { destruct Hb as [->|[-> Hm]]; [lia|]. assert (i = 0%nat) as -> by lia. left. congruence. }
  destruct (decide (i < j)%nat); [destruct (Hint i) as (a' & Ha' & ?); [lia|]; right; right; congruence|].
  apply lookup_lt_Some in Ha as Hl. destruct Hpoint as [->|(Hp & _ & Hf)]; [lia|].
  destruct (decide (i = j)) as [->|]; [right; left; congruence|]. destruct (Hf i) as (a' & Ha' & ?); [lia|]. right; right; congruence.
Qed.

Lemma text_class p i : (p "-"%char = false) → (p "."%char = false) → (∀ a, is_digit a = true → p a = false) →
  ∀ a, text !! i = Some a → p a = false.
Proof using All. intros H1 H2 H3 a [->|[->|Ha]]%text_char; auto. Qed.

Lemma end_class p : ∀ a, text !! L = Some a → p a = false.
Proof using Type. intros a Ha%lookup_lt_Some. by apply Nat.lt_irrefl in Ha. Qed.

Lemma digit_not_space a : is_digit a = true → is_space a = false.
Proof using Type. destruct a as [[] [] [] [] [] [] [] []]; vm_compute; congruence. Qed.
Lemma digit_not_char c a : is_digit a = true → is_digit c = false → char c a = false.
Proof using Type. unfold char. intros Ha Hc. apply bool_decide_eq_false. intros ->. congruence. Qed.

Lemma spaces_skip k i caps : run text spaces k (i, caps) = k (i, caps).
Proof using All. apply star_none, text_class; [done|done|apply digit_not_space]. Qed.

Lemma tail_match caps : run text (Seq (closing "close_bare") (Seq suffix_re (closing "close_suffixed"))) Some (L, caps) = Some (L, caps).
Proof using All.
  assert (∀ name k, run text (closing name) k (L, caps) = k (L, caps)) as Hclose.
  { intros name k. apply run_opt_none. rewrite run_group, run_seq, spaces_skip. apply chars_fail, end_class. }
  assert (text !! L = None) as Hend by (apply lookup_ge_None_2; lia).
  rewrite run_seq, Hclose, run_seq. unfold suffix_re. rewrite run_opt_none, Hclose; [done|].
  rewrite run_seq, spaces_skip, run_seq, run_group. unfold suffix_alternation, word. cbn [run fst snd]. by rewrite Hend.
Qed.

Lemma no_grouping k s : run text grouped_digits k s = None.
Proof using All.
  apply run_fails. intros s' Hm. exfalso. unfold grouped_digits, Plus in Hm.
  inversion Hm as [| |? ? ? s2 ? _ H2| | | | | | | |]; subst. inversion H2 as [| |? ? ? s3 ? H3 _| | | | | | | |]; subst.
  inversion H3 as [| |? ? ? s4 ? H4 _| | | | | | | |]; subst. inversion H4 as [|? i a ? Ha Hp| | | | | | | | |]; subst.
  rewrite (text_class (char ",") i) in Hp; [done|done|done| |done]. intros c Hc. by apply digit_not_char.
Qed.

Lemma body_match k caps x i : i = b → k (L, caps) = Some x → run text body_re k (i, caps) = Some x.
Proof using All.
  intros -> Hk. apply run_left. rewrite run_seq, run_right by apply no_grouping. unfold Plus. rewrite run_seq.
  destruct (Hint b) as (a & Ha & Hd); [lia|]. unfold digit. rewrite (run_chars _ _ _ _ _ a) by done.
  apply (star_run text _ _ _ j); [lia|intros i Hi; apply Hint; lia| |].
  - destruct Hpoint as [->|(Hp & _)]; [apply end_class|]. intros c Hc. rewrite Hp in Hc. by injection Hc as <-.
  - destruct Hpoint as [->|(Hp & Hl & Hf)].
    + rewrite run_opt_none; [done|]. rewrite run_seq. apply chars_fail, end_class.
    + apply run_left. rewrite run_seq, (run_chars _ _ _ _ _ "."%char) by done. rewrite run_seq.
      destruct (Hf (S j)) as (c & Hc & Hcd); [lia|]. rewrite (run_chars _ _ _ _ _ c) by done.
      apply (star_run text _ _ _ L); [lia|intros i Hi; apply Hf; lia|apply end_class|done].
Qed.

Lemma num_match : search text NUM_RE = Some (0%nat, (L, ("body"%string, (b, L)) :: if decide (b = 1%nat) then [("sign"%string, (0%nat, 1%nat))] else [])).
Proof using All.
  apply search_here. unfold match_at, NUM_RE. rewrite run_seq, run_opt_none.
  2:{ rewrite run_group. apply chars_fail, text_class; [done|done|]. intros a Ha. by apply digit_not_char. }
  rewrite run_seq, spaces_skip, run_seq. destruct Hb as [Eb|[Eb Hm]].
  - rewrite run_opt_none.
    2:{ rewrite run_group. apply chars_fail. intros a Ha. destruct (Hint 0) as (a' & Ha' & Hd); [lia|]. rewrite Ha' in Ha. injection Ha as <-.
        by rewrite !digit_not_char. }
    rewrite run_seq, spaces_skip, run_seq, run_group. apply body_match; [done|]. cbn [fst snd]. rewrite tail_match, decide_False by lia. by rewrite Eb.
  - apply run_left. rewrite run_group, (run_chars _ _ _ _ _ "-"%char) by done. rewrite run_seq, spaces_skip, run_seq, run_group.
    apply body_match; [done|]. cbn [fst snd]. rewrite tail_match, decide_True by lia. by rewrite Eb.
Qed.
End contract_text.

(** * Contract text reads back *)

Notation digits_ok := (Forall (λ d, (d < 10)%N)).

Lemma chars_digits l : chars (string_of_digits l) = digit_char <$> l.
Proof. induction l as [|d l IH]; [done|]. rewrite string_of_digits_cons. cbn. by f_equal. Qed.

Definition fraction_chars (fp : list N) : list ascii := match fp with [] => [] | _ => "."%char :: (digit_char <$> fp) end.

Lemma chars_plain ip fp : chars (plain_text ip fp) = (digit_char <$> ip) ++ fraction_chars fp.
Proof.
  unfold plain_text. rewrite chars_app, chars_digits. f_equal. destruct fp as [|d fp]; [done|].
  rewrite chars_app, chars_digits. done.
Qed.

Lemma plain_char ip fp a : digits_ok ip → digits_ok fp → a ∈ chars (plain_text ip fp) → is_digit a = true ∨ a = "."%char.
Proof.
  intros Hip Hfp. rewrite chars_plain, elem_of_app, list_elem_of_fmap. rewrite Forall_forall in Hip, Hfp.
  intros [(d & -> & Hd%Hip)|Ha]; [left; by apply digit_char_spec|].
  destruct fp as [|d fp]; [by apply not_elem_of_nil in Ha|]. apply elem_of_cons in Ha as [->|(x & -> & Hx%Hfp)%list_elem_of_fmap]; [by right|].
  left; by apply digit_char_spec.
Qed.

Lemma plain_without ip fp c :
  digits_ok ip → digits_ok fp → is_digit c = false → c ≠ "."%char → remove_char c (plain_text ip fp) = plain_text ip fp.
Proof.
  intros Hip Hfp Hc Hp. apply remove_char_id. intros [Hd| ->]%plain_char; [congruence|done|done|done].
Qed.

Lemma digit_lower a : is_digit a = true → lower_char a = a.
Proof. destruct a as [[] [] [] [] [] [] [] []]; vm_compute; congruence. Qed.

Lemma strip_plain s : (∀ a, a ∈ chars s → is_digit a = true ∨ a = "."%char ∨ a = "-"%char) → strip s = s.
Proof.
  intros H. apply strip_id, Forall_forall. intros a [Ha|[->| ->]]%H; [by apply digit_not_space|done|done].
Qed.

Lemma read_number_plain sign ip fp (d := Dec sign (undigits (ip ++ fp)) (- Z.of_nat (length fp))) :
  digits_ok ip → digits_ok fp → ip ++ fp ≠ [] →
  read_number sign (plain_text ip fp) = if representable d then Some d else None.
Proof.
  intros Hip Hfp Hne. unfold read_number, plain_text. rewrite span_digits_app by (done || by destruct fp).
  destruct fp as [|x fp].
  - change (Z.of_nat (length (@nil N))) with 0 in *. cbn [read_exponent]. unfold d. rewrite app_nil_r in *. cbn [length]. change (Z.of_nat 0) with 0.
    destruct ip; [done|]. by rewrite Z.sub_0_l.
  - rewrite string_app_cons. change ("" +:+ string_of_digits (x :: fp))%string with (string_of_digits (x :: fp)).
    assert (span_digits (string_of_digits (x :: fp)) = (x :: fp, ""%string)) as ->.
    { rewrite <- (string_app_nil (string_of_digits (x :: fp))). by apply span_digits_app. }
    cbn [read_exponent]. unfold d. destruct (ip ++ x :: fp) eqn:Hl; [by destruct ip|]. by rewrite Z.sub_0_l.
Qed.

Lemma decimal_of_plain ip fp (d := Dec false (undigits (ip ++ fp)) (- Z.of_nat (length fp))) :
  digits_ok ip → digits_ok fp → ip ++ fp ≠ [] →
  decimal_of_text (plain_text ip fp) = if representable d then Some (Finite d) else None.
Proof.
  intros Hip Hfp Hne. unfold decimal_of_text.
  rewrite strip_plain by (intros a Ha%plain_char; tauto). rewrite plain_without by done.
  assert (lower (plain_text ip fp) = plain_text ip fp) as Hlow.
  { apply map_chars_id, Forall_forall. intros a Ha%plain_char; [|done|done]. destruct Ha as [Ha| ->]; [by apply digit_lower|done]. }
  pose proof (read_number_plain false ip fp Hip Hfp Hne) as Hread.
  assert (∃ c t, plain_text ip fp = String c t ∧ (is_digit c = true ∨ c = "."%char)) as (c & t & Ht & Hc).
  { destruct ip as [|x ip]; [destruct fp as [|y fp]; [done|by eexists _, _; split; [done|right]]|].
    apply Forall_cons in Hip as [Hx _]. eexists _, _. split; [done|]. left. by apply digit_char_spec. }
  rewrite Ht in *. destruct c as [[] [] [] [] [] [] [] []]; destruct Hc as [Hc|Hc]; try done; cbn in Hc; try done; cbn beta iota zeta; rewrite Hlow; cbn [is_nan_text];
    (rewrite bool_decide_false by (intros [?|?]; discriminate)); rewrite Hread; by destruct (representable _).
Qed.

Definition sign_prefix (sign : bool) : string := if sign then "-" else "".
Definition signed_plain (sign : bool) (ip fp : list N) : string := (sign_prefix sign +:+ plain_text ip fp)%string.

Lemma chars_signed sign ip fp :
  chars (signed_plain sign ip fp) = (if sign then ["-"%char] else []) ++ (digit_char <$> ip) ++ fraction_chars fp.
Proof. unfold signed_plain. rewrite chars_app, chars_plain. by destruct sign. Qed.

Lemma lookup_digits l i a : digits_ok l → (digit_char <$> l) !! i = Some a → is_digit a = true.
Proof.
  intros Hl Hi. apply list_elem_of_lookup_2, list_elem_of_fmap in Hi as (d & -> & Hd). rewrite Forall_forall in Hl. by apply digit_char_spec, Hl.
Qed.

Lemma signed_match (sign : bool) (ip fp : list N) (b := if sign then 1%nat else 0%nat) :
  digits_ok ip → digits_ok fp → ip ≠ [] → let text := chars (signed_plain sign ip fp) in
  search text NUM_RE = Some (0%nat, (length text, ("body"%string, (b, length text)) :: if sign then [("sign"%string, (0%nat, 1%nat))] else [])).
Proof.
  intros Hip Hfp Hne text.
  assert (length text = (b + length ip + length (fraction_chars fp))%nat) as Hlen.
  { unfold text. rewrite chars_signed, !length_app, length_fmap. unfold b. destruct sign; simpl; lia. }
  assert (∀ i, text !! (b + i)%nat = ((digit_char <$> ip) ++ fraction_chars fp) !! i) as Hlook.
  { intros i. unfold text. rewrite chars_signed. rewrite lookup_app_r by (unfold b; destruct sign; simpl; lia). f_equal. unfold b. destruct sign; simpl; lia. }
  assert (0 < length ip)%nat as Hpos by (destruct ip; [done|simpl; lia]).
  rewrite (num_match text b (b + length ip)).
  - unfold b. by destruct sign.
  - unfold b, text. destruct sign; [right; by rewrite chars_signed|by left].
  - lia.
  - intros i Hi. replace i with (b + (i - b))%nat by lia. rewrite Hlook, lookup_app_l by (rewrite length_fmap; lia).
    destruct ((digit_char <$> ip) !! (i - b)%nat) as [a|] eqn:Ha; [exists a; split; [done|exact (lookup_digits _ _ _ Hip Ha)]|].
    apply lookup_ge_None in Ha. rewrite length_fmap in Ha. lia.
  - rewrite Hlen, Hlook. destruct fp as [|d fp]; [left; simpl; lia|right].
    rewrite lookup_app_r, length_fmap, Nat.sub_diag by (rewrite length_fmap; lia). split; [done|].
    cbn [fraction_chars length]. rewrite length_fmap. split; [simpl; lia|]. intros i Hi.
    replace i with (b + (length ip + S (i - S (b + length ip))))%nat by lia. rewrite Hlook, lookup_app_r by (rewrite length_fmap; lia).
    rewrite length_fmap. replace (length ip + S (i - S (b + length ip)) - length ip)%nat with (S (i - S (b + length ip))) by lia. cbn [fraction_chars lookup list_lookup].
    destruct ((digit_char <$> d :: fp) !! (i - S (b + length ip))%nat) as [a|] eqn:Ha; [exists a; split; [done|exact (lookup_digits _ _ _ Hfp Ha)]|].
    apply lookup_ge_None in Ha. rewrite length_fmap in Ha. simpl in Hi, Ha. lia.
Qed.

Definition read_value (sign : bool) (d : decimal) : checked decimal := if sign then a ← py_abs d; py_neg a else Ok d.

Lemma signed_char sign ip fp a : digits_ok ip → digits_ok fp → a ∈ chars (signed_plain sign ip fp) → is_digit a = true ∨ a = "."%char ∨ a = "-"%char.
Proof.
  intros Hip Hfp. unfold signed_plain. rewrite chars_app, elem_of_app. intros [Ha|Ha].
  - destruct sign; cbn in Ha; [apply list_elem_of_singleton in Ha as ->; tauto|by apply not_elem_of_nil in Ha].
  - apply plain_char in Ha; tauto.
Qed.

(** the whole of a contract text is read *)
Lemma parse_signed sign ip fp (d := Dec false (undigits (ip ++ fp)) (- Z.of_nat (length fp))) :
  digits_ok ip → digits_ok fp → ip ≠ [] → representable d = true →
  parse_numeric (signed_plain sign ip fp) = (v ← read_value sign d; Ok (v, 0, sign_text v)).
Proof.
  intros Hip Hfp Hne Hrep. unfold parse_numeric, cleaned_text.
  rewrite bool_decide_false by (destruct sign, ip; done). cbn [negb ensure mbind result_bind].
  pose proof (signed_match sign ip fp Hip Hfp Hne) as Hm. cbv zeta in Hm.
  assert (∀ a, a ∈ chars (signed_plain sign ip fp) → is_digit a = true ∨ a = "."%char ∨ a = "-"%char) as Hchar by (intros a; by apply signed_char).
  rewrite (remove_char_id "$") by (intros [?|[?|?]]%Hchar; done). rewrite (remove_char_id "%") by (intros [?|[?|?]]%Hchar; done).
  rewrite strip_plain by done.
  cbv zeta. rewrite Hm. set (text := chars (signed_plain sign ip fp)) in *. set (caps := _ :: _).
  assert (group text "body" caps = Some (plain_text ip fp)) as Hbody.
  { unfold group, ref_text. cbn [capture caps decide]. rewrite decide_True by done. cbn [fmap option_fmap option_map fst snd].
    f_equal. apply chars_inj. rewrite String.list_ascii_of_string_of_list_ascii. unfold slice.
    rewrite take_ge by (rewrite length_drop; lia). unfold text. rewrite chars_signed, chars_plain. by destruct sign. }
  assert (group text "suffix" caps = None) as Hsuf by (unfold group, ref_text; by destruct sign).
  assert (group text "open" caps = None) as Hopen by (unfold group, ref_text; by destruct sign).
  assert (group text "sign" caps = if sign then Some "-"%string else None) as Hsign.
  { unfold group, ref_text. destruct sign; [|done]. cbn. unfold text. by rewrite chars_signed. }
  assert (require_full_consumption (signed_plain sign ip fp) text 0 (length text) caps = Ok ()) as ->.
  { unfold require_full_consumption. rewrite drop_ge by done. cbn [take app existsb negb ensure mbind result_bind].
    assert (body_span caps = (if sign then 1%nat else 0%nat, length text)) as -> by (unfold body_span; cbn; by destruct sign).
    assert (text !! length text = None) as -> by (by apply lookup_ge_None_2). cbn [adjacent_grouping]. rewrite orb_false_r.
    destruct sign; [|done]. unfold text. rewrite chars_signed. done. }
  cbn [mbind result_bind]. rewrite Hbody, Hsuf, Hopen, Hsign. cbn [default from_option id].
  rewrite plain_without by done. rewrite decimal_of_plain by (done || by destruct ip). fold d. rewrite Hrep. cbn [mbind result_bind].
  rewrite orb_false_r. destruct sign; [|done]. by rewrite bool_decide_true by done.
Qed.

Lemma rstrip_char_id c s : last (chars s) ≠ Some c → rstrip_char c s = s.
Proof.
  induction s as [|a s IH]; [done|]. cbn [rstrip_char chars]. intros Hl. destruct s as [|b s].
  - cbn in *. destruct (Ascii.eqb_spec a c) as [->|]; done.
  - rewrite IH; [done|]. done.
Qed.

(** the plain notation of a normal number needs no trimming *)
Definition trimmed (text : string) : string :=
  let t := if contains "." text then rstrip_char "." (rstrip_char "0" text) else text in
  if bool_decide (t = ""%string) then "0"%string else t.

Lemma last_fmap_digit l : last (digit_char <$> l) = digit_char <$> last l.
Proof. induction l as [|d [|e l] IH]; [done|done|]. exact IH. Qed.

Lemma last_digits n : last (digits n) = Some (n mod 10)%N.
Proof.
  induction n as [n Hn|n Hn IH] using digits_ind; [rewrite digits_small by done; cbn; f_equal; symmetry; by apply N.mod_small|].
  by rewrite digits_big, last_snoc.
Qed.

Lemma trimmed_plain sign ip fp :
  digits_ok ip → digits_ok fp → ip ≠ [] → (fp ≠ [] → ∃ d, last fp = Some d ∧ d ≠ 0%N) →
  trimmed (signed_plain sign ip fp) = signed_plain sign ip fp.
Proof.
  intros Hip Hfp Hne Hlast. unfold trimmed.
  assert (signed_plain sign ip fp ≠ ""%string) as Hnil by (destruct sign, ip; done).
  rewrite contains_char.
  destruct (decide ("."%char ∈ chars (signed_plain sign ip fp))) as [Hp|Hp];
    [rewrite (bool_decide_true ("."%char ∈ _)) by done|rewrite (bool_decide_false ("."%char ∈ _)) by done; by rewrite bool_decide_false].
  destruct fp as [|d fp].
  { exfalso. rewrite chars_signed, app_nil_r in Hp. apply elem_of_app in Hp as [Hp|(x & Hx & Hin)%list_elem_of_fmap].
    - destruct sign; [by apply list_elem_of_singleton in Hp|by apply not_elem_of_nil in Hp].
    - rewrite Forall_forall in Hip. destruct (digit_char_spec x (Hip x Hin)) as [Hd _]. rewrite <- Hx in Hd. done. }
  destruct Hlast as (z & Hz & Hz0); [done|].
  assert (last (chars (signed_plain sign ip (d :: fp))) = Some (digit_char z)) as Hl.
  { rewrite chars_signed, !last_app. cbn [fraction_chars]. rewrite last_cons, last_fmap_digit, Hz. done. }
  assert (z < 10)%N as Hz10 by (rewrite Forall_forall in Hfp; apply Hfp, last_Some_elem_of; done).
  destruct (digit_char_spec z Hz10) as [Hd Hv].
  rewrite (rstrip_char_id "0"); [rewrite (rstrip_char_id "."); [by rewrite bool_decide_false|]|]; rewrite Hl; intros [= Heq]; rewrite Heq in Hd, Hv; [done|].
  vm_compute in Hv. congruence.
Qed.

(** what [format_decimal] writes for a number that is not zero *)
Lemma format_decimal_spec v s :
  format_decimal v = Ok s →
  (dq v == 0)%Q ∧ s = "0"%string ∨
  ∃ n, dec_normalize DEFAULT_CONTEXT v = Ok n ∧ s = trimmed (format_f n).
Proof.
  unfold format_decimal. destruct (dec_eqb v dec_zero) eqn:Hz.
  - intros [= <-]. left. apply dec_eqb_spec in Hz. unfold deq in Hz. rewrite Hz. split; [apply dq_zero|done].
  - intros (n & Hn & [= <-])%bind_Ok. right. exists n. split; [|done]. unfold arith in Hn. by apply map_err_Ok in Hn.
Qed.

Lemma format_decimal_of_fix v r :
  dec_fix DEFAULT_CONTEXT v = Ok r → ~ (dq v == 0)%Q →
  ∃ n, dec_normalize DEFAULT_CONTEXT v = Ok n ∧ deq n r ∧ normal n ∧ d_sign n = d_sign r ∧ fits DEFAULT_CONTEXT n = true ∧
    format_decimal v = Ok (trimmed (format_f n)).
Proof.
  intros Hr Hz. destruct (dec_normalize_of_fix DEFAULT_CONTEXT default_context_ok v r Hr) as (n & Hn & ? & ? & ? & ?).
  exists n. split; [done|]. split; [done|]. split; [done|]. split; [done|]. split; [done|]. unfold format_decimal.
  destruct (dec_eqb v dec_zero) eqn:He; [apply dec_eqb_spec in He; unfold deq in He; exfalso; apply Hz; rewrite He; apply dq_zero|].
  unfold arith. rewrite Hn. done.
Qed.

Lemma fits_neg d : fits DEFAULT_CONTEXT d = true → fits DEFAULT_CONTEXT (dec_neg d) = true.
Proof. done. Qed.

Lemma representable_bounds s U e : MIN_ETINY ≤ e → e ≤ MAX_EMAX → ndigits U + e - 1 ≤ MAX_EMAX → representable (Dec s U e) = true.
Proof.
  intros H1 H2 H3. unfold representable, adjusted; cbn [d_coeff d_exp]. apply andb_true_iff. split; [by apply Z.leb_le|].
  destruct (U =? 0)%N; by apply Z.leb_le.
Qed.

(** Reading the digits of a value of the context gives a value equal to it, which
    the context rounds to an equal one. *)
Lemma read_value_spec n ip fp (d := Dec false (undigits (ip ++ fp)) (- Z.of_nat (length fp))) :
  fits DEFAULT_CONTEXT n = true → d_coeff n ≠ 0%N →
  Z.of_nat (length fp) = Z.max 0 (- d_exp n) → undigits (ip ++ fp) = (d_coeff n * pow10 (d_exp n))%N →
  representable d = true ∧ ∃ w r, read_value (d_sign n) d = Ok w ∧ deq w n ∧ dec_fix DEFAULT_CONTEXT w = Ok r ∧ deq r n ∧ d_sign r = d_sign n.
Proof.
  intros Hfit Hco Hlen Hund. destruct n as [s co e]; cbn [d_coeff d_exp d_sign] in *.
  assert (deq d (Dec false co e)) as Hd.
  { apply plain_value; destruct (N.eqb_spec co 0); done. }
  assert (∃ r, dec_fix DEFAULT_CONTEXT d = Ok r ∧ deq r (Dec false co e) ∧ d_sign r = false ∧ d_coeff r ≠ 0%N) as (r & Hr & Hdr & Hsr & Hcr).
  { unfold d. rewrite Hund, Hlen. destruct (Z.le_gt_cases e 0) as [He|He].
    - assert (pow10 e = 1%N) as -> by (unfold pow10; by replace (Z.to_N e) with 0%N by lia). rewrite N.mul_1_r.
      replace (- Z.max 0 (- e)) with e by lia. exists (Dec false co e). split; [apply dec_fix_of_fits; done|done].
    - replace (- Z.max 0 (- e)) with 0 by lia. apply (dec_fix_shift DEFAULT_CONTEXT default_context_ok false co 0 e); [done|lia|done|done]. }
  pose proof Hfit as Hfit'. unfold fits, adjusted in Hfit'. cbn [d_coeff d_exp] in Hfit'. btrue. 
  assert (Etiny DEFAULT_CONTEXT = -1000026) as Het by reflexivity. assert (Emax DEFAULT_CONTEXT = 999999) as Hem by reflexivity.
  pose proof (ndigits_pos co) as Hnp. split.
  { unfold d. apply representable_bounds; unfold MIN_ETINY, MAX_EMAX; [lia|lia|]. rewrite Hund, Hlen.
    destruct (Z.le_gt_cases e 0).
    - assert (pow10 e = 1%N) as -> by (unfold pow10; by replace (Z.to_N e) with 0%N by lia). rewrite N.mul_1_r. lia.
    - rewrite ndigits_mul_pow10 by (done || lia). lia. }
  destruct s.
  - exists (dec_neg r), (dec_neg r). unfold read_value, py_abs. change (dec_abs d) with d. unfold arith. rewrite Hr. cbn [map_err mbind result_bind].
    assert (dec_fix DEFAULT_CONTEXT (dec_neg r) = Ok (dec_neg r)) as Hn.
    { apply dec_fix_of_fits; [done|]. apply fits_neg. by eapply dec_fix_result_fits. }
    unfold py_neg. destruct (N.eqb_spec (d_coeff r) 0); [done|]. unfold arith. rewrite Hn. split; [done|].
    assert (deq (dec_neg r) (Dec true co e)) as Hdn.
    { unfold deq in *. rewrite dq_neg, Hdr. change (Dec true co e) with (dec_neg (Dec false co e)). by rewrite dq_neg. }
    split; [done|]. split; [done|]. split; [done|]. cbn. by rewrite Hsr.
  - exists d, r. done.
Qed.

Lemma dec_normalize_fix c v n : dec_normalize c v = Ok n → ∃ r, dec_fix c v = Ok r.
Proof. unfold dec_normalize. destruct (dec_fix c v) as [r|]; [by exists r|done]. Qed.

Lemma fix_zero v : (dq v == 0)%Q → ∃ r, dec_fix DEFAULT_CONTEXT v = Ok r ∧ (dq r == 0)%Q.
Proof.
  intros Hz. destruct (decide (d_coeff v = 0%N)) as [Hc|Hc]; [|by apply dq_nonzero in Hc].
  unfold dec_fix. rewrite Hc. eexists. split; [done|]. apply dq_zero.
Qed.

(** Writing a number and reading it back gives a number equal to its rounding in
    the default context, which is written the same. *)
Lemma format_then_parse v s :
  format_decimal v = Ok s → s ≠ "-0"%string →
  ∃ w r, parse_numeric s = Ok (w, 0, sign_text w) ∧ format_decimal w = Ok s ∧ dec_fix DEFAULT_CONTEXT v = Ok r ∧ deq w r.
Proof.
  intros Hf Hs.
  assert (∀ r, (dq r == 0)%Q → s = "0"%string → dec_fix DEFAULT_CONTEXT v = Ok r →
    ∃ w r, parse_numeric s = Ok (w, 0, sign_text w) ∧ format_decimal w = Ok s ∧ dec_fix DEFAULT_CONTEXT v = Ok r ∧ deq w r) as Hzero.
  { intros r Hr -> Hfix. exists (Dec false 0 0), r. split; [reflexivity|]. split; [reflexivity|]. split; [done|]. unfold deq. by rewrite Hr, dq_zero. }
  destruct (format_decimal_spec v s Hf) as [[Hz ->]|(n & Hn & ->)].
  { destruct (fix_zero v Hz) as (r & Hr & Hr0). by apply (Hzero r). }
  destruct (dec_normalize_fix _ _ _ Hn) as [r Hr].
  destruct (dec_normalize_of_fix DEFAULT_CONTEXT default_context_ok v r Hr) as (n' & Hn' & Hnr & Hnorm & Hsign & Hfit). rewrite Hn in Hn'. injection Hn' as <-.
  destruct (decide (d_coeff n = 0%N)) as [Hc|Hc].
  { destruct Hnorm as [[_ He]|Hm]; [|by rewrite Hc in Hm]. destruct n as [sn cn en]; cbn in Hc, He, Hsign; subst cn en.
    destruct sn; [done|]. apply (Hzero r); [|done|done]. unfold deq in Hnr. rewrite <- Hnr. apply dq_zero. }
  destruct (format_f_plain n) as (ip & fp & Hff & Hip & Hfp & Hne & Hlf & _ & Hund & Hlast).
  destruct (N.eqb_spec (d_coeff n) 0) as [|_]; [done|]. cbn [andb] in *.
  change (format_f n = signed_plain (d_sign n) ip fp) in Hff. rewrite Hff.
  rewrite trimmed_plain; [|done|done|done|].
  2:{ intros Hfpne. rewrite Hlast, last_digits by done. eexists. split; [done|]. destruct Hnorm as [[? _]|?]; done. }
  destruct (read_value_spec n ip fp Hfit Hc Hlf Hund) as (Hrep & w & r' & Hw & Hwn & Hr' & Hrn & Hsr).
  exists w, r. split; [rewrite parse_signed by done; by rewrite Hw|]. split; [|split; [done|by rewrite Hwn]].
  assert (~ (dq w == 0)%Q) as Hw0.
  { intros Hw0. apply (dq_nonzero n Hc). unfold deq in Hwn. by rewrite <- Hwn. }
  destruct (format_decimal_of_fix w r' Hr' Hw0) as (n2 & _ & Hn2 & Hnorm2 & Hs2 & _ & ->). f_equal.
  assert (deq n2 n) as Hn2n by (unfold deq in *; by rewrite Hn2, Hrn).
  destruct (normal_unique n2 n Hnorm2 Hnorm Hn2n) as (Hcc & Hee & _).
  assert (n2 = n) as -> by (destruct n2, n; cbn in *; subst; congruence).
  rewrite Hff. apply trimmed_plain; [done|done|done|].
  intros Hfpne. rewrite Hlast, last_digits by done. eexists. split; [done|]. destruct Hnorm as [[? _]|?]; done.
Qed.

(** * Ranges *)
From S2P Require Import Periods.

Definition SCALE_MIN : Z := 0.
Definition SCALE_MAX : Z := 12.

Definition range_text (code : string) : string :=
  (if bool_decide (code = "range_low_gt_high") then "guidance range low must be <= high"
   else "guidance range low/high not decimal")%string.

(** [Decimal(str(payload[k]))]; [None] is an exception the source catches *)
Definition decimal_field (k : string) (p : list (string * value)) : option pydecimal :=
  v ← dict_get k p; decimal_of_text (py_str v).

Definition check_range (p : list (string * value)) : list string :=
  if negb (is_str "guidance" (get "kind" p) && is_str "range" (get "shape" p)) then [] else
  match decimal_field "low" p, decimal_field "high" p with
  | Some (Finite low), Some (Finite high) => if dec_ltb high low then ["range_low_gt_high"%string] else []
  | _, _ => ["range_bounds_not_decimal"%string]
  end.

Definition scale_blockers (scale : value) : list string :=
  match scale with
  | NoneV => []
  | IntV z => if (z <? SCALE_MIN) || (SCALE_MAX <? z) then [("scale out of range: " +:+ str_of_Z z)%string] else []
  | _ => ["scale must be int"%string]
  end.

Definition not_decimal (p : list (string * value)) (key : string) : list string :=
  match dict_get key p with
  | None => []
  | Some v => match decimal_of_text (py_str v) with None => [(key +:+ " is not a decimal string")%string] | Some _ => [] end
  end.

Definition range_errors (p : list (string * value)) : list string :=
  map range_text (check_range p) ++
  concat (map (not_decimal p) ["value"; "low"; "high"]%string) ++
  scale_blockers (get "scale" p).
