(* ===== verification/NumericReading.v ===== *)
(** What a successful reading of issuer text means: every digit of the text is
    in the number, at its place. *)

From Stdlib Require Import QArith Qabs.
From S2P Require Import Prelude Dicts Text Regex Decimals Payload Numeric.
Local Open Scope Z_scope.

Lemma filter_ext_elem {A} (P Q : A → Prop) `{∀ x, Decision (P x), ∀ x, Decision (Q x)} (l : list A) :
  (∀ x, x ∈ l → P x ↔ Q x) → filter P l = filter Q l.
Proof.
  induction l as [|x l IH]; intros Heq; [done|]. rewrite !filter_cons, IH by (intros y Hy; apply Heq; by right).
  pose proof (Heq x (list_elem_of_here _ _)). repeat case_decide; tauto.
Qed.

(** * Digits of a text *)

Definition digits_of (l : list ascii) : list N := digit_val <$> filter (λ a, is_digit a = true) l.

Lemma digits_of_app l1 l2 : digits_of (l1 ++ l2) = digits_of l1 ++ digits_of l2.
Proof. unfold digits_of. by rewrite filter_app, fmap_app. Qed.

Lemma digits_of_none l : Forall (λ a, is_digit a = false) l → digits_of l = [].
Proof. unfold digits_of. induction 1 as [|a l Ha _ IH]; [done|]. rewrite filter_cons_False by congruence. done. Qed.

Lemma digits_of_all l : Forall (λ a, is_digit a = true) l → digits_of l = digit_val <$> l.
Proof. unfold digits_of. induction 1 as [|a l Ha _ IH]; [done|]. rewrite filter_cons_True by done. cbn. by f_equal. Qed.

Lemma digit_val_ok a : is_digit a = true → (digit_val a < 10)%N ∧ digit_char (digit_val a) = a.
Proof. destruct a as [[] [] [] [] [] [] [] []]; vm_compute; (congruence || intuition congruence). Qed.

Lemma digits_of_ok l : digits_ok (digits_of l).
Proof.
  unfold digits_of. apply Forall_fmap, Forall_forall. intros a [Ha _]%list_elem_of_filter. by apply digit_val_ok.
Qed.

Lemma digit_chars_of l : digit_char <$> digits_of l = filter (λ a, is_digit a = true) l.
Proof.
  unfold digits_of. rewrite <- list_fmap_compose. rewrite <- (list_fmap_id (filter _ l)) at 2. apply list_fmap_ext.
  intros i a Ha%list_elem_of_lookup_2. apply list_elem_of_filter in Ha as [Ha _]. by apply digit_val_ok.
Qed.

Lemma cleaned_digits raw : digits_of (chars raw) = digits_of (cleaned_text raw).
Proof.
  assert (∀ c s, is_digit c = false → digits_of (chars (remove_char c s)) = digits_of (chars s)) as Hrm.
  { intros c s Hc. rewrite chars_remove_char. unfold digits_of. f_equal. rewrite list_filter_filter. apply list_filter_iff.
    intros a. split; [tauto|]. intros Ha. split; [done|]. intros ->. congruence. }
  unfold cleaned_text. rewrite <- (Hrm "$"%char raw), <- (Hrm "%"%char (remove_char "$" raw)) by done.
  destruct (strip_spec (remove_char "%" (remove_char "$" raw))) as (pre & post & Hs & Hpre & Hpost). rewrite Hs at 1.
  assert (∀ l, Forall (λ a, is_space a = true) l → digits_of l = []) as Hsp.
  { intros l Hl. apply digits_of_none. eapply Forall_impl; [exact Hl|]. intros a Ha. destruct (is_digit a) eqn:Hd; [|done].
    apply digit_not_space in Hd. congruence. }
  by rewrite !digits_of_app, (Hsp pre), (Hsp post), app_nil_r.
Qed.

Lemma undigits_bound l : digits_ok l → (undigits l < 10 ^ N.of_nat (length l))%N.
Proof.
  induction l as [|d l IH] using rev_ind; [done|]. intros [Hl [Hd _]%Forall_cons]%Forall_app. rewrite undigits_snoc, length_app.
  cbn [length]. rewrite Nat.add_1_r, Nat2N.inj_succ, N.pow_succ_r'. specialize (IH Hl). lia.
Qed.

(** * The parts of the pattern *)

Section parts.
Context (text : list ascii).
Notation L := (length text).

Lemma star_class p s s' : matches text (Star (Chars p)) s s' → (s.1 ≤ L)%nat → Forall (λ a, p a = true) (slice text s.1 s'.1).
Proof. intros Hm Hs. apply (matches_classes text (λ a, p a = true) _ _ _ Hm); [cbn; auto|done]. Qed.

Lemma plus_digits s s' : matches text (Plus digit) s s' → (s.1 ≤ L)%nat →
  (s.1 < s'.1)%nat ∧ Forall (λ a, is_digit a = true) (slice text s.1 s'.1).
Proof.
  intros Hm Hs. split; [|apply (matches_classes text (λ a, is_digit a = true) _ _ _ Hm); [cbn; auto|done]].
  apply matches_seq in Hm as (s2 & H1 & H2). apply matches_chars in H1 as (a & Ha & _ & ->). apply lookup_lt_Some in Ha.
  apply matches_bounds in H2; cbn in *; lia.
Qed.

Lemma slice_length i j : (j ≤ L)%nat → length (slice text i j) = (j - i)%nat.
Proof. intros. unfold slice. rewrite length_take, length_drop. lia. Qed.

(** a point and digits *)
Lemma fraction_sound s s' : matches text (Seq (Chars (char ".")) (Plus digit)) s s' → (s.1 ≤ L)%nat →
  ∃ fp, slice text s.1 s'.1 = "."%char :: fp ∧ fp ≠ [] ∧ Forall (λ a, is_digit a = true) fp.
Proof.
  intros (s2 & H1 & H2)%matches_seq Hs. apply matches_chars in H1 as (a & Ha & Hp & ->). apply bool_decide_eq_true in Hp as ->.
  apply lookup_lt_Some in Ha as Hl. destruct (plus_digits _ _ H2) as [Hlt Hd]; [cbn; lia|]. cbn [fst] in *.
  pose proof (matches_bounds _ _ _ _ H2 ltac:(cbn; lia)) as Hb. cbn in Hb. exists (slice text (S s.1) s'.1).
  rewrite (slice_app text s.1 (S s.1)) by lia. rewrite (slice_one _ _ _ Ha). split; [done|]. split; [|done].
  intros Hnil. apply (f_equal length) in Hnil. rewrite slice_length in Hnil by lia. cbn in Hnil. lia.
Qed.

Definition point_and (fp : list ascii) : list ascii := match fp with [] => [] | _ => "."%char :: fp end.

Lemma body_sound s s' : matches text body_re s s' → (s.1 ≤ L)%nat →
  s'.2 = s.2 ∧ ∃ ip fp, slice text s.1 s'.1 = ip ++ point_and fp ∧
    Forall (λ a, is_digit a = true ∨ a = ","%char) ip ∧ Forall (λ a, is_digit a = true) fp ∧ digits_of ip ++ digits_of fp ≠ [].
Proof.
  intros Hm Hs. split; [eapply matches_no_group; [exact Hm|by cbn]|]. apply matches_alt in Hm as [Hm|Hm].
  - apply matches_seq in Hm as (s2 & H1 & H2). pose proof (matches_bounds _ _ _ _ H1 Hs) as Hb1. pose proof (matches_bounds _ _ _ _ H2 ltac:(lia)) as Hb2.
    assert (Forall (λ a, is_digit a = true ∨ a = ","%char) (slice text s.1 s2.1)) as Hip.
    { apply (matches_classes text (λ a, is_digit a = true ∨ a = ","%char) _ _ _ H1); [|done]. cbn. unfold char.
      repeat split; intros a Ha; rewrite ?bool_decide_eq_true in Ha; tauto. }
    assert (digits_of (slice text s.1 s2.1) ≠ []) as Hne.
    { assert (∃ a, text !! s.1 = Some a ∧ is_digit a = true) as (a & Ha & Hd).
      { apply matches_alt in H1 as [H1|H1].
        - apply matches_seq in H1 as (s3 & H3 & _). apply matches_seq in H3 as (s4 & H4 & _). apply matches_chars in H4 as (a & ? & ? & _). eauto.
        - apply matches_seq in H1 as (s3 & H3 & _). apply matches_chars in H3 as (a & ? & ? & _). eauto. }
      assert (s.1 < s2.1)%nat as Hlt.
      { apply matches_alt in H1 as [H1|H1]; [|by destruct (plus_digits _ _ H1 Hs)].
        apply matches_seq in H1 as (s3 & H3 & H4). apply matches_seq in H3 as (s4 & H5 & H6). apply matches_chars in H5 as (c & ? & _ & ->).
        apply matches_bounds in H6; [|cbn; apply lookup_lt_Some in Ha; lia]. apply matches_bounds in H4; cbn in *; lia. }
      rewrite (slice_app text s.1 (S s.1)), (slice_one _ _ _ Ha) by lia. unfold digits_of. cbn [app]. by rewrite filter_cons_True. }
    apply matches_opt in H2 as [H2|Heq].
    + destruct (fraction_sound _ _ H2) as (fp & Hfp & Hfpne & Hfpd); [lia|]. exists (slice text s.1 s2.1), fp.
      rewrite (slice_app text s.1 s2.1), Hfp by lia. split; [destruct fp; [done|reflexivity]|]. split; [done|]. split; [done|]. by intros [? _]%app_eq_nil.
    + rewrite Heq. exists (slice text s.1 s2.1), []. split; [by rewrite app_nil_r|]. split; [done|]. split; [constructor|]. by rewrite app_nil_r.
  - destruct (fraction_sound _ _ Hm Hs) as (fp & Hfp & Hfpne & Hfpd). exists [], fp. rewrite Hfp. split; [by destruct fp|].
    split; [constructor|]. split; [done|]. rewrite (digits_of_all fp) by done. by destruct fp.
Qed.

Notation quiet := (λ a, isdigit a = false).

Lemma char_quiet c a : isdigit c = false → char c a = true → isdigit a = false.
Proof. unfold char. intros Hc ->%bool_decide_eq_true. done. Qed.
Lemma char_ci_quiet c a : isdigit (lower_char c) = false → char_ci c a = true → isdigit a = false.
Proof.
  unfold char_ci. intros Hc Ha%bool_decide_eq_true. rewrite <- Ha in Hc. clear Ha. revert Hc.
  destruct a as [[] [] [] [] [] [] [] []]; vm_compute; congruence.
Qed.
Lemma space_quiet a : is_space a = true → isdigit a = false.
Proof. destruct a as [[] [] [] [] [] [] [] []]; vm_compute; congruence. Qed.
Lemma quiet_not_digit a : isdigit a = false → is_digit a = false.
Proof. unfold isdigit. by intros [? _]%orb_false_iff. Qed.

Lemma closing_classes name : classes quiet (closing name).
Proof. cbn. split; [split; [apply space_quiet|by intros a; apply char_quiet]|done]. Qed.

Lemma suffix_classes : classes quiet suffix_re.
Proof.
  cbn. repeat split; intros a Ha; try (by eapply char_ci_quiet; [|exact Ha]); try (by apply space_quiet).
  rewrite !orb_true_iff in Ha. destruct Ha as [[Ha|Ha]|Ha]; (eapply char_ci_quiet; [|exact Ha]); done.
Qed.

(** the suffix that was captured is one of the table *)
Lemma suffix_sound s s' : matches text suffix_re s s' → (s.1 ≤ L)%nat →
  s'.2 = s.2 ∨ ∃ i j w, s'.2 = ("suffix"%string, (i, j)) :: s.2 ∧ (s.1 ≤ i ≤ j)%nat ∧ (j ≤ s'.1)%nat ∧
    w ∈ SCALE_SUFFIX.*1 ∧ lower_char <$> slice text i j = chars w.
Proof.
  intros [Hm|Hm]%matches_opt Hs; [right|left; by rewrite Hm].
  apply matches_seq in Hm as (s2 & H1 & Hm). apply matches_seq in Hm as (s3 & H2 & H3).
  pose proof (matches_bounds _ _ _ _ H1 Hs) as Hb1. pose proof (matches_bounds _ _ _ _ H2 ltac:(lia)) as Hb2.
  pose proof (matches_bounds _ _ _ _ H3 ltac:(lia)) as Hb3. apply matches_no_group in H1; [|done]. apply matches_no_group in H3; [|by cbn].
  apply matches_group in H2 as (j & caps & Ha & ->). cbn [fst snd] in *.
  assert (caps = s2.2) as -> by (apply (matches_no_group _ _ _ _ Ha); by cbn).
  assert (∃ w, w ∈ SCALE_SUFFIX.*1 ∧ lower_char <$> slice text s2.1 j = chars w) as (w & Hw & Heq).
  { assert (∀ w, matches text (word w) s2 (j, s2.2) → lower_char <$> chars w = chars w → w ∈ SCALE_SUFFIX.*1 →
      ∃ w, w ∈ SCALE_SUFFIX.*1 ∧ lower_char <$> slice text s2.1 j = chars w) as Hword.
    { intros w Hw Hlow Hin. exists w. split; [done|]. rewrite <- Hlow. by apply (matches_word text w _ _ Hw); lia. }
    unfold suffix_alternation in Ha. repeat (apply matches_alt in Ha as [Ha|Ha]; [eapply Hword; [exact Ha|reflexivity|]; apply (bool_decide_unpack (_ ∈ SCALE_SUFFIX.*1)); vm_compute; exact I|]).
    apply matches_chars in Ha as (a & Hta & Hp & [= Hj]). subst j. rewrite (slice_one _ _ _ Hta). cbn [fmap list_fmap].
    rewrite !orb_true_iff in Hp. unfold char_ci in Hp. rewrite !bool_decide_eq_true in Hp.
    destruct Hp as [[Hp|Hp]|Hp]; rewrite Hp; [exists "k"%string|exists "m"%string|exists "b"%string]; (split; [apply (bool_decide_unpack (_ ∈ SCALE_SUFFIX.*1)); vm_compute; exact I|reflexivity]). }
  exists s2.1, j, w. rewrite H3, H1. split; [done|]. split; [lia|]. split; [lia|]. done.
Qed.

Lemma others_skip (names : list string) name extra caps :
  Forall (λ c : string * (nat * nat), c.1 ∈ names) extra → name ∉ names → capture name (extra ++ caps) = capture name caps.
Proof. intros He Hn. apply capture_skip. eapply Forall_impl; [exact He|]. intros c Hc Heq. cbn in Hc. by rewrite Heq in Hc. Qed.

(** one step of the pattern: quiet text, and captures of its own groups *)
Lemma quiet_step r s s' : matches text r s s' → classes quiet r → (s.1 ≤ L)%nat →
  (s.1 ≤ s'.1 ≤ L)%nat ∧ Forall quiet (slice text s.1 s'.1) ∧ ∃ extra, s'.2 = extra ++ s.2 ∧ Forall (λ c : string * (nat * nat), c.1 ∈ groups r) extra.
Proof.
  intros Hm Hc Hs. split; [by apply (matches_bounds _ _ _ _ Hm)|]. split; [by apply (matches_classes text quiet _ _ _ Hm)|].
  destruct (matches_captures _ _ _ _ Hm Hs) as (extra & He & Hf). exists extra. split; [done|]. eapply Forall_impl; [exact Hf|]. by intros c [? _].
Qed.

(** what stands before the number *)
Lemma prefix_sound start s4 :
  matches text (Seq (Opt (Group "open" (Chars (char "(")))) (Seq spaces (Seq (Opt (Group "sign" (Chars (λ a, char "-" a || char "+" a)))) spaces))) (start, []) s4 →
  (start ≤ L)%nat → (start ≤ s4.1 ≤ L)%nat ∧ Forall quiet (slice text start s4.1) ∧
  (capture "sign" s4.2 = None ∨ ∃ i a, capture "sign" s4.2 = Some (i, S i) ∧ text !! i = Some a ∧ (a = "-"%char ∨ a = "+"%char)) ∧
  (capture "open" s4.2 = None ∨ "("%char ∈ text) ∧ Forall (λ c : string * (nat * nat), c.1 ∈ ["sign"; "open"]%string) s4.2.
Proof.
  intros Hm Hs. destruct (quiet_step _ _ _ Hm) as (Hb & Hq & extra & He & Hf); [|done|].
  { cbn. repeat split; intros a Ha; try (by apply space_quiet); [by eapply char_quiet; [|exact Ha]|].
    apply orb_true_iff in Ha as [Ha|Ha]; by eapply char_quiet; [|exact Ha]. }
  split; [done|]. split; [done|]. cbn [fst snd] in *. rewrite app_nil_r in He.
  apply matches_seq in Hm as (s1 & H1 & Hm). apply matches_seq in Hm as (s2 & H2 & Hm). apply matches_seq in Hm as (s3 & H3 & H4).
  apply matches_no_group in H2; [|done]. apply matches_no_group in H4; [|done].
  assert (s1.2 = [] ∨ "("%char ∈ text ∧ ∃ sp, s1.2 = [("open"%string, sp)]) as H1'.
  { apply matches_opt in H1 as [H1| ->]; [right|by left]. apply matches_group in H1 as (j & caps & Hc & ->). apply matches_chars in Hc as (a & Ha & Hp & [= -> ->]).
    unfold char in Hp. apply bool_decide_eq_true in Hp as ->. split; [by eapply list_elem_of_lookup_2|]. by eexists. }
  apply matches_opt in H3 as [H3|H3].
  - apply matches_group in H3 as (j & caps & Hc & ->). apply matches_chars in Hc as (a & Ha & Hp & [= -> ->]). cbn in H4. rewrite H4. split.
    + right. exists s2.1, a. split; [done|]. split; [done|]. unfold char in Hp. rewrite orb_true_iff, !bool_decide_eq_true in Hp. done.
    + rewrite H2. split; [destruct H1' as [->|[? [sp ->]]]; [by left|by right]|].
      destruct H1' as [->|[? [sp ->]]]; repeat constructor.
  - subst s3. rewrite H4, H2. destruct H1' as [->|[? [sp ->]]]; (split; [by left|split; [by auto|repeat constructor]]).
Qed.

(** the match of a number *)
Lemma num_sound start stop caps :
  matches text NUM_RE (start, []) (stop, caps) → (start ≤ L)%nat →
  ∃ b e, (start ≤ b ≤ e)%nat ∧ (e ≤ stop ≤ L)%nat ∧ Forall quiet (slice text start b) ∧ Forall quiet (slice text e stop) ∧
    capture "body" caps = Some (b, e) ∧
    (∃ ip fp, slice text b e = ip ++ point_and fp ∧ Forall (λ a, is_digit a = true ∨ a = ","%char) ip ∧ Forall (λ a, is_digit a = true) fp ∧
      digits_of ip ++ digits_of fp ≠ []) ∧
    (capture "sign" caps = None ∨ ∃ i a, capture "sign" caps = Some (i, S i) ∧ text !! i = Some a ∧ (a = "-"%char ∨ a = "+"%char)) ∧
    (capture "open" caps = None ∨ "("%char ∈ text) ∧
    (capture "suffix" caps = None ∨ ∃ i j w, capture "suffix" caps = Some (i, j) ∧ (e ≤ i ≤ j)%nat ∧ (j ≤ stop)%nat ∧ w ∈ SCALE_SUFFIX.*1 ∧
      lower_char <$> slice text i j = chars w).
Proof.
  intros Hm Hs. apply matches_seq in Hm as (s1 & H1 & Hm). apply matches_seq in Hm as (s2 & H2 & Hm). apply matches_seq in Hm as (s3 & H3 & Hm).
  apply matches_seq in Hm as (s4 & H4 & Hm). destruct (prefix_sound start s4) as (Hb4 & Hq4 & Hsign & Hopen & Hnames).
  { eapply m_seq; [exact H1|]. eapply m_seq; [exact H2|]. eapply m_seq; [exact H3|exact H4]. } { done. }
  clear H1 H2 H3 H4. apply matches_seq in Hm as (s5 & H5 & Hm). apply matches_seq in Hm as (s6 & H6 & Hm). apply matches_seq in Hm as (s7 & H7 & H8).
  apply matches_group in H5 as (e & caps5 & H5 & ->). pose proof (matches_bounds _ _ _ _ H5 ltac:(lia)) as Hb5. cbn in Hb5.
  destruct (body_sound _ _ H5 ltac:(lia)) as [Hc5 Hbody]; cbn in Hc5; subst caps5.
  destruct (quiet_step _ _ _ H6 (closing_classes _)) as (Hb6 & Hq6 & x6 & E6 & F6); [cbn; lia|]. cbn [fst snd] in *.
  destruct (quiet_step _ _ _ H7 suffix_classes) as (Hb7 & Hq7 & x7 & E7 & F7); [lia|].
  destruct (quiet_step _ _ _ H8 (closing_classes _)) as (Hb8 & Hq8 & x8 & E8 & F8); [lia|]. cbn [fst snd] in *.
  assert (Forall quiet (slice text e stop)) as Hqe.
  { rewrite (slice_app text e s6.1), (slice_app text s6.1 s7.1 stop) by lia. rewrite !Forall_app. done. }
  cbn in F6, F7, F8. exists s4.1, e. split; [lia|]. split; [lia|]. split; [done|]. split; [done|].
  assert (∀ name, name ∉ ["close_suffixed"; "suffix"; "close_bare"]%string → capture name caps = capture name (("body"%string, (s4.1, e)) :: s4.2)) as Hskip.
  { intros name Hn. rewrite E8, E7, E6. rewrite !not_elem_of_cons in Hn.
    rewrite (others_skip ["close_suffixed"%string]), (others_skip ["suffix"%string]), (others_skip ["close_bare"%string]); try done; rewrite not_elem_of_cons; intuition (try by apply not_elem_of_nil). }
  split; [by rewrite Hskip by (apply (bool_decide_unpack _); vm_compute; exact I)|]. split; [done|].
  split; [rewrite Hskip by (apply (bool_decide_unpack _); vm_compute; exact I); exact Hsign|].
  split; [rewrite Hskip by (apply (bool_decide_unpack _); vm_compute; exact I); exact Hopen|].
  assert (capture "suffix" caps = capture "suffix" s7.2) as ->.
  { rewrite E8. apply (others_skip ["close_suffixed"%string]); [done|]. apply (bool_decide_unpack _); vm_compute; exact I. }
  destruct (suffix_sound _ _ H7) as [Heq|(i & j & w & Heq & Hij & Hj & Hw & Hl)]; [lia| |].
  - left. rewrite Heq, E6. rewrite (others_skip ["close_bare"%string]); [|done|apply (bool_decide_unpack _); vm_compute; exact I].
    change (capture "suffix" s4.2 = None). rewrite <- (app_nil_r s4.2), (others_skip ["sign"; "open"]%string); [done|done|apply (bool_decide_unpack _); vm_compute; exact I].
  - right. exists i, j, w. rewrite Heq. split; [done|]. split; [lia|]. split; [lia|]. done.
Qed.
End parts.

(** * The whole reading *)

Lemma dec_fix_sign c d r : dec_fix c d = Ok r → d_sign r = d_sign d.
Proof. unfold dec_fix. intros H. repeat case_match; simplify_eq; done. Qed.

Lemma dq_nonneg d : d_sign d = false → (0 <= dq d)%Q.
Proof.
  intros Hs. rewrite dq_unfold. apply Qmult_le_0_compat; [|apply Qlt_le_weak, q10_pos].
  unfold sval. rewrite Hs. change 0%Q with (inject_Z 0). rewrite <- Zle_Qle. lia.
Qed.

Lemma elem_of_cleaned a raw : a ∈ cleaned_text raw → a ∈ chars raw.
Proof.
  unfold cleaned_text. intros Ha. destruct (strip_spec (remove_char "%" (remove_char "$" raw))) as (pre & post & Hs & _).
  assert (a ∈ chars (remove_char "%" (remove_char "$" raw))) as H by (rewrite Hs, !elem_of_app; auto).
  by apply elem_of_remove_char in H as [[? _]%elem_of_remove_char _].
Qed.

Lemma digits_of_point fp : digits_of (point_and fp) = digits_of fp.
Proof. by destruct fp. Qed.

Lemma body_text ip fp :
  Forall (λ a, is_digit a = true ∨ a = ","%char) ip → Forall (λ a, is_digit a = true) fp →
  remove_char "," (String.string_of_list_ascii (ip ++ point_and fp)) = plain_text (digits_of ip) (digits_of fp).
Proof.
  intros Hip Hfp. apply chars_inj. rewrite chars_remove_char, String.list_ascii_of_string_of_list_ascii, chars_plain, digit_chars_of, filter_app. f_equal.
  - apply filter_ext_elem. intros a Ha. rewrite Forall_forall in Hip. destruct (Hip a Ha) as [Hd| ->]; split; try done. intros _ ->. done.
  - assert (∀ l, Forall (λ a, is_digit a = true) l → filter (λ a, a ≠ ","%char) l = digit_char <$> digits_of l) as Hl.
    { intros l Hl. rewrite digit_chars_of. apply filter_ext_elem. intros a Ha. rewrite Forall_forall in Hl. split; [by intros _; apply Hl|].
      intros Hd ->. done. }
    destruct fp as [|a fp]; [done|]. cbn [point_and]. rewrite filter_cons_True by done. rewrite Hl by done.
    unfold digits_of, fraction_chars. rewrite filter_cons_True by (by apply Forall_cons in Hfp as [? _]). done.
Qed.

Lemma text_parts {A} (text : list A) (i b e j : nat) :
  (i ≤ b ≤ e)%nat → (e ≤ j ≤ length text)%nat →
  text = take i text ++ slice text i b ++ slice text b e ++ slice text e j ++ drop j text.
Proof.
  intros Hib Hej. assert (∀ p q, (p ≤ q ≤ length text)%nat → drop p text = slice text p q ++ drop q text) as Hd.
  { intros p q Hpq. unfold slice. replace (drop q text) with (drop (q - p) (drop p text)) by (rewrite drop_drop; f_equal; lia). by rewrite take_drop. }
  rewrite <- (Hd e j), <- (Hd b e), <- (Hd i b) by lia. by rewrite take_drop.
Qed.

Lemma quiet_digits l : Forall (λ a, isdigit a = false) l → digits_of l = [].
Proof. intros Hl. apply digits_of_none. eapply Forall_impl; [exact Hl|]. apply quiet_not_digit. Qed.

(** the value behind the digits, and the sign the text gives it *)
Lemma signed_value m v (neg pos : bool) :
  d_sign m = false → (if neg then a ← py_abs m; py_neg a else if pos then py_abs m else Ok m) = Ok v →
  (fits DEFAULT_CONTEXT m = true → v = m ∨ v = dec_neg m) ∧ ((dq v < 0)%Q → neg = true).
Proof.
  intros Hs Hv. assert (dec_abs m = m) as Habs by (destruct m; cbn in *; by subst).
  unfold py_abs, py_neg, arith in Hv. rewrite Habs in Hv. split.
  - intros Hfit. rewrite (dec_fix_of_fits _ default_context_ok m Hfit) in Hv. cbn [map_err mbind result_bind] in Hv.
    destruct neg; [|left; destruct pos; by injection Hv as <-].
    rewrite Habs in Hv. destruct (N.eqb_spec (d_coeff m) 0).
    + rewrite (dec_fix_of_fits _ default_context_ok m Hfit) in Hv. injection Hv as <-. by left.
    + rewrite (dec_fix_of_fits _ default_context_ok (dec_neg m) Hfit) in Hv. injection Hv as <-. by right.
  - intros Hneg. destruct neg; [done|]. exfalso. apply (Qlt_not_le _ _ Hneg), dq_nonneg.
    destruct pos; [|by injection Hv as <-]. apply map_err_Ok in Hv. by rewrite (dec_fix_sign _ _ _ Hv).
Qed.

Lemma small_fits l k : digits_ok l → (length l ≤ 28)%nat → (k ≤ length l)%nat →
  fits DEFAULT_CONTEXT (Dec false (undigits l) (- Z.of_nat k)) = true.
Proof.
  intros Hl Hn Hk. pose proof (undigits_bound l Hl) as Hb.
  assert (ndigits (undigits l) ≤ 28) as Hd.
  { apply ndigits_le_iff; [lia|]. eapply N.lt_le_trans; [exact Hb|]. unfold pow10. apply N.pow_le_mono_r; lia. }
  unfold fits, adjusted. cbn [d_coeff d_exp]. assert (Etiny DEFAULT_CONTEXT = -1000026) as -> by reflexivity.
  assert (Emax DEFAULT_CONTEXT = 999999) as -> by reflexivity. assert (prec DEFAULT_CONTEXT = 28) as -> by reflexivity.
  rewrite !andb_true_iff, !Z.leb_le. lia.
Qed.

(** a value of at most 28 digits, none of them beyond the point *)
Definition modest (d : decimal) : Prop := ndigits (d_coeff d) ≤ 28 ∧ -28 ≤ d_exp d ≤ 0.

Lemma suffix_range w sc : (w, sc) ∈ SCALE_SUFFIX → 0 ≤ sc ≤ 12.
Proof.
  assert (Forall (λ p, 0 ≤ p.2 ≤ 12) SCALE_SUFFIX) as H by (repeat constructor; cbn; lia).
  rewrite Forall_forall in H. intros Hin. apply (H _ Hin).
Qed.

Lemma parse_numeric_inv raw v sc sg :
  parse_numeric raw = Ok (v, sc, sg) →
  let ds := digits_of (chars raw) in
  ds ≠ [] ∧ sg = sign_text v ∧ ((dq v < 0)%Q → "-"%char ∈ chars raw ∨ "("%char ∈ chars raw) ∧
  ∃ l r, cleaned_text raw = l ++ r ∧
    let k := length (digits_of r) in
    (k = 0%nat ∨ head r = Some "."%char) ∧
    ((length ds ≤ 28)%nat → modest v ∧ (Qabs (dq v) == inject_Z (Z.of_N (undigits ds)) * q10 (- Z.of_nat k))%Q) ∧
    0 ≤ sc ≤ 12 ∧ (sc = 0 ∨ ∃ w p q, (w, sc) ∈ SCALE_SUFFIX ∧ lower_char <$> r = p ++ chars w ++ q).
Proof.
  intros H ds. unfold parse_numeric in H. apply bind_Ok in H as ([] & _ & H). cbv zeta in H.
  assert (ds = digits_of (cleaned_text raw)) as Hds by apply cleaned_digits. set (text := cleaned_text raw) in *.
  destruct (search text NUM_RE) as [[start [stop caps]]|] eqn:Hsearch; [|done].
  apply search_sound in Hsearch as [Hstart Hm]. destruct (num_sound text start stop caps Hm Hstart)
    as (b & e & Hbe & Hes & Hq1 & Hq2 & Hbody & (ip & fp & Hslice & Hip & Hfp & Hne) & Hsign & Hopen & Hsuf).
  apply bind_Ok in H as ([] & Hfull & H). apply bind_Ok in H as (m & Hval & H). apply bind_Ok in H as (scale & Hscale & H).
  apply bind_Ok in H as (v' & Hv & [= -> -> <-]).
  unfold require_full_consumption in Hfull. apply bind_Ok in Hfull as ([] & Hleft & _). apply ensure_Ok, negb_true_iff in Hleft.
  rewrite existsb_app in Hleft. apply orb_false_iff in Hleft as [Hl1 Hl2].
  assert (∀ l, existsb isdigit l = false → Forall (λ a, isdigit a = false) l) as Hex.
  { induction l as [|a l IH]; cbn; [constructor|]. intros [? ?]%orb_false_iff. constructor; auto. }
  apply Hex in Hl1, Hl2. clear Hex.
  assert (text = (take start text ++ slice text start b ++ ip) ++ (point_and fp ++ slice text e stop ++ drop stop text)) as Htext.
  { etrans; [exact (text_parts text start b e stop ltac:(lia) ltac:(lia))|]. by rewrite Hslice, <- !app_assoc. }
  assert (digits_of (point_and fp ++ slice text e stop ++ drop stop text) = digits_of fp) as Hr.
  { rewrite !digits_of_app, digits_of_point, (quiet_digits (slice text e stop)), (quiet_digits (drop stop text)) by done. by rewrite !app_nil_r. }
  assert (ds = digits_of ip ++ digits_of fp) as Hdd.
  { rewrite Hds, Htext, digits_of_app, Hr, !digits_of_app, (quiet_digits (take start text)), (quiet_digits (slice text start b)) by done. done. }
  assert (group text "body" caps = Some (String.string_of_list_ascii (ip ++ point_and fp))) as Hgb.
  { unfold group, ref_text. rewrite Hbody. cbn [fmap option_fmap option_map fst snd]. by rewrite Hslice. }
  rewrite Hgb in Hval. cbn [default from_option id] in Hval. rewrite body_text in Hval by done.
  rewrite decimal_of_plain in Hval by (done || apply digits_of_ok). rewrite <- Hdd in Hval. destruct (representable _); [|done]. injection Hval as <-.
  apply signed_value in Hv as [Hmag Hneg]; [|done]. split; [by rewrite Hdd|]. split; [done|]. split.
  { intros Hv0. apply Hneg in Hv0. apply orb_true_iff in Hv0 as [Hv0|Hv0].
    - left. apply bool_decide_eq_true in Hv0. apply elem_of_cleaned. fold text. unfold group, ref_text in Hv0.
      destruct Hsign as [Hsg|(i & a & Hsg & Ha & _)]; rewrite Hsg in Hv0; [done|]. cbn [fmap option_fmap option_map fst snd] in Hv0.
      rewrite (slice_one _ _ _ Ha) in Hv0. injection Hv0 as ->. by eapply list_elem_of_lookup_2.
    - right. destruct Hopen as [Ho|Ho]; [|by apply elem_of_cleaned]. unfold group, ref_text in Hv0. rewrite Ho in Hv0. done. }
  eexists _, _. split; [exact Htext|]. cbv zeta. rewrite Hr. split; [destruct fp; [by left|by right]|]. split.
  { intros Hlen. assert (fits DEFAULT_CONTEXT (Dec false (undigits ds) (- Z.of_nat (length (digits_of fp)))) = true) as Hfit.
    { apply small_fits; [rewrite Hdd; apply Forall_app; split; apply digits_of_ok|done|rewrite Hdd, length_app; lia]. }
    assert (length (digits_of fp) ≤ length ds)%nat as Hlf by (rewrite Hdd, length_app; lia).
    pose proof Hfit as Hf. unfold fits in Hf. btrue. cbn [d_coeff d_exp] in *.
    assert (0 <= dq (Dec false (undigits ds) (- Z.of_nat (length (digits_of fp)))))%Q as Hpos by (by apply dq_nonneg).
    destruct (Hmag Hfit) as [-> | ->]; (split; [split; cbn [d_coeff d_exp dec_neg]; [by apply Z.leb_le|lia]|]).
    - rewrite Qabs_pos by done. by rewrite dq_unfold.
    - rewrite dq_neg, Qabs_opp, Qabs_pos by done. by rewrite dq_unfold. }
  assert (capture "suffix" caps = None → sc = 0) as Hnone.
  { intros Hc. unfold group, ref_text in Hscale. rewrite Hc in Hscale. by injection Hscale as <-. }
  destruct Hsuf as [Hs|(i & j & w & Hs & Hij & Hj & Hw & Hlow)]; [rewrite (Hnone Hs); split; [lia|by left]|].
  assert (lower (String.string_of_list_ascii (slice text i j)) = w) as Hlw.
  { apply chars_inj. unfold lower. by rewrite chars_map_chars, String.list_ascii_of_string_of_list_ascii. }
  assert (group text "suffix" caps = Some (String.string_of_list_ascii (slice text i j))) as Hg by (unfold group, ref_text; by rewrite Hs).
  rewrite Hg in Hscale.
  assert (∃ p q, point_and fp ++ slice text e stop ++ drop stop text = p ++ slice text i j ++ q) as (p & q & Hpq).
  { exists (point_and fp ++ slice text e i), (slice text j stop ++ drop stop text).
    rewrite (slice_app text e i stop), (slice_app text i j stop) by lia. by rewrite <- !app_assoc. }
  assert (w ≠ ""%string) as Hw0 by (intros ->; revert Hw; apply (bool_decide_unpack _); vm_compute; exact I).
  assert ((w, sc) ∈ SCALE_SUFFIX) as Hin.
  { destruct (String.string_of_list_ascii (slice text i j)) as [|c t]; [by subst w|]. rewrite Hlw in Hscale.
    apply from_option_err_Ok in Hscale. apply dict_get_elem; [|exact Hscale]. apply (bool_decide_unpack _). vm_compute. exact I. }
  split; [by eapply suffix_range|]. right. exists w, (lower_char <$> p), (lower_char <$> q). rewrite Hpq, !fmap_app, Hlow. done.
Qed.

(** A number is read in full or not at all.  When [parse_numeric] returns, every
    digit of the text, in order, is a digit of the number, and the point stands
    where the text has one: up to 28 digits the size of the value is exactly that
    number, beyond them it is rounded.  The exponent is that of a suffix of the
    table that follows the number, the sign is the value's, and a negative value
    was written with a minus sign or in parentheses. *)
Theorem parse_numeric_reads_all raw v sc sg :
  parse_numeric raw = Ok (v, sc, sg) →
  let ds := digits_of (chars raw) in
  ds ≠ [] ∧ sg = sign_text v ∧ ((dq v < 0)%Q → "-"%char ∈ chars raw ∨ "("%char ∈ chars raw) ∧
  ∃ l r, cleaned_text raw = l ++ r ∧
    let k := length (digits_of r) in
    (k = 0%nat ∨ head r = Some "."%char) ∧
    ((length ds ≤ 28)%nat → (Qabs (dq v) == inject_Z (Z.of_N (undigits ds)) * q10 (- Z.of_nat k))%Q) ∧
    (sc = 0 ∨ ∃ w p q, (w, sc) ∈ SCALE_SUFFIX ∧ lower_char <$> r = p ++ chars w ++ q).
Proof.
  intros H. destruct (parse_numeric_inv _ _ _ _ H) as (Hne & Hsg & Hneg & l & r & Hl & Hk & Hv & _ & Hsc). split; [done|]. split; [done|].
  split; [done|]. exists l, r. split; [done|]. split; [done|]. split; [intros Hlen; by apply Hv|done].
Qed.

Lemma parse_numeric_reads_all_witness :
  parse_numeric "(1,234.5) million" = Ok (Dec true 12345 (-1), 6, "negative"%string) ∧
  ∃ l r, cleaned_text "(1,234.5) million" = l ++ r ∧ head r = Some "."%char ∧
    (Qabs (dq (Dec true 12345 (-1))) == inject_Z 12345 * q10 (- Z.of_nat (length (digits_of r))))%Q.
Proof.
  assert (parse_numeric "(1,234.5) million" = Ok (Dec true 12345 (-1), 6, "negative"%string)) as H by (vm_compute; reflexivity).
  split; [exact H|]. destruct (parse_numeric_reads_all _ _ _ _ H) as (_ & _ & _ & l & r & Hl & Hk & Hv & _).
  exists l, r. split; [exact Hl|]. split; [|apply Hv; vm_compute; lia].
  destruct Hk as [Hk|Hk]; [|exact Hk]. exfalso. pose proof (Hv ltac:(vm_compute; lia)) as Heq. rewrite Hk in Heq. vm_compute in Heq. discriminate Heq.
Defined.
