(* ===== verification/Normalize.v ===== *)
(** [workers/src/fel_workers/extraction/normalize/]: currency, dimensions, period
    and payload normalization, the pipeline step that turns a rejection into a
    blocker, and the workflow stage that carries every payload on
    (stages/normalize.py).

    A payload is a dict in insertion order; [normalize_payload] threads it through
    the source's assignments.  Only [ValueError] is a rejection: a set lookup on a
    list or a dict is a [TypeError], arithmetic on a number of more than a million
    digits a decimal signal, and both escape. *)

From S2P Require Import Prelude Dicts Text Regex Decimals Periods Canonical IsoDates Payload Numeric.
Local Open Scope Z_scope.


Definition NORMALIZER_BLOCKERS_KEY : string := "_normalizer_blockers".
Definition NORMALIZER_VERSION : string := "normalize/v2".
Definition KINDS : list string := ["kpi"; "guidance"; "revenue_driver"]%string.
Definition DRIVER_CATEGORIES : list string :=
  ["price"; "volume"; "mix"; "acquisition"; "retention"; "usage"; "seats"; "fx"; "services"; "cost"; "other"]%string.
Definition DIRECTIONS : list string := ["positive"; "negative"; "mixed"; "unknown"]%string.
Definition SIGNS : list string := ["positive"; "negative"; "zero"]%string.
Definition PERIOD_TYPES : list string := ["instant"; "duration"; "trailing_window"; "forecast"]%string.

Definition reject {A} (message : string) : checked A := Err (ValueError message).

(** * Currency *)

Definition upper_letter (a : ascii) : bool := let n := N_of_ascii a in ((65 <=? n) && (n <=? 90))%N.

(** [^[A-Z]{3}$], full match *)
Definition iso_4217 (s : string) : bool :=
  match s with
  | String a (String b (String c EmptyString)) => upper_letter a && upper_letter b && upper_letter c
  | _ => false
  end.

Section normalize.
Context (currency_codes : list string).

Definition normalize_currency (currency unit : value) : checked (option string * list string) :=
  match currency with
  | NoneV => Ok (None, if is_monetary_unit currency_codes unit then ["currency_missing_for_monetary"%string] else [])
  | StrV s => if iso_4217 s then Ok (Some (upper s), []) else reject ("currency must be ISO-4217 alpha-3 or null: " +:+ repr currency)
  | _ => reject ("currency must be ISO-4217 alpha-3 or null: " +:+ repr currency)
  end.

(** * Dimensions and qualifiers *)

Definition normalize_dimensions (dimensions : value) : checked (payload * list string) :=
  match dimensions with
  | NoneV => Ok ([], [])
  | DictV items =>
      let is_text (kv : string * value) := match kv.2 with StrV _ => true | _ => false end in
      let sorted := py_sorted key_le items in
      Ok (filter (λ kv, is_text kv = true) sorted, if forallb is_text sorted then [] else ["dimensions_non_string"%string])
  | _ => reject "dimensions must be an object"
  end.

Definition normalize_qualifiers (quals : value) : checked payload :=
  match quals with
  | NoneV => Ok []
  | DictV items => Ok (py_sorted key_le items)
  | _ => reject "qualifiers must be an object"
  end.

(** * Periods *)

Definition normalize_date (v : string) : checked string :=
  match date_fromisoformat (strip v) with
  | Some d => Ok (date_isoformat d)
  | None => reject ("invalid ISO date: " +:+ repr_str v)
  end.

Definition set_date (period : payload) (out : payload) (key : string) : checked payload :=
  match dict_get key period with
  | None | Some NoneV => Ok out
  | Some v => d ← normalize_date (py_str v); Ok (dict_set key (StrV d) out)
  end.

(** [str(fp).strip() or None] *)
Definition fiscal_text (v : value) : value :=
  match v with
  | NoneV => NoneV
  | _ => let s := strip (py_str v) in if bool_decide (s = ""%string) then NoneV else StrV s
  end.

Definition text_gt (a b : value) : bool :=
  match a, b with StrV a, StrV b => match String.compare a b with Gt => true | _ => false end | _, _ => false end.

Definition validate_shape (ptype : string) (period : payload) : checked unit :=
  let start := get "start" period in let stop := get "end" period in
  ensure (negb (bool_decide (ptype = "instant"%string) && negb (has "instant" period))) (ValueError "instant period requires instant date");;
  ensure (negb (bool_decide (ptype ∈ ["duration"; "trailing_window"]%string) && negb (truth start && truth stop)))
    (ValueError (ptype +:+ " period requires start and end"));;
  ensure (negb (bool_decide (ptype = "forecast"%string) && negb (has "end" period) && negb (has "instant" period)))
    (ValueError "forecast period requires end or instant");;
  ensure (negb (truth start && truth stop && text_gt start stop)) (ValueError "period.start must be <= period.end").

Definition normalize_period (period : value) : checked payload :=
  match period with
  | DictV items =>
      let ptype := get "type" items in
      known ← in_set ptype PERIOD_TYPES;
      ensure known (ValueError ("unknown period.type: " +:+ repr ptype));;
      out ← foldM (set_date items) [("type"%string, ptype)] ["instant"; "start"; "end"]%string;
      let out := match dict_get "fiscal_period" items with None => out | Some fp => dict_set "fiscal_period" (fiscal_text fp) out end in
      validate_shape (py_str ptype) out;;
      Ok out
  | _ => reject "period must be an object"
  end.

(** * Numeric fields *)

(** [parsed_scale or (scale_hint or 0)] *)
Definition effective_scale (parsed_scale : Z) (scale_hint : option Z) : Z :=
  if parsed_scale =? 0 then default 0 scale_hint else parsed_scale.

(** the mantissa and the exponent of one field *)
Definition read_field (out : payload) (single : bool) (scale_hint : option Z) (key : string) : checked (decimal * Z) :=
  match get key out with
  | NoneV =>
      match single, get "raw_value" out with
      | true, StrV raw => '(v, parsed_scale, _) ← parse_numeric raw; Ok (v, effective_scale parsed_scale scale_hint)
      | _, _ => reject ("missing numeric field " +:+ key)
      end
  | StrV raw => '(v, parsed_scale, _) ← parse_numeric raw; Ok (v, effective_scale parsed_scale scale_hint)
  | IntV z => Ok (dec_of_Z z, effective_scale 0 scale_hint)
  | v => reject (key +:+ " must be a decimal string (got " +:+ type_name v +:+ ")")
  end.

Definition read_item (out : payload) (single : bool) (scale_hint : option Z) (key : string) : checked (string * (decimal * Z)) :=
  m ← read_field out single scale_hint key; Ok (key, m).

(** [min(...)] of a list that is not empty *)
Definition min_of (l : list Z) : Z := match l with [] => 0 | z :: l => foldl Z.min z l end.

(** [d.scaleb(k)] *)
Definition scaleb (d : decimal) (k : Z) : checked decimal := arith (dec_fix DEFAULT_CONTEXT (Dec (d_sign d) (d_coeff d) (d_exp d + k))).

Definition restate (common : Z) (item : string * (decimal * Z)) : checked (string * decimal) :=
  let '(key, (mantissa, scale)) := item in
  m ← (if scale =? common then Ok mantissa else scaleb mantissa (scale - common)); Ok (key, m).

Definition reconcile_scale (mantissas : list (string * (decimal * Z))) : checked (list (string * decimal) * Z) :=
  let common := min_of ((λ m, m.2.2) <$> mantissas) in
  restated ← mapM (restate common) mantissas; Ok (restated, common).

(** the bounds of an inverted, wholly negative range change places *)
Definition orient (restated : list (string * decimal)) : list (string * decimal) :=
  match restated with
  | [(kl, low); (kh, high)] =>
      if bool_decide (kl = "low"%string ∧ kh = "high"%string) && dec_ltb high low && dec_ltb low dec_zero
      then [(kl, high); (kh, low)] else restated
  | _ => restated
  end.

Definition write_field (out : payload) (item : string * decimal) : checked payload :=
  s ← format_decimal item.2; Ok (dict_set item.1 (StrV s) out).

(** [for b in ...: text = str(b); if text not in merged: merged.append(text)] *)
Definition merge_texts (l : list string) : list string := dict_fromkeys l.

Definition record_blockers (out : payload) (blockers : list string) : payload :=
  let existing := match get NORMALIZER_BLOCKERS_KEY out with ListV l => map py_str l | _ => [] end in
  match merge_texts (existing ++ blockers) with
  | [] => out
  | merged => dict_set NORMALIZER_BLOCKERS_KEY (ListV (map StrV merged)) out
  end.

Definition resolve_sign (out : payload) (primary : decimal) : checked (payload * list string) :=
  let derived := sign_text primary in
  let declared := get "sign" out in
  let out := dict_set "sign" (StrV derived) out in
  known ← in_set declared SIGNS;
  Ok (out,
    if (known : bool) && negb (is_str derived declared)
    then [("sign contradicts value: declared " +:+ py_str declared +:+ ", value is " +:+ derived)%string]
    else if negb (is_none declared) && negb known then [("sign must be positive/negative/zero: " +:+ repr declared)%string]
    else []).

Definition primary_of (restated : list (string * decimal)) : decimal :=
  match restated with [] => dec_zero | (_, m) :: _ => m end.

Definition normalize_numeric_fields (out : payload) (value_keys : list string) : checked payload :=
  match get "unit" out with
  | StrV unit =>
      if bool_decide (strip unit = ""%string) then reject "unit required for numeric payloads" else
      let out := dict_set "unit" (StrV (strip unit)) out in
      '(currency, currency_blockers) ← normalize_currency (get "currency" out) (StrV (strip unit));
      let out := match currency with Some c => dict_set "currency" (StrV c) out | None => out end in
      let declared := get "scale" out in
      let blockers := scale_blockers declared in
      let scale_hint := match blockers with [] => int_or_none declared | _ => None end in
      mantissas ← mapM (read_item out (length value_keys =? 1)%nat scale_hint) value_keys;
      '(restated, common_scale) ← reconcile_scale mantissas;
      let restated := orient restated in
      out ← foldM write_field out restated;
      let out := match blockers with [] => dict_set "scale" (IntV common_scale) out | _ => out end in
      '(out, sign_blockers) ← resolve_sign out (primary_of restated);
      Ok (record_blockers out (blockers ++ sign_blockers ++ currency_blockers))
  | _ => reject "unit required for numeric payloads"
  end.

(** * One payload *)

(** the keys a guidance shape carries its numbers under *)
Definition SHAPE_KEYS : list (string * list string) :=
  [("point", ["value"]); ("range", ["low"; "high"]); ("floor", ["low"]); ("ceiling", ["high"])]%string.

Definition shape_keys (shape : value) : option (list string) := match shape with StrV s => dict_get s SHAPE_KEYS | _ => None end.

(** a text that must not be blank *)
Definition blank (v : value) : bool := match v with StrV s => bool_decide (strip s = ""%string) | _ => true end.

Definition normalize_guidance (out : payload) : checked payload :=
  let shape := get "shape" out in
  out ← match shape_keys shape with
        | Some keys => normalize_numeric_fields out keys
        | None =>
            if is_str "qualitative" shape then
              let text := get "text" out in
              ensure (negb (blank text)) (ValueError "qualitative guidance requires text");;
              Ok (dict_set "text" (StrV (strip (py_str text))) out)
            else reject ("unknown guidance shape: " +:+ repr shape)
        end;
  Ok (dict_set "reported_or_derived" (StrV "management_assertion") out).

Definition normalize_driver (out : payload) : checked payload :=
  let category := get "category" out in
  known ← in_set category DRIVER_CATEGORIES;
  ensure known (ValueError ("unknown revenue_driver category: " +:+ repr category));;
  let desc := get "description" out in
  ensure (negb (blank desc)) (ValueError "revenue_driver requires description");;
  let out := dict_set "description" (StrV (strip (py_str desc))) out in
  let direction := default (StrV "unknown") (dict_get "direction" out) in
  known ← in_set direction DIRECTIONS;
  ensure known (ValueError ("unknown direction: " +:+ repr direction));;
  let out := dict_set "direction" direction out in
  match get "target_metric_ids" out with
  | ListV ((_ :: _) as targets) =>
      let out := dict_set "target_metric_ids" (ListV (map StrV (sorted_strings (dict_fromkeys (map py_str targets))))) out in
      Ok (dict_set "reported_or_derived" (StrV "management_assertion") out)
  | _ => reject "revenue_driver requires target_metric_ids"
  end.

Definition normalize_kind (kind : value) (out : payload) : checked payload :=
  if is_str "kpi" kind then normalize_numeric_fields out ["value"%string]
  else if is_str "guidance" kind then normalize_guidance out
  else normalize_driver out.

Definition normalize_one (raw : payload) : checked payload :=
  let out := dict_set "schema_version" (StrV "extraction-payload/v1") raw in
  let kind := get "kind" out in
  known ← in_set kind KINDS;
  ensure known (ValueError ("unknown kind: " +:+ repr kind));;
  let raw_value := get "raw_value" out in
  ensure (match raw_value with StrV _ => true | _ => false end) (ValueError "raw_value must be a string");;
  let out := dict_set "raw_value" raw_value out in
  out ← (if has "period" out then p ← normalize_period (get "period" out); Ok (dict_set "period" (DictV p) out) else Ok out);
  '(dims, dimension_blockers) ← normalize_dimensions (get "dimensions" out);
  let out := dict_set "dimensions" (DictV dims) out in
  let out := record_blockers out dimension_blockers in
  quals ← normalize_qualifiers (get "qualifiers" out);
  let out := dict_set "qualifiers" (DictV quals) out in
  out ← normalize_kind kind out;
  Ok (dict_set "_normalizer_version" (StrV NORMALIZER_VERSION) out).

(** [normalize/pipeline.py]: a rejection is a blocker *)
Definition normalize_payload (p : payload) : checked (payload * list string) :=
  match normalize_one p with
  | Ok out => Ok (out, [])
  | Err (ValueError message) => Ok (p, [message])
  | Err e => Err e
  end.

(** * The stage *)

Definition normalize_step (p : payload) : checked (payload * bool) :=
  '(out, blockers) ← normalize_payload p;
  Ok (match blockers with
      | [] => (out, false)
      | _ => (dict_set NORMALIZER_BLOCKERS_KEY (ListV (map StrV blockers)) out, true)
      end).

(** the payloads carried on, and how many were rejected *)
Definition stage_normalize (raw_proposals : list payload) : checked (list payload * nat) :=
  steps ← mapM normalize_step raw_proposals;
  Ok (steps.*1, length (filter (λ s, s.2 = true) steps)).
End normalize.
