(* ===== verification/NormalizeSound.v ===== *)
(** Normalization is settled after one pass: what it writes it reads back, the
    amounts keep their size, and a rejection is the only failure of a payload whose
    numbers are of ordinary length. *)

From Stdlib Require Import QArith Qabs.
From S2P Require Import Prelude Dicts Text Regex Decimals Periods Canonical IsoDates Payload Numeric NumericReading Normalize.
Local Open Scope Z_scope.

(** * Numbers of ordinary length *)

(** a restated mantissa *)
Definition moderate (d : decimal) : Prop := ndigits (d_coeff d) ≤ 28 ∧ -40 ≤ d_exp d ≤ 40.

Lemma moderate_fits d : moderate d → fits DEFAULT_CONTEXT d = true.
Proof.
  intros [Hd He]. unfold fits, adjusted. assert (Etiny DEFAULT_CONTEXT = -1000026) as -> by reflexivity.
  assert (Emax DEFAULT_CONTEXT = 999999) as -> by reflexivity. assert (prec DEFAULT_CONTEXT = 28) as -> by reflexivity.
  rewrite !andb_true_iff, !Z.leb_le. lia.
Qed.

Lemma moderate_fix d : moderate d → dec_fix DEFAULT_CONTEXT d = Ok d.
Proof. intros Hd. by apply dec_fix_of_fits, moderate_fits. Qed.

Lemma trimmed_normal n : normal n → d_coeff n ≠ 0%N → trimmed (format_f n) = format_f n.
Proof.
  intros Hnorm Hc. destruct (format_f_plain n) as (ip & fp & Hff & Hip & Hfp & Hne & Hlf & _ & Hund & Hlast).
  change (format_f n = signed_plain (d_sign n) ip fp) in Hff. rewrite Hff. apply trimmed_plain; [done|done|done|].
  intros Hfpne. rewrite Hlast, last_digits by done. eexists. split; [done|]. destruct Hnorm as [[? _]|?]; done.
Qed.

(** such a number is written, never as a negative zero, and read back *)
Lemma moderate_written m : moderate m →
  ∃ s w, format_decimal m = Ok s ∧ parse_numeric s = Ok (w, 0, sign_text w) ∧ format_decimal w = Ok s ∧ deq w m.
Proof.
  intros Hm. pose proof (moderate_fix m Hm) as Hfix.
  assert (∃ s, format_decimal m = Ok s ∧ s ≠ "-0"%string) as (s & Hs & Hne).
  { destruct (decide (d_coeff m = 0%N)) as [Hz|Hz].
    - exists "0"%string. split; [|done]. unfold format_decimal.
      assert (dec_eqb m dec_zero = true) as ->; [|done]. apply dec_eqb_spec. unfold deq. destruct m as [ms mc me]; cbn in Hz; subst. by rewrite !dq_zero.
    - destruct (format_decimal_of_fix m m Hfix (dq_nonzero m Hz)) as (n & _ & Hnm & Hnorm & _ & _ & Hf). exists (trimmed (format_f n)). split; [done|].
      assert (d_coeff n ≠ 0%N) as Hn0.
      { intros Hn0. apply (dq_nonzero m Hz). unfold deq in Hnm. rewrite <- Hnm. destruct n as [ns nc ne]; cbn in Hn0; subst. apply dq_zero. }
      rewrite trimmed_normal by done. intros Heq. destruct (read_plain_format_f n) as (d' & Hr & Hd & _). rewrite Heq in Hr. cbn in Hr. injection Hr as <-.
      apply (dq_nonzero n Hn0). unfold deq in Hd. rewrite <- Hd. apply dq_zero. }
  destruct (format_then_parse m s Hs Hne) as (w & r & Hp & Hw & Hr & Hwr). rewrite Hfix in Hr. injection Hr as <-. by exists s, w.
Qed.

Lemma sign_text_deq a b : deq a b → sign_text a = sign_text b.
Proof.
  intros H. unfold sign_text. assert (∀ c d, deq c d → dec_compare dec_zero c = dec_compare dec_zero d ∧ dec_compare c dec_zero = dec_compare d dec_zero) as Hc.
  { intros c d Hcd. rewrite !dec_compare_spec. unfold deq in Hcd. by rewrite Hcd. }
  destruct (Hc a b H) as [H1 H2]. unfold dec_ltb. by rewrite H1, H2.
Qed.

Lemma sign_text_known d : sign_text d ∈ SIGNS.
Proof. unfold sign_text, SIGNS. repeat case_match; set_solver. Qed.

(** * Recorded blockers *)

(** the blockers a payload carries *)
Definition carried (out : payload) : list string := match get NORMALIZER_BLOCKERS_KEY out with ListV l => map py_str l | _ => [] end.

Definition recorded (out : payload) : Prop :=
  carried out = [] ∨ ∃ l, dict_get NORMALIZER_BLOCKERS_KEY out = Some (ListV (map StrV l)) ∧ NoDup l.

Lemma py_str_texts l : map py_str (map StrV l) = l.
Proof. rewrite map_map. cbn. apply map_id. Qed.

Lemma record_blockers_recorded out bs : recorded (record_blockers out bs) ∧
  carried (record_blockers out bs) = merge_texts (carried out ++ bs).
Proof.
  unfold record_blockers. fold (carried out). destruct (merge_texts (carried out ++ bs)) as [|t l] eqn:Hm.
  - assert (carried out = []) as Hc.
    { destruct (carried out) as [|c cs]; [done|]. assert (c ∈ merge_texts ((c :: cs) ++ bs)) as Hin by (apply elem_of_dict_fromkeys; set_solver).
      rewrite Hm in Hin. by apply not_elem_of_nil in Hin. }
    split; [by left|done].
  - assert (carried (dict_set NORMALIZER_BLOCKERS_KEY (ListV (map StrV (t :: l))) out) = t :: l) as Hc.
    { unfold carried, get. rewrite dict_get_set, decide_True by done. cbn [default from_option id]. apply py_str_texts. }
    split; [|done]. right. exists (t :: l). split; [by rewrite dict_get_set, decide_True|]. rewrite <- Hm. apply NoDup_dict_fromkeys.
Qed.

Lemma record_blockers_get out bs k : k ≠ NORMALIZER_BLOCKERS_KEY → dict_get k (record_blockers out bs) = dict_get k out.
Proof. intros Hk. unfold record_blockers. destruct (merge_texts _); [done|]. by rewrite dict_get_set, decide_False. Qed.

Lemma dict_fromkeys_app_sub {A} `{EqDecision A} (l bs : list A) : NoDup l → (∀ b, b ∈ bs → b ∈ l) → dict_fromkeys (l ++ bs) = l.
Proof.
  intros Hl Hbs. unfold dict_fromkeys. rewrite dict_fromkeys_from_app. fold (dict_fromkeys l). rewrite dict_fromkeys_id by done.
  assert (∀ seen, (∀ b, b ∈ bs → b ∈ seen) → dict_fromkeys_from seen bs = []) as ->; [|by apply app_nil_r|intros b Hb; rewrite app_nil_r; auto].
  clear Hbs. induction bs as [|b bs IH]; intros seen Hs; [done|]. cbn [dict_fromkeys_from]. rewrite decide_True by (apply Hs; left). apply IH. intros x Hx. apply Hs. by right.
Qed.

(** recording what is recorded changes nothing *)
Lemma record_blockers_same out bs : recorded out → (∀ b, b ∈ bs → b ∈ carried out) → record_blockers out bs = out.
Proof.
  intros [Hc|(l & Hl & Hnd)] Hbs; unfold record_blockers; fold (carried out).
  - rewrite Hc in *. assert (bs = []) as -> by (destruct bs as [|b bs]; [done|]; specialize (Hbs b (list_elem_of_here _ _)); by apply not_elem_of_nil in Hbs). done.
  - assert (carried out = l) as Hc by (unfold carried, get; rewrite Hl; apply py_str_texts). rewrite Hc in *.
    unfold merge_texts. rewrite dict_fromkeys_app_sub by done. destruct l; [done|]. by apply dict_set_same.
Qed.

(** * Reading the fields of a payload *)

Definition short_text (v : value) : Prop :=
  match v with StrV s => (length (digits_of (chars s)) ≤ 28)%nat | IntV z => Z.abs z < 10 ^ 28 | _ => True end.

Definition AMOUNT_KEYS : list string := ["value"; "low"; "high"]%string.

(** the numbers of a payload have at most 28 digits *)
Definition short (p : payload) : Prop := ∀ k, k ∈ "raw_value"%string :: AMOUNT_KEYS → short_text (get k p).

Definition hint_ok (hint : option Z) : Prop := match hint with Some z => 0 ≤ z ≤ 12 | None => True end.

Lemma effective_range sc hint : 0 ≤ sc ≤ 12 → hint_ok hint → 0 ≤ effective_scale sc hint ≤ 12.
Proof. unfold effective_scale, hint_ok. intros. destruct (sc =? 0), hint; cbn; lia. Qed.

Lemma parse_short s v sc sg : parse_numeric s = Ok (v, sc, sg) → (length (digits_of (chars s)) ≤ 28)%nat → modest v ∧ 0 ≤ sc ≤ 12 ∧ sg = sign_text v.
Proof.
  intros H Hl. destruct (parse_numeric_inv _ _ _ _ H) as (_ & Hsg & _ & l & r & _ & _ & Hm & Hsc & _). split; [by apply Hm|done].
Qed.

Lemma dec_of_Z_modest z : Z.abs z < 10 ^ 28 → modest (dec_of_Z z).
Proof.
  intros Hz. unfold modest, dec_of_Z. cbn [d_coeff d_exp]. split; [|lia]. apply ndigits_le_iff; [lia|]. unfold pow10. apply N2Z.inj_lt. rewrite N2Z.inj_abs_N. change (Z.of_N (10 ^ Z.to_N 28)) with (10 ^ 28). done.
Qed.

Lemma read_field_short out single hint key m sc :
  read_field out single hint key = Ok (m, sc) → short_text (get key out) → short_text (get "raw_value" out) → hint_ok hint →
  modest m ∧ 0 ≤ sc ≤ 12.
Proof.
  unfold read_field. intros H Hk Hraw Hh.
  assert (∀ raw, short_text (StrV raw) → ('(v, parsed_scale, _) ← parse_numeric raw; Ok (v, effective_scale parsed_scale hint)) = Ok (m, sc) → modest m ∧ 0 ≤ sc ≤ 12) as Hp.
  { intros raw Hs ([[v ps] sg] & Hv & [= <- <-])%bind_Ok. destruct (parse_short _ _ _ _ Hv Hs) as (? & ? & _). split; [done|]. by apply effective_range. }
  destruct (get key out) as [| | z| |s| |]; try done.
  - destruct single; [|done]. destruct (get "raw_value" out) as [| | | |raw| |]; try done. by apply (Hp raw).
  - injection H as <- <-. split; [by apply dec_of_Z_modest|]. apply effective_range; [lia|done].
  - by apply (Hp s).
Qed.

Lemma min_of_spec l : l ≠ [] → min_of l ∈ l ∧ ∀ z, z ∈ l → min_of l ≤ z.
Proof.
  destruct l as [|z0 l]; [done|]. intros _. cbn [min_of].
  assert (∀ l z0, foldl Z.min z0 l ∈ z0 :: l ∧ ∀ z, z ∈ z0 :: l → foldl Z.min z0 l ≤ z) as H; [|apply H].
  clear. induction l as [|y l IH]; intros z0; cbn [foldl].
  - split; [left|]. by intros z ->%list_elem_of_singleton.
  - destruct (IH (Z.min z0 y)) as [H1 H2]. split.
    + apply elem_of_cons in H1 as [->|H1]; [|by right; right]. destruct (Z.min_spec z0 y) as [[_ ->]|[_ ->]]; [left|right; left].
    + pose proof (H2 (Z.min z0 y) (list_elem_of_here _ _)). intros z [->|[->|Hz]%elem_of_cons]%elem_of_cons; [lia|lia|]. apply H2. by right.
Qed.

Lemma restate_moderate common key m sc item :
  restate common (key, (m, sc)) = Ok item → modest m → 0 ≤ common ≤ sc → sc ≤ 12 →
  item.1 = key ∧ moderate item.2 ∧ (dq item.2 == dq m * q10 (sc - common))%Q ∧ d_sign item.2 = d_sign m.
Proof.
  unfold restate. intros (v & Hv & [= <-])%bind_Ok [Hd He] Hc Hsc. cbn [fst snd]. split; [done|].
  destruct (Z.eqb_spec sc common) as [->|Hne].
  - injection Hv as <-. rewrite Z.sub_diag. split; [split; lia|]. split; [|done]. change (q10 0) with 1%Q. by rewrite Qmult_1_r.
  - unfold scaleb, arith in Hv. apply map_err_Ok in Hv.
    assert (moderate (Dec (d_sign m) (d_coeff m) (d_exp m + (sc - common)))) as Hm by (split; cbn [d_coeff d_exp]; lia).
    rewrite (moderate_fix _ Hm) in Hv. injection Hv as <-. split; [done|]. split; [|done].
    rewrite !dq_unfold. cbn [d_exp]. rewrite q10_add. destruct m as [ms mc me]. cbn [d_sign d_coeff d_exp] in *. unfold sval. cbn [d_sign d_coeff]. by rewrite Qmult_assoc.
Qed.

(** ** The order of the bounds *)

Definition inverted (items : list (string * decimal)) : bool :=
  match items with
  | [(kl, low); (kh, high)] => bool_decide (kl = "low"%string ∧ kh = "high"%string) && dec_ltb high low && dec_ltb low dec_zero
  | _ => false
  end.

Lemma orient_same items : inverted items = false → orient items = items.
Proof. destruct items as [|[kl low] [|[kh high] [|? ?]]]; try done. cbn [inverted orient]. by intros ->. Qed.

Lemma dec_ltb_deq a b c d : deq a c → deq b d → dec_ltb a b = dec_ltb c d.
Proof. intros H1 H2. unfold dec_ltb. rewrite !dec_compare_spec. unfold deq in *. by rewrite H1, H2. Qed.

Lemma inverted_deq items items' :
  Forall2 (λ a b, a.1 = b.1 ∧ deq a.2 b.2) items items' → inverted items = inverted items'.
Proof.
  intros H. destruct H as [|[kx x] [kx' x'] l l' [Hx Hxd] H]; [done|]. destruct H as [|[ky y] [ky' y'] l l' [Hy Hyd] H]; [done|].
  destruct H; [|done]. cbn [fst snd] in *. subst. cbn [inverted].
  by rewrite (dec_ltb_deq _ _ _ _ Hyd Hxd), (dec_ltb_deq _ dec_zero _ dec_zero Hxd).
Qed.

Lemma orient_spec items : inverted (orient items) = false ∧ (orient items).*1 = items.*1 ∧ (orient items).*2 ≡ₚ items.*2.
Proof.
  destruct (inverted items) eqn:Hi; [|rewrite orient_same by done; done].
  destruct items as [|[kl a] [|[kh b] [|? ?]]]; try done. cbn [inverted orient] in *. rewrite Hi.
  apply andb_true_iff in Hi as [Hi Ha]. apply andb_true_iff in Hi as [Hk Hba]. cbn [inverted]. split; [|split; [done|apply perm_swap]]. rewrite Hk.
  assert (dec_ltb a b = false) as ->; [|done]. apply not_true_iff_false. rewrite dec_ltb_spec in *. intros Hab. apply (Qlt_irrefl (dq a)). by eapply Qlt_trans.
Qed.

(** ** Writing the fields *)

Lemma write_fields items : ∀ out out', foldM write_field out items = Ok out' → NoDup items.*1 →
  (∀ k m, (k, m) ∈ items → ∃ s, format_decimal m = Ok s ∧ dict_get k out' = Some (StrV s)) ∧
  (∀ k, k ∉ items.*1 → dict_get k out' = dict_get k out).
Proof.
  induction items as [|[k0 m0] items IH]; intros out out' H Hnd; cbn [foldM] in H.
  - injection H as <-. split; [|done]. intros k m Hin. by apply not_elem_of_nil in Hin.
  - apply bind_Ok in H as (out1 & H1 & H). unfold write_field in H1. apply bind_Ok in H1 as (s & Hs & [= <-]). cbn [fst snd] in *.
    apply NoDup_cons in Hnd as [Hk0 Hnd]. destruct (IH _ _ H Hnd) as [Hin Hout]. split.
    + intros k m [[= -> ->]|Hkm]%elem_of_cons; [|by apply Hin]. exists s. split; [done|]. rewrite Hout by done. by rewrite dict_get_set, decide_True.
    + intros k Hk. rewrite fmap_cons, not_elem_of_cons in Hk. destruct Hk as [Hkk Hk]. rewrite Hout by done. by rewrite dict_get_set, decide_False by (intros <-; by apply Hkk).
Qed.

Lemma write_fields_same items out :
  Forall (λ item : string * decimal, ∃ s, format_decimal item.2 = Ok s ∧ dict_get item.1 out = Some (StrV s)) items → foldM write_field out items = Ok out.
Proof.
  induction 1 as [|item items (s & Hf & Hg) _ IH]; [done|]. cbn [foldM]. unfold write_field at 1. rewrite Hf. cbn [mbind result_bind].
  by rewrite dict_set_same.
Qed.

Lemma iso_upper s : iso_4217 s = true → upper s = s.
Proof.
  assert (∀ a, upper_letter a = true → upper_char a = a) as Hu.
  { intros a. destruct a as [[] [] [] [] [] [] [] []]; vm_compute; congruence. }
  destruct s as [|a [|b [|c [|? ?]]]]; try done. cbn [iso_4217]. intros H. btrue. unfold upper. cbn [map_chars]. by rewrite !Hu.
Qed.

Section settled.
Context (currency_codes : list string).

(** a payload whose numbers are as normalization leaves them *)
Definition settled_numeric (keys : list string) (out : payload) : Prop :=
  ∃ unit cur cb ws,
    dict_get "unit" out = Some (StrV unit) ∧ strip unit = unit ∧ unit ≠ ""%string ∧
    normalize_currency currency_codes (get "currency" out) (StrV unit) = Ok (cur, cb) ∧
    (∀ c, cur = Some c → dict_get "currency" out = Some (StrV c)) ∧
    Forall2 (λ key w, ∃ s, dict_get key out = Some (StrV s) ∧ parse_numeric s = Ok (w, 0, sign_text w) ∧ format_decimal w = Ok s) keys ws ∧
    inverted (zip keys ws) = false ∧
    (scale_blockers (get "scale" out) = [] → ∃ c, dict_get "scale" out = Some (IntV c)) ∧
    dict_get "sign" out = Some (StrV (sign_text (primary_of (zip keys ws)))) ∧
    (∀ b, b ∈ cb ++ scale_blockers (get "scale" out) → b ∈ carried out).

Lemma min_of_same (l : list Z) z : l ≠ [] → (∀ x, x ∈ l → x = z) → min_of l = z.
Proof. intros Hl Hx. apply Hx. by apply min_of_spec. Qed.

Lemma settled_numeric_normal keys out :
  keys ≠ [] → settled_numeric keys out → recorded out → normalize_numeric_fields currency_codes out keys = Ok out.
Proof.
  intros Hkeys (unit & cur & cb & ws & Hunit & Hstrip & Hune & Hcur & Hcset & Hws & Hinv & Hscale & Hsign & Hbs) Hrec.
  unfold normalize_numeric_fields. assert (get "unit" out = StrV unit) as -> by (unfold get; by rewrite Hunit).
  rewrite Hstrip, bool_decide_false by done. rewrite (dict_set_same "unit" (StrV unit) out) by done. rewrite Hcur. cbn [mbind result_bind].
  assert ((match cur with Some c => dict_set "currency" (StrV c) out | None => out end) = out) as ->.
  { destruct cur as [c|]; [|done]. by apply dict_set_same, Hcset. }
  set (blockers := scale_blockers (get "scale" out)) in *. set (hint := match blockers with [] => int_or_none (get "scale" out) | _ => None end).
  set (z := effective_scale 0 hint).
  assert (mapM (read_item out (length keys =? 1)%nat hint) keys = Ok ((λ kw, (kw.1, (kw.2, z))) <$> zip keys ws)) as ->.
  { apply mapM_Ok. generalize (length keys =? 1)%nat as single. intros single. clear Hkeys Hinv Hsign. induction Hws as [|key w keys ws (s & Hg & Hp & _) _ IH]; [constructor|]. cbn [zip zip_with fmap list_fmap fst snd]. constructor; [|done].
    unfold read_item, read_field. assert (get key out = StrV s) as -> by (unfold get; by rewrite Hg). rewrite Hp. done. }
  cbn [mbind result_bind]. unfold reconcile_scale. set (ms := (λ kw, (kw.1, (kw.2, z))) <$> zip keys ws).
  assert (length ws = length keys) as Hlen by (symmetry; by eapply Forall2_length).
  assert (min_of ((λ m : string * (decimal * Z), m.2.2) <$> ms) = z) as ->.
  { apply min_of_same.
    - unfold ms. destruct keys as [|k keys]; [done|]. by destruct ws.
    - intros x (m & -> & Hm)%list_elem_of_fmap. unfold ms in Hm. by apply list_elem_of_fmap in Hm as (kw & -> & _). }
  assert (mapM (restate z) ms = Ok (zip keys ws)) as ->.
  { apply mapM_Ok. unfold ms. clear. induction (zip keys ws) as [|[k w] l IH]; [constructor|]. cbn [fmap list_fmap fst snd]. constructor; [|done].
    unfold restate. by rewrite Z.eqb_refl. }
  cbn [mbind result_bind]. rewrite (orient_same _ Hinv).
  rewrite write_fields_same.
  2:{ clear Hkeys Hinv Hsign ms Hlen. induction Hws as [|key w keys ws (s & Hg & _ & Hf) _ IH]; [constructor|]. constructor; [by exists s|done]. }
  cbn [mbind result_bind].
  assert ((match blockers with [] => dict_set "scale" (IntV z) out | _ => out end) = out) as ->.
  { destruct blockers eqn:Hb; [|done]. destruct (Hscale eq_refl) as (c & Hc). apply dict_set_same. rewrite Hc. unfold z, hint, effective_scale.
    cbn. unfold get. by rewrite Hc. }
  unfold resolve_sign. rewrite (dict_set_same "sign") by done. assert (get "sign" out = StrV (sign_text (primary_of (zip keys ws)))) as -> by (unfold get; by rewrite Hsign).
  cbn [in_set hashable mbind result_bind is_str is_none negb andb].
  rewrite (bool_decide_true (_ ∈ SIGNS)) by apply sign_text_known. rewrite bool_decide_true by done. cbn [negb andb].
  rewrite record_blockers_same; [done|done|]. intros b Hb. cbn [app] in Hb. apply Hbs. rewrite elem_of_app in *. tauto.
Qed.

Definition footprint (keys : list string) : list string := ["unit"; "currency"; "scale"; "sign"; NORMALIZER_BLOCKERS_KEY]%string ++ keys.

Lemma hint_ok_of declared blockers :
  blockers = scale_blockers declared → hint_ok (match blockers with [] => int_or_none declared | _ => None end).
Proof.
  intros ->. unfold scale_blockers, SCALE_MIN, SCALE_MAX, hint_ok. destruct declared as [| |z| | | |]; try done.
  destruct (Z.ltb_spec z 0), (Z.ltb_spec 12 z); cbn; try done.
Qed.

(** the fields of a payload, read and restated on one exponent *)
Lemma restated_amounts out single hint keys ms restated common :
  mapM (read_item out single hint) keys = Ok ms → reconcile_scale ms = Ok (restated, common) → keys ≠ [] →
  short_text (get "raw_value" out) → (∀ k, k ∈ keys → short_text (get k out)) → hint_ok hint →
  restated.*1 = keys ∧ Forall moderate restated.*2 ∧ 0 ≤ common ≤ 12 ∧
  Forall2 (λ key (m : decimal * Z), read_field out single hint key = Ok m) keys ms.*2 ∧
  Forall2 (λ (m : decimal * Z) d, common ≤ m.2 ∧ (dq d == dq m.1 * q10 (m.2 - common))%Q) ms.*2 restated.*2.
Proof.
  intros Hms Hr Hkeys Hraw Hshort Hh. apply mapM_Ok in Hms. unfold reconcile_scale in Hr. apply bind_Ok in Hr as (rs & Hrs & [= -> <-]).
  set (common := min_of _) in *. apply mapM_Ok in Hrs.
  assert (Forall2 (λ key (m : string * (decimal * Z)), m.1 = key ∧ read_field out single hint key = Ok m.2) keys ms) as Hread.
  { eapply Forall2_impl; [exact Hms|]. intros key m H. unfold read_item in H. apply bind_Ok in H as (m' & Hm & [= <-]). done. }
  assert (Forall (λ m : string * (decimal * Z), modest m.2.1 ∧ 0 ≤ m.2.2 ≤ 12) ms) as Hmod.
  { clear Hms Hrs Hkeys common. induction Hread as [|key [k [m sc]] keys ms [_ Hm] _ IH]; [constructor|]. cbn [fst snd] in *. constructor.
    - cbn. eapply read_field_short; [exact Hm|apply Hshort; left|done|done].
    - apply IH. intros k' Hk'. apply Hshort. by right. }
  assert (ms ≠ []) as Hne by (intros ->; inversion Hread; subst; done).
  assert (0 ≤ common ≤ 12 ∧ ∀ m, m ∈ ms → common ≤ m.2.2) as [Hcommon Hmin].
  { destruct (min_of_spec ((λ m : string * (decimal * Z), m.2.2) <$> ms)) as [Hin Hle]; [by destruct ms|]. fold common in Hin, Hle. split.
    - apply list_elem_of_fmap in Hin as (m & -> & Hm). rewrite Forall_forall in Hmod. by apply (Hmod m).
    - intros m Hm. apply Hle. apply list_elem_of_fmap. by exists m. }
  clearbody common. clear Hms Hne.
  assert (Forall2 (λ (m : string * (decimal * Z)) (d : string * decimal), d.1 = m.1 ∧ moderate d.2 ∧ common ≤ m.2.2 ∧ (dq d.2 == dq m.2.1 * q10 (m.2.2 - common))%Q) ms restated) as Hall.
  { clear Hread Hkeys. induction Hrs as [|[k [m sc]] item ms rs Hitem _ IH]; [constructor|]. apply Forall_cons in Hmod as [[Hm Hsc] Hmod]. cbn [fst snd] in *.
    pose proof (Hmin _ (list_elem_of_here _ _)) as Hle. cbn in Hle. destruct (restate_moderate _ _ _ _ _ Hitem Hm) as (? & ? & ? & _); [lia|lia|].
    constructor; [done|]. apply IH; [done|]. intros x Hx. apply Hmin. by right. }
  clear Hrs. assert (ms.*1 = keys) as Hk by (clear -Hread; induction Hread as [|? ? ? ? [? _] _ IH]; [done|]; cbn; congruence).
  split; [rewrite <- Hk; clear -Hall; induction Hall as [|? ? ? ? [? _] _ IH]; [done|]; cbn; congruence|].
  split; [clear -Hall; induction Hall as [|? ? ? ? (_ & ? & _) _ IH]; constructor; done|]. split; [done|].
  split; [clear -Hread; induction Hread as [|? ? ? ? [_ ?] _ IH]; constructor; done|].
  clear -Hall. induction Hall as [|? ? ? ? (_ & _ & ?) _ IH]; constructor; done.
Qed.

Lemma currency_settles currency unit cur cb currency' :
  normalize_currency currency_codes currency unit = Ok (cur, cb) → currency' = match cur with Some c => StrV c | None => currency end →
  normalize_currency currency_codes currency' unit = Ok (cur, cb).
Proof.
  unfold normalize_currency. intros H ->. destruct currency as [| | | |s| |]; try done.
  - by injection H as <- <-.
  - destruct (iso_4217 s) eqn:Hs; [|done]. injection H as <- <-. rewrite (iso_upper s Hs), Hs. by rewrite iso_upper.
Qed.

Lemma strip_twice s : strip (strip s) = strip s.
Proof.
  assert (∀ t, (∀ a t', t = String a t' → is_space a = false) → lstrip t = t) as Hl.
  { intros [|a t] H; [done|]. cbn. by rewrite (H a t). }
  assert (∀ t, rstrip (rstrip t) = rstrip t) as Hr.
  { induction t as [|a t IH]; [done|]. cbn [rstrip]. destruct (rstrip t) as [|b u] eqn:Ht.
    - destruct (is_space a) eqn:Ha; [done|]. cbn [rstrip]. by rewrite Ha.
    - cbn [rstrip] in *. by rewrite IH. }
  assert (∀ t a u, rstrip t = String a u → ∃ u', t = String a u') as Hfirst.
  { intros [|b t] a u; [done|]. cbn [rstrip]. destruct (rstrip t); [destruct (is_space b); [done|]|]; intros [= -> _]; eauto. }
  assert (∀ t a u, lstrip t = String a u → is_space a = false) as Hns.
  { induction t as [|b t IH]; [done|]. intros a u. cbn [lstrip]. destruct (is_space b) eqn:Hb; [apply IH|]. intros [= -> _]. done. }
  unfold strip. rewrite (Hl (rstrip (lstrip s))); [apply Hr|]. intros a u Heq. apply Hfirst in Heq as [u' Heq]. by eapply Hns.
Qed.

Lemma numeric_settles keys out out' :
  normalize_numeric_fields currency_codes out keys = Ok out' → short out → NoDup keys → keys ≠ [] → (∀ k, k ∈ keys → k ∈ AMOUNT_KEYS) →
  settled_numeric keys out' ∧ recorded out' ∧ (∀ k, k ∉ footprint keys → dict_get k out' = dict_get k out).
Proof.
  unfold normalize_numeric_fields. intros H Hshort Hnd Hne Hkeys.
  destruct (get "unit" out) as [| | | |unit| |] eqn:Hunit; try done. case_bool_decide as Hblank; [done|].
  apply bind_Ok in H as ([cur cb] & Hcur & H). set (o1 := dict_set "unit" _ out) in *. set (o2 := match cur with Some c => _ | None => o1 end) in *.
  apply bind_Ok in H as (ms & Hms & H). apply bind_Ok in H as ([restated common] & Hrec & H). apply bind_Ok in H as (o3 & Hwrite & H).
  apply bind_Ok in H as ([o5 sb] & Hsign & [= <-]).
  assert (∀ k, k ≠ "unit"%string → k ≠ "currency"%string → dict_get k o2 = dict_get k out) as Ho2.
  { intros k H1 H2. unfold o2, o1. destruct cur; rewrite !dict_get_set, !decide_False by done; done. }
  assert (∀ k, k ∈ "raw_value"%string :: AMOUNT_KEYS → short_text (get k o2)) as Hshort2.
  { intros k Hk. unfold get. rewrite Ho2; [by apply Hshort| |]; intros ->; revert Hk; apply (bool_decide_unpack _); vm_compute; exact I. }
  set (declared := get "scale" o2) in *. set (blockers := scale_blockers declared) in *.
  destruct (restated_amounts _ _ _ _ _ _ _ Hms Hrec Hne) as (Hrk & Hrm & Hcommon & _ & _);
    [apply Hshort2; left|intros k Hk; apply Hshort2; right; by apply Hkeys|by apply hint_ok_of|].
  destruct (orient_spec restated) as (Hinv & Hok & Hop). set (r := orient restated) in *.
  assert (r.*1 = keys) as Hrkeys by congruence. assert (Forall moderate r.*2) as Hrmod by (by rewrite Hop).
  destruct (write_fields _ _ _ Hwrite) as [Hw Hw']; [by rewrite Hrkeys|].
  set (o4 := match blockers with [] => dict_set "scale" (IntV common) o3 | _ => o3 end) in *.
  unfold resolve_sign in Hsign. apply bind_Ok in Hsign as (known & _ & [= <- Hsb]). rewrite Hrkeys in Hw'.
  set (o5 := dict_set "sign" _ o4) in *. set (bs := blockers ++ sb ++ cb).
  assert (∀ k, k ∈ keys → k ∉ footprint [])%string as Hfoot.
  { intros k Hk Hin. assert (Forall (λ k, k ∉ footprint []) AMOUNT_KEYS) as Ha by (apply (bool_decide_unpack _); vm_compute; exact I).
    rewrite Forall_forall in Ha. by apply (Ha k (Hkeys k Hk)). }
  assert (∀ k, k ≠ "sign"%string → k ≠ "scale"%string → k ≠ NORMALIZER_BLOCKERS_KEY → dict_get k (record_blockers o5 bs) = dict_get k o3) as Hfin.
  { intros k H1 H2 H3. rewrite record_blockers_get by done. unfold o5. rewrite dict_get_set, decide_False by done. unfold o4. destruct blockers; [|done].
    by rewrite dict_get_set, decide_False. }
  destruct (record_blockers_recorded o5 bs) as [Hrecd Hcarried].
  assert (∀ k, k ∉ keys → k ≠ "unit"%string → k ≠ "currency"%string → dict_get k o3 = dict_get k out) as Ho3 by (intros k ? ? ?; rewrite Hw' by done; by apply Ho2).
  split; [|split; [done|]].
  2:{ intros k Hk. unfold footprint in Hk. rewrite not_elem_of_app, !not_elem_of_cons in Hk. destruct Hk as [(? & ? & ? & ? & ? & _) ?]. rewrite Hfin by done. by apply Ho3. }
  assert (∀ k, k ∈ footprint [] → k ∉ keys) as Hnk by (intros k Hk Hin; by apply (Hfoot k)).
  assert (dict_get "unit" (record_blockers o5 bs) = Some (StrV (strip unit))) as Hu.
  { rewrite Hfin by done. rewrite Hw' by (apply Hnk; apply (bool_decide_unpack _); vm_compute; exact I).
    unfold o2, o1. destruct cur; rewrite ?dict_get_set; done. }
  assert (get "currency" (record_blockers o5 bs) = match cur with Some c => StrV c | None => get "currency" out end) as Hc.
  { unfold get. rewrite Hfin by done. rewrite Hw' by (apply Hnk; apply (bool_decide_unpack _); vm_compute; exact I). unfold o2, o1.
    destruct cur; rewrite !dict_get_set; done. }
  assert (get "currency" o1 = get "currency" out) as Hc1 by (unfold get, o1; by rewrite dict_get_set).
  assert (dict_get "scale" (record_blockers o5 bs) = match blockers with [] => Some (IntV common) | _ => dict_get "scale" o2 end) as Hsc.
  { rewrite record_blockers_get by done. unfold o5. rewrite dict_get_set, decide_False by done. unfold o4. destruct blockers; [by rewrite dict_get_set|].
    apply Hw', Hnk. apply (bool_decide_unpack _); vm_compute; exact I. }
  assert (∃ ws, Forall2 (λ key w, ∃ s, dict_get key (record_blockers o5 bs) = Some (StrV s) ∧ parse_numeric s = Ok (w, 0, sign_text w) ∧ format_decimal w = Ok s) keys ws ∧
    Forall2 (λ a b : string * decimal, a.1 = b.1 ∧ deq a.2 b.2) (zip keys ws) r) as (ws & Hws & Hdeq).
  { assert (∀ k m, (k, m) ∈ r → ∃ s w, dict_get k (record_blockers o5 bs) = Some (StrV s) ∧ parse_numeric s = Ok (w, 0, sign_text w) ∧ format_decimal w = Ok s ∧ deq w m) as Hone.
    { intros k m Hkm. destruct (Hw k m Hkm) as (s & Hs & Hg). rewrite Forall_forall in Hrmod.
      destruct (moderate_written m) as (s' & w & Hs' & Hp & Hf & Hd); [apply Hrmod; by apply (list_elem_of_fmap_2 snd r (k, m))|].
      rewrite Hs in Hs'. injection Hs' as <-. exists s, w. split; [|done].
      assert (k ∈ keys) as Hk by (rewrite <- Hrkeys; by apply (list_elem_of_fmap_2 fst r (k, m))). rewrite Hfin; [done|..]; intros ->; by apply (Hfoot _ Hk), (bool_decide_unpack _). }
    revert Hone. rewrite <- Hrkeys. clear. generalize (record_blockers o5 bs) as d. intros d. induction r as [|[k m] r IH]; intros Hone; [by exists []|].
    destruct IH as (ws & H1 & H2); [intros k' m' Hin; apply Hone; by right|]. destruct (Hone k m (list_elem_of_here _ _)) as (s & w & Hg & Hp & Hf & Hd).
    exists (w :: ws). split; constructor; [by exists s|done|done|done]. }
  exists (strip unit), cur, cb, ws. split; [done|]. split; [apply strip_twice|]. split; [done|].
  split; [eapply currency_settles; [rewrite Hc1 in Hcur; exact Hcur|exact Hc]|].
  split; [intros c ->; rewrite Hfin by done; rewrite Hw' by (apply Hnk; apply (bool_decide_unpack _); vm_compute; exact I); unfold o2; by rewrite dict_get_set|].
  split; [done|]. split; [by rewrite (inverted_deq _ _ Hdeq)|].
  assert (scale_blockers (get "scale" (record_blockers o5 bs)) = [] ∧ blockers = [] ∨ scale_blockers (get "scale" (record_blockers o5 bs)) = blockers ∧ blockers ≠ []) as Hsb'.
  { unfold get. rewrite Hsc. destruct blockers as [|b bl] eqn:Hb; [left|right; split; [exact Hb|done]]. split; [|done]. cbn [default from_option id scale_blockers].
    unfold SCALE_MIN, SCALE_MAX. destruct (Z.ltb_spec common 0), (Z.ltb_spec 12 common); try lia. done. }
  split.
  { intros Hnil. destruct Hsb' as [[_ Hb]|[Hb ?]]; [|congruence]. exists common. rewrite Hsc. by rewrite Hb. }
  split.
  { rewrite record_blockers_get by done. unfold o5. rewrite dict_get_set, decide_True by done. do 2 f_equal.
    clear -Hdeq. destruct Hdeq as [|[k w] [k' m] ? ? [_ Hd] _]; [done|]. cbn in *. symmetry. by apply sign_text_deq. }
  intros b Hb. rewrite Hcarried. apply elem_of_dict_fromkeys. apply elem_of_app. right. unfold bs. rewrite !elem_of_app in *.
  destruct Hb as [Hb|Hb]; [tauto|]. destruct Hsb' as [[Hn _]|[Hn _]]; rewrite Hn in Hb; [by apply not_elem_of_nil in Hb|tauto].
Qed.
End settled.
