(* ===== verification/NormalizeSettled.v ===== *)
(** One pass of normalization settles a payload: normalizing its result again
    changes nothing.

    What normalization promises of a payload: the amounts keep their size when
    their scales are reconciled, and a second pass changes nothing. *)

From Stdlib Require Import QArith Qabs.
From S2P Require Import Prelude Dicts Text Regex Decimals Periods Canonical IsoDates Payload Numeric NumericReading Normalize NormalizeSound.
Local Open Scope Z_scope.

(** * Sorted items *)

#[export] Instance key_le_total {A} : Total (@key_le A).
Proof. intros a b. unfold key_le. apply (total String.le). Qed.
#[export] Instance key_le_trans {A} : Transitive (@key_le A).
Proof. intros a b c. unfold key_le. apply (transitivity (R := String.le)). Qed.

Lemma StronglySorted_filtered {A} (R : relation A) (P : A → Prop) `{∀ x, Decision (P x)} (l : list A) :
  StronglySorted R l → StronglySorted R (filter P l).
Proof.
  induction 1 as [|x l _ IH Hx]; [constructor|]. rewrite filter_cons. case_decide; [|done]. constructor; [done|].
  apply Forall_forall. intros y [_ Hy]%list_elem_of_filter. rewrite Forall_forall in Hx. by apply Hx.
Qed.

Lemma sorted_items (items : payload) : py_sorted key_le (py_sorted key_le items) = py_sorted key_le items.
Proof. apply py_sorted_id, py_sorted_sorted; apply _. Qed.

Lemma dimensions_settle v dims bs : normalize_dimensions v = Ok (dims, bs) → normalize_dimensions (DictV dims) = Ok (dims, []).
Proof.
  intros H. assert (StronglySorted key_le dims ∧ ∀ kv, kv ∈ dims → match kv.2 with StrV _ => true | _ => false end = true) as [Hs Ht].
  { unfold normalize_dimensions in H. destruct v as [| | | | | |items]; try done; injection H as <- <-; [split; [constructor|]; intros kv Hkv; by apply not_elem_of_nil in Hkv|].
    split; [apply StronglySorted_filtered, py_sorted_sorted; apply _|]. by intros kv [? _]%list_elem_of_filter. }
  unfold normalize_dimensions. rewrite py_sorted_id by done.
  rewrite (proj2 (forallb_forall _ _)) by (intros kv Hkv; apply Ht, list_elem_of_In, Hkv). do 2 f_equal.
  clear H Hs. induction dims as [|kv dims IH]; [done|]. rewrite filter_cons_True by (apply Ht; left). f_equal. apply IH. intros x Hx. apply Ht. by right.
Qed.

Lemma qualifiers_settle v q : normalize_qualifiers v = Ok q → normalize_qualifiers (DictV q) = Ok q.
Proof.
  unfold normalize_qualifiers. destruct v as [| | | | | |items]; try done; intros [= <-]; [done|]. by rewrite sorted_items.
Qed.

(** * Periods *)

Lemma date_fromisoformat_ok s d : date_fromisoformat s = Some d → date_ok d.
Proof.
  unfold date_fromisoformat. case_bool_decide; [|done].
  assert (∀ n, ord_to_date n = Some d → date_ok d) as Hord.
  { intros n. unfold ord_to_date. cbv zeta. destruct (n <? 1); [done|]. destruct (_ || _); intros; by eapply date_of_ok. }
  assert (∀ y w x, iso_to_date y w x = Some d → date_ok d) as Hiso.
  { intros y w x. unfold iso_to_date. cbv zeta. destruct (_ && _); [apply Hord|done]. }
  intros Hd. repeat (first [apply bind_Some in Hd as ([? ?] & _ & Hd)|apply bind_Some in Hd as (? & _ & Hd)|case_match]); try done;
    first [by eapply Hiso|by eapply date_of_ok].
Qed.

Lemma isoformat_char d a : date_ok d → a ∈ chars (date_isoformat d) → is_space a = false.
Proof.
  intros (Hy & Hm & Hd)%date_ok_bounds Ha. unfold date_isoformat in Ha.
  destruct (padded_digits 4 (d_year d)) as (l1 & E1 & F1 & _); [lia|lia|]. destruct (padded_digits 2 (d_month d)) as (l2 & E2 & F2 & _); [lia|lia|].
  destruct (padded_digits 2 (d_day d)) as (l3 & E3 & F3 & _); [lia|lia|]. rewrite E1, E2, E3, !chars_app, !chars_digits in Ha.
  assert (∀ l, digits_ok l → a ∈ digit_char <$> l → is_space a = false) as Hdig.
  { intros l Hl (x & -> & Hx)%list_elem_of_fmap. rewrite Forall_forall in Hl. by apply digit_not_space, digit_char_spec, Hl. }
  rewrite !elem_of_app in Ha. destruct Ha as [Ha|[Ha|[Ha|[Ha|Ha]]]]; [exact (Hdig _ F1 Ha)| |exact (Hdig _ F2 Ha)| |exact (Hdig _ F3 Ha)]; apply list_elem_of_singleton in Ha as ->; done.
Qed.

Lemma normalize_date_settles v s : normalize_date v = Ok s → normalize_date s = Ok s.
Proof.
  unfold normalize_date. destruct (date_fromisoformat (strip v)) as [d|] eqn:Hd; [|done]. intros [= <-]. apply date_fromisoformat_ok in Hd.
  rewrite (strip_id (date_isoformat d)) by (apply Forall_forall; intros a Ha; by eapply isoformat_char). by rewrite fromisoformat_isoformat.
Qed.

(** an optional date of a period *)
Definition date_field (period : payload) (key : string) (o : option string) : Prop :=
  match o with
  | None => dict_get key period = None ∨ dict_get key period = Some NoneV
  | Some s => ∃ v, dict_get key period = Some v ∧ v ≠ NoneV ∧ normalize_date (py_str v) = Ok s
  end.

Lemma set_date_spec period out key out' : set_date period out key = Ok out' → key ∉ out.*1 →
  ∃ o, date_field period key o ∧ out' = out ++ option_list ((λ s, (key, StrV s)) <$> o).
Proof.
  unfold set_date. intros H Hk. destruct (dict_get key period) as [v|] eqn:Hv.
  - destruct (is_none v) eqn:Hn; [assert (v = NoneV) as -> by by destruct v|assert (v ≠ NoneV) as Hne by (intros ->; done)].
    + exists None. injection H as <-. split; [by right|by rewrite app_nil_r].
    + assert (∃ s, normalize_date (py_str v) = Ok s ∧ out' = dict_set key (StrV s) out) as (s & Hs & ->).
      { destruct v; try done; apply bind_Ok in H as (t & Ht & [= <-]); eauto. }
      exists (Some s). split; [by exists v|]. by rewrite dict_set_new.
  - exists None. injection H as <-. split; [by left|by rewrite app_nil_r].
Qed.

Lemma fiscal_text_twice v : fiscal_text (fiscal_text v) = fiscal_text v.
Proof.
  assert (∀ s, fiscal_text (if bool_decide (strip s = ""%string) then NoneV else StrV (strip s)) = if bool_decide (strip s = ""%string) then NoneV else StrV (strip s)) as Hs.
  { intros s. case_bool_decide as Hb; [done|]. unfold fiscal_text. cbn [py_str]. by rewrite strip_twice, bool_decide_false. }
  destruct v; try done; apply (Hs (py_str _)).
Qed.

Definition dates (i s e : option string) : payload :=
  option_list ((λ t, ("instant"%string, StrV t)) <$> i) ++ option_list ((λ t, ("start"%string, StrV t)) <$> s) ++
  option_list ((λ t, ("end"%string, StrV t)) <$> e).

Lemma fold_dates items ptype base :
  foldM (set_date items) [("type"%string, ptype)] ["instant"; "start"; "end"]%string = Ok base →
  ∃ i s e, base = ("type"%string, ptype) :: dates i s e ∧
    date_field items "instant" i ∧ date_field items "start" s ∧ date_field items "end" e.
Proof.
  cbn [foldM]. intros (b1 & H1 & H)%bind_Ok. apply bind_Ok in H as (b2 & H2 & H). apply bind_Ok in H as (b3 & H3 & [= <-]).
  apply set_date_spec in H1 as (i & Hi & ->); [|by apply (bool_decide_unpack _)].
  apply set_date_spec in H2 as (s & Hs & ->); [|by destruct i; apply (bool_decide_unpack _)].
  apply set_date_spec in H3 as (e & He & ->); [|by destruct i, s; apply (bool_decide_unpack _)].
  exists i, s, e. split; [|done]. unfold dates. by rewrite <- !app_assoc.
Qed.

Lemma set_date_settled period out key o :
  dict_get key period = StrV <$> o → (∀ s, o = Some s → normalize_date s = Ok s) → key ∉ out.*1 →
  set_date period out key = Ok (out ++ option_list ((λ s, (key, StrV s)) <$> o)).
Proof.
  intros Hg Hs Hk. unfold set_date. rewrite Hg. destruct o as [s|]; cbn [fmap option_fmap option_map option_list]; [|by rewrite app_nil_r].
  cbn [py_str]. rewrite (Hs s eq_refl). cbn [mbind result_bind]. by rewrite dict_set_new.
Qed.

Lemma date_field_settled items key o : date_field items key o → ∀ s, o = Some s → normalize_date s = Ok s.
Proof. intros Hd s ->. destruct Hd as (v & _ & _ & Hv). by eapply normalize_date_settles. Qed.

Lemma period_settles v p : normalize_period v = Ok p → normalize_period (DictV p) = Ok p.
Proof.
  unfold normalize_period at 1. destruct v as [| | | | | |items]; try done. cbv zeta. set (ptype := get "type" items).
  intros (known & Hknown & H)%bind_Ok. apply bind_Ok in H as ([] & Hens & H). apply bind_Ok in H as (base & Hbase & H).
  apply fold_dates in Hbase as (i & s & e & -> & Hi & Hs & He). set (fiscal := dict_get "fiscal_period" items) in H.
  set (f := fiscal_text <$> fiscal).
  assert (match fiscal with None => ("type"%string, ptype) :: dates i s e | Some fp => dict_set "fiscal_period" (fiscal_text fp) (("type"%string, ptype) :: dates i s e) end =
    (("type"%string, ptype) :: dates i s e) ++ option_list ((λ t, ("fiscal_period"%string, t)) <$> f)) as Hp.
  { unfold f. destruct fiscal; cbn [fmap option_fmap option_map option_list]; [|by rewrite app_nil_r]. apply dict_set_new. destruct i, s, e; by apply (bool_decide_unpack _). }
  rewrite Hp in H. set (out := _ ++ _) in *. apply bind_Ok in H as ([] & Hshape & [= <-]).
  assert (∀ t, f = Some t → fiscal_text t = t) as Hf by (unfold f; destruct fiscal; [|done]; intros t [= <-]; apply fiscal_text_twice).
  assert (get "type" out = ptype) as Ht by done.
  assert (dict_get "instant" out = StrV <$> i ∧ dict_get "start" out = StrV <$> s ∧ dict_get "end" out = StrV <$> e ∧ dict_get "fiscal_period" out = f) as (Gi & Gs & Ge & Gf).
  { unfold out. clear. destruct i, s, e, f; done. }
  unfold normalize_period. cbv zeta. rewrite Ht, Hknown. cbn [mbind result_bind]. rewrite Hens. cbn [mbind result_bind foldM].
  rewrite (set_date_settled _ _ _ i Gi); [|by eapply date_field_settled|by apply (bool_decide_unpack _)]. cbn [mbind result_bind].
  rewrite (set_date_settled _ _ _ s Gs); [|by eapply date_field_settled|by destruct i; apply (bool_decide_unpack _)]. cbn [mbind result_bind].
  rewrite (set_date_settled _ _ _ e Ge); [|by eapply date_field_settled|by destruct i, s; apply (bool_decide_unpack _)]. cbn [mbind result_bind].
  rewrite Gf. assert (match f with None => ([("type"%string, ptype)] ++ option_list ((λ t, ("instant"%string, StrV t)) <$> i)) ++ option_list ((λ t, ("start"%string, StrV t)) <$> s) ++ option_list ((λ t, ("end"%string, StrV t)) <$> e)
    | Some fp => dict_set "fiscal_period" (fiscal_text fp) (([("type"%string, ptype)] ++ option_list ((λ t, ("instant"%string, StrV t)) <$> i)) ++ option_list ((λ t, ("start"%string, StrV t)) <$> s) ++ option_list ((λ t, ("end"%string, StrV t)) <$> e)) end = out) as Hout.
  { unfold out. destruct f as [t|]; [rewrite (Hf t eq_refl)|]; destruct i, s, e; done. }
  rewrite <- !app_assoc in *. rewrite Hout, Hshape. done.
Qed.

(** * The variants of a payload *)

Lemma shape_keys_spec shape keys : shape_keys shape = Some keys → keys ≠ [] ∧ NoDup keys ∧ (∀ k, k ∈ keys → k ∈ AMOUNT_KEYS).
Proof.
  unfold shape_keys. destruct shape; try done. intros H.
  assert (Forall (λ e : string * list string, e.2 ≠ [] ∧ NoDup e.2 ∧ Forall (λ k, k ∈ AMOUNT_KEYS) e.2) SHAPE_KEYS) as Hall by (apply (bool_decide_unpack _); vm_compute; exact I).
  apply dict_get_elem in H; [|apply (bool_decide_unpack _); vm_compute; exact I]. rewrite Forall_forall in Hall. apply Hall in H as (? & ? & Hk).
  rewrite Forall_forall in Hk. done.
Qed.

Section settled.
Context (currency_codes : list string).
Notation normalize_one := (normalize_one currency_codes).

Lemma carried_ext a b : dict_get NORMALIZER_BLOCKERS_KEY a = dict_get NORMALIZER_BLOCKERS_KEY b → carried a = carried b.
Proof. intros H. unfold carried, get. by rewrite H. Qed.

Lemma recorded_ext a b : dict_get NORMALIZER_BLOCKERS_KEY a = dict_get NORMALIZER_BLOCKERS_KEY b → recorded a → recorded b.
Proof. intros H. unfold recorded. by rewrite (carried_ext a b H), H. Qed.

Lemma settled_numeric_ext keys a b :
  (∀ k, k ∈ footprint keys → dict_get k a = dict_get k b) → settled_numeric currency_codes keys a → settled_numeric currency_codes keys b.
Proof.
  intros H (unit & cur & cb & ws & H1 & H2 & H3 & H4 & H5 & H6 & H7 & H8 & H9 & H10).
  assert (∀ k, k ∈ footprint keys → get k a = get k b) as Hg by (intros k Hk; unfold get; by rewrite H).
  assert (∀ k, k ∈ ["unit"; "currency"; "scale"; "sign"; NORMALIZER_BLOCKERS_KEY]%string → k ∈ footprint keys) as Hin by (intros k Hk; apply elem_of_app; by left).
  assert (∀ k, bool_decide (k ∈ ["unit"; "currency"; "scale"; "sign"; NORMALIZER_BLOCKERS_KEY]%string) = true → k ∈ footprint keys) as Hin' by (intros k Hk; apply Hin; by apply bool_decide_eq_true in Hk).
  exists unit, cur, cb, ws. rewrite <- !H, <- !Hg, <- (carried_ext a b) by (try apply H; by apply Hin').
  split; [done|]. split; [done|]. split; [done|]. split; [done|]. split; [done|]. split; [|done].
  assert (∀ k, k ∈ keys → dict_get k a = dict_get k b) as Hk by (intros k Hk; apply H, elem_of_app; by right). clear -H6 Hk.
  induction H6 as [|k w keys ws (s & Hs & ?) _ IH]; constructor; [exists s; rewrite <- Hk by left; done|]. apply IH. intros k' Hk'. apply Hk. by right.
Qed.

Definition settled_kind (kind : value) (out : payload) : Prop :=
  (is_str "kpi" kind = true ∧ settled_numeric currency_codes ["value"%string] out) ∨
  (is_str "kpi" kind = false ∧ is_str "guidance" kind = true ∧ dict_get "reported_or_derived" out = Some (StrV "management_assertion") ∧
    ((∃ keys, shape_keys (get "shape" out) = Some keys ∧ settled_numeric currency_codes keys out) ∨
     (shape_keys (get "shape" out) = None ∧ is_str "qualitative" (get "shape" out) = true ∧
      ∃ t, dict_get "text" out = Some (StrV t) ∧ strip t = t ∧ t ≠ ""%string))) ∨
  (is_str "kpi" kind = false ∧ is_str "guidance" kind = false ∧ dict_get "reported_or_derived" out = Some (StrV "management_assertion") ∧
    in_set (get "category" out) DRIVER_CATEGORIES = Ok true ∧
    (∃ t, dict_get "description" out = Some (StrV t) ∧ strip t = t ∧ t ≠ ""%string) ∧
    (∃ d, dict_get "direction" out = Some d ∧ in_set d DIRECTIONS = Ok true) ∧
    ∃ l, dict_get "target_metric_ids" out = Some (ListV (map StrV l)) ∧ l ≠ [] ∧ NoDup l ∧ sorted_strings l = l).

(** what a kind's branch may write *)
Definition KIND_KEYS : list string :=
  footprint AMOUNT_KEYS ++ ["reported_or_derived"; "text"; "description"; "direction"; "target_metric_ids"]%string.

Lemma settled_kind_ext kind a b :
  (∀ k, k ∈ KIND_KEYS ++ ["shape"; "category"]%string → dict_get k a = dict_get k b) → settled_kind kind a → settled_kind kind b.
Proof.
  intros H. assert (∀ k, bool_decide (k ∈ KIND_KEYS ++ ["shape"; "category"]%string) = true → dict_get k a = dict_get k b) as Hd by (intros k Hk; apply H; by apply bool_decide_eq_true in Hk).
  assert (∀ keys, (∀ k, k ∈ keys → k ∈ AMOUNT_KEYS) → settled_numeric currency_codes keys a → settled_numeric currency_codes keys b) as Hnum.
  { intros keys Hk. apply settled_numeric_ext. intros k Hkk. apply H. unfold KIND_KEYS, footprint in *. rewrite !elem_of_app in *. destruct Hkk as [?|?%Hk]; tauto. }
  unfold settled_kind. assert (get "shape" a = get "shape" b ∧ get "category" a = get "category" b) as [Hs Hc] by (unfold get; by rewrite !Hd).
  rewrite Hs, Hc, !Hd by done. intros [[? ?]|[(? & ? & ? & [(keys & Hk & ?)|?])|?]].
  - left. split; [done|]. apply Hnum; [|done]. intros k ->%list_elem_of_singleton. left.
  - right; left. split; [done|]. split; [done|]. split; [done|]. left. exists keys. split; [done|]. apply Hnum; [|done]. by apply (shape_keys_spec _ _ Hk).
  - right; left. auto.
  - right; right. done.
Qed.

Lemma get_of k out v : dict_get k out = Some v → get k out = v.
Proof. intros H. unfold get. by rewrite H. Qed.

Lemma settled_kind_normal kind out : settled_kind kind out → recorded out → normalize_kind currency_codes kind out = Ok out.
Proof.
  intros H Hrec. unfold normalize_kind. destruct H as [[-> H]|[(-> & -> & Hrep & H)|(-> & -> & Hrep & Hcat & (t & Ht & Hst & Htne) & (d & Hd & Hdir) & l & Hl & Hlne & Hnd & Hsort)]].
  - by apply settled_numeric_normal.
  - unfold normalize_guidance. destruct H as [(keys & Hk & H)|(-> & -> & t & Ht & Hst & Htne)].
    + rewrite Hk, settled_numeric_normal by (done || by apply (shape_keys_spec _ _ Hk)). cbn [mbind result_bind]. by rewrite dict_set_same.
    + rewrite (get_of _ _ _ Ht). cbn [blank]. rewrite Hst, bool_decide_false by done. cbn [negb ensure mbind result_bind py_str]. rewrite Hst.
      rewrite (dict_set_same "text") by done. cbn [mbind result_bind]. by rewrite dict_set_same.
  - unfold normalize_driver. rewrite Hcat. cbn [mbind result_bind ensure]. rewrite (get_of _ _ _ Ht). cbn [blank]. rewrite Hst, bool_decide_false by done.
    cbn [negb ensure mbind result_bind py_str]. rewrite Hst. rewrite (dict_set_same "description") by done. rewrite Hd. cbn [default from_option id]. rewrite Hdir.
    cbn [mbind result_bind ensure]. rewrite (dict_set_same "direction") by done. rewrite (get_of _ _ _ Hl). destruct l as [|x l]; [done|]. cbn [map].
    cbn [map py_str]. change (x :: map py_str (map StrV l)) with (map py_str (map StrV (x :: l))). rewrite py_str_texts, dict_fromkeys_id, Hsort by done. rewrite (dict_set_same "target_metric_ids") by done.
    by rewrite dict_set_same.
Qed.

Ltac in_keys := apply (bool_decide_unpack _); vm_compute; exact I.

Lemma footprint_kind keys k : (∀ k, k ∈ keys → k ∈ AMOUNT_KEYS) → k ∉ KIND_KEYS → k ∉ footprint keys.
Proof.
  intros Hkeys Hk Hin. apply Hk. unfold KIND_KEYS, footprint in *. rewrite !elem_of_app in *. destruct Hin as [?|?%Hkeys]; tauto.
Qed.

Lemma driver_settles out out' :
  normalize_driver out = Ok out' →
  (is_str "kpi" (StrV "revenue_driver") = false → is_str "guidance" (StrV "revenue_driver") = false → settled_kind (StrV "revenue_driver") out') ∧
  (∀ k, k ∉ ["description"; "direction"; "target_metric_ids"; "reported_or_derived"]%string → dict_get k out' = dict_get k out).
Proof.
  unfold normalize_driver. intros (known & Hcat & H)%bind_Ok. apply bind_Ok in H as ([] & Hk & H). apply ensure_Ok in Hk. subst known.
  apply bind_Ok in H as ([] & Hdesc & H). apply ensure_Ok in Hdesc. cbv zeta in H. apply bind_Ok in H as (kd & Hdir & H). apply bind_Ok in H as ([] & Hk & H). apply ensure_Ok in Hk. subst kd.
  destruct (get "description" out) as [| | | |desc| |] eqn:Hd; try done. cbn [blank py_str] in *. case_bool_decide as Hb; [done|].
  set (o1 := dict_set "description" _ out) in *. set (dir := default _ (dict_get "direction" o1)) in *. set (o2 := dict_set "direction" dir o1) in *.
  destruct (get "target_metric_ids" o2) as [| | | | |targets|]; try done. destruct targets as [|t0 ts]; [done|]. injection H as <-.
  set (l := sorted_strings (dict_fromkeys (map py_str (t0 :: ts)))). split.
  2:{ intros k Hk. rewrite !not_elem_of_cons in Hk. destruct Hk as (? & ? & ? & ? & _). unfold o2, o1. by rewrite !dict_get_set, !decide_False. }
  intros _ _. right; right. split; [done|]. split; [done|]. split; [by rewrite dict_get_set|].
  assert (∀ k, k ≠ "reported_or_derived"%string → k ≠ "target_metric_ids"%string → dict_get k (dict_set "reported_or_derived" (StrV "management_assertion") (dict_set "target_metric_ids" (ListV (map StrV l)) o2)) = dict_get k o2) as Hg.
  { intros k ? ?. by rewrite !dict_get_set, !decide_False. }
  split; [unfold get; rewrite Hg by done; unfold o2, o1; by rewrite !dict_get_set|].
  split; [exists (strip desc); rewrite Hg by done; unfold o2, o1; rewrite !dict_get_set; split; [done|]; split; [apply strip_twice|done]|].
  split; [exists dir; rewrite Hg by done; unfold o2; rewrite !dict_get_set; done|].
  exists l. rewrite !dict_get_set. split; [done|]. split.
  { intros Hl. assert (py_str t0 ∈ l) as Hin by (apply elem_of_sorted_strings, elem_of_dict_fromkeys; left). rewrite Hl in Hin. by apply not_elem_of_nil in Hin. }
  split; [apply NoDup_sorted_strings, NoDup_dict_fromkeys|]. apply py_sorted_id, sorted_strings_sorted.
Qed.

Lemma kind_settles kind out out' :
  normalize_kind currency_codes kind out = Ok out' → in_set kind KINDS = Ok true → short out → recorded out →
  settled_kind kind out' ∧ recorded out' ∧ (∀ k, k ∉ KIND_KEYS → dict_get k out' = dict_get k out).
Proof.
  unfold normalize_kind. intros H Hkind Hshort Hrec.
  assert (NORMALIZER_BLOCKERS_KEY ∉ ["description"; "direction"; "target_metric_ids"; "reported_or_derived"]%string) as Hnk by in_keys.
  destruct (is_str "kpi" kind) eqn:Hkpi.
  { destruct (numeric_settles _ _ _ _ H Hshort) as (Hs & Hr & Hout); [apply NoDup_singleton|done|intros k ->%list_elem_of_singleton; left|].
    split; [by left|]. split; [done|]. intros k Hk. apply Hout. apply footprint_kind; [intros k' ->%list_elem_of_singleton; left|done]. }
  destruct (is_str "guidance" kind) eqn:Hg.
  - unfold normalize_guidance in H. apply bind_Ok in H as (o1 & H & [= <-]).
    assert (∀ k, k ≠ "reported_or_derived"%string → dict_get k (dict_set "reported_or_derived" (StrV "management_assertion") o1) = dict_get k o1) as Hg1 by (intros k ?; by rewrite dict_get_set, decide_False).
    destruct (shape_keys (get "shape" out)) as [keys|] eqn:Hsk.
    + destruct (shape_keys_spec _ _ Hsk) as (Hne & Hnd & Hin). destruct (numeric_settles _ _ _ _ H Hshort Hnd Hne Hin) as (Hs & Hr & Hout).
      assert (∀ k, k ∉ KIND_KEYS → dict_get k o1 = dict_get k out) as Ho1 by (intros k Hk; apply Hout, footprint_kind; done).
      split; [|split; [by eapply recorded_ext; [symmetry; apply Hg1|]|intros k Hk; rewrite Hg1; [by apply Ho1|intros ->; apply Hk; in_keys]]].
      right; left. split; [done|]. split; [done|]. split; [by rewrite dict_get_set|]. left. exists keys. split.
      * unfold get. rewrite Hg1, Ho1 by (done || in_keys). exact Hsk.
      * eapply settled_numeric_ext; [|exact Hs]. intros k Hk. symmetry. apply Hg1. intros ->. unfold footprint in Hk. apply elem_of_app in Hk as [Hk|Hk%Hin]; revert Hk; in_keys.
    + destruct (is_str "qualitative" (get "shape" out)) eqn:Hq; [|done]. apply bind_Ok in H as ([] & Hb & [= <-]). apply ensure_Ok, negb_true_iff in Hb.
      destruct (get "text" out) as [| | | |t| |] eqn:Ht; try done. cbn [blank py_str] in *. apply bool_decide_eq_false in Hb.
      assert (∀ k, k ≠ "reported_or_derived"%string → k ≠ "text"%string → dict_get k (dict_set "reported_or_derived" (StrV "management_assertion") (dict_set "text" (StrV (strip t)) out)) = dict_get k out) as Hg2.
      { intros k ? ?. by rewrite !dict_get_set, !decide_False. }
      split; [|split; [by eapply recorded_ext; [symmetry; apply Hg2|]|intros k Hk; apply Hg2; intros ->; apply Hk; in_keys]].
      right; left. split; [done|]. split; [done|]. split; [by rewrite dict_get_set|]. right. unfold get. rewrite Hg2 by done.
      split; [exact Hsk|]. split; [exact Hq|]. exists (strip t). rewrite !dict_get_set. split; [done|]. split; [apply strip_twice|done].
  - assert (kind = StrV "revenue_driver") as ->.
    { unfold in_set in Hkind. destruct kind as [| | | |k| |]; try done. cbn in Hkind. injection Hkind as Hk. apply bool_decide_eq_true in Hk. unfold KINDS in Hk.
      unfold is_str in Hkpi, Hg. apply bool_decide_eq_false in Hkpi, Hg. rewrite !elem_of_cons in Hk. destruct Hk as [?|[?|[->|Hk]]]; [done|done|done|by apply not_elem_of_nil in Hk]. }
    destruct (driver_settles _ _ H) as [Hs Hout]. split; [by apply Hs|].
    split; [by eapply recorded_ext; [symmetry; by apply Hout|]|]. intros k Hk. apply Hout. intros Hin. apply Hk. unfold KIND_KEYS. apply elem_of_app. right.
    revert Hin. rewrite !elem_of_cons. tauto.
Qed.

(** * The whole payload *)

(** A payload that one more pass leaves alone *)
Lemma normalize_settled raw out :
  normalize_one raw = Ok out → short raw → normalize_one out = Ok out.
Proof.
  unfold Normalize.normalize_one at 1. cbv zeta. set (o0 := dict_set "schema_version" _ raw). intros H Hshort.
  apply bind_Ok in H as (known & Hkind & H). apply bind_Ok in H as ([] & Hk & H). apply ensure_Ok in Hk. subst known. set (kind := get "kind" o0) in *.
  apply bind_Ok in H as ([] & Hraw & H). apply ensure_Ok in Hraw. destruct (get "raw_value" o0) as [| | | |rv| |] eqn:Hrv; try done.
  set (o1 := dict_set "raw_value" _ o0) in *. apply bind_Ok in H as (o2 & Hperiod & H). apply bind_Ok in H as ([dims dbs] & Hdims & H).
  set (o3 := dict_set "dimensions" _ o2) in *. set (o4 := record_blockers o3 dbs) in *. apply bind_Ok in H as (quals & Hquals & H).
  set (o5 := dict_set "qualifiers" _ o4) in *. apply bind_Ok in H as (o6 & Hnk & [= <-]). set (out := dict_set "_normalizer_version" _ o6).
  assert (∀ k, k ≠ "period"%string → dict_get k o2 = dict_get k o1) as Ho2.
  { intros k Hk. destruct (has "period" o1); [apply bind_Ok in Hperiod as (p & _ & [= <-]); by rewrite dict_get_set, decide_False|by injection Hperiod as <-]. }
  assert (∀ k, k ∉ ["schema_version"; "raw_value"; "period"; "dimensions"; "qualifiers"; NORMALIZER_BLOCKERS_KEY]%string → dict_get k o5 = dict_get k raw) as Ho5.
  { intros k Hk. rewrite !not_elem_of_cons in Hk. destruct Hk as (? & ? & ? & ? & ? & ? & _). unfold o5. rewrite dict_get_set, decide_False by done.
    unfold o4. rewrite record_blockers_get by done. unfold o3. rewrite dict_get_set, decide_False, Ho2 by done. unfold o1, o0. by rewrite !dict_get_set, !decide_False. }
  destruct (record_blockers_recorded o3 dbs) as [Hrec4 _]. fold o4 in Hrec4.
  assert (recorded o5) as Hrec5 by (eapply recorded_ext; [|exact Hrec4]; unfold o5; by rewrite dict_get_set).
  assert (get "raw_value" raw = StrV rv) as Hrawv by (unfold o0, get in Hrv; by rewrite dict_get_set in Hrv).
  assert (dict_get "raw_value" o5 = Some (StrV rv)) as Hrv5.
  { unfold o5. rewrite dict_get_set, decide_False by done. unfold o4. rewrite record_blockers_get by done. unfold o3. rewrite dict_get_set, decide_False, Ho2 by done.
    unfold o1. by rewrite dict_get_set. }
  assert (short o5) as Hshort5.
  { intros k Hk. apply elem_of_cons in Hk as [->|Hk]; [rewrite (get_of _ _ _ Hrv5), <- Hrawv; apply Hshort; left|].
    unfold get. rewrite Ho5; [apply Hshort; by right|]. intros Hin.
    assert (Forall (.∉ ["schema_version"; "raw_value"; "period"; "dimensions"; "qualifiers"; NORMALIZER_BLOCKERS_KEY]%string) AMOUNT_KEYS) as Hall by in_keys.
    exact (proj1 (Forall_forall _ _) Hall k Hk Hin). }
  destruct (kind_settles _ _ _ Hnk Hkind Hshort5 Hrec5) as (Hsk & Hrec6 & Ho6).
  assert (∀ k, k ∉ KIND_KEYS → k ≠ "_normalizer_version"%string → dict_get k out = dict_get k o5) as Hout.
  { intros k Hk ?. unfold out. rewrite dict_get_set, decide_False by done. by apply Ho6. }
  assert (∀ k, k ∈ KIND_KEYS ++ ["shape"; "category"]%string → dict_get k o6 = dict_get k out) as Hout6.
  { intros k Hk. unfold out. rewrite dict_get_set, decide_False; [done|]. intros <-. revert Hk. in_keys. }
  assert (dict_get "schema_version" out = Some (StrV "extraction-payload/v1")) as G1.
  { rewrite Hout by (in_keys || done). unfold o5. rewrite dict_get_set, decide_False by done. unfold o4. rewrite record_blockers_get by done.
    unfold o3. rewrite dict_get_set, decide_False, Ho2 by done. unfold o1, o0. by rewrite !dict_get_set. }
  assert (get "kind" out = kind) as G2 by (unfold get, kind, o0, get; rewrite Hout by (in_keys || done); rewrite Ho5 by in_keys; by rewrite dict_get_set).
  assert (dict_get "raw_value" out = Some (StrV rv)) as G3 by (rewrite Hout by (in_keys || done); exact Hrv5).
  assert (dict_get "dimensions" out = Some (DictV dims)) as G4.
  { rewrite Hout by (in_keys || done). unfold o5. rewrite dict_get_set, decide_False by done. unfold o4. rewrite record_blockers_get by done. unfold o3. by rewrite dict_get_set. }
  assert (dict_get "qualifiers" out = Some (DictV quals)) as G5 by (rewrite Hout by (in_keys || done); unfold o5; by rewrite dict_get_set).
  assert (dict_get "period" out = dict_get "period" o2) as G6.
  { rewrite Hout by (in_keys || done). unfold o5. rewrite dict_get_set, decide_False by done. unfold o4. rewrite record_blockers_get by done. unfold o3. by rewrite dict_get_set. }
  assert (recorded out) as Hrec by (eapply recorded_ext; [|exact Hrec6]; apply Hout6; in_keys).
  assert ((if has "period" out then p ← normalize_period (get "period" out); Ok (dict_set "period" (DictV p) out) else Ok out) = Ok out) as Hper.
  { unfold has, get. rewrite G6. case_bool_decide as Hsome; [|done]. destruct (has "period" o1) eqn:Hhas.
    - apply bind_Ok in Hperiod as (p & Hp & [= <-]). rewrite dict_get_set, decide_True by done. cbn [default from_option id]. rewrite (period_settles _ _ Hp). cbn [mbind result_bind].
      rewrite dict_set_same; [done|]. rewrite G6. by rewrite dict_get_set.
    - injection Hperiod as <-. unfold has in Hhas. by rewrite bool_decide_eq_false in Hhas. }
  unfold Normalize.normalize_one. cbv zeta. rewrite (dict_set_same _ _ _ G1), G2, Hkind. cbn [mbind result_bind ensure]. rewrite (get_of _ _ _ G3). cbn [mbind result_bind ensure].
  rewrite (dict_set_same _ _ _ G3). rewrite Hper. cbn [mbind result_bind]. rewrite (get_of _ _ _ G4), (dimensions_settle _ _ _ Hdims). cbn [mbind result_bind].
  rewrite (dict_set_same _ _ _ G4), record_blockers_same by (done || (intros b Hb; by apply not_elem_of_nil in Hb)).
  rewrite (get_of _ _ _ G5), (qualifiers_settle _ _ Hquals). cbn [mbind result_bind]. rewrite (dict_set_same _ _ _ G5).
  rewrite (settled_kind_normal kind out); [|eapply settled_kind_ext; [exact Hout6|exact Hsk]|done]. cbn [mbind result_bind].
  rewrite dict_set_same; [done|]. unfold out. by rewrite dict_get_set.
Qed.
End settled.

(** * Amounts *)

(** the scale hint the numbers of a payload are read with *)
Definition hint_of (p : payload) : option Z := match scale_blockers (get "scale" p) with [] => int_or_none (get "scale" p) | _ => None end.

(** [text] reads as the number [w], of no scale of its own *)
Definition reads_as (p : payload) (key : string) (w : decimal) : Prop :=
  ∃ text, dict_get key p = Some (StrV text) ∧ parse_numeric text = Ok (w, 0, sign_text w).

(** the size of a mantissa and its scale *)
Definition amount (m : decimal * Z) : Q := dq m.1 * q10 m.2.

Lemma read_field_ext p p' single hint key :
  get key p = get key p' → get "raw_value" p = get "raw_value" p' → read_field p single hint key = read_field p' single hint key.
Proof. intros Hk Hr. unfold read_field. by rewrite Hk, Hr. Qed.

Lemma write_then_read items p p' :
  foldM write_field p items = Ok p' → NoDup items.*1 → Forall moderate items.*2 →
  ∃ ws, Forall2 (reads_as p') items.*1 ws ∧ Forall2 deq ws items.*2.
Proof.
  intros H Hnd Hmod. destruct (write_fields _ _ _ H Hnd) as [Hin _]. clear H Hnd.
  induction items as [|[k m] items IH]; [exists []; split; constructor|].
  rewrite !fmap_cons in *. apply Forall_cons in Hmod as [Hm Hmod]. destruct IH as (ws & H1 & H2); [done|intros k' m' ?; apply Hin; by right|].
  destruct (Hin k m (list_elem_of_here _ _)) as (s & Hs & Hg). destruct (moderate_written m Hm) as (s' & w & Hs' & Hp & _ & Hd).
  rewrite Hs in Hs'. injection Hs' as <-. exists (w :: ws). split; constructor; try done. by exists s.
Qed.

Lemma Forall2_deq_app {A} (R : decimal → A → Prop) ws ds l :
  (∀ w d a, deq w d → R d a → R w a) → Forall2 deq ws ds → Forall2 R ds l → Forall2 R ws l.
Proof.
  intros HR H. revert l. induction H as [|w d ws ds Hd _ IH]; intros l Hl; inversion Hl; subst; constructor; eauto.
Qed.

Lemma Forall2_in {A B} (R S : A → B → Prop) l k :
  (∀ x y, x ∈ l → R x y → S x y) → Forall2 R l k → Forall2 S l k.
Proof.
  intros HRS H. induction H as [|x y l k Hxy _ IH]; constructor; [apply HRS; [left|done]|]. apply IH. intros x' y' Hx. apply HRS. by right.
Qed.

Lemma Forall2_zip_deq (keys : list string) ws ds :
  Forall2 deq ws ds → Forall2 (λ a b : string * decimal, a.1 = b.1 ∧ deq a.2 b.2) (zip keys ws) (zip keys ds).
Proof. intros H. revert keys. induction H; intros [|k keys]; cbn; constructor; auto. Qed.

Lemma q10_shift a b : (q10 a == q10 (a - b) * q10 b)%Q.
Proof. rewrite <- q10_add. by replace (a - b + b) with a by lia. Qed.

(** the amounts of a low and a high bound that were written the wrong way round *)
Definition wrong_way (keys : list string) (ms : list (decimal * Z)) : Prop :=
  keys = ["low"; "high"]%string ∧ ∃ low high, ms = [low; high] ∧ (amount high < amount low)%Q ∧ (amount low < 0)%Q.

(** the order the amounts are written in: only such bounds change places *)
Definition in_order (keys : list string) (ms l : list (decimal * Z)) : Prop :=
  (wrong_way keys ms ∧ l = reverse ms) ∨ (¬ wrong_way keys ms ∧ l = ms).

Definition sign_word (q : Q) : string := match (q ?= 0)%Q with Gt => "positive" | Lt => "negative" | Eq => "zero" end.

Lemma sign_word_of m common : sign_text m = sign_word (amount (m, common)).
Proof.
  unfold sign_word, amount, sign_text. cbn [fst snd]. pose proof (q10_pos common) as Hq.
  assert (∀ a b, (a < b)%Q → (a * q10 common < b * q10 common)%Q) as Hmul by (intros a b Hab; by apply Qmult_lt_compat_r).
  pose proof (Hmul 0%Q (dq m)) as Hpos. pose proof (Hmul (dq m) 0%Q) as Hneg. rewrite !Qmult_0_l in Hpos, Hneg.
  assert (dq dec_zero == 0)%Q as Hz0 by apply dq_zero.
  assert (dec_ltb dec_zero m = true ↔ (0 < dq m)%Q) as H1 by (by rewrite dec_ltb_spec, Hz0). assert (dec_ltb m dec_zero = true ↔ (dq m < 0)%Q) as H2 by (by rewrite dec_ltb_spec, Hz0).
  destruct (Qcompare_spec (dq m) 0) as [H|H|H].
  - assert (dq m * q10 common == 0)%Q as Hz by (rewrite H; ring). rewrite (proj1 (Qeq_alt _ _) Hz).
    destruct (dec_ltb dec_zero m); [|destruct (dec_ltb m dec_zero); [|done]]; exfalso; [apply (Qlt_irrefl 0); rewrite <- H at 2; by apply H1|apply (Qlt_irrefl 0); rewrite <- H at 1; by apply H2].
  - rewrite (proj1 (Qlt_alt _ _) (Hneg H)). destruct (dec_ltb dec_zero m); [exfalso; apply (Qlt_irrefl 0), (Qlt_trans _ (dq m)); [by apply H1|done]|]. by rewrite (proj2 H2 H).
  - rewrite (proj1 (Qgt_alt _ _) (Hpos H)). by rewrite (proj2 H1 H).
Qed.

(** the restated bounds are inverted exactly when the amounts are *)
Lemma inverted_amounts (restated : list (string * decimal)) (ms : list (decimal * Z)) common :
  Forall2 (λ d (m : decimal * Z), common ≤ m.2 ∧ (dq d == dq m.1 * q10 (m.2 - common))%Q) restated.*2 ms → inverted restated = true ↔ wrong_way restated.*1 ms.
Proof.
  intros H. assert (∀ d (m : decimal * Z), (dq d == dq m.1 * q10 (m.2 - common))%Q → (amount m == dq d * q10 common)%Q) as Hamt.
  { intros d m Hd. unfold amount. rewrite Hd, <- Qmult_assoc, <- q10_shift. reflexivity. }
  pose proof (q10_pos common) as Hq. split.
  - destruct restated as [|[kl a] [|[kh b] [|? ?]]]; try done. cbn [inverted]. intros Hi. apply andb_true_iff in Hi as [Hi Ha]. apply andb_true_iff in Hi as [Hk Hba].
    apply bool_decide_eq_true in Hk as [-> ->]. apply dec_ltb_spec in Hba, Ha. cbn in H. inversion H as [|? x ? l1 [_ Hx] H1]; subst. inversion H1 as [|? y ? l2 [_ Hy] H2]; subst. inversion H2; subst.
    split; [done|]. exists x, y. split; [done|]. rewrite (Hamt a x Hx), (Hamt b y Hy). rewrite (dq_zero false 0) in Ha. split; [by apply Qmult_lt_compat_r|].
    rewrite <- (Qmult_0_l (q10 common)). by apply Qmult_lt_compat_r.
  - intros (Hk & x & y & -> & Hyx & Hx). destruct restated as [|[kl a] [|[kh b] [|? ?]]]; try done. cbn in Hk, H. injection Hk as -> ->.
    inversion H as [|? ? ? ? [_ Hax] H1]; subst. inversion H1 as [|? ? ? ? [_ Hby] _]; subst. rewrite (Hamt a x Hax), (Hamt b y Hby) in *. cbn [inverted].
    rewrite bool_decide_true by done. apply Qmult_lt_r in Hyx; [|done]. rewrite <- (Qmult_0_l (q10 common)) in Hx. apply Qmult_lt_r in Hx; [|done].
    apply andb_true_iff. split; [apply andb_true_iff; split; [done|]|]; apply dec_ltb_spec; [done|]. by rewrite (dq_zero false 0).
Qed.

Section amounts.
Context (currency_codes : list string).

(** What [normalize_numeric_fields] does with the numbers: in terms of the
    updates it performs one after the other. *)
Lemma numeric_updates keys p p' :
  normalize_numeric_fields currency_codes p keys = Ok p' →
  ∃ p2 ms restated common p3,
    (∀ k, k ≠ "unit"%string → k ≠ "currency"%string → dict_get k p2 = dict_get k p) ∧
    mapM (read_item p2 (length keys =? 1)%nat (hint_of p)) keys = Ok ms ∧
    reconcile_scale ms = Ok (restated, common) ∧
    foldM write_field p2 (orient restated) = Ok p3 ∧
    (∀ k, k ≠ "sign"%string → k ≠ "scale"%string → k ≠ NORMALIZER_BLOCKERS_KEY → dict_get k p' = dict_get k p3) ∧
    (scale_blockers (get "scale" p) = [] → dict_get "scale" p' = Some (IntV common)) ∧
    dict_get "sign" p' = Some (StrV (sign_text (primary_of (orient restated)))).
Proof.
  unfold normalize_numeric_fields. intros H.
  destruct (get "unit" p) as [| | | |unit| |] eqn:Hunit; try done. case_bool_decide; [done|].
  apply bind_Ok in H as ([cur cb] & Hcur & H). set (o1 := dict_set "unit" _ p) in *. set (o2 := match cur with Some c => _ | None => o1 end) in *.
  assert (∀ k, k ≠ "unit"%string → k ≠ "currency"%string → dict_get k o2 = dict_get k p) as Ho2.
  { intros k H1 H2. unfold o2, o1. destruct cur; by rewrite !dict_get_set, !decide_False. }
  assert (get "scale" o2 = get "scale" p) as Hsc by (unfold get; by rewrite Ho2). rewrite Hsc in H. fold (hint_of p) in H.
  apply bind_Ok in H as (ms & Hms & H). apply bind_Ok in H as ([restated common] & Hrec & H). apply bind_Ok in H as (o3 & Hwrite & H).
  apply bind_Ok in H as ([o5 sb] & Hsign & [= <-]). unfold resolve_sign in Hsign. apply bind_Ok in Hsign as (known & _ & [= <- _]).
  exists o2, ms, restated, common, o3. split; [done|]. split; [done|]. split; [done|]. split; [done|].
  set (o4 := match scale_blockers (get "scale" p) with [] => _ | _ => _ end) in *. split; [|split].
  - intros k ? ? ?. rewrite record_blockers_get, dict_get_set, decide_False by done. unfold o4. destruct (scale_blockers _); [|done].
    by rewrite dict_get_set, decide_False.
  - intros Hb. rewrite record_blockers_get, dict_get_set, decide_False by done. unfold o4. rewrite Hb. by rewrite dict_get_set.
  - rewrite record_blockers_get by done. by rewrite dict_get_set.
Qed.

(** C17: Scale reconciliation changes no amount: with the numbers read from the
    fields [keys] under the payload's scale hint, the fields written read back,
    under the one scale written, as the same amounts in the same order.  Only the
    bounds of a range whose high bound is below a negative low bound change places,
    and they always do; any other inverted range is kept as it was written.  The sign
    written is that of the first amount written. *)
Theorem normalization_keeps_amounts (keys : list string) (p p' : payload) :
  normalize_numeric_fields currency_codes p keys = Ok p' → short p → NoDup keys → keys ≠ [] → keys ⊆ AMOUNT_KEYS →
  ∃ (ms : list (decimal * Z)) (ws : list decimal) (common : Z) (l : list (decimal * Z)),
    Forall2 (λ key m, read_field p (length keys =? 1)%nat (hint_of p) key = Ok m) keys ms ∧
    Forall2 (reads_as p') keys ws ∧
    (scale_blockers (get "scale" p) = [] → dict_get "scale" p' = Some (IntV common)) ∧
    0 ≤ common ≤ 12 ∧
    Forall2 (λ w m, amount (w, common) == amount m)%Q ws l ∧
    in_order keys ms l ∧
    ∃ first, head l = Some first ∧ dict_get "sign" p' = Some (StrV (sign_word (amount first))).
Proof.
  intros H Hshort Hnd Hne Hkeys. destruct (numeric_updates _ _ _ H) as (p2 & ms & restated & common & p3 & Hp2 & Hms & Hrec & Hwrite & Hp' & Hscale & Hsign).
  assert (Forall (λ k, k ≠ "unit" ∧ k ≠ "currency" ∧ k ≠ "sign" ∧ k ≠ "scale" ∧ k ≠ NORMALIZER_BLOCKERS_KEY)%string ("raw_value"%string :: AMOUNT_KEYS)) as Hfar
    by (apply (bool_decide_unpack _); vm_compute; exact I). rewrite Forall_forall in Hfar.
  assert (∀ k, k ∈ "raw_value"%string :: AMOUNT_KEYS → get k p2 = get k p) as Hget by (intros k (? & ? & _)%Hfar; unfold get; by rewrite Hp2).
  assert (∀ k, k ∈ keys → k ∈ "raw_value"%string :: AMOUNT_KEYS) as Hin by (intros k Hk; right; by apply Hkeys).
  destruct (restated_amounts _ _ _ _ _ _ _ Hms Hrec Hne) as (Hrk & Hrm & Hcommon & Hread & Hamt).
  { rewrite Hget by left. apply Hshort; left. }
  { intros k Hk. rewrite Hget by auto. auto. }
  { by apply hint_ok_of. }
  destruct (orient_spec restated) as (_ & Hok & Hop). set (r := orient restated) in *.
  destruct (write_then_read _ _ _ Hwrite) as (ws & Hws & Hdeq); [by rewrite Hok, Hrk|by rewrite Hop|].
  rewrite Hok, Hrk in Hws.
  assert (∃ l, in_order keys ms.*2 l ∧ Forall2 (λ d (m : decimal * Z), common ≤ m.2 ∧ (dq d == dq m.1 * q10 (m.2 - common))%Q) r.*2 l) as (l & Hl & Hlr).
  { apply Forall2_flip in Hamt. pose proof (inverted_amounts restated ms.*2 common Hamt) as Hinv. rewrite Hrk in Hinv. unfold r. clear -Hamt Hinv. revert Hamt Hinv. generalize (ms.*2). intros ms0 Hamt Hinv. destruct (inverted restated) eqn:Hi.
    - exists (reverse ms0). split; [left; split; [by apply Hinv|done]|]. destruct restated as [|[kl a] [|[kh b] [|? ?]]]; try done. cbn [inverted orient] in *. rewrite Hi.
      cbn [fmap list_fmap snd] in *. inversion Hamt as [|? x ? l1 Hx H1]; subst. inversion H1 as [|? y ? l2 Hy H2]; subst. inversion H2; subst. change (reverse [x; y]) with [y; x].
      apply Forall2_cons_2; [exact Hy|]. apply Forall2_cons_2; [exact Hx|apply Forall2_nil_2].
    - exists ms0. rewrite orient_same by done. split; [right; split; [|done]|done]. intros Hw. by apply Hinv in Hw. }
  assert (Forall2 (λ w m, amount (w, common) == amount m)%Q ws l) as Hwl.
  { eapply Forall2_impl; [eapply Forall2_deq_app; [|exact Hdeq|exact Hlr]|].
    - intros w d m Hd [? Hdm]. split; [done|]. unfold deq in Hd. by rewrite Hd.
    - intros w m [_ Hdm]. unfold amount. cbn [fst snd]. rewrite Hdm, <- Qmult_assoc, <- q10_shift. reflexivity. }
  exists (ms.*2), ws, common, l. split; [|split; [|split; [done|split; [done|split; [done|split; [done|]]]]]].
  - eapply Forall2_in; [|exact Hread]. intros k m Hk Hm. cbn in Hm. rewrite (read_field_ext p2 p) in Hm by (apply Hget; auto using list_elem_of_here). done.
  - eapply Forall2_in; [|exact Hws]. intros k w (_ & _ & ? & ? & ?)%Hin%Hfar (text & Ht & Hp). exists text. by rewrite Hp'.
  - destruct keys as [|k0 keys0]; [done|]. inversion Hws as [|? w0 ? ws0 _ _]; subst. inversion Hwl as [|? m0 ? l0 Hm0 _]; subst. exists m0. split; [done|].
    rewrite Hsign. do 2 f_equal. destruct r as [|[k1 d1] r1]; [inversion Hdeq|]. cbn [fmap list_fmap snd] in Hdeq. inversion Hdeq as [|? ? ? ? Hd0 _]; subst. cbn.
    rewrite <- (sign_text_deq _ _ Hd0), (sign_word_of w0 common). unfold sign_word. by rewrite Hm0.
Qed.
End amounts.

(** C18: Normalization settles a payload in one pass: when a payload whose numbers
    have at most 28 digits is accepted, normalizing the result again accepts it
    and changes nothing: no key, no order of keys, no amount and no blocker. *)
Theorem normalize_idempotent (currency_codes : list string) (raw out : payload) :
  normalize_one currency_codes raw = Ok out → short raw → normalize_one currency_codes out = Ok out.
Proof. intros H Hs. by apply (normalize_settled _ raw). Qed.

Definition guidance_example : payload :=
  [("kind", StrV "guidance"); ("raw_value", StrV "($2.5 billion) to ($3,000 million)"); ("shape", StrV "range");
   ("low", StrV "($2.5bn)"); ("high", StrV "-3,000 M"); ("unit", StrV " USD ");
   ("period", DictV [("type", StrV "duration"); ("end", StrV " 2024-12-31"); ("start", StrV "20240101"); ("fiscal_period", StrV " ")]);
   ("dimensions", DictV [("segment", StrV "Cloud"); ("region", NoneV)]); ("_normalizer_version", StrV "x")]%string.

Lemma short_by (p : payload) :
  forallb (λ k, match get k p with StrV s => bool_decide (length (digits_of (chars s)) ≤ 28)%nat | IntV z => Z.abs z <? 10 ^ 28 | _ => true end)
    ("raw_value" :: AMOUNT_KEYS)%string = true → short p.
Proof.
  intros H k Hk. rewrite forallb_forall in H. specialize (H k (proj1 (list_elem_of_In _ _) Hk)). unfold short_text.
  destruct (get k p); try done; [by apply Z.ltb_lt|by apply bool_decide_eq_true in H].
Qed.

Definition guidance_settled : payload := match normalize_one ["USD"]%string guidance_example with Ok out => out | Err _ => [] end.

Lemma normalize_idempotent_witness :
  (get "low" guidance_settled, get "high" guidance_settled, get "scale" guidance_settled) = (StrV "-3000", StrV "-2500", IntV 6) ∧
  normalize_one ["USD"]%string guidance_settled = Ok guidance_settled.
Proof. split; [vm_compute; reflexivity|]. apply (normalize_idempotent _ guidance_example); [vm_compute; reflexivity|]. apply short_by. vm_compute. reflexivity. Defined.

Definition guidance_fields : payload := match normalize_numeric_fields ["USD"]%string guidance_example ["low"; "high"]%string with Ok out => out | Err _ => [] end.

Lemma normalization_keeps_amounts_witness :
  ∃ ms ws common l,
    Forall2 (λ key m, read_field guidance_example false (hint_of guidance_example) key = Ok m) ["low"; "high"]%string ms ∧
    Forall2 (reads_as guidance_fields) ["low"; "high"]%string ws ∧ 0 ≤ common ≤ 12 ∧
    Forall2 (λ w m, amount (w, common) == amount m)%Q ws l ∧ in_order ["low"; "high"]%string ms l.
Proof.
  destruct (normalization_keeps_amounts ["USD"]%string ["low"; "high"]%string guidance_example guidance_fields) as (ms & ws & common & l & ? & ? & _ & ? & ? & ? & _).
  - vm_compute. reflexivity.
  - apply short_by. vm_compute. reflexivity.
  - apply (bool_decide_unpack _). vm_compute. exact I.
  - discriminate.
  - intros k Hk. by right.
  - exists ms, ws, common, l. auto.
Defined.
