(* ===== verification/Ontology.v ===== *)
(** [packages/ontology/fel_ontology]: the typed metric ontology (models.py), the
    validation that loads it from a JSON document (loader.py) and comparability
    keys (comparability.py).

    The bytes of the document and [json.loads] are the caller's: [load_saas_metrics]
    takes the raw text, which it hashes, and the value it decodes to, or the text
    of the decoding error.  [OntologyLoadError] is a [ValueError]. *)

From S2P Require Import Prelude Dicts Text Periods Canonical Payload.
Local Open Scope Z_scope.

(** * Models *)

Record family := Family { fam_id : string; fam_name : string; metric_ids : list string }.

Record metric_def := MetricDef {
  m_id : string; canonical_name : string; family_id : string; m_kind : string; value_type : string; m_unit : string;
  period_semantics : string; scale_handling : string; aliases : list string; required_qualifiers : list string;
  comparability_key_fields : list string; derivation_policy : string; review_policy : string; notes : string;
}.

Record ontology_document := OntologyDocument {
  limitations : list string; families : list family; metrics : list metric_def; doc_hash : string;
}.

Notation ontology := (list metric_def).

(** [OntologyDocument.metric], with [None] for [KeyError] *)
Fixpoint metric (o : ontology) (id : string) : option metric_def :=
  match o with [] => None | m :: o' => if decide (m_id m = id) then Some m else metric o' id end.

(** * Loading *)

Definition METRIC_KINDS : list string := ["point_in_time_snapshot"; "ratio"; "flow"; "balance"; "derived"]%string.
Definition VALUE_TYPES : list string := ["currency"; "currency_derived"; "ratio_pct"; "count"]%string.
Definition PERIOD_SEMANTICS : list string := ["instant"; "duration"; "trailing_window"]%string.
Definition EXPECTED_METRIC_IDS : list string :=
  ["arr"; "mrr"; "nrr"; "grr"; "cust_total"; "cust_threshold"; "seats"; "bookings"; "billings"; "rpo"; "crpo"; "deferred_rev"; "sub_gm"; "svc_gm"]%string.
Definition EXPECTED_FAMILY_COUNT : nat := 9.

Definition load_error {A} (message : string) : checked A := Err (ValueError message).

Definition text_of (v : value) : option string := match v with StrV s => Some s | _ => None end.

(** a non-empty text *)
Definition text_item (v : value) : option string := match v with StrV s => if bool_decide (s = ""%string) then None else Some s | _ => None end.

Definition require_str_list (obj : list (string * value)) (key : string) : checked (list string) :=
  let message := ("metric/family field " +:+ repr_str key +:+ " must be a non-empty string list")%string in
  match get key obj with
  | ListV ((_ :: _) as l) => from_option_err (ValueError message) (mapM text_item l)
  | _ => load_error message
  end.

Definition require_choice (metric_id : string) (obj : list (string * value)) (key : string) (allowed : list string) : checked string :=
  match get key obj with
  | StrV s => if bool_decide (s ∈ allowed) then Ok s else load_error ("metric " +:+ metric_id +:+ " field " +:+ repr_str key +:+ " must be one of "
      +:+ repr (ListV (map StrV (sorted_strings allowed))) +:+ ", got " +:+ repr (StrV s))
  | v => load_error ("metric " +:+ metric_id +:+ " field " +:+ repr_str key +:+ " must be one of "
      +:+ repr (ListV (map StrV (sorted_strings allowed))) +:+ ", got " +:+ repr v)
  end.

Definition REQUIRED_TEXTS : list string :=
  ["canonical_name"; "kind"; "value_type"; "unit"; "period_semantics"; "scale_handling"; "derivation_policy"; "review_policy"]%string.

(** one family, after the families read before it *)
Definition load_family (seen : list family) (fam : value) : checked (list family) :=
  match fam with
  | DictV items =>
      match get "id" items, get "name" items with
      | StrV fid, StrV name =>
          ensure (negb (bool_decide (fid ∈ fam_id <$> seen))) (ValueError ("duplicate family id: " +:+ fid));;
          ids ← require_str_list items "metric_ids";
          Ok (seen ++ [Family fid name ids])
      | _, _ => load_error "family id/name must be strings"
      end
  | _ => load_error "family entries must be objects"
  end.

Definition require_text (mid : string) (items : list (string * value)) (key : string) : checked unit :=
  ensure (match get key items with StrV s => negb (bool_decide (s = ""%string)) | _ => false end)
    (ValueError ("metric " +:+ mid +:+ " missing string field " +:+ key)).

(** one metric, after the metrics read before it *)
Definition load_metric (family_ids : list string) (seen : list metric_def) (m : value) : checked (list metric_def) :=
  match m with
  | DictV items =>
      match get "id" items with
      | StrV mid =>
          ensure (negb (bool_decide (mid ∈ m_id <$> seen))) (ValueError ("duplicate metric id: " +:+ mid));;
          let fid := get "family_id" items in
          known ← in_set fid family_ids;
          ensure known (ValueError ("metric " +:+ mid +:+ " references unknown family " +:+ repr fid));;
          for_each (require_text mid items) REQUIRED_TEXTS;;
          kind ← require_choice mid items "kind" METRIC_KINDS;
          vtype ← require_choice mid items "value_type" VALUE_TYPES;
          semantics ← require_choice mid items "period_semantics" PERIOD_SEMANTICS;
          als ← require_str_list items "aliases";
          required ← require_str_list items "required_qualifiers";
          fields ← require_str_list items "comparability_key_fields";
          Ok (seen ++ [MetricDef mid (py_str (get "canonical_name" items)) (py_str fid) kind vtype (py_str (get "unit" items)) semantics
                         (py_str (get "scale_handling" items)) als required fields (py_str (get "derivation_policy" items))
                         (py_str (get "review_policy" items)) (if truth (get "notes" items) then py_str (get "notes" items) else "")])
      | _ => load_error "metric id must be a string"
      end
  | _ => load_error "metric entries must be objects"
  end.

(** [sorted(a - b)] *)
Definition missing_from (a b : list string) : list string := sorted_strings (filter (λ x, x ∉ b) a).

Definition validate_document (raw : string) (data : list (string * value)) : checked ontology_document :=
  ensure (is_str "saas-metrics/v1" (get "schema_version" data)) (ValueError "schema_version must be saas-metrics/v1");;
  ensure (is_str "saas-metrics" (get "ontology_id" data)) (ValueError "ontology_id must be saas-metrics");;
  limits ← match get "limitations" data with
           | ListV l => from_option_err (ValueError "limitations must be a list of strings") (mapM text_of l)
           | _ => load_error "limitations must be a list of strings"
           end;
  match get "families" data, get "metrics" data with
  | ListV families_raw, ListV metrics_raw =>
      ensure (length families_raw =? EXPECTED_FAMILY_COUNT)%nat
        (ValueError ("expected 9 families, got " +:+ str_of_Z (Z.of_nat (length families_raw))));;
      fams ← foldM load_family [] families_raw;
      mets ← foldM (load_metric (fam_id <$> fams)) [] metrics_raw;
      let ids := m_id <$> mets in
      ensure (bool_decide (Forall (.∈ EXPECTED_METRIC_IDS) ids ∧ Forall (.∈ ids) EXPECTED_METRIC_IDS))
        (ValueError ("metric id set mismatch; missing=" +:+ repr (ListV (map StrV (missing_from EXPECTED_METRIC_IDS ids)))
           +:+ " extra=" +:+ repr (ListV (map StrV (missing_from ids EXPECTED_METRIC_IDS)))));;
      let claimed := concat (metric_ids <$> fams) in
      ensure (bool_decide (sorted_strings claimed = sorted_strings ids)) (ValueError "family metric_ids must partition the metric set");;
      Ok (OntologyDocument limits fams mets (sha256_hex raw))
  | _, _ => load_error "families and metrics must be arrays"
  end.

(** [data]: what [json.loads] makes of [raw], or the text of its error *)
Definition load_saas_metrics (raw : string) (data : result string value) : checked ontology_document :=
  match data with
  | Err message => load_error ("invalid JSON: " +:+ message)
  | Ok (DictV items) => validate_document raw items
  | Ok _ => load_error "ontology root must be an object"
  end.

(** * Comparability *)

Notation qualifiers := (list (string * string)).

Definition key_part (m : metric_def) (quals : qualifiers) (field : string) : checked string :=
  if bool_decide (field = "metric_id"%string) then Ok ("metric_id=" +:+ m_id m)%string
  else match dict_get field quals with
       | Some v => if bool_decide (strip v = ""%string) then Err (KeyError (repr_str ("missing required qualifier for comparability: " +:+ field)))
                   else Ok (field +:+ "=" +:+ strip v)%string
       | None => Err (KeyError (repr_str ("missing required qualifier for comparability: " +:+ field)))
       end.

Definition build_comparability_key (m : metric_def) (quals : qualifiers) : checked string :=
  parts ← mapM (key_part m quals) (comparability_key_fields m); Ok (join "|" parts).

Definition metrics_comparable (left : metric_def) (left_qualifiers : qualifiers) (right : metric_def) (right_qualifiers : qualifiers) : checked bool :=
  l ← build_comparability_key left left_qualifiers;
  r ← build_comparability_key right right_qualifiers;
  Ok (bool_decide (l = r)).

(** * Loaded ontologies *)

Definition metric_ok (family_ids : list string) (m : metric_def) : Prop :=
  family_id m ∈ family_ids ∧ m_kind m ∈ METRIC_KINDS ∧ value_type m ∈ VALUE_TYPES ∧ period_semantics m ∈ PERIOD_SEMANTICS ∧
  comparability_key_fields m ≠ [] ∧ Forall (λ f, f ≠ ""%string) (comparability_key_fields m).

Lemma require_str_list_Ok obj key l : require_str_list obj key = Ok l → l ≠ [] ∧ Forall (λ s, s ≠ ""%string) l.
Proof.
  unfold require_str_list. destruct (get key obj) as [| | | | |[|v vs]|]; try done. intros H%from_option_err_Ok%mapM_Some. split.
  - intros ->. inversion H.
  - clear -H. induction H as [|x y l k Hx _ IH]; constructor; [|done]. unfold text_item in Hx. destruct x; try done. case_bool_decide; [done|]. by injection Hx as <-.
Qed.

Lemma require_choice_Ok mid obj key allowed s : require_choice mid obj key allowed = Ok s → s ∈ allowed.
Proof. unfold require_choice. destruct (get key obj); try done. case_bool_decide; [|done]. by intros [= <-]. Qed.

Lemma load_family_inv fams raw : foldM load_family [] raw = Ok fams → NoDup (fam_id <$> fams) ∧ length fams = length raw.
Proof.
  apply (foldM_inv load_family (λ pre fams, NoDup (fam_id <$> fams) ∧ length fams = length pre)); [split; [constructor|done]|].
  intros pre x st st' _ [Hnd Hlen] H. unfold load_family in H. destruct x as [| | | | | |items]; try done.
  destruct (get "id" items) as [| | | |fid| |]; try done. destruct (get "name" items) as [| | | |name| |]; try done.
  ok_inv. btrue. rewrite fmap_app, !length_app, Hlen. split; [|done]. apply NoDup_app. split; [done|].
  split; [|apply NoDup_singleton]. by intros ? ? ->%list_elem_of_singleton.
Qed.

Lemma load_metric_inv family_ids mets raw :
  foldM (load_metric family_ids) [] raw = Ok mets → NoDup (m_id <$> mets) ∧ Forall (metric_ok family_ids) mets.
Proof.
  apply (foldM_inv (load_metric family_ids) (λ _ mets, NoDup (m_id <$> mets) ∧ Forall (metric_ok family_ids) mets)); [split; constructor|].
  intros pre x st st' _ [Hnd Hok] H. unfold load_metric in H. destruct x as [| | | | | |items]; try done.
  destruct (get "id" items) as [| | | |mid| |]; try done. ok_inv. btrue. subst.
  rewrite fmap_app. split.
  - apply NoDup_app. split; [done|]. split; [|apply NoDup_singleton]. by intros ? ? ->%list_elem_of_singleton.
  - apply Forall_app. split; [done|]. apply Forall_singleton. unfold metric_ok. cbn [family_id m_kind value_type period_semantics comparability_key_fields].
    repeat match goal with H : require_choice _ _ _ _ = Ok _ |- _ => apply require_choice_Ok in H end.
    match goal with H : require_str_list _ "comparability_key_fields" = Ok _ |- _ => apply require_str_list_Ok in H as [? ?] end.
    repeat split; try done. match goal with H : in_set ?v _ = Ok true |- _ => unfold in_set in H; destruct v; try done end.
    cbn [hashable] in *. ok_inv. by btrue.
Qed.

Lemma metric_elem o id m : NoDup (m_id <$> o) → metric o id = Some m ↔ m ∈ o ∧ m_id m = id.
Proof.
  induction o as [|m0 o IH]; cbn [metric fmap list_fmap]; [intros _; split; [done|intros [H _]; by apply not_elem_of_nil in H]|].
  intros [Hm0 Hnd]%NoDup_cons. rewrite elem_of_cons. case_decide as Hid.
  - split; [intros [= ->]; auto|]. intros [[->|Hm] Hm']; [done|]. destruct Hm0. rewrite Hid, <- Hm'. by apply list_elem_of_fmap_2.
  - rewrite IH by done. split; [tauto|]. intros [[->|?] ?]; [done|auto].
Qed.

(** A document that loads has nine families of distinct ids and one metric for
    each expected id and no other, every metric names a loaded family, takes its
    kind, value type and period semantics from the declared vocabularies and has
    comparability fields, none of them empty, and the families' lists name every
    metric exactly once. *)
Theorem load_saas_metrics_sound (raw : string) (data : result string value) (o : ontology_document) :
  load_saas_metrics raw data = Ok o →
  NoDup (fam_id <$> families o) ∧ length (families o) = 9%nat ∧
  NoDup (m_id <$> metrics o) ∧ Forall (metric_ok (fam_id <$> families o)) (metrics o) ∧
  (∀ id, (∃ m, metric (metrics o) id = Some m ∧ m_id m = id) ↔ id ∈ EXPECTED_METRIC_IDS) ∧
  concat (metric_ids <$> families o) ≡ₚ m_id <$> metrics o.
Proof.
  unfold load_saas_metrics. destruct data as [[| | | | | |items]|]; try done. unfold validate_document. intros H.
  apply bind_Ok in H as (_ & _ & H). apply bind_Ok in H as (_ & _ & H). apply bind_Ok in H as (limits & _ & H).
  destruct (get "families" items) as [| | | | |fraw|]; try done. destruct (get "metrics" items) as [| | | | |mraw|]; try done.
  ok_inv. cbn [families metrics]. btrue.
  repeat match goal with H : foldM load_family _ _ = _ |- _ => apply load_family_inv in H as [? Hflen]
    | H : foldM (load_metric _) _ _ = _ |- _ => apply load_metric_inv in H as [Hmnd ?] end.
  match goal with H : (_ =? _)%nat = true |- _ => apply Nat.eqb_eq in H; rename H into Hcount end.
  match goal with H : Forall _ _ ∧ Forall _ _ |- _ => destruct H as [Hsub Hsup] end. rewrite !Forall_forall in Hsub, Hsup.
  split; [done|]. split; [by rewrite Hflen|]. split; [done|]. split; [done|]. split.
  - intros id. split.
    + intros (m & Hm & <-). apply Hsub. apply metric_elem in Hm as [Hm _]; [|done]. by apply list_elem_of_fmap_2.
    + intros (m & -> & Hm)%Hsup%list_elem_of_fmap. exists m. split; [|done]. by apply metric_elem.
  - match goal with H : sorted_strings _ = _ |- _ => rewrite <- (sorted_strings_perm (concat _)), H; apply sorted_strings_perm end.
Qed.

(** * Comparable facts *)

Definition no_pipe (s : string) : Prop := "|"%char ∉ chars s.
#[export] Instance no_pipe_dec s : Decision (no_pipe s).
Proof. unfold no_pipe. apply _. Defined.

(** the texts a key is made of hold no separator *)
Definition separable (m : metric_def) (quals : qualifiers) : Prop :=
  no_pipe (m_id m) ∧ ∀ f, f ∈ comparability_key_fields m → no_pipe f ∧ ∀ v, dict_get f quals = Some v → no_pipe (strip v).

Lemma append_inj_l (a s t : string) : (a +:+ s = a +:+ t)%string → s = t.
Proof. induction a as [|c a IH]; [done|]. intros [= H]. by apply IH. Qed.

Lemma split_at_pipe (a b s t : list ascii) :
  "|"%char ∉ a → "|"%char ∉ b → a ++ "|"%char :: s = b ++ "|"%char :: t → a = b ∧ s = t.
Proof.
  revert b. induction a as [|c a IH]; intros [|d b] Ha Hb H; cbn in H.
  - by injection H as <-.
  - injection H as <- _. destruct Hb. left.
  - injection H as -> _. destruct Ha. left.
  - injection H as <- H. apply not_elem_of_cons in Ha as [_ Ha], Hb as [_ Hb]. by destruct (IH _ Ha Hb H) as [-> ->].
Qed.

Lemma chars_join s t l : chars (join "|" (s :: t :: l)) = chars s ++ "|"%char :: chars (join "|" (t :: l)).
Proof. change (join "|" (s :: t :: l)) with (s +:+ "|" +:+ join "|" (t :: l))%string. by rewrite !chars_app. Qed.

Lemma join_inj l1 l2 : Forall no_pipe l1 → Forall no_pipe l2 → l1 ≠ [] → l2 ≠ [] → join "|" l1 = join "|" l2 → l1 = l2.
Proof.
  revert l2. induction l1 as [|s l1 IH]; intros [|t l2] H1 H2; try done. intros _ _ H.
  apply Forall_cons in H1 as [Hs H1], H2 as [Ht H2]. destruct l1 as [|s' l1], l2 as [|t' l2].
  - cbn in H. by subst.
  - exfalso. apply Hs. apply (f_equal chars) in H. rewrite chars_join in H. change (join "|" [s]) with s in H. rewrite H. apply elem_of_app. right. left.
  - exfalso. apply Ht. apply (f_equal chars) in H. rewrite chars_join in H. change (join "|" [t]) with t in H. rewrite <- H. apply elem_of_app. right. left.
  - apply (f_equal chars) in H. rewrite !chars_join in H. apply split_at_pipe in H as [Hst%chars_inj H%chars_inj]; [|done|done]. subst.
    f_equal. by apply IH.
Qed.

Lemma no_pipe_app s t : no_pipe (s +:+ t)%string ↔ no_pipe s ∧ no_pipe t.
Proof. unfold no_pipe. rewrite chars_app, elem_of_app. tauto. Qed.

(** the value a key takes for a field *)
Definition key_value (m : metric_def) (quals : qualifiers) (field : string) : string :=
  if bool_decide (field = "metric_id"%string) then m_id m else strip (default ""%string (dict_get field quals)).

Lemma key_part_Ok m quals field part :
  key_part m quals field = Ok part → part = (field +:+ "=" +:+ key_value m quals field)%string.
Proof.
  unfold key_part, key_value. case_bool_decide as Hf; [intros [= <-]; by subst|].
  destruct (dict_get field quals) as [v|]; [|done]. case_bool_decide; [done|]. by intros [= <-].
Qed.

Lemma build_comparability_key_Ok m quals key :
  build_comparability_key m quals = Ok key → separable m quals →
  key = join "|" ((λ f, f +:+ "=" +:+ key_value m quals f)%string <$> comparability_key_fields m) ∧
  Forall no_pipe ((λ f, f +:+ "=" +:+ key_value m quals f)%string <$> comparability_key_fields m).
Proof.
  unfold build_comparability_key. intros (parts & Hp & [= <-])%bind_Ok [Hid Hsep]. apply mapM_Ok in Hp.
  assert (parts = (λ f, f +:+ "=" +:+ key_value m quals f)%string <$> comparability_key_fields m) as ->.
  { clear Hsep. induction Hp as [|f p fs ps Hf _ IH]; [done|]. apply key_part_Ok in Hf. subst. by rewrite fmap_cons. }
  split; [done|]. apply Forall_fmap, Forall_forall. intros f Hf. cbn. destruct (Hsep f Hf) as [Hff Hfv].
  rewrite !no_pipe_app. split; [done|]. split; [unfold no_pipe; cbn; set_solver|]. unfold key_value. case_bool_decide; [done|].
  destruct (dict_get f quals) as [v|]; [by apply Hfv|]. unfold no_pipe. cbn. by apply not_elem_of_nil.
Qed.

(** Over an ontology whose keys all begin with the metric's id, two facts are
    comparable exactly when they are stated for one metric and agree, blanks at
    the ends aside, on every qualifier of its comparability key; texts that hold
    the separator of the key excepted. *)
Theorem metrics_comparable_exact (o : ontology) (l r : metric_def) (lq rq : qualifiers) (b : bool) :
  NoDup (m_id <$> o) → l ∈ o → r ∈ o →
  (∀ m, m ∈ o → head (comparability_key_fields m) = Some "metric_id"%string) →
  separable l lq → separable r rq →
  metrics_comparable l lq r rq = Ok b →
  b = true ↔ l = r ∧ ∀ f, f ∈ comparability_key_fields l → key_value l lq f = key_value r rq f.
Proof.
  intros Hnd Hl Hr Hhead Hls Hrs H. unfold metrics_comparable in H. apply bind_Ok in H as (kl & Hkl & H). apply bind_Ok in H as (kr & Hkr & [= <-]).
  rewrite bool_decide_eq_true. destruct (build_comparability_key_Ok _ _ _ Hkl Hls) as [-> Hlp]. destruct (build_comparability_key_Ok _ _ _ Hkr Hrs) as [-> Hrp].
  pose proof (Hhead l Hl) as Hlh. pose proof (Hhead r Hr) as Hrh. split.
  - intros Heq. apply join_inj in Heq; [|done|done|by destruct (comparability_key_fields l)|by destruct (comparability_key_fields r)].
    assert (l = r) as ->.
    { destruct (comparability_key_fields l) as [|f fs]; [done|]. destruct (comparability_key_fields r) as [|g gs]; [done|]. injection Hlh as ->. injection Hrh as ->.
      rewrite !fmap_cons in Heq. injection Heq as Hid _. cbn in Hid. unfold key_value in Hid. cbn in Hid.
      assert (metric o (m_id r) = Some l) as Hml by (by apply metric_elem). assert (metric o (m_id r) = Some r) as Hmr by (by apply metric_elem). congruence. }
    split; [done|]. clear -Heq. induction (comparability_key_fields r) as [|f fs IH]; intros g Hg; [by apply not_elem_of_nil in Hg|].
    rewrite !fmap_cons in Heq. injection Heq as Hf Hfs. apply elem_of_cons in Hg as [->|Hg]; [|by apply IH]. by apply append_inj_l, append_inj_l in Hf.
  - intros [-> Hv]. f_equal. clear -Hv. induction (comparability_key_fields r) as [|f fs IH]; [done|]. rewrite !fmap_cons. rewrite (Hv f) by left.
    f_equal. apply IH. intros g Hg. apply Hv. by right.
Qed.

(** * The ontology of the package, its prose left out *)

Definition sample_metric (id fam kind vtype semantics : string) (required fields : list string) : value :=
  DictV ([("id", StrV id); ("family_id", StrV fam); ("kind", StrV kind); ("value_type", StrV vtype); ("period_semantics", StrV semantics);
    ("required_qualifiers", ListV (map StrV required)); ("comparability_key_fields", ListV (map StrV fields)); ("aliases", ListV [StrV id])]%string ++
    map (λ k, (k, StrV "-")) ["canonical_name"; "unit"; "scale_handling"; "derivation_policy"; "review_policy"]%string).

Definition sample_document : value :=
  DictV [("schema_version", StrV "saas-metrics/v1"); ("ontology_id", StrV "saas-metrics"); ("limitations", ListV []);
    ("families", ListV (map (λ f : string * list string, DictV [("id", StrV f.1); ("name", StrV f.1); ("metric_ids", ListV (map StrV f.2))]) [("recurring_revenue", ["arr"; "mrr"]); ("retention", ["nrr"; "grr"]); ("customers", ["cust_total"; "cust_threshold"]); ("seats", ["seats"]); ("bookings", ["bookings"]); ("billings", ["billings"]); ("rpo", ["rpo"; "crpo"]); ("deferred_revenue", ["deferred_rev"]); ("margins", ["sub_gm"; "svc_gm"])]));
    ("metrics", ListV [
      sample_metric "arr" "recurring_revenue" "point_in_time_snapshot" "currency" "instant" ["currency"; "construction"; "scope"] ["metric_id"; "currency"; "construction"; "scope"];
      sample_metric "mrr" "recurring_revenue" "point_in_time_snapshot" "currency" "instant" ["currency"; "construction"; "scope"] ["metric_id"; "currency"; "construction"; "scope"];
      sample_metric "nrr" "retention" "ratio" "ratio_pct" "trailing_window" ["base_quantity"; "window"; "population_scope"] ["metric_id"; "base_quantity"; "window"; "population_scope"];
      sample_metric "grr" "retention" "ratio" "ratio_pct" "trailing_window" ["base_quantity"; "window"; "churn_inclusions"] ["metric_id"; "base_quantity"; "window"; "churn_inclusions"];
      sample_metric "cust_total" "customers" "point_in_time_snapshot" "count" "instant" ["customer_definition"] ["metric_id"; "customer_definition"];
      sample_metric "cust_threshold" "customers" "point_in_time_snapshot" "count" "instant" ["threshold_amount"; "threshold_basis"] ["metric_id"; "threshold_amount"; "threshold_basis"];
      sample_metric "seats" "seats" "point_in_time_snapshot" "count" "instant" ["seat_scope"] ["metric_id"; "seat_scope"];
      sample_metric "bookings" "bookings" "flow" "currency" "duration" ["currency"; "definition_present"] ["metric_id"; "currency"; "definition_present"];
      sample_metric "billings" "billings" "flow" "currency_derived" "duration" ["currency"; "formula"] ["metric_id"; "currency"; "formula"];
      sample_metric "rpo" "rpo" "balance" "currency" "instant" ["currency"; "usage_exemption"; "label_family"] ["metric_id"; "currency"; "usage_exemption"; "label_family"];
      sample_metric "crpo" "rpo" "balance" "currency" "instant" ["currency"; "horizon_months"] ["metric_id"; "currency"; "horizon_months"];
      sample_metric "deferred_rev" "deferred_revenue" "balance" "currency" "instant" ["currency"; "current_noncurrent_split"; "tag_family"] ["metric_id"; "currency"; "tag_family"; "current_noncurrent_split"];
      sample_metric "sub_gm" "margins" "derived" "ratio_pct" "duration" ["margin_scope"] ["metric_id"; "margin_scope"];
      sample_metric "svc_gm" "margins" "derived" "ratio_pct" "duration" ["margin_scope"] ["metric_id"; "margin_scope"]])]%string.

Definition sample_ontology : ontology_document :=
  Eval vm_compute in match load_saas_metrics "{}" (Ok sample_document) with Ok o => o | Err _ => OntologyDocument [] [] [] "" end.

Lemma load_saas_metrics_sound_witness :
  concat (metric_ids <$> families sample_ontology) ≡ₚ m_id <$> metrics sample_ontology ∧ length (metrics sample_ontology) = 14%nat.
Proof.
  split; [|vm_compute; reflexivity]. apply (load_saas_metrics_sound "{}" (Ok sample_document)). vm_compute. reflexivity.
Defined.

Lemma separable_by m quals :
  bool_decide (no_pipe (m_id m)) && forallb (λ f, bool_decide (no_pipe f) && match dict_get f quals with Some v => bool_decide (no_pipe (strip v)) | None => true end)
    (comparability_key_fields m) = true → separable m quals.
Proof.
  rewrite andb_true_iff, bool_decide_eq_true, forallb_forall. intros [Hid H]. split; [done|]. intros f Hf%list_elem_of_In. specialize (H f Hf).
  apply andb_true_iff in H as [Hff Hv]. split; [by apply bool_decide_eq_true in Hff|]. intros v Hq. rewrite Hq in Hv. by apply bool_decide_eq_true in Hv.
Qed.

Definition sample_arr : metric_def := default (MetricDef "" "" "" "" "" "" "" "" [] [] [] "" "" "") (metric (metrics sample_ontology) "arr").

Definition arr_qualifiers (scope : string) : qualifiers := [("currency", "USD"); ("construction", "mrr_x12"); ("scope", scope)]%string.

Lemma metrics_comparable_exact_witness :
  metrics_comparable sample_arr (arr_qualifiers "consolidated") sample_arr (arr_qualifiers " consolidated") = Ok true ∧
  (true = true ↔ sample_arr = sample_arr ∧ ∀ f, f ∈ comparability_key_fields sample_arr →
     key_value sample_arr (arr_qualifiers "consolidated") f = key_value sample_arr (arr_qualifiers " consolidated") f).
Proof.
  split; [vm_compute; reflexivity|]. apply (metrics_comparable_exact (metrics sample_ontology)).
  - apply (bool_decide_unpack _). vm_compute. exact I.
  - left.
  - left.
  - assert (Forall (λ m, head (comparability_key_fields m) = Some "metric_id"%string) (metrics sample_ontology)) as H by (apply (bool_decide_unpack _); vm_compute; exact I).
    rewrite Forall_forall in H. exact H.
  - apply separable_by. vm_compute. reflexivity.
  - apply separable_by. vm_compute. reflexivity.
  - vm_compute. reflexivity.
Defined.
