(* ===== verification/Contract.v ===== *)
(** The frozen payload contract, as [json.loads] reads
    workers/src/fel_workers/extraction/contracts/extraction-payload.schema.json,
    the copy of packages/contracts/schemas that the workers ship. *)

From S2P Require Import Prelude Payload.
Local Open Scope Z_scope.

Definition def_period : value :=
  (DictV [("type", StrV "object"); ("additionalProperties", BoolV false); ("required", ListV [StrV "type"]); 
   ("properties", DictV [("type", DictV [("enum", ListV [StrV "instant"; StrV "duration"; StrV "trailing_window"; StrV "forecast"])]); 
   ("instant", DictV [("type", StrV "string"); ("format", StrV "date")]); ("start", DictV [("type", StrV "string"); 
   ("format", StrV "date")]); ("end", DictV [("type", StrV "string"); ("format", StrV "date")]); 
   ("fiscal_period", DictV [("type", ListV [StrV "string"; StrV "null"])])])])%string.

Definition def_numericFields : value :=
  (DictV [("type", StrV "object"); ("required", ListV [StrV "unit"; StrV "scale"; StrV "sign"]); 
   ("properties", DictV [("unit", DictV [("type", StrV "string"); ("minLength", IntV 1)]); 
   ("currency", DictV [("type", ListV [StrV "string"; StrV "null"]); ("pattern", StrV "^[A-Z]{3}$")]); 
   ("scale", DictV [("type", StrV "integer")]); ("sign", DictV [("enum", ListV [StrV "positive"; StrV "negative"; StrV "zero"])])])])%string.

Definition def_commonProperties : value :=
  (DictV [("schema_version", DictV [("const", StrV "extraction-payload/v1")]); ("entity_id", DictV [("type", StrV "string"); 
   ("format", StrV "uuid")]); ("issuer_label", DictV [("type", StrV "string"); ("minLength", IntV 1)]); 
   ("metric_id", DictV [("type", StrV "string"); ("minLength", IntV 1)]); ("raw_value", DictV [("type", StrV "string")]); 
   ("period", DictV [("$ref", StrV "#/$defs/period")]); ("dimensions", DictV [("type", StrV "object"); 
   ("additionalProperties", DictV [("type", StrV "string")])]); ("definition", DictV [("type", ListV [StrV "string"; StrV "null"])]); 
   ("qualifiers", DictV [("type", StrV "object"); ("additionalProperties", BoolV true)]); 
   ("reported_or_derived", DictV [("enum", ListV [StrV "reported"; StrV "derived"; StrV "management_assertion"])])])%string.

Definition def_kpi : value :=
  (DictV [("type", StrV "object"); ("additionalProperties", BoolV false); ("required", ListV [StrV "schema_version"; StrV "kind"; 
   StrV "entity_id"; StrV "issuer_label"; StrV "metric_id"; StrV "raw_value"; StrV "value"; StrV "unit"; StrV "scale"; StrV "sign"; 
   StrV "period"; StrV "dimensions"; StrV "qualifiers"; StrV "reported_or_derived"]); 
   ("properties", DictV [("schema_version", DictV [("const", StrV "extraction-payload/v1")]); ("kind", DictV [("const", StrV "kpi")]); 
   ("entity_id", DictV [("type", StrV "string"); ("format", StrV "uuid")]); ("issuer_label", DictV [("type", StrV "string"); 
   ("minLength", IntV 1)]); ("metric_id", DictV [("type", StrV "string"); ("minLength", IntV 1)]); 
   ("raw_value", DictV [("type", StrV "string")]); ("value", DictV [("type", StrV "string"); ("pattern", StrV "^-?\d+(\.\d+)?$")]); 
   ("unit", DictV [("type", StrV "string"); ("minLength", IntV 1)]); ("currency", DictV [("type", ListV [StrV "string"; StrV "null"]); 
   ("pattern", StrV "^[A-Z]{3}$")]); ("scale", DictV [("type", StrV "integer")]); ("sign", DictV [("enum", ListV [StrV "positive"; 
   StrV "negative"; StrV "zero"])]); ("period", DictV [("$ref", StrV "#/$defs/period")]); 
   ("dimensions", DictV [("type", StrV "object"); ("additionalProperties", DictV [("type", StrV "string")])]); 
   ("definition", DictV [("type", ListV [StrV "string"; StrV "null"])]); ("qualifiers", DictV [("type", StrV "object"); 
   ("additionalProperties", BoolV true)]); ("reported_or_derived", DictV [("enum", ListV [StrV "reported"; StrV "derived"])])])])%string.

Definition def_guidanceBase : value :=
  (DictV [("type", StrV "object"); ("properties", DictV [("schema_version", DictV [("const", StrV "extraction-payload/v1")]); 
   ("kind", DictV [("const", StrV "guidance")]); ("entity_id", DictV [("type", StrV "string"); ("format", StrV "uuid")]); 
   ("issuer_label", DictV [("type", StrV "string"); ("minLength", IntV 1)]); ("metric_id", DictV [("type", StrV "string"); 
   ("minLength", IntV 1)]); ("raw_value", DictV [("type", StrV "string")]); ("unit", DictV [("type", StrV "string"); 
   ("minLength", IntV 1)]); ("currency", DictV [("type", ListV [StrV "string"; StrV "null"]); ("pattern", StrV "^[A-Z]{3}$")]); 
   ("scale", DictV [("type", StrV "integer")]); ("sign", DictV [("enum", ListV [StrV "positive"; StrV "negative"; StrV "zero"])]); 
   ("period", DictV [("$ref", StrV "#/$defs/period")]); ("dimensions", DictV [("type", StrV "object"); 
   ("additionalProperties", DictV [("type", StrV "string")])]); ("definition", DictV [("type", ListV [StrV "string"; StrV "null"])]); 
   ("qualifiers", DictV [("type", StrV "object"); ("additionalProperties", BoolV true)]); 
   ("reported_or_derived", DictV [("const", StrV "management_assertion")])]); ("required", ListV [StrV "schema_version"; StrV "kind"; 
   StrV "entity_id"; StrV "issuer_label"; StrV "metric_id"; StrV "raw_value"; StrV "shape"; StrV "period"; StrV "dimensions"; 
   StrV "qualifiers"; StrV "reported_or_derived"])])%string.

Definition def_guidancePoint : value :=
  (DictV [("allOf", ListV [DictV [("$ref", StrV "#/$defs/guidanceBase")]; DictV [("type", StrV "object"); 
   ("additionalProperties", BoolV false); ("required", ListV [StrV "value"; StrV "unit"; StrV "scale"; StrV "sign"]); 
   ("properties", DictV [("schema_version", DictV []); ("kind", DictV []); ("entity_id", DictV []); ("issuer_label", DictV []); 
   ("metric_id", DictV []); ("raw_value", DictV []); ("shape", DictV [("const", StrV "point")]); 
   ("value", DictV [("type", StrV "string"); ("pattern", StrV "^-?\d+(\.\d+)?$")]); ("unit", DictV []); ("currency", DictV []); 
   ("scale", DictV []); ("sign", DictV []); ("period", DictV []); ("dimensions", DictV []); ("definition", DictV []); 
   ("qualifiers", DictV []); ("reported_or_derived", DictV [])])]])])%string.

Definition def_guidanceRange : value :=
  (DictV [("allOf", ListV [DictV [("$ref", StrV "#/$defs/guidanceBase")]; DictV [("type", StrV "object"); 
   ("additionalProperties", BoolV false); ("required", ListV [StrV "low"; StrV "high"; StrV "unit"; StrV "scale"; StrV "sign"]); 
   ("properties", DictV [("schema_version", DictV []); ("kind", DictV []); ("entity_id", DictV []); ("issuer_label", DictV []); 
   ("metric_id", DictV []); ("raw_value", DictV []); ("shape", DictV [("const", StrV "range")]); 
   ("low", DictV [("type", StrV "string"); ("pattern", StrV "^-?\d+(\.\d+)?$")]); ("high", DictV [("type", StrV "string"); 
   ("pattern", StrV "^-?\d+(\.\d+)?$")]); ("unit", DictV []); ("currency", DictV []); ("scale", DictV []); ("sign", DictV []); 
   ("period", DictV []); ("dimensions", DictV []); ("definition", DictV []); ("qualifiers", DictV []); 
   ("reported_or_derived", DictV [])])]])])%string.

Definition def_guidanceFloor : value :=
  (DictV [("allOf", ListV [DictV [("$ref", StrV "#/$defs/guidanceBase")]; DictV [("type", StrV "object"); 
   ("additionalProperties", BoolV false); ("required", ListV [StrV "low"; StrV "unit"; StrV "scale"; StrV "sign"]); 
   ("properties", DictV [("schema_version", DictV []); ("kind", DictV []); ("entity_id", DictV []); ("issuer_label", DictV []); 
   ("metric_id", DictV []); ("raw_value", DictV []); ("shape", DictV [("const", StrV "floor")]); 
   ("low", DictV [("type", StrV "string"); ("pattern", StrV "^-?\d+(\.\d+)?$")]); ("unit", DictV []); ("currency", DictV []); 
   ("scale", DictV []); ("sign", DictV []); ("period", DictV []); ("dimensions", DictV []); ("definition", DictV []); 
   ("qualifiers", DictV []); ("reported_or_derived", DictV [])])]])])%string.

Definition def_guidanceCeiling : value :=
  (DictV [("allOf", ListV [DictV [("$ref", StrV "#/$defs/guidanceBase")]; DictV [("type", StrV "object"); 
   ("additionalProperties", BoolV false); ("required", ListV [StrV "high"; StrV "unit"; StrV "scale"; StrV "sign"]); 
   ("properties", DictV [("schema_version", DictV []); ("kind", DictV []); ("entity_id", DictV []); ("issuer_label", DictV []); 
   ("metric_id", DictV []); ("raw_value", DictV []); ("shape", DictV [("const", StrV "ceiling")]); 
   ("high", DictV [("type", StrV "string"); ("pattern", StrV "^-?\d+(\.\d+)?$")]); ("unit", DictV []); ("currency", DictV []); 
   ("scale", DictV []); ("sign", DictV []); ("period", DictV []); ("dimensions", DictV []); ("definition", DictV []); 
   ("qualifiers", DictV []); ("reported_or_derived", DictV [])])]])])%string.

Definition def_guidanceQualitative : value :=
  (DictV [("allOf", ListV [DictV [("$ref", StrV "#/$defs/guidanceBase")]; DictV [("type", StrV "object"); 
   ("additionalProperties", BoolV false); ("required", ListV [StrV "text"]); ("properties", DictV [("schema_version", DictV []); 
   ("kind", DictV []); ("entity_id", DictV []); ("issuer_label", DictV []); ("metric_id", DictV []); ("raw_value", DictV []); 
   ("shape", DictV [("const", StrV "qualitative")]); ("text", DictV [("type", StrV "string"); ("minLength", IntV 1)]); 
   ("period", DictV []); ("dimensions", DictV []); ("definition", DictV []); ("qualifiers", DictV []); 
   ("reported_or_derived", DictV [])])]])])%string.

Definition def_revenueDriver : value :=
  (DictV [("type", StrV "object"); ("additionalProperties", BoolV false); ("required", ListV [StrV "schema_version"; StrV "kind"; 
   StrV "entity_id"; StrV "issuer_label"; StrV "metric_id"; StrV "raw_value"; StrV "category"; StrV "description"; StrV "direction"; 
   StrV "target_metric_ids"; StrV "period"; StrV "dimensions"; StrV "qualifiers"; StrV "reported_or_derived"]); 
   ("properties", DictV [("schema_version", DictV [("const", StrV "extraction-payload/v1")]); 
   ("kind", DictV [("const", StrV "revenue_driver")]); ("entity_id", DictV [("type", StrV "string"); ("format", StrV "uuid")]); 
   ("issuer_label", DictV [("type", StrV "string"); ("minLength", IntV 1)]); ("metric_id", DictV [("type", StrV "string"); 
   ("minLength", IntV 1)]); ("raw_value", DictV [("type", StrV "string")]); ("category", DictV [("type", StrV "string"); 
   ("enum", ListV [StrV "price"; StrV "volume"; StrV "mix"; StrV "acquisition"; StrV "retention"; StrV "usage"; StrV "seats"; 
   StrV "fx"; StrV "services"; StrV "cost"; StrV "other"])]); ("description", DictV [("type", StrV "string"); ("minLength", IntV 1)]); 
   ("direction", DictV [("enum", ListV [StrV "positive"; StrV "negative"; StrV "mixed"; StrV "unknown"])]); 
   ("target_metric_ids", DictV [("type", StrV "array"); ("minItems", IntV 1); ("uniqueItems", BoolV true); 
   ("items", DictV [("type", StrV "string")])]); ("period", DictV [("$ref", StrV "#/$defs/period")]); 
   ("dimensions", DictV [("type", StrV "object"); ("additionalProperties", DictV [("type", StrV "string")])]); 
   ("definition", DictV [("type", ListV [StrV "string"; StrV "null"])]); ("qualifiers", DictV [("type", StrV "object"); 
   ("additionalProperties", BoolV true)]); ("reported_or_derived", DictV [("const", StrV "management_assertion")])])])%string.

Definition extraction_payload_schema : list (string * value) :=
  [("$schema", StrV "https://json-schema.org/draft/2020-12/schema"); ("$id", StrV "https://contracts.fel.dev/schemas/extraction-payload/v1"); ("title", StrV "ExtractionPayload");
   ("oneOf", ListV [DictV [("$ref", StrV "#/$defs/kpi")]; DictV [("$ref", StrV "#/$defs/guidancePoint")]; DictV [("$ref", StrV "#/$defs/guidanceRange")]; DictV [("$ref", StrV "#/$defs/guidanceFloor")]; DictV [("$ref", StrV "#/$defs/guidanceCeiling")]; DictV [("$ref", StrV "#/$defs/guidanceQualitative")]; DictV [("$ref", StrV "#/$defs/revenueDriver")]]);
   ("$defs", DictV [("period", def_period); ("numericFields", def_numericFields); ("commonProperties", def_commonProperties); ("kpi", def_kpi); ("guidanceBase", def_guidanceBase); ("guidancePoint", def_guidancePoint); ("guidanceRange", def_guidanceRange); ("guidanceFloor", def_guidanceFloor); ("guidanceCeiling", def_guidanceCeiling); ("guidanceQualitative", def_guidanceQualitative); ("revenueDriver", def_revenueDriver)]);
   ("x-fel-version", StrV "1.0.0")]%string.
