(* ===== verification/Uuids.v ===== *)
(** Python's [uuid] module: [UUID(text)], [str], [uuid5], and the identifiers of
    packages/retrieval/fel_retrieval/ids.py and of the ingestion workers.

    A UUID is its 128-bit integer.  [UUID(text)] reads a good deal more than the
    canonical text ([int(hex, 16)] takes a sign, blanks, [0x] and underscores), so
    the code that normalizes an identifier relies on the parser's range and on the
    printer.  SHA-1 is computed in full. *)

From S2P Require Import Prelude Decimals Text Canonical.
Local Open Scope Z_scope.

(** * [int(text, 16)] and [UUID(text)] *)

Definition brace (a : ascii) : bool := Ascii.eqb a "{" || Ascii.eqb a "}".

Fixpoint lstrip_braces (s : string) : string := match s with String a s' => if brace a then lstrip_braces s' else s | EmptyString => EmptyString end.
Fixpoint rstrip_braces (s : string) : string :=
  match s with
  | EmptyString => EmptyString
  | String a s' => match rstrip_braces s' with EmptyString => if brace a then EmptyString else String a EmptyString | t => String a t end
  end.

Definition hex_value (a : ascii) : option Z :=
  let n := Z.of_N (N_of_ascii a) in
  if (48 <=? n) && (n <=? 57) then Some (n - 48)
  else if (97 <=? n) && (n <=? 102) then Some (n - 87)
  else if (65 <=? n) && (n <=? 70) then Some (n - 55)
  else None.

(** the blanks [int] ignores at the ends *)
Definition int_space (a : ascii) : bool := let n := N_of_ascii a in ((9 <=? n) && (n <=? 13) || (n =? 32) || (n =? 133) || (n =? 160))%N.

(** [under]: no digit since the last underscore *)
Fixpoint hex_run (under : bool) (n : Z) (s : string) : option Z :=
  match s with
  | EmptyString => if under then None else Some n
  | String a s' =>
      match hex_value a with
      | Some d => hex_run false (16 * n + d) s'
      | None =>
          if under then None
          else if Ascii.eqb a "_" then hex_run true n s'
          else if forallb int_space (chars s) then Some n else None
      end
  end.

Fixpoint skip_int_space (s : string) : string := match s with String a s' => if int_space a then skip_int_space s' else s | EmptyString => EmptyString end.

(** the digits after an optional [0x] *)
Definition hex_body (s : string) : option Z :=
  match s with
  | String "0" (String x r) =>
      if Ascii.eqb x "x" || Ascii.eqb x "X" then hex_run true 0 (match r with String "_" r' => r' | _ => r end) else hex_run true 0 s
  | _ => hex_run true 0 s
  end.

(** [int(s, 16)] *)
Definition int16 (s : string) : option Z :=
  match skip_int_space s with
  | String "-" r => Z.opp <$> hex_body r
  | String "+" r => hex_body r
  | r => hex_body r
  end.

(** [UUID(text).int]; [None] is [ValueError] *)
Definition uuid_of (text : string) : option Z :=
  let hex := remove_sub "uuid:" 0 (remove_sub "urn:" 0 text) in
  let hex := remove_char "-" (rstrip_braces (lstrip_braces hex)) in
  if (String.length hex =? 32)%nat then
    match int16 hex with Some n => if (0 <=? n) && (n <? 2 ^ 128) then Some n else None | None => None end
  else None.

(** [w] lower-case hexadecimal digits *)
Fixpoint hex_padded (w : nat) (n : Z) : string :=
  match w with
  | O => EmptyString
  | S w' => String (hex_char (Z.to_N (n / 16 ^ Z.of_nat w' mod 16))) (hex_padded w' n)
  end.

(** [str(uuid)] *)
Definition uuid_str (n : Z) : string :=
  hex_padded 8 (n / 2 ^ 96) +:+ "-" +:+ hex_padded 4 (n / 2 ^ 80) +:+ "-" +:+ hex_padded 4 (n / 2 ^ 64) +:+ "-" +:+
  hex_padded 4 (n / 2 ^ 48) +:+ "-" +:+ hex_padded 12 n.

(** [str(UUID(text))] *)
Definition canonical_uuid (text : string) : option string := uuid_str <$> uuid_of text.

(** * SHA-1 *)

Module Sha1.
Import Sha256.

Definition rotl (k x : Z) : Z := Z.lor (Z.land (Z.shiftl x k) MASK) (Z.shiftr x (32 - k)).

(** the message schedule; [w] holds the words so far, latest first *)
Fixpoint schedule (n : nat) (w : list Z) : list Z :=
  match n with
  | O => rev w
  | S n => schedule n (rotl 1 (Z.lxor (Z.lxor (nth 2 w 0) (nth 7 w 0)) (Z.lxor (nth 13 w 0) (nth 15 w 0))) :: w)
  end.

Definition round (st : list Z) (tw : nat * Z) : list Z :=
  match st with
  | [a; b; c; d; e] =>
      let '(f, k) :=
        if (fst tw <? 20)%nat then (Z.lor (Z.land b c) (Z.land (not32 b) d), 1518500249)
        else if (fst tw <? 40)%nat then (Z.lxor (Z.lxor b c) d, 1859775393)
        else if (fst tw <? 60)%nat then (Z.lor (Z.lor (Z.land b c) (Z.land b d)) (Z.land c d), 2400959708)
        else (Z.lxor (Z.lxor b c) d, 3395469782) in
      [add32 (add32 (rotl 5 a) f) (add32 (add32 e k) (snd tw)); a; rotl 30 b; c; d]
  | _ => st
  end.

Definition compress (st block : list Z) : list Z :=
  zip_with add32 st (fold_left round (zip (seq 0 80) (schedule 64 (rev block))) st).

Definition H0 : list Z := [1732584193; 4023233417; 2562383102; 271733878; 3285377520].

Definition digest (bytes : list Z) : list Z :=
  let w := words (pad bytes) in fold_left compress (blocks (length w / 16) w) H0.

Example sha1_abc : foldr (λ w r, hex_word w +:+ r) EmptyString (digest (bytes_of "abc")) = "a9993e364706816aba3e25717850c26c9cd0d89d".
Proof. vm_compute. reflexivity. Qed.
End Sha1.

(** * [uuid5] *)

(** [name.encode()] of text below 256 *)
Fixpoint utf8_bytes (s : string) : list Z :=
  match s with
  | EmptyString => []
  | String a s' =>
      let n := Z.of_N (N_of_ascii a) in
      (if n <? 128 then [n] else [192 + n / 64; 128 + n mod 64]) ++ utf8_bytes s'
  end.

Definition uuid_bytes (n : Z) : list Z := map (λ i, n / 256 ^ (15 - Z.of_nat i) mod 256) (seq 0 16).

(** the first sixteen bytes, with the version and the variant bits set *)
Definition uuid5 (namespace : Z) (name : string) : Z :=
  let hash := fold_left (λ a w, a * 2 ^ 32 + w) (take 4 (Sha1.digest (uuid_bytes namespace ++ utf8_bytes name))) 0 in
  let n := Z.land hash (Z.lnot (Z.shiftl 49152 48)) in
  let n := Z.lor n (Z.shiftl 32768 48) in
  let n := Z.land n (Z.lnot (Z.shiftl 61440 64)) in
  Z.lor n (Z.shiftl 5 76).

Definition NAMESPACE_URL : Z := Eval vm_compute in default 0 (uuid_of "6ba7b811-9dad-11d1-80b4-00c04fd430c8").
Definition NAMESPACE_DNS : Z := Eval vm_compute in default 0 (uuid_of "6ba7b810-9dad-11d1-80b4-00c04fd430c8").

Example python_org : uuid_str (uuid5 NAMESPACE_DNS "python.org") = "886313e1-3b8a-5372-9b90-0c9aee199e5d".
Proof. vm_compute. reflexivity. Qed.

(** * The canonical text is read back *)

Lemma remove_sub_absent c sub s : c ∉ chars s → remove_sub (String c sub) 0 s = s.
Proof.
  induction s as [|a s IH]; intros Hs; [done|]. cbn [String.list_ascii_of_string] in Hs. apply not_elem_of_cons in Hs as [Ha Hs].
  cbn [remove_sub String.prefix]. destruct (ascii_dec c a); [done|]. by rewrite IH.
Qed.

Definition is_hex_text (a : ascii) : bool := Ascii.eqb a "-" || bool_decide (is_Some (hex_value a)).

Lemma hex_text_plain a : is_hex_text a = true → brace a = false ∧ int_space a = false ∧ a ≠ "u"%char.
Proof. destruct a as [[] [] [] [] [] [] [] []]; vm_compute; intros [=]; done. Qed.

Lemma lstrip_braces_id s : Forall (λ a, is_hex_text a = true) (chars s) → lstrip_braces s = s.
Proof. destruct s as [|a s]; [done|]. intros [Ha _]%Forall_cons. cbn. by destruct (hex_text_plain a Ha) as (-> & _). Qed.

Lemma rstrip_braces_id s : Forall (λ a, is_hex_text a = true) (chars s) → rstrip_braces s = s.
Proof.
  induction s as [|a s IH]; [done|]. intros [Ha Hs]%Forall_cons. cbn. rewrite IH by done. destruct (hex_text_plain a Ha) as (-> & _). by destruct s.
Qed.

Lemma hex_char_value d : 0 ≤ d < 16 → hex_value (hex_char (Z.to_N d)) = Some d ∧ hex_char (Z.to_N d) ≠ "-"%char ∧
  Ascii.eqb (hex_char (Z.to_N d)) "x" = false ∧ Ascii.eqb (hex_char (Z.to_N d)) "X" = false.
Proof.
  intros Hd. assert (∃ k, (k < 16)%nat ∧ d = Z.of_nat k) as (k & Hk & ->) by (exists (Z.to_nat d); lia). clear Hd.
  do 16 (destruct k as [|k]; [by vm_compute|]). lia.
Qed.

Lemma hex_padded_chars w n : Forall (λ a, is_hex_text a = true) (chars (hex_padded w n)) ∧ Forall (λ a, a ≠ "-"%char) (chars (hex_padded w n)).
Proof.
  induction w as [|w [IH1 IH2]]; [by split|]. cbn [hex_padded String.list_ascii_of_string].
  destruct (hex_char_value (n / 16 ^ Z.of_nat w mod 16)) as (Hv & Hd & _); [apply Z.mod_pos_bound; lia|].
  split; constructor; try done. unfold is_hex_text. rewrite Hv. by rewrite bool_decide_true, orb_true_r.
Qed.

Lemma length_hex_padded w n : String.length (hex_padded w n) = w.
Proof. induction w as [|w IH]; [done|]. cbn. by rewrite IH. Qed.

Lemma hex_padded_app w w' n : 0 ≤ n → (hex_padded w (n / 16 ^ Z.of_nat w') +:+ hex_padded w' n)%string = hex_padded (w + w') n.
Proof.
  intros Hn. induction w as [|w IH]; [done|]. cbn [hex_padded Nat.add]. rewrite string_app_cons, IH. do 4 f_equal.
  rewrite Z.div_div by lia. rewrite <- Z.pow_add_r by lia. do 2 f_equal. lia.
Qed.

Lemma hex_run_padded w n acc (under : bool) : 0 ≤ n → (0 < w)%nat ∨ under = false → hex_run under acc (hex_padded w n) = Some (acc * 16 ^ Z.of_nat w + n mod 16 ^ Z.of_nat w).
Proof.
  intros Hn. revert acc under. induction w as [|w IH]; intros acc under Hu; cbn [hex_padded hex_run].
  { destruct Hu as [?| ->]; [lia|]. f_equal. change (16 ^ Z.of_nat 0) with 1. rewrite Z.mod_1_r. lia. }
  destruct (hex_char_value (n / 16 ^ Z.of_nat w mod 16)) as (-> & _); [apply Z.mod_pos_bound; lia|].
  rewrite IH by (by right). f_equal. replace (Z.of_nat (S w)) with (Z.of_nat w + 1) by lia. rewrite Z.pow_add_r by lia.
  change (16 ^ 1) with 16. rewrite (Z.rem_mul_r n (16 ^ Z.of_nat w) 16) by lia. lia.
Qed.

Lemma int16_padded w n : 0 ≤ n < 16 ^ Z.of_nat (S w) → int16 (hex_padded (S w) n) = Some n.
Proof.
  intros Hn. set (s := hex_padded (S w) n).
  assert (hex_body s = Some n) as Hb.
  { assert (hex_body s = hex_run true 0 s) as ->; [|unfold s; rewrite hex_run_padded by (lia || left; lia); rewrite Z.mod_small by lia; f_equal; lia].
    unfold s. destruct w as [|w]; cbn [hex_padded]; unfold hex_body; [by repeat case_match|].
    destruct (hex_char_value (n / 16 ^ Z.of_nat w mod 16)) as (_ & _ & -> & ->); [apply Z.mod_pos_bound; lia|]. by repeat case_match. }
  unfold int16. assert (skip_int_space s = s) as ->.
  { unfold s. cbn [hex_padded skip_int_space]. pose proof (hex_padded_chars (S w) n) as [[Ha _]%Forall_cons _].
    by destruct (hex_text_plain _ Ha) as (_ & -> & _). }
  revert Hb. unfold s. cbn [hex_padded]. pose proof (hex_char_value (n / 16 ^ Z.of_nat w mod 16) ltac:(apply Z.mod_pos_bound; lia)) as (Hv & Hm & _).
  destruct (hex_char _) as [[] [] [] [] [] [] [] []]; try done; by vm_compute in Hv.
Qed.

Lemma remove_char_app c s t : remove_char c (s +:+ t)%string = (remove_char c s +:+ remove_char c t)%string.
Proof. induction s as [|a s IH]; [done|]. rewrite string_app_cons. cbn [remove_char]. by destruct (Ascii.eqb a c); rewrite IH. Qed.

Lemma remove_dash w n : remove_char "-" (hex_padded w n) = hex_padded w n.
Proof. apply remove_char_id. intros Hin. pose proof (hex_padded_chars w n) as [_ H]. by apply (proj1 (Forall_forall _ _) H _ Hin). Qed.

Lemma uuid_str_digits n : 0 ≤ n → remove_char "-" (uuid_str n) = hex_padded 32 n.
Proof.
  intros Hn. unfold uuid_str. rewrite !remove_char_app, !remove_dash.
  change (remove_char "-" "-") with EmptyString. rewrite !string_app_empty.
  pose proof (hex_padded_app 4 12 n Hn) as H1. change (16 ^ Z.of_nat 12) with (2 ^ 48) in H1. cbn [Nat.add] in H1. rewrite H1.
  pose proof (hex_padded_app 4 16 n Hn) as H2. change (16 ^ Z.of_nat 16) with (2 ^ 64) in H2. cbn [Nat.add] in H2. rewrite H2.
  pose proof (hex_padded_app 4 20 n Hn) as H3. change (16 ^ Z.of_nat 20) with (2 ^ 80) in H3. cbn [Nat.add] in H3. rewrite H3.
  pose proof (hex_padded_app 8 24 n Hn) as H4. change (16 ^ Z.of_nat 24) with (2 ^ 96) in H4. cbn [Nat.add] in H4. by rewrite H4.
Qed.

Lemma uuid_str_chars n : Forall (λ a, is_hex_text a = true) (chars (uuid_str n)).
Proof. unfold uuid_str. rewrite !chars_app, !Forall_app. repeat split; try apply hex_padded_chars; by repeat constructor. Qed.

(** The text of a UUID names it: reading it back gives the UUID, so the canonical
    spelling of an identifier is its own, and two spellings are equivalent exactly
    when they canonicalize to the same text. *)
Theorem uuid_roundtrip (n : Z) : 0 ≤ n < 2 ^ 128 → uuid_of (uuid_str n) = Some n ∧ canonical_uuid (uuid_str n) = Some (uuid_str n).
Proof.
  intros Hn. enough (uuid_of (uuid_str n) = Some n) as H by (unfold canonical_uuid; by rewrite H).
  pose proof (uuid_str_chars n) as Hc. unfold uuid_of.
  assert ("u"%char ∉ chars (uuid_str n)) as Hu.
  { intros Hin. apply (proj1 (Forall_forall _ _) Hc) in Hin. by destruct (hex_text_plain _ Hin) as (_ & _ & []). }
  rewrite (remove_sub_absent "u" "rn:") by done. rewrite (remove_sub_absent "u" "uid:") by done. rewrite lstrip_braces_id, rstrip_braces_id by done.
  rewrite uuid_str_digits, length_hex_padded, Nat.eqb_refl by lia. rewrite int16_padded by (change (16 ^ Z.of_nat 32) with (2 ^ 128); lia).
  destruct (Z.leb_spec 0 n); [|lia]. destruct (Z.ltb_spec n (2 ^ 128)); [done|lia].
Qed.

Lemma uuid_roundtrip_witness : canonical_uuid "{URN:6BA7B811-9DAD-11D1-80B4-00C04FD430C8}" = None ∧
  canonical_uuid "{6BA7B811-9DAD-11D1-80B4-00C04FD430C8}" = Some (uuid_str NAMESPACE_URL) ∧ uuid_of (uuid_str NAMESPACE_URL) = Some NAMESPACE_URL.
Proof. split; [by vm_compute|]. split; [by vm_compute|]. by apply (uuid_roundtrip NAMESPACE_URL). Defined.

Lemma uuid_of_range text n : uuid_of text = Some n → 0 ≤ n < 2 ^ 128.
Proof.
  unfold uuid_of. cbv zeta. generalize (int16 (remove_char "-" (rstrip_braces (lstrip_braces (remove_sub "uuid:" 0 (remove_sub "urn:" 0 text)))))).
  intros o. destruct (_ =? _)%nat; [|done]. destruct o as [m|]; [|done]. destruct (Z.leb_spec 0 m), (Z.ltb_spec m (2 ^ 128)); cbn; intros [= <-]; lia.
Qed.

Lemma canonical_uuid_fixed text t : canonical_uuid text = Some t → canonical_uuid t = Some t.
Proof. unfold canonical_uuid at 1. intros (n & Hn & ->)%fmap_Some. by apply uuid_roundtrip, (uuid_of_range text). Qed.
