(* ===== verification/Schema.v ===== *)
(** [workers/src/fel_workers/extraction/validate/schema.py]: a payload against the
    frozen contract, with the standard library's [UUID(str)] and the equality a
    set of payload values is built with. *)

From S2P Require Import Prelude Dicts Text Decimals Periods Canonical Payload Contract Normalize Uuids.
Local Open Scope Z_scope.

Definition SCHEMA_VERSION : string := "extraction-payload/v1".
Definition WORKER_EXTENSION_KEYS : list string := ["evidence"; "source_span_ids"]%string.
Definition PIPELINE_CONTROL_EVIDENCE_KEYS : list string := ["citation_status"]%string.
Definition GUIDANCE_SHAPE_DEFS : list (string * string) :=
  [("point", "guidancePoint"); ("range", "guidanceRange"); ("floor", "guidanceFloor"); ("ceiling", "guidanceCeiling");
   ("qualitative", "guidanceQualitative")]%string.
Definition COMMON_REQUIRED : list string :=
  ["schema_version"; "kind"; "entity_id"; "issuer_label"; "metric_id"; "raw_value"; "period"; "dimensions"; "qualifiers"; "reported_or_derived"]%string.
Definition KPI_REQUIRED : list string := COMMON_REQUIRED ++ ["value"; "unit"; "scale"; "sign"]%string.
Definition GUIDANCE_REQUIRED : list string := COMMON_REQUIRED ++ ["shape"]%string.
Definition DRIVER_REQUIRED : list string := COMMON_REQUIRED ++ ["category"; "description"; "direction"; "target_metric_ids"]%string.

(** * The keys a variant may carry *)

Definition load_extraction_payload_schema : list (string * value) := extraction_payload_schema.

(** [v or {}], of a node of the contract *)
Definition node_items (v : value) : list (string * value) := match v with DictV items => items | _ => [] end.

Definition closed_branch_properties (node : list (string * value)) : list string :=
  match get "allOf" node with
  | ListV branches =>
      match find (λ branch, match branch with DictV items => match get "additionalProperties" items with BoolV false => true | _ => false end | _ => false end) branches with
      | Some (DictV items) => (node_items (get "properties" items)).*1
      | _ => []
      end
  | _ => []
  end.

Definition allowed_payload_keys (kind shape : value) : list string :=
  let defs := node_items (get "$defs" load_extraction_payload_schema) in
  let properties (name : string) := (node_items (get "properties" (node_items (get name defs)))).*1 in
  let own :=
    if is_str "kpi" kind then properties "kpi"%string
    else if is_str "revenue_driver" kind then properties "revenueDriver"%string
    else if is_str "guidance" kind then
      match dict_get (py_str shape) GUIDANCE_SHAPE_DEFS with
      | Some name => closed_branch_properties (node_items (get name defs))
      | None => []
      end
    else [] in
  match own with [] => [] | _ => own ++ WORKER_EXTENSION_KEYS end.

Definition unknown_key_errors (p : payload) : list string :=
  match allowed_payload_keys (get "kind" p) (get "shape" p) with
  | [] => []
  | allowed => map (λ key, "unknown field not permitted by extraction-payload/v1: " +:+ key)%string (filter (λ key, key ∉ allowed) (sorted_strings p.*1))
  end.

Definition control_field_errors (idx : nat) (item : value) : list string :=
  match item with
  | DictV row =>
      map (λ key, "evidence[" +:+ str_of_Z (Z.of_nat idx) +:+ "]: " +:+ key +:+ " is set by the pipeline, not the model")%string
        (sorted_strings (filter (λ key, has key row = true) PIPELINE_CONTROL_EVIDENCE_KEYS))
  | _ => []
  end.

Definition evidence_control_field_errors (p : payload) : list string :=
  match get "evidence" p with ListV items => concat (imap control_field_errors items) | _ => [] end.

(** [UUID(str(value))] does not raise *)
Definition uuid_ok (v : value) : bool := bool_decide (is_Some (uuid_of (py_str v))).

(** * Equality of the elements of a set *)

(** the double nearest an integer *)
Definition round53 (n : Z) : Z :=
  if n <? 2 ^ 53 then n else
  let step := 2 ^ (Z.log2 n - 52) in
  let q := n / step in let r := n mod step in
  (if 2 * r <? step then q else if step <? 2 * r then q + 1 else if Z.even q then q else q + 1) * step.

(** the integer a float's [repr] denotes *)
Definition float_int (t : string) : option Z :=
  match decimal_of_text t with
  | Some (Finite d) =>
      if d_exp d <? 0 then
        let p := 10 ^ (- d_exp d) in
        if Z.of_N (d_coeff d) mod p =? 0 then Some ((if d_sign d then -1 else 1) * round53 (Z.of_N (d_coeff d) / p)) else None
      else Some ((if d_sign d then -1 else 1) * round53 (Z.of_N (d_coeff d) * 10 ^ d_exp d))
  | _ => None
  end.

(** one representative of the values equal to [v] *)
Definition hash_key (v : value) : value :=
  match v with
  | BoolV b => IntV (if b then 1 else 0)
  | FloatV t => match float_int t with Some z => IntV z | None => v end
  | _ => v
  end.

Fixpoint value_eqb (a b : value) : bool :=
  match a, b with
  | NoneV, NoneV => true
  | BoolV x, BoolV y => Bool.eqb x y
  | IntV x, IntV y => x =? y
  | FloatV x, FloatV y | StrV x, StrV y => bool_decide (x = y)
  | _, _ => false
  end.

(** [set(l)], as the list of its first occurrences *)
Fixpoint set_of (l : list value) : checked (list value) :=
  match l with
  | [] => Ok []
  | v :: l' =>
      if hashable v then rest ← set_of l'; Ok (if existsb (value_eqb (hash_key v)) rest then rest else hash_key v :: rest)
      else Err TypeError
  end.

(** * The checks *)

Definition require (p : payload) (keys : list string) : list string :=
  map (λ k, "missing required field: " +:+ k)%string (filter (λ k, has k p = false) keys).

Definition nonempty_text (v : value) : bool := match v with StrV s => negb (bool_decide (s = ""%string)) | _ => false end.
Definition is_text (v : value) : bool := match v with StrV _ => true | _ => false end.

(** [[message] if bad else []] *)
Definition unless (ok : bool) (message : string) : list string := if ok then [] else [message].

Definition validate_period (period : value) : checked (list string) :=
  match period with
  | DictV items =>
      known ← in_set (get "type" items) PERIOD_TYPES;
      Ok (unless known ("invalid period.type: " +:+ repr (get "type" items)))
  | _ => Ok ["period must be an object"%string]
  end.

Definition dimension_errors (v : value) : list string :=
  match v with
  | DictV items => unless (forallb (λ kv : string * value, is_text kv.2) items) "dimensions values must be strings"
  | _ => ["dimensions must be an object"%string]
  end.

Definition common (p : payload) (reported : list string) : checked (list string) :=
  known ← in_set (get "reported_or_derived" p) reported;
  period ← validate_period (get "period" p);
  Ok (unless (nonempty_text (get "issuer_label" p)) "issuer_label required" ++
      unless (nonempty_text (get "metric_id" p)) "metric_id required" ++
      unless (is_text (get "raw_value" p)) "raw_value must be a string" ++
      unless (uuid_ok (get "entity_id" p)) "entity_id must be a uuid" ++
      unless known ("reported_or_derived must be one of " +:+ repr (ListV (map StrV (sorted_strings reported)))) ++
      period ++ dimension_errors (get "dimensions" p) ++
      unless (match get "qualifiers" p with DictV _ => true | _ => false end) "qualifiers must be an object").

Definition currency_ok (v : value) : bool := match v with NoneV => true | StrV s => iso_4217 s | _ => false end.

Definition numeric_trio (p : payload) : checked (list string) :=
  known ← in_set (get "sign" p) SIGNS;
  Ok (unless (nonempty_text (get "unit" p)) "unit required" ++
      unless (currency_ok (get "currency" p)) "currency must be null or ISO-4217 alpha-3" ++
      unless (match get "scale" p with IntV _ => true | _ => false end) "scale must be an integer" ++
      unless known "sign must be positive|negative|zero").

(** [^-?\d+(\.\d+)?$], full match *)
Definition decimal_text (s : string) : bool :=
  let r := match s with String "-" r => r | _ => s end in
  let '(ip, r) := span_digits r in
  match ip, r with
  | [], _ => false
  | _, EmptyString => true
  | _, String "." r' => match span_digits r' with (_ :: _, EmptyString) => true | _ => false end
  | _, _ => false
  end.

Definition schema_decimal (p : payload) (key : string) : list string :=
  unless (match get key p with StrV s => decimal_text s | _ => false end) (key +:+ " must be a decimal string").

Definition validate_numeric_shape (p : payload) (required decimal_keys : list string) : checked (list string) :=
  trio ← numeric_trio p;
  Ok (require p required ++ trio ++ concat (map (schema_decimal p) decimal_keys)).

Definition validate_kpi (p : payload) : checked (list string) :=
  c ← common p ["reported"; "derived"]%string;
  trio ← numeric_trio p;
  Ok (require p KPI_REQUIRED ++ c ++ trio ++ schema_decimal p "value").

Definition validate_guidance (p : payload) : checked (list string) :=
  c ← common p ["management_assertion"%string];
  let shape := get "shape" p in
  rest ← (if is_str "point" shape then validate_numeric_shape p ["value"; "unit"; "scale"; "sign"]%string ["value"%string]
          else if is_str "range" shape then validate_numeric_shape p ["low"; "high"; "unit"; "scale"; "sign"]%string ["low"; "high"]%string
          else if is_str "floor" shape then validate_numeric_shape p ["low"; "unit"; "scale"; "sign"]%string ["low"%string]
          else if is_str "ceiling" shape then validate_numeric_shape p ["high"; "unit"; "scale"; "sign"]%string ["high"%string]
          else if is_str "qualitative" shape then Ok (unless (negb (blank (get "text" p))) "qualitative guidance requires text")
          else Ok ["unknown guidance shape: " +:+ repr shape]%string);
  Ok (require p GUIDANCE_REQUIRED ++ c ++ rest).

Definition validate_driver (p : payload) : checked (list string) :=
  c ← common p ["management_assertion"%string];
  category ← in_set (get "category" p) DRIVER_CATEGORIES;
  direction ← in_set (get "direction" p) DIRECTIONS;
  unique ← match get "target_metric_ids" p with
           | ListV ((_ :: _) as targets) => distinct ← set_of targets; Ok (length targets =? length distinct)%nat
           | _ => Ok false
           end;
  Ok (require p DRIVER_REQUIRED ++ c ++
      unless category ("invalid category: " +:+ repr (get "category" p)) ++
      unless (nonempty_text (get "description" p)) "description required" ++
      unless direction "invalid direction" ++
      unless unique "target_metric_ids must be a non-empty unique array").

Definition validate_payload_item (p : payload) : checked (list string) :=
  let kind := get "kind" p in
  variant ← (if is_str "kpi" kind then validate_kpi p
             else if is_str "guidance" kind then validate_guidance p
             else if is_str "revenue_driver" kind then validate_driver p
             else Ok ["unknown kind: " +:+ repr kind]%string);
  Ok (unless (is_str SCHEMA_VERSION (get "schema_version" p)) "schema_version must be extraction-payload/v1" ++
      variant ++ unknown_key_errors p ++ evidence_control_field_errors p).
