(* ===== verification/Citations.v ===== *)
(** [workers/src/fel_workers/extraction/validate/definitions.py]: a payload against
    the ontology's definition of its metric.

    Citations: [validate/citations.py] and the citation rows of
    [validate/pipeline.py].

    The pinned evidence is a dict from span ids to blocks; a block holds the three
    texts [evidence_map] gives it (workflow_codec.py).  A citation row is a dict of
    model values. *)

From S2P Require Import Prelude Dicts Text Canonical Payload Ontology Normalize Schema.
Local Open Scope Z_scope.

Definition UNIT_BY_VALUE_TYPE : list (string * string) := [("ratio_pct", "percent"); ("count", "count")]%string.
Definition CURRENCY_VALUE_TYPES : list string := ["currency"; "currency_derived"]%string.
Definition ONTOLOGY_PERIOD_TYPES : list string := ["instant"; "duration"; "trailing_window"]%string.

(** the first other metric that has [text] for an alias *)
Definition collides (text : string) (id : string) (other : metric_def) : bool :=
  negb (bool_decide (m_id other = id)) && bool_decide (text ∈ lower <$> aliases other).

Definition definition_errors (p : payload) (o : ontology) : list string :=
  match get "metric_id" p with
  | StrV metric_id =>
      match metric o metric_id, get "definition" p with
      | None, _ | _, NoneV => []
      | Some m, definition =>
          match find (collides (strip (lower (py_str definition))) (m_id m)) o with
          | Some other => [("definition text collides with alias of " +:+ m_id other)%string]
          | None => []
          end
      end
  | _ => []
  end.

Section definitions.
Context (currency_codes : list string).

Definition unit_errors (p : payload) (m : metric_def) : list string :=
  if negb (has "unit" p) then [] else
  let unit := get "unit" p in
  let comparison_unit := canonical_unit currency_codes unit in
  let currency := get "currency" p in
  match dict_get (value_type m) UNIT_BY_VALUE_TYPE with
  | Some expected =>
      unless (is_str expected comparison_unit)
        ("unit " +:+ repr unit +:+ " cannot express " +:+ value_type m +:+ " metric " +:+ m_id m +:+ " (expected " +:+ repr_str expected +:+ ")") ++
      unless (is_none currency) (m_id m +:+ " is a " +:+ value_type m +:+ " metric and takes no currency, got " +:+ repr currency)
  | None =>
      if bool_decide (value_type m ∈ CURRENCY_VALUE_TYPES) then
        unless (negb (existsb (λ u, is_str u comparison_unit) UNIT_BY_VALUE_TYPE.*2)) ("unit " +:+ repr unit +:+ " cannot express currency metric " +:+ m_id m) ++
        unless (nonempty_text currency) ("currency metric " +:+ m_id m +:+ " declares no currency")
      else []
  end.

Definition period_errors (p : payload) (m : metric_def) : checked (list string) :=
  if negb (is_str "kpi" (get "kind" p)) then Ok [] else
  let ptype := match get "period" p with DictV items => get "type" items | _ => NoneV end in
  known ← in_set ptype ONTOLOGY_PERIOD_TYPES;
  Ok (unless (negb known || is_str (period_semantics m) ptype)
        ("period.type " +:+ repr ptype +:+ " contradicts ontology period_semantics " +:+ repr_str (period_semantics m) +:+ " for " +:+ m_id m)).

Definition check_definitions (p : payload) (o : ontology) : checked (list string) :=
  match get "metric_id" p with
  | StrV metric_id =>
      if bool_decide (metric_id = ""%string) then Ok ["metric_id_missing"%string] else
      match metric o metric_id with
      | None => Ok (if is_str "kpi" (get "kind" p) then ["metric_unknown_to_ontology"%string] else [])
      | Some m => period ← period_errors p m; Ok (unit_errors p m ++ period)
      end
  | _ => Ok ["metric_id_missing"%string]
  end.
End definitions.


Record block := Block { document_version_id : string; text : string; text_hash : string }.
Notation pinned := (list (string * block)).

(** [block.get("text_hash") or sha256_hex(block.get("text", ""))] *)
Definition actual_hash (b : block) : string := if bool_decide (text_hash b = ""%string) then sha256_hex (text b) else text_hash b.

(** [a or b] *)
Definition or_else (a b : value) : value := if truth a then a else b.

Definition cited_span (item : value) : option string :=
  match item with
  | StrV s => Some s
  | DictV row => if truth (get "source_span_id" row) then Some (py_str (get "source_span_id" row)) else None
  | _ => None
  end.

Definition cited_spans (p : payload) : list string :=
  match or_else (get "evidence" p) (get "source_span_ids" p) with ListV items => omap cited_span items | _ => [] end.

(** one cited span: the errors and the verified count after it *)
Definition cite (evidence_by_span : pinned) (expected_hashes : list (string * string)) (st : list string * nat) (span_id : string) : list string * nat :=
  let '(errors, verified) := st in
  match dict_get span_id evidence_by_span with
  | None => (errors ++ ["cited span not in pinned evidence: " +:+ span_id]%string, verified)
  | Some b =>
      match dict_get span_id expected_hashes with
      | Some expected => if bool_decide (actual_hash b = expected) then (errors, S verified) else (errors ++ ["span hash mismatch: " +:+ span_id]%string, verified)
      | None => st
      end
  end.

Definition citation_errors (p : payload) (evidence_by_span : pinned) (expected_hashes : list (string * string)) : list string :=
  match cited_spans p with
  | [] => ["proposal cites no evidence"%string]
  | span_ids =>
      let '(errors, verified) := foldl (cite evidence_by_span expected_hashes) ([], 0%nat) span_ids in
      errors ++ unless (negb (verified =? 0)%nat) "no verified citation: no cited span asserts a matching text_hash"
  end.

(** * The rows of [pipeline.py] *)

(** [for item in v or []]: a text iterates over its characters, a dict over its
    keys, and a number or a boolean not at all *)
Definition iterate (v : value) : checked (list value) :=
  if truth v then
    match v with
    | ListV l => Ok l
    | StrV s => Ok (map (λ a, StrV (String a EmptyString)) (chars s))
    | DictV items => Ok (map StrV items.*1)
    | _ => Err TypeError
    end
  else Ok [].

Definition claim_hash (claimed : list (string * string)) (item : value) : list (string * string) :=
  match item with
  | DictV row =>
      match truth (get "source_span_id" row), get "text_hash" row with
      | true, StrV h => if bool_decide (h = ""%string) then claimed else dict_set (py_str (get "source_span_id" row)) h claimed
      | _, _ => claimed
      end
  | _ => claimed
  end.

Definition claimed_span_hashes (clean : payload) : checked (list (string * string)) :=
  iterate (get "evidence" clean) ≫= λ items : list value, Ok (foldl claim_hash [] items).

Definition citation_status_for (row : payload) (evidence_by_span : pinned) : string :=
  match get "source_span_id" row with
  | StrV span_id =>
      if bool_decide (strip span_id = ""%string) then "invalid" else
      match dict_get span_id evidence_by_span with
      | None => "invalid"
      | Some b =>
          match get "text_hash" row with
          | StrV asserted => if bool_decide (asserted = ""%string) then "partial" else if bool_decide (asserted = actual_hash b) then "verified" else "invalid"
          | _ => "partial"
          end
      end
  | _ => "invalid"
  end%string.

Definition evidence_row (evidence_by_span : pinned) (item : value) : option payload :=
  row ← match item with
        | DictV items => if truth (get "source_span_id" items) then Some (filter (λ kv, kv.1 ∉ PIPELINE_CONTROL_EVIDENCE_KEYS) items) else None
        | StrV s => Some [("source_span_id", StrV s); ("role", StrV "supports")]%string
        | _ => None
        end;
  let row :=
    if truth (get "document_version_id" row) then row
    else match dict_get (py_str (get "source_span_id" row)) evidence_by_span with
         | Some b => if bool_decide (document_version_id b = ""%string) then row else dict_set "document_version_id"%string (StrV (document_version_id b)) row
         | None => row
         end in
  Some (dict_set "citation_status"%string (StrV (citation_status_for row evidence_by_span)) row).

Definition evidence_rows (clean : payload) (evidence_by_span : pinned) : checked (list payload) :=
  iterate (get "evidence" clean) ≫= λ items : list value, Ok (omap (M := list) (evidence_row evidence_by_span) items).
