(* ===== verification/Accounting.v ===== *)
(** [workers/src/fel_workers/extraction/validate/accounting.py]: per-payload
    accounting rules and the arithmetic identities across payloads.

    Magnitudes are exact decimals; the comparisons round in the default context
    of 28 digits, as [abs], [sum] and the operators do.  Fact groups are dicts in
    insertion order. *)

From S2P Require Import Prelude Dicts Text Decimals Canonical Payload Ontology.
Local Open Scope Z_scope.

(** * Numbers *)

Definition IDENTITY_RELATIVE_TOLERANCE : decimal := Dec false 5 (-3).
Definition IDENTITY_PREFIX : string := "accounting_identity_violation:".
Definition BLENDED_MARGIN_MARKERS : list string :=
  ["blended"; "company"; "consolidated"; "total_gm"; "total_gross_margin"; "blended_margin"]%string.
Definition PERCENT_UNITS : list string := ["percent"; "percentage"; "percentage_points"; "%"; "pct"; "pp"]%string.
Definition NUMERIC_KINDS : list string := ["kpi"; "guidance"]%string.

Definition decimal_or_none (v : value) : option decimal :=
  match v with
  | NoneV => None
  | _ => match decimal_of_text (py_str v) with Some (Finite d) => Some d | _ => None end
  end.

(** [Decimal((sign, digits, exponent))] *)
Definition make_decimal (d : decimal) : checked decimal :=
  if (- 2 ^ 63 <=? d_exp d) && (d_exp d <? 2 ^ 63) then
    if representable d then Ok d else Err (DecimalSignal InvalidOperation)
  else Err OverflowError.

Definition magnitude (v : decimal) (scale : value) : checked decimal :=
  match int_or_none scale with
  | None | Some 0 => Ok v
  | Some exponent => make_decimal (Dec (d_sign v) (d_coeff v) (d_exp v + exponent))
  end.

Definition relatively_equal (actual expected : decimal) : checked bool :=
  a ← py_abs actual;
  e ← py_abs expected;
  let reference := dec_max a e in
  if dec_eqb reference dec_zero then Ok (dec_eqb actual expected)
  else
    gap ← arith (dec_sub DEFAULT_CONTEXT actual expected);
    gap ← py_abs gap;
    allowed ← arith (dec_mul DEFAULT_CONTEXT IDENTITY_RELATIVE_TOLERANCE reference);
    Ok (dec_leb gap allowed).

(** * Rules of one payload *)


(** [quals.get(k, d)] of a dynamically typed [quals] *)
Definition attr_get (v : value) (k : string) (d : value) : checked value :=
  match v with DictV items => Ok (default d (dict_get k items)) | _ => Err AttributeError end.

(** [k in v] for a string [k] *)
Definition member (k : string) (v : value) : checked bool :=
  match v with
  | DictV items => Ok (has k items)
  | ListV l => Ok (existsb (is_str k) l)
  | StrV s => Ok (contains k s)
  | _ => Err TypeError
  end.

(** [payload.get(k) or {}] *)
Definition or_empty (v : value) : value := if truth v then v else DictV [].

Section accounting.
Context (currency_codes : list string).

Definition is_percent_unit (v : value) : bool :=
  match v with StrV s => bool_decide (canonical_unit_text currency_codes s ∈ PERCENT_UNITS) | _ => false end.

Definition svc_gm_errors (metric_id : string) (p : payload) : checked (list string) :=
  if negb (bool_decide (metric_id = "svc_gm"%string)) then Ok [] else
  let quals := or_empty (get "qualifiers" p) in
  margin_scope ← attr_get quals "margin_scope" (StrV "");
  let scope := lower (py_str margin_scope) in
  let definition := let v := get "definition" p in py_str (if truth v then v else StrV "") in
  basis ← attr_get quals "basis" NoneV;
  Ok ((if existsb (λ marker, contains marker scope) BLENDED_MARGIN_MARKERS
       then ["svc_gm must never proxy blended company gross margin"%string] else []) ++
      (if contains "blended" (lower definition) then ["svc_gm definition must not claim blended margin"%string] else []) ++
      (if is_str "blended" basis then ["svc_gm_blended_forbidden"%string] else [])).

(** one of the keys [value], [low], [high] *)
Definition percent_field (is_margin percent_unit : bool) (p : payload) (key : string) : checked (list string) :=
  let v := get key p in
  if is_none v then Ok [] else
  match decimal_or_none v with
  | None => Ok [(key +:+ " is not a decimal string")%string]
  | Some parsed =>
      m ← magnitude parsed (get "scale" p);
      Ok ((if dec_ltb m (dec_of_Z (-100)) || dec_ltb (dec_of_Z 500) m
           then [("ratio percent out of plausible range: " +:+ dec_to_string m)%string] else []) ++
          (if is_margin && percent_unit && dec_ltb (dec_of_Z 100) m then ["margin_percent_out_of_range"%string] else []))
  end.

Definition kind_in (kinds : list string) (v : value) : bool := match v with StrV s => bool_decide (s ∈ kinds) | _ => false end.

Definition percent_errors (m : metric_def) (p : payload) : checked (list string) :=
  if negb (bool_decide (value_type m = "ratio_pct"%string)) || negb (kind_in NUMERIC_KINDS (get "kind" p)) then Ok [] else
  let scale := get "scale" p in
  let scale_errors :=
    match int_or_none scale with
    | None | Some 0 => []
    | Some _ => [("percent value must use scale 0, got " +:+ py_str scale)%string]
    end in
  let is_margin := bool_decide (m_id m ∈ ["sub_gm"; "svc_gm"]%string) in
  fields ← mapM (percent_field is_margin (is_percent_unit (get "unit" p)) p) ["value"; "low"; "high"]%string;
  Ok (scale_errors ++ concat fields).

Definition billings_errors (p : payload) : checked (list string) :=
  lineage ← attr_get (or_empty (get "qualifiers" p)) "derivation_inputs" NoneV;
  Ok (match lineage with ListV (_ :: _ :: _) => [] | _ => ["billings_derivation_inputs_missing"%string] end).

Definition crpo_errors (p : payload) : checked (list string) :=
  horizon ← member "horizon" (or_empty (get "dimensions" p));
  verified ← (if horizon : bool then Ok true else member "timing_verified" (or_empty (get "qualifiers" p)));
  Ok (if verified : bool then [] else ["crpo_timing_unverified"%string]).

Definition metric_rule_errors (metric_id : string) (p : payload) : checked (list string) :=
  billings ← (if bool_decide (metric_id = "billings"%string) && is_str "derived" (get "reported_or_derived" p)
              then billings_errors p else Ok []);
  crpo ← (if bool_decide (metric_id = "crpo"%string) then crpo_errors p else Ok []);
  Ok (billings ++ crpo).

(** [field not in quals or not str(quals.get(field, "")).strip()] *)
Definition missing_qualifier (quals : value) (field : string) : checked (list string) :=
  let message := ("missing required qualifier: " +:+ field)%string in
  present ← member field quals;
  if present : bool then
    v ← attr_get quals field (StrV "");
    Ok (if bool_decide (strip (py_str v) = EmptyString) then [message] else [])
  else Ok [message].

Definition accounting_errors (p : payload) (o : ontology) : checked (list string) :=
  match get "metric_id" p with
  | StrV metric_id =>
      match metric o metric_id with
      | None => Ok (if is_str "kpi" (get "kind" p) then [("unknown ontology metric_id: " +:+ metric_id)%string] else [])
      | Some m =>
          svc ← svc_gm_errors metric_id p;
          percent ← percent_errors m p;
          rules ← metric_rule_errors metric_id p;
          missing ← mapM (missing_qualifier (or_empty (get "qualifiers" p))) (required_qualifiers m);
          Ok (svc ++ percent ++ rules ++ concat missing)
      end
  | _ => Ok ["metric_id missing"%string]
  end.

(** * Facts *)

Record fact := Fact {
  f_index : nat; f_metric : string; f_entity : string; f_period : string; f_unit : string; f_currency : string;
  f_dimensions : list (string * string); f_magnitude : decimal;
}.

#[export] Instance fact_eq_dec : EqDecision fact.
Proof using Type. solve_decision. Defined.

(** the order of sorted pairs of strings *)
Definition pair_le (a b : string * string) : Prop := if decide (a.1 = b.1) then String.le a.2 b.2 else String.le a.1 b.1.
#[export] Instance pair_le_dec : RelDecision pair_le.
Proof using Type. intros a b. unfold pair_le. destruct (decide (a.1 = b.1)); apply _. Defined.

(** [str(payload.get(k) or "")] *)
Definition text_or_empty (v : value) : string := if truth v then py_str v else ""%string.

Definition fact_of (index : nat) (p : payload) : checked (option fact) :=
  if negb (is_str "kpi" (get "kind" p)) then Ok None else
  match decimal_or_none (get "value" p), get "metric_id" p, get "unit" p, dict_or_empty (get "dimensions" p) with
  | Some v, StrV metric_id, StrV unit, Some dims =>
      m ← magnitude v (get "scale" p);
      Ok (Some (Fact index metric_id (text_or_empty (get "entity_id" p)) (canonical_json (get "period" p))
        (canonical_unit_text currency_codes unit) (text_or_empty (get "currency" p))
        (py_sorted pair_le ((λ kv, (kv.1, py_str kv.2)) <$> dims)) m))
  | _, _, _, _ => Ok None
  end.

Fixpoint facts_from (index : nat) (payloads : list payload) : checked (list fact) :=
  match payloads with
  | [] => Ok []
  | p :: ps => f ← fact_of index p; fs ← facts_from (S index) ps; Ok (option_list f ++ fs)
  end.

Definition facts (payloads : list payload) : checked (list fact) := facts_from 0 payloads.
End accounting.

(** * Identities *)

Notation slice := (string * string * string * string * list (string * string))%type.
Notation codes := (list (nat * list string)).

(** [out.setdefault(index, [])], then the code unless it is there *)
Fixpoint record_code (index : nat) (code : string) (out : codes) : codes :=
  match out with
  | [] => [(index, [code])]
  | (i, cs) :: out' =>
      if decide (i = index) then (i, if decide (code ∈ cs) then cs else cs ++ [code]) :: out'
      else (i, cs) :: record_code index code out'
  end.

Definition record_all (out : codes) (fs : list fact) (code : string) : codes :=
  foldl (λ out f, record_code (f_index f) code out) out fs.

Definition context_of (ignore : list string) (f : fact) : slice :=
  (f_entity f, f_period f, f_unit f, f_currency f, filter (λ d, d.1 ∉ ignore) (f_dimensions f)).

(** [groups.setdefault(key(fact), []).append(fact)] over the facts that qualify *)
Definition grouped {K} `{!EqDecision K} (key : fact → K) (keep : fact → bool) (fs : list fact) : list (K * list fact) :=
  foldl (λ d f, dict_push (key f) f d) [] (filter (λ f, keep f = true) fs).

Definition by_metric (group : list fact) : list (string * list fact) := grouped f_metric (λ _, true) group.

Definition sole (indexed : list (string * list fact)) (metric_id : string) : option fact :=
  match dict_get metric_id indexed with Some [f] => Some f | _ => None end.

Definition balance_group (out : codes) (group : list fact) : checked codes :=
  let indexed := by_metric group in
  match sole indexed "rpo", sole indexed "crpo" with
  | Some rpo, Some crpo =>
      rpo_size ← py_abs (f_magnitude rpo);
      crpo_size ← py_abs (f_magnitude crpo);
      if dec_ltb rpo_size crpo_size then
        equal ← relatively_equal crpo_size rpo_size;
        Ok (if equal : bool then out else record_all out [rpo; crpo] (IDENTITY_PREFIX +:+ "crpo_exceeds_rpo")%string)
      else Ok out
  | _, _ => Ok out
  end.

Definition check_rpo_balance (fs : list fact) (out : codes) : checked codes :=
  foldM balance_group out
    (grouped (context_of ["horizon"%string]) (λ f, bool_decide (f_metric f ∈ ["rpo"; "crpo"]%string)) fs).*2.

Definition slice_of (f : fact) : string * string * string * string * string :=
  (f_metric f, f_entity f, f_period f, f_unit f, f_currency f).

Definition total_of (segments : list fact) : checked decimal :=
  foldM (λ s f, arith (dec_add DEFAULT_CONTEXT s (f_magnitude f))) dec_zero segments.

Definition is_segment (f : fact) : bool := match f_dimensions f with [_] => true | _ => false end.
Definition is_total (f : fact) : bool := match f_dimensions f with [] => true | _ => false end.

Definition segment_group (out : codes) (group : list fact) : checked codes :=
  let totals := filter (λ f, is_total f = true) group in
  let segments := filter (λ f, is_segment f = true) group in
  let dims := concat (f_dimensions <$> segments) in
  match totals with
  | [whole] =>
      if (length segments <? 2)%nat then Ok out
      else if negb (length (dict_fromkeys dims.*1) =? 1)%nat then Ok out
      else if negb (length (dict_fromkeys dims.*2) =? length segments)%nat then Ok out
      else
        total ← total_of segments;
        equal ← relatively_equal total (f_magnitude whole);
        Ok (if equal : bool then out else record_all out (whole :: segments) (IDENTITY_PREFIX +:+ "segments_do_not_sum")%string)
  | _ => Ok out
  end.

Definition check_segment_sums (fs : list fact) (out : codes) (withheld : list fact) : checked codes :=
  let suppressed := slice_of <$> filter (λ f, is_segment f = true) withheld in
  foldM segment_group out (grouped slice_of (λ f, bool_decide (slice_of f ∉ suppressed)) fs).*2.

Definition profit_group (out : codes) (group : list fact) : checked codes :=
  let indexed := by_metric group in
  match sole indexed "revenue", sole indexed "cogs", sole indexed "gross_profit" with
  | Some revenue, Some cogs, Some gross_profit =>
      cost ← py_abs (f_magnitude cogs);
      expected ← arith (dec_sub DEFAULT_CONTEXT (f_magnitude revenue) cost);
      equal ← relatively_equal (f_magnitude gross_profit) expected;
      Ok (if equal : bool then out else record_all out [revenue; cogs; gross_profit] (IDENTITY_PREFIX +:+ "gross_profit_mismatch")%string)
  | _, _, _ => Ok out
  end.

Definition check_gross_profit (fs : list fact) (out : codes) : checked codes :=
  foldM profit_group out
    (grouped (context_of []) (λ f, bool_decide (f_metric f ∈ ["revenue"; "cogs"; "gross_profit"]%string)) fs).*2.

Definition identity_errors (currency_codes : list string) (payloads : list payload) (excluded : list nat) : checked codes :=
  built ← facts currency_codes payloads;
  let fs := filter (λ f, f_index f ∉ excluded) built in
  let withheld := filter (λ f, f_index f ∈ excluded) built in
  out ← check_rpo_balance fs [];
  out ← check_segment_sums fs out withheld;
  check_gross_profit fs out.
