(* ===== verification/Duplicates.v ===== *)
(** [workers/src/fel_workers/extraction/validate/duplicates.py]: the identity of a
    fact, its economic content, and the groups of payloads that share both.

    Two keys are compared by their hashes, as the source compares them. *)

From Stdlib Require Import QArith Qabs.
From S2P Require Import Prelude Dicts Text Decimals Periods Canonical Payload Ontology Accounting.
Local Open Scope Z_scope.

Definition RANGE_POLICY_VERSION : string := "guidance-range-order/v1".
Definition ONTOLOGY_SUPERSEDES : list string := ["metric_id"; "qualifiers"]%string.

Section duplicates.
Context (currency_codes : list string).

Definition comparability_key_for (p : payload) : list (string * value) :=
  [("kind", get "kind" p); ("metric_id", get "metric_id" p); ("entity_id", get "entity_id" p); ("period", get "period" p);
   ("unit", canonical_unit currency_codes (get "unit" p)); ("currency", get "currency" p);
   ("dimensions", or_empty (get "dimensions" p)); ("qualifiers", or_empty (get "qualifiers" p))]%string.

(** [ontology_comparability_key]: [None] when there is none, or an empty one *)
Definition conflict_key_for (p : payload) (ontology_comparability_key : option string) : string :=
  let identity := comparability_key_for p in
  let identity :=
    match ontology_comparability_key with
    | Some k => if bool_decide (k = ""%string) then identity
                else filter (λ kv, kv.1 ∉ ONTOLOGY_SUPERSEDES) identity ++ [("comparability"%string, StrV k)]
    | None => identity
    end in
  hash_json (DictV [("unit_policy_version", StrV UNIT_POLICY_VERSION); ("range_policy_version", StrV RANGE_POLICY_VERSION);
                    ("identity", DictV identity)]%string).

(** * Magnitudes *)

(** [while len(trimmed) > 1 and trimmed[-1] == 0: trimmed.pop(); exponent += 1],
    the digits last first *)
Fixpoint pop_zeros (rdigits : list N) (exponent : Z) : list N * Z :=
  match rdigits with
  | 0%N :: ((_ :: _) as r) => pop_zeros r (exponent + 1)
  | _ => (rdigits, exponent)
  end.

(** the token of a finite number *)
Definition magnitude_token (d : decimal) (shift : Z) : string :=
  let '(rtrimmed, exponent) := pop_zeros (rev (digits (d_coeff d))) (d_exp d + shift) in
  if bool_decide (rtrimmed = [0%N]) then "0e0"
  else ((if d_sign d then "-" else "") +:+ string_of_digits (rev rtrimmed) +:+ "e" +:+ str_of_Z exponent)%string.

Definition canonical_magnitude (v scale : value) : value :=
  match v with
  | NoneV => NoneV
  | _ => match decimal_of_text (py_str v) with
         | Some (Finite mantissa) => StrV (magnitude_token mantissa (default 0 (int_or_none scale)))
         | _ => v
         end
  end.

(** * Fingerprints and groups *)

Definition fingerprint_fields (p : payload) : list (string * value) :=
  let scale := get "scale" p in
  [("value", canonical_magnitude (get "value" p) scale); ("low", canonical_magnitude (get "low" p) scale);
   ("high", canonical_magnitude (get "high" p) scale); ("text", get "text" p); ("category", get "category" p);
   ("direction", get "direction" p)]%string.

Definition value_fingerprint (p : payload) : string := hash_json (DictV (fingerprint_fields p)).

Definition duplicate_key (p : payload) : string :=
  hash_json (DictV [("identity", DictV (comparability_key_for p)); ("value", StrV (value_fingerprint p))]%string).

Definition duplicate_groups (payloads : list payload) : list (list nat) :=
  let buckets := foldl (λ d ip, dict_push (duplicate_key ip.2) ip.1 d) [] (imap pair payloads) in
  filter (λ members, (1 < length members)%nat) buckets.*2.
End duplicates.

(** * One token per amount *)

(** [v] is a number *)
Definition reads (v : value) (d : decimal) : Prop := is_none v = false ∧ decimal_of_text (py_str v) = Some (Finite d).

Lemma digits_nonempty n : digits n ≠ [].
Proof. intros H. pose proof (ndigits_pos n) as Hpos. unfold ndigits in Hpos. rewrite H in Hpos. cbn in Hpos. lia. Qed.

(** popping zeros divides by ten *)
Lemma pop_zeros_spec n : ∀ e, ∃ u e',
  pop_zeros (rev (digits n)) e = (rev (digits u), e') ∧ e ≤ e' ∧ Z.of_N n = Z.of_N u * 10 ^ (e' - e) ∧
  (u = 0%N ∧ n = 0%N ∨ (u mod 10 ≠ 0)%N).
Proof.
  induction n as [n Hn|n Hn IH] using digits_ind; intros e.
  - exists n, e. rewrite digits_small by done. rewrite Z.sub_diag. split; [|split; [lia|split; [lia|]]].
    + cbn. by destruct n.
    + destruct (N.eq_dec n 0%N) as [->|]; [by left|right]. rewrite N.mod_small by done. done.
  - rewrite digits_big by done. rewrite rev_app_distr. cbn [rev app]. destruct (n mod 10)%N as [|q] eqn:Hmod.
    + destruct (IH (e + 1)) as (u & e' & Hp & He & Hv & Hu). exists u, e'. cbn [pop_zeros].
      assert (∃ x r, rev (digits (n / 10)) = x :: r) as (x & r & Hr).
      { destruct (rev (digits (n / 10))) as [|x r] eqn:Hr; [|eauto]. apply (f_equal (@rev N)) in Hr. rewrite rev_involutive in Hr. by destruct (digits_nonempty (n / 10)). }
      rewrite Hr in *. split; [done|]. split; [lia|]. split; [|destruct Hu as [[-> Hz]|?]; [left|by right]].
      * assert (Z.of_N n = 10 * Z.of_N (n / 10)%N) as ->.
        { rewrite (N.div_mod n 10) at 1 by lia. rewrite Hmod. lia. }
        rewrite Hv. replace (e' - e) with (Z.succ (e' - (e + 1))) by lia. rewrite Z.pow_succ_r by lia. ring.
      * split; [done|]. rewrite (N.div_mod n 10) by lia. rewrite Hz, Hmod. done.
    + exists n, e. cbn [pop_zeros]. rewrite Z.sub_diag. split; [|split; [lia|split; [lia|right; by rewrite Hmod]]].
      rewrite (digits_big n) by done. rewrite Hmod, rev_app_distr. done.
Qed.

(** the parts of the token: a sign, digits that do not end in zero, an exponent *)
Lemma magnitude_token_parts d shift :
  (d_coeff d = 0%N ∧ magnitude_token d shift = "0e0"%string) ∨
  ∃ u e, magnitude_token d shift = ((if d_sign d then "-" else "") +:+ string_of_digits (digits u) +:+ "e" +:+ str_of_Z e)%string ∧
    (u mod 10 ≠ 0)%N ∧ (dq d * q10 shift == inject_Z ((if d_sign d then -1 else 1) * Z.of_N u) * q10 e)%Q.
Proof.
  unfold magnitude_token. destruct (pop_zeros_spec (d_coeff d) (d_exp d + shift)) as (u & e & -> & He & Hv & Hu). rewrite rev_involutive.
  destruct Hu as [[-> Hz]|Hu]; [left; split; [done|by rewrite bool_decide_true]|]. right. rewrite bool_decide_false.
  2:{ intros Hr. apply (f_equal (@rev N)) in Hr. rewrite rev_involutive in Hr. apply (f_equal undigits) in Hr. rewrite undigits_digits in Hr. change (undigits (rev [0%N])) with 0%N in Hr. by subst. }
  exists u, e. split; [done|]. split; [done|]. rewrite dq_unfold, <- Qmult_assoc, <- q10_add. rewrite (q10_split e (d_exp d + shift)) by done.
  rewrite Qmult_assoc, <- inject_Z_mult. unfold sval. destruct (d_sign d); rewrite Hv; apply Qmult_comp; try reflexivity; apply inject_Z_injective; ring.
Qed.

Lemma str_of_Z_inj a b : str_of_Z a = str_of_Z b → a = b.
Proof.
  assert (∀ n, span_digits (string_of_digits (digits n)) = (digits n, EmptyString)) as Hs.
  { intros n. pose proof (span_digits_app (digits n) EmptyString (digits_lt_10 n) eq_refl) as H. by rewrite string_app_nil in H. }
  assert (∀ n s, string_of_digits (digits n) ≠ String "-" s) as Hm.
  { intros n s H. pose proof (Hs n) as Hn. rewrite H in Hn. cbn in Hn. injection Hn as Hn. by destruct (digits_nonempty n). }
  assert (∀ m n, string_of_digits (digits m) = string_of_digits (digits n) → m = n) as Hi.
  { intros m n H. pose proof (Hs m) as H1. rewrite H, Hs in H1. injection H1 as H1. by rewrite <- (undigits_digits m), <- H1, undigits_digits. }
  unfold str_of_Z. destruct (Z.ltb_spec a 0), (Z.ltb_spec b 0); cbn [String.append]; intros H'.
  - injection H' as H'%Hi. lia.
  - symmetry in H'. by destruct (Hm _ _ H').
  - by destruct (Hm _ _ H').
  - apply Hi in H'. lia.
Qed.

Lemma token_inj (s1 s2 : bool) u1 u2 e1 e2 :
  ((if s1 then "-" else "") +:+ string_of_digits (digits u1) +:+ "e" +:+ str_of_Z e1)%string =
  ((if s2 then "-" else "") +:+ string_of_digits (digits u2) +:+ "e" +:+ str_of_Z e2)%string → s1 = s2 ∧ u1 = u2 ∧ e1 = e2.
Proof.
  assert (∀ u r, span_digits (string_of_digits (digits u) +:+ "e" +:+ r)%string = (digits u, ("e" +:+ r)%string)) as Hs.
  { intros u r. apply span_digits_app; [apply digits_lt_10|done]. }
  assert (∀ u r r', (string_of_digits (digits u) +:+ "e" +:+ r)%string ≠ String "-" r') as Hm.
  { intros u r r' H. pose proof (Hs u r) as Hn. rewrite H in Hn. cbn in Hn. injection Hn as Hn _. by destruct (digits_nonempty u). }
  intros H. assert (s1 = s2) as <-.
  { destruct s1, s2; try done; [|symmetry in H]; by destruct (Hm _ _ _ (eq_sym H)). }
  split; [done|]. apply append_inj_l in H. pose proof (Hs u1 (str_of_Z e1)) as H1. rewrite H, Hs in H1. injection H1 as Hu He.
  split; [by rewrite <- (undigits_digits u1), <- Hu, undigits_digits|]. symmetry. by apply str_of_Z_inj.
Qed.

(** numbers that do not end in zero are scaled in one way *)
Lemma scaled_unique (a b : Z) e f : (a mod 10 ≠ 0) → (b mod 10 ≠ 0) → (inject_Z a * q10 e == inject_Z b * q10 f)%Q → a = b ∧ e = f.
Proof.
  assert (∀ a b e f, b mod 10 ≠ 0 → e ≤ f → (inject_Z a * q10 e == inject_Z b * q10 f)%Q → a = b * 10 ^ (f - e)) as Hle.
  { clear. intros a b e f _ Hef H. rewrite (q10_split f e), Qmult_assoc, <- inject_Z_mult in H by done.
    apply Qmult_inj_r in H; [by apply inject_Z_injective|apply q10_nonzero]. }
  assert (∀ a b e f, a mod 10 ≠ 0 → b mod 10 ≠ 0 → e ≤ f → (inject_Z a * q10 e == inject_Z b * q10 f)%Q → a = b ∧ e = f) as Hone.
  { intros a' b' e' f' Ha Hb Hef H. pose proof (Hle _ _ _ _ Hb Hef H) as Heq. destruct (Z.eq_dec e' f') as [->|]; [rewrite Z.sub_diag in Heq; lia|].
    exfalso. apply Ha. rewrite Heq. replace (f' - e') with (Z.succ (f' - e' - 1)) by lia. rewrite Z.pow_succ_r by lia.
    replace (b' * (10 * 10 ^ (f' - e' - 1))) with (b' * 10 ^ (f' - e' - 1) * 10) by ring. apply Z.mod_mul. lia. }
  intros Ha Hb H. destruct (Z.le_ge_cases e f) as [Hef|Hef]; [by apply Hone|]. symmetry in H. destruct (Hone _ _ _ _ Hb Ha Hef H). done.
Qed.

(** Two figures reduce to the same token exactly when their mantissas and scales
    give the same amount: the token neither merges different amounts nor tells
    apart two ways of writing one. *)
Theorem canonical_magnitude_exact (v1 v2 s1 s2 : value) (d1 d2 : decimal) :
  reads v1 d1 → reads v2 d2 →
  canonical_magnitude v1 s1 = canonical_magnitude v2 s2 ↔
  (dq d1 * q10 (default 0%Z (int_or_none s1)) == dq d2 * q10 (default 0%Z (int_or_none s2)))%Q.
Proof.
  intros [Hn1 Hd1] [Hn2 Hd2].
  assert (∀ v s d, is_none v = false → decimal_of_text (py_str v) = Some (Finite d) → canonical_magnitude v s = StrV (magnitude_token d (default 0 (int_or_none s)))) as Hc.
  { intros v s d Hn Hd. unfold canonical_magnitude. destruct v; [done|..]; by rewrite Hd. }
  rewrite (Hc _ _ _ Hn1 Hd1), (Hc _ _ _ Hn2 Hd2). generalize (default 0 (int_or_none s1)) (default 0 (int_or_none s2)). clear. intros z1 z2.
  assert (∀ d z, d_coeff d = 0%N → (dq d * q10 z == 0)%Q) as Hzero.
  { intros [s c e] z Hz. cbn in Hz. subst. rewrite dq_zero. ring. }
  assert (∀ u e (b : bool), (u mod 10 ≠ 0)%N → ~ (inject_Z ((if b then -1 else 1) * Z.of_N u) * q10 e == 0)%Q) as Hnz.
  { intros u e b Hu H. apply Qmult_integral in H as [H|H]; [|by apply q10_nonzero in H]. 
    assert ((if b then -1 else 1) * Z.of_N u = 0) as H' by (by apply inject_Z_injective). destruct u as [|p]; [by apply Hu|destruct b; lia]. }
  assert (∀ u (b : bool), (u mod 10 ≠ 0)%N → ((if b then -1 else 1) * Z.of_N u) mod 10 ≠ 0) as Hm.
  { intros u b Hu H. apply Hu. apply N2Z.inj. rewrite N2Z.inj_mod. change (Z.of_N 10) with 10. change (Z.of_N 0) with 0. destruct b; [|by rewrite Z.mul_1_l in H].
    apply Z.mod_divide in H; [|lia]. apply Z.mod_divide; [lia|]. apply Z.divide_opp_r. by replace (- Z.of_N u) with (-1 * Z.of_N u) by lia. }
  assert (∀ (b : bool) u e, "0e0"%string = ((if b then "-" else "") +:+ string_of_digits (digits u) +:+ "e" +:+ str_of_Z e)%string → u = 0%N) as H0.
  { intros b u e H. change "0e0"%string with ((if false then "-" else "") +:+ string_of_digits (digits 0) +:+ "e" +:+ str_of_Z 0)%string in H.
    apply token_inj in H as (_ & H & _). done. }
  destruct (magnitude_token_parts d1 z1) as [[Hz1 ->]|(u1 & e1 & -> & Hu1 & ->)], (magnitude_token_parts d2 z2) as [[Hz2 ->]|(u2 & e2 & -> & Hu2 & ->)].
  - split; [intros _|done]. by rewrite !Hzero.
  - split; [intros [= H%H0]; by subst|]. rewrite Hzero by done. intros H. symmetry in H. by apply Hnz in H.
  - split; [intros [= H]; symmetry in H; apply H0 in H; by subst|]. rewrite (Hzero d2) by done. intros H. by apply Hnz in H.
  - split.
    + intros [= H]. apply token_inj in H as (-> & -> & ->). reflexivity.
    + intros H. apply scaled_unique in H as [H ->]; [|by apply Hm..]. assert (d_sign d1 = d_sign d2 ∧ u1 = u2) as [-> ->]; [|done].
      assert (u1 ≠ 0%N) by (intros ->; done). assert (u2 ≠ 0%N) by (intros ->; done). destruct (d_sign d1), (d_sign d2); split; try done; lia.
Qed.

Lemma canonical_magnitude_exact_witness :
  canonical_magnitude (StrV "1.2") (IntV 9) = StrV "12e8" ∧
  (canonical_magnitude (StrV "1.2") (IntV 9) = canonical_magnitude (StrV "1200") (IntV 6) ↔
   (dq (Dec false 12 (-1)) * q10 9 == dq (Dec false 1200 0) * q10 6)%Q).
Proof.
  split; [vm_compute; reflexivity|].
  apply (canonical_magnitude_exact (StrV "1.2") (StrV "1200") (IntV 9) (IntV 6)); split; vm_compute; reflexivity.
Defined.
