(* ===== verification/Proposals.v ===== *)
(** [workers/src/fel_workers/extraction/validate/pipeline.py], conflicts.py and
    [proposal_id_for] of hashing.py: the validators composed into proposal drafts
    and conflict groups. *)

From S2P Require Import Prelude Dicts Text Decimals Periods Canonical Payload Ontology Accounting Contract Numeric Normalize Schema Citations Duplicates.
Local Open Scope Z_scope.

Definition VALIDATOR_VERSION : string := "validate/v3".
Definition NON_MAGNITUDE_NORMALIZER_BLOCKERS : list string := ["dimensions_non_string"; "currency_missing_for_monetary"]%string.

(** * Drafts (types.py) *)

Inductive review_priority := Normal | High.

#[export] Instance review_priority_eq_dec : EqDecision review_priority.
Proof. solve_decision. Defined.

(** the parts of [validation_summary] that vary; the versions are constants *)
Record summary := Summary { ok : bool; blockers : list string; duplicate : bool }.

Record draft := Draft {
  d_kind : string; d_metric : string; d_payload : payload; raw_payload_hash : string; definition_hash : string;
  comparability_key : option string; comparability_fields : list string;
  d_summary : summary; d_priority : review_priority; d_evidence : list payload; d_id : string;
}.

Record conflict := Conflict { conflict_key : string; reason_codes : list string; member_proposal_ids : list string }.

(** [ProposalDraft.state] *)
Definition d_state (_ : draft) : string := "needs_review".

Definition with_summary (f : summary → summary) (d : draft) : draft :=
  Draft (d_kind d) (d_metric d) (d_payload d) (raw_payload_hash d) (definition_hash d) (comparability_key d) (comparability_fields d)
    (f (d_summary d)) (d_priority d) (d_evidence d) (d_id d).

Definition with_priority (p : review_priority) (d : draft) : draft :=
  Draft (d_kind d) (d_metric d) (d_payload d) (raw_payload_hash d) (definition_hash d) (comparability_key d) (comparability_fields d)
    (d_summary d) p (d_evidence d) (d_id d).

(** * Identifiers *)

Definition slice_text (s : string) (first last : nat) : string := String.substring first (last - first) s.

Definition proposal_id_for (run_id kind metric_id raw_payload_hash : string) : string :=
  let digest := Sha256.hexdigest (run_id +:+ "|" +:+ kind +:+ "|" +:+ metric_id +:+ "|" +:+ raw_payload_hash)%string in
  (slice_text digest 0 8 +:+ "-" +:+ slice_text digest 8 12 +:+ "-4" +:+ slice_text digest 13 16 +:+ "-a" +:+ slice_text digest 17 20 +:+ "-" +:+
   slice_text digest 20 32)%string.

Section pipeline.
Context (currency_codes : list string) (o : ontology).

(** * One draft *)

Definition collect_blockers (clean : payload) (evidence_by_span : pinned) : checked (list string) :=
  schema ← validate_payload_item clean;
  accounting ← accounting_errors currency_codes clean o;
  definitions ← check_definitions currency_codes clean o;
  claimed ← claimed_span_hashes clean;
  Ok (schema ++ accounting ++ range_errors clean ++ definition_errors clean o ++ definitions ++ citation_errors clean evidence_by_span claimed).

(** [{str(k): str(v) for k, v in quals.items() if v is not None and str(v).strip()}] *)
Definition stated_qualifiers (items : payload) : list (string * string) :=
  omap (M := list) (λ kv : string * value,
    if is_none kv.2 || bool_decide (strip (py_str kv.2) = ""%string) then None else Some (kv.1, py_str kv.2)) items.

Definition comparability_attempt (clean : payload) (metric_id : string) : checked (string * list string) :=
  m ← from_option_err (KeyError (repr_str metric_id)) (metric o metric_id);
  quals ← match or_empty (get "qualifiers" clean) with DictV items => Ok (stated_qualifiers items) | _ => Err AttributeError end;
  key ← build_comparability_key m quals;
  Ok (key, comparability_key_fields m).

(** the key and its fields, or the blocker that says why there is none *)
Definition comparability (clean : payload) (metric_id : string) : checked (option string * list string * list string) :=
  match comparability_attempt clean metric_id with
  | Ok (key, fields) => Ok (Some key, fields, [])
  | Err (KeyError message) | Err (ValueError message) => Ok (None, [], [("comparability_key unavailable: " +:+ message)%string])
  | Err e => Err e
  end.

Definition review_priority_for (blockers : list string) (in_conflict : bool) : review_priority :=
  match blockers with [] => if in_conflict then High else Normal | _ => High end.

(** [str(clean.get("metric_id") or "unknown")] *)
Definition metric_name (clean : payload) : string := py_str (or_else (get "metric_id" clean) (StrV "unknown")).

Definition definition_hash_of (clean : payload) : string :=
  match get "definition" clean with NoneV => sha256_hex "" | v => sha256_hex (py_str v) end.

Definition build_draft (run_id kind : string) (clean : payload) (found : list string) (evidence_by_span : pinned) : checked draft :=
  let metric_id := metric_name clean in
  let raw_hash := hash_json (DictV clean) in
  '(key, fields, unavailable) ← comparability clean metric_id;
  let blockers := found ++ unavailable in
  rows ← evidence_rows clean evidence_by_span;
  Ok (Draft kind metric_id clean raw_hash (definition_hash_of clean) key fields
        (Summary (match blockers with [] => true | _ => false end) blockers false)
        (review_priority_for blockers false) rows (proposal_id_for run_id kind metric_id raw_hash)).

(** keys that begin with an underscore are not part of the payload *)
Definition internal (k : string) : bool := String.prefix "_" k.

Definition clean_payload (p : payload) : payload := filter (λ kv, internal kv.1 = false) p.

Definition normalizer_blockers (p : payload) : list string := match get NORMALIZER_BLOCKERS_KEY p with ListV l => map py_str l | _ => [] end.

(** a draft, and whether the normalizer impugned the row's magnitude; [None] for
    a payload of no known kind *)
Definition validate_one (run_id : string) (evidence_by_span : pinned) (p : payload) : checked (option (draft * bool)) :=
  let clean := clean_payload p in
  known ← in_set (get "kind" clean) KINDS;
  if known : bool then
    let carried := normalizer_blockers p in
    collected ← collect_blockers clean evidence_by_span;
    d ← build_draft run_id (py_str (get "kind" clean)) clean (dict_fromkeys (carried ++ collected)) evidence_by_span;
    Ok (Some (d, existsb (λ b, bool_decide (b ∉ NON_MAGNITUDE_NORMALIZER_BLOCKERS)) carried))
  else Ok None.

(** * Passes over the set *)

Definition mark_duplicate (s : summary) : summary := Summary (ok s) (blockers s ++ ["duplicate_candidate"%string]) true.

Definition mark_duplicates (drafts : list draft) : list draft :=
  foldl (λ ds idx, alter (with_summary mark_duplicate) idx ds) drafts (concat (duplicate_groups currency_codes (d_payload <$> drafts))).

Definition add_codes (codes : list string) (s : summary) : summary := Summary false (dict_fromkeys (blockers s ++ codes)) (duplicate s).

Definition mark_identity_violations (rejected : list nat) (drafts : list draft) : checked (list draft) :=
  codes_by_index ← identity_errors currency_codes (d_payload <$> drafts) rejected;
  Ok (foldl (λ ds ic, alter (with_summary (add_codes ic.2)) ic.1 ds) drafts codes_by_index).

(** * Conflicts (conflicts.py) *)

Definition draft_conflict_key (d : draft) : string := conflict_key_for currency_codes (d_payload d) (comparability_key d).

Definition conflict_of (members : list draft) : list string :=
  let fingerprints := dict_fromkeys ((λ d, value_fingerprint (d_payload d)) <$> members) in
  (if (1 <? length fingerprints)%nat then ["value_disagreement"%string] else []) ++
  (if (length fingerprints =? 1)%nat || existsb (λ d, duplicate (d_summary d)) members then ["duplicate_candidate"%string] else []).

Definition conflict_group (group : string * list draft) : option conflict :=
  let '(key, members) := group in
  if (length members <? 2)%nat then None else
  let member_ids := sorted_strings (filter (λ i, i ≠ ""%string) (d_id <$> members)) in
  if (length member_ids <? 2)%nat then None else
  match conflict_of members with
  | [] => None
  | reasons => Some (Conflict key (sorted_strings (dict_fromkeys reasons)) member_ids)
  end.

Definition detect_conflicts (drafts : list draft) : list conflict :=
  let by_key := foldl (λ d x, dict_push (draft_conflict_key x) x d) [] drafts in
  omap (M := list) conflict_group (py_sorted key_le by_key).

Definition apply_review_priority (conflicts : list conflict) (drafts : list draft) : list draft :=
  let in_conflict := concat (member_proposal_ids <$> conflicts) in
  (λ d, with_priority (review_priority_for (blockers (d_summary d)) (bool_decide (d_id d ∈ in_conflict))) d) <$> drafts.

(** * The pipeline *)

Definition rejected_indices (built : list (draft * bool)) : list nat :=
  (λ im : nat * bool, im.1) <$> filter (λ im, im.2 = true) (imap pair built.*2).

Definition validate_proposals (run_id : string) (payloads : list payload) (evidence_by_span : pinned) : checked (list draft * list conflict) :=
  results ← mapM (validate_one run_id evidence_by_span) payloads;
  let built := omap (M := list) id results in
  let drafts := mark_duplicates built.*1 in
  drafts ← mark_identity_violations (rejected_indices built) drafts;
  let conflicts := detect_conflicts drafts in
  Ok (apply_review_priority conflicts drafts, conflicts).
End pipeline.
