(* ===== verification/ProposalsSound.v ===== *)
(** What the validation pipeline promises: no payload is lost, a draft that is
    reported fit has passed every check, and its priority follows its findings. *)

From S2P Require Import Prelude Dicts Text Decimals Periods Canonical Payload Ontology Accounting Contract Numeric Normalize Schema Citations Duplicates Proposals.
Local Open Scope Z_scope.

(** * Citations *)

(** the cited span is pinned, and no other digest is asserted for it *)
Definition supported (evidence_by_span : pinned) (expected : list (string * string)) (span_id : string) : Prop :=
  ∃ b, dict_get span_id evidence_by_span = Some b ∧ ∀ h, dict_get span_id expected = Some h → actual_hash b = h.

(** the cited span is pinned under the digest asserted for it *)
Definition verified (evidence_by_span : pinned) (expected : list (string * string)) (span_id : string) : Prop :=
  ∃ b, dict_get span_id evidence_by_span = Some b ∧ dict_get span_id expected = Some (actual_hash b).

Lemma cite_all ev expected spans : ∀ errors n errors' n',
  foldl (cite ev expected) (errors, n) spans = (errors', n') →
  errors' = [] ↔ errors = [] ∧ Forall (supported ev expected) spans.
Proof.
  induction spans as [|s spans IH]; intros errors n errors' n' H; cbn [foldl] in H.
  - injection H as <- <-. naive_solver.
  - destruct (cite ev expected (errors, n) s) as [e1 n1] eqn:Hc. rewrite (IH _ _ _ _ H), Forall_cons.
    assert (e1 = [] ↔ errors = [] ∧ supported ev expected s) as ->; [|tauto].
    unfold cite, supported in *. destruct (dict_get s ev) as [b|].
    + destruct (dict_get s expected) as [h|]; [case_bool_decide as Hh|]; injection Hc as <- <-.
      * split; [intros ->; split; [done|]; exists b; split; [done|]; by intros ? [= <-]|tauto].
      * split; [intros Hn; by destruct errors|]. intros (-> & b' & [= <-] & Hb). by destruct Hh, (Hb h).
      * split; [intros ->; split; [done|]; exists b; by split|tauto].
    + injection Hc as <- <-. split; [intros Hn; by destruct errors|]. by intros (_ & b & ? & _).
Qed.

Lemma cite_count ev expected spans : ∀ errors n errors' n',
  foldl (cite ev expected) (errors, n) spans = (errors', n') → (n' ≠ 0)%nat ↔ (n ≠ 0)%nat ∨ Exists (verified ev expected) spans.
Proof.
  induction spans as [|s spans IH]; intros errors n errors' n' H; cbn [foldl] in H.
  - injection H as <- <-. rewrite Exists_nil. tauto.
  - destruct (cite ev expected (errors, n) s) as [e1 n1] eqn:Hc. rewrite (IH _ _ _ _ H), Exists_cons.
    assert ((n1 ≠ 0)%nat ↔ (n ≠ 0)%nat ∨ verified ev expected s) as ->; [|tauto].
    unfold cite, verified in *. destruct (dict_get s ev) as [b|]; [|injection Hc as <- <-; naive_solver].
    destruct (dict_get s expected) as [h|]; [case_bool_decide as Hh|]; injection Hc as <- <-.
    + subst h. split; [intros _; right; by exists b|done].
    + split; [tauto|]. intros [?|(b' & [= <-] & [= Hb])]; [done|]. by destruct Hh.
    + split; [tauto|]. intros [?|(b' & _ & ?)]; done.
Qed.

Lemma citation_errors_nil p ev expected :
  citation_errors p ev expected = [] ↔ Forall (supported ev expected) (cited_spans p) ∧ Exists (verified ev expected) (cited_spans p).
Proof.
  unfold citation_errors. destruct (cited_spans p) as [|s spans].
  - split; [done|]. intros [_ H]. inversion H.
  - destruct (foldl _ _ _) as [errors n] eqn:Hf. pose proof (cite_all _ _ _ _ _ _ _ Hf) as He. pose proof (cite_count _ _ _ _ _ _ _ Hf) as Hn.
    rewrite app_nil, He. assert (unless (negb (n =? 0)%nat) "no verified citation: no cited span asserts a matching text_hash" = [] ↔ (n ≠ 0)%nat) as Hu.
    { destruct (Nat.eqb_spec n 0); split; done. }
    rewrite Hu, Hn. split; [intros [[_ ?] [?|?]]; done|tauto].
Qed.

(** * The passes over the set *)

(** what the later passes may do to a draft *)
Definition grown (d d' : draft) : Prop :=
  d_kind d' = d_kind d ∧ d_payload d' = d_payload d ∧ d_id d' = d_id d ∧ comparability_key d' = comparability_key d ∧ d_evidence d' = d_evidence d ∧
  (∀ b, b ∈ blockers (d_summary d) → b ∈ blockers (d_summary d')) ∧
  (ok (d_summary d') = true → ok (d_summary d) = true ∧ ∀ b, b ∈ blockers (d_summary d') → b ∈ blockers (d_summary d) ∨ b = "duplicate_candidate"%string).

#[export] Instance grown_refl : Reflexive grown.
Proof. intros d. unfold grown. repeat split; auto. Qed.

#[export] Instance grown_trans : Transitive grown.
Proof.
  intros a b c (A1 & A2 & A3 & A4 & A5 & A6 & A7) (B1 & B2 & B3 & B4 & B5 & B6 & B7). unfold grown.
  do 5 (split; [congruence|]). split; [auto|]. intros [Hb Hbs]%B7. destruct (A7 Hb) as [Ha Has]. split; [done|].
  intros x [Hx| ->]%Hbs; auto.
Qed.

Lemma grown_alter (f : summary → summary) i ds :
  (∀ d, grown d (with_summary f d)) → Forall2 grown ds (alter (with_summary f) i ds).
Proof.
  intros Hf. revert i. induction ds as [|d ds IH]; intros [|i]; [constructor|constructor| |].
  - change (Forall2 grown (d :: ds) (with_summary f d :: ds)). constructor; [apply Hf|reflexivity].
  - change (Forall2 grown (d :: ds) (d :: alter (with_summary f) i ds)). constructor; [done|]. apply IH.
Qed.

Lemma grown_fold {A} (step : A → list draft → list draft) (l : list A) :
  (∀ x ds, Forall2 grown ds (step x ds)) → ∀ ds, Forall2 grown ds (foldl (λ ds x, step x ds) ds l).
Proof.
  intros Hs. induction l as [|x l IH]; intros ds; cbn [foldl]; [reflexivity|].
  etrans; [apply Hs|apply IH].
Qed.

Lemma marked_grown d : grown d (with_summary mark_duplicate d).
Proof.
  unfold grown, with_summary, mark_duplicate. cbn [d_kind d_payload d_id comparability_key d_evidence d_summary ok blockers].
  repeat split; auto; intros b; rewrite elem_of_app, ?list_elem_of_singleton; auto.
Qed.

Lemma flagged_grown codes d : grown d (with_summary (add_codes codes) d).
Proof.
  unfold grown, with_summary, add_codes. cbn [d_kind d_payload d_id comparability_key d_evidence d_summary ok blockers].
  repeat split; auto; try done. intros b Hb. apply elem_of_dict_fromkeys, elem_of_app. by left.
Qed.

Section pipeline.
Context (currency_codes : list string) (o : ontology).

Lemma validate_proposals_inv run_id payloads ev drafts conflicts :
  validate_proposals currency_codes o run_id payloads ev = Ok (drafts, conflicts) →
  ∃ results ds,
    Forall2 (λ p r, validate_one currency_codes o run_id ev p = Ok r) payloads results ∧
    Forall2 grown (omap (M := list) id results).*1 ds ∧
    conflicts = detect_conflicts currency_codes ds ∧ drafts = apply_review_priority conflicts ds.
Proof.
  unfold validate_proposals. intros (results & Hr & H)%bind_Ok. apply mapM_Ok in Hr. apply bind_Ok in H as (ds & Hds & [= <- <-]).
  exists results, ds. split; [done|]. split; [|done]. unfold mark_identity_violations in Hds. apply bind_Ok in Hds as (codes & _ & [= <-]).
  etrans; [|apply (grown_fold (λ (ic : nat * list string) ds, alter (with_summary (add_codes ic.2)) ic.1 ds)); intros [i c] ds'; apply grown_alter, flagged_grown].
  apply (grown_fold (λ idx ds, alter (with_summary mark_duplicate) idx ds)). intros i ds'. apply grown_alter, marked_grown.
Qed.

(** a draft as it was built from its payload *)
Lemma validate_one_inv run_id ev p r :
  validate_one currency_codes o run_id ev p = Ok r →
  let clean := clean_payload p in
  match r with
  | None => in_set (get "kind" clean) KINDS = Ok false
  | Some (d, _) =>
      in_set (get "kind" clean) KINDS = Ok true ∧ d_payload d = clean ∧ d_id d = proposal_id_for run_id (d_kind d) (metric_name clean) (hash_json (DictV clean)) ∧
      evidence_rows clean ev = Ok (d_evidence d) ∧
      ∃ found unavailable fields, collect_blockers currency_codes o clean ev = Ok found ∧ comparability o clean (metric_name clean) = Ok (comparability_key d, fields, unavailable) ∧
        blockers (d_summary d) = dict_fromkeys (normalizer_blockers p ++ found) ++ unavailable ∧
        (ok (d_summary d) = true ↔ blockers (d_summary d) = [])
  end.
Proof.
  unfold validate_one. cbv zeta. intros (known & Hk & H)%bind_Ok. destruct known; [|by injection H as <-].
  apply bind_Ok in H as (found & Hf & H). apply bind_Ok in H as (d & Hd & [= <-]). unfold build_draft in Hd.
  apply bind_Ok in Hd as ([[key fields] unavailable] & Hc & Hd). apply bind_Ok in Hd as (rows & Hrows & [= <-]).
  split; [done|]. split; [done|]. split; [done|]. split; [done|]. exists found, unavailable, fields. do 3 (split; [done|]).
  cbn [d_summary ok blockers]. by destruct (_ ++ unavailable).
Qed.

Lemma dict_fromkeys_nil_inv (l : list string) : dict_fromkeys l = [] → l = [].
Proof.
  intros H. destruct l as [|x l]; [done|]. assert (x ∈ dict_fromkeys (x :: l)) as Hx by (apply elem_of_dict_fromkeys; left).
  rewrite H in Hx. by apply not_elem_of_nil in Hx.
Qed.

Lemma collect_blockers_nil clean ev :
  collect_blockers currency_codes o clean ev = Ok [] →
  validate_payload_item clean = Ok [] ∧ accounting_errors currency_codes clean o = Ok [] ∧ range_errors clean = [] ∧
  definition_errors clean o = [] ∧ check_definitions currency_codes clean o = Ok [] ∧
  ∃ claimed, claimed_span_hashes clean = Ok claimed ∧ Forall (supported ev claimed) (cited_spans clean) ∧ Exists (verified ev claimed) (cited_spans clean).
Proof.
  unfold collect_blockers. intros (schema & -> & H)%bind_Ok. apply bind_Ok in H as (accounting & -> & H). apply bind_Ok in H as (definitions & -> & H).
  apply bind_Ok in H as (claimed & Hc & [= H]). rewrite !app_nil in H. destruct H as (-> & -> & -> & -> & -> & H).
  do 5 (split; [done|]). exists claimed. split; [done|]. by apply citation_errors_nil.
Qed.

(** the draft a reported draft was built from *)
Lemma reported_draft run_id payloads ev drafts conflicts d :
  validate_proposals currency_codes o run_id payloads ev = Ok (drafts, conflicts) → d ∈ drafts →
  ∃ p d0 m, p ∈ payloads ∧ validate_one currency_codes o run_id ev p = Ok (Some (d0, m)) ∧ grown d0 (with_priority (d_priority d0) d) ∧
    d_payload d = clean_payload p.
Proof.
  intros H Hd. destruct (validate_proposals_inv _ _ _ _ _ H) as (results & ds & Hr & Hg & -> & ->).
  unfold apply_review_priority in Hd. apply list_elem_of_fmap in Hd as (d1 & -> & Hd1). apply list_elem_of_lookup in Hd1 as (i & Hi).
  destruct (Forall2_lookup_r _ _ _ _ _ Hg Hi) as (d0 & Hd0 & Hg0). apply list_elem_of_lookup_2, list_elem_of_fmap in Hd0 as ([d0' m] & -> & Hin).
  apply list_elem_of_omap in Hin as (r & Hin & Heq). change (r = Some (d0', m)) in Heq. subst r. apply list_elem_of_lookup in Hin as (j & Hj).
  destruct (Forall2_lookup_r _ _ _ _ _ Hr Hj) as (p & Hp & Hv). exists p, d0', m. split; [by eapply list_elem_of_lookup_2|]. split; [done|].
  cbn [fst] in Hg0. split; [exact Hg0|]. destruct (validate_one_inv _ _ _ _ Hv) as (_ & Hpay & _). destruct Hg0 as (_ & Hg0 & _).
  cbn [with_priority d_payload]. by rewrite Hg0.
Qed.

(** A draft reported fit has passed every check: its payload satisfies the frozen
    contract, the accounting rules, the bounds of its range and the definition of
    its metric; it has a comparability key; every span it cites is pinned, no
    digest it asserts for one is wrong, and at least one digest it asserts is
    that of the pinned span.  Its only finding can be that it is a duplicate. *)
Theorem fit_drafts_are_checked (run_id : string) (payloads : list payload) (ev : pinned) (drafts : list draft) (conflicts : list conflict) (d : draft) :
  validate_proposals currency_codes o run_id payloads ev = Ok (drafts, conflicts) → d ∈ drafts → ok (d_summary d) = true →
  validate_payload_item (d_payload d) = Ok [] ∧ accounting_errors currency_codes (d_payload d) o = Ok [] ∧ range_errors (d_payload d) = [] ∧
  definition_errors (d_payload d) o = [] ∧ check_definitions currency_codes (d_payload d) o = Ok [] ∧
  (∃ key, comparability_key d = Some key) ∧
  (∃ claimed, claimed_span_hashes (d_payload d) = Ok claimed ∧ Forall (supported ev claimed) (cited_spans (d_payload d)) ∧
    Exists (verified ev claimed) (cited_spans (d_payload d))) ∧
  Forall (λ b, b = "duplicate_candidate"%string) (blockers (d_summary d)).
Proof.
  intros H Hd Hok. destruct (reported_draft _ _ _ _ _ _ H Hd) as (p & d0 & m & Hp & Hv & Hg & Hpay).
  destruct (validate_one_inv _ _ _ _ Hv) as (_ & _ & _ & _ & found & unavailable & fields & Hfound & Hcomp & Hbl & Hok0).
  destruct Hg as (_ & _ & _ & Hkey & _ & _ & Hgrown). cbn [with_priority d_summary comparability_key] in *.
  destruct (Hgrown Hok) as [Hok' Hbs]. pose proof (proj1 Hok0 Hok') as Hnil. rewrite Hbl in Hnil. apply app_nil in Hnil as [Hnil ->].
  apply dict_fromkeys_nil_inv, app_nil in Hnil as [Hcarried ->]. rewrite Hpay.
  destruct (collect_blockers_nil _ _ Hfound) as (? & ? & ? & ? & ? & ?). do 5 (split; [done|]). split; [|split; [done|]].
  - rewrite Hkey. unfold comparability in Hcomp. destruct (comparability_attempt _ _ _) as [[key fs]|[]]; try done. injection Hcomp as <- _. by exists key.
  - apply Forall_forall. intros b Hb. destruct (Hbs b Hb) as [Hb'| ->]; [|done]. rewrite (proj1 Hok0 Hok') in Hb'. by apply not_elem_of_nil in Hb'.
Qed.

(** The pipeline loses and invents nothing: there is one draft for each payload of
    a known kind, in order, built from the payload without its internal keys and
    identified by its content, and its priority is high exactly when it has a
    finding or belongs to a conflict. *)
Theorem drafts_follow_payloads (run_id : string) (payloads : list payload) (ev : pinned) (drafts : list draft) (conflicts : list conflict) :
  validate_proposals currency_codes o run_id payloads ev = Ok (drafts, conflicts) →
  d_payload <$> drafts = filter (λ p, in_set (get "kind" p) KINDS = Ok true) (clean_payload <$> payloads) ∧
  Forall (λ d, d_id d = proposal_id_for run_id (d_kind d) (metric_name (d_payload d)) (hash_json (DictV (d_payload d))) ∧
    evidence_rows (d_payload d) ev = Ok (d_evidence d) ∧
    (d_priority d = High ↔ blockers (d_summary d) ≠ [] ∨ ∃ c, c ∈ conflicts ∧ d_id d ∈ member_proposal_ids c)) drafts.
Proof.
  intros H. destruct (validate_proposals_inv _ _ _ _ _ H) as (results & ds & Hr & Hg & -> & ->). unfold apply_review_priority.
  set (conflicts := detect_conflicts currency_codes ds). split.
  - rewrite <- list_fmap_compose. change (d_payload ∘ _) with d_payload.
    assert (d_payload <$> ds = d_payload <$> (omap (M := list) id results).*1) as ->.
    { clear -Hg. induction Hg as [|d0 d l k (_ & Hp & _) _ IH]; [done|]. rewrite !fmap_cons. by rewrite Hp, IH. }
    clear -Hr. induction Hr as [|p r payloads results Hv _ IH]; [done|]. rewrite fmap_cons, filter_cons. pose proof (validate_one_inv _ _ _ _ Hv) as Hi. cbv zeta in Hi.
    destruct r as [[d m]|].
    + destruct Hi as (Hk & Hp & _). rewrite decide_True by done. change (omap id (Some (d, m) :: results)) with ((d, m) :: omap (M := list) id results).
      rewrite !fmap_cons. cbn [fst]. by rewrite Hp, IH.
    + rewrite decide_False by (rewrite Hi; congruence). exact IH.
  - apply Forall_fmap, Forall_forall. intros d Hd. cbn [compose d_payload d_id d_kind d_evidence d_priority d_summary with_priority].
    assert (with_priority (review_priority_for (blockers (d_summary d)) (bool_decide (d_id d ∈ concat (member_proposal_ids <$> conflicts)))) d ∈
      apply_review_priority conflicts ds) as Hd' by (apply list_elem_of_fmap; by exists d).
    destruct (reported_draft _ _ _ _ _ _ H Hd') as (p & d0 & m & Hp & Hv & Hg0 & Hpay).
    destruct (validate_one_inv _ _ _ _ Hv) as (_ & Hp0 & Hid & Hrows & _). destruct Hg0 as (Gk & Gp & Gi & _ & Ge & _).
    cbn [with_priority d_kind d_payload d_id d_evidence] in *. split; [by rewrite Gi, Gk, Hpay, Hid|]. split; [by rewrite Ge, Hpay|].
    unfold review_priority_for. assert (d_id d ∈ concat (member_proposal_ids <$> conflicts) ↔ ∃ c, c ∈ conflicts ∧ d_id d ∈ member_proposal_ids c) as Hc.
    { rewrite elem_of_concat. setoid_rewrite list_elem_of_fmap. naive_solver. }
    rewrite <- Hc. destruct (blockers (d_summary d)) as [|b bs]; [|split; [by left|done]].
    case_bool_decide; split; try done; [by right|]. intros [?|?]; done.
Qed.
End pipeline.

(** * Conflicts *)

Section conflicts.
Context (currency_codes : list string).

Lemma fingerprints_differ (fs : list string) :
  (1 < length (dict_fromkeys fs))%nat ↔ ∃ a b, a ∈ fs ∧ b ∈ fs ∧ a ≠ b.
Proof.
  split.
  - intros Hl. destruct (dict_fromkeys fs) as [|a [|b l]] eqn:Hd; cbn in Hl; [lia|lia|]. pose proof (NoDup_dict_fromkeys fs) as Hnd. rewrite Hd in Hnd.
    assert (∀ x, x ∈ a :: b :: l → x ∈ fs) as Hin by (intros x Hx; apply elem_of_dict_fromkeys; by rewrite Hd). exists a, b.
    split; [apply Hin; left|]. split; [apply Hin; right; left|]. apply NoDup_cons in Hnd as [Hnd _]. set_solver.
  - intros (a & b & Ha & Hb & Hne). apply elem_of_dict_fromkeys in Ha, Hb. destruct (dict_fromkeys fs) as [|x [|y l]]; cbn; [by apply not_elem_of_nil in Ha| |lia].
    apply list_elem_of_singleton in Ha, Hb. congruence.
Qed.

Lemma conflict_of_spec members : members ≠ [] →
  let fingerprint d := value_fingerprint (d_payload d) in
  ("value_disagreement"%string ∈ conflict_of members ↔ ∃ a b, a ∈ members ∧ b ∈ members ∧ fingerprint a ≠ fingerprint b) ∧
  ("duplicate_candidate"%string ∈ conflict_of members ↔
     (∀ a b, a ∈ members → b ∈ members → fingerprint a = fingerprint b) ∨ ∃ d, d ∈ members ∧ duplicate (d_summary d) = true) ∧
  conflict_of members ≠ [].
Proof.
  intros Hne. cbv zeta. unfold conflict_of. set (fs := (λ d, value_fingerprint (d_payload d)) <$> members).
  assert ((1 < length (dict_fromkeys fs))%nat ↔ ∃ a b, a ∈ members ∧ b ∈ members ∧ value_fingerprint (d_payload a) ≠ value_fingerprint (d_payload b)) as Hdiff.
  { rewrite fingerprints_differ. unfold fs. split.
    - intros (a & b & (x & -> & Hx)%list_elem_of_fmap & (y & -> & Hy)%list_elem_of_fmap & Hxy). by exists x, y.
    - intros (x & y & Hx & Hy & Hxy). exists (value_fingerprint (d_payload x)), (value_fingerprint (d_payload y)).
      split; [apply list_elem_of_fmap; by exists x|]. split; [apply list_elem_of_fmap; by exists y|done]. }
  assert (length (dict_fromkeys fs) ≠ 0)%nat as Hpos.
  { intros H0. apply length_zero_iff_nil, dict_fromkeys_nil_inv in H0. unfold fs in H0. by destruct members. }
  assert (existsb (λ d, duplicate (d_summary d)) members = true ↔ ∃ d, d ∈ members ∧ duplicate (d_summary d) = true) as Hex.
  { rewrite existsb_exists. setoid_rewrite list_elem_of_In. done. }
  split; [|split].
  - rewrite <- Hdiff, elem_of_app. destruct (Nat.ltb_spec 1 (length (dict_fromkeys fs))); [split; [done|intros _; left; left]|].
    split; [|lia]. intros [Hin|Hin]; [by apply not_elem_of_nil in Hin|]. destruct (_ || _); [by apply list_elem_of_singleton in Hin|by apply not_elem_of_nil in Hin].
  - assert ((length (dict_fromkeys fs) =? 1)%nat = true ↔ ∀ a b, a ∈ members → b ∈ members → value_fingerprint (d_payload a) = value_fingerprint (d_payload b)) as H1.
    { rewrite Nat.eqb_eq. split.
      - intros Hl a b Ha Hb. destruct (decide (value_fingerprint (d_payload a) = value_fingerprint (d_payload b))); [done|]. assert (1 < length (dict_fromkeys fs))%nat; [apply Hdiff; by exists a, b|lia].
      - intros Hall. destruct (Nat.lt_ge_cases 1 (length (dict_fromkeys fs))) as [Hl|]; [|lia]. apply Hdiff in Hl as (a & b & ? & ? & []). by apply Hall. }
    rewrite <- H1, <- Hex, <- orb_true_iff, elem_of_app. destruct (_ || _); [split; [done|intros _; right; left]|].
    split; [|done]. intros [Hin|Hin]; [|by apply not_elem_of_nil in Hin]. destruct (1 <? _)%nat; [by apply list_elem_of_singleton in Hin|by apply not_elem_of_nil in Hin].
  - destruct (Nat.ltb_spec 1 (length (dict_fromkeys fs))); [done|]. assert ((length (dict_fromkeys fs) =? 1)%nat = true) as -> by (apply Nat.eqb_eq; lia). done.
Qed.

Lemma grouped_drafts ds : 
  py_sorted key_le (foldl (λ d x, dict_push (draft_conflict_key currency_codes x) x d) [] ds) ≡ₚ
  (λ k, (k, filter (λ d, draft_conflict_key currency_codes d = k) ds)) <$> dict_fromkeys (draft_conflict_key currency_codes <$> ds).
Proof. by rewrite py_sorted_perm, push_all. Qed.

Lemma conflict_group_key g c : conflict_group g = Some c → conflict_key c = g.1.
Proof.
  destruct g as [key members]. unfold conflict_group. destruct (length members <? 2)%nat; [done|]. destruct (length _ <? 2)%nat; [done|].
  destruct (conflict_of members); [done|]. by intros [= <-].
Qed.

Lemma filter_ids (ids : list string) : Forall (λ i, i ≠ ""%string) ids → filter (λ i, i ≠ ""%string) ids = ids.
Proof. induction 1 as [|i l Hi _ IH]; [done|]. rewrite filter_cons_True by done. by f_equal. Qed.

(** A conflict is raised for exactly the keys that two drafts or more share, with
    all of them as members; it reports a disagreement exactly when two of them
    differ in economic content, and duplicates exactly when they all agree or one
    of them was found to be a duplicate. *)
Theorem detect_conflicts_exact (ds : list draft) (k : string) :
  Forall (λ d, d_id d ≠ ""%string) ds →
  let members := filter (λ d, draft_conflict_key currency_codes d = k) ds in
  let fingerprint d := value_fingerprint (d_payload d) in
  ((∃ c, c ∈ detect_conflicts currency_codes ds ∧ conflict_key c = k) ↔ (2 ≤ length members)%nat) ∧
  (∀ c, c ∈ detect_conflicts currency_codes ds → conflict_key c = k →
    member_proposal_ids c ≡ₚ d_id <$> members ∧
    ("value_disagreement"%string ∈ reason_codes c ↔ ∃ a b, a ∈ members ∧ b ∈ members ∧ fingerprint a ≠ fingerprint b) ∧
    ("duplicate_candidate"%string ∈ reason_codes c ↔
      (∀ a b, a ∈ members → b ∈ members → fingerprint a = fingerprint b) ∨ ∃ d, d ∈ members ∧ duplicate (d_summary d) = true)).
Proof.
  intros Hids. cbv zeta. set (members := filter _ ds).
  assert (∀ c, (c ∈ detect_conflicts currency_codes ds ∧ conflict_key c = k) ↔
    conflict_group (k, members) = Some c ∧ members ≠ []) as Hc.
  { intros c. unfold detect_conflicts. rewrite list_elem_of_omap. setoid_rewrite grouped_drafts. setoid_rewrite list_elem_of_fmap. split.
    - intros ((g & (k' & -> & Hk') & Hg) & Hk). assert (k' = k) as ->.
      { by rewrite <- Hk, (conflict_group_key _ _ Hg). }
      split; [done|]. apply elem_of_dict_fromkeys, list_elem_of_fmap in Hk' as (d & Hdk & Hd).
      assert (d ∈ members) as Hm by (by apply list_elem_of_filter). intros H0. rewrite H0 in Hm. by apply not_elem_of_nil in Hm.
    - intros [Hg Hne]. split.
      + exists (k, members). split; [|done]. exists k. split; [done|]. apply elem_of_dict_fromkeys, list_elem_of_fmap.
        destruct members as [|d ms] eqn:Hm; [done|]. assert (d ∈ members) as Hd by (rewrite Hm; left). apply list_elem_of_filter in Hd as [? ?]. by exists d.
      + exact (conflict_group_key _ _ Hg). }
  assert (Forall (λ i, i ≠ ""%string) (d_id <$> members)) as Hmids.
  { apply Forall_fmap, Forall_forall. intros d [_ Hd]%list_elem_of_filter. rewrite Forall_forall in Hids. by apply Hids. }
  assert (∀ c, conflict_group (k, members) = Some c ↔
    (2 ≤ length members)%nat ∧ c = Conflict k (sorted_strings (dict_fromkeys (conflict_of members))) (sorted_strings (d_id <$> members))) as Hg.
  { intros c. unfold conflict_group. rewrite (filter_ids _ Hmids). unfold sorted_strings at 1. rewrite length_py_sorted, length_fmap.
    destruct (Nat.ltb_spec (length members) 2) as [|Hlen]; [split; [done|lia]|]. destruct members as [|d ms]; [cbn in Hlen; lia|].
    destruct (conflict_of_spec (d :: ms)) as (_ & _ & Hcne); [done|]. destruct (conflict_of (d :: ms)); [done|]. naive_solver. }
  split.
  - split.
    + intros (c & [(? & _)%Hg _]%Hc). done.
    + intros Hlen. eexists. apply Hc. split; [by apply Hg|]. intros H0. rewrite H0 in Hlen. cbn in Hlen. lia.
  - intros c Hin Hk. destruct (proj1 (Hc c) (conj Hin Hk)) as [[_ ->]%Hg Hne]. cbn [member_proposal_ids reason_codes].
    destruct (conflict_of_spec members Hne) as (Hv & Hd & _). split; [apply sorted_strings_perm|].
    rewrite !elem_of_sorted_strings, !elem_of_dict_fromkeys. done.
Qed.

(** * Duplicates *)

(** the values of every group of a dict of lists *)
Definition regroup {K A B} (g : A → B) (d : list (K * list A)) : list (K * list B) := map (λ kl, (kl.1, map g kl.2)) d.

Lemma dict_push_map {K A B} `{!EqDecision K} (g : A → B) (k : K) v (d : list (K * list A)) :
  dict_push k (g v) (regroup g d) = regroup g (dict_push k v d).
Proof.
  induction d as [|[k' l] d IH]; [done|]. cbn [regroup map dict_push fst snd]. destruct (decide (k' = k)); cbn [map fst snd].
  - by rewrite map_app.
  - f_equal. exact IH.
Qed.

Lemma push_map {K A B} `{!EqDecision K} (f : A → K) (g : A → B) (l : list A) : ∀ d,
  foldl (λ d x, dict_push (f x) (g x) d) (regroup g d) l = regroup g (foldl (λ d x, dict_push (f x) x d) d l).
Proof. induction l as [|x l IH]; intros d; cbn [foldl]; [done|]. by rewrite dict_push_map, IH. Qed.

(** Two payloads are in one duplicate group exactly when their keys, the hashes of
    the identity and of the value, coincide, and no group has a single member. *)
Theorem duplicate_groups_exact (payloads : list payload) :
  (∀ i j, i ≠ j →
    (∃ g, g ∈ duplicate_groups currency_codes payloads ∧ i ∈ g ∧ j ∈ g) ↔
    (∃ p q, payloads !! i = Some p ∧ payloads !! j = Some q ∧ duplicate_key currency_codes p = duplicate_key currency_codes q)) ∧
  Forall (λ g, NoDup g ∧ (2 ≤ length g)%nat) (duplicate_groups currency_codes payloads).
Proof.
  set (key (ip : nat * payload) := duplicate_key currency_codes ip.2). set (items := imap pair payloads).
  assert (∀ i p, (i, p) ∈ items ↔ payloads !! i = Some p) as Hitems.
  { intros i p. unfold items. rewrite elem_of_lookup_imap. split; [by intros (? & ? & [= -> ->] & ?)|intros; by exists i, p]. }
  assert (NoDup items.*1) as Hnd.
  { unfold items. rewrite fmap_imap. rewrite (imap_ext _ (λ n _, id n)) by done. rewrite imap_seq_0, list_fmap_id. apply NoDup_seq. }
  assert (∀ g, g ∈ duplicate_groups currency_codes payloads ↔ (2 ≤ length g)%nat ∧ ∃ k, g = (filter (λ ip, key ip = k) items).*1 ∧ k ∈ key <$> items) as Hg.
  { intros g. unfold duplicate_groups. fold items. rewrite list_elem_of_filter. pose proof (push_map key fst items []) as Hp. unfold key in Hp. cbn [regroup map] in Hp.
    rewrite Hp, push_all. unfold regroup. rewrite list_elem_of_fmap. split.
    - intros [Hl (kl & -> & Hkl)]. split; [done|]. rewrite list_elem_of_In in Hkl. apply in_map_iff in Hkl as (kl' & <- & Hkl). apply list_elem_of_In, list_elem_of_fmap in Hkl as (k & -> & Hk).
      exists k. split; [done|]. by apply elem_of_dict_fromkeys.
    - intros [Hl (k & -> & Hk)]. split; [done|]. exists (k, (filter (λ ip, key ip = k) items).*1). split; [done|]. apply list_elem_of_In, in_map_iff.
      exists (k, filter (λ ip, key ip = k) items). split; [done|]. apply list_elem_of_In, list_elem_of_fmap. exists k. split; [done|]. by apply elem_of_dict_fromkeys. }
  assert (∀ i k, i ∈ (filter (λ ip, key ip = k) items).*1 ↔ ∃ p, payloads !! i = Some p ∧ duplicate_key currency_codes p = k) as Hmem.
  { intros i k. rewrite list_elem_of_fmap. split.
    - intros ([i' p] & -> & [Hk Hip]%list_elem_of_filter). exists p. split; [by apply Hitems|done].
    - intros (p & Hp & Hk). exists (i, p). split; [done|]. apply list_elem_of_filter. split; [done|]. by apply Hitems. }
  assert (∀ k, NoDup (filter (λ ip, key ip = k) items).*1) as Hndk.
  { intros k. clear -Hnd. induction items as [|ip l IH]; [constructor|]. rewrite fmap_cons in Hnd. apply NoDup_cons in Hnd as [Hi Hl].
    rewrite filter_cons. case_decide; [|by apply IH]. rewrite fmap_cons. apply NoDup_cons. split; [|by apply IH].
    intros (x & Hx & [_ Hin]%list_elem_of_filter)%list_elem_of_fmap. apply Hi. rewrite Hx. by apply list_elem_of_fmap_2. }
  split.
  - intros i j Hij. split.
    + intros (g & [_ (k & -> & _)]%Hg & (p & Hp & Hpk)%Hmem & (q & Hq & Hqk)%Hmem). exists p, q. split; [done|]. split; [done|]. congruence.
    + intros (p & q & Hp & Hq & Hpq). exists (filter (λ ip, key ip = duplicate_key currency_codes p) items).*1.
      assert (i ∈ (filter (λ ip, key ip = duplicate_key currency_codes p) items).*1) as Hi by (apply Hmem; by exists p).
      assert (j ∈ (filter (λ ip, key ip = duplicate_key currency_codes p) items).*1) as Hj by (apply Hmem; by exists q).
      split; [|done]. apply Hg. split.
      * destruct (filter _ items).*1 as [|x [|y l]]; cbn; [by apply not_elem_of_nil in Hi| |lia]. apply list_elem_of_singleton in Hi, Hj. congruence.
      * exists (duplicate_key currency_codes p). split; [done|]. apply list_elem_of_fmap. exists (i, p). split; [done|]. by apply Hitems.
  - apply Forall_forall. intros g [Hl (k & -> & _)]%Hg. done.
Qed.
End conflicts.

(** * A run of the pipeline *)

Definition kpi_example (amount : string) : payload :=
  [("schema_version", StrV "extraction-payload/v1"); ("kind", StrV "kpi"); ("entity_id", StrV "12345678-1234-5678-1234-567812345678");
   ("issuer_label", StrV "Issuer"); ("metric_id", StrV "cust_total"); ("raw_value", StrV amount); ("value", StrV amount); ("unit", StrV "count");
   ("scale", IntV 0); ("sign", StrV "positive"); ("period", DictV [("type", StrV "instant"); ("instant", StrV "2024-12-31")]); ("dimensions", DictV []);
   ("qualifiers", DictV [("customer_definition", StrV "paying")]); ("reported_or_derived", StrV "reported"); ("_normalizer_version", StrV "normalize/v2");
   ("evidence", ListV [DictV [("source_span_id", StrV "s1"); ("text_hash", StrV "sha256:1")]])]%string.

Definition pinned_example : pinned := [("s1", Block "d1" "1200 customers" "sha256:1")]%string.

Definition run_example : list draft * list conflict :=
  Eval vm_compute in match validate_proposals ["USD"]%string (metrics sample_ontology) "run" [kpi_example "1200"; kpi_example "1300"; [("kind", StrV "note")]]%string pinned_example with
  | Ok r => r | Err _ => ([], []) end.

Lemma fit_drafts_are_checked_witness :
  Forall (λ d, ok (d_summary d) = true ∧ validate_payload_item (d_payload d) = Ok [] ∧ Forall (λ b, b = "duplicate_candidate"%string) (blockers (d_summary d))) run_example.1 ∧
  length run_example.1 = 2%nat.
Proof.
  split; [|vm_compute; reflexivity]. apply Forall_forall. intros d Hd.
  assert (ok (d_summary d) = true) as Hok.
  { revert d Hd. apply Forall_forall, (bool_decide_unpack _). vm_compute. exact I. }
  split; [done|].
  destruct (fit_drafts_are_checked ["USD"]%string (metrics sample_ontology) "run" [kpi_example "1200"; kpi_example "1300"; [("kind", StrV "note")]]%string
    pinned_example run_example.1 run_example.2 d) as (? & _ & _ & _ & _ & _ & _ & ?); [vm_compute; reflexivity|done|done|done].
Defined.

Lemma drafts_follow_payloads_witness :
  d_payload <$> run_example.1 = [clean_payload (kpi_example "1200"); clean_payload (kpi_example "1300")] ∧
  Forall (λ d, d_priority d = High) run_example.1 ∧ length run_example.2 = 1%nat.
Proof.
  destruct (drafts_follow_payloads ["USD"]%string (metrics sample_ontology) "run" [kpi_example "1200"; kpi_example "1300"; [("kind", StrV "note")]]%string
    pinned_example run_example.1 run_example.2) as [-> _]; [vm_compute; reflexivity|].
  split; [vm_compute; reflexivity|]. split; [apply (bool_decide_unpack _); vm_compute; exact I|vm_compute; reflexivity].
Defined.

Definition draft_example : draft := default (Draft "" "" [] "" "" None [] (Summary true [] false) Normal [] "") (head run_example.1).
Definition other_example : draft := default draft_example (run_example.1 !! 1%nat).

Lemma detect_conflicts_exact_witness :
  (∃ c, c ∈ detect_conflicts ["USD"]%string [draft_example; other_example] ∧ conflict_key c = draft_conflict_key ["USD"]%string draft_example) ∧
  value_fingerprint (d_payload draft_example) ≠ value_fingerprint (d_payload other_example).
Proof.
  split; [|apply (bool_decide_unpack _); vm_compute; exact I].
  apply (detect_conflicts_exact ["USD"]%string [draft_example; other_example]).
  - apply (bool_decide_unpack _). vm_compute. exact I.
  - assert (filter (λ d, draft_conflict_key ["USD"]%string d = draft_conflict_key ["USD"]%string draft_example) [draft_example; other_example] =
      [draft_example; other_example]) as ->; [|cbn; lia].
    rewrite !filter_cons, !decide_True by (vm_compute; reflexivity). reflexivity.
Defined.

Lemma duplicate_groups_exact_witness :
  ∃ g, g ∈ duplicate_groups ["USD"]%string [kpi_example "1200"; kpi_example "1300"; kpi_example "1200.0"] ∧ 0%nat ∈ g ∧ 2%nat ∈ g.
Proof.
  apply (duplicate_groups_exact ["USD"]%string [kpi_example "1200"; kpi_example "1300"; kpi_example "1200.0"]); [done|].
  exists (kpi_example "1200"), (kpi_example "1200.0"). split; [reflexivity|]. split; [reflexivity|]. vm_compute. reflexivity.
Defined.
