(* ===== verification/Identities.v ===== *)
(** What the accounting identities decide: the tolerance of the comparison in
    rational numbers, and which payload is flagged with which code. *)

From Stdlib Require Import QArith Qabs Qminmax Lqa.
From S2P Require Import Prelude Dicts Decimals Ratios Canonical Payload Ontology Accounting.
Local Open Scope Z_scope.

(** * Rounding in the default context *)

(** no exponent below [lo], and a magnitude below [10 ^ hi] *)
Definition bounded (lo hi : Z) (d : decimal) : Prop := lo ≤ d_exp d ∧ (Qabs (dq d) < q10 hi)%Q.

(** one unit in the 28th digit *)
Definition ulp28 : Q := 1 # 1000000000000000000000000000.

(** a hundred of them: more than the roundings of one comparison add up to *)
Definition rounding_slack : Q := 1 # 10000000000000000000000000.

Lemma ulp28_q10 : (q10 (1 - prec DEFAULT_CONTEXT) == ulp28)%Q.
Proof. vm_compute. reflexivity. Qed.

Lemma bounded_adjusted lo hi d : d_coeff d ≠ 0%N → bounded lo hi d → ndigits (d_coeff d) + d_exp d ≤ hi.
Proof. intros H0 [_ H]. apply adjusted_lt in H; [|done]. unfold adjusted in H. lia. Qed.

Lemma dec_fix_bounded lo hi d :
  - 1000000 ≤ lo ≤ 0 → hi ≤ 999998 → bounded lo hi d →
  ∃ d', dec_fix DEFAULT_CONTEXT d = Ok d' ∧ bounded lo (hi + 1) d' ∧ (Qabs (dq d' - dq d) <= Qabs (dq d) * ulp28)%Q.
Proof.
  intros Hlo Hhi Hb. assert (∃ d', dec_fix DEFAULT_CONTEXT d = Ok d') as [d' Hd'].
  { destruct (decide (d_coeff d = 0%N)) as [H0|H0]; [unfold dec_fix; rewrite H0; by eexists|].
    apply (dec_fix_total _ default_context_ok); [done|]. pose proof (bounded_adjusted _ _ _ H0 Hb). cbn. lia. }
  exists d'. split; [done|]. destruct Hb as [He Hq].
  assert (Etiny DEFAULT_CONTEXT = -1000026) as Ht by done.
  pose proof (dec_fix_close DEFAULT_CONTEXT default_context_ok d d' ltac:(cbn; lia) ltac:(lia) Hd') as Hc. rewrite ulp28_q10 in Hc.
  split; [|done]. split.
  - destruct (decide (d_coeff d = 0%N)) as [H0|H0].
    + unfold dec_fix in Hd'. rewrite H0 in Hd'. injection Hd' as <-. cbn [d_exp]. rewrite Ht. change (Emax DEFAULT_CONTEXT) with 999999. clear -Hlo He. apply Z.min_glb; lia.
    + destruct (dec_fix_rounded _ default_context_ok _ _ H0 Hd') as (k & Hk & -> & _). lia.
  - assert (Qabs (dq d') <= Qabs (dq d) + Qabs (dq d' - dq d))%Q as Htri.
    { assert (dq d' == dq d + (dq d' - dq d))%Q as Hs by ring. rewrite Hs at 1. apply Qabs_triangle. }
    rewrite q10_add. change (q10 1) with (10 # 1)%Q. pose proof (Qabs_nonneg (dq d)). unfold ulp28 in *. lra.
Qed.

Lemma Qabs_idem q : (Qabs (Qabs q) == Qabs q)%Q.
Proof. apply Qabs_pos, Qabs_nonneg. Qed.

Lemma py_abs_bounded lo hi d :
  - 1000000 ≤ lo ≤ 0 → hi ≤ 999998 → bounded lo hi d →
  ∃ d', py_abs d = Ok d' ∧ bounded lo (hi + 1) d' ∧ (Qabs (dq d' - Qabs (dq d)) <= Qabs (dq d) * ulp28)%Q.
Proof.
  intros Hlo Hhi Hb. destruct (dec_fix_bounded lo hi (dec_abs d)) as (d' & Hd' & Hb' & Hc); [done|done| |].
  - destruct Hb as [He Hq]. split; [done|]. by rewrite dq_abs, Qabs_idem.
  - exists d'. unfold py_abs, arith. rewrite Hd'. split; [done|]. split; [done|]. by rewrite dq_abs, Qabs_idem in Hc.
Qed.

Lemma dec_add_bounded lo hi hi' a b :
  - 1000000 ≤ lo ≤ 0 → hi ≤ hi' ≤ 999990 → bounded lo hi' a → bounded lo hi b →
  ∃ d, dec_add DEFAULT_CONTEXT a b = Ok d ∧ bounded lo (hi' + 2) d ∧
    (Qabs (dq d - (dq a + dq b)) <= Qabs (dq a + dq b) * ulp28)%Q.
Proof.
  intros Hlo Hhi [Hea Ha] [Heb Hb]. pose proof (q10_le hi hi' ltac:(lia)) as Hmono.
  destruct (dec_fix_bounded lo (hi' + 1) (add_exact a b)) as (d & Hd & Hbd & Hc); [done|lia| |].
  - split.
    + unfold add_exact. cbn. lia.
    + rewrite dq_add_exact. eapply Qle_lt_trans; [apply Qabs_triangle|]. rewrite q10_add. change (q10 1) with (10 # 1)%Q.
      pose proof (Qabs_nonneg (dq a)). lra.
  - exists d. unfold dec_add. rewrite Hd. split; [done|]. rewrite dq_add_exact in Hc. replace (hi' + 2) with (hi' + 1 + 1) by lia. done.
Qed.

Lemma bounded_neg lo hi d : bounded lo hi d → bounded lo hi (dec_neg d).
Proof. intros [He Hq]. split; [done|]. by rewrite dq_neg, Qabs_opp. Qed.

Lemma dec_sub_bounded lo hi a b :
  - 1000000 ≤ lo ≤ 0 → hi ≤ 999990 → bounded lo hi a → bounded lo hi b →
  ∃ d, dec_sub DEFAULT_CONTEXT a b = Ok d ∧ bounded lo (hi + 2) d ∧
    (Qabs (dq d - (dq a - dq b)) <= Qabs (dq a - dq b) * ulp28)%Q.
Proof.
  intros Hlo Hhi Ha Hb. destruct (dec_add_bounded lo hi hi a (dec_neg b)) as (d & Hd & Hbd & Hc); [done|lia|done|by apply bounded_neg|].
  exists d. split; [exact Hd|]. split; [done|]. by rewrite dq_neg in Hc.
Qed.

Lemma tolerance_bounded lo hi m :
  - 999990 ≤ lo ≤ 0 → hi ≤ 999990 → bounded lo hi m →
  ∃ d, dec_mul DEFAULT_CONTEXT IDENTITY_RELATIVE_TOLERANCE m = Ok d ∧
    (Qabs (dq d - (1 # 200) * dq m) <= (1 # 200) * Qabs (dq m) * ulp28)%Q.
Proof.
  intros Hlo Hhi [He Hm]. assert (dq (mul_exact IDENTITY_RELATIVE_TOLERANCE m) == (1 # 200) * dq m)%Q as Heq
    by (rewrite dq_mul_exact; apply Qmult_comp; [vm_compute; reflexivity|reflexivity]).
  destruct (dec_fix_bounded (lo - 3) hi (mul_exact IDENTITY_RELATIVE_TOLERANCE m)) as (d & Hd & _ & Hc); [lia|lia| |].
  - split; [unfold mul_exact; cbn; lia|]. rewrite Heq, Qabs_Qmult. change (Qabs (1 # 200)) with (1 # 200)%Q.
    pose proof (Qabs_nonneg (dq m)). lra.
  - exists d. split; [exact Hd|]. rewrite Heq, Qabs_Qmult in Hc. by change (Qabs (1 # 200)) with (1 # 200)%Q in Hc.
Qed.

Lemma abs_close x y e : (Qabs (x - y) <= e → y - e <= x /\ x <= y + e)%Q.
Proof. intros H%Qabs_Qle_condition. lra. Qed.

Lemma Qabs_zero x : (Qabs x <= 0 → x == 0)%Q.
Proof. intros H. apply Qabs_Qle_condition in H as [H1 H2]. lra. Qed.

(** The comparison over the rationals. *)
Lemma relatively_equal_bounded lo hi a b :
  - 900000 ≤ lo ≤ 0 → hi ≤ 900000 → bounded lo hi a → bounded lo hi b →
  ∃ r, relatively_equal a b = Ok r ∧
    let gap := Qabs (dq a - dq b) in let reference := Qmax (Qabs (dq a)) (Qabs (dq b)) in
    (gap <= (1 # 200) * reference * (1 - rounding_slack) → r = true)%Q ∧
    ((1 # 200) * reference * (1 + rounding_slack) < gap → r = false)%Q.
Proof.
  intros Hlo Hhi Ha Hb. unfold relatively_equal.
  destruct (py_abs_bounded lo hi a) as (a' & -> & Hba & Hca); [lia|lia|exact Ha|].
  destruct (py_abs_bounded lo hi b) as (b' & -> & Hbb & Hcb); [lia|lia|exact Hb|]. cbn [mbind result_bind]. cbv zeta.
  set (m := Qmax (Qabs (dq a)) (Qabs (dq b))).
  assert (bounded lo (hi + 1) (dec_max a' b')) as Hbm by (unfold dec_max; by case_match).
  assert (Qabs (dq a) <= m)%Q as Hma by apply Q.le_max_l. assert (Qabs (dq b) <= m)%Q as Hmb by apply Q.le_max_r.
  assert (m == Qabs (dq a) \/ m == Qabs (dq b))%Q as Hm.
  { unfold m. destruct (Q.max_spec (Qabs (dq a)) (Qabs (dq b))) as [[_ ->]|[_ ->]]; [by right|by left]. }
  apply abs_close in Hca, Hcb. pose proof (Qabs_nonneg (dq a)) as Hna. pose proof (Qabs_nonneg (dq b)) as Hnb.
  assert (m * (1 - ulp28) <= dq (dec_max a' b') /\ dq (dec_max a' b') <= m * (1 + ulp28))%Q as [Hm1 Hm2].
  { assert (dq a' <= dq (dec_max a' b') /\ dq b' <= dq (dec_max a' b') /\ (dec_max a' b' = a' \/ dec_max a' b' = b'))%Q as (H1 & H2 & H3).
    { unfold dec_max. destruct (dec_ltb a' b') eqn:Hlt.
      - apply dec_ltb_spec in Hlt. split; [lra|]. split; [lra|by right].
      - assert (dq b' <= dq a')%Q by (apply Qnot_lt_le; intros ?%dec_ltb_spec; congruence). split; [lra|]. split; [lra|by left]. }
    unfold ulp28 in *. split; [destruct Hm; lra|]. destruct H3 as [->| ->]; lra. }
  destruct (dec_eqb (dec_max a' b') dec_zero) eqn:Hz.
  { eexists. split; [done|]. apply dec_eqb_spec in Hz. unfold deq in Hz. change (dq dec_zero) with 0%Q in Hz.
    assert (dq a == 0)%Q as Hza by (apply Qabs_zero; unfold ulp28 in *; lra).
    assert (dq b == 0)%Q as Hzb by (apply Qabs_zero; unfold ulp28 in *; lra).
    split; [intros _; apply dec_eqb_spec; unfold deq; by rewrite Hza, Hzb|]. rewrite Hza, Hzb. change (Qabs (0 - 0)) with 0%Q. unfold rounding_slack. intros. exfalso. lra. }
  destruct (dec_sub_bounded lo hi a b) as (g & Hg & Hbg & Hcg); [lia|lia|exact Ha|exact Hb|]. unfold arith. rewrite Hg. cbn [map_err mbind result_bind].
  destruct (py_abs_bounded lo (hi + 2) g) as (g' & -> & _ & Hcg'); [lia|lia|assumption|]. cbn [mbind result_bind].
  destruct (tolerance_bounded lo (hi + 1) (dec_max a' b')) as (t & Ht & Hct); [lia|lia|assumption|]. rewrite Ht. cbn [map_err mbind result_bind].
  eexists. split; [done|]. set (gap := Qabs (dq a - dq b)) in *.
  assert (gap - gap * ulp28 <= Qabs (dq g) /\ Qabs (dq g) <= gap + gap * ulp28)%Q as [Hg1 Hg2].
  { split.
    - assert (gap <= Qabs (dq g) + Qabs (dq g - (dq a - dq b)))%Q; [|lra]. unfold gap.
      assert (dq a - dq b == dq g + - (dq g - (dq a - dq b)))%Q as Hs by ring. rewrite Hs at 1.
      eapply Qle_trans; [apply Qabs_triangle|]. rewrite Qabs_opp. lra.
    - assert (dq g == (dq a - dq b) + (dq g - (dq a - dq b)))%Q as Hs by ring. rewrite Hs at 1.
      eapply Qle_trans; [apply Qabs_triangle|]. fold gap. lra. }
  pose proof (Qabs_nonneg (dq a - dq b)) as Hgap. fold gap in Hgap. apply abs_close in Hcg', Hct.
  assert (0 <= dq (dec_max a' b'))%Q as Hpos by (unfold ulp28 in *; lra). rewrite (Qabs_pos _ Hpos) in Hct.
  unfold ulp28, rounding_slack in *. split; intros Hlim.
  - apply dec_leb_spec. lra.
  - apply not_true_iff_false. rewrite dec_leb_spec. lra.
Qed.

(** * Which payloads are flagged *)

Definition codes_at (i : nat) (out : codes) : list string := default [] (dict_get i out).

Lemma record_code_spec i c j c' out :
  c ∈ codes_at i (record_code j c' out) ↔ c ∈ codes_at i out ∨ (i = j ∧ c = c').
Proof.
  unfold codes_at. induction out as [|[i' cs] out IH]; cbn [record_code dict_get].
  - destruct (decide (j = i)) as [->|Hne]; cbn; rewrite ?list_elem_of_singleton; set_solver.
  - destruct (decide (i' = j)) as [->|Hne]; cbn [dict_get].
    + destruct (decide (j = i)) as [->|Hne]; cbn [default from_option id]; [|naive_solver].
      destruct (decide (c' ∈ cs)); rewrite ?elem_of_app, ?list_elem_of_singleton; naive_solver.
    + destruct (decide (i' = i)) as [->|Hne']; cbn [default from_option id]; [naive_solver|exact IH].
Qed.

Lemma record_all_spec i c c' fs out :
  c ∈ codes_at i (record_all out fs c') ↔ c ∈ codes_at i out ∨ (c = c' ∧ i ∈ f_index <$> fs).
Proof.
  unfold record_all. revert out. induction fs as [|f fs IH]; intros out; cbn [foldl fmap list_fmap].
  - split; [by left|]. intros [?|[_ Hi]]; [done|]. by apply not_elem_of_nil in Hi.
  - rewrite IH, record_code_spec, elem_of_cons. naive_solver.
Qed.

(** a pass over groups that flags the members of broken ones *)
Lemma flag_groups (step : codes → list fact → checked codes) code (broken : list fact → nat → Prop) groups :
  (∀ out g out', step out g = Ok out' → ∀ i c, c ∈ codes_at i out' ↔ c ∈ codes_at i out ∨ (c = code ∧ broken g i)) →
  ∀ out out', foldM step out groups = Ok out' →
  ∀ i c, c ∈ codes_at i out' ↔ c ∈ codes_at i out ∨ (c = code ∧ ∃ g, g ∈ groups ∧ broken g i).
Proof.
  intros Hstep. induction groups as [|g groups IH]; intros out out' H i c; cbn [foldM] in H.
  - injection H as <-. split; [by left|]. intros [?|(_ & g & []%not_elem_of_nil & _)]. done.
  - destruct (step out g) as [out1|] eqn:H1; [|done]. rewrite (IH _ _ H), (Hstep _ _ _ H1). setoid_rewrite elem_of_cons. naive_solver.
Qed.

Section groups.
Context {K : Type} `{!EqDecision K} (key : fact → K).

Lemma grouped_eq keep fs :
  (grouped key keep fs).*2 =
  (λ k, filter (λ f, key f = k) (filter (λ f, keep f = true) fs)) <$> dict_fromkeys (key <$> filter (λ f, keep f = true) fs).
Proof. unfold grouped. by rewrite push_all, <- list_fmap_compose. Qed.

Lemma grouped_elem keep fs g :
  g ∈ (grouped key keep fs).*2 ↔
  ∃ f, f ∈ fs ∧ keep f = true ∧ g = filter (λ f', key f' = key f) (filter (λ f', keep f' = true) fs).
Proof.
  rewrite grouped_eq. rewrite list_elem_of_fmap. setoid_rewrite elem_of_dict_fromkeys. setoid_rewrite list_elem_of_fmap.
  setoid_rewrite list_elem_of_filter. naive_solver.
Qed.

(** the one fact of its metric in its slice *)
Definition only (fs : list fact) (f : fact) : Prop :=
  f ∈ fs ∧ ∀ f', f' ∈ fs → key f' = key f → f_metric f' = f_metric f → f' = f.

Lemma filter_true {A} (l : list A) : filter (λ _, true = true) l = l.
Proof. induction l as [|x l IH]; [done|]. by rewrite filter_cons_True, IH. Qed.

Lemma filter_single {A} (P : A → Prop) `{∀ x, Decision (P x)} (l : list A) x :
  NoDup l → filter P l = [x] ↔ x ∈ l ∧ P x ∧ ∀ y, y ∈ l → P y → y = x.
Proof.
  intros Hnd. split.
  - intros Hf. assert (x ∈ filter P l) as [HP Hx]%list_elem_of_filter by (rewrite Hf; apply list_elem_of_here).
    split; [done|]. split; [done|]. intros y Hy HPy. assert (y ∈ filter P l) as Hin by (by apply list_elem_of_filter).
    rewrite Hf in Hin. by apply list_elem_of_singleton in Hin.
  - intros (Hx & HP & Hu). apply Permutation_singleton_r. apply NoDup_Permutation; [by apply NoDup_filter|apply NoDup_singleton|].
    intros y. rewrite list_elem_of_filter, list_elem_of_singleton. split; [intros [? ?]; by apply Hu|by intros ->].
Qed.

Lemma sole_spec (metrics : list string) fs k m f :
  NoDup fs → m ∈ metrics →
  sole (by_metric (filter (λ f', key f' = k) (filter (λ f', bool_decide (f_metric f' ∈ metrics) = true) fs))) m = Some f ↔
  only fs f ∧ key f = k ∧ f_metric f = m.
Proof.
  intros Hnd Hm. set (g := filter _ (filter _ fs)). assert (sole (by_metric g) m = Some f ↔ filter (λ f', f_metric f' = m) g = [f]) as ->.
  { unfold sole, by_metric, grouped. rewrite push_all.
    assert (filter (λ f' : fact, true = true) g = g) as -> by apply filter_true.
    destruct (decide (m ∈ f_metric <$> g)) as [Hin|Hin].
    - rewrite dict_get_fmap by (by apply elem_of_dict_fromkeys). by destruct (filter _ g) as [|x [|y l]]; naive_solver.
    - assert (dict_get m ((λ k0, (k0, filter (λ x, f_metric x = k0) g)) <$> dict_fromkeys (f_metric <$> g)) = None) as ->.
      { apply dict_get_None. rewrite <- list_fmap_compose. intros (k' & Hk & Hk')%list_elem_of_fmap. cbn in Hk. rewrite <- Hk in Hk'.
        by apply Hin, elem_of_dict_fromkeys. }
      split; [done|]. intros Hf. destruct Hin. apply list_elem_of_fmap. exists f.
      assert (f ∈ filter (λ f', f_metric f' = m) g) as [? ?]%list_elem_of_filter by (rewrite Hf; apply list_elem_of_here). done. }
  rewrite filter_single by (by apply NoDup_filter, NoDup_filter). unfold g, only. setoid_rewrite list_elem_of_filter.
  setoid_rewrite list_elem_of_filter. setoid_rewrite bool_decide_eq_true. split.
  - intros ((<- & ? & ?) & <- & Hu). split_and!; [done| |done|done]. intros f' Hf' Hk Hmm. apply Hu; [|done]. by rewrite Hmm.
  - intros ((? & Hu) & <- & <-). split_and!; [done|done|done|done|]. intros y (? & ? & ?) ?. by apply Hu.
Qed.
End groups.

(** ** The facts of a list of payloads *)

Lemma facts_from_index codes_ n payloads fs :
  facts_from codes_ n payloads = Ok fs →
  NoDup fs ∧ ∀ f, f ∈ fs → (n <= f_index f < n + length payloads)%nat ∧
    ∃ p, payloads !! (f_index f - n)%nat = Some p ∧ fact_of codes_ (f_index f) p = Ok (Some f).
Proof.
  revert n fs. induction payloads as [|p ps IH]; intros n fs H; cbn [facts_from] in H.
  - injection H as <-. split; [constructor|]. intros f Hf. by apply not_elem_of_nil in Hf.
  - apply bind_Ok in H as (o & Ho & H). apply bind_Ok in H as (fs' & Hfs & H). injection H as <-. destruct (IH _ _ Hfs) as [Hnd Hall].
    assert (∀ f, o = Some f → f_index f = n) as Hidx.
    { intros f ->. unfold fact_of in Ho. repeat case_match; simplify_eq; apply bind_Ok in Ho as (m & _ & Ho); by injection Ho as <-. }
    split.
    + destruct o as [f|]; [|done]. cbn. constructor; [|done]. intros Hf. destruct (Hall f Hf) as [Hb _]. specialize (Hidx f eq_refl). lia.
    + intros f [Hf|Hf]%elem_of_app.
      * destruct o as [f0|]; [|by apply not_elem_of_nil in Hf]. apply list_elem_of_singleton in Hf as ->. specialize (Hidx f0 eq_refl).
        rewrite Hidx, Nat.sub_diag. split; [cbn; lia|]. exists p. split; [done|]. by rewrite Ho.
      * destruct (Hall f Hf) as (Hb & p' & Hp' & Hf'). split; [cbn; lia|]. exists p'. split; [|done].
        replace (f_index f - n)%nat with (S (f_index f - S n)) by lia. done.
Qed.

(** ** The identities, declaratively *)

(** cRPO above RPO in one slice, the horizon aside *)
Definition broken_balance (fs : list fact) (i : nat) : Prop :=
  ∃ rpo crpo rpo_size crpo_size, only (context_of ["horizon"%string]) fs rpo ∧ only (context_of ["horizon"%string]) fs crpo ∧
    f_metric rpo = "rpo"%string ∧ f_metric crpo = "crpo"%string ∧
    context_of ["horizon"%string] rpo = context_of ["horizon"%string] crpo ∧
    py_abs (f_magnitude rpo) = Ok rpo_size ∧ py_abs (f_magnitude crpo) = Ok crpo_size ∧
    dec_ltb rpo_size crpo_size = true ∧ relatively_equal crpo_size rpo_size = Ok false ∧ i ∈ [f_index rpo; f_index crpo].

(** gross profit away from revenue less the size of the cost *)
Definition broken_profit (fs : list fact) (i : nat) : Prop :=
  ∃ revenue cogs profit cost expected, only (context_of []) fs revenue ∧ only (context_of []) fs cogs ∧ only (context_of []) fs profit ∧
    f_metric revenue = "revenue"%string ∧ f_metric cogs = "cogs"%string ∧ f_metric profit = "gross_profit"%string ∧
    context_of [] cogs = context_of [] revenue ∧ context_of [] profit = context_of [] revenue ∧
    py_abs (f_magnitude cogs) = Ok cost ∧ dec_sub DEFAULT_CONTEXT (f_magnitude revenue) cost = Ok expected ∧
    relatively_equal (f_magnitude profit) expected = Ok false ∧ i ∈ [f_index revenue; f_index cogs; f_index profit].

Definition segments_of (fs : list fact) (whole : fact) : list fact :=
  filter (λ f, slice_of f = slice_of whole ∧ is_segment f = true) fs.

(** a total away from the sum of its segments along one dimension *)
Definition broken_segments (fs withheld : list fact) (i : nat) : Prop :=
  ∃ whole name total, whole ∈ fs ∧ is_total whole = true ∧
    (∀ f, f ∈ fs → slice_of f = slice_of whole → is_total f = true → f = whole) ∧
    (∀ f, f ∈ withheld → is_segment f = true → slice_of f ≠ slice_of whole) ∧
    (2 ≤ length (segments_of fs whole))%nat ∧
    (∀ f, f ∈ segments_of fs whole → ∃ member, f_dimensions f = [(name, member)]) ∧
    NoDup (f_dimensions <$> segments_of fs whole) ∧
    total_of (segments_of fs whole) = Ok total ∧ relatively_equal total (f_magnitude whole) = Ok false ∧
    i ∈ f_index <$> whole :: segments_of fs whole.

Definition balance_hit (g : list fact) (i : nat) : Prop :=
  ∃ rpo crpo rpo_size crpo_size, sole (by_metric g) "rpo" = Some rpo ∧ sole (by_metric g) "crpo" = Some crpo ∧
    py_abs (f_magnitude rpo) = Ok rpo_size ∧ py_abs (f_magnitude crpo) = Ok crpo_size ∧
    dec_ltb rpo_size crpo_size = true ∧ relatively_equal crpo_size rpo_size = Ok false ∧ i ∈ [f_index rpo; f_index crpo].

Definition profit_hit (g : list fact) (i : nat) : Prop :=
  ∃ revenue cogs profit cost expected, sole (by_metric g) "revenue" = Some revenue ∧ sole (by_metric g) "cogs" = Some cogs ∧
    sole (by_metric g) "gross_profit" = Some profit ∧ py_abs (f_magnitude cogs) = Ok cost ∧
    dec_sub DEFAULT_CONTEXT (f_magnitude revenue) cost = Ok expected ∧
    relatively_equal (f_magnitude profit) expected = Ok false ∧ i ∈ [f_index revenue; f_index cogs; f_index profit].

Lemma balance_step out g out' :
  balance_group out g = Ok out' → ∀ i c, c ∈ codes_at i out' ↔
    c ∈ codes_at i out ∨ (c = (IDENTITY_PREFIX +:+ "crpo_exceeds_rpo")%string ∧ balance_hit g i).
Proof.
  unfold balance_group, balance_hit. intros H i c.
  destruct (sole (by_metric g) "rpo") as [rpo|]; [|by injection H as <-; naive_solver].
  destruct (sole (by_metric g) "crpo") as [crpo|]; [|by injection H as <-; naive_solver].
  apply bind_Ok in H as (rs & Hrs & H). apply bind_Ok in H as (cs & Hcs & H).
  assert ((∃ r c' rs' cs', Some rpo = Some r ∧ Some crpo = Some c' ∧ py_abs (f_magnitude r) = Ok rs' ∧ py_abs (f_magnitude c') = Ok cs' ∧
      dec_ltb rs' cs' = true ∧ relatively_equal cs' rs' = Ok false ∧ i ∈ [f_index r; f_index c']) ↔
    dec_ltb rs cs = true ∧ relatively_equal cs rs = Ok false ∧ i ∈ [f_index rpo; f_index crpo]) as ->.
  { split; [intros (r & c' & rs' & cs' & [= <-] & [= <-] & Hrs' & Hcs' & ?); rewrite Hrs in Hrs'; rewrite Hcs in Hcs'; simplify_eq; tauto|intros ?; exists rpo, crpo, rs, cs; tauto]. }
  destruct (dec_ltb rs cs); [|injection H as <-; split; [by left|intros [?|(_ & [=] & _)]; done]].
  apply bind_Ok in H as (eq & Heq & H). rewrite Heq. destruct eq; injection H as <-.
  - split; [by left|intros [?|(_ & _ & [=] & _)]; done].
  - rewrite !record_code_spec, !elem_of_cons, elem_of_nil. naive_solver.
Qed.

Lemma profit_step out g out' :
  profit_group out g = Ok out' → ∀ i c, c ∈ codes_at i out' ↔
    c ∈ codes_at i out ∨ (c = (IDENTITY_PREFIX +:+ "gross_profit_mismatch")%string ∧ profit_hit g i).
Proof.
  unfold profit_group, profit_hit. intros H i c.
  destruct (sole (by_metric g) "revenue") as [revenue|]; [|by injection H as <-; naive_solver].
  destruct (sole (by_metric g) "cogs") as [cogs|]; [|by injection H as <-; naive_solver].
  destruct (sole (by_metric g) "gross_profit") as [profit|]; [|by injection H as <-; naive_solver].
  apply bind_Ok in H as (cost & Hcost & H). apply bind_Ok in H as (e & He & H). unfold arith in He. apply map_err_Ok in He.
  assert ((∃ r c' p' cost' e', Some revenue = Some r ∧ Some cogs = Some c' ∧ Some profit = Some p' ∧ py_abs (f_magnitude c') = Ok cost' ∧
      dec_sub DEFAULT_CONTEXT (f_magnitude r) cost' = Ok e' ∧ relatively_equal (f_magnitude p') e' = Ok false ∧
      i ∈ [f_index r; f_index c'; f_index p']) ↔
    relatively_equal (f_magnitude profit) e = Ok false ∧ i ∈ [f_index revenue; f_index cogs; f_index profit]) as ->.
  { split; [intros (r & c' & p' & cost' & e' & [= <-] & [= <-] & [= <-] & Hcost' & He' & ?); rewrite Hcost in Hcost'; injection Hcost' as <-; rewrite He in He'; simplify_eq; tauto|].
    intros ?. exists revenue, cogs, profit, cost, e. tauto. }
  apply bind_Ok in H as (eq & Heq & H). rewrite Heq. destruct eq; injection H as <-.
  - split; [by left|intros [?|(_ & [=] & _)]; done].
  - rewrite !record_code_spec, !elem_of_cons, elem_of_nil. naive_solver.
Qed.

Lemma balance_spec fs i :
  NoDup fs →
  (∃ g, g ∈ (grouped (context_of ["horizon"%string]) (λ f, bool_decide (f_metric f ∈ ["rpo"; "crpo"]%string)) fs).*2 ∧ balance_hit g i) ↔
  broken_balance fs i.
Proof.
  intros Hnd. setoid_rewrite grouped_elem. split.
  - intros (g & (f & Hf & _ & ->) & (rpo & crpo & rs & cs & Hr & Hc & H)).
    apply sole_spec in Hr as (Hr & Hrk & Hrm), Hc as (Hc & Hck & Hcm); [|done|set_solver|done|set_solver].
    exists rpo, crpo, rs, cs. repeat (split; [done|]). split; [congruence|]. tauto.
  - intros (rpo & crpo & rs & cs & Hr & Hc & Hrm & Hcm & Hk & H). eexists. split.
    + exists rpo. split; [apply Hr|]. split; [|done]. apply bool_decide_eq_true. rewrite Hrm. set_solver.
    + exists rpo, crpo, rs, cs. split; [apply sole_spec; [done|set_solver|done]|]. split; [apply sole_spec; [done|set_solver|done]|]. done.
Qed.

Lemma profit_spec fs i :
  NoDup fs →
  (∃ g, g ∈ (grouped (context_of []) (λ f, bool_decide (f_metric f ∈ ["revenue"; "cogs"; "gross_profit"]%string)) fs).*2 ∧ profit_hit g i) ↔
  broken_profit fs i.
Proof.
  intros Hnd. setoid_rewrite grouped_elem. split.
  - intros (g & (f & Hf & _ & ->) & (rev & cogs & gp & cost & e & Hr & Hc & Hg & H)).
    apply sole_spec in Hr as (Hr & Hrk & Hrm), Hc as (Hc & Hck & Hcm), Hg as (Hg & Hgk & Hgm); [|done|set_solver..].
    exists rev, cogs, gp, cost, e. repeat (split; [done|]). split; [congruence|]. split; [congruence|]. tauto.
  - intros (rev & cogs & gp & cost & e & Hr & Hc & Hg & Hrm & Hcm & Hgm & Hck & Hgk & H). eexists. split.
    + exists rev. split; [apply Hr|]. split; [|done]. apply bool_decide_eq_true. rewrite Hrm. set_solver.
    + exists rev, cogs, gp, cost, e. split; [apply sole_spec; [done|set_solver|done]|]. split; [apply sole_spec; [done|set_solver|done]|].
      split; [apply sole_spec; [done|set_solver|done]|]. done.
Qed.

Definition segment_hit (g : list fact) (i : nat) : Prop :=
  ∃ whole total, let segments := filter (λ f, is_segment f = true) g in let dims := concat (f_dimensions <$> segments) in
    filter (λ f, is_total f = true) g = [whole] ∧ (2 ≤ length segments)%nat ∧ length (dict_fromkeys dims.*1) = 1%nat ∧
    length (dict_fromkeys dims.*2) = length segments ∧ total_of segments = Ok total ∧
    relatively_equal total (f_magnitude whole) = Ok false ∧ i ∈ f_index <$> whole :: segments.

Lemma segment_step out g out' :
  segment_group out g = Ok out' → ∀ i c, c ∈ codes_at i out' ↔
    c ∈ codes_at i out ∨ (c = (IDENTITY_PREFIX +:+ "segments_do_not_sum")%string ∧ segment_hit g i).
Proof.
  intros H i c. unfold segment_group, segment_hit in *. cbv zeta in *.
  destruct (filter (λ f, is_total f = true) g) as [|whole [|? ?]];
    [injection H as <-; split; [by left|intros [?|(_ & w & t & [=] & _)]; done]| |
     injection H as <-; split; [by left|intros [?|(_ & w & t & [=] & _)]; done]].
  set (segments := filter (λ f, is_segment f = true) g) in *. set (dims := concat (f_dimensions <$> segments)) in *.
  destruct (Nat.ltb_spec (length segments) 2) as [Hl|Hl];
    [injection H as <-; split; [by left|intros [?|(_ & w & t & _ & ? & _)]; [done|lia]]|].
  destruct (Nat.eqb_spec (length (dict_fromkeys dims.*1)) 1) as [H1|H1]; cbn [negb] in H;
    [|injection H as <-; split; [by left|intros [?|(_ & w & t & _ & _ & ? & _)]; done]].
  destruct (Nat.eqb_spec (length (dict_fromkeys dims.*2)) (length segments)) as [H2|H2]; cbn [negb] in H;
    [|injection H as <-; split; [by left|intros [?|(_ & w & t & _ & _ & _ & ? & _)]; done]].
  apply bind_Ok in H as (total & Ht & H). apply bind_Ok in H as (eq & Heq & H).
  destruct eq; injection H as <-.
  - split; [by left|]. intros [?|(_ & w & t & [= <-] & _ & _ & _ & Ht' & Hf & _)]; [done|]. rewrite Ht in Ht'. injection Ht' as <-. congruence.
  - transitivity (c ∈ codes_at i (record_all out (whole :: segments) (IDENTITY_PREFIX +:+ "segments_do_not_sum")%string)); [done|].
    rewrite record_all_spec. split; intros [?|[Hc Hi]]; [by left|right|by left|right]; (split; [exact Hc|]).
    + by exists whole, total.
    + destruct Hi as (w & t & [= <-] & _ & _ & _ & _ & _ & Hi). exact Hi.
Qed.

(** singleton dimension lists over one name: their members are distinct exactly
    when the lists are *)
Lemma one_dimension (segments : list fact) :
  (∀ f, f ∈ segments → is_segment f = true) → (2 ≤ length segments)%nat →
  let dims := concat (f_dimensions <$> segments) in
  length (dict_fromkeys dims.*1) = 1%nat ∧ length (dict_fromkeys dims.*2) = length segments ↔
  (∃ name, ∀ f, f ∈ segments → ∃ member, f_dimensions f = [(name, member)]) ∧ NoDup (f_dimensions <$> segments).
Proof.
  intros Hseg Hl dims. assert (∃ ds, f_dimensions <$> segments = (λ d, [d]) <$> ds ∧ dims = ds ∧ length ds = length segments) as (ds & Hds & -> & Hlen).
  { unfold dims. clear Hl dims. induction segments as [|f segments IH]; [by exists []|].
    destruct IH as (ds & Hds & Hc & Hn); [intros f' Hf'; apply Hseg; by right|].
    pose proof (Hseg f (list_elem_of_here _ _)) as Hf. unfold is_segment in Hf. destruct (f_dimensions f) as [|d [|? ?]] eqn:Hd; try done.
    exists (d :: ds). rewrite !fmap_cons, Hd, Hds. cbn [fmap list_fmap concat]. rewrite <- Hds, Hc. cbn. auto with lia. }
  assert (∀ f, f ∈ segments → ∃ d, d ∈ ds ∧ f_dimensions f = [d]) as Hin.
  { intros f Hf. assert (f_dimensions f ∈ (λ d, [d]) <$> ds) as (d & Hd & Hdd)%list_elem_of_fmap by (rewrite <- Hds; by apply list_elem_of_fmap_2).
    by exists d. }
  assert (∀ d, d ∈ ds → ∃ f, f ∈ segments ∧ f_dimensions f = [d]) as Hin'.
  { intros d Hd. assert ([d] ∈ f_dimensions <$> segments) as (f & Hf & Hff)%list_elem_of_fmap.
    { rewrite Hds. apply list_elem_of_fmap. by exists d. } by exists f. }
  assert (NoDup (f_dimensions <$> segments) ↔ NoDup ds) as ->.
  { rewrite Hds. split; [apply NoDup_fmap_1|apply NoDup_fmap_2; intros a b; congruence]. }
  assert (length (dict_fromkeys ds.*1) = 1%nat ↔ ∃ name, ∀ d, d ∈ ds → d.1 = name) as Hone.
  { split.
    - intros H1. destruct (dict_fromkeys ds.*1) as [|name [|? ?]] eqn:Hk; try done. exists name. intros d Hd.
      apply list_elem_of_singleton. rewrite <- Hk. by apply elem_of_dict_fromkeys, list_elem_of_fmap_2.
    - intros [name Hname]. destruct ds as [|d0 ds0]; [cbn in Hlen; lia|].
      assert (dict_fromkeys (d0 :: ds0).*1 ≡ₚ [name]) as Hp.
      { apply NoDup_Permutation; [apply NoDup_dict_fromkeys|apply NoDup_singleton|]. intros x.
        rewrite elem_of_dict_fromkeys, list_elem_of_singleton, list_elem_of_fmap. split; [intros (d & -> & Hd); by apply Hname|].
        intros ->. exists d0. split; [symmetry; apply Hname|]; apply list_elem_of_here. }
      by rewrite Hp. }
  assert ((∃ name, ∀ f, f ∈ segments → ∃ member, f_dimensions f = [(name, member)]) ↔ ∃ name, ∀ d, d ∈ ds → d.1 = name) as ->.
  { split; intros [name Hname]; exists name.
    - intros d Hd. destruct (Hin' d Hd) as (f & Hf & Hfd). destruct (Hname f Hf) as [m Hm]. rewrite Hfd in Hm. by injection Hm as ->.
    - intros f Hf. destruct (Hin f Hf) as ([n m] & Hd & Hfd). exists m. rewrite Hfd. by rewrite <- (Hname _ Hd). }
  rewrite Hone, <- Hlen. split; intros [Hname H2]; (split; [done|]); destruct Hname as [name Hname].
  - assert (ds = (λ m, (name, m)) <$> ds.*2) as Heq.
    { rewrite <- list_fmap_compose. rewrite <- (list_fmap_id ds) at 1. apply list_fmap_ext. intros i [n m] Hd. cbn.
      by rewrite <- (Hname _ (list_elem_of_lookup_2 _ _ _ Hd)). }
    rewrite Heq. apply NoDup_fmap_2; [intros a b; congruence|]. apply NoDup_length_dict_fromkeys. by rewrite length_fmap.
  - rewrite dict_fromkeys_id; [by rewrite length_fmap|]. apply NoDup_fmap_2_strong; [|done].
    intros [n m] [n' m'] Ha Hb Hm. cbn in Hm. apply Hname in Ha, Hb. cbn in Ha, Hb. by subst.
Qed.

Lemma segments_spec fs withheld i :
  NoDup fs →
  (∃ g, g ∈ (grouped slice_of (λ f, bool_decide (slice_of f ∉ slice_of <$> filter (λ f, is_segment f = true) withheld)) fs).*2 ∧ segment_hit g i) ↔
  broken_segments fs withheld i.
Proof.
  intros Hnd. setoid_rewrite grouped_elem. set (suppressed := slice_of <$> filter (λ f, is_segment f = true) withheld).
  assert (∀ k, k ∉ suppressed ↔ ∀ f, f ∈ withheld → is_segment f = true → slice_of f ≠ k) as Hsup.
  { intros k. unfold suppressed. rewrite list_elem_of_fmap. setoid_rewrite list_elem_of_filter. naive_solver. }
  assert (∀ k (P : fact → Prop) `{∀ f, Decision (P f)}, k ∉ suppressed →
    filter P (filter (λ f, slice_of f = k) (filter (λ f, bool_decide (slice_of f ∉ suppressed) = true) fs)) =
    filter (λ f, slice_of f = k ∧ P f) fs) as Hfilter.
  { intros k P HP Hk. rewrite !list_filter_filter. apply list_filter_iff. intros f. rewrite bool_decide_eq_true. naive_solver. }
  split.
  - intros (g & (f & Hf & Hkeep%bool_decide_eq_true & ->) & (whole & total & Hw & H)). cbv zeta in H.
    rewrite (Hfilter (slice_of f) (λ f, is_total f = true)) in Hw by done. rewrite (Hfilter (slice_of f) (λ f, is_segment f = true)) in H by done.
    apply filter_single in Hw as (Hwf & [Hwk Hwt] & Hu); [|done].
    assert (filter (λ f', slice_of f' = slice_of f ∧ is_segment f' = true) fs = segments_of fs whole) as Heq by (unfold segments_of; by rewrite Hwk).
    rewrite Heq in H. destruct H as (Hl & H1 & H2 & Ht & Hr & Hi).
    destruct (proj1 (one_dimension (segments_of fs whole) ltac:(by intros ? [[_ ?] _]%list_elem_of_filter) Hl) (conj H1 H2)) as [[name Hname] Hdist].
    exists whole, name, total. split; [done|]. split; [done|]. split; [intros f' ? Hk ?; apply Hu; [done|split; [congruence|done]]|].
    split; [intros f' ? ?; rewrite Hwk; by apply (proj1 (Hsup (slice_of f)) Hkeep)|]. done.
  - intros (whole & name & total & Hwf & Hwt & Hu & Hw & Hl & Hname & Hdist & Ht & Hr & Hi). eexists. split.
    + exists whole. split; [done|]. split; [|done]. apply bool_decide_eq_true, Hsup. exact Hw.
    + exists whole, total. cbv zeta. apply Hsup in Hw.
      rewrite (Hfilter (slice_of whole) (λ f, is_total f = true)), (Hfilter (slice_of whole) (λ f, is_segment f = true)) by done.
      split; [apply filter_single; [done|]; split; [done|]; split; [done|]; intros y Hy [Hk Hty]; by apply Hu|].
      fold (segments_of fs whole). split; [done|].
      destruct (proj2 (one_dimension (segments_of fs whole) ltac:(by intros ? [[_ ?] _]%list_elem_of_filter) Hl)) as [H1 H2]; [split; [by exists name|done]|].
      done.
Qed.

(** The identities over given facts. *)
Lemma identities_spec fs withheld out1 out2 out :
  NoDup fs → check_rpo_balance fs [] = Ok out1 → check_segment_sums fs out1 withheld = Ok out2 → check_gross_profit fs out2 = Ok out →
  ∀ i c, c ∈ codes_at i out ↔
    c = (IDENTITY_PREFIX +:+ "crpo_exceeds_rpo")%string ∧ broken_balance fs i ∨
    c = (IDENTITY_PREFIX +:+ "segments_do_not_sum")%string ∧ broken_segments fs withheld i ∨
    c = (IDENTITY_PREFIX +:+ "gross_profit_mismatch")%string ∧ broken_profit fs i.
Proof.
  intros Hnd H1 H2 H3 i c.
  rewrite (flag_groups _ _ profit_hit _ profit_step _ _ H3), (flag_groups _ _ segment_hit _ segment_step _ _ H2),
    (flag_groups _ _ balance_hit _ balance_step _ _ H1), balance_spec, segments_spec, profit_spec by done.
  assert (c ∈ codes_at i [] ↔ False) as -> by (split; [apply not_elem_of_nil|done]). tauto.
Qed.

(** ** No comparison overflows on magnitudes of ordinary size *)

Definition moderate (f : fact) : Prop := bounded (-800000) 800000 (f_magnitude f).

Lemma bounded_mono lo hi lo' hi' d : lo' ≤ lo → hi ≤ hi' → bounded lo hi d → bounded lo' hi' d.
Proof. intros Hlo Hhi [He Hq]. split; [lia|]. eapply Qlt_le_trans; [done|]. by apply q10_le. Qed.

Lemma relatively_equal_total lo hi a b :
  - 900000 ≤ lo ≤ 0 → hi ≤ 900000 → bounded lo hi a → bounded lo hi b → ∃ r, relatively_equal a b = Ok r.
Proof. intros Hlo Hhi Ha Hb. destruct (relatively_equal_bounded lo hi a b Hlo Hhi Ha Hb) as (r & Hr & _). by exists r. Qed.

Lemma Forall_filtered {A} (P Q : A → Prop) `{∀ x, Decision (Q x)} l : Forall P l → Forall P (filter Q l).
Proof. rewrite !Forall_forall. intros Hall x [_ Hx]%list_elem_of_filter. by apply Hall. Qed.

Section total.
Context (lo hi : Z) (Hlo : - 900000 ≤ lo ≤ 0) (Hhi : hi ≤ 800000).
Notation sized := (λ f, bounded lo hi (f_magnitude f)).

Lemma sole_member group m f : sole (by_metric group) m = Some f → f ∈ group.
Proof using Type.
  unfold sole, by_metric, grouped. rewrite push_all, filter_true. intros H.
  destruct (decide (m ∈ f_metric <$> group)) as [Hin|Hin].
  - rewrite dict_get_fmap in H by (by apply elem_of_dict_fromkeys). destruct (filter _ group) as [|x [|y l]] eqn:Hf; try done. injection H as <-.
    assert (x ∈ filter (λ f', f_metric f' = m) group) as [_ ?]%list_elem_of_filter by (rewrite Hf; apply list_elem_of_here). done.
  - assert (dict_get m ((λ k, (k, filter (λ x, f_metric x = k) group)) <$> dict_fromkeys (f_metric <$> group)) = None) as Hn; [|by rewrite Hn in H].
    apply dict_get_None. rewrite <- list_fmap_compose. intros (k' & Hk & Hk')%list_elem_of_fmap. cbn in Hk. rewrite <- Hk in Hk'.
    by apply Hin, elem_of_dict_fromkeys.
Qed.

Lemma total_of_bounded segments :
  Forall sized segments → Z.of_nat (length segments) ≤ 40000 → ∃ t, total_of segments = Ok t ∧ bounded lo (hi + 2 * Z.of_nat (length segments)) t.
Proof using Hlo Hhi.
  intros Hall Hn. unfold total_of.
  assert (∀ s acc, Forall sized s → ∀ h, hi ≤ h → h + 2 * Z.of_nat (length s) ≤ 999990 → bounded lo h acc →
    ∃ t, foldM (λ s f, arith (dec_add DEFAULT_CONTEXT s (f_magnitude f))) acc s = Ok t ∧ bounded lo (h + 2 * Z.of_nat (length s)) t) as Hgen.
  { induction s as [|f s IH]; intros acc Hs h Hh Hlen Hacc; cbn [foldM length].
    - exists acc. split; [done|]. by rewrite Z.add_0_r.
    - apply Forall_cons in Hs as [Hf Hs]. cbn [length] in Hlen. destruct (dec_add_bounded lo hi h acc (f_magnitude f)) as (d & Hd & Hbd & _); [lia|lia|done|done|].
      unfold arith at 1. rewrite Hd. cbn [map_err]. destruct (IH d Hs (h + 2)) as (t & Ht & Hbt); [lia|lia|done|]. exists t. split; [done|].
      eapply bounded_mono; [| |done]; lia. }
  destruct (Hgen segments dec_zero Hall hi) as (t & Ht & Hbt); [lia|lia| |by exists t].
  split; [cbn; lia|]. change (dq dec_zero) with 0%Q. change (Qabs 0) with 0%Q. apply q10_pos.
Qed.

Lemma balance_total out g : Forall sized g → ∃ out', balance_group out g = Ok out'.
Proof using Hlo Hhi.
  intros Hall. unfold balance_group.
  destruct (sole (by_metric g) "rpo") as [rpo|] eqn:Hr; [|by eexists]. destruct (sole (by_metric g) "crpo") as [crpo|] eqn:Hc; [|by eexists].
  apply sole_member in Hr, Hc. rewrite Forall_forall in Hall.
  destruct (py_abs_bounded lo hi (f_magnitude rpo)) as (rs & -> & Hbr & _); [lia|lia|by apply Hall|].
  destruct (py_abs_bounded lo hi (f_magnitude crpo)) as (cs & -> & Hbc & _); [lia|lia|by apply Hall|]. cbn [mbind result_bind].
  destruct (dec_ltb rs cs); [|by eexists].
  destruct (relatively_equal_total lo (hi + 1) cs rs) as [r ->]; [lia|lia|done|done|]. by eexists.
Qed.

Lemma profit_total out g : Forall sized g → ∃ out', profit_group out g = Ok out'.
Proof using Hlo Hhi.
  intros Hall. unfold profit_group.
  destruct (sole (by_metric g) "revenue") as [rev|] eqn:Hr; [|by eexists]. destruct (sole (by_metric g) "cogs") as [cogs|] eqn:Hc; [|by eexists].
  destruct (sole (by_metric g) "gross_profit") as [gp|] eqn:Hg; [|by eexists].
  apply sole_member in Hr, Hc, Hg. rewrite Forall_forall in Hall.
  destruct (py_abs_bounded lo hi (f_magnitude cogs)) as (cost & -> & Hbc & _); [lia|lia|by apply Hall|]. cbn [mbind result_bind].
  destruct (dec_sub_bounded lo (hi + 1) (f_magnitude rev) cost) as (e & He & Hbe & _);
    [lia|lia|eapply bounded_mono; [done| |by apply Hall]; lia|done|]. unfold arith. rewrite He. cbn [map_err mbind result_bind].
  destruct (relatively_equal_total lo (hi + 1 + 2) (f_magnitude gp) e) as [r ->];
    [lia|lia|eapply bounded_mono; [done| |by apply Hall]; lia|done|]. by eexists.
Qed.

Lemma segment_total out g : Forall sized g → Z.of_nat (length g) ≤ 40000 → ∃ out', segment_group out g = Ok out'.
Proof using Hlo Hhi.
  intros Hall Hlen. unfold segment_group. cbv zeta. set (segments := filter (λ f, is_segment f = true) g).
  assert (length segments ≤ length g)%nat as Hl by apply length_filter.
  assert (Forall sized segments) as Hseg by (by apply Forall_filtered).
  destruct (filter (λ f, is_total f = true) g) as [|whole [|? ?]] eqn:Hw; [by eexists| |by eexists].
  assert (whole ∈ filter (λ f, is_total f = true) g) as [_ Hin]%list_elem_of_filter by (rewrite Hw; apply list_elem_of_here).
  repeat (case_match; [by eexists|]).
  destruct (total_of_bounded segments Hseg) as (t & -> & Hbt); [lia|]. cbn [mbind result_bind].
  destruct (relatively_equal_total lo (hi + 2 * Z.of_nat (length segments)) t (f_magnitude whole)) as [r ->];
    [lia|lia|done|eapply bounded_mono; [done| |by apply (proj1 (Forall_forall _ _) Hall)]; lia|]. by eexists.
Qed.

Lemma groups_total (step : codes → list fact → checked codes) groups :
  (∀ out g, g ∈ groups → ∃ out', step out g = Ok out') → ∀ out, ∃ out', foldM step out groups = Ok out'.
Proof using Type.
  induction groups as [|g groups IH]; intros Hstep out; [by eexists|]. cbn [foldM].
  destruct (Hstep out g (list_elem_of_here _ _)) as [out1 ->]. apply IH. intros out' g' Hg. apply Hstep. by right.
Qed.

Lemma identities_total fs withheld :
  Forall sized fs → Z.of_nat (length fs) ≤ 40000 →
  ∃ out1 out2 out, check_rpo_balance fs [] = Ok out1 ∧ check_segment_sums fs out1 withheld = Ok out2 ∧ check_gross_profit fs out2 = Ok out.
Proof using Hlo Hhi.
  intros Hall Hlen.
  assert (∀ {K} `{!EqDecision K} (key : fact → K) keep g, g ∈ (grouped key keep fs).*2 → Forall sized g ∧ Z.of_nat (length g) ≤ 40000) as Hg.
  { intros K HK key keep g (f & _ & _ & ->)%grouped_elem. split; [by apply Forall_filtered, Forall_filtered|].
    assert (length (filter (λ f', key f' = key f) (filter (λ f', keep f' = true) fs)) ≤ length fs)%nat; [|lia].
    etrans; apply length_filter. }
  assert (∃ out1, check_rpo_balance fs [] = Ok out1) as [out1 H1] by (apply groups_total; intros out g [? ?]%Hg; by apply balance_total).
  assert (∃ out2, check_segment_sums fs out1 withheld = Ok out2) as [out2 H2] by (apply groups_total; intros out g [? ?]%Hg; by apply segment_total).
  assert (∃ out3, check_gross_profit fs out2 = Ok out3) as [out3 H3] by (apply groups_total; intros out g [? ?]%Hg; by apply profit_total).
  exists out1, out2, out3. split; [exact H1|]. split; [exact H2|exact H3].
Qed.
End total.

(** * Properties *)

(** The identity comparison means what it says at every scale.  On magnitudes
    below [10 ^ 900000] it never raises, it accepts every gap up to half a percent of the
    larger side and rejects every larger one, but for one part in [10 ^ 25]
    that its roundings can add up to. *)
Theorem relatively_equal_tolerance a b :
  bounded (-900000) 900000 a → bounded (-900000) 900000 b →
  ∃ r, relatively_equal a b = Ok r ∧
    let gap := Qabs (dq a - dq b) in let reference := Qmax (Qabs (dq a)) (Qabs (dq b)) in
    (gap <= (1 # 200) * reference * (1 - rounding_slack) → r = true)%Q ∧
    ((1 # 200) * reference * (1 + rounding_slack) < gap → r = false)%Q.
Proof. apply relatively_equal_bounded; lia. Qed.

(** Identity findings are exact.  On facts of ordinary size the check returns, and
    a payload carries a code exactly when its fact is a member of a broken
    identity of that code: the one RPO and the one cRPO of a slice with cRPO
    larger, the one total and the distinct segments along one dimension of a
    slice that do not sum to it, or the one revenue, cost and gross profit of a
    slice that do not balance.  Ambiguous slices, excluded rows and slices with
    a withheld segment are never flagged. *)
Theorem identity_errors_exact currency_codes payloads excluded fs :
  facts currency_codes payloads = Ok fs → Forall moderate fs → Z.of_nat (length fs) ≤ 40000 →
  let kept := filter (λ f, f_index f ∉ excluded) fs in let withheld := filter (λ f, f_index f ∈ excluded) fs in
  ∃ out, identity_errors currency_codes payloads excluded = Ok out ∧
  (∀ i c, c ∈ codes_at i out ↔
    c = (IDENTITY_PREFIX +:+ "crpo_exceeds_rpo")%string ∧ broken_balance kept i ∨
    c = (IDENTITY_PREFIX +:+ "segments_do_not_sum")%string ∧ broken_segments kept withheld i ∨
    c = (IDENTITY_PREFIX +:+ "gross_profit_mismatch")%string ∧ broken_profit kept i) ∧
  (∀ i c, c ∈ codes_at i out → i ∉ excluded ∧ (i < length payloads)%nat).
Proof.
  intros Hfs Hmod Hlen kept withheld. destruct (facts_from_index _ _ _ _ Hfs) as [Hnd Hidx].
  assert (NoDup kept) as Hkept by (by apply NoDup_filter).
  destruct (identities_total (-800000) 800000 ltac:(lia) ltac:(lia) kept withheld) as (out1 & out2 & out & H1 & H2 & H3).
  { by apply Forall_filtered. }
  { pose proof (length_filter (λ f, f_index f ∉ excluded) fs) as Hl. fold kept in Hl. lia. }
  exists out. split.
  { unfold identity_errors. rewrite Hfs. cbn [mbind result_bind]. cbv zeta. fold kept withheld. rewrite H1. cbn [mbind result_bind].
    rewrite H2. exact H3. }
  pose proof (identities_spec kept withheld out1 out2 out Hkept H1 H2 H3) as Hspec. split; [exact Hspec|].
  assert (∀ f, f ∈ kept → f_index f ∉ excluded ∧ (f_index f < length payloads)%nat) as Hk.
  { intros f [Hn Hf]%list_elem_of_filter. destruct (Hidx f Hf) as [? _]. split; [done|lia]. }
  intros i c [(_ & rpo & crpo & ? & ? & [Hr _] & [Hc _] & _ & _ & _ & _ & _ & _ & _ & Hi)|
    [(_ & whole & name & total & Hw & _ & _ & _ & _ & _ & _ & _ & _ & Hi)|
     (_ & rev & cogs & gp & ? & ? & [Hr _] & [Hc _] & [Hg _] & _ & _ & _ & _ & _ & _ & _ & _ & Hi)]]%Hspec.
  - repeat (apply elem_of_cons in Hi as [->|Hi]; [by apply Hk|]). by apply not_elem_of_nil in Hi.
  - apply list_elem_of_fmap in Hi as (f & -> & Hf). apply Hk. apply elem_of_cons in Hf as [->|[_ Hf]%list_elem_of_filter]; done.
  - repeat (apply elem_of_cons in Hi as [->|Hi]; [by apply Hk|]). by apply not_elem_of_nil in Hi.
Qed.

(** * Witnesses *)

Lemma bounded_small lo hi d : lo ≤ 0 → 5 ≤ hi → bounded 0 5 d → bounded lo hi d.
Proof. apply bounded_mono. Qed.

Lemma relatively_equal_tolerance_witness :
  bounded (-900000) 900000 (Dec false 1000 0) ∧ bounded (-900000) 900000 (Dec true 1006 0) ∧
  ∃ r, relatively_equal (Dec false 1000 0) (Dec true 1006 0) = Ok r.
Proof.
  assert (bounded (-900000) 900000 (Dec false 1000 0)) as Ha by (apply bounded_small; [lia|lia|split; vm_compute; congruence]).
  assert (bounded (-900000) 900000 (Dec true 1006 0)) as Hb by (apply bounded_small; [lia|lia|split; vm_compute; congruence]).
  split; [exact Ha|]. split; [exact Hb|].
  destruct (relatively_equal_tolerance _ _ Ha Hb) as (r & Hr & _). exists r. exact Hr.
Defined.

Definition sample_payload (metric_id amount : string) : payload :=
  [("kind", StrV "kpi"); ("metric_id", StrV metric_id); ("value", StrV amount); ("unit", StrV "USD"); ("entity_id", StrV "e1")]%string.
Definition sample_fact (i : nat) (metric_id : string) (amount : N) : fact := Fact i metric_id "e1" "null" "USD" "" [] (Dec false amount 0).

(** revenue 1000, cost 400, gross profit 700 *)
Lemma identity_errors_exact_witness :
  let payloads := [sample_payload "revenue" "1000"; sample_payload "cogs" "400"; sample_payload "gross_profit" "700"] in
  let fs := [sample_fact 0 "revenue" 1000; sample_fact 1 "cogs" 400; sample_fact 2 "gross_profit" 700] in
  facts ["USD"%string] payloads = Ok fs ∧ Forall moderate fs ∧
  ∃ out, identity_errors ["USD"%string] payloads [] = Ok out ∧
    ∀ i c, c ∈ codes_at i out → i ∉ (nil : list nat) ∧ (i < length payloads)%nat.
Proof.
  intros payloads fs. assert (facts ["USD"%string] payloads = Ok fs) as Hfs by (vm_compute; reflexivity).
  assert (Forall moderate fs) as Hm.
  { repeat (apply Forall_cons; split; [apply bounded_small; [lia|lia|split; vm_compute; congruence]|]). exact (Forall_nil_2 _). }
  split; [exact Hfs|]. split; [exact Hm|].
  destruct (identity_errors_exact ["USD"%string] payloads [] fs Hfs Hm ltac:(cbn; lia)) as (out & Hout & _ & Hidx).
  exists out. split; [exact Hout|exact Hidx].
Defined.
