(* ===== verification/Redact.v ===== *)
(** [workers/src/fel_workers/redact.py]: the sanitizers of error texts that reach
    durable storage.

    [workers/src/fel_workers/extraction/events.py]: redacted run events.

    The mark of a shortened text has a character above 255; it is a parameter. *)

From S2P Require Import Prelude Text Regex Canonical.
Definition MAX_ERROR_CHARS : nat := 256.
Definition TRUNCATED : string := "...[truncated]".

(** * The patterns *)

Definition SPACE : regex := Chars is_space.
Definition NONSPACE : regex := Chars (λ a, negb (is_space a)).
(** [.] *)
Definition DOT : regex := Chars (λ a, negb (bool_decide (a = "010"%char))).
Definition one_of (s : string) : regex := Chars (λ a, bool_decide (a ∈ chars s)).
(** a class under [re.IGNORECASE] *)
Definition one_of_ci (s : string) : regex := Chars (λ a, bool_decide (lower_char a ∈ chars s)).
Definition alternatives (words : list string) : regex := foldr (λ w r, Alt (word w) r) (NotAhead Empty) words.
Definition sequence (rs : list regex) : regex := foldr Seq Empty rs.

Definition QUOTES : ascii → bool := λ a, bool_decide (a = "'"%char ∨ a = QUOTE).

(** [[A-Za-z0-9_-]*] *)
Definition KEY_CHARS : regex :=
  Star (Chars (λ a, let n := N_of_ascii a in
    (48 <=? n) && (n <=? 57) || (65 <=? n) && (n <=? 90) || (97 <=? n) && (n <=? 122) || (n =? 95) || (n =? 45))%N).

Definition SENSITIVE_KEY : regex :=
  sequence [KEY_CHARS;
    Alt (word "secret") (Alt (sequence [word "api"; Opt (one_of "_-"); word "key"]) (alternatives ["password"; "passwd"; "token"; "authorization"]));
    KEY_CHARS]%string.

(** a quote, the text up to its pair, and the pair *)
Definition quoted (name : string) : regex :=
  sequence [Group name (Chars QUOTES); Star (Alt (Seq (one_of "\") DOT) (Seq (NotAhead (Backref name)) DOT)); Backref name].

Definition LITERAL_PREFIX : regex := Seq (Opt (one_of_ci "bruf")) (Opt (one_of_ci "bruf")).
Definition SEPARATOR : regex := sequence [Star SPACE; one_of ":="; Star SPACE].

Definition QUOTED_CREDENTIAL_ASSIGNMENT : regex :=
  sequence [Group "key_quote" (Chars QUOTES); SENSITIVE_KEY; Backref "key_quote"; SEPARATOR; LITERAL_PREFIX; quoted "value_quote"].

Definition SCHEME : regex := alternatives ["bearer"; "basic"]%string.

Definition BARE_CREDENTIAL_ASSIGNMENT : regex :=
  sequence [Boundary; SENSITIVE_KEY; Boundary; SEPARATOR;
    Alt (Seq LITERAL_PREFIX (quoted "bare_value_quote"))
        (Seq (Opt (Seq SCHEME (Plus SPACE))) (Plus (Chars (λ a, negb (is_space a) && bool_decide (a ∉ chars ",;}]")))))].

Definition AUTH_SCHEME : regex := sequence [Boundary; SCHEME; Plus SPACE; Plus NONSPACE].
Definition QUOTED : regex := quoted "quote".

(** * The sanitizers *)

(** [pattern.sub(repl, text)] *)
Definition regex_sub (r : regex) (repl text : string) : string :=
  String.string_of_list_ascii (sub_from (chars text) r (chars repl) (S (String.length text)) 0).

Definition mask_credentials (message : string) : string :=
  let text := regex_sub QUOTED_CREDENTIAL_ASSIGNMENT "[redacted]" message in
  let text := regex_sub BARE_CREDENTIAL_ASSIGNMENT "[redacted]" text in
  regex_sub AUTH_SCHEME "[redacted]" text.

Definition collapse_and_cap (message : string) (limit : nat) : string :=
  let text := join " " (split message) in
  if (limit <? String.length text)%nat then String.substring 0 (limit - String.length TRUNCATED) text +:+ TRUNCATED else text.

Definition redact_error_text (message : string) (limit : nat) : string :=
  collapse_and_cap (regex_sub QUOTED "'[redacted]'" (mask_credentials message)) limit.

Definition redact_job_error_text (message : string) (limit : nat) : string := collapse_and_cap (mask_credentials message) limit.

(** * What is stored is short and on one line *)

Lemma split_from_words w s : Forall (λ a, is_space a = false) (chars w) → Forall (λ t, Forall (λ a, is_space a = false) (chars t)) (split_from w s).
Proof.
  revert w. induction s as [|a s IH]; intros w Hw; cbn [split_from]; [destruct w; [constructor|by constructor]|].
  destruct (is_space a) eqn:Ha; [destruct w; [by apply IH|constructor; [done|by apply IH]]|].
  apply IH. rewrite chars_app. apply Forall_app. split; [done|]. by constructor.
Qed.

Lemma Forall_chars_join (P : ascii → Prop) sep l : Forall P (chars sep) → Forall (λ t, Forall P (chars t)) l → Forall P (chars (join sep l)).
Proof.
  intros Hsep. induction 1 as [|t l Ht Hl IH]; [constructor|]. destruct l as [|u l]; [done|].
  change (join sep (t :: u :: l)) with (t +:+ sep +:+ join sep (u :: l))%string. rewrite !chars_app, !Forall_app. done.
Qed.

Lemma chars_substring (P : ascii → Prop) n m s : Forall P (chars s) → Forall P (chars (String.substring n m s)).
Proof.
  revert n m. induction s as [|a s IH]; intros n m Hs; [by destruct n, m|]. apply Forall_cons in Hs as [Ha Hs].
  destruct n as [|n]; cbn; [destruct m; [done|]; constructor; [done|]; by apply IH|by apply IH].
Qed.

Lemma length_substring n m s : (String.length (String.substring n m s) ≤ m)%nat.
Proof.
  revert n m. induction s as [|a s IH]; intros n m; [destruct n, m; cbn; lia|].
  destruct n as [|n]; cbn; [destruct m; cbn; [lia|]; specialize (IH 0%nat m); lia|apply IH].
Qed.

(** the only white space is the blank *)
Definition one_line (s : string) : Prop := Forall (λ a, is_space a = true → a = " "%char) (chars s).

Lemma collapse_and_cap_spec message limit :
  one_line (collapse_and_cap message limit) ∧ (String.length (collapse_and_cap message limit) ≤ Nat.max limit (String.length TRUNCATED))%nat.
Proof.
  assert (one_line (join " " (split message))) as Hline.
  { apply Forall_chars_join; [by constructor|]. pose proof (split_from_words "" message ltac:(constructor)) as Hw.
    eapply Forall_impl; [exact Hw|]. intros t Ht. eapply Forall_impl; [exact Ht|]. cbn. intros a Ha Hs. congruence. }
  unfold collapse_and_cap. destruct (Nat.ltb_spec limit (String.length (join " " (split message)))) as [Hlt|Hge]; [|split; [done|lia]]. split.
  - unfold one_line. rewrite chars_app. apply Forall_app. split; [by apply chars_substring|]. apply (bool_decide_unpack _). by vm_compute.
  - rewrite string_length_app. pose proof (length_substring 0 (limit - String.length TRUNCATED) (join " " (split message))). lia.
Qed.

(** The error text of a job or of a stage that reaches storage is one line of at
    most [limit] characters (or the truncation mark alone, for a smaller limit),
    whatever the exception said. *)
Theorem redacted_text_bounded (message : string) (limit : nat) :
  (one_line (redact_error_text message limit) ∧ (String.length (redact_error_text message limit) ≤ Nat.max limit 14)%nat) ∧
  (one_line (redact_job_error_text message limit) ∧ (String.length (redact_job_error_text message limit) ≤ Nat.max limit 14)%nat).
Proof. split; apply collapse_and_cap_spec. Qed.

(** * Run events *)
From S2P Require Import Dicts Payload.

Local Open Scope Z_scope.

Definition ALLOWED_EVENT_TYPES : list string :=
  ["run_queued"; "run_started"; "step_started"; "step_completed"; "step_failed"; "budget_updated"; "proposals_persisted"; "review_waiting";
   "review_completed"; "run_succeeded"; "run_failed"; "run_cancelled"; "heartbeat"]%string.

Definition REDACT_KEYS : list string :=
  ["text"; "content"; "prompt"; "messages"; "raw"; "source_text"; "instructions"; "evidence_text"; "secret"; "api_key"; "password"; "token"]%string.

Definition sensitive (key : string) : bool :=
  let lowered := lower key in
  bool_decide (lowered ∈ ["secret"; "api_key"; "password"; "token"]%string) || contains "secret" lowered || contains "password" lowered
  || bool_decide (lowered ∈ REDACT_KEYS).

Section redaction.
Context (marker : string).

(** [_redact] of a dict; any other value is kept *)
Fixpoint redact (v : value) : value :=
  match v with
  | DictV items =>
      DictV (map (λ kv : string * value,
        let x := snd kv in
        (fst kv,
         if sensitive (fst kv) then StrV "[redacted]" else
         match x with
         | ListV l => ListV (map redact l)
         | StrV s => if (256 <? String.length s)%nat then StrV (String.substring 0 64 s +:+ marker) else x
         | _ => redact x
         end)) items)
  | _ => v
  end.

Definition redact_event_payload (p : payload) (event_type : string) : value := redact (DictV p).
Definition redact_log_payload (p : payload) : value := redact (DictV p).

(** * The in-memory event store *)

Record extraction_event := ExtractionEvent { event_type : string; event_payload : value; event_id : Z }.

(** [MemoryEventStore.append] *)
Definition append_event (events : list extraction_event) (event_type : string) (p : payload) : checked (list extraction_event) :=
  if bool_decide (event_type ∈ ALLOWED_EVENT_TYPES)
  then Ok (events ++ [ExtractionEvent event_type (redact_event_payload p event_type) (Z.of_nat (length events) + 1)])
  else Err (ValueError ("unknown event_type " +:+ repr_str event_type)).

(** * What a stored payload can say *)

(** every field at every depth, through dicts and through the dicts of a list *)
Fixpoint fields (v : value) : list (string * value) :=
  match v with
  | DictV items =>
      concat (map (λ kv : string * value,
        let x := snd kv in
        (fst kv, x) :: match x with ListV l => concat (map fields l) | _ => fields x end) items)
  | _ => []
  end.

Definition masked_field (kv : string * value) : Prop :=
  (sensitive kv.1 = true → kv.2 = StrV "[redacted]") ∧
  ∀ s, kv.2 = StrV s → (String.length s ≤ Nat.max 256 (64 + String.length marker))%nat.

Definition masked (v : value) : Prop := Forall masked_field (fields (redact v)).

Lemma fields_list l : Forall masked l → Forall masked_field (concat (map fields (map redact l))).
Proof. induction 1 as [|x l Hx _ IH]; [constructor|]. cbn. apply Forall_app. by split. Qed.

Lemma length_truncated s : (String.length (String.substring 0 64 s +:+ marker)%string ≤ 64 + String.length marker)%nat.
Proof. rewrite string_length_app. pose proof (length_substring 0 64 s). lia. Qed.

(** the induction goes through the list a field holds *)
Lemma masked_parts v : masked v ∧ match v with ListV l => Forall masked l | _ => True end.
Proof.
  induction v as [| | | | |l Hl|items Hi] using value_induction; (split; [|try done]); try constructor.
  { eapply Forall_impl; [exact Hl|]. by intros x [Hx _]. }
  unfold masked. cbn [redact fields].
  induction Hi as [|[k x] items [Hx Hl] Hi IH]; [constructor|]. cbn [map concat fst snd]. cbn [snd] in Hx, Hl. apply Forall_app. split; [|exact IH].
  destruct (sensitive k) eqn:Hk.
  { constructor; [|constructor]. split; [done|]. intros s [= <-]. cbn. lia. }
  assert (∀ y, (∀ s, y = StrV s → (String.length s ≤ Nat.max 256 (64 + String.length marker))%nat) → masked_field (k, y)) as Hfield by (intros y Hy; split; [cbn; congruence|done]).
  destruct x as [| | | |s|l|inner]; try (constructor; [by apply Hfield|constructor]).
  - destruct (Nat.ltb_spec 256 (String.length s)) as [Hlong|Hshort]; (constructor; [apply Hfield; intros t [= <-]|constructor]); [|lia].
    pose proof (length_truncated s). lia.
  - constructor; [by apply Hfield|]. by apply fields_list.
  - constructor; [by apply Hfield|exact Hx].
Qed.

(** Whatever a workflow passes to the event or the log sink, what is stored shows
    ["[redacted]"] under every sensitive key, and no long text under any other, at
    every depth that dicts and lists of dicts reach. *)
Theorem event_payload_masked (p : payload) (event_type : string) :
  Forall masked_field (fields (redact_event_payload p event_type)) ∧ Forall masked_field (fields (redact_log_payload p)).
Proof. split; apply (masked_parts (DictV p)). Qed.

(** The depth is not every depth: a dict in a list in a list is stored as it is,
    whatever its keys are. *)
Example redact_nested_list :
  let p := [("spans", ListV [ListV [DictV [("password", StrV "hunter2")]]])]%string in redact_event_payload p "step_failed" = DictV p.
Proof. reflexivity. Qed.
End redaction.
