(* ===== verification/Budget.v ===== *)
(** [workers/src/fel_workers/extraction/budget.py] and errors.py, with what a run
    reads from outside.

    The lease, the cancellation flag, the clock and the provider answer the n-th
    question they are asked; [ticks] counts the questions.  The process may be
    killed at any of them: [Killed] is no exception, and no handler sees it. *)

From Stdlib Require Import SpecFloat.
From S2P Require Import Prelude Effects Floats Decimals Canonical Payload Messages.
Local Open Scope Z_scope.

(** * Typed failures (errors.py, persist_types.py) *)

Inductive failure_class :=
| ExtractionError | StepFailed | BudgetExceeded | Cancelled | LeaseLost | ProviderRefused | ProviderError | SchemaInvalid | IntegrityError
| CutoffViolation | RunAlreadyTerminal.

#[export] Instance failure_class_eq_dec : EqDecision failure_class.
Proof. solve_decision. Defined.

Definition code (c : failure_class) : string :=
  match c with
  | ExtractionError => "extraction_error" | StepFailed => "step_failed" | BudgetExceeded => "budget_exceeded" | Cancelled => "cancelled"
  | LeaseLost => "lease_lost" | ProviderRefused => "provider_refused" | ProviderError => "provider_error" | SchemaInvalid => "schema_invalid"
  | IntegrityError => "integrity_error" | CutoffViolation => "cutoff_violation" | RunAlreadyTerminal => "run_terminal"
  end.

Inductive failure :=
| Typed (c : failure_class)
| Untyped (e : exception)
| InjectedCrash
| Killed.

#[export] Instance failure_eq_dec : EqDecision failure.
Proof. solve_decision. Defined.

(** * Providers (packages/providers/fel_providers/interfaces.py) *)

Record generation_request := GenerationRequest {
  q_schema_name : string; q_schema_version : string; q_json_schema : payload; q_messages : list message; q_max_output_tokens : Z;
}.

Record model_result := ModelResult {
  provider : string; model : string; response_id : string; parsed : option payload; refused : bool;
  input_tokens : Z; output_tokens : Z; estimated_cost_usd : decimal;
}.

(** * The environment of a run *)

Record environment := Environment {
  killed : nat → bool;
  lease_check : nat → bool;
  cancel_check : nat → bool;
  monotonic : nat → spec_float;
  (** [None] is a provider that raises *)
  generate_structured : nat → generation_request → option model_result;
}.

(** * The budget *)

Record run_budget := RunBudget {
  max_calls : Z; max_input_tokens : Z; max_output_tokens : Z; max_cost_usd : decimal; max_wall_seconds : Z;
  calls_used : Z; input_tokens_used : Z; output_tokens_used : Z; cost_usd : decimal; wall_seconds_used : spec_float; started_monotonic : spec_float;
}.

Record runtime := Runtime { ticks : nat; budget : run_budget }.

Section runtime.
Context (env : environment).

(** ask the environment, unless the process is killed here *)
Definition observe {A} (answer : nat → A) : eff runtime failure A := λ s,
  (if killed env (ticks s) then Err Killed else Ok (answer (ticks s)), Runtime (S (ticks s)) (budget s)).

Definition elapsed_seconds : eff runtime failure spec_float :=
  now ← observe (monotonic env);
  b ← reads budget;
  mret (fadd (wall_seconds_used b) (fsub now (started_monotonic b))).

Definition wall_cap_reached : eff runtime failure unit :=
  elapsed ← elapsed_seconds;
  b ← reads budget;
  raise_if (float_gtb_int elapsed (max_wall_seconds b)) (Typed BudgetExceeded).

Definition precheck (reserve_output_tokens : Z) : eff runtime failure unit :=
  wall_cap_reached;;
  b ← reads budget;
  raise_if (max_calls b <=? calls_used b) (Typed BudgetExceeded);;
  raise_if (max_output_tokens b <? output_tokens_used b + reserve_output_tokens) (Typed BudgetExceeded);;
  raise_if (max_input_tokens b <=? input_tokens_used b) (Typed BudgetExceeded);;
  raise_if (dec_leb (max_cost_usd b) (cost_usd b)) (Typed BudgetExceeded).

(** [self.cost_usd += result.estimated_cost_usd] *)
Definition add_cost (cost : decimal) : eff runtime failure unit :=
  b ← reads budget;
  total ← pure (map_err Untyped (arith (dec_add DEFAULT_CONTEXT (cost_usd b) cost)));
  writes (λ s, Runtime (ticks s) (RunBudget (max_calls b) (max_input_tokens b) (max_output_tokens b) (max_cost_usd b) (max_wall_seconds b)
    (calls_used b) (input_tokens_used b) (output_tokens_used b) total (wall_seconds_used b) (started_monotonic b))).

Definition count_tokens (r : model_result) (b : run_budget) : run_budget :=
  RunBudget (max_calls b) (max_input_tokens b) (max_output_tokens b) (max_cost_usd b) (max_wall_seconds b)
    (calls_used b + 1) (input_tokens_used b + input_tokens r) (output_tokens_used b + output_tokens r) (cost_usd b)
    (wall_seconds_used b) (started_monotonic b).

Definition record (r : model_result) : eff runtime failure unit :=
  writes (λ s, Runtime (ticks s) (count_tokens r (budget s)));;
  add_cost (estimated_cost_usd r);;
  b ← reads budget;
  raise_if (dec_ltb (max_cost_usd b) (cost_usd b)) (Typed BudgetExceeded);;
  raise_if (max_input_tokens b <? input_tokens_used b) (Typed BudgetExceeded);;
  raise_if (max_output_tokens b <? output_tokens_used b) (Typed BudgetExceeded);;
  wall_cap_reached.
End runtime.
