(* ===== verification/Runner.v ===== *)
(** [workers/src/fel_workers/extraction/runner.py]: one bounded model step, and the
    closed subset of JSON Schema it checks an answer against. *)

From S2P Require Import Prelude Effects Dicts Text Decimals Periods Canonical Payload Schema Messages Budget.
Local Open Scope Z_scope.

(** * [json.dumps(v, sort_keys=True)] *)

Fixpoint json_text (v : value) : string :=
  match v with
  | ListV l => "[" +:+ join ", " (map json_text l) +:+ "]"
  | DictV items =>
      "{" +:+ join ", " (map (λ f, quote (fst f) +:+ ": " +:+ snd f) (py_sorted key_le (map (λ f, (fst f, json_text (snd f))) items))) +:+ "}"
  | v => canonical_json v
  end.

(** * The schema checker *)

(** [a == b] of a scalar [a]; a float is compared by its text *)
Definition scalar_eq (a b : value) : bool :=
  match a, b with
  | NoneV, NoneV => true
  | StrV s, StrV t => bool_decide (s = t)
  | (BoolV _ | IntV _), (BoolV _ | IntV _) =>
      let number v := match v with BoolV true => 1 | IntV z => z | _ => 0 end in number a =? number b
  | FloatV s, FloatV t => bool_decide (s = t) && negb (bool_decide (s = "nan"%string))
  | _, _ => false
  end.

Definition is_type (v : value) (type_name : value) : bool :=
  match type_name with
  | StrV t =>
      match v with
      | NoneV => bool_decide (t = "null"%string)
      | DictV _ => bool_decide (t = "object"%string)
      | ListV _ => bool_decide (t = "array"%string)
      | StrV _ => bool_decide (t = "string"%string)
      | BoolV _ => bool_decide (t = "boolean"%string)
      | IntV _ => bool_decide (t = "integer" ∨ t = "number")%string
      | FloatV _ => bool_decide (t = "number"%string)
      end
  | _ => false
  end.

Definition matches_type (v expected : value) : bool :=
  existsb (is_type v) (match expected with ListV types => types | t => [t] end).

(** a list of names as [str] writes it *)
Definition names_text (names : list string) : string := repr (ListV (map StrV names)).

Definition key_errors (path what : string) (keys : list string) : list string :=
  match keys with [] => [] | _ => [path +:+ ": " +:+ what +:+ " keys: " +:+ names_text keys]%string end.

Definition text_errors (path : string) (schema : payload) (s : string) : list string :=
  match get "minLength" schema with
  | IntV minimum => if (Z.of_nat (String.length s) <? minimum) then [path +:+ ": string is shorter than " +:+ str_of_Z minimum]%string else []
  | BoolV true => if (String.length s <? 1)%nat then [path +:+ ": string is shorter than True"]%string else []
  | _ => []
  end.

Definition properties_of (schema : payload) : payload := match get "properties" schema with DictV p => p | _ => [] end.

(** the errors of a dict's keys *)
Definition object_errors (path : string) (schema : payload) (items : payload) : list string :=
  key_errors path "missing required" (match get "required" schema with
    | ListV required => map py_str (filter (λ key, (match key with StrV k => has k items | _ => false end) = false) required)
    | _ => []
    end) ++
  key_errors path "unexpected" (match get "additionalProperties" schema with
    | BoolV false => sorted_strings (filter (λ key, has key (properties_of schema) = false) items.*1)
    | _ => []
    end) ++
  key_errors path "unexpected" (match get "propertyNames" schema with
    | DictV names =>
        match get "enum" names with
        | ListV allowed => sorted_strings (filter (λ key, existsb (is_str key) allowed = false) items.*1)
        | _ => []
        end
    | _ => []
    end).

(** [len(markers) != len(set(markers))] *)
Definition unique_errors (path : string) (schema : payload) (items : list value) : list string :=
  match get "uniqueItems" schema with
  | BoolV true => if bool_decide (NoDup (map json_text items)) then [] else [path +:+ ": items must be unique"]%string
  | _ => []
  end.

Fixpoint schema_errors (v : value) (schema : payload) (path : string) : list string :=
  let expected_type := get "type" schema in
  if negb (is_none expected_type) && negb (matches_type v expected_type) then [path +:+ ": expected " +:+ repr expected_type]%string else
  (match get "enum" schema with
   | ListV enum => if existsb (scalar_eq v) enum then [] else [path +:+ ": value is not in the allowed enum"]%string
   | _ => []
   end) ++
  match v with
  | StrV s => text_errors path schema s
  | DictV items =>
      object_errors path schema items ++
      concat (map (λ kv : string * value,
        match get (fst kv) (properties_of schema) with
        | DictV child_schema => schema_errors (snd kv) child_schema (path +:+ "." +:+ fst kv)%string
        | _ => []
        end) items)
  | ListV items =>
      (match get "items" schema with
       | DictV item_schema =>
           (fix go (index : Z) (l : list value) : list string :=
              match l with
              | [] => []
              | item :: l' => schema_errors item item_schema (path +:+ "[" +:+ str_of_Z index +:+ "]")%string ++ go (index + 1) l'
              end) 0 items
       | _ => []
       end) ++ unique_errors path schema items
  | _ => []
  end.

Definition envelope_errors (parsed schema : payload) : list string := schema_errors (DictV parsed) schema "$".

(** * Proposals in an answer *)

Definition ROLE_PROPOSAL_KIND (r : role) : option string :=
  match r with KPI => Some "kpi" | GUIDANCE => Some "guidance" | DRIVER_MAPPER => Some "revenue_driver" | _ => None end%string.

Definition is_empty_proposals (parsed : payload) : bool :=
  match dict_get "proposals"%string parsed with Some (ListV []) => true | _ => false end.

Definition item_errors (expected_kind : string) (idx : nat) (item : value) : checked (list string) :=
  let at_ := ("proposals[" +:+ str_of_Z (Z.of_nat idx) +:+ "]")%string in
  match item with
  | DictV p =>
      found ← validate_payload_item p;
      Ok ((if is_str expected_kind (get "kind" p) then []
           else [at_ +:+ ": kind must be " +:+ repr_str expected_kind +:+ ", got " +:+ repr (get "kind" p)]%string)
          ++ map (λ e, at_ +:+ ": " +:+ e)%string found)
  | _ => Ok [at_ +:+ " must be an object"]%string
  end.

Definition proposal_item_errors (parsed : payload) (expected_kind : string) : checked (option (list string)) :=
  match dict_get "proposals"%string parsed with
  | Some (ListV (_ :: _ as proposals)) =>
      errors ← mapM (λ ix : nat * value, item_errors expected_kind ix.1 ix.2) (imap pair proposals);
      Ok (match concat errors with [] => None | errors => Some errors end)
  | _ => Ok None
  end.

(** * The step *)

(** an outcome that is not a failure; [Abstention] is a valid empty answer *)
Inductive outcome := Answer (parsed : payload) | Abstention (reason : string).

Record step_result := StepResult {
  s_key : string; s_root_input_hash : string; s_outcome : outcome; s_provider : string; s_model : string;
  s_response_ids : list string; s_attempt_hashes : list string; s_attempts : Z; s_instructions_hash : string;
}.

Definition message_value (m : message) : value := DictV [("role", StrV (m_role m)); ("content", StrV (m_content m))]%string.

(** [request_hash] and [step_key] of hashing.py *)
Definition request_hash (provider_ref model_ref : string) (q : generation_request) : string :=
  hash_json (ListV [StrV provider_ref; StrV model_ref; StrV (q_schema_name q); StrV (q_schema_version q); DictV (q_json_schema q);
    ListV (map message_value (q_messages q)); IntV (q_max_output_tokens q); FloatV "0.0"]).
Definition step_key (run_id step_name root_input_hash workflow_version : string) : string :=
  hash_json (ListV [StrV run_id; StrV step_name; StrV root_input_hash; StrV workflow_version]).

Definition NO_PARSE : string := "output was not parseable JSON".

(** what an answer is worth: an outcome, or the problems to repair *)
Definition judge (spec : role_spec) (parsed : option payload) : checked (outcome + list string) :=
  match parsed with
  | None => Ok (inr [NO_PARSE])
  | Some parsed =>
      match envelope_errors parsed (r_json_schema spec) with
      | [] =>
          if is_empty_proposals parsed then Ok (inl (Abstention "explicit zero-proposal envelope")) else
          errors ← match ROLE_PROPOSAL_KIND (r_role spec) with Some kind => proposal_item_errors parsed kind | None => Ok None end;
          Ok (match errors with None => inl (Answer parsed) | Some problems => inr problems end)
      | problems => Ok (inr problems)
      end
  end.

Definition first_problem (problems : list string) : string := default ""%string (head problems).

Definition repair_messages (parsed : option payload) (problems : list string) : list message :=
  [Message "assistant" (match parsed with Some p => json_text (DictV p) | None => "(no parseable output)" end);
   Message "user" ("Your previous output (above) failed schema validation: " +:+ first_problem problems +:+
                   ". Return ONLY a JSON object conforming to " +:+ "the schema.")]%string.

Section step.
Context (env : environment) (spec : role_spec) (provider_ref model_ref : string) (max_output_tokens : Z).

Definition request_for (messages : list message) : generation_request :=
  GenerationRequest (r_schema_name spec) (r_schema_version spec) (r_json_schema spec) messages max_output_tokens.

(** one call of the provider: the answer it gives, budgeted, pinned and not refused *)
Definition call_provider (messages : list message) : eff runtime failure model_result :=
  precheck env max_output_tokens;;
  answer ← observe env (λ n, generate_structured env n (request_for messages));
  result ← pure (from_option_err (Typed ProviderError) answer);
  record env result;;
  raise_if (negb (bool_decide (provider result = provider_ref ∧ model result = model_ref))) (Typed ProviderError);;
  raise_if (refused result) (Typed ProviderRefused);;
  mret result.

Record step_log := StepLog { l_response_ids : list string; l_attempt_hashes : list string }.

(** the attempts that are left, from [attempt] on *)
Fixpoint attempts (left : nat) (attempt : Z) (messages : list message) (log : step_log) (problems : list string) : eff runtime failure (outcome * Z * step_log) :=
  match left with
  | O => raise (Typed (if bool_decide (problems = [NO_PARSE]) then ProviderError else SchemaInvalid))
  | S left' =>
      let hash := request_hash provider_ref model_ref (request_for messages) in
      result ← call_provider messages;
      let log := StepLog (l_response_ids log ++ [response_id result]) (l_attempt_hashes log ++ [hash]) in
      judged ← pure (map_err Untyped (judge spec (parsed result)));
      match judged with
      | inl accepted => mret (accepted, attempt, log)
      | inr problems => attempts left' (attempt + 1) (messages ++ repair_messages (parsed result) problems) log problems
      end
  end.

Definition run_model_step (evidence_blocks : list evidence_dict) (run_id step_name workflow_version : string) : eff runtime failure step_result :=
  messages ← pure (map_err Untyped (build_messages spec evidence_blocks));
  let root_input_hash := request_hash provider_ref model_ref (request_for messages) in
  '(accepted, attempt, log) ← attempts MAX_ATTEMPTS 1 messages (StepLog [] []) ["no attempt made"%string];
  mret (StepResult (step_key run_id step_name root_input_hash workflow_version) root_input_hash accepted provider_ref model_ref
    (l_response_ids log) (l_attempt_hashes log) attempt (instructions_hash spec)).
End step.
