(* ===== verification/RunnerSound.v ===== *)
(** What a model step promises: it is the provider's answers judged, it stays
    within its attempts and its budget, and it accepts nothing it did not check. *)

From Stdlib Require Import SpecFloat.
From S2P Require Import Prelude Effects Dicts Text Floats Decimals Canonical Payload Messages Budget Runner.
Local Open Scope Z_scope.

(** ends a run for a reason the answers do not decide *)
Definition interrupted (e : failure) : Prop := e = Killed ∨ e = Typed BudgetExceeded ∨ ∃ sig, e = Untyped (DecimalSignal sig).

Section reference.
Context (generate : generation_request → option model_result).
Context (spec : role_spec) (provider_ref model_ref : string) (max_output_tokens : Z).

Let request := request_for spec max_output_tokens.

Definition reference_call (messages : list message) : result failure model_result :=
  result ← from_option_err (Typed ProviderError) (generate (request messages));
  ensure (bool_decide (provider result = provider_ref ∧ model result = model_ref)) (Typed ProviderError);;
  ensure (negb (refused result)) (Typed ProviderRefused);;
  Ok result.

Fixpoint reference_attempts (left : nat) (attempt : Z) (messages : list message) (log : step_log) (problems : list string)
    : result failure (outcome * Z * step_log) :=
  match left with
  | O => Err (Typed (if bool_decide (problems = [NO_PARSE]) then ProviderError else SchemaInvalid))
  | S left' =>
      result ← reference_call messages;
      let log := StepLog (l_response_ids log ++ [response_id result])
                   (l_attempt_hashes log ++ [request_hash provider_ref model_ref (request messages)]) in
      judged ← map_err Untyped (judge spec (parsed result));
      match judged with
      | inl accepted => Ok (accepted, attempt, log)
      | inr problems => reference_attempts left' (attempt + 1) (messages ++ repair_messages (parsed result) problems) log problems
      end
  end.

Definition reference_step (evidence_blocks : list evidence_dict) (run_id step_name workflow_version : string) : result failure step_result :=
  messages ← map_err Untyped (build_messages spec evidence_blocks);
  let root_input_hash := request_hash provider_ref model_ref (request messages) in
  '(accepted, attempt, log) ← reference_attempts MAX_ATTEMPTS 1 messages (StepLog [] []) ["no attempt made"%string];
  Ok (StepResult (step_key run_id step_name root_input_hash workflow_version) root_input_hash accepted provider_ref model_ref
    (l_response_ids log) (l_attempt_hashes log) attempt (instructions_hash spec)).
End reference.

Section refinement.
Context (env : environment) (generate : generation_request → option model_result).
Hypothesis Hprovider : ∀ n q, generate_structured env n q = generate q.

Notation refined := (refines (S := runtime) interrupted).

Lemma observe_interrupted {A} (f : nat → A) s e : fst (observe env f s) = Err e → interrupted e.
Proof. unfold observe. cbn. case_match; [intros [= <-]; by left|done]. Qed.

Lemma refines_observe {A} (f : nat → A) a : (∀ n, f n = a) → refined (observe env f) (Ok a).
Proof using Type. intros Hf s. unfold observe. cbn. case_match; [right; exists Killed; split; [done|by left]|by rewrite Hf; left]. Qed.

Lemma budget_interrupts : interrupted (Typed BudgetExceeded).
Proof. right. by left. Qed.

Lemma refines_elapsed {B} (f : spec_float → eff runtime failure B) r : (∀ x, refined (f x) r) → refined (elapsed_seconds env ≫= f) r.
Proof using Type.
  intros Hf. apply refines_any; [|done]. intros s e. unfold elapsed_seconds, mbind, eff_bind.
  pose proof (observe_interrupted (monotonic env) s) as Ho. destruct (observe env (monotonic env) s) as [[x|e'] s']; cbn; [done|]. intros [= <-]. by apply Ho.
Qed.

Lemma refines_reads {A B} (g : runtime → A) (f : A → eff runtime failure B) r : (∀ a, refined (f a) r) → refined (reads g ≫= f) r.
Proof using Type. intros Hf. by apply refines_any. Qed.

Lemma refines_then {B} (m : eff runtime failure unit) (f : unit → eff runtime failure B) r : refined m (Ok tt) → refined (f tt) r → refined (m ≫= f) r.
Proof using Type. intros Hm Hf. change r with ((Ok tt : result failure unit) ≫= λ _, r). apply refines_bind; [done|]. by intros [] _. Qed.

Lemma refines_cap : refined (wall_cap_reached env) (Ok tt).
Proof using Type. unfold wall_cap_reached. apply refines_elapsed. intros x. apply refines_reads. intros b. apply refines_guard, budget_interrupts. Qed.

Lemma refines_precheck n : refined (precheck env n) (Ok tt).
Proof using Type.
  unfold precheck. apply refines_then; [apply refines_cap|]. apply refines_reads. intros b.
  repeat (apply refines_then; [apply refines_guard, budget_interrupts|]). apply refines_guard, budget_interrupts.
Qed.

Lemma refines_add_cost c : refined (add_cost c) (Ok tt).
Proof using Type.
  unfold add_cost. apply refines_reads. intros b. apply refines_any; [|intros a; apply refines_writes].
  intros s e. cbn. unfold arith. destruct (dec_add _ _ _); cbn; [done|]. intros [= <-]. right. right. by eexists.
Qed.

Lemma refines_record r : refined (record env r) (Ok tt).
Proof using Type.
  unfold record. apply refines_then; [apply refines_writes|]. apply refines_then; [apply refines_add_cost|].
  apply refines_reads. intros b. repeat (apply refines_then; [apply refines_guard, budget_interrupts|]). apply refines_cap.
Qed.

Lemma refines_ensure b e : refined (raise_if (negb b) e) (ensure b e).
Proof using Type. intros s. destruct b; by left. Qed.

Context (spec : role_spec) (provider_ref model_ref : string) (max_output_tokens : Z).

Lemma refines_call messages :
  refined (call_provider env spec provider_ref model_ref max_output_tokens messages) (reference_call generate spec provider_ref model_ref max_output_tokens messages).
Proof using Hprovider.
  unfold call_provider, reference_call. apply refines_then; [apply refines_precheck|].
  set (q := request_for spec max_output_tokens messages).
  change (refined ?m ?r) with (refined m ((Ok (generate q) : result failure _) ≫= λ answer, from_option_err (Typed ProviderError) answer ≫= λ result : model_result,
    ensure (bool_decide (provider result = provider_ref ∧ model result = model_ref)) (Typed ProviderError) ≫= λ _, ensure (negb (refused result)) (Typed ProviderRefused) ≫= λ _, Ok result)).
  apply refines_bind; [by apply refines_observe|]. intros answer _. apply refines_bind; [apply refines_pure|]. intros result _.
  apply refines_then; [apply refines_record|]. apply refines_bind; [apply refines_ensure|]. intros _ _. apply refines_bind; [|intros _ _; apply refines_ret].
  rewrite <- (negb_involutive (refused result)) at 1. apply refines_ensure.
Qed.

Lemma refines_attempts left attempt messages log problems :
  refined (attempts env spec provider_ref model_ref max_output_tokens left attempt messages log problems)
    (reference_attempts generate spec provider_ref model_ref max_output_tokens left attempt messages log problems).
Proof using Hprovider.
  revert attempt messages log problems. induction left as [|left IH]; intros attempt messages log problems; cbn [attempts reference_attempts]; [apply refines_raise|].
  apply refines_bind; [apply refines_call|]. intros result _. apply refines_bind; [apply refines_pure|]. intros [accepted|found] _; [apply refines_ret|apply IH].
Qed.

Lemma refines_step evidence_blocks run_id step_name workflow_version :
  refined (run_model_step env spec provider_ref model_ref max_output_tokens evidence_blocks run_id step_name workflow_version)
    (reference_step generate spec provider_ref model_ref max_output_tokens evidence_blocks run_id step_name workflow_version).
Proof using Hprovider.
  unfold run_model_step, reference_step. apply refines_bind; [apply refines_pure|]. intros messages _.
  apply refines_bind; [apply refines_attempts|]. intros [[accepted attempt] log] _. apply refines_ret.
Qed.
End refinement.

(** C11: Whatever the tick, the clock and the budget, a step of a provider that answers
    each request one way ends as the reference says, judging its answers in order,
    unless it was killed or ran out of budget. *)
Theorem model_step_refines (env : environment) (generate : generation_request → option model_result) (spec : role_spec)
    (provider_ref model_ref : string) (max_output_tokens : Z) (evidence_blocks : list evidence_dict) (run_id step_name workflow_version : string) (s : runtime) :
  (∀ n q, generate_structured env n q = generate q) →
  let r := fst (run_model_step env spec provider_ref model_ref max_output_tokens evidence_blocks run_id step_name workflow_version s) in
  r = reference_step generate spec provider_ref model_ref max_output_tokens evidence_blocks run_id step_name workflow_version ∨ ∃ e, r = Err e ∧ interrupted e.
Proof. intros Hprovider. by apply refines_step. Qed.

(** * What an accepted answer is *)

(** [out] is the accepted part of an answer of the pinned model *)
Definition accepted_answer (spec : role_spec) (provider_ref model_ref : string) (r : model_result) (out : outcome) : Prop :=
  provider r = provider_ref ∧ model r = model_ref ∧ refused r = false ∧
  ∃ p, parsed r = Some p ∧ envelope_errors p (r_json_schema spec) = [] ∧
    match out with
    | Abstention _ => dict_get "proposals"%string p = Some (ListV [])
    | Answer p' => p' = p ∧ is_empty_proposals p = false ∧
        ∀ kind, ROLE_PROPOSAL_KIND (r_role spec) = Some kind → proposal_item_errors p kind = Ok None
    end.

Lemma judge_accepts spec provider_ref model_ref r out :
  provider r = provider_ref → model r = model_ref → refused r = false → judge spec (parsed r) = Ok (inl out) → accepted_answer spec provider_ref model_ref r out.
Proof.
  intros Hp Hm Hr. unfold judge. destruct (parsed r) as [p|] eqn:Hparsed; [|done].
  destruct (envelope_errors p (r_json_schema spec)) eqn:Henv; [|done].
  intros Hj. split_and!; try done. exists p. split_and!; [done..|].
  destruct (is_empty_proposals p) eqn:He.
  { injection Hj as <-. unfold is_empty_proposals in He. by repeat (case_match; try done). }
  apply bind_Ok in Hj as (errors & Herr & Hj). destruct errors; [done|]. injection Hj as <-. split_and!; [done..|].
  intros kind Hkind. by rewrite Hkind in Herr.
Qed.

Lemma eff_bind_Ok {S E A B} (m : eff S E A) (f : A → eff S E B) s b s' :
  (m ≫= f) s = (Ok b, s') → ∃ a s1, m s = (Ok a, s1) ∧ f a s1 = (Ok b, s').
Proof. unfold mbind, eff_bind. destruct (m s) as [[a|e] s1]; [|done]. intros H. by exists a, s1. Qed.

Section sound.
Context (env : environment) (spec : role_spec) (provider_ref model_ref : string) (max_output_tokens : Z).

Lemma raise_if_Ok {S E} b (e : E) (s s' : S) u : raise_if b e s = (Ok u, s') → b = false ∧ s' = s.
Proof. unfold raise_if. destruct b; [done|]. by intros [= _ <-]. Qed.

Lemma call_provider_Ok messages s r s' :
  call_provider env spec provider_ref model_ref max_output_tokens messages s = (Ok r, s') →
  provider r = provider_ref ∧ model r = model_ref ∧ refused r = false ∧
  ∃ n, generate_structured env n (request_for spec max_output_tokens messages) = Some r.
Proof using Type.
  unfold call_provider. intros H. apply eff_bind_Ok in H as (u1 & s1 & _ & H). apply eff_bind_Ok in H as (answer & s2 & Ha & H).
  apply eff_bind_Ok in H as (r' & s3 & Hr & H). apply eff_bind_Ok in H as (u4 & s4 & _ & H). apply eff_bind_Ok in H as (u5 & s5 & Hpin & H).
  apply eff_bind_Ok in H as (u6 & s6 & Href & H). injection H as -> ->.
  apply raise_if_Ok in Hpin as [Hpin ->]. apply raise_if_Ok in Href as [Href _]. btrue. destruct Hpin as [? ?].
  split_and!; [done..|]. unfold observe in Ha. injection Ha as Ha _. destruct (killed env (ticks s1)); [done|].
  injection Ha as Ha. injection Hr as Hr _. apply from_option_err_Ok in Hr. eexists. by rewrite Ha.
Qed.

(** every answer that was asked for came from the pinned model, to one of the
    requests of this step *)
Lemma attempts_Ok left attempt messages log problems s out k log' s' :
  attempts env spec provider_ref model_ref max_output_tokens left attempt messages log problems s = (Ok (out, k, log'), s') →
  attempt ≤ k < attempt + Z.of_nat left ∧
  Z.of_nat (length (l_response_ids log')) = Z.of_nat (length (l_response_ids log)) + (k - attempt + 1) ∧
  Z.of_nat (length (l_attempt_hashes log')) = Z.of_nat (length (l_attempt_hashes log)) + (k - attempt + 1) ∧
  ∃ n q r, generate_structured env n q = Some r ∧ last (l_response_ids log') = Some (response_id r) ∧ accepted_answer spec provider_ref model_ref r out.
Proof using Type.
  revert attempt messages log problems s. induction left as [|left IH]; intros attempt messages log problems s; cbn [attempts]; [done|].
  intros H. apply eff_bind_Ok in H as (r & s1 & Hcall & H). apply eff_bind_Ok in H as (judged & s2 & Hj & H).
  apply call_provider_Ok in Hcall as (Hp & Hm & Hr & n & Hn). injection Hj as Hj _. apply map_err_Ok in Hj.
  destruct judged as [accepted|found].
  - injection H as -> -> <- _. cbn. rewrite !length_app. cbn. split_and!; [lia..|]. eexists n, _, r. split_and!; [done|by rewrite last_snoc|].
    by apply judge_accepts.
  - apply IH in H as (Hk & Hids & Hhashes & Hrest). cbn in Hids, Hhashes. rewrite !length_app in *. cbn in *. split_and!; [lia..|done].
Qed.
End sound.


(** * What a step spends *)

Lemma dec_leb_ltb a b : dec_leb a b = negb (dec_ltb b a).
Proof. apply eq_iff_eq_true. rewrite negb_true_iff, <- not_true_iff_false, dec_leb_spec, dec_ltb_spec. split; [apply QArith_base.Qle_not_lt|apply QArith_base.Qnot_lt_le]. Qed.

(** the calls a step completed, in order, are its account with the budget it began with *)
Section spending.
Context (env : environment) (b0 : run_budget).

Definition same_caps (b : run_budget) : Prop :=
  max_calls b = max_calls b0 ∧ max_input_tokens b = max_input_tokens b0 ∧ max_output_tokens b = max_output_tokens b0 ∧ max_cost_usd b = max_cost_usd b0.

Definition total_of (f : model_result → Z) (spent : list model_result) : Z := foldr (λ r n, f r + n) 0 spent.

(** the running total of the costs, rounded at each call *)
Definition cost_after (spent : list model_result) : result signal decimal :=
  foldM (λ total r, dec_add DEFAULT_CONTEXT total (estimated_cost_usd r)) (cost_usd b0) spent.

Record counted (spent : list model_result) (b : run_budget) : Prop := Counted {
  ct_caps : same_caps b;
  ct_calls : calls_used b = calls_used b0 + Z.of_nat (length spent);
  ct_input : input_tokens_used b = input_tokens_used b0 + total_of input_tokens spent;
  ct_output : output_tokens_used b = output_tokens_used b0 + total_of output_tokens spent;
}.

(** after these calls another one, asked for [reserve] output tokens, is still within every cap *)
Definition affordable (reserve : Z) (spent : list model_result) : Prop :=
  calls_used b0 + Z.of_nat (length spent) + 1 ≤ max_calls b0 ∧
  input_tokens_used b0 + total_of input_tokens spent < max_input_tokens b0 ∧
  output_tokens_used b0 + total_of output_tokens spent + reserve ≤ max_output_tokens b0 ∧
  ∃ cost, cost_after spent = Ok cost ∧ dec_ltb cost (max_cost_usd b0) = true.

(** every call was affordable when it was made *)
Definition account (reserve : Z) (spent : list model_result) (b : run_budget) : Prop :=
  counted spent b ∧ ∀ before call after, spent = before ++ call :: after → affordable reserve before.

Definition under_caps (b : run_budget) : Prop :=
  input_tokens_used b ≤ max_input_tokens b ∧ output_tokens_used b ≤ max_output_tokens b ∧ dec_leb (cost_usd b) (max_cost_usd b) = true.

(** between two calls *)
Definition balanced (reserve : Z) (spent : list model_result) (b : run_budget) : Prop := account reserve spent b ∧ cost_after spent = Ok (cost_usd b).

Lemma total_of_snoc f spent r : total_of f (spent ++ [r]) = total_of f spent + f r.
Proof using Type. unfold total_of. induction spent as [|x spent IH]; cbn [foldr app]; lia. Qed.

Lemma account_snoc reserve spent r b b' : account reserve spent b → affordable reserve spent → counted (spent ++ [r]) b' → account reserve (spent ++ [r]) b'.
Proof using Type.
  intros [_ Hpre] Haff Hc. split; [done|]. intros before call after. destruct after as [|x after _] using rev_ind; intros Heq.
  - by apply app_inj_tail in Heq as [<- _].
  - rewrite app_comm_cons, app_assoc in Heq. apply app_inj_tail in Heq as [Heq _]. by eapply Hpre.
Qed.

Lemma keeps_observe {A} (P : run_budget → Prop) (f : nat → A) : keeps (λ s, P (budget s)) (observe env f).
Proof using Type. by intros s Hs. Qed.

Lemma keeps_cap (P : run_budget → Prop) : keeps (λ s, P (budget s)) (wall_cap_reached env).
Proof using Type.
  unfold wall_cap_reached, elapsed_seconds. repeat first [apply keeps_bind; [|intros ?]|apply keeps_observe|apply keeps_reads|apply keeps_raise_if|apply keeps_ret].
Qed.

Lemma ends_precheck reserve spent :
  ends (λ s, balanced reserve spent (budget s)) (precheck env reserve)
    (λ r s, balanced reserve spent (budget s) ∧ match r with Ok _ => affordable reserve spent | Err _ => True end).
Proof using Type.
  unfold precheck. apply ends_bind with (R := λ _ s, balanced reserve spent (budget s)).
  { eapply ends_weaken; [apply (keeps_cap (balanced reserve spent))|done|]. by intros [] s. }
  intros _ s Hs. pose proof Hs as [[[(Hmc & Hmi & Hmo & Hmx) Hc Hi Ho] _] Hcost].
  unfold mbind, eff_bind, reads, raise_if. rewrite Hmc, Hmi, Hmo, Hmx.
  destruct (Z.leb_spec (max_calls b0) (calls_used (budget s))); [done|]. cbn.
  destruct (Z.ltb_spec (max_output_tokens b0) (output_tokens_used (budget s) + reserve)); [done|]. cbn.
  destruct (Z.leb_spec (max_input_tokens b0) (input_tokens_used (budget s))); [done|]. cbn.
  rewrite dec_leb_ltb. destruct (dec_ltb (cost_usd (budget s)) (max_cost_usd b0)) eqn:Hlt; [|done]. cbn. split; [exact Hs|].
  unfold affordable. split_and!; [lia..|eauto].
Qed.

(** a completed call is counted, also when its own hard stop ends the run *)
Lemma ends_record reserve spent r :
  ends (λ s, balanced reserve spent (budget s) ∧ affordable reserve spent) (record env r)
    (λ res s, account reserve (spent ++ [r]) (budget s) ∧ match res with Ok _ => balanced reserve (spent ++ [r]) (budget s) ∧ under_caps (budget s) | Err _ => True end).
Proof using Type.
  intros s [Hbal Haff]. pose proof Hbal as [[[(Hmc & Hmi & Hmo & Hmx) Hc Hi Ho] Hpre] Hcost].
  assert (∀ b, same_caps b → calls_used b = calls_used (budget s) + 1 → input_tokens_used b = input_tokens_used (budget s) + input_tokens r →
    output_tokens_used b = output_tokens_used (budget s) + output_tokens r → account reserve (spent ++ [r]) b) as Hacc.
  { intros b Hb E1 E2 E3. eapply account_snoc; [apply Hbal|done|]. split; [done|rewrite length_app; cbn; lia|rewrite total_of_snoc; lia|rewrite total_of_snoc; lia]. }
  unfold record, add_cost, writes, reads, pure, mbind, eff_bind. cbn [budget ticks count_tokens cost_usd].
  assert (cost_after (spent ++ [r]) = dec_add DEFAULT_CONTEXT (cost_usd (budget s)) (estimated_cost_usd r)) as Hsnoc.
  { unfold cost_after in *. rewrite foldM_app, Hcost. cbn. by destruct (dec_add _ _ _). }
  destruct (dec_add DEFAULT_CONTEXT (cost_usd (budget s)) (estimated_cost_usd r)) as [total|e]; cbn; [|split; [by apply Hacc|done]].
  set (b := RunBudget _ _ _ _ _ _ _ _ _ _ _) at 1. assert (account reserve (spent ++ [r]) b) as Hb by (by apply Hacc).
  assert (∀ t, let s1 := Runtime t b in account reserve (spent ++ [r]) (budget s1)) as Hs1 by done. unfold raise_if.
  destruct (dec_ltb (max_cost_usd (budget s)) total) eqn:H1; [by split|]. cbn.
  destruct (Z.ltb_spec (max_input_tokens (budget s)) (input_tokens_used (budget s) + input_tokens r)); [by split|]. cbn.
  destruct (Z.ltb_spec (max_output_tokens (budget s)) (output_tokens_used (budget s) + output_tokens r)); [by split|]. cbn.
  assert (balanced reserve (spent ++ [r]) b ∧ under_caps b) as Hok.
  { split; [by split|]. unfold under_caps. cbn. rewrite dec_leb_ltb, H1. by split_and!. }
  pose proof (keeps_cap (λ b, balanced reserve (spent ++ [r]) b ∧ under_caps b) (Runtime (ticks s) b) Hok) as Hend.
  match goal with |- context [wall_cap_reached env ?s1] => change s1 with (Runtime (ticks s) b) end.
  split; [apply Hend|]. by case_match.
Qed.

Context (spec : role_spec) (provider_ref model_ref : string) (reserve : Z).

(** an answer of the provider to a request for [reserve] tokens *)
Definition answered (r : model_result) : Prop := ∃ n q, q_max_output_tokens q = reserve ∧ generate_structured env n q = Some r.

(** what a step leaves after [spent], of which it made the last [k] calls *)
Definition spends {A} (k : nat) (spent : list model_result) (res : result failure A) (s : runtime) : Prop :=
  ∃ more, (length more ≤ k)%nat ∧ Forall answered more ∧ account reserve (spent ++ more) (budget s) ∧
    match res with Ok _ => balanced reserve (spent ++ more) (budget s) ∧ under_caps (budget s) | Err _ => True end.

Lemma ends_call messages spent :
  ends (λ s, balanced reserve spent (budget s)) (call_provider env spec provider_ref model_ref reserve messages)
    (λ res s, match res with
       | Ok r => answered r ∧ balanced reserve (spent ++ [r]) (budget s) ∧ under_caps (budget s)
       | Err e => spends (A := unit) 1 spent (Err e) s
       end).
Proof using Type.
  assert (∀ e s, balanced reserve spent (budget s) → spends (A := unit) 1 spent (Err e) s) as Hnone.
  { intros e s [Ha _]. exists []. rewrite app_nil_r. split; [cbn; lia|]. by split_and!. }
  unfold call_provider. apply ends_bind with (R := λ _ s, balanced reserve spent (budget s) ∧ affordable reserve spent).
  { eapply ends_weaken; [apply (ends_precheck reserve spent)|done|]. intros [[]|e] s [Hs H]; [done|by apply Hnone]. }
  intros _. apply ends_bind with (R := λ answer s, (balanced reserve spent (budget s) ∧ affordable reserve spent) ∧ ∀ r, answer = Some r → answered r).
  { intros s Hs. unfold observe. cbn. destruct (killed env (ticks s)); [apply Hnone, Hs|]. split; [done|]. intros r Hr. exists (ticks s), (request_for spec reserve messages). by split. }
  intros answer. apply ends_bind with (R := λ r s, (balanced reserve spent (budget s) ∧ affordable reserve spent) ∧ answered r).
  { intros s [Hs Hr]. unfold pure. destruct answer as [r|]; cbn; [split; [exact Hs|by apply Hr]|apply Hnone, Hs]. }
  intros r. apply ends_bind with (R := λ _ s, answered r ∧ balanced reserve (spent ++ [r]) (budget s) ∧ under_caps (budget s)).
  { intros s [Hs Hr]. pose proof (ends_record reserve spent r s Hs) as [Hacc Hok]. destruct (record env r s) as [[[]|e] s1]; [done|].
    exists [r]. split; [cbn; lia|]. split; [by repeat constructor|]. by split. }
  assert (∀ e s, answered r ∧ balanced reserve (spent ++ [r]) (budget s) ∧ under_caps (budget s) → spends (A := unit) 1 spent (Err e) s) as Hone.
  { intros e s (Hr & [Ha _] & _). exists [r]. split; [cbn; lia|]. split; [by repeat constructor|]. by split. }
  intros _ s Hs. unfold mbind, eff_bind, raise_if. destruct (negb _); [by apply Hone|]. cbn. destruct (refused r); [by apply Hone|exact Hs].
Qed.

Lemma ends_attempts left attempt messages log problems spent :
  ends (λ s, balanced reserve spent (budget s)) (attempts env spec provider_ref model_ref reserve left attempt messages log problems) (spends left spent).
Proof using Type.
  revert attempt messages log problems spent. induction left as [|left IH]; intros attempt messages log problems spent; cbn [attempts].
  { intros s [Ha _]. exists []. rewrite app_nil_r. split; [cbn; lia|]. by split_and!. }
  apply ends_bind with (R := λ r s, answered r ∧ balanced reserve (spent ++ [r]) (budget s) ∧ under_caps (budget s)).
  { eapply ends_weaken; [apply (ends_call messages spent)|done|]. intros [r|e] s; [done|]. intros (more & Hlen & H). exists more. split; [lia|exact H]. }
  intros r s (Hr & Hbal & Hcaps). unfold mbind, eff_bind, pure. destruct (map_err Untyped _) as [[accepted|found]|e]; cbn.
  - exists [r]. split; [cbn; lia|]. split; [by constructor|]. split; [apply Hbal|done].
  - destruct (IH (attempt + 1) (messages ++ repair_messages (parsed r) found)
      (StepLog (l_response_ids log ++ [response_id r]) (l_attempt_hashes log ++ [request_hash provider_ref model_ref (request_for spec reserve messages)])) found (spent ++ [r]) s Hbal) as (more & Hlen & Hans & H).
    rewrite <- app_assoc in H. exists (r :: more). split; [cbn; lia|]. split; [by constructor|exact H].
  - exists [r]. split; [cbn; lia|]. split; [by constructor|]. split; [apply Hbal|done].
Qed.
End spending.


(** * The closed envelope *)

Lemma object_errors_nil path schema items : object_errors path schema items = [] →
  (∀ l k, get "required" schema = ListV l → StrV k ∈ l → has k items = true) ∧
  (get "additionalProperties" schema = BoolV false → Forall (λ k, has k (properties_of schema) = true) items.*1) ∧
  (∀ names allowed, get "propertyNames" schema = DictV names → get "enum" names = ListV allowed → Forall (λ k, existsb (is_str k) allowed = true) items.*1).
Proof.
  assert (∀ what l, key_errors path what l = [] → l = []) as Hkeys by (by intros what []).
  assert (∀ f : string → bool, sorted_strings (filter (λ key, f key = false) items.*1) = [] → Forall (λ key, f key = true) items.*1) as Hsorted.
  { intros f Hs. apply Forall_forall. intros k Hk. destruct (f k) eqn:Hf; [done|]. exfalso.
    assert (k ∈ sorted_strings (filter (λ key, f key = false) items.*1)) as Hin by (rewrite elem_of_sorted_strings; by apply list_elem_of_filter).
    rewrite Hs in Hin. by apply elem_of_nil in Hin. }
  unfold object_errors. intros [H1%Hkeys [H2%Hkeys H3%Hkeys]%app_nil]%app_nil. split_and!.
  - intros l k Hl Hk. rewrite Hl in H1. apply fmap_nil_inv in H1. destruct (has k items) eqn:Hh; [done|]. exfalso.
    apply (filter_nil_not_elem_of _ _ (StrV k) H1); done.
  - intros Hc. rewrite Hc in H2. by apply Hsorted in H2.
  - intros names allowed Hn Ha. rewrite Hn, Ha in H3. by apply Hsorted in H3.
Qed.

Lemma schema_errors_dict items schema path : schema_errors (DictV items) schema path = [] →
  object_errors path schema items = [] ∧
  ∀ k v child, (k, v) ∈ items → get k (properties_of schema) = DictV child → schema_errors v child (path +:+ "." +:+ k) = [].
Proof.
  cbn [schema_errors]. case_match; [done|]. intros [_ [Ho Hc]%app_nil]%app_nil. split; [done|].
  intros k v child Hin Hchild. apply concat_nil_Forall, Forall_map in Hc. rewrite Forall_forall in Hc. specialize (Hc (k, v) Hin). cbn in Hc. by rewrite Hchild in Hc.
Qed.

Lemma schema_errors_type v schema path t : schema_errors v schema path = [] → get "type" schema = StrV t → is_type v (StrV t) = true.
Proof.
  intros Hs Ht. destruct (is_type v (StrV t)) eqn:Hv; [done|]. exfalso. destruct v; cbn [schema_errors] in Hs; rewrite Ht in Hs;
    cbn [is_none negb andb matches_type existsb] in Hs; rewrite Hv in Hs; done.
Qed.

Lemma schema_errors_items l schema path child : schema_errors (ListV l) schema path = [] → get "items" schema = DictV child →
  ∀ x, x ∈ l → ∃ path', schema_errors x child path' = [].
Proof.
  cbn [schema_errors]. case_match; [done|]. intros [_ [Hl _]%app_nil]%app_nil Hchild. rewrite Hchild in Hl. clear -Hl. revert Hl. generalize 0.
  induction l as [|x l IH]; intros i Hl; [intros x; set_solver|]. apply app_nil in Hl as [Hx Hl]. intros y [->|Hy]%elem_of_cons; [by eexists|by eapply IH].
Qed.

Definition required_proposal_keys : list string :=
  ["schema_version"; "kind"; "entity_id"; "issuer_label"; "metric_id"; "raw_value"; "period"; "dimensions"; "qualifiers"; "reported_or_derived"]%string.
Definition proposal_vocabulary : list string :=
  ["category"; "currency"; "definition"; "description"; "dimensions"; "direction"; "entity_id"; "evidence"; "high"; "issuer_label"; "kind"; "low";
   "metric_id"; "period"; "qualifiers"; "raw_value"; "reported_or_derived"; "scale"; "schema_version"; "shape"; "sign"; "source_span_ids";
   "target_metric_ids"; "text"; "unit"; "value"]%string.

Definition envelope_item : payload := match get "properties" role_envelope_schema with DictV p => match get "proposals" p with DictV q => match get "items" q with DictV i => i | _ => [] end | _ => [] end | _ => [] end.

Lemma dict_get_item {A} (k : string) (v : A) d : dict_get k d = Some v → (k, v) ∈ d.
Proof. induction d as [|[k' v'] d IH]; cbn; [done|]. case_decide as Hk; [intros [= ->]; subst; by left|]. right. by apply IH. Qed.

Lemma elem_of_StrV k (l : list string) : StrV k ∈ StrV <$> l ↔ k ∈ l.
Proof. rewrite list_elem_of_fmap. split; [by intros (? & [= <-] & ?)|]. intros. by exists k. Qed.

Lemma existsb_is_str k (l : list string) : existsb (is_str k) (StrV <$> l) = true → k ∈ l.
Proof. intros (v & (t & -> & Ht)%list_elem_of_In%list_elem_of_fmap & Hk)%existsb_exists. cbn in Hk. btrue. by subst. Qed.

(** an item of an envelope that passed: a dict with the required keys and no key
    outside the vocabulary *)
Lemma envelope_item_closed v path : schema_errors v envelope_item path = [] →
  ∃ d, v = DictV d ∧ (∀ k, k ∈ required_proposal_keys → has k d = true) ∧ Forall (.∈ proposal_vocabulary) d.*1.
Proof.
  intros Hv. pose proof (schema_errors_type v _ _ "object" Hv eq_refl) as Ht. destruct v as [| | | | | |d]; try done. exists d. split; [done|].
  apply schema_errors_dict in Hv as [Ho _]. apply object_errors_nil in Ho as (Hreq & _ & Hnames). split.
  - intros k Hk. eapply (Hreq (StrV <$> required_proposal_keys)); [reflexivity|]. by apply elem_of_StrV.
  - eapply Forall_impl; [eapply (Hnames _ (StrV <$> proposal_vocabulary)); reflexivity|]. intros k. apply existsb_is_str.
Qed.

(** An answer of a proposal role is accepted only as the closed envelope: no key
    but [proposals] and [notes]; the proposals a list of dicts that all have the
    ten common keys, and none has a key outside the contract's vocabulary. *)
Theorem envelope_closed (parsed : payload) : envelope_errors parsed role_envelope_schema = [] →
  Forall (.∈ ["proposals"; "notes"]%string) parsed.*1 ∧
  ∃ items, dict_get "proposals" parsed = Some (ListV items) ∧
    Forall (λ v, ∃ d, v = DictV d ∧ (∀ k, k ∈ required_proposal_keys → has k d = true) ∧ Forall (.∈ proposal_vocabulary) d.*1) items.
Proof.
  unfold envelope_errors. intros H. apply schema_errors_dict in H as [Ho Hc]. apply object_errors_nil in Ho as (Hreq & Hadd & _). split.
  - eapply Forall_impl; [by apply Hadd|]. cbn. intros k Hk. unfold has in Hk. btrue. destruct Hk as [v Hk]. apply dict_get_item in Hk.
    cbn in Hk. set_solver.
  - specialize (Hreq [StrV "proposals"] "proposals"%string eq_refl ltac:(set_solver)). unfold has in Hreq. btrue. destruct Hreq as [v Hv].
    pose proof (dict_get_item _ _ _ Hv) as Hin. specialize (Hc "proposals"%string v _ Hin eq_refl).
    pose proof (schema_errors_type v _ _ "array" Hc eq_refl) as Ht. destruct v as [| | | | |items|]; try done. exists items. split; [done|].
    apply Forall_forall. intros x Hx. destruct (schema_errors_items items _ _ envelope_item Hc eq_refl x Hx) as [path Hx']. by eapply envelope_item_closed.
Qed.

(** * A run of the step *)

(** a provider whose first answer is no JSON, and whose second abstains *)
Definition sample_provider (q : generation_request) : option model_result :=
  if q_max_output_tokens q <? 20 then None else
  Some (ModelResult "mock" "mock-1" "resp" (if (length (q_messages q) =? 2)%nat then None else Some [("proposals", ListV [])]%string) false 100 20 (Dec false 1 (-2))).

Definition sample_environment : environment :=
  Environment (λ _, false) (λ _, true) (λ _, false) (λ n, SF64 (Z.of_nat n) 0) (λ _, sample_provider).

Definition sample_spec : role_spec := RoleSpec KPI "kpi" "1.0.0" [("type", StrV "object"); ("required", ListV [StrV "proposals"])]%string "Extract.".
Definition sample_budget : run_budget :=
  RunBudget 10 100000 20000 (Dec false 200 (-2)) 600 0 0 0 (Dec false 0 0) (SF64 0 0) (SF64 0 0).
Definition sample_blocks : list evidence_dict := [[("source_span_id", "span-0001"); ("text", "ARR was $4.2m.")]]%string.
Definition sample_step : eff runtime failure step_result :=
  run_model_step sample_environment sample_spec "mock" "mock-1" 4096 sample_blocks "run-1" "extract_kpi" "extraction-workflow/v3".

(** the repair is asked for and accepted *)
Example sample_step_repairs :
  match fst (sample_step (Runtime 0 sample_budget)) with Ok r => (s_outcome r, s_attempts r) | Err _ => (Answer [], 0) end
  = (Abstention "explicit zero-proposal envelope", 2).
Proof. vm_compute. reflexivity. Qed.

Lemma model_step_refines_witness :
  let r := fst (sample_step (Runtime 0 sample_budget)) in
  r = reference_step sample_provider sample_spec "mock" "mock-1" 4096 sample_blocks "run-1" "extract_kpi" "extraction-workflow/v3" ∨ ∃ e, r = Err e ∧ interrupted e.
Proof. apply (model_step_refines sample_environment sample_provider). reflexivity. Defined.


(** the step that overshoots: its second answer passes the input cap, and the run stops *)
Example one_call_overshoots :
  let '(r, s) := sample_step (Runtime 0 (RunBudget 3 100 8192 (Dec false 1 0) 600 0 99 0 dec_zero (SF64 0 0) (SF64 0 0))) in
  r = Err (Typed BudgetExceeded) ∧ calls_used (budget s) = 1 ∧ 100 < input_tokens_used (budget s).
Proof. vm_compute. split_and!; reflexivity. Qed.

Lemma envelope_closed_witness :
  let parsed := [("proposals", ListV []); ("notes", NoneV)]%string in
  envelope_errors parsed role_envelope_schema = [] ∧ Forall (.∈ ["proposals"; "notes"]%string) parsed.*1.
Proof. intros parsed. assert (envelope_errors parsed role_envelope_schema = []) as H by (vm_compute; reflexivity). split; [exact H|apply (envelope_closed parsed H)]. Defined.
