(* ===== verification/Workflow.v ===== *)
(** The extraction workflow's state, stores and dependencies: types.py,
    persist_types.py, persist_memory.py, checkpoint.py and workflow_context.py of
    workers/src/fel_workers/extraction/.

    Every external call is a point at which the process can be killed.  Events
    carry what their payload varies in; Events has the redaction of a payload. *)

From Stdlib Require Import SpecFloat.
From S2P Require Import Prelude Effects Dicts Text Floats Decimals Canonical Moments Payload Citations Proposals Messages Budget.
Local Open Scope Z_scope.

Definition WORKFLOW_VERSION : string := "extraction-workflow/v3".

(** * Requests and working state (types.py) *)

Record evidence_block := EvidenceBlock {
  e_source_span_id : string; e_document_version_id : string; e_text : string; e_text_hash : string; e_published_at : option moment;
}.

Record run_request := RunRequest {
  run_id : string; org_id : string; workspace_id : string; entity_id : string; modes : list string; as_of : moment;
  corpus_version_id : string; ontology_version : string; workflow_version : string; provider_ref : string; model_ref : string;
  input_manifest : payload; input_hash : string;
  q_max_calls : Z; q_max_input_tokens : Z; q_max_output_tokens : Z; q_max_cost_usd : decimal; q_max_wall_seconds : Z; issuer_label : string;
}.

Inductive stage :=
| ValidateRequest | AssembleEvidence | Classify | CollectCandidates | ExtractKpi | ExtractGuidance | ExtractRevenueDriver
| Normalize | Validate | VerifyCitations | DetectConflicts | PersistProposals.

#[export] Instance stage_eq_dec : EqDecision stage.
Proof. solve_decision. Defined.

Definition stage_name (st : stage) : string :=
  match st with
  | ValidateRequest => "validate_request" | AssembleEvidence => "assemble_evidence" | Classify => "classify"
  | CollectCandidates => "collect_candidates" | ExtractKpi => "extract_kpi" | ExtractGuidance => "extract_guidance"
  | ExtractRevenueDriver => "extract_revenue_driver" | Normalize => "normalize" | Validate => "validate"
  | VerifyCitations => "verify_citations" | DetectConflicts => "detect_conflicts" | PersistProposals => "persist_proposals"
  end.

Definition STAGE_ORDER : list stage :=
  [ValidateRequest; AssembleEvidence; Classify; CollectCandidates; ExtractKpi; ExtractGuidance; ExtractRevenueDriver; Normalize; Validate;
   VerifyCitations; DetectConflicts; PersistProposals].

Definition MODE_STAGES : list (string * stage) :=
  [("kpi", ExtractKpi); ("guidance", ExtractGuidance); ("revenue_driver", ExtractRevenueDriver)]%string.

Inductive step_status := StepSucceeded | StepFailedStatus | StepSkipped.

#[export] Instance step_status_eq_dec : EqDecision step_status.
Proof. solve_decision. Defined.

(** [output] is [NoneV] for a record without one *)
Record stage_record := StageRecord {
  step_name : string; attempt : Z; status : step_status; record_input_hash : string; output_hash : option string;
  provider_response_id : option string; record_input_tokens : Z; record_output_tokens : Z; record_cost_usd : decimal;
  record_error : option string; output : value;
}.

Inductive run_status := Queued | Running | WaitingReview | Succeeded | Failed | RunCancelled.

#[export] Instance run_status_eq_dec : EqDecision run_status.
Proof. solve_decision. Defined.

Definition TERMINAL_RUN_STATUSES : list run_status := [Succeeded; Failed; RunCancelled].

Record usage_snapshot := UsageSnapshot {
  u_calls_used : Z; u_input_tokens_used : Z; u_output_tokens_used : Z; u_cost_usd : decimal; u_wall_seconds_used : spec_float;
}.
Definition no_usage : usage_snapshot := UsageSnapshot 0 0 0 (Dec false 0 0) (SF64 0 0).

(** what the stages compute, and what the run reports about itself *)
Record extraction := Extraction {
  evidence : list evidence_block; classification : payload; candidates : list value; raw_proposals : list value; normalized : list value;
  validated : list draft; conflicts : list conflict;
}.

Record workflow_state := WorkflowState {
  work : extraction; stages : list (string * stage_record); run_state : run_status; run_error : option string; abstained : bool; usage : usage_snapshot;
}.

(** * Stores *)

(** the protocol [CheckpointStore]: a store and what it answers *)
Class CheckpointStore (T : Type) := {
  load_succeeded (t : T) (run_id org_id step_name input_hash workflow_version : string) : option stage_record * T;
  reject_loaded (t : T) (run_id org_id workflow_version : string) (r : stage_record) : T;
  commit_succeeded (t : T) (run_id org_id workflow_version : string) (r : stage_record) : result failure stage_record * T;
  commit_failed (t : T) (run_id org_id workflow_version : string) (r : stage_record) : result failure stage_record * T;
}.

(** ** [MemoryCheckpointStore] *)

Record memory_checkpoint := MemoryCheckpoint {
  succeeded : gmap (string * string * string * string) stage_record; by_run : gmap string (list stage_record);
}.

Definition append_run (run_id : string) (r : stage_record) (t : memory_checkpoint) : gmap string (list stage_record) :=
  <[run_id := default [] (by_run t !! run_id) ++ [r]]> (by_run t).

Definition memory_load (t : memory_checkpoint) (run_id step_name input_hash workflow_version : string) : option stage_record :=
  succeeded t !! (run_id, step_name, input_hash, workflow_version).

Definition memory_commit (t : memory_checkpoint) (run_id workflow_version : string) (r : stage_record) : result failure stage_record * memory_checkpoint :=
  if bool_decide (status r = StepSucceeded) then
    let key := (run_id, step_name r, record_input_hash r, workflow_version) in
    match succeeded t !! key with
    | Some existing => (Ok existing, t)
    | None => (Ok r, MemoryCheckpoint (<[key := r]> (succeeded t)) (append_run run_id r t))
    end
  else (Err (Untyped (ValueError "only succeeded stages may be checkpointed")), t).

Definition memory_commit_failed (t : memory_checkpoint) (run_id : string) (r : stage_record) : result failure stage_record * memory_checkpoint :=
  if bool_decide (status r = StepFailedStatus) then (Ok r, MemoryCheckpoint (succeeded t) (append_run run_id r t))
  else (Err (Untyped (ValueError "commit_failed requires a failed stage record")), t).

Definition list_succeeded (t : memory_checkpoint) (run_id : string) : list stage_record :=
  filter (λ r, status r = StepSucceeded) (default [] (by_run t !! run_id)).
Definition list_failed (t : memory_checkpoint) (run_id : string) : list stage_record :=
  filter (λ r, status r = StepFailedStatus) (default [] (by_run t !! run_id)).

#[export] Instance memory_checkpoint_store : CheckpointStore memory_checkpoint := {
  load_succeeded t run_id _ step_name input_hash workflow_version := (memory_load t run_id step_name input_hash workflow_version, t);
  reject_loaded t _ _ _ _ := t;
  commit_succeeded t run_id _ workflow_version r := memory_commit t run_id workflow_version r;
  commit_failed t run_id _ _ r := memory_commit_failed t run_id r;
}.

(** ** [MemoryPersistStore] *)

Record persist_store := PersistStore {
  p_proposals : gmap string draft; p_conflicts : gmap string conflict; p_run_status : gmap string run_status; p_usage : gmap string usage_snapshot;
}.

(** [draft.id or proposal_id_for(...)] *)
Definition draft_id (run_id : string) (d : draft) : string :=
  if bool_decide (d_id d = ""%string) then proposal_id_for run_id (d_kind d) (d_metric d) (raw_payload_hash d) else d_id d.

Definition ensure_needs_review (d : draft) : result failure unit :=
  ensure (bool_decide (d_state d = "needs_review"%string)) (Untyped (ValueError "M3 proposals must enter needs_review; no auto-approve")).

(** a draft already stored under its id is kept *)
Definition persist_proposal (run_id : string) (p : persist_store) (d : draft) : result failure (draft * persist_store) :=
  ensure_needs_review d;;
  let pid := draft_id run_id d in
  match p_proposals p !! pid with
  | Some existing => Ok (existing, p)
  | None =>
      let d := Draft (d_kind d) (d_metric d) (d_payload d) (raw_payload_hash d) (definition_hash d) (comparability_key d) (comparability_fields d)
                 (d_summary d) (d_priority d) (d_evidence d) pid in
      Ok (d, PersistStore (<[pid := d]> (p_proposals p)) (p_conflicts p) (p_run_status p) (p_usage p))
  end.

Definition persist_conflict (p : persist_store) (c : conflict) : result failure (conflict * persist_store) :=
  ensure (negb (length (member_proposal_ids c) <? 2)%nat) (Untyped (ValueError "conflict groups require at least two members"));;
  match p_conflicts p !! conflict_key c with
  | Some existing => Ok (existing, p)
  | None => Ok (c, PersistStore (p_proposals p) (<[conflict_key c := c]> (p_conflicts p)) (p_run_status p) (p_usage p))
  end.

(** a loop of writes: those before an error stay *)
Fixpoint write_all {A} (f : persist_store → A → result failure (A * persist_store)) (l : list A) (p : persist_store) : result failure (list A) * persist_store :=
  match l with
  | [] => (Ok [], p)
  | x :: l' =>
      match f p x with
      | Ok (y, p') => let '(r, p'') := write_all f l' p' in (ys ← r; Ok (y :: ys), p'')
      | Err e => (Err e, p)
      end
  end.

Definition persist_proposals (run_id : string) (drafts : list draft) (p : persist_store) : result failure (list draft) * persist_store :=
  write_all (persist_proposal run_id) drafts p.
Definition persist_conflicts (drafts : list conflict) (p : persist_store) : result failure (list conflict) * persist_store := write_all persist_conflict drafts p.

(** a terminal run row cannot be mutated *)
Definition set_run_status (run_id : string) (status : run_status) (p : persist_store) : result failure unit * persist_store :=
  match p_run_status p !! run_id with
  | Some s => if bool_decide (s ∈ TERMINAL_RUN_STATUSES) then (Err (Typed RunAlreadyTerminal), p)
              else (Ok tt, PersistStore (p_proposals p) (p_conflicts p) (<[run_id := status]> (p_run_status p)) (p_usage p))
  | None => (Ok tt, PersistStore (p_proposals p) (p_conflicts p) (<[run_id := status]> (p_run_status p)) (p_usage p))
  end.

Definition load_run_status (run_id : string) (p : persist_store) : option run_status := p_run_status p !! run_id.
Definition mark_running (run_id : string) (p : persist_store) : result failure unit * persist_store := set_run_status run_id Running p.
Definition record_usage (run_id : string) (u : usage_snapshot) (p : persist_store) : persist_store :=
  PersistStore (p_proposals p) (p_conflicts p) (p_run_status p) (<[run_id := u]> (p_usage p)).
Definition load_usage (run_id : string) (p : persist_store) : usage_snapshot := default no_usage (p_usage p !! run_id).

(** * Events *)

Inductive event :=
| RunStarted (workflow_version : string)
| StepStarted (step_name input_hash : string)
| StepCompleted (step_name input_hash : string) (output_hash : option string) (attempts : Z)
| StepFailedEvent (step_name input_hash code : string)
| CheckpointRejected (step_name input_hash : string) (output_hash : option string) (reason : string)
| BudgetUpdated (u : usage_snapshot)
| ProposalsPersisted (count conflicts : nat)
| ReviewWaiting (proposal_count : nat)
| RunSucceeded (normalize_blocked_count : Z)
| RunFailed (code : string)
| RunCancelledEvent (code : string).

Definition event_type (e : event) : string :=
  match e with
  | RunStarted _ => "run_started" | StepStarted _ _ => "step_started" | StepCompleted _ _ _ _ => "step_completed"
  | StepFailedEvent _ _ _ | CheckpointRejected _ _ _ _ => "step_failed" | BudgetUpdated _ => "budget_updated"
  | ProposalsPersisted _ _ => "proposals_persisted" | ReviewWaiting _ => "review_waiting" | RunSucceeded _ => "run_succeeded"
  | RunFailed _ => "run_failed" | RunCancelledEvent _ => "run_cancelled"
  end.

(** * The world of one attempt (workflow_context.py) *)

(** [_ModelStepAudit] *)
Record model_audit := ModelAudit {
  a_provider_response_id : option string; a_input_tokens : Z; a_output_tokens : Z; a_cost_usd : decimal; a_attempts : Z;
  a_instructions_hash : string; a_attempt_request_hashes : list string; a_response_ids : list string;
}.

Record world (T : Type) := World {
  w_runtime : runtime; w_state : workflow_state; w_newly_committed : nat; w_model_calls : Z; w_audit : option model_audit;
  w_checkpoint : T; w_events : list event; w_persist : persist_store;
}.
Arguments World {T}. Arguments w_runtime {T}. Arguments w_state {T}. Arguments w_newly_committed {T}. Arguments w_model_calls {T}.
Arguments w_audit {T}. Arguments w_checkpoint {T}. Arguments w_events {T}. Arguments w_persist {T}.
