(* ===== verification/Stages.v ===== *)
(** The stages of the extraction workflow: stages/*.py, serialize.py, the codec of
    restored outputs (workflow_codec.py) and the usage audit of
    workflow_checkpoint.py.

    The evidence loader, the prompts and the ontology are what [WorkflowDeps] is
    given.  A stage's output is a [value], which [serialize_stage_output] leaves as
    it is.

    What a stage's checkpoint restores: the state the stage left behind it. *)

From Stdlib Require Import SpecFloat.
From S2P Require Import Prelude Effects Dicts Text Floats Decimals Periods Canonical Moments Payload Ontology Normalize Citations Proposals Messages Budget Runner Workflow.
Local Open Scope Z_scope.

(** * [serialize_stage_output] (serialize.py) *)

Fixpoint serialize_stage_output (v : value) : value :=
  match v with
  | ListV l => ListV (map serialize_stage_output l)
  | DictV items => DictV (map (λ kv : string * value, (fst kv, serialize_stage_output (snd kv))) items)
  | v => v
  end.

(** * Evidence *)

Definition pin (b : evidence_block) : block := Block (e_document_version_id b) (e_text b) (e_text_hash b).

(** [evidence_map]: the last block of a span id counts *)
Definition evidence_map (blocks : list evidence_block) : pinned :=
  foldl (λ d b, dict_set (e_source_span_id b) (pin b) d) [] blocks.

Definition block_value (b : evidence_block) : value :=
  DictV [("source_span_id", StrV (e_source_span_id b)); ("document_version_id", StrV (e_document_version_id b)); ("text", StrV (e_text b));
         ("text_hash", StrV (e_text_hash b)); ("published_at", match e_published_at b with Some t => StrV (isoformat t) | None => NoneV end)]%string.

Definition evidence_dicts (blocks : list evidence_block) : list evidence_dict :=
  (λ b, [("source_span_id", e_source_span_id b); ("text", e_text b)]%string) <$> blocks.

Definition check_block (as_of : moment) (b : evidence_block) : result failure unit :=
  ensure (String.prefix "sha256:" (e_text_hash b)) (Typed IntegrityError);;
  ensure (bool_decide (sha256_hex (e_text b) = e_text_hash b)) (Typed IntegrityError);;
  match e_published_at b with
  | None => Ok tt
  | Some t =>
      match moment_gtb t as_of with
      | None => Err (Untyped TypeError)
      | Some late => ensure (negb late) (Typed CutoffViolation)
      end
  end.

(** * Payloads in the working state *)

(** a list of dicts; what a later call raises on any other member is [e] *)
Fixpoint dicts_of (e : exception) (l : list value) : checked (list payload) :=
  match l with
  | [] => Ok []
  | DictV p :: l' => ps ← dicts_of e l'; Ok (p :: ps)
  | _ => Err e
  end.

Definition is_dict (v : value) : bool := match v with DictV _ => true | _ => false end.

Definition strings_value (l : list string) : value := ListV (map StrV l).
Definition nat_value (n : nat) : value := IntV (Z.of_nat n).

(** ** Setters of the working state *)

Definition with_evidence (x : list evidence_block) (s : extraction) : extraction :=
  Extraction x (classification s) (candidates s) (raw_proposals s) (normalized s) (validated s) (conflicts s).
Definition with_classification (x : payload) (s : extraction) : extraction :=
  Extraction (evidence s) x (candidates s) (raw_proposals s) (normalized s) (validated s) (conflicts s).
Definition with_candidates (x : list value) (s : extraction) : extraction :=
  Extraction (evidence s) (classification s) x (raw_proposals s) (normalized s) (validated s) (conflicts s).
Definition with_raw_proposals (x : list value) (s : extraction) : extraction :=
  Extraction (evidence s) (classification s) (candidates s) x (normalized s) (validated s) (conflicts s).
Definition with_normalized (x : list value) (s : extraction) : extraction :=
  Extraction (evidence s) (classification s) (candidates s) (raw_proposals s) x (validated s) (conflicts s).
Definition with_validated (x : list draft * list conflict) (s : extraction) : extraction :=
  Extraction (evidence s) (classification s) (candidates s) (raw_proposals s) (normalized s) x.1 x.2.

(** * Stages that only compute *)

Section stages.
Context (currency_codes : list string) (req : run_request).

Definition stage_validate_request : result failure value :=
  ensure (match modes req with [] => false | _ => true end) (Typed StepFailed);;
  for_each (λ mode, ensure (bool_decide (mode ∈ MODE_STAGES.*1)) (Typed StepFailed)) (modes req);;
  ensure (String.prefix "sha256:" (input_hash req)) (Typed StepFailed);;
  Ok (DictV [("ok", BoolV true); ("modes", strings_value (modes req))]%string).

Definition stage_assemble_evidence (blocks : list evidence_block) : result failure value :=
  for_each (check_block (as_of req)) blocks;;
  Ok (ListV (map block_value blocks)).

(** what a model stage writes and returns *)
Definition keep_classification (p : payload) (s : extraction) : value * extraction := (DictV p, with_classification p s).

Definition abstain (r : role) (reason : string) (s : extraction) : value * extraction :=
  match r with
  | CLASSIFIER =>
      keep_classification [("document_type", StrV "unknown"); ("sections", ListV []); ("relevant_modes", strings_value (modes req));
                           ("abstained", BoolV true); ("reason", StrV reason)]%string s
  | FACT_CANDIDATES => (DictV [("candidates", ListV []); ("abstained", BoolV true); ("reason", StrV reason)]%string, with_candidates [] s)
  | _ => (DictV [("proposals", ListV []); ("abstained", BoolV true); ("reason", StrV reason)]%string, s)
  end.

(** [list(v) if isinstance(v, list) else []] of [v or []] *)
Definition list_or_empty (v : value) : list value := match v with ListV l => l | _ => [] end.

(** the entity is the run's; an issuer label is added where there is none *)
Definition stamp (p : payload) : payload :=
  let item := dict_set "entity_id"%string (StrV (entity_id req)) p in
  if has "issuer_label" item then item else dict_set "issuer_label"%string (StrV (issuer_label req)) item.

Definition stamped (proposals : list value) : list value :=
  omap (M := list) (λ v, match v with DictV p => Some (DictV (stamp p)) | _ => None end) proposals.

Definition accept (r : role) (p : payload) (s : extraction) : value * extraction :=
  match r with
  | CLASSIFIER => keep_classification p s
  | FACT_CANDIDATES =>
      let kept := filter (λ v, is_dict v = true) (list_or_empty (get "candidates" p)) in
      (DictV [("candidates", ListV kept)]%string, with_candidates kept s)
  | _ =>
      let new := stamped (list_or_empty (get "proposals" p)) in
      (DictV [("proposals", ListV new)]%string, with_raw_proposals (raw_proposals s ++ new) s)
  end.

Definition model_output (r : role) (out : outcome) (s : extraction) : value * extraction :=
  match out with Abstention reason => abstain r reason s | Answer p => accept r p s end.

Definition stage_normalize_raw (s : extraction) : result failure (value * extraction) :=
  raw ← map_err Untyped (dicts_of TypeError (raw_proposals s));
  '(payloads, blocked) ← map_err Untyped (stage_normalize currency_codes raw);
  let normalized := map DictV payloads in
  Ok (DictV [("normalized", ListV normalized); ("normalized_count", nat_value (length normalized)); ("blocked_count", nat_value blocked)]%string,
      with_normalized normalized s).

(** [validate_proposals] over the pinned evidence *)
Definition validate_normalized (o : ontology) (s : extraction) : result failure (list draft * list conflict) :=
  payloads ← map_err Untyped (dicts_of AttributeError (normalized s));
  map_err Untyped (validate_proposals currency_codes o (run_id req) payloads (evidence_map (evidence s))).

Definition stage_validate (o : ontology) (s : extraction) : result failure (value * extraction) :=
  '(proposals, found) ← validate_normalized o s;
  Ok (DictV [("normalized", ListV (normalized s)); ("proposal_count", nat_value (length proposals)); ("conflict_count", nat_value (length found))]%string,
      with_validated (proposals, found) s).

(** every citation row is graded from the pinned evidence, whatever it said *)
Definition grade (evidence_by_span : pinned) (row : payload) : payload :=
  dict_set "citation_status"%string (StrV (citation_status_for row evidence_by_span)) row.

Definition grade_draft (evidence_by_span : pinned) (d : draft) : draft :=
  Draft (d_kind d) (d_metric d) (d_payload d) (raw_payload_hash d) (definition_hash d) (comparability_key d) (comparability_fields d)
    (d_summary d) (d_priority d) (grade evidence_by_span <$> d_evidence d) (d_id d).

Definition stage_verify_citations (s : extraction) : value * extraction :=
  let pinned := evidence_map (evidence s) in
  let statuses := concat ((λ d, (λ row, citation_status_for row pinned) <$> d_evidence d) <$> validated s) in
  let count (status : string) := nat_value (length (filter (.= status) statuses)) in
  (DictV [("invalid_citations", count "invalid"); ("partial_citations", count "partial"); ("verified_citations", count "verified");
          ("checked", nat_value (length (validated s)))]%string,
   with_validated (grade_draft pinned <$> validated s, conflicts s) s).

Definition stage_detect_conflicts (s : extraction) : value :=
  DictV [("conflict_keys", strings_value (conflict_key <$> conflicts s)); ("count", nat_value (length (conflicts s)))]%string.

(** * The codec of a restored output (workflow_codec.py) *)

Definition required (k : string) (p : payload) : checked value := from_option_err (KeyError (repr_str k)) (dict_get k p).

Definition restore_block (v : value) : result failure (option evidence_block) :=
  match v with
  | DictV p =>
      published_at ← match get "published_at" p with
        | StrV t => if bool_decide (t = ""%string) then Ok None
                    else Some <$> from_option_err (Untyped (ValueError ("Invalid isoformat string: " +:+ repr_str t))) (fromisoformat (replace_Z t))
        | _ => Ok None
        end;
      let text := py_str (or_else (get "text" p) (StrV "")) in
      text_hash ← map_err Untyped (required "text_hash" p);
      let text_hash := py_str text_hash in
      span ← (if bool_decide (sha256_hex text = text_hash) then map_err Untyped (required "source_span_id" p)
              else _ ← map_err Untyped (required "source_span_id" p); Err (Typed IntegrityError));
      document ← map_err Untyped (required "document_version_id" p);
      Ok (Some (EvidenceBlock (py_str span) (py_str document) text text_hash published_at))
  | _ => Ok None
  end.

Definition restore_evidence (l : list value) : result failure (list evidence_block) :=
  blocks ← mapM restore_block l;
  Ok (omap (M := list) id blocks).

(** [default_ontology] is the one [validate_proposals] loads when it is given none *)
Definition restore_output (default_ontology : ontology) (st : stage) (output : value) (s : extraction) : result failure extraction :=
  match st, output with
  | AssembleEvidence, ListV l => blocks ← restore_evidence l; Ok (with_evidence blocks s)
  | Classify, DictV p => Ok (with_classification p s)
  | CollectCandidates, DictV p => l ← map_err Untyped (iterate (get "candidates" p)); Ok (with_candidates l s)
  | (ExtractKpi | ExtractGuidance | ExtractRevenueDriver), DictV p =>
      Ok (with_raw_proposals (raw_proposals s ++ list_or_empty (get "proposals" p)) s)
  | Workflow.Normalize, DictV p => l ← map_err Untyped (iterate (get "normalized" p)); Ok (with_normalized l s)
  | Validate, DictV p =>
      l ← map_err Untyped (iterate (or_else (get "normalized" p) (ListV (normalized s))));
      let s := with_normalized l s in
      rebuilt ← validate_normalized default_ontology s;
      Ok (with_validated rebuilt s)
  | DetectConflicts, DictV _ =>
      match validated s, normalized s with
      | [], _ :: _ => rebuilt ← validate_normalized default_ontology s; Ok (with_validated rebuilt s)
      | _, _ => Ok s
      end
  | _, _ => Ok s
  end.
End stages.

(** * What a checkpoint restores *)
From S2P Require Import ProposalsSound.

Lemma serialize_id v : serialize_stage_output v = v.
Proof.
  induction v as [| | | | |l Hl|items Hi] using value_induction; try done; cbn [serialize_stage_output]; f_equal.
  - induction Hl as [|x l Hx _ IH]; [done|]. cbn. by rewrite Hx, IH.
  - induction Hi as [|[k x] items Hx _ IH]; [done|]. cbn in *. by rewrite Hx, IH.
Qed.

(** * Evidence *)

(** a publication time that [datetime] can hold *)
Definition published_ok (b : evidence_block) : Prop := match e_published_at b with Some t => moment_ok t | None => True end.

Lemma isoformat_nonempty t : isoformat t ≠ ""%string.
Proof.
  unfold isoformat. change ("T" +:+ ?s)%string with (String "T" s). intros H%(f_equal String.length). rewrite string_length_app in H. cbn in H. lia.
Qed.

Lemma check_block_hash as_of b u : check_block as_of b = Ok u → sha256_hex (e_text b) = e_text_hash b.
Proof. unfold check_block. intros H. by ok_inv; btrue. Qed.

Lemma restore_block_value as_of b u : check_block as_of b = Ok u → published_ok b → restore_block (block_value b) = Ok (Some b).
Proof.
  intros Hhash%check_block_hash Hpub. unfold restore_block, block_value.
  destruct b as [span document text text_hash published]. cbn [e_source_span_id e_document_version_id e_text e_text_hash e_published_at] in *.
  assert (py_str (or_else (StrV text) (StrV "")) = text) as Htext.
  { unfold or_else, truth. destruct (bool_decide_reflect (text = ""%string)) as [->|]; done. }
  replace (get "published_at" _) with (match published with Some t => StrV (isoformat t) | None => NoneV end) by done.
  assert (match match published with Some t => StrV (isoformat t) | None => NoneV end with
          | StrV t => if bool_decide (t = ""%string) then Ok None
                      else Some <$> from_option_err (Untyped (ValueError ("Invalid isoformat string: " +:+ repr_str t))) (fromisoformat (replace_Z t))
          | _ => Ok None
          end = (Ok published : result failure (option moment))) as ->.
  { destruct published as [t|]; [|done]. rewrite bool_decide_false by apply isoformat_nonempty.
    assert (fromisoformat (replace_Z (isoformat t)) = Some t) as -> by (by apply fromisoformat_restores). done. }
  cbn [mbind result_bind]. replace (get "text" _) with (StrV text) by done. rewrite Htext.
  change (required "text_hash" _) with (Ok (StrV text_hash) : checked value). change (required "source_span_id" _) with (Ok (StrV span) : checked value).
  change (required "document_version_id" _) with (Ok (StrV document) : checked value). cbn [map_err mbind result_bind py_str].
  by rewrite Hhash, bool_decide_true by done.
Qed.

Lemma restore_evidence_values as_of blocks u :
  for_each (check_block as_of) blocks = Ok u → Forall published_ok blocks → restore_evidence (map block_value blocks) = Ok blocks.
Proof.
  intros Hc%for_each_Ok Hp. unfold restore_evidence. assert (mapM restore_block (map block_value blocks) = Ok (Some <$> blocks)) as ->.
  { apply mapM_Ok. induction Hc as [|b blocks Hb _ IH]; [constructor|]. apply Forall_cons in Hp as [Hpb Hp]. constructor; [by eapply restore_block_value|by apply IH]. }
  cbn. f_equal. clear. induction blocks as [|b blocks IH]; [done|]. cbn. by f_equal.
Qed.

(** * Grading a citation row again changes nothing *)

Lemma get_set_ne k k' v (p : payload) : k' ≠ k → get k (dict_set k' v p) = get k p.
Proof. intros Hne. unfold get. by rewrite dict_get_set, decide_False. Qed.

Lemma citation_status_set ev v row : citation_status_for (dict_set "citation_status"%string v row) ev = citation_status_for row ev.
Proof. unfold citation_status_for. by rewrite !get_set_ne by done. Qed.

Lemma grade_idempotent ev row : grade ev (grade ev row) = grade ev row.
Proof. unfold grade at 1. unfold grade at 1. rewrite citation_status_set. apply dict_set_same. unfold grade. by rewrite dict_get_set, decide_True. Qed.

Lemma grade_row ev item row : evidence_row ev item = Some row → grade ev row = row.
Proof.
  unfold evidence_row. intros (row0 & _ & H)%bind_Some. injection H as <-. exact (grade_idempotent ev _).
Qed.

Lemma grade_rows ev clean rows : evidence_rows clean ev = Ok rows → grade ev <$> rows = rows.
Proof.
  unfold evidence_rows. intros (items & _ & H)%bind_Ok. injection H as <-. induction items as [|item items IH]; [done|]. cbn.
  destruct (evidence_row ev item) as [row|] eqn:Hrow; [|exact IH]. cbn. f_equal; [by eapply grade_row|exact IH].
Qed.

Lemma grade_draft_id ev d : grade ev <$> d_evidence d = d_evidence d → grade_draft ev d = d.
Proof. intros H. unfold grade_draft. rewrite H. by destruct d. Qed.

Lemma graded_drafts currency_codes o run_id payloads ev drafts found :
  validate_proposals currency_codes o run_id payloads ev = Ok (drafts, found) → grade_draft ev <$> drafts = drafts.
Proof.
  intros H. assert (Forall (λ d, grade_draft ev d = d) drafts) as Hall.
  { apply Forall_forall. intros d Hd. destruct (reported_draft _ _ _ _ _ _ _ _ H Hd) as (p & d0 & m & _ & Hv & Hg & _).
    destruct (validate_one_inv _ _ _ _ _ _ Hv) as (_ & _ & _ & Hrows & _). destruct Hg as (_ & _ & _ & _ & Hev & _). cbn [with_priority d_evidence] in Hev.
    apply grade_draft_id. rewrite Hev. by eapply grade_rows. }
  clear H. induction Hall as [|d drafts Hd _ IH]; [done|]. cbn. by f_equal.
Qed.

(** * Restoring an output *)

Section restore.
Context (currency_codes : list string) (req : run_request) (o : ontology).

(** the drafts and conflicts are those of the normalized payloads *)
Definition settled (s : extraction) : Prop := validate_normalized currency_codes req o s = Ok (validated s, conflicts s).

Lemma validate_normalized_settled s found : validate_normalized currency_codes req o s = Ok found → settled (with_validated found s).
Proof. unfold settled. intros H. destruct found. exact H. Qed.

Lemma with_validated_settled s found : settled s → validate_normalized currency_codes req o s = Ok found → with_validated found s = s.
Proof. unfold settled. intros -> [= <-]. by destruct s. Qed.

Lemma verify_settled s : settled s → (stage_verify_citations s).2 = s.
Proof.
  intros Hs. unfold stage_verify_citations. cbn [snd]. unfold settled, validate_normalized in Hs. apply bind_Ok in Hs as (payloads & _ & Hs).
  apply map_err_Ok in Hs. apply graded_drafts in Hs. rewrite Hs. by destruct s.
Qed.

Lemma iterate_list l : iterate (ListV l) = Ok l.
Proof. by destruct l. Qed.

Lemma or_else_list l : or_else (ListV l) (ListV l) = ListV l.
Proof. unfold or_else. by destruct (truth (ListV l)). Qed.

Lemma restore_validate s found : validate_normalized currency_codes req o s = Ok found →
  restore_output currency_codes req o Validate
    (DictV [("normalized", ListV (normalized s)); ("proposal_count", nat_value (length found.1)); ("conflict_count", nat_value (length found.2))]%string) s
  = Ok (with_validated found s).
Proof.
  intros H. unfold restore_output. change (get "normalized" _) with (ListV (normalized s)). rewrite or_else_list, iterate_list. cbn [map_err mbind result_bind].
  assert (with_normalized (normalized s) s = s) as -> by (by destruct s). by rewrite H.
Qed.

Lemma restore_detect s : settled s → restore_output currency_codes req o DetectConflicts (stage_detect_conflicts s) s = Ok s.
Proof.
  intros Hs. unfold restore_output, stage_detect_conflicts. destruct (validated s) eqn:Hv, (normalized s) eqn:Hn; try done.
  pose proof Hs as Hset. unfold settled in Hs. rewrite Hs. cbn [mbind result_bind]. f_equal. by apply with_validated_settled.
Qed.

(** ** The stages that call a model *)

Definition role_stage (r : role) : stage :=
  match r with CLASSIFIER => Classify | FACT_CANDIDATES => CollectCandidates | KPI => ExtractKpi | GUIDANCE => ExtractGuidance | DRIVER_MAPPER => ExtractRevenueDriver end.

Lemma restore_model r out s : restore_output currency_codes req o (role_stage r) (model_output req r out s).1 s = Ok (model_output req r out s).2.
Proof.
  assert (with_raw_proposals (raw_proposals s ++ []) s = s) as Hnil by (rewrite app_nil_r; by destruct s).
  destruct out as [p|reason], r; cbn [model_output accept abstain keep_classification fst snd role_stage restore_output]; try done;
    try (change (get "candidates" _) with (ListV []) || change (get "proposals" _) with (ListV [])); cbn [list_or_empty]; rewrite ?Hnil; try done.
  - change (get "candidates" _) with (ListV (filter (λ v, is_dict v = true) (list_or_empty (get "candidates" p)))) at 1. by rewrite iterate_list.
Qed.
End restore.
