(* ===== verification/WorkflowRun.v ===== *)
(** [workers/src/fel_workers/extraction/workflow.py] and workflow_checkpoint.py:
    the finite stage machine, its checkpoints and its terminal writes. *)

From Stdlib Require Import SpecFloat.
From S2P Require Import Prelude Duplicates Effects Dicts Text Floats Decimals Periods Canonical Moments Payload Ontology Numeric Normalize Citations Proposals Messages Budget Runner Workflow Stages.
Local Open Scope Z_scope.

(** [load_role_specs]; the prompts are files *)
Definition role_spec_of (prompt : role → string) (r : role) : role_spec :=
  match r with
  | CLASSIFIER => RoleSpec CLASSIFIER "classifier" "1.0.0" classifier_schema (prompt r)
  | FACT_CANDIDATES => RoleSpec FACT_CANDIDATES "candidates" "1.0.0" fact_table_candidates_schema (prompt r)
  | KPI => RoleSpec KPI "kpi" "1.0.0" role_envelope_schema (prompt r)
  | GUIDANCE => RoleSpec GUIDANCE "guidance" "1.0.0" role_envelope_schema (prompt r)
  | DRIVER_MAPPER => RoleSpec DRIVER_MAPPER "revenue_driver" "1.0.0" role_envelope_schema (prompt r)
  end.

(** [stage_input_hash] of hashing.py *)
Definition stage_input_hash (run_id step_name workflow_version : string) (p : value) : string :=
  hash_json (DictV [("run_id", StrV run_id); ("step_name", StrV step_name); ("payload", p); ("workflow_version", StrV workflow_version)]%string).

Section workflow.
Context {T : Type} `{!CheckpointStore T}.
Context (env : environment) (currency_codes : list string) (prompt : role → string) (default_ontology : ontology) (deps_ontology : option ontology)
  (evidence_loader : option (run_request → list evidence_block)) (crash_after_stages : option nat) (req : run_request).

Notation effect := (eff (world T) failure).

(** [deps.ontology or load_saas_metrics()] *)
Definition ctx_ontology : ontology := default default_ontology deps_ontology.

(** * Parts of the world *)

Definition on_runtime {A} (m : eff runtime failure A) : effect A :=
  zoom w_runtime (λ r w, World r (w_state w) (w_newly_committed w) (w_model_calls w) (w_audit w) (w_checkpoint w) (w_events w) (w_persist w)) m.
Definition on_state (f : workflow_state → workflow_state) : effect unit :=
  writes (λ w, World (w_runtime w) (f (w_state w)) (w_newly_committed w) (w_model_calls w) (w_audit w) (w_checkpoint w) (w_events w) (w_persist w)).
Definition put_audit (a : option model_audit) : effect unit :=
  writes (λ w, World (w_runtime w) (w_state w) (w_newly_committed w) (w_model_calls w) a (w_checkpoint w) (w_events w) (w_persist w)).
Definition count_model_calls (n : Z) : effect unit :=
  writes (λ w, World (w_runtime w) (w_state w) (w_newly_committed w) (w_model_calls w + n) (w_audit w) (w_checkpoint w) (w_events w) (w_persist w)).
Definition count_committed : effect unit :=
  writes (λ w, World (w_runtime w) (w_state w) (S (w_newly_committed w)) (w_model_calls w) (w_audit w) (w_checkpoint w) (w_events w) (w_persist w)).

(** the process can be killed before it reaches a store *)
Definition reach : effect unit := on_runtime (observe env (λ _, tt)).

Definition on_checkpoint {A} (f : T → A * T) : effect A :=
  reach;; zoom w_checkpoint (λ t w, World (w_runtime w) (w_state w) (w_newly_committed w) (w_model_calls w) (w_audit w) t (w_events w) (w_persist w))
            (λ t, let '(a, t) := f t in (Ok a, t)).
Definition on_persist {A} (f : persist_store → result failure A * persist_store) : effect A :=
  reach;; zoom w_persist (λ p w, World (w_runtime w) (w_state w) (w_newly_committed w) (w_model_calls w) (w_audit w) (w_checkpoint w) (w_events w) p) f.
Definition append (e : event) : effect unit :=
  reach;; writes (λ w, World (w_runtime w) (w_state w) (w_newly_committed w) (w_model_calls w) (w_audit w) (w_checkpoint w) (w_events w ++ [e]) (w_persist w)).

(** ** Setters of the run's own state *)

Definition with_work (x : extraction) (s : workflow_state) : workflow_state := WorkflowState x (stages s) (run_state s) (run_error s) (abstained s) (usage s).
Definition with_stage (st : stage) (r : stage_record) (s : workflow_state) : workflow_state :=
  WorkflowState (work s) (dict_set (stage_name st) r (stages s)) (run_state s) (run_error s) (abstained s) (usage s).
Definition with_status (x : run_status) (s : workflow_state) : workflow_state := WorkflowState (work s) (stages s) x (run_error s) (abstained s) (usage s).
Definition with_error (x : run_status) (code : string) (s : workflow_state) : workflow_state :=
  WorkflowState (work s) (stages s) x (Some code) (abstained s) (usage s).
Definition with_abstained (s : workflow_state) : workflow_state := WorkflowState (work s) (stages s) (run_state s) (run_error s) true (usage s).
Definition with_usage (u : usage_snapshot) (s : workflow_state) : workflow_state := WorkflowState (work s) (stages s) (run_state s) (run_error s) (abstained s) u.

Definition put_work (x : extraction) : effect unit := on_state (with_work x).
Definition working : effect extraction := reads (λ w, work (w_state w)).

Definition lease : effect bool := on_runtime (observe env (lease_check env)).
Definition cancelled : effect bool := on_runtime (observe env (cancel_check env)).
Definition the_budget : effect run_budget := reads (λ w, budget (w_runtime w)).

(** * Fences *)

Definition boundary : effect unit :=
  held ← lease; raise_if (negb held) (Typed LeaseLost);;
  c ← cancelled; raise_if c (Typed Cancelled);;
  on_runtime (wall_cap_reached env).

Definition commit_fence : effect unit :=
  held ← lease; raise_if (negb held) (Typed LeaseLost);;
  c ← cancelled; raise_if c (Typed Cancelled).

(** * Usage *)

(** [_record_usage] *)
Definition record_run_usage : effect unit :=
  elapsed ← on_runtime (elapsed_seconds env);
  b ← the_budget;
  let u := UsageSnapshot (calls_used b) (input_tokens_used b) (output_tokens_used b) (cost_usd b) elapsed in
  on_persist (λ p, (Ok tt, record_usage (run_id req) u p));;
  append (BudgetUpdated u).

(** * Model stages (stages/model.py) *)

Definition run_role (r : role) (step : string) : effect value :=
  s ← working;
  before ← the_budget;
  result ← on_runtime (run_model_step env (role_spec_of prompt r) (provider_ref req) (model_ref req) (Z.min 4096 (q_max_output_tokens req))
                         (evidence_dicts (evidence s)) (run_id req) step (workflow_version req));
  count_model_calls (s_attempts result);;
  after ← the_budget;
  cost ← pure (map_err Untyped (arith (dec_sub DEFAULT_CONTEXT (cost_usd after) (cost_usd before))));
  put_audit (Some (ModelAudit (last (s_response_ids result)) (input_tokens_used after - input_tokens_used before)
    (output_tokens_used after - output_tokens_used before) cost (s_attempts result) (s_instructions_hash result)
    (s_attempt_hashes result) (s_response_ids result)));;
  record_run_usage;;
  (match s_outcome result with Abstention _ => on_state with_abstained | Answer _ => mret tt end);;
  let '(out, s) := model_output req r (s_outcome result) s in
  put_work s;;
  mret out.

(** * Persisting proposals (stages/persist_proposals.py) *)

(** [persist_outputs_atomic] and its event *)
Definition persist_outputs_atomic (proposals : list draft) (found : list conflict) : effect (nat * nat) :=
  persisted ← on_persist (persist_proposals (run_id req) proposals);
  raise_if (existsb (λ d, negb (bool_decide (d_state d = "needs_review"%string))) persisted) (Typed StepFailed);;
  groups ← on_persist (persist_conflicts found);
  append (ProposalsPersisted (length persisted) (length groups));;
  mret (length persisted, length groups).

Definition stage_persist : effect value :=
  held ← lease; raise_if (negb held) (Typed LeaseLost);;
  s ← working;
  '(persisted, groups) ← persist_outputs_atomic (validated s) (conflicts s);
  mret (DictV [("persisted", nat_value persisted); ("conflicts", nat_value groups)]%string).

(** * Dispatch *)

(** a stage that computes its output and the state after it *)
Definition computed (f : extraction → result failure (value * extraction)) : effect value :=
  s ← working;
  '(out, s) ← pure (f s);
  put_work s;;
  mret out.

Definition dispatch_stage (st : stage) : effect value :=
  match st with
  | ValidateRequest => pure (stage_validate_request req)
  | AssembleEvidence => computed (λ s,
      let blocks := match evidence_loader with Some load => load req | None => evidence s end in
      out ← stage_assemble_evidence req blocks;
      Ok (out, with_evidence blocks s))
  | Classify => run_role CLASSIFIER "classify"
  | CollectCandidates => run_role FACT_CANDIDATES "collect_candidates"
  | ExtractKpi => run_role KPI "extract_kpi"
  | ExtractGuidance => run_role GUIDANCE "extract_guidance"
  | ExtractRevenueDriver => run_role DRIVER_MAPPER "extract_revenue_driver"
  | Workflow.Normalize => computed (stage_normalize_raw currency_codes)
  | Validate => computed (stage_validate currency_codes req ctx_ontology)
  | VerifyCitations => computed (λ s, Ok (stage_verify_citations s))
  | DetectConflicts => computed (λ s, Ok (stage_detect_conflicts s, s))
  | PersistProposals => stage_persist
  end.

(** * A stage's input *)

Definition stage_input_payload (s : extraction) (st : stage) : value :=
  match st with
  | ValidateRequest =>
      DictV [("run_id", StrV (run_id req)); ("modes", strings_value (modes req)); ("input_hash", StrV (input_hash req));
             ("ontology_version", StrV (ontology_version req))]
  | AssembleEvidence => DictV [("manifest", DictV (input_manifest req)); ("corpus_version_id", StrV (corpus_version_id req))]
  | Classify => DictV [("evidence_hashes", strings_value (e_text_hash <$> evidence s))]
  | CollectCandidates => DictV [("classification", DictV (classification s))]
  | ExtractKpi | ExtractGuidance | ExtractRevenueDriver =>
      DictV [("candidates", ListV (candidates s)); ("classification", DictV (classification s))]
  | Workflow.Normalize =>
      DictV [("raw_proposals", ListV (raw_proposals s)); ("normalizer_version", StrV NORMALIZER_VERSION);
             ("unit_policy_version", StrV UNIT_POLICY_VERSION); ("range_policy_version", StrV RANGE_POLICY_VERSION)]
  | Validate =>
      DictV [("normalized", ListV (normalized s)); ("validator_version", StrV VALIDATOR_VERSION);
             ("unit_policy_version", StrV UNIT_POLICY_VERSION); ("range_policy_version", StrV RANGE_POLICY_VERSION)]
  | VerifyCitations => DictV [("validated_count", nat_value (length (validated s)))]
  | DetectConflicts => DictV [("proposal_ids", strings_value (d_id <$> validated s))]
  | PersistProposals =>
      DictV [("proposal_ids", strings_value (d_id <$> validated s)); ("conflict_keys", strings_value (conflict_key <$> conflicts s))]
  end%string.

Definition input_hash_of (s : extraction) (st : stage) : string :=
  stage_input_hash (run_id req) (stage_name st) (workflow_version req) (stage_input_payload s st).

(** * Checkpoints (workflow_checkpoint.py) *)

Definition reject_checkpoint (r : stage_record) (reason : string) : effect unit :=
  on_checkpoint (λ t, (tt, reject_loaded t (run_id req) (org_id req) (workflow_version req) r));;
  append (CheckpointRejected (step_name r) (record_input_hash r) (output_hash r) reason).

Definition is_recoverable (r : stage_record) : effect bool :=
  match output r with
  | NoneV =>
      match output_hash r with
      | Some _ => reject_checkpoint r "checkpoint_output_missing";; mret false
      | None => mret true
      end
  | out =>
      if bool_decide (Some (hash_json (serialize_stage_output out)) = output_hash r) then mret true
      else reject_checkpoint r "checkpoint_hash_mismatch";; mret false
  end.

(** the code a failed step is recorded under *)
Definition failure_code (e : failure) : string :=
  match e with
  | Typed c => code c
  | Untyped (ValueError _) => "ValueError" | Untyped (KeyError _) => "KeyError" | Untyped AttributeError => "AttributeError"
  | Untyped TypeError => "TypeError" | Untyped OverflowError => "OverflowError"
  | Untyped (DecimalSignal InvalidOperation) => "InvalidOperation" | Untyped (DecimalSignal DivisionByZero) => "DivisionByZero"
  | Untyped (DecimalSignal Overflow) => "Overflow"
  | InjectedCrash => "RuntimeError" | Killed => ""
  end%string.

(** [_record_stage_failure]: best effort, and nothing once the lease is lost *)
Definition record_stage_failure (st : stage) (hash : string) (e : failure) : effect unit :=
  held ← lease;
  if held : bool then
    let r := StageRecord (stage_name st) 1 StepFailedStatus hash None None 0 0 (Dec false 0 0) (Some (failure_code e)) NoneV in
    committed ← on_checkpoint (λ t, commit_failed t (run_id req) (org_id req) (workflow_version req) r);
    match committed with
    | Ok _ => on_state (with_stage st r);; append (StepFailedEvent (stage_name st) hash (failure_code e))
    | Err _ => mret tt
    end
  else mret tt.

(** [_commit_stage] without an atomic store *)
Definition commit_stage (r : stage_record) : effect stage_record :=
  committed ← on_checkpoint (λ t, commit_succeeded t (run_id req) (org_id req) (workflow_version req) r);
  committed ← pure committed;
  append (StepCompleted (step_name r) (record_input_hash r) (output_hash r) (attempt r));;
  mret committed.

(** the record of a stage that ended, with its model step's provenance *)
Definition record_of (st : stage) (hash : string) (out : value) (audit : option model_audit) : stage_record :=
  let output_hash := match out with NoneV => None | _ => Some (hash_json out) end in
  match audit with
  | None => StageRecord (stage_name st) 1 StepSucceeded hash output_hash None 0 0 (Dec false 0 0) None out
  | Some a => StageRecord (stage_name st) (a_attempts a) StepSucceeded hash output_hash (a_provider_response_id a) (a_input_tokens a) (a_output_tokens a)
                (a_cost_usd a) None out
  end.

(** * One stage *)

(** [except BaseException]: recorded, then raised again *)
Definition recorded (st : stage) (hash : string) (m : effect value) : effect value :=
  try_except (λ e, negb (bool_decide (e = Killed))) m (λ e, record_stage_failure st hash e;; raise e).

Definition execute_stage (st : stage) (hash : string) : effect unit :=
  append (StepStarted (stage_name st) hash);;
  put_audit None;;
  out ← recorded st hash (dispatch_stage st);
  audit ← reads w_audit;
  let r := record_of st hash (serialize_stage_output out) audit in
  commit_fence;;
  committed ← commit_stage r;
  on_state (with_stage st committed);;
  count_committed;;
  n ← reads w_newly_committed;
  raise_if (match crash_after_stages with Some limit => (limit <=? n)%nat | None => false end) InjectedCrash.

Definition run_stage (st : stage) : effect unit :=
  s ← working;
  let hash := input_hash_of s st in
  existing ← on_checkpoint (λ t, load_succeeded t (run_id req) (org_id req) (stage_name st) hash (workflow_version req));
  usable ← match existing with
    | Some r => if bool_decide (status r = StepSucceeded) then is_recoverable r else mret false
    | None => mret false
    end;
  match existing, usable : bool with
  | Some r, true =>
      on_state (with_stage st r);;
      s ← pure (restore_output currency_codes req default_ontology st (output r) s);
      put_work s
  | _, _ => execute_stage st hash
  end.

Definition should_skip_mode_stage (st : stage) : bool :=
  existsb (λ ms, bool_decide (st = ms.2) && negb (bool_decide (ms.1 ∈ modes req))) MODE_STAGES.

Definition mark_skipped (st : stage) : effect unit :=
  let hash := stage_input_hash (run_id req) (stage_name st) (workflow_version req)
                (DictV [("skipped", BoolV true); ("modes", strings_value (modes req))]%string) in
  on_state (with_stage st (StageRecord (stage_name st) 1 StepSkipped hash None None 0 0 (Dec false 0 0) None NoneV)).

Definition advance (st : stage) : effect unit :=
  boundary;; if should_skip_mode_stage st then mark_skipped st else run_stage st.

(** * The end of a run *)

(** [_normalize_blocked_count] *)
Definition normalize_blocked_count (s : workflow_state) : Z :=
  match dict_get (stage_name Workflow.Normalize) (stages s) with
  | Some r => match output r with DictV p => match get "blocked_count" p with IntV n => n | BoolV true => 1 | _ => 0 end | _ => 0 end
  | None => 0
  end.

Definition finalize_success : effect unit :=
  held ← lease; raise_if (negb held) (Typed LeaseLost);;
  s ← working;
  match validated s with
  | _ :: _ =>
      on_state (with_status WaitingReview);;
      on_persist (set_run_status (run_id req) WaitingReview);;
      append (ReviewWaiting (length (validated s)))
  | [] =>
      on_state (with_status Succeeded);;
      on_state with_abstained;;
      state ← reads w_state;
      append (RunSucceeded (normalize_blocked_count state));;
      on_persist (set_run_status (run_id req) Succeeded)
  end.

(** the event of a failed or cancelled run, and then its terminal status *)
Definition finish (s : run_status) (code : string) (e : event) : effect unit :=
  held ← lease; raise_if (negb held) (Typed LeaseLost);;
  on_state (with_error s code);;
  append e;;
  on_persist (set_run_status (run_id req) s).

(** the handlers of [run_extraction_workflow] *)
Definition handle (e : failure) : effect unit :=
  match e with
  | Typed LeaseLost => raise e
  | Typed Cancelled => finish RunCancelled (code Cancelled) (RunCancelledEvent (code Cancelled))
  | Typed c => finish Failed (code c) (RunFailed (code c))
  | _ => finish Failed "internal_error" (RunFailed "internal_error");; raise e
  end.

Definition flush_usage : effect unit := held ← lease; if held : bool then record_run_usage else mret tt.

Definition alive (e : failure) : bool := negb (bool_decide (e = Killed)).

Definition stages_then_flush : effect unit :=
  try_finally alive
    (raise_if (negb (bool_decide (workflow_version req = WORKFLOW_VERSION))) (Typed StepFailed);; for_loop advance STAGE_ORDER)
    flush_usage.

Definition body : effect unit := try_except alive (stages_then_flush;; finalize_success) handle.

Definition report_usage : effect unit :=
  b ← the_budget;
  on_state (λ s, with_usage (UsageSnapshot (calls_used b) (input_tokens_used b) (output_tokens_used b) (cost_usd b) (u_wall_seconds_used (usage s))) s).

(** builtin [max] *)
Definition dec_max (a b : decimal) : decimal := if dec_ltb a b then b else a.

Definition open_budget (own carried : usage_snapshot) (now : spec_float) : run_budget :=
  RunBudget (q_max_calls req) (q_max_input_tokens req) (q_max_output_tokens req) (q_max_cost_usd req) (q_max_wall_seconds req)
    (Z.max (u_calls_used own) (u_calls_used carried)) (Z.max (u_input_tokens_used own) (u_input_tokens_used carried))
    (Z.max (u_output_tokens_used own) (u_output_tokens_used carried)) (dec_max (u_cost_usd own) (u_cost_usd carried))
    (u_wall_seconds_used carried) now.

Definition run_extraction_workflow : effect unit :=
  carried ← on_persist (λ p, (Ok (load_usage (run_id req) p), p));
  own ← reads (λ w, usage (w_state w));
  now ← on_runtime (observe env (monotonic env));
  on_runtime (writes (λ r, Runtime (ticks r) (open_budget own carried now)));;
  on_state (with_status Running);;
  append (RunStarted WORKFLOW_VERSION);;
  try_finally alive body report_usage.
End workflow.
