(* ===== verification/WorkflowResume.v ===== *)
(** Crash and resume: whatever attempts of a run were cut short before it, an
    attempt that finishes has computed what the stages compute in order.

    [reference_run] is the workflow without leases, clocks, budgets, stores and
    checkpoints.  [computes] relates an effectful call to such a pure reference;
    [sound] is what the checkpoint store holds after any number of attempts. *)

From Stdlib Require Import SpecFloat.
From S2P Require Import Prelude Effects Dicts Text Floats Decimals Periods Canonical Moments Payload Ontology Numeric Normalize Citations Proposals ProposalsSound Messages Budget Runner RunnerSound Workflow Stages WorkflowRun.
Local Open Scope Z_scope.

(** * What a checkpoint store promises *)

(** what a run's owner sees of the store: its successes by step, input hash and
    workflow version *)
Class CheckpointLaws (T : Type) `{!CheckpointStore T} := {
  view : T → string → string → string * string * string → option stage_record;
  view_load t run org step hash version : fst (load_succeeded t run org step hash version) = view t run org (step, hash, version);
  view_load_keeps t run org step hash version k : view (snd (load_succeeded t run org step hash version)) run org k = view t run org k;
  view_reject t run org version r k : view (reject_loaded t run org version r) run org k = view t run org k;
  view_failed t run org version r k : view (snd (commit_failed t run org version r)) run org k = view t run org k;
  view_commit t run org version r :
    status r = StepSucceeded → view t run org (step_name r, record_input_hash r, version) = None →
    let '(committed, t') := commit_succeeded t run org version r in
    (∀ k, k ≠ (step_name r, record_input_hash r, version) → view t' run org k = view t run org k) ∧
    match committed with
    | Ok r' => view t' run org (step_name r, record_input_hash r, version) = Some r' ∧ output r' = output r ∧ output_hash r' = output_hash r ∧
               status r' = StepSucceeded
    | Err e => e = Typed LeaseLost ∧ view t' run org (step_name r, record_input_hash r, version) = None
    end;
}.

#[export] Program Instance memory_checkpoint_laws : CheckpointLaws memory_checkpoint := {
  view t run _ k := let '(step, hash, version) := k in memory_load t run step hash version;
}.
Next Obligation. done. Qed.
Next Obligation. done. Qed.
Next Obligation. done. Qed.
Next Obligation.
  intros t run org version r [[step hash] v]. cbn. unfold memory_commit_failed. by case_bool_decide.
Qed.
Next Obligation.
  intros t run org version r Hs. cbn. unfold memory_load, memory_commit. intros Hn. rewrite bool_decide_true by done. rewrite Hn. split.
  - intros [[step hash] v] Hne. cbn. apply lookup_insert_ne. congruence.
  - cbn. by rewrite lookup_insert_eq.
Qed.

(** * The reference *)

Section reference.
Context (generate : generation_request → option model_result) (currency_codes : list string) (prompt : role → string) (o : ontology)
  (evidence_loader : option (run_request → list evidence_block)) (req : run_request).

Definition reference_role (r : role) (step : string) (s : extraction) : result failure (value * extraction) :=
  result ← reference_step generate (role_spec_of prompt r) (provider_ref req) (model_ref req) (Z.min 4096 (q_max_output_tokens req))
             (evidence_dicts (evidence s)) (run_id req) step (workflow_version req);
  Ok (model_output req r (s_outcome result) s).

Definition reference_stage (st : stage) (s : extraction) : result failure (value * extraction) :=
  match st with
  | ValidateRequest => out ← stage_validate_request req; Ok (out, s)
  | AssembleEvidence =>
      let blocks := match evidence_loader with Some load => load req | None => evidence s end in
      out ← stage_assemble_evidence req blocks; Ok (out, with_evidence blocks s)
  | Classify => reference_role CLASSIFIER "classify" s
  | CollectCandidates => reference_role FACT_CANDIDATES "collect_candidates" s
  | ExtractKpi => reference_role KPI "extract_kpi" s
  | ExtractGuidance => reference_role GUIDANCE "extract_guidance" s
  | ExtractRevenueDriver => reference_role DRIVER_MAPPER "extract_revenue_driver" s
  | Workflow.Normalize => stage_normalize_raw currency_codes s
  | Validate => stage_validate currency_codes req o s
  | VerifyCitations => Ok (stage_verify_citations s)
  | DetectConflicts => Ok (stage_detect_conflicts s, s)
  | PersistProposals =>
      for_each (λ c, ensure (negb (length (member_proposal_ids c) <? 2)%nat) (Untyped (ValueError "conflict groups require at least two members"))) (conflicts s);;
      Ok (DictV [("persisted", nat_value (length (validated s))); ("conflicts", nat_value (length (conflicts s)))]%string, s)
  end.

Definition reference_advance (s : extraction) (st : stage) : result failure extraction :=
  if should_skip_mode_stage req st then Ok s else snd <$> reference_stage st s.

(** the stages in order, from the state a run begins with *)
Definition reference_run (l : list stage) (s : extraction) : result failure extraction := foldM reference_advance s l.
End reference.

(** * Calls that compute *)

(** ends an attempt for a reason the stages do not decide *)
Definition stopped (e : failure) : Prop :=
  interrupted e ∨ e = Typed LeaseLost ∨ e = Typed Cancelled ∨ e = InjectedCrash.

Section computes.
Context {T : Type} `{!CheckpointStore T} `{!CheckpointLaws T} (req : run_request).

Notation effect := (eff (world T) failure).
Notation seen t := (view t (run_id req) (org_id req)).

(** neither the working state nor the checkpoints change, and it fails only by
    stopping the attempt *)
Definition silent {A} (m : effect A) : Prop := ∀ w,
  work (w_state (snd (m w))) = work (w_state w) ∧ (∀ k, seen (w_checkpoint (snd (m w))) k = seen (w_checkpoint w) k) ∧
  ∀ e, fst (m w) = Err e → stopped e.

(** from the working state [s], the value and the working state of [r], and no
    checkpoint written *)
Definition computes {A} (m : effect A) (s : extraction) (r : result failure (A * extraction)) : Prop := ∀ w,
  work (w_state w) = s →
  (∀ k, seen (w_checkpoint (snd (m w))) k = seen (w_checkpoint w) k) ∧
  match fst (m w) with Ok a => r = Ok (a, work (w_state (snd (m w)))) | Err e => r = Err e ∨ stopped e end.

Lemma silent_ret {A} (a : A) : silent (mret a).
Proof. by intros w. Qed.
Lemma silent_reads {A} (f : world T → A) : silent (reads f).
Proof. by intros w. Qed.
Lemma silent_raise_if b e : stopped e → silent (raise_if b e).
Proof. intros He w. unfold raise_if. destruct b; cbn; (split; [done|split; [done|]]); [by intros ? [= <-]|done]. Qed.
Lemma silent_pure {A} (r : result failure A) : (∀ e, r = Err e → stopped e) → silent (pure r).
Proof. by intros Hr w. Qed.
Lemma silent_bind {A B} (m : effect A) (f : A → effect B) : silent m → (∀ a, silent (f a)) → silent (m ≫= f).
Proof.
  intros Hm Hf w. unfold mbind, eff_bind. destruct (Hm w) as (H1 & H2 & H3). destruct (m w) as [[a|e] w1]; cbn in *; [|split; [done|split; [done|]]; intros ? [= <-]; by apply H3].
  destruct (Hf a w1) as (G1 & G2 & G3). split; [congruence|split; [|done]]. intros k. by rewrite G2.
Qed.
Lemma silent_on_state f : (∀ s, work (f s) = work s) → silent (on_state (T := T) f).
Proof. intros Hf w. cbn. by rewrite Hf. Qed.
Lemma silent_on_runtime {A} (m : eff runtime failure A) : (∀ s e, fst (m s) = Err e → stopped e) → silent (on_runtime m).
Proof. intros Hm w. unfold on_runtime, zoom. specialize (Hm (w_runtime w)). by destruct (m (w_runtime w)). Qed.

Context (env : environment).

Lemma observe_stopped {A} (f : nat → A) s e : fst (observe env f s) = Err e → stopped e.
Proof. intros H. left. by eapply observe_interrupted. Qed.

Lemma silent_reach : silent (reach env).
Proof. apply silent_on_runtime, observe_stopped. Qed.
Lemma silent_lease : silent (lease env).
Proof. apply silent_on_runtime, observe_stopped. Qed.
Lemma silent_cancelled : silent (cancelled env).
Proof. apply silent_on_runtime, observe_stopped. Qed.
Lemma silent_append e : silent (append env e).
Proof. apply silent_bind; [apply silent_reach|]. by intros _ w. Qed.
Lemma silent_on_persist {A} (f : persist_store → result failure A * persist_store) : (∀ p e, fst (f p) = Err e → stopped e) → silent (on_persist env f).
Proof. intros Hf. apply silent_bind; [apply silent_reach|]. intros _ w. unfold zoom. specialize (Hf (w_persist w)). by destruct (f (w_persist w)). Qed.
Lemma silent_on_checkpoint {A} (f : T → A * T) : (∀ t k, seen (snd (f t)) k = seen t k) → silent (on_checkpoint env f).
Proof. intros Hf. apply silent_bind; [apply silent_reach|]. intros _ w. unfold zoom. specialize (Hf (w_checkpoint w)). by destruct (f (w_checkpoint w)). Qed.

Lemma lease_lost_stopped : stopped (Typed LeaseLost).
Proof. right. by left. Qed.
Lemma cancelled_stopped : stopped (Typed Cancelled).
Proof. right. right. by left. Qed.

Lemma runtime_interrupted {A} (m : eff runtime failure A) (r : result failure A) :
  refines interrupted m r → (∀ e, r ≠ Err e) → ∀ s e, fst (m s) = Err e → stopped e.
Proof. intros Hm Hr s e He. destruct (Hm s) as [H|(e' & H & Hi)]; [congruence|]. left. congruence. Qed.

Lemma silent_wall_cap : silent (on_runtime (wall_cap_reached env)).
Proof. apply silent_on_runtime. by apply (runtime_interrupted _ (Ok tt)); [apply refines_cap|]. Qed.

Lemma silent_elapsed : silent (on_runtime (elapsed_seconds env)).
Proof.
  apply silent_on_runtime. intros s e H. left. unfold elapsed_seconds, mbind, eff_bind in H.
  pose proof (observe_interrupted env (monotonic env) s) as Ho. destruct (observe env (monotonic env) s) as [[x|e'] s']; cbn in *; [done|]. injection H as <-. by apply Ho.
Qed.

Lemma silent_boundary : silent (boundary env).
Proof.
  apply silent_bind; [apply silent_lease|]. intros held. apply silent_bind; [apply silent_raise_if, lease_lost_stopped|]. intros _.
  apply silent_bind; [apply silent_cancelled|]. intros c. apply silent_bind; [apply silent_raise_if, cancelled_stopped|]. intros _. apply silent_wall_cap.
Qed.

Lemma silent_commit_fence : silent (commit_fence env).
Proof.
  apply silent_bind; [apply silent_lease|]. intros held. apply silent_bind; [apply silent_raise_if, lease_lost_stopped|]. intros _.
  apply silent_bind; [apply silent_cancelled|]. intros c. apply silent_raise_if, cancelled_stopped.
Qed.

Lemma silent_record_run_usage : silent (record_run_usage env req).
Proof.
  apply silent_bind; [apply silent_elapsed|]. intros x. apply silent_bind; [apply silent_reads|]. intros b.
  apply silent_bind; [by apply silent_on_persist|]. intros _. apply silent_append.
Qed.

(** ** Composition *)

Lemma computes_silent {A B} (m : effect A) (f : A → effect B) s r : silent m → (∀ a, computes (f a) s r) → computes (m ≫= f) s r.
Proof.
  intros Hm Hf w Hw. unfold mbind, eff_bind. destruct (Hm w) as (H1 & H2 & H3). destruct (m w) as [[a|e] w1]; cbn in *; [|split; [done|right; by apply H3]].
  destruct (Hf a w1) as (G1 & G2); [congruence|]. split; [|done]. intros k. by rewrite G1.
Qed.

Lemma computes_working {B} (f : extraction → effect B) s r : computes (f s) s r → computes (working ≫= f) s r.
Proof. intros Hf w Hw. unfold working, mbind, eff_bind, reads. rewrite Hw. by apply Hf. Qed.

Lemma computes_ret {A} (a : A) s : computes (mret a) s (Ok (a, s)).
Proof. intros w <-. done. Qed.

Lemma computes_put_work {B} (f : unit → effect B) s s' r : computes (f tt) s' r → computes (put_work s' ≫= f) s r.
Proof.
  intros Hf w Hw. unfold mbind, eff_bind, put_work, on_state, writes.
  set (w1 := World _ _ _ _ _ _ _ _). destruct (Hf w1) as [H1 H2]; [done|]. split; [|done]. intros k. by rewrite H1.
Qed.

Lemma computes_pure {A B} (r : result failure A) (f : A → effect B) s r' :
  (∀ e, r = Err e → r' = Err e) → (∀ a, r = Ok a → computes (f a) s r') → computes (pure r ≫= f) s r'.
Proof.
  intros He Hf w Hw. unfold mbind, eff_bind, pure. destruct r as [a|e]; cbn; [by apply Hf|]. split; [done|]. left. by apply He.
Qed.

(** a call of the runtime that refines its reference *)
Lemma computes_runtime {A B} (m : eff runtime failure A) (r : result failure A) (f : A → effect B) s r' :
  refines interrupted m r → (∀ e, r = Err e → r' = Err e) → (∀ a, r = Ok a → computes (f a) s r') → computes (on_runtime m ≫= f) s r'.
Proof.
  intros Hm He Hf w Hw. unfold mbind, eff_bind, on_runtime, zoom. destruct (Hm (w_runtime w)) as [H|(e & H & Hi)]; destruct (m (w_runtime w)) as [x rt]; cbn in *; subst x.
  - destruct r as [a|e]; cbn; [|split; [done|left; by apply He]].
    set (w1 := World _ _ _ _ _ _ _ _). destruct (Hf a eq_refl w1) as [H1 H2]; [done|]. split; [|done]. intros k. by rewrite H1.
  - split; [done|]. right. by left.
Qed.

Lemma computes_bind {A B} (m : effect A) (f : A → effect B) s r r' :
  computes m s r → (∀ e, r = Err e → r' = Err e) → (∀ a s', r = Ok (a, s') → computes (f a) s' r') → computes (m ≫= f) s r'.
Proof.
  intros Hm He Hf w Hw. unfold mbind, eff_bind. destruct (Hm w Hw) as [H1 H2]. destruct (m w) as [[a|e] w1]; cbn in *.
  - destruct (Hf _ _ H2 w1) as [G1 G2]; [done|]. split; [|done]. intros k. by rewrite G1.
  - split; [done|]. destruct H2 as [H2|H2]; [left; by apply He|by right].
Qed.
End computes.

(** * The stages compute their reference *)

Section stages.
Context {T : Type} `{!CheckpointStore T} `{!CheckpointLaws T}.
Context (env : environment) (generate : generation_request → option model_result) (currency_codes : list string) (prompt : role → string)
  (default_ontology : ontology) (deps_ontology : option ontology) (evidence_loader : option (run_request → list evidence_block)) (crash_after_stages : option nat) (req : run_request).
Hypothesis Hprovider : ∀ n q, generate_structured env n q = generate q.
Hypothesis Hontology : ctx_ontology default_ontology deps_ontology = default_ontology.

Notation reference st s := (reference_stage generate currency_codes prompt default_ontology evidence_loader req st s).
Notation computes m s r := (computes (T := T) req m s r).

Lemma computes_computed (f : extraction → result failure (value * extraction)) s : computes (computed f) s (f s).
Proof using Type.
  unfold computed. apply computes_working, computes_pure; [done|]. intros [out s'] Hf. rewrite Hf. apply computes_put_work, computes_ret.
Qed.

Lemma dec_sub_stopped c a b e : map_err Untyped (arith (dec_sub c a b)) = Err e → stopped e.
Proof using Type. unfold arith. destruct (dec_sub c a b); [done|]. intros [= <-]. left. right. right. by eexists. Qed.

Lemma computes_role r step s : computes (run_role env prompt req r step) s (reference_role generate prompt req r step s).
Proof using Hprovider.
  unfold run_role, reference_role. apply computes_working. apply computes_silent; [apply silent_reads|]. intros before.
  eapply computes_runtime; [by apply refines_step| |].
  { intros e He. by rewrite He. }
  intros result Hr. rewrite Hr. cbn [mbind result_bind].
  apply computes_silent; [by intros w|]. intros _. apply computes_silent; [apply silent_reads|]. intros after.
  apply computes_silent; [apply silent_pure, dec_sub_stopped|]. intros cost. apply computes_silent; [by intros w|]. intros _.
  apply computes_silent; [apply silent_record_run_usage|]. intros _.
  apply computes_silent; [destruct (s_outcome result); [apply silent_ret|by apply silent_on_state]|]. intros _.
  destruct (model_output req r (s_outcome result) s) as [out s']. apply computes_put_work, computes_ret.
Qed.

Lemma write_all_ok {A} (f : persist_store → A → result failure (A * persist_store)) l :
  (∀ p x, x ∈ l → ∃ y p', f p x = Ok (y, p')) → ∀ p, ∃ ys p', write_all f l p = (Ok ys, p') ∧ length ys = length l.
Proof using Type.
  induction l as [|x l IH]; intros Hf p; [by eexists [], p|]. cbn [write_all]. destruct (Hf p x) as (y & p1 & ->); [by left|].
  destruct (IH ltac:(intros q z Hz; apply Hf; by right) p1) as (ys & p2 & -> & Hlen). exists (y :: ys), p2. split; [done|]. cbn. by rewrite Hlen.
Qed.

Lemma persist_proposals_ok drafts p : ∃ ys p', persist_proposals (run_id req) drafts p = (Ok ys, p') ∧ length ys = length drafts.
Proof using Type.
  apply write_all_ok. intros q d _. unfold persist_proposal, ensure_needs_review. cbn [mbind result_bind ensure]. rewrite bool_decide_true by done. cbn.
  destruct (p_proposals q !! draft_id (run_id req) d); eauto.
Qed.

Lemma persist_conflicts_ok found p : 
  match for_each (λ c, ensure (negb (length (member_proposal_ids c) <? 2)%nat) (Untyped (ValueError "conflict groups require at least two members"))) found with
  | Ok _ => ∃ ys p', persist_conflicts found p = (Ok ys, p') ∧ length ys = length found
  | Err e => ∃ p', persist_conflicts found p = (Err e, p')
  end.
Proof using Type.
  unfold persist_conflicts. revert p. induction found as [|c found IH]; intros p; cbn [for_each write_all]; [by eexists [], p|].
  unfold persist_conflict at 1 3. destruct (negb (length (member_proposal_ids c) <? 2)%nat); cbn [ensure mbind result_bind]; [|by eexists].
  assert (∀ c' q, match for_each (λ c, ensure (negb (length (member_proposal_ids c) <? 2)%nat) (Untyped (ValueError "conflict groups require at least two members"))) found with
    | Ok _ => ∃ ys p', (let '(r, p'') := write_all persist_conflict found q in (ys ← r; Ok (c' :: ys), p'')) = (Ok ys, p') ∧ length ys = S (length found)
    | Err e => ∃ p', (let '(r, p'') := write_all persist_conflict found q in (ys ← r; Ok (c' :: ys), p'')) = (Err e, p') end) as Hrest.
  { intros c' q. specialize (IH q). destruct (for_each _ found).
    - destruct IH as (ys & p' & -> & Hlen). exists (c' :: ys), p'. split; [done|]. cbn. by rewrite Hlen.
    - destruct IH as (p' & ->). by exists p'. }
  destruct (p_conflicts p !! conflict_key c); apply Hrest.
Qed.

Lemma existsb_d_state drafts : existsb (λ d, negb (bool_decide (d_state d = "needs_review"%string))) drafts = false.
Proof using Type. induction drafts as [|d drafts IH]; [done|]. cbn [existsb]. by rewrite bool_decide_true, IH by done. Qed.

Lemma computes_persist_call {A B} (f : persist_store → result failure A * persist_store) (g : A → eff (world T) failure B) s r :
  (∀ p, match fst (f p) with Ok a => computes (g a) s r | Err e => r = Err e end) → computes (on_persist env f ≫= g) s r.
Proof using Type.
  intros Hf w Hw. unfold on_persist, mbind, eff_bind. destruct (silent_reach req env w) as (H1 & H2 & H3).
  destruct (reach env w) as [[[]|e] w1]; cbn in *; [|split; [done|right; by apply H3]].
  unfold zoom. specialize (Hf (w_persist w1)). destruct (f (w_persist w1)) as [[a|e] p]; cbn in *; [|split; [done|by left]].
  set (w2 := World _ _ _ _ _ _ _ _). destruct (Hf w2) as [G1 G2]; [by rewrite <- Hw, <- H1|]. split; [|done]. intros k. rewrite G1. apply H2.
Qed.

Lemma computes_persist_outputs s :
  computes (persist_outputs_atomic env req (validated s) (conflicts s)) s
    (for_each (λ c, ensure (negb (length (member_proposal_ids c) <? 2)%nat) (Untyped (ValueError "conflict groups require at least two members"))) (conflicts s);;
     Ok ((length (validated s), length (conflicts s)), s)).
Proof using Type.
  unfold persist_outputs_atomic. apply computes_persist_call. intros p.
  destruct (persist_proposals_ok (validated s) p) as (persisted & p' & -> & Hlen). cbn [fst]. rewrite existsb_d_state, Hlen.
  apply computes_silent; [apply silent_ret|]. intros _. apply computes_persist_call. intros q. pose proof (persist_conflicts_ok (conflicts s) q) as Hq.
  destruct (for_each _ (conflicts s)) as [[]|e]; cbn [mbind result_bind].
  - destruct Hq as (groups & q' & -> & Hlen'). cbn [fst]. rewrite Hlen'. apply computes_silent; [apply silent_append|]. intros _. apply computes_ret.
  - by destruct Hq as (q' & ->).
Qed.

Lemma computes_stage_persist s : computes (stage_persist env req) s (reference PersistProposals s).
Proof using Type.
  unfold stage_persist. apply computes_silent; [apply silent_lease|]. intros held. apply computes_silent; [apply silent_raise_if, lease_lost_stopped|]. intros _.
  apply computes_working. cbn [reference_stage]. eapply computes_bind; [apply computes_persist_outputs| |].
  - intros e. destruct (for_each _ _); cbn; congruence.
  - intros [persisted groups] s'. destruct (for_each _ _) as [[]|e]; cbn [mbind result_bind]; [|done]. intros [= <- <- <-]. apply computes_ret.
Qed.

Lemma computes_dispatch st s :
  computes (dispatch_stage env currency_codes prompt default_ontology deps_ontology evidence_loader req st) s (reference st s).
Proof using Hprovider Hontology.
  destruct st; cbn [dispatch_stage reference_stage]; try apply computes_role; try apply computes_computed.
  - intros w <-. cbn. by destruct (stage_validate_request req); [|split; [|left]].
  - rewrite Hontology. apply computes_computed.
  - apply computes_stage_persist.
Qed.

(** ** What the store holds *)

Context (s0 : extraction).

(** the publication times of the evidence the run reads are times *)
Hypothesis Hpublished : Forall published_ok (match evidence_loader with Some load => load req | None => evidence s0 end).

Fixpoint until (st : stage) (l : list stage) : list stage :=
  match l with [] => [] | x :: l' => if decide (x = st) then [] else x :: until st l' end.
Definition preceding (st : stage) : list stage := until st STAGE_ORDER.

Notation ran l := (reference_run generate currency_codes prompt default_ontology evidence_loader req l s0).
Notation key s st := (stage_name st, input_hash_of req s st, workflow_version req).
Notation seen t := (view t (run_id req) (org_id req)).

(** a success stored under the input hash of the reference is the reference's output *)
Definition sound (t : T) : Prop := ∀ st s r, ran (preceding st) = Ok s → seen t (key s st) = Some r →
  status r = StepSucceeded ∧ output_hash r = Some (hash_json (output r)) ∧ ∃ s', reference st s = Ok (output r, s').

Lemma sound_ext t t' : (∀ k, seen t' k = seen t k) → sound t → sound t'.
Proof using Type. intros Hk Ht st s r Hs Hr. rewrite Hk in Hr. by eapply Ht. Qed.

Lemma until_app st pre post : st ∉ pre → until st (pre ++ st :: post) = pre.
Proof using Type.
  induction pre as [|x pre IH]; cbn; intros Hst; [by rewrite decide_True|]. apply not_elem_of_cons in Hst as [Hne Hst].
  rewrite decide_False by congruence. by rewrite IH.
Qed.

Lemma preceding_app pre st post : STAGE_ORDER = pre ++ st :: post → preceding st = pre.
Proof using Type.
  intros H. unfold preceding. rewrite H. apply until_app. assert (NoDup STAGE_ORDER) as Hnd by (apply (bool_decide_unpack _); vm_compute; exact I).
  rewrite H in Hnd. apply NoDup_app in Hnd as (_ & Hd & _). intros Hin. apply (Hd st Hin). left.
Qed.

Lemma reference_output st s out s' : reference st s = Ok (out, s') → out ≠ NoneV.
Proof using Type.
  assert (∀ r o s, (model_output req r o s).1 ≠ NoneV) as Hmodel by (by intros [] []).
  destruct st; cbn [reference_stage]; unfold reference_role, stage_normalize_raw, stage_validate; intros H; ok_inv; try done;
    repeat match goal with
    | H : stage_validate_request _ = Ok _ |- _ => unfold stage_validate_request in H; ok_inv
    | H : stage_assemble_evidence _ _ = Ok _ |- _ => unfold stage_assemble_evidence in H; ok_inv
    | H : model_output _ ?r ?o ?s = _ |- _ => pose proof (Hmodel r o s) as Hm; rewrite H in Hm; clear H
    end; done.
Qed.

Lemma ran_snoc l st s : ran (l ++ [st]) = Ok s → should_skip_mode_stage req st = false →
  ∃ s1 out, ran l = Ok s1 ∧ reference st s1 = Ok (out, s).
Proof using Type.
  unfold reference_run. rewrite foldM_app. intros H Hskip. apply bind_Ok in H as (s1 & H1 & H). exists s1. cbn [foldM] in H. unfold reference_advance in H at 1.
  rewrite Hskip in H. destruct (reference st s1) as [[out s2]|e]; cbn in H; [|done]. exists out. by injection H as <-.
Qed.

Notation settled s := (settled currency_codes req default_ontology s).

Lemma settled_after_validate s : ran (preceding VerifyCitations) = Ok s → settled s.
Proof using Type.
  intros H. destruct (ran_snoc (preceding Validate) Validate s H eq_refl) as (s1 & out & _ & Hv). cbn [reference_stage] in Hv. unfold stage_validate in Hv.
  apply bind_Ok in Hv as ([proposals found] & Hv & [= _ <-]). by apply validate_normalized_settled.
Qed.

Lemma settled_after_verify s : ran (preceding DetectConflicts) = Ok s → settled s.
Proof using Type.
  intros H. destruct (ran_snoc (preceding VerifyCitations) VerifyCitations s H eq_refl) as (s1 & out & H1 & Hv).
  apply settled_after_validate in H1. pose proof (verify_settled _ _ _ _ H1) as Hsame.
  change (Ok (stage_verify_citations s1) = Ok (out, s) :> result failure _) in Hv. assert (stage_verify_citations s1 = (out, s)) as Heq by congruence.
  rewrite Heq in Hsame. cbn in Hsame. by subst.
Qed.

(** a checkpoint restores what the stage would have left *)
Lemma restore_reference st s out s' : ran (preceding st) = Ok s → reference st s = Ok (out, s') → restore_output currency_codes req default_ontology st out s = Ok s'.
Proof using Hpublished.
  assert (∀ r step, reference_role generate prompt req r step s = Ok (out, s') → restore_output currency_codes req default_ontology (role_stage r) out s = Ok s') as Hrole.
  { intros r step H. unfold reference_role in H. apply bind_Ok in H as (result & _ & [= H]). pose proof (restore_model currency_codes req default_ontology r (s_outcome result) s) as Hm. by rewrite H in Hm. }
  intros Hs H. destruct st; cbn [reference_stage] in H.
  - by apply bind_Ok in H as (x & _ & [= -> <-]).
  - change (ran [ValidateRequest] = Ok s) in Hs. destruct (ran_snoc [] ValidateRequest s Hs eq_refl) as (s1 & x & [= <-] & Hv). cbn [reference_stage] in Hv.
    apply bind_Ok in Hv as (y & _ & [= _ ->]). apply bind_Ok in H as (x' & Ha & [= <- <-]). unfold stage_assemble_evidence in Ha.
    apply bind_Ok in Ha as (u & Hc & [= <-]). unfold restore_output. by rewrite (restore_evidence_values _ _ _ Hc Hpublished).
  - by apply (Hrole CLASSIFIER "classify"%string).
  - by apply (Hrole FACT_CANDIDATES "collect_candidates"%string).
  - by apply (Hrole KPI "extract_kpi"%string).
  - by apply (Hrole GUIDANCE "extract_guidance"%string).
  - by apply (Hrole DRIVER_MAPPER "extract_revenue_driver"%string).
  - unfold stage_normalize_raw in H. apply bind_Ok in H as (raw & _ & H). apply bind_Ok in H as ([payloads blocked] & _ & [= <- <-]).
    unfold restore_output. change (get "normalized" _) with (ListV (map DictV payloads)). by rewrite iterate_list.
  - unfold stage_validate in H. apply bind_Ok in H as ([proposals found] & Hv & [= <- <-]). by apply (restore_validate _ _ _ _ (proposals, found)).
  - assert (stage_verify_citations s = (out, s')) as Heq by congruence. apply settled_after_validate, verify_settled in Hs. rewrite Heq in Hs. cbn in Hs. by subst s'.
  - injection H as <- <-. apply restore_detect. by apply settled_after_verify.
  - apply bind_Ok in H as (u & _ & [= <- <-]). done.
Qed.

(** ** One stage *)

(** from the working state [s], with a sound store whose answer under [k] is [c] *)
Definition at_work (s : extraction) (k : string * string * string) (c : option stage_record) (w : world T) : Prop :=
  work (w_state w) = s ∧ sound (w_checkpoint w) ∧ seen (w_checkpoint w) k = c.

(** the store stays sound, and the working state is the reference's, unless the
    attempt stopped *)
Definition advances (P : world T → Prop) (m : eff (world T) failure unit) (r : result failure extraction) : Prop := ∀ w, P w →
  sound (w_checkpoint (snd (m w))) ∧
  match fst (m w) with Ok _ => r = Ok (work (w_state (snd (m w)))) | Err e => r = Err e ∨ stopped e end.

Lemma advances_ends s k c (m : eff (world T) failure unit) r :
  computes m s ((λ s', (tt, s')) <$> r) → advances (at_work s k c) m r.
Proof using Type.
  intros Hm w (Hw & Hs & Hc). destruct (Hm w Hw) as [H1 H2]. split; [by eapply sound_ext|].
  destruct (fst (m w)) as [[]|e].
  - destruct r as [s'|e']; cbn in H2; congruence.
  - destruct H2 as [H2|H2]; [left|by right]. destruct r as [s'|e']; cbn in H2; congruence.
Qed.

Lemma advances_silent {A} s k c (m : eff (world T) failure A) (f : A → eff (world T) failure unit) r :
  silent req m → (∀ a, advances (at_work s k c) (f a) r) → advances (at_work s k c) (m ≫= f) r.
Proof using Type.
  intros Hm Hf w (Hw & Hs & Hc). unfold mbind, eff_bind. destruct (Hm w) as (H1 & H2 & H3). destruct (m w) as [[a|e] w1]; cbn in *.
  - apply Hf. split; [congruence|split; [by eapply sound_ext|congruence]].
  - split; [by eapply sound_ext|]. right. by apply H3.
Qed.

Lemma advances_computes {A} s k c (m : eff (world T) failure A) (f : A → eff (world T) failure unit) r1 r :
  computes m s r1 → (∀ e, r1 = Err e → r = Err e) → (∀ a s', r1 = Ok (a, s') → advances (at_work s' k c) (f a) r) → advances (at_work s k c) (m ≫= f) r.
Proof using Type.
  intros Hm He Hf w (Hw & Hs & Hc). unfold mbind, eff_bind. destruct (Hm w Hw) as (H1 & H2). destruct (m w) as [[a|e] w1]; cbn in *.
  - eapply Hf; [done|]. split; [done|split; [by eapply sound_ext|congruence]].
  - split; [by eapply sound_ext|]. destruct H2 as [H2|H2]; [left; by apply He|by right].
Qed.

Lemma advances_ret s k c : advances (at_work s k c) (mret tt) (Ok s).
Proof using Type. intros w (<- & Hs & _). done. Qed.

Lemma silent_record_stage_failure st hash e : silent (T := T) req (record_stage_failure env req st hash e).
Proof using Type.
  unfold record_stage_failure. apply silent_bind; [apply silent_lease|]. intros [|]; [|apply silent_ret].
  apply silent_bind; [apply silent_on_checkpoint; intros t k; apply view_failed|]. intros [r|e']; [|apply silent_ret].
  apply silent_bind; [by apply silent_on_state|]. intros _. apply silent_append.
Qed.

Lemma computes_recorded st hash (m : eff (world T) failure value) s r : computes m s r → computes (recorded env req st hash m) s r.
Proof using Type.
  intros Hm w Hw. unfold recorded, try_except. destruct (Hm w Hw) as [H1 H2]. destruct (m w) as [[a|e] w1]; cbn in *; [done|].
  case_bool_decide; cbn; [done|]. unfold mbind, eff_bind, raise. destruct (silent_record_stage_failure st hash e w1) as (G1 & G2 & G3).
  destruct (record_stage_failure env req st hash e w1) as [[[]|e'] w2]; cbn in *; (split; [intros k; by rewrite G2|]); [done|]. right. by apply G3.
Qed.

Lemma stage_name_inj st st' : stage_name st = stage_name st' → st = st'.
Proof using Type. by destruct st, st'. Qed.

(** the commit reached the store, or the process died before it *)
Lemma commit_stage_cases r w :
  let '(res, w') := commit_stage env req r w in
  let '(committed, t') := commit_succeeded (w_checkpoint w) (run_id req) (org_id req) (workflow_version req) r in
  work (w_state w') = work (w_state w) ∧
  ((res = Err Killed ∧ w_checkpoint w' = w_checkpoint w) ∨ (w_checkpoint w' = t' ∧ (res = committed ∨ res = Err Killed))).
Proof using Type.
  unfold commit_stage, on_checkpoint, append, reach, on_runtime, zoom, observe, mbind, eff_bind, pure, writes. cbn.
  destruct (killed env (ticks (w_runtime w))); cbn; [destruct (commit_succeeded _ _ _ _ r); split; [done|by left]|].
  destruct (commit_succeeded _ _ _ _ r) as [[r'|e] t']; cbn; [|split; [done|right; split; [done|by left]]].
  destruct (killed env (S (ticks (w_runtime w)))); cbn; (split; [done|right; split; [done|]]); [by right|by left].
Qed.

(** the store after the reference's output was committed to it, or was not *)
Lemma sound_commit st s s' t rec : ran (preceding st) = Ok s → reference st s = Ok (output rec, s') →
  status rec = StepSucceeded → step_name rec = stage_name st → record_input_hash rec = input_hash_of req s st → output_hash rec = Some (hash_json (output rec)) →
  sound t → seen t (key s st) = None →
  let '(committed, t') := commit_succeeded t (run_id req) (org_id req) (workflow_version req) rec in
  sound t' ∧ match committed with Ok _ => True | Err e => stopped e end.
Proof using Type.
  intros Hran Href R1 R2 R3 R4 Hsound Hseen. pose proof (view_commit t (run_id req) (org_id req) (workflow_version req) rec R1) as Hcommit.
  rewrite R2, R3 in Hcommit. specialize (Hcommit Hseen). destruct (commit_succeeded t _ _ _ rec) as [committed t']. destruct Hcommit as [Hother Hkey].
  split; [|destruct committed; [done|]; destruct Hkey as [-> _]; apply lease_lost_stopped].
  intros st1 s1 x Hs1 Hseen1. destruct (decide ((stage_name st1, input_hash_of req s1 st1, workflow_version req) = key s st)) as [Heq|Hne].
  - injection Heq as Hname Hhash. apply stage_name_inj in Hname as ->. assert (s1 = s) as -> by congruence.
    destruct committed as [r'|e]; [|destruct Hkey as [_ Hkey]; congruence]. destruct Hkey as (Hk & Ho & Hh & Hst). rewrite Hseen1 in Hk. injection Hk as ->.
    split; [done|split; [congruence|]]. exists s'. congruence.
  - rewrite Hother in Hseen1 by done. by eapply Hsound.
Qed.

(** the commit of the reference's output *)
Lemma advances_commit st s s' out audit (f : stage_record → eff (world T) failure unit) :
  ran (preceding st) = Ok s → reference st s = Ok (out, s') → (∀ r k c, advances (at_work s' k c) (f r) (Ok s')) →
  advances (at_work s' (key s st) None) (commit_stage env req (record_of st (input_hash_of req s st) out audit) ≫= f) (Ok s').
Proof using Type.
  intros Hran Href Hf w (Hw & Hsound & Hseen). set (rec := record_of st (input_hash_of req s st) out audit).
  pose proof (reference_output _ _ _ _ Href) as Hout.
  pose proof (sound_commit st s s' (w_checkpoint w) rec Hran) as Hcommit. assert (output rec = out) as Ho by (unfold rec, record_of; by destruct audit).
  rewrite Ho in Hcommit. specialize (Hcommit Href ltac:(unfold rec, record_of; by destruct audit) ltac:(unfold rec, record_of; by destruct audit)
    ltac:(unfold rec, record_of; by destruct audit) ltac:(unfold rec, record_of; by destruct audit, out) Hsound Hseen).
  pose proof (commit_stage_cases rec w) as Hcases. unfold mbind, eff_bind. destruct (commit_stage env req rec w) as [res w'].
  destruct (commit_succeeded (w_checkpoint w) _ _ _ rec) as [committed t']. destruct Hcommit as [Hsound' Hres]. destruct Hcases as [Hw' Hcases].
  assert (stopped Killed) as Hkilled by (left; by left).
  assert (sound (w_checkpoint w')) as Hsw by (destruct Hcases as [[_ ->]|[-> _]]; done).
  assert (match res with Ok _ => True | Err e => stopped e end) as Hok by (destruct Hcases as [[-> _]|[_ [->| ->]]]; done).
  destruct res as [r'|e]; cbn; [|split; [done|by right]]. apply (Hf r' (key s st) (seen (w_checkpoint w') (key s st))). split; [congruence|done].
Qed.

Lemma stopped_crash : stopped InjectedCrash.
Proof using Type. right. right. by right. Qed.

Lemma advances_execute st s :
  ran (preceding st) = Ok s →
  advances (at_work s (key s st) None)
    (execute_stage env currency_codes prompt default_ontology deps_ontology evidence_loader crash_after_stages req st (input_hash_of req s st))
    (snd <$> reference st s).
Proof using Hprovider Hontology.
  intros Hran. unfold execute_stage. apply advances_silent; [apply silent_append|]. intros _. apply advances_silent; [by intros w|]. intros _.
  eapply advances_computes; [apply computes_recorded, computes_dispatch|by intros e ->|]. intros out s' Href. rewrite Href, serialize_id. cbn [fmap result_fmap snd].
  apply advances_silent; [apply silent_reads|]. intros audit. apply advances_silent; [apply silent_commit_fence|]. intros _.
  apply advances_commit; [done|done|]. intros r k c. apply advances_silent; [by apply silent_on_state|]. intros _. apply advances_silent; [by intros w|]. intros _.
  apply advances_silent; [apply silent_reads|]. intros n. unfold raise_if. destruct crash_after_stages as [limit|]; [destruct (limit <=? n)%nat|]; try apply advances_ret.
  intros w (_ & Hs & _). split; [done|]. right. apply stopped_crash.
Qed.

(** a sound checkpoint is recoverable as it stands *)
Lemma recoverable st s s' r w : reference st s = Ok (output r, s') → output_hash r = Some (hash_json (output r)) →
  is_recoverable env req r w = (Ok true, w).
Proof using Type.
  intros Href Hh. assert (output r ≠ NoneV) as Hne by (by eapply reference_output).
  unfold is_recoverable. destruct (output r) eqn:Ho; [done|..]; by rewrite serialize_id, bool_decide_true by done.
Qed.

Notation run_stage st := (run_stage env currency_codes prompt default_ontology deps_ontology evidence_loader crash_after_stages req st).

Lemma on_checkpoint_cases {A} (f : T → A * T) w :
  let '(res, w') := on_checkpoint env f w in let '(a, t') := f (w_checkpoint w) in
  work (w_state w') = work (w_state w) ∧ ((res = Err Killed ∧ w_checkpoint w' = w_checkpoint w) ∨ (res = Ok a ∧ w_checkpoint w' = t')).
Proof using Type.
  unfold on_checkpoint, reach, on_runtime, zoom, observe, mbind, eff_bind. cbn.
  destruct (killed env (ticks (w_runtime w))); cbn; destruct (f (w_checkpoint w)); cbn; (split; [done|]); [by left|by right].
Qed.

Lemma advances_run_stage st s k c : ran (preceding st) = Ok s → advances (at_work s k c) (run_stage st) (snd <$> reference st s).
Proof using Hprovider Hontology Hpublished.
  intros Hran w (Hw & Hsound & _).
  cut (let '(res, w') := run_stage st w in sound (w_checkpoint w') ∧
       match res with Ok _ => snd <$> reference st s = Ok (work (w_state w')) | Err e => snd <$> reference st s = Err e ∨ stopped e end).
  { by destruct (run_stage st w). }
  unfold WorkflowRun.run_stage, working. unfold mbind at 1, eff_bind at 1. cbn [reads]. rewrite Hw.
  set (load := λ t, load_succeeded t (run_id req) (org_id req) (stage_name st) (input_hash_of req s st) (workflow_version req)).
  unfold mbind at 1, eff_bind at 1. pose proof (on_checkpoint_cases load w) as Hcases. destruct (on_checkpoint env load w) as [res w2].
  pose proof (view_load (w_checkpoint w) (run_id req) (org_id req) (stage_name st) (input_hash_of req s st) (workflow_version req)) as Hload.
  pose proof (view_load_keeps (w_checkpoint w) (run_id req) (org_id req) (stage_name st) (input_hash_of req s st) (workflow_version req)) as Hkeeps.
  fold (load (w_checkpoint w)) in Hload. change (load_succeeded (w_checkpoint w) _ _ _ _ _) with (load (w_checkpoint w)) in Hkeeps. destruct (load (w_checkpoint w)) as [existing t']. cbn in Hload, Hkeeps. subst existing.
  destruct Hcases as [Hw2 [[-> Ht]|[-> Ht]]]; cbn.
  { split; [by rewrite Ht|]. right. left. by left. }
  assert (∀ k', seen (w_checkpoint w2) k' = seen (w_checkpoint w) k') as Hviews by (intros k'; by rewrite Ht, Hkeeps).
  assert (sound (w_checkpoint w2)) as Hsound2 by (by eapply sound_ext).
  destruct (seen (w_checkpoint w) (key s st)) as [r|] eqn:Hr.
  - destruct (Hsound st s r Hran Hr) as (Hst & Hh & s' & Href). rewrite bool_decide_true by done. unfold mbind at 1, eff_bind at 1.
    rewrite (recoverable st s s' r w2 Href Hh). rewrite Href. cbn [fmap result_fmap snd]. unfold mbind, eff_bind, pure. cbn.
    rewrite (restore_reference _ _ _ _ Hran Href). cbn. split; [exact Hsound2|done].
  - unfold mbind at 1, eff_bind at 1. cbn.
    destruct (advances_execute st s Hran w2) as [H1 H2]; [split; [congruence|split; [done|]]; by rewrite Hviews|].
    by destruct (execute_stage _ _ _ _ _ _ _ _ _ _ w2).
Qed.

Lemma advances_mark_skipped st s k c : advances (at_work s k c) (mark_skipped req st) (Ok s).
Proof using Type. intros w (<- & Hs & _). done. Qed.

Notation advance st := (advance env currency_codes prompt default_ontology deps_ontology evidence_loader crash_after_stages req st).

Lemma advances_advance st s k c : ran (preceding st) = Ok s →
  advances (at_work s k c) (advance st) (reference_advance generate currency_codes prompt default_ontology evidence_loader req s st).
Proof using Hprovider Hontology Hpublished.
  intros Hran. unfold WorkflowRun.advance, reference_advance. apply advances_silent; [apply silent_boundary|]. intros _.
  destruct (should_skip_mode_stage req st); [apply advances_mark_skipped|by apply advances_run_stage].
Qed.

Lemma advances_loop l : ∀ pre s w, STAGE_ORDER = pre ++ l → ran pre = Ok s → work (w_state w) = s → sound (w_checkpoint w) →
  let '(r, w') := for_loop (λ st, advance st) l w in
  sound (w_checkpoint w') ∧ match r with Ok _ => ran STAGE_ORDER = Ok (work (w_state w')) | Err e => ran STAGE_ORDER = Err e ∨ stopped e end.
Proof using Hprovider Hontology Hpublished.
  induction l as [|st l IH]; intros pre s w Horder Hran Hw Hsound; cbn [for_loop]; [rewrite app_nil_r in Horder; split; [done|congruence]|].
  assert (preceding st = pre) as Hpre by (by eapply preceding_app). rewrite <- Hpre in Hran.
  destruct (advances_advance st s (key s st) (seen (w_checkpoint w) (key s st)) Hran w ltac:(by split_and!)) as [Hs Hr].
  unfold mbind, eff_bind. destruct (advance st w) as [[[]|e] w1]; cbn in Hs, Hr.
  - apply (IH (pre ++ [st]) (work (w_state w1)) w1); [by rewrite <- app_assoc| |done|done].
    unfold reference_run in *. rewrite foldM_app. rewrite Hpre in Hran. rewrite Hran. cbn. by rewrite Hr.
  - split; [done|]. destruct Hr as [Hr|Hr]; [left|by right]. rewrite Horder. unfold reference_run in *. rewrite foldM_app. rewrite Hpre in Hran. rewrite Hran. cbn. by rewrite Hr.
Qed.

(** ** The end of a run *)

(** neither the working state nor the checkpoints change *)
Definition quiet {A} (m : eff (world T) failure A) : Prop := ∀ w,
  work (w_state (snd (m w))) = work (w_state w) ∧ ∀ k, seen (w_checkpoint (snd (m w))) k = seen (w_checkpoint w) k.

Lemma silent_quiet {A} (m : eff (world T) failure A) : silent req m → quiet m.
Proof using Type. intros Hm w. by destruct (Hm w) as (H1 & H2 & _). Qed.
Lemma quiet_bind {A B} (m : eff (world T) failure A) (f : A → eff (world T) failure B) : quiet m → (∀ a, quiet (f a)) → quiet (m ≫= f).
Proof using Type.
  intros Hm Hf w. unfold mbind, eff_bind. destruct (Hm w) as (H1 & H2). destruct (m w) as [[a|e] w1]; cbn in *; [|done].
  destruct (Hf a w1) as (G1 & G2). split; [congruence|]. intros k. by rewrite G2.
Qed.
Lemma quiet_raise_if b e : quiet (raise_if b e).
Proof using Type. intros w. by destruct b. Qed.
Lemma quiet_raise {A} e : quiet (raise (A := A) e).
Proof using Type. by intros w. Qed.
Lemma quiet_on_state f : (∀ s, work (f s) = work s) → quiet (on_state (T := T) f).
Proof using Type. intros Hf w. cbn. by rewrite Hf. Qed.
Lemma quiet_append e : quiet (append (T := T) env e).
Proof using Type. apply silent_quiet, silent_append. Qed.
Lemma quiet_on_persist {A} (f : persist_store → result failure A * persist_store) : quiet (on_persist (T := T) env f).
Proof using Type.
  apply quiet_bind; [apply silent_quiet, silent_reach|]. intros _ w. unfold zoom. by destruct (f (w_persist w)).
Qed.
Lemma quiet_lease : quiet (lease (T := T) env).
Proof using Type. apply silent_quiet, silent_lease. Qed.
Lemma quiet_reads {A} (f : world T → A) : quiet (reads f).
Proof using Type. by intros w. Qed.

Lemma quiet_flush : quiet (flush_usage (T := T) env req).
Proof using Type.
  apply quiet_bind; [apply quiet_lease|]. intros [|]; [apply silent_quiet, silent_record_run_usage|by intros w].
Qed.

Lemma silent_flush : silent (T := T) req (flush_usage env req).
Proof using Type. apply silent_bind; [apply silent_lease|]. intros [|]; [apply silent_record_run_usage|apply silent_ret]. Qed.

Lemma quiet_finish x c e : quiet (finish (T := T) env req x c e).
Proof using Type.
  apply quiet_bind; [apply quiet_lease|]. intros held. apply quiet_bind; [apply quiet_raise_if|]. intros _.
  apply quiet_bind; [by apply quiet_on_state|]. intros _. apply quiet_bind; [apply quiet_append|]. intros _. apply quiet_on_persist.
Qed.

Lemma quiet_handle e : quiet (handle (T := T) env req e).
Proof using Type.
  assert (quiet (A := unit) (finish (T := T) env req Failed "internal_error" (RunFailed "internal_error") ≫= λ _, raise e)) as Hinternal
    by (apply quiet_bind; [apply quiet_finish|intros _; apply quiet_raise]).
  unfold handle. destruct e as [[]|x| |]; try apply quiet_finish; try exact Hinternal. apply quiet_raise.
Qed.

Lemma quiet_finalize : quiet (finalize_success (T := T) env req).
Proof using Type.
  unfold finalize_success. apply quiet_bind; [apply quiet_lease|]. intros held. apply quiet_bind; [apply quiet_raise_if|]. intros _.
  apply quiet_bind; [apply quiet_reads|]. intros s. destruct (validated s).
  - apply quiet_bind; [by apply quiet_on_state|]. intros _. apply quiet_bind; [by apply quiet_on_state|]. intros _.
    apply quiet_bind; [apply quiet_reads|]. intros state. apply quiet_bind; [apply quiet_append|]. intros _. apply quiet_on_persist.
  - apply quiet_bind; [by apply quiet_on_state|]. intros _. apply quiet_bind; [apply quiet_on_persist|]. intros _. apply quiet_append.
Qed.

(** ** What the run reports *)

(** the run's own state does not change *)
Definition stateless {A} (m : eff (world T) failure A) : Prop := ∀ w, w_state (snd (m w)) = w_state w.

Lemma stateless_bind {A B} (m : eff (world T) failure A) (f : A → eff (world T) failure B) : stateless m → (∀ a, stateless (f a)) → stateless (m ≫= f).
Proof using Type.
  intros Hm Hf w. unfold mbind, eff_bind. specialize (Hm w). destruct (m w) as [[a|e] w1]; cbn in *; [|done]. by rewrite Hf.
Qed.
Lemma stateless_on_runtime {A} (m : eff runtime failure A) : stateless (on_runtime m).
Proof using Type. intros w. unfold on_runtime, zoom. by destruct (m (w_runtime w)). Qed.
Lemma stateless_append e : stateless (append (T := T) env e).
Proof using Type. apply stateless_bind; [apply stateless_on_runtime|]. by intros _ w. Qed.
Lemma stateless_on_persist {A} (f : persist_store → result failure A * persist_store) : stateless (on_persist (T := T) env f).
Proof using Type. apply stateless_bind; [apply stateless_on_runtime|]. intros _ w. unfold zoom. by destruct (f (w_persist w)). Qed.
Lemma stateless_Ok {A} (m : eff (world T) failure A) w r w' : stateless m → m w = (r, w') → w_state w' = w_state w.
Proof using Type. intros Hm Heq. specialize (Hm w). by rewrite Heq in Hm. Qed.

Lemma finish_Ok x c e w u w' : finish (T := T) env req x c e w = (Ok u, w') → run_state (w_state w') = x ∧ run_error (w_state w') = Some c.
Proof using Type.
  unfold finish. intros H. apply eff_bind_Ok in H as (held & w1 & _ & H). apply eff_bind_Ok in H as (u2 & w2 & _ & H).
  apply eff_bind_Ok in H as (u3 & w3 & H3 & H). apply eff_bind_Ok in H as (u4 & w4 & H4 & H).
  apply (stateless_Ok _ _ _ _ (stateless_append e)) in H4. apply (stateless_Ok _ _ _ _ (stateless_on_persist _)) in H. injection H3 as _ <-.
  rewrite H, H4. done.
Qed.

(** how a failure that was handled is reported *)
Lemma handle_Ok e w u w' : handle (T := T) env req e w = (Ok u, w') →
  ∃ c, e = Typed c ∧ run_error (w_state w') = Some (code c) ∧ run_state (w_state w') = if decide (c = Cancelled) then RunCancelled else Failed.
Proof using Type.
  unfold handle. destruct e as [c|x| |]; try (intros H; apply eff_bind_Ok in H as (? & ? & _ & H); discriminate H).
  destruct c; try (intros H; apply finish_Ok in H as [H1 H2]; eexists; split; [reflexivity|]; by rewrite H1, H2). intros H. discriminate H.
Qed.

Lemma finalize_Ok w u w' : finalize_success (T := T) env req w = (Ok u, w') →
  run_state (w_state w') = match validated (work (w_state w)) with [] => Succeeded | _ => WaitingReview end.
Proof using Type.
  unfold finalize_success. intros H. apply eff_bind_Ok in H as (held & w1 & H1 & H). apply eff_bind_Ok in H as (u2 & w2 & H2 & H).
  apply eff_bind_Ok in H as (s & w3 & H3 & H). apply (stateless_Ok _ _ _ _ (stateless_on_runtime _)) in H1. apply raise_if_Ok in H2 as [_ ->]. injection H3 as <- <-.
  rewrite H1 in H. destruct (validated (work (w_state w))).
  - apply eff_bind_Ok in H as (u4 & w4 & H4 & H). apply eff_bind_Ok in H as (u5 & w5 & H5 & H). apply eff_bind_Ok in H as (st & w6 & H6 & H).
    apply eff_bind_Ok in H as (u7 & w7 & H7 & H). injection H4 as _ <-. injection H5 as _ <-. injection H6 as _ <-.
    apply (stateless_Ok _ _ _ _ (stateless_append _)) in H7. apply (stateless_Ok _ _ _ _ (stateless_on_persist _)) in H. by rewrite H, H7.
  - apply eff_bind_Ok in H as (u4 & w4 & H4 & H). apply eff_bind_Ok in H as (u5 & w5 & H5 & H). injection H4 as _ <-.
    apply (stateless_Ok _ _ _ _ (stateless_on_persist _)) in H5. apply (stateless_Ok _ _ _ _ (stateless_append _)) in H. by rewrite H, H5.
Qed.

(** finalizing fails only by stopping the attempt, or on a run that is closed *)
Definition closed_or_stopped (e : failure) : Prop := stopped e ∨ e = Typed RunAlreadyTerminal.

Lemma set_status_fails p x e : fst (set_run_status (run_id req) x p) = Err e → e = Typed RunAlreadyTerminal.
Proof using Type.
  clear Hpublished. unfold set_run_status. destruct (p_run_status p !! run_id req) as [st|]; [case_bool_decide|]; cbn; congruence.
Qed.

Lemma fails_bind {A B} (P : failure → Prop) (m : eff (world T) failure A) (f : A → eff (world T) failure B) :
  (∀ w e, fst (m w) = Err e → P e) → (∀ a w e, fst (f a w) = Err e → P e) → ∀ w e, fst ((m ≫= f) w) = Err e → P e.
Proof using Type.
  intros Hm Hf w e. unfold mbind, eff_bind. specialize (Hm w). destruct (m w) as [[a|e'] w1]; cbn in *; [apply Hf|]. intros [= <-]. by apply Hm.
Qed.

Lemma silent_fails {A} (m : eff (world T) failure A) w e : silent req m → fst (m w) = Err e → closed_or_stopped e.
Proof using Type. intros Hm He. left. destruct (Hm w) as (_ & _ & H). by apply H. Qed.

Lemma persist_fails {A} (f : persist_store → result failure A * persist_store) (P : failure → Prop) :
  (∀ e, stopped e → P e) → (∀ p e, fst (f p) = Err e → P e) → ∀ w e, fst (on_persist (T := T) env f w) = Err e → P e.
Proof using CheckpointLaws0 req.
  intros HP Hf. apply fails_bind; [intros w e He; apply HP; destruct (silent_reach req env w) as (_ & _ & H); by apply H|].
  intros _ w e. unfold zoom. specialize (Hf (w_persist w)). destruct (f (w_persist w)); cbn in *. by apply Hf.
Qed.

Lemma finalize_fails w e : fst (finalize_success (T := T) env req w) = Err e → closed_or_stopped e.
Proof using CheckpointLaws0.
  assert (∀ x w e, fst (on_persist (T := T) env (set_run_status (run_id req) x) w) = Err e → closed_or_stopped e) as Hset.
  { intros x. apply persist_fails; [by left|]. intros p e' He. right. by eapply set_status_fails. }
  assert (∀ A B (m : eff (world T) failure A) (f : A → eff (world T) failure B), silent req m →
    (∀ a w e, fst (f a w) = Err e → closed_or_stopped e) → ∀ w e, fst ((m ≫= f) w) = Err e → closed_or_stopped e) as Hthen.
  { intros A B m f Hm Hf. apply fails_bind; [|done]. intros w' e'. by apply silent_fails. }
  revert w e. unfold finalize_success. apply Hthen; [apply silent_lease|]. intros held. apply Hthen; [apply silent_raise_if, lease_lost_stopped|]. intros _.
  apply Hthen; [apply silent_reads|]. intros s. destruct (validated s).
  - apply Hthen; [by apply silent_on_state|]. intros _. apply Hthen; [by apply silent_on_state|]. intros _. apply Hthen; [apply silent_reads|]. intros state.
    apply Hthen; [apply silent_append|]. intros _. apply Hset.
  - apply Hthen; [by apply silent_on_state|]. intros _. apply fails_bind; [apply Hset|]. intros _ w e. apply silent_fails, silent_append.
Qed.

(** ** A whole attempt *)

(** why an attempt that came to its end failed: its answers, the budget, a
    cancellation, a run already closed, or a workflow version it does not know *)
Definition failed_because (c : failure_class) : Prop :=
  ran STAGE_ORDER = Err (Typed c) ∨ c = BudgetExceeded ∨ c = Cancelled ∨ c = RunAlreadyTerminal ∨ (c = StepFailed ∧ workflow_version req ≠ WORKFLOW_VERSION).

Definition attempt_ends (r : result failure unit) (w : world T) : Prop :=
  sound (w_checkpoint w) ∧
  match r with
  | Err _ => True
  | Ok _ =>
      (run_state (w_state w) = (match validated (work (w_state w)) with [] => Succeeded | _ => WaitingReview end) ∧ ran STAGE_ORDER = Ok (work (w_state w))) ∨
      ∃ c, run_error (w_state w) = Some (code c) ∧ run_state (w_state w) = (if decide (c = Cancelled) then RunCancelled else Failed) ∧ failed_because c
  end.

Notation stages_then_flush := (stages_then_flush env currency_codes prompt default_ontology deps_ontology evidence_loader crash_after_stages req).

Lemma stages_then_flush_ends w : work (w_state w) = s0 → sound (w_checkpoint w) →
  let '(r, w') := stages_then_flush w in
  sound (w_checkpoint w') ∧
  match r with
  | Ok _ => ran STAGE_ORDER = Ok (work (w_state w'))
  | Err e => ran STAGE_ORDER = Err e ∨ stopped e ∨ (e = Typed StepFailed ∧ workflow_version req ≠ WORKFLOW_VERSION)
  end.
Proof using Hprovider Hontology Hpublished.
  intros Hw Hs. unfold WorkflowRun.stages_then_flush, try_finally, mbind, eff_bind, raise_if.
  assert (∀ w1 e, sound (w_checkpoint w1) → let '(r, w2) := ((if alive e then match flush_usage env req w1 with (Ok _, s'') => (Err e, s'') | (Err e', s'') => (Err e', s'') end else (Err e, w1)) : result failure unit * world T) in
    sound (w_checkpoint w2) ∧ match r with Ok _ => False | Err e' => e' = e ∨ stopped e' end) as Hflush.
  { intros w1 e Hs1. destruct (alive e); [|split; [done|by left]]. destruct (silent_flush w1) as (_ & H2 & H3).
    destruct (flush_usage env req w1) as [[[]|e'] w2]; cbn in *; (split; [by eapply sound_ext|]); [by left|right; by apply H3]. }
  destruct (decide (workflow_version req = WORKFLOW_VERSION)) as [Hv|Hv].
  - rewrite bool_decide_true by done. cbn [negb mret eff_ret]. unfold mret, eff_ret.
    pose proof (advances_loop STAGE_ORDER [] s0 w eq_refl eq_refl Hw Hs) as Hloop. destruct (for_loop _ STAGE_ORDER w) as [[[]|e] w1]; destruct Hloop as [Hs1 Hr].
    + destruct (silent_flush w1) as (H1 & H2 & H3). destruct (flush_usage env req w1) as [[[]|e'] w2]; cbn in *; (split; [by eapply sound_ext|]); [by rewrite H1|].
      right. left. by apply H3.
    + specialize (Hflush w1 e Hs1). destruct (if alive e then _ else _) as [[[]|e'] w2]; destruct Hflush as [Hs2 He]; [done|]. split; [done|].
      destruct He as [->|He]; [|by (right; left)]. destruct Hr; [by left|right; by left].
  - rewrite bool_decide_false by done. cbn [negb]. unfold raise. specialize (Hflush w (Typed StepFailed) Hs).
    destruct (if alive (Typed StepFailed) then _ else _) as [[[]|e'] w2]; destruct Hflush as [Hs2 He]; [done|]. split; [done|].
    destruct He as [->|He]; [by (right; right)|by (right; left)].
Qed.

Notation body := (body env currency_codes prompt default_ontology deps_ontology evidence_loader crash_after_stages req).

Lemma body_ends w : work (w_state w) = s0 → sound (w_checkpoint w) → let '(r, w') := body w in attempt_ends r w'.
Proof using Hprovider Hontology Hpublished.
  intros Hw Hs. unfold WorkflowRun.body, try_except. unfold mbind, eff_bind. pose proof (stages_then_flush_ends w Hw Hs) as Hstages.
  assert (∀ w1 e, sound (w_checkpoint w1) → ran STAGE_ORDER = Err e ∨ closed_or_stopped e ∨ (e = Typed StepFailed ∧ workflow_version req ≠ WORKFLOW_VERSION) →
    let '(r, w2) := ((if alive e then handle env req e w1 else (Err e, w1)) : result failure unit * world T) in attempt_ends r w2) as Hhandle.
  { intros w1 e Hs1 He. destruct (alive e); [|by split]. destruct (quiet_handle e w1) as [H1 H2]. destruct (handle env req e w1) as [[[]|e'] w2] eqn:Hh; cbn in *; (split; [by eapply sound_ext|]); [|done].
    right. destruct (handle_Ok _ _ _ _ Hh) as (c & -> & Herr & Hst). exists c. split; [done|split; [done|]]. unfold failed_because.
    destruct He as [He|[[Hstop|He]|[[= ->] Hv]]]; [by left| | |tauto].
    - destruct Hstop as [[Hi|[Hi|[sig Hi]]]|[Hi|[Hi|Hi]]]; try discriminate Hi; [injection Hi as ->; tauto| |injection Hi as ->; tauto].
      injection Hi as ->. unfold handle in Hh. discriminate Hh.
    - injection He as ->. tauto. }
  destruct (stages_then_flush w) as [[[]|e] w1]; destruct Hstages as [Hs1 Hr].
  - destruct (quiet_finalize w1) as [H1 H2]. pose proof (finalize_fails w1) as Hf. destruct (finalize_success env req w1) as [[[]|e] w2] eqn:Hfin; cbn in *.
    + split; [by eapply sound_ext|]. left. rewrite H1. split; [|done]. by eapply finalize_Ok.
    + apply Hhandle; [by eapply sound_ext|]. right. left. by apply Hf.
  - apply Hhandle; [done|]. destruct Hr as [Hr|[Hr|Hr]]; [by left|right; left; by left|right; by right].
Qed.

Notation attempt := (run_extraction_workflow env currency_codes prompt default_ontology deps_ontology evidence_loader crash_after_stages req).

Lemma attempt_ends_ok w : work (w_state w) = s0 → sound (w_checkpoint w) → let '(r, w') := attempt w in attempt_ends r w'.
Proof using Hprovider Hontology Hpublished.
  intros Hw Hs. cut (∀ w, work (w_state w) = s0 → sound (w_checkpoint w) → let '(r, w') := try_finally alive body (report_usage (T := T)) w in attempt_ends r w').
  { intros Hrest. unfold run_extraction_workflow.
    assert (∀ A B (m : eff (world T) failure A) (f : A → eff (world T) failure B) (Q : result failure B → world T → Prop), quiet m →
      (∀ w, sound (w_checkpoint w) → ∀ e, Q (Err e) w) →
      (∀ a w, work (w_state w) = s0 → sound (w_checkpoint w) → let '(r, w') := f a w in Q r w') →
      ∀ w, work (w_state w) = s0 → sound (w_checkpoint w) → let '(r, w') := (m ≫= f) w in Q r w') as Hthen.
    { intros A B m f Q Hm He Hf w' Hw' Hs'. unfold mbind, eff_bind. destruct (Hm w') as [H1 H2]. destruct (m w') as [[a|e] w1]; cbn in *.
      - apply Hf; [congruence|by eapply sound_ext].
      - apply He. by eapply sound_ext. }
    assert (∀ w, sound (w_checkpoint w) → ∀ e, attempt_ends (Err e) w) as Herr by (by split).
    revert w Hw Hs. apply Hthen; [apply quiet_on_persist|done|]. intros carried. apply Hthen; [apply quiet_reads|done|]. intros own.
    apply Hthen; [apply silent_quiet, silent_on_runtime, observe_stopped|done|]. intros now.
    apply Hthen; [apply silent_quiet, silent_on_runtime; by intros|done|]. intros _.
    apply Hthen; [by apply quiet_on_state|done|]. intros _. apply Hthen; [apply quiet_append|done|]. intros _. apply Hrest. }
  clear w Hw Hs. intros w Hw Hs. pose proof (body_ends w Hw Hs) as Hbody. unfold try_finally. destruct (body w) as [[[]|e] w1]; [exact Hbody|].
  destruct Hbody as [Hs1 _]. destruct (alive e); cbn; by split.
Qed.
End stages.

(** * Any number of attempts *)

Section attempts.
Context {T : Type} `{!CheckpointStore T} `{!CheckpointLaws T}.
Context (generate : generation_request → option model_result) (currency_codes : list string) (prompt : role → string)
  (default_ontology : ontology) (deps_ontology : option ontology) (evidence_loader : option (run_request → list evidence_block)) (req : run_request)
  (s0 : extraction).

Definition answers (env : environment) : Prop := ∀ n q, generate_structured env n q = generate q.

(** the stores a run can come to: one that has seen nothing of the run, and what any
    attempt leaves, killed, fenced off, failed or finished *)
Inductive reachable : T → Prop :=
| unstarted t : (∀ k, view t (run_id req) (org_id req) k = None) → reachable t
| after_attempt env crash_after_stages w : answers env → work (w_state w) = s0 → reachable (w_checkpoint w) →
    reachable (w_checkpoint (snd (run_extraction_workflow env currency_codes prompt default_ontology deps_ontology evidence_loader crash_after_stages req w))).

Hypothesis Hontology : ctx_ontology default_ontology deps_ontology = default_ontology.
Hypothesis Hpublished : Forall published_ok (match evidence_loader with Some load => load req | None => evidence s0 end).

Lemma reachable_sound t : reachable t → sound generate currency_codes prompt default_ontology evidence_loader req s0 t.
Proof using Hontology Hpublished.
  induction 1 as [t Hnone|env crash w Henv Hw _ IH]; [intros st s r _ Hr; by rewrite Hnone in Hr|].
  pose proof (attempt_ends_ok env generate currency_codes prompt default_ontology deps_ontology evidence_loader crash req Henv Hontology s0 Hpublished w Hw IH) as H.
  destruct (run_extraction_workflow _ _ _ _ _ _ _ _ w). apply H.
Qed.
End attempts.

(** C1: Crash-resume is transparent, for dependencies that name no ontology but the
    default one ([WorkflowExample.resume_ignores_injected_ontology] shows why), a
    provider that answers a request the same way in every attempt, and evidence
    whose publication times [datetime] can hold.  Take any attempts of a run, each
    cut short anywhere: killed between two external calls, fenced off, cancelled, out
    of budget, or finished.  If a later attempt comes to its end, its status is that of
    an uninterrupted run, and its evidence, classification, candidates, proposals,
    normalized payloads, drafts and conflicts are exactly what the stages compute
    in order from the provider's answers; or it reports the failure the stages
    have, or one of the budget, a cancellation, a closed run or an unknown version. *)
Theorem resume_is_transparent {T : Type} `{!CheckpointStore T} `{!CheckpointLaws T}
    (generate : generation_request → option model_result) (currency_codes : list string) (prompt : role → string) (default_ontology : ontology)
    (deps_ontology : option ontology) (evidence_loader : option (run_request → list evidence_block)) (req : run_request) (s0 : extraction)
    (env : environment) (crash_after_stages : option nat) (w w' : world T) :
  ctx_ontology default_ontology deps_ontology = default_ontology →
  Forall published_ok (match evidence_loader with Some load => load req | None => evidence s0 end) →
  reachable generate currency_codes prompt default_ontology deps_ontology evidence_loader req s0 (w_checkpoint w) →
  answers generate env → work (w_state w) = s0 →
  run_extraction_workflow env currency_codes prompt default_ontology deps_ontology evidence_loader crash_after_stages req w = (Ok tt, w') →
  let reference := reference_run generate currency_codes prompt default_ontology evidence_loader req STAGE_ORDER s0 in
  (run_state (w_state w') = (match validated (work (w_state w')) with [] => Succeeded | _ => WaitingReview end) ∧ reference = Ok (work (w_state w'))) ∨
  ∃ c, run_error (w_state w') = Some (code c) ∧ run_state (w_state w') = (if decide (c = Cancelled) then RunCancelled else Failed) ∧
    (reference = Err (Typed c) ∨ c = BudgetExceeded ∨ c = Cancelled ∨ c = RunAlreadyTerminal ∨ (c = StepFailed ∧ workflow_version req ≠ WORKFLOW_VERSION)).
Proof.
  intros Hontology Hpublished Hreach Henv Hw Hrun reference.
  pose proof (attempt_ends_ok env generate currency_codes prompt default_ontology deps_ontology evidence_loader crash_after_stages req Henv Hontology s0 Hpublished w Hw) as H.
  rewrite Hrun in H. destruct H as [_ H]; [by eapply reachable_sound|exact H].
Qed.
