(* ===== verification/WorkflowExample.v ===== *)
(** A run that is killed, resumed and finished; and what a resume does not restore. *)

From Stdlib Require Import SpecFloat.
From S2P Require Import Prelude Effects Dicts Text Floats Decimals Periods Canonical Moments Payload Ontology Numeric Normalize Citations Proposals ProposalsSound Messages Budget Runner RunnerSound Workflow Stages WorkflowRun WorkflowResume.
Local Open Scope Z_scope.

Definition sample_text : string := "1200 customers".
Definition sample_hash : string := Eval vm_compute in sha256_hex sample_text.
Definition sample_as_of : moment := Moment (Date 2025 1 31) 0 (Some 0).

Definition sample_request : run_request :=
  RunRequest "run-1" "org-1" "ws-1" "12345678-1234-5678-1234-567812345678" ["kpi"; "guidance"]%string sample_as_of "corpus-1" "saas/v1" WORKFLOW_VERSION
    "mock" "mock-1" [] "sha256:0" 10 100000 20000 (Dec false 200 (-2)) 600 "Issuer".

Definition sample_blocks : list evidence_block :=
  [EvidenceBlock "span-0001" "doc-1" sample_text sample_hash (Some (Moment (Date 2025 1 15) 1500000 (Some (-18000000000))))].

Definition sample_start : extraction := Extraction sample_blocks [] [] [] [] [] [].

Definition sample_proposal : payload :=
  [("schema_version", StrV "extraction-payload/v1"); ("kind", StrV "kpi"); ("entity_id", StrV "12345678-1234-5678-1234-567812345678");
   ("issuer_label", StrV "Issuer"); ("metric_id", StrV "cust_total"); ("raw_value", StrV "1200"); ("value", StrV "1200"); ("unit", StrV "count");
   ("scale", IntV 0); ("sign", StrV "positive"); ("period", DictV [("type", StrV "instant"); ("instant", StrV "2024-12-31")]); ("dimensions", DictV []);
   ("qualifiers", DictV [("customer_definition", StrV "paying")]); ("reported_or_derived", StrV "reported");
   ("evidence", ListV [DictV [("source_span_id", StrV "span-0001"); ("text_hash", StrV sample_hash)]])]%string.

(** the answers of the mock provider: one KPI, and no guidance *)
Definition sample_answers (q : generation_request) : option model_result :=
  let parsed :=
    if bool_decide (q_schema_name q = "classifier"%string)
    then [("document_type", StrV "10-K"); ("sections", ListV []); ("relevant_modes", ListV [StrV "kpi"])]%string
    else if bool_decide (q_schema_name q = "candidates"%string) then [("candidates", ListV [])]%string
    else if bool_decide (q_schema_name q = "kpi"%string) then [("proposals", ListV [DictV sample_proposal])]%string
    else [("proposals", ListV [])]%string in
  Some (ModelResult "mock" "mock-1" (q_schema_name q) (Some parsed) false 100 20 (Dec false 1 (-2))).

(** the clock stands still, and the process is killed at [death] *)
Definition sample_environment (death : nat) : environment :=
  Environment (λ n, (n =? death)%nat) (λ _, true) (λ _, false) (λ _, SF64 0 0) (λ _, sample_answers).

Definition no_budget : run_budget := RunBudget 0 0 0 (Dec false 0 0) 0 0 0 0 (Dec false 0 0) (SF64 0 0) (SF64 0 0).

(** a worker that takes up the run, with the stores as another left them *)
Definition take_up (w : world memory_checkpoint) : world memory_checkpoint :=
  World (Runtime 0 no_budget) (WorkflowState sample_start [] Queued None false no_usage) 0 0 None (w_checkpoint w) [] (w_persist w).

Definition nobody : world memory_checkpoint :=
  World (Runtime 0 no_budget) (WorkflowState sample_start [] Queued None false no_usage) 0 0 None (MemoryCheckpoint ∅ ∅) [] (PersistStore ∅ ∅ ∅ ∅).

Definition sample_prompt (r : role) : string := "Extract.".

Definition sample_attempt (death : nat) (o : option ontology) : eff (world memory_checkpoint) failure unit :=
  run_extraction_workflow (sample_environment death) ["USD"]%string sample_prompt (metrics sample_ontology) o None None sample_request.

(** the first worker dies while the citations are graded; the second finishes *)
Definition first_attempt (o : option ontology) : world memory_checkpoint := snd (sample_attempt 105 o nobody).
Definition second_attempt (o : option ontology) : result failure unit * world memory_checkpoint := sample_attempt 100000 o (take_up (first_attempt o)).
Definition only_attempt (o : option ontology) : result failure unit * world memory_checkpoint := sample_attempt 100000 o nobody.

Lemma fst_pair {A B} (p : A * B) a : fst p = a → p = (a, snd p).
Proof. destruct p. cbn. by intros ->. Qed.

Lemma second_attempt_ends :
  let run := run_extraction_workflow (sample_environment 100000) ["USD"]%string sample_prompt (metrics sample_ontology) None None None sample_request in
  let start := take_up (first_attempt None) in
  run start = (Ok tt, snd (run start)).
Proof. intros run start. apply fst_pair. vm_compute. reflexivity. Qed.

Lemma sample_published : Forall published_ok (evidence sample_start).
Proof. apply Forall_singleton. split; [reflexivity|split; [split; vm_compute; [discriminate|reflexivity]|reflexivity]]. Qed.

Notation sample_run := (reachable sample_answers ["USD"]%string sample_prompt (metrics sample_ontology) None None sample_request sample_start).

Lemma take_up_reachable w : sample_run (w_checkpoint w) → sample_run (w_checkpoint (take_up w)).
Proof. by intros H. Qed.

Lemma sample_reachable : sample_run (w_checkpoint (take_up (first_attempt None))).
Proof.
  apply take_up_reachable. unfold first_attempt, sample_attempt.
  refine (after_attempt sample_answers ["USD"]%string sample_prompt (metrics sample_ontology) None None sample_request sample_start
    (sample_environment 105) None nobody (λ n q, eq_refl) eq_refl _).
  apply unstarted. by intros [[? ?] ?].
Qed.

(** the second worker's result is the reference's, and awaits review *)
Lemma resume_is_transparent_witness :
  let run := run_extraction_workflow (sample_environment 100000) ["USD"]%string sample_prompt (metrics sample_ontology) None None None sample_request in
  let start := take_up (first_attempt None) in
  let w := snd (run start) in
  let reference := reference_run sample_answers ["USD"]%string sample_prompt (metrics sample_ontology) None sample_request STAGE_ORDER sample_start in
  run start = (Ok tt, w) ∧
  ((run_state (w_state w) = (match validated (work (w_state w)) with [] => Succeeded | _ => WaitingReview end) ∧ reference = Ok (work (w_state w))) ∨
   ∃ c, run_error (w_state w) = Some (code c) ∧ run_state (w_state w) = (if decide (c = Cancelled) then RunCancelled else Failed) ∧
     (reference = Err (Typed c) ∨ c = BudgetExceeded ∨ c = Cancelled ∨ c = RunAlreadyTerminal ∨
      (c = StepFailed ∧ workflow_version sample_request ≠ WORKFLOW_VERSION))).
Proof.
  intros run start w reference. split; [exact second_attempt_ends|].
  exact (resume_is_transparent (T := memory_checkpoint) sample_answers ["USD"]%string sample_prompt (metrics sample_ontology) None None sample_request sample_start
    (sample_environment 100000) None start w eq_refl sample_published sample_reachable (λ n q, eq_refl) eq_refl second_attempt_ends).
Defined.

(** how a run ended, which of its drafts are fit, and whether a role abstained *)
Definition ended (r : result failure unit * world memory_checkpoint) : result failure unit * run_status * list bool * bool :=
  (r.1, run_state (w_state r.2), (λ d, ok (d_summary d)) <$> validated (work (w_state r.2)), abstained (w_state r.2)).

(** A run whose dependencies name an ontology does not resume with it: the codec
    rebuilds the drafts with the default one.  A draft the uninterrupted run reports
    unfit, because the injected ontology does not know its metric, is reported fit
    by the run that was killed behind its validation.  Nor is it restored that a
    role abstained. *)
Theorem resume_ignores_injected_ontology :
  ended (only_attempt (Some [])) = (Ok tt, WaitingReview, [false], true) ∧ ended (second_attempt (Some [])) = (Ok tt, WaitingReview, [true], false).
Proof. split; vm_compute; reflexivity. Qed.
