(* ===== verification/WorkflowSafety.v ===== *)
(** What no attempt of a run does: reopen a closed run, replace a persisted
    proposal, or write under a lost lease. *)

From Stdlib Require Import SpecFloat.
From S2P Require Import Prelude Effects Dicts Text Floats Decimals Periods Canonical Moments Payload Ontology Numeric Normalize Citations Proposals Messages Budget Runner RunnerSound Workflow Stages WorkflowRun WorkflowResume.
Local Open Scope Z_scope.

(** * Persisting proposals *)

Lemma write_all_inv {A} (I : persist_store → Prop) (f : persist_store → A → result failure (A * persist_store)) l :
  (∀ p x y p', I p → f p x = Ok (y, p') → I p') → ∀ p, I p → I (snd (write_all f l p)).
Proof.
  intros Hf. induction l as [|x l IH]; intros p Hp; [done|]. cbn [write_all]. destruct (f p x) as [[y p']|e] eqn:Hx; [|done].
  specialize (IH p' ltac:(by eapply Hf)). by destruct (write_all f l p').
Qed.

(** what is stored under an id stays *)
Definition grows (p p' : persist_store) : Prop :=
  (∀ i d, p_proposals p !! i = Some d → p_proposals p' !! i = Some d) ∧ (∀ k c, p_conflicts p !! k = Some c → p_conflicts p' !! k = Some c).

#[export] Instance grows_refl : Reflexive grows.
Proof. by intros p. Qed.
#[export] Instance grows_trans : Transitive grows.
Proof. intros a b c [H1 H2] [G1 G2]. split; eauto. Qed.

Lemma persist_proposal_grows run p d y p' : persist_proposal run p d = Ok (y, p') → grows p p' ∧ p_run_status p' = p_run_status p ∧ p_proposals p' !! draft_id run d = Some y.
Proof.
  unfold persist_proposal. intros H. apply bind_Ok in H as (u & _ & H). destruct (p_proposals p !! draft_id run d) as [x|] eqn:Hx; injection H as <- <-; [by split|].
  split; [|split; [done|cbn; apply lookup_insert_eq]]. split; [|done]. cbn. intros i d' Hi. rewrite lookup_insert_ne; [done|]. congruence.
Qed.

Lemma persist_conflict_grows p c y p' : persist_conflict p c = Ok (y, p') → grows p p' ∧ p_run_status p' = p_run_status p ∧ p_conflicts p' !! conflict_key c = Some y.
Proof.
  unfold persist_conflict. intros H. apply bind_Ok in H as (u & _ & H). destruct (p_conflicts p !! conflict_key c) as [x|] eqn:Hx; injection H as <- <-; [by split|].
  split; [|split; [done|cbn; apply lookup_insert_eq]]. split; [done|]. cbn. intros i d' Hi. rewrite lookup_insert_ne; [done|]. congruence.
Qed.

Lemma persist_proposals_grows run drafts p : grows p (snd (persist_proposals run drafts p)) ∧ p_run_status (snd (persist_proposals run drafts p)) = p_run_status p.
Proof.
  apply (write_all_inv (λ p', grows p p' ∧ p_run_status p' = p_run_status p)); [|by split].
  intros q x y p' [Hg Hs] (H1 & H2 & _)%persist_proposal_grows. split; [by etrans|congruence].
Qed.

Lemma persist_conflicts_grows found p : grows p (snd (persist_conflicts found p)) ∧ p_run_status (snd (persist_conflicts found p)) = p_run_status p.
Proof.
  apply (write_all_inv (λ p', grows p p' ∧ p_run_status p' = p_run_status p)); [|by split].
  intros q x y p' [Hg Hs] (H1 & H2 & _)%persist_conflict_grows. split; [by etrans|congruence].
Qed.

(** every draft that was persisted is found under its id *)
Lemma persist_proposals_stored run drafts p ys p' : persist_proposals run drafts p = (Ok ys, p') → Forall2 (λ d y, p_proposals p' !! draft_id run d = Some y) drafts ys.
Proof.
  unfold persist_proposals. revert p ys. induction drafts as [|d drafts IH]; intros p ys; cbn [write_all]; [intros [= <- _]; constructor|].
  destruct (persist_proposal run p d) as [[y p1]|e] eqn:Hd; [|done]. apply persist_proposal_grows in Hd as (_ & _ & Hy).
  pose proof (persist_proposals_grows run drafts p1) as [[Hg _] _]. unfold persist_proposals in Hg.
  destruct (write_all (persist_proposal run) drafts p1) as [[ys'|e] p2] eqn:Hrest; [|done]. intros [= <- <-]. constructor; [by apply Hg|by eapply IH].
Qed.

(** Persisting is idempotent: a run that persists its drafts again, as a resumed one
    does, changes nothing and is given the drafts already stored. *)
Theorem persist_proposals_idempotent (run_id : string) (drafts : list draft) (p p' : persist_store) (persisted : list draft) :
  persist_proposals run_id drafts p = (Ok persisted, p') → persist_proposals run_id drafts p' = (Ok persisted, p') ∧ length persisted = length drafts.
Proof.
  intros H. apply persist_proposals_stored in H. split; [|by eapply eq_sym, Forall2_length].
  unfold persist_proposals. induction H as [|d y drafts ys Hy _ IH]; [done|]. cbn [write_all]. unfold persist_proposal at 1, ensure_needs_review.
  rewrite bool_decide_true by done. cbn [ensure mbind result_bind]. rewrite Hy. by rewrite IH.
Qed.

(** * Walking through an attempt *)

Section walk.
Context {T : Type} `{!CheckpointStore T}.
Context (env : environment) (currency_codes : list string) (prompt : role → string) (default_ontology : ontology) (deps_ontology : option ontology)
  (evidence_loader : option (run_request → list evidence_block)) (crash_after_stages : option nat) (req : run_request).
Context (I : persist_store → Prop).
Hypothesis Hproposals : ∀ drafts p, I p → I (snd (persist_proposals (run_id req) drafts p)).
Hypothesis Hconflicts : ∀ found p, I p → I (snd (persist_conflicts found p)).
Hypothesis Husage : ∀ u p, I p → I (record_usage (run_id req) u p).
Hypothesis Hstatus : ∀ s p, I p → I (snd (set_run_status (run_id req) s p)).

Notation holds := (λ w : world T, I (w_persist w)).

Lemma walk_runtime {A} (m : eff runtime failure A) : keeps holds (on_runtime m).
Proof using Type. by apply keeps_zoom. Qed.
Lemma walk_state f : keeps holds (on_state f).
Proof using Type. by apply keeps_writes. Qed.
Lemma walk_audit a : keeps holds (put_audit a).
Proof using Type. by apply keeps_writes. Qed.
Lemma walk_calls n : keeps holds (count_model_calls n).
Proof using Type. by apply keeps_writes. Qed.
Lemma walk_committed : keeps holds count_committed.
Proof using Type. by apply keeps_writes. Qed.
Lemma walk_append e : keeps holds (append env e).
Proof using Type. apply keeps_bind; [apply walk_runtime|]. intros _. by apply keeps_writes. Qed.
Lemma walk_checkpoint {A} (f : T → A * T) : keeps holds (on_checkpoint env f).
Proof using Type. apply keeps_bind; [apply walk_runtime|]. intros _. by apply keeps_zoom. Qed.
Lemma walk_persist {A} (f : persist_store → result failure A * persist_store) : (∀ p, I p → I (snd (f p))) → keeps holds (on_persist env f).
Proof using Type.
  intros Hf. apply keeps_bind; [apply walk_runtime|]. intros _ w Hw. unfold zoom. specialize (Hf (w_persist w) Hw). by destruct (f (w_persist w)).
Qed.

Ltac walk :=
  repeat first
    [ apply walk_runtime | apply walk_state | apply walk_audit | apply walk_calls | apply walk_committed | apply walk_append | apply walk_checkpoint
    | apply keeps_ret | apply keeps_raise | apply keeps_reads | apply keeps_pure | apply keeps_raise_if | done
    | apply walk_persist; intros p Hp; first [by apply Hproposals | by apply Hconflicts | by apply Husage | by apply Hstatus | exact Hp]
    | apply keeps_bind; [|intros ?] | case_match ].

Lemma walk_usage : keeps holds (record_run_usage env req).
Proof using Husage. unfold record_run_usage. walk. Qed.
Lemma walk_role r step : keeps holds (run_role env prompt req r step).
Proof using Husage. unfold run_role, working, the_budget. do 7 (apply keeps_bind; [walk|intros ?]). apply keeps_bind; [apply walk_usage|intros _]. walk. Qed.
Lemma walk_persist_stage : keeps holds (stage_persist env req).
Proof using Hproposals Hconflicts. unfold stage_persist, persist_outputs_atomic. walk. Qed.
Lemma walk_dispatch st : keeps holds (dispatch_stage env currency_codes prompt default_ontology deps_ontology evidence_loader req st).
Proof using Husage Hproposals Hconflicts.
  destruct st; cbn [dispatch_stage]; try apply walk_role; try apply walk_persist_stage; unfold computed; walk.
Qed.
Lemma walk_failure st hash e : keeps holds (record_stage_failure env req st hash e).
Proof using Type. unfold record_stage_failure, lease. walk. Qed.
Lemma walk_execute st hash :
  keeps holds (execute_stage env currency_codes prompt default_ontology deps_ontology evidence_loader crash_after_stages req st hash).
Proof using Husage Hproposals Hconflicts.
  unfold execute_stage. apply keeps_bind; [walk|intros _]. apply keeps_bind; [walk|intros _]. apply keeps_bind.
  { apply keeps_try_except; [apply walk_dispatch|]. intros e. apply keeps_bind; [apply walk_failure|intros _]. walk. }
  intros out. unfold commit_fence, lease, cancelled, commit_stage. walk.
Qed.
Lemma walk_stage st : keeps holds (run_stage env currency_codes prompt default_ontology deps_ontology evidence_loader crash_after_stages req st).
Proof using Husage Hproposals Hconflicts.
  unfold run_stage, working. apply keeps_bind; [walk|intros s]. apply keeps_bind; [walk|intros existing]. apply keeps_bind.
  { destruct existing as [r|]; [|walk]. case_bool_decide; [|walk]. unfold is_recoverable, reject_checkpoint. walk. }
  intros usable. destruct existing as [r|]; [|apply walk_execute]. destruct usable; [|apply walk_execute]. unfold put_work. walk.
Qed.
Lemma walk_finish s c e : keeps holds (finish env req s c e).
Proof using Hstatus. unfold finish, lease. walk. Qed.
Lemma walk_handle e : keeps holds (handle env req e).
Proof using Hstatus.
  unfold handle. destruct e as [[]|x| |]; try apply walk_finish; try (apply keeps_bind; [apply walk_finish|intros _]); walk.
Qed.
Lemma walk_flush : keeps holds (flush_usage env req).
Proof using Husage. unfold flush_usage, lease. apply keeps_bind; [walk|]. intros [|]; [apply walk_usage|walk]. Qed.

Lemma attempt_keeps :
  keeps holds (run_extraction_workflow env currency_codes prompt default_ontology deps_ontology evidence_loader crash_after_stages req).
Proof using Husage Hproposals Hconflicts Hstatus.
  unfold run_extraction_workflow. do 6 (apply keeps_bind; [walk|intros ?]). apply keeps_try_finally; [|unfold report_usage, the_budget; walk].
  apply keeps_try_except; [|apply walk_handle]. apply keeps_bind.
  - apply keeps_try_finally; [|apply walk_flush]. apply keeps_bind; [walk|intros _]. apply keeps_for_loop. intros st. unfold advance, boundary, lease, cancelled.
    apply keeps_bind; [walk|intros _]. destruct (should_skip_mode_stage req st); [unfold mark_skipped; walk|apply walk_stage].
  - intros _. unfold finalize_success, lease, working. walk.
Qed.
End walk.

(** * Closed runs *)

Section closed.
Context {T : Type} `{!CheckpointStore T}.
Context (env : environment) (currency_codes : list string) (prompt : role → string) (default_ontology : ontology) (deps_ontology : option ontology)
  (evidence_loader : option (run_request → list evidence_block)) (crash_after_stages : option nat) (req : run_request).
Notation attempt := (run_extraction_workflow (T := T) env currency_codes prompt default_ontology deps_ontology evidence_loader crash_after_stages req).

Lemma set_run_status_grows s p : grows p (snd (set_run_status (run_id req) s p)).
Proof. unfold set_run_status. repeat case_match; by split. Qed.

Lemma set_run_status_other s p r : r ≠ run_id req → p_run_status (snd (set_run_status (run_id req) s p)) !! r = p_run_status p !! r.
Proof. intros Hr. unfold set_run_status. repeat case_match; [done| |]; cbn; by rewrite lookup_insert_ne. Qed.

Lemma set_run_status_closed s x p : x ∈ TERMINAL_RUN_STATUSES → p_run_status p !! run_id req = Some x → 
  p_run_status (snd (set_run_status (run_id req) s p)) !! run_id req = Some x.
Proof. intros Hx Hp. unfold set_run_status. rewrite Hp. by rewrite bool_decide_true. Qed.

(** A closed run stays closed: once a run's status is succeeded, failed or cancelled,
    no attempt to run it again changes that status, whatever the store, the
    environment or the stage it fails at. *)
Theorem closed_run_stays_closed (w : world T) (s : run_status) :
  s ∈ TERMINAL_RUN_STATUSES → p_run_status (w_persist w) !! run_id req = Some s → p_run_status (w_persist (snd (attempt w))) !! run_id req = Some s.
Proof.
  intros Hs. apply (attempt_keeps env currency_codes prompt default_ontology deps_ontology evidence_loader crash_after_stages req
    (λ p, p_run_status p !! run_id req = Some s)).
  - intros drafts p Hp. by rewrite (proj2 (persist_proposals_grows _ _ _)).
  - intros found p Hp. by rewrite (proj2 (persist_conflicts_grows _ _)).
  - done.
  - intros x p Hp. by apply set_run_status_closed.
Qed.

(** No attempt replaces a proposal or a conflict that is stored, nor touches the
    status of another run. *)
Theorem attempt_only_adds (w : world T) :
  let p := w_persist w in let p' := w_persist (snd (attempt w)) in
  grows p p' ∧ ∀ r, r ≠ run_id req → p_run_status p' !! r = p_run_status p !! r.
Proof.
  apply (attempt_keeps env currency_codes prompt default_ontology deps_ontology evidence_loader crash_after_stages req
    (λ p, grows (w_persist w) p ∧ ∀ r, r ≠ run_id req → p_run_status p !! r = p_run_status (w_persist w) !! r)); [..|done].
  - intros drafts p [Hg Hr]. destruct (persist_proposals_grows (run_id req) drafts p) as [H1 H2]. split; [by etrans|]. intros r. rewrite H2. apply Hr.
  - intros found p [Hg Hr]. destruct (persist_conflicts_grows found p) as [H1 H2]. split; [by etrans|]. intros r. rewrite H2. apply Hr.
  - done.
  - intros x p [Hg Hr]. split; [etrans; [exact Hg|apply set_run_status_grows]|]. intros r Hne. rewrite set_run_status_other; [by apply Hr|done].
Qed.
End closed.

(** * A lost lease *)

Section lease.
Context {T : Type} `{!CheckpointStore T}.
Context (env : environment) (currency_codes : list string) (prompt : role → string) (default_ontology : ontology) (deps_ontology : option ontology)
  (evidence_loader : option (run_request → list evidence_block)) (crash_after_stages : option nat) (req : run_request).

(** a call only moves time on *)
Definition later {A} (m : eff runtime failure A) : Prop := ∀ n, keeps (λ s, (n ≤ ticks s)%nat) m.

Lemma later_observe {A} (f : nat → A) : later (observe env f).
Proof. intros n s Hs. cbn in *. lia. Qed.
Lemma later_bind {A B} (m : eff runtime failure A) (f : A → eff runtime failure B) : later m → (∀ a, later (f a)) → later (m ≫= f).
Proof. intros Hm Hf n. apply keeps_bind; [apply Hm|intros a; apply Hf]. Qed.

Ltac later :=
  repeat first [ apply later_observe | by intros ?; apply keeps_ret | by intros ?; apply keeps_raise | by intros ?; apply keeps_reads
    | by intros ?; apply keeps_pure | by intros ?; apply keeps_raise_if | by intros ?; apply keeps_writes | apply later_bind; [|intros ?] | case_match ].

Lemma later_step spec provider_ref model_ref n evidence_blocks run_id step_name workflow_version :
  later (run_model_step env spec provider_ref model_ref n evidence_blocks run_id step_name workflow_version).
Proof.
  assert (Hattempts : ∀ left attempt messages log problems, later (attempts env spec provider_ref model_ref n left attempt messages log problems)).
  { induction left as [|left IH]; intros attempt messages log problems; cbn [attempts]; [by intros ?; apply keeps_raise|].
    apply later_bind; [unfold call_provider, precheck, record, add_cost, wall_cap_reached, elapsed_seconds; later|].
    intros result. apply later_bind; [later|]. intros [accepted|found]; [later|]. apply IH. }
  unfold run_model_step. apply later_bind; [later|]. intros messages. apply later_bind; [apply Hattempts|]. intros [[? ?] ?]. later.
Qed.

Definition lost (w : world T) : Prop := ∀ n, (ticks (w_runtime w) ≤ n)%nat → lease_check env n = false.

(** what other workers and readers see of the run, its spending aside *)
Definition durable (w : world T) :=
  (w_checkpoint w, p_proposals (w_persist w), p_conflicts (w_persist w), p_run_status (w_persist w)).

Section frozen.
Context (w0 : world T).

Definition frozen (w : world T) : Prop := lost w ∧ durable w = durable w0.

Lemma frozen_runtime {A} (m : eff runtime failure A) : later m → keeps frozen (on_runtime m).
Proof.
  intros Hm w [Hlost Hd]. unfold on_runtime, zoom. specialize (Hm (ticks (w_runtime w)) (w_runtime w) (Nat.le_refl _)).
  destruct (m (w_runtime w)) as [r s]. split; [|done]. intros n Hn. apply Hlost. cbn in *. lia.
Qed.

Lemma frozen_writes (f : world T → world T) : (∀ w, w_runtime (f w) = w_runtime w ∧ durable (f w) = durable w) → keeps (E := failure) frozen (writes f).
Proof. intros Hf. apply keeps_writes. intros w [Hlost Hd]. destruct (Hf w) as [Hr Hdf]. split; [unfold lost; by rewrite Hr|by rewrite Hdf]. Qed.

Lemma frozen_append e : keeps frozen (append env e).
Proof. apply keeps_bind; [apply frozen_runtime, later_observe|]. intros _. by apply frozen_writes. Qed.

Lemma frozen_persist {A} (f : persist_store → result failure A * persist_store) :
  (∀ p, let p' := snd (f p) in p_proposals p' = p_proposals p ∧ p_conflicts p' = p_conflicts p ∧ p_run_status p' = p_run_status p) → keeps frozen (on_persist env f).
Proof.
  intros Hf. apply keeps_bind; [apply frozen_runtime, later_observe|]. intros _ w [Hlost Hd]. unfold zoom. specialize (Hf (w_persist w)).
  destruct (f (w_persist w)) as [r p']. cbn in Hf. destruct Hf as (H1 & H2 & H3). split; [done|]. rewrite <-Hd. unfold durable. cbn. by rewrite H1, H2, H3.
Qed.

(** code behind a positive answer of the lease is not reached *)
Lemma frozen_lease {A} (f : bool → eff (world T) failure A) : keeps frozen (f false) → keeps frozen (lease env ≫= f).
Proof.
  intros Hf w Hw. unfold mbind, eff_bind. pose proof (frozen_runtime _ (later_observe (lease_check env)) w Hw) as H. revert H. unfold lease, on_runtime, zoom, observe.
  cbn. destruct (killed env (ticks (w_runtime w))); [done|]. destruct Hw as [Hlost Hd]. rewrite (Hlost (ticks (w_runtime w))) by lia. apply Hf.
Qed.

(** no call behind a fence is made *)
Definition fenced {A} (m : eff (world T) failure A) : Prop := ends frozen m (λ r w, frozen w ∧ ∀ a, r ≠ Ok a).

Lemma fenced_keeps {A} (m : eff (world T) failure A) : fenced m → keeps frozen m.
Proof. intros H w Hw. by apply H. Qed.

Lemma fenced_bind {A B} (m : eff (world T) failure A) (f : A → eff (world T) failure B) : fenced m → fenced (m ≫= f).
Proof. intros H. apply ends_bind with (R := λ _ _, False); [|by intros a w []]. intros w Hw. destruct (H w Hw) as [Hw' Hno]. destruct (fst (m w)); [by destruct (Hno a)|done]. Qed.

Lemma fenced_after {A B} (m : eff (world T) failure A) (f : A → eff (world T) failure B) : keeps frozen m → (∀ a, fenced (f a)) → fenced (m ≫= f).
Proof. intros H Hf. apply ends_bind with (R := λ _, frozen); [|exact Hf]. intros w Hw. specialize (H w Hw). by destruct (fst (m w)). Qed.

Lemma fenced_held {A} (f : unit → eff (world T) failure A) : fenced (lease env ≫= λ held, raise_if (negb held) (Typed LeaseLost) ≫= f).
Proof.
  intros w Hw. unfold mbind, eff_bind. pose proof (frozen_runtime _ (later_observe (lease_check env)) w Hw) as H. revert H. unfold lease, on_runtime, zoom, observe.
  cbn. destruct (killed env (ticks (w_runtime w))); [done|]. destruct Hw as [Hlost Hd]. rewrite (Hlost (ticks (w_runtime w))) by lia. done.
Qed.

Ltac frozen :=
  repeat first
    [ apply fenced_keeps, fenced_held | apply frozen_append | apply keeps_ret | apply keeps_raise | apply keeps_reads | apply keeps_pure | apply keeps_raise_if
    | by apply frozen_writes | by apply frozen_persist | apply frozen_runtime; later | apply keeps_bind; [|intros ?] | case_match ].

Lemma frozen_usage : keeps frozen (record_run_usage env req).
Proof. unfold record_run_usage, the_budget, elapsed_seconds. frozen. Qed.
Lemma frozen_flush : keeps frozen (flush_usage env req).
Proof. unfold flush_usage. apply frozen_lease. by intros w Hw. Qed.
Lemma frozen_role r step : keeps frozen (run_role env prompt req r step).
Proof.
  unfold run_role, working, the_budget, put_audit, count_model_calls. do 2 (apply keeps_bind; [frozen|intros ?]).
  apply keeps_bind; [apply frozen_runtime, later_step|intros ?]. do 4 (apply keeps_bind; [frozen|intros ?]).
  apply keeps_bind; [apply frozen_usage|intros _]. unfold put_work, on_state. frozen.
Qed.
Lemma frozen_dispatch st : keeps frozen (dispatch_stage env currency_codes prompt default_ontology deps_ontology evidence_loader req st).
Proof.
  destruct st; cbn [dispatch_stage]; try apply frozen_role; try (unfold stage_persist; apply fenced_keeps, fenced_held); unfold computed, working, put_work, on_state; frozen.
Qed.
Lemma frozen_failure st hash e : keeps frozen (record_stage_failure env req st hash e).
Proof. apply frozen_lease. by intros w Hw. Qed.
Lemma fenced_execute st hash :
  fenced (execute_stage env currency_codes prompt default_ontology deps_ontology evidence_loader crash_after_stages req st hash).
Proof.
  unfold execute_stage, put_audit. apply fenced_after; [frozen|intros _]. apply fenced_after; [frozen|intros _]. apply fenced_after.
  { apply keeps_try_except; [apply frozen_dispatch|]. intros e. apply keeps_bind; [apply frozen_failure|intros _]. frozen. }
  intros out. apply fenced_after; [frozen|intros audit]. apply fenced_bind, fenced_held.
Qed.
Lemma fenced_advance st : fenced (advance env currency_codes prompt default_ontology deps_ontology evidence_loader crash_after_stages req st).
Proof. apply fenced_bind, fenced_held. Qed.
Lemma fenced_finish s c e : fenced (finish env req s c e).
Proof. apply fenced_held. Qed.
Lemma frozen_handle e : keeps frozen (handle env req e).
Proof. apply fenced_keeps. destruct e as [[]|x| |]; try apply fenced_finish; try apply fenced_bind, fenced_finish. by intros w Hw. Qed.
Lemma fenced_finalize : fenced (finalize_success env req).
Proof. apply fenced_held. Qed.
End frozen.

Definition unwritten (w : world T) {A} (r : result failure A * world T) : Prop := durable (snd r) = durable w ∧ lost (snd r).
Definition halted (w : world T) {A} (r : result failure A * world T) : Prop := unwritten w r ∧ ∀ a, fst r ≠ Ok a.

(** C3: A worker that has lost its lease changes nothing others see.  From the moment the
    lease is gone, a stage in flight ends in an error with no checkpoint, proposal,
    conflict or status written, even if its model call was paid for; and so do the
    next stage, the end of the run and the handlers of its exceptions. *)
Theorem lost_lease_writes_nothing (w : world T) (st : stage) (hash : string) (e : failure) :
  lost w →
  halted w (execute_stage env currency_codes prompt default_ontology deps_ontology evidence_loader crash_after_stages req st hash w) ∧
  halted w (advance env currency_codes prompt default_ontology deps_ontology evidence_loader crash_after_stages req st w) ∧
  halted w (finalize_success env req w) ∧ unwritten w (handle env req e w) ∧ unwritten w (flush_usage env req w).
Proof.
  intros Hlost. assert (Hw : frozen w w) by done.
  assert (Hkeeps : ∀ A (m : eff (world T) failure A), keeps (frozen w) m → unwritten w (m w)) by (intros A m Hm; destruct (Hm w Hw); by split).
  assert (Hfenced : ∀ A (m : eff (world T) failure A), fenced w m → halted w (m w)) by (intros A m Hm; destruct (Hm w Hw) as [[? ?] ?]; by repeat split).
  split_and!; [apply Hfenced, fenced_execute|apply Hfenced, fenced_advance|apply Hfenced, fenced_finalize|apply Hkeeps, frozen_handle|apply Hkeeps, frozen_flush].
Qed.
End lease.

(** * The theorems at a run *)

Definition safety_environment (held : bool) : environment := Environment (λ _, false) (λ _, held) (λ _, false) (λ _, SF64 0 0) (λ _ _, None).
Definition safety_request : run_request :=
  RunRequest "run-1" "org-1" "ws-1" "entity-1" [] (Moment (Date 2025 1 31) 0 (Some 0)) "corpus-1" "saas/v1" WORKFLOW_VERSION "mock" "mock-1" [] "sha256:0"
    10 100000 20000 (Dec false 200 (-2)) 600 "Issuer".
Definition safety_draft (id metric : string) : draft :=
  Draft "kpi" metric [] "sha256:1" "sha256:2" (Some "key") [] (Summary true [] false) Normal [] id.

Definition no_stores : persist_store := PersistStore ∅ ∅ ∅ ∅.
Definition safety_start (p : persist_store) : world memory_checkpoint :=
  World (Runtime 0 (RunBudget 0 0 0 (Dec false 0 0) 0 0 0 0 (Dec false 0 0) (SF64 0 0) (SF64 0 0)))
    (WorkflowState (Extraction [] [] [] [] [] [] []) [] Queued None false no_usage) 0 0 None (MemoryCheckpoint ∅ ∅) [] p.

(** the second draft comes with the first one's id, and the first is kept *)
Lemma persist_proposals_idempotent_witness :
  let drafts := [safety_draft "p-1" "arr"; safety_draft "p-1" "nrr"; safety_draft "" "arr"] in
  ∃ persisted p', d_metric <$> persisted = ["arr"; "arr"; "arr"]%string ∧
    persist_proposals "run-1" drafts p' = (Ok persisted, p') ∧ length persisted = length drafts.
Proof.
  intros drafts. destruct (persist_proposals "run-1" drafts no_stores) as [[ys|e] p'] eqn:Hrun; [|vm_compute in Hrun; discriminate].
  exists ys, p'. split.
  - assert (Hys : match fst (persist_proposals "run-1" drafts no_stores) with Ok l => d_metric <$> l = ["arr"; "arr"; "arr"]%string | Err _ => False end)
      by (vm_compute; reflexivity). by rewrite Hrun in Hys.
  - exact (persist_proposals_idempotent "run-1" drafts no_stores p' ys Hrun).
Defined.

(** an attempt at a cancelled run: it fails, and the run stays cancelled *)
Lemma closed_run_stays_closed_witness :
  let w := safety_start (PersistStore ∅ ∅ {["run-1"%string := RunCancelled]} ∅) in
  p_run_status (w_persist (snd (run_extraction_workflow (safety_environment true) [] (λ _, "") [] None None None safety_request w))) !! "run-1" =
  Some RunCancelled.
Proof.
  intros w. apply (closed_run_stays_closed (safety_environment true) [] (λ _, "") [] None None None safety_request w RunCancelled).
  - apply (bool_decide_unpack _). vm_compute. exact I.
  - vm_compute. reflexivity.
Defined.

Lemma lost_lease_writes_nothing_witness :
  let w := safety_start no_stores in
  halted (safety_environment false) w (advance (safety_environment false) [] (λ _, "") [] None None None safety_request ValidateRequest w).
Proof.
  intros w. apply (lost_lease_writes_nothing (safety_environment false) [] (λ _, "") [] None None None safety_request w ValidateRequest "sha256:0" InjectedCrash).
  intros n _. reflexivity.
Defined.
