(* ===== verification/WorkflowLive.v ===== *)
(** A worker that keeps its lease and is not killed brings the run to rest: whatever
    the provider answers and whatever a stage raises, the stored status is a resting
    one when the attempt is over. *)

From Stdlib Require Import SpecFloat.
From S2P Require Import Prelude Effects Dicts Text Floats Decimals Periods Canonical Moments Payload Ontology Numeric Normalize Citations Proposals Messages Budget Runner RunnerSound Workflow Stages WorkflowRun WorkflowResume WorkflowSafety.
Local Open Scope Z_scope.

(** * What a stage may raise *)

(** a failure the run's handlers close the run for *)
Definition mild (e : failure) : Prop := e ≠ Killed ∧ e ≠ Typed LeaseLost.

Definition tame {A} (r : result failure A) : Prop := ∀ e, r = Err e → mild e.

Lemma tame_ok {A} (a : A) : tame (Ok a).
Proof. by intros e. Qed.
Lemma tame_typed {A} c : c ≠ LeaseLost → tame (Err (A := A) (Typed c)).
Proof. intros Hc e [= <-]. split; congruence. Qed.
Lemma tame_untyped {A} (r : checked A) : tame (map_err Untyped r).
Proof. intros e. destruct r; cbn; [done|]. intros [= <-]. by split. Qed.
Lemma tame_error {A} x : tame (Err (A := A) (Untyped x)).
Proof. intros e [= <-]. by split. Qed.
Lemma tame_bind {A B} (r : result failure A) (f : A → result failure B) : tame r → (∀ a, tame (f a)) → tame (r ≫= f).
Proof. intros Hr Hf e. destruct r as [a|e']; cbn; [apply Hf|]. intros [= <-]. by apply Hr. Qed.
Lemma tame_ensure b c : c ≠ LeaseLost → tame (ensure b (Typed c)).
Proof. intros Hc. destruct b; [apply tame_ok|by apply tame_typed]. Qed.
Lemma tame_for_each {A} (f : A → result failure unit) l : (∀ x, tame (f x)) → tame (for_each f l).
Proof. intros Hf. induction l as [|x l IH]; cbn [for_each]; [apply tame_ok|]. apply tame_bind; [apply Hf|]. by intros _. Qed.
Lemma tame_mapM {A B} (f : A → result failure B) l : (∀ x, tame (f x)) → tame (mapM f l).
Proof. intros Hf. induction l as [|x l IH]; cbn [mapM]; [apply tame_ok|]. apply tame_bind; [apply Hf|]. intros y. apply tame_bind; [exact IH|]. intros ys. apply tame_ok. Qed.

Ltac tame :=
  repeat first [ apply tame_ok | apply tame_untyped | apply tame_error | by apply tame_ensure | by apply tame_typed | by intros ? [=]
    | apply tame_for_each; intros ? | apply tame_mapM; intros ? | apply tame_bind; [|intros ?] | case_match ].

Lemma tame_assemble req blocks : tame (stage_assemble_evidence req blocks).
Proof. unfold stage_assemble_evidence, check_block. tame. Qed.

Lemma tame_validated currency_codes req o s : tame (validate_normalized currency_codes req o s).
Proof. unfold validate_normalized. tame. Qed.

Lemma tame_restore currency_codes req o st out s : tame (restore_output currency_codes req o st out s).
Proof.
  assert (Hblock : ∀ v, tame (restore_block v)).
  { intros [| | | | | |p]; cbn [restore_block]; tame. unfold from_option_err. tame. }
  assert (∀ l, tame (restore_evidence l)) by (intros l; unfold restore_evidence; apply tame_bind; [by apply tame_mapM|]; intros ?; tame).
  destruct st, out; cbn [restore_output]; tame; first [done|by apply tame_validated].
Qed.

(** * Calls of a worker that holds its lease *)

Section live.
Context (env : environment) (currency_codes : list string) (prompt : role → string) (default_ontology : ontology) (deps_ontology : option ontology)
  (evidence_loader : option (run_request → list evidence_block)) (crash_after_stages : option nat) (req : run_request).

Definition undisturbed : Prop := ∀ n, killed env n = false ∧ lease_check env n = true.

Context (Hlive : undisturbed).

(** the call raises only what the handlers close the run for *)
Definition spares {S A} (m : eff S failure A) : Prop := ∀ s, tame (fst (m s)).

Lemma spares_ret {S A} (a : A) : spares (S := S) (mret a).
Proof. intros s. apply tame_ok. Qed.
Lemma spares_reads {S A} (f : S → A) : spares (reads f).
Proof. intros s. apply tame_ok. Qed.
Lemma spares_writes {S} (f : S → S) : spares (writes f).
Proof. intros s. apply tame_ok. Qed.
Lemma spares_pure {S A} (r : result failure A) : tame r → spares (S := S) (pure r).
Proof. by intros Hr s. Qed.
Lemma spares_raise {S A} e : mild e → spares (S := S) (raise (A := A) e).
Proof. intros He s. by intros e' [= <-]. Qed.
Lemma spares_raise_if {S} b e : mild e → spares (S := S) (raise_if b e).
Proof. intros He s. destruct b; [by intros e' [= <-]|apply tame_ok]. Qed.
Lemma spares_bind {S A B} (m : eff S failure A) (f : A → eff S failure B) : spares m → (∀ a, spares (f a)) → spares (m ≫= f).
Proof. intros Hm Hf s. specialize (Hm s). unfold mbind, eff_bind. destruct (m s) as [[a|e] s1]; [apply Hf|]. intros e' [= <-]. by apply Hm. Qed.
Lemma spares_zoom {S W A} (part : W → S) put (m : eff S failure A) : spares m → spares (zoom part put m).
Proof. intros Hm w. specialize (Hm (part w)). unfold zoom. by destruct (m (part w)). Qed.
Lemma spares_observe {A} (f : nat → A) : spares (observe env f).
Proof using Hlive. intros s. unfold observe. rewrite (proj1 (Hlive _)). apply tame_ok. Qed.

Notation effect := (eff (world memory_checkpoint) failure).

Lemma spares_held {A} (f : unit → effect A) : spares (f tt) → spares (lease env ≫= λ held, raise_if (negb held) (Typed LeaseLost) ≫= f).
Proof using Hlive.
  intros Hf w. unfold lease, on_runtime, mbind, eff_bind, zoom, observe. destruct (Hlive (ticks (w_runtime w))) as [-> ->]. apply Hf.
Qed.

Lemma mild_typed c : c ≠ LeaseLost → mild (Typed c).
Proof. split; congruence. Qed.
Lemma mild_untyped x : mild (Untyped x).
Proof. by split. Qed.
Lemma mild_crash : mild InjectedCrash.
Proof. by split. Qed.

Ltac spares :=
  repeat first
    [ apply spares_held | apply spares_ret | apply spares_reads | apply spares_writes | apply spares_observe | apply spares_pure; by tame
    | apply spares_raise; first [by apply mild_typed | apply mild_untyped | apply mild_crash]
    | apply spares_raise_if; first [by apply mild_typed | apply mild_untyped | apply mild_crash]
    | apply spares_zoom | apply spares_bind; [|intros ?] | case_match ].

Lemma spares_append e : spares (S := world memory_checkpoint) (append env e).
Proof using Hlive. unfold append, reach, on_runtime. spares. Qed.
Lemma spares_checkpoint {A} (f : memory_checkpoint → A * memory_checkpoint) : spares (on_checkpoint env f).
Proof using Hlive. unfold on_checkpoint, reach, on_runtime. spares. intros t. destruct (f t). apply tame_ok. Qed.
Lemma spares_persist {A} (f : persist_store → result failure A * persist_store) : (∀ p, tame (fst (f p))) → spares (S := world memory_checkpoint) (on_persist env f).
Proof using Hlive. intros Hf. unfold on_persist, reach, on_runtime. spares. exact Hf. Qed.

Lemma tame_write_all {A} (f : persist_store → A → result failure (A * persist_store)) l : (∀ p x, tame (f p x)) → ∀ p, tame (fst (write_all f l p)).
Proof.
  intros Hf. induction l as [|x l IH]; intros p; cbn [write_all]; [apply tame_ok|]. specialize (Hf p x). destruct (f p x) as [[y p']|e].
  - specialize (IH p'). destruct (write_all f l p') as [r p'']. cbn in *. apply tame_bind; [done|]. intros ?. apply tame_ok.
  - intros e' [= <-]. by apply Hf.
Qed.
Lemma tame_persist_proposals drafts p : tame (fst (persist_proposals (run_id req) drafts p)).
Proof. apply tame_write_all. clear p. intros p d. unfold persist_proposal, ensure_needs_review, ensure. tame. Qed.
Lemma tame_persist_conflicts found p : tame (fst (persist_conflicts found p)).
Proof. apply tame_write_all. clear p. intros p c. unfold persist_conflict, ensure. tame. Qed.

Ltac calls := repeat first
  [ apply spares_append | apply spares_checkpoint | apply spares_persist; first [apply tame_persist_proposals | apply tame_persist_conflicts | intros ?; apply tame_ok]
  | progress spares ].

Lemma spares_attempts spec provider_ref model_ref n left attempt messages log problems : spares (attempts env spec provider_ref model_ref n left attempt messages log problems).
Proof using Hlive.
  revert attempt messages log problems. induction left as [|left IH]; intros attempt messages log problems; cbn [attempts]; [spares|].
  apply spares_bind; [unfold call_provider, precheck, record, add_cost, wall_cap_reached, elapsed_seconds, from_option_err; spares|].
  intros r. spares. apply IH.
Qed.

Lemma spares_usage : spares (S := world memory_checkpoint) (record_run_usage env req).
Proof using Hlive.
  unfold record_run_usage, on_runtime, elapsed_seconds, the_budget. calls.
Qed.
Lemma spares_role r step : spares (S := world memory_checkpoint) (run_role env prompt req r step).
Proof using Hlive.
  unfold run_role, working, the_budget, put_audit, count_model_calls, on_state, put_work. do 2 (apply spares_bind; [spares|intros ?]). apply spares_bind.
  { apply spares_zoom. unfold run_model_step. apply spares_bind; [spares|intros ?]. apply spares_bind; [apply spares_attempts|intros [[? ?] ?]]. spares. }
  intros ?. do 4 (apply spares_bind; [spares|intros ?]). apply spares_bind; [apply spares_usage|intros _]. unfold on_state. spares.
Qed.
Lemma spares_persist_stage : spares (S := world memory_checkpoint) (stage_persist env req).
Proof using Hlive.
  unfold stage_persist, persist_outputs_atomic, working. apply spares_held. apply spares_bind; [spares|intros s]. apply spares_bind; [|intros [? ?]; spares]. apply spares_bind; [calls|intros ?]. apply spares_bind; [calls|intros ?]. apply spares_bind; [calls|intros ?]. apply spares_bind; [calls|intros ?]. calls.
Qed.
Lemma spares_dispatch st :
  spares (S := world memory_checkpoint) (dispatch_stage env currency_codes prompt default_ontology deps_ontology evidence_loader req st).
Proof using Hlive.
  destruct st; cbn [dispatch_stage]; try apply spares_role; try apply spares_persist_stage; unfold computed, working, put_work, on_state;
    repeat first [progress spares | apply spares_pure; first [apply tame_bind; [apply tame_assemble|tame] | tame] ].
  all: try apply tame_validated.
Qed.

Lemma spares_lease {A} (f : bool → effect A) : spares (f true) → spares (lease env ≫= f).
Proof using Hlive.
  intros Hf w. unfold lease, on_runtime, mbind, eff_bind, zoom, observe. destruct (Hlive (ticks (w_runtime w))) as [-> ->]. apply Hf.
Qed.

Lemma spares_failure st hash e : spares (S := world memory_checkpoint) (record_stage_failure env req st hash e).
Proof using Hlive.
  apply spares_lease. cbn [negb]. apply spares_bind; [apply spares_checkpoint|]. intros [x|x]; [|spares].
  apply spares_bind; [unfold on_state; spares|intros _; apply spares_append].
Qed.

Lemma spares_stored {A B} (f : memory_checkpoint → result failure A * memory_checkpoint) (g : A → effect B) :
  (∀ t, tame (fst (f t))) → (∀ a, spares (g a)) → spares (on_checkpoint env f ≫= λ stored, pure stored ≫= g).
Proof using Hlive.
  intros Hf Hg w. unfold on_checkpoint, reach, on_runtime, mbind, eff_bind, zoom, observe, pure. destruct (Hlive (ticks (w_runtime w))) as [-> _]. cbn.
  specialize (Hf (w_checkpoint w)). destruct (f (w_checkpoint w)) as [[a|e] t]; [apply Hg|]. intros e' [= <-]. by apply Hf.
Qed.

Lemma spares_commit r : spares (S := world memory_checkpoint) (commit_stage env req r).
Proof using Hlive.
  apply spares_stored; [|intros x; apply spares_bind; [apply spares_append|intros _; apply spares_ret]].
  intros t. cbn. unfold memory_commit. repeat case_match; first [apply tame_ok|apply tame_error].
Qed.

Lemma spares_fence : spares (S := world memory_checkpoint) (commit_fence env).
Proof using Hlive. apply spares_held. unfold cancelled, on_runtime. spares. Qed.

Lemma spares_try {S A} (m : eff S failure A) caught h : spares m → (∀ e, mild e → spares (h e)) → spares (try_except caught m h).
Proof.
  intros Hm Hh s. specialize (Hm s). unfold try_except. destruct (m s) as [[a|e] s1]; [apply tame_ok|].
  destruct (caught e); [apply Hh; by apply Hm|by intros e' [= <-]; apply Hm].
Qed.

Lemma spares_execute st hash : spares (S := world memory_checkpoint)
  (execute_stage env currency_codes prompt default_ontology deps_ontology evidence_loader crash_after_stages req st hash).
Proof using Hlive.
  unfold execute_stage. apply spares_bind; [apply spares_append|intros _]. apply spares_bind; [unfold put_audit; spares|intros _]. apply spares_bind.
  { apply spares_try; [apply spares_dispatch|]. intros e He. apply spares_bind; [apply spares_failure|intros _]. by apply spares_raise. }
  intros out. apply spares_bind; [spares|intros audit]. apply spares_bind; [apply spares_fence|intros _]. apply spares_bind; [apply spares_commit|intros r].
  unfold on_state, count_committed. spares.
Qed.

Lemma spares_run_stage st : spares (S := world memory_checkpoint)
  (run_stage env currency_codes prompt default_ontology deps_ontology evidence_loader crash_after_stages req st).
Proof using Hlive.
  unfold run_stage, working. apply spares_bind; [spares|intros s]. apply spares_bind; [apply spares_checkpoint|intros existing]. apply spares_bind.
  { destruct existing as [r|]; [|spares]. case_bool_decide; [|spares]. unfold is_recoverable, reject_checkpoint.
    repeat first [apply spares_checkpoint | apply spares_append | apply spares_ret | apply spares_bind; [|intros ?] | case_match]. }
  intros usable. destruct existing as [r|]; [|apply spares_execute]. destruct usable; [|apply spares_execute].
  apply spares_bind; [unfold on_state; spares|intros _]. apply spares_bind; [apply spares_pure, tame_restore|intros ?]. unfold put_work, on_state. spares.
Qed.

Lemma spares_advance st : spares (S := world memory_checkpoint)
  (advance env currency_codes prompt default_ontology deps_ontology evidence_loader crash_after_stages req st).
Proof using Hlive.
  unfold advance. apply spares_bind; [|intros _; destruct (should_skip_mode_stage req st); [unfold mark_skipped, on_state; spares|apply spares_run_stage]].
  apply spares_held. unfold cancelled, on_runtime, wall_cap_reached, elapsed_seconds. spares.
Qed.

Lemma spares_loop l : spares (S := world memory_checkpoint)
  (for_loop (advance env currency_codes prompt default_ontology deps_ontology evidence_loader crash_after_stages req) l).
Proof using Hlive. induction l as [|st l IH]; [apply spares_ret|]. cbn [for_loop]. apply spares_bind; [apply spares_advance|]. by intros _. Qed.

Lemma spares_stages : spares (S := world memory_checkpoint)
  (stages_then_flush env currency_codes prompt default_ontology deps_ontology evidence_loader crash_after_stages req).
Proof using Hlive.
  intros w. unfold stages_then_flush, try_finally.
  match goal with |- context [match ?m w with _ => _ end] => assert (Hm : spares m) end.
  { apply spares_bind; [spares|intros _; apply spares_loop]. }
  assert (Hflush : spares (S := world memory_checkpoint) (flush_usage env req)) by (apply spares_lease, spares_usage).
  specialize (Hm w). match goal with |- context [match ?m with _ => _ end] => destruct m as [[u|e] w1] end.
  - specialize (Hflush w1). destruct (flush_usage env req w1) as [[[]|e] w2]; [apply tame_ok|]. intros e' [= <-]. by apply Hflush.
  - destruct (alive e); [|intros e' [= <-]; by apply Hm]. specialize (Hflush w1). destruct (flush_usage env req w1) as [[[]|e1] w2]; intros e' [= <-]; [by apply Hm|by apply Hflush].
Qed.

(** * The end of an attempt *)

Definition unclosed (p : persist_store) : Prop := ∀ s, p_run_status p !! run_id req = Some s → s ∉ TERMINAL_RUN_STATUSES.

(** a status that a worker leaves behind *)
Definition RESTING : list run_status := [WaitingReview; Succeeded; Failed; RunCancelled].

Definition at_rest (w : world memory_checkpoint) : Prop := ∃ s, p_run_status (w_persist w) !! run_id req = Some s ∧ s ∈ RESTING ∧ run_state (w_state w) = s.

Lemma set_status_unclosed s p : unclosed p → set_run_status (run_id req) s p =
  (Ok tt, PersistStore (p_proposals p) (p_conflicts p) (<[run_id req := s]> (p_run_status p)) (p_usage p)).
Proof.
  intros Hp. unfold set_run_status. destruct (p_run_status p !! run_id req) as [x|] eqn:Hx; [|done]. rewrite bool_decide_false; [done|]. by apply Hp.
Qed.

Ltac lives := repeat match goal with |- context [killed env ?n] => rewrite (proj1 (Hlive n)) | |- context [lease_check env ?n] => rewrite (proj2 (Hlive n)) end.

Ltac runs := unfold lease, on_runtime, on_state, on_persist, append, reach, working, raise_if, mbind, eff_bind, mret, eff_ret, zoom, observe, reads, writes, raise; cbn; lives; cbn; lives.

Lemma finish_rests s c e w : s ∈ RESTING → unclosed (w_persist w) → at_rest (snd (finish env req s c e w)).
Proof using Hlive.
  intros Hs Hw. unfold finish. runs. rewrite set_status_unclosed by exact Hw. exists s. split; [apply lookup_insert_eq|done].
Qed.

Lemma finalize_rests w : unclosed (w_persist w) → at_rest (snd (finalize_success env req w)) ∧ fst (finalize_success env req w) = Ok tt.
Proof using Hlive.
  intros Hw. unfold finalize_success. runs. destruct (validated (work (w_state w))); runs; rewrite set_status_unclosed by exact Hw; cbn; lives; cbn;
    (split; [|done]); eexists; (split; [apply lookup_insert_eq|split; [|done]]); set_solver.
Qed.

Lemma handle_rests e w : mild e → unclosed (w_persist w) → at_rest (snd (handle env req e w)).
Proof using Hlive.
  intros [Hkilled Hlost] Hw.
  assert (Hinternal : ∀ e', at_rest (snd ((finish env req Failed "internal_error" (RunFailed "internal_error") ≫= λ _, raise (A := unit) e') w))).
  { intros e'. pose proof (finish_rests Failed "internal_error" (RunFailed "internal_error") w ltac:(set_solver) Hw) as H. unfold mbind, eff_bind.
    by destruct (finish env req Failed "internal_error" (RunFailed "internal_error") w) as [[]]. }
  destruct e as [c|x| |]; cbn [handle]; [|apply Hinternal..]. destruct c; first [done | apply finish_rests; [set_solver|exact Hw]].
Qed.

Notation holds := (λ w : world memory_checkpoint, unclosed (w_persist w)).

Lemma stages_unclosed : keeps holds (stages_then_flush env currency_codes prompt default_ontology deps_ontology evidence_loader crash_after_stages req).
Proof.
  assert (Hsame : ∀ p p', p_run_status p' = p_run_status p → unclosed p → unclosed p') by (unfold unclosed; intros p p' ->; done).
  apply keeps_try_finally.
  - apply keeps_bind; [apply keeps_raise_if|intros _]. apply keeps_for_loop. intros st. unfold advance, boundary, lease, cancelled.
    apply keeps_bind; [repeat first [apply walk_runtime | apply keeps_raise_if | apply keeps_bind; [|intros ?]]|intros _].
    destruct (should_skip_mode_stage req st); [by apply keeps_writes|].
    apply walk_stage; intros; [eapply Hsame, H; apply persist_proposals_grows|eapply Hsame, H; apply persist_conflicts_grows|done].
  - unfold flush_usage, lease. apply keeps_bind; [apply walk_runtime|]. intros [|]; [by apply walk_usage|apply keeps_ret].
Qed.

Lemma body_rests w : unclosed (w_persist w) →
  at_rest (snd (body env currency_codes prompt default_ontology deps_ontology evidence_loader crash_after_stages req w)).
Proof using Hlive.
  intros Hw. pose proof (stages_unclosed w Hw) as Hopen. pose proof (spares_stages w) as Hmild. unfold body, try_except, mbind, eff_bind.
  destruct (stages_then_flush env currency_codes prompt default_ontology deps_ontology evidence_loader crash_after_stages req w) as [[[]|e] w1]; cbn in *.
  - destruct (finalize_rests w1 Hopen) as [Hrest Hok]. destruct (finalize_success env req w1) as [r w2]. cbn in *. by subst r.
  - specialize (Hmild e eq_refl). unfold alive. rewrite bool_decide_false by apply Hmild. by apply handle_rests.
Qed.

Lemma report_rests w : at_rest w → at_rest (snd (report_usage w)).
Proof. done. Qed.
End live.

(** C2: Over the in-memory checkpoint and persistence stores, whose own calls never
    raise, a run that is not already closed and whose worker is not killed and keeps
    its lease comes to rest: whatever its provider answers, whatever its evidence and
    checkpoints hold, whatever a stage raises or a cancellation asks, the attempt
    leaves the run waiting for review, succeeded, failed or cancelled in the store,
    and reports that status. *)
Theorem held_run_comes_to_rest (env : environment) (currency_codes : list string) (prompt : role → string) (default_ontology : ontology)
  (deps_ontology : option ontology) (evidence_loader : option (run_request → list evidence_block)) (crash_after_stages : option nat) (req : run_request)
  (w : world memory_checkpoint) :
  (∀ n, killed env n = false ∧ lease_check env n = true) → unclosed req (w_persist w) →
  at_rest req (snd (run_extraction_workflow env currency_codes prompt default_ontology deps_ontology evidence_loader crash_after_stages req w)).
Proof.
  intros Hlive Hw. pose proof (λ w, body_rests env currency_codes prompt default_ontology deps_ontology evidence_loader crash_after_stages req Hlive w) as Hbody.
  unfold run_extraction_workflow. unfold on_persist, append, reach, on_runtime, on_state, mbind, eff_bind, zoom, observe, reads, writes, mret, eff_ret. cbn.
  rewrite (proj1 (Hlive (ticks (w_runtime w)))). cbn. rewrite (proj1 (Hlive (S (ticks (w_runtime w))))). cbn. rewrite (proj1 (Hlive (S (S (ticks (w_runtime w)))))). cbn.
  unfold try_finally. match goal with |- context [body _ _ _ _ _ _ _ _ ?w] => specialize (Hbody w Hw); destruct (body env currency_codes prompt default_ontology deps_ontology evidence_loader crash_after_stages req w) as [[[]|e] w1] end.
  - by apply report_rests.
  - destruct (alive e); [|done]. by apply report_rests.
Qed.

(** a provider that always fails: the run is closed as failed *)
Definition live_request : run_request :=
  RunRequest "run-1" "org-1" "ws-1" "entity-1" ["kpi"%string] (Moment (Date 2025 1 31) 0 (Some 0)) "corpus-1" "saas/v1" WORKFLOW_VERSION "mock" "mock-1" [] "sha256:0"
    10 100000 20000 (Dec false 200 (-2)) 600 "Issuer".

Lemma held_run_comes_to_rest_witness :
  at_rest live_request (snd (run_extraction_workflow (safety_environment true) [] (λ _, "") [] None None None live_request (safety_start no_stores))).
Proof.
  apply (held_run_comes_to_rest (safety_environment true) [] (λ _, "") [] None None None live_request (safety_start no_stores)).
  - intros n. split; reflexivity.
  - intros s Hs. vm_compute in Hs. discriminate.
Defined.

Example failing_provider_closes_run :
  p_run_status (w_persist (snd (run_extraction_workflow (safety_environment true) [] (λ _, "") [] None None None live_request (safety_start no_stores)))) !! "run-1" = Some Failed.
Proof. vm_compute. reflexivity. Qed.
