(* ===== verification/Queue.v ===== *)
(** [workers/src/fel_workers/queue.py]: the PostgreSQL job queue.

    The [jobs] table is the list of its rows; every function is the SQL
    statement it runs, on the table and the transaction's [now()].  The clock,
    the uuids and the draws of the random generator are arguments.  Rows locked
    by concurrent transactions are an argument of [claim_one], which skips them.
    Backoff delays are computed in binary64, with the operations of
    [SpecFloat]. *)

From Stdlib Require Import SpecFloat.
From S2P Require Import Prelude Floats Canonical.
Local Open Scope Z_scope.

(** * Retry backoff *)

Definition HEARTBEAT_STALE_SECONDS : Z := 60.
Definition RETRY_BACKOFF_BASE_SECONDS : spec_float := SF64 5 0.
Definition RETRY_BACKOFF_FACTOR : spec_float := SF64 2 0.
Definition RETRY_BACKOFF_CAP_SECONDS : spec_float := SF64 900 0.
Definition RETRY_BACKOFF_JITTER : spec_float := SF64 1 (-2).

Inductive queue_error := OverflowError | CheckViolation.

#[export] Instance queue_error_eq_dec : EqDecision queue_error.
Proof. solve_decision. Defined.

(** [2.0 ** exponent] for a nonnegative [int] *)
Definition pow2 (exponent : Z) : result queue_error spec_float :=
  if exponent <=? 1023 then Ok (SF64 1 exponent) else Err OverflowError.

Definition base_delay (attempts : Z) : result queue_error spec_float :=
  let exponent := Z.max (attempts - 1) 0 in
  p ← pow2 exponent;
  Ok (fmin (fmul RETRY_BACKOFF_BASE_SECONDS p) RETRY_BACKOFF_CAP_SECONDS).

Definition jittered (delay draw : spec_float) : spec_float :=
  fmul delay (fadd (SF64 1 0) (fmul RETRY_BACKOFF_JITTER (fsub (fmul (SF64 2 0) draw) (SF64 1 0)))).

Definition backoff_seconds (attempts : Z) (draw : spec_float) : result queue_error spec_float :=
  delay ← base_delay attempts;
  Ok (fmax (SF64 0 0) (fmin (jittered delay draw) RETRY_BACKOFF_CAP_SECONDS)).

(** * The table *)

Inductive job_status := queued | running | succeeded | failed | cancelled.

#[export] Instance job_status_eq_dec : EqDecision job_status.
Proof. solve_decision. Defined.

Definition terminal_status (s : job_status) : bool :=
  match s with succeeded | failed | cancelled => true | queued | running => false end.

Record job := Job {
  id : string; kind : string; queue : string; priority : Z; status : job_status; attempts : Z; max_attempts : Z;
  idempotency_key : option string; payload : json; org_id : option string; lease : option string;
  heartbeat_at : option Z; created_at : Z; available_at : Z; started_at : option Z; finished_at : option Z;
  error : option json; cancel_requested_at : option Z;
}.

Notation table := (list job).

Record claimed_job := ClaimedJob {
  cj_id : string; cj_kind : string; cj_queue : string; cj_payload : json; cj_attempts : Z; cj_max_attempts : Z;
  cj_lease : string; cj_org_id : option string;
}.

(** [UPDATE jobs SET ... WHERE p]: the new table and [cur.rowcount] *)
Definition update_where (p : job → bool) (f : job → job) (t : table) : table * nat :=
  ((λ j, if p j then f j else j) <$> t, length (filter (λ j, p j = true) t)).

Section queue.
(** [make_interval(secs => x)], in microseconds, and the message sanitizer *)
Variable make_interval : spec_float → Z.
Variable redact_job_error_text : string → string.

Definition envelope (code message request_id : string) : json :=
  JObj [("error", JObj [("code", JStr code); ("message", JStr message); ("request_id", JStr request_id)])]%string.

Definition same_scope (org : option string) (k : string) (key : string) (j : job) : bool :=
  bool_decide (org_id j = org ∧ kind j = k ∧ idempotency_key j = Some key).

Definition new_job (job_id k q : string) (prio : Z) (p : json) (org key : option string) (max : Z) (now : Z) : job :=
  Job job_id k q prio queued 0 max key p org None None now now None None None None.

(** The CHECK constraints of the table hold of the proposed row before any
    conflict is looked for. *)
Definition enqueue (job_id : string) (now : Z) (t : table) (k : string) (p : json) (q : string) (prio : Z)
    (key : option string) (max : Z) (org : option string) : result queue_error (table * string) :=
  if negb ((0 <=? prio) && (prio <=? 9) && (1 <=? max)) then Err CheckViolation else
  let row := new_job job_id k q prio p org key max now in
  match key with
  | None => Ok (t ++ [row], job_id)
  | Some key =>
      match filter (λ j, same_scope org k key j = true) t with
      | existing :: _ => Ok (t, id existing)
      | [] => Ok (t ++ [row], job_id)
      end
  end.

(** [ORDER BY priority, created_at] *)
Definition claim_leb (a b : job) : bool :=
  if decide (priority a = priority b) then created_at a <=? created_at b else priority a <=? priority b.
Definition claim_le (a b : job) : Prop := claim_leb a b = true.
#[export] Instance claim_le_dec : RelDecision claim_le.
Proof using Type. intros a b. unfold claim_le. apply _. Defined.

Definition claimable (q : string) (now : Z) (locked : list string) (j : job) : bool :=
  bool_decide (queue j = q ∧ status j = queued ∧ available_at j ≤ now ∧ id j ∉ locked).

Definition start_job (lease_id : string) (now : Z) (j : job) : job :=
  Job (id j) (kind j) (queue j) (priority j) running (attempts j + 1) (max_attempts j) (idempotency_key j) (payload j)
    (org_id j) (Some lease_id) (Some now) (created_at j) (available_at j) (Some now) (finished_at j) (error j) (cancel_requested_at j).

Definition claim_one (lease_id : string) (now : Z) (locked : list string) (t : table) (q : string) : table * option claimed_job :=
  match py_sorted claim_le (filter (λ j, claimable q now locked j = true) t) with
  | [] => (t, None)
  | row :: _ =>
      ((update_where (λ j, bool_decide (id j = id row)) (start_job lease_id now) t).1,
       Some (ClaimedJob (id row) (kind row) (queue row) (payload row) (attempts row + 1) (max_attempts row) lease_id (org_id row)))
  end.

(** [WHERE id = %s AND lease = %s AND status = 'running'] *)
Definition owned (c : claimed_job) (j : job) : bool :=
  bool_decide (id j = cj_id c ∧ lease j = Some (cj_lease c) ∧ status j = running).

Definition fenced (c : claimed_job) (f : job → job) (t : table) : table * bool :=
  let '(t', n) := update_where (owned c) f t in (t', (0 <? n)%nat).

Definition beat (now : Z) (j : job) : job :=
  Job (id j) (kind j) (queue j) (priority j) (status j) (attempts j) (max_attempts j) (idempotency_key j) (payload j)
    (org_id j) (lease j) (Some now) (created_at j) (available_at j) (started_at j) (finished_at j) (error j) (cancel_requested_at j).

Definition heartbeat (now : Z) (c : claimed_job) (t : table) : table * bool := fenced c (beat now) t.

(** a terminal write: status, [finished_at], the error envelope, no lease *)
Definition finish (s : job_status) (now : Z) (err : option json) (j : job) : job :=
  Job (id j) (kind j) (queue j) (priority j) s (attempts j) (max_attempts j) (idempotency_key j) (payload j)
    (org_id j) None (heartbeat_at j) (created_at j) (available_at j) (started_at j) (Some now)
    (match err with Some e => Some e | None => error j end) (cancel_requested_at j).

Definition complete (now : Z) (c : claimed_job) (t : table) : table * bool := fenced c (finish succeeded now None) t.

Definition fail_row (terminal : bool) (now available : Z) (err : json) (j : job) : job :=
  Job (id j) (kind j) (queue j) (priority j) (if terminal then failed else queued) (attempts j) (max_attempts j)
    (idempotency_key j) (payload j) (org_id j) None (heartbeat_at j) (created_at j) available (started_at j)
    (if terminal then Some now else None) (Some err) (cancel_requested_at j).

(** [fail(conn, job, message, now=now_arg, rng=...)] *)
Definition fail (now : Z) (c : claimed_job) (message : string) (now_arg : option Z) (draw : spec_float) (t : table)
    : result queue_error (table * bool) :=
  let terminal := cj_max_attempts c <=? cj_attempts c in
  delay ← (if terminal then Ok (SF64 0 0) else backoff_seconds (cj_attempts c) draw);
  let available := default now now_arg + make_interval delay in
  Ok (fenced c (fail_row terminal now available (envelope "JOB_FAILED" (redact_job_error_text message) (cj_id c))) t).

Definition terminal_write (now : Z) (c : claimed_job) (s : job_status) (code message : string) (t : table) : table * bool :=
  fenced c (finish s now (Some (envelope code (redact_job_error_text message) (cj_id c)))) t.

Definition dead_letter (now : Z) (c : claimed_job) (message : string) (t : table) : table * bool :=
  terminal_write now c failed "JOB_DEAD_LETTERED" message t.

Definition cancel (now : Z) (c : claimed_job) (message : string) (t : table) : table * bool :=
  terminal_write now c cancelled "JOB_CANCELLED" message t.

(** ** Reaping *)

Definition REAPED_EXHAUSTED_MESSAGE : string :=
  redact_job_error_text ("stale claim reaped with no attempts remaining; the worker holding this job" +:+
    " stopped heartbeating and the job has exhausted max_attempts").

Definition reap_row (now : Z) (j : job) : job :=
  if attempts j <? max_attempts j then
    Job (id j) (kind j) (queue j) (priority j) queued (attempts j) (max_attempts j) (idempotency_key j) (payload j)
      (org_id j) None (heartbeat_at j) (created_at j) now (started_at j) (finished_at j) (error j) (cancel_requested_at j)
  else
    Job (id j) (kind j) (queue j) (priority j) failed (attempts j) (max_attempts j) (idempotency_key j) (payload j)
      (org_id j) None (heartbeat_at j) (created_at j) (available_at j) (started_at j) (Some now)
      (Some (envelope "REAPED_EXHAUSTED" REAPED_EXHAUSTED_MESSAGE (id j))) (cancel_requested_at j).

(** [heartbeat_at < now() - make_interval(secs => stale_seconds)], a NULL is not less *)
Definition stale (now : Z) (stale_seconds : spec_float) (j : job) : bool :=
  bool_decide (status j = running) && match heartbeat_at j with Some h => h <? now - make_interval stale_seconds | None => false end.

(** [ReapOutcome]: an [int] that also carries its split *)
Record reap_outcome := ReapOutcome { requeued : nat; dead_lettered : nat }.
Definition reap_total (o : reap_outcome) : nat := (requeued o + dead_lettered o)%nat.

Definition reap_stale (now : Z) (stale_seconds : spec_float) (t : table) : table * reap_outcome :=
  let t' := (update_where (stale now stale_seconds) (reap_row now) t).1 in
  let statuses := status <$> (reap_row now <$> filter (λ j, stale now stale_seconds j = true) t) in
  (t', ReapOutcome (length (filter (λ s, s = queued) statuses)) (length (filter (λ s, s = failed) statuses))).

Definition is_cancel_requested (t : table) (job_id : string) : bool :=
  match filter (λ j, id j = job_id) t with
  | j :: _ => bool_decide (is_Some (cancel_requested_at j))
  | [] => false
  end.
End queue.
