(* ===== verification/QueueSafety.v ===== *)
(** The job queue as a state machine.

    A state is the [jobs] table with every claim handed out so far.  The steps
    are the queue's functions, called with fresh uuids and by holders of claims,
    at any clock readings and in any order, and the API role's cancellation
    request.  The invariant of the reachable states gives the lease fencing, the
    bound on retries and the finality of terminal states. *)

From Stdlib Require Import SpecFloat.
From S2P Require Import Prelude Floats Canonical Queue.
Local Open Scope Z_scope.

Record state := State { jobs : table; issued : list claimed_job }.

(** the columns no update of the queue touches *)
Definition identity (j : job) : string * string * option string * option string * Z * json :=
  (id j, kind j, org_id j, idempotency_key j, max_attempts j, payload j).

Section safety.
Context (make_interval : spec_float → Z) (redact : string → string).

Definition set_cancel (now : Z) (j : job) : job :=
  Job (id j) (kind j) (queue j) (priority j) (status j) (attempts j) (max_attempts j) (idempotency_key j) (payload j)
    (org_id j) (lease j) (heartbeat_at j) (created_at j) (available_at j) (started_at j) (finished_at j) (error j) (Some now).

Inductive step : state → state → Prop :=
| step_enqueue s job_id now k p q prio key max org t' r :
    job_id ∉ id <$> jobs s → enqueue job_id now (jobs s) k p q prio key max org = Ok (t', r) → step s (State t' (issued s))
| step_claim s lease_id now locked q :
    lease_id ∉ cj_lease <$> issued s →
    step s (State (claim_one lease_id now locked (jobs s) q).1
                  (issued s ++ option_list (claim_one lease_id now locked (jobs s) q).2))
| step_heartbeat s c now : c ∈ issued s → step s (State (heartbeat now c (jobs s)).1 (issued s))
| step_complete s c now : c ∈ issued s → step s (State (complete now c (jobs s)).1 (issued s))
| step_fail s c now message now_arg draw r :
    c ∈ issued s → fail make_interval redact now c message now_arg draw (jobs s) = Ok r → step s (State r.1 (issued s))
| step_dead_letter s c now message : c ∈ issued s → step s (State (dead_letter redact now c message (jobs s)).1 (issued s))
| step_cancel s c now message : c ∈ issued s → step s (State (cancel redact now c message (jobs s)).1 (issued s))
| step_reap s now stale_seconds : step s (State (reap_stale make_interval redact now stale_seconds (jobs s)).1 (issued s))
| step_request_cancel s job_id org now :
    step s (State (update_where (λ j, bool_decide (id j = job_id ∧ org_id j = Some org)) (set_cancel now) (jobs s)).1 (issued s)).

Definition reachable (s : state) : Prop := rtc step (State [] []) s.

(** * The invariant *)

(** the claim [c] is the one the running row [j] was handed out under *)
Definition holds_claim (c : claimed_job) (j : job) : Prop :=
  lease j = Some (cj_lease c) ∧ cj_id c = id j ∧ cj_attempts c = attempts j ∧ cj_max_attempts c = max_attempts j.

Definition row_ok (claims : list claimed_job) (j : job) : Prop :=
  0 ≤ attempts j ≤ max_attempts j ∧ 1 ≤ max_attempts j ∧
  match status j with
  | queued => lease j = None ∧ attempts j < max_attempts j ∧ finished_at j = None
  | running => (∃ c, c ∈ claims ∧ holds_claim c j) ∧ finished_at j = None ∧ is_Some (heartbeat_at j)
  | _ => lease j = None ∧ is_Some (finished_at j)
  end.

Record inv (s : state) : Prop := {
  inv_ids : NoDup (id <$> jobs s);
  inv_scope i j a b key : jobs s !! i = Some a → jobs s !! j = Some b → idempotency_key a = Some key → idempotency_key b = Some key →
    org_id a = org_id b → kind a = kind b → i = j;
  inv_leases : NoDup (cj_lease <$> issued s);
  inv_rows : Forall (row_ok (issued s)) (jobs s);
  inv_claims j : j ∈ jobs s → Z.of_nat (length (filter (λ c, cj_id c = id j) (issued s))) = attempts j;
  inv_known c : c ∈ issued s → cj_id c ∈ id <$> jobs s;
}.

(** ** Updates in place *)

Definition stays (f : job → job) (j : job) : Prop := identity (f j) = identity j ∧ attempts (f j) = attempts j.

Lemma inv_fmap (g : job → job) s :
  inv s → (∀ j, j ∈ jobs s → stays g j) → (∀ j, j ∈ jobs s → row_ok (issued s) j → row_ok (issued s) (g j)) →
  inv (State (g <$> jobs s) (issued s)).
Proof.
  intros [Hids Hscope Hleases Hrows Hclaims Hknown] Hg Hok.
  assert (id <$> (g <$> jobs s) = id <$> jobs s) as Hid.
  { rewrite <- list_fmap_compose. apply list_fmap_ext. intros i j Hj. apply list_elem_of_lookup_2 in Hj.
    destruct (Hg j Hj) as [Hi _]. unfold identity in Hi. unfold compose. congruence. }
  split; cbn [jobs issued]; rewrite ?Hid; try done.
  - intros i j a b key Ha Hb Hka Hkb Ho Hk. rewrite list_lookup_fmap in Ha, Hb.
    destruct (jobs s !! i) as [a0|] eqn:Ha0; [|done]. destruct (jobs s !! j) as [b0|] eqn:Hb0; [|done]. cbn in Ha, Hb. simplify_eq.
    destruct (Hg a0 (list_elem_of_lookup_2 _ _ _ Ha0)) as [Hia _], (Hg b0 (list_elem_of_lookup_2 _ _ _ Hb0)) as [Hib _].
    unfold identity in Hia, Hib. apply (Hscope i j a0 b0 key Ha0 Hb0); congruence.
  - apply Forall_fmap, Forall_forall. intros j Hj. apply Hok; [done|]. by apply (proj1 (Forall_forall _ _) Hrows).
  - intros j' (j & -> & Hj)%list_elem_of_fmap. destruct (Hg j Hj) as [Hi Ha]. rewrite Ha, <- (Hclaims j Hj).
    unfold identity in Hi. assert (id (g j) = id j) as -> by congruence. done.
Qed.

Lemma update_where_fmap p f t : (update_where p f t).1 = (λ j, if p j then f j else j) <$> t.
Proof. done. Qed.

Lemma fenced_fmap c f t : (fenced c f t).1 = (λ j, if owned c j then f j else j) <$> t.
Proof. done. Qed.

(** a conditional update keeps the invariant when it does so on the rows it hits *)
Lemma inv_update_where p f s :
  inv s → (∀ j, stays f j) → (∀ j, j ∈ jobs s → p j = true → row_ok (issued s) j → row_ok (issued s) (f j)) →
  inv (State ((λ j, if p j then f j else j) <$> jobs s) (issued s)).
Proof.
  intros Hs Hf Hok. apply inv_fmap; [done| |].
  - intros j _. unfold stays. destruct (p j); [apply Hf|done].
  - intros j Hj Hr. destruct (p j) eqn:Hp; [by apply Hok|done].
Qed.

(** an idempotency key names one row of its scope *)
Lemma inv_scope_row s a b key :
  inv s → a ∈ jobs s → b ∈ jobs s → idempotency_key a = Some key → idempotency_key b = Some key → org_id a = org_id b → kind a = kind b → a = b.
Proof.
  intros Hs [i Hi]%list_elem_of_lookup [j Hj]%list_elem_of_lookup Ha Hb Ho Hk.
  assert (i = j) as -> by (by eapply (inv_scope s)). congruence.
Qed.

(** a lease names one claim *)
Lemma inv_lease_claim s c c' : inv s → c ∈ issued s → c' ∈ issued s → cj_lease c = cj_lease c' → c = c'.
Proof.
  intros Hs [i Hi]%list_elem_of_lookup [i' Hi']%list_elem_of_lookup Hl.
  pose proof (NoDup_lookup _ i i' (cj_lease c) (inv_leases s Hs)) as Heq. rewrite !list_lookup_fmap, Hi, Hi' in Heq. cbn in Heq.
  rewrite Hl in Heq. specialize (Heq eq_refl eq_refl). congruence.
Qed.

Lemma owned_spec c j : owned c j = true ↔ id j = cj_id c ∧ lease j = Some (cj_lease c) ∧ status j = running.
Proof. unfold owned. by rewrite bool_decide_eq_true. Qed.

Lemma stays_finish s now err j : stays (finish s now err) j. Proof. done. Qed.
Lemma stays_beat now j : stays (beat now) j. Proof. done. Qed.
Lemma stays_fail_row b now a e j : stays (fail_row b now a e) j. Proof. done. Qed.
Lemma stays_reap_row now j : stays (reap_row redact now) j.
Proof. unfold stays, reap_row. by case_match. Qed.
Lemma stays_set_cancel now j : stays (set_cancel now) j. Proof. done. Qed.

Lemma row_ok_finish claims s now err j : terminal_status s = true → row_ok claims j → row_ok claims (finish s now err j).
Proof. intros Hs (Ha & Hm & _). split; [done|]. split; [done|]. by destruct s. Qed.

(** the row a claim owns was handed out under that very claim *)
Lemma owned_claim s c j : inv s → c ∈ issued s → j ∈ jobs s → owned c j = true → holds_claim c j.
Proof.
  intros Hs Hc Hj (Hid & Hl & Hst)%owned_spec. pose proof (proj1 (Forall_forall _ _) (inv_rows s Hs) j Hj) as (_ & _ & Hr).
  rewrite Hst in Hr. destruct Hr as ((c' & Hc' & Hh) & _). pose proof Hh as (Hl' & _). rewrite Hl in Hl'. injection Hl' as Hl'.
  by rewrite (inv_lease_claim s c c' Hs Hc Hc' Hl').
Qed.

Lemma row_ok_fail s c now a e j :
  inv s → c ∈ issued s → j ∈ jobs s → owned c j = true → row_ok (issued s) j →
  row_ok (issued s) (fail_row (cj_max_attempts c <=? cj_attempts c) now a e j).
Proof.
  intros Hs Hc Hj Ho (Ha & Hm & _). destruct (owned_claim s c j Hs Hc Hj Ho) as (_ & _ & Hca & Hcm). rewrite Hca, Hcm.
  unfold row_ok, fail_row; cbn [attempts max_attempts status lease finished_at]. split; [done|]. split; [done|].
  destruct (Z.leb_spec (max_attempts j) (attempts j)); [done|]. split_and!; [done|lia|done].
Qed.

Lemma row_ok_reap claims now j : status j = running → row_ok claims j → row_ok claims (reap_row redact now j).
Proof.
  intros Hst (Ha & Hm & Hr). rewrite Hst in Hr. destruct Hr as (_ & Hf & _). unfold reap_row.
  destruct (Z.ltb_spec (attempts j) (max_attempts j)); split; cbn; try done; split; try done.
Qed.

(** ** Enqueue and claim *)

Lemma inv_enqueue s job_id now k p q prio key max org t' r :
  inv s → job_id ∉ id <$> jobs s → enqueue job_id now (jobs s) k p q prio key max org = Ok (t', r) → inv (State t' (issued s)).
Proof.
  intros Hs Hid He. unfold enqueue in He. destruct (negb _) eqn:Hchk; [done|]. btrue. 
  assert (∀ key', key' = key → (∀ k', key' = Some k' → filter (λ j, same_scope org k k' j = true) (jobs s) = []) →
    inv (State (jobs s ++ [new_job job_id k q prio p org key' max now]) (issued s))) as Hnew.
  { intros key' -> Hno. destruct Hs as [Hids Hscope Hleases Hrows Hclaims Hknown]. split; cbn [jobs issued]; try done.
    - rewrite fmap_app. apply NoDup_app. split; [done|]. split; [|apply NoDup_singleton].
      intros x Hx Hin. apply list_elem_of_singleton in Hin. by subst.
    - assert (∀ i a key', jobs s !! i = Some a → key = Some key' → idempotency_key a = Some key' → org_id a = org → kind a = k → False) as Hlast.
      { intros i a key' Ha -> Hka Hoa Hkk. specialize (Hno key' eq_refl).
        assert (a ∈ filter (λ j, same_scope org k key' j = true) (jobs s)) as Hin.
        { apply list_elem_of_filter. split; [by apply bool_decide_eq_true|by eapply list_elem_of_lookup_2]. }
        rewrite Hno in Hin. by apply not_elem_of_nil in Hin. }
      intros i j a b key' Ha Hb Hka Hkb Ho Hk. apply lookup_app_Some in Ha as [Ha|[Hli Ha]], Hb as [Hb|[Hlj Hb]].
      + by eapply Hscope.
      + apply list_lookup_singleton_Some in Hb as [Hj <-]. exfalso. by eapply (Hlast i a key').
      + apply list_lookup_singleton_Some in Ha as [Hi <-]. exfalso. by eapply (Hlast j b key').
      + apply list_lookup_singleton_Some in Ha as [Hi _], Hb as [Hj _]. lia.
    - apply Forall_app. split; [done|]. constructor; [|constructor]. unfold row_ok; cbn. split_and!; try lia; done.
    - intros j [Hj|Hj%list_elem_of_singleton]%elem_of_app; [by apply Hclaims|]. subst j. cbn [attempts id new_job].
      assert (filter (λ c, cj_id c = job_id) (issued s) = []) as ->; [|done].
      destruct (filter _ _) as [|c cs] eqn:Hf; [done|]. exfalso. apply Hid.
      assert (c ∈ filter (λ c, cj_id c = job_id) (issued s)) as Hc by (rewrite Hf; apply list_elem_of_here).
      apply list_elem_of_filter in Hc as [<- Hc]. by apply Hknown.
    - intros c Hc. rewrite fmap_app, elem_of_app. left. by apply Hknown. }
  destruct key as [key|]; [|simplify_eq; by apply Hnew].
  destruct (filter _ _) as [|j js] eqn:Hf; simplify_eq; [apply Hnew; [done|by intros k' [= <-]]|]. by destruct s.
Qed.

Lemma claim_one_cases lease_id now locked t q :
  (∀ j, j ∈ t → claimable q now locked j = false) ∧ claim_one lease_id now locked t q = (t, None) ∨
  ∃ row, row ∈ t ∧ claimable q now locked row = true ∧ (∀ j, j ∈ t → claimable q now locked j = true → claim_le row j) ∧
    claim_one lease_id now locked t q =
      ((λ j, if bool_decide (id j = id row) then start_job lease_id now j else j) <$> t,
       Some (ClaimedJob (id row) (kind row) (queue row) (payload row) (attempts row + 1) (max_attempts row) lease_id (org_id row))).
Proof.
  unfold claim_one. pose proof (py_sorted_perm claim_le (filter (λ j, claimable q now locked j = true) t)) as Hp.
  assert (Total claim_le) as Ht.
  { intros a b. unfold claim_le, claim_leb. destruct (decide (priority a = priority b)); [rewrite decide_True by done|rewrite decide_False by done]; rewrite !Z.leb_le; lia. }
  assert (Transitive claim_le) as Htr.
  { intros a b c. unfold claim_le, claim_leb. repeat case_decide; rewrite ?Z.leb_le; lia. }
  pose proof (py_sorted_sorted claim_le (filter (λ j, claimable q now locked j = true) t)) as Hs.
  destruct (py_sorted _ _) as [|row rest].
  - left. split; [|done]. intros j Hj. destruct (claimable q now locked j) eqn:Hc; [|done].
    assert (j ∈ filter (λ j, claimable q now locked j = true) t) as Hin by (by apply list_elem_of_filter).
    rewrite <- Hp in Hin. by apply not_elem_of_nil in Hin.
  - right. exists row. assert (row ∈ filter (λ j, claimable q now locked j = true) t) as Hrow by (rewrite <- Hp; apply list_elem_of_here).
    apply list_elem_of_filter in Hrow as [Hrc Hrt]. split_and!; [done|done| |done].
    intros j Hj Hjc. assert (j ∈ filter (λ j, claimable q now locked j = true) t) as Hin by (by apply list_elem_of_filter).
    rewrite <- Hp in Hin. apply StronglySorted_inv in Hs as [_ Hs]. apply elem_of_cons in Hin as [->|Hin].
    + by destruct (Ht row row).
    + by apply (proj1 (Forall_forall _ _) Hs).
Qed.

Lemma claimable_spec q now locked j :
  claimable q now locked j = true ↔ queue j = q ∧ status j = queued ∧ available_at j ≤ now ∧ id j ∉ locked.
Proof. unfold claimable. by rewrite bool_decide_eq_true. Qed.

Lemma same_row s a b : inv s → a ∈ jobs s → b ∈ jobs s → id a = id b → a = b.
Proof.
  intros Hs Ha Hb Hid. apply list_elem_of_lookup in Ha as [i Hi], Hb as [j Hj].
  pose proof (NoDup_lookup _ i j (id a) (inv_ids s Hs)) as Heq. rewrite !list_lookup_fmap, Hi, Hj in Heq. cbn in Heq.
  rewrite Hid in Heq. specialize (Heq eq_refl eq_refl). congruence.
Qed.

Lemma row_ok_more claims c j : row_ok claims j → row_ok (claims ++ [c]) j.
Proof.
  intros (Ha & Hm & Hr). split; [done|]. split; [done|]. destruct (status j); try done.
  destruct Hr as ((c' & Hc' & Hh) & Hr). split; [|done]. exists c'. split; [|done]. apply elem_of_app. by left.
Qed.

Lemma inv_claim s lease_id now locked q :
  inv s → lease_id ∉ cj_lease <$> issued s →
  inv (State (claim_one lease_id now locked (jobs s) q).1 (issued s ++ option_list (claim_one lease_id now locked (jobs s) q).2)).
Proof.
  intros Hs Hl. destruct (claim_one_cases lease_id now locked (jobs s) q) as [[_ ->]|(row & Hrow & Hc & _ & ->)]; cbn [fst snd option_list].
  { rewrite app_nil_r. by destruct s. }
  apply claimable_spec in Hc as (_ & Hst & _). pose proof (proj1 (Forall_forall _ _) (inv_rows s Hs) row Hrow) as (Ha & Hm & Hr).
  rewrite Hst in Hr. destruct Hr as (_ & Hlt & Hfin). set (c := ClaimedJob _ _ _ _ _ _ _ _).
  set (g := λ j, if bool_decide (id j = id row) then start_job lease_id now j else j).
  assert (id <$> (g <$> jobs s) = id <$> jobs s) as Hid.
  { rewrite <- list_fmap_compose. apply list_fmap_ext. intros i j _. unfold compose, g. by case_bool_decide. }
  assert (∀ j, identity (g j) = identity j) as Hident by (intros j; unfold g; by case_bool_decide).
  pose proof Hs as [Hids Hscope Hleases Hrows Hclaims Hknown]. split; cbn [jobs issued]; rewrite ?Hid; try done.
  - intros i j a b key Hi Hj Hka Hkb Ho Hk. rewrite list_lookup_fmap in Hi, Hj.
    destruct (jobs s !! i) as [a0|] eqn:Ha0; [|done]. destruct (jobs s !! j) as [b0|] eqn:Hb0; [|done]. cbn in Hi, Hj. simplify_eq.
    pose proof (Hident a0) as Hia. pose proof (Hident b0) as Hib. unfold identity in Hia, Hib. apply (Hscope i j a0 b0 key Ha0 Hb0); congruence.
  - rewrite fmap_app. apply NoDup_app. split; [done|]. split; [|apply NoDup_singleton]. intros x Hx Hin. apply list_elem_of_singleton in Hin. by subst.
  - apply Forall_fmap, Forall_forall. intros j Hj. unfold compose, g. case_bool_decide as Hjr.
    + assert (j = row) as -> by (by apply (same_row s)). unfold row_ok, start_job; cbn [attempts max_attempts status lease finished_at heartbeat_at].
      split; [lia|]. split; [done|]. split; [|by split]. exists c. split; [apply elem_of_app; right; apply list_elem_of_here|]. by split.
    + apply row_ok_more. by apply (proj1 (Forall_forall _ _) Hrows).
  - intros j' (j & -> & Hj)%list_elem_of_fmap. rewrite filter_app, length_app, Nat2Z.inj_add. pose proof (Hclaims j Hj) as Hcj.
    assert (id (g j) = id j) as -> by (pose proof (Hident j) as Hi; unfold identity in Hi; congruence). rewrite Hcj. change (option_list (Some c)) with [c]. rewrite filter_cons, filter_nil.
    unfold g. case_bool_decide as Hjr; cbn [cj_id c]; [rewrite decide_True by done|rewrite decide_False by congruence]; cbn; lia.
  - intros c' [Hc'|Hc'%list_elem_of_singleton]%elem_of_app; [by apply Hknown|]. subst. apply list_elem_of_fmap. by exists row.
Qed.

(** Every step keeps the invariant. *)
Lemma inv_step s s' : inv s → step s s' → inv s'.
Proof.
  intros Hs Hstep. destruct Hstep as [s job_id now k p q prio key max org t' r Hid He|s lease_id now locked q Hl|s c now Hc|s c now Hc|
      s c now message now_arg draw r Hc Hf|s c now message Hc|s c now message Hc|s now stale_seconds|s job_id org now].
  - by eapply inv_enqueue.
  - by apply inv_claim.
  - unfold heartbeat. rewrite fenced_fmap. apply inv_update_where; [done|apply stays_beat|].
    intros j Hj (_ & _ & Hst)%owned_spec (Ha & Hm & Hr). unfold row_ok, beat; cbn. rewrite Hst in *.
    split; [done|]. split; [done|]. destruct Hr as (Hcl & Hfin & _). done.
  - unfold complete. rewrite fenced_fmap. apply inv_update_where; [done|apply stays_finish|]. intros j _ _. by apply row_ok_finish.
  - unfold fail in Hf. apply bind_Ok in Hf as (delay & _ & [= <-]). rewrite fenced_fmap.
    apply inv_update_where; [done|apply stays_fail_row|]. intros j Hj Ho. by apply row_ok_fail.
  - unfold dead_letter, terminal_write. rewrite fenced_fmap. apply inv_update_where; [done|apply stays_finish|]. intros j _ _. by apply row_ok_finish.
  - unfold cancel, terminal_write. rewrite fenced_fmap. apply inv_update_where; [done|apply stays_finish|]. intros j _ _. by apply row_ok_finish.
  - unfold reap_stale. cbn [fst]. rewrite update_where_fmap. apply inv_update_where; [done|apply stays_reap_row|].
    intros j _ [Hst _]%andb_true_iff. apply bool_decide_eq_true in Hst. by apply row_ok_reap.
  - rewrite update_where_fmap. apply inv_update_where; [done|apply stays_set_cancel|]. done.
Qed.

Lemma inv_init : inv (State [] []).
Proof. split; cbn; try constructor; try (intros ?; by intros ?%not_elem_of_nil); intros i j a b key Hi; by rewrite lookup_nil in Hi. Qed.

Lemma inv_steps s s' : inv s → rtc step s s' → inv s'.
Proof. intros Hs Hr. induction Hr as [|s s1 s' Hstep _ IH]; [done|]. apply IH. by eapply inv_step. Qed.

Lemma reachable_inv s : reachable s → inv s.
Proof. apply inv_steps, inv_init. Qed.

(** ** The rows a step leaves behind *)

(** the claim [c] is the running row's current one *)
Definition current (c : claimed_job) (t : table) : Prop := ∃ j, j ∈ t ∧ owned c j = true.

(** rows keep their identity, never lose an attempt, and a terminal row
    changes at most its cancellation stamp *)
Definition evolves (j j' : job) : Prop :=
  identity j' = identity j ∧ attempts j ≤ attempts j' ∧ (terminal_status (status j) = true → ∀ now, set_cancel now j' = set_cancel now j).

#[local] Instance evolves_preorder : PreOrder evolves.
Proof using Type.
  split; [by intros j|]. intros a b c (Hi & Ha & Ht) (Hi' & Ha' & Ht'). split; [congruence|]. split; [lia|]. intros Hta now.
  rewrite <- (Ht Hta now). apply Ht'. specialize (Ht Hta now). apply (f_equal status) in Ht. cbn in Ht. by rewrite Ht.
Qed.

Definition rewrites (f : job → job) (p : job → bool) (t t' : table) : Prop := t' = (λ j, if p j then f j else j) <$> t.

(** The table after a step: the old rows with an update applied where it
    hits, none of which a terminal row is, or one more queued row. *)
Lemma step_shape s s' :
  step s s' → reachable s →
  (∃ row, jobs s' = jobs s ++ [row] ∧ status row = queued ∧ issued s' = issued s) ∨
  (∃ f p, rewrites f p (jobs s) (jobs s') ∧
    (∀ j, j ∈ jobs s → p j = true → evolves j (f j)) ∧
    (∀ c j, c ∈ issued s → j ∈ jobs s → p j = true → owned c (f j) = true → owned c j = true)).
Proof using Type.
  assert (∀ s now err c j, terminal_status s = true → owned c (finish s now err j) = false) as Hfin.
  { intros st now err c j Ht. apply not_true_iff_false. intros (_ & Hl & _)%owned_spec. done. }
  assert (∀ j f, status j = running → identity (f j) = identity j → attempts j ≤ attempts (f j) → evolves j (f j)) as Hrun.
  { intros j f Hst Hi Ha. split; [done|]. split; [done|]. by rewrite Hst. }
  intros Hstep Hreach%reachable_inv. destruct Hstep as [s job_id now k p q prio key max org t' r Hid He|s lease_id now locked q Hl|s c now Hc|s c now Hc|
      s c now message now_arg draw r Hc Hf|s c now message Hc|s c now message Hc|s now stale_seconds|s job_id org now]; cbn [jobs issued].
  - unfold enqueue in He. destruct (negb _); [done|]. destruct key as [key|]; [destruct (filter _ _)|]; simplify_eq;
      [left; by eexists| |left; by eexists]. right. exists (λ j, j), (λ _, false). split; [|done]. symmetry. unfold rewrites. apply list_fmap_id.
  - right. destruct (claim_one_cases lease_id now locked (jobs s) q) as [[_ ->]|(row & Hrow & Hc & _ & ->)]; cbn [fst snd].
    { exists (λ j, j), (λ _, false). split; [|done]. symmetry. unfold rewrites. apply list_fmap_id. }
    apply claimable_spec in Hc as (_ & Hst & _).
    exists (start_job lease_id now), (λ j, bool_decide (id j = id row)). split; [done|]. split.
    + intros j Hj ->%bool_decide_eq_true%(same_row s j row Hreach Hj Hrow). split; [done|]. split; [cbn; lia|]. by rewrite Hst.
    + intros c j Hc _ _ (_ & Hlease & _)%owned_spec. cbn in Hlease. simplify_eq. destruct Hl. apply list_elem_of_fmap. by exists c.
  - right. exists (beat now), (owned c). split; [done|]. split; [by intros j _ (_ & _ & Hst)%owned_spec; apply Hrun; cbn|done].
  - right. eexists _, (owned c). split; [done|]. split; [by intros j _ (_ & _ & Hst)%owned_spec; apply Hrun; cbn|]. intros ? ? _ _ _. by rewrite Hfin.
  - right. unfold fail in Hf. apply bind_Ok in Hf as (delay & _ & [= <-]). eexists _, (owned c). split; [done|].
    split; [by intros j _ (_ & _ & Hst)%owned_spec; apply Hrun; cbn|]. by intros ? ? _ _ _ (_ & Hlease & _)%owned_spec.
  - right. eexists _, (owned c). split; [done|]. split; [by intros j _ (_ & _ & Hst)%owned_spec; apply Hrun; cbn|]. intros ? ? _ _ _. by rewrite Hfin.
  - right. eexists _, (owned c). split; [done|]. split; [by intros j _ (_ & _ & Hst)%owned_spec; apply Hrun; cbn|]. intros ? ? _ _ _. by rewrite Hfin.
  - right. eexists _, _. split; [done|]. split.
    + intros j _ [Hst%bool_decide_eq_true _]%andb_true_iff. apply Hrun; [done|..]; unfold reap_row; by case_match.
    + intros c j _ _ _ (_ & Hlease & _)%owned_spec. unfold reap_row in Hlease. by case_match.
  - right. eexists _, _. split; [done|]. split; [by intros j _ _|]. intros c j _ _ _. by rewrite !owned_spec.
Qed.

Lemma step_evolves s s' j : reachable s → step s s' → j ∈ jobs s → ∃ j', j' ∈ jobs s' ∧ evolves j j'.
Proof using Type.
  intros Hr Hstep Hj. destruct (step_shape s s' Hstep Hr) as [(row & Hjs & _)|(f & p & Hjs & Hf & _)]; rewrite Hjs.
  - exists j. split; [apply elem_of_app; by left|done].
  - exists (if p j then f j else j). split; [apply list_elem_of_fmap; by exists j|]. destruct (p j) eqn:Hp; [by apply Hf|done].
Qed.

Lemma steps_evolve s s' : reachable s → rtc step s s' → ∀ j, j ∈ jobs s → ∃ j', j' ∈ jobs s' ∧ evolves j j'.
Proof using Type.
  intros Hr Hsteps. induction Hsteps as [s|s s1 s' Hstep _ IH]; intros j Hj; [by exists j|].
  destruct (step_evolves s s1 j Hr Hstep Hj) as (j1 & Hj1 & He).
  ospecialize (IH _ j1 Hj1); [by eapply rtc_r|]. destruct IH as (j' & Hj' & He'). exists j'. split; [done|]. by transitivity j1.
Qed.

Lemma issued_mono s s' : step s s' → ∀ c, c ∈ issued s → c ∈ issued s'.
Proof using Type. intros Hstep c Hc. destruct Hstep; try done. cbn. apply elem_of_app. by left. Qed.

Lemma step_current s s' c : reachable s → step s s' → c ∈ issued s → current c (jobs s') → current c (jobs s).
Proof using Type.
  intros Hr Hstep Hc (j' & Hj' & Ho). destruct (step_shape s s' Hstep Hr) as [(row & Hjs & Hq & _)|(f & p & Hjs & _ & Hf)]; rewrite Hjs in Hj'.
  - apply elem_of_app in Hj' as [Hj'| ->%list_elem_of_singleton]; [by exists j'|]. apply owned_spec in Ho as (_ & _ & Hst). congruence.
  - apply list_elem_of_fmap in Hj' as (j & -> & Hj). exists j. split; [done|]. destruct (p j) eqn:Hp; [|done]. by eapply Hf.
Qed.

Lemma steps_current s s' : reachable s → rtc step s s' → ∀ c, c ∈ issued s → current c (jobs s') → current c (jobs s).
Proof using Type.
  intros Hr Hsteps. induction Hsteps as [s|s s1 s' Hstep _ IH]; intros c Hc Hcur; [done|].
  eapply step_current; [done..|]. apply IH; [by eapply rtc_r|by eapply issued_mono|done].
Qed.

Lemma fenced_spec c f t : ((fenced c f t).2 = true ↔ current c t) ∧ ((fenced c f t).2 = false → (fenced c f t).1 = t).
Proof using Type.
  assert ((fenced c f t).2 = (0 <? length (filter (λ j, owned c j = true) t))%nat) as Hn by done. rewrite Hn, fenced_fmap. clear Hn. split.
  - rewrite Nat.ltb_lt. split.
    + intros Hl. destruct (filter _ t) as [|j js] eqn:Hf; [cbn in Hl; lia|]. exists j. apply and_comm.
      apply (list_elem_of_filter (λ j, owned c j = true)). rewrite Hf. apply list_elem_of_here.
    + intros (j & Hj & Ho). assert (j ∈ filter (λ j, owned c j = true) t) as Hin by (by apply list_elem_of_filter).
      destruct (filter _ t); [by apply not_elem_of_nil in Hin|cbn; lia].
  - rewrite Nat.ltb_ge. intros Hl. rewrite <- (list_fmap_id t) at 2. apply list_fmap_ext. intros i j Hj. destruct (owned c j) eqn:Ho; [|done].
    assert (j ∈ filter (λ j, owned c j = true) t) as Hin by (apply list_elem_of_filter; split; [done|by eapply list_elem_of_lookup_2]).
    destruct (filter _ t); [by apply not_elem_of_nil in Hin|cbn in Hl; lia].
Qed.
End safety.

Section properties.
Context (make_interval : spec_float → Z) (redact : string → string).
Notation step := (step make_interval redact).
Notation reachable := (reachable make_interval redact).

(** C22: In every reachable state of the queue job ids are unique, an idempotency
    key names one job per tenant and kind, and each row is well formed: a
    queued job has no lease and attempts left, a running one the lease of a
    claim handed out for it with these attempts, a terminal one no lease and a
    finish time. *)
Theorem queue_invariant s :
  reachable s →
  NoDup (id <$> jobs s) ∧ Forall (row_ok (issued s)) (jobs s) ∧ NoDup (cj_lease <$> issued s) ∧
  ∀ a b key, a ∈ jobs s → b ∈ jobs s → idempotency_key a = Some key → idempotency_key b = Some key →
    org_id a = org_id b → kind a = kind b → a = b.
Proof.
  intros Hs%reachable_inv. pose proof Hs as [Hids _ Hleases Hrows _ _]. repeat (split; [done|]).
  intros a b key. by apply inv_scope_row.
Qed.

(** what the holder of a claim can write *)
Definition writes (now : Z) (c : claimed_job) (message : string) : list (table → table * bool) :=
  [heartbeat now c; complete now c; dead_letter redact now c message; cancel redact now c message].

(** C21: Leases fence.  A write under a claim succeeds exactly when the claim is
    the current one of a running row, and otherwise leaves the table as it
    was; at most one claim of a job is current; and a claim that is no longer
    current never becomes current again, whatever steps follow. *)
Theorem lease_fencing s c :
  reachable s → c ∈ issued s →
  (∀ now message w, w ∈ writes now c message →
    ((w (jobs s)).2 = true ↔ current c (jobs s)) ∧ ((w (jobs s)).2 = false → (w (jobs s)).1 = jobs s)) ∧
  (∀ now message now_arg draw t' ok, fail make_interval redact now c message now_arg draw (jobs s) = Ok (t', ok) →
    (ok = true ↔ current c (jobs s)) ∧ (ok = false → t' = jobs s)) ∧
  (∀ c', c' ∈ issued s → cj_id c' = cj_id c → current c (jobs s) → current c' (jobs s) → c' = c) ∧
  (∀ s', rtc step s s' → ¬ current c (jobs s) → ¬ current c (jobs s')).
Proof.
  intros Hr Hc. pose proof (reachable_inv _ _ s Hr) as Hs. split; [|split; [|split]].
  - intros now message w Hw. unfold writes in Hw. repeat (apply elem_of_cons in Hw as [->|Hw]; [apply fenced_spec|]). by apply not_elem_of_nil in Hw.
  - intros now message now_arg draw t' ok (delay & _ & [= Ht Hok])%bind_Ok. rewrite <- Ht, <- Hok. apply fenced_spec.
  - intros c' Hc' Hid (j & Hj & Ho) (j' & Hj' & Ho'). apply owned_spec in Ho as (Hji & Hl & _), Ho' as (Hji' & Hl' & _).
    assert (j' = j) as -> by (apply (same_row s); [done..|congruence]). rewrite Hl in Hl'. injection Hl' as Hl'.
    symmetry. by apply (inv_lease_claim s).
  - intros s' Hsteps Hn Hcur. apply Hn. by eapply steps_current.
Qed.

(** Retries are bounded.  A job has been claimed as often as its attempts
    say, at most [max_attempts] times; failing or reaping a job whose attempts
    are used up parks it as failed, otherwise it is queued again; rows never
    disappear nor lose attempts, and a terminal row is final: all that can
    still change is its cancellation stamp. *)
Theorem retries_bounded s j :
  reachable s → j ∈ jobs s →
  Z.of_nat (length (filter (λ c, cj_id c = id j) (issued s))) = attempts j ∧ attempts j ≤ max_attempts j ∧
  (∀ c now available e, c ∈ issued s → owned c j = true →
    status (fail_row (cj_max_attempts c <=? cj_attempts c) now available e j) = (if attempts j =? max_attempts j then failed else queued)) ∧
  (∀ now, status (reap_row redact now j) = (if attempts j =? max_attempts j then failed else queued)) ∧
  (∀ s', rtc step s s' → ∃ j', j' ∈ jobs s' ∧ identity j' = identity j ∧ attempts j ≤ attempts j' ∧
    (terminal_status (status j) = true → ∀ now, set_cancel now j' = set_cancel now j)).
Proof.
  intros Hr Hj. pose proof (reachable_inv _ _ s Hr) as Hs.
  pose proof (proj1 (Forall_forall _ _) (inv_rows s Hs) j Hj) as ((Ha & Hm) & _). split; [by apply inv_claims|]. split; [done|]. split; [|split].
  - intros c now available e Hc Ho. destruct (owned_claim s c j Hs Hc Hj Ho) as (_ & _ & -> & ->). cbn.
    destruct (Z.leb_spec (max_attempts j) (attempts j)), (Z.eqb_spec (attempts j) (max_attempts j)); try lia; done.
  - intros now. unfold reap_row. destruct (Z.ltb_spec (attempts j) (max_attempts j)), (Z.eqb_spec (attempts j) (max_attempts j)); try lia; done.
  - intros s' Hsteps. destruct (steps_evolve _ _ s s' Hr Hsteps j Hj) as (j' & Hj' & He). by exists j'.
Qed.

(** Enqueuing is idempotent.  Once a job is enqueued under a key, enqueuing
    again with that key for the same tenant and kind, at any later state,
    returns the first job's id and changes nothing. *)
Theorem enqueue_idempotent s s' job_id now k p q prio key max org t' r :
  reachable s → job_id ∉ id <$> jobs s → enqueue job_id now (jobs s) k p q prio (Some key) max org = Ok (t', r) →
  rtc step (State t' (issued s)) s' →
  ∀ job_id' now' p' q' prio' max', 0 ≤ prio' ≤ 9 → 1 ≤ max' →
    enqueue job_id' now' (jobs s') k p' q' prio' (Some key) max' org = Ok (jobs s', r).
Proof.
  intros Hr Hid He Hsteps job_id' now' p' q' prio' max' Hp Hm.
  assert (∃ j, j ∈ t' ∧ same_scope org k key j = true ∧ id j = r) as (j & Hj & Hsc & <-).
  { unfold enqueue in He. destruct (negb _); [done|]. destruct (filter _ _) as [|j js] eqn:Hf; simplify_eq.
    - eexists. split; [apply elem_of_app; right; apply list_elem_of_here|]. split; [by apply bool_decide_eq_true|done].
    - exists j. apply and_assoc. split; [|done]. apply and_comm, (list_elem_of_filter (λ j, same_scope org k key j = true)). rewrite Hf. apply list_elem_of_here. }
  assert (reachable (State t' (issued s))) as Hr1 by (eapply rtc_r; [done|by eapply step_enqueue]).
  destruct (steps_evolve _ _ _ s' Hr1 Hsteps j Hj) as (j' & Hj' & Hi & _).
  pose proof (reachable_inv _ _ s' (transitivity (R := rtc step) Hr1 Hsteps)) as Hs'.
  assert (same_scope org k key j' = true ∧ id j' = id j) as [Hsc' <-].
  { unfold same_scope, identity in *. rewrite bool_decide_eq_true in Hsc |- *. simplify_eq. split; [|done]. intuition congruence. }
  unfold enqueue. destruct (negb _) eqn:Hchk; [btrue; lia|]. clear Hchk.
  assert (j' ∈ filter (λ j, same_scope org k key j = true) (jobs s')) as Hin by (by apply list_elem_of_filter).
  destruct (filter _ _) as [|e es] eqn:Hf; [by apply not_elem_of_nil in Hin|].
  assert (e ∈ filter (λ j, same_scope org k key j = true) (jobs s')) as He' by (rewrite Hf; apply list_elem_of_here).
  apply list_elem_of_filter in He' as [Hsce Hej]. unfold same_scope in Hsc', Hsce. rewrite bool_decide_eq_true in Hsc', Hsce.
  destruct Hsc' as (Ho1 & Hk1 & Hkey1), Hsce as (Ho2 & Hk2 & Hkey2). assert (e = j') as -> by (apply (inv_scope_row s' e j' key Hs'); congruence). done.
Qed.
End properties.

(** * The backoff delays *)

(** the exact delay before attempt [n + 1] *)
Definition delay_of (n : Z) : Z := Z.min (5 * 2 ^ Z.max (n - 1) 0) 900.

Definition delay_check (n : Z) : bool :=
  bool_decide (base_delay n = Ok (SF64 (delay_of n) 0)) && bool_decide (backoff_seconds n (SF64 1 (-1)) = Ok (SF64 (delay_of n) 0)).

Lemma delays_checked : forallb delay_check (Z.of_nat <$> seq 0 1025) = true.
Proof. vm_compute. reflexivity. Qed.

Lemma base_delay_nonpositive n : n ≤ 0 → base_delay n = base_delay 0 ∧ delay_of n = delay_of 0.
Proof. intros Hn. unfold base_delay, delay_of. by rewrite !Z.max_r by lia. Qed.

Lemma delay_exact n : n ≤ 1024 →
  base_delay n = Ok (SF64 (delay_of n) 0) ∧ backoff_seconds n (SF64 1 (-1)) = Ok (SF64 (delay_of n) 0).
Proof.
  assert (∀ m, 0 ≤ m ≤ 1024 → base_delay m = Ok (SF64 (delay_of m) 0) ∧ backoff_seconds m (SF64 1 (-1)) = Ok (SF64 (delay_of m) 0)) as Hchk.
  { intros m Hm. pose proof (proj1 (forallb_forall delay_check _) delays_checked m) as Hall.
    unfold delay_check in Hall. apply andb_true_iff in Hall as [H1 H2]; [by rewrite bool_decide_eq_true in H1, H2|].
    apply list_elem_of_In, list_elem_of_fmap. exists (Z.to_nat m). split; [lia|]. apply elem_of_seq. lia. }
  intros Hn. destruct (decide (0 ≤ n)); [by apply Hchk|]. destruct (base_delay_nonpositive n ltac:(lia)) as [Hb Hd].
  unfold backoff_seconds. rewrite Hb, Hd. apply (Hchk 0). lia.
Qed.

Lemma cap_finite : SF64 900 0 = S754_finite false 7916483719987200 (-43).
Proof. vm_compute. reflexivity. Qed.

Lemma fmin_cap_le x : SFltb (SF64 0 0) (fmin x (SF64 900 0)) = true → SFleb (fmin x (SF64 900 0)) (SF64 900 0) = true.
Proof.
  rewrite cap_finite. generalize 7916483719987200%positive, (-43). intros mc ec. unfold fmin.
  destruct (SFltb (S754_finite false mc ec) x) eqn:Hc; intros Hx.
  { unfold SFleb. cbn. by rewrite Z.compare_refl, Pos.compare_cont_refl. }
  unfold SFltb, SFleb in *. destruct x as [sg|sg| |sg m e]; [done|by destruct sg|done|]. destruct sg; [done|].
  cbn in Hc |- *. rewrite Z.compare_antisym in Hc. destruct (e ?= ec); try done.
  pose proof (Pos.compare_cont_antisym m mc Eq) as Hanti. cbn [CompOpp] in Hanti. rewrite <- Hanti in Hc.
  by destruct (PosDef.Pos.compare_cont Eq m mc).
Qed.

(** The retry delay is a number between 0 and 15 minutes for every draw of
    the generator, and with the middle draw it is exactly
    [min (5 * 2 ^ (attempts - 1)) 900] seconds; from 1025 attempts on computing
    it raises [OverflowError], the power of two being taken before the cap. *)
Theorem backoff_bounds n draw :
  (1025 ≤ n → backoff_seconds n draw = Err OverflowError) ∧
  (n ≤ 1024 →
    (∃ d, backoff_seconds n draw = Ok d ∧ SFleb (SF64 0 0) d = true ∧ SFleb d (SF64 900 0) = true) ∧
    backoff_seconds n (SF64 1 (-1)) = Ok (SF64 (delay_of n) 0)).
Proof.
  split.
  - intros Hn. unfold backoff_seconds, base_delay, pow2. destruct (Z.leb_spec (Z.max (n - 1) 0) 1023); [lia|done].
  - intros Hn. destruct (delay_exact n Hn) as [Hb Hd]. split; [|done]. unfold backoff_seconds. rewrite Hb. cbn [mbind result_bind].
    eexists. split; [done|]. unfold fmax, RETRY_BACKOFF_CAP_SECONDS.
    destruct (SFltb (SF64 0 0) (fmin _ _)) eqn:Hpos; [|by vm_compute]. split; [|by apply fmin_cap_le].
    revert Hpos. generalize (fmin (jittered (SF64 (delay_of n) 0) draw) (SF64 900 0)). intros d. unfold SFltb, SFleb. by destruct (SFcompare _ _) as [[]|].
Qed.

(** * A run of the queue: a worker dies, its job is reaped and claimed again *)

Module Run.
Definition minute (_ : spec_float) : Z := 60000000.
Definition plain (message : string) : string := message.
Definition job0 : job := new_job "j1" "extract" "default" 5 (JObj []) (Some "org"%string) (Some "key"%string) 2 0.
Definition enqueued : state := State [job0] [].
Definition claimed (lease_id : string) (now : Z) (s : state) : state :=
  State (claim_one lease_id now [] (jobs s) "default").1 (issued s ++ option_list (claim_one lease_id now [] (jobs s) "default").2).
Definition reaped (now : Z) (s : state) : state := State (reap_stale minute plain now (SF64 60 0) (jobs s)).1 (issued s).
Definition lost : state := reaped 60000001 (claimed "l1" 0 enqueued).
Definition final : state := claimed "l2" 60000002 lost.
Definition claim1 : claimed_job := ClaimedJob "j1" "extract" "default" (JObj []) 1 2 "l1" (Some "org"%string).
Definition row : job := List.hd job0 (jobs final).

Lemma from_enqueued : rtc (step minute plain) enqueued final.
Proof.
  apply (rtc_l _ _ (claimed "l1" 0 enqueued)); [apply step_claim, not_elem_of_nil|].
  apply (rtc_l _ _ lost); [by apply (step_reap minute plain (claimed "l1" 0 enqueued))|].
  apply rtc_once, step_claim. apply (bool_decide_unpack _). vm_compute. exact I.
Qed.

Lemma to_enqueued : reachable minute plain enqueued.
Proof.
  apply rtc_once. apply (step_enqueue minute plain (State [] []) "j1" 0 "extract" (JObj []) "default" 5 (Some "key"%string) 2 (Some "org"%string) [job0] "j1");
    [apply not_elem_of_nil|reflexivity].
Qed.

Lemma to_final : reachable minute plain final.
Proof. exact (transitivity (R := rtc (step minute plain)) to_enqueued from_enqueued). Qed.

Lemma claim1_issued : claim1 ∈ issued final.
Proof. apply list_elem_of_here. Qed.

Lemma row_final : row ∈ jobs final.
Proof. apply list_elem_of_here. Qed.

Lemma claim1_lost : ¬ current claim1 (jobs final).
Proof. intros (j & [->|[]%not_elem_of_nil]%elem_of_cons & (_ & Hl & _)%owned_spec). vm_compute in Hl. congruence. Qed.
End Run.

Lemma queue_invariant_witness : reachable Run.minute Run.plain Run.final ∧ NoDup (id <$> jobs Run.final).
Proof. split; [apply Run.to_final|apply (queue_invariant Run.minute Run.plain Run.final Run.to_final)]. Defined.

Lemma lease_fencing_witness : ¬ current Run.claim1 (jobs Run.final) ∧ ∀ s', rtc (step Run.minute Run.plain) Run.final s' → ¬ current Run.claim1 (jobs s').
Proof.
  split; [apply Run.claim1_lost|]. intros s' Hs. destruct (lease_fencing Run.minute Run.plain Run.final Run.claim1 Run.to_final Run.claim1_issued) as (_ & _ & _ & Hlost).
  apply Hlost; [done|apply Run.claim1_lost].
Defined.

Lemma retries_bounded_witness : attempts Run.row = 2 ∧ ∀ now, status (reap_row Run.plain now Run.row) = failed.
Proof.
  destruct (retries_bounded Run.minute Run.plain Run.final Run.row Run.to_final Run.row_final) as (_ & _ & _ & Hreap & _).
  split; [reflexivity|]. intros now. rewrite Hreap. reflexivity.
Defined.

Lemma enqueue_idempotent_witness :
  enqueue "j2" 5 (jobs Run.final) "extract" (JObj []) "default" 0 (Some "key"%string) 1 (Some "org"%string) = Ok (jobs Run.final, "j1"%string).
Proof.
  apply (enqueue_idempotent Run.minute Run.plain (State [] []) Run.final "j1" 0 "extract" (JObj []) "default" 5 "key" 2
    (Some "org"%string) [Run.job0] "j1"); [apply rtc_refl|apply not_elem_of_nil|reflexivity|apply Run.from_enqueued|lia|lia].
Defined.
