(* ===== verification/Discovery.v ===== *)
(** [workers/src/fel_workers/ingestion/discovery.py]: a submissions index becomes one
    fetch job per filing, and the identifiers of the ingestion workers.

    The client's [submissions] call is an argument that returns the decoded index
    or the text of the exception it raised.  The uuids of new jobs are a stream,
    read at a tick.  An exception is its [str]. *)

From Stdlib Require Import SpecFloat.
From S2P Require Import Prelude Dicts Text Decimals Periods Floats Canonical Uuids IsoDates Numeric Queue QueueSafety Payload.
Local Open Scope Z_scope.

(** * Identifiers *)

Definition INGESTION_NAMESPACE : Z := Eval vm_compute in uuid5 NAMESPACE_URL "https://financial-evidence-lab.dev/ingestion".

Fixpoint lstrip_set (set : list ascii) (s : string) : string :=
  match s with String a s' => if decide (a ∈ set) then lstrip_set set s' else s | EmptyString => EmptyString end.

(** [s.zfill(width)] of a text without a sign *)
Definition zfill (width : nat) (s : string) : string :=
  String.string_of_list_ascii (replicate (width - String.length s) "0"%char) +:+ s.

(** [text.isdigit()] *)
Definition all_isdigit (s : string) : bool := negb (bool_decide (s = ""%string)) && forallb isdigit (chars s).

Definition normalize_cik (cik : string) : result string string :=
  let digits := strip (lstrip_set (chars "CIK") (strip cik)) in
  if all_isdigit digits then Ok (zfill 10 digits) else Err ("invalid CIK " +:+ repr_str cik +:+ ": expected digits")%string.

Definition entity_id_for_cik (cik : string) : result string string :=
  normalized ← normalize_cik cik; Ok (uuid_str (uuid5 INGESTION_NAMESPACE ("entity|" +:+ normalized)%string)).

(** * The submissions index *)

Record filing_ref := FilingRef {
  f_cik : string; f_accession : string; f_form : string; f_filed_on : date; f_primary_document_url : option string;
}.

Definition list_or_empty (v : value) : list value := match v with ListV l => l | _ => [] end.

Record recent_lists := RecentLists { r_accessions : list value; r_forms : list value; r_dates : list value; r_documents : list value }.

Definition _recent_lists (index : payload) : result string recent_lists :=
  match get "filings" index with
  | DictV filings =>
      match get "recent" filings with
      | DictV recent =>
          Ok (RecentLists (list_or_empty (get "accessionNumber" recent)) (list_or_empty (get "form" recent))
                (list_or_empty (get "filingDate" recent)) (list_or_empty (get "primaryDocument" recent)))
      | _ => Err "submissions payload is missing 'filings.recent'"%string
      end
  | _ => Err "submissions payload is missing the 'filings' object"%string
  end.

Definition text_at (l : list value) (index : nat) : string := match l !! index with Some v => py_str v | None => ""%string end.

(** the digits [int] reads before it refuses a text for its length *)
Definition INT_MAX_STR_DIGITS : nat := 4300.

(** [int(digits)] of a text whose characters are all [isdigit] *)
Definition int_of_isdigits (s : string) : result string Z :=
  if forallb is_digit (chars s) then
    if (INT_MAX_STR_DIGITS <? String.length s)%nat then
      Err ("Exceeds the limit (4300 digits) for integer string conversion: value has " +:+ str_of_Z (Z.of_nat (String.length s)) +:+
           " digits; use sys.set_int_max_str_digits() to increase the limit")%string
    else Ok (Z.of_N (undigits (digit_val <$> chars s)))
  else Err ("invalid literal for int() with base 10: " +:+ repr_str s)%string.

Definition archive_url (normalized : string) (accession : value) (primary : string) : result string string :=
  n ← int_of_isdigits normalized;
  Ok ("https://www.sec.gov/Archives/edgar/data/" +:+ str_of_Z n +:+ "/" +:+ remove_char "-" (py_str accession) +:+ "/" +:+ primary)%string.

(** the filing listed at [index]; [None] when its form was not asked for *)
Definition filing_at (normalized : string) (recent : recent_lists) (forms : option (list string)) (index : nat) (accession : value)
    : result string (option filing_ref) :=
  let form := text_at (r_forms recent) index in
  if match forms with Some l => bool_decide (form ∉ l) | None => false end then Ok None else
  let filed_text := text_at (r_dates recent) index in
  match date_fromisoformat filed_text with
  | None => Err ("filing " +:+ repr accession +:+ " has unparseable filingDate " +:+ repr_str filed_text)%string
  | Some filed_on =>
      let primary := match r_documents recent !! index with Some v => if truth v then Some (py_str v) else None | None => None end in
      url ← match primary with
            | Some (String _ _ as p) => u ← archive_url normalized accession p; Ok (Some u)
            | _ => Ok None
            end;
      Ok (Some (FilingRef normalized (py_str accession) form filed_on url))
  end.

Fixpoint filings_from (normalized : string) (recent : recent_lists) (forms : option (list string)) (index : nat) (accessions : list value)
    : result string (list filing_ref) :=
  match accessions with
  | [] => Ok []
  | accession :: rest =>
      r ← filing_at normalized recent forms index accession;
      refs ← filings_from normalized recent forms (S index) rest;
      Ok (option_list r ++ refs)
  end.

Section discovery.
Context (submissions : string → result string payload).

Definition discover_filings (cik : string) (forms : option (list string)) : result string (list filing_ref) :=
  normalized ← normalize_cik cik;
  index ← submissions normalized;
  recent ← _recent_lists index;
  filings_from normalized recent forms 0 (r_accessions recent).

(** * The fetch jobs *)

Definition JOB_KIND_SEC_DISCOVERY : string := "sec_discovery".
Definition JOB_KIND_SEC_FILING_FETCH : string := "sec_filing_fetch".

Definition fetch_payload (ref : filing_ref) : json :=
  JObj [("cik", JStr (f_cik ref)); ("accession", JStr (f_accession ref)); ("form", JStr (f_form ref));
        ("filed_on", JStr (date_isoformat (f_filed_on ref)));
        ("url", match f_primary_document_url ref with Some u => JStr u | None => JNull end)]%string.

Definition fetch_key (ref : filing_ref) : string := ("sec-fetch|" +:+ f_accession ref)%string.

(** [queue.enqueue(conn, kind=..., payload=..., queue=job_queue, idempotency_key=...)] *)
Definition enqueue_fetch (job_queue : string) (now : Z) (fresh : string) (ref : filing_ref) (t : table) : result queue_error (table * string) :=
  enqueue fresh now t JOB_KIND_SEC_FILING_FETCH (fetch_payload ref) job_queue 5 (Some (fetch_key ref)) 5 None.

Fixpoint enqueue_all (job_queue : string) (now : Z) (ids : nat → string) (refs : list filing_ref) (t : table) : table :=
  match refs with
  | [] => t
  | ref :: refs' =>
      match enqueue_fetch job_queue now (ids 0%nat) ref t with
      | Ok (t', _) => enqueue_all job_queue now (λ n, ids (S n)) refs' t'
      | Err _ => t
      end
  end.

Definition requested_forms (p : payload) : option (list string) :=
  match get "forms" p with ListV l => Some (py_str <$> l) | _ => None end.

(** the jobs, or the message of the exception that ended the handler before any *)
Definition run_discovery_job (job_queue : string) (now : Z) (ids : nat → string) (p : payload) (t : table)
    : result string (list filing_ref * table) :=
  let cik := match dict_get "cik"%string p with Some v => py_str v | None => ""%string end in
  refs ← discover_filings cik (requested_forms p);
  Ok (refs, enqueue_all job_queue now ids refs t).
End discovery.

(** * A CIK has one spelling *)

Lemma lstrip_set_id set s : (∀ a, a ∈ chars s → a ∉ set) → lstrip_set set s = s.
Proof. destruct s as [|a s]; [done|]. intros Hs. cbn. rewrite decide_False; [done|]. apply Hs, list_elem_of_here. Qed.

Lemma isdigit_plain a : isdigit a = true → is_space a = false ∧ a ∉ chars "CIK".
Proof.
  intros Ha. enough (is_space a = false ∧ bool_decide (a ∈ chars "CIK") = false) as [Hs Hc] by (by rewrite bool_decide_eq_false in Hc).
  revert Ha. by destruct a as [[] [] [] [] [] [] [] []]; vm_compute.
Qed.

Lemma chars_zfill w s : chars (zfill w s) = replicate (w - String.length s) "0"%char ++ chars s.
Proof. unfold zfill. by rewrite chars_app, String.list_ascii_of_string_of_list_ascii. Qed.

Lemma length_chars s : length (chars s) = String.length s.
Proof. induction s as [|a s IH]; [done|]. cbn. by rewrite IH. Qed.

Lemma zfill_spec w s : all_isdigit s = true → all_isdigit (zfill w s) = true ∧ (w ≤ String.length (zfill w s))%nat.
Proof.
  unfold all_isdigit. intros [Hne Hd]%andb_true_iff. assert ((w ≤ String.length (zfill w s))%nat) as Hw.
  { rewrite <- length_chars, chars_zfill, length_app, length_replicate, length_chars. lia. }
  split; [|done]. apply andb_true_iff. split.
  - btrue. rewrite negb_true_iff, bool_decide_eq_false. intros He. apply Hne. destruct s as [|a s]; [done|].
    apply (f_equal chars) in He. rewrite chars_zfill in He. by destruct (replicate _ _).
  - rewrite chars_zfill, forallb_app, Hd, andb_true_r. by induction (w - String.length s)%nat.
Qed.

Lemma normalize_digits s : all_isdigit s = true → normalize_cik s = Ok (zfill 10 s) ∧ normalize_cik ("CIK" +:+ s) = Ok (zfill 10 s).
Proof.
  intros Hs. pose proof Hs as Hd. unfold all_isdigit in Hd. apply andb_true_iff in Hd as [Hne Hd].
  assert (Forall (λ a, is_space a = false) (chars s)) as Hsp.
  { apply Forall_forall. intros a Ha. apply isdigit_plain. apply (proj1 (forallb_forall _ _) Hd). by apply list_elem_of_In. }
  assert (lstrip_set (chars "CIK") s = s) as Hl.
  { apply lstrip_set_id. intros a Ha. apply isdigit_plain. apply (proj1 (forallb_forall _ _) Hd). by apply list_elem_of_In. }
  unfold normalize_cik. split.
  - rewrite (strip_id s) by done. by rewrite Hl, strip_id, Hs.
  - rewrite (strip_id ("CIK" +:+ s)) by (rewrite chars_app, Forall_app; split; [by repeat constructor|done]).
    change (lstrip_set (chars "CIK") ("CIK" +:+ s)) with (lstrip_set (chars "CIK") s). by rewrite Hl, strip_id, Hs.
Qed.

Lemma zfill_id w s : (w ≤ String.length s)%nat → zfill w s = s.
Proof. intros Hw. unfold zfill. replace (w - String.length s)%nat with 0%nat by lia. done. Qed.

(** The normal form of a CIK is stable: it normalizes to itself, with or without
    the prefix, so every accepted spelling of an issuer's number gives the same
    entity. *)
Theorem cik_normal_form (cik n : string) :
  normalize_cik cik = Ok n →
  all_isdigit n = true ∧ (10 ≤ String.length n)%nat ∧ normalize_cik n = Ok n ∧ normalize_cik ("CIK" +:+ n) = Ok n ∧
  entity_id_for_cik n = entity_id_for_cik cik.
Proof.
  intros Hn. assert (all_isdigit n = true ∧ (10 ≤ String.length n)%nat) as [Hd Hl].
  { unfold normalize_cik in Hn. case_match eqn:Hs; [|done]. injection Hn as <-. by apply zfill_spec. }
  destruct (normalize_digits n Hd) as [H1 H2]. rewrite zfill_id in H1, H2 by done. do 4 (split; [done|]).
  unfold entity_id_for_cik. by rewrite H1, Hn.
Qed.

Lemma cik_normal_form_witness : normalize_cik " CIK320193 " = Ok "0000320193"%string ∧ normalize_cik "0000320193" = Ok "0000320193"%string.
Proof. split; [by vm_compute|]. by apply (cik_normal_form " CIK320193 "). Defined.

(** * Discovery and the queue *)

Section fetch_jobs.
Context (make_interval : spec_float → Z) (redact : string → string).
Notation step := (step make_interval redact).
Notation reachable := (reachable make_interval redact).

Definition fetch_job_of (ref : filing_ref) (j : job) : bool := same_scope None JOB_KIND_SEC_FILING_FETCH (fetch_key ref) j.

Lemma enqueue_fetch_cases q now fresh ref (t : table) :
  (∃ j, j ∈ t ∧ fetch_job_of ref j = true ∧ enqueue_fetch q now fresh ref t = Ok (t, id j)) ∨
  ((∀ j, j ∈ t → fetch_job_of ref j = false) ∧
   let row := new_job fresh JOB_KIND_SEC_FILING_FETCH q 5 (fetch_payload ref) None (Some (fetch_key ref)) 5 now in
   enqueue_fetch q now fresh ref t = Ok (t ++ [row], fresh) ∧ fetch_job_of ref row = true).
Proof.
  unfold enqueue_fetch, enqueue. cbn [negb Z.leb Z.compare andb Pos.compare Pos.compare_cont].
  destruct (filter _ t) as [|j js] eqn:Hf.
  - right. split; [|split; [done|unfold fetch_job_of, same_scope; by rewrite bool_decide_true]].
    intros j Hj. destruct (fetch_job_of ref j) eqn:Hs; [|done].
    assert (j ∈ filter (λ j, same_scope None JOB_KIND_SEC_FILING_FETCH (fetch_key ref) j = true) t) as Hin by (by apply list_elem_of_filter).
    rewrite Hf in Hin. by apply not_elem_of_nil in Hin.
  - left. exists j. assert (j ∈ filter (λ j, same_scope None JOB_KIND_SEC_FILING_FETCH (fetch_key ref) j = true) t) as Hin by (rewrite Hf; apply list_elem_of_here).
    apply list_elem_of_filter in Hin as [Hs Hj]. done.
Qed.

(** the new identifiers are distinct and unused *)
Definition fresh_ids (ids : nat → string) (t : table) : Prop := (∀ m n, ids m = ids n → m = n) ∧ ∀ n, ids n ∉ id <$> t.

Definition fetch_rows (refs : list filing_ref) (new : table) : Prop :=
  Forall (λ j, status j = queued ∧ ∃ ref, ref ∈ refs ∧ fetch_job_of ref j = true ∧ Queue.payload j = fetch_payload ref) new.

Lemma enqueue_all_spec q now refs ids (s : state) :
  reachable s → fresh_ids ids (jobs s) →
  let t' := enqueue_all q now ids refs (jobs s) in
  rtc step s (State t' (issued s)) ∧ (∃ new, t' = jobs s ++ new ∧ fetch_rows refs new) ∧
  ∀ ref, ref ∈ refs → ∃ j, j ∈ t' ∧ fetch_job_of ref j = true.
Proof using Type.
  revert ids s. induction refs as [|ref refs IH]; intros ids s Hs Hids; cbn [enqueue_all].
  { cbv zeta. split; [destruct s; apply rtc_refl|]. split; [exists []; rewrite app_nil_r; split; [done|constructor]|]. intros ref Hr. by apply not_elem_of_nil in Hr. }
  assert (∃ t1 r, enqueue_fetch q now (ids 0%nat) ref (jobs s) = Ok (t1, r) ∧ (∃ new, t1 = jobs s ++ new ∧ fetch_rows [ref] new ∧ (id <$> new) ⊆ [ids 0%nat]) ∧
      ∃ j, j ∈ t1 ∧ fetch_job_of ref j = true) as (t1 & r & He & (new1 & Ht1 & Hnew1 & Hid1) & (j1 & Hj1 & Hf1)).
  { destruct (enqueue_fetch_cases q now (ids 0%nat) ref (jobs s)) as [(j & Hj & Hf & ->)|(_ & -> & Hf)].
    - exists (jobs s), (id j). split; [done|]. split; [|by exists j]. exists []. rewrite app_nil_r. split; [done|]. split; [constructor|set_solver].
    - eexists _, _. split; [done|]. split; [|eexists; split; [apply elem_of_app; right; apply list_elem_of_here|done]].
      eexists. split; [done|]. split; [|cbn; set_solver]. constructor; [|constructor]. split; [done|]. exists ref. split; [apply list_elem_of_here|done]. }
  rewrite He. destruct Hids as [Hinj Hnew].
  assert (step s (State t1 (issued s))) as Hstep by (eapply step_enqueue; [apply (Hnew 0%nat)|exact He]).
  assert (reachable (State t1 (issued s))) as Hs1 by (by eapply rtc_r).
  assert (fresh_ids (λ n, ids (S n)) t1) as Hids1.
  { split; [intros m n Heq; specialize (Hinj _ _ Heq); lia|]. intros n. rewrite Ht1, fmap_app, not_elem_of_app. split; [apply Hnew|].
    intros Hin%Hid1%list_elem_of_singleton. specialize (Hinj _ _ Hin). lia. }
  destruct (IH (λ n, ids (S n)) (State t1 (issued s)) Hs1 Hids1) as (Hr & (new2 & Heq & Hnew2) & Hall). cbn [jobs issued] in Hr, Heq, Hall.
  cbv zeta. split; [by eapply rtc_l|]. split.
  - exists (new1 ++ new2). rewrite Heq, Ht1, app_assoc. split; [done|]. apply Forall_app. split.
    + eapply Forall_impl; [exact Hnew1|]. intros j (Hq & ref' & ->%list_elem_of_singleton & Hj). split; [done|]. exists ref. split; [apply list_elem_of_here|done].
    + eapply Forall_impl; [exact Hnew2|]. intros j (Hq & ref' & Hin & Hj). split; [done|]. exists ref'. split; [by apply list_elem_of_further|done].
  - intros ref' [->|Hin]%elem_of_cons; [|by apply Hall]. exists j1. split; [|done]. rewrite Heq. apply elem_of_app. by left.
Qed.

Lemma enqueue_all_done q now ids refs (t : table) :
  (∀ ref, ref ∈ refs → ∃ j, j ∈ t ∧ fetch_job_of ref j = true) → enqueue_all q now ids refs t = t.
Proof using Type.
  revert ids. induction refs as [|ref refs IH]; intros ids Hall; [done|]. cbn [enqueue_all].
  destruct (Hall ref (list_elem_of_here _ _)) as (j & Hj & Hf).
  destruct (enqueue_fetch_cases q now (ids 0%nat) ref t) as [(j' & _ & _ & ->)|(Hno & _)]; [|specialize (Hno j Hj); congruence].
  apply IH. intros ref' Hr. apply Hall. by apply list_elem_of_further.
Qed.

Lemma fetch_job_evolves ref j j' : evolves j j' → fetch_job_of ref j = true → fetch_job_of ref j' = true.
Proof using Type. intros (Hid & _) Hf. unfold fetch_job_of, same_scope in *. rewrite bool_decide_eq_true in *. unfold identity in Hid. injection Hid as _ -> -> -> _ _. done. Qed.

(** C23: Discovery schedules each filing once.  Its writes are steps of the queue: they
    append queued jobs that carry the filings' data, and change no other row.
    Afterwards every listed filing has exactly one fetch job, and running discovery
    again at any later state of the queue, whatever became of the jobs, adds
    nothing. *)
Theorem discovery_schedules_once submissions q now ids p (s s' : state) refs t' :
  reachable s → fresh_ids ids (jobs s) → run_discovery_job submissions q now ids p (jobs s) = Ok (refs, t') →
  rtc step (State t' (issued s)) s' →
  rtc step s (State t' (issued s)) ∧ (∃ new, t' = jobs s ++ new ∧ fetch_rows refs new) ∧
  (∀ ref, ref ∈ refs → ∃ j, j ∈ t' ∧ fetch_job_of ref j = true ∧ ∀ j', j' ∈ t' → fetch_job_of ref j' = true → j' = j) ∧
  ∀ q' now' ids', run_discovery_job submissions q' now' ids' p (jobs s') = Ok (refs, jobs s').
Proof using Type.
  intros Hs Hids Hrun Hlater. unfold run_discovery_job in Hrun. apply bind_Ok in Hrun as (refs' & Hrefs & [= -> <-]).
  destruct (enqueue_all_spec q now refs ids s Hs Hids) as (Hr & Hnew & Hall). cbv zeta in Hr, Hnew, Hall.
  set (t' := enqueue_all q now ids refs (jobs s)) in *.
  assert (reachable (State t' (issued s))) as Hs1 by (exact (transitivity (R := rtc step) Hs Hr)).
  split; [done|]. split; [done|]. split.
  - intros ref Hin. destruct (Hall ref Hin) as (j & Hj & Hf). exists j. do 2 (split; [done|]). intros j' Hj' Hf'.
    unfold fetch_job_of, same_scope in Hf, Hf'. rewrite bool_decide_eq_true in Hf, Hf'. destruct Hf as (Ho & Hk & Hi), Hf' as (Ho' & Hk' & Hi').
    by apply (inv_scope_row (State t' (issued s)) j' j (fetch_key ref) (reachable_inv make_interval redact _ Hs1) Hj' Hj Hi' Hi); congruence.
  - intros q' now' ids'. unfold run_discovery_job. rewrite Hrefs. cbn [mbind result_bind]. do 2 f_equal. apply enqueue_all_done.
    intros ref Hin. destruct (Hall ref Hin) as (j & Hj & Hf). destruct (steps_evolve make_interval redact _ _ Hs1 Hlater j Hj) as (j' & Hj' & He).
    exists j'. split; [done|]. by eapply fetch_job_evolves.
Qed.
End fetch_jobs.

(** * An index with two filings and a ten-digit issuer *)

Module Index.
Definition submissions (_ : string) : result string payload :=
  Ok [("filings", DictV [("recent", DictV [
    ("accessionNumber", ListV [StrV "0000320193-24-000123"; StrV "0000320193-24-000081"; StrV "0000320193-24-000069"]);
    ("form", ListV [StrV "10-K"; StrV "8-K"; StrV "10-Q"]); ("filingDate", ListV [StrV "2024-11-01"; StrV "2024-08-02"; StrV "2024-05-03"]);
    ("primaryDocument", ListV [StrV "aapl-20240928.htm"; StrV "x.htm"; NoneV])])])]%string.
Definition request : payload := [("cik", StrV "CIK320193"); ("forms", ListV [StrV "10-K"; StrV "10-Q"])]%string.
Definition ids (n : nat) : string := String.string_of_list_ascii (replicate n "a"%char).
Definition outcome : result string (list filing_ref * table) := Eval vm_compute in run_discovery_job submissions "ingestion" 0 ids request [].
Definition found : list filing_ref := Eval vm_compute in match outcome with Ok (refs, _) => refs | Err _ => [] end.
Definition rows : table := Eval vm_compute in match outcome with Ok (_, t) => t | Err _ => [] end.

Example urls : f_primary_document_url <$> found =
  [Some "https://www.sec.gov/Archives/edgar/data/320193/000032019324000123/aapl-20240928.htm"; None]%string.
Proof. reflexivity. Qed.
End Index.

Lemma discovery_schedules_once_witness :
  length Index.rows = 2%nat ∧
  ∀ q' now' ids', run_discovery_job Index.submissions q' now' ids' Index.request Index.rows = Ok (Index.found, Index.rows).
Proof.
  split; [reflexivity|].
  apply (discovery_schedules_once (λ _, 0) (λ m, m) Index.submissions "ingestion" 0 Index.ids Index.request (State [] []) (State Index.rows []) Index.found Index.rows).
  - apply rtc_refl.
  - split; [|intros n Hin; by apply not_elem_of_nil in Hin]. intros m n Heq. apply (f_equal (λ t, length (chars t))) in Heq.
    unfold Index.ids in Heq. by rewrite !String.list_ascii_of_string_of_list_ascii, !length_replicate in Heq.
  - vm_compute. reflexivity.
  - apply rtc_refl.
Defined.
