(* ===== verification/Consumer.v ===== *)
(** [workers/src/fel_workers/consumer.py]: the loop that claims jobs and dispatches
    them to handlers, with the lease heartbeat that runs beside a handler.

    The worker's state is the queue, the status of every extraction run and the
    count of completed jobs, with the writes it issued so far as a history.  Every
    statement is preceded by what other sessions did to the database since the last
    one: a list of [move]s, each the queue's own function under a claim that exists,
    or a run-status write, which the database refuses on a terminal run.  A handler
    is the moves made while it ran, its heartbeats among them, and its outcome.
    Telemetry and logging are left out. *)

From Stdlib Require Import SpecFloat.
From S2P Require Import Prelude Effects Dicts Text Decimals Periods Floats Canonical Uuids Queue QueueSafety Redact Payload Workflow Discovery.
Local Open Scope Z_scope.

(** * The job's payload *)

Fixpoint value_of_json (j : json) : value :=
  match j with
  | JNull => NoneV
  | JBool b => BoolV b
  | JInt z => IntV z
  | JStr s => StrV s
  | JArr l => ListV (map value_of_json l)
  | JObj fields => DictV (map (λ kv, (fst kv, value_of_json (snd kv))) fields)
  end.

(** a job's payload is an object *)
Definition payload_of (c : claimed_job) : payload := match value_of_json (cj_payload c) with DictV d => d | _ => [] end.

(** [handler._payload_data] *)
Definition _payload_data (p : payload) : payload := match get "request" p with DictV d => d | _ => p end.

(** [a or b] *)
Definition py_or (a b : value) : value := if truth a then a else b.

(** [handler.run_id_from_payload] *)
Definition run_id_from_payload (p : payload) : option string :=
  let data := _payload_data p in canonical_uuid (py_str (py_or (py_or (get "run_id" data) (get "id" data)) (StrV ""))).

(** * Reasons *)

Definition status_text (s : run_status) : string :=
  match s with
  | Queued => "queued" | Running => "running" | WaitingReview => "waiting_review" | Succeeded => "succeeded"
  | Failed => "failed" | RunCancelled => "cancelled"
  end.

Definition is_lower (a : ascii) : bool := let n := N_of_ascii a in ((97 <=? n) && (n <=? 122))%N.

Definition _safe_extraction_code (v : value) : string :=
  match v with
  | StrV (String a _ as s) =>
      if (String.length s <=? 64)%nat && is_lower a && forallb (λ b, is_lower b || is_digit b || Ascii.eqb b "_") (chars s)
      then s else "extraction_error"
  | _ => "extraction_error"
  end.

Definition _safe_extraction_run_id (v : value) : string :=
  match v with
  | StrV (String _ _ as s) =>
      if (String.length s <=? 64)%nat && forallb (λ b, bool_decide (is_Some (hex_value b)) || Ascii.eqb b "-") (chars s) then s else "unknown"
  | _ => "unknown"
  end.

Definition _extraction_job_reason (run_id : value) (status : string) (error : option payload) (code : value) : string :=
  let safe_code := _safe_extraction_code (if is_none code then get "code" (default [] error) else code) in
  ("extraction run " +:+ _safe_extraction_run_id run_id +:+ " " +:+ status +:+ "; code=" +:+ safe_code +:+ "; extraction detail withheld")%string.

Definition parked_reason (run_id : string) (status : run_status) (detail_code : option string) : string :=
  let reason := ("extraction run " +:+ _safe_extraction_run_id (StrV run_id) +:+ " is already " +:+ status_text status +:+
    ": terminal runs are final (#146); job parked to match the run, not retried")%string in
  match detail_code with
  | Some (String _ _ as c) => (reason +:+ "; last_attempt_code=" +:+ _safe_extraction_code (StrV c) +:+ "; extraction detail withheld")%string
  | _ => reason
  end.

(** * The world *)

Inductive write := WComplete | WFail | WDeadLetter | WCancel.

#[export] Instance write_eq_dec : EqDecision write.
Proof. solve_decision. Defined.

Notation run_table := (gmap (Z * string) run_status).

Record world := World {
  w_queue : state; w_runs : run_table; w_tick : nat; w_completed : nat; w_writes : list (claimed_job * write * bool);
}.

Definition set_queue (s : state) (w : world) : world := World s (w_runs w) (w_tick w) (w_completed w) (w_writes w).
Definition set_runs (r : run_table) (w : world) : world := World (w_queue w) r (w_tick w) (w_completed w) (w_writes w).
Definition next_tick (w : world) : world := World (w_queue w) (w_runs w) (S (w_tick w)) (w_completed w) (w_writes w).
Definition one_completed (w : world) : world := World (w_queue w) (w_runs w) (w_tick w) (S (w_completed w)) (w_writes w).
Definition log_write (e : claimed_job * write * bool) (w : world) : world :=
  World (w_queue w) (w_runs w) (w_tick w) (w_completed w) (w_writes w ++ [e]).

Definition redacted (message : string) : string := redact_job_error_text message MAX_ERROR_CHARS.

Section consumer.
Context (make_interval : spec_float → Z).

(** what another session does; a claim is named by its place among the claims made *)
Inductive move :=
| MoveEnqueue (job_id : string) (now : Z) (k : string) (p : json) (q : string) (prio : Z) (key : option string) (max : Z) (org : option string)
| MoveClaim (lease_id : string) (now : Z) (locked : list string) (q : string)
| MoveHeartbeat (c : nat) (now : Z)
| MoveComplete (c : nat) (now : Z)
| MoveFail (c : nat) (now : Z) (message : string) (now_arg : option Z) (draw : spec_float)
| MoveDeadLetter (c : nat) (now : Z) (message : string)
| MoveCancel (c : nat) (now : Z) (message : string)
| MoveReap (now : Z) (stale_seconds : spec_float)
| MoveRequestCancel (job_id : string) (org : string) (now : Z)
| MoveRun (run : Z) (org : string) (status : run_status).

Definition under (i : nat) (s : state) (f : claimed_job → table → table) : state :=
  match issued s !! i with Some c => State (f c (jobs s)) (issued s) | None => s end.

Definition move_queue (m : move) (s : state) : state :=
  match m with
  | MoveEnqueue job_id now k p q prio key max org =>
      if decide (job_id ∈ id <$> jobs s) then s else
      match enqueue job_id now (jobs s) k p q prio key max org with Ok (t, _) => State t (issued s) | Err _ => s end
  | MoveClaim lease_id now locked q =>
      if decide (lease_id ∈ cj_lease <$> issued s) then s else
      let '(t, o) := claim_one lease_id now locked (jobs s) q in State t (issued s ++ option_list o)
  | MoveHeartbeat i now => under i s (λ c t, (heartbeat now c t).1)
  | MoveComplete i now => under i s (λ c t, (complete now c t).1)
  | MoveFail i now message now_arg draw =>
      under i s (λ c t, match fail make_interval redacted now c message now_arg draw t with Ok (t', _) => t' | Err _ => t end)
  | MoveDeadLetter i now message => under i s (λ c t, (dead_letter redacted now c message t).1)
  | MoveCancel i now message => under i s (λ c t, (cancel redacted now c message t).1)
  | MoveReap now stale_seconds => State (reap_stale make_interval redacted now stale_seconds (jobs s)).1 (issued s)
  | MoveRequestCancel job_id org now =>
      State (update_where (λ j, bool_decide (id j = job_id ∧ Queue.org_id j = Some org)) (set_cancel now) (jobs s)).1 (issued s)
  | MoveRun _ _ _ => s
  end.

Definition is_terminal (s : run_status) : bool := bool_decide (s ∈ TERMINAL_RUN_STATUSES).

(** the database's trigger: a terminal run cannot be mutated *)
Definition move_runs (m : move) (r : run_table) : run_table :=
  match m with
  | MoveRun run org status =>
      if match r !! (run, org) with Some s => is_terminal s | None => false end then r else <[(run, org) := status]> r
  | _ => r
  end.

Definition perform (w : world) (m : move) : world := set_queue (move_queue m (w_queue w)) (set_runs (move_runs m (w_runs w)) w).

(** * The environment *)

Inductive outcome :=
| Ingested
| Extracted (run_id : string) (status : run_status) (error : option payload)
| PermanentFailure (message : string)
| RunAlreadyTerminal (run_id : string) (status : run_status)
| Raised (message : string) (code : value).

(** while the handler runs: other sessions and its own statements, a beat of the
    heartbeat thread, a failure of the thread's connection *)
Inductive event := Moves (ms : list move) | Beat (now : Z) | HeartbeatBroken.

Record handling := Handling { h_events : list event; h_outcome : run_table → outcome }.

Record env := Env {
  e_others : nat → list move;
  e_now : nat → Z;
  e_uuid4 : list string → string;
  e_draw : nat → spec_float;
  e_locked : nat → list string;
  e_readable : nat → bool;
  e_handler : claimed_job → nat → handling;
  e_should_continue : Z → bool;
}.

Record config := Config {
  c_queue : string; c_max_iterations : option Z; c_reap_interval : Z; c_stale_after : spec_float;
  c_sec_type : string; c_company_facts : bool; c_structured_llm : bool; c_memory_stores : bool;
}.

Context (E : env) (C : config).
Notation act := (eff world queue_error).

(** * Statements *)

Definition interfere (w : world) : world := fold_left perform (e_others E (w_tick w)) (next_tick w).

(** a statement on the queue, at the tick it runs *)
Definition statement {A} (f : nat → state → result queue_error (state * A)) : act A := λ w,
  let w := interfere w in
  match f (w_tick w) (w_queue w) with Ok (s, a) => (Ok a, set_queue s w) | Err e => (Err e, w) end.

Definition do_reap : act reap_outcome :=
  statement (λ n s, let '(t, o) := reap_stale make_interval redacted (e_now E n) (c_stale_after C) (jobs s) in Ok (State t (issued s), o)).

Definition do_claim : act (option claimed_job) :=
  statement (λ n s,
    let '(t, o) := claim_one (e_uuid4 E (cj_lease <$> issued s)) (e_now E n) (e_locked E n) (jobs s) (c_queue C) in
    Ok (State t (issued s ++ option_list o), o)).

(** a fenced write, entered in the history *)
Definition fenced_write (k : write) (c : claimed_job) (f : nat → table → result queue_error (table * bool)) : act bool :=
  written ← statement (λ n s, match f n (jobs s) with Ok (t, b) => Ok (State t (issued s), b) | Err e => Err e end);
  _ ← Effects.writes (log_write (c, k, written));
  mret written.

Definition do_complete (c : claimed_job) : act bool := fenced_write WComplete c (λ n t, Ok (complete (e_now E n) c t)).
Definition do_fail (c : claimed_job) (message : string) : act bool :=
  fenced_write WFail c (λ n t, fail make_interval redacted (e_now E n) c message None (e_draw E n) t).
Definition do_dead_letter (c : claimed_job) (message : string) : act bool :=
  fenced_write WDeadLetter c (λ n t, Ok (dead_letter redacted (e_now E n) c message t)).
Definition do_cancel (c : claimed_job) (message : string) : act bool :=
  fenced_write WCancel c (λ n t, Ok (cancel redacted (e_now E n) c message t)).

(** * The heartbeat *)

Inductive latch := Beating | LeaseLost | Broken.

(** one turn of [LeaseHeartbeat._run] *)
Definition hear (c : claimed_job) (wl : world * latch) (ev : event) : world * latch :=
  let '(w, l) := wl in
  match ev with
  | Moves ms => (fold_left perform ms w, l)
  | Beat now =>
      match l with
      | Beating => let '(t, ok) := heartbeat now c (jobs (w_queue w)) in
                   (set_queue (State t (issued (w_queue w))) w, if ok then Beating else LeaseLost)
      | _ => (w, l)
      end
  | HeartbeatBroken => (w, match l with Beating => Broken | _ => l end)
  end.

Definition lease_lost (l : latch) : bool := match l with LeaseLost => true | _ => false end.

(** the handler between [heartbeat.start()] and its return or exception *)
Definition run_handler (c : claimed_job) : act (outcome * latch) := λ w,
  let h := e_handler E c (w_tick w) in
  let '(w', l) := fold_left (hear c) (h_events h) (next_tick w, Beating) in
  (Ok (h_outcome h (w_runs w'), l), w').

(** * Runs that are already terminal *)

(** the run a payload names, as the key of its row *)
Definition run_key (c : claimed_job) : option (Z * string) :=
  match run_id_from_payload (payload_of c), cj_org_id c with
  | Some run_id, Some org => n ← uuid_of run_id; Some (n, org)
  | _, _ => None
  end.

Definition _terminal_run_status (c : claimed_job) : act (option (string * run_status)) := λ w,
  match run_id_from_payload (payload_of c), run_key c with
  | Some run_id, Some key =>
      let w := interfere w in
      (Ok (if e_readable E (w_tick w) then
             match w_runs w !! key with
             | Some status => if is_terminal status then Some (run_id, status) else None
             | None => None
             end
           else None), w)
  | _, _ => (Ok None, w)
  end.

Definition _park_terminal_run_job (c : claimed_job) (run_id : string) (status : run_status) (detail_code : option string) : act bool :=
  match status with
  | Succeeded => do_complete c
  | RunCancelled => _ ← do_cancel c (parked_reason run_id status detail_code); mret false
  | _ => _ ← do_dead_letter c (parked_reason run_id status detail_code); mret false
  end.

(** * The loop *)

Definition JOB_KIND_SEC_COMPANY_FACTS : string := "sec_company_facts".
Definition JOB_KIND_EXTRACTION_RUN : string := "extraction_run".

Definition KNOWN_KINDS : list string :=
  [JOB_KIND_SEC_DISCOVERY; JOB_KIND_SEC_FILING_FETCH; JOB_KIND_SEC_COMPANY_FACTS; JOB_KIND_EXTRACTION_RUN].

Definition is_extraction (c : claimed_job) : bool := bool_decide (cj_kind c = JOB_KIND_EXTRACTION_RUN).

(** the message of a job this worker cannot dispatch *)
Definition refusal (c : claimed_job) : option string :=
  if decide (cj_kind c ∉ KNOWN_KINDS) then Some ("unknown job kind " +:+ repr_str (cj_kind c))%string
  else if bool_decide (cj_kind c = JOB_KIND_SEC_COMPANY_FACTS) && negb (c_company_facts C) then
    Some ("bound SecClient " +:+ c_sec_type C +:+ " lacks the company_facts capability required by job kind " +:+ repr_str (cj_kind c))%string
  else if is_extraction c && negb (c_structured_llm C) then
    Some ("bound worker lacks StructuredLLMProvider capability required by job kind " +:+ repr_str (cj_kind c))%string
  else None.

Definition count_if (completed : bool) : act unit := if completed then Effects.writes one_completed else mret tt.

(** the terminal write other than [complete] that a handler's result asks for *)
Definition verdict_of (c : claimed_job) (o : outcome) : option (bool * string) :=
  match o with
  | Extracted run_id Failed error =>
      if is_extraction c then Some (false, _extraction_job_reason (StrV run_id) "failed" error NoneV) else None
  | Extracted run_id RunCancelled error =>
      if is_extraction c then Some (true, _extraction_job_reason (StrV run_id) "cancelled" error NoneV) else None
  | _ => None
  end.

(** the handler raised an exception with no verdict of its own *)
Definition settle_exception (c : claimed_job) (message : string) (code : value) : act unit :=
  if is_extraction c then
    now_terminal ← (if c_memory_stores C then mret None else _terminal_run_status c);
    match now_terminal with
    | Some (run_id, status) =>
        _ ← _park_terminal_run_job c run_id status (Some (_safe_extraction_code code)); mret tt
    | None =>
        let run_id := match run_id_from_payload (payload_of c) with Some r => StrV r | None => NoneV end in
        _ ← do_fail c (_extraction_job_reason run_id "failed" None code); mret tt
    end
  else _ ← do_fail c message; mret tt.

Definition settle (c : claimed_job) (o : outcome) (l : latch) : act unit :=
  match o with
  | PermanentFailure message => _ ← do_dead_letter c message; mret tt
  | RunAlreadyTerminal run_id status =>
      if lease_lost l then mret tt else _ ← _park_terminal_run_job c run_id status None; mret tt
  | Raised message code => if lease_lost l then mret tt else settle_exception c message code
  | Ingested | Extracted _ _ _ =>
      if lease_lost l then mret tt else
      match verdict_of c o with
      | Some (true, reason) => _ ← do_cancel c reason; mret tt
      | Some (false, reason) => _ ← do_dead_letter c reason; mret tt
      | None => done ← do_complete c; count_if done
      end
  end.

(** the claimed job, after the capability checks *)
Definition dispatch (c : claimed_job) : act unit :=
  already_terminal ← (if is_extraction c && negb (c_memory_stores C) then _terminal_run_status c else mret None);
  match already_terminal with
  | Some (run_id, status) => done ← _park_terminal_run_job c run_id status None; count_if done
  | None => ol ← run_handler c; settle c (fst ol) (snd ol)
  end.

(** one turn of the loop, whose number is [i]; [true] for [break] *)
Definition iteration (i : Z) : act bool :=
  _ ← (if (0 <? c_reap_interval C) && ((i - 1) mod c_reap_interval C =? 0) then _ ← do_reap; mret tt else mret tt);
  job ← do_claim;
  match job with
  | None => mret (bool_decide (is_Some (c_max_iterations C)))
  | Some c =>
      _ ← match refusal c with
          | Some message => _ ← do_fail c message; mret tt
          | None => dispatch c
          end;
      mret false
  end.

Definition goes_on (i : Z) : bool :=
  e_should_continue E i && match c_max_iterations C with Some m => i <? m | None => true end.

(** the [while] loop, [i] turns done; [None] when the fuel ran out *)
Fixpoint loop (fuel : nat) (i : Z) : act (option unit) :=
  match fuel with
  | O => mret None
  | S fuel' =>
      if goes_on i then
        stop ← iteration (i + 1);
        match stop with true => mret (Some tt) | false => loop fuel' (i + 1) end
      else mret (Some tt)
  end.

(** the number of jobs completed *)
Definition run_worker (fuel : nat) : act (option nat) :=
  done ← loop fuel 0;
  match done with Some tt => n ← reads w_completed; mret (Some n) | None => mret None end.
End consumer.
