(* ===== verification/ConsumerSafe.v ===== *)
(** What the worker's loop promises.

    Every change it makes to the queue is a step of the queue's machine under the
    claim it was handed, so the queue's invariant, fencing and retry bounds hold of
    a system of workers; a claim gets at most one write, and that write agrees with
    the outcome of the extraction run it was about, as far as the handler reports
    it; under a lost lease nothing is written that the queue accepts. *)

From Stdlib Require Import SpecFloat.
From S2P Require Import Prelude Effects Dicts Text Floats Canonical Uuids Payload Workflow Discovery Consumer Queue QueueSafety.
Local Open Scope Z_scope.

Section safety.
Context (make_interval : spec_float → Z) (E : env) (C : config).
Notation step := (step make_interval redacted).
Notation reachable := (reachable make_interval redacted).
Notation act := (eff world queue_error).
Context (uuid4_fresh : ∀ used, e_uuid4 E used ∉ used).

(** * Other sessions *)

Lemma under_steps i s f : (∀ c, c ∈ issued s → rtc step s (State (f c (jobs s)) (issued s))) → rtc step s (under i s f).
Proof using Type.
  intros Hf. unfold under. destruct (issued s !! i) as [c|] eqn:Hi; [|apply rtc_refl]. apply Hf. by eapply list_elem_of_lookup_2.
Qed.

Lemma move_queue_steps m s : rtc step s (move_queue make_interval m s).
Proof using Type.
  destruct m; cbn [move_queue].
  - case_decide as Hid; [apply rtc_refl|]. destruct (enqueue _ _ _ _ _ _ _ _ _ _) as [[t r]|] eqn:He; [|apply rtc_refl].
    apply rtc_once. by eapply step_enqueue.
  - case_decide as Hl; [apply rtc_refl|]. destruct (claim_one _ _ _ _ _) as [t o] eqn:Hc.
    pose proof (step_claim make_interval redacted s lease_id now locked q Hl) as Hs. rewrite Hc in Hs. by apply rtc_once.
  - apply under_steps. intros c' Hc. by apply rtc_once, step_heartbeat.
  - apply under_steps. intros c' Hc. by apply rtc_once, step_complete.
  - apply under_steps. intros c' Hc. destruct (fail _ _ _ _ _ _ _ _) as [[t b]|] eqn:Hf; [|destruct s; apply rtc_refl].
    apply rtc_once. by apply (step_fail make_interval redacted s c' now message now_arg draw (t, b)).
  - apply under_steps. intros c' Hc. by apply rtc_once, step_dead_letter.
  - apply under_steps. intros c' Hc. by apply rtc_once, step_cancel.
  - apply rtc_once, step_reap.
  - apply rtc_once, step_request_cancel.
  - apply rtc_refl.
Qed.

(** ** Worlds only advance *)

(** the queue takes its steps and terminal runs stay as they are *)
Definition advances (w w' : world) : Prop :=
  rtc step (w_queue w) (w_queue w') ∧
  ∀ key st, w_runs w !! key = Some st → is_terminal st = true → w_runs w' !! key = Some st.

#[local] Instance advances_preorder : PreOrder advances.
Proof using Type.
  split; [intros w; split; [apply rtc_refl|done]|]. intros w1 w2 w3 [H1 H1'] [H2 H2']. split; [exact (transitivity (R := rtc step) H1 H2)|].
  intros key st Hk Ht. apply H2'; [by apply H1'|done].
Qed.

(** nothing was written under a claim of this worker *)
Definition quietly (w w' : world) : Prop := advances w w' ∧ w_writes w' = w_writes w ∧ w_completed w' = w_completed w.

#[local] Instance quietly_preorder : PreOrder quietly.
Proof using Type.
  split; [intros w; by split|]. intros w1 w2 w3 (H1 & Hw1 & Hc1) (H2 & Hw2 & Hc2). split; [by etrans|]. split; congruence.
Qed.

Lemma perform_quiet w m : quietly w (perform make_interval w m).
Proof using Type.
  split; [|done]. split; [apply move_queue_steps|]. intros key st Hk Ht. destruct m; try done. cbn [perform set_queue set_runs w_runs move_runs].
  destruct (w_runs w !! (run, org)) as [st'|] eqn:Ho.
  - destruct (is_terminal st') eqn:Ht'; [done|]. rewrite lookup_insert_ne; [done|]. intros <-. congruence.
  - rewrite lookup_insert_ne; [done|]. intros <-. congruence.
Qed.

Lemma moves_quiet ms w : quietly w (fold_left (perform make_interval) ms w).
Proof using Type. revert w. induction ms as [|m ms IH]; intros w; [done|]. cbn [fold_left]. transitivity (perform make_interval w m); [apply perform_quiet|apply IH]. Qed.

Lemma next_tick_quiet w : quietly w (next_tick w).
Proof using Type. split; [|done]. by split; [apply rtc_refl|]. Qed.

Lemma interfere_quiet w : quietly w (interfere make_interval E w).
Proof using Type. transitivity (next_tick w); [apply next_tick_quiet|]. apply moves_quiet. Qed.

Lemma issued_advances w w' c : advances w w' → c ∈ issued (w_queue w) → c ∈ issued (w_queue w').
Proof using Type. intros [Hs _]. induction Hs as [s|s s1 s' Hstep _ IH]; [done|]. intros Hc. by eapply IH, issued_mono. Qed.

(** * What a turn of the loop writes *)

(** the status of the run a claim is about *)
Definition run_status_of (c : claimed_job) (w : world) : option run_status :=
  match run_key c with Some key => w_runs w !! key | None => None end.

Lemma run_status_final c w w' st : advances w w' → is_terminal st = true → run_status_of c w = Some st → run_status_of c w' = Some st.
Proof using Type. intros [_ Hr] Ht. unfold run_status_of. destruct (run_key c); [|done]. intros Hk. by apply Hr. Qed.

(** [o] is what the handler of [c] reported *)
Definition reported (c : claimed_job) (o : outcome) : Prop := ∃ n runs, o = h_outcome (e_handler E c n) runs.

(** A durable extraction run's handler reports the status of its row. *)
Definition handlers_report : Prop := ∀ c n runs, is_extraction c = true → c_memory_stores C = false →
  match h_outcome (e_handler E c n) runs with
  | Ingested => False
  | Extracted _ st _ => is_terminal st = true → ∃ key, run_key c = Some key ∧ runs !! key = Some st
  | RunAlreadyTerminal _ st => is_terminal st = true ∧ ∃ key, run_key c = Some key ∧ runs !! key = Some st
  | _ => True
  end.

(** what the run has to say about the write [k] under the claim [c] *)
Definition outcome_matches (c : claimed_job) (k : write) (w : world) : Prop :=
  match k with
  | WComplete => run_status_of c w = Some Succeeded ∨ ∃ run_id st e, reported c (Extracted run_id st e) ∧ is_terminal st = false
  | WDeadLetter => run_status_of c w = Some Failed ∨ ∃ message, reported c (PermanentFailure message)
  | WCancel => run_status_of c w = Some RunCancelled
  | WFail => True
  end.

Definition run_agrees (c : claimed_job) (k : write) (w : world) : Prop :=
  handlers_report → is_extraction c = true → c_memory_stores C = false → outcome_matches c k w.

Lemma run_agrees_advances c k w w' : advances w w' → run_agrees c k w → run_agrees c k w'.
Proof using Type.
  intros Hw Ha Hh He Hm. specialize (Ha Hh He Hm). destruct k; [|done| |].
  - destruct Ha as [Ha|Ha]; [left; by eapply run_status_final|by right].
  - destruct Ha as [Ha|Ha]; [left; by eapply run_status_final|by right].
  - by eapply run_status_final.
Qed.

(** the state a write leaves the job in; a failed attempt may be queued again *)
Definition final_status (k : write) : option job_status :=
  match k with WComplete => Some succeeded | WDeadLetter => Some failed | WCancel => Some cancelled | WFail => None end.

(** the row of [c] is in that state *)
Definition recorded (c : claimed_job) (k : write) (w : world) : Prop :=
  ∀ st, final_status k = Some st → ∃ j, j ∈ jobs (w_queue w) ∧ id j = cj_id c ∧ status j = st.

Lemma recorded_advances c k w w' : reachable (w_queue w) → advances w w' → recorded c k w → recorded c k w'.
Proof using Type.
  intros Hr [Hs _] Hrec st Hst. destruct (Hrec st Hst) as (j & Hj & Hid & Hj').
  destruct (steps_evolve make_interval redacted _ _ Hr Hs j Hj) as (j' & Hin & Hi & _ & Hfin).
  assert (terminal_status (status j) = true) as Ht by (rewrite Hj'; by destruct k; try done; injection Hst as <-).
  exists j'. split; [done|]. specialize (Hfin Ht 0). apply (f_equal status) in Hfin. cbn in Hfin. split; [|congruence].
  unfold identity in Hi. congruence.
Qed.

Definition agrees (c : claimed_job) (k : write) (w : world) : Prop := recorded c k w ∧ run_agrees c k w.

Lemma agrees_advances c k w w' : reachable (w_queue w) → advances w w' → agrees c k w → agrees c k w'.
Proof using Type. intros Hr Hw [H1 H2]. split; [by eapply recorded_advances|by eapply run_agrees_advances]. Qed.

Definition count_of (e : claimed_job * write * bool) : nat := match e with (_, WComplete, true) => 1 | _ => 0 end.
Definition completions (l : list (claimed_job * write * bool)) : nat := sum_list (count_of <$> l).

(** at most one write, under [c], and it agrees *)
Definition settled (c : claimed_job) (w w' : world) : Prop :=
  advances w w' ∧ ∃ new, w_writes w' = w_writes w ++ new ∧ (w_completed w' ≤ w_completed w + completions new)%nat ∧
  (new = [] ∨ ∃ k b, new = [(c, k, b)] ∧ (b = true → agrees c k w')).

Definition settles {A} (c : claimed_job) (P : world → Prop) (m : act A) : Prop :=
  ∀ w, reachable (w_queue w) → c ∈ issued (w_queue w) → P w → settled c w (snd (m w)).

Lemma settled_quiet c w w' : quietly w w' → settled c w w'.
Proof using Type. intros (Ha & Hw & Hc). split; [done|]. exists []. rewrite app_nil_r. split; [done|]. cbn. split; [lia|by left]. Qed.

Lemma settled_after c w1 w2 w3 : quietly w1 w2 → settled c w2 w3 → settled c w1 w3.
Proof using Type.
  intros (Ha & Hw & Hc) (Ha' & new & Hw' & Hc' & Hn). split; [by etrans|]. exists new. rewrite Hw', Hw. split; [done|]. split; [lia|done].
Qed.

Lemma settles_ret {A} c P (a : A) : settles c P (mret a).
Proof using Type. intros w _ _ _. by apply settled_quiet. Qed.

(** a quiet statement that establishes [Q] *)
Lemma settles_quiet_bind {A B} c (P : world → Prop) (m : act A) (Q : A → world → Prop) (f : A → act B) :
  (∀ w, P w → quietly w (snd (m w)) ∧ ∀ a, fst (m w) = Ok a → Q a (snd (m w))) →
  (∀ a, settles c (Q a) (f a)) → settles c P (m ≫= f).
Proof using Type.
  intros Hm Hf w Hr Hc HP. destruct (Hm w HP) as [Hq Hok]. unfold mbind, eff_bind. destruct (m w) as [[a|e] w1]; cbn in *; [|by apply settled_quiet].
  eapply settled_after; [done|]. destruct Hq as ((Hs & Hfin) & _). apply Hf; [|by apply (issued_advances w)|by apply Hok]. exact (transitivity (R := rtc step) Hr Hs).
Qed.

Lemma settles_weaken {A} c (P P' : world → Prop) (m : act A) : settles c P m → (∀ w, P' w → P w) → settles c P' m.
Proof using Type. intros H HP w Hr Hc Hw. by apply H, HP. Qed.

(** a write that ends the turn *)
Lemma settles_then_ret {A B} c P (m : act A) (b : B) : settles c P m → settles c P (m ≫= λ _, mret b).
Proof using Type. intros Hm w Hr Hc HP. specialize (Hm w Hr Hc HP). unfold mbind, eff_bind. by destruct (m w) as [[a|e] w1]. Qed.

(** ** The fenced writes *)

Lemma fenced_row c f t : (fenced c f t).2 = true → ∃ j, j ∈ t ∧ id j = cj_id c ∧ f j ∈ (fenced c f t).1.
Proof using Type.
  intros Hf. apply fenced_spec in Hf as (j & Hj & Ho). exists j. split; [done|]. pose proof Ho as (Hid & _)%owned_spec. split; [done|].
  rewrite fenced_fmap. apply list_elem_of_fmap. exists j. by rewrite Ho.
Qed.

(** the write [k] under [c], and what the run said just before *)
Lemma fenced_write_settles k c f (P : world → Prop) :
  (∀ n s r, c ∈ issued s → f n (jobs s) = Ok r → step s (State r.1 (issued s)) ∧
    (r.2 = true → ∀ st, final_status k = Some st → ∃ j, j ∈ r.1 ∧ id j = cj_id c ∧ status j = st)) →
  (∀ w w', P w → advances w w' → run_agrees c k w') →
  settles c P (fenced_write make_interval E k c f).
Proof using Type.
  intros Hf Hagree w Hr Hc HP. pose proof (interfere_quiet w) as Hq. unfold fenced_write, statement, mbind, eff_bind. cbv zeta.
  set (w1 := interfere make_interval E w) in *. assert (c ∈ issued (w_queue w1)) as Hc1 by (destruct Hq as [Ha _]; by apply (issued_advances w)).
  destruct (f (w_tick w1) (jobs (w_queue w1))) as [[t b]|e] eqn:Hfw; cbn; [|by apply settled_quiet].
  destruct (Hf _ _ _ Hc1 Hfw) as [Hstep Hrow]. destruct Hq as ((Hs & Hfin) & Hw & Hcomp).
  assert (∀ l, advances w (World (State t (issued (w_queue w1))) (w_runs w1) (w_tick w1) (w_completed w1) l)) as Hadv.
  { intros l. split; [by eapply rtc_r|done]. }
  split; [apply Hadv|]. eexists. cbn [w_writes w_completed log_write set_queue]. rewrite Hw. split; [done|]. split; [rewrite Hcomp; lia|].
  right. exists k, b. split; [done|]. intros Hb. split; [exact (Hrow Hb)|]. eapply Hagree; [done|apply Hadv].
Qed.

Lemma terminal_row_status c f t st : (fenced c f t).2 = true → (∀ j, status (f j) = st ∧ id (f j) = id j) → ∀ st', Some st = Some st' →
  ∃ j, j ∈ (fenced c f t).1 ∧ id j = cj_id c ∧ status j = st'.
Proof using Type.
  intros (j & _ & Hid & Hin)%fenced_row Hf st' [= <-]. exists (f j). split; [done|]. destruct (Hf j) as [-> ->]. done.
Qed.

Lemma do_complete_settles c (P : world → Prop) : (∀ w w', P w → advances w w' → run_agrees c WComplete w') → settles c P (do_complete make_interval E c).
Proof using Type. apply fenced_write_settles. intros n s r Hc [= <-]. split; [by apply step_complete|]. intros Hb. by apply terminal_row_status. Qed.

Lemma do_fail_settles c message P : settles c P (do_fail make_interval E c message).
Proof using Type. apply fenced_write_settles; [|done]. intros n s r Hc Hf. split; [by eapply step_fail|done]. Qed.

Lemma do_dead_letter_settles c message (P : world → Prop) :
  (∀ w w', P w → advances w w' → run_agrees c WDeadLetter w') → settles c P (do_dead_letter make_interval E c message).
Proof using Type. apply fenced_write_settles. intros n s r Hc [= <-]. split; [by apply step_dead_letter|]. intros Hb. by apply terminal_row_status. Qed.

Lemma do_cancel_settles c message (P : world → Prop) :
  (∀ w w', P w → advances w w' → run_agrees c WCancel w') → settles c P (do_cancel make_interval E c message).
Proof using Type. apply fenced_write_settles. intros n s r Hc [= <-]. split; [by apply step_cancel|]. intros Hb. by apply terminal_row_status. Qed.

Lemma fenced_write_shape k c f w b :
  fst (fenced_write make_interval E k c f w) = Ok b →
  w_writes (snd (fenced_write make_interval E k c f w)) = w_writes w ++ [(c, k, b)] ∧ w_completed (snd (fenced_write make_interval E k c f w)) = w_completed w.
Proof using Type.
  destruct (interfere_quiet w) as (_ & Hw & Hcomp). unfold fenced_write, statement, mbind, eff_bind. cbv zeta.
  destruct (f _ _) as [[t b']|e]; cbn; [|done]. intros [= ->]. by rewrite Hw.
Qed.

(** a completion that is counted when it was written *)
Lemma do_complete_counted c (P : world → Prop) :
  (∀ w w', P w → advances w w' → run_agrees c WComplete w') → settles c P (do_complete make_interval E c ≫= count_if).
Proof using Type.
  intros Ha w Hr Hc HP. pose proof (do_complete_settles c P Ha w Hr Hc HP) as (Hadv & new & Hw & Hcomp & Hn).
  pose proof (fenced_write_shape WComplete c (λ n t, Ok (complete (e_now E n) c t)) w) as Hshape. fold (do_complete make_interval E c) in Hshape.
  unfold mbind, eff_bind. destruct (do_complete make_interval E c w) as [[b|e] w1]; cbn [fst snd] in *; [|split; [done|by exists new]].
  destruct (Hshape b eq_refl) as [Hw' Hc']. assert (new = [(c, WComplete, b)]) as -> by (rewrite Hw in Hw'; by apply app_inv_head in Hw').
  destruct b; cbn; [|split; [done|by exists [(c, WComplete, false)]]]. split; [done|]. exists [(c, WComplete, true)]. cbn. rewrite Hc'.
  split; [done|]. split; [unfold completions; cbn; lia|]. destruct Hn as [|(k & b & [= <- <-] & Hag)]; [done|]. right. by exists WComplete, true.
Qed.

(** ** Settling a handler's outcome *)

(** the outcome the handler reported, against the runs as they stand *)
Definition outcome_ok (c : claimed_job) (o : outcome) (w : world) : Prop :=
  reported c o ∧
  (handlers_report → is_extraction c = true → c_memory_stores C = false →
   match o with
   | Ingested => False
   | Extracted _ st _ => is_terminal st = true → run_status_of c w = Some st
   | RunAlreadyTerminal _ st => is_terminal st = true ∧ run_status_of c w = Some st
   | _ => True
   end).

(** the run is terminal with that status *)
Definition known (c : claimed_job) (st : run_status) (w : world) : Prop :=
  handlers_report → is_extraction c = true → c_memory_stores C = false → is_terminal st = true ∧ run_status_of c w = Some st.

Lemma known_run_agrees c st w w' k : known c st w → advances w w' →
  match k with WComplete => st = Succeeded | WDeadLetter => st ≠ Succeeded ∧ st ≠ RunCancelled | WCancel => st = RunCancelled | WFail => True end →
  run_agrees c k w'.
Proof using Type.
  intros Hk Hw Hst Hh He Hm. destruct (Hk Hh He Hm) as [Ht Hrun]. pose proof (run_status_final c w w' st Hw Ht Hrun) as Hrun'.
  destruct k; [left; congruence|done| |congruence]. left. destruct Hst. destruct st; try done; by vm_compute in Ht.
Qed.

Lemma park_settles c run_id st detail :
  settles c (known c st) (_park_terminal_run_job make_interval E c run_id st detail) ∧
  settles c (known c st) (_park_terminal_run_job make_interval E c run_id st detail ≫= count_if).
Proof using Type.
  assert (∀ (m : act bool), settles c (known c st) m →
    settles c (known c st) (m ≫= λ _, mret false) ∧ settles c (known c st) ((m ≫= λ _, mret false) ≫= count_if)) as Hret.
  { intros m Hm. split; [by apply settles_then_ret|]. intros w Hr Hc Hk. specialize (Hm w Hr Hc Hk). unfold mbind, eff_bind. by destruct (m w) as [[b|e] w1]. }
  destruct st; cbn [_park_terminal_run_job];
    try (apply Hret, do_dead_letter_settles; intros w w' Hk Hw; by eapply known_run_agrees).
  - split; [apply do_complete_settles|apply do_complete_counted]; intros w w' Hk Hw; by eapply known_run_agrees.
  - apply Hret, do_cancel_settles. intros w w' Hk Hw. by eapply known_run_agrees.
Qed.

Lemma terminal_run_status_spec c w :
  quietly w (snd (_terminal_run_status make_interval E c w)) ∧
  ∀ o, fst (_terminal_run_status make_interval E c w) = Ok o →
    match o with Some (_, st) => known c st (snd (_terminal_run_status make_interval E c w)) | None => True end.
Proof using Type.
  unfold _terminal_run_status. destruct (run_id_from_payload _) as [run_id|]; [|split; [reflexivity|by intros o [= <-]]].
  destruct (run_key c) as [key|] eqn:Hkey; [|split; [reflexivity|by intros o [= <-]]]. cbv zeta. cbn [fst snd]. split; [apply interfere_quiet|].
  intros o [= <-]. destruct (e_readable E _); [|done]. destruct (w_runs _ !! key) as [st|] eqn:Hst; [|done]. destruct (is_terminal st) eqn:Ht; [|done].
  intros _ _ _. split; [done|]. unfold run_status_of. by rewrite Hkey.
Qed.

Lemma settle_exception_settles c message code P : settles c P (settle_exception make_interval E C c message code).
Proof using Type.
 unfold settle_exception. destruct (is_extraction c); [|apply settles_then_ret, do_fail_settles].
  apply (settles_quiet_bind c P _ (λ o w, match o with Some (_, st) => known c st w | None => True end)).
  - intros w _. destruct (c_memory_stores C); [split; [reflexivity|by intros o [= <-]]|apply terminal_run_status_spec].
  - intros [[run_id st]|]; [apply settles_then_ret, park_settles|apply settles_then_ret, do_fail_settles].
Qed.

Lemma settle_settles c o l : settles c (outcome_ok c o) (settle make_interval E C c o l).
Proof using Type.
  destruct o as [|run_id st error|message|run_id st|message code]; cbn [settle].
  - destruct (lease_lost l); [apply settles_ret|]. cbn [verdict_of]. apply do_complete_counted.
    intros w w' [_ Ho] _ Hh He Hm. by destruct (Ho Hh He Hm).
  - destruct (lease_lost l); [apply settles_ret|].
    assert (∀ w w', outcome_ok c (Extracted run_id st error) w → advances w w' → handlers_report → is_extraction c = true →
      c_memory_stores C = false → is_terminal st = true → run_status_of c w' = Some st) as Hrun.
    { intros w w' [_ Ho] Hw Hh He Hm Ht. eapply run_status_final; [done..|]. by apply (Ho Hh He Hm). }
    destruct (verdict_of c (Extracted run_id st error)) as [[[] reason]|] eqn:Hv.
    + apply settles_then_ret, do_cancel_settles. intros w w' Ho Hw Hh He Hm. unfold outcome_matches. rewrite (Hrun w w' Ho Hw Hh He Hm);
        unfold verdict_of in Hv; by destruct st, (is_extraction c).
    + apply settles_then_ret, do_dead_letter_settles. intros w w' Ho Hw Hh He Hm. left. rewrite (Hrun w w' Ho Hw Hh He Hm);
        unfold verdict_of in Hv; by destruct st, (is_extraction c).
    + apply do_complete_counted. intros w w' Ho Hw Hh He Hm. assert (is_terminal st = true ∨ is_terminal st = false) as [Ht|Ht] by (destruct (is_terminal st); tauto).
      * left. rewrite (Hrun w w' Ho Hw Hh He Hm Ht). unfold verdict_of in Hv. rewrite He in Hv. by destruct st; try by vm_compute in Ht.
      * right. destruct Ho as [Hrep _]. by exists run_id, st, error.
  - apply settles_then_ret, do_dead_letter_settles. intros w w' [Hrep _] _ _ _ _. right. by exists message.
  - destruct (lease_lost l); [apply settles_ret|]. apply settles_then_ret. eapply settles_weaken; [apply park_settles|].
    intros w [_ Ho] Hh He Hm. by apply Ho.
  - destruct (lease_lost l); [apply settles_ret|apply settle_exception_settles].
Qed.

(** ** The heartbeat *)

Lemma hear_quiet c w l ev : c ∈ issued (w_queue w) → quietly w (hear make_interval c (w, l) ev).1.
Proof using Type.
 intros Hc. destruct ev as [ms|now|]; cbn [hear]; [apply moves_quiet| |reflexivity].
  destruct l; [|reflexivity..]. pose proof (step_heartbeat make_interval redacted (w_queue w) c now Hc) as Hs.
  destruct (heartbeat now c (jobs (w_queue w))) as [t ok]. cbn in *. split; [|done]. split; [by apply rtc_once|done].
Qed.

(** the thread saw the claim fenced out: it is not current, and never will be *)
Definition latch_ok (c : claimed_job) (l : latch) (w : world) : Prop := lease_lost l = true → ¬ current c (jobs (w_queue w)).

Lemma latch_advances c l w w' : reachable (w_queue w) → c ∈ issued (w_queue w) → advances w w' → latch_ok c l w → latch_ok c l w'.
Proof using Type. intros Hr Hc [Hs _] Hl Hlost Hcur. by apply (Hl Hlost), (steps_current make_interval redacted _ (w_queue w')). Qed.

Lemma hear_latch c w l ev : reachable (w_queue w) → c ∈ issued (w_queue w) → latch_ok c l w →
  latch_ok c (hear make_interval c (w, l) ev).2 (hear make_interval c (w, l) ev).1.
Proof using Type.
 intros Hr Hc Hl. pose proof (hear_quiet c w l ev Hc) as [Ha _].
  assert (latch_ok c l (hear make_interval c (w, l) ev).1) as Hl' by (by eapply latch_advances).
  revert Hl'. destruct ev as [ms|now|]; cbn [hear]; [done| |by destruct l].
  destruct l; [|done..]. pose proof (fenced_spec c (beat now) (jobs (w_queue w))) as [Hcur Hsame]. fold (heartbeat now c (jobs (w_queue w))) in Hcur, Hsame.
  destruct (heartbeat now c (jobs (w_queue w))) as [t ok]. cbn in *. intros _. destruct ok; [done|]. intros _. cbn. rewrite Hsame by done.
  intros H. by apply Hcur in H.
Qed.

Lemma hear_all c evs w l : reachable (w_queue w) → c ∈ issued (w_queue w) → latch_ok c l w →
  quietly w (fold_left (hear make_interval c) evs (w, l)).1 ∧
  latch_ok c (fold_left (hear make_interval c) evs (w, l)).2 (fold_left (hear make_interval c) evs (w, l)).1.
Proof using Type.
 revert w l. induction evs as [|ev evs IH]; intros w l Hr Hc Hl; [done|]. cbn [fold_left].
  pose proof (hear_quiet c w l ev Hc) as Hq. pose proof (hear_latch c w l ev Hr Hc Hl) as Hl1. destruct (hear make_interval c (w, l) ev) as [w1 l1].
  cbn [fst snd] in *. destruct Hq as (Ha & Hrest). destruct (IH w1 l1) as [Hq' Hl'];
    [destruct Ha as [Hs _]; exact (transitivity (R := rtc step) Hr Hs)|by apply (issued_advances w)|done|].
  split; [|done]. transitivity w1; [by split|done].
Qed.

Lemma run_handler_spec c w : reachable (w_queue w) → c ∈ issued (w_queue w) →
  ∃ o l w', run_handler make_interval E c w = (Ok (o, l), w') ∧ quietly w w' ∧ latch_ok c l w' ∧ outcome_ok c o w'.
Proof using Type.
  intros Hr Hc. unfold run_handler.
  pose proof (hear_all c (h_events (e_handler E c (w_tick w))) (next_tick w) Beating Hr Hc ltac:(done)) as [Hq Hl].
  destruct (fold_left _ _ _) as [w' l]. cbn in *. eexists _, l, w'. split; [done|]. split; [transitivity (next_tick w); [apply next_tick_quiet|done]|].
  split; [done|]. split; [by do 2 eexists|]. intros Hhandler He Hm. pose proof (Hhandler c (w_tick w) (w_runs w') He Hm) as Hh. unfold run_status_of.
  destruct (h_outcome _ _); try done; [intros Ht; destruct (Hh Ht) as (key & -> & Hk); done|destruct Hh as (Ht & key & -> & Hk); done].
Qed.

(** ** One turn *)

Lemma dispatch_settles c : settles c (λ _, True) (dispatch make_interval E C c).
Proof using Type.
  unfold dispatch. apply (settles_quiet_bind c _ _ (λ o w, match o with Some (_, st) => known c st w | None => True end)).
  - intros w _. destruct (_ && _); [apply terminal_run_status_spec|split; [reflexivity|by intros o [= <-]]].
  - intros [[run_id st]|]; [apply park_settles|]. intros w Hr Hc _. destruct (run_handler_spec c w Hr Hc) as (o & l & w1 & Heq & Hq & _ & Ho).
    unfold mbind, eff_bind. rewrite Heq. cbn [fst snd]. eapply settled_after; [done|]. destruct Hq as (Ha & _). apply settle_settles; [| |done].
    + destruct Ha as [Hs _]. exact (transitivity (R := rtc step) Hr Hs).
    + by apply (issued_advances w).
Qed.

(** A claim is made once: its lease is new. *)
Lemma do_claim_spec w : reachable (w_queue w) →
  ∃ o w', do_claim make_interval E C w = (Ok o, w') ∧ quietly w w' ∧
  ∀ c, o = Some c → c ∈ issued (w_queue w') ∧ cj_lease c ∉ cj_lease <$> issued (w_queue w).
Proof using uuid4_fresh.
  intros Hr. pose proof (interfere_quiet w) as Hq. unfold do_claim, statement. cbv zeta. set (w1 := interfere make_interval E w) in *.
  set (lease_id := e_uuid4 E (cj_lease <$> issued (w_queue w1))).
  pose proof (step_claim make_interval redacted (w_queue w1) lease_id (e_now E (w_tick w1)) (e_locked E (w_tick w1)) (c_queue C) (uuid4_fresh _)) as Hs.
  destruct (claim_one_cases redacted lease_id (e_now E (w_tick w1)) (e_locked E (w_tick w1)) (jobs (w_queue w1)) (c_queue C)) as [[_ Heq]|(row & _ & _ & _ & Heq)];
    rewrite Heq in Hs |- *; cbn [fst snd option_list] in Hs; eexists _, _; (split; [done|]); (split; [transitivity w1; [done|]; split; [|done]; split; [by apply rtc_once|done]|]); intros c [= <-].
  cbn. split; [apply elem_of_app; right; apply list_elem_of_here|]. intros Hin. apply (uuid4_fresh (cj_lease <$> issued (w_queue w1))).
  fold lease_id. apply list_elem_of_fmap in Hin as (c & -> & Hc). apply list_elem_of_fmap. exists c. split; [done|].
  destruct Hq as [Ha _]. by apply (issued_advances w).
Qed.

Lemma do_reap_quiet w : quietly w (snd (do_reap make_interval E C w)) ∧ ∃ o, fst (do_reap make_interval E C w) = Ok o.
Proof using Type.
 pose proof (interfere_quiet w) as Hq. unfold do_reap, statement. cbv zeta. set (w1 := interfere make_interval E w) in *.
  pose proof (step_reap make_interval redacted (w_queue w1) (e_now E (w_tick w1)) (c_stale_after C)) as Hs.
  destruct (reap_stale _ _ _ _ _) as [t o]. cbn in *. split; [|by exists o]. transitivity w1; [done|]. split; [|done]. split; [by apply rtc_once|done].
Qed.

(** what a turn adds to the history: at most one write, under a claim made in it *)
Definition turn (w w' : world) : Prop :=
  quietly w w' ∨ ∃ c w1, quietly w w1 ∧ c ∈ issued (w_queue w1) ∧ cj_lease c ∉ cj_lease <$> issued (w_queue w) ∧ settled c w1 w'.

Lemma iteration_turn i w : reachable (w_queue w) → turn w (snd (iteration make_interval E C i w)).
Proof using uuid4_fresh.
  intros Hr. unfold iteration.
  set (reap := if (0 <? c_reap_interval C) && ((i - 1) mod c_reap_interval C =? 0) then _ else _). assert (∃ w1, reap w = (Ok tt, w1) ∧ quietly w w1) as (w1 & Hreap & Hq1).
  { unfold reap. destruct (_ && _); [|exists w; split; [done|reflexivity]]. destruct (do_reap_quiet w) as [Hq [o Ho]].
    unfold mbind, eff_bind. destruct (do_reap make_interval E C w) as [r w1]. cbn in Ho, Hq. subst r. by exists w1. }
  unfold mbind at 1, eff_bind at 1. rewrite Hreap. cbv beta iota. pose proof Hq1 as ((Hs1 & Hf1) & _).
  assert (reachable (w_queue w1)) as Hr1 by exact (transitivity (R := rtc step) Hr Hs1).
  destruct (do_claim_spec w1 Hr1) as (o & w2 & Hclaim & Hq2 & Hnew). unfold mbind at 1, eff_bind at 1. rewrite Hclaim. cbv beta iota.
  assert (quietly w w2) as Hq by (by transitivity w1). destruct o as [c|]; [|by left]. right. exists c, w2. destruct (Hnew c eq_refl) as [Hc Hlease].
  split; [done|]. split; [done|]. split.
  { intros Hin. apply Hlease. apply list_elem_of_fmap in Hin as (c' & -> & Hc'). apply list_elem_of_fmap. exists c'. split; [done|].
    apply (issued_advances w); [|done]. by destruct Hq1. }
  pose proof Hq as ((Hs & _) & _). assert (reachable (w_queue w2)) as Hr2 by exact (transitivity (R := rtc step) Hr Hs).
  apply (settles_then_ret c (λ _, True)); [|done..]. destruct (refusal C c); [apply settles_then_ret, do_fail_settles|apply dispatch_settles].
Qed.

(** ** The loop *)

Notation entry := (claimed_job * write * bool)%type.
Definition leases (l : list entry) : list string := (λ e, cj_lease e.1.1) <$> l.

(** what happened between two states of the loop, [new] being the history in between *)
Record worked (w w' : world) (new : list entry) : Prop := {
  worked_advances : advances w w';
  worked_writes : w_writes w' = w_writes w ++ new;
  worked_completed : (w_completed w' ≤ w_completed w + completions new)%nat;
  worked_leases : NoDup (leases new);
  worked_claims : Forall (λ e, e.1.1 ∈ issued (w_queue w') ∧ cj_lease e.1.1 ∉ cj_lease <$> issued (w_queue w)) new;
  worked_agrees : ∀ c k, (c, k, true) ∈ new → agrees c k w';
}.

Lemma worked_quiet w w' : quietly w w' → worked w w' [].
Proof using Type.
  intros (Ha & Hw & Hc). split; [done|by rewrite app_nil_r|cbn; lia|constructor|constructor|]. intros c k Hin. by apply not_elem_of_nil in Hin.
Qed.

Lemma completions_app l l' : completions (l ++ l') = (completions l + completions l')%nat.
Proof using Type. unfold completions. induction l as [|e l IH]; cbn in *; [done|]. rewrite IH. lia. Qed.

Lemma worked_trans w1 w2 w3 new new' : reachable (w_queue w2) → worked w1 w2 new → worked w2 w3 new' → worked w1 w3 (new ++ new').
Proof using Type.
  intros Hr [Ha Hw Hc Hl Hcl Hag] [Ha' Hw' Hc' Hl' Hcl' Hag']. split.
  - by transitivity w2.
  - by rewrite Hw', Hw, app_assoc.
  - rewrite completions_app. lia.
  - unfold leases. rewrite fmap_app. apply NoDup_app. split; [done|]. split; [|done].
    intros x (e & -> & He)%list_elem_of_fmap (e' & Heq & He')%list_elem_of_fmap.
    destruct (proj1 (Forall_forall _ _) Hcl e He) as [Hin _]. destruct (proj1 (Forall_forall _ _) Hcl' e' He') as [_ Hnew].
    apply Hnew. rewrite <- Heq. by apply (list_elem_of_fmap_2 cj_lease).
  - apply Forall_app. split; eapply Forall_impl; [exact Hcl| |exact Hcl'|]; cbn; intros e [H1 H2].
    + split; [by apply (issued_advances w2)|done].
    + split; [done|]. intros Hin. apply H2. apply list_elem_of_fmap in Hin as (c & -> & Hc0). apply (list_elem_of_fmap_2 cj_lease). by apply (issued_advances w1).
  - intros c k [Hin|Hin]%elem_of_app; [|by apply Hag']. eapply agrees_advances; [done..|]. by apply Hag.
Qed.

Lemma turn_worked w w' : reachable (w_queue w) → turn w w' → ∃ new, worked w w' new ∧ (length new ≤ 1)%nat.
Proof using Type.
  intros Hr [Hq|(c & w1 & Hq & Hc & Hlease & Hset)]; [exists []; split; [by apply worked_quiet|cbn; lia]|].
  destruct Hq as (Ha1 & Hw1 & Hc1), Hset as (Ha2 & new & Hw2 & Hc2 & Hn). exists new. split.
  - split; [by transitivity w1|by rewrite Hw2, Hw1|lia|..].
    + destruct Hn as [->|(k & b & -> & _)]; [constructor|apply NoDup_singleton].
    + destruct Hn as [->|(k & b & -> & _)]; [constructor|]. constructor; [|constructor]. split; [by apply (issued_advances w1)|done].
    + intros c' k' Hin. destruct Hn as [->|(k & b & -> & Hag)]; [by apply not_elem_of_nil in Hin|].
      apply list_elem_of_singleton in Hin as [= -> -> <-]. by apply Hag.
  - destruct Hn as [->|(k & b & -> & _)]; cbn; lia.
Qed.

Lemma loop_worked fuel i w : reachable (w_queue w) →
  ∃ new, worked w (snd (loop make_interval E C fuel i w)) new ∧
    ∀ m, c_max_iterations C = Some m → Z.of_nat (length new) ≤ Z.max 0 (m - i).
Proof using uuid4_fresh.
  revert i w. induction fuel as [|fuel IH]; intros i w Hr; cbn [loop];
    [exists []; split; [by apply worked_quiet|intros; cbn; lia]|].
  destruct (goes_on E C i) eqn:Hgo; [|exists []; split; [by apply worked_quiet|intros; cbn; lia]].
  assert (∀ m, c_max_iterations C = Some m → i < m) as Hlt.
  { intros m Hm. unfold goes_on in Hgo. rewrite Hm in Hgo. btrue. lia. }
  destruct (turn_worked w _ Hr (iteration_turn (i + 1) w Hr)) as (new & Hnew & Hlen).
  unfold mbind, eff_bind. destruct (iteration make_interval E C (i + 1) w) as [[stop|e] w1]; cbn [fst snd] in *;
    [|exists new; split; [done|]; intros m Hm; specialize (Hlt m Hm); lia].
  destruct stop; [exists new; split; [done|]; intros m Hm; specialize (Hlt m Hm); lia|].
  assert (reachable (w_queue w1)) as Hr1 by (destruct (worked_advances _ _ _ Hnew) as [Hs _]; exact (transitivity (R := rtc step) Hr Hs)).
  destruct (IH (i + 1) w1 Hr1) as (new' & Hnew' & Hlen'). exists (new ++ new'). split; [by eapply worked_trans|].
  intros m Hm. specialize (Hlt m Hm). specialize (Hlen' m Hm). rewrite length_app. lia.
Qed.

Lemma run_worker_worked fuel w : reachable (w_queue w) →
  ∃ new, worked w (snd (run_worker make_interval E C fuel w)) new ∧ ∀ m, c_max_iterations C = Some m → Z.of_nat (length new) ≤ Z.max 0 m.
Proof using uuid4_fresh.
  intros Hr. destruct (loop_worked fuel 0 w Hr) as (new & Hnew & Hlen). exists new.
  assert (snd (run_worker make_interval E C fuel w) = snd (loop make_interval E C fuel 0 w)) as ->.
  { unfold run_worker, mbind, eff_bind. by destruct (loop make_interval E C fuel 0 w) as [[[[]|]|e] w1]. }
  split; [done|]. intros m Hm. specialize (Hlen m Hm). by replace (m - 0) with m in Hlen by lia.
Qed.

(** ** The loop ends *)

Definition only_overflow {A} (m : act A) : Prop := ∀ w e, fst (m w) = Err e → e = OverflowError.

Lemma only_overflow_ret {A} (a : A) : only_overflow (mret a).
Proof using Type. done. Qed.

Lemma only_overflow_bind {A B} (m : act A) (f : A → act B) : only_overflow m → (∀ a, only_overflow (f a)) → only_overflow (m ≫= f).
Proof using Type.
 intros Hm Hf w e. unfold mbind, eff_bind. specialize (Hm w). destruct (m w) as [[a|e'] w1]; cbn in *; [apply Hf|].
  intros [= <-]. by apply Hm.
Qed.

Lemma only_overflow_statement {A} (f : nat → state → result queue_error (state * A)) :
  (∀ n s e, f n s = Err e → e = OverflowError) → only_overflow (statement make_interval E f).
Proof using Type.
 intros Hf w e. unfold statement. cbv zeta. destruct (f _ _) as [[s a]|e'] eqn:Hr; cbn; [done|]. intros [= <-]. by eapply Hf.
Qed.

Lemma only_overflow_write k c f : (∀ n t e, f n t = Err e → e = OverflowError) → only_overflow (fenced_write make_interval E k c f).
Proof using Type.
 intros Hf. apply only_overflow_bind; [|intros b; by apply only_overflow_bind]. apply only_overflow_statement.
  intros n s e. destruct (f n (jobs s)) as [[t b]|e'] eqn:Hr; [done|]. intros [= <-]. by eapply Hf.
Qed.

Lemma only_overflow_fail c message : only_overflow (do_fail make_interval E c message).
Proof using Type.
 apply only_overflow_write. intros n t e. unfold fail. intros [Hd|(d & _ & [=])]%bind_Err. revert Hd. case_match; [done|].
  unfold backoff_seconds, base_delay, pow2. case_match; [done|]. by intros [= <-].
Qed.

Lemma only_overflow_complete c : only_overflow (do_complete make_interval E c).
Proof using Type. by apply only_overflow_write. Qed.
Lemma only_overflow_dead_letter c message : only_overflow (do_dead_letter make_interval E c message).
Proof using Type. by apply only_overflow_write. Qed.
Lemma only_overflow_cancel c message : only_overflow (do_cancel make_interval E c message).
Proof using Type. by apply only_overflow_write. Qed.
Lemma only_overflow_status c : only_overflow (_terminal_run_status make_interval E c).
Proof using Type. intros w e. unfold _terminal_run_status. by repeat case_match. Qed.
Lemma only_overflow_handler c : only_overflow (run_handler make_interval E c).
Proof using Type. intros w e. unfold run_handler. cbv zeta. by destruct (fold_left _ _ _). Qed.
Lemma only_overflow_count b : only_overflow (count_if b).
Proof using Type. by destruct b. Qed.

#[local] Hint Resolve only_overflow_ret only_overflow_bind only_overflow_fail only_overflow_complete only_overflow_dead_letter
  only_overflow_cancel only_overflow_status only_overflow_handler only_overflow_count : core.

Lemma only_overflow_park c run_id st d : only_overflow (_park_terminal_run_job make_interval E c run_id st d).
Proof using Type. destruct st; cbn [_park_terminal_run_job]; auto. Qed.
#[local] Hint Resolve only_overflow_park : core.

Lemma only_overflow_settle c o l : only_overflow (settle make_interval E C c o l).
Proof using Type.
 destruct o; cbn [settle]; unfold settle_exception; repeat case_match; auto;
    apply only_overflow_bind; auto; intros [[]|]; auto.
Qed.

Lemma only_overflow_iteration i : only_overflow (iteration make_interval E C i).
Proof using Type.
 unfold iteration. apply only_overflow_bind.
  { case_match; [|done]. apply only_overflow_bind; [|done]. by apply only_overflow_statement; intros n s e; case_match. }
  intros _. apply only_overflow_bind.
  { apply only_overflow_statement. intros n s e. by case_match. }
  intros [c|]; [|done]. apply only_overflow_bind; [|done]. case_match; [auto|]. unfold dispatch. apply only_overflow_bind; [by case_match|].
  intros [[run_id st]|]; [auto|]. apply only_overflow_bind; [auto|]. intros ol. apply only_overflow_settle.
Qed.

Lemma loop_ends fuel i w : (∃ k, 0 ≤ k < Z.of_nat fuel ∧ goes_on E C (i + k) = false) →
  (∃ w', loop make_interval E C fuel i w = (Ok (Some tt), w')) ∨ ∃ w', loop make_interval E C fuel i w = (Err OverflowError, w').
Proof using Type.
 revert i w. induction fuel as [|fuel IH]; intros i w (k & Hk & Hstop); [lia|]. cbn [loop].
  destruct (goes_on E C i) eqn:Hgo; [|left; by eexists].
  unfold mbind, eff_bind. pose proof (only_overflow_iteration (i + 1) w) as Hov. destruct (iteration make_interval E C (i + 1) w) as [[stop|e] w1]; cbn [fst] in Hov.
  - destruct stop; [left; by eexists|]. apply IH. exists (k - 1). assert (k ≠ 0) by (intros ->; rewrite Z.add_0_r in Hstop; congruence).
    split; [lia|]. by replace (i + 1 + (k - 1)) with (i + k) by lia.
  - right. rewrite (Hov e eq_refl). by eexists.
Qed.

(** a dead letter under a claim that is no longer current is refused *)
Lemma stale_dead_letter c message w : ¬ current c (jobs (w_queue (interfere make_interval E w))) →
  do_dead_letter make_interval E c message w = (Ok false, log_write (c, WDeadLetter, false) (interfere make_interval E w)).
Proof using Type.
  intros Hcur. unfold do_dead_letter, fenced_write, statement, mbind, eff_bind. cbv zeta. unfold dead_letter, terminal_write.
  destruct (fenced c _ (jobs (w_queue (interfere make_interval E w)))) as [t b] eqn:Hf.
  match type of Hf with fenced _ ?f ?t = _ => destruct (fenced_spec c f t) as [Hcurrent Hsame] end. rewrite Hf in Hcurrent, Hsame. cbn [fst snd] in *.
  destruct b; [by destruct Hcur; apply Hcurrent|]. rewrite (Hsame eq_refl). unfold Effects.writes. cbn. by destruct (interfere make_interval E w) as [[? ?] ? ? ? ?].
Qed.

(** * The claims of the worker *)

(** C19: A worker is one of the queue's machines.  Whatever other sessions do between
    its statements, a run of the loop takes the queue from one reachable state to
    another by the queue's own steps; it makes at most one write under each claim,
    each under a claim it made itself in that run, and no more than
    [max_iterations] in all; and the count it returns never exceeds the
    completions it wrote. *)
Theorem worker_follows_queue (fuel : nat) (w : world) :
  reachable (w_queue w) →
  let w' := snd (run_worker make_interval E C fuel w) in
  rtc step (w_queue w) (w_queue w') ∧ reachable (w_queue w') ∧
  ∃ new, w_writes w' = w_writes w ++ new ∧ NoDup (leases new) ∧
    Forall (λ e, e.1.1 ∈ issued (w_queue w') ∧ cj_lease e.1.1 ∉ cj_lease <$> issued (w_queue w)) new ∧
    (w_completed w' ≤ w_completed w + completions new)%nat ∧
    ∀ m, c_max_iterations C = Some m → Z.of_nat (length new) ≤ Z.max 0 m.
Proof using uuid4_fresh.
  intros Hr. destruct (run_worker_worked fuel w Hr) as (new & [[Hs Hf] Hw Hc Hl Hcl Hag] & Hlen). cbv zeta. split; [done|].
  split; [exact (transitivity (R := rtc step) Hr Hs)|]. by exists new.
Qed.

(** Job and run agree.  When a fresh worker returns, every write it made that
    the queue accepted left its job in the state written, and, for a durable
    extraction run, that state matches the run's own row: a cancelled job has a
    cancelled run; a dead-lettered job has a failed run, unless its handler
    declared the failure permanent; a completed job has a succeeded run, or one
    its handler left open for review. *)
Theorem job_and_run_agree (fuel : nat) (w : world) (c : claimed_job) (k : write) :
  handlers_report → reachable (w_queue w) → w_writes w = [] →
  (c, k, true) ∈ w_writes (snd (run_worker make_interval E C fuel w)) →
  recorded c k (snd (run_worker make_interval E C fuel w)) ∧
  (is_extraction c = true → c_memory_stores C = false → outcome_matches c k (snd (run_worker make_interval E C fuel w))).
Proof using uuid4_fresh.
  intros Hh Hr Hw0 Hin. destruct (run_worker_worked fuel w Hr) as (new & [_ Hw _ _ _ Hag] & _). rewrite Hw0 in Hw. cbn in Hw.
  rewrite Hw in Hin. destruct (Hag c k Hin) as [Hrec Hrun]. split; [done|]. by apply Hrun.
Qed.

(** The loop ends.  Once [should_continue] turns false or [max_iterations] turns
    are done, within the fuel, the worker returns its count, or lets out the
    [OverflowError] of a retry delay: no other exception of the queue escapes. *)
Theorem worker_returns (fuel : nat) (w : world) :
  (∃ k, 0 ≤ k < Z.of_nat fuel ∧ goes_on E C k = false) →
  (∃ w', run_worker make_interval E C fuel w = (Ok (Some (w_completed w')), w')) ∨
  ∃ w', run_worker make_interval E C fuel w = (Err OverflowError, w').
Proof using Type.
 intros (k & Hk & Hstop). unfold run_worker, mbind, eff_bind.
  destruct (loop_ends fuel 0 w) as [(w' & ->)|(w' & ->)]; [exists k; by rewrite Z.add_0_l|left|right]; by exists w'.
Qed.

(** C20: A lost lease discards the result.  When the heartbeat thread reports the lease
    lost, the claim is not the current one of its job and never will be again, and
    whatever the handler returned or raised, settling it raises nothing and changes
    no job and no run: nothing is issued, except after a [PermanentFailure], whose
    branch does not look at the latch and issues a [dead_letter] that the queue
    refuses. *)
Theorem lost_lease_discards (c : claimed_job) (w w1 : world) (o : outcome) (l : latch) :
  reachable (w_queue w) → c ∈ issued (w_queue w) → run_handler make_interval E c w = (Ok (o, l), w1) → lease_lost l = true →
  (∀ s', rtc step (w_queue w1) s' → ¬ current c (jobs s')) ∧
  settle make_interval E C c o l w1 =
    (Ok tt, match o with
            | PermanentFailure _ => log_write (c, WDeadLetter, false) (interfere make_interval E w1)
            | _ => w1
            end).
Proof using Type.
  intros Hr Hc Hrun Hl. destruct (run_handler_spec c w Hr Hc) as (o' & l' & w1' & Heq & Hq & Hlatch & _). rewrite Hrun in Heq. injection Heq as <- <- <-.
  assert (∀ s', rtc step (w_queue w1) s' → ¬ current c (jobs s')) as Hlost; [|split; [done|]].
  - destruct Hq as ((Hs & _) & _). intros s' Hs' Hcur. apply (Hlatch Hl). eapply (steps_current make_interval redacted); [|done| |done].
    + exact (transitivity (R := rtc step) Hr Hs).
    + clear -Hs Hc. induction Hs as [s|s s1 s' Hstep _ IH]; [done|]. by eapply IH, issued_mono.
  - destruct o; cbn [settle]; rewrite ?Hl; try done. unfold mbind, eff_bind. rewrite stale_dead_letter; [done|]. apply Hlost, interfere_quiet.
Qed.
End safety.

(** * A shift of three jobs *)

Module Shift.
Definition minute (_ : spec_float) : Z := 60000000.

(** a handler that finds its run open leaves it for review, one that finds it
    closed is refused by the store *)
Definition report (c : claimed_job) (runs : run_table) : outcome :=
  match run_key c with
  | Some key =>
      match runs !! key with
      | Some st => if is_terminal st then RunAlreadyTerminal (uuid_str key.1) st else Extracted (uuid_str key.1) WaitingReview None
      | None => Raised "extraction_run has no extraction_runs row" (StrV "run_not_found")
      end
  | None => Raised "extraction_run payload missing run_id" (StrV "internal_error")
  end.

(** another session finishes the third run while its handler works *)
Definition events (c : claimed_job) : list event :=
  if decide (cj_id c = "j3"%string) then [Beat 7; Moves [MoveRun 3 "org" Succeeded]] else [Beat 7].

Definition env0 : env :=
  Env (λ _, []) (λ n, Z.of_nat n) (λ used, fresh used) (λ _, SF64 1 (-1)) (λ _, []) (λ _, true)
    (λ c _, Handling (events c) (report c)) (λ _, true).

Definition config0 : config := Config "extraction" (Some 3) 1 (SF64 60 0) "MockSecClient" false true false.

Definition job_of (job_id : string) (run : Z) : job :=
  new_job job_id "extraction_run" "extraction" 5 (JObj [("run_id", JStr (uuid_str run))]%string) (Some "org"%string) None 5 0.

Definition runs : run_table := <[(1, "org"%string) := Queued]> (<[(2, "org"%string) := Succeeded]> (<[(3, "org"%string) := Queued]> ∅)).
Definition start : world := World (State [job_of "j1" 1; job_of "j2" 2; job_of "j3" 3] []) runs 0 0 [].
Definition shift : result queue_error (option nat) * world := run_worker minute env0 config0 4 start.
Definition after : world := shift.2.

Lemma start_reachable : reachable minute redacted (w_queue start).
Proof.
  apply (rtc_l _ _ (State [job_of "j1" 1] [])).
  { apply (step_enqueue minute redacted (State [] []) "j1" 0 "extraction_run" (JObj [("run_id", JStr (uuid_str 1))]%string) "extraction" 5 None 5 (Some "org"%string) _ "j1");
      [apply not_elem_of_nil|reflexivity]. }
  apply (rtc_l _ _ (State [job_of "j1" 1; job_of "j2" 2] [])).
  { apply (step_enqueue minute redacted (State [job_of "j1" 1] []) "j2" 0 "extraction_run" (JObj [("run_id", JStr (uuid_str 2))]%string) "extraction" 5 None 5 (Some "org"%string) _ "j2");
      [by apply (bool_decide_unpack _)|reflexivity]. }
  apply rtc_once.
  apply (step_enqueue minute redacted (State [job_of "j1" 1; job_of "j2" 2] []) "j3" 0 "extraction_run" (JObj [("run_id", JStr (uuid_str 3))]%string) "extraction" 5 None 5 (Some "org"%string) _ "j3");
    [by apply (bool_decide_unpack _)|reflexivity].
Qed.

Lemma fresh_leases used : e_uuid4 env0 used ∉ used.
Proof. apply (infinite_is_fresh used). Qed.

Lemma reports : handlers_report env0 config0.
Proof.
  intros c n rs He _. cbn [e_handler env0 h_outcome]. unfold report. destruct (run_key c) as [key|]; [|done].
  destruct (rs !! key) as [st|] eqn:Hst; [|done]. destruct (is_terminal st) eqn:Ht; [|by intros Hf; vm_compute in Hf].
  split; [done|]. by exists key.
Qed.

(** three completions were written and two were counted: the one that followed
    [RunAlreadyTerminal] was not *)
Lemma uncounted : (λ e, (cj_id e.1.1, e.1.2, e.2)) <$> w_writes after = [("j1", WComplete, true); ("j2", WComplete, true); ("j3", WComplete, true)]%string ∧
  shift.1 = Ok (Some 2%nat) ∧ completions (w_writes after) = 3%nat.
Proof. vm_compute. done. Qed.

Definition first_write : claimed_job * write * bool := Eval vm_compute in List.hd (ClaimedJob "" "" "" JNull 0 0 "" None, WFail, false) (w_writes after).

(** the heartbeats of the first job come too late *)
Definition late : env :=
  Env (λ _, []) (λ n, Z.of_nat n) (λ used, fresh used) (λ _, SF64 1 (-1)) (λ _, []) (λ _, true)
    (λ c _, Handling [Moves [MoveReap 60000010 (SF64 60 0)]; Beat 60000011] (report c)) (λ _, true).

Definition claimed : world := (do_claim minute late config0 start).2.
Definition claim : claimed_job := Eval vm_compute in List.hd (ClaimedJob "" "" "" JNull 0 0 "" None) (issued (w_queue claimed)).

Lemma claimed_reachable : reachable minute redacted (w_queue claimed).
Proof.
  destruct (do_claim_spec minute late config0 fresh_leases start start_reachable) as (o & w' & Heq & ((Hs & _) & _) & _).
  unfold claimed. rewrite Heq. exact (transitivity (R := rtc (step minute redacted)) start_reachable Hs).
Qed.

Definition handled : result queue_error (outcome * latch) * world := run_handler minute late claim claimed.
Definition result : outcome * latch := match handled.1 with Ok r => r | Err _ => (Ingested, Beating) end.
End Shift.

Lemma worker_follows_queue_witness :
  rtc (step Shift.minute redacted) (w_queue Shift.start) (w_queue Shift.after) ∧ reachable Shift.minute redacted (w_queue Shift.after).
Proof.
  destruct (worker_follows_queue Shift.minute Shift.env0 Shift.config0 Shift.fresh_leases 4 Shift.start Shift.start_reachable) as (H1 & H2 & _). done.
Defined.

Lemma job_and_run_agree_witness : (Shift.first_write.1.1, WComplete, true) ∈ w_writes Shift.after ∧ recorded Shift.first_write.1.1 WComplete Shift.after.
Proof.
  assert ((Shift.first_write.1.1, WComplete, true) ∈ w_writes Shift.after) as Hin by (vm_compute; apply list_elem_of_here).
  split; [exact Hin|].
  apply (job_and_run_agree Shift.minute Shift.env0 Shift.config0 Shift.fresh_leases 4 Shift.start Shift.first_write.1.1 WComplete Shift.reports Shift.start_reachable eq_refl Hin).
Defined.

Lemma worker_returns_witness : goes_on Shift.env0 Shift.config0 3 = false ∧
  ((∃ w', run_worker Shift.minute Shift.env0 Shift.config0 4 Shift.start = (Ok (Some (w_completed w')), w')) ∨
   ∃ w', run_worker Shift.minute Shift.env0 Shift.config0 4 Shift.start = (Err OverflowError, w')).
Proof. split; [reflexivity|]. apply (worker_returns Shift.minute Shift.env0 Shift.config0 4 Shift.start). exists 3. split; [lia|reflexivity]. Defined.

Lemma lost_lease_discards_witness :
  lease_lost Shift.result.2 = true ∧ settle Shift.minute Shift.late Shift.config0 Shift.claim Shift.result.1 Shift.result.2 Shift.handled.2 = (Ok tt, Shift.handled.2).
Proof.
  assert (lease_lost Shift.result.2 = true) as Hl by (vm_compute; reflexivity). split; [exact Hl|].
  apply (lost_lease_discards Shift.minute Shift.late Shift.config0 Shift.claim Shift.claimed Shift.handled.2 Shift.result.1 Shift.result.2 Shift.claimed_reachable).
  - vm_compute. apply list_elem_of_here.
  - vm_compute. reflexivity.
  - exact Hl.
Defined.
