(* ===== verification/Generation.v ===== *)
(** [packages/retrieval/fel_retrieval/generation.py]: a provider's JSON becomes proposed
    claims, each quoting the selected evidence it cites.

    The provider is an argument: the result it returns for a request.  The schema
    checker is the closed subset the module enforces itself; the schema's one
    pattern is a predicate on texts. *)

From S2P Require Import Prelude Dicts Text Decimals Periods Regex Canonical Redact Payload.
Local Open Scope Z_scope.

Inductive claim_status := supported | partially_supported | contradicted | derived | unsupported.
Inductive citation_status := entailed | partial | contradictory | irrelevant.

#[export] Instance claim_status_eq_dec : EqDecision claim_status.
Proof. solve_decision. Defined.
#[export] Instance citation_status_eq_dec : EqDecision citation_status.
Proof. solve_decision. Defined.

Definition NUMERIC_SCALE_EXPONENTS : list Z := [0; 3; 6; 9].

(** what a generator raises: its own typed errors, and the exceptions it does not catch *)
Inductive generation_error :=
| GenerationContractError (code message : string)
| ValueErr (message : string)
| KeyErr (key : string)
| TypeErr.

#[export] Instance generation_error_eq_dec : EqDecision generation_error.
Proof. solve_decision. Defined.

Notation generated := (result generation_error).

(** * Data *)

Record numeric_tuple := NumericTuple { n_value : decimal; n_unit : string; n_period : string; n_scale : Z }.

(** [NumericTuple(...)] *)
Definition make_numeric (v : decimal) (unit period : string) (scale : Z) : generated numeric_tuple :=
  if bool_decide (scale ∈ NUMERIC_SCALE_EXPONENTS) then Ok (NumericTuple v unit period scale)
  else Err (ValueErr ("illegal numeric scale: " +:+ str_of_Z scale)%string).

Definition n_sign (n : numeric_tuple) : Z := Z.sgn (sval (n_value n)).

Record context_item := ContextItem {
  ci_item_id : string; ci_kind : string; ci_text : string; ci_source_span_id : string; ci_document_version_id : string;
  ci_financial_fact_id : option string; ci_numeric : option numeric_tuple;
}.

Record claim_citation := ClaimCitation {
  cc_item_id : string; cc_source_span_id : string; cc_status : citation_status; cc_numeric_checks : list (string * bool);
  cc_rationale : option string; cc_verifier : option string; cc_model : option string; cc_version : option string; cc_quote : option string;
}.

Record generated_claim := GeneratedClaim {
  gc_ord : Z; gc_text : string; gc_status : claim_status; gc_citations : list claim_citation; gc_confidence : option decimal;
  gc_calculation_lineage : payload; gc_numeric : option numeric_tuple;
}.

(** * The prompt *)

(** [_WHITESPACE.sub(" ", text).strip()] *)
Definition _normalize (text : string) : string := strip (regex_sub (Plus SPACE) " " text).

Definition numeric_json (n : numeric_tuple) : string :=
  ("{" +:+ quote "value" +:+ ": " +:+ quote (format_f (n_value n)) +:+ ", " +:+ quote "unit" +:+ ": " +:+ quote (n_unit n) +:+ ", " +:+
   quote "period" +:+ ": " +:+ quote (n_period n) +:+ ", " +:+ quote "scale" +:+ ": " +:+ str_of_Z (n_scale n) +:+ "}")%string.

Definition NEWLINE : string := String "010"%char EmptyString.

Definition render_item (item : context_item) : string :=
  let fields := match ci_numeric item with Some n => numeric_json n | None => "null"%string end in
  ("[" +:+ ci_item_id item +:+ "] (" +:+ ci_kind item +:+ ") [numeric " +:+ fields +:+ "] " +:+ _normalize (ci_text item))%string.

Definition _render_context (context : list context_item) : string := join NEWLINE (render_item <$> context).

Definition _render_prompt (question : string) (context : list context_item) (as_of : string) : string :=
  ("As-of: " +:+ as_of +:+ NEWLINE +:+ "Question: " +:+ question +:+ NEWLINE +:+ NEWLINE +:+ "Selected context:" +:+ NEWLINE +:+ _render_context context)%string.

(** * The schema [claims-output/v1] *)

Definition DECIMAL_PATTERN : string := "^-?[0-9]+(?:\.[0-9]+)?$(?![\s\S])".

Definition object_schema (required : list string) (properties : payload) : payload :=
  [("type", StrV "object"); ("additionalProperties", BoolV false); ("required", ListV (StrV <$> required)); ("properties", DictV properties)]%string.

Definition text_schema : payload := [("type", StrV "string"); ("minLength", IntV 1)]%string.
Definition nullable (t : string) : value := ListV [StrV t; StrV "null"].

Definition CITATION_SCHEMA : payload := object_schema ["item_id"; "quote"]%string [("item_id", DictV text_schema); ("quote", DictV text_schema)]%string.

Definition NUMERIC_SCHEMA : payload :=
  [("type", nullable "object"); ("additionalProperties", BoolV false);
   ("required", ListV (StrV <$> ["value"; "unit"; "period"; "scale"]));
   ("properties", DictV [("value", DictV (text_schema ++ [("pattern", StrV DECIMAL_PATTERN)])); ("unit", DictV [("type", nullable "string")]);
     ("period", DictV [("type", nullable "string")]); ("scale", DictV [("type", StrV "integer")])])]%string.

Definition CLAIM_SCHEMA : payload :=
  object_schema ["text"; "citations"; "numeric"]%string
    [("text", DictV text_schema);
     ("citations", DictV [("type", StrV "array"); ("minItems", IntV 1); ("items", DictV CITATION_SCHEMA)]);
     ("numeric", DictV NUMERIC_SCHEMA)]%string.

Definition CLAIM_JSON_SCHEMA : payload :=
  object_schema ["claims"; "abstain"]%string
    [("claims", DictV [("type", StrV "array"); ("items", DictV CLAIM_SCHEMA)]);
     ("abstain", DictV [("type", nullable "object"); ("additionalProperties", BoolV false); ("required", ListV [StrV "reason"]);
       ("properties", DictV [("reason", DictV text_schema)])])]%string.

Definition _type_ok (v : value) (expected : string) : bool :=
  if decide (expected = "object"%string) then match v with DictV _ => true | _ => false end
  else if decide (expected = "array"%string) then match v with ListV _ => true | _ => false end
  else if decide (expected = "string"%string) then match v with StrV _ => true | _ => false end
  else if decide (expected = "null"%string) then match v with NoneV => true | _ => false end
  else if decide (expected = "boolean"%string) then match v with BoolV _ => true | _ => false end
  else if decide (expected = "integer"%string) then match v with IntV _ => true | _ => false end
  else if decide (expected = "number"%string) then match v with IntV _ | FloatV _ => true | _ => false end
  else true.

(** [str(t)] of the types, joined by bars *)
Definition expected_text (types : list value) : string := join "|" (py_str <$> types).

Definition type_errors (v : value) (schema : payload) (path : string) : list string :=
  match match get "type" schema with StrV t => Some [StrV t] | ListV types => Some types | _ => None end with
  | Some types =>
      if existsb (λ t, match t with StrV t => _type_ok v t | _ => false end) types then []
      else [path +:+ ": expected " +:+ expected_text types]%string
  | None => []
  end.

(** the texts the schema's pattern accepts *)
Definition decimal_text (s : string) : bool :=
  let r := match s with String "-" r => r | _ => s end in
  match span_digits r with
  | ([], _) => false
  | (_, EmptyString) => true
  | (_, String "." r') => match span_digits r' with ([], _) => false | (_, EmptyString) => true | _ => false end
  | _ => false
  end.

Definition string_errors (schema : payload) (path s : string) : list string :=
  (match int_or_none (get "minLength" schema) with
   | Some n => if Z.of_nat (String.length s) <? n then [path +:+ ": string shorter than minLength " +:+ str_of_Z n]%string else []
   | None => []
   end) ++
  (if is_str DECIMAL_PATTERN (get "pattern" schema) && negb (decimal_text s)
   then [path +:+ ": string does not match required pattern"]%string else []).

Definition properties_of (schema : payload) : payload := match get "properties" schema with DictV p => p | _ => [] end.

Definition key_errors (schema : payload) (path : string) (items : payload) : list string :=
  (match get "required" schema with
   | ListV required =>
       omap (M := list) (λ key, match key with
         | StrV k => if has k items then None else Some (path +:+ ": missing required property " +:+ repr_str k)%string
         | _ => None end) required
   | _ => []
   end) ++
  (match get "additionalProperties" schema with
   | BoolV false => omap (M := list) (λ kv : string * value, if has kv.1 (properties_of schema) then None else Some (path +:+ ": unexpected property")%string) items
   | _ => []
   end).

Fixpoint _schema_errors (v : value) (schema : payload) (path : string) : list string :=
  match type_errors v schema path with
  | (_ :: _) as errors => errors
  | [] =>
      match v with
      | StrV s => string_errors schema path s
      | DictV items =>
          key_errors schema path items ++
          concat (map (λ kv : string * value,
            match get (fst kv) (properties_of schema) with
            | DictV child_schema => _schema_errors (snd kv) child_schema (path +:+ "." +:+ fst kv)%string
            | _ => []
            end) items)
      | ListV items =>
          (match int_or_none (get "minItems" schema) with
           | Some n => if Z.of_nat (length items) <? n then [path +:+ ": array shorter than minItems " +:+ str_of_Z n]%string else []
           | None => []
           end) ++
          (match get "items" schema with
           | DictV item_schema =>
               (fix go (index : Z) (l : list value) : list string :=
                  match l with
                  | [] => []
                  | item :: l' => _schema_errors item item_schema (path +:+ "[" +:+ str_of_Z index +:+ "]")%string ++ go (index + 1) l'
                  end) 0 items
           | _ => []
           end)
      | _ => []
      end
  end.

Definition validate_claims_output (parsed : payload) : generated unit :=
  match _schema_errors (DictV parsed) CLAIM_JSON_SCHEMA "$" with
  | [] => Ok tt
  | e :: _ => Err (GenerationContractError "CLAIMS_OUTPUT_SCHEMA_INVALID" ("provider claims output failed claims-output/v1 validation: " +:+ e)%string)
  end.

(** * Claims *)

(** [d[k]] *)
Definition subscript (v : value) (k : string) : generated value :=
  match v with DictV d => from_option_err (KeyErr k) (dict_get k d) | _ => Err TypeErr end.

(** iteration over a list *)
Definition iterate (v : value) : generated (list value) := match v with ListV l => Ok l | _ => Err TypeErr end.

Definition _numeric_from (raw : payload) (path : string) : generated numeric_tuple :=
  match decimal_of_text (py_str (get "value" raw)) with
  | Some (Finite d) =>
      scale ← from_option_err (KeyErr "scale") (dict_get "scale"%string raw);
      match scale with
      | IntV z => make_numeric d (match get "unit" raw with StrV s => s | _ => ""%string end) (match get "period" raw with StrV s => s | _ => ""%string end) z
      | _ => Err TypeErr
      end
  | _ => Err (GenerationContractError "CLAIM_NUMERIC_NOT_DECIMAL" (path +:+ ": claim numeric value is not a decimal string")%string)
  end.

(** [{item.item_id: item for item in context}]: the last item of an id *)
Definition accepted (context : list context_item) (item_id : string) : option context_item :=
  last (filter (λ item, ci_item_id item = item_id) context).

Definition at_index (path name : string) (index : nat) : string := (path +:+ name +:+ "[" +:+ str_of_Z (Z.of_nat index) +:+ "]")%string.

Definition citation_from (context : list context_item) (path : string) (index : nat) (raw : value) : generated claim_citation :=
  let here := at_index path ".citations" index in
  id_value ← subscript raw "item_id";
  match accepted context (py_str id_value) with
  | None => Err (GenerationContractError "UNKNOWN_CONTEXT_ITEM" (here +:+ ": item is not a selected context item")%string)
  | Some item =>
      quote_value ← subscript raw "quote";
      let q := py_str quote_value in
      if bool_decide (_normalize q = ""%string) || negb (contains (_normalize q) (_normalize (ci_text item)))
      then Err (GenerationContractError "QUOTE_NOT_IN_CONTEXT_ITEM" (here +:+ ": quote is not a span of the cited item")%string)
      else Ok (ClaimCitation (ci_item_id item) (ci_source_span_id item) irrelevant [] None None None None (Some q))
  end.

(** [for i, x in enumerate(l): f(i, x)], from [i] *)
Fixpoint mapi_from {A B} (f : nat → A → generated B) (i : nat) (l : list A) : generated (list B) :=
  match l with [] => Ok [] | x :: l' => y ← f i x; ys ← mapi_from f (S i) l'; Ok (y :: ys) end.

Definition claim_from (context : list context_item) (ord : nat) (raw : value) : generated generated_claim :=
  let path := at_index "$" ".claims" ord in
  citations_value ← subscript raw "citations";
  raw_citations ← iterate citations_value;
  citations ← mapi_from (citation_from context path) 0 raw_citations;
  numeric ← match raw with
            | DictV d => match get "numeric" d with DictV raw_numeric => n ← _numeric_from raw_numeric path; Ok (Some n) | _ => Ok None end
            | _ => Err TypeErr
            end;
  text ← subscript raw "text";
  Ok (GeneratedClaim (Z.of_nat ord) (py_str text) unsupported citations None [] numeric).

Definition _claims_from (parsed : option payload) (context : list context_item) : generated (list generated_claim * option string) :=
  match parsed with
  | None => Err (GenerationContractError "CLAIMS_OUTPUT_MISSING" "provider returned no parsed object and did not refuse")
  | Some parsed =>
      _ ← validate_claims_output parsed;
      match get "abstain" parsed with
      | DictV abstain => Ok ([], Some (match get "reason" abstain with StrV s => s | _ => "unspecified"%string end))
      | _ =>
          claims ← mapi_from (claim_from context) 0 (match get "claims" parsed with ListV l => l | _ => [] end);
          Ok (claims, None)
      end
  end.

(** the historical identity mapping *)
Definition _decompose (context : list context_item) : list generated_claim :=
  imap (λ ord item,
    GeneratedClaim (Z.of_nat ord) (ci_text item) unsupported
      [ClaimCitation (ci_item_id item) (ci_source_span_id item) irrelevant [] None None None None (Some (ci_text item))]
      None [] (ci_numeric item)) context.

(** * The generator *)

Record structured_result := StructuredResult {
  sr_parsed : option payload; sr_provider : string; sr_model : string; sr_input_tokens : Z; sr_output_tokens : Z; sr_response_id : string;
  sr_cost : decimal; sr_refused : bool; sr_refusal : option string;
}.

Record generation_result := GenerationResult {
  gr_claims : list generated_claim; gr_usage : structured_result; gr_refused : bool; gr_refusal : option string;
  gr_abstained : bool; gr_abstain_reason : option string;
}.

Record llm_request := LlmRequest { q_schema_name : string; q_schema_version : string; q_schema : payload; q_user : string; q_max_output_tokens : Z }.

Section generator.
Context (generate_structured : llm_request → structured_result) (max_output_tokens : Z) (identity_mode : bool).

Definition request_for (question : string) (context : list context_item) (as_of : string) : llm_request :=
  LlmRequest "claims-output" "v1" CLAIM_JSON_SCHEMA (_render_prompt question context as_of) max_output_tokens.

(** the result, or the exception with the usage it carries *)
Definition generate (question : string) (context : list context_item) (as_of : string)
    : result (generation_error * option generation_result) generation_result :=
  let r := generate_structured (request_for question context as_of) in
  if sr_refused r then Ok (GenerationResult [] r true (sr_refusal r) false None) else
  if identity_mode then Ok (GenerationResult (_decompose context) r false None false None) else
  match _claims_from (sr_parsed r) context with
  | Ok (claims, abstain_reason) => Ok (GenerationResult claims r false None (bool_decide (is_Some abstain_reason)) abstain_reason)
  | Err (GenerationContractError code message as e) => Err (e, Some (GenerationResult [] r false None true None))
  | Err e => Err (e, None)
  end.
End generator.

(** * What validation guarantees *)

Lemma dict_get_in {A} k (d : list (string * A)) v : dict_get k d = Some v → (k, v) ∈ d.
Proof.
  induction d as [|[k' v'] d IH]; [done|]. cbn [dict_get]. case_decide as Hk; [|intros H; apply list_elem_of_further, IH, H].
  intros [= ->]. subst k'. apply list_elem_of_here.
Qed.

Lemma errors_type v schema path : _schema_errors v schema path = [] → type_errors v schema path = [].
Proof. destruct (type_errors v schema path) eqn:Ht; [done|]. intros H. destruct v; cbn [_schema_errors] in H; by rewrite Ht in H. Qed.

Lemma errors_dict items schema path : _schema_errors (DictV items) schema path = [] →
  key_errors schema path items = [] ∧
  ∀ k v s, (k, v) ∈ items → get k (properties_of schema) = DictV s → ∃ path', _schema_errors v s path' = [].
Proof.
  intros H. pose proof (errors_type _ _ _ H) as Ht. cbn [_schema_errors] in H. rewrite Ht in H. apply app_nil in H as [Hk Hc]. split; [done|].
  intros k v s Hin Hs. exists (path +:+ "." +:+ k)%string.
  clear -Hin Hs Hc. induction items as [|[k' v'] items IH]; [by apply not_elem_of_nil in Hin|]. cbn [map concat] in Hc. apply app_nil in Hc as [H1 H2].
  apply elem_of_cons in Hin as [[= -> ->]|Hin]; [|by apply IH]. cbn [fst snd] in H1. by rewrite Hs in H1.
Qed.

Lemma errors_list l schema path s : _schema_errors (ListV l) schema path = [] → get "items" schema = DictV s →
  (∀ n, get "minItems" schema = IntV n → n ≤ Z.of_nat (length l)) ∧ ∀ v, v ∈ l → ∃ path', _schema_errors v s path' = [].
Proof.
  intros H Hs. pose proof (errors_type _ _ _ H) as Ht. cbn [_schema_errors] in H. rewrite Ht in H. apply app_nil in H as [Hm Hc]. split.
  - intros n Hn. rewrite Hn in Hm. cbn [int_or_none] in Hm. destruct (Z.ltb_spec (Z.of_nat (length l)) n); [done|lia].
  - rewrite Hs in Hc. clear Hm Ht. revert Hc. generalize 0. intros i Hc v Hin. revert i Hc Hin. induction l as [|x l IH]; intros i Hc Hin; [by apply not_elem_of_nil in Hin|].
    apply app_nil in Hc as [H1 H2]. apply elem_of_cons in Hin as [->|Hin]; [by eexists|]. by apply (IH (i + 1)).
Qed.

Lemma type_of_object v schema path : _schema_errors v schema path = [] → get "type" schema = StrV "object" → ∃ d, v = DictV d.
Proof. intros H%errors_type Ht. unfold type_errors in H. rewrite Ht in H. destruct v; try (by vm_compute in H). by eexists. Qed.

Lemma type_of_array v schema path : _schema_errors v schema path = [] → get "type" schema = StrV "array" → ∃ l, v = ListV l.
Proof. intros H%errors_type Ht. unfold type_errors in H. rewrite Ht in H. destruct v; try (by vm_compute in H). by eexists. Qed.

Lemma required_present items schema path required : key_errors schema path items = [] → get "required" schema = ListV (StrV <$> required) →
  ∀ k, k ∈ required → ∃ v, dict_get k items = Some v.
Proof.
  intros [H _]%app_nil Hr k Hk. rewrite Hr in H. clear Hr. induction required as [|k' l IH]; [by apply not_elem_of_nil in Hk|].
  cbn [fmap list_fmap omap list_omap] in H. unfold has in H at 1. destruct (dict_get k' items) as [v|] eqn:Hv.
  - rewrite bool_decide_true in H by done. apply elem_of_cons in Hk as [->|Hk]; [by exists v|by apply IH].
  - rewrite bool_decide_false in H by (by intros []). done.
Qed.

(** a member a closed object requires, and its own schema *)
Lemma valid_member items schema path required k s :
  _schema_errors (DictV items) schema path = [] → get "required" schema = ListV (StrV <$> required) → k ∈ required →
  get k (properties_of schema) = DictV s → ∃ v path', dict_get k items = Some v ∧ _schema_errors v s path' = [].
Proof.
  intros [Hk Hc]%errors_dict Hr Hin Hs. destruct (required_present items schema path required Hk Hr k Hin) as [v Hv].
  destruct (Hc k v s (dict_get_in k items v Hv) Hs) as [path' Hp]. by exists v, path'.
Qed.

Lemma valid_text v path : _schema_errors v text_schema path = [] → ∃ s, v = StrV s ∧ s ≠ ""%string.
Proof.
  intros H. pose proof (errors_type _ _ _ H) as Ht. destruct v; try (by vm_compute in Ht). exists s. split; [done|]. intros ->. cbn in H. by vm_compute in H.
Qed.

Definition citation_valid (v : value) : Prop := ∃ d i q, v = DictV d ∧ dict_get "item_id"%string d = Some (StrV i) ∧ dict_get "quote"%string d = Some (StrV q).

Definition numeric_valid (v : value) : Prop :=
  v = NoneV ∨ ∃ d z, v = DictV d ∧ dict_get "scale"%string d = Some (IntV z).

Definition claim_valid (v : value) : Prop :=
  ∃ d cs t n, v = DictV d ∧ dict_get "citations"%string d = Some (ListV cs) ∧ cs ≠ [] ∧ Forall citation_valid cs ∧
    dict_get "text"%string d = Some (StrV t) ∧ t ≠ ""%string ∧ dict_get "numeric"%string d = Some n ∧ numeric_valid n.

Lemma citation_valid_of v path : _schema_errors v CITATION_SCHEMA path = [] → citation_valid v.
Proof.
  intros H. destruct (type_of_object v _ _ H eq_refl) as [d ->].
  destruct (valid_member d _ _ ["item_id"; "quote"]%string "item_id" text_schema H eq_refl ltac:(set_solver) eq_refl) as (vi & pi & Hi & Hvi).
  destruct (valid_member d _ _ ["item_id"; "quote"]%string "quote" text_schema H eq_refl ltac:(set_solver) eq_refl) as (vq & pq & Hq & Hvq).
  apply valid_text in Hvi as (i & -> & _), Hvq as (q & -> & _). by exists d, i, q.
Qed.

Lemma numeric_valid_of v path : _schema_errors v NUMERIC_SCHEMA path = [] → numeric_valid v.
Proof.
  intros H. pose proof (errors_type _ _ _ H) as Ht. destruct v as [| | | | | |d]; try (by vm_compute in Ht); [by left|right].
  destruct (valid_member d _ _ ["value"; "unit"; "period"; "scale"]%string "scale" [("type", StrV "integer")]%string H eq_refl ltac:(set_solver) eq_refl) as (v & p & Hv & Hs).
  apply errors_type in Hs. destruct v as [| |z| | | |]; try (by vm_compute in Hs). by exists d, z.
Qed.

Lemma claim_valid_of v path : _schema_errors v CLAIM_SCHEMA path = [] → claim_valid v.
Proof.
  intros H. destruct (type_of_object v _ _ H eq_refl) as [d ->].
  destruct (valid_member d _ _ ["text"; "citations"; "numeric"]%string "text" text_schema H eq_refl ltac:(set_solver) eq_refl) as (vt & pt & Ht & Hvt).
  destruct (valid_member d _ _ ["text"; "citations"; "numeric"]%string "numeric" NUMERIC_SCHEMA H eq_refl ltac:(set_solver) eq_refl) as (vn & pn & Hn & Hvn).
  destruct (valid_member d _ _ ["text"; "citations"; "numeric"]%string "citations" _ H eq_refl ltac:(set_solver) eq_refl) as (vc & pc & Hc & Hvc).
  apply valid_text in Hvt as (t & -> & Hne). apply numeric_valid_of in Hvn. destruct (type_of_array vc _ _ Hvc eq_refl) as [cs ->].
  destruct (errors_list cs _ _ CITATION_SCHEMA Hvc eq_refl) as [Hmin Hall]. exists d, cs, t, vn. split; [done|]. split; [done|]. split.
  { specialize (Hmin 1 eq_refl). by intros ->. }
  split; [|done]. apply Forall_forall. intros c Hin. destruct (Hall c Hin) as [p Hp]. by eapply citation_valid_of.
Qed.

Lemma claims_valid parsed l : validate_claims_output parsed = Ok tt → get "claims" parsed = ListV l → Forall claim_valid l.
Proof.
  unfold validate_claims_output. destruct (_schema_errors _ _ _) eqn:H; [|done]. intros _ Hl.
  assert (dict_get "claims"%string parsed = Some (ListV l)) as Hd by (unfold get in Hl; by destruct (dict_get _ parsed) as [v|]; [cbn in Hl; subst v|]).
  apply errors_dict in H as [_ Hc]. destruct (Hc "claims"%string (ListV l) _ (dict_get_in _ _ _ Hd) eq_refl) as [p Hp].
  destruct (errors_list l _ _ CLAIM_SCHEMA Hp eq_refl) as [_ Hall]. apply Forall_forall. intros v Hv. destruct (Hall v Hv) as [p' Hp']. by eapply claim_valid_of.
Qed.

(** * What the generator admits *)

(** the citation quotes the item it names, and no text of its own *)
Definition grounded (context : list context_item) (c : claim_citation) : Prop :=
  ∃ item q, accepted context (cc_item_id c) = Some item ∧ cc_source_span_id c = ci_source_span_id item ∧ cc_quote c = Some q ∧
    _normalize q ≠ ""%string ∧ contains (_normalize q) (_normalize (ci_text item)) = true.

Lemma accepted_spec context k item : accepted context k = Some item → item ∈ context ∧ ci_item_id item = k.
Proof. unfold accepted. intros H%last_Some_elem_of. apply list_elem_of_filter in H as [? ?]. done. Qed.

Lemma citation_from_grounded context path i raw c : citation_from context path i raw = Ok c → grounded context c ∧ cc_status c = irrelevant.
Proof.
  unfold citation_from. intros (v & _ & H)%bind_Ok. destruct (accepted context (py_str v)) as [item|] eqn:Ha; [|done].
  apply bind_Ok in H as (q & _ & H). case_match eqn:Hq; [done|]. injection H as <-. btrue. cbn. split; [|done].
  exists item, (py_str q). cbn. rewrite (proj2 (accepted_spec _ _ _ Ha)). by repeat split.
Qed.

Lemma mapi_from_Ok {A B} (f : nat → A → generated B) i l r :
  mapi_from f i l = Ok r → length r = length l ∧ ∀ n y, r !! n = Some y → ∃ x, l !! n = Some x ∧ f (i + n)%nat x = Ok y.
Proof.
  revert i r. induction l as [|x l IH]; intros i r; cbn [mapi_from]; [intros [= <-]; split; [done|by intros n y]|].
  intros (y & Hy & (ys & Hys & [= <-])%bind_Ok)%bind_Ok. destruct (IH (S i) ys Hys) as [Hl Hall]. split; [cbn; lia|].
  intros [|n] z; cbn; [intros [= <-]; exists x; by rewrite Nat.add_0_r|]. intros Hz. destruct (Hall n z Hz) as (w & Hw & Hf).
  exists w. split; [done|]. by replace (i + S n)%nat with (S i + n)%nat by lia.
Qed.

Lemma mapi_from_Err {A B} (f : nat → A → generated B) i l e : mapi_from f i l = Err e → ∃ n x, x ∈ l ∧ f n x = Err e.
Proof.
  revert i. induction l as [|x l IH]; intros i; [done|]. cbn [mapi_from].
  intros [H|(y & _ & [H|(ys & _ & [=])]%bind_Err)]%bind_Err; [exists i, x; split; [apply list_elem_of_here|done]|].
  destruct (IH _ H) as (n & z & Hz & Hf). exists n, z. split; [by apply list_elem_of_further|done].
Qed.

(** a proposed claim: no status, no confidence, only quotations *)
Definition proposed (context : list context_item) (ord : nat) (c : generated_claim) : Prop :=
  gc_ord c = Z.of_nat ord ∧ gc_status c = unsupported ∧ gc_confidence c = None ∧ gc_calculation_lineage c = [] ∧
  gc_citations c ≠ [] ∧ Forall (grounded context) (gc_citations c).

Lemma claim_from_proposed context ord raw c : claim_valid raw → claim_from context ord raw = Ok c → proposed context ord c.
Proof.
  intros (d & cs & t & n & -> & Hc & Hne & _ & Ht & _ & Hn & _). unfold claim_from, subscript. rewrite Hc, Ht. cbn [from_option_err mbind result_bind iterate].
  intros (cits & Hcits & (num & _ & [= <-])%bind_Ok)%bind_Ok. destruct (mapi_from_Ok _ _ _ _ Hcits) as [Hlen Hall]. repeat split; cbn.
  - intros ->. by destruct cs.
  - apply Forall_lookup. intros i y Hy. destruct (Hall i y Hy) as (x & _ & Hx). by apply citation_from_grounded in Hx as [? _].
Qed.

Definition typed_error (e : generation_error) : Prop :=
  (∃ code message, e = GenerationContractError code message) ∨
  ∃ z, z ∉ NUMERIC_SCALE_EXPONENTS ∧ e = ValueErr ("illegal numeric scale: " +:+ str_of_Z z)%string.

Lemma citation_from_typed context path i raw e : citation_valid raw → citation_from context path i raw = Err e → typed_error e.
Proof.
  intros (d & k & q & -> & Hk & Hq). unfold citation_from, subscript. rewrite Hk, Hq. cbn [from_option_err mbind result_bind].
  destruct (accepted _ _); [case_match; [|done]|]; intros [= <-]; left; by do 2 eexists.
Qed.

Lemma claim_from_typed context ord raw e : claim_valid raw → claim_from context ord raw = Err e → typed_error e.
Proof.
  intros (d & cs & t & n & -> & Hc & _ & Hcs & Ht & _ & Hn & Hnv). unfold claim_from, subscript. rewrite Hc, Ht. cbn [from_option_err mbind result_bind iterate].
  intros [H|(cits & _ & [H|(num & _ & [=])]%bind_Err)]%bind_Err.
  - apply mapi_from_Err in H as (i & x & Hx & Hf). eapply citation_from_typed; [|done]. by apply (proj1 (Forall_forall _ _) Hcs).
  - unfold get in H. rewrite Hn in H. cbn [default] in H. destruct Hnv as [->|(dn & z & -> & Hz)]; [done|].
    apply bind_Err in H as [H|(m & _ & [=])]. unfold _numeric_from in H. destruct (decimal_of_text _) as [[d'|b|]|];
      try (injection H as <-; left; by do 2 eexists).
    rewrite Hz in H. cbn [from_option_err mbind result_bind] in H. unfold make_numeric in H. case_bool_decide; [done|]. injection H as <-. right. by exists z.
Qed.

Lemma claims_from_spec parsed context r : _claims_from parsed context = r →
  match r with
  | Ok (claims, reason) => (∀ i c, claims !! i = Some c → proposed context i c) ∧ (is_Some reason → claims = [])
  | Err e => typed_error e
  end.
Proof.
  intros <-. unfold _claims_from. destruct parsed as [parsed|]; [|left; by do 2 eexists].
  destruct (validate_claims_output parsed) as [[]|e] eqn:Hv; cbn [mbind result_bind].
  2:{ unfold validate_claims_output in Hv. case_match; [done|]. injection Hv as <-. left. by do 2 eexists. }
  assert (∀ l, get "claims" parsed = ListV l → match (claims ← mapi_from (claim_from context) 0 l; Ok (claims, @None string)) with
    | Ok (claims, reason) => (∀ i c, claims !! i = Some c → proposed context i c) ∧ (is_Some reason → claims = []) | Err e => typed_error e end) as Hl.
  { intros l Hl. pose proof (claims_valid parsed l Hv Hl) as Hvalid. rewrite Forall_forall in Hvalid.
    destruct (mapi_from (claim_from context) 0 l) as [claims|e] eqn:Hm; cbn [mbind result_bind].
    - split; [|by intros []]. intros i c Hi. destruct (mapi_from_Ok _ _ _ _ Hm) as [_ Hall]. destruct (Hall i c Hi) as (x & Hx & Hf).
      cbn in Hf. eapply claim_from_proposed; [|done]. apply Hvalid. by eapply list_elem_of_lookup_2.
    - apply mapi_from_Err in Hm as (i & x & Hx & Hf). eapply claim_from_typed; [|done]. by apply Hvalid. }
  assert (∀ reason : option string, (∀ i c, ([] : list generated_claim) !! i = Some c → proposed context i c) ∧ (is_Some reason → ([] : list generated_claim) = [])) as Hnil.
  { intros reason. split; [|done]. intros i c Hi. by rewrite lookup_nil in Hi. }
  destruct (get "abstain" parsed) eqn:Ha; [..|by apply Hnil];
    (destruct (get "claims" parsed) as [| | | | |claims|] eqn:Hg; [..|by apply Hl|]; exact (Hnil None)).
Qed.

(** * The answers [claims-output/v1] admits

    The schema as a predicate on values, and the proof that the checker decides it. *)

(** an object with exactly these members *)
Definition closed (fields : list (string * (value → Prop))) (v : value) : Prop :=
  ∃ items, v = DictV items ∧ (∀ k, k ∈ fields.*1 → k ∈ items.*1) ∧ (∀ k x, (k, x) ∈ items → ∃ P, (k, P) ∈ fields ∧ P x).

Definition list_of (least : Z) (P : value → Prop) (v : value) : Prop := ∃ l, v = ListV l ∧ least ≤ Z.of_nat (length l) ∧ ∀ x, x ∈ l → P x.
Definition text_value (v : value) : Prop := ∃ s, v = StrV s ∧ s ≠ ""%string.
Definition text_or_null (v : value) : Prop := v = NoneV ∨ ∃ s, v = StrV s.
Definition integer_value (v : value) : Prop := ∃ z, v = IntV z.
(** digits, with an optional sign and an optional fraction *)
Definition decimal_value (v : value) : Prop :=
  ∃ sign ip fp, v = StrV (sign +:+ plain_text ip fp) ∧
    (sign = ""%string ∨ sign = "-"%string) ∧ ip ≠ [] ∧ Forall (λ d, d < 10)%N ip ∧ Forall (λ d, d < 10)%N fp.

Definition citation_shape : value → Prop := closed [("item_id", text_value); ("quote", text_value)]%string.
Definition numeric_shape (v : value) : Prop :=
  v = NoneV ∨ closed [("value", decimal_value); ("unit", text_or_null); ("period", text_or_null); ("scale", integer_value)]%string v.
Definition claim_shape : value → Prop := closed [("text", text_value); ("citations", list_of 1 citation_shape); ("numeric", numeric_shape)]%string.
Definition abstain_shape (v : value) : Prop := v = NoneV ∨ closed [("reason", text_value)]%string v.
Definition output_shape : value → Prop := closed [("claims", list_of 0 claim_shape); ("abstain", abstain_shape)]%string.

(** the schema accepts exactly the values of the predicate, wherever it is used *)
Definition decides (schema : payload) (P : value → Prop) : Prop := ∀ v path, _schema_errors v schema path = [] ↔ P v.

Lemma has_key k (d : payload) : has k d = true ↔ k ∈ d.*1.
Proof.
  unfold has. rewrite bool_decide_eq_true. induction d as [|[k' v] d IH]; cbn [dict_get fmap list_fmap fst]; [split; [by intros []|by intros ?%not_elem_of_nil]|].
  rewrite elem_of_cons. case_decide; [naive_solver|]. rewrite IH. naive_solver.
Qed.

Lemma omap_nil {A B} (f : A → option B) l : omap (M := list) f l = [] ↔ ∀ x, x ∈ l → f x = None.
Proof.
  induction l as [|x l IH]; [split; [by intros _ x ?%not_elem_of_nil|done]|]. cbn [omap list_omap]. split.
  - destruct (f x) eqn:Hx; [done|]. intros H y [->|Hy]%elem_of_cons; [done|by apply IH].
  - intros H. rewrite (H x) by apply list_elem_of_here. apply IH. intros y Hy. by apply H, list_elem_of_further.
Qed.

Lemma concat_nil {A B} (f : A → list B) l : concat (map f l) = [] ↔ ∀ x, x ∈ l → f x = [].
Proof.
  induction l as [|x l IH]; [split; [by intros _ x ?%not_elem_of_nil|done]|]. cbn [map concat]. split.
  - intros [H1 H2]%app_nil y [->|Hy]%elem_of_cons; [done|by apply IH].
  - intros H. rewrite (H x) by apply list_elem_of_here. apply IH. intros y Hy. by apply H, list_elem_of_further.
Qed.

(** the members a closed object's schema describes, and their predicates *)
Definition described (props : payload) (fields : list (string * (value → Prop))) : Prop :=
  Forall2 (λ p f, p.1 = f.1 ∧ ∃ s, p.2 = DictV s ∧ decides s f.2) props fields.

Lemma described_get props fields k : described props fields → NoDup fields.*1 → k ∈ fields.*1 →
  ∃ s P, get k props = DictV s ∧ decides s P ∧ (k, P) ∈ fields ∧ ∀ Q, (k, Q) ∈ fields → Q = P.
Proof.
  unfold get. induction 1 as [|[k1 v1] [k2 P2] props fields [Hk (s & Hv & Hs)] H IH]; [by intros _ ?%not_elem_of_nil|]. cbn in Hk, Hv, Hs. subst k2 v1.
  cbn [fmap list_fmap fst dict_get]. intros [Hnew Hnd]%NoDup_cons. case_decide as Heq.
  - intros _. subst k. exists s, P2. split_and!; [done|done|apply list_elem_of_here|]. intros Q [[= ->]|HQ]%elem_of_cons; [done|].
    exfalso. apply Hnew. by apply (list_elem_of_fmap_2 fst) in HQ.
  - intros [->|Hk]%elem_of_cons; [done|]. destruct (IH Hnd Hk) as (s' & P' & Hg & Hd & Hin & Hu). exists s', P'. split_and!; [done|done|by apply list_elem_of_further|].
    intros Q [[= -> ->]|HQ]%elem_of_cons; [done|by apply Hu].
Qed.

Lemma described_names props fields : described props fields → props.*1 = fields.*1.
Proof. induction 1 as [|p f props fields [Hk _] _ IH]; [done|]. cbn. by rewrite IH, Hk. Qed.

Lemma closed_object schema fields items path :
  type_errors (DictV items) schema path = [] → get "required" schema = ListV (StrV <$> fields.*1) → get "additionalProperties" schema = BoolV false →
  described (properties_of schema) fields → NoDup fields.*1 →
  _schema_errors (DictV items) schema path = [] ↔ closed fields (DictV items).
Proof.
  intros Ht Hreq Hadd Hprops Hnd. cbn [_schema_errors]. rewrite Ht. unfold key_errors. rewrite Hreq, Hadd.
  pose proof (described_names _ _ Hprops) as Hnames. split.
  - intros [[Hr Ha]%app_nil Hc]%app_nil. exists items. split; [done|]. split.
    + intros k Hk. apply has_key. destruct (has k items) eqn:Hh; [done|]. exfalso. rewrite omap_nil in Hr.
      specialize (Hr (StrV k) ltac:(by apply (list_elem_of_fmap_2 StrV))). cbn in Hr. by rewrite Hh in Hr.
    + intros k x Hin. rewrite omap_nil in Ha. specialize (Ha (k, x) Hin). cbn in Ha. destruct (has k (properties_of schema)) eqn:Hh; [|done].
      apply has_key in Hh. rewrite Hnames in Hh. destruct (described_get _ _ _ Hprops Hnd Hh) as (s & P & Hg & Hd & HP & _). exists P. split; [done|].
      rewrite concat_nil in Hc. specialize (Hc (k, x) Hin). cbn [fst snd] in Hc. rewrite Hg in Hc. by apply Hd in Hc.
  - intros (items' & [= <-] & Hr & Hall). apply app_nil. split; [apply app_nil; split|].
    + apply omap_nil. intros v (k & -> & Hk)%list_elem_of_fmap. apply Hr, has_key in Hk. by rewrite Hk.
    + apply omap_nil. intros [k x] Hin. destruct (Hall k x Hin) as (P & HP & _). apply (list_elem_of_fmap_2 fst) in HP. cbn in HP |- *.
      rewrite <- Hnames in HP. apply has_key in HP. by rewrite HP.
    + apply concat_nil. intros [k x] Hin. cbn [fst snd]. destruct (Hall k x Hin) as (P & HP & Hx). pose proof (list_elem_of_fmap_2 fst _ _ HP) as Hk. cbn in Hk.
      destruct (described_get _ _ _ Hprops Hnd Hk) as (s & P' & Hg & Hd & _ & Hu). rewrite Hg. apply Hd. by rewrite <- (Hu P HP).
Qed.

Lemma array_errors l schema path s P least : type_errors (ListV l) schema path = [] → get "items" schema = DictV s → decides s P →
  (match get "minItems" schema with IntV n => n = least | v => int_or_none v = None ∧ least = 0 end) →
  _schema_errors (ListV l) schema path = [] ↔ list_of least P (ListV l).
Proof.
  intros Ht Hs Hd Hm. cbn [_schema_errors]. rewrite Ht, Hs.
  assert (∀ i, (fix go (index : Z) (l : list value) : list string := match l with [] => []
     | item :: l' => _schema_errors item s (path +:+ "[" +:+ str_of_Z index +:+ "]")%string ++ go (index + 1) l' end) i l = [] ↔ ∀ x, x ∈ l → P x) as Hitems.
  { clear Hm Ht. induction l as [|x l IH]; intros i; [split; [by intros _ x ?%not_elem_of_nil|done]|]. split.
    - intros [H1 H2]%app_nil y [->|Hy]%elem_of_cons; [by apply Hd in H1|by apply (proj1 (IH (i + 1)) H2)].
    - intros H. apply app_nil. split; [apply Hd, H, list_elem_of_here|]. apply (proj2 (IH (i + 1))). intros y Hy. by apply H, list_elem_of_further. }
  split.
  - intros [H1 H2]%app_nil. exists l. split; [done|]. split; [|by apply (proj1 (Hitems 0))].
    destruct (get "minItems" schema) eqn:Hg; try (destruct Hm as [_ ->]; lia). subst least. cbn [int_or_none] in H1. by destruct (Z.ltb_spec (Z.of_nat (length l)) z).
  - intros (l' & [= <-] & Hlen & Hall). apply app_nil. split; [|by apply (proj2 (Hitems 0))].
    destruct (get "minItems" schema) eqn:Hg; try (destruct Hm as [-> _]; done). subst least. cbn [int_or_none]. by destruct (Z.ltb_spec (Z.of_nat (length l)) z); [lia|].
Qed.

Lemma span_digits_shape s : let '(l, r) := span_digits s in s = (string_of_digits l +:+ r)%string ∧ Forall (λ d, d < 10)%N l ∧ starts_with_digit r = false.
Proof.
  induction s as [|a s IH]; [by split_and!|]. cbn [span_digits]. destruct (is_digit a) eqn:Ha; [|by split_and!].
  destruct (span_digits s) as [l r]. destruct IH as (-> & Hl & Hr). destruct (digit_char_val a Ha) as [Hd Hlt]. rewrite string_of_digits_cons, string_app_cons, Hd.
  split_and!; [done|by constructor|done].
Qed.

Lemma unsigned_text s :
  match span_digits s with ([], _) => false | (_, EmptyString) => true | (_, String "." r) => match span_digits r with ([], _) => false | (_, EmptyString) => true | _ => false end | _ => false end = true ↔
  ∃ ip fp, s = plain_text ip fp ∧ ip ≠ [] ∧ Forall (λ d, d < 10)%N ip ∧ Forall (λ d, d < 10)%N fp.
Proof.
  split.
  - pose proof (span_digits_shape s) as Hs. destruct (span_digits s) as [[|d ip] r]; [done|]. destruct Hs as (-> & Hip & _).
    destruct r as [|a r]; [intros _; exists (d :: ip), []; by split_and!|]. destruct (Ascii.eqb_spec a ".") as [->|Hne].
    + cbn. pose proof (span_digits_shape r) as Hr. destruct (span_digits r) as [[|d' fp] r']; [done|]. destruct Hr as (-> & Hfp & _). destruct r'; [|done]. intros _.
      exists (d :: ip), (d' :: fp). split_and!; try done. unfold plain_text. by rewrite string_app_nil.
    + intros H. exfalso. destruct a as [[] [] [] [] [] [] [] []]; done.
  - intros (ip & fp & -> & Hne & Hip & Hfp). unfold plain_text. destruct fp as [|d fp].
    + rewrite span_digits_app by done. by destruct ip.
    + rewrite span_digits_app by done. destruct ip; [done|].
      change (match span_digits (string_of_digits (d :: fp)) with ([], _) => false | (_, EmptyString) => true | _ => false end = true).
      rewrite <- (string_app_nil (string_of_digits (d :: fp))). by rewrite span_digits_app.
Qed.

Lemma decimal_text_spec s : decimal_text s = true ↔ decimal_value (StrV s).
Proof.
  unfold decimal_text, decimal_value. split.
  - intros H. assert (∃ sign r, s = (sign +:+ r)%string ∧ (sign = "" ∨ sign = "-")%string ∧ (match s with String "-" r => r | _ => s end) = r) as (sign & r & Hs & Hsign & Hr).
    { destruct s as [|a s]; [exists "", ""%string; tauto|]. destruct (Ascii.eqb_spec a "-") as [->|Hne]; [exists "-"%string, s; tauto|]. exists ""%string, (String a s). split; [done|]. split; [tauto|].
      by destruct a as [[] [] [] [] [] [] [] []]. }
    rewrite Hr in H. apply unsigned_text in H as (ip & fp & -> & ? & ? & ?). exists sign, ip, fp. by rewrite Hs.
  - intros (sign & ip & fp & [= ->] & Hsign & Hne & Hip & Hfp).
    assert (match (sign +:+ plain_text ip fp)%string with String "-" r => r | _ => (sign +:+ plain_text ip fp)%string end = plain_text ip fp) as ->.
    { destruct Hsign as [-> | ->]; [|done]. rewrite string_app_empty. destruct ip as [|d ip]; [done|]. inversion Hip as [|? ? Hd _]; subst.
      unfold plain_text. rewrite string_of_digits_cons, string_app_cons. destruct (digit_char_spec d Hd) as [H _]. by destruct (digit_char d) as [[] [] [] [] [] [] [] []]. }
    apply unsigned_text. by exists ip, fp.
Qed.

Lemma long_enough s : s ≠ ""%string → (Z.of_nat (String.length s) <? 1) = false.
Proof. destruct s as [|a s]; [done|]. intros _. apply Z.ltb_ge. change (String.length (String a s)) with (S (String.length s)). lia. Qed.

Lemma text_decides : decides text_schema text_value.
Proof.
  intros v path. split; [apply valid_text|]. intros (s & -> & Hne). unfold _schema_errors, type_errors. change (get "type" _) with (StrV "string"). cbn [existsb].
  change (_type_ok (StrV s) "string") with true. cbn [orb]. unfold string_errors. change (int_or_none _) with (Some 1). change (is_str DECIMAL_PATTERN _) with false. cbn [andb].
  by rewrite long_enough.
Qed.

Lemma decimal_decides : decides (text_schema ++ [("pattern"%string, StrV DECIMAL_PATTERN)]) decimal_value.
Proof.
  intros v path. destruct v as [| | | |s| |]; try (split; [by vm_compute|by intros (? & ? & ? & [=] & _)]).
  rewrite <- decimal_text_spec. unfold _schema_errors, type_errors. change (get "type" _) with (StrV "string"). cbn [existsb].
  change (_type_ok (StrV s) "string") with true. cbn [orb]. unfold string_errors. change (int_or_none _) with (Some 1). change (is_str DECIMAL_PATTERN _) with true. cbn [andb].
  destruct (decimal_text s) eqn:Hd; cbn [negb].
  - rewrite long_enough by (by intros ->). done.
  - split; [|done]. intros [_ [=]]%app_nil.
Qed.

Lemma nullable_decides : decides [("type", nullable "string")]%string text_or_null.
Proof.
  intros v path. destruct v as [| | | |s| |]; try (split; [by vm_compute|intros [[=]|(? & [=])]]); [split; [by left|done]|].
  split; [intros _; right; by exists s|done].
Qed.

Lemma integer_decides : decides [("type", StrV "integer")]%string integer_value.
Proof. intros v path. destruct v as [| |z| | | |]; try (split; [by vm_compute|by intros (? & [=])]). split; [intros _; by exists z|done]. Qed.

(** an object that must be one *)
Lemma object_decides schema fields : get "type" schema = StrV "object" → get "required" schema = ListV (StrV <$> fields.*1) → get "additionalProperties" schema = BoolV false →
  described (properties_of schema) fields → NoDup fields.*1 → decides schema (closed fields).
Proof.
  intros Ht Hr Ha Hp Hnd v path.
  assert (∀ items, _schema_errors (DictV items) schema path = [] ↔ closed fields (DictV items)) as Hd.
  { intros items. apply closed_object; try done. unfold type_errors. by rewrite Ht. }
  split; [|intros Hv; pose proof Hv as (items & -> & _); by apply Hd].
  intros H. destruct (type_of_object _ _ _ H Ht) as [items ->]. by apply Hd.
Qed.

(** an object or null *)
Lemma optional_decides schema fields : get "type" schema = nullable "object" → get "required" schema = ListV (StrV <$> fields.*1) → get "additionalProperties" schema = BoolV false →
  described (properties_of schema) fields → NoDup fields.*1 → decides schema (λ v, v = NoneV ∨ closed fields v).
Proof.
  intros Ht Hr Ha Hp Hnd v path. destruct v as [| | | | | |items].
  7:{ rewrite (closed_object schema fields items path); try done; [|unfold type_errors; by rewrite Ht]. split; [by right|by intros [[=]|]]. }
  all: split; [intros H%errors_type; unfold type_errors in H; rewrite Ht in H; try (by vm_compute in H)|intros [H|(? & H & _)]; try done].
  - by left.
  - cbn [_schema_errors]. unfold type_errors. by rewrite Ht.
Qed.

Ltac describe :=
  unfold described; cbn [properties_of get dict_get fmap list_fmap default];
  repeat (apply Forall2_cons_2; [split; [reflexivity|]; cbn [snd]; eexists; split; [reflexivity|]|]); try apply Forall2_nil_2.

Lemma citation_decides : decides CITATION_SCHEMA citation_shape.
Proof. apply object_decides; try done; [describe; apply text_decides|]. apply (bool_decide_unpack _). by vm_compute. Qed.

Lemma numeric_decides : decides NUMERIC_SCHEMA numeric_shape.
Proof.
  apply optional_decides; try done; [describe; [apply decimal_decides|apply nullable_decides|apply nullable_decides|apply integer_decides]|]. apply (bool_decide_unpack _). by vm_compute.
Qed.

Lemma list_decides schema s P least : get "type" schema = StrV "array" → get "items" schema = DictV s → decides s P →
  (match get "minItems" schema with IntV n => n = least | v => int_or_none v = None ∧ least = 0 end) → decides schema (list_of least P).
Proof.
  intros Ht Hs Hd Hm v path.
  assert (∀ l, _schema_errors (ListV l) schema path = [] ↔ list_of least P (ListV l)) as Hl.
  { intros l. apply (array_errors l schema path s); try done. unfold type_errors. by rewrite Ht. }
  split; [|intros Hv; pose proof Hv as (l & -> & _); by apply Hl].
  intros H. destruct (type_of_array _ _ _ H Ht) as [l ->]. by apply Hl.
Qed.

Lemma claim_decides : decides CLAIM_SCHEMA claim_shape.
Proof.
  apply object_decides; try done; [describe; [apply text_decides| |apply numeric_decides]|apply (bool_decide_unpack _); by vm_compute].
  apply (list_decides _ CITATION_SCHEMA); [done|done|apply citation_decides|done].
Qed.

Lemma output_decides : decides CLAIM_JSON_SCHEMA output_shape.
Proof.
  apply object_decides; try done; [describe|apply (bool_decide_unpack _); by vm_compute].
  - apply (list_decides _ CLAIM_SCHEMA); [done|done|apply claim_decides|done].
  - apply optional_decides; try done; [describe; apply text_decides|]. apply (bool_decide_unpack _). by vm_compute.
Qed.

Lemma validated parsed : match validate_claims_output parsed with
  | Ok _ => output_shape (DictV parsed)
  | Err e => ¬ output_shape (DictV parsed) ∧ ∃ message, e = GenerationContractError "CLAIMS_OUTPUT_SCHEMA_INVALID" message
  end.
Proof.
  unfold validate_claims_output. pose proof (output_decides (DictV parsed) "$") as H. destruct (_schema_errors _ _ _) as [|e l]; [by apply H|].
  split; [intros Hs; by apply H in Hs|by eexists].
Qed.

(** ** Members *)

Lemma closed_get fields items k P : closed fields (DictV items) → (k, P) ∈ fields → NoDup fields.*1 → ∃ v, dict_get k items = Some v ∧ P v.
Proof.
  intros (items' & [= <-] & Hreq & Hall) Hin Hnd. assert (k ∈ items.*1) as Hk by (by apply Hreq, (list_elem_of_fmap_2 fst) in Hin || apply Hreq; by apply (list_elem_of_fmap_2 fst _ _ Hin)).
  apply has_key in Hk. unfold has in Hk. apply bool_decide_eq_true in Hk. destruct (dict_get k items) as [v|] eqn:Hv; [|done]. exists v. split; [done|].
  destruct (Hall k v (dict_get_in _ _ _ Hv)) as (Q & HQ & Hv'). assert (Q = P) as ->; [|done].
  clear -Hnd Hin HQ. induction fields as [|[k' R] fields IH]; [by apply not_elem_of_nil in Hin|]. cbn [fmap list_fmap fst] in Hnd. apply NoDup_cons in Hnd as [Hn Hnd].
  apply elem_of_cons in Hin, HQ. destruct Hin as [Heq|Hin], HQ as [Heq'|HQ]; [congruence| | |by apply IH].
  - exfalso. apply Hn. injection Heq as <- _. by apply (list_elem_of_fmap_2 fst) in HQ.
  - exfalso. apply Hn. injection Heq' as <- _. by apply (list_elem_of_fmap_2 fst) in Hin.
Qed.

Lemma get_some k (d : payload) v : dict_get k d = Some v → get k d = v.
Proof. unfold get. by intros ->. Qed.

(** ** What a claim is read as, and why one is rejected *)

Section claims.
Context (context : list context_item).

(** the quote is, up to white space, a non-empty part of the item's text *)
Definition quotes (item : context_item) (q : string) : Prop := _normalize q ≠ ""%string ∧ contains (_normalize q) (_normalize (ci_text item)) = true.

Definition citation_text (raw : value) (i q : string) : Prop := ∃ d, raw = DictV d ∧ dict_get "item_id"%string d = Some (StrV i) ∧ dict_get "quote"%string d = Some (StrV q).

Definition read_citation (raw : value) (c : claim_citation) : Prop :=
  ∃ i q item, citation_text raw i q ∧ accepted context i = Some item ∧ quotes item q ∧ c = ClaimCitation i (ci_source_span_id item) irrelevant [] None None None None (Some q).

Definition text_of (v : value) : string := match v with StrV s => s | _ => ""%string end.

Definition read_numeric (v : value) (n : option numeric_tuple) : Prop :=
  match v with
  | DictV d => ∃ s x z, dict_get "value"%string d = Some (StrV s) ∧ decimal_of_text s = Some (Finite x) ∧ dict_get "scale"%string d = Some (IntV z) ∧
      z ∈ NUMERIC_SCALE_EXPONENTS ∧ n = Some (NumericTuple x (text_of (get "unit" d)) (text_of (get "period" d)) z)
  | _ => v = NoneV ∧ n = None
  end.

Definition read_claim (ord : nat) (raw : value) (c : generated_claim) : Prop :=
  ∃ d t cs n, raw = DictV d ∧ dict_get "text"%string d = Some (StrV t) ∧ dict_get "citations"%string d = Some (ListV cs) ∧ dict_get "numeric"%string d = Some n ∧
    Forall2 read_citation cs (gc_citations c) ∧ read_numeric n (gc_numeric c) ∧
    c = GeneratedClaim (Z.of_nat ord) t unsupported (gc_citations c) None [] (gc_numeric c).

(** the first thing wrong with a well-formed claim *)
Inductive claim_problem : value → generation_error → Prop :=
| unknown_item d cs raw i q message : dict_get "citations"%string d = Some (ListV cs) → raw ∈ cs → citation_text raw i q → accepted context i = None →
    claim_problem (DictV d) (GenerationContractError "UNKNOWN_CONTEXT_ITEM" message)
| foreign_quote d cs raw i q item message : dict_get "citations"%string d = Some (ListV cs) → raw ∈ cs → citation_text raw i q → accepted context i = Some item → ¬ quotes item q →
    claim_problem (DictV d) (GenerationContractError "QUOTE_NOT_IN_CONTEXT_ITEM" message)
| not_decimal d n s message : dict_get "numeric"%string d = Some (DictV n) → dict_get "value"%string n = Some (StrV s) → (∀ x, decimal_of_text s ≠ Some (Finite x)) →
    claim_problem (DictV d) (GenerationContractError "CLAIM_NUMERIC_NOT_DECIMAL" message)
| illegal_scale d n z : dict_get "numeric"%string d = Some (DictV n) → dict_get "scale"%string n = Some (IntV z) → z ∉ NUMERIC_SCALE_EXPONENTS →
    claim_problem (DictV d) (ValueErr ("illegal numeric scale: " +:+ str_of_Z z)%string).

Lemma citation_read path i raw : citation_shape raw →
  match citation_from context path i raw with
  | Ok c => read_citation raw c
  | Err e => ∃ k q message, citation_text raw k q ∧
      (accepted context k = None ∧ e = GenerationContractError "UNKNOWN_CONTEXT_ITEM" message ∨
       ∃ item, accepted context k = Some item ∧ ¬ quotes item q ∧ e = GenerationContractError "QUOTE_NOT_IN_CONTEXT_ITEM" message)
  end.
Proof.
  intros Hs. pose proof Hs as (d & -> & _). destruct (closed_get _ d "item_id"%string text_value Hs) as (v & Hi & (k & -> & _)); [set_solver|apply (bool_decide_unpack _); by vm_compute|].
  destruct (closed_get _ d "quote"%string text_value Hs) as (v & Hq & (q & -> & _)); [set_solver|apply (bool_decide_unpack _); by vm_compute|].
  unfold citation_from, subscript. rewrite Hi, Hq. cbn [from_option_err mbind result_bind py_str].
  assert (citation_text (DictV d) k q) as Ht by (by exists d). destruct (accepted context k) as [item|] eqn:Ha; [|eexists k, q, _; by eauto].
  destruct (bool_decide (_normalize q = ""%string)) eqn:He; cbn [orb].
  { apply bool_decide_eq_true in He. eexists k, q, _. split; [done|]. right. exists item. split; [done|]. split; [|done]. by intros [? _]. }
  apply bool_decide_eq_false in He. destruct (contains (_normalize q) (_normalize (ci_text item))) eqn:Hc; cbn [negb].
  - exists k, q, item. split; [done|]. split; [done|]. split; [done|]. by rewrite (proj2 (accepted_spec _ _ _ Ha)).
  - eexists k, q, _. split; [done|]. right. exists item. split; [done|]. split; [|done]. intros [_ ?]. congruence.
Qed.

Lemma numeric_read path v : numeric_shape v →
  match (match v with DictV raw_numeric => n ← _numeric_from raw_numeric path; Ok (Some n) | _ => Ok None end) with
  | Ok n => read_numeric v n
  | Err e => ∃ d, v = DictV d ∧
      ((∃ s message, dict_get "value"%string d = Some (StrV s) ∧ (∀ x, decimal_of_text s ≠ Some (Finite x)) ∧ e = GenerationContractError "CLAIM_NUMERIC_NOT_DECIMAL" message) ∨
       ∃ z, dict_get "scale"%string d = Some (IntV z) ∧ z ∉ NUMERIC_SCALE_EXPONENTS ∧ e = ValueErr ("illegal numeric scale: " +:+ str_of_Z z)%string)
  end.
Proof.
  intros [->|Hs]; [done|]. pose proof Hs as (d & -> & _).
  destruct (closed_get _ d "value"%string decimal_value Hs) as (v & Hv & (sg & ip & fp & -> & _)); [set_solver|apply (bool_decide_unpack _); by vm_compute|].
  destruct (closed_get _ d "scale"%string integer_value Hs) as (v & Hz & (z & ->)); [set_solver|apply (bool_decide_unpack _); by vm_compute|].
  set (s := (sg +:+ plain_text ip fp)%string) in *. unfold _numeric_from. unfold get at 1. rewrite Hv, Hz. cbn [default py_str from_option_err mbind result_bind]. unfold id. cbn [py_str].
  destruct (decimal_of_text s) as [[x|b|]|] eqn:Hd.
  2-4: exists d; split; [done|]; left; eexists s, _; split; [done|]; split; [by rewrite Hd|reflexivity].
  unfold make_numeric. case_bool_decide as Hin; cbn [mbind result_bind].
  - exists s, x, z. split_and!; try done.
  - exists d. split; [done|]. right. by exists z.
Qed.

Lemma claim_read ord raw : claim_shape raw → match claim_from context ord raw with Ok c => read_claim ord raw c | Err e => claim_problem raw e end.
Proof.
  intros Hs. pose proof Hs as (d & -> & _).
  destruct (closed_get _ d "text"%string text_value Hs) as (v & Ht & (t & -> & _)); [set_solver|apply (bool_decide_unpack _); by vm_compute|].
  destruct (closed_get _ d "citations"%string (list_of 1 citation_shape) Hs) as (v & Hc & (cs & -> & _ & Hcs)); [set_solver|apply (bool_decide_unpack _); by vm_compute|].
  destruct (closed_get _ d "numeric"%string numeric_shape Hs) as (n & Hn & Hns); [set_solver|apply (bool_decide_unpack _); by vm_compute|].
  unfold claim_from, subscript. rewrite Hc, Ht. cbn [from_option_err mbind result_bind iterate]. set (path := at_index "$" ".claims" ord).
  destruct (mapi_from (citation_from context path) 0 cs) as [cits|e] eqn:Hm; cbn [mbind result_bind].
  - unfold get at 1. rewrite Hn. cbn [default]. unfold id. pose proof (numeric_read path n Hns) as Hnum.
    destruct (match n with DictV raw_numeric => n ← _numeric_from raw_numeric path; Ok (Some n) | _ => Ok None end) as [num|e]; cbn [mbind result_bind].
    + exists d, t, cs, n. cbn [gc_citations gc_numeric py_str]. split_and!; try done. destruct (mapi_from_Ok _ _ _ _ Hm) as [Hlen Hall].
      apply Forall2_same_length_lookup_2; [done|]. intros i raw c Hraw Hci. destruct (Hall i c Hci) as (raw' & Hraw' & Hf). rewrite Hraw in Hraw'. injection Hraw' as <-.
      pose proof (citation_read path (0 + i) raw (Hcs raw ltac:(by eapply list_elem_of_lookup_2))) as Hr. by rewrite Hf in Hr.
    + destruct Hnum as (nd & -> & [(s & message & Hs' & Hx & ->)|(z & Hz & Hx & ->)]); [by eapply not_decimal|by eapply illegal_scale].
  - apply mapi_from_Err in Hm as (i & raw & Hin & Hf). pose proof (citation_read path i raw (Hcs raw Hin)) as Hr. rewrite Hf in Hr.
    destruct Hr as (k & q & message & Hct & [[Ha ->]|(item & Ha & Hq & ->)]); [by eapply unknown_item|by eapply foreign_quote].
Qed.

(** ** A whole answer *)

(** what the generator makes of the provider's answer, and the result it gives the
    caller or attaches to its contract error *)
Definition generated_as (a : structured_result) (r : result (generation_error * option generation_result) generation_result) : Prop :=
  let rejected code := ∃ message, r = Err (GenerationContractError code message, Some (GenerationResult [] a false None true None)) in
  if sr_refused a then r = Ok (GenerationResult [] a true (sr_refusal a) false None) else
  match sr_parsed a with
  | None => rejected "CLAIMS_OUTPUT_MISSING"%string
  | Some parsed =>
      (¬ output_shape (DictV parsed) ∧ rejected "CLAIMS_OUTPUT_SCHEMA_INVALID"%string) ∨
      (output_shape (DictV parsed) ∧
       match get "abstain" parsed with
       | DictV d => ∃ reason, dict_get "reason"%string d = Some (StrV reason) ∧ r = Ok (GenerationResult [] a false None true (Some reason))
       | _ => ∃ l, dict_get "claims"%string parsed = Some (ListV l) ∧
           match r with
           | Ok g => g = GenerationResult (gr_claims g) a false None false None ∧ length (gr_claims g) = length l ∧
               ∀ i raw c, l !! i = Some raw → gr_claims g !! i = Some c → read_claim i raw c
           | Err (e, usage) => (∃ raw, raw ∈ l ∧ claim_problem raw e) ∧
               usage = match e with GenerationContractError _ _ => Some (GenerationResult [] a false None true None) | _ => None end
           end
       end)
  end.

Lemma generate_exact generate_structured max_output_tokens question as_of :
  generated_as (generate_structured (request_for max_output_tokens question context as_of)) (generate generate_structured max_output_tokens false question context as_of).
Proof.
  unfold generate, generated_as. cbv zeta. set (a := generate_structured _). destruct (sr_refused a); [done|]. unfold _claims_from.
  destruct (sr_parsed a) as [parsed|]; [|by eexists]. pose proof (validated parsed) as Hv.
  destruct (validate_claims_output parsed) as [[]|e]; cbn [mbind result_bind]; [right|left; destruct Hv as [Hn (message & ->)]; split; [done|by eexists]]. split; [done|].
  destruct (closed_get _ parsed "abstain"%string abstain_shape Hv) as (ab & Hab & Hshape); [set_solver|apply (bool_decide_unpack _); by vm_compute|].
  destruct (closed_get _ parsed "claims"%string (list_of 0 claim_shape) Hv) as (v & Hl & (l & -> & _ & Hall)); [set_solver|apply (bool_decide_unpack _); by vm_compute|].
  rewrite !(get_some _ _ _ Hab), !(get_some _ _ _ Hl). destruct Hshape as [->|Hr].
  - exists l. split; [done|]. destruct (mapi_from (claim_from context) 0 l) as [claims|e] eqn:Hm; cbn [mbind result_bind].
    + cbn [gr_claims]. destruct (mapi_from_Ok _ _ _ _ Hm) as [Hlen Hc]. split; [done|]. split; [done|]. intros i raw c Hraw Hci.
      destruct (Hc i c Hci) as (raw' & Hraw' & Hf). rewrite Hraw in Hraw'. injection Hraw' as <-. cbn in Hf.
      pose proof (claim_read i raw (Hall raw ltac:(by eapply list_elem_of_lookup_2))) as Hr. by rewrite Hf in Hr.
    + apply mapi_from_Err in Hm as (i & raw & Hin & Hf). pose proof (claim_read i raw (Hall raw Hin)) as Hr. rewrite Hf in Hr.
      assert (∃ raw, raw ∈ l ∧ claim_problem raw e) by (by exists raw). by destruct e.
  - pose proof Hr as (d & -> & _). destruct (closed_get _ d "reason"%string text_value Hr) as (v & Hd & (s & -> & _)); [set_solver|apply (bool_decide_unpack _); by vm_compute|].
    exists s. split; [done|]. by rewrite (get_some _ _ _ Hd).
Qed.
End claims.

Section generate.
Context (generate_structured : llm_request → structured_result) (max_output_tokens : Z).
Notation generate := (generate generate_structured max_output_tokens false).

Lemma generate_proposes question context as_of r :
  generate question context as_of = Ok r →
  (∀ i c, gr_claims r !! i = Some c → proposed context i c) ∧
  (gr_refused r = true ∨ gr_abstained r = true → gr_claims r = []).
Proof.
  unfold Generation.generate. cbv zeta. case_match; [intros [= <-]; split; [intros i c Hi; by apply list_elem_of_lookup_2, not_elem_of_nil in Hi|done]|].
  pose proof (claims_from_spec (sr_parsed (generate_structured (request_for max_output_tokens question context as_of))) context _ eq_refl) as Hspec.
  destruct (_claims_from _ _) as [[claims reason]|[]]; try done. destruct Hspec as [Hall Hnone]. intros [= <-]. split; [done|]. cbn.
  intros [?|Ha]; [done|]. apply Hnone. by rewrite bool_decide_eq_true in Ha.
Qed.

(** C15: Only grounded claims leave the generator.  When it returns, each claim is
    numbered by its place, has no status and no confidence of its own, and cites
    at least one item; each citation names a selected item, carries that item's
    span, and quotes, up to white space, a non-empty part of its text.  When the
    provider refused or the model abstained there is no claim at all. *)
Theorem claims_are_grounded question context as_of r :
  generate question context as_of = Ok r →
  (∀ i c, gr_claims r !! i = Some c → proposed context i c) ∧
  (gr_refused r = true ∨ gr_abstained r = true → gr_claims r = []).
Proof. apply generate_proposes. Qed.

Lemma generate_closed question context as_of e usage :
  generate question context as_of = Err (e, usage) →
  (∃ code message, e = GenerationContractError code message ∧
    ∃ u, usage = Some u ∧ gr_claims u = [] ∧ gr_abstained u = true ∧ gr_usage u = generate_structured (request_for max_output_tokens question context as_of)) ∨
  (∃ z, z ∉ NUMERIC_SCALE_EXPONENTS ∧ e = ValueErr ("illegal numeric scale: " +:+ str_of_Z z)%string ∧ usage = None).
Proof.
  unfold Generation.generate. cbv zeta. case_match; [done|].
  pose proof (claims_from_spec (sr_parsed (generate_structured (request_for max_output_tokens question context as_of))) context _ eq_refl) as Hspec.
  destruct (_claims_from _ _) as [[claims reason]|e']; [done|]. destruct Hspec as [(code & message & ->)|(z & Hz & ->)]; intros [= <- <-].
  - left. exists code, message. split; [done|]. by eexists.
  - right. by exists z.
Qed.

End generate.

(** C16: The generator fails closed, and exactly when it must.  With a provider that
    answers (an exception of the provider is the caller's), the outcome of
    [generate], outside identity mode, is this.  A refusal is returned as one, without
    claims.  Otherwise an answer without a parsed object is the contract error
    [CLAIMS_OUTPUT_MISSING], an object outside the schema claims-output/v1 (members
    missing or unexpected at any level, a wrong type, an empty text, no citation, a
    value that is not digits with an optional sign and fraction) is
    [CLAIMS_OUTPUT_SCHEMA_INVALID], and an abstention of the model is returned with
    its reason.  An object within the schema returns its claims in order, each with
    its text, its number and its citations of selected items that contain the
    quotes; or it is rejected for a claim that cites an unknown item, quotes what
    the item does not say, or has a number no [Decimal] can hold.  Every contract
    error carries the usage of the call and no claim; the one other exception is the
    [ValueError] of a scale that is not 0, 3, 6 or 9, which carries nothing. *)
Theorem generation_fails_closed generate_structured max_output_tokens question context as_of :
  generated_as context (generate_structured (request_for max_output_tokens question context as_of)) (generate generate_structured max_output_tokens false question context as_of).
Proof. apply generate_exact. Qed.

(** * An answer with one claim *)

Module Answer.
Definition item : context_item :=
  ContextItem "i1" "fact" "Revenue  was 100" "s1" "v1" (Some "f1"%string) (Some (NumericTuple (Dec false 100 0) "USD" "FY2025" 6)).
Definition context : list context_item := [item].
Definition claim_value (scale : Z) : value :=
  DictV [("text", StrV "Revenue was 100"); ("citations", ListV [DictV [("item_id", StrV "i1"); ("quote", StrV "Revenue was")]]);
    ("numeric", DictV [("value", StrV "100"); ("unit", StrV "USD"); ("period", StrV "FY2025"); ("scale", IntV scale)])]%string.
Definition provider (scale : Z) (_ : llm_request) : structured_result :=
  StructuredResult (Some [("claims", ListV [claim_value scale]); ("abstain", NoneV)]%string) "mock" "mock-structured-v1" 10 5 "r1" (Dec false 0 0) false None.
Definition result : generation_result :=
  match generate (provider 6) 1024 false "What was revenue?" context "2026-01-01" with Ok r => r | Err _ => GenerationResult [] (provider 6 (LlmRequest "" "" [] "" 0)) false None false None end.
Definition claim : generated_claim :=
  List.hd (GeneratedClaim 0 "" unsupported [] None [] None) (gr_claims result).
End Answer.

Lemma claims_are_grounded_witness : length (gr_claims Answer.result) = 1%nat ∧ proposed Answer.context 0 Answer.claim.
Proof.
  split; [vm_compute; reflexivity|].
  apply (claims_are_grounded (Answer.provider 6) 1024 "What was revenue?" Answer.context "2026-01-01" Answer.result); vm_compute; reflexivity.
Defined.

Definition bad_scale : result (generation_error * option generation_result) generation_result :=
  generate (Answer.provider 2) 1024 false "What was revenue?" Answer.context "2026-01-01".

Example scale_loses_usage : bad_scale = Err (ValueErr "illegal numeric scale: 2", None).
Proof. vm_compute. reflexivity. Qed.
