(* ===== verification/Verification.v ===== *)
(** [str] and [format] of a [float], and the quotient of two integers.

    [repr] gives the shortest decimal that reads back as the same double, and of
    those the closest to it; [Decimal(str(x))] is that decimal.

    [packages/retrieval/fel_retrieval/verification.py]: every claim's citation edges,
    status and confidence are derived again from the evidence.

    [CitationVerifier] is the module's protocol; [MockCitationVerifier] its
    deterministic implementation.  The checks run on decimals of the default
    context, the lexical coverage on doubles. *)

From Stdlib Require Import SpecFloat QArith Qabs Lqa.
From S2P Require Import Prelude Decimals Floats Periods.
Local Open Scope Z_scope.

(** [a / b] of two integers below [2 ** 53] *)
Definition int_div (a b : Z) : spec_float := SFdiv 53 1024 (SF64 a 0) (SF64 b 0).

(** the magnitude of a finite double *)
Definition magnitude_q (x : spec_float) : Q :=
  match x with S754_finite _ m e => (inject_Z (Zpos m) * (2 # 1) ^ e)%Q | _ => 0%Q end.

(** the decimal [c * 10 ^ k] reads back as the double [m * 2 ^ e] *)
Definition reads_back (m : positive) (e : Z) (c k : Z) : bool :=
  let x := (inject_Z (Zpos m) * (2 # 1) ^ e)%Q in
  let d := (inject_Z c * (10 # 1) ^ k)%Q in
  let up := ((2 # 1) ^ (e - 1))%Q in
  let down := if (Zpos m =? 2 ^ 52) && (-1074 <? e) then ((2 # 1) ^ (e - 2))%Q else up in
  if Z.even (Zpos m) then Qle_bool (x - down) d && Qle_bool d (x + up)
  else negb (Qle_bool d (x - down)) && negb (Qle_bool (x + up) d).

(** the integer nearest a quotient, half to even *)
Definition nearest_even (q : Q) : Z :=
  let f := Qnum q / Zpos (Qden q) in
  match (2 * (Qnum q - f * Zpos (Qden q)) ?= Zpos (Qden q)) with Lt => f | Gt => f + 1 | Eq => if Z.even f then f else f + 1 end.

(** the power [p] of ten with [10 ^ (p - 1) <= x < 10 ^ p], for a positive [x] *)
Fixpoint scale_down (fuel : nat) (x : Q) (p : Z) : Z :=
  match fuel with
  | O => p
  | S fuel => if Qle_bool 1 (x * 10) then p else scale_down fuel (x * 10) (p - 1)
  end.
Definition decimal_point (x : Q) : Z := if Qle_bool 1 x then ndigits (Z.to_N (Qnum x / Zpos (Qden x))) else scale_down 400 x 0.

(** the coefficient and the exponent of [repr], trying [n] digits and more *)
Fixpoint shortest (fuel : nat) (m : positive) (e n p : Z) : Z * Z :=
  let c := nearest_even (inject_Z (Zpos m) * (2 # 1) ^ e * (10 # 1) ^ (n - p))%Q in
  match fuel with
  | O => (c, p - n)
  | S fuel => if reads_back m e c (p - n) then (c, p - n) else shortest fuel m e (n + 1) p
  end.

(** [Decimal(str(x))] of a finite double; [repr] writes an integral value below
    [10 ** 16] with a zero after the point *)
Definition decimal_of_float (x : spec_float) : decimal :=
  match x with
  | S754_finite s m e =>
      let p := decimal_point (magnitude_q x) in
      let '(c, k) := shortest 16 m e 1 p in
      if (0 <=? k) && (p <=? 16) then Dec s (Z.to_N (c * 10 ^ (k + 1))) (-1) else Dec s (Z.to_N c) k
  | S754_zero s => Dec s 0 (-1)
  | _ => Dec false 0 0
  end.

Example shortest_third : decimal_of_float (int_div 1 3) = Dec false 3333333333333333 (-16).
Proof. vm_compute. reflexivity. Qed.
Example shortest_two_thirds : decimal_of_float (int_div 2 3) = Dec false 6666666666666666 (-16).
Proof. vm_compute. reflexivity. Qed.
Example shortest_half : decimal_of_float (int_div 1 2) = Dec false 5 (-1) ∧ decimal_of_float (int_div 3 3) = Dec false 10 (-1).
Proof. vm_compute. done. Qed.
Example shortest_tenth : decimal_of_float (int_div 1 10) = Dec false 1 (-1) ∧ decimal_of_float (int_div 5 6) = Dec false 8333333333333334 (-16).
Proof. vm_compute. done. Qed.

(** [f"{x:.2f}"] of a finite double: its exact value rounded half to even *)
Definition format_2f (x : spec_float) : string :=
  let n := nearest_even (magnitude_q x * 100)%Q in
  let sign := match x with S754_finite true _ _ | S754_zero true => "-" | _ => "" end in
  (sign +:+ str_of_Z (n / 100) +:+ "." +:+ string_of_digits [Z.to_N (n / 10 mod 10); Z.to_N (n mod 10)])%string.

Example two_places : format_2f (int_div 2 3) = "0.67" ∧ format_2f (int_div 1 8) = "0.12" ∧ format_2f (int_div 0 3) = "0.00".
Proof. vm_compute. done. Qed.

From S2P Require Import Dicts Text Canonical Payload Generation.

Inductive verification_error := CitationIntegrityError (code message : string) | Arithmetic (e : exception).

Notation verified := (result verification_error).

Definition CONFIDENCE_QUANTUM : decimal := Dec false 1 (-4).
Definition ONE : decimal := Dec false 1 0.
Definition ZERO : decimal := Dec false 0 0.
Definition PARTIAL_COVERAGE : spec_float := SF64 1 (-1).

Record citation_edge := CitationEdge { ce_status : citation_status; ce_numeric_checks : list (string * bool); ce_rationale : string; ce_confidence : decimal }.

(** * Lexical coverage *)

Definition is_token_char (a : ascii) : bool := is_digit a || (let n := N_of_ascii a in (97 <=? n) && (n <=? 122))%N.

(** [[a-z0-9]+], all the matches; [t] is the token read so far *)
Fixpoint tokens_from (t : string) (s : string) : list string :=
  let flush rest := if decide (t = ""%string) then rest else t :: rest in
  match s with
  | EmptyString => flush []
  | String a s' => if is_token_char a then tokens_from (t +:+ String a EmptyString) s' else flush (tokens_from "" s')
  end.

(** the set of tokens, in order of first occurrence *)
Definition _tokens (text : string) : list string := dict_fromkeys (tokens_from "" (lower text)).

Definition _coverage (claim_text evidence_text : string) : spec_float :=
  match _tokens claim_text with
  | [] => SF64 0 0
  | claim_tokens =>
      let covered := filter (λ t, t ∈ _tokens evidence_text) claim_tokens in
      int_div (Z.of_nat (length covered)) (Z.of_nat (length claim_tokens))
  end.

(** * The numeric check *)

Definition abs (d : decimal) : verified decimal := map_err Arithmetic (py_abs d).

Definition validate_numeric (claim evidence : numeric_tuple) : verified (list (string * bool)) :=
  a ← abs (n_value claim);
  b ← abs (n_value evidence);
  Ok [("value", dec_eqb a b); ("unit", bool_decide (n_unit claim = n_unit evidence)); ("period", bool_decide (n_period claim = n_period evidence));
      ("sign", (n_sign claim =? n_sign evidence)%Z); ("scale", (n_scale claim =? n_scale evidence)%Z)]%string.

Definition all_pass (checks : list (string * bool)) : bool := forallb snd checks.

(** * Verifiers *)

Class CitationVerifier := {
  v_name : string; v_model : string; v_version : string;
  verify : string → context_item → option numeric_tuple → verified citation_edge;
}.

(** [Decimal(...).quantize(q, rounding=ROUND_DOWN)] of a decimal of at most 24 integral digits *)
Definition quantize_down (d q : decimal) : decimal :=
  if d_exp q <=? d_exp d then Dec (d_sign d) (d_coeff d * pow10 (d_exp d - d_exp q)) (d_exp q)
  else Dec (d_sign d) (d_coeff d / pow10 (d_exp q - d_exp d)) (d_exp q).

(** [Decimal("1") - _CONFIDENCE_QUANTUM] *)
Definition BELOW_ONE : decimal := Dec false 9999 (-4).

(** [min(a, b)] *)
Definition dec_min (a b : decimal) : decimal := if dec_ltb b a then b else a.

Definition has_digit (s : string) : bool := existsb is_digit (chars s).

(** equal up to white space *)
Definition same_words (a b : string) : bool := bool_decide (join " " (split a) = join " " (split b)).

Definition lexical_edge (claim_text : string) (evidence : context_item) (checks : list (string * bool)) : citation_edge :=
  let coverage := _coverage claim_text (ci_text evidence) in
  let nonzero := negb (SFeqb coverage (SF64 0 0)) in
  if nonzero && same_words claim_text (ci_text evidence) then CitationEdge entailed checks "whole-evidence text identity" ONE
  else
    CitationEdge (if SFleb PARTIAL_COVERAGE coverage then partial else irrelevant) checks
      ("lexical coverage " +:+ format_2f coverage +:+ "; semantic entailment unverified")
      (dec_min (quantize_down (decimal_of_float coverage) CONFIDENCE_QUANTUM) BELOW_ONE).

Definition mock_verify (claim_text : string) (evidence : context_item) (claim_numeric : option numeric_tuple) : verified citation_edge :=
  match claim_numeric, ci_numeric evidence with
  | None, Some _ =>
      if has_digit claim_text then Ok (CitationEdge irrelevant [] "numeric fact claim has no independently asserted numeric tuple" ZERO)
      else Ok (lexical_edge claim_text evidence [])
  | None, None => Ok (lexical_edge claim_text evidence [])
  | Some _, None => Ok (CitationEdge irrelevant [] "claim asserts numeric but evidence has no numeric tuple" ZERO)
  | Some claim, Some numeric =>
      checks ← validate_numeric claim numeric;
      if all_pass checks then Ok (lexical_edge claim_text evidence checks)
      else Ok (CitationEdge contradictory checks
                 ("numeric mismatch: " +:+ join ", " (sorted_strings (filter (λ kv, kv.2 = false) checks).*1))%string ZERO)
  end.

#[export] Instance MockCitationVerifier : CitationVerifier :=
  { v_name := "mock-entailment"; v_model := "mock-verifier-v1"; v_version := "v1"; verify := mock_verify }.

(** * Claims *)

Definition assert_citation_integrity (citation : claim_citation) (context : list context_item) : verified context_item :=
  match accepted context (cc_item_id citation) with
  | None => Err (CitationIntegrityError "DANGLING_CITATION" ("citation item " +:+ cc_item_id citation +:+ " is not an accepted candidate"))
  | Some item =>
      if decide (cc_source_span_id citation = ci_source_span_id item) then Ok item
      else Err (CitationIntegrityError "CROSS_VERSION_CITATION"
                  ("citation span " +:+ cc_source_span_id citation +:+ " does not belong to item " +:+ cc_item_id citation))
  end.

Definition classify_claim (edges : list citation_status) : claim_status :=
  match edges with
  | [] => unsupported
  | _ =>
      if existsb (λ s, bool_decide (s = contradictory)) edges then contradicted
      else if negb (existsb (λ s, bool_decide (s = entailed ∨ s = partial)) edges) then unsupported
      else if forallb (λ s, bool_decide (s = entailed)) edges then supported
      else partially_supported
  end.

Definition should_abstain (claims : list generated_claim) : bool :=
  match claims with [] => true | _ => forallb (λ c, bool_decide (gc_status c = unsupported)) claims end.

(** [min(edge.confidence for edge in edges)] *)
Definition claim_confidence (edges : list citation_edge) : option decimal :=
  match ce_confidence <$> edges with [] => None | c :: l => Some (fold_left dec_min l c) end.

Section verify_claims.
Context `{V : CitationVerifier}.

Definition verify_citation (context : list context_item) (claim : generated_claim) (citation : claim_citation) : verified (claim_citation * citation_edge) :=
  item ← assert_citation_integrity citation context;
  edge ← verify (gc_text claim) item (gc_numeric claim);
  Ok (ClaimCitation (cc_item_id citation) (cc_source_span_id citation) (ce_status edge) (ce_numeric_checks edge) (Some (ce_rationale edge))
        (Some v_name) (Some v_model) (Some v_version) (cc_quote citation), edge).

Definition verify_claim (context : list context_item) (claim : generated_claim) : verified generated_claim :=
  checked ← mapM (verify_citation context claim) (gc_citations claim);
  let status := classify_claim (cc_status <$> checked.*1) in
  let status := if decide (status = supported) then match gc_calculation_lineage claim with [] => status | _ => derived end else status in
  Ok (GeneratedClaim (gc_ord claim) (gc_text claim) status checked.*1 (claim_confidence checked.*2) (gc_calculation_lineage claim) (gc_numeric claim)).

Definition verify_claims (claims : list generated_claim) (context : list context_item) : verified (list generated_claim) :=
  mapM (verify_claim context) claims.
End verify_claims.

(** * The folds *)

(** The status of a claim: contradicted by any contradictory edge; otherwise
    supported when it has edges and all entail it, partially supported when some
    edge supports it, unsupported when none does. *)
Lemma classify_claim_exact (edges : list citation_status) :
  (classify_claim edges = contradicted ↔ contradictory ∈ edges) ∧
  (classify_claim edges = supported ↔ edges ≠ [] ∧ ∀ s, s ∈ edges → s = entailed) ∧
  (classify_claim edges = unsupported ↔ ∀ s, s ∈ edges → s = irrelevant) ∧
  classify_claim edges ≠ derived.
Proof.
  assert (existsb (λ s, bool_decide (s = contradictory)) edges = true ↔ contradictory ∈ edges) as Hc.
  { rewrite existsb_exists. setoid_rewrite bool_decide_eq_true. setoid_rewrite <- list_elem_of_In. naive_solver. }
  assert (existsb (λ s, bool_decide (s = entailed ∨ s = partial)) edges = true ↔ ∃ s, s ∈ edges ∧ (s = entailed ∨ s = partial)) as Hs.
  { rewrite existsb_exists. setoid_rewrite bool_decide_eq_true. setoid_rewrite <- list_elem_of_In. done. }
  assert (forallb (λ s, bool_decide (s = entailed)) edges = true ↔ ∀ s, s ∈ edges → s = entailed) as Ha.
  { rewrite forallb_forall. setoid_rewrite bool_decide_eq_true. setoid_rewrite <- list_elem_of_In. done. }
  unfold classify_claim. destruct edges as [|e es]; [split; [by split; [|intros ?%not_elem_of_nil]|]; split; [naive_solver|]; split; [|done]; split; [|done]; by intros _ s ?%not_elem_of_nil|].
  destruct (existsb (λ s, bool_decide (s = contradictory)) (e :: es)).
  { destruct Hc as [Hc _]. specialize (Hc eq_refl). split; [done|]. split; [|split; [|done]]; (split; [done|]); [intros [_ H]|intros H]; by specialize (H _ Hc). }
  assert (contradictory ∉ e :: es) as Hn by (intros H; by apply Hc in H).
  destruct (existsb (λ s, bool_decide (s = entailed ∨ s = partial)) (e :: es)); cbn [negb].
  - destruct Hs as [Hs _]. destruct (Hs eq_refl) as (s & Hin & Hsup).
    destruct (forallb (λ s, bool_decide (s = entailed)) (e :: es)).
    + destruct Ha as [Ha _]. specialize (Ha eq_refl). split; [done|]. split; [done|]. split; [|done]. split; [done|]. intros H. specialize (H s Hin). destruct Hsup; congruence.
    + split; [done|]. split; [|split; [|done]]; (split; [done|]); [intros [_ H]; by apply Ha in H|]. intros H. specialize (H s Hin). destruct Hsup; congruence.
  - split; [done|]. split; [|split; [|done]]; split; try done.
    + intros [_ H]. exfalso. assert (false = true); [|done]. apply Hs. exists e. split; [apply list_elem_of_here|]. left. apply H, list_elem_of_here.
    + intros _ s Hin. destruct s; try done; exfalso; (assert (false = true); [|done]); apply Hs; eexists; (split; [exact Hin|tauto]).
Qed.

Lemma dec_min_spec a b : (dq (dec_min a b) <= dq a)%Q ∧ (dq (dec_min a b) <= dq b)%Q ∧ (dec_min a b = a ∨ dec_min a b = b).
Proof.
  unfold dec_min. destruct (dec_ltb b a) eqn:H.
  - apply dec_ltb_spec in H. split; [by apply Qlt_le_weak|]. split; [apply Qle_refl|by right].
  - split; [apply Qle_refl|]. split; [|by left]. apply Qnot_lt_le. rewrite <- dec_ltb_spec. by rewrite H.
Qed.

Lemma fold_min_spec l c : (dq (fold_left dec_min l c) <= dq c)%Q ∧ (∀ x, x ∈ l → (dq (fold_left dec_min l c) <= dq x)%Q) ∧ fold_left dec_min l c ∈ c :: l.
Proof.
  revert c. induction l as [|y l IH]; intros c; cbn [fold_left]; [split; [apply Qle_refl|]; split; [by intros x ?%not_elem_of_nil|apply list_elem_of_here]|].
  destruct (IH (dec_min c y)) as (H1 & H2 & H3), (dec_min_spec c y) as (Hc & Hy & Hor). split; [by eapply Qle_trans|]. split.
  - intros x [->|Hx]%elem_of_cons; [by eapply Qle_trans|by apply H2].
  - apply elem_of_cons in H3 as [->|H3]; [|by do 2 apply list_elem_of_further]. destruct Hor as [->| ->]; [apply list_elem_of_here|apply list_elem_of_further, list_elem_of_here].
Qed.

(** the weakest edge decides *)
Lemma claim_confidence_spec edges c : claim_confidence edges = Some c →
  (∀ e, e ∈ edges → (dq c <= dq (ce_confidence e))%Q) ∧ ∃ e, e ∈ edges ∧ ce_confidence e = c.
Proof.
  unfold claim_confidence. destruct edges as [|e es]; [done|]. cbn [fmap list_fmap]. intros [= <-].
  destruct (fold_min_spec (ce_confidence <$> es) (ce_confidence e)) as (H1 & H2 & H3). split.
  - intros e' [->|Hin]%elem_of_cons; [done|]. apply H2. by apply (list_elem_of_fmap_2 ce_confidence).
  - apply elem_of_cons in H3 as [->|H3]; [exists e; split; [apply list_elem_of_here|done]|].
    apply list_elem_of_fmap in H3 as (e' & -> & Hin). exists e'. split; [by apply list_elem_of_further|done].
Qed.

(** * The mock verifier *)

(** ** Rounding depends on the value alone *)

Lemma round_half_even_shift co k j : 0 ≤ k → 0 ≤ j → round_half_even (co * pow10 j) (k + j) = round_half_even co k.
Proof.
  intros Hk Hj. unfold round_half_even. rewrite pow10_add by done. pose proof (pow10_pos k). pose proof (pow10_pos j).
  rewrite N.div_mul_cancel_r, N.Div0.mul_mod_distr_r by lia. generalize (co mod pow10 k)%N. intros r. cbv zeta.
  destruct (N.ltb_spec (2 * r) (pow10 k)), (N.ltb_spec (2 * (r * pow10 j)) (pow10 k * pow10 j)); try nia.
  by destruct (N.ltb_spec (pow10 k) (2 * r)), (N.ltb_spec (pow10 k * pow10 j) (2 * (r * pow10 j))); try nia.
Qed.

Section value.
Context (c : context) (Hc : context_ok c = true).

Lemma dec_fix_scaled s co e j x y : 0 ≤ j → dec_fix c (Dec s (co * pow10 j) e) = Ok x → dec_fix c (Dec s co (e + j)) = Ok y → deq x y.
Proof using Type.
  intros Hj. unfold dec_fix. cbn [d_coeff d_exp d_sign]. pose proof (pow10_pos j).
  destruct (N.eqb_spec co 0) as [->|Hco]; [cbn; intros [= <-] [= <-]; unfold deq; by rewrite !dq_zero|].
  destruct (N.eqb_spec (co * pow10 j) 0) as [|_]; [lia|]. rewrite ndigits_mul_pow10 by done.
  replace (ndigits co + j + e - prec c) with (ndigits co + (e + j) - prec c) by lia.
  destruct (Etop c <? _); [done|]. cbv zeta. set (m := Z.max _ (Etiny c)).
  destruct (Z.ltb_spec (e + j) m).
  - destruct (Z.ltb_spec e m); [|lia]. replace (m - e) with (m - (e + j) + j) by lia. rewrite round_half_even_shift by lia.
    intros Hx Hy. rewrite Hx in Hy. by injection Hy as ->.
  - intros Hx [= <-]. assert (deq (Dec s (co * pow10 j) e) (Dec s co (e + j))) as Hsame.
    { unfold deq. rewrite (dq_aligned (Dec s co (e + j)) e) by (cbn; lia). rewrite dq_unfold. unfold aligned. rewrite !sval_sgn; cbn [d_exp].
      rewrite N2Z.inj_mul, pow10_Z, Z.mul_assoc by lia. by replace (e + j - e) with j by lia. }
    destruct (Z.ltb_spec e m) as [Hlt|]; [|by injection Hx as <-].
    replace (co * pow10 j)%N with (co * pow10 (e + j - m) * pow10 (m - e))%N in Hx by (rewrite <- N.mul_assoc, <- pow10_add by lia; do 2 f_equal; lia).
    rewrite round_half_even_exact in Hx by lia. rewrite ndigits_mul_pow10 in Hx by lia.
    destruct (Z.ltb_spec (prec c) (ndigits co + (e + j - m))) as [|_]; [lia|]. destruct (Etop c <? m); [done|]. injection Hx as <-.
    unfold deq. rewrite (dq_aligned (Dec s co (e + j)) m) by (cbn; lia). rewrite dq_unfold. unfold aligned. rewrite !sval_sgn; cbn [d_exp].
    by rewrite N2Z.inj_mul, pow10_Z, Z.mul_assoc by lia.
Qed.

(** magnitudes that are equal round to equal values *)
Lemma dec_fix_value a b x y : d_sign a = false → d_sign b = false → deq a b → dec_fix c a = Ok x → dec_fix c b = Ok y → deq x y.
Proof using Type.
  assert (∀ a b x y, d_sign a = false → d_sign b = false → d_exp a ≤ d_exp b → deq a b → dec_fix c a = Ok x → dec_fix c b = Ok y → deq x y) as Hwlog.
  { clear. intros [s co e] [s' co' e'] x y. cbn [d_exp d_sign]. intros -> -> He Hv Hx Hy.
    assert (co = co' * pow10 (e' - e))%N as ->.
    { unfold deq in Hv. rewrite (dq_aligned (Dec false co' e') e) in Hv by (cbn; lia). rewrite dq_unfold in Hv. cbn [d_exp] in Hv. unfold aligned in Hv. cbn [d_exp] in Hv.
      apply Qmult_inj_r in Hv; [|pose proof (q10_pos e); lra]. apply (proj1 (inject_Z_injective _ _)) in Hv. unfold sval in Hv. cbn [d_sign d_coeff] in Hv.
      apply N2Z.inj. rewrite N2Z.inj_mul, pow10_Z by lia. exact Hv. }
    eapply (dec_fix_scaled false co' e (e' - e)); [lia|exact Hx|]. by replace (e + (e' - e)) with e' by lia. }
  intros Ha Hb Hab Hx Hy. destruct (Z.le_ge_cases (d_exp a) (d_exp b)) as [Hle|Hle]; [exact (Hwlog a b x y Ha Hb Hle Hab Hx Hy)|].
  unfold deq in *. symmetry. by apply (Hwlog b a y x).
Qed.
End value.

(** ** What it is for two numbers to agree *)

Record figures_agree (c m : numeric_tuple) : Prop := FiguresAgree {
  fa_unit : n_unit c = n_unit m;
  fa_period : n_period c = n_period m;
  fa_scale : n_scale c = n_scale m;
  fa_sign : (dq (n_value c) ?= 0)%Q = (dq (n_value m) ?= 0)%Q;
  (** to the 28 digits of the context, and exactly when the context holds both *)
  fa_value : ∃ x y, rounds DEFAULT_CONTEXT (Qabs (dq (n_value c))) x ∧ rounds DEFAULT_CONTEXT (Qabs (dq (n_value m))) y ∧ (dq x == dq y)%Q;
  fa_exact : fits DEFAULT_CONTEXT (n_value c) = true → fits DEFAULT_CONTEXT (n_value m) = true → (Qabs (dq (n_value c)) == Qabs (dq (n_value m)))%Q;
}.

Definition labels_differ (c m : numeric_tuple) : Prop :=
  n_unit c ≠ n_unit m ∨ n_period c ≠ n_period m ∨ n_scale c ≠ n_scale m ∨ (dq (n_value c) ?= 0)%Q ≠ (dq (n_value m) ?= 0)%Q.
Definition amounts_differ (c m : numeric_tuple) : Prop := ¬ (Qabs (dq (n_value c)) == Qabs (dq (n_value m)))%Q.

Lemma n_sign_spec c m : n_sign c = n_sign m ↔ (dq (n_value c) ?= 0)%Q = (dq (n_value m) ?= 0)%Q.
Proof.
  assert (∀ d, (dq d ?= 0)%Q = (sval d ?= 0)) as Hcmp.
  { intros d. rewrite <- (dq_zero false (d_exp d)), <- dec_compare_spec. unfold dec_compare. cbn [d_exp]. rewrite Z.min_id. unfold aligned. cbn [d_exp].
    by rewrite Z.sub_diag, !Z.mul_1_r. }
  unfold n_sign. rewrite !Hcmp. by destruct (sval (n_value c)), (sval (n_value m)).
Qed.

Lemma validate_numeric_spec c m checks : validate_numeric c m = Ok checks →
  (all_pass checks = true → figures_agree c m) ∧
  (all_pass checks = false → labels_differ c m ∨ amounts_differ c m) ∧
  (labels_differ c m ∨ amounts_differ c m ∧ fits DEFAULT_CONTEXT (n_value c) = true ∧ fits DEFAULT_CONTEXT (n_value m) = true → all_pass checks = false).
Proof.
  unfold validate_numeric, abs. intros (x & Hx%map_err_Ok & (y & Hy%map_err_Ok & [= <-])%bind_Ok)%bind_Ok. unfold py_abs, arith in Hx, Hy.
  apply map_err_Ok in Hx, Hy.
  assert ((Qabs (dq (n_value c)) == Qabs (dq (n_value m)))%Q → dec_eqb x y = true) as Hsame.
  { intros H. apply dec_eqb_spec. apply (dec_fix_value DEFAULT_CONTEXT (dec_abs (n_value c)) (dec_abs (n_value m))); try done. unfold deq. by rewrite !dq_abs. }
  assert (fits DEFAULT_CONTEXT (n_value c) = true → fits DEFAULT_CONTEXT (n_value m) = true → dec_eqb x y = true → (Qabs (dq (n_value c)) == Qabs (dq (n_value m)))%Q) as Hexact.
  { intros H1 H2 H3%dec_eqb_spec. rewrite (dec_fix_of_fits _ default_context_ok (dec_abs (n_value c)) H1) in Hx.
    rewrite (dec_fix_of_fits _ default_context_ok (dec_abs (n_value m)) H2) in Hy. injection Hx as <-. injection Hy as <-. unfold deq in H3. by rewrite !dq_abs in H3. }
  apply (dec_fix_rounds _ default_context_ok) in Hx. apply (dec_fix_rounds _ default_context_ok) in Hy. rewrite dq_abs in Hx, Hy.
  pose proof (n_sign_spec c m) as Hsign. cbn [all_pass forallb snd]. unfold all_pass. cbn [forallb snd].
  assert (∀ b, dec_eqb x y && b = true ↔ dec_eqb x y = true ∧ b = true) as Hand by (intros; apply andb_true_iff).
  split; [|split].
  - intros H. btrue. repeat match goal with H : (_ =? _) = true |- _ => apply Z.eqb_eq in H end. split; try done; [by apply Hsign|exists x, y; split_and!; try done; by apply dec_eqb_spec|by intros; apply Hexact].
  - intros H. unfold labels_differ, amounts_differ.
    destruct (decide (n_unit c = n_unit m)) as [Hu|]; [|tauto]. destruct (decide (n_period c = n_period m)) as [Hp|]; [|tauto].
    destruct (Z.eq_dec (n_scale c) (n_scale m)) as [Hs|]; [|tauto]. destruct (Z.eq_dec (n_sign c) (n_sign m)) as [Hg|]; [|tauto].
    right. intros Heq. rewrite (Hsame Heq), !bool_decide_eq_true_2, Hs, Hg, !Z.eqb_refl in H by done. done.
  - intros H. apply not_true_iff_false. intros Hall. btrue. repeat match goal with H : (_ =? _) = true |- _ => apply Z.eqb_eq in H end. destruct H as [[H|[H|[H|H]]]|(Hd & Hf1 & Hf2)]; try done; [by apply H, Hsign|by apply Hd, Hexact].
Qed.

(** ** What it is for two texts to have the same words *)

Definition blank (s : string) : Prop := Forall (λ a, is_space a = true) (chars s).
Definition plain_word (w : string) : Prop := w ≠ ""%string ∧ Forall (λ a, is_space a = false) (chars w).

(** the text is these words, in order, with white space between them *)
Inductive spelled : list string → string → Prop :=
| spelled_end b : blank b → spelled [] b
| spelled_word b w ws s : blank b → plain_word w → (s = ""%string ∨ ∃ a s', s = String a s' ∧ is_space a = true) → spelled ws s → spelled (w :: ws) (b +:+ w +:+ s).

Lemma spelled_space a ws s : is_space a = true → spelled ws s → spelled ws (String a s).
Proof.
  intros Ha [b Hb|b w ws' s' Hb Hw Hs Hsp]; [by apply spelled_end; constructor|].
  change (String a (b +:+ w +:+ s')) with ((String a b) +:+ w +:+ s')%string. apply spelled_word; try done. by constructor.
Qed.

Lemma split_spelled s w : Forall (λ a, is_space a = false) (chars w) → spelled (split_from w s) (w +:+ s).
Proof.
  revert w. induction s as [|a s IH]; intros w Hw; cbn [split_from].
  - destruct w as [|b w]; [by apply spelled_end; constructor|]. apply (spelled_word "" (String b w) []); [constructor|by split|by left|by apply spelled_end; constructor].
  - destruct (is_space a) eqn:Ha.
    + destruct w as [|b w]; [by apply spelled_space, (IH ""%string)|].
      apply (spelled_word "" (String b w)); [constructor|by split|right; by exists a, s|]. by apply spelled_space, (IH ""%string).
    + assert (w +:+ String a s = (w +:+ String a "") +:+ s)%string as -> by (by rewrite string_app_assoc).
      apply IH. rewrite chars_app. apply Forall_app. split; [done|]. by repeat constructor.
Qed.

Lemma split_from_word w0 w s : Forall (λ a, is_space a = false) (chars w) → split_from w0 (w +:+ s) = split_from (w0 +:+ w) s.
Proof.
  revert w0. induction w as [|a w IH]; intros w0 Hw; [by rewrite string_app_nil|].
  inversion Hw as [|? ? Ha Hw']; subst. change (split_from w0 (String a (w +:+ s)) = split_from (w0 +:+ String a w) s)%string. cbn [split_from]. rewrite Ha, IH by done.
  by rewrite string_app_assoc.
Qed.

Lemma split_join ws : Forall plain_word ws → split (join " " ws) = ws.
Proof.
  induction 1 as [|w ws [Hne Hw] Hws IH]; [done|]. unfold split in *. destruct ws as [|w' ws].
  - cbn [join]. rewrite <- (string_app_nil w) at 1. rewrite split_from_word by done. by destruct w.
  - change (join " " (w :: w' :: ws)) with (w +:+ (String " " (join " " (w' :: ws))))%string. rewrite split_from_word by done. cbn [split_from].
    change (is_space " ") with true. cbn iota. destruct w; [done|]. cbn. f_equal. exact IH.
Qed.

Lemma spelled_words ws s : spelled ws s → Forall plain_word ws.
Proof. by induction 1; constructor. Qed.

Lemma same_words_spec a b : same_words a b = true → ∃ ws, spelled ws a ∧ spelled ws b.
Proof.
  unfold same_words. intros H%bool_decide_eq_true. pose proof (split_spelled a "" ltac:(constructor)) as Ha. pose proof (split_spelled b "" ltac:(constructor)) as Hb.
  apply (f_equal split) in H. rewrite !split_join in H by (eapply spelled_words; [exact Ha] || eapply spelled_words; exact Hb). exists (split a). split; [exact Ha|]. rewrite H. exact Hb.
Qed.

(** a character a token can hold *)
Definition token_char (a : ascii) : Prop := (48 ≤ N_of_ascii a ≤ 57 ∨ 97 ≤ N_of_ascii a ≤ 122)%N.

Lemma coverage_token t e : SFeqb (_coverage t e) (SF64 0 0) = false → ∃ a, a ∈ chars (lower t) ∧ token_char a.
Proof.
  unfold _coverage, _tokens. destruct (dict_fromkeys _) as [|x l] eqn:Hd; [by vm_compute|]. intros _.
  assert (tokens_from "" (lower t) ≠ []) as Hne by (intros H; by rewrite H in Hd). clear Hd. revert Hne.
  assert (∀ s w, tokens_from w s ≠ [] → w ≠ ""%string ∨ ∃ a, a ∈ chars s ∧ token_char a) as Htok.
  { induction s as [|a s IH]; intros w; cbn [tokens_from]; [case_decide; [done|by left]|]. destruct (is_token_char a) eqn:Ha.
    - intros _. right. exists a. split; [apply list_elem_of_here|]. unfold is_token_char, is_digit in Ha. unfold token_char.
      apply orb_true_iff in Ha as [Ha|Ha]; apply andb_true_iff in Ha as [H1 H2]; apply N.leb_le in H1, H2; lia.
    - case_decide; [|by left]. intros Hs. right. destruct (IH ""%string Hs) as [|(b & Hb & ?)]; [done|]. exists b. split; [by apply list_elem_of_further|done]. }
  intros Hne. by destruct (Htok _ _ Hne).
Qed.

(** what an entailing edge attests: the claim has the evidence's words, one of them
    with a letter or a digit, and its number is the evidence's *)
Definition attested (claim_text : string) (claim_numeric : option numeric_tuple) (evidence : context_item) : Prop :=
  (∃ ws, spelled ws claim_text ∧ spelled ws (ci_text evidence)) ∧ (∃ a, a ∈ chars (lower claim_text) ∧ token_char a) ∧
  match claim_numeric, ci_numeric evidence with
  | Some c, Some m => figures_agree c m
  | Some _, None => False
  | None, Some _ => Forall (λ a, is_digit a = false) (chars claim_text)
  | None, None => True
  end.

Lemma decimal_of_float_sign x : match x with S754_finite s _ _ | S754_zero s => s = false | _ => True end → d_sign (decimal_of_float x) = false.
Proof.
  destruct x as [s|s| |s m e]; cbn [decimal_of_float]; try done. intros ->. generalize (decimal_point (magnitude_q (S754_finite false m e))). intros p.
  destruct (shortest 16 m e 1 p) as [c k]. by case_match.
Qed.

Lemma lexical_edge_spec t evidence checks :
  ce_status (lexical_edge t evidence checks) ≠ contradictory ∧
  (ce_status (lexical_edge t evidence checks) = entailed → ((∃ ws, spelled ws t ∧ spelled ws (ci_text evidence)) ∧ (∃ a, a ∈ chars (lower t) ∧ token_char a)) ∧
     ce_confidence (lexical_edge t evidence checks) = ONE) ∧
  (ce_status (lexical_edge t evidence checks) ≠ entailed → (dq (ce_confidence (lexical_edge t evidence checks)) <= dq BELOW_ONE)%Q) ∧
  ce_numeric_checks (lexical_edge t evidence checks) = checks.
Proof.
  unfold lexical_edge. destruct (negb _ && same_words t (ci_text evidence)) eqn:H; cbn [ce_status ce_confidence ce_numeric_checks].
  - apply andb_true_iff in H as [Hc Hw]. apply negb_true_iff in Hc. apply same_words_spec in Hw. apply coverage_token in Hc. done.
  - split; [by case_match|]. split; [by case_match|]. split; [|done]. intros _. apply dec_min_spec.
Qed.

Lemma below_one : (dq BELOW_ONE < dq ONE)%Q ∧ (dq ZERO < dq ONE)%Q.
Proof. split; vm_compute; done. Qed.

Lemma no_digit s : has_digit s = false → Forall (λ a, is_digit a = false) (chars s).
Proof. unfold has_digit. induction (chars s) as [|a l IH]; cbn; [constructor|]. intros [? ?]%orb_false_iff. constructor; auto. Qed.

(** An edge of the mock verifier.  It entails a claim only when the claim's words
    are the evidence's, and any number the claim asserts agrees with the evidence's;
    its confidence is then exactly 1, and at most 0.9999 otherwise; it contradicts
    the claim only when both carry a number and the two differ, and always when
    they do in what the verifier compares exactly. *)
Lemma mock_edges_sound (t : string) (evidence : context_item) (n : option numeric_tuple) (e : citation_edge) :
  mock_verify t evidence n = Ok e →
  (ce_status e = entailed → attested t n evidence ∧ ce_confidence e = ONE) ∧
  (ce_status e ≠ entailed → (dq (ce_confidence e) <= dq BELOW_ONE)%Q) ∧
  (ce_status e = contradictory → ∃ c m, n = Some c ∧ ci_numeric evidence = Some m ∧ (labels_differ c m ∨ amounts_differ c m)) ∧
  (∀ c m, n = Some c → ci_numeric evidence = Some m →
     labels_differ c m ∨ amounts_differ c m ∧ fits DEFAULT_CONTEXT (n_value c) = true ∧ fits DEFAULT_CONTEXT (n_value m) = true → ce_status e = contradictory).
Proof.
  assert ((dq ZERO <= dq BELOW_ONE)%Q) as Hz by (vm_compute; done).
  unfold mock_verify, attested. destruct n as [c|], (ci_numeric evidence) as [m|].
  - intros (checks & Hchecks & H)%bind_Ok. destruct (validate_numeric_spec c m checks Hchecks) as (Hagree & Hdiffer & Hmust).
    destruct (all_pass checks) eqn:Hall; injection H as <-.
    + destruct (lexical_edge_spec t evidence checks) as (H1 & H2 & H3 & _). split_and!; [|done|done|].
      * intros He. destruct (H2 He) as [[Hw Ht] ->]. split; [|done]. split_and!; try done. by apply Hagree.
      * intros c' m' [= <-] [= <-] Hd. apply Hmust in Hd. done.
    + split_and!; try done. intros _. exists c, m. split_and!; try done. by apply Hdiffer.
  - intros [= <-]. by split_and!.
  - destruct (has_digit t) eqn:Hd; intros [= <-]; [by split_and!|].
    destruct (lexical_edge_spec t evidence []) as (H1 & H2 & H3 & _). split_and!; try done. intros He. destruct (H2 He) as [[Hw Ht] ->].
    split_and!; try done. by apply no_digit.
  - intros [= <-]. destruct (lexical_edge_spec t evidence []) as (H1 & H2 & H3 & _). split_and!; try done. intros He. by destruct (H2 He) as [[Hw Ht] ->].
Qed.

(** * Whole answers *)

Section answers.
Context (context : list context_item).

Lemma grounded_integrity c : grounded context c → ∃ item, accepted context (cc_item_id c) = Some item ∧ assert_citation_integrity c context = Ok item.
Proof.
  intros (item & q & Ha & Hs & _). exists item. split; [done|]. unfold assert_citation_integrity. rewrite Ha. by rewrite decide_True.
Qed.

(** the edge of a citation, against the item it names *)
Definition edge_of (claim : generated_claim) (c : claim_citation) (p : claim_citation * citation_edge) : Prop :=
  ∃ item, accepted context (cc_item_id c) = Some item ∧ mock_verify (gc_text claim) item (gc_numeric claim) = Ok p.2 ∧
    cc_item_id p.1 = cc_item_id c ∧ cc_source_span_id p.1 = cc_source_span_id c ∧ cc_quote p.1 = cc_quote c ∧
    cc_status p.1 = ce_status p.2 ∧ cc_numeric_checks p.1 = ce_numeric_checks p.2.

Lemma verify_citation_edge claim c p : verify_citation context claim c = Ok p → edge_of claim c p.
Proof.
  intros (item & Hi & (edge & He & [= <-])%bind_Ok)%bind_Ok. exists item. cbn. split; [|done].
  unfold assert_citation_integrity in Hi. destruct (accepted context (cc_item_id c)) as [item'|]; [|done]. case_decide; [|done]. congruence.
Qed.

Lemma verify_claim_edges claim v : verify_claim context claim = Ok v →
  ∃ ps, Forall2 (edge_of claim) (gc_citations claim) ps ∧ gc_citations v = ps.*1 ∧ gc_confidence v = claim_confidence ps.*2 ∧
    gc_ord v = gc_ord claim ∧ gc_text v = gc_text claim ∧ gc_numeric v = gc_numeric claim ∧
    gc_status v = (let s := classify_claim (cc_status <$> ps.*1) in
      if decide (s = supported) then match gc_calculation_lineage claim with [] => s | _ => derived end else s).
Proof.
  intros (ps & Hps%mapM_Ok & [= <-])%bind_Ok. exists ps. cbn. split; [|done].
  eapply Forall2_impl; [exact Hps|]. intros c p. apply verify_citation_edge.
Qed.

Lemma edges_statuses claim cits ps : Forall2 (edge_of claim) cits ps → cc_status <$> ps.*1 = ce_status <$> ps.*2.
Proof. induction 1 as [|c p cits ps (item & _ & _ & _ & _ & _ & Hst & _) _ IH]; [done|]. cbn. by rewrite Hst, IH. Qed.

(** the claim asserts the number [n] and cites an item whose number is [m] *)
Definition cites_number (claim : generated_claim) (n m : numeric_tuple) : Prop :=
  gc_numeric claim = Some n ∧ ∃ c item, c ∈ gc_citations claim ∧ accepted context (cc_item_id c) = Some item ∧ ci_numeric item = Some m.

(** what verification says of one proposed claim *)
Definition verified_as (claim v : generated_claim) : Prop :=
  gc_ord v = gc_ord claim ∧ gc_text v = gc_text claim ∧ gc_numeric v = gc_numeric claim ∧
  Forall2 (λ c c', cc_item_id c' = cc_item_id c ∧ cc_source_span_id c' = cc_source_span_id c ∧ cc_quote c' = cc_quote c) (gc_citations claim) (gc_citations v) ∧
  (gc_status v = supported → ∀ c, c ∈ gc_citations claim → ∃ item, accepted context (cc_item_id c) = Some item ∧ attested (gc_text claim) (gc_numeric claim) item) ∧
  (gc_status v = supported ↔ gc_confidence v = Some ONE) ∧
  (gc_status v ≠ supported → ∃ q, gc_confidence v = Some q ∧ (dq q <= dq BELOW_ONE)%Q) ∧
  (gc_status v = contradicted → ∃ n m, cites_number claim n m ∧ (labels_differ n m ∨ amounts_differ n m)) ∧
  (∀ n m, cites_number claim n m →
     labels_differ n m ∨ amounts_differ n m ∧ fits DEFAULT_CONTEXT (n_value n) = true ∧ fits DEFAULT_CONTEXT (n_value m) = true → gc_status v = contradicted) ∧
  gc_status v ≠ derived.

Lemma edge_citation claim cits ps c : Forall2 (edge_of claim) cits ps → c ∈ cits → ∃ p, p ∈ ps ∧ edge_of claim c p.
Proof.
  intros H [i Hi]%list_elem_of_lookup. destruct (Forall2_lookup_l _ _ _ _ _ H Hi) as (p & Hp & He). exists p. split; [|done]. by eapply list_elem_of_lookup_2.
Qed.

Lemma citation_edge_of claim cits ps p : Forall2 (edge_of claim) cits ps → p ∈ ps → ∃ c, c ∈ cits ∧ edge_of claim c p.
Proof.
  intros H [i Hi]%list_elem_of_lookup. destruct (Forall2_lookup_r _ _ _ _ _ H Hi) as (c & Hc & He). exists c. split; [|done]. by eapply list_elem_of_lookup_2.
Qed.

Lemma all_entailed claim cits ps : cits ≠ [] → Forall2 (edge_of claim) cits ps →
  classify_claim (ce_status <$> ps.*2) = supported ↔ ∀ p, p ∈ ps → ce_status p.2 = entailed.
Proof.
  intros Hne H. destruct (classify_claim_exact (ce_status <$> ps.*2)) as (_ & Hs & _). rewrite Hs. split.
  - intros [_ Hall] p Hp. apply Hall. apply (list_elem_of_fmap_2 ce_status). by apply (list_elem_of_fmap_2 snd).
  - intros Hall. split; [destruct ps; [by inversion H|done]|]. intros s (e & -> & (p & -> & Hp)%list_elem_of_fmap)%list_elem_of_fmap. by apply Hall.
Qed.

Lemma confidence_one claim cits ps : cits ≠ [] → Forall2 (edge_of claim) cits ps →
  ((∀ p, p ∈ ps → ce_status p.2 = entailed) → claim_confidence ps.*2 = Some ONE) ∧
  (∀ p, p ∈ ps → ce_status p.2 ≠ entailed → ∃ q, claim_confidence ps.*2 = Some q ∧ (dq q <= dq BELOW_ONE)%Q).
Proof.
  intros Hne H. assert (∃ q, claim_confidence ps.*2 = Some q) as [q Hq] by (destruct ps; [by inversion H|by eexists]).
  destruct (claim_confidence_spec ps.*2 q Hq) as (Hle & e & He & Heq). split.
  - intros Hall. rewrite Hq. f_equal. apply list_elem_of_fmap in He as (p & -> & Hp). destruct (citation_edge_of claim cits ps p H Hp) as (c & _ & item & _ & Hv & _).
    destruct (mock_edges_sound _ _ _ _ Hv) as (H1 & _). rewrite <- Heq. by apply H1, Hall.
  - intros p Hp Hn. exists q. split; [done|]. destruct (citation_edge_of claim cits ps p H Hp) as (c & _ & item & _ & Hv & _).
    destruct (mock_edges_sound _ _ _ _ Hv) as (_ & H2 & _). eapply Qle_trans; [|by apply H2]. apply Hle. by apply (list_elem_of_fmap_2 snd).
Qed.

Lemma verify_claim_sound claim v ord : proposed context ord claim → verify_claim context claim = Ok v → verified_as claim v.
Proof.
  intros (_ & _ & _ & Hlin & Hne & _) Hv. destruct (verify_claim_edges claim v Hv) as (ps & Hps & Hcit & Hconf & Hord & Htext & Hnum & Hst).
  rewrite Hlin, (edges_statuses claim _ ps Hps) in Hst. cbv zeta in Hst.
  assert (gc_status v = classify_claim (ce_status <$> ps.*2)) as Hst' by (rewrite Hst; by case_decide). clear Hst.
  destruct (classify_claim_exact (ce_status <$> ps.*2)) as (Hcon & _ & _ & Hder). rewrite <- Hst' in Hcon, Hder.
  pose proof (all_entailed claim _ ps Hne Hps) as Hsup. rewrite <- Hst' in Hsup. destruct (confidence_one claim _ ps Hne Hps) as [Hone Hlow]. rewrite <- Hconf in Hone, Hlow.
  split; [done|]. split; [done|]. split; [done|]. split.
  { rewrite Hcit. clear -Hps. induction Hps as [|c p cits ps (item & _ & _ & H) _ IH]; constructor; [naive_solver|done]. }
  assert (gc_status v ≠ supported → ∃ q, gc_confidence v = Some q ∧ (dq q <= dq BELOW_ONE)%Q) as Hlow'.
  { intros Hn. destruct (decide (Exists (λ p : claim_citation * citation_edge, ce_status p.2 ≠ entailed) ps)) as [(p & Hp & Hpn)%Exists_exists|Hnone];
      [by apply (Hlow p Hp)|]. exfalso. apply Hn, Hsup. intros p Hp. destruct (decide (ce_status p.2 = entailed)) as [|Hpn]; [done|].
    exfalso. apply Hnone, Exists_exists. by exists p. }
  split; [|split; [|split; [done|split]]].
  - intros Hs c Hc. destruct (edge_citation claim _ ps c Hps Hc) as (p & Hp & item & Ha & Hm & _). exists item. split; [done|].
    destruct (mock_edges_sound _ _ _ _ Hm) as (H1 & _). apply H1. by apply Hsup.
  - split; [intros Hs; apply Hone; by apply Hsup|]. intros Hc. destruct (decide (gc_status v = supported)) as [|Hn]; [done|].
    destruct (Hlow' Hn) as (q & Hq & Hle). rewrite Hc in Hq. injection Hq as <-. exfalso. apply (Qlt_not_le _ _ (proj1 below_one) Hle).
  - rewrite Hcon. intros (e & He & (p & -> & Hp)%list_elem_of_fmap)%list_elem_of_fmap. destruct (citation_edge_of claim _ ps p Hps Hp) as (c & Hc & item & Ha & Hm & _).
    destruct (mock_edges_sound _ _ _ _ Hm) as (_ & _ & H3 & _). symmetry in He. apply H3 in He as (n & m & Hn & Hm' & Hd). exists n, m. split; [|done]. split; [done|]. by exists c, item.
  - split; [|done]. intros n m (Hn & c & item & Hc & Ha & Hm) Hd. apply Hcon. destruct (edge_citation claim _ ps c Hps Hc) as (p & Hp & item' & Ha' & Hm' & _).
    rewrite Ha in Ha'. injection Ha' as <-. destruct (mock_edges_sound _ _ _ _ Hm') as (_ & _ & _ & H4).
    apply list_elem_of_fmap. exists p.2. split; [|by apply (list_elem_of_fmap_2 snd)]. symmetry. by apply (H4 n m).
Qed.

Lemma verify_claims_sound (claims vs : list generated_claim) :
  (∀ i c, claims !! i = Some c → proposed context i c) → verify_claims claims context = Ok vs →
  length vs = length claims ∧ ∀ i c v, claims !! i = Some c → vs !! i = Some v → verified_as c v.
Proof.
  intros Hall H%mapM_Ok. split; [symmetry; by eapply Forall2_length|]. intros i c v Hc Hv.
  eapply verify_claim_sound; [by apply (Hall i)|]. by eapply (Forall2_lookup_lr _ _ _ _ _ _ H).
Qed.

(** C14: No answer outruns its evidence, when the mock verifier judges claims as a
    generator proposes them (without a status, a confidence or a lineage yet).
    Verification changes neither texts nor citations.  A claim it calls supported has
    the words of every item it cites, in order and up to white space, at least one
    with a letter or a digit; its number, when it has one, has the unit, period,
    scale, sign and magnitude of each cited item's; and without a number it has no
    digit where an item has one.  Support is the same as confidence 1, any other
    claim is at most 0.9999.  A claim is called contradicted only when its number
    differs from a cited item's, and always when it differs in unit, period, scale
    or sign, or in a magnitude of at most 28 digits. *)
Theorem supported_by_evidence (claims vs : list generated_claim) :
  (∀ i c, claims !! i = Some c → proposed context i c) → verify_claims claims context = Ok vs →
  length vs = length claims ∧ ∀ i c v, claims !! i = Some c → vs !! i = Some v → verified_as c v.
Proof. apply verify_claims_sound. Qed.

Lemma verify_claims_integrity (claims : list generated_claim) (e : verification_error) :
  (∀ i c, claims !! i = Some c → proposed context i c) → verify_claims claims context = Err e → ∃ x, e = Arithmetic x.
Proof.
  intros Hall (claim & Hin & He)%mapM_Err. apply list_elem_of_lookup in Hin as [i Hi]. destruct (Hall i claim Hi) as (_ & _ & _ & _ & _ & Hg).
  apply bind_Err in He as [He|(ps & _ & [=])]. apply mapM_Err in He as (c & Hc & He). rewrite Forall_forall in Hg.
  destruct (grounded_integrity c (Hg c Hc)) as (item & _ & Hint). unfold verify_citation in He. rewrite Hint in He. cbn [mbind result_bind] in He.
  apply bind_Err in He as [He|(edge & _ & [=])]. cbn [verify MockCitationVerifier] in He. unfold mock_verify in He.
  destruct (gc_numeric claim) as [n|], (ci_numeric item) as [m|]; try done; [|by case_match].
  apply bind_Err in He as [He|(checks & _ & He)]; [|by case_match]. unfold validate_numeric, abs in He.
  destruct (py_abs (n_value n)); cbn in He; [|injection He as <-; by eexists]. destruct (py_abs (n_value m)); cbn in He; [done|injection He as <-; by eexists].
Qed.

(** A proposed claim never fails the integrity check: verification of a
    generator's claims cannot end in a dangling or cross-version citation, and the
    only error left is the decimal module's. *)
Theorem proposed_claims_have_integrity (claims : list generated_claim) (e : verification_error) :
  (∀ i c, claims !! i = Some c → proposed context i c) → verify_claims claims context = Err e → ∃ x, e = Arithmetic x.
Proof. apply verify_claims_integrity. Qed.
End answers.

(** A run abstains exactly when no claim is supported, partly supported,
    derived or contradicted. *)
Lemma should_abstain_spec claims : should_abstain claims = true ↔ ∀ c, c ∈ claims → gc_status c = unsupported.
Proof.
  unfold should_abstain. destruct claims as [|c cs]; [split; [by intros _ c ?%not_elem_of_nil|done]|].
  rewrite forallb_forall. setoid_rewrite bool_decide_eq_true. by setoid_rewrite <- list_elem_of_In.
Qed.

(** values that differ in the 29th digit have equal magnitudes in the default
    context, so the value check passes on them *)
Lemma value_check_rounds :
  let a := NumericTuple (Dec false (10 ^ 28 + 1) 0) "USD" "FY2025" 0 in let b := NumericTuple (Dec false (10 ^ 28) 0) "USD" "FY2025" 0 in
  ∃ checks, validate_numeric a b = Ok checks ∧ all_pass checks = true ∧ dec_eqb (n_value a) (n_value b) = false.
Proof. cbv zeta. eexists. split; [vm_compute; reflexivity|]. vm_compute. done. Qed.

Lemma claims_proposed : ∀ i c, gr_claims Answer.result !! i = Some c → proposed Answer.context i c.
Proof. apply (generate_proposes (Answer.provider 6) 1024 "What was revenue?" Answer.context "2026-01-01" Answer.result). vm_compute. reflexivity. Qed.

Definition verified_answer : list generated_claim := match verify_claims (gr_claims Answer.result) Answer.context with Ok vs => vs | Err _ => [] end.

Lemma supported_by_evidence_witness : gc_status <$> verified_answer = [supported] ∧
  length verified_answer = length (gr_claims Answer.result) ∧
  ∀ i c v, gr_claims Answer.result !! i = Some c → verified_answer !! i = Some v → verified_as Answer.context c v.
Proof. split; [vm_compute; reflexivity|]. apply (supported_by_evidence Answer.context (gr_claims Answer.result) verified_answer claims_proposed). vm_compute. reflexivity. Defined.

Definition huge_claim : generated_claim :=
  GeneratedClaim 0 "Revenue was 100" unsupported (gc_citations Answer.claim) None [] (Some (NumericTuple (Dec false 1 1000000) "USD" "FY2025" 6)).

Lemma proposed_claims_have_integrity_witness :
  ∃ e, verify_claims [huge_claim] Answer.context = Err e ∧ ∃ x, e = Arithmetic x.
Proof.
  eassert (verify_claims [huge_claim] Answer.context = Err _) as H by (vm_compute; reflexivity). eexists. split; [exact H|].
  apply (proposed_claims_have_integrity Answer.context [huge_claim] _); [|exact H]. intros [|i] c; [|done]. intros [= <-].
  destruct (claims_proposed 0 Answer.claim ltac:(vm_compute; reflexivity)) as (_ & _ & _ & _ & Hne & Hg). split; [done|]. do 4 (split; [done|]). exact Hg.
Defined.
