(* ===== verification/Planner.v ===== *)
(** [packages/retrieval/fel_retrieval/planner.py]: a question and its pins become an
    immutable query plan.

    [(?<!\w)term(?!\w)] is the term between word boundaries, every term beginning
    and ending with a word character.  A request's sequences are lists.  What a
    request may hold is stated apart from the checks that decide it. *)

From S2P Require Import Prelude Dicts Text Decimals Periods Canonical Regex Uuids IsoDates Moments Payload Redact Fusion.
Local Open Scope Z_scope.

Definition MIN_TOP_K : Z := 1.
Definition MAX_TOP_K : Z := 100.
Definition DEFAULT_TOP_K : Z := 100.
Definition MAX_CONTEXT_ITEMS : Z := 16.
Definition DEFAULT_TIMEOUT_MS : Z := 15000.
Definition MAX_VARIANTS : nat := 4.
Definition MAX_FILTER_ITEMS : nat := 20.
Definition DEFAULT_INTENT : string := "general".

Record planner_error := PlannerValidationError { pe_code : string; pe_field : string; pe_message : string }.

Notation planned := (result planner_error).

Record query_request := QueryRequest {
  qr_question : string; qr_lanes : option (list string); qr_top_k : option value; qr_forms : option (list string); qr_periods : option (list string);
}.

Record plan_filters := PlanFilters { pf_forms : list string; pf_periods : list string }.
Record plan_budgets := PlanBudgets { lane_top_k : Z; fused_top_k : Z; context_items : Z; timeout_ms : Z }.

Record query_plan := QueryPlan {
  qp_schema_version : string; qp_intent : string; qp_entity_ids : list string; qp_effective_as_of : string; qp_corpus_version_id : string;
  qp_index_version_id : string; qp_lanes : list string; qp_variants : list string; qp_filters : plan_filters; qp_budgets : plan_budgets;
}.

Definition strings_json (l : list string) : json := JArr (map JStr l).

Definition filters_json (f : plan_filters) : json :=
  JObj ((match pf_forms f with [] => [] | l => [("forms"%string, strings_json l)] end) ++
        (match pf_periods f with [] => [] | l => [("periods"%string, strings_json l)] end)).

Definition budgets_json (b : plan_budgets) : json :=
  JObj [("lane_top_k", JInt (lane_top_k b)); ("fused_top_k", JInt (fused_top_k b)); ("context_items", JInt (context_items b)); ("timeout_ms", JInt (timeout_ms b))]%string.

Definition plan_json (p : query_plan) : json :=
  JObj [("schema_version", JStr (qp_schema_version p)); ("intent", JStr (qp_intent p)); ("entity_ids", strings_json (qp_entity_ids p));
        ("effective_as_of", JStr (qp_effective_as_of p)); ("corpus_version_id", JStr (qp_corpus_version_id p));
        ("index_version_id", JStr (qp_index_version_id p)); ("lanes", strings_json (qp_lanes p)); ("variants", strings_json (qp_variants p));
        ("filters", filters_json (qp_filters p)); ("budgets", budgets_json (qp_budgets p))]%string.

Definition plan_canonical_json (p : query_plan) : string := dumps (plan_json p).

(** * Intent *)

Definition INTENT_RULES : list (string * list string) :=
  [("contradiction", ["contradict"; "contradiction"; "inconsistent"; "discrepancy"; "conflict"; "disagree"]);
   ("driver_analysis", ["why"; "driver"; "drivers"; "driven by"; "because"; "reason for"; "contributed to"; "attributable to"]);
   ("comparison", ["compare"; "comparison"; "versus"; "vs"; "year over year"; "year-over-year"; "yoy"; "relative to"; "change from"]);
   ("guidance", ["guidance"; "outlook"; "forecast"; "guide"]);
   ("table_reasoning", ["table"; "breakdown"; "line item"; "sum of"; "total across"]);
   ("section_lookup", ["section"; "item 7"; "md&a"; "risk factors"; "notes to"]);
   ("fact_lookup", ["what was"; "how much"; "what is the"; "value of"; "amount of"; "report"])]%string.

(** [re.compile(r"(?<!\w)" + re.escape(term) + r"(?!\w)", re.IGNORECASE)] *)
Definition term_re (term : string) : regex := Seq Boundary (Seq (word term) Boundary).

Definition finds (term : string) (text : string) : bool := bool_decide (is_Some (search (chars text) (term_re term))).

Fixpoint first_intent (rules : list (string * list string)) (question : string) : string :=
  match rules with
  | [] => DEFAULT_INTENT
  | (intent, terms) :: rules' => if existsb (λ t, finds t question) terms then intent else first_intent rules' question
  end.

Definition classify_intent (question : string) : string := first_intent INTENT_RULES question.

(** * Synonyms *)

Definition SYNONYMS : list (string * list string) :=
  [("net income", ["net earnings"; "profit"; "bottom line"]); ("gross margin", ["gross profit margin"]); ("free cash flow", ["fcf"]);
   ("operating expenses", ["opex"]); ("cost of goods sold", ["cogs"; "cost of revenue"]); ("capital expenditures", ["capex"]);
   ("revenue", ["net sales"; "total revenue"; "sales"]); ("cogs", ["cost of goods sold"; "cost of revenue"]); ("capex", ["capital expenditures"]);
   ("opex", ["operating expenses"]); ("fcf", ["free cash flow"]); ("eps", ["earnings per share"]); ("guidance", ["outlook"; "forecast"])]%string.

(** [pattern.sub(syn, question, count=1)] *)
Definition sub_first (key syn question : string) : string :=
  match search (chars question) (term_re key) with
  | Some (i, (j, _)) => String.string_of_list_ascii (take i (chars question) ++ chars syn ++ drop j (chars question))
  | None => question
  end.

(** the rewrites of one rule; [None] when the cap was reached *)
Fixpoint add_variants (question key : string) (syns : list string) (variants : list string) : list string * bool :=
  match syns with
  | [] => (variants, false)
  | syn :: syns' =>
      let variant := sub_first key syn question in
      if decide (variant ∈ variants) then add_variants question key syns' variants
      else
        let variants := variants ++ [variant] in
        if (MAX_VARIANTS <=? length variants)%nat then (variants, true) else add_variants question key syns' variants
  end.

Fixpoint expand_from (question : string) (rules : list (string * list string)) (variants : list string) : list string :=
  match rules with
  | [] => variants
  | (key, syns) :: rules' =>
      if finds key question then
        let '(variants, full) := add_variants question key syns variants in
        if full : bool then variants else expand_from question rules' variants
      else expand_from question rules' variants
  end.

Definition expand_variants (question : string) : list string := expand_from question SYNONYMS [question].

(** * Budgets *)

Definition derive_budgets (top_k : Z) : plan_budgets :=
  PlanBudgets top_k top_k (Z.max 1 (Z.min top_k MAX_CONTEXT_ITEMS)) DEFAULT_TIMEOUT_MS.

(** * Validation *)

(** [^\d{4}(-Q[1-4]|-H[1-2]|-(0[1-9]|1[0-2]))?$], by [re.match]: [$] also stands before a final newline *)
Definition before_end (s : string) : bool := match s with EmptyString => true | String n EmptyString => bool_decide (n = "010"%char) | _ => false end.
Definition digit_in (lo hi : N) (a : ascii) : bool := ((48 + lo <=? N_of_ascii a) && (N_of_ascii a <=? 48 + hi))%N.

Definition period_tail (s : string) : bool :=
  before_end s ||
  match s with
  | String "-" (String "Q" (String d r)) => digit_in 1 4 d && before_end r
  | String "-" (String "H" (String d r)) => digit_in 1 2 d && before_end r
  | String "-" (String "0" (String d r)) => digit_in 1 9 d && before_end r
  | String "-" (String "1" (String d r)) => digit_in 0 2 d && before_end r
  | _ => false
  end.

Definition period_ok (s : string) : bool :=
  match s with
  | String a (String b (String c (String d r))) => forallb is_digit [a; b; c; d] && period_tail r
  | _ => false
  end.

Definition raise_unless (b : bool) (code field message : string) : planned unit := ensure b (PlannerValidationError code field message).

Definition _require_uuid (v field : string) : planned unit :=
  raise_unless (bool_decide (is_Some (uuid_of v))) "INVALID_UUID" field (field +:+ " must be a UUID").

(** a final [Z] reads as [+00:00] *)
Definition utc_suffix (s : string) : string :=
  match rev (chars s) with "Z"%char :: l => String.string_of_list_ascii (rev l) +:+ "+00:00" | _ => s end.

Definition _require_datetime (v field : string) : planned unit :=
  raise_unless (bool_decide (is_Some (fromisoformat (utc_suffix v)))) "INVALID_AS_OF" field (field +:+ " must be an ISO-8601 date-time").

Definition _resolve_top_k (top_k : option value) : planned Z :=
  match top_k with
  | None | Some NoneV => Ok DEFAULT_TOP_K
  | Some (IntV k) => _ ← raise_unless ((MIN_TOP_K <=? k) && (k <=? MAX_TOP_K)) "TOP_K_OUT_OF_RANGE" "top_k" "top_k must be in [1, 100]"; Ok k
  | Some _ => Err (PlannerValidationError "TOP_K_NOT_INTEGER" "top_k" "top_k must be an integer")
  end.

Fixpoint check_lanes (seen lanes : list string) : planned unit :=
  match lanes with
  | [] => Ok tt
  | lane :: lanes' =>
      _ ← raise_unless (bool_decide (lane ∈ LANE_ORDER)) "UNKNOWN_LANE" "lanes" ("unknown lane " +:+ repr_str lane);
      _ ← raise_unless (bool_decide (lane ∉ seen)) "DUPLICATE_LANE" "lanes" ("duplicate lane " +:+ repr_str lane);
      check_lanes (lane :: seen) lanes'
  end.

Definition _resolve_lanes (lanes : option (list string)) : planned (list string) :=
  match lanes with
  | None => Ok LANE_ORDER
  | Some lanes =>
      _ ← raise_unless (negb (bool_decide (lanes = []))) "EMPTY_LANES" "lanes" "lanes must not be empty";
      _ ← raise_unless (length lanes <=? length LANE_ORDER)%nat "TOO_MANY_LANES" "lanes" "at most 4 lanes";
      _ ← check_lanes [] lanes;
      Ok lanes
  end.

Definition form_ok (form : string) : bool := negb (bool_decide (strip form = ""%string)).

Definition _resolve_filters (forms periods : option (list string)) : planned plan_filters :=
  _ ← match forms with
      | None => Ok tt
      | Some forms =>
          _ ← raise_unless (length forms <=? MAX_FILTER_ITEMS)%nat "TOO_MANY_FORMS" "forms" "at most 20 forms";
          for_each (λ form, raise_unless (form_ok form) "EMPTY_FORM" "forms" "form values must be non-empty") forms
      end;
  _ ← match periods with
      | None => Ok tt
      | Some periods =>
          _ ← raise_unless (length periods <=? MAX_FILTER_ITEMS)%nat "TOO_MANY_PERIODS" "periods" "at most 20 periods";
          for_each (λ period, raise_unless (period_ok period) "INVALID_PERIOD" "periods" ("unparsable period " +:+ repr_str period)) periods
      end;
  Ok (PlanFilters (default [] forms) (default [] periods)).

Definition plan_query (request : query_request) (index_version_id corpus_version_id : string) (entity_ids : list string) (effective_as_of : string)
    : planned query_plan :=
  let question := qr_question request in
  _ ← raise_unless (negb (bool_decide (strip question = ""%string))) "EMPTY_QUESTION" "question" "question must not be empty";
  _ ← raise_unless (String.length question <=? 4000)%nat "QUESTION_TOO_LONG" "question" "question must be at most 4000 characters";
  top_k ← _resolve_top_k (qr_top_k request);
  lanes ← _resolve_lanes (qr_lanes request);
  filters ← _resolve_filters (qr_forms request) (qr_periods request);
  _ ← raise_unless (negb (bool_decide (entity_ids = []))) "NO_ENTITY_IDS" "entity_ids" "at least one entity_id is required";
  _ ← for_each (λ entity_id, _require_uuid entity_id "entity_ids") entity_ids;
  _ ← _require_uuid index_version_id "index_version_id";
  _ ← _require_uuid corpus_version_id "corpus_version_id";
  _ ← _require_datetime effective_as_of "effective_as_of";
  Ok (QueryPlan "query-plan/v1" (classify_intent question) entity_ids effective_as_of corpus_version_id index_version_id lanes
        (expand_variants question) filters (derive_budgets top_k)).

(** * What a request and a plan may hold *)

(** a form with a character that is no white space *)
Definition form_value (s : string) : Prop := ∃ a, a ∈ chars s ∧ is_space a = false.

Definition PERIOD_SUFFIXES : list string :=
  [""; "-Q1"; "-Q2"; "-Q3"; "-Q4"; "-H1"; "-H2"; "-01"; "-02"; "-03"; "-04"; "-05"; "-06"; "-07"; "-08"; "-09"; "-10"; "-11"; "-12"]%string.

(** a year of four digits, alone or with a quarter, a half or a month, and perhaps a
    final newline *)
Definition period_value (s : string) : Prop := ∃ year suffix,
  length (chars year) = 4%nat ∧ Forall (λ a, is_digit a = true) (chars year) ∧ suffix ∈ PERIOD_SUFFIXES ∧
  (s = (year +:+ suffix)%string ∨ s = (year +:+ suffix +:+ String "010" "")%string).

(** [uuid.UUID] and, after [Z] became [+00:00], [datetime.fromisoformat] read the text *)
Definition reads_uuid (s : string) : Prop := is_Some (uuid_of s).
Definition reads_datetime (s : string) : Prop := is_Some (fromisoformat (utc_suffix s)).

Definition INTENTS : list string := DEFAULT_INTENT :: INTENT_RULES.*1.

(** the fields of [query-plan.schema.json] with its lists' and numbers' bounds and the
    planner's own; the schema's formats are stricter than what the two readers take *)
Record plan_wf (p : query_plan) : Prop := PlanWf {
  wf_version : qp_schema_version p = "query-plan/v1"%string;
  wf_intent : qp_intent p ∈ INTENTS;
  wf_entities : qp_entity_ids p ≠ [] ∧ Forall reads_uuid (qp_entity_ids p);
  wf_pins : reads_uuid (qp_corpus_version_id p) ∧ reads_uuid (qp_index_version_id p) ∧ reads_datetime (qp_effective_as_of p);
  wf_lanes : NoDup (qp_lanes p) ∧ qp_lanes p ≠ [] ∧ (∀ l, l ∈ qp_lanes p → l ∈ LANE_ORDER);
  wf_variants : NoDup (qp_variants p) ∧ (1 ≤ length (qp_variants p) ≤ 4)%nat;
  wf_filters : (length (pf_forms (qp_filters p)) ≤ 20)%nat ∧ (length (pf_periods (qp_filters p)) ≤ 20)%nat ∧
    Forall form_value (pf_forms (qp_filters p)) ∧ Forall period_value (pf_periods (qp_filters p));
  wf_budgets : let b := qp_budgets p in 1 ≤ lane_top_k b ≤ 100 ∧ 1 ≤ fused_top_k b ≤ 100 ∧ 1 ≤ context_items b ≤ 16 ∧ context_items b ≤ fused_top_k b ∧ 1 ≤ timeout_ms b ≤ 60000;
}.

(** every rewrite the synonym table offers of a question, in the table's order *)
Definition rewrites (question : string) (rules : list (string * list string)) : list string :=
  concat (map (λ '(key, syns), if finds key question then map (λ syn, sub_first key syn question) syns else []) rules).

(** the question and the first distinct rewrites, at most four in all *)
Definition variants_spec (question : string) : list string := take MAX_VARIANTS (dict_fromkeys (question :: rewrites question SYNONYMS)).

(** what the planner asks of a request and its pins, field by field, in the order it asks *)
Definition parts (req : query_request) (index_version_id corpus_version_id : string) (entity_ids : list string) (effective_as_of : string) : list (string * Prop) :=
  [("question"%string, form_value (qr_question req) ∧ (String.length (qr_question req) ≤ 4000)%nat);
   ("top_k"%string, match qr_top_k req with None | Some NoneV => True | Some (IntV k) => 1 ≤ k ≤ 100 | Some _ => False end);
   ("lanes"%string, match qr_lanes req with None => True | Some ls => ls ≠ [] ∧ NoDup ls ∧ ∀ l, l ∈ ls → l ∈ LANE_ORDER end);
   ("forms"%string, (length (default [] (qr_forms req)) ≤ 20)%nat ∧ Forall form_value (default [] (qr_forms req)));
   ("periods"%string, (length (default [] (qr_periods req)) ≤ 20)%nat ∧ Forall period_value (default [] (qr_periods req)));
   ("entity_ids"%string, entity_ids ≠ [] ∧ Forall reads_uuid entity_ids);
   ("index_version_id"%string, reads_uuid index_version_id); ("corpus_version_id"%string, reads_uuid corpus_version_id);
   ("effective_as_of"%string, reads_datetime effective_as_of)].

(** [field] is the first part that does not hold *)
Definition first_fault (parts : list (string * Prop)) (field : string) : Prop :=
  ∃ before P after, parts = before ++ (field, P) :: after ∧ Forall snd before ∧ ¬ P.

(** * Lemmas *)

Lemma strip_value s : strip s ≠ ""%string ↔ form_value s.
Proof.
  split.
  - intros Hs. destruct (decide (Exists (λ a, is_space a = false) (chars s))) as [Hex|Hno]; [by apply Exists_exists in Hex|]. destruct Hs.
    assert (Forall (λ a, is_space a = true) (chars s)) as Hsp.
    { apply Forall_forall. intros a Ha. destruct (is_space a) eqn:He; [done|]. destruct Hno. apply Exists_exists. by exists a. }
    clear -Hsp. unfold strip. assert (lstrip s = ""%string) as ->; [|done]. induction s as [|a s IH]; [done|]. cbn [chars] in Hsp. apply Forall_cons in Hsp as [Ha Hs].
    cbn [lstrip]. rewrite Ha. by apply IH.
  - intros (a & Ha & Hsp) Hs. destruct (strip_spec s) as (pre & post & Heq & Hpre & Hpost). rewrite Hs in Heq. rewrite Heq in Ha.
    rewrite Forall_forall in Hpre, Hpost. apply elem_of_app in Ha as [Ha|Ha]; [rewrite (Hpre _ Ha) in Hsp; done|]. apply elem_of_app in Ha as [Ha|Ha]; [by apply not_elem_of_nil in Ha|].
    by rewrite (Hpost _ Ha) in Hsp.
Qed.

Lemma form_ok_value s : form_ok s = true ↔ form_value s.
Proof. unfold form_ok. by rewrite negb_true_iff, bool_decide_eq_false, strip_value. Qed.

(** the tail of a period is a suffix, perhaps before a newline *)
Definition suffix_value (s : string) : Prop := ∃ suffix, suffix ∈ PERIOD_SUFFIXES ∧ (s = suffix ∨ s = (suffix +:+ String "010" "")%string).

Lemma ends_value s : before_end s = true → s = ""%string ∨ s = String "010" "".
Proof. destruct s as [|n [|m s]]; [by left| |done]. intros ->%bool_decide_eq_true. by right. Qed.

(** the digits between two others *)
Lemma digit_between lo hi a : digit_in lo hi a = true → ∃ k, (k ≤ N.to_nat hi - N.to_nat lo)%nat ∧ a = digit_char (lo + N.of_nat k).
Proof.
  intros [H1 H2]%andb_true_iff. apply N.leb_le in H1, H2. exists (N.to_nat (N_of_ascii a - 48 - lo)). split; [lia|].
  unfold digit_char. replace (48 + (lo + N.of_nat (N.to_nat (N_of_ascii a - 48 - lo))))%N with (N_of_ascii a) by lia. by rewrite ascii_N_embedding.
Qed.

(** a digit and the end, after a prefix that the suffixes complete *)
Lemma digit_suffix (pre : string) lo hi d r :
  Forall (λ k, (pre +:+ String (digit_char (lo + N.of_nat k)) "")%string ∈ PERIOD_SUFFIXES) (seq 0 (S (N.to_nat hi - N.to_nat lo))) →
  digit_in lo hi d && before_end r = true → suffix_value (pre +:+ String d r).
Proof.
  intros Hpre [(k & Hk & ->)%digit_between Hr%ends_value]%andb_true_iff. exists (pre +:+ String (digit_char (lo + N.of_nat k)) "")%string. split.
  - rewrite Forall_forall in Hpre. apply Hpre, elem_of_seq. lia.
  - destruct Hr as [->| ->]; [by left|right]. by rewrite string_app_assoc.
Qed.

Lemma period_tail_value s : period_tail s = true ↔ suffix_value s.
Proof.
  split; [|intros (suffix & Hin & Heq); unfold PERIOD_SUFFIXES in Hin; repeat (apply elem_of_cons in Hin as [->|Hin]; [by destruct Heq as [->| ->]|]); by apply not_elem_of_nil in Hin].
  unfold period_tail. intros [H|H]%orb_true_iff.
  { apply ends_value in H. exists ""%string. split; [apply list_elem_of_here|exact H]. }
  repeat (match type of H with context [match ?x with _ => _ end] => is_var x; destruct x end; try discriminate H);
    first [apply (digit_suffix "-0" 1 9) in H|apply (digit_suffix "-H" 1 2) in H|apply (digit_suffix "-1" 0 2) in H|apply (digit_suffix "-Q" 1 4) in H];
    try exact H; apply (bool_decide_unpack _); vm_compute; exact I.
Qed.

Lemma forallb_Forall {A} (f : A → bool) l : forallb f l = true ↔ Forall (λ a, f a = true) l.
Proof. induction l as [|a l IH]; cbn [forallb]; [split; [constructor|done]|]. by rewrite Forall_cons, andb_true_iff, IH. Qed.

Lemma period_ok_value s : period_ok s = true ↔ period_value s.
Proof.
  split.
  - destruct s as [|a [|b [|c [|d r]]]]; try done. cbn [period_ok]. intros [Hd (suffix & Hs & Hr)%period_tail_value]%andb_true_iff.
    exists (String a (String b (String c (String d "")))), suffix. split; [done|]. split; [by apply forallb_Forall in Hd|]. split; [done|].
    by destruct Hr as [->| ->]; [left|right].
  - intros (year & suffix & Hl & Hd & Hs & Heq). destruct year as [|a [|b [|c [|d [|e y]]]]]; try done.
    assert (∃ r, s = String a (String b (String c (String d r))) ∧ suffix_value r) as (r & -> & Hr).
    { destruct Heq as [->| ->]; eexists; (split; [done|]); exists suffix; (split; [done|]); [by left|by right]. }
    cbn [period_ok]. apply andb_true_iff. split; [|by apply period_tail_value]. cbn [chars] in Hd. rewrite !Forall_cons in Hd. cbn [forallb]. destruct Hd as (-> & -> & -> & -> & _). done.
Qed.

Definition capped (vs : list string) (l : list string) : list string := take MAX_VARIANTS (vs ++ dict_fromkeys_from vs l).

Lemma capped_cons vs x l : (length vs < MAX_VARIANTS)%nat →
  capped vs (x :: l) = if decide (x ∈ vs) then capped vs l else if (MAX_VARIANTS <=? length (vs ++ [x]))%nat then vs ++ [x] else capped (vs ++ [x]) l.
Proof.
  intros Hl. unfold capped. cbn [dict_fromkeys_from]. case_decide; [done|].
  rewrite (dict_fromkeys_from_ext (x :: vs) (vs ++ [x])) by set_solver.
  destruct (Nat.leb_spec MAX_VARIANTS (length (vs ++ [x]))) as [Hf|Hf]; [|by rewrite <- app_assoc].
  rewrite length_app in Hf. cbn in Hf. replace (vs ++ x :: dict_fromkeys_from (vs ++ [x]) l) with ((vs ++ [x]) ++ dict_fromkeys_from (vs ++ [x]) l) by (by rewrite <- app_assoc).
  apply take_app_length'. rewrite length_app. cbn. lia.
Qed.

Lemma add_variants_capped question key syns vs l : (length vs < MAX_VARIANTS)%nat →
  let r := add_variants question key syns vs in
  capped vs (map (λ syn, sub_first key syn question) syns ++ l) = (if r.2 then r.1 else capped r.1 l) ∧
  (r.2 = false → (length r.1 < MAX_VARIANTS)%nat).
Proof.
  revert vs. induction syns as [|syn syns IH]; intros vs Hl; cbn [add_variants map app]; [done|].
  rewrite capped_cons by done. case_decide; [by apply IH|].
  destruct (Nat.leb_spec MAX_VARIANTS (length (vs ++ [sub_first key syn question]))); [done|by apply IH].
Qed.

Lemma expand_from_capped question rules vs : (length vs < MAX_VARIANTS)%nat → expand_from question rules vs = capped vs (rewrites question rules).
Proof.
  revert vs. induction rules as [|[key syns] rules IH]; intros vs Hl; unfold rewrites; cbn [expand_from map concat].
  { unfold capped. rewrite app_nil_r, take_ge; [done|lia]. }
  destruct (finds key question); cbn [app]; [|by apply IH].
  destruct (add_variants_capped question key syns vs (rewrites question rules) Hl) as [Heq Hf]. fold (rewrites question rules). rewrite Heq.
  destruct (add_variants question key syns vs) as [vs' [|]]; cbn [fst snd] in *; [done|]. by apply IH, Hf.
Qed.

Lemma expand_variants_spec question : expand_variants question = variants_spec question.
Proof.
  unfold expand_variants, variants_spec, dict_fromkeys. rewrite expand_from_capped by (cbn; unfold MAX_VARIANTS; lia).
  unfold capped. cbn [dict_fromkeys_from]. by rewrite decide_False by set_solver.
Qed.

Lemma first_intent_in rules question : first_intent rules question ∈ DEFAULT_INTENT :: rules.*1.
Proof. induction rules as [|[intent terms] rules IH]; cbn [first_intent fmap list_fmap fst]; [set_solver|]. destruct (existsb _ terms); set_solver. Qed.

Lemma check_lanes_Ok seen lanes u : check_lanes seen lanes = Ok u ↔ NoDup lanes ∧ ∀ l, l ∈ lanes → l ∈ LANE_ORDER ∧ l ∉ seen.
Proof.
  destruct u. revert seen. induction lanes as [|lane lanes IH]; intros seen; cbn [check_lanes].
  { split; [intros _; split; [constructor|set_solver]|done]. }
  unfold raise_unless. split.
  - intros H. ok_inv. btrue. apply IH in H as [Hnd Hin]. split; [constructor; [|done]; intros Hi; destruct (Hin _ Hi); set_solver|].
    intros l [->|Hl]%elem_of_cons; [done|]. destruct (Hin l Hl). set_solver.
  - intros [[Hn Hnd]%NoDup_cons Hin]. destruct (Hin lane) as [H1 H2]; [apply list_elem_of_here|].
    rewrite (bool_decide_eq_true_2 _ H1), (bool_decide_eq_true_2 _ H2). cbn. apply IH. split; [done|].
    intros l Hl. destruct (Hin l); [by apply list_elem_of_further|]. split; [done|]. rewrite not_elem_of_cons. split; [by intros ->|done].
Qed.

Lemma resolve_top_k_range t k : _resolve_top_k t = Ok k → 1 ≤ k ≤ 100.
Proof. destruct t as [[]|]; cbn [_resolve_top_k]; unfold raise_unless; intros H; ok_inv; btrue; unfold DEFAULT_TOP_K, MIN_TOP_K, MAX_TOP_K in *; try lia. Qed.

Lemma resolve_top_k_Ok t : (∃ k, _resolve_top_k t = Ok k) ↔ match t with None | Some NoneV => True | Some (IntV k) => 1 ≤ k ≤ 100 | Some _ => False end.
Proof.
  destruct t as [[]|]; cbn [_resolve_top_k]; try (by split; [intros [? ?]|]); try (by split; [|eexists]). unfold raise_unless, MIN_TOP_K, MAX_TOP_K. split.
  - intros [k Hk]. ok_inv. btrue. lia.
  - intros Hk. exists z. by destruct (Z.leb_spec 1 z), (Z.leb_spec z 100); try lia.
Qed.

Lemma resolve_lanes_Ok lanes ls : _resolve_lanes lanes = Ok ls ↔
  ls = default LANE_ORDER lanes ∧ match lanes with None => True | Some ls => ls ≠ [] ∧ NoDup ls ∧ ∀ l, l ∈ ls → l ∈ LANE_ORDER end.
Proof.
  destruct lanes as [l|]; cbn [_resolve_lanes default]; [|naive_solver]. unfold raise_unless. split.
  - intros H. ok_inv. match goal with Hc : check_lanes _ _ = _ |- _ => apply check_lanes_Ok in Hc as [? Hin] end. btrue. split_and!; try done. intros x Hx. by destruct (Hin x Hx).
  - intros (-> & Hne & Hnd & Hin). rewrite (bool_decide_eq_false_2 _ Hne). cbn [negb ensure].
    assert (Hlen : (length l ≤ length LANE_ORDER)%nat) by (apply submseteq_length, NoDup_submseteq; done).
    apply Nat.leb_le in Hlen. rewrite Hlen. cbn [ensure].
    rewrite (proj2 (check_lanes_Ok [] l tt)) by (split; [done|]; intros x Hx; split; [by apply Hin|set_solver]). done.
Qed.

(** ** A check of one field *)

(** [m] succeeds exactly when [P] holds, and blames [field] otherwise *)
Definition checks {A} (field : string) (P : Prop) (m : planned A) : Prop :=
  match m with Ok _ => P | Err e => pe_field e = field ∧ ¬ P end.

Lemma checks_ensure (b : bool) code field message (P : Prop) : (b = true ↔ P) → checks field P (raise_unless b code field message).
Proof. intros H. unfold raise_unless. destruct b; cbn; naive_solver. Qed.

Lemma checks_weaken {A} field (P Q : Prop) (m : planned A) : (P ↔ Q) → checks field P m → checks field Q m.
Proof. intros H. destruct m; cbn; naive_solver. Qed.

Lemma checks_bind {A B} field (P Q : Prop) (m : planned A) (f : A → planned B) : checks field P m → (P → ∀ a, m = Ok a → checks field Q (f a)) → checks field (P ∧ Q) (m ≫= f).
Proof.
  destruct m as [a|e]; cbn; [|naive_solver]. intros HP Hf. specialize (Hf HP a eq_refl). destruct (f a); cbn in *; naive_solver.
Qed.

Lemma checks_each {A} field (P : A → Prop) (f : A → planned unit) l : (∀ a, checks field (P a) (f a)) → checks field (Forall P l) (for_each f l).
Proof.
  intros Hf. induction l as [|a l IH]; cbn [for_each]; [constructor|]. eapply checks_weaken; [symmetry; apply Forall_cons|]. apply checks_bind; [apply Hf|done].
Qed.

(** [m] checks its parts in their order, and returns an [R] *)
Definition staged {A} (parts : list (string * Prop)) (R : A → Prop) (m : planned A) : Prop :=
  match m with Ok a => Forall snd parts ∧ R a | Err e => first_fault parts (pe_field e) end.

Lemma staged_bind {A B} field (P : Prop) parts (R : B → Prop) (m : planned A) (f : A → planned B) :
  checks field P m → (∀ a, m = Ok a → staged parts R (f a)) → staged ((field, P) :: parts) R (m ≫= f).
Proof.
  destruct m as [a|e]; cbn; intros HP Hf; [specialize (Hf a eq_refl)|by destruct HP as [<- HP]; exists [], P, parts].
  destruct (f a) as [b|e]; cbn in *; [by destruct Hf; split; [constructor|]|].
  destruct Hf as (before & Q & after & -> & Hb & HQ). exists ((field, P) :: before), Q, after. split; [done|]. split; [by constructor|done].
Qed.

(** a field that two statements check *)
Lemma staged_bind_both {B} field (P Q : Prop) parts (R : B → Prop) (m n : planned unit) (rest : planned B) :
  checks field P m → checks field Q n → staged parts R rest → staged ((field, P ∧ Q) :: parts) R (m ≫= λ _, n ≫= λ _, rest).
Proof.
  intros Hm Hn Hr. assert ((m ≫= λ _, n ≫= λ _, rest) = (m ≫= λ _, n) ≫= λ _, rest) as -> by by destruct m.
  apply staged_bind; [by apply checks_bind|done].
Qed.

Lemma lanes_blamed seen lanes e : check_lanes seen lanes = Err e → pe_field e = "lanes"%string.
Proof.
  revert seen. induction lanes as [|lane lanes IH]; intros seen; cbn [check_lanes]; [done|]. unfold raise_unless.
  destruct (bool_decide (lane ∈ LANE_ORDER)); [|by intros [= <-]]. destruct (bool_decide (lane ∉ seen)); [|by intros [= <-]]. apply IH.
Qed.

Lemma resolve_lanes_checks lanes : checks "lanes" (match lanes with None => True | Some ls => ls ≠ [] ∧ NoDup ls ∧ ∀ l, l ∈ ls → l ∈ LANE_ORDER end) (_resolve_lanes lanes).
Proof.
  destruct (_resolve_lanes lanes) as [ls|e] eqn:H; cbn; [by apply resolve_lanes_Ok in H as [_ ?]|]. split.
  - destruct lanes as [l|]; [|done]. cbn [_resolve_lanes] in H. unfold raise_unless in H. destruct (negb _); [|by injection H as <-]. destruct (length l <=? _)%nat; [|by injection H as <-].
    cbn in H. destruct (check_lanes [] l) as [u|er] eqn:Hc; [done|]. injection H as <-. by eapply lanes_blamed.
  - intros Hok. by rewrite (proj2 (resolve_lanes_Ok lanes _) (conj eq_refl Hok)) in H.
Qed.

Lemma resolve_top_k_checks t : checks "top_k" (match t with None | Some NoneV => True | Some (IntV k) => 1 ≤ k ≤ 100 | Some _ => False end) (_resolve_top_k t).
Proof.
  destruct (_resolve_top_k t) as [k|e] eqn:H; cbn; [by apply resolve_top_k_Ok; exists k|]. split.
  - destruct t as [[]|]; cbn [_resolve_top_k] in H; try done; try (by injection H as <-). unfold raise_unless in H. by destruct (_ && _); [|injection H as <-].
  - intros [k Hk]%resolve_top_k_Ok. by rewrite Hk in H.
Qed.

Lemma listed_checks (f : string → bool) (P : string → Prop) c1 field m1 c2 m2 (o : option (list string)) : (∀ x, f x = true ↔ P x) →
  checks field ((length (default [] o) ≤ 20)%nat ∧ Forall P (default [] o))
    (match o with None => Ok tt | Some l => _ ← raise_unless (length l <=? MAX_FILTER_ITEMS)%nat c1 field m1; for_each (λ x, raise_unless (f x) c2 field (m2 x)) l end).
Proof.
  intros Hf. destruct o as [l|]; cbn [default]; [|cbn; split; [lia|constructor]].
  apply checks_bind; [apply checks_ensure, Nat.leb_le|]. intros _ _ _. apply checks_each. intros x. by apply checks_ensure.
Qed.

Lemma uuid_checks v field : checks field (reads_uuid v) (_require_uuid v field).
Proof. apply checks_ensure. by rewrite bool_decide_eq_true. Qed.

(** * The plan *)

(** what [plan_query] builds of a request it accepts *)
Definition planned_as (req : query_request) (iv cv : string) (ents : list string) (asof : string) (k : Z) : query_plan :=
  QueryPlan "query-plan/v1" (classify_intent (qr_question req)) ents asof cv iv (default LANE_ORDER (qr_lanes req)) (expand_variants (qr_question req))
    (PlanFilters (default [] (qr_forms req)) (default [] (qr_periods req))) (derive_budgets k).

Lemma plan_query_staged req iv cv ents asof :
  staged (parts req iv cv ents asof) (λ p, ∃ k, _resolve_top_k (qr_top_k req) = Ok k ∧ p = planned_as req iv cv ents asof k) (plan_query req iv cv ents asof).
Proof.
  unfold plan_query, parts. cbv zeta. apply staged_bind_both.
  { apply checks_ensure. by rewrite negb_true_iff, bool_decide_eq_false, strip_value. }
  { apply checks_ensure, Nat.leb_le. }
  apply staged_bind; [apply resolve_top_k_checks|]. intros k Hk. apply staged_bind; [apply resolve_lanes_checks|]. intros lanes [-> _]%resolve_lanes_Ok.
  unfold _resolve_filters.
  match goal with |- staged _ _ ((?m ≫= λ _, ?n ≫= λ _, Ok ?x) ≫= ?f) => assert (((m ≫= λ _, n ≫= λ _, Ok x) ≫= f) = (m ≫= λ _, n ≫= λ _, f x)) as -> by (destruct m; [by destruct n|done]) end.
  apply staged_bind; [apply listed_checks, form_ok_value|]. intros [] _. apply staged_bind; [apply listed_checks, period_ok_value|]. intros [] _.
  apply staged_bind_both.
  { apply checks_ensure. by rewrite negb_true_iff, bool_decide_eq_false. }
  { apply checks_each. intros e. apply uuid_checks. }
  apply staged_bind; [apply uuid_checks|]. intros [] _. apply staged_bind; [apply uuid_checks|]. intros [] _.
  apply staged_bind; [apply checks_ensure; by rewrite bool_decide_eq_true|]. intros [] _. split; [constructor|by exists k].
Qed.

Lemma planned_wf req iv cv ents asof p : plan_query req iv cv ents asof = Ok p → plan_wf p.
Proof.
  intros Hp. pose proof (plan_query_staged req iv cv ents asof) as H. rewrite Hp in H. destruct H as [Hparts (k & Hk & ->)]. unfold parts in Hparts. rewrite !Forall_cons in Hparts. cbn [snd] in Hparts.
  destruct Hparts as (_ & _ & Hls & Hf & Hpe & He & Hi & Hc & Ha & _). apply resolve_top_k_range in Hk. split; cbn [planned_as qp_schema_version qp_intent qp_entity_ids qp_effective_as_of qp_corpus_version_id qp_index_version_id qp_lanes qp_variants qp_filters qp_budgets pf_forms pf_periods lane_top_k fused_top_k context_items timeout_ms derive_budgets].
  - reflexivity.
  - apply first_intent_in.
  - exact He.
  - exact (conj Hc (conj Hi Ha)).
  - destruct (qr_lanes req); cbn [default]; unfold id; [naive_solver|]. split_and!; [apply (bool_decide_unpack _); vm_compute; exact I|done|done].
  - rewrite expand_variants_spec. unfold variants_spec, dict_fromkeys. cbn [dict_fromkeys_from]. rewrite decide_False by set_solver.
    split; [|rewrite length_take; unfold MAX_VARIANTS; cbn [length]; lia]. eapply sublist_NoDup; [|apply sublist_take].
    constructor; [rewrite elem_of_dict_fromkeys_from; set_solver|apply NoDup_dict_fromkeys_from].
  - naive_solver.
  - unfold MAX_CONTEXT_ITEMS, DEFAULT_TIMEOUT_MS. lia.
Qed.

(** C33: The planner accepts exactly the requests whose every part it can use, and names
    the first that it cannot.  The plan of an accepted request has the fields of
    [query-plan/v1] within its bounds and the planner's, pins what it was given,
    keeps the requested lanes, forms and periods, spends [top_k] in each lane and
    after fusion, and its variants are the question followed by the first distinct
    rewrites of the synonym table, at most four in all.  Ids and the as-of are what
    [uuid.UUID] and [datetime.fromisoformat] read, which is more than the formats
    the schema names. *)
Theorem plan_query_spec (req : query_request) (index_version_id corpus_version_id : string) (entity_ids : list string) (effective_as_of : string) :
  match plan_query req index_version_id corpus_version_id entity_ids effective_as_of with
  | Ok p =>
      Forall snd (parts req index_version_id corpus_version_id entity_ids effective_as_of) ∧ plan_wf p ∧ qp_entity_ids p = entity_ids ∧
      qp_index_version_id p = index_version_id ∧ qp_corpus_version_id p = corpus_version_id ∧ qp_effective_as_of p = effective_as_of ∧
      qp_lanes p = default LANE_ORDER (qr_lanes req) ∧ qp_filters p = PlanFilters (default [] (qr_forms req)) (default [] (qr_periods req)) ∧
      qp_variants p = variants_spec (qr_question req) ∧
      (∀ k, qr_top_k req = Some (IntV k) → lane_top_k (qp_budgets p) = k ∧ fused_top_k (qp_budgets p) = k)
  | Err e => first_fault (parts req index_version_id corpus_version_id entity_ids effective_as_of) (pe_field e)
  end.
Proof.
  pose proof (plan_query_staged req index_version_id corpus_version_id entity_ids effective_as_of) as H. destruct (plan_query _ _ _ _ _) as [p|e] eqn:Hp; [|exact H].
  pose proof (planned_wf _ _ _ _ _ _ Hp) as Hwf. destruct H as [Hparts (k & Hk & ->)]. cbn [planned_as qp_entity_ids qp_effective_as_of qp_corpus_version_id qp_index_version_id qp_lanes qp_variants qp_filters qp_budgets lane_top_k fused_top_k derive_budgets].
  split_and!; try reflexivity; [exact Hparts|exact Hwf|apply expand_variants_spec|]. intros k' Hq. rewrite Hq in Hk. cbn [_resolve_top_k] in Hk. unfold raise_unless in Hk. by ok_inv.
Qed.

(** a date alone is an as-of, and a UUID may stand in braces *)
Example lax_pins : reads_datetime "2024-01-01" ∧ reads_uuid "{6ba7b811-9dad-11d1-80b4-00c04fd430c8}".
Proof. split; by eexists; vm_compute. Qed.

(** [$] stands before a final newline too: a period may end with one *)
Example period_newline : period_ok ("2024-Q1" +:+ String "010" "")%string = true ∧ period_ok "2024-Q5" = false ∧ period_ok "2024-13" = false.
Proof. done. Qed.

Example a_plan : match plan_query (QueryRequest "Why did Net Income and revenue change?" None (Some (IntV 5)) None (Some ["2024-Q1"]))
    "6ba7b811-9dad-11d1-80b4-00c04fd430c8" "6ba7b811-9dad-11d1-80b4-00c04fd430c8" ["6ba7b811-9dad-11d1-80b4-00c04fd430c8"] "2024-01-01T00:00:00Z" with
  | Ok p => qp_intent p = "driver_analysis" ∧ qp_variants p = ["Why did Net Income and revenue change?"; "Why did net earnings and revenue change?";
      "Why did profit and revenue change?"; "Why did bottom line and revenue change?"]
  | Err _ => False end%string.
Proof. vm_compute. split; reflexivity. Qed.
