(* ===== verification/Costs.v ===== *)
(** [apps/api/app/costs.py]: token prices, the admission reservation and the cost
    ceilings of research queries.

    The ledger of one organization holds its [usage_events], its
    [research_query.reserve] audit events and which runs are finished.
    [date_trunc] in the session's time zone is a parameter. *)

From Stdlib Require Import QArith Lqa.
From S2P Require Import Prelude Dicts Decimals Fusion.
Local Open Scope Z_scope.

(** the cost settings of [apps/api/app/config.py] *)
Record cost_settings := CostSettings {
  user_daily_cost_limit_usd : decimal; org_monthly_cost_limit_usd : decimal; user_daily_soft_limit_usd : decimal; org_monthly_soft_limit_usd : decimal;
  research_query_cost_usd : decimal; cost_per_1k_input_usd : decimal; cost_per_1k_output_usd : decimal;
}.

Inductive cost_error :=
| CostLimitExceeded (message : string) (limit spent : decimal)   (* 402, COST_LIMIT_EXCEEDED *)
| CostArithmetic (s : signal).

Notation costed := (result cost_error).

Definition cost_op (r : result signal decimal) : costed decimal := map_err CostArithmetic r.

(** * Token prices *)

Definition _CENTI_MICRO : decimal := Dec false 1 (-6).

(** [ROUND_HALF_UP]: drop the last [k] digits *)
Definition round_half_up (c : N) (k : Z) : N :=
  let m := pow10 k in if (m <=? 2 * (c mod m))%N then (c / m + 1)%N else (c / m)%N.

Definition rescale_half_up (d : decimal) (e : Z) : decimal :=
  if (d_coeff d =? 0)%N then Dec (d_sign d) 0 e
  else if e <=? d_exp d then Dec (d_sign d) (d_coeff d * pow10 (d_exp d - e)) e
  else Dec (d_sign d) (round_half_up (d_coeff d) (e - d_exp d)) e.

(** [d.quantize(q, rounding=ROUND_HALF_UP)] *)
Definition quantize_half_up (c : context) (d q : decimal) : result signal decimal :=
  if negb ((Etiny c <=? d_exp q) && (d_exp q <=? Emax c)) then Err InvalidOperation
  else if (d_coeff d =? 0)%N then dec_fix c (Dec (d_sign d) 0 (d_exp q))
  else if Emax c <? adjusted d then Err InvalidOperation
  else if prec c <? adjusted d - d_exp q + 1 then Err InvalidOperation
  else
    let ans := rescale_half_up d (d_exp q) in
    if Emax c <? adjusted ans then Err InvalidOperation
    else if prec c <? ndigits (d_coeff ans) then Err InvalidOperation
    else dec_fix c ans.

Definition token_cost_usd (cfg : cost_settings) (input_tokens output_tokens : Z) : costed decimal :=
  input ← cost_op (dec_mul DEFAULT_CONTEXT (dec_of_Z (Z.max 0 input_tokens)) (cost_per_1k_input_usd cfg));
  output ← cost_op (dec_mul DEFAULT_CONTEXT (dec_of_Z (Z.max 0 output_tokens)) (cost_per_1k_output_usd cfg));
  total ← cost_op (dec_add DEFAULT_CONTEXT input output);
  cost ← cost_op (dec_div DEFAULT_CONTEXT total (dec_of_Z 1000));
  cost_op (quantize_half_up DEFAULT_CONTEXT cost _CENTI_MICRO).

(** * The ledger *)

Record usage_event := UsageEvent { ue_user : string; ue_kind : string; ue_cost : decimal; ue_created_at : Z }.
Record reservation := Reservation { rv_actor : string; rv_run : string; rv_cost : decimal }.
Record ledger := Ledger { usage_events : list usage_event; reservations : list reservation; finished_runs : list string }.

Definition dec_sum (l : list decimal) : decimal := foldr add_exact dec_zero l.

Section ledger.
Context (date_trunc_day date_trunc_month : Z → Z).

Definition record_usage (user kind : string) (cost : decimal) (at_ : Z) (l : ledger) : ledger :=
  Ledger (usage_events l ++ [UsageEvent user kind cost at_]) (reservations l) (finished_runs l).

(** written in the transaction that inserts the run *)
Definition reserve_query_cost (user run_id : string) (cost : decimal) (l : ledger) : ledger :=
  Ledger (usage_events l) (reservations l ++ [Reservation user run_id cost]) (finished_runs l).

Definition pending (l : ledger) : list reservation := filter (λ r, rv_run r ∉ finished_runs l) (reservations l).

Definition user_day_actual (user : string) (now : Z) (l : ledger) : decimal :=
  dec_sum (ue_cost <$> filter (λ e, ue_user e = user ∧ date_trunc_day now ≤ ue_created_at e) (usage_events l)).
Definition org_month_actual (now : Z) (l : ledger) : decimal := dec_sum (ue_cost <$> filter (λ e, date_trunc_month now ≤ ue_created_at e) (usage_events l)).
Definition user_pending (user : string) (l : ledger) : decimal := dec_sum (rv_cost <$> filter (λ r, rv_actor r = user) (pending l)).
Definition org_pending (l : ledger) : decimal := dec_sum (rv_cost <$> pending l).

Definition spend_snapshot (user : string) (now : Z) (l : ledger) : decimal * decimal :=
  (add_exact (user_day_actual user now l) (user_pending user l), add_exact (org_month_actual now l) (org_pending l)).

Definition enforce_ceilings (cfg : cost_settings) (user : string) (now : Z) (upcoming : decimal) (l : ledger) : costed (option string) :=
  let '(user_day, org_month) := spend_snapshot user now l in
  user_total ← cost_op (dec_add DEFAULT_CONTEXT user_day upcoming);
  _ ← ensure (negb (dec_ltb (user_daily_cost_limit_usd cfg) user_total))
        (CostLimitExceeded "User daily hard cost limit reached; new billable work is stopped." (user_daily_cost_limit_usd cfg) user_day);
  org_total ← cost_op (dec_add DEFAULT_CONTEXT org_month upcoming);
  _ ← ensure (negb (dec_ltb (org_monthly_cost_limit_usd cfg) org_total))
        (CostLimitExceeded "Organization monthly hard cost limit reached; new billable work is stopped." (org_monthly_cost_limit_usd cfg) org_month);
  Ok (if dec_ltb (user_daily_soft_limit_usd cfg) user_total then Some "user daily soft limit exceeded"%string
      else if dec_ltb (org_monthly_soft_limit_usd cfg) org_total then Some "organization monthly soft limit exceeded"%string
      else None).

(** * The life of a ledger

    [lock_query_budget] serializes admissions, so an admission sees every earlier
    one; settlements of other runs come in between. *)

Record ledger_state := LedgerState { ls_now : Z; ls_ledger : ledger }.

Definition admit_query (cfg : cost_settings) (user run_id : string) (st : ledger_state) : costed ledger_state :=
  _ ← enforce_ceilings cfg user (ls_now st) (research_query_cost_usd cfg) (ls_ledger st);
  Ok (LedgerState (ls_now st) (reserve_query_cost user run_id (research_query_cost_usd cfg) (ls_ledger st))).

Definition finish_run (run_id : string) (l : ledger) : ledger := Ledger (usage_events l) (reservations l) (finished_runs l ++ [run_id]).

(** the terminal transaction of a run: its status and, when it was billed, its usage *)
Definition settle (r : reservation) (kind : string) (metered : option decimal) (st : ledger_state) : ledger_state :=
  let l := finish_run (rv_run r) (ls_ledger st) in
  LedgerState (ls_now st) (match metered with Some cost => record_usage (rv_actor r) kind cost (ls_now st) l | None => l end).

(** [metering] bounds what a provider reports for a run *)
Inductive ledger_step (cfg : cost_settings) (metering : reservation → decimal → Prop) : ledger_state → ledger_state → Prop :=
| step_admit user run_id st st' :
    run_id ∉ rv_run <$> reservations (ls_ledger st) → admit_query cfg user run_id st = Ok st' → ledger_step cfg metering st st'
| step_settle r kind metered st :
    r ∈ pending (ls_ledger st) → (∀ cost, metered = Some cost → metering r cost) → ledger_step cfg metering st (settle r kind metered st)
| step_clock now st : ls_now st ≤ now → ledger_step cfg metering st (LedgerState now (ls_ledger st)).
End ledger.

(** * Sums of money *)

(** an amount of at most six decimal places, as [numeric(12, 6)] holds it *)
Definition money (d : decimal) : Prop := -6 ≤ d_exp d ∧ (0 <= dq d)%Q.

Fixpoint qsum (l : list decimal) : Q := match l with [] => 0%Q | d :: l' => (dq d + qsum l')%Q end.

Lemma dq_dec_sum l : (dq (dec_sum l) == qsum l)%Q.
Proof. induction l as [|d l IH]; cbn [qsum]; [apply dq_zero|]. change (dec_sum (d :: l)) with (add_exact d (dec_sum l)). by rewrite dq_add_exact, IH. Qed.

Lemma dec_sum_exp l : Forall money l → -6 ≤ d_exp (dec_sum l) ≤ 0.
Proof. induction 1 as [|d l [Hd _] _ IH]; [done|]. change (dec_sum (d :: l)) with (add_exact d (dec_sum l)). cbn [add_exact d_exp]. lia. Qed.

Lemma costs_app a b : (qsum (a ++ b) == qsum a + qsum b)%Q.
Proof. induction a as [|d a IH]; cbn [qsum app]; [ring|]. rewrite IH. ring. Qed.

Lemma qsum_nonneg l : Forall money l → (0 <= qsum l)%Q.
Proof. induction 1 as [|d l [_ Hd] _ IH]; cbn [qsum]; lra. Qed.

Lemma money_add a b : money a → money b → money (add_exact a b).
Proof. intros [H1 H2] [H3 H4]. split; [cbn [add_exact d_exp]; lia|]. rewrite dq_add_exact. lra. Qed.

Lemma money_fits d : -6 ≤ d_exp d ≤ 0 → (0 <= dq d < inject_Z (10 ^ 21))%Q → dec_fix DEFAULT_CONTEXT d = Ok d.
Proof.
  intros He [H0 Hlt]. assert (d_coeff d < pow10 27)%N as Hco.
  { apply N2Z.inj_lt. rewrite pow10_Z by lia. rewrite dq_unfold in H0, Hlt. pose proof (q10_pos (d_exp d)) as Hp.
    assert (q10 (-6) <= q10 (d_exp d))%Q as Hge.
    { rewrite (q10_split (d_exp d) (-6)) by lia. pose proof (q10_pos (-6)). assert (1 <= 10 ^ (d_exp d - -6)) by (apply Z.lt_pred_le, Z.pow_pos_nonneg; lia).
      rewrite Zle_Qle in H1. change (inject_Z 1) with 1%Q in H1. nra. }
    assert (0 ≤ sval d) as Hs. { destruct (Z.lt_ge_cases (sval d) 0) as [Hn|]; [|done]. rewrite Zlt_Qlt in Hn. change (inject_Z 0) with 0%Q in Hn. nra. }
    assert (Z.of_N (d_coeff d) ≤ sval d) by (unfold sval in *; destruct (d_sign d); lia).
    assert (inject_Z (sval d) * q10 (-6) < inject_Z (10 ^ 21))%Q as Hb.
    { eapply Qle_lt_trans; [|exact Hlt]. rewrite Zle_Qle in Hs. change (inject_Z 0) with 0%Q in Hs. nra. }
    assert (sval d < 10 ^ 27); [|lia]. rewrite Zlt_Qlt. change (q10 (-6)) with (/ inject_Z (10 ^ 6))%Q in Hb.
    assert (inject_Z (10 ^ 27) == inject_Z (10 ^ 21) * inject_Z (10 ^ 6))%Q as -> by reflexivity.
    revert Hb. change (inject_Z (10 ^ 6)) with (1000000 # 1)%Q. change (/ (1000000 # 1))%Q with (1 # 1000000)%Q. intros Hb. lra. }
  apply dec_fix_fits; [reflexivity|..].
  - assert (ndigits (d_coeff d) ≤ 27) by (apply ndigits_le_iff; [lia|done]). cbn. lia.
  - vm_compute (Etiny DEFAULT_CONTEXT). vm_compute (Emax DEFAULT_CONTEXT). lia.
  - assert (ndigits (d_coeff d) ≤ 27) by (apply ndigits_le_iff; [lia|done]). unfold adjusted. vm_compute (Emax DEFAULT_CONTEXT). lia.
Qed.

(** * The sign of a metered cost *)

Lemma cost_fix_sign c d d' : dec_fix c d = Ok d' → d_sign d' = d_sign d.
Proof. unfold dec_fix. intros H. repeat case_match; simplify_eq; done. Qed.

Lemma aligned_nonneg d e : d_sign d = false → 0 ≤ aligned d e.
Proof. intros H. unfold aligned, sval. rewrite H. apply Z.mul_nonneg_nonneg; [lia|]. destruct (Z.lt_ge_cases (d_exp d - e) 0); [rewrite Z.pow_neg_r; lia|by apply Z.pow_nonneg]. Qed.

Lemma add_exact_sign a b : d_sign a = false → d_sign b = false → d_sign (add_exact a b) = false.
Proof.
  intros Ha Hb. cbn [add_exact d_sign]. pose proof (aligned_nonneg a (Z.min (d_exp a) (d_exp b)) Ha). pose proof (aligned_nonneg b (Z.min (d_exp a) (d_exp b)) Hb).
  destruct (Z.eqb_spec (aligned a (Z.min (d_exp a) (d_exp b)) + aligned b (Z.min (d_exp a) (d_exp b))) 0); [by rewrite Ha|]. apply Z.ltb_ge. lia.
Qed.

Lemma dec_div_sign c a b d : dec_div c a b = Ok d → d_sign d = xorb (d_sign a) (d_sign b).
Proof. unfold dec_div. intros H. repeat case_match; simplify_eq; by apply cost_fix_sign in H. Qed.

Lemma quantize_half_up_sign c d q r : quantize_half_up c d q = Ok r → d_sign r = d_sign d ∧ (Etiny c ≤ d_exp q ≤ Emax c → d_coeff d = 0%N → d_exp r = d_exp q).
Proof.
  unfold quantize_half_up, rescale_half_up. intros H. split.
  - repeat case_match; simplify_eq; by apply cost_fix_sign in H.
  - intros He Hz. rewrite Hz in H. cbn [N.eqb] in H. case_match; [done|]. unfold dec_fix in H. cbn in H. injection H as <-. cbn. lia.
Qed.

Lemma token_cost_nonneg cfg i o c : d_sign (cost_per_1k_input_usd cfg) = false → d_sign (cost_per_1k_output_usd cfg) = false →
  token_cost_usd cfg i o = Ok c → d_sign c = false.
Proof.
  intros Hi Ho H. unfold token_cost_usd, cost_op in H. ok_inv.
  repeat match goal with
  | H : dec_mul _ _ _ = Ok _ |- _ => apply cost_fix_sign in H; cbn [mul_exact d_sign] in H
  | H : dec_div _ _ _ = Ok _ |- _ => apply dec_div_sign in H
  | H : quantize_half_up _ _ _ = Ok _ |- _ => apply quantize_half_up_sign in H as [H _]
  | H : dec_add _ _ _ = Ok _ |- _ => apply cost_fix_sign in H
  end.
  assert (∀ z, d_sign (dec_of_Z (Z.max 0 z)) = false) as Hz by (intros z; apply Z.ltb_ge; lia). rewrite Hz in *. cbn [xorb] in *.
  match goal with H1 : d_sign ?v1 = d_sign (add_exact _ _), H2 : _ = xorb (d_sign ?v1) _ |- _ => rewrite add_exact_sign in H1 by congruence; rewrite H1 in H2; cbn in H2 end. congruence.
Qed.

(** a cost is a number of millionths *)
Lemma quantize_half_up_exp c d q r : Etiny c ≤ d_exp q → quantize_half_up c d q = Ok r → d_exp r = d_exp q.
Proof.
  unfold quantize_half_up. intros He H. destruct (Etiny c <=? d_exp q) eqn:H1, (d_exp q <=? Emax c) eqn:H2; cbn [negb andb] in H; try done. apply Z.leb_le in H2.
  destruct (d_coeff d =? 0)%N eqn:Hz; [unfold dec_fix in H; cbn in H; injection H as <-; cbn; lia|].
  destruct (Emax c <? adjusted d); [done|]. destruct (prec c <? _); [done|]. set (ans := rescale_half_up d (d_exp q)) in *.
  assert (d_exp ans = d_exp q) as Ha by (unfold ans, rescale_half_up; rewrite Hz; cbn; by destruct (d_exp q <=? d_exp d)).
  destruct (Emax c <? adjusted ans); [done|]. destruct (Z.ltb_spec (prec c) (ndigits (d_coeff ans))); [done|].
  unfold dec_fix in H. destruct (d_coeff ans =? 0)%N; [injection H as <-; cbn; lia|]. destruct (Etop c <? _); [done|].
  destruct (Z.ltb_spec (d_exp ans) (Z.max (ndigits (d_coeff ans) + d_exp ans - prec c) (Etiny c))); [lia|]. by injection H as <-.
Qed.

Lemma token_cost_exp cfg i o c : token_cost_usd cfg i o = Ok c → d_exp c = -6.
Proof. unfold token_cost_usd, cost_op. intros H. ok_inv. match goal with H : quantize_half_up _ _ _ = Ok _ |- _ => refine (quantize_half_up_exp _ _ _ _ _ H); vm_compute; discriminate end. Qed.

(** * What a window of the ledger holds

    [None] is the organization, [Some user] one of its users. *)

Definition covers (scope : option string) (user : string) : Prop := match scope with None => True | Some u => user = u end.
#[export] Instance covers_dec scope user : Decision (covers scope user).
Proof. destruct scope; cbn; apply _. Defined.

Section window.
Context (trunc : Z → Z) (scope : option string).

Definition actual (now : Z) (l : ledger) : list decimal := ue_cost <$> filter (λ e, covers scope (ue_user e) ∧ trunc now ≤ ue_created_at e) (usage_events l).
Definition reserved (l : ledger) : list decimal := rv_cost <$> filter (λ r, covers scope (rv_actor r)) (pending l).
Definition spend (now : Z) (l : ledger) : Q := (qsum (actual now l) + qsum (reserved l))%Q.

(** what the ledger's rows are *)
Record ledger_ok (l : ledger) : Prop := LedgerOk {
  lo_usage : Forall (λ e, money (ue_cost e)) (usage_events l);
  lo_reserved : Forall (λ r, money (rv_cost r)) (reservations l);
  lo_runs : NoDup (rv_run <$> reservations l);
}.

Lemma filter_all {A} (P : A → Prop) `{!∀ x, Decision (P x)} l : Forall P l → filter P l = l.
Proof. induction 1; [done|]. rewrite filter_cons, decide_True by done. by f_equal. Qed.

Lemma qsum_filter_le {A} (f : A → decimal) (P R : A → Prop) `{!∀ x, Decision (P x), !∀ x, Decision (R x)} l :
  Forall (λ x, money (f x)) l → (∀ x, P x → R x) → (qsum (f <$> filter P l) <= qsum (f <$> filter R l))%Q.
Proof.
  intros Hm HPR. induction Hm as [|x l [_ Hx] _ IH]; [apply Qle_refl|]. rewrite !filter_cons.
  destruct (decide (P x)), (decide (R x)); cbn [fmap list_fmap qsum]; try lra. naive_solver.
Qed.

Lemma pending_ok l : ledger_ok l → Forall (λ r, money (rv_cost r)) (pending l) ∧ NoDup (rv_run <$> pending l).
Proof.
  intros [_ Hr Hn]. unfold pending. split.
  - apply Forall_forall. intros r [_ Hin]%list_elem_of_filter. by eapply Forall_forall in Hr.
  - eapply sublist_NoDup; [exact Hn|]. apply fmap_sublist, sublist_filter.
Qed.

Lemma spend_clock l now now' : (∀ a b, a ≤ b → trunc a ≤ trunc b) → ledger_ok l → now ≤ now' → (spend now' l <= spend now l)%Q.
Proof.
  intros Ht Hok Hle. unfold spend, actual. apply Qplus_le_compat; [|apply Qle_refl]. apply qsum_filter_le; [apply Hok|].
  intros e [Hc Hw]. split; [done|]. specialize (Ht _ _ Hle). lia.
Qed.

Lemma spend_reserve user run_id cost now l : run_id ∉ finished_runs l →
  (spend now (reserve_query_cost user run_id cost l) == spend now l + (if decide (covers scope user) then dq cost else 0))%Q.
Proof.
  intros Hf. unfold spend, actual, reserved, pending, reserve_query_cost. cbn [usage_events reservations finished_runs].
  rewrite filter_app, filter_cons. cbn [rv_run]. rewrite decide_True by done. rewrite filter_nil, filter_app, filter_cons, filter_nil. cbn [rv_actor].
  case_decide; rewrite fmap_app, costs_app; cbn [fmap list_fmap qsum rv_cost]; ring.
Qed.

(** finishing a run releases its reservation *)
Lemma reserved_finish r l : ledger_ok l → r ∈ pending l →
  (qsum (reserved (finish_run (rv_run r) l)) + (if decide (covers scope (rv_actor r)) then dq (rv_cost r) else 0) == qsum (reserved l))%Q.
Proof.
  intros [Hm Hnd]%pending_ok Hin. assert (pending (finish_run (rv_run r) l) = filter (λ x, rv_run x ≠ rv_run r) (pending l)) as Hp.
  { unfold pending, finish_run. cbn [reservations finished_runs]. rewrite list_filter_filter. apply list_filter_iff. intros x. rewrite elem_of_app, list_elem_of_singleton. tauto. }
  unfold reserved. rewrite Hp. clear Hp Hm. induction (pending l) as [|x p IH]; [by apply not_elem_of_nil in Hin|].
  cbn [fmap list_fmap] in Hnd. apply NoDup_cons in Hnd as [Hx Hnd]. apply elem_of_cons in Hin as [<-|Hin].
  - rewrite !filter_cons. rewrite (decide_False (P := rv_run r ≠ rv_run r)) by naive_solver.
    rewrite (filter_all (λ x, rv_run x ≠ rv_run r) p).
    + case_decide; cbn [fmap list_fmap qsum]; ring.
    + apply Forall_forall. intros y Hy Heq. apply Hx. rewrite <- Heq. by apply (list_elem_of_fmap_2 rv_run).
  - specialize (IH Hnd Hin). rewrite !filter_cons. assert (rv_run x ≠ rv_run r) as Hne by (intros Heq; apply Hx; rewrite Heq; by apply (list_elem_of_fmap_2 rv_run)).
    rewrite (decide_True (P := rv_run x ≠ rv_run r)) by done. rewrite filter_cons. destruct (decide (covers scope (rv_actor x))); cbn [fmap list_fmap qsum]; lra.
Qed.

Lemma spend_settle r kind metered now l : ledger_ok l → r ∈ pending l →
  (∀ cost, metered = Some cost → (dq cost <= dq (rv_cost r))%Q) → (0 <= dq (rv_cost r))%Q →
  (spend now (ls_ledger (settle r kind metered (LedgerState now l))) <= spend now l)%Q.
Proof.
  intros Hok Hin Hle H0. pose proof (reserved_finish r l Hok Hin) as Hr. unfold settle, spend. cbn [ls_ledger ls_now].
  destruct metered as [cost|]; cbn [record_usage].
  - specialize (Hle cost eq_refl). unfold actual, record_usage. cbn [usage_events finish_run]. rewrite filter_app, filter_cons, filter_nil, fmap_app, costs_app. cbn [ue_user ue_created_at].
    change (reserved (Ledger _ (reservations (finish_run (rv_run r) l)) (finished_runs (finish_run (rv_run r) l)))) with (reserved (finish_run (rv_run r) l)).
    destruct (decide (covers scope (rv_actor r))) as [Hc|Hc]; case_decide as Hd; cbn [fmap list_fmap qsum ue_cost]; try lra; tauto.
  - change (actual now (finish_run (rv_run r) l)) with (actual now l). case_decide; lra.
Qed.
End window.

(** * The ceilings *)

Section ceilings.
Context (day month : Z → Z) (cfg : cost_settings).

Notation spend_snapshot := (spend_snapshot day month).

(** settings below 10^20 dollars, at most six decimal places *)
Record settings_ok : Prop := SettingsOk {
  so_query : money (research_query_cost_usd cfg) ∧ (dq (research_query_cost_usd cfg) <= inject_Z (10 ^ 20))%Q;
  so_user : (0 <= dq (user_daily_cost_limit_usd cfg) <= inject_Z (10 ^ 20))%Q;
  so_org : (0 <= dq (org_monthly_cost_limit_usd cfg) <= inject_Z (10 ^ 20))%Q;
}.

Lemma snapshot_user user now l : (dq (spend_snapshot user now l).1 == spend day (Some user) now l)%Q.
Proof.
  cbn [Costs.spend_snapshot fst]. rewrite dq_add_exact. unfold user_day_actual, user_pending. rewrite !dq_dec_sum. reflexivity.
Qed.

Lemma snapshot_org user now l : (dq (spend_snapshot user now l).2 == spend month None now l)%Q.
Proof.
  cbn [Costs.spend_snapshot snd]. rewrite dq_add_exact. unfold org_month_actual, org_pending. rewrite !dq_dec_sum. unfold spend, actual, reserved.
  rewrite (list_filter_iff (λ e, covers None (ue_user e) ∧ month now ≤ ue_created_at e) (λ e, month now ≤ ue_created_at e)) by (cbn; tauto).
  rewrite (filter_all (λ r, covers None (rv_actor r)) (pending l)) by (apply Forall_forall; done). reflexivity.
Qed.

Lemma filter_money {A} (f : A → decimal) (P : A → Prop) `{!∀ x, Decision (P x)} l : Forall (λ x, money (f x)) l → Forall money (f <$> filter P l).
Proof. intros Hl. apply Forall_fmap, Forall_forall. intros x [_ Hx]%list_elem_of_filter. by eapply Forall_forall in Hl. Qed.

(** the sums of a snapshot have at most six places and are not negative *)
Lemma snapshot_money user now l : ledger_ok l → let s := spend_snapshot user now l in
  (-6 ≤ d_exp s.1 ≤ 0 ∧ (0 <= dq s.1)%Q) ∧ (-6 ≤ d_exp s.2 ≤ 0 ∧ (0 <= dq s.2)%Q).
Proof.
  intros Hok. pose proof (pending_ok l Hok) as [Hp _]. pose proof (lo_usage l Hok) as Hu. cbn [Costs.spend_snapshot fst snd].
  assert (∀ a b, Forall money a → Forall money b → -6 ≤ d_exp (add_exact (dec_sum a) (dec_sum b)) ≤ 0 ∧ (0 <= dq (add_exact (dec_sum a) (dec_sum b)))%Q) as H.
  { intros a b Ha Hb. pose proof (dec_sum_exp a Ha). pose proof (dec_sum_exp b Hb). split; [cbn [add_exact d_exp]; lia|].
    rewrite dq_add_exact, !dq_dec_sum. pose proof (qsum_nonneg a Ha). pose proof (qsum_nonneg b Hb). lra. }
  split; apply H; try (by apply filter_money). by apply Forall_fmap.
Qed.

Lemma added_exactly s d : -6 ≤ d_exp s ≤ 0 → (0 <= dq s <= inject_Z (10 ^ 20))%Q → money d → (dq d <= inject_Z (10 ^ 20))%Q →
  ∃ t, dec_add DEFAULT_CONTEXT s d = Ok t ∧ (dq t == dq s + dq d)%Q.
Proof.
  intros He Hs [Hd H0] Hle. exists (add_exact s d). split; [|apply dq_add_exact]. apply money_fits; [cbn [add_exact d_exp]; lia|]. rewrite dq_add_exact.
  change (inject_Z (10 ^ 20)) with (100000000000000000000 # 1)%Q in *. change (inject_Z (10 ^ 21)) with (1000000000000000000000 # 1)%Q. lra.
Qed.

(** within the ceilings *)
Definition capped (st : ledger_state) : Prop :=
  (∀ user, (dq (spend_snapshot user (ls_now st) (ls_ledger st)).1 <= dq (user_daily_cost_limit_usd cfg))%Q) ∧
  (∀ user, (dq (spend_snapshot user (ls_now st) (ls_ledger st)).2 <= dq (org_monthly_cost_limit_usd cfg))%Q).

(** within the ceilings the sums are exact, and admission is decided by them *)
Lemma enforce_decides user now l : settings_ok → ledger_ok l → capped (LedgerState now l) →
  let up := research_query_cost_usd cfg in let s := spend_snapshot user now l in
  let over_user := (dq (user_daily_cost_limit_usd cfg) < dq s.1 + dq up)%Q in let over_org := (dq (org_monthly_cost_limit_usd cfg) < dq s.2 + dq up)%Q in
  match enforce_ceilings day month cfg user now up l with
  | Ok warning => ¬ over_user ∧ ¬ over_org ∧
      (is_Some warning ↔ (dq (user_daily_soft_limit_usd cfg) < dq s.1 + dq up)%Q ∨ (dq (org_monthly_soft_limit_usd cfg) < dq s.2 + dq up)%Q)
  | Err (CostLimitExceeded _ limit spent) =>
      (over_user ∧ limit = user_daily_cost_limit_usd cfg ∧ spent = s.1) ∨ (¬ over_user ∧ over_org ∧ limit = org_monthly_cost_limit_usd cfg ∧ spent = s.2)
  | Err (CostArithmetic _) => False
  end.
Proof.
  intros [[Hm Hq] Hu Ho] Hok [Hcu Hco] up s over_user over_org. specialize (Hcu user). specialize (Hco user). cbn [ls_now ls_ledger] in Hcu, Hco. fold s in Hcu, Hco.
  destruct (snapshot_money user now l Hok) as [[He1 H1] [He2 H2]]. fold s in He1, H1, He2, H2.
  destruct (added_exactly s.1 up He1 ltac:(lra) Hm Hq) as (t1 & Ht1 & Hd1). destruct (added_exactly s.2 up He2 ltac:(lra) Hm Hq) as (t2 & Ht2 & Hd2).
  unfold enforce_ceilings. change (Costs.spend_snapshot day month user now l) with s. destruct s as [s1 s2]. cbn [fst snd] in *. fold up.
  rewrite Ht1, Ht2. cbn [cost_op map_err mbind result_bind].
  assert (over_user ↔ (dq (user_daily_cost_limit_usd cfg) < dq t1)%Q) as Hou by (unfold over_user; cbn [fst]; by rewrite Hd1).
  assert (over_org ↔ (dq (org_monthly_cost_limit_usd cfg) < dq t2)%Q) as Hoo by (unfold over_org; cbn [snd]; by rewrite Hd2).
  clearbody over_user over_org. rewrite <- dec_ltb_spec in Hou, Hoo.
  destruct (dec_ltb (user_daily_cost_limit_usd cfg) t1) eqn:E1; cbn [negb ensure mbind result_bind].
  { left. tauto. }
  destruct (dec_ltb (org_monthly_cost_limit_usd cfg) t2) eqn:E2; cbn [negb ensure mbind result_bind].
  { right. split; [|tauto]. intros H. apply Hou in H. congruence. }
  split; [intros H; apply Hou in H; congruence|]. split; [intros H; apply Hoo in H; congruence|]. rewrite <- Hd1, <- Hd2, <- !dec_ltb_spec.
  destruct (dec_ltb (user_daily_soft_limit_usd cfg) t1), (dec_ltb (org_monthly_soft_limit_usd cfg) t2); split; try tauto; try (intros _; by eexists).
  - by intros [? ?].
  - by intros [|].
Qed.

(** a provider that stays within what was reserved *)
Definition within_reservation (r : reservation) (cost : decimal) : Prop := money cost ∧ (dq cost <= dq (rv_cost r))%Q.

Definition ledger_inv (st : ledger_state) : Prop :=
  ledger_ok (ls_ledger st) ∧ (∀ x, x ∈ finished_runs (ls_ledger st) → x ∈ rv_run <$> reservations (ls_ledger st)) ∧ capped st.

Lemma capped_spend now l : capped (LedgerState now l) ↔
  (∀ user, (spend day (Some user) now l <= dq (user_daily_cost_limit_usd cfg))%Q) ∧ (spend month None now l <= dq (org_monthly_cost_limit_usd cfg))%Q.
Proof.
  unfold capped. cbn [ls_now ls_ledger]. split; intros [H1 H2]; split.
  - intros user. rewrite <- snapshot_user. apply H1.
  - rewrite <- (snapshot_org ""). apply H2.
  - intros user. rewrite snapshot_user. apply H1.
  - intros user. rewrite snapshot_org. apply H2.
Qed.

Lemma inv_admit user run_id st st' : settings_ok → ledger_inv st → run_id ∉ rv_run <$> reservations (ls_ledger st) →
  admit_query day month cfg user run_id st = Ok st' → ledger_inv st'.
Proof.
  intros Hs (Hok & Hfin & Hcap) Hfresh H. destruct st as [now l]. cbn [ls_now ls_ledger] in *. apply bind_Ok in H as (w & Hw & H). injection H as <-.
  pose proof (enforce_decides user now l Hs Hok Hcap) as Hdec. cbn [ls_now ls_ledger] in Hw. cbv zeta in Hdec. rewrite Hw in Hdec. destruct Hdec as (Hnu & Hno & _).
  pose proof (snapshot_user user now l) as Eu. pose proof (snapshot_org user now l) as Eo. apply capped_spend in Hcap as [Hcu Hco].
  assert (run_id ∉ finished_runs l) as Hnf by (intros Hin; by apply Hfresh, Hfin). split; [|split].
  - destruct Hok as [Hu Hr Hn]. split; cbn [ls_ledger reserve_query_cost usage_events reservations]; [done|..].
    + apply Forall_app. split; [done|]. constructor; [apply Hs|constructor].
    + rewrite fmap_app. apply NoDup_app. split; [done|]. split; [|apply NoDup_singleton]. cbn. intros x Hx Hy. apply list_elem_of_singleton in Hy as ->. done.
  - cbn [ls_ledger reserve_query_cost finished_runs reservations]. intros x Hx. rewrite fmap_app, elem_of_app. left. by apply Hfin.
  - apply capped_spend. split.
    + intros u. rewrite spend_reserve by done. case_decide as Hc; [cbn in Hc; subst u; lra|]. specialize (Hcu u). lra.
    + rewrite spend_reserve by done. rewrite decide_True by (exact I). lra.
Qed.

Lemma inv_settle r kind metered st : ledger_inv st → r ∈ pending (ls_ledger st) → (∀ cost, metered = Some cost → within_reservation r cost) →
  ledger_inv (settle r kind metered st).
Proof.
  intros (Hok & Hfin & Hcap) Hin Hm. destruct st as [now l]. cbn [ls_now ls_ledger] in *. apply capped_spend in Hcap as [Hcu Hco].
  assert (r ∈ reservations l) as Hr by (by apply list_elem_of_filter in Hin as [_ ?]).
  assert (0 <= dq (rv_cost r))%Q as H0 by (eapply Forall_forall in Hr; [|apply Hok]; apply Hr).
  assert (∀ cost, metered = Some cost → (dq cost <= dq (rv_cost r))%Q) as Hle by (intros c Hc; by destruct (Hm c Hc)). split; [|split].
  - destruct Hok as [Hu Hrv Hn]. split; destruct metered as [cost|]; try done. cbn [settle ls_ledger record_usage usage_events finish_run].
    apply Forall_app. split; [done|]. constructor; [|constructor]. by destruct (Hm cost eq_refl).
  - destruct metered; cbn [settle ls_ledger record_usage finish_run finished_runs reservations]; intros x [Hx|Hx]%elem_of_app;
      [by apply Hfin|apply list_elem_of_singleton in Hx as ->; by apply (list_elem_of_fmap_2 rv_run)|by apply Hfin|apply list_elem_of_singleton in Hx as ->; by apply (list_elem_of_fmap_2 rv_run)].
  - change (ls_now (settle r kind metered (LedgerState now l))) with now. apply capped_spend. split.
    + intros u. eapply Qle_trans; [by apply spend_settle|done].
    + eapply Qle_trans; [by apply spend_settle|done].
Qed.

Lemma inv_clock now st : (∀ a b, a ≤ b → day a ≤ day b) → (∀ a b, a ≤ b → month a ≤ month b) → ledger_inv st → ls_now st ≤ now → ledger_inv (LedgerState now (ls_ledger st)).
Proof.
  intros Hd Hmo (Hok & Hfin & Hcap) Hle. destruct st as [t l]. cbn [ls_now ls_ledger] in *. apply capped_spend in Hcap as [Hcu Hco].
  split; [done|]. split; [done|]. apply capped_spend. split; [intros u|]; (eapply Qle_trans; [by apply spend_clock|done]).
Qed.

End ceilings.

(** C34: Admission is a hard stop.  With every run metered within its reservation, in
    every state the ledger reaches, by whatever order of admissions, settlements
    and clock steps across days and months, no user's day and no organization's
    month exceeds its limit, unfinished runs counted at their reservation. *)
Theorem ceilings_hold (day month : Z → Z) (cfg : cost_settings) (start : Z) (st : ledger_state) :
  (∀ a b, a ≤ b → day a ≤ day b) → (∀ a b, a ≤ b → month a ≤ month b) → settings_ok cfg →
  rtc (ledger_step day month cfg within_reservation) (LedgerState start (Ledger [] [] [])) st →
  ∀ user, (dq (spend_snapshot day month user (ls_now st) (ls_ledger st)).1 <= dq (user_daily_cost_limit_usd cfg))%Q ∧
          (dq (spend_snapshot day month user (ls_now st) (ls_ledger st)).2 <= dq (org_monthly_cost_limit_usd cfg))%Q.
Proof.
  intros Hd Hm Hs Hrtc. assert (ledger_inv day month cfg st) as (_ & _ & H1 & H2); [|by split].
  remember (LedgerState start (Ledger [] [] [])) as st0 eqn:Hst0. assert (ledger_inv day month cfg st0) as Hinv.
  { subst. split; [split; constructor|]. split; [intros x Hx; by apply not_elem_of_nil in Hx|]. destruct Hs as [_ [? _] [? _]]. split; intros user; assumption. }
  clear Hst0. induction Hrtc as [|a b c Hstep _ IH]; [done|]. apply IH. destruct Hstep; [by eapply inv_admit|by apply inv_settle|by apply inv_clock].
Qed.

(** one run at its reservation, across a day *)
Definition default_costs : cost_settings :=
  CostSettings (Dec false 25 0) (Dec false 1000 0) (Dec false 10 0) (Dec false 500 0) (Dec false 25 (-2)) (Dec false 5 (-3)) (Dec false 15 (-3)).

Example token_cost_rounds : token_cost_usd default_costs 1234 (-5) = Ok (Dec false 6170 (-6)) ∧ token_cost_usd default_costs 1 1 = Ok (Dec false 20 (-6)) ∧
  quantize_half_up DEFAULT_CONTEXT (Dec false 25 (-7)) _CENTI_MICRO = Ok (Dec false 3 (-6)).
Proof. vm_compute. done. Qed.

Definition day_of (t : Z) : Z := t - t mod 86400.
Definition month_of (t : Z) : Z := t - t mod 2592000.

Lemma trunc_mono w a b : 0 < w → a ≤ b → a - a mod w ≤ b - b mod w.
Proof. intros Hw Hab. pose proof (Z_div_mod_eq_full a w). pose proof (Z_div_mod_eq_full b w). pose proof (Z.div_le_mono a b w Hw Hab). nia. Qed.

Definition settled_ledger : ledger_state :=
  LedgerState 100 (Ledger [UsageEvent "u" "research_query" (Dec false 250000 (-6)) 5] [Reservation "u" "r1" (Dec false 25 (-2)); Reservation "u" "r2" (Dec false 25 (-2))] ["r1"%string]).

Lemma ceilings_hold_witness : spend_snapshot day_of month_of "u" 100 (ls_ledger settled_ledger) = (Dec false 500000 (-6), Dec false 500000 (-6)) ∧
  ∀ user, (dq (spend_snapshot day_of month_of user 100 (ls_ledger settled_ledger)).1 <= dq (Dec false 25 0))%Q ∧
          (dq (spend_snapshot day_of month_of user 100 (ls_ledger settled_ledger)).2 <= dq (Dec false 1000 0))%Q.
Proof.
  split; [vm_compute; reflexivity|].
  apply (ceilings_hold day_of month_of default_costs 5 settled_ledger); [intros; apply trunc_mono; lia|intros; apply trunc_mono; lia|split; repeat split; vm_compute; discriminate|].
  eapply rtc_l; [apply (step_admit day_of month_of default_costs _ "u"%string "r1"%string); [apply not_elem_of_nil|vm_compute; reflexivity]|].
  eapply rtc_l; [apply (step_settle day_of month_of default_costs _ (Reservation "u" "r1" (Dec false 25 (-2))) "research_query"%string (Some (Dec false 250000 (-6))))|].
  { vm_compute. apply list_elem_of_here. }
  { intros cost [= <-]. split; [split; [done|vm_compute; discriminate]|vm_compute; discriminate]. }
  eapply rtc_l; [apply (step_admit day_of month_of default_costs _ "u"%string "r2"%string); [apply (bool_decide_unpack _); vm_compute; exact I|vm_compute; reflexivity]|].
  eapply rtc_l; [apply (step_clock day_of month_of default_costs _ 100); vm_compute; discriminate|]. apply rtc_refl.
Defined.

(** nothing ties what a provider reports to the reservation: a run metered at 100
    dollars takes its user past the limit of 25 *)
Example unbounded_metering_overruns :
  let st := settle (Reservation "u" "r1" (Dec false 25 (-2))) "research_query" (Some (Dec false 100 0))
              (LedgerState 0 (Ledger [] [Reservation "u" "r1" (Dec false 25 (-2))] [])) in
  dec_ltb (user_daily_cost_limit_usd default_costs) (spend_snapshot day_of month_of "u" 0 (ls_ledger st)).1 = true.
Proof. vm_compute. reflexivity. Qed.
