(* ===== verification/RetrievalStore.v ===== *)
(** [apps/api/app/retrieval_run_store.py] over the tables of
    [db/migrations/0003_retrieval_core.sql]: one retrieval run with its events,
    candidates, claims and citations, the guards of those tables, and the writer.

    A refused statement is an exception.  An amount stored in [cost_usd] is rounded
    to six places and refused from a million on.  The primary keys are random UUIDs,
    taken to be fresh; the patterns of printed numbers are not checked. *)

From S2P Require Import Prelude Dicts Text Decimals Periods Canonical Payload Effects Fusion Generation Verification Costs.
Local Open Scope Z_scope.

(** * Rows *)

Inductive run_status := Queued | Planning | Retrieving | Fusing | Generating | Verifying | Succeeded | Abstained | Failed | Cancelled.
#[export] Instance run_status_eq_dec : EqDecision run_status.
Proof. solve_decision. Defined.

Definition terminal (s : run_status) : bool := match s with Succeeded | Abstained | Failed | Cancelled => true | _ => false end.

(** what a trace keeps of a provider call *)
Record audit := Audit { au_provider : string; au_model : string; au_response_id : string; au_estimated_cost_usd : string }.

Record envelope := Envelope { en_code : string; en_message : string }.

Inductive abstention := InsufficientEvidence | GenerationContractInvalid (code : string) | ProviderRefused | ModelAbstained.

(** an event: its type and its payload *)
Inductive run_event :=
| RunStarted (mode : string)
| PlanReady (intent : string) (lanes : list string) (variants : nat)
| LaneStarted (lane : string)
| LaneCompleted (lane : string) (candidates : nat) (timing_ms : Z)
| FusionCompleted (fused_count : nat) (decisions : list decision)
| RerankCompleted (reranker : string) (decisions : list decision)
| ContextSelected (accepted : list string) (context_items : Z) (occurred_at : string)
| ClaimGenerated (ord : Z) (citations : nat)
| CitationVerified (claim_ord : Z) (item_id : string) (status : citation_status) (numeric_checks : list (string * bool))
| RunAbstained (reason : abstention) (generation : audit)
| RunCompleted (generation : audit)
| RunFailed (error : envelope) (generation : option audit)
| RunCancelled.

Record budget_usage := BudgetUsage { bu_context_items : nat; bu_context_tokens : Z; bu_input_tokens : Z; bu_output_tokens : Z }.

(** the columns of [retrieval_runs] the role may update; [r_finished]: [finished_at] is set *)
Record run_row := RunRow {
  r_status : run_status; r_finished : bool; r_budget_usage : option budget_usage; r_timings_ms : list (string * Z); r_cost_usd : decimal; r_error : option envelope;
}.

Record candidate_row := CandidateRow {
  cr_id : string; cr_item : string; cr_lane : string; cr_variant_index : Z; cr_lane_rank : Z; cr_raw_score : string; cr_rrf_contribution : string;
  cr_fused_score : string; cr_fused_rank : Z; cr_accepted : bool; cr_rejection_code : option string; cr_timing_ms : Z;
}.

Record claim_row := ClaimRow { cl_id : string; cl_ord : Z; cl_text : string; cl_status : claim_status; cl_confidence : option string; cl_calculation_lineage : payload }.

Record citation_row := CitationRow {
  ct_id : string; ct_claim_id : string; ct_item : string; ct_source_span_id : string; ct_status : citation_status;
  ct_verifier : option string; ct_model : option string; ct_version : option string; ct_numeric_checks : list (string * bool); ct_rationale : option string;
}.

Record database := Database {
  d_run : run_row; d_events : list (Z * run_event); d_candidates : list candidate_row; d_claims : list claim_row; d_citations : list citation_row;
  d_usage : list (string * decimal);
}.

(** a row of [retrieval_items], joined with its document and its fact *)
Record item_row := ItemRow {
  ir_kind : string; ir_content : string; ir_source_span_id : string; ir_document_version_id : string; ir_financial_fact_id : option string;
  ir_period : option string; ir_value : option decimal; ir_unit : option string; ir_scale : option Z;
  ir_token_count : Z; ir_index_version_id : string; ir_published_at : Z;
}.

(** * The exceptions of a run *)

Inductive run_error :=
| UnsupportedEmbeddingProvider (provider model : string)
| UnsupportedGenerationProvider (provider model : string)
| BadTimestamp                                   (** [ValueError] of [fromisoformat] *)
| PlanIndexError
| LaneError (e : fusion_error)
| LanesPending                                   (** a lane has not returned: not reached *)
| MissingTiming (lane : string)                  (** [KeyError] *)
| IncompleteFact (item_id : string) (missing : list string)
| GenerationError (e : generation_error)
| VerificationError (e : verification_error)
| CostError (e : cost_error)
| DatabaseError (message : string).

Record run_usage := RunUsage { u_cost_usd : decimal; u_generation : option audit }.

(** [w_seq] is the writer's counter, [w_uuids] the number of [uuid4] calls *)
Record world := World { w_db : database; w_seq : Z; w_usage : run_usage; w_uuids : nat }.

Notation pipeline := (eff world run_error).

(** * The guards *)

Definition legal_move (old new : run_status) : bool :=
  match old, new with
  | Queued, Planning | Planning, Retrieving | Retrieving, Fusing | Fusing, Generating | Generating, Verifying | Verifying, Succeeded | Verifying, Abstained => true
  | _, Failed | _, Cancelled => true
  | _, _ => false
  end.

(** the event a terminal status requires to be the latest *)
Definition announces (s : run_status) (e : option run_event) : bool :=
  match s, e with
  | Succeeded, Some (RunCompleted _) | Abstained, Some (RunAbstained _ _) | Failed, Some (RunFailed _ _) | Cancelled, Some RunCancelled => true
  | (Succeeded | Abstained | Failed | Cancelled), _ => false
  | _, _ => true
  end.

Definition max_seq (events : list (Z * run_event)) : Z := foldr (λ e m, Z.max e.1 m) 0 events.

(** [ORDER BY seq DESC LIMIT 1] *)
Definition latest_event (events : list (Z * run_event)) : option run_event :=
  snd <$> head (filter (λ e, e.1 = max_seq events) events).

Section store.
Context (corpus : string → option item_row) (query_index : string) (cutoff : Z) (uuid4 : nat → string).

(** a value assigned to a column [numeric(12, 6)]: rounded to six places, half away
    from zero, and refused from a million *)
Definition numeric_12_6 (d : decimal) : result string decimal :=
  let r := if -6 <=? d_exp d then d else rescale_half_up d (-6) in
  if dec_ltb (dec_abs r) (Dec false 1 6) then Ok r else Err "numeric field overflow"%string.

Definition with_cost (cost : decimal) (r : run_row) : run_row :=
  RunRow (r_status r) (r_finished r) (r_budget_usage r) (r_timings_ms r) cost (r_error r).

(** the type of [cost_usd], [fel_guard_retrieval_run] and the checks of the table *)
Definition update_run (f : run_row → run_row) (d : database) : result string database :=
  let old := d_run d in
  cost ← numeric_12_6 (r_cost_usd (f old));
  let new := with_cost cost (f old) in
  if terminal (r_status old) then Err "terminal retrieval runs are immutable"%string
  else if negb (bool_decide (r_status new = r_status old) || legal_move (r_status old) (r_status new)) then Err "illegal retrieval run transition"%string
  else if negb (bool_decide (r_status new = r_status old) || announces (r_status new) (latest_event (d_events d))) then Err "terminal run status requires final event"%string
  else if negb (eqb (r_finished new) (terminal (r_status new))) then Err "check violation: finished_at"%string
  else if negb (dec_leb dec_zero (r_cost_usd new)) then Err "check violation: cost_usd"%string
  else Ok (Database new (d_events d) (d_candidates d) (d_claims d) (d_citations d) (d_usage d)).

(** [fel_guard_retrieval_event] *)
Definition insert_event (seq : Z) (e : run_event) (d : database) : result string database :=
  if terminal (r_status (d_run d)) then Err "cannot append event after its run is terminal"%string
  else if negb (seq =? max_seq (d_events d) + 1) then Err "event sequence"%string
  else Ok (Database (d_run d) (d_events d ++ [(seq, e)]) (d_candidates d) (d_claims d) (d_citations d) (d_usage d)).

Definition admissible (item_id : string) : bool :=
  match corpus item_id with Some row => bool_decide (ir_index_version_id row = query_index) && (ir_published_at row <=? cutoff) | None => false end.

Definition candidate_key (r : candidate_row) : string * Z * string := (cr_lane r, cr_variant_index r, cr_item r).

(** [fel_guard_candidate], the checks and the unique key of the table *)
Definition insert_candidate (r : candidate_row) (d : database) : result string database :=
  if terminal (r_status (d_run d)) then Err "cannot append run child after its run is terminal"%string
  else if negb (admissible (cr_item r)) then Err "candidate item index or publication"%string
  else if negb (bool_decide (cr_lane r ∈ LANE_ORDER) && (0 <=? cr_variant_index r) && (cr_variant_index r <=? 3) && (1 <=? cr_lane_rank r)
                && (1 <=? cr_fused_rank r) && (0 <=? cr_timing_ms r)) then Err "check violation: retrieval_candidates"%string
  else if decide (candidate_key r ∈ candidate_key <$> d_candidates d) then Err "duplicate key: retrieval_candidates"%string
  else Ok (Database (d_run d) (d_events d) (d_candidates d ++ [r]) (d_claims d) (d_citations d) (d_usage d)).

(** [fel_guard_run_child] and the unique key of the table *)
Definition insert_claim (r : claim_row) (d : database) : result string database :=
  if terminal (r_status (d_run d)) then Err "cannot append run child after its run is terminal"%string
  else if negb (0 <=? cl_ord r) then Err "check violation: claims"%string
  else if decide (cl_ord r ∈ cl_ord <$> d_claims d) then Err "duplicate key: claims"%string
  else Ok (Database (d_run d) (d_events d) (d_candidates d) (d_claims d ++ [r]) (d_citations d) (d_usage d)).

(** [fel_guard_citation] and the foreign keys of the table *)
Definition insert_citation (r : citation_row) (d : database) : result string database :=
  if terminal (r_status (d_run d)) then Err "cannot append run child after its run is terminal"%string
  else if negb (existsb (λ c, cr_accepted c && bool_decide (cr_item c = ct_item r)) (d_candidates d)) then Err "citation item must be accepted by the same run"%string
  else if negb (bool_decide (ir_source_span_id <$> corpus (ct_item r) = Some (ct_source_span_id r))) then Err "foreign key violation: retrieval_items"%string
  else if negb (bool_decide (ct_claim_id r ∈ cl_id <$> d_claims d)) then Err "foreign key violation: claims"%string
  else Ok (Database (d_run d) (d_events d) (d_candidates d) (d_claims d) (d_citations d ++ [r]) (d_usage d)).

(** a row of [usage_events], whose [cost_usd] has the same type *)
Definition insert_usage (kind : string) (cost : decimal) (d : database) : result string database :=
  cost ← numeric_12_6 cost;
  if negb (dec_leb dec_zero cost) then Err "check violation: usage_events"%string
  else Ok (Database (d_run d) (d_events d) (d_candidates d) (d_claims d) (d_citations d) (d_usage d ++ [(kind, cost)])).

(** one statement on the connection *)
Definition execute (f : database → result string database) : pipeline unit := λ w,
  match f (w_db w) with
  | Ok d => (Ok tt, World d (w_seq w) (w_usage w) (w_uuids w))
  | Err m => (Err (DatabaseError m), w)
  end.

Definition fresh_uuid : pipeline string := λ w, (Ok (uuid4 (w_uuids w)), World (w_db w) (w_seq w) (w_usage w) (S (w_uuids w))).

(** * [_RunWriter] *)

Definition emit (e : run_event) : pipeline unit := λ w,
  let w := World (w_db w) (w_seq w + 1) (w_usage w) (w_uuids w) in execute (insert_event (w_seq w) e) w.

Definition set_status (s : run_status) : pipeline unit :=
  execute (update_run (λ r, RunRow s (r_finished r) (r_budget_usage r) (r_timings_ms r) (r_cost_usd r) (r_error r))).

Definition finish (s : run_status) (usage : budget_usage) (timings : list (string * Z)) (cost : decimal) : pipeline unit :=
  execute (update_run (λ r, RunRow s true (Some usage) timings cost (r_error r))).

Definition finish_succeeded := finish Succeeded.
Definition finish_abstained := finish Abstained.

Definition fail (error : envelope) (cost : decimal) (generation : option audit) : pipeline unit :=
  emit (RunFailed error generation) ≫= λ _,
  execute (update_run (λ r, RunRow Failed true (r_budget_usage r) (r_timings_ms r) cost (Some error))).

Definition record_run_usage (kind : string) (cost : decimal) : pipeline unit := execute (insert_usage kind cost).

(** * Candidates, context and claims *)

Definition candidate_row_of (id : string) (accepted : list string) (timing : Z) (c : fused_candidate) (k : contribution) : candidate_row :=
  let is_accepted := bool_decide (f_item_id c ∈ accepted) in
  CandidateRow id (f_item_id c) (c_lane k) (variant_index k) (c_lane_rank k) (c_raw_score k) (rrf_contribution k) (fused_score c) (fused_rank c)
    is_accepted (if is_accepted then None else Some "beyond_context_budget"%string) timing.

Definition persist_contribution (accepted : list string) (lane_timings : list (string * Z)) (c : fused_candidate) (k : contribution) : pipeline unit :=
  id ← fresh_uuid;
  timing ← pure (from_option_err (MissingTiming (c_lane k)) (dict_get (c_lane k) lane_timings));
  execute (insert_candidate (candidate_row_of id accepted timing c k)).

Definition _persist_candidates (candidates : list fused_candidate) (accepted : list string) (lane_timings : list (string * Z)) : pipeline unit :=
  for_loop (λ c, for_loop (persist_contribution accepted lane_timings c) (contributions c)) candidates.

Definition _context_tokens (item_ids : list string) : Z :=
  foldr (λ i n, match corpus i with Some row => ir_token_count row + n | None => n end) 0 (dict_fromkeys item_ids).

Definition absent (s : option string) : bool := match s with None | Some EmptyString => true | _ => false end.

Definition _numeric_from_fact_row (item_id : string) (row : item_row) : result run_error (option numeric_tuple) :=
  match ir_financial_fact_id row with
  | None => Ok None
  | Some _ =>
      let missing := ((if ir_value row then [] else ["value"%string]) ++ (if absent (ir_unit row) then ["unit"%string] else []) ++
                      (if absent (ir_period row) then ["period"%string] else []) ++ (if ir_scale row then [] else ["scale"%string]))%list in
      match ir_value row, ir_unit row, ir_period row, ir_scale row, missing with
      | Some v, Some unit, Some period, Some scale, [] => n ← map_err GenerationError (make_numeric v unit period scale); Ok (Some n)
      | _, _, _, _, _ => Err (IncompleteFact item_id missing)
      end
  end.

Definition context_item_of (item_id : string) (row : item_row) : result run_error context_item :=
  numeric ← _numeric_from_fact_row item_id row;
  Ok (ContextItem item_id (ir_kind row) (ir_content row) (ir_source_span_id row) (ir_document_version_id row) (ir_financial_fact_id row) numeric).

Definition _load_context_items (accepted : list string) : result run_error (list context_item) :=
  mapM (λ p, context_item_of p.1 p.2) (omap (M := list) (λ i, (λ row, (i, row)) <$> corpus i) accepted).

Definition citation_row_of (id claim_id : string) (c : claim_citation) : citation_row :=
  CitationRow id claim_id (cc_item_id c) (cc_source_span_id c) (cc_status c) (cc_verifier c) (cc_model c) (cc_version c) (cc_numeric_checks c) (cc_rationale c).

Definition persist_claim (claim : generated_claim) : pipeline unit :=
  claim_id ← fresh_uuid;
  _ ← execute (insert_claim (ClaimRow claim_id (gc_ord claim) (gc_text claim) (gc_status claim) (format_f <$> gc_confidence claim) (gc_calculation_lineage claim)));
  for_loop (λ c, id ← fresh_uuid; execute (insert_citation (citation_row_of id claim_id c))) (gc_citations claim).

Definition _persist_claims (claims : list generated_claim) : pipeline unit := for_loop persist_claim claims.
End store.
