(* ===== verification/RetrievalRun.v ===== *)
(** [apps/api/app/retrieval_pipeline.py] and the failure path of
    [apps/api/app/retrieval.py]: one retrieval run, from its plan to its terminal
    trace.

    Parameters are what the run calls: the lanes' SQL (which returns or raises), the embedder, the provider,
    the clock's readings, [uuid4] and the texts of exceptions.

    What a retrieval run leaves: the invariants its tables enforce, the terminal
    status every run reaches, and what a failed run keeps. *)

From Stdlib Require Import QArith Lqa.
From S2P Require Import Prelude Dicts Text Decimals Periods Canonical Moments Payload Effects Fusion FusionRanking Generation Verification Costs Planner RetrievalStore.
Local Open Scope Z_scope.

Definition GENERATION_PROVIDER : string := "mock".
Definition GENERATION_MODEL : string := "mock-structured-v1".
Definition MAX_OUTPUT_TOKENS : Z := 1024.

Record lane_query {V} := LaneQuery {
  lq_index_version_id : string; lq_as_of : moment; lq_query_text : string; lq_query_vector : option V; lq_entity_id : string;
  lq_forms : option (list string); lq_periods : option (list string); lq_corpus_version_id : string; lq_top_k : Z;
}.
Arguments lane_query : clear implicits.
Arguments LaneQuery {V}.

(** [filters.get(name) or None] *)
Definition or_none (l : list string) : option (list string) := match l with [] => None | _ => Some l end.

Section run.
Context {V : Type} (embed : string → V) (lane_fn : string → lane_query V → lane_call).
Context (generate_structured : llm_request → structured_result) (prices : cost_settings).
Context (corpus : string → option item_row) (query_index : string) (cutoff : Z).
Context (lane_ms phase_ms : string → Z) (stamp : string) (uuid4 : nat → string) (exc_text : run_error → string).

Definition _resolve_embedding_provider (provider model : string) : result run_error unit :=
  ensure (bool_decide (provider = "mock"%string)) (UnsupportedEmbeddingProvider provider model).

Definition _resolve_generation_provider (provider model : string) : result run_error (llm_request → structured_result) :=
  _ ← ensure (bool_decide (provider = "mock"%string)) (UnsupportedGenerationProvider provider model); Ok generate_structured.

Definition _parse_iso (v : string) : result run_error moment := from_option_err BadTimestamp (fromisoformat (utc_suffix v)).

Definition first_of (l : list string) : result run_error string := from_option_err PlanIndexError (head l).

Definition _lane_query (plan : query_plan) (effective_as_of : moment) : result run_error (lane_query V) :=
  query_text ← first_of (qp_variants plan);
  entity_id ← first_of (qp_entity_ids plan);
  Ok (LaneQuery (qp_index_version_id plan) effective_as_of query_text (if decide ("dense"%string ∈ qp_lanes plan) then Some (embed query_text) else None)
        entity_id (or_none (pf_forms (qp_filters plan))) (or_none (pf_periods (qp_filters plan))) (qp_corpus_version_id plan) (lane_top_k (qp_budgets plan))).

(** every lane returns or raises; in which order does not show in the result
    ([FusionRanking.fusion_deterministic]), so they are completed in the order of
    their submission, and none is pending *)
Definition run_lanes (lanes : list string) (query : lane_query V) : result run_error (dict (list lane_candidate)) :=
  match execute_lanes ((λ lane, (lane, lane_fn lane query)) <$> lanes) (seq 0 (length lanes)) with
  | None => Err LanesPending
  | Some r => map_err LaneError r
  end.

Definition _decision_dict (s : string) (d : decision) : decision := RetrievalDecision (stage d) (code d) (item_ids d) (decision_detail d) (Some s).

Definition audit_of (r : structured_result) : audit := Audit (sr_provider r) (sr_model r) (sr_response_id r) (dec_to_string (sr_cost r)).

(** [generator.generate], its contract errors taken for their usage *)
Definition generated_or_rejected (question : string) (context : list context_item) (as_of : string) (provider : llm_request → structured_result)
    : result run_error (generation_result * option string) :=
  match generate provider MAX_OUTPUT_TOKENS false question context as_of with
  | Ok g => Ok (g, None)
  | Err (GenerationContractError code message, Some usage) => Ok (usage, Some code)
  | Err (e, _) => Err (GenerationError e)
  end.

Definition abstention_of (rejection : option string) (g : generation_result) : abstention :=
  match rejection with
  | Some code => GenerationContractInvalid code
  | None => if gr_refused g then ProviderRefused else if gr_abstained g then ModelAbstained else InsufficientEvidence
  end.

Definition PHASES : list string := ["planning"; "retrieving"; "fusing"; "generating"; "verifying"]%string.
Definition timings_ms : list (string * Z) :=
  ((λ p, (p, phase_ms p)) <$> PHASES) ++ [("total"%string, foldr (λ p n, phase_ms p + n) 0 PHASES)].

Definition lanes_of_plan (plan : query_plan) : list string := filter (λ l, l ∈ qp_lanes plan) LANE_ORDER.

Definition set_usage (u : run_usage) : pipeline unit := writes (λ w, World (w_db w) (w_seq w) u (w_uuids w)).

Definition citation_event (claim : generated_claim) (c : claim_citation) : run_event :=
  CitationVerified (gc_ord claim) (cc_item_id c) (cc_status c) (cc_numeric_checks c).

(** ** The phases *)

Definition planning_phase (plan : query_plan) (mode : string) : pipeline unit :=
  _ ← set_status Planning;
  _ ← emit (RunStarted mode);
  emit (PlanReady (qp_intent plan) (qp_lanes plan) (length (qp_variants plan))).

Definition retrieving_phase (plan : query_plan) (as_of : moment) : pipeline (dict (list lane_candidate)) :=
  let lanes := lanes_of_plan plan in
  _ ← set_status Retrieving;
  query ← pure (_lane_query plan as_of);
  _ ← for_loop (λ l, emit (LaneStarted l)) lanes;
  results ← pure (run_lanes lanes query);
  _ ← for_loop (λ l, hits ← pure (from_option_err (LaneError KeyError) (dict_get l results)); emit (LaneCompleted l (length hits) (lane_ms l))) lanes;
  mret results.

Definition fusing_phase (plan : query_plan) (results : dict (list lane_candidate)) : pipeline (list string) :=
  _ ← set_status Fusing;
  fusion ← pure (map_err LaneError (fuse results (fused_top_k (qp_budgets plan)) NoopReranker None));
  let budget := context_items (qp_budgets plan) in
  let accepted := f_item_id <$> take (Z.to_nat budget) (candidates fusion) in
  let decisions (p : string → bool) := _decision_dict stamp <$> filter (λ d, p (stage d) = true) (decisions fusion) in
  _ ← emit (FusionCompleted (length (candidates fusion)) (decisions (λ s, bool_decide (s ∈ ["dedupe"; "fusion"]%string))));
  _ ← emit (RerankCompleted "noop" (decisions (λ s, bool_decide (s = "rerank"%string))));
  _ ← _persist_candidates corpus query_index cutoff uuid4 (candidates fusion) accepted ((λ l, (l, lane_ms l)) <$> lanes_of_plan plan);
  _ ← emit (ContextSelected accepted budget stamp);
  mret accepted.

Definition generating_phase (plan : query_plan) (accepted : list string) : pipeline (list context_item * generation_result * option string) :=
  _ ← set_status Generating;
  context ← pure (_load_context_items corpus accepted);
  provider ← pure (_resolve_generation_provider GENERATION_PROVIDER GENERATION_MODEL);
  question ← pure (first_of (qp_variants plan));
  '(generation, rejection) ← pure (generated_or_rejected question context (qp_effective_as_of plan) provider);
  cost ← pure (map_err CostError (token_cost_usd prices (sr_input_tokens (gr_usage generation)) (sr_output_tokens (gr_usage generation))));
  _ ← set_usage (RunUsage cost (Some (audit_of (gr_usage generation))));
  _ ← for_loop (λ c, emit (ClaimGenerated (gc_ord c) (length (gc_citations c)))) (gr_claims generation);
  mret (context, generation, rejection).

Definition verifying_phase (context : list context_item) (generation : generation_result) : pipeline (list generated_claim) :=
  _ ← set_status Verifying;
  claims ← pure (map_err VerificationError (verify_claims (gr_claims generation) context));
  _ ← for_loop (λ claim, for_loop (λ c, emit (citation_event claim c)) (gc_citations claim)) claims;
  _ ← _persist_claims corpus uuid4 claims;
  mret claims.

Definition _execute_pipeline (plan : query_plan) (mode embedding_provider embedding_model : string) : pipeline (budget_usage * decimal) :=
  _ ← pure (_resolve_embedding_provider embedding_provider embedding_model);
  as_of ← pure (_parse_iso (qp_effective_as_of plan));
  _ ← planning_phase plan mode;
  results ← retrieving_phase plan as_of;
  accepted ← fusing_phase plan results;
  '(context, generation, rejection) ← generating_phase plan accepted;
  claims ← verifying_phase context generation;
  let r := gr_usage generation in
  let usage := BudgetUsage (length accepted) (_context_tokens corpus accepted) (sr_input_tokens r) (sr_output_tokens r) in
  cost ← reads (λ w, u_cost_usd (w_usage w));
  _ ← (if should_abstain claims then
         _ ← emit (RunAbstained (abstention_of rejection generation) (audit_of r)); finish_abstained usage timings_ms cost
       else
         _ ← emit (RunCompleted (audit_of r)); finish_succeeded usage timings_ms cost);
  mret (usage, cost).

(** * Durable failure *)

Definition _failure_envelope (e : run_error) : envelope :=
  Envelope
    match e with
    | UnsupportedEmbeddingProvider _ _ => "EMBEDDING_PROVIDER_UNAVAILABLE"
    | LaneError (LaneExecutionError _ _) => "LANE_EXECUTION_FAILED"
    | VerificationError (CitationIntegrityError code _) => code
    | _ => "PIPELINE_FAILED"
    end (exc_text e).

(** [with tenant_connection(ctx)]: the writes of a body that raises are undone.  The
    body has a writer of its own; the usage it shares with the caller stays *)
Definition transaction {A} (m : pipeline A) : pipeline A := λ w,
  match m (World (w_db w) 0 (w_usage w) (w_uuids w)) with
  | (Ok a, w') => (Ok a, w')
  | (Err e, w') => (Err e, World (w_db w) (w_seq w') (w_usage w') (w_uuids w'))
  end.

Definition _record_run_failure (e : run_error) (usage_kind : string) : pipeline unit :=
  u ← reads w_usage;
  transaction (
    _ ← fail (_failure_envelope e) (u_cost_usd u) (u_generation u);
    if dec_ltb dec_zero (u_cost_usd u) then record_run_usage usage_kind (u_cost_usd u) else mret tt).

Definition _run_pipeline_or_fail (plan : query_plan) (mode embedding_provider embedding_model usage_kind : string) : pipeline unit :=
  _ ← set_usage (RunUsage dec_zero None);
  try_except (λ _, true)
    (transaction ('(_, cost) ← _execute_pipeline plan mode embedding_provider embedding_model; record_run_usage usage_kind cost))
    (λ e, _record_run_failure e usage_kind).
End run.

(** * Every run settles *)
(** * Numbered events *)

Definition numbered (l : list run_event) : list (Z * run_event) := imap (λ i e, (Z.of_nat i + 1, e)) l.

Lemma numbered_snoc l e : numbered (l ++ [e]) = numbered l ++ [(Z.of_nat (length l) + 1, e)].
Proof. unfold numbered. rewrite imap_app. cbn. by rewrite Nat.add_0_r. Qed.


Lemma max_seq_snoc l n e : max_seq (l ++ [(n, e)]) = Z.max (max_seq l) (Z.max n 0).
Proof. induction l as [|x l IH]; cbn; [lia|]. unfold max_seq in IH. rewrite IH. lia. Qed.

Lemma max_seq_numbered l : max_seq (numbered l) = Z.of_nat (length l).
Proof. induction l as [|e l IH] using rev_ind; [done|]. rewrite numbered_snoc, max_seq_snoc, IH, length_app. cbn. lia. Qed.

Lemma numbered_le l x : x ∈ numbered l → x.1 ≤ Z.of_nat (length l).
Proof. unfold numbered. intros (i & y & -> & Hi)%elem_of_lookup_imap_1. apply lookup_lt_Some in Hi. cbn. lia. Qed.

Lemma filter_none {A} (P : A → Prop) `{!∀ x, Decision (P x)} l : (∀ x, x ∈ l → ¬ P x) → filter P l = [].
Proof. induction l as [|x l IH]; intros Hn; [done|]. rewrite filter_cons, decide_False by (apply Hn, list_elem_of_here). apply IH. intros y Hy. by apply Hn, list_elem_of_further. Qed.

Lemma latest_numbered l e : latest_event (numbered (l ++ [e])) = Some e.
Proof.
  unfold latest_event. rewrite max_seq_numbered, length_app, numbered_snoc, filter_app, filter_cons. cbn [length fst].
  rewrite decide_True by lia. rewrite filter_nil, filter_none; [done|]. intros x Hx. apply numbered_le in Hx. lia.
Qed.

Lemma not_negative cost : d_sign cost = false → dec_leb dec_zero cost = true.
Proof.
  intros Hs. apply dec_leb_spec. rewrite (dq_zero false 0), dq_unfold.
  pose proof (q10_pos (d_exp cost)). unfold sval. rewrite Hs. assert (0 <= inject_Z (Z.of_N (d_coeff cost)))%Q by (change 0%Q with (inject_Z 0); rewrite <- Zle_Qle; lia). nra.
Qed.

(** * What the tables enforce *)

Section safe.
Context (corpus : string → option item_row) (query_index : string) (cutoff : Z) (uuid4 : nat → string).

Record database_ok (d : database) : Prop := DatabaseOk {
  do_events : ∃ l, d_events d = numbered l;
  do_status : announces (r_status (d_run d)) (latest_event (d_events d)) = true;
  do_finished : r_finished (d_run d) = terminal (r_status (d_run d));
  do_cost : dec_leb dec_zero (r_cost_usd (d_run d)) = true;
  do_candidates : NoDup (candidate_key <$> d_candidates d) ∧ Forall (λ r, admissible corpus query_index cutoff (cr_item r) = true) (d_candidates d);
  do_claims : NoDup (cl_ord <$> d_claims d);
  do_citations : Forall (λ r, (∃ c, c ∈ d_candidates d ∧ cr_accepted c = true ∧ cr_item c = ct_item r) ∧ ct_claim_id r ∈ cl_id <$> d_claims d ∧
      ir_source_span_id <$> corpus (ct_item r) = Some (ct_source_span_id r)) (d_citations d);
}.

(** a cost of at most six places is stored as it is *)
Lemma numeric_12_6_exact d r : -6 ≤ d_exp d → numeric_12_6 d = Ok r → r = d.
Proof using Type. unfold numeric_12_6. intros He. rewrite (proj2 (Z.leb_le _ _) He). cbv zeta. case_match; [by intros [= <-]|done]. Qed.

Lemma update_run_ok f d d' : update_run f d = Ok d' → database_ok d →
  database_ok d' ∧ (∃ cost, numeric_12_6 (r_cost_usd (f (d_run d))) = Ok cost ∧ d_run d' = with_cost cost (f (d_run d))) ∧ d_usage d' = d_usage d.
Proof.
  unfold update_run. intros H [He Hs Hf Hc Hk Hl Ht]. destruct (numeric_12_6 _) as [cost|m] eqn:Hcost; [|done]. cbn [mbind result_bind] in H. cbv zeta in H.
  assert (∀ r, r_status (with_cost cost r) = r_status r ∧ r_finished (with_cost cost r) = r_finished r) as Hw by done.
  destruct (Hw (f (d_run d))) as [Hws Hwf]. rewrite Hws, Hwf in H.
  repeat case_match; try done. injection H as <-. split; [|split; [by exists cost|done]]. btrue. split; cbn; try done; try congruence.
  - match goal with H : _ || _ = true |- _ => apply orb_true_iff in H as [H|H]; [apply bool_decide_eq_true in H; rewrite H|exact H] end. done.
  - by apply eqb_prop.
Qed.

Lemma insert_event_ok n e d d' : insert_event n e d = Ok d' → database_ok d → database_ok d' ∧ d_run d' = d_run d ∧ d_usage d' = d_usage d.
Proof.
  unfold insert_event. intros H [[l He] Hs Hf Hc Hk Hl Ht]. repeat case_match; try done. injection H as <-. split; [|done]. btrue.
  match goal with H : (n =? _) = true |- _ => apply Z.eqb_eq in H as -> end. rewrite He, max_seq_numbered in *. split; cbn; try done; try congruence.
  - exists (l ++ [e]). by rewrite numbered_snoc.
  - match goal with H : terminal _ = false |- _ => revert H end. by destruct (r_status (d_run d)).
Qed.

Lemma insert_candidate_ok r d d' : insert_candidate corpus query_index cutoff r d = Ok d' → database_ok d → database_ok d' ∧ d_run d' = d_run d ∧ d_usage d' = d_usage d.
Proof.
  unfold insert_candidate. intros H [He Hs Hf Hc [Hk Hka] Hl Ht]. repeat case_match; try done. injection H as <-. split; [|done]. split; cbn; try done; try congruence.
  - split; [|apply Forall_app; split; [done|]; constructor; [by btrue|constructor]].
    rewrite fmap_app. apply NoDup_app. split; [done|]. split; [|apply NoDup_singleton]. intros x Hx Hy. cbn in Hy. apply list_elem_of_singleton in Hy as ->. done.
  - eapply Forall_impl; [exact Ht|]. intros t ((c & Hin & Ha) & Hrest). split; [|done]. exists c. split; [|done]. apply elem_of_app. by left.
Qed.

Lemma insert_claim_ok r d d' : insert_claim r d = Ok d' → database_ok d → database_ok d' ∧ d_run d' = d_run d ∧ d_usage d' = d_usage d.
Proof.
  unfold insert_claim. intros H [He Hs Hf Hc Hk Hl Ht]. repeat case_match; try done. injection H as <-. split; [|done]. split; cbn; try done; try congruence.
  - rewrite fmap_app. apply NoDup_app. split; [done|]. split; [|apply NoDup_singleton]. intros x Hx Hy. cbn in Hy. apply list_elem_of_singleton in Hy as ->. done.
  - eapply Forall_impl; [exact Ht|]. intros t (Hcand & Hin & Hspan). split; [done|]. split; [|done]. rewrite fmap_app. apply elem_of_app. by left.
Qed.

Lemma insert_citation_ok r d d' : insert_citation corpus r d = Ok d' → database_ok d → database_ok d' ∧ d_run d' = d_run d ∧ d_usage d' = d_usage d.
Proof.
  unfold insert_citation. intros H [He Hs Hf Hc Hk Hl Ht]. repeat case_match; try done. injection H as <-. split; [|done]. btrue. split; cbn; try done; try congruence.
  apply Forall_app. split; [done|]. constructor; [|constructor]. split; [|done].
  match goal with H : existsb _ _ = true |- _ => apply existsb_exists in H as (c & Hin & Hb) end. btrue. exists c. split; [by apply list_elem_of_In|done].
Qed.

(** metering fails only when the column cannot hold the cost *)
Lemma insert_usage_ok kind cost d : d_sign cost = false → -6 ≤ d_exp cost →
  insert_usage kind cost d = match numeric_12_6 cost with
    | Ok _ => Ok (Database (d_run d) (d_events d) (d_candidates d) (d_claims d) (d_citations d) (d_usage d ++ [(kind, cost)]))
    | Err m => Err m
    end.
Proof using Type.
  intros Hs He. unfold insert_usage. destruct (numeric_12_6 cost) as [c|m] eqn:Hc; [|done]. apply numeric_12_6_exact in Hc as ->; [|done].
  cbn [mbind result_bind]. by rewrite not_negative.
Qed.

(** * Every statement keeps the tables in order *)

Section tidy.
Context (us : list (string * decimal)).

(** the usage rows are [us], and what the run reports is a number of millionths, not negative *)
Definition tidy (w : world) : Prop :=
  database_ok (w_db w) ∧ d_usage (w_db w) = us ∧ d_sign (u_cost_usd (w_usage w)) = false ∧ -6 ≤ d_exp (u_cost_usd (w_usage w)).

Lemma keeps_execute f : (∀ d d', f d = Ok d' → database_ok d → database_ok d' ∧ d_usage d' = d_usage d) → keeps tidy (execute f).
Proof.
  intros Hf w (Hw & Hu & Hs). unfold execute. destruct (f (w_db w)) eqn:H; cbn; [|done]. destruct (Hf _ _ H Hw) as [? Heq]. split; [done|]. cbn. by rewrite Heq.
Qed.

Lemma keeps_update f : keeps tidy (execute (update_run f)).
Proof. apply keeps_execute. intros d d' H Hd. by apply update_run_ok in H as (? & _ & ?). Qed.
Lemma keeps_candidate r : keeps tidy (execute (insert_candidate corpus query_index cutoff r)).
Proof. apply keeps_execute. intros d d' H Hd. by apply insert_candidate_ok in H as (? & _ & ?). Qed.
Lemma keeps_claim r : keeps tidy (execute (insert_claim r)).
Proof. apply keeps_execute. intros d d' H Hd. by apply insert_claim_ok in H as (? & _ & ?). Qed.
Lemma keeps_citation r : keeps tidy (execute (insert_citation corpus r)).
Proof. apply keeps_execute. intros d d' H Hd. by apply insert_citation_ok in H as (? & _ & ?). Qed.
Lemma keeps_emit e : keeps tidy (emit e).
Proof. intros w Hw. unfold emit. apply (keeps_execute (insert_event (w_seq w + 1) e)); [|exact Hw]. intros d d' H Hd. by apply insert_event_ok in H as (? & _ & ?). Qed.
Lemma keeps_uuid : keeps tidy (fresh_uuid uuid4).
Proof. by intros w Hw. Qed.
Lemma keeps_set_usage u : d_sign (u_cost_usd u) = false → -6 ≤ d_exp (u_cost_usd u) → keeps tidy (set_usage u).
Proof. by intros Hu He w (? & ? & _). Qed.

(** a value that a pure call returned *)
Lemma keeps_pure_bind {A B} (r : result run_error A) (f : A → pipeline B) : (∀ a, r = Ok a → keeps tidy (f a)) → keeps tidy (pure r ≫= f).
Proof. intros Hf w Hw. unfold mbind, eff_bind, pure. destruct r as [a|e]; [by apply Hf|done]. Qed.

Ltac tidy_up :=
  repeat first
  [ progress intros | progress cbv zeta
  | apply keeps_ret | apply keeps_pure | apply keeps_reads | apply keeps_raise
  | apply keeps_emit | apply keeps_uuid | apply keeps_update | apply keeps_candidate | apply keeps_claim | apply keeps_citation
  | apply keeps_for_loop | apply keeps_pure_bind | apply keeps_bind
  | match goal with |- keeps _ (match ?x with _ => _ end) => destruct x end ].

Section pipeline.
Context {V : Type} (embed : string → V) (lane_fn : string → lane_query V → lane_call).
Context (generate_structured : llm_request → structured_result) (prices : cost_settings).
Context (prices_in : d_sign (cost_per_1k_input_usd prices) = false) (prices_out : d_sign (cost_per_1k_output_usd prices) = false).
Context (lane_ms phase_ms : string → Z) (stamp : string) (exc_text : run_error → string).

Notation execute_pipeline := (_execute_pipeline embed lane_fn generate_structured prices corpus query_index cutoff lane_ms phase_ms stamp uuid4).
Notation run_pipeline_or_fail := (_run_pipeline_or_fail embed lane_fn generate_structured prices corpus query_index cutoff lane_ms phase_ms stamp uuid4 exc_text).

Lemma keeps_persist_candidates cands accepted timings : keeps tidy (_persist_candidates corpus query_index cutoff uuid4 cands accepted timings).
Proof using Type. unfold _persist_candidates, persist_contribution. tidy_up. Qed.

Lemma keeps_persist_claims claims : keeps tidy (_persist_claims corpus uuid4 claims).
Proof using Type. unfold _persist_claims, persist_claim. tidy_up. Qed.

Lemma keeps_planning plan mode : keeps tidy (planning_phase plan mode).
Proof using Type. unfold planning_phase, set_status. tidy_up. Qed.

Lemma keeps_retrieving plan as_of : keeps tidy (retrieving_phase embed lane_fn lane_ms plan as_of).
Proof using Type. unfold retrieving_phase, set_status. tidy_up. Qed.

Lemma keeps_fusing plan results : keeps tidy (fusing_phase corpus query_index cutoff lane_ms stamp uuid4 plan results).
Proof using Type. unfold fusing_phase, set_status. tidy_up; try apply keeps_persist_candidates. Qed.

Lemma keeps_generating plan accepted : keeps tidy (generating_phase generate_structured prices corpus plan accepted).
Proof using prices_in prices_out.
  unfold generating_phase, set_status. tidy_up. apply keeps_set_usage; cbn; match goal with H : map_err _ _ = Ok _ |- _ => apply map_err_Ok in H end; [by eapply token_cost_nonneg|by erewrite token_cost_exp].
Qed.

Lemma keeps_verifying context generation : keeps tidy (verifying_phase corpus uuid4 context generation).
Proof using Type. unfold verifying_phase, set_status. tidy_up; try apply keeps_persist_claims. Qed.

Lemma keeps_then {A B} (m : pipeline A) (f : A → pipeline B) (Q : result run_error B → world → Prop) :
  keeps tidy m → (∀ a, ends tidy (f a) Q) → (∀ e w, tidy w → Q (Err e) w) → ends tidy (m ≫= f) Q.
Proof using Type.
  intros Hm Hf HQ. apply (ends_bind _ _ _ (λ _, tidy)); [|done]. eapply ends_weaken; [exact Hm|done|]. intros [a|e] w Hw; [done|by apply HQ].
Qed.

(** a pipeline that returns has closed its run *)
Definition closed (r : result run_error (budget_usage * decimal)) (w : world) : Prop :=
  tidy w ∧ match r with
  | Ok (_, cost) => (r_status (d_run (w_db w)) = Succeeded ∨ r_status (d_run (w_db w)) = Abstained) ∧ (∃ stored, numeric_12_6 cost = Ok stored ∧ r_cost_usd (d_run (w_db w)) = stored) ∧ u_cost_usd (w_usage w) = cost
  | Err _ => True
  end.

Lemma finish_closes s usage timings cost w : tidy w → tidy (finish s usage timings cost w).2 ∧
  ((finish s usage timings cost w).1 = Ok tt → r_status (d_run (w_db (finish s usage timings cost w).2)) = s ∧
     (∃ stored, numeric_12_6 cost = Ok stored ∧ r_cost_usd (d_run (w_db (finish s usage timings cost w).2)) = stored) ∧ w_usage (finish s usage timings cost w).2 = w_usage w).
Proof using Type.
  intros Hw. split; [by apply keeps_update|]. unfold finish, execute. destruct (update_run _ (w_db w)) as [d|m] eqn:H; [|done].
  intros _. apply update_run_ok in H as (_ & (stored & Hst & Hrun) & _); [|by destruct Hw]. cbn. rewrite Hrun. cbn in Hst |- *. split_and!; eauto.
Qed.

Lemma pipeline_closes plan mode ep em : ends tidy (execute_pipeline plan mode ep em) closed.
Proof using prices_in prices_out.
  unfold _execute_pipeline. repeat (apply keeps_then; [by (apply keeps_pure || apply keeps_planning || apply keeps_retrieving || apply keeps_fusing || apply keeps_generating || apply keeps_verifying)| |done]; intros ?).
  case_match; case_match. subst. apply keeps_then; [apply keeps_verifying| |done]. intros claims. cbv zeta.
  intros w Hw. unfold mbind at 1, eff_bind at 1, reads at 1. cbn [fst snd].
  set (usage := BudgetUsage _ _ _ _). set (cost := u_cost_usd (w_usage w)). unfold mbind, eff_bind.
  assert (∀ s e, let m := match emit e w with (Ok _, s') => finish s usage (timings_ms phase_ms) cost s' | (Err e, s') => (Err e, s') end in
    (s = Succeeded ∨ s = Abstained) → closed (match m with (Ok _, w') => (Ok (usage, cost), w') | (Err e, w') => (Err e, w') end).1
      (match m with (Ok _, w') => (Ok (usage, cost), w') | (Err e, w') => (Err e, w') end).2) as H.
  { intros s e m Hs. subst m. pose proof (keeps_emit e w Hw) as He. assert (w_usage (emit e w).2 = w_usage w) as Hu.
    { unfold emit, execute. by destruct (insert_event _ _ _). }
    destruct (emit e w) as [[[]|x] w1]; cbn [fst snd] in *; [|done].
    destruct (finish_closes s usage (timings_ms phase_ms) cost w1 He) as [Ht Hf]. destruct (finish _ _ _ _ w1) as [[[]|x] w2]; cbn [fst snd] in *; [|done].
    split; [done|]. destruct (Hf eq_refl) as (-> & Hc & Hu2). split; [done|]. split; [done|]. by rewrite Hu2, Hu. }
  destruct (should_abstain claims); [apply (H Abstained)|apply (H Succeeded)]; tauto.
Qed.
End pipeline.
End tidy.

(** * Every run settles *)

(** a run that has just been admitted *)
Definition fresh_run : database := Database (RunRow Queued false None [] dec_zero None) [] [] [] [] [].

Lemma fresh_run_ok : database_ok fresh_run.
Proof. split; try done; [by exists []|split; constructor|constructor]. Qed.

(** what the terminal transaction leaves *)
Definition settled (usage_kind : string) (d : database) : Prop :=
  database_ok d ∧
  match r_status (d_run d) with
  | Succeeded | Abstained => d_usage d = [(usage_kind, r_cost_usd (d_run d))]
  | Failed =>
      d_candidates d = [] ∧ d_claims d = [] ∧ d_citations d = [] ∧
      (∃ e generation, d_events d = [(1, RunFailed e generation)] ∧ r_error (d_run d) = Some e) ∧
      d_usage d = if dec_ltb dec_zero (r_cost_usd (d_run d)) then [(usage_kind, r_cost_usd (d_run d))] else []
  | _ => False
  end.

Section settle.
Context {V : Type} (embed : string → V) (lane_fn : string → lane_query V → lane_call).
Context (generate_structured : llm_request → structured_result) (prices : cost_settings).
Context (lane_ms phase_ms : string → Z) (stamp : string) (exc_text : run_error → string).

Notation run_pipeline_or_fail := (_run_pipeline_or_fail embed lane_fn generate_structured prices corpus query_index cutoff lane_ms phase_ms stamp uuid4 exc_text).

(** the failure of an untouched run is recorded, unless its cost is too large for the column *)
Lemma failure_is_recorded e kind w : w_db w = fresh_run → d_sign (u_cost_usd (w_usage w)) = false → -6 ≤ d_exp (u_cost_usd (w_usage w)) →
  let '(r, w') := _record_run_failure exc_text e kind w in
  w_usage w' = w_usage w ∧
  match numeric_12_6 (u_cost_usd (w_usage w)) with
  | Ok _ => r = Ok tt ∧ settled kind (w_db w') ∧
      w_db w' = Database (RunRow Failed true None [] (u_cost_usd (w_usage w)) (Some (_failure_envelope exc_text e)))
        [(1, RunFailed (_failure_envelope exc_text e) (u_generation (w_usage w)))] [] [] []
        (if dec_ltb dec_zero (u_cost_usd (w_usage w)) then [(kind, u_cost_usd (w_usage w))] else [])
  | Err m => r = Err (DatabaseError m) ∧ w_db w' = fresh_run
  end.
Proof using Type.
  intros Hd Hs He. pose proof (not_negative _ Hs) as Hle. set (env := _failure_envelope exc_text e).
  set (d0 := Database (d_run fresh_run) [(1, RunFailed env (u_generation (w_usage w)))] [] [] [] []).
  set (d1 := Database (RunRow Failed true None [] (u_cost_usd (w_usage w)) (Some env)) (d_events d0) [] [] [] []).
  assert (update_run (λ r, RunRow Failed true (r_budget_usage r) (r_timings_ms r) (u_cost_usd (w_usage w)) (Some env)) d0 =
    match numeric_12_6 (u_cost_usd (w_usage w)) with Ok _ => Ok d1 | Err m => Err m end) as Hupd.
  { unfold update_run. cbn [d_run d0 fresh_run r_cost_usd]. destruct (numeric_12_6 _) as [c|m] eqn:Hc; [|done]. apply numeric_12_6_exact in Hc as ->; [|done].
    cbn. by rewrite Hle. }
  pose proof (insert_usage_ok kind _ d1 Hs He) as Hmeter.
  unfold _record_run_failure, transaction, fail, emit, record_run_usage, execute, reads, mbind, eff_bind. rewrite Hd. cbn [w_db w_seq w_usage w_uuids fst snd].
  change (insert_event (0 + 1) ?x fresh_run) with (Ok (E := string) (Database (d_run fresh_run) [(1, x)] [] [] [] [])). cbn [w_db w_seq w_usage w_uuids].
  fold env d0. rewrite Hupd. destruct (numeric_12_6 (u_cost_usd (w_usage w))) as [c|m]; cbn [w_db w_usage]; [|done].
  destruct (dec_ltb dec_zero (u_cost_usd (w_usage w))) eqn:Hlt; cbn [w_db w_usage]; [rewrite Hmeter; cbn [w_db w_usage]|].
  all: split; [done|]; split; [done|]; split; [|done]; split; [split; try done; [by eexists [_]|split; constructor|constructor]|].
  all: cbn; split_and!; try done; [by eexists _, _|by rewrite Hlt].
Qed.

End settle.
End safe.
