(* ===== verification/RetrievalTrace.v ===== *)
(** The trace of a retrieval run, written down without a database: what
    [_run_pipeline_or_fail] must leave, and the proof that it does.

    The lanes keep their promise: a lane returns at most [top_k] distinct items of
    the pinned index, published by the cutoff, under its own name and ranked from
    one. *)

From S2P Require Import Prelude Dicts Text Decimals Periods Canonical Moments Payload Effects Fusion FusionRanking Generation Verification Costs Planner RetrievalStore RetrievalRun.
Local Open Scope Z_scope.

Section trace.
Context {V : Type} (embed : string → V) (lane_fn : string → lane_query V → lane_call).
Context (generate_structured : llm_request → structured_result) (prices : cost_settings).
Context (corpus : string → option item_row) (query_index : string) (cutoff : Z).
Context (lane_ms phase_ms : string → Z) (stamp : string) (uuid4 : nat → string) (exc_text : run_error → string).

(** * The specification *)

Record run_trace := RunTrace {
  t_results : dict (list lane_candidate); t_fusion : fusion_result; t_accepted : list string; t_context : list context_item;
  t_generation : generation_result; t_rejection : option string; t_cost : decimal;
}.

(** up to the metering of the provider's call *)
Definition generated_spec (plan : query_plan) (provider model : string) : result run_error run_trace :=
  _ ← _resolve_embedding_provider provider model;
  as_of ← _parse_iso (qp_effective_as_of plan);
  query ← _lane_query embed plan as_of;
  results ← run_lanes lane_fn (lanes_of_plan plan) query;
  fusion ← map_err LaneError (fuse results (fused_top_k (qp_budgets plan)) NoopReranker None);
  let accepted := f_item_id <$> take (Z.to_nat (context_items (qp_budgets plan))) (candidates fusion) in
  context ← _load_context_items corpus accepted;
  question ← first_of (qp_variants plan);
  '(generation, rejection) ← generated_or_rejected question context (qp_effective_as_of plan) generate_structured;
  cost ← map_err CostError (token_cost_usd prices (sr_input_tokens (gr_usage generation)) (sr_output_tokens (gr_usage generation)));
  Ok (RunTrace results fusion accepted context generation rejection cost).

Definition run_spec (plan : query_plan) (provider model : string) : result run_error (run_trace * list generated_claim) :=
  t ← generated_spec plan provider model;
  claims ← map_err VerificationError (verify_claims (gr_claims (t_generation t)) (t_context t));
  Ok (t, claims).

(** what the provider reported, if it was called *)
Definition usage_spec (plan : query_plan) (provider model : string) : run_usage :=
  match generated_spec plan provider model with Ok t => RunUsage (t_cost t) (Some (audit_of (gr_usage (t_generation t)))) | Err _ => RunUsage dec_zero None end.

Definition decisions_at (t : run_trace) (p : string → bool) : list decision := _decision_dict stamp <$> filter (λ d, p (stage d) = true) (decisions (t_fusion t)).

Definition retrieval_events (plan : query_plan) (mode : string) (results : dict (list lane_candidate)) : list run_event :=
  [RunStarted mode; PlanReady (qp_intent plan) (qp_lanes plan) (length (qp_variants plan))] ++ (LaneStarted <$> lanes_of_plan plan) ++
  ((λ l, LaneCompleted l (length (default [] (dict_get l results))) (lane_ms l)) <$> lanes_of_plan plan).

Definition fusion_events (plan : query_plan) (t : run_trace) : list run_event :=
  [FusionCompleted (length (candidates (t_fusion t))) (decisions_at t (λ s, bool_decide (s ∈ ["dedupe"; "fusion"]%string)));
   RerankCompleted "noop" (decisions_at t (λ s, bool_decide (s = "rerank"%string)));
   ContextSelected (t_accepted t) (context_items (qp_budgets plan)) stamp].

Definition claim_events (t : run_trace) : list run_event := (λ c, ClaimGenerated (gc_ord c) (length (gc_citations c))) <$> gr_claims (t_generation t).
Definition citation_events (claims : list generated_claim) : list run_event := concat ((λ c, citation_event c <$> gc_citations c) <$> claims).

Definition terminal_event (t : run_trace) (claims : list generated_claim) : run_event :=
  let audit := audit_of (gr_usage (t_generation t)) in
  if should_abstain claims then RunAbstained (abstention_of (t_rejection t) (t_generation t)) audit else RunCompleted audit.

Definition trace_events (plan : query_plan) (mode : string) (t : run_trace) (claims : list generated_claim) : list run_event :=
  retrieval_events plan mode (t_results t) ++ fusion_events plan t ++ claim_events t ++ citation_events claims ++ [terminal_event t claims].

(** every contribution of every fused candidate *)
Definition contributions_of (cands : list fused_candidate) : list (fused_candidate * contribution) := concat ((λ c, (λ k, (c, k)) <$> contributions c) <$> cands).

Definition usage_of (t : run_trace) : budget_usage :=
  let r := gr_usage (t_generation t) in BudgetUsage (length (t_accepted t)) (_context_tokens corpus (t_accepted t)) (sr_input_tokens r) (sr_output_tokens r).

(** what a completed run leaves, up to the fresh ids *)
Definition completed (plan : query_plan) (mode usage_kind : string) (t : run_trace) (claims : list generated_claim) (d : database) : Prop :=
  d_run d = RunRow (if should_abstain claims then Abstained else Succeeded) true (Some (usage_of t)) (timings_ms phase_ms) (t_cost t) None ∧
  d_events d = numbered (trace_events plan mode t claims) ∧
  Forall2 (λ p r, r = candidate_row_of (cr_id r) (t_accepted t) (lane_ms (c_lane p.2)) p.1 p.2) (contributions_of (candidates (t_fusion t))) (d_candidates d) ∧
  Forall2 (λ c r, r = ClaimRow (cl_id r) (gc_ord c) (gc_text c) (gc_status c) (format_f <$> gc_confidence c) (gc_calculation_lineage c)) claims (d_claims d) ∧
  Forall2 (λ p r, r = citation_row_of (ct_id r) (cl_id p.1) p.2)
    (concat (zip_with (λ row c, (λ k, (row, k)) <$> gc_citations c) (d_claims d) claims)) (d_citations d) ∧
  d_usage d = [(usage_kind, t_cost t)].

(** what a failed run leaves *)
Definition failed_with (usage_kind : string) (e : run_error) (u : run_usage) : database :=
  let env := _failure_envelope exc_text e in
  Database (RunRow Failed true None [] (u_cost_usd u) (Some env)) [(1, RunFailed env (u_generation u))] [] [] []
    (if dec_ltb dec_zero (u_cost_usd u) then [(usage_kind, u_cost_usd u)] else []).

(** ** The promise of the lanes *)

Record lane_promise (top_k : Z) (l : string) (hits : list lane_candidate) : Prop := LanePromise {
  lp_hits : Forall (λ c, lane c = l ∧ 1 ≤ lane_rank c ∧ admissible corpus query_index cutoff (item_id c) = true) hits;
  lp_distinct : NoDup (item_id <$> hits);
  lp_top_k : Z.of_nat (length hits) ≤ top_k;
}.

Definition lanes_promise : Prop := ∀ l q hits, l ∈ LANE_ORDER → lane_fn l q = Ok hits → lane_promise (lq_top_k q) l hits.

(** * The tables in the middle of a run *)

Definition mk (s : run_status) (evs : list run_event) (c : list candidate_row) (cl : list claim_row) (ct : list citation_row) (u : run_usage) (n : nat) : world :=
  World (Database (RunRow s false None [] dec_zero None) (numbered evs) c cl ct []) (Z.of_nat (length evs)) u n.

Lemma emit_mk e s evs c cl ct u n : terminal s = false → emit e (mk s evs c cl ct u n) = (Ok tt, mk s (evs ++ [e]) c cl ct u n).
Proof.
  intros Hs. unfold emit, execute, insert_event, mk. cbn [w_db w_seq w_usage w_uuids d_run d_events r_status]. rewrite Hs, max_seq_numbered, Z.eqb_refl. cbn.
  by rewrite numbered_snoc, length_app, Nat2Z.inj_add.
Qed.

Lemma set_status_mk s s' evs c cl ct u n : legal_move s s' = true → terminal s = false → terminal s' = false →
  set_status s' (mk s evs c cl ct u n) = (Ok tt, mk s' evs c cl ct u n).
Proof.
  intros Hl Hs Hs'. unfold set_status, execute, update_run, mk. cbn [w_db w_seq w_usage w_uuids d_run d_events r_status r_finished r_cost_usd].
  change (numeric_12_6 dec_zero) with (Ok (E := string) dec_zero). cbn [mbind result_bind]. cbv zeta. cbn [with_cost r_status r_finished r_cost_usd r_budget_usage r_timings_ms r_error].
  rewrite Hs, Hl, orb_true_r, Hs'. cbn [negb eqb]. assert (announces s' (latest_event (numbered evs)) = true) as -> by (by destruct s'). by rewrite orb_true_r.
Qed.

Lemma for_loop_cons {A} (f : A → pipeline unit) x l w w' : f x w = (Ok tt, w') → for_loop f (x :: l) w = for_loop f l w'.
Proof. intros H. cbn [for_loop]. unfold mbind, eff_bind. by rewrite H. Qed.

Lemma emits_mk {A} (f : A → run_event) l s evs c cl ct u n : terminal s = false →
  for_loop (λ x, emit (f x)) l (mk s evs c cl ct u n) = (Ok tt, mk s (evs ++ (f <$> l)) c cl ct u n).
Proof.
  intros Hs. revert evs. induction l as [|x l IH]; intros evs; [by rewrite app_nil_r|]. rewrite (for_loop_cons _ _ _ _ (mk s (evs ++ [f x]) c cl ct u n)) by (by apply emit_mk).
  rewrite IH, <- app_assoc. done.
Qed.

(** ** Candidates *)

Definition pair_key (p : fused_candidate * contribution) : string * Z * string := (c_lane p.2, variant_index p.2, f_item_id p.1).

(** the checks of the candidates' table *)
Definition insertable (p : fused_candidate * contribution) : Prop :=
  admissible corpus query_index cutoff (f_item_id p.1) = true ∧ c_lane p.2 ∈ LANE_ORDER ∧ variant_index p.2 = 0 ∧ 1 ≤ c_lane_rank p.2 ∧ 1 ≤ fused_rank p.1 ∧
  0 ≤ lane_ms (c_lane p.2).

Fixpoint candidate_rows (n : nat) (accepted : list string) (ps : list (fused_candidate * contribution)) : list candidate_row :=
  match ps with [] => [] | p :: ps' => candidate_row_of (uuid4 n) accepted (lane_ms (c_lane p.2)) p.1 p.2 :: candidate_rows (S n) accepted ps' end.

Lemma key_of_row id accepted t p : candidate_key (candidate_row_of id accepted t p.1 p.2) = pair_key p.
Proof. done. Qed.

Lemma keys_of_rows n accepted ps : candidate_key <$> candidate_rows n accepted ps = pair_key <$> ps.
Proof. revert n. induction ps as [|p ps IH]; intros n; [done|]. cbn [candidate_rows fmap list_fmap]. by rewrite key_of_row, IH. Qed.

Lemma rows_of_pairs n accepted ps : Forall2 (λ p r, r = candidate_row_of (cr_id r) accepted (lane_ms (c_lane p.2)) p.1 p.2) ps (candidate_rows n accepted ps).
Proof. revert n. induction ps as [|p ps IH]; intros n; constructor; [done|apply IH]. Qed.

Lemma insert_candidate_mk id accepted p s evs c cl ct us :
  terminal s = false → insertable p → pair_key p ∉ candidate_key <$> c →
  let r := candidate_row_of id accepted (lane_ms (c_lane p.2)) p.1 p.2 in
  insert_candidate corpus query_index cutoff r (Database (RunRow s false None [] dec_zero None) (numbered evs) c cl ct us) =
    Ok (Database (RunRow s false None [] dec_zero None) (numbered evs) (c ++ [r]) cl ct us).
Proof.
  intros Hs (Ha & Hl & Hv & Hr & Hf & Ht) Hk r. unfold insert_candidate. cbn [d_run r_status d_candidates d_events d_claims d_citations d_usage]. rewrite Hs.
  change (cr_item r) with (f_item_id p.1). rewrite Ha. cbn [negb]. change (cr_lane r) with (c_lane p.2). change (cr_variant_index r) with (variant_index p.2).
  change (cr_lane_rank r) with (c_lane_rank p.2). change (cr_fused_rank r) with (fused_rank p.1). change (cr_timing_ms r) with (lane_ms (c_lane p.2)).
  rewrite (bool_decide_eq_true_2 _ Hl), Hv, (proj2 (Z.leb_le _ _) Hr), (proj2 (Z.leb_le _ _) Hf), (proj2 (Z.leb_le _ _) Ht). cbn [negb andb].
  by rewrite decide_False.
Qed.

Lemma persist_pairs timings accepted ps s evs c cl ct u n :
  terminal s = false → Forall insertable ps → NoDup (pair_key <$> ps) → (∀ p, p ∈ ps → pair_key p ∉ candidate_key <$> c) →
  (∀ p, p ∈ ps → dict_get (c_lane p.2) timings = Some (lane_ms (c_lane p.2))) →
  for_loop (λ p, persist_contribution corpus query_index cutoff uuid4 accepted timings p.1 p.2) ps (mk s evs c cl ct u n) =
    (Ok tt, mk s evs (c ++ candidate_rows n accepted ps) cl ct u (n + length ps)).
Proof.
  intros Hs Hi. revert c n. induction Hi as [|p ps Hp _ IH]; intros c n Hnd Hnew Ht; [by rewrite app_nil_r, Nat.add_0_r|].
  cbn [fmap list_fmap] in Hnd. apply NoDup_cons in Hnd as [Hk Hnd].
  rewrite (for_loop_cons _ _ _ _ (mk s evs (c ++ [candidate_row_of (uuid4 n) accepted (lane_ms (c_lane p.2)) p.1 p.2]) cl ct u (S n))).
  - rewrite IH; [by rewrite <- app_assoc, Nat.add_succ_comm|done| |].
    + intros q Hq. rewrite fmap_app, elem_of_app. intros [Hin|Hin]; [by apply (Hnew q); [apply list_elem_of_further|]|].
      cbn in Hin. apply list_elem_of_singleton in Hin. apply Hk. rewrite <- key_of_row with (id := uuid4 n) (accepted := accepted) (t := lane_ms (c_lane p.2)) in Hin.
      change (pair_key p) with (candidate_key (candidate_row_of (uuid4 n) accepted (lane_ms (c_lane p.2)) p.1 p.2)). rewrite <- Hin. by apply (list_elem_of_fmap_2 pair_key).
    + intros q Hq. by apply Ht, list_elem_of_further.
  - unfold persist_contribution, fresh_uuid, mbind, eff_bind, pure, execute, mk. cbn [w_db w_seq w_usage w_uuids].
    rewrite (Ht p) by apply list_elem_of_here. cbn [from_option_err w_db w_seq w_usage w_uuids].
    by rewrite insert_candidate_mk by (try done; apply Hnew, list_elem_of_here).
Qed.

Lemma for_loop_app {A} (f : A → pipeline unit) l1 l2 w : for_loop f (l1 ++ l2) w = (for_loop f l1 ≫= λ _, for_loop f l2) w.
Proof.
  revert w. induction l1 as [|x l1 IH]; intros w; [done|]. cbn [app for_loop]. unfold mbind, eff_bind in *. destruct (f x w) as [[[]|e] w']; [|done]. by rewrite IH.
Qed.

Lemma for_loop_nested {A B} (g : A → list B) (f : A → B → pipeline unit) l w :
  for_loop (λ x, for_loop (f x) (g x)) l w = for_loop (λ p, f p.1 p.2) (concat ((λ x, (λ y, (x, y)) <$> g x) <$> l)) w.
Proof.
  revert w. induction l as [|x l IH]; intros w; [done|]. cbn [for_loop fmap list_fmap concat]. rewrite for_loop_app. unfold mbind, eff_bind.
  assert (∀ w, for_loop (f x) (g x) w = for_loop (λ p : A * B, f p.1 p.2) ((λ y, (x, y)) <$> g x) w) as <-.
  { intros w1. revert w1. induction (g x) as [|y ys IHy]; intros w1; [done|]. cbn [for_loop fmap list_fmap]. unfold mbind, eff_bind. cbn [fst snd].
    destruct (f x y w1) as [[[]|e] w2]; [apply IHy|done]. }
  destruct (for_loop (f x) (g x) w) as [[[]|e] w']; [apply IH|done].
Qed.

(** ** Claims *)

(** the checks of the citations' table *)
Definition citable (c : list candidate_row) (k : claim_citation) : Prop :=
  (∃ r, r ∈ c ∧ cr_accepted r = true ∧ cr_item r = cc_item_id k) ∧ ir_source_span_id <$> corpus (cc_item_id k) = Some (cc_source_span_id k).

Definition claim_row_of (id : string) (c : generated_claim) : claim_row :=
  ClaimRow id (gc_ord c) (gc_text c) (gc_status c) (format_f <$> gc_confidence c) (gc_calculation_lineage c).

Fixpoint citation_rows (n : nat) (claim_id : string) (ks : list claim_citation) : list citation_row :=
  match ks with [] => [] | k :: ks' => citation_row_of (uuid4 n) claim_id k :: citation_rows (S n) claim_id ks' end.

Fixpoint claim_rows (n : nat) (claims : list generated_claim) : list (claim_row * list citation_row) :=
  match claims with
  | [] => []
  | c :: claims' => (claim_row_of (uuid4 n) c, citation_rows (S n) (uuid4 n) (gc_citations c)) :: claim_rows (S n + length (gc_citations c)) claims'
  end.

Lemma persist_citations claim_id ks s evs c cl ct u n : terminal s = false → Forall (citable c) ks → claim_id ∈ cl_id <$> cl →
  for_loop (λ k, id ← fresh_uuid uuid4; execute (insert_citation corpus (citation_row_of id claim_id k))) ks (mk s evs c cl ct u n) =
    (Ok tt, mk s evs c cl (ct ++ citation_rows n claim_id ks) u (n + length ks)).
Proof.
  intros Hs Hk Hc. revert ct n. induction Hk as [|k ks [(r & Hin & Ha & Hi) Hsp] _ IH]; intros ct n; [by rewrite app_nil_r, Nat.add_0_r|].
  rewrite (for_loop_cons _ _ _ _ (mk s evs c cl (ct ++ [citation_row_of (uuid4 n) claim_id k]) u (S n))).
  { by rewrite IH, <- app_assoc, Nat.add_succ_comm. }
  unfold fresh_uuid, mbind, eff_bind, execute, insert_citation, mk. cbn [w_db w_seq w_usage w_uuids d_run r_status d_candidates d_claims d_events d_citations d_usage]. rewrite Hs.
  assert (existsb (λ r, cr_accepted r && bool_decide (cr_item r = ct_item (citation_row_of (uuid4 n) claim_id k))) c = true) as ->.
  { apply existsb_exists. exists r. split; [by apply list_elem_of_In|]. rewrite Ha. by apply bool_decide_eq_true. }
  cbn [negb]. change (ct_item (citation_row_of (uuid4 n) claim_id k)) with (cc_item_id k). change (ct_source_span_id (citation_row_of (uuid4 n) claim_id k)) with (cc_source_span_id k).
  rewrite (bool_decide_eq_true_2 _ Hsp). change (ct_claim_id (citation_row_of (uuid4 n) claim_id k)) with claim_id. by rewrite (bool_decide_eq_true_2 _ Hc).
Qed.

Lemma persist_claims_mk claims s evs c cl ct u n : terminal s = false → Forall (λ x, 0 ≤ gc_ord x ∧ Forall (citable c) (gc_citations x)) claims →
  NoDup (gc_ord <$> claims) → (∀ x, x ∈ claims → gc_ord x ∉ cl_ord <$> cl) →
  ∃ n', _persist_claims corpus uuid4 claims (mk s evs c cl ct u n) =
    (Ok tt, mk s evs c (cl ++ (claim_rows n claims).*1) (ct ++ concat (claim_rows n claims).*2) u n').
Proof.
  intros Hs Hc. unfold _persist_claims. revert cl ct n. induction Hc as [|x claims [H0 Hk] _ IH]; intros cl ct n Hnd Hnew.
  { exists n. cbn [for_loop claim_rows fmap list_fmap concat]. by rewrite !app_nil_r. }
  cbn [fmap list_fmap] in Hnd. apply NoDup_cons in Hnd as [Hx Hnd].
  destruct (IH (cl ++ [claim_row_of (uuid4 n) x]) (ct ++ citation_rows (S n) (uuid4 n) (gc_citations x)) (S n + length (gc_citations x)) Hnd)%nat as [n' Hn'].
  { intros y Hy. rewrite fmap_app, elem_of_app. intros [Hin|Hin]; [by apply (Hnew y); [apply list_elem_of_further|]|].
    cbn in Hin. apply list_elem_of_singleton in Hin. apply Hx. rewrite <- Hin. by apply (list_elem_of_fmap_2 gc_ord). }
  exists n'. rewrite (for_loop_cons _ _ _ _ (mk s evs c (cl ++ [claim_row_of (uuid4 n) x]) (ct ++ citation_rows (S n) (uuid4 n) (gc_citations x)) u (S n + length (gc_citations x)))).
  { rewrite Hn'. cbn [claim_rows fmap list_fmap fst snd concat]. by rewrite <- !app_assoc. }
  unfold persist_claim. pose proof (persist_citations (uuid4 n) (gc_citations x) s evs c (cl ++ [claim_row_of (uuid4 n) x]) ct u (S n) Hs Hk) as Hcit.
  assert (execute (insert_claim (claim_row_of (uuid4 n) x)) (mk s evs c cl ct u (S n)) = (Ok tt, mk s evs c (cl ++ [claim_row_of (uuid4 n) x]) ct u (S n))) as Hins.
  { unfold execute, insert_claim, mk. cbn [w_db w_seq w_usage w_uuids d_run r_status d_candidates d_claims d_events d_citations d_usage]. rewrite Hs.
    change (cl_ord (claim_row_of (uuid4 n) x)) with (gc_ord x). rewrite (proj2 (Z.leb_le _ _) H0). cbn [negb]. by rewrite decide_False by (apply Hnew, list_elem_of_here). }
  assert (fresh_uuid uuid4 (mk s evs c cl ct u n) = (Ok (uuid4 n), mk s evs c cl ct u (S n))) as Hid by done.
  unfold mbind, eff_bind in *. rewrite Hid. unfold claim_row_of at 1 in Hins. rewrite Hins. apply Hcit.
  rewrite fmap_app. apply elem_of_app. right. apply list_elem_of_here.
Qed.

Lemma claim_rows_spec n claims : Forall2 (λ c r, r = claim_row_of (cl_id r) c) claims (claim_rows n claims).*1.
Proof. revert n. induction claims as [|c claims IH]; intros n; constructor; [done|apply IH]. Qed.

Lemma citation_rows_spec n row ks : Forall2 (λ p r, r = citation_row_of (ct_id r) (cl_id p.1) p.2) ((λ k, (row, k)) <$> ks) (citation_rows n (cl_id row) ks).
Proof. revert n. induction ks as [|k ks IH]; intros n; constructor; [done|apply IH]. Qed.

Lemma all_citation_rows n claims :
  Forall2 (λ p r, r = citation_row_of (ct_id r) (cl_id p.1) p.2)
    (concat (zip_with (λ row c, (λ k, (row, k)) <$> gc_citations c) (claim_rows n claims).*1 claims)) (concat (claim_rows n claims).*2).
Proof.
  revert n. induction claims as [|c claims IH]; intros n; [constructor|]. cbn [claim_rows fmap list_fmap fst snd zip_with concat]. apply Forall2_app; [|apply IH].
  apply (citation_rows_spec (S n) (claim_row_of (uuid4 n) c)).
Qed.

(** ** What fusion is given, and what it returns *)

Lemma NoDup_concat_map {A B C T} (g : A → list B) (key : B → C) (tag : C → T) (t : A → T) l :
  NoDup (t <$> l) → (∀ a, a ∈ l → NoDup (key <$> g a)) → (∀ a b, a ∈ l → b ∈ g a → tag (key b) = t a) → NoDup (key <$> concat (g <$> l)).
Proof.
  intros Hnd Hin Htag. induction l as [|a l IH]; [constructor|]. cbn [fmap list_fmap concat] in *. apply NoDup_cons in Hnd as [Ha Hnd]. rewrite fmap_app. apply NoDup_app. split; [|split].
  - apply Hin, list_elem_of_here.
  - intros x (b & -> & Hb)%list_elem_of_fmap (b' & Hk & (bs & Hb' & (a' & -> & Ha')%list_elem_of_fmap)%elem_of_concat)%list_elem_of_fmap.
    apply Ha. rewrite <- (Htag a b (list_elem_of_here _ _) Hb), Hk, (Htag a' b' (list_elem_of_further _ _ _ Ha') Hb'). by apply (list_elem_of_fmap_2 t).
  - apply IH; [done|intros; by apply Hin, list_elem_of_further|]. intros a' b Ha' Hb. by apply Htag; [apply list_elem_of_further|].
Qed.

Lemma NoDup_lanes plan : NoDup (lanes_of_plan plan).
Proof. apply NoDup_filter, (bool_decide_unpack _). vm_compute. exact I. Qed.

Lemma run_lanes_Ok lanes q results : NoDup lanes → run_lanes lane_fn lanes q = Ok results →
  results.*1 = lanes ∧ ∀ l, l ∈ lanes → ∃ hits, dict_get l results = Some hits ∧ lane_fn l q = Ok hits.
Proof.
  intros Hnd. unfold run_lanes. rewrite execute_lanes_eq by (intros i Hi; rewrite length_fmap in Hi; apply elem_of_seq; lia). intros H%map_err_Ok.
  set (calls := (λ lane, (lane, lane_fn lane q)) <$> lanes) in H |- *. assert (calls.*1 = lanes) as Hc by (unfold calls; rewrite <- list_fmap_compose; apply list_fmap_id).
  pose proof (lanes_succeed _ _ _ H) as Hok. rewrite lanes_all_ok in H; [|change (NoDup (calls.*1)); by rewrite Hc|done]. injection H as <-. cbn [app].
  assert ((lane_hits <$> calls).*1 = lanes) as Hfst by (rewrite <- Hc; by rewrite <- list_fmap_compose).
  split; [exact Hfst|]. intros l Hl. assert ((l, lane_fn l q) ∈ calls) as Hin by (by apply (list_elem_of_fmap_2 (λ l, (l, lane_fn l q)))).
  pose proof (proj1 (Forall_forall _ _) Hok _ Hin) as Hl_ok. cbn in Hl_ok. destruct (lane_fn l q) as [hits|] eqn:Hf; [|done]. exists hits. split; [|done].
  apply dict_get_elem; [by rewrite Hfst|]. by apply (list_elem_of_fmap_2 lane_hits calls (l, Ok hits)).
Qed.

Lemma run_lanes_Err lanes q e : run_lanes lane_fn lanes q = Err e → ∃ l cause, e = LaneError (LaneExecutionError l cause) ∧ lane_fn l q = Err cause.
Proof.
  unfold run_lanes. rewrite execute_lanes_eq by (intros i Hi; rewrite length_fmap in Hi; apply elem_of_seq; lia).
  destruct (foldM _ _ _) as [|e'] eqn:H; [done|]. intros [= <-]. apply lanes_fail in H as (l & cause & (l' & Heq & _)%list_elem_of_fmap & ->). injection Heq as -> Hc. by exists l', cause.
Qed.

Section hits.
Context (plan : query_plan) (q : lane_query V) (results : dict (list lane_candidate)).
Context (promise : lanes_promise) (returned : run_lanes lane_fn (lanes_of_plan plan) q = Ok results).

Lemma results_lanes l : l ∈ results.*1 ↔ l ∈ lanes_of_plan plan.
Proof. by rewrite (proj1 (run_lanes_Ok _ _ _ (NoDup_lanes plan) returned)). Qed.

Lemma lanes_of_results : lanes_of results = filter (λ l, l ∈ results.*1) LANE_ORDER.
Proof.
  unfold lanes_of. rewrite (filter_none (λ l, l ∉ LANE_ORDER)); [by rewrite app_nil_r|]. intros l Hl%results_lanes Hn. by apply list_elem_of_filter in Hl as [_ ?].
Qed.

Lemma promised l : l ∈ lanes_of results → l ∈ LANE_ORDER ∧ lane_promise (lq_top_k q) l (default [] (dict_get l results)).
Proof.
  rewrite lanes_of_results. intros [Hl%results_lanes Ho]%list_elem_of_filter. split; [done|].
  destruct (proj2 (run_lanes_Ok _ _ _ (NoDup_lanes plan) returned) l Hl) as (hits & -> & Hf). by apply promise.
Qed.

Lemma NoDup_lanes_of : NoDup (lanes_of results).
Proof. rewrite lanes_of_results. apply NoDup_filter, (bool_decide_unpack _). vm_compute. exact I. Qed.

Lemma hit_ok c : c ∈ hits_of results → lane c ∈ lanes_of_plan plan ∧ 1 ≤ lane_rank c ∧ admissible corpus query_index cutoff (item_id c) = true.
Proof.
  intros (hits & Hc & (l & -> & Hl)%list_elem_of_fmap)%elem_of_concat. destruct (promised l Hl) as [_ [Hall _ _]].
  destruct (proj1 (Forall_forall _ _) Hall c Hc) as (-> & Hr & Ha). split; [|done]. by apply results_lanes, lanes_of_known.
Qed.

Lemma hits_distinct : NoDup ((λ c, (lane c, item_id c)) <$> hits_of results).
Proof.
  unfold hits_of. apply (NoDup_concat_map _ _ fst (λ l, l)).
  - rewrite list_fmap_id. apply NoDup_lanes_of.
  - intros l Hl. destruct (promised l Hl) as [_ [_ Hd _]]. apply (NoDup_fmap_1 snd). by rewrite <- list_fmap_compose.
  - intros l c Hl Hc. destruct (promised l Hl) as [_ [Hall _ _]]. by destruct (proj1 (Forall_forall _ _) Hall c Hc).
Qed.

Lemma concat_length_le {A B} (g : A → list B) l m : (∀ a, a ∈ l → Z.of_nat (length (g a)) ≤ m) → Z.of_nat (length (concat (g <$> l))) ≤ Z.of_nat (length l) * m.
Proof.
  induction l as [|a l IH]; intros H; [cbn; lia|]. cbn [fmap list_fmap concat length]. rewrite length_app. pose proof (H a (list_elem_of_here _ _)).
  assert (Z.of_nat (length (concat (g <$> l))) ≤ Z.of_nat (length l) * m) by (apply IH; intros; by apply H, list_elem_of_further). lia.
Qed.

Lemma hits_lanes_ok : lq_top_k q ≤ 100 → lanes_ok results.
Proof.
  intros Hk. split; [apply Forall_forall; intros c Hc; by destruct (hit_ok c Hc) as (_ & ? & _)|].
  assert (Z.of_nat (length (hits_of results)) ≤ Z.of_nat (length (lanes_of results)) * 100) as H.
  { apply concat_length_le. intros l Hl. destruct (promised l Hl) as [_ [_ _ Ht]]. lia. }
  assert (length (lanes_of results) ≤ 4)%nat; [|lia]. rewrite lanes_of_results. etrans; [apply length_filter|]. done.
Qed.

Context (times : ∀ l, 0 ≤ lane_ms l) (top : lq_top_k q ≤ 100).

(** the contributions of a candidate are hits of its item *)
Lemma contribution_hit c k : candidate_ok (appearances (hits_of results) (f_item_id c)) c → k ∈ contributions c →
  ∃ a, a ∈ hits_of results ∧ item_id a = f_item_id c ∧ c_lane k = lane a ∧ c_lane_rank k = lane_rank a ∧ variant_index k = 0.
Proof.
  intros [(ordered & Hp & _ & Hf & _) _] [i Hi]%list_elem_of_lookup. destruct (Forall2_lookup_r _ _ _ _ _ Hf Hi) as (a & Ha & Hl & Hr & _ & Hv & _).
  assert (a ∈ appearances (hits_of results) (f_item_id c)) as Hin by (rewrite <- Hp; by eapply list_elem_of_lookup_2).
  apply list_elem_of_filter in Hin as [? ?]. by exists a.
Qed.

Lemma contributions_lanes c : candidate_ok (appearances (hits_of results) (f_item_id c)) c → NoDup (c_lane <$> contributions c).
Proof.
  intros [(ordered & Hp & _ & Hf & _) _]. assert (c_lane <$> contributions c = lane <$> ordered) as ->.
  { symmetry. clear Hp. induction Hf as [|a k os ks (Hl & _) _ IH]; [done|]. cbn. by rewrite IH, Hl. }
  rewrite Hp. pose proof hits_distinct as Hd. unfold appearances. clear Hp Hf. induction (hits_of results) as [|a hits IH]; [constructor|].
  cbn [fmap list_fmap] in Hd. apply NoDup_cons in Hd as [Ha Hd]. rewrite filter_cons. case_decide as He; [|by apply IH]. cbn [fmap list_fmap]. constructor; [|by apply IH].
  intros (b & Hl & [Hb Hin]%list_elem_of_filter)%list_elem_of_fmap. apply Ha. apply list_elem_of_fmap. exists b. split; [|done]. by rewrite Hl, He, Hb.
Qed.

Lemma fused_ok k fusion : 0 ≤ k → fuse results k NoopReranker None = Ok fusion →
  NoDup (f_item_id <$> candidates fusion) ∧ Forall insertable (contributions_of (candidates fusion)) ∧ NoDup (pair_key <$> contributions_of (candidates fusion)) ∧
  Forall (λ p, c_lane p.2 ∈ lanes_of_plan plan) (contributions_of (candidates fusion)) ∧ Forall (λ c, contributions c ≠ []) (candidates fusion).
Proof.
  intros Hk Hf. pose proof (fuse_ranking results k NoopReranker None (hits_lanes_ok top)) as H. cbv zeta in H. rewrite decide_False in H by lia.
  destruct H as (res & ranked & Hf' & _ & Hn & Hnd & Hs & Hc & _). rewrite Hf in Hf'. injection Hf' as <-. specialize (Hn eq_refl). rewrite Hn.
  assert (∀ c, c ∈ take (Z.to_nat k) ranked → 1 ≤ fused_rank c ∧ candidate_ok (appearances (hits_of results) (f_item_id c)) c) as Hcand.
  { intros c [i [Hi _]%lookup_take_Some]%list_elem_of_lookup. destruct (Hc i c Hi) as [-> ?]. split; [lia|done]. }
  assert (NoDup (f_item_id <$> take (Z.to_nat k) ranked)) as Hnd'.
  { eapply sublist_NoDup; [exact Hnd|]. apply fmap_sublist, sublist_take. }
  assert (∀ p, p ∈ contributions_of (take (Z.to_nat k) ranked) → p.1 ∈ take (Z.to_nat k) ranked ∧ p.2 ∈ contributions p.1) as Hpair.
  { intros p (ps & Hp & (c & -> & Hin)%list_elem_of_fmap)%elem_of_concat. apply list_elem_of_fmap in Hp as (k' & -> & ?). done. }
  split; [done|]. split; [|split; [|split]].
  - apply Forall_forall. intros p Hp. destruct (Hpair p Hp) as [Hin Hk']. destruct (Hcand _ Hin) as [Hr Hok]. destruct (contribution_hit _ _ Hok Hk') as (a & Ha & Hi & Hl & Hlr & Hv).
    destruct (hit_ok a Ha) as (Hla & Hra & Had). split; [by rewrite <- Hi|]. split; [rewrite Hl; by apply list_elem_of_filter in Hla as [_ ?]|]. split; [done|]. split; [lia|]. split; [done|apply times].
  - apply (NoDup_concat_map _ _ snd f_item_id); [done| |].
    + intros c Hin. destruct (Hcand c Hin) as [_ Hok]. pose proof (contributions_lanes c Hok) as Hd. rewrite <- list_fmap_compose. apply (NoDup_fmap_1 (λ x : string * Z * string, x.1.1)). by rewrite <- list_fmap_compose.
    + intros c p _ (k' & -> & _)%list_elem_of_fmap. done.
  - apply Forall_forall. intros p Hp. destruct (Hpair p Hp) as [Hin Hk']. destruct (Hcand _ Hin) as [_ Hok]. destruct (contribution_hit _ _ Hok Hk') as (a & Ha & _ & -> & _).
    by destruct (hit_ok a Ha).
  - apply Forall_forall. intros c Hin. destruct (Hcand c Hin) as [_ [(ordered & Hp & _ & Hf2 & _) _]]. intros Hnil. rewrite Hnil in Hf2. apply Forall2_nil_inv_r in Hf2 as ->.
    assert (f_item_id c ∈ f_item_id <$> ranked) as Hi by (apply (list_elem_of_fmap_2 f_item_id); by eapply elem_of_take_weaken || (apply list_elem_of_lookup in Hin as [i [Hi _]%lookup_take_Some]; by eapply list_elem_of_lookup_2)).
    apply Hs in Hi as [Hi _]. apply (appearances_ne _ _ Hi). by apply Permutation_nil_l in Hp.
Qed.
End hits.

(** * The phases *)

Lemma bind_run {A B} (m : pipeline A) (f : A → pipeline B) w a w' : m w = (Ok a, w') → (m ≫= f) w = f a w'.
Proof. intros H. unfold mbind, eff_bind. by rewrite H. Qed.
Lemma bind_err {A B} (m : pipeline A) (f : A → pipeline B) w e w' : m w = (Err e, w') → (m ≫= f) w = (Err e, w').
Proof. intros H. unfold mbind, eff_bind. by rewrite H. Qed.

(** the call raises, whatever it has written, with the usage it was given *)
Definition raises {A} (m : pipeline A) (w : world) (e : run_error) : Prop := ∃ w', m w = (Err e, w') ∧ w_usage w' = w_usage w.

Lemma raises_bind {A B} (m : pipeline A) (f : A → pipeline B) w e : raises m w e → raises (m ≫= f) w e.
Proof. intros (w' & H & Hu). exists w'. split; [by apply bind_err|done]. Qed.
Lemma raises_then {A B} (m : pipeline A) (f : A → pipeline B) w a w' e : m w = (Ok a, w') → w_usage w' = w_usage w → raises (f a) w' e → raises (m ≫= f) w e.
Proof. intros H Hu (w'' & Hf & Hu'). exists w''. split; [by rewrite (bind_run _ _ _ _ _ H)|congruence]. Qed.
Lemma raises_pure {A} e (w : world) : raises (pure (A := A) (Err e)) w e.
Proof. by exists w. Qed.

Section phases.
Context (plan : query_plan) (mode : string) (u : run_usage).
Context (promise : lanes_promise) (times : ∀ l, 0 ≤ lane_ms l) (wf : plan_wf plan).

Notation mk0 s evs c n := (mk s evs c [] [] u n).

Lemma planning_mk n : planning_phase plan mode (mk0 Queued [] [] n) =
  (Ok tt, mk0 Planning [RunStarted mode; PlanReady (qp_intent plan) (qp_lanes plan) (length (qp_variants plan))] [] n).
Proof.
  unfold planning_phase. rewrite (bind_run _ _ _ tt (mk0 Planning [] [] n)) by (by apply set_status_mk).
  rewrite (bind_run _ _ _ tt (mk0 Planning [RunStarted mode] [] n)) by (by apply emit_mk). by apply emit_mk.
Qed.

Lemma retrieving_mk as_of evs n :
  match q ← _lane_query embed plan as_of; run_lanes lane_fn (lanes_of_plan plan) q with
  | Ok results => retrieving_phase embed lane_fn lane_ms plan as_of (mk0 Planning evs [] n) =
      (Ok results, mk0 Retrieving (evs ++ (LaneStarted <$> lanes_of_plan plan) ++
        ((λ l, LaneCompleted l (length (default [] (dict_get l results))) (lane_ms l)) <$> lanes_of_plan plan)) [] n)
  | Err e => raises (retrieving_phase embed lane_fn lane_ms plan as_of) (mk0 Planning evs [] n) e
  end.
Proof.
  unfold retrieving_phase. cbv zeta. assert (set_status Retrieving (mk0 Planning evs [] n) = (Ok tt, mk0 Retrieving evs [] n)) as Hst by (by apply set_status_mk).
  destruct (_lane_query embed plan as_of) as [q|e] eqn:Hq; cbn [mbind result_bind].
  2:{ eapply raises_then; [exact Hst|done|]. apply raises_bind, raises_pure. }
  assert (for_loop (λ l, emit (LaneStarted l)) (lanes_of_plan plan) (mk0 Retrieving evs [] n) = (Ok tt, mk0 Retrieving (evs ++ (LaneStarted <$> lanes_of_plan plan)) [] n)) as Hem by (by apply emits_mk).
  destruct (run_lanes lane_fn (lanes_of_plan plan) q) as [results|e] eqn:Hr.
  - rewrite (bind_run _ _ _ _ _ Hst), (bind_run _ _ _ q (mk0 Retrieving evs [] n)) by done. rewrite (bind_run _ _ _ _ _ Hem), Hr. rewrite (bind_run _ _ _ results _ eq_refl).
    pose proof (proj2 (run_lanes_Ok _ _ _ (NoDup_lanes plan) Hr)) as Hd. rewrite app_assoc. generalize (evs ++ (LaneStarted <$> lanes_of_plan plan)). intros evs'.
    set (loop := λ l : string, pure (from_option_err (LaneError KeyError) (dict_get l results)) ≫= λ hits : list lane_candidate, emit (LaneCompleted l (length hits) (lane_ms l))). assert (∀ ls evs', (∀ l, l ∈ ls → l ∈ lanes_of_plan plan) → for_loop loop ls (mk0 Retrieving evs' [] n) =
      (Ok tt, mk0 Retrieving (evs' ++ ((λ l, LaneCompleted l (length (default [] (dict_get l results))) (lane_ms l)) <$> ls)) [] n)) as H.
    { induction ls as [|l ls IH]; intros evs1 Hin; [by rewrite app_nil_r|].
      rewrite (for_loop_cons _ _ _ _ (mk0 Retrieving (evs1 ++ [LaneCompleted l (length (default [] (dict_get l results))) (lane_ms l)]) [] n)).
      - rewrite IH by (intros; by apply Hin, list_elem_of_further). by rewrite <- app_assoc.
      - subst loop. destruct (Hd l (Hin l (list_elem_of_here _ _))) as (hits & Hg & _). cbv beta. rewrite Hg. cbn [from_option_err default]. unfold id.
        rewrite (bind_run _ _ _ hits (mk0 Retrieving evs1 [] n)) by done. by apply emit_mk. }
    by rewrite (bind_run _ _ _ _ _ (H (lanes_of_plan plan) evs' (λ _ h, h))).
  - eapply raises_then; [exact Hst|done|]. eapply raises_then; [reflexivity|done|]. eapply raises_then; [exact Hem|done|]. rewrite Hr. apply raises_bind, raises_pure.
Qed.

Lemma fusing_mk q results evs n : lq_top_k q ≤ 100 → run_lanes lane_fn (lanes_of_plan plan) q = Ok results →
  match map_err LaneError (fuse results (fused_top_k (qp_budgets plan)) NoopReranker None) with
  | Ok fusion =>
      let accepted := f_item_id <$> take (Z.to_nat (context_items (qp_budgets plan))) (candidates fusion) in
      let decisions p := _decision_dict stamp <$> filter (λ d, p (stage d) = true) (decisions fusion) in
      fusing_phase corpus query_index cutoff lane_ms stamp uuid4 plan results (mk0 Retrieving evs [] n) =
      (Ok accepted, mk0 Fusing (evs ++ [FusionCompleted (length (candidates fusion)) (decisions (λ s, bool_decide (s ∈ ["dedupe"; "fusion"]%string)));
         RerankCompleted "noop" (decisions (λ s, bool_decide (s = "rerank"%string))); ContextSelected accepted (context_items (qp_budgets plan)) stamp])
         (candidate_rows n accepted (contributions_of (candidates fusion))) (n + length (contributions_of (candidates fusion))))
  | Err e => raises (fusing_phase corpus query_index cutoff lane_ms stamp uuid4 plan results) (mk0 Retrieving evs [] n) e
  end.
Proof.
  intros Htop Hr. unfold fusing_phase. cbv zeta. assert (set_status Fusing (mk0 Retrieving evs [] n) = (Ok tt, mk0 Fusing evs [] n)) as Hst by (by apply set_status_mk).
  destruct (fuse results (fused_top_k (qp_budgets plan)) NoopReranker None) as [fusion|e] eqn:Hf; cbn [map_err].
  2:{ eapply raises_then; [exact Hst|done|]. apply raises_bind, raises_pure. }
  destruct (wf_budgets _ wf) as (_ & Hk & _). destruct (fused_ok plan q results promise Hr times Htop (fused_top_k (qp_budgets plan)) fusion ltac:(lia) Hf) as (_ & Hins & Hkeys & Hlanes & _).
  rewrite (bind_run _ _ _ _ _ Hst), (bind_run _ _ _ fusion (mk0 Fusing evs [] n)) by done.
  erewrite bind_run by (by apply emit_mk). erewrite bind_run by (by apply emit_mk).
  unfold _persist_candidates. erewrite bind_run.
  2:{ rewrite for_loop_nested. fold (contributions_of (candidates fusion)). apply persist_pairs; try done; [intros p _; apply not_elem_of_nil|].
      intros p Hp. pose proof (proj1 (Forall_forall _ _) Hlanes p Hp) as Hl. by apply (dict_get_fmap _ lane_ms). }
  erewrite bind_run by (by apply emit_mk). cbn [app]. by rewrite <- !app_assoc.
Qed.

Lemma generating_mk accepted evs c n :
  match (context ← _load_context_items corpus accepted; question ← first_of (qp_variants plan);
         '(generation, rejection) ← generated_or_rejected question context (qp_effective_as_of plan) generate_structured;
         cost ← map_err CostError (token_cost_usd prices (sr_input_tokens (gr_usage generation)) (sr_output_tokens (gr_usage generation)));
         Ok (context, generation, rejection, cost)) with
  | Ok (context, generation, rejection, cost) =>
      generating_phase generate_structured prices corpus plan accepted (mk0 Fusing evs c n) =
      (Ok (context, generation, rejection),
       mk Generating (evs ++ ((λ x, ClaimGenerated (gc_ord x) (length (gc_citations x))) <$> gr_claims generation)) c [] []
         (RunUsage cost (Some (audit_of (gr_usage generation)))) n)
  | Err e => raises (generating_phase generate_structured prices corpus plan accepted) (mk0 Fusing evs c n) e
  end.
Proof.
  unfold generating_phase. assert (set_status Generating (mk0 Fusing evs c n) = (Ok tt, mk0 Generating evs c n)) as Hst by (by apply set_status_mk).
  destruct (_load_context_items corpus accepted) as [context|e]; cbn [mbind result_bind]; [|eapply raises_then; [exact Hst|done|]; apply raises_bind, raises_pure].
  change (_resolve_generation_provider generate_structured GENERATION_PROVIDER GENERATION_MODEL) with (Ok (E := run_error) generate_structured).
  destruct (first_of (qp_variants plan)) as [question|e]; cbn [mbind result_bind].
  2:{ eapply raises_then; [exact Hst|done|]. do 2 (eapply raises_then; [reflexivity|done|]). apply raises_bind, raises_pure. }
  destruct (generated_or_rejected question context (qp_effective_as_of plan) generate_structured) as [[generation rejection]|e] eqn:Hg; cbn [mbind result_bind].
  2:{ eapply raises_then; [exact Hst|done|]. do 3 (eapply raises_then; [reflexivity|done|]). rewrite Hg. apply raises_bind, raises_pure. }
  destruct (token_cost_usd prices (sr_input_tokens (gr_usage generation)) (sr_output_tokens (gr_usage generation))) as [cost|e] eqn:Hc; cbn [map_err mbind result_bind].
  2:{ eapply raises_then; [exact Hst|done|]. do 3 (eapply raises_then; [reflexivity|done|]). rewrite Hg. eapply raises_then; [reflexivity|done|]. cbv beta iota. rewrite Hc. apply raises_bind, raises_pure. }
  rewrite (bind_run _ _ _ _ _ Hst). do 3 (erewrite bind_run by reflexivity). rewrite Hg. erewrite bind_run by reflexivity. cbv beta iota. rewrite Hc. erewrite bind_run by reflexivity.
  erewrite bind_run by reflexivity.
  change (World (w_db (mk0 Generating evs c n)) (w_seq (mk0 Generating evs c n)) (RunUsage cost (Some (audit_of (gr_usage generation)))) (w_uuids (mk0 Generating evs c n)))
    with (mk Generating evs c [] [] (RunUsage cost (Some (audit_of (gr_usage generation)))) n).
  by erewrite bind_run by (by apply (emits_mk (λ x, ClaimGenerated (gc_ord x) (length (gc_citations x))))).
Qed.

(** an item of the context is an accepted row of the corpus *)
Lemma context_accepted accepted context item : _load_context_items corpus accepted = Ok context → item ∈ context →
  ci_item_id item ∈ accepted ∧ ir_source_span_id <$> corpus (ci_item_id item) = Some (ci_source_span_id item).
Proof.
  intros H%mapM_Ok [i Hi]%list_elem_of_lookup. destruct (Forall2_lookup_r _ _ _ _ _ H Hi) as ([j row] & Hj & Hrow). apply list_elem_of_lookup_2 in Hj.
  apply list_elem_of_omap in Hj as (j' & Hin & (row' & Hc & [= -> ->])%fmap_Some). apply bind_Ok in Hrow as (numeric & _ & [= <-]). cbn. by rewrite Hc.
Qed.

Lemma verified_citations context claims vs : verify_claims claims context = Ok vs →
  gc_ord <$> vs = gc_ord <$> claims ∧
  Forall (λ v, Forall (λ k, ∃ item, item ∈ context ∧ ci_item_id item = cc_item_id k ∧ ci_source_span_id item = cc_source_span_id k) (gc_citations v)) vs.
Proof.
  intros H%mapM_Ok. induction H as [|c v claims vs Hv _ [IH1 IH2]]; [split; [done|constructor]|]. apply bind_Ok in Hv as (ps & Hps & [= <-]).
  split; [cbn; by f_equal|]. constructor; [|done]. cbn [gc_citations]. apply mapM_Ok in Hps. apply Forall_fmap. clear IH1 IH2.
  induction Hps as [|k p ks ps Hp _ IH]; constructor; [|done]. apply bind_Ok in Hp as (item & Hint & (edge & _ & [= <-])%bind_Ok). cbn.
  unfold assert_citation_integrity in Hint. destruct (accepted context (cc_item_id k)) as [item'|] eqn:Ha; [|done]. case_decide; [|done]. injection Hint as <-.
  apply accepted_spec in Ha as [? ?]. by exists item'.
Qed.

Lemma generated_proposed question context as_of generation rejection :
  generated_or_rejected question context as_of generate_structured = Ok (generation, rejection) → ∀ i x, gr_claims generation !! i = Some x → proposed context i x.
Proof.
  unfold generated_or_rejected. intros H i x Hx. destruct (generate _ _ _ _ _ _) as [g|[e usage]] eqn:Hg.
  - injection H as <- _. destruct (generate_proposes _ _ _ _ _ _ Hg) as [Hp _]. by apply Hp.
  - destruct e; try done. destruct usage as [r|]; [|done]. injection H as <- _. unfold generate in Hg. cbv zeta in Hg. repeat case_match; try done. injection Hg as _ _ <-. cbn in Hx. by rewrite lookup_nil in Hx.
Qed.

Lemma generated_ords question context as_of generation rejection :
  generated_or_rejected question context as_of generate_structured = Ok (generation, rejection) → ∀ i x, gr_claims generation !! i = Some x → gc_ord x = Z.of_nat i.
Proof. intros H i x Hx. by destruct (generated_proposed _ _ _ _ _ H i x Hx). Qed.

Lemma verifying_mk context generation evs c n u' :
  (∀ i x, gr_claims generation !! i = Some x → gc_ord x = Z.of_nat i) →
  (∀ item, item ∈ context → (∃ r, r ∈ c ∧ cr_accepted r = true ∧ cr_item r = ci_item_id item) ∧ ir_source_span_id <$> corpus (ci_item_id item) = Some (ci_source_span_id item)) →
  match map_err VerificationError (verify_claims (gr_claims generation) context) with
  | Ok claims => ∃ n', verifying_phase corpus uuid4 context generation (mk Generating evs c [] [] u' n) =
      (Ok claims, mk Verifying (evs ++ citation_events claims) c (claim_rows n claims).*1 (concat (claim_rows n claims).*2) u' n')
  | Err e => raises (verifying_phase corpus uuid4 context generation) (mk Generating evs c [] [] u' n) e
  end.
Proof.
  intros Hord Hctx. unfold verifying_phase. assert (set_status Verifying (mk Generating evs c [] [] u' n) = (Ok tt, mk Verifying evs c [] [] u' n)) as Hst by (by apply set_status_mk).
  destruct (verify_claims (gr_claims generation) context) as [claims|e] eqn:Hv; cbn [map_err]; [|eapply raises_then; [exact Hst|done|]; apply raises_bind, raises_pure].
  destruct (verified_citations _ _ _ Hv) as [Hords Hcits].
  assert (∀ i x, claims !! i = Some x → gc_ord x = Z.of_nat i) as Hord'.
  { intros i x Hx. assert ((gc_ord <$> claims) !! i = Some (gc_ord x)) as Hi by (by rewrite list_lookup_fmap, Hx). rewrite Hords, list_lookup_fmap in Hi.
    destruct (gr_claims generation !! i) as [y|] eqn:Hy; [|done]. cbn in Hi. injection Hi as <-. by apply Hord. }
  destruct (persist_claims_mk claims Verifying (evs ++ citation_events claims) c [] [] u' n) as [n' Hn']; [done| | |intros x _; apply not_elem_of_nil|].
  - apply Forall_forall. intros x Hx. split; [apply list_elem_of_lookup in Hx as [i Hi]; rewrite (Hord' i x Hi); lia|].
    eapply Forall_impl; [exact (proj1 (Forall_forall _ _) Hcits x Hx)|]. intros k (item & Hin & Hi & Hsp). destruct (Hctx item Hin) as [(r & Hr & Ha & Hri) Hspan].
    split; [exists r; by rewrite <- Hi|]. by rewrite <- Hi, <- Hsp.
  - apply NoDup_alt. intros i j o Hi Hj. rewrite list_lookup_fmap in Hi, Hj. destruct (claims !! i) as [x|] eqn:Hx; [|done]. destruct (claims !! j) as [y|] eqn:Hy; [|done].
    cbn in Hi, Hj. injection Hi as Hi. injection Hj as Hj. rewrite (Hord' i x Hx) in Hi. rewrite (Hord' j y Hy) in Hj. lia.
  - exists n'. rewrite (bind_run _ _ _ _ _ Hst). erewrite bind_run by reflexivity.
    erewrite bind_run by (rewrite for_loop_nested; by apply (emits_mk (λ p, citation_event p.1 p.2))).
    assert ((λ p, citation_event p.1 p.2) <$> concat ((λ x, (λ y, (x, y)) <$> gc_citations x) <$> claims) = citation_events claims) as Hev.
    { unfold citation_events. clear. induction claims as [|x claims IH]; [done|]. cbn [fmap list_fmap concat]. rewrite fmap_app, IH. by rewrite <- list_fmap_compose. }
    rewrite Hev. by rewrite (bind_run _ _ _ _ _ Hn').
Qed.

Lemma finish_mk s e usage timings cost evs c cl ct u' n : announces s (Some e) = true → legal_move Verifying s = true → terminal s = true →
  d_sign cost = false → -6 ≤ d_exp cost →
  let w := mk Verifying (evs ++ [e]) c cl ct u' n in
  finish s usage timings cost w = match numeric_12_6 cost with
    | Ok _ => (Ok tt, World (Database (RunRow s true (Some usage) timings cost None) (numbered (evs ++ [e])) c cl ct []) (Z.of_nat (length (evs ++ [e]))) u' n)
    | Err m => (Err (DatabaseError m), w)
    end.
Proof using Type.
  intros Ha Hl Ht Hs He. cbv zeta. unfold finish, execute, update_run, mk. cbn [w_db w_seq w_usage w_uuids d_run d_events r_status r_finished r_cost_usd terminal].
  destruct (numeric_12_6 cost) as [stored|m] eqn:Hn; [|done]. apply numeric_12_6_exact in Hn as ->; [|done]. cbn [mbind result_bind]. cbv zeta.
  cbn [with_cost r_status r_finished r_cost_usd r_budget_usage r_timings_ms r_error terminal].
  rewrite Hl, orb_true_r, latest_numbered, Ha, Ht, orb_true_r, not_negative by done. done.
Qed.

Lemma accepted_rows k fusion q results accepted n : lq_top_k q ≤ 100 → run_lanes lane_fn (lanes_of_plan plan) q = Ok results → 0 ≤ k →
  fuse results k NoopReranker None = Ok fusion → (∀ i, i ∈ accepted → i ∈ f_item_id <$> candidates fusion) →
  ∀ i, i ∈ accepted → ∃ r, r ∈ candidate_rows n accepted (contributions_of (candidates fusion)) ∧ cr_accepted r = true ∧ cr_item r = i.
Proof.
  intros Htop Hr Hk Hf Hacc i Hi. destruct (fused_ok plan q results promise Hr times Htop k fusion Hk Hf) as (_ & _ & _ & _ & Hne).
  pose proof (Hacc i Hi) as (c & -> & Hc)%list_elem_of_fmap. pose proof (proj1 (Forall_forall _ _) Hne c Hc) as Hcc. destruct (contributions c) as [|k0 ks] eqn:Hks; [done|].
  assert ((c, k0) ∈ contributions_of (candidates fusion)) as [j Hj]%list_elem_of_lookup.
  { apply elem_of_concat. exists ((λ k, (c, k)) <$> contributions c). split; [rewrite Hks; apply list_elem_of_here|by apply (list_elem_of_fmap_2 (λ c, (λ k, (c, k)) <$> contributions c))]. }
  destruct (Forall2_lookup_l _ _ _ _ _ (rows_of_pairs n accepted (contributions_of (candidates fusion))) Hj) as (r & Hr' & Heq).
  exists r. split; [by eapply list_elem_of_lookup_2|]. rewrite Heq. split; [by apply bool_decide_eq_true|done].
Qed.
End phases.

(** * The run *)

Section run.
Context (plan : query_plan) (mode provider model usage_kind : string).
Context (promise : lanes_promise) (times : ∀ l, 0 ≤ lane_ms l) (wf : plan_wf plan).
Context (prices_in : d_sign (cost_per_1k_input_usd prices) = false) (prices_out : d_sign (cost_per_1k_output_usd prices) = false).

Notation execute_pipeline := (_execute_pipeline embed lane_fn generate_structured prices corpus query_index cutoff lane_ms phase_ms stamp uuid4).
Notation start n := (mk Queued [] [] [] [] (RunUsage dec_zero None) n).

Lemma accepted_in (n : nat) (cands : list fused_candidate) j : j ∈ f_item_id <$> take n cands → j ∈ f_item_id <$> cands.
Proof. intros (c & -> & Hc)%list_elem_of_fmap. apply (list_elem_of_fmap_2 f_item_id). eapply elem_of_sublist; [exact Hc|]. apply sublist_take. Qed.

Lemma execute_spec n :
  match run_spec plan provider model with
  | Ok (t, claims) =>
      usage_spec plan provider model = RunUsage (t_cost t) (Some (audit_of (gr_usage (t_generation t)))) ∧ d_sign (t_cost t) = false ∧ d_exp (t_cost t) = -6 ∧
      match numeric_12_6 (t_cost t) with
      | Ok _ => ∃ n1 w', execute_pipeline plan mode provider model (start n) = (Ok (usage_of t, t_cost t), w') ∧
        w_db w' = Database (RunRow (if should_abstain claims then Abstained else Succeeded) true (Some (usage_of t)) (timings_ms phase_ms) (t_cost t) None)
        (numbered (trace_events plan mode t claims)) (candidate_rows n (t_accepted t) (contributions_of (candidates (t_fusion t))))
        (claim_rows n1 claims).*1 (concat (claim_rows n1 claims).*2) []
      | Err m => ∃ w', execute_pipeline plan mode provider model (start n) = (Err (DatabaseError m), w') ∧ w_usage w' = usage_spec plan provider model
      end
  | Err e => ∃ w', execute_pipeline plan mode provider model (start n) = (Err e, w') ∧ w_usage w' = usage_spec plan provider model
  end.
Proof.
  unfold run_spec, usage_spec, generated_spec, _execute_pipeline.
  destruct (_resolve_embedding_provider provider model) as [[]|e]; cbn [mbind result_bind]; [|apply raises_bind, raises_pure].
  rewrite (bind_run _ _ (start n) tt (start n)) by done.
  destruct (_parse_iso (qp_effective_as_of plan)) as [as_of|e]; cbn [mbind result_bind]; [|apply raises_bind, raises_pure].
  rewrite (bind_run _ _ (start n) as_of (start n)) by done. rewrite (bind_run _ _ _ _ _ (planning_mk plan mode _ n)).
  pose proof (retrieving_mk plan (RunUsage dec_zero None) as_of [RunStarted mode; PlanReady (qp_intent plan) (qp_lanes plan) (length (qp_variants plan))] n) as Hret.
  destruct (_lane_query embed plan as_of) as [q|e] eqn:Hq; cbn [mbind result_bind] in Hret |- *; [|by apply raises_bind].
  destruct (run_lanes lane_fn (lanes_of_plan plan) q) as [results|e] eqn:Hr; cbn [mbind result_bind]; [|by apply raises_bind].
  rewrite (bind_run _ _ _ _ _ Hret). fold (retrieval_events plan mode results) in Hret |- *. change (_ :: _ :: ?l) with (retrieval_events plan mode results).
  assert (lq_top_k q ≤ 100) as Htop.
  { unfold _lane_query in Hq. apply bind_Ok in Hq as (qt & _ & (ei & _ & [= <-])%bind_Ok). cbn. destruct (wf_budgets _ wf). lia. }
  pose proof (fusing_mk plan mode (RunUsage dec_zero None) promise times wf q results (retrieval_events plan mode results) n Htop Hr) as Hfus.
  destruct (fuse results (fused_top_k (qp_budgets plan)) NoopReranker None) as [fusion|e] eqn:Hf; cbn [map_err mbind result_bind] in Hfus |- *; [|by apply raises_bind].
  cbv zeta in Hfus. rewrite (bind_run _ _ _ _ _ Hfus). set (accepted := f_item_id <$> take (Z.to_nat (context_items (qp_budgets plan))) (candidates fusion)) in *.
  set (evs := _ ++ [_; _; _]) in *. set (rows := candidate_rows n accepted (contributions_of (candidates fusion))) in *.
  pose proof (generating_mk plan (RunUsage dec_zero None) accepted evs rows (n + length (contributions_of (candidates fusion)))) as Hgen.
  destruct (_load_context_items corpus accepted) as [context|e] eqn:Hctx; cbn [mbind result_bind] in Hgen |- *; [|by apply raises_bind].
  destruct (first_of (qp_variants plan)) as [question|e]; cbn [mbind result_bind] in Hgen |- *; [|by apply raises_bind].
  destruct (generated_or_rejected question context (qp_effective_as_of plan) generate_structured) as [[generation rejection]|e] eqn:Hg; cbn [mbind result_bind] in Hgen |- *; [|by apply raises_bind].
  destruct (token_cost_usd prices (sr_input_tokens (gr_usage generation)) (sr_output_tokens (gr_usage generation))) as [cost|e] eqn:Hc; cbn [map_err mbind result_bind] in Hgen |- *; [|by apply raises_bind].
  rewrite (bind_run _ _ _ _ _ Hgen). cbv beta iota. cbn [t_generation t_context].
  assert (0 ≤ fused_top_k (qp_budgets plan)) as Hk by (destruct (wf_budgets _ wf) as (_ & ? & _); lia).
  set (u1 := RunUsage cost (Some (audit_of (gr_usage generation)))) in *. set (m := (n + length (contributions_of (candidates fusion)))%nat) in *.
  set (evs1 := evs ++ ((λ x : generated_claim, ClaimGenerated (gc_ord x) (length (gc_citations x))) <$> gr_claims generation)) in *.
  pose proof (verifying_mk mode context generation evs1 rows m u1 (generated_ords _ _ _ _ _ Hg)) as Hver.
  destruct (map_err VerificationError (verify_claims (gr_claims generation) context)) as [claims|e]; cbn [mbind result_bind].
  2:{ apply raises_bind, Hver. intros item Hin. destruct (context_accepted _ _ item Hctx Hin) as [Hi Hsp]. split; [|exact Hsp].
      apply (accepted_rows plan promise times (fused_top_k (qp_budgets plan)) fusion q results accepted n Htop Hr Hk Hf); [|exact Hi]. intros j Hj. subst accepted. by eapply accepted_in. }
  destruct Hver as [n' Hver].
  { intros item Hin. destruct (context_accepted _ _ item Hctx Hin) as [Hi Hsp]. split; [|exact Hsp].
    apply (accepted_rows plan promise times (fused_top_k (qp_budgets plan)) fusion q results accepted n Htop Hr Hk Hf); [|exact Hi]. intros j Hj. subst accepted. by eapply accepted_in. }
  rewrite (bind_run _ _ _ _ _ Hver). cbv zeta. pose proof (token_cost_nonneg _ _ _ _ prices_in prices_out Hc) as Hsign.
  pose proof (token_cost_exp _ _ _ _ Hc) as Hexp. assert (-6 ≤ d_exp cost) as Hexp' by lia.
  set (w1 := mk Verifying _ _ _ _ _ _). rewrite (bind_run _ _ w1 cost w1) by done. split; [done|]. split; [done|]. split; [done|]. cbn [t_cost].
  set (t := RunTrace results fusion accepted context generation rejection cost).
  assert (∀ s e, announces s (Some e) = true → legal_move Verifying s = true → terminal s = true →
    match numeric_12_6 cost with
    | Ok _ => ((emit e ≫= λ _, finish s (usage_of t) (timings_ms phase_ms) cost) ≫= λ _, mret (usage_of t, cost)) w1 =
        (Ok (usage_of t, cost), World (Database (RunRow s true (Some (usage_of t)) (timings_ms phase_ms) cost None) (numbered ((evs1 ++ citation_events claims) ++ [e])) rows
          (claim_rows m claims).*1 (concat (claim_rows m claims).*2) []) (Z.of_nat (length ((evs1 ++ citation_events claims) ++ [e]))) u1 n')
    | Err msg => ∃ w', ((emit e ≫= λ _, finish s (usage_of t) (timings_ms phase_ms) cost) ≫= λ _, mret (usage_of t, cost)) w1 = (Err (DatabaseError msg), w') ∧ w_usage w' = u1
    end) as Hfin.
  { intros s e Ha Hl Ht. unfold w1. pose proof (finish_mk s e (usage_of t) (timings_ms phase_ms) cost (evs1 ++ citation_events claims) rows
      (claim_rows m claims).*1 (concat (claim_rows m claims).*2) u1 n' Ha Hl Ht Hsign Hexp') as H. cbv zeta in H. destruct (numeric_12_6 cost) as [c|msg].
    - erewrite bind_run; [reflexivity|]. erewrite bind_run by (by apply emit_mk). exact H.
    - eexists. split; [apply bind_err; erewrite bind_run by (by apply emit_mk); exact H|done]. }
  assert (trace_events plan mode t claims = (evs1 ++ citation_events claims) ++ [terminal_event t claims]) as ->.
  { unfold trace_events, evs1, evs. cbn [t_results]. by rewrite <- !app_assoc. }
  unfold terminal_event. destruct (should_abstain claims);
    [specialize (Hfin Abstained (RunAbstained (abstention_of rejection generation) (audit_of (gr_usage generation))) eq_refl eq_refl eq_refl)
    |specialize (Hfin Succeeded (RunCompleted (audit_of (gr_usage generation))) eq_refl eq_refl eq_refl)];
    (destruct (numeric_12_6 cost) as [c|msg]; [exists m; eexists; split; [exact Hfin|done]|exact Hfin]).
Qed.

Notation run_pipeline_or_fail :=
  (_run_pipeline_or_fail embed lane_fn generate_structured prices corpus query_index cutoff lane_ms phase_ms stamp uuid4 exc_text).

Lemma usage_spec_cost : d_sign (u_cost_usd (usage_spec plan provider model)) = false ∧ -6 ≤ d_exp (u_cost_usd (usage_spec plan provider model)).
Proof.
  unfold usage_spec. destruct (generated_spec plan provider model) as [t|] eqn:Hg; [|done]. cbn. unfold generated_spec in Hg. ok_inv.
  repeat (match goal with H : (let '(_, _) := ?x in _) = Ok _ |- _ => destruct x end); ok_inv. cbn [t_cost]. split; [by eapply token_cost_nonneg|by erewrite token_cost_exp].
Qed.

(** what a pipeline that raised leaves *)
Lemma failure_leaves seq n w' e : w_usage w' = usage_spec plan provider model →
  let d := w_db (_record_run_failure exc_text e usage_kind (World fresh_run seq (w_usage w') n)).2 in
  match numeric_12_6 (u_cost_usd (usage_spec plan provider model)) with
  | Ok _ => d = failed_with usage_kind e (usage_spec plan provider model)
  | Err _ => d = fresh_run
  end.
Proof.
  intros Hu. cbv zeta. destruct usage_spec_cost as [Hs He]. rewrite <- Hu in *.
  pose proof (failure_is_recorded corpus query_index cutoff exc_text e usage_kind (World fresh_run seq (w_usage w') n) eq_refl Hs He) as Hf.
  destruct (_record_run_failure _ _ _ _) as [r w2]. destruct Hf as (_ & Hf). cbn [w_usage w_db snd] in Hf |- *. case_match; [by destruct Hf as (_ & _ & ->)|by destruct Hf].
Qed.

Lemma run_leaves seq usage n :
  let d := w_db (run_pipeline_or_fail plan mode provider model usage_kind (World fresh_run seq usage n)).2 in
  match numeric_12_6 (u_cost_usd (usage_spec plan provider model)) with
  | Ok _ =>
      match run_spec plan provider model with
      | Ok (t, claims) => completed plan mode usage_kind t claims d
      | Err e => d = failed_with usage_kind e (usage_spec plan provider model)
      end
  | Err _ => d = fresh_run
  end.
Proof.
  cbv zeta. pose proof (execute_spec n) as H. unfold _run_pipeline_or_fail, try_except.
  unfold set_usage, writes, mbind, eff_bind. cbn [w_db w_seq w_usage w_uuids]. unfold transaction, mbind, eff_bind. cbn [w_db w_seq w_usage w_uuids].
  change (World fresh_run 0 (RunUsage dec_zero None) n) with (mk Queued [] [] [] [] (RunUsage dec_zero None) n).
  destruct (run_spec plan provider model) as [[t claims]|e] eqn:Hspec.
  - destruct H as (Hu & Hs & He & H). pose proof (failure_leaves) as Hfail. rewrite Hu in *. cbn [u_cost_usd] in *. destruct (numeric_12_6 (t_cost t)) as [c|m] eqn:Hn.
    + destruct H as (n1 & w' & Hx & Hd). rewrite Hx. unfold record_run_usage, execute. rewrite Hd, insert_usage_ok by (done || lia). rewrite Hn. cbn [negb w_db fst snd].
      split; [done|]. split; [done|]. split; [apply rows_of_pairs|]. split; [apply claim_rows_spec|]. split; [apply all_citation_rows|done].
    + destruct H as (w' & Hx & Hw). rewrite Hx. cbn [w_db w_seq w_usage w_uuids fst snd]. apply (Hfail _ _ _ _ Hw).
  - destruct H as (w' & Hx & Hu). rewrite Hx. cbn [w_db w_seq w_usage w_uuids fst snd]. by apply failure_leaves.
Qed.

(** the failures of a well-formed plan *)
Definition outside_failure (e : run_error) : Prop :=
  match e with
  | UnsupportedEmbeddingProvider p m => p = provider ∧ m = model ∧ p ≠ "mock"%string
  | LaneError (LaneExecutionError l cause) => ∃ q, lane_fn l q = Err cause
  | IncompleteFact item_id missing => missing ≠ []
  | GenerationError (ValueErr message) => ∃ z, z ∉ NUMERIC_SCALE_EXPONENTS ∧ message = ("illegal numeric scale: " +:+ str_of_Z z)%string
  | VerificationError (Arithmetic _) | CostError (CostArithmetic _) => True
  | _ => False
  end.

Lemma make_numeric_Err v unit period scale e : make_numeric v unit period scale = Err e → ∃ z, z ∉ NUMERIC_SCALE_EXPONENTS ∧ e = ValueErr ("illegal numeric scale: " +:+ str_of_Z z)%string.
Proof. unfold make_numeric. case_bool_decide; [done|]. intros [= <-]. by exists scale. Qed.

Lemma context_failure accepted e : _load_context_items corpus accepted = Err e → outside_failure e.
Proof.
  intros ([i row] & _ & H)%mapM_Err. apply bind_Err in H as [H|(m & _ & [=])]. cbn in H. unfold _numeric_from_fact_row in H. destruct (ir_financial_fact_id row); [|done]. cbv zeta in H.
  destruct (ir_value row) as [v|], (ir_unit row) as [unit|], (ir_period row) as [period|], (ir_scale row) as [scale|]; cbn in H;
    repeat case_match; simplify_eq; cbn; try done.
  apply bind_Err in H as [H|(x & _ & [=])]. match goal with H : map_err _ ?m = _ |- _ => destruct m as [|e'] eqn:Hm; [done|] end. cbn in H. injection H as <-. apply make_numeric_Err in Hm as (z & Hz & ->). by exists z.
Qed.

Lemma generation_failure question context as_of e : generated_or_rejected question context as_of generate_structured = Err e → outside_failure e.
Proof.
  unfold generated_or_rejected. destruct (generate _ _ _ _ _ _) as [g|[e' usage]] eqn:Hg; [done|]. intros H.
  destruct (generate_closed _ _ _ _ _ _ _ Hg) as [(code & message & -> & r & -> & _)|(z & Hz & -> & ->)]; [done|]. injection H as <-. by exists z.
Qed.

Lemma spec_failures e : run_spec plan provider model = Err e → outside_failure e.
Proof.
  intros [H|([t claims] & Ht & H)]%bind_Err.
  - unfold generated_spec in H. apply bind_Err in H as [H|([] & _ & H)].
    { unfold _resolve_embedding_provider in H. apply ensure_Err in H as [Hp <-]. apply bool_decide_eq_false in Hp. done. }
    destruct (wf_pins _ wf) as (_ & _ & [as_of Has]). unfold _parse_iso in H. rewrite Has in H. cbn [from_option_err mbind result_bind] in H.
    assert (∃ question, first_of (qp_variants plan) = Ok question) as [question Hqu].
    { destruct (wf_variants _ wf) as [_ [Hv _]]. destruct (qp_variants plan) as [|x l]; [cbn in Hv; lia|]. by exists x. }
    assert (∃ q, _lane_query embed plan as_of = Ok q) as [q Hq].
    { unfold _lane_query. rewrite Hqu. destruct (wf_entities _ wf) as [He _]. destruct (qp_entity_ids plan) as [|x l]; [done|]. by eexists. }
    rewrite Hq in H. cbn [mbind result_bind] in H. apply bind_Err in H as [H|(results & Hr & H)].
    { apply run_lanes_Err in H as (l & cause & -> & Hl). by exists q. }
    assert (lq_top_k q ≤ 100) as Htop.
    { unfold _lane_query in Hq. apply bind_Ok in Hq as (qt & _ & (ei & _ & [= <-])%bind_Ok). cbn. destruct (wf_budgets _ wf). lia. }
    pose proof (fuse_ranking results (fused_top_k (qp_budgets plan)) NoopReranker None (hits_lanes_ok plan q results promise Hr Htop)) as Hf. cbv zeta in Hf.
    destruct (wf_budgets _ wf) as (_ & Hk & _). rewrite decide_False in Hf by lia. destruct Hf as (fusion & ranked & Hf & _). rewrite Hf in H. cbn [map_err mbind result_bind] in H.
    apply bind_Err in H as [H|(context & _ & H)]; [by eapply context_failure|]. rewrite Hqu in H. cbn [mbind result_bind] in H.
    apply bind_Err in H as [H|([g rejection] & _ & H)]; [by eapply generation_failure|]. apply bind_Err in H as [H|(cost & _ & [=])].
    destruct (token_cost_usd _ _ _) as [|x] eqn:Hc; [done|]. injection H as <-. unfold token_cost_usd in Hc.
    repeat (apply bind_Err in Hc as [Hc|(? & _ & Hc)]); unfold cost_op in Hc; match goal with H : map_err _ ?r = Err _ |- _ => destruct r; [done|] end; by injection Hc as <-.
  - apply bind_Err in H as [H|(vs & _ & [=])]. unfold generated_spec in Ht. ok_inv.
    cbn [t_generation t_context] in H.
    match goal with Hg : generated_or_rejected _ ?ctx _ _ = Ok (?g, _) |- _ =>
      assert (∀ i x, gr_claims g !! i = Some x → proposed ctx i x) as Hp by (eapply generated_proposed; exact Hg); destruct (verify_claims (gr_claims g) ctx) as [|x] eqn:Hvc end; [done|].
    injection H as <-. by destruct (verify_claims_integrity _ _ _ Hp Hvc) as [y ->].
Qed.
(** an exception of the pipeline is a failure from outside, or a cost too large for its column *)
Lemma pipeline_failures n :
  match (execute_pipeline plan mode provider model (start n)).1 with
  | Ok _ => True
  | Err e => outside_failure e ∨ ∃ m, e = DatabaseError m ∧ numeric_12_6 (u_cost_usd (w_usage (execute_pipeline plan mode provider model (start n)).2)) = Err m
  end.
Proof.
  pose proof (execute_spec n) as H. destruct (run_spec plan provider model) as [[t claims]|e] eqn:Hspec.
  - destruct H as (Hu & _ & _ & H). destruct (numeric_12_6 (t_cost t)) as [c|m] eqn:Hn; [by destruct H as (n1 & w' & -> & _)|].
    destruct H as (w' & -> & Hw). right. exists m. cbn [snd]. by rewrite Hw, Hu.
  - destruct H as (w' & -> & _). left. by apply spec_failures.
Qed.
End run.
End trace.

(** C4: The run implements its specification.  With lanes that keep their promise, the
    pipeline's statements are never refused for what they say: a run whose lanes,
    provider and checks succeed leaves the whole trace of [run_spec], event by
    event, with one candidate row for each contribution, one claim row for each
    verified claim and one citation row for each of its citations, and is metered at
    the price of the tokens reported; any other run leaves its failure, and the
    spend reported before it failed.  Only a spend the column [cost_usd] cannot hold
    leaves the run as it was admitted. *)
Theorem run_implements_spec {V : Type} (embed : string → V) lane_fn generate_structured prices corpus query_index cutoff lane_ms phase_ms stamp uuid4 exc_text
    plan mode provider model usage_kind seq usage n :
  lanes_promise lane_fn corpus query_index cutoff → (∀ l, 0 ≤ lane_ms l) → plan_wf plan →
  d_sign (cost_per_1k_input_usd prices) = false → d_sign (cost_per_1k_output_usd prices) = false →
  let d := w_db (_run_pipeline_or_fail embed lane_fn generate_structured prices corpus query_index cutoff lane_ms phase_ms stamp uuid4 exc_text
                   plan mode provider model usage_kind (World fresh_run seq usage n)).2 in
  let reported := usage_spec embed lane_fn generate_structured prices corpus plan provider model in
  match numeric_12_6 (u_cost_usd reported) with
  | Ok _ =>
      match run_spec embed lane_fn generate_structured prices corpus plan provider model with
      | Ok (t, claims) => completed corpus lane_ms phase_ms stamp plan mode usage_kind t claims d
      | Err e => d = failed_with exc_text usage_kind e reported
      end
  | Err _ => d = fresh_run
  end.
Proof. intros. by apply run_leaves. Qed.

(** C6: The pipeline of a well-formed plan over promising lanes raises only for what
    lies outside it: an embedding provider other than the mock, a lane that raised,
    a fact whose provenance is incomplete, a numeric scale the tuples do not allow,
    an arithmetic limit, or a spend the column [cost_usd] cannot hold.  It never
    raises on any other refused statement, a missing key, a dangling or
    cross-version citation or a malformed answer. *)
Theorem run_fails_from_outside {V : Type} (embed : string → V) lane_fn generate_structured prices corpus query_index cutoff lane_ms phase_ms stamp uuid4
    plan mode provider model n :
  lanes_promise lane_fn corpus query_index cutoff → (∀ l, 0 ≤ lane_ms l) → plan_wf plan →
  d_sign (cost_per_1k_input_usd prices) = false → d_sign (cost_per_1k_output_usd prices) = false →
  let '(r, w) := _execute_pipeline embed lane_fn generate_structured prices corpus query_index cutoff lane_ms phase_ms stamp uuid4 plan mode provider model
                   (World fresh_run 0 (RunUsage dec_zero None) n) in
  match r with
  | Ok _ => True
  | Err e => outside_failure lane_fn provider model e ∨ ∃ m, e = DatabaseError m ∧ numeric_12_6 (u_cost_usd (w_usage w)) = Err m
  end.
Proof.
  intros Hp Ht Hw Hi Ho. pose proof (pipeline_failures embed lane_fn generate_structured prices corpus query_index cutoff lane_ms phase_ms stamp uuid4 (λ _, EmptyString) plan mode provider model EmptyString Hp Ht Hw Hi Ho n) as H.
  change (mk Queued [] [] [] [] (RunUsage dec_zero None) n) with (World fresh_run 0 (RunUsage dec_zero None) n) in H. by destruct (_execute_pipeline _ _ _ _ _ _ _ _ _ _ _ _ _ _ _ _).
Qed.

(** * One run *)

Module OneRun.
Definition INDEX : string := "6ba7b811-9dad-11d1-80b4-00c04fd430c8".
Definition request : query_request := QueryRequest "What was revenue?" None (Some (IntV 5)) None None.
Definition plan : query_plan :=
  match plan_query request INDEX INDEX [INDEX] "2026-01-01T00:00:00Z" with Ok p => p | Err _ => QueryPlan "" "" [] "" "" "" [] [] (PlanFilters [] []) (PlanBudgets 0 0 0 0) end.
Definition row : item_row := ItemRow "fact" "Revenue  was 100" "s1" "v1" (Some "f1"%string) (Some "FY2025"%string) (Some (Dec false 100 0)) (Some "USD"%string) (Some 6) 3 INDEX 5.
Definition corpus (i : string) : option item_row := if decide (i = "i1"%string) then Some row else None.
Definition hit (l : string) : lane_candidate := LaneCandidate "i1" l 1 "0.500000" "fact" "s1" "v1" "d1" (Datetime (Date 2025 1 1) 0 true) (Some "f1"%string) None None.
Definition lanes (l : string) (q : lane_query string) : lane_call :=
  if lq_top_k q <? 1 then Err "LIMIT"%string else Ok (if decide (l ∈ ["lexical"; "facts"]%string) then [hit l] else []).
Definition broken (l : string) (q : lane_query string) : lane_call := if decide (l = "dense"%string) then Err "connection refused"%string else lanes l q.
Definition uuid4 (n : nat) : string := ("id-" +:+ str_of_Z (Z.of_nat n))%string.

Lemma lanes_keep : lanes_promise lanes corpus INDEX 10.
Proof.
  intros l q hits Hl. unfold lanes. destruct (Z.ltb_spec (lq_top_k q) 1); [done|]. intros [= <-]. case_decide as Hin; split; cbn; try constructor; try lia.
  - by vm_compute.
  - constructor.
  - apply not_elem_of_nil.
  - constructor.
Qed.

Lemma broken_keep : lanes_promise broken corpus INDEX 10.
Proof. intros l q hits Hl. unfold broken. case_decide; [done|]. by apply lanes_keep. Qed.

Lemma plan_planned : plan_wf plan.
Proof. eapply (planned_wf request INDEX INDEX [INDEX] "2026-01-01T00:00:00Z"). vm_compute. reflexivity. Qed.

Definition left (lanes : string → lane_query string → lane_call) : database :=
  w_db (_run_pipeline_or_fail (λ t, t) lanes (Answer.provider 6) default_costs corpus INDEX 10 (λ _, 2) (λ _, 3) "now" uuid4 (λ _, "failed"%string)
          plan "execute" "mock" "m" "research_query" (World fresh_run 0 (RunUsage dec_zero None) 0)).2.
End OneRun.

Lemma run_implements_spec_witness :
  r_status (d_run (OneRun.left OneRun.lanes)) = Succeeded ∧ length (d_events (OneRun.left OneRun.lanes)) = 16%nat ∧
  match run_spec (λ t, t) OneRun.lanes (Answer.provider 6) default_costs OneRun.corpus OneRun.plan "mock" "m" with
  | Ok (t, claims) => completed OneRun.corpus (λ _, 2) (λ _, 3) "now" OneRun.plan "execute" "research_query" t claims (OneRun.left OneRun.lanes)
  | Err _ => False
  end.
Proof.
  split; [vm_compute; reflexivity|]. split; [vm_compute; reflexivity|].
  pose proof (run_implements_spec (λ t, t) OneRun.lanes (Answer.provider 6) default_costs OneRun.corpus OneRun.INDEX 10 (λ _, 2) (λ _, 3) "now" OneRun.uuid4 (λ _, "failed"%string)
    OneRun.plan "execute" "mock" "m" "research_query" 0 (RunUsage dec_zero None) 0 OneRun.lanes_keep ltac:(lia) OneRun.plan_planned eq_refl eq_refl) as H. cbv zeta in H.
  assert (is_ok (run_spec (λ t, t) OneRun.lanes (Answer.provider 6) default_costs OneRun.corpus OneRun.plan "mock" "m") = true) as Hok by (vm_compute; reflexivity).
  assert (is_ok (numeric_12_6 (u_cost_usd (usage_spec (λ t, t) OneRun.lanes (Answer.provider 6) default_costs OneRun.corpus OneRun.plan "mock" "m"))) = true) as Hc by (vm_compute; reflexivity).
  destruct (numeric_12_6 _); [|discriminate Hc]. destruct (run_spec _ _ _ _ _ _ _ _) as [[t claims]|e]; [exact H|discriminate Hok].
Defined.

Lemma run_fails_from_outside_witness :
  ∃ e, (_execute_pipeline (λ t, t) OneRun.broken (Answer.provider 6) default_costs OneRun.corpus OneRun.INDEX 10 (λ _, 2) (λ _, 3) "now" OneRun.uuid4
          OneRun.plan "execute" "mock" "m" (World fresh_run 0 (RunUsage dec_zero None) 0)).1 = Err e ∧ outside_failure OneRun.broken "mock" "m" e.
Proof.
  eexists. split; [vm_compute; reflexivity|].
  pose proof (run_fails_from_outside (λ t, t) OneRun.broken (Answer.provider 6) default_costs OneRun.corpus OneRun.INDEX 10 (λ _, 2) (λ _, 3) "now" OneRun.uuid4
    OneRun.plan "execute" "mock" "m" 0 OneRun.broken_keep ltac:(lia) OneRun.plan_planned eq_refl eq_refl) as H.
  assert ((_execute_pipeline (λ t, t) OneRun.broken (Answer.provider 6) default_costs OneRun.corpus OneRun.INDEX 10 (λ _, 2) (λ _, 3) "now" OneRun.uuid4
          OneRun.plan "execute" "mock" "m" (World fresh_run 0 (RunUsage dec_zero None) 0)).1 = Err (LaneError (LaneExecutionError "dense" "connection refused"))) as Hr by (vm_compute; reflexivity).
  destruct (_execute_pipeline _ _ _ _ _ _ _ _ _ _ _ _ _ _ _ _) as [r w]. cbn [fst] in Hr. rewrite Hr in H. destruct H as [H|(m & Hm & _)]; [exact H|discriminate Hm].
Defined.


(** a provider that reports more tokens than the column can bill leaves its run queued *)
Example overflow_stays_queued :
  let greedy r := let a := Answer.provider 6 r in
    StructuredResult (sr_parsed a) (sr_provider a) (sr_model a) (10 ^ 12) (sr_output_tokens a) (sr_response_id a) (sr_cost a) (sr_refused a) (sr_refusal a) in
  let '(r, w) := _run_pipeline_or_fail (λ t, t) OneRun.lanes greedy default_costs OneRun.corpus OneRun.INDEX 10 (λ _, 2) (λ _, 3) "now" OneRun.uuid4 (λ _, "failed"%string)
    OneRun.plan "execute" "mock" "m" "research_query" (World fresh_run 0 (RunUsage dec_zero None) 0) in
  r = Err (DatabaseError "numeric field overflow") ∧ w_db w = fresh_run ∧ u_generation (w_usage w) ≠ None.
Proof. vm_compute. split_and!; [reflexivity..|discriminate]. Qed.
