(* ===== verification/Json.v ===== *)
(** JSON texts (workers/src/fel_workers/ingestion/company_facts.py): [json.loads]
    with [parse_float=Decimal] and a [parse_constant] that raises, and the two
    renderings of the module.

    The scanner follows the C scanner of the [json] module.  An escaped character
    above 255 is outside the texts of this library: the error [WideCharacter].
    [spells] is the grammar of a value's texts; [loads_spells] proves the scanner
    complete for it, and the renderings spell texts of it. *)

From S2P Require Import Prelude Dicts Text Decimals Periods Canonical Payload Numeric.
Local Open Scope Z_scope.

(** * Objects *)

(** what a decoded payload is made of; [FloatJ] is a binary float, which only a
    client that does not decode with [parse_float=Decimal] delivers *)
Inductive pyjson :=
| NoneJ
| BoolJ (b : bool)
| IntJ (z : Z)
| DecJ (d : pydecimal)
| FloatJ
| StrJ (s : string)
| ListJ (l : list pyjson)
| DictJ (items : list (string * pyjson)).

Section induction.
Context (P : pyjson → Prop) (Hnone : P NoneJ) (Hbool : ∀ b, P (BoolJ b)) (Hint : ∀ z, P (IntJ z)) (Hdec : ∀ d, P (DecJ d))
  (Hfloat : P FloatJ) (Hstr : ∀ s, P (StrJ s)) (Hlist : ∀ l, Forall P l → P (ListJ l))
  (Hdict : ∀ items, Forall (λ kv, P (snd kv)) items → P (DictJ items)).

Lemma pyjson_induction : ∀ v, P v.
Proof.
  fix IH 1. intros [| | | | | |l|items]; [done|done|done|done|done|done| |].
  - apply Hlist. induction l as [|v l IHl]; constructor; [apply IH|exact IHl].
  - apply Hdict. induction items as [|kv items IHl]; constructor; [apply IH|exact IHl].
Qed.
End induction.

(** * [json.loads] *)

Inductive json_error :=
| Malformed       (* JSONDecodeError *)
| NonFinite       (* the exception of [parse_constant] *)
| TooManyDigits   (* ValueError of [int(...)]: more than 4300 digits *)
| DecimalRange    (* decimal.InvalidOperation of [Decimal(...)]: no such exponent *)
| WideCharacter
| OutOfFuel.

#[export] Instance json_error_eq_dec : EqDecision json_error.
Proof. solve_decision. Defined.

Notation decoded := (result json_error).

Definition json_space (a : ascii) : bool := let n := N_of_ascii a in ((n =? 32) || (n =? 9) || (n =? 10) || (n =? 13))%N.

Fixpoint skip_spaces (s : string) : string :=
  match s with String a s' => if json_space a then skip_spaces s' else s | EmptyString => EmptyString end.

Definition hex_digit (a : ascii) : option N :=
  let n := N_of_ascii a in
  if ((48 <=? n) && (n <=? 57))%N then Some (n - 48)%N
  else if ((97 <=? n) && (n <=? 102))%N then Some (n - 87)%N
  else if ((65 <=? n) && (n <=? 70))%N then Some (n - 55)%N else None.

(** the character an escape stands for, [\u] apart *)
Definition unescape (a : ascii) : option ascii :=
  let n := N_of_ascii a in
  if ((n =? 34) || (n =? 92) || (n =? 47))%N then Some a
  else if (n =? 98)%N then Some (ascii_of_N 8) else if (n =? 102)%N then Some (ascii_of_N 12)
  else if (n =? 110)%N then Some (ascii_of_N 10) else if (n =? 114)%N then Some (ascii_of_N 13)
  else if (n =? 116)%N then Some (ascii_of_N 9) else None.

Definition BACKSLASH : ascii := ascii_of_N 92.

Definition push (a : ascii) (r : decoded (string * string)) : decoded (string * string) :=
  '(t, rest) ← r; Ok (String a t, rest).

(** [scanstring], after the opening quote: the text and what follows the closing quote *)
Fixpoint scan_string (s : string) : decoded (string * string) :=
  match s with
  | EmptyString => Err Malformed
  | String a s' =>
      if Ascii.eqb a QUOTE then Ok (EmptyString, s')
      else if Ascii.eqb a BACKSLASH then
        match s' with
        | EmptyString => Err Malformed
        | String e s'' =>
            if Ascii.eqb e "u" then
              match s'' with
              | String h1 (String h2 (String h3 (String h4 r))) =>
                  match hex_digit h1, hex_digit h2, hex_digit h3, hex_digit h4 with
                  | Some a, Some b, Some c, Some d =>
                      let n := (a * 4096 + b * 256 + c * 16 + d)%N in
                      if (n <? 256)%N then push (ascii_of_N n) (scan_string r) else Err WideCharacter
                  | _, _, _, _ => Err Malformed
                  end
              | _ => Err Malformed
              end
            else match unescape e with Some c => push c (scan_string s'') | None => Err Malformed end
        end
      else if (N_of_ascii a <? 32)%N then Err Malformed
      else push a (scan_string s')
  end.

Definition INT_DIGITS : nat := 4300.

(** the digits behind a point, when there is a point with digits behind it *)
Definition scan_fraction (s : string) : list N * string :=
  match s with
  | String "." r => match span_digits r with ([], _) => ([], s) | f => f end
  | _ => ([], s)
  end.

Definition scan_exponent (s : string) : option Z * string :=
  match s with
  | String e r =>
      if Ascii.eqb e "e" || Ascii.eqb e "E" then
        let '(sign, r) := match r with String "-" r => (-1, r) | String "+" r => (1, r) | _ => (1, r) end in
        match span_digits r with ([], _) => (None, s) | (l, rest) => (Some (sign * Z.of_N (undigits l)), rest) end
      else (None, s)
  | _ => (None, s)
  end.

(** the digits of the integer part: a zero, or digits that do not start with one *)
Definition scan_int (s : string) : list N * string :=
  match s with String "0" r => ([0%N], r) | _ => span_digits s end.

Definition scan_number (s : string) : decoded (pyjson * string) :=
  let '(sign, r) := match s with String "-" r => (true, r) | _ => (false, s) end in
  match scan_int r with
  | ([], _) => Err Malformed
  | (ip, r) =>
      let '(fp, r) := scan_fraction r in
      let '(e, r) := scan_exponent r in
      match fp, e with
      | [], None =>
          if (INT_DIGITS <? length ip)%nat then Err TooManyDigits
          else Ok (IntJ ((if sign then -1 else 1) * Z.of_N (undigits ip)), r)
      | _, _ =>
          let d := Dec sign (undigits (ip ++ fp)) (default 0 e - Z.of_nat (length fp)) in
          if representable d then Ok (DecJ (Finite d), r) else Err DecimalRange
      end
  end.

(** [s] after the prefix [p] *)
Fixpoint after (p s : string) : option string :=
  match p, s with
  | EmptyString, _ => Some s
  | String a p', String b s' => if Ascii.eqb a b then after p' s' else None
  | _, EmptyString => None
  end.

Definition scan_atom (s : string) : decoded (pyjson * string) :=
  match after "null" s with Some r => Ok (NoneJ, r) | None =>
  match after "true" s with Some r => Ok (BoolJ true, r) | None =>
  match after "false" s with Some r => Ok (BoolJ false, r) | None =>
  if String.prefix "NaN" s || String.prefix "Infinity" s || String.prefix "-Infinity" s then Err NonFinite
  else scan_number s
  end end end.

(** the dict of the items read, in order: a repeated key keeps its place and takes the later value *)
Definition dict_of (items : list (string * pyjson)) : list (string * pyjson) :=
  foldl (λ d kv, dict_set kv.1 kv.2 d) [] items.

(** [scan_once]; [scan_items] is an object at a key, [scan_elems] an array at an element *)
Fixpoint scan (n : nat) (s : string) {struct n} : decoded (pyjson * string) :=
  match n with
  | O => Err OutOfFuel
  | S n =>
      match s with
      | EmptyString => Err Malformed
      | String a r =>
          if Ascii.eqb a QUOTE then '(t, rest) ← scan_string r; Ok (StrJ t, rest)
          else if Ascii.eqb a "{" then
            match skip_spaces r with
            | String "}" rest => Ok (DictJ [], rest)
            | r => '(items, rest) ← scan_items n r; Ok (DictJ (dict_of items), rest)
            end
          else if Ascii.eqb a "[" then
            match skip_spaces r with
            | String "]" rest => Ok (ListJ [], rest)
            | r => '(l, rest) ← scan_elems n r; Ok (ListJ l, rest)
            end
          else scan_atom s
      end
  end
with scan_items (n : nat) (s : string) {struct n} : decoded (list (string * pyjson) * string) :=
  match n with
  | O => Err OutOfFuel
  | S n =>
      match s with
      | String q r =>
          if Ascii.eqb q QUOTE then
            '(k, r) ← scan_string r;
            match skip_spaces r with
            | String ":" r =>
                '(v, r) ← scan n (skip_spaces r);
                match skip_spaces r with
                | String "}" rest => Ok ([(k, v)], rest)
                | String "," r => '(items, rest) ← scan_items n (skip_spaces r); Ok ((k, v) :: items, rest)
                | _ => Err Malformed
                end
            | _ => Err Malformed
            end
          else Err Malformed
      | EmptyString => Err Malformed
      end
  end
with scan_elems (n : nat) (s : string) {struct n} : decoded (list pyjson * string) :=
  match n with
  | O => Err OutOfFuel
  | S n =>
      '(v, r) ← scan n s;
      match skip_spaces r with
      | String "]" rest => Ok ([v], rest)
      | String "," r => '(l, rest) ← scan_elems n (skip_spaces r); Ok (v :: l, rest)
      | _ => Err Malformed
      end
  end.

(** every call moves on after at most two levels *)
Definition scan_fuel (s : string) : nat := 2 * String.length s + 2.

(** [json.loads(s, parse_float=Decimal, parse_constant=_reject_non_finite)] *)
Definition loads (s : string) : decoded pyjson :=
  '(v, r) ← scan (scan_fuel s) (skip_spaces s);
  match skip_spaces r with EmptyString => Ok v | _ => Err Malformed end.

(** * The renderings *)

(** [format(value, "f")] *)
Definition decimal_text (d : pydecimal) : string :=
  match d with Finite d => format_f d | Infinite s => (if s then "-" else "") +:+ "Infinity" | NaN => "NaN" end.

Definition decimal_str (value : pydecimal) : string :=
  let text := decimal_text value in
  let text := if contains "." text then rstrip_char "." (rstrip_char "0" text) else text in
  if bool_decide (text = ""%string) then "0" else text.

(** one character of a JSON string, [ensure_ascii=False] *)
Definition plain_escape (a : ascii) : string :=
  let n := N_of_ascii a in
  if (n =? 34)%N then String BACKSLASH (String QUOTE EmptyString) else if (n =? 92)%N then String BACKSLASH (String BACKSLASH EmptyString)
  else if (n =? 10)%N then "\n" else if (n =? 13)%N then "\r" else if (n =? 9)%N then "\t"
  else if (n =? 12)%N then "\f" else if (n =? 8)%N then "\b"
  else if (n <? 32)%N then "\u00" +:+ String (hex_char (n / 16)) (String (hex_char (n mod 16)) EmptyString)
  else String a EmptyString.

Fixpoint plain_escapes (s : string) : string :=
  match s with EmptyString => EmptyString | String a s' => plain_escape a +:+ plain_escapes s' end.

(** [json.dumps(s, ensure_ascii=False)] of a string *)
Definition json_str (s : string) : string := String QUOTE (plain_escapes s +:+ String QUOTE EmptyString).

Inductive render_error := LongInteger | Unserializable.

#[export] Instance render_error_eq_dec : EqDecision render_error.
Proof. solve_decision. Defined.

(** [json.dumps(z)] of an integer: [ValueError] above the digit limit *)
Definition json_int (z : Z) : result render_error string :=
  if (INT_DIGITS <? length (digits (Z.abs_N z)))%nat then Err LongInteger else Ok (str_of_Z z).

(** the walk both renderings share; [sep] and [colon] are what they put between items and behind keys *)
Fixpoint render_with (sep colon : string) (v : pyjson) : result render_error string :=
  match v with
  | NoneJ => Ok "null"%string
  | BoolJ b => Ok (if b then "true" else "false")%string
  | DecJ d => Ok (decimal_str d)
  | IntJ z => json_int z
  | StrJ s => Ok (json_str s)
  | FloatJ => Err Unserializable
  | ListJ l => texts ← mapM id (map (render_with sep colon) l); Ok ("[" +:+ join sep texts +:+ "]")%string
  | DictJ items =>
      texts ← mapM (λ kt, t ← snd kt; Ok (json_str (fst kt) +:+ colon +:+ t)%string)
                   (py_sorted key_le (map (λ kv, (fst kv, render_with sep colon (snd kv))) items));
      Ok ("{" +:+ join sep texts +:+ "}")%string
  end.

Definition _compact_json_value : pyjson → result render_error string := render_with "," ":".
Definition _render_json_value : pyjson → result render_error string := render_with ", " ": ".

(** a text written with apostrophes for its quotes *)
Definition with_quotes (s : string) : string := map_chars (λ a, if Ascii.eqb a APOSTROPHE then QUOTE else a) s.

Example json_sample : ∃ v,
  loads (with_quotes "{'b': [1, -2.50, 'a\n\u0041'], 'a' : null , 'b': [1e2, 'x\n']}") = Ok v ∧
  _compact_json_value v = Ok (with_quotes "{'a':null,'b':[100,'x\n']}").
Proof. eexists. split; [vm_compute; reflexivity|]. vm_compute. reflexivity. Qed.

(** * The texts of a value

    [spells v s] when [s] is a JSON text of the decoded value [v], with any spaces
    between its tokens. *)

Definition blanks (s : string) : Prop := Forall (λ a, json_space a = true) (chars s).

(** what may follow a value: the end, a space, or the punctuation of its container *)
Definition stops (s : string) : Prop :=
  match s with EmptyString => True | String a _ => json_space a = true ∨ a ∈ [","; "]"; "}"]%char end.

(** a token: scanned whole wherever it may end *)
Record token (v : pyjson) (s : string) : Prop := Token {
  tok_scan : ∀ rest, stops rest → scan_atom (s +:+ rest) = Ok (v, rest);
  tok_head : ∃ a t, s = String a t ∧ json_space a = false ∧ a ∉ [QUOTE; "{"; "["; "]"; "}"]%char }.

Inductive spells : pyjson → string → Prop :=
| w_token v s : token v s → spells v s
| w_str s : spells (StrJ s) (json_str s)
| w_no_elems w : blanks w → spells (ListJ []) ("[" +:+ w +:+ "]")
| w_list l s : elems l s → spells (ListJ l) ("[" +:+ s)
| w_no_items w : blanks w → spells (DictJ []) ("{" +:+ w +:+ "}")
| w_dict items s : NoDup items.*1 → fields items s → spells (DictJ items) ("{" +:+ s)
with elems : list pyjson → string → Prop :=
| w_elem v w1 s w2 : blanks w1 → spells v s → blanks w2 → elems [v] (w1 +:+ s +:+ w2 +:+ "]")
| w_elems v l w1 s w2 t : blanks w1 → spells v s → blanks w2 → elems l t → elems (v :: l) (w1 +:+ s +:+ w2 +:+ "," +:+ t)
with fields : list (string * pyjson) → string → Prop :=
| w_field k v w1 w2 w3 s w4 : blanks w1 → blanks w2 → blanks w3 → spells v s → blanks w4 →
    fields [(k, v)] (w1 +:+ json_str k +:+ w2 +:+ ":" +:+ w3 +:+ s +:+ w4 +:+ "}")
| w_fields k v items w1 w2 w3 s w4 t : blanks w1 → blanks w2 → blanks w3 → spells v s → blanks w4 → fields items t →
    fields ((k, v) :: items) (w1 +:+ json_str k +:+ w2 +:+ ":" +:+ w3 +:+ s +:+ w4 +:+ "," +:+ t).

Scheme spells_min := Minimality for spells Sort Prop
  with elems_min := Minimality for elems Sort Prop
  with fields_min := Minimality for fields Sort Prop.
Combined Scheme spells_elems_fields from spells_min, elems_min, fields_min.

(** * Strings *)

Lemma scan_plain_escape a t : scan_string (plain_escape a +:+ t) = push a (scan_string t).
Proof. destruct a as [[] [] [] [] [] [] [] []]; reflexivity. Qed.

Lemma scan_json_str s rest : scan_string (plain_escapes s +:+ String QUOTE rest) = Ok (s, rest).
Proof.
  induction s as [|a s IH]; [done|]. cbn [plain_escapes]. by rewrite string_app_assoc, scan_plain_escape, IH.
Qed.

Lemma json_str_app s rest : (json_str s +:+ rest)%string = String QUOTE (plain_escapes s +:+ String QUOTE rest).
Proof. unfold json_str. rewrite string_app_cons, string_app_assoc. done. Qed.

(** * Spaces *)

Lemma skip_spaces_app w s : blanks w → skip_spaces (w +:+ s) = skip_spaces s.
Proof.
  unfold blanks. induction w as [|a w IH]; [done|]. intros [Ha Hw]%Forall_cons. rewrite string_app_cons. cbn [skip_spaces]. by rewrite Ha, IH.
Qed.

Lemma skip_blank a s : json_space a = false → skip_spaces (String a s) = String a s.
Proof. cbn [skip_spaces]. by intros ->. Qed.

Lemma spaces_app w1 w2 : blanks w1 → blanks w2 → blanks (w1 +:+ w2).
Proof. unfold blanks. rewrite chars_app, Forall_app. done. Qed.

Lemma stops_spaces w s : blanks w → stops s → stops (w +:+ s).
Proof. destruct w as [|a w]; [done|]. intros [Ha _]%Forall_cons _. by left. Qed.

Lemma length_string_app s t : String.length (s +:+ t) = (String.length s + String.length t)%nat.
Proof. induction s as [|a s IH]; [done|]. rewrite string_app_cons. cbn. by rewrite IH. Qed.

Lemma spells_head : ∀ v s, spells v s → ∃ a t, s = String a t ∧ json_space a = false ∧ a ∉ ["]"; "}"]%char.
Proof.
  intros v s [v' s' [_ (a & t & -> & Ha & Hn)]|s'|w _|l s' _|w _|items s' _ _]; [exists a, t; split; [done|]; split; [done|]; set_solver|..];
    (eexists _, _; split; [reflexivity|]; split; [done|]; rewrite !not_elem_of_cons; repeat split; try done; apply not_elem_of_nil).
Qed.

Lemma dict_of_id items : NoDup items.*1 → dict_of items = items.
Proof.
  unfold dict_of. intros Hnd. change items with ([] ++ items) at 2. change items with ([] ++ items) in Hnd. revert Hnd.
  generalize (@nil (string * pyjson)) as d. induction items as [|[k v] items IH]; intros d Hnd; cbn [foldl]; [by rewrite app_nil_r|].
  rewrite fmap_app in Hnd. cbn [fmap list_fmap fst] in Hnd. rewrite dict_set_new by (apply NoDup_app in Hnd as (_ & H & _); cbn; intros Hk; apply (H k Hk); by left).
  rewrite IH; [by rewrite <- app_assoc|]. rewrite <- app_assoc. rewrite fmap_app. done.
Qed.

(** * The scanner reads every text of the grammar *)

Lemma scan_list_head n r a t :
  skip_spaces r = String a t → a ≠ "]"%char →
  scan (S n) (String "[" r) = ('(l, rest) ← scan_elems n (String a t); Ok (ListJ l, rest)).
Proof.
  intros Hr Ha. cbn [scan]. change (Ascii.eqb "[" QUOTE) with false. change (Ascii.eqb "[" "{") with false. change (Ascii.eqb "[" "[") with true. cbn iota.
  rewrite Hr. destruct a as [[] [] [] [] [] [] [] []]; try done.
Qed.

Lemma scan_dict_head n r a t :
  skip_spaces r = String a t → a ≠ "}"%char →
  scan (S n) (String "{" r) = ('(items, rest) ← scan_items n (String a t); Ok (DictJ (dict_of items), rest)).
Proof.
  intros Hr Ha. cbn [scan]. change (Ascii.eqb "{" QUOTE) with false. change (Ascii.eqb "{" "{") with true. cbn iota.
  rewrite Hr. destruct a as [[] [] [] [] [] [] [] []]; try done.
Qed.

Lemma scan_token n v s rest : token v s → stops rest → scan (S n) (s +:+ rest) = Ok (v, rest).
Proof.
  intros [Hs (a & t & -> & Ha & Hn)] Hr. specialize (Hs rest Hr). rewrite string_app_cons in *. cbn [scan].
  assert (a ≠ QUOTE ∧ a ≠ "{"%char ∧ a ≠ "["%char) as (H1 & H2 & H3) by set_solver.
  apply Ascii.eqb_neq in H1, H2, H3. rewrite H1, H2, H3. done.
Qed.

(** the scanner at a key whose value it reads *)
Lemma scan_field n k v w2 w3 s w4 rest :
  blanks w2 → blanks w3 → blanks w4 → spells v s → scan n (s +:+ (w4 +:+ rest)) = Ok (v, w4 +:+ rest)%string →
  scan_items (S n) (String QUOTE (plain_escapes k +:+ String QUOTE (w2 +:+ (":" +:+ (w3 +:+ (s +:+ (w4 +:+ rest))))))) =
  match skip_spaces rest with
  | String "}" rest => Ok ([(k, v)], rest)
  | String "," r => '(items, rest) ← scan_items n (skip_spaces r); Ok ((k, v) :: items, rest)
  | _ => Err Malformed
  end.
Proof.
  intros Hw2 Hw3 Hw4 Hs Hv. cbn [scan_items]. change (Ascii.eqb QUOTE QUOTE) with true. cbn iota. rewrite scan_json_str. cbn [mbind result_bind]. rewrite skip_spaces_app by done.
  change (skip_spaces (":" +:+ ?t)) with (String ":" t). cbn iota. rewrite skip_spaces_app by done. destruct (spells_head v s Hs) as (a & u & Hau & Ha & _).
  assert (skip_spaces (s +:+ (w4 +:+ rest)) = s +:+ (w4 +:+ rest))%string as -> by (by rewrite Hau, string_app_cons, skip_blank).
  rewrite Hv. cbn [mbind result_bind]. by rewrite skip_spaces_app.
Qed.

Lemma stops_comma t : stops ("," +:+ t).
Proof. right. apply list_elem_of_here. Qed.
Lemma stops_close (a : ascii) t : a ∈ ["]"; "}"]%char → stops (String a t).
Proof. intros H. right. by right. Qed.

Lemma scan_spells :
  (∀ v s, spells v s → ∀ n rest, (2 * String.length s < n)%nat → stops rest → scan n (s +:+ rest) = Ok (v, rest)) ∧
  (∀ l s, elems l s → ∀ n rest, (2 * String.length s < n)%nat → ∃ a t, skip_spaces (s +:+ rest) = String a t ∧ a ≠ "]"%char ∧ scan_elems n (String a t) = Ok (l, rest)) ∧
  (∀ items s, fields items s → ∀ n rest, (2 * String.length s < n)%nat → ∃ t, skip_spaces (s +:+ rest) = String QUOTE t ∧ scan_items n (String QUOTE t) = Ok (items, rest)).
Proof.
  apply spells_elems_fields.
  - intros v s Ht n rest Hn Hr. destruct n as [|n]; [lia|]. by apply scan_token.
  - intros s n rest Hn Hr. destruct n as [|n]; [lia|]. rewrite json_str_app. cbn [scan]. change (Ascii.eqb QUOTE QUOTE) with true. cbn iota. by rewrite scan_json_str.
  - intros w Hw n rest Hn Hr. destruct n as [|n]; [lia|]. rewrite !string_app_assoc, string_app_cons. cbn [scan].
    change (Ascii.eqb "[" QUOTE) with false. change (Ascii.eqb "[" "{") with false. change (Ascii.eqb "[" "[") with true. cbn iota.
    change ("" +:+ (w +:+ ("]" +:+ rest)))%string with (w +:+ ("]" +:+ rest))%string. by rewrite skip_spaces_app.
  - intros l s _ IH n rest Hn Hr. rewrite string_app_cons in *. cbn [String.length] in Hn. destruct n as [|n]; [lia|].
    rewrite string_app_cons. change ("" +:+ s)%string with s in *. destruct (IH n rest) as (a & t & Hs & Ha & He); [lia|]. rewrite (scan_list_head n _ a t Hs Ha), He. done.
  - intros w Hw n rest Hn Hr. destruct n as [|n]; [lia|]. rewrite !string_app_assoc, string_app_cons. cbn [scan].
    change (Ascii.eqb "{" QUOTE) with false. change (Ascii.eqb "{" "{") with true. cbn iota.
    change ("" +:+ (w +:+ ("}" +:+ rest)))%string with (w +:+ ("}" +:+ rest))%string. by rewrite skip_spaces_app.
  - intros items s Hnd _ IH n rest Hn Hr. rewrite string_app_cons in *. cbn [String.length] in Hn. destruct n as [|n]; [lia|].
    rewrite string_app_cons. change ("" +:+ s)%string with s in *. destruct (IH n rest) as (t & Hs & He); [lia|].
    rewrite (scan_dict_head n _ QUOTE t Hs), He by done. cbn [mbind result_bind]. by rewrite dict_of_id.
  - intros v w1 s w2 Hw1 Hs IH Hw2 n rest Hn. rewrite !length_string_app in Hn. cbn [String.length] in Hn. destruct n as [|n]; [lia|].
    rewrite !string_app_assoc, (skip_spaces_app w1) by done. destruct (spells_head v s Hs) as (a & t & Hat & Ha & Hna).
    exists a, (t +:+ (w2 +:+ ("]" +:+ rest)))%string. rewrite <- string_app_cons, <- Hat. split; [by rewrite Hat, string_app_cons, skip_blank|]. split; [set_solver|].
    cbn [scan_elems]. rewrite IH by (lia || by apply stops_spaces; [|apply stops_close; left]). cbn [mbind result_bind]. by rewrite skip_spaces_app.
  - intros v l w1 s w2 t Hw1 Hs IH Hw2 _ IHt n rest Hn. rewrite !length_string_app in Hn. cbn [String.length] in Hn. destruct n as [|n]; [lia|].
    rewrite !string_app_assoc, (skip_spaces_app w1) by done. destruct (spells_head v s Hs) as (a & u & Hau & Ha & Hna).
    exists a, (u +:+ (w2 +:+ ("," +:+ (t +:+ rest))))%string. rewrite <- string_app_cons, <- Hau. split; [by rewrite Hau, string_app_cons, skip_blank|]. split; [set_solver|].
    cbn [scan_elems]. rewrite IH by (lia || by apply stops_spaces; [|apply stops_comma]). cbn [mbind result_bind]. rewrite skip_spaces_app by done.
    change (skip_spaces ("," +:+ (t +:+ rest))) with (String "," (t +:+ rest)). destruct (IHt n rest) as (b & u' & Hb & _ & He); [lia|]. cbn iota. by rewrite Hb, He.
  - intros k v w1 w2 w3 s w4 Hw1 Hw2 Hw3 Hs IH Hw4 n rest Hn. rewrite !length_string_app in Hn. cbn [String.length] in Hn. destruct n as [|n]; [lia|].
    rewrite !string_app_assoc, (skip_spaces_app w1), json_str_app by done. eexists. split; [by rewrite skip_blank|].
    rewrite (scan_field n k v); [|done..|apply IH; [lia|apply stops_spaces; [done|apply stops_close; right; left]]]. done.
  - intros k v items w1 w2 w3 s w4 t Hw1 Hw2 Hw3 Hs IH Hw4 _ IHt n rest Hn. rewrite !length_string_app in Hn. cbn [String.length] in Hn. destruct n as [|n]; [lia|].
    rewrite !string_app_assoc, (skip_spaces_app w1), json_str_app by done. eexists. split; [by rewrite skip_blank|].
    rewrite (scan_field n k v); [|done..|apply IH; [lia|apply stops_spaces; [done|apply stops_comma]]].
    change (skip_spaces ("," +:+ (t +:+ rest))) with (String "," (t +:+ rest)). destruct (IHt n rest) as (u' & Hb & He); [lia|]. cbn iota. by rewrite Hb, He.
Qed.

(** A text of the grammar, with spaces around it, decodes to its value. *)
Lemma loads_spells v s w1 w2 : spells v s → blanks w1 → blanks w2 → loads (w1 +:+ s +:+ w2) = Ok v.
Proof.
  intros Hs Hw1 Hw2. unfold loads. rewrite skip_spaces_app by done. destruct (spells_head v s Hs) as (a & t & Hat & Ha & _).
  assert (skip_spaces (s +:+ w2) = s +:+ w2)%string as -> by (by rewrite Hat, string_app_cons, skip_blank).
  assert (stops w2) as Hst by (destruct w2; [done|]; apply Forall_cons in Hw2 as [H _]; by left).
  rewrite (proj1 scan_spells v s Hs) by (done || unfold scan_fuel; rewrite !length_string_app; lia). cbn [mbind result_bind].
  rewrite <- (string_app_nil w2), skip_spaces_app by done. done.
Qed.

(** * Numbers *)

(** an integer part as a number's text has it: a single digit, or no leading zero *)
Definition int_part (ip : list N) : Prop := digits_ok ip ∧ ip ≠ [] ∧ (length ip = 1%nat ∨ head ip ≠ Some 0%N).

Lemma stops_scan rest : stops rest → starts_with_digit rest = false ∧ scan_fraction rest = ([], rest) ∧ scan_exponent rest = (None, rest).
Proof.
  destruct rest as [|a r]; [done|]. intros Hr. assert (a ∉ ["0"; "1"; "2"; "3"; "4"; "5"; "6"; "7"; "8"; "9"; "."; "e"; "E"]%char) as Hn.
  { intros Hin. cbn [stops] in Hr. rewrite !elem_of_cons in *. rewrite !elem_of_nil in *. destruct_or!; subst; done. }
  clear Hr. destruct a as [[] [] [] [] [] [] [] []]; try done; exfalso; apply Hn; rewrite !elem_of_cons; tauto.
Qed.

Lemma digit_char_zero d : (d < 10)%N → digit_char d = "0"%char → d = 0%N.
Proof. intros Hd H. destruct (digit_char_spec d Hd) as [_ Hv]. rewrite H in Hv. by vm_compute in Hv. Qed.

Lemma scan_int_digits ip rest : int_part ip → starts_with_digit rest = false → scan_int (string_of_digits ip +:+ rest) = (ip, rest).
Proof.
  intros (Hip & Hne & Hlead) Hr. assert (span_digits (string_of_digits ip +:+ rest) = (ip, rest)) as Hs by by apply span_digits_app.
  destruct ip as [|d ip]; [done|]. rewrite string_of_digits_cons, string_app_cons in *. apply Forall_cons in Hip as [Hd Hip]. unfold scan_int.
  destruct (decide (digit_char d = "0"%char)) as [Hz|Hz].
  - rewrite Hz. apply digit_char_zero in Hz as ->; [|done]. destruct Hlead as [Hl|Hl]; [|done]. by destruct ip.
  - destruct (digit_char d) as [[] [] [] [] [] [] [] []]; try exact Hs; done.
Qed.

Lemma scan_number_plain (sign : bool) ip fp rest :
  int_part ip → digits_ok fp → stops rest →
  scan_number ((if sign then "-" else "") +:+ plain_text ip fp +:+ rest) =
  match fp with
  | [] => if (INT_DIGITS <? length ip)%nat then Err TooManyDigits else Ok (IntJ ((if sign then -1 else 1) * Z.of_N (undigits ip)), rest)
  | _ => let d := Dec sign (undigits (ip ++ fp)) (0 - Z.of_nat (length fp)) in if representable d then Ok (DecJ (Finite d), rest) else Err DecimalRange
  end.
Proof.
  intros Hip Hfp Hr. destruct (stops_scan rest Hr) as (Hd & Hf & He). unfold scan_number.
  assert (match ((if sign then "-" else "") +:+ plain_text ip fp +:+ rest)%string with String "-" r => (true, r) | _ => (false, (if sign then "-" else "") +:+ plain_text ip fp +:+ rest)%string end
          = (sign, (plain_text ip fp +:+ rest)%string)) as ->.
  { destruct sign; [done|]. unfold plain_text. destruct Hip as (Hip & Hne & _), ip as [|d ip]; [done|]. apply Forall_cons in Hip as [H10 _].
    rewrite string_of_digits_cons, !string_app_cons. destruct (digit_char_spec d H10) as [Hdig _]. change ("" +:+ ?t)%string with t. destruct (digit_char d) as [[] [] [] [] [] [] [] []]; done. }
  unfold plain_text. destruct fp as [|f fp].
  - rewrite string_app_assoc. change ("" +:+ rest)%string with rest. rewrite scan_int_digits by done. destruct ip as [|d ip]; [by destruct Hip as (_ & ? & _)|]. rewrite Hf, He. done.
  - rewrite !string_app_assoc. change ("." +:+ ?t)%string with (String "." t). rewrite scan_int_digits by done. destruct ip as [|d ip]; [by destruct Hip as (_ & ? & _)|].
    cbn [scan_fraction]. rewrite span_digits_app, He by done. done.
Qed.

Lemma scan_atom_plain (sign : bool) ip fp rest :
  int_part ip → scan_atom ((if sign then "-" else "") +:+ plain_text ip fp +:+ rest) = scan_number ((if sign then "-" else "") +:+ plain_text ip fp +:+ rest).
Proof.
  intros (Hip & Hne & _). destruct ip as [|d ip]; [done|]. apply Forall_cons in Hip as [Hd _]. unfold plain_text. rewrite string_of_digits_cons.
  destruct (digit_char_spec d Hd) as [Hdig _]. destruct sign; rewrite !string_app_cons; [change ("" +:+ ?t)%string with t|change ("" +:+ ?t)%string with t];
    rewrite ?string_app_cons; destruct (digit_char d) as [[] [] [] [] [] [] [] []]; done.
Qed.

(** what a number's plain text decodes to *)
Definition number (sign : bool) (ip fp : list N) : pyjson :=
  match fp with
  | [] => IntJ ((if sign then -1 else 1) * Z.of_N (undigits ip))
  | _ => DecJ (Finite (Dec sign (undigits (ip ++ fp)) (0 - Z.of_nat (length fp))))
  end.

Lemma undigits_lt l : digits_ok l → (undigits l < pow10 (Z.of_nat (length l)))%N.
Proof.
  induction l as [|d l IH] using rev_ind; [done|]. intros [Hl [Hd _]%Forall_cons]%Forall_app. specialize (IH Hl).
  rewrite undigits_snoc, length_app. cbn [length]. replace (Z.of_nat (length l + 1)) with (Z.of_nat (length l) + 1) by lia. rewrite pow10_succ by lia. lia.
Qed.

Lemma plain_token (sign : bool) ip fp :
  int_part ip → digits_ok fp → (length ip ≤ INT_DIGITS)%nat → MIN_ETINY ≤ - Z.of_nat (length fp) →
  token (number sign ip fp) ((if sign then "-" else "") +:+ plain_text ip fp).
Proof.
  intros Hip Hfp Hl Hmin. split.
  - intros rest Hr. rewrite string_app_assoc, scan_atom_plain, scan_number_plain by done. unfold number. destruct fp as [|f fp].
    + assert ((INT_DIGITS <? length ip)%nat = false) as -> by (apply Nat.ltb_ge; lia). done.
    + cbv zeta. assert (representable (Dec sign (undigits (ip ++ f :: fp)) (0 - Z.of_nat (length (f :: fp)))) = true) as ->; [|done].
      unfold representable, adjusted. cbn [d_coeff d_exp]. apply andb_true_iff. split; [by apply Z.leb_le|].
      case_match; apply Z.leb_le; [unfold MAX_EMAX; lia|].
      assert (ndigits (undigits (ip ++ f :: fp)) ≤ Z.of_nat (length (ip ++ f :: fp))) as Hn.
      { apply ndigits_le_iff; [rewrite length_app; cbn; lia|]. apply undigits_lt, Forall_app. split; [apply Hip|done]. }
      rewrite length_app in Hn. cbn [length] in *. unfold MAX_EMAX. assert (Z.of_nat (length ip) ≤ 4300) by (change 4300 with (Z.of_nat INT_DIGITS); lia). lia.
  - destruct Hip as (Hip & Hne & _), ip as [|d ip]; [done|]. apply Forall_cons in Hip as [Hd _]. unfold plain_text. rewrite string_of_digits_cons.
    destruct (digit_char_spec d Hd) as [Hdig _]. destruct sign; (eexists _, _; split; [reflexivity|]).
    + split; [done|]. rewrite !not_elem_of_cons; repeat split; try done; apply not_elem_of_nil.
    + split; [by destruct (digit_char d) as [[] [] [] [] [] [] [] []]|].
      rewrite !not_elem_of_cons; repeat split; try apply not_elem_of_nil; intros He; rewrite He in Hdig; done.
Qed.

Lemma rstrip_char_snoc c s t : Forall (λ a, a = c) (chars t) → rstrip_char c (s +:+ t) = rstrip_char c s.
Proof.
  intros Ht. induction s as [|a s IH].
  - change ("" +:+ t)%string with t. induction t as [|a t IH]; [done|]. apply Forall_cons in Ht as [-> Ht]. cbn [rstrip_char]. by rewrite IH, Ascii.eqb_refl.
  - rewrite string_app_cons. cbn [rstrip_char]. by rewrite IH.
Qed.

Lemma strip_zeros (fp : list N) : ∃ fp' k, fp = fp' ++ zeros k ∧ (fp' ≠ [] → ∃ d, last fp' = Some d ∧ d ≠ 0%N).
Proof.
  induction fp as [|d fp (fp' & k & -> & Hl)] using rev_ind; [by exists [], 0|]. destruct (decide (d = 0%N)) as [->|Hd].
  - exists fp', (Z.of_nat (S (Z.to_nat k))). split; [|done]. unfold zeros. rewrite Nat2Z.id, <- app_assoc. f_equal. apply (eq_sym (replicate_cons_app _ _)).
  - exists ((fp' ++ zeros k) ++ [d]), 0. rewrite app_nil_r. split; [done|]. intros _. exists d. by rewrite last_snoc.
Qed.

Lemma trimmed_zeros sign ip fp k :
  digits_ok ip → digits_ok fp → ip ≠ [] → (fp ≠ [] → ∃ d, last fp = Some d ∧ d ≠ 0%N) →
  trimmed (signed_plain sign ip (fp ++ zeros k)) = signed_plain sign ip fp.
Proof.
  intros Hip Hfp Hne Hlast. destruct (zeros k) as [|z zs] eqn:Hz; [rewrite app_nil_r; by apply trimmed_plain|].
  assert (Forall (λ a, a = "0"%char) (chars (string_of_digits (zeros k)))) as H0.
  { rewrite chars_digits. unfold zeros. rewrite fmap_replicate. by apply Forall_replicate. }
  assert (signed_plain sign ip (fp ++ z :: zs) = (sign_prefix sign +:+ string_of_digits ip +:+ "." +:+ string_of_digits fp) +:+ string_of_digits (zeros k))%string as Ht.
  { unfold signed_plain, plain_text. destruct (fp ++ z :: zs) eqn:He; [by destruct fp|]. rewrite <- He, <- Hz. apply chars_inj. rewrite !chars_app, !chars_digits, fmap_app, <- !app_assoc. done. }
  unfold trimmed. assert (contains "." (signed_plain sign ip (fp ++ z :: zs)) = true) as ->.
  { rewrite contains_char. apply bool_decide_eq_true. rewrite Ht, !chars_app, !elem_of_app. left. right. right. left. apply list_elem_of_here. }
  rewrite Ht, rstrip_char_snoc by done. destruct fp as [|f fp].
  - change ("." +:+ string_of_digits [])%string with "."%string. rewrite (rstrip_char_id "0") by (rewrite !chars_app, !last_app; done). assert (Forall (λ a, a = "."%char) (chars ".")) as Hdot by (apply Forall_singleton; done).
    rewrite <- !string_app_assoc, (rstrip_char_snoc _ _ "." Hdot).
    assert (sign_prefix sign +:+ string_of_digits ip = signed_plain sign ip [])%string as -> by (unfold signed_plain, plain_text; by rewrite string_app_nil).
    assert (last (chars (signed_plain sign ip [])) ≠ Some "."%char) as Hn.
    { intros H%last_Some_elem_of. rewrite chars_signed, app_nil_r in H. apply elem_of_app in H as [H|(x & Hx & Hin)%list_elem_of_fmap].
      - destruct sign; [by apply list_elem_of_singleton in H|by apply not_elem_of_nil in H].
      - rewrite Forall_forall in Hip. destruct (digit_char_spec x (Hip x Hin)) as [Hd _]. by rewrite <- Hx in Hd. }
    rewrite rstrip_char_id by done. rewrite bool_decide_false; [done|]. by destruct sign, ip.
  - destruct (Hlast ltac:(done)) as (d & Hd & Hd0). change (string_of_digits ip +:+ "." +:+ string_of_digits (f :: fp))%string with (plain_text ip (f :: fp)). fold (signed_plain sign ip (f :: fp)).
    assert (last (chars (signed_plain sign ip (f :: fp))) = Some (digit_char d)) as Hl by (rewrite chars_signed, !last_app; cbn [fraction_chars]; by rewrite last_cons, last_fmap_digit, Hd).
    assert (d < 10)%N as H10 by (rewrite Forall_forall in Hfp; by apply Hfp, last_Some_elem_of).
    destruct (digit_char_spec d H10) as [Hdig Hv].
    rewrite (rstrip_char_id "0"), (rstrip_char_id "."); rewrite ?Hl; try (intros [= Heq]; rewrite Heq in Hdig, Hv; [done || (vm_compute in Hv; congruence)]).
    all: cbv beta iota zeta; try (rewrite bool_decide_false; [done|by destruct sign, ip]).
Qed.

(** * The same JSON value: numbers by value, objects by their sorted keys *)

Inductive same : pyjson → pyjson → Prop :=
| same_none : same NoneJ NoneJ
| same_bool b : same (BoolJ b) (BoolJ b)
| same_int z : same (IntJ z) (IntJ z)
| same_dec_int d z : deq d (dec_of_Z z) → same (DecJ (Finite d)) (IntJ z)
| same_dec d d' : deq d d' → same (DecJ (Finite d)) (DecJ (Finite d'))
| same_str s : same (StrJ s) (StrJ s)
| same_list l l' : Forall2 same l l' → same (ListJ l) (ListJ l')
| same_dict items items' : Forall2 (λ a b, fst a = fst b ∧ same (snd a) (snd b)) (py_sorted key_le items) items' → same (DictJ items) (DictJ items').

(** numbers short enough to be read back: finite, and of at most 4300 digits before the point *)
Definition storable_decimal (d : pydecimal) : bool :=
  match d with Finite d => (adjusted d <? 4300) && (MIN_ETINY <=? d_exp d) | _ => false end.

Fixpoint storable (v : pyjson) : bool :=
  match v with
  | DecJ d => storable_decimal d
  | ListJ l => forallb storable l
  | DictJ items => bool_decide (NoDup items.*1) && forallb (λ kv, storable (snd kv)) items
  | _ => true
  end.

Lemma undigits_head_zero l : digits_ok (0%N :: l) → (undigits (0%N :: l) < pow10 (Z.of_nat (length l)))%N.
Proof. intros [_ H]%Forall_cons. change (0%N :: l) with ([0%N] ++ l). rewrite undigits_app. change (undigits [0%N]) with 0%N. rewrite N.mul_0_l. by apply undigits_lt. Qed.

Lemma format_int_part d ip fp (e := if (d_coeff d =? 0)%N && (0 <? d_exp d) then 0 else d_exp d) :
  digits_ok ip → digits_ok fp → ip ≠ [] → Z.of_nat (length fp) = Z.max 0 (- e) → Z.of_nat (length ip) = Z.max 1 (e + ndigits (d_coeff d)) →
  undigits (ip ++ fp) = (d_coeff d * pow10 e)%N → int_part ip.
Proof.
  intros Hip Hfp Hne Hlf Hli Hu. split; [done|]. split; [done|]. destruct (decide (length ip = 1%nat)) as [|Hl]; [by left|]. right. intros Hh.
  destruct ip as [|x ip]; [done|]. injection Hh as ->. assert (ip ≠ []) as Hip0 by (by intros ->). destruct (d_coeff d =? 0)%N eqn:Hz.
  - apply N.eqb_eq in Hz. unfold e in *. cbn [andb] in *. rewrite Hz in Hli. change (ndigits 0) with 1 in Hli. destruct ip; [done|]. cbn [length] in Hli. destruct (Z.ltb_spec 0 (d_exp d)); lia.
  - apply N.eqb_neq in Hz. pose proof (undigits_head_zero (ip ++ fp)) as Hlt. rewrite app_comm_cons in Hlt. specialize (Hlt ltac:(by apply Forall_app)).
    rewrite Hu, length_app in Hlt. cbn [length] in Hli. assert (1 ≤ length ip)%nat by (destruct ip; [done|cbn; lia]).
    pose proof (ndigits_lower _ Hz) as Hlow. clearbody e. clear Hu.
    destruct (Z.le_gt_cases 0 e) as [He|He].
    + assert (pow10 (ndigits (d_coeff d) - 1) * pow10 e ≤ d_coeff d * pow10 e)%N as Hm by (apply N.mul_le_mono_r; done).
      rewrite <- pow10_add in Hm by (pose proof (ndigits_pos (d_coeff d)); lia). replace (Z.of_nat (length ip + length fp)) with (ndigits (d_coeff d) - 1 + e) in Hlt by lia. lia.
    + assert (pow10 e = 1%N) as H1 by (unfold pow10; by replace (Z.to_N e) with 0%N by lia). rewrite H1, N.mul_1_r in Hlt.
      replace (Z.of_nat (length ip + length fp)) with (ndigits (d_coeff d) - 1) in Hlt by lia. lia.
Qed.

Lemma deq_zeros s a k n : 0 ≤ k → deq (Dec s (a * pow10 k) (- (n + k))) (Dec s a (- n)).
Proof.
  intros Hk. unfold deq. rewrite (dq_aligned (Dec s a (- n)) (- (n + k))) by (cbn; lia). rewrite dq_unfold. unfold aligned. rewrite !sval_sgn. cbn [d_exp].
  replace (- n - - (n + k)) with k by lia. by rewrite N2Z.inj_mul, pow10_Z, Z.mul_assoc by lia.
Qed.

Lemma sval_of_Z z : sval (dec_of_Z z) = z.
Proof. unfold dec_of_Z, sval. cbn [d_sign d_coeff]. destruct (Z.ltb_spec z 0); lia. Qed.

Lemma number_storable sign ip fp :
  digits_ok ip → digits_ok fp → (length ip ≤ INT_DIGITS)%nat → MIN_ETINY ≤ - Z.of_nat (length fp) → storable (number sign ip fp) = true.
Proof.
  intros Hip Hfp Hl Hm. destruct fp as [|f fp]; [done|]. cbn [number storable storable_decimal]. unfold adjusted. cbn [d_coeff d_exp]. apply andb_true_iff. split; [|apply Z.leb_le; lia]. apply Z.ltb_lt.
  assert (ndigits (undigits (ip ++ f :: fp)) ≤ Z.of_nat (length (ip ++ f :: fp))) as Hn by (apply ndigits_le_iff; [rewrite length_app; cbn; lia|]; apply undigits_lt, Forall_app; done).
  rewrite length_app in Hn. assert (Z.of_nat (length ip) ≤ 4300) by (change 4300 with (Z.of_nat INT_DIGITS); lia). lia.
Qed.

Lemma decimal_str_token d : storable_decimal (Finite d) = true → ∃ v, same (DecJ (Finite d)) v ∧ token v (decimal_str (Finite d)) ∧ storable v = true.
Proof.
  intros [Ha%Z.ltb_lt Hm%Z.leb_le]%andb_true_iff. destruct (format_f_plain d) as (ip & fp & Hf & Hip & Hfp & Hne & Hlf & Hli & Hu & _).
  pose proof (format_int_part d ip fp Hip Hfp Hne Hlf Hli Hu) as Hint. destruct (strip_zeros fp) as (fp' & k & -> & Hlast).
  apply Forall_app in Hfp as [Hfp' _]. exists (number (d_sign d) ip fp'). set (e := if (d_coeff d =? 0)%N && (0 <? d_exp d) then 0 else d_exp d) in *.
  assert (e ≤ d_exp d) as Hed by (unfold e; destruct (_ && _) eqn:Hb; [|lia]; apply andb_true_iff in Hb as [_ Hb%Z.ltb_lt]; lia).
  assert (MIN_ETINY ≤ e) as He by (unfold e; destruct (_ && _); [unfold MIN_ETINY; lia|done]).
  assert (deq d (Dec (d_sign d) (undigits (ip ++ fp')) (0 - Z.of_nat (length fp')))) as Hd.
  { destruct d as [s co ed]. cbn [d_sign d_coeff d_exp] in *. rewrite <- (plain_value s co ed ip (fp' ++ zeros k) Hlf Hu). unfold zeros. rewrite app_assoc, undigits_app, length_app, length_replicate.
    change (replicate (Z.to_nat k) 0%N) with (zeros k). rewrite undigits_zeros, N.add_0_r. replace (10 ^ N.of_nat (Z.to_nat k))%N with (pow10 (Z.max 0 k)) by (unfold pow10; f_equal; lia).
    replace (- Z.of_nat (length fp' + Z.to_nat k)) with (- (Z.of_nat (length fp') + Z.max 0 k)) by lia. rewrite deq_zeros by lia. done. }
  split.
  - unfold number. destruct fp' as [|f fp']; [|by apply same_dec]. apply same_dec_int. rewrite app_nil_r in Hd. etransitivity; [exact Hd|]. unfold deq. rewrite !dq_unfold. cbn [d_exp length dec_of_Z]. change (0 - Z.of_nat 0) with 0.
    rewrite sval_of_Z, sval_sgn. unfold sgn. by destruct (d_sign d).
  - assert (decimal_str (Finite d) = signed_plain (d_sign d) ip fp') as ->.
    { rewrite <- (trimmed_zeros _ _ _ k) by done. unfold decimal_str, decimal_text. by rewrite Hf. }
    assert (length ip ≤ INT_DIGITS)%nat as Hl.
    { assert (Z.of_nat (length ip) ≤ 4300); [|change 4300 with (Z.of_nat INT_DIGITS) in *; lia]. rewrite Hli. unfold adjusted in Ha. lia. }
    assert (MIN_ETINY ≤ - Z.of_nat (length fp')) as Hmin by (rewrite length_app in Hlf; unfold MIN_ETINY in *; lia).
    split; [by apply plain_token|by apply number_storable].
Qed.

(** * The renderings write the value *)

Lemma atom_token v a t :
  (∀ rest, stops rest → scan_atom (String a t +:+ rest) = Ok (v, rest)) → json_space a = false → a ∉ [QUOTE; "{"; "["; "]"; "}"]%char → spells v (String a t).
Proof. intros H Ha Hn. apply w_token. split; [done|]. by exists a, t. Qed.

Lemma json_int_token z s : json_int z = Ok s → token (IntJ z) s.
Proof.
  unfold json_int. destruct (INT_DIGITS <? _)%nat eqn:Hl; [done|]. intros [= <-]. apply Nat.ltb_ge in Hl.
  assert (int_part (digits (Z.abs_N z))) as Hip.
  { split; [apply digits_lt_10|]. assert (digits (Z.abs_N z) ≠ []) as Hne by (intros Hd; pose proof (ndigits_pos (Z.abs_N z)) as Hp; unfold ndigits in Hp; by rewrite Hd in Hp). split; [done|].
    destruct (decide (length (digits (Z.abs_N z)) = 1%nat)) as [|Hn]; [by left|]. right. intros Hh.
    destruct (digits (Z.abs_N z)) as [|x l] eqn:Hd; [done|]. injection Hh as ->. pose proof (digits_lt_10 (Z.abs_N z)) as H10. rewrite Hd in H10. pose proof (undigits_head_zero l H10) as Hlt.
    rewrite <- Hd, undigits_digits in Hlt. destruct (decide (Z.abs_N z = 0%N)) as [H0|H0]; [rewrite H0 in Hd; change (digits 0) with [0%N] in Hd; injection Hd as <-; done|].
    pose proof (ndigits_lower _ H0) as Hlow. unfold ndigits in Hlow. rewrite Hd in Hlow. cbn [length] in Hlow. replace (Z.of_nat (S (length l)) - 1) with (Z.of_nat (length l)) in Hlow by lia. lia. }
  assert (number (z <? 0) (digits (Z.abs_N z)) [] = IntJ z) as <-.
  { unfold number. rewrite undigits_digits. f_equal. destruct (Z.ltb_spec z 0); lia. }
  unfold str_of_Z. assert (string_of_digits (digits (Z.abs_N z)) = plain_text (digits (Z.abs_N z)) []) as -> by (unfold plain_text; by rewrite string_app_nil).
  apply plain_token; [done|constructor|lia|]. unfold MIN_ETINY. cbn. lia.
Qed.

Lemma spaces_nil : blanks "".
Proof. constructor. Qed.
#[export] Hint Resolve spaces_nil : core.

(** the items of a rendering are texts separated by commas *)
Lemma elems_join w vs texts w1 :
  blanks w → blanks w1 → Forall2 spells vs texts → vs ≠ [] → elems vs (w1 +:+ join ("," +:+ w) texts +:+ "]").
Proof.
  intros Hw Hw1 H. revert w1 Hw1. induction H as [|v t vs texts Hv H IH]; intros w1 Hw1 Hne; [done|].
  destruct H as [|v' t' vs texts Hv' H].
  - change (join ("," +:+ w) [t] +:+ "]")%string with (t +:+ ("" +:+ "]"))%string. by apply w_elem.
  - change (join ("," +:+ w) (t :: t' :: texts)) with (t +:+ (("," +:+ w) +:+ join ("," +:+ w) (t' :: texts)))%string. rewrite !string_app_assoc.
    change (t +:+ ("," +:+ ?x))%string with (t +:+ ("" +:+ ("," +:+ x)))%string. apply w_elems; [done|done|done|]. by apply IH.
Qed.

Lemma fields_join w c items texts w1 :
  blanks w → blanks c → blanks w1 → Forall2 (λ kv t, ∃ u, t = json_str kv.1 +:+ ":" +:+ c +:+ u ∧ spells kv.2 u)%string items texts → items ≠ [] →
  fields items (w1 +:+ join ("," +:+ w) texts +:+ "}").
Proof.
  intros Hw Hc Hw1 H. revert w1 Hw1. induction H as [|[k v] t items texts (u & -> & Hv) H IH]; intros w1 Hw1 Hne; [done|]. cbn [fst snd] in *.
  destruct H as [|kv' t' items texts Hv' H].
  - cbn [join]. rewrite !string_app_assoc. change (json_str k +:+ (":" +:+ (c +:+ (u +:+ "}"))))%string with (json_str k +:+ ("" +:+ (":" +:+ (c +:+ (u +:+ ("" +:+ "}"))))))%string. by apply w_field.
  - change (join ("," +:+ w) ((json_str k +:+ ":" +:+ c +:+ u) :: t' :: texts))%string with ((json_str k +:+ ":" +:+ c +:+ u) +:+ (("," +:+ w) +:+ join ("," +:+ w) (t' :: texts)))%string. rewrite !string_app_assoc.
    change (json_str k +:+ (":" +:+ (c +:+ (u +:+ ("," +:+ ?x)))))%string with (json_str k +:+ ("" +:+ (":" +:+ (c +:+ (u +:+ ("" +:+ ("," +:+ x)))))))%string.
    apply w_fields; try done. by apply IH.
Qed.

(** a key of the rendered item list comes with the item it renders *)
Lemma render_sorted (f : pyjson → result render_error string) items :
  py_sorted key_le (map (λ kv, (fst kv, f (snd kv))) items) = map (λ kv, (fst kv, f (snd kv))) (py_sorted key_le items).
Proof.
  assert (∀ (kv : string * pyjson) l, insert_sorted key_le (fst kv, f (snd kv)) (map (λ kv, (fst kv, f (snd kv))) l) = map (λ kv, (fst kv, f (snd kv))) (insert_sorted key_le kv l)) as Hins.
  { intros kv l. induction l as [|kv' l IH]; [done|]. cbn [map insert_sorted]. destruct (decide (key_le kv kv')) as [H|H].
    - by rewrite decide_True by exact H.
    - rewrite decide_False by exact H. cbn [map]. f_equal. exact IH. }
  induction items as [|kv items IH]; [done|]. cbn [map py_sorted]. by rewrite IH, Hins.
Qed.

Lemma render_items w c (items : list (string * pyjson)) texts :
  Forall (λ kv, ∀ s, storable kv.2 = true → render_with ("," +:+ w) (":" +:+ c) kv.2 = Ok s → ∃ v', same kv.2 v' ∧ spells v' s ∧ storable v' = true) items →
  Forall (λ kv, storable kv.2 = true) items →
  Forall2 (λ x y, (t ← snd x; Ok (json_str (fst x) +:+ (":" +:+ c) +:+ t)%string) = Ok y)
    (map (λ kv, (fst kv, render_with ("," +:+ w) (":" +:+ c) (snd kv))) items) texts →
  ∃ items', Forall2 (λ a b, fst a = fst b ∧ same (snd a) (snd b)) items items' ∧
    Forall2 (λ kv t, ∃ u, t = json_str kv.1 +:+ ":" +:+ c +:+ u ∧ spells kv.2 u)%string items' texts ∧
    forallb (λ kv, storable (snd kv)) items' = true.
Proof.
  intros IH Hst. revert texts. induction IH as [|[k v] l Hv _ IHl]; intros texts Hm; [inversion Hm; subst; by exists []|].
  cbn [map fst snd] in *. apply Forall_cons in Hst as [Hv0 Hst]. inversion Hm as [|? t ? ts Ht Hts]; subst. cbn [fst snd] in *. apply bind_Ok in Ht as (u & Hu & Ht). injection Ht as <-.
  destruct (Hv u Hv0 Hu) as (v' & Hs & Hw' & Hs0). destruct (IHl Hst ts Hts) as (items' & Hss & Hws & Hs1). exists ((k, v') :: items'). split; [by constructor|]. split; [constructor; [|done]|cbn; by rewrite Hs0, Hs1].
  exists u. split; [|done]. cbn [fst]. by rewrite string_app_assoc.
Qed.

(** A storable value renders to a text of the same value. *)
Lemma render_spells w c v s :
  blanks w → blanks c → storable v = true → render_with ("," +:+ w) (":" +:+ c) v = Ok s → ∃ v', same v v' ∧ spells v' s ∧ storable v' = true.
Proof.
  intros Hw Hc. revert s. induction v as [|b|z|d| |t|l IH|items IH] using pyjson_induction; cbn [render_with storable]; intros s Hst Hs.
  - injection Hs as <-. exists NoneJ. split; [constructor|]. split; [|done]. apply atom_token; [done|done|]. rewrite !not_elem_of_cons; repeat split; try done; apply not_elem_of_nil.
  - injection Hs as <-. exists (BoolJ b). split; [constructor|]. split; [|done]. destruct b; (apply atom_token; [done|done|]; rewrite !not_elem_of_cons; repeat split; try done; apply not_elem_of_nil).
  - exists (IntJ z). split; [constructor|]. split; [by apply w_token, json_int_token|done].
  - injection Hs as <-. destruct d as [d| |]; [|done|done]. destruct (decimal_str_token d Hst) as (v & Hv & Ht & Hs). exists v. split; [done|]. split; [by apply w_token|done].
  - done.
  - injection Hs as <-. exists (StrJ t). split; [constructor|]. split; [apply w_str|done].
  - apply bind_Ok in Hs as (texts & Hm & Hs). injection Hs as <-. apply mapM_Ok in Hm.
    assert (∃ vs, Forall2 same l vs ∧ Forall2 spells vs texts ∧ forallb storable vs = true) as (vs & Hsame & Hwr & Hstv).
    { revert texts Hm Hst. induction IH as [|v l Hv _ IHl]; intros texts Hm Hst; [inversion Hm; subst; by exists []|].
      cbn [map forallb] in *. apply andb_true_iff in Hst as [Hv0 Hst]. inversion Hm as [|? t ? ts Ht Hts]; subst.
      destruct (Hv t Hv0 Ht) as (v' & Hs & Hw' & Hs0). destruct (IHl ts Hts Hst) as (vs & Hss & Hws & Hs1). exists (v' :: vs). split; [by constructor|]. split; [by constructor|]. cbn. by rewrite Hs0, Hs1. }
    exists (ListJ vs). split; [by constructor|]. split; [|done]. clear Hstv. destruct vs as [|v vs].
    + inversion Hwr; subst. change ("[" +:+ join ("," +:+ w) [] +:+ "]")%string with ("[" +:+ "" +:+ "]")%string. by apply w_no_elems.
    + apply w_list. apply (elems_join w (v :: vs) texts ""); done.
  - apply andb_true_iff in Hst as [Hnd%bool_decide_eq_true Hst]. apply bind_Ok in Hs as (texts & Hm & Hs). injection Hs as <-. rewrite render_sorted in Hm. apply mapM_Ok in Hm.
    assert (Forall (λ kv : string * pyjson, ∀ s, storable kv.2 = true → render_with ("," +:+ w) (":" +:+ c) kv.2 = Ok s → ∃ v', same kv.2 v' ∧ spells v' s ∧ storable v' = true) (py_sorted key_le items)) as IH' by by rewrite (py_sorted_perm key_le items).
    assert (Forall (λ kv : string * pyjson, storable kv.2 = true) (py_sorted key_le items)) as Hst' by (rewrite (py_sorted_perm key_le items); apply Forall_forall; rewrite forallb_forall in Hst; intros kv Hin; apply Hst, list_elem_of_In, Hin).
    assert (NoDup (py_sorted key_le items).*1) as Hnd' by by rewrite (py_sorted_perm key_le items).
    destruct (render_items w c _ texts IH' Hst' Hm) as (items' & Hsame & Hwr & Hsti).
    assert (items'.*1 = (py_sorted key_le items).*1) as Hkeys by (clear -Hsame; induction Hsame as [|a b l l' [H _] _ IH]; [done|]; cbn; by rewrite H, IH).
    exists (DictJ items'). split; [by constructor|]. split; [|cbn [storable]; rewrite bool_decide_true by (by rewrite Hkeys); exact Hsti]. clear Hsti. destruct items' as [|kv items'].
    + inversion Hwr; subst. change ("{" +:+ join ("," +:+ w) [] +:+ "}")%string with ("{" +:+ "" +:+ "}")%string. by apply w_no_items.
    + apply w_dict; [|by apply (fields_join w c (kv :: items') texts "")].
      by rewrite Hkeys.
Qed.

Lemma same_list_of v v' l : same v v' → v = ListJ l → ∃ l', v' = ListJ l' ∧ Forall2 same l l'.
Proof. intros []; try done. intros [= <-]. eauto. Qed.

(** The compact bytes of a payload decode to the payload. *)
Lemma compact_loads v s : storable v = true → _compact_json_value v = Ok s → ∃ v', loads s = Ok v' ∧ same v v' ∧ storable v' = true.
Proof.
  intros Hst Hs. destruct (render_spells "" "" v s spaces_nil spaces_nil Hst Hs) as (v' & Hv & Hw & Hst'). exists v'. split; [|done].
  rewrite <- (string_app_nil s). by apply (loads_spells v' s "" "").
Qed.

Lemma spaces_one : blanks " ".
Proof. by apply Forall_singleton. Qed.
#[export] Hint Resolve spaces_one : core.

(** * The scanner ends *)

Lemma skip_spaces_length s : (String.length (skip_spaces s) ≤ String.length s)%nat.
Proof. induction s as [|a s IH]; [done|]. cbn [skip_spaces]. destruct (json_space a); cbn; lia. Qed.

Lemma span_digits_length s l r : span_digits s = (l, r) → (String.length r + length l = String.length s)%nat.
Proof.
  revert l r. induction s as [|a s IH]; intros l r; cbn [span_digits]; [by intros [= <- <-]|].
  destruct (is_digit a); [|by intros [= <- <-]]. destruct (span_digits s) as [l' r'] eqn:He. intros [= <- <-]. specialize (IH _ _ eq_refl). cbn. lia.
Qed.

Lemma after_length p s r : after p s = Some r → (String.length r + String.length p = String.length s)%nat.
Proof. revert s. induction p as [|a p IH]; intros [|b s]; cbn; try done; [intros [= <-]; cbn; lia..|]. destruct (Ascii.eqb a b); [|done]. intros H%IH. lia. Qed.

Lemma scan_int_length s l r : scan_int s = (l, r) → (String.length r + length l = String.length s)%nat.
Proof.
  unfold scan_int. intros H. assert (span_digits s = (l, r) ∨ ∃ r', s = String "0" r' ∧ l = [0%N] ∧ r = r') as [Hs|(r' & -> & -> & ->)].
  { destruct s as [|a s]; [by left|]. destruct a as [[] [] [] [] [] [] [] []]; try (left; exact H). right. exists s. by injection H as <- <-. }
  - by apply span_digits_length.
  - cbn. lia.
Qed.

Lemma scan_fraction_length s l r : scan_fraction s = (l, r) → (String.length r ≤ String.length s)%nat.
Proof.
  unfold scan_fraction. intros H. destruct s as [|a s]; [by injection H as <- <-|]. destruct (decide (a = "."%char)) as [->|Ha].
  - destruct (span_digits s) as [l' r'] eqn:He. apply span_digits_length in He. destruct l'; injection H as <- <-; cbn; lia.
  - destruct a as [[] [] [] [] [] [] [] []]; try (by destruct Ha); cbn in H; injection H as <- <-; cbn; lia.
Qed.

Lemma scan_exponent_length s e r : scan_exponent s = (e, r) → (String.length r ≤ String.length s)%nat.
Proof.
  destruct s as [|a s]; cbn [scan_exponent]; [by intros [= <- <-]|]. destruct (_ || _); [|by intros [= <- <-]].
  set (sr := match s with String "-" r => (-1, r) | String "+" r => (1, r) | _ => (1, s) end). assert (String.length sr.2 ≤ String.length s)%nat as Hsr.
  { unfold sr. destruct s as [|b s]; [done|]. destruct b as [[] [] [] [] [] [] [] []]; cbn; lia. }
  destruct sr as [sg t]. cbn [snd] in Hsr. destruct (span_digits t) as [l' r'] eqn:He. apply span_digits_length in He. destruct l'; intros [= <- <-]; cbn; lia.
Qed.

Lemma scan_atom_ends s : match scan_atom s with Err e => e ≠ OutOfFuel | Ok (_, r) => (String.length r < String.length s)%nat end.
Proof.
  unfold scan_atom. destruct (after "null" s) eqn:H1; [apply after_length in H1; cbn in H1; lia|].
  destruct (after "true" s) eqn:H2; [apply after_length in H2; cbn in H2; lia|]. destruct (after "false" s) eqn:H3; [apply after_length in H3; cbn in H3; lia|].
  destruct (_ || _); [intros [=]|].
  unfold scan_number. set (sr := match s with String "-" r => (true, r) | _ => (false, s) end). assert (String.length sr.2 ≤ String.length s)%nat as Hsr.
  { unfold sr. destruct s as [|b s]; [done|]. destruct b as [[] [] [] [] [] [] [] []]; cbn; lia. }
  destruct sr as [sg t]. cbn [snd] in Hsr. destruct (scan_int t) as [l r] eqn:Hi. apply scan_int_length in Hi. destruct l as [|x l]; [done|].
  destruct (scan_fraction r) as [fp r1] eqn:Hf. apply scan_fraction_length in Hf. destruct (scan_exponent r1) as [e r2] eqn:He. apply scan_exponent_length in He. cbn [length] in Hi.
  destruct fp, e; (cbv zeta; repeat case_match; simplify_eq; done || lia).
Qed.

Lemma scan_string_ends s : match scan_string s with Err e => e ≠ OutOfFuel | Ok (_, r) => (String.length r < String.length s)%nat end.
Proof.
  assert (∀ n s, (String.length s ≤ n)%nat → match scan_string s with Err e => e ≠ OutOfFuel | Ok (_, r) => (String.length r < String.length s)%nat end) as H; [|by eapply H].
  clear s. induction n as [|n IH]; intros [|a s] Hn; try done; [cbn in Hn; lia|]. cbn [String.length] in Hn.
  assert (∀ b t, (S (String.length t) ≤ S (String.length s))%nat → match push b (scan_string t) with Err e => e ≠ OutOfFuel | Ok (_, r) => (String.length r < S (String.length s))%nat end) as Hpush.
  { intros b t Ht. specialize (IH t ltac:(lia)). unfold push. destruct (scan_string t) as [[u r]|e]; cbn; [lia|done]. }
  cbn [scan_string]. destruct (Ascii.eqb a QUOTE); [cbn; lia|]. cbn [String.length]. destruct (Ascii.eqb a BACKSLASH).
  - destruct s as [|e s]; [done|]. destruct (Ascii.eqb e "u").
    + destruct s as [|h1 [|h2 [|h3 [|h4 s]]]]; try done. destruct (hex_digit h1), (hex_digit h2), (hex_digit h3), (hex_digit h4); try done.
      cbv zeta. destruct (_ <? _)%N; [|done]. apply Hpush. cbn. lia.
    + destruct (unescape e); [|done]. apply Hpush. cbn. lia.
  - destruct (_ <? _)%N; [done|]. apply Hpush. lia.
Qed.

Lemma bind_ends {A B} (m : decoded A) (f : A → decoded B) (R : A → Prop) (Q : B → Prop) :
  match m with Err e => e ≠ OutOfFuel | Ok a => R a end → (∀ a, R a → match f a with Err e => e ≠ OutOfFuel | Ok b => Q b end) →
  match m ≫= f with Err e => e ≠ OutOfFuel | Ok b => Q b end.
Proof. destruct m; [|done]. intros Ha Hf. by apply Hf. Qed.

Lemma scan_ends n :
  (∀ s, (2 * String.length s < n)%nat → match scan n s with Err e => e ≠ OutOfFuel | Ok vr => (String.length vr.2 < String.length s)%nat end) ∧
  (∀ s, (2 * String.length s < n)%nat → match scan_items n s with Err e => e ≠ OutOfFuel | Ok vr => (String.length vr.2 < String.length s)%nat end) ∧
  (∀ s, (2 * String.length s + 1 < n)%nat → match scan_elems n s with Err e => e ≠ OutOfFuel | Ok vr => (String.length vr.2 < String.length s)%nat end).
Proof.
  induction n as [|n (IHs & IHi & IHe)]; [split_and!; intros s Hs; lia|]. split_and!; intros s Hs.
  - destruct s as [|a r]; [done|]. cbn [scan]. cbn [String.length] in *. destruct (Ascii.eqb a QUOTE).
    { eapply (bind_ends _ _ (λ tr, (String.length tr.2 < String.length r)%nat)); [pose proof (scan_string_ends r) as H; by destruct (scan_string r) as [[]|]|]. intros [t rest] H. cbn in *. lia. }
    destruct (Ascii.eqb a "{"); [|destruct (Ascii.eqb a "["); [|pose proof (scan_atom_ends (String a r)) as H; by destruct (scan_atom (String a r)) as [[]|]]].
    + pose proof (skip_spaces_length r) as Hl. assert (∀ r', (String.length r' ≤ String.length r)%nat → match ('(items, rest) ← scan_items n r'; Ok (DictJ (dict_of items), rest)) with Err e => e ≠ OutOfFuel | Ok vr => (String.length vr.2 < S (String.length r))%nat end) as Hrec.
      { intros r' Hr'. eapply bind_ends; [apply IHi; lia|]. intros [items rest] H. cbn in *. lia. }
      specialize (Hrec _ Hl). destruct (skip_spaces r) as [|b t]; [exact Hrec|]. destruct b as [[] [] [] [] [] [] [] []]; try exact Hrec. cbn in *. lia.
    + pose proof (skip_spaces_length r) as Hl. assert (∀ r', (String.length r' ≤ String.length r)%nat → match ('(l, rest) ← scan_elems n r'; Ok (ListJ l, rest)) with Err e => e ≠ OutOfFuel | Ok vr => (String.length vr.2 < S (String.length r))%nat end) as Hrec.
      { intros r' Hr'. eapply bind_ends; [apply IHe; lia|]. intros [l rest] H. cbn in *. lia. }
      specialize (Hrec _ Hl). destruct (skip_spaces r) as [|b t]; [exact Hrec|]. destruct b as [[] [] [] [] [] [] [] []]; try exact Hrec. cbn in *. lia.
  - destruct s as [|q r]; [done|]. cbn [scan_items]. cbn [String.length] in *. destruct (Ascii.eqb q QUOTE); [|done].
    eapply (bind_ends _ _ (λ kr, (String.length kr.2 < String.length r)%nat)); [pose proof (scan_string_ends r) as H; by destruct (scan_string r) as [[]|]|]. intros [k r1] H1. cbn [snd] in H1.
    pose proof (skip_spaces_length r1) as Hl. destruct (skip_spaces r1) as [|b t]; [done|]. destruct b as [[] [] [] [] [] [] [] []]; try done. cbn [String.length] in Hl.
    pose proof (skip_spaces_length t) as Ht. eapply bind_ends; [apply IHs; lia|]. intros [v r2] H2. cbn [snd] in H2.
    pose proof (skip_spaces_length r2) as Hl2. destruct (skip_spaces r2) as [|c t2]; [done|]. destruct c as [[] [] [] [] [] [] [] []]; try done; cbn [String.length] in Hl2; [cbn; lia|].
    pose proof (skip_spaces_length t2) as Ht2. eapply bind_ends; [apply IHi; lia|]. intros [items rest] H3. cbn in *. lia.
  - cbn [scan_elems]. eapply bind_ends; [apply IHs; lia|]. intros [v r2] H2. cbn [snd] in H2.
    pose proof (skip_spaces_length r2) as Hl2. destruct (skip_spaces r2) as [|c t2]; [done|]. destruct c as [[] [] [] [] [] [] [] []]; try done; cbn [String.length] in Hl2; [cbn; lia|].
    pose proof (skip_spaces_length t2) as Ht2. eapply bind_ends; [apply IHe; lia|]. intros [items rest] H3. cbn in *. lia.
Qed.

(** [loads] returns a value or one of its exceptions, whatever the text. *)
Lemma loads_total s : loads s ≠ Err OutOfFuel.
Proof.
  pose proof (proj1 (scan_ends (scan_fuel s)) (skip_spaces s)) as H. unfold loads. pose proof (skip_spaces_length s) as Hl.
  specialize (H ltac:(unfold scan_fuel; lia)). destruct (scan _ _) as [[v r]|e]; cbn [mbind result_bind]; [by case_match|]. by intros [= ->].
Qed.
