(* ===== verification/Xbrl.v ===== *)
(** Evidence of the ingestion workers: the quarantine reason codes
    (workers/src/fel_workers/ingestion/errors.py), the sections, spans and raw
    facts of a parsed document (parser.py), content addresses (raw_store.py), and
    the normalization of XBRL facts (xbrl.py).

    A [bytes] object is a string of characters, one per byte.  A diagnostic's text
    is left out; its reason code is what the pipeline acts on. *)

From Stdlib Require Import QArith.
From S2P Require Import Prelude Dicts Text Decimals Periods Canonical Payload IsoDates Uuids Numeric Discovery Json.
Local Open Scope Z_scope.

(** * Reason codes *)

Inductive reason_code :=
| ENCODING_ERROR | EMPTY_DOCUMENT | MALFORMED_JSON | INCOMPLETE_FACT | UNKNOWN_CONTEXT | UNKNOWN_UNIT | INVALID_SCALE
| INVALID_PERIOD_DATE | INVALID_PERIOD_STRUCTURE | EMPTY_FACT_VALUE | UNPARSEABLE_FACT_VALUE | NONFINITE_FACT_VALUE
| UNKNOWN_FORMAT | INCONSISTENT_DUPLICATE | DIVERGENT_ACCESSION_CONTENT.

#[export] Instance reason_code_eq_dec : EqDecision reason_code.
Proof. solve_decision. Defined.

(** what ingestion code raises: an [IngestError] of its code, which the pipeline
    quarantines, or an exception that fails the job; [Unmodelled] is a text with a
    character above 255 *)
Inductive ingest_error :=
| Ingest (code : reason_code)
| Divergent (document_id : string)   (* DivergentAccessionError, with the recorded document *)
| Escapes (name : string)            (* any other exception, by its class *)
| Unmodelled.

Notation ingested := (result ingest_error).

(** * Hashes and identifiers *)

(** [text.encode()] *)
Fixpoint encode_utf8 (s : string) : string :=
  match s with
  | EmptyString => EmptyString
  | String a s' =>
      let n := N_of_ascii a in
      if (n <? 128)%N then String a (encode_utf8 s')
      else String (ascii_of_N (192 + n / 64)) (String (ascii_of_N (128 + n mod 64)) (encode_utf8 s'))
  end.

Definition sha256_hexdigest (data : string) : string := Sha256.hexdigest data.

Definition text_hash (text : string) : string := "sha256:" +:+ sha256_hexdigest (encode_utf8 text).

(** (content_hash, storage_key) *)
Definition content_address (raw : string) : string * string :=
  let digest := sha256_hexdigest raw in ("sha256:" +:+ digest, "raw/sha256/" +:+ digest)%string.

Definition canonical_text_address (text : string) : string := "text/sha256/" +:+ sha256_hexdigest (encode_utf8 text).

(** [str(uuid.uuid5(ID_NAMESPACE, name))] *)
Definition ingestion_id (name : string) : string := uuid_str (uuid5 INGESTION_NAMESPACE name).

Definition document_id_for_accession (accession : string) : string := ingestion_id ("document|" +:+ accession).

(** * A parsed document *)

Record section := Section_ {
  sec_id : string; sec_parent_id : option string; sec_heading : string; sec_heading_path : list string;
  sec_order : Z; sec_start : Z; sec_end : Z }.

Record source_span := SourceSpan {
  sp_id : string; sp_section_id : string; sp_start : Z; sp_end : Z; sp_text_hash : string; sp_text : string }.

Record extracted_table := ExtractedTable {
  tb_id : string; tb_section_id : string; tb_order : Z; tb_caption : option string; tb_headers : list string; tb_rows : list (list string) }.

Record xbrl_context := XbrlContext {
  cx_id : string; cx_instant : option date; cx_start : option date; cx_end : option date; cx_dimensions : list (string * string) }.

Record inline_fact := InlineFact {
  if_concept : string; if_context_ref : string; if_unit_ref : string; if_scale : Z; if_decimals : option string;
  if_sign : option string; if_format : option string; if_raw_text : string; if_span_id : string; if_section_id : string;
  if_start : Z; if_end : Z }.

Record parsed_document := ParsedDocument {
  pd_content_hash : string; pd_parser_version : string; pd_text : string; pd_sections : list section; pd_spans : list source_span;
  pd_tables : list extracted_table; pd_contexts : list (string * xbrl_context); pd_units : list (string * string);
  pd_facts : list inline_fact; pd_diagnostics : list string }.

Definition ROOT_HEADING : string := "(document)".

(** [text[start:end]] for offsets inside the text *)
Definition slice (text : string) (start stop : Z) : string := String.substring (Z.to_nat start) (Z.to_nat (stop - start)) text.

(** the characters a slice covers do not depend on what follows or precedes them *)
Lemma substring_whole s t : String.substring 0 (String.length s) (s +:+ t) = s.
Proof. induction s as [|a s IH]; [by destruct t|]. rewrite string_app_cons. cbn [String.length String.substring]. by rewrite IH. Qed.

Lemma substring_left n m s t : (n + m ≤ String.length s)%nat → String.substring n m (s +:+ t) = String.substring n m s.
Proof.
  revert n m. induction s as [|a s IH]; intros n m Hl; cbn [String.length] in Hl.
  - assert (n = 0 ∧ m = 0)%nat as [-> ->] by lia. by destruct t.
  - rewrite string_app_cons. destruct n as [|n]; [destruct m as [|m]; [done|]|]; cbn [String.substring]; [f_equal; apply IH; lia|apply IH; lia].
Qed.

Lemma substring_right n m s t : String.substring (String.length s + n) m (s +:+ t) = String.substring n m t.
Proof. induction s as [|a s IH]; [done|]. rewrite string_app_cons. cbn [String.length Nat.add String.substring]. exact IH. Qed.

Lemma slice_left s t start stop : 0 ≤ start ≤ stop → stop ≤ Z.of_nat (String.length s) → slice (s +:+ t) start stop = slice s start stop.
Proof. intros H Hs. apply substring_left. lia. Qed.

Lemma slice_right s t start stop :
  0 ≤ start → slice (s +:+ t) (Z.of_nat (String.length s) + start) (Z.of_nat (String.length s) + stop) = slice t start stop.
Proof.
  intros H. unfold slice. replace (Z.to_nat (Z.of_nat (String.length s) + start)) with (String.length s + Z.to_nat start)%nat by lia.
  replace (Z.of_nat (String.length s) + stop - (Z.of_nat (String.length s) + start)) with (stop - start) by lia. apply substring_right.
Qed.

(** * Values *)

Definition UNIT_MEASURES : list (string * string) :=
  [("iso4217:usd", "USD"); ("iso4217:eur", "EUR"); ("iso4217:gbp", "GBP"); ("iso4217:jpy", "JPY");
   ("xbrli:shares", "shares"); ("shares", "shares"); ("xbrli:pure", "pure"); ("pure", "pure")]%string.

(** the normalizer of this module *)
Definition NORMALIZER_VERSION : string := "fel-xbrl/1.0.0".

Definition map_unit (measure : string) : string := default measure (dict_get (lower measure) UNIT_MEASURES).

(** a transform's outcome: a value, [_ValueRejected], or [InvalidOperation] of [Decimal(...)] *)
Inductive rejection := ValueRejected (code : reason_code) | Unparseable.

Definition transform := string → result rejection pydecimal.

(** the other dash glyphs are characters above 255 *)
Definition DASH_TEXTS : list string := ["-"%string].

Fixpoint replace_char (c d : ascii) (s : string) : string :=
  match s with EmptyString => EmptyString | String a s' => String (if Ascii.eqb a c then d else a) (replace_char c d s') end.

Definition NBSP : ascii := ascii_of_N 160.

Definition _numeric (thousands decimal_sep : ascii) : transform := λ text,
  if bool_decide (text ∈ DASH_TEXTS) then Ok (Finite dec_zero)
  else
    let cleaned := remove_char thousands (remove_char NBSP (remove_char " " text)) in
    let cleaned := if Ascii.eqb decimal_sep "." then cleaned else replace_char decimal_sep "." cleaned in
    if bool_decide (cleaned = ""%string) then Err (ValueRejected EMPTY_FACT_VALUE)
    else from_option_err Unparseable (decimal_of_text cleaned).

Definition _num_dot_decimal : transform := _numeric "," ".".
Definition _num_comma_decimal : transform := _numeric "." ",".
Definition _fixed_zero : transform := λ _, Ok (Finite dec_zero).
Definition _fixed_empty : transform := λ _, Err (ValueRejected EMPTY_FACT_VALUE).

Definition FORMAT_TRANSFORMS : list (string * transform) :=
  [("num-dot-decimal", _num_dot_decimal); ("numdotdecimal", _num_dot_decimal); ("num-comma-decimal", _num_comma_decimal);
   ("numcommadecimal", _num_comma_decimal); ("fixed-zero", _fixed_zero); ("fixedzero", _fixed_zero); ("fixed-empty", _fixed_empty);
   ("fixedempty", _fixed_empty); ("zerodash", _fixed_zero); ("numdash", _fixed_zero)]%string.

(** [s.rsplit(":", 1)[-1]] *)
Fixpoint after_last_colon (s : string) : string :=
  match s with
  | EmptyString => EmptyString
  | String a s' => if contains ":" s' then after_last_colon s' else if Ascii.eqb a ":" then s' else s
  end.

(** [d.scaleb(k)] in the default context *)
Definition dec_scaleb (d : decimal) (k : Z) : result signal decimal :=
  if 2 * (Emax DEFAULT_CONTEXT + prec DEFAULT_CONTEXT) <? Z.abs k then Err InvalidOperation
  else dec_fix DEFAULT_CONTEXT (Dec (d_sign d) (d_coeff d) (d_exp d + k)).

(** the handlers of the [try] around the arithmetic: only [InvalidOperation] is caught *)
Definition fact_arith {A} (r : result signal A) : ingested A :=
  match r with
  | Ok a => Ok a
  | Err InvalidOperation => Err (Ingest UNPARSEABLE_FACT_VALUE)
  | Err DivisionByZero => Err (Escapes "DivisionByZero")
  | Err Overflow => Err (Escapes "Overflow")
  end.

Definition negate (d : decimal) : result signal decimal :=
  dec_fix DEFAULT_CONTEXT (if (d_coeff d =? 0)%N then dec_abs d else dec_neg d).

(** ['('] and [')'] around at least nothing *)
Definition parenthesized (text : string) : bool :=
  (2 <=? String.length text)%nat && bool_decide (head (chars text) = Some "("%char) && bool_decide (last (chars text) = Some ")"%char).

Definition transform_of (format : option string) : ingested transform :=
  match format with
  | None => Ok _num_dot_decimal
  | Some f => from_option_err (Ingest UNKNOWN_FORMAT) (dict_get (lower (strip (after_last_colon f))) FORMAT_TRANSFORMS)
  end.

Definition parse_fact_value (fact : inline_fact) : ingested decimal :=
  t ← transform_of (if_format fact);
  let text := strip (if_raw_text fact) in
  let negative := parenthesized text in
  let text := if negative then strip (String.substring 1 (String.length text - 2) text) else text in
  match t text with
  | Err (ValueRejected code) => Err (Ingest code)
  | Err Unparseable => Err (Ingest UNPARSEABLE_FACT_VALUE)
  | Ok (Infinite _) | Ok NaN => Err (Ingest NONFINITE_FACT_VALUE)
  | Ok (Finite m) =>
      m ← (if negative then fact_arith (negate m) else Ok m);
      m ← (if bool_decide (if_sign fact = Some "-"%string) then fact_arith (negate m) else Ok m);
      fact_arith (dec_scaleb m (if_scale fact))
  end.

(** * Normalized facts *)

Record normalized_fact := NormalizedFact {
  nf_id : string; nf_entity_id : string; nf_document_version_id : string; nf_concept : string; nf_label : option string; nf_value : string;
  nf_unit : string; nf_scale : Z; nf_period_type : string; nf_period_instant : option date; nf_period_start : option date; nf_period_end : option date;
  nf_dimensions : list (string * string); nf_source_span_id : string; nf_reported_or_derived : string; nf_confidence : Z;
  nf_fact_key : string; nf_duplicate_of : option string; nf_restates : option string }.

(** [f"{d}"] of a date or [None] *)
Definition date_str (d : option date) : string := match d with Some d => date_isoformat d | None => "None" end.

Definition fact_key (concept unit period_type : string) (period_instant period_start period_end : option date) (dimensions : list (string * string)) : string :=
  let period_repr := if bool_decide (period_type = "instant"%string) then "instant:" +:+ date_str period_instant
                     else "duration:" +:+ date_str period_start +:+ ":" +:+ date_str period_end in
  let dims_repr := join ";" (map (λ kv, kv.1 +:+ "=" +:+ kv.2) (py_sorted key_le dimensions)) in
  (concept +:+ "|" +:+ unit +:+ "|" +:+ period_repr +:+ "|" +:+ dims_repr)%string.

(** PriorFact *)
Record prior_fact := PriorFact { pf_fact_id : string; pf_value : string }.

(** * The loop of both normalizers

    What a source fact gives it, before its id and its place among the others *)
Record draft := Draft {
  dr_concept : string; dr_label : option string; dr_value : string; dr_unit : string; dr_period_type : string;
  dr_instant : option date; dr_start : option date; dr_end : option date; dr_dimensions : list (string * string); dr_span_id : string; dr_key : string }.

Record loop_state := LoopState { ls_canonical : list (string * normalized_fact); ls_out : list normalized_fact }.

Definition duplicate_of (st : loop_state) (d : draft) : ingested (option string) :=
  match dict_get (dr_key d) (ls_canonical st) with
  | Some existing => if bool_decide (nf_value existing = dr_value d) then Ok (Some (nf_id existing)) else Err (Ingest INCONSISTENT_DUPLICATE)
  | None => Ok None
  end.

Definition fact_id (document_version_id : string) (ordinal : nat) (key : string) : string :=
  ingestion_id (document_version_id +:+ "|fact|" +:+ str_of_Z (Z.of_nat ordinal) +:+ "|" +:+ key)%string.

Definition add_fact (entity_id document_version_id : string) (restates : draft → option string) (st : loop_state) (d : draft) : ingested loop_state :=
  duplicate ← duplicate_of st d;
  let normalized :=
    NormalizedFact (fact_id document_version_id (length (ls_out st)) (dr_key d)) entity_id document_version_id (dr_concept d) (dr_label d) (dr_value d)
      (dr_unit d) 0 (dr_period_type d) (dr_instant d) (dr_start d) (dr_end d) (dr_dimensions d) (dr_span_id d) "reported" 1 (dr_key d) duplicate (restates d) in
  Ok (LoopState (match duplicate with None => dict_set (dr_key d) normalized (ls_canonical st) | Some _ => ls_canonical st end) (ls_out st ++ [normalized])).

(** * [normalize_facts] *)

Definition make_draft (concept : string) (label : option string) (value : decimal) (unit period_type : string) (instant start stop : option date)
    (dimensions : list (string * string)) (span_id : string) : draft :=
  Draft concept label (decimal_str (Finite value)) unit period_type instant start stop dimensions span_id (fact_key concept unit period_type instant start stop dimensions).

(** a context has an instant, or both ends of a duration *)
Definition period_of (c : xbrl_context) : ingested (string * option date * option date * option date) :=
  match cx_instant c, cx_start c, cx_end c with
  | Some i, _, _ => Ok ("instant"%string, Some i, None, None)
  | None, Some s, Some e => Ok ("duration"%string, None, Some s, Some e)
  | _, _, _ => Err (Ingest INVALID_PERIOD_STRUCTURE)
  end.

Definition draft_of (parsed : parsed_document) (fact : inline_fact) : ingested draft :=
  context ← from_option_err (Escapes "KeyError") (dict_get (if_context_ref fact) (pd_contexts parsed));
  measure ← from_option_err (Escapes "KeyError") (dict_get (if_unit_ref fact) (pd_units parsed));
  let unit := map_unit measure in
  value ← parse_fact_value fact;
  '(period_type, instant, start, stop) ← period_of context;
  Ok (make_draft (if_concept fact) None value unit period_type instant start stop (cx_dimensions context) (if_span_id fact)).

(** the earlier fact a value restates *)
Definition restates_of (prior : list (string * prior_fact)) (d : draft) : option string :=
  match dict_get (dr_key d) prior with
  | Some earlier => if bool_decide (pf_value earlier = dr_value d) then None else Some (pf_fact_id earlier)
  | None => None
  end.

Definition normalize_facts (parsed : parsed_document) (entity_id document_version_id : string) (prior_facts : list (string * prior_fact)) : ingested (list normalized_fact) :=
  st ← foldM (λ st fact, d ← draft_of parsed fact; add_fact entity_id document_version_id (restates_of prior_facts) st d) (LoopState [] []) (pd_facts parsed);
  Ok (ls_out st).

(** * A displayed amount is read exactly *)

(** the formats that name a style of writing numbers, with its thousands separator
    and its decimal point *)
Inductive number_style : option string → ascii → ascii → Prop :=
| style_default : number_style None "," "."
| style_dot f : lower (strip (after_last_colon f)) ∈ ["num-dot-decimal"; "numdotdecimal"]%string → number_style (Some f) "," "."
| style_comma f : lower (strip (after_last_colon f)) ∈ ["num-comma-decimal"; "numcommadecimal"]%string → number_style (Some f) "." ",".

(** the characters of an amount that are neither spaces nor thousands separators *)
Definition displayed (thousands : ascii) (body : string) : string := remove_char thousands (remove_char NBSP (remove_char " " body)).

(** the digits [ip], then the point and the digits [fp] when there are any *)
Definition amount_text (point : ascii) (ip fp : list N) : string :=
  (string_of_digits ip +:+ match fp with [] => "" | _ => String point (string_of_digits fp) end)%string.

Lemma replace_char_digits c d l rest : (∀ n, (n < 10)%N → digit_char n ≠ c) → digits_ok l →
  replace_char c d (string_of_digits l +:+ rest)%string = (string_of_digits l +:+ replace_char c d rest)%string.
Proof.
  intros Hc. induction 1 as [|n l Hn _ IH]; [done|]. rewrite string_of_digits_cons, !string_app_cons. cbn [replace_char].
  rewrite IH. destruct (Ascii.eqb_spec (digit_char n) c) as [He|_]; [by destruct (Hc n Hn)|done].
Qed.

Lemma digit_not_comma n : (n < 10)%N → digit_char n ≠ ","%char.
Proof. intros [Hd _]%digit_char_spec He. by rewrite He in Hd. Qed.

Lemma comma_amount ip fp : digits_ok ip → digits_ok fp → replace_char "," "." (amount_text "," ip fp) = plain_text ip fp.
Proof.
  intros Hip Hfp. unfold amount_text, plain_text. rewrite (replace_char_digits _ _ _ _ digit_not_comma Hip). f_equal. destruct fp as [|d fp]; [done|].
  cbn [replace_char]. change (Ascii.eqb "," ",") with true. cbn iota. rewrite <- (string_app_nil (string_of_digits (d :: fp))) at 1. rewrite (replace_char_digits _ _ _ _ digit_not_comma Hfp).
  cbn [replace_char]. by rewrite string_app_nil.
Qed.

(** an amount starts with a digit: it is no dash and no parenthesis *)
Lemma amount_starts thousands point body ip fp a s : thousands ∈ [","; "."]%char → displayed thousands body = amount_text point ip fp → digits_ok ip → ip ≠ [] →
  body = String a s → a ≠ "-"%char ∧ a ≠ "("%char.
Proof.
  intros Ht Hb Hip Hne ->. destruct ip as [|d ip]; [done|]. apply Forall_cons in Hip as [[Hd _]%digit_char_spec _].
  unfold amount_text in Hb. rewrite string_of_digits_cons, string_app_cons in Hb.
  assert (∀ b, b ∈ ["-"; "("]%char → a ≠ b) as H; [|split; apply H; set_solver].
  intros b Hb' ->. assert (displayed thousands (String b s) = String b (displayed thousands s)) as He.
  { repeat (apply elem_of_cons in Ht as [->|Ht]); [| |by apply not_elem_of_nil in Ht]; repeat (apply elem_of_cons in Hb' as [->|Hb']); try done; by apply not_elem_of_nil in Hb'. }
  rewrite He in Hb. injection Hb as -> _. repeat (apply elem_of_cons in Hb' as [Hb'|Hb']); [| |by apply not_elem_of_nil in Hb']; by rewrite Hb' in Hd.
Qed.

Lemma style_reads format thousands point body ip fp :
  number_style format thousands point →
  displayed thousands body = amount_text point ip fp → digits_ok ip → digits_ok fp → ip ≠ [] → representable (Dec false (undigits (ip ++ fp)) (- Z.of_nat (length fp))) = true →
  ∃ t, transform_of format = Ok t ∧ t body = Ok (Finite (Dec false (undigits (ip ++ fp)) (- Z.of_nat (length fp)))).
Proof.
  intros Hs Hb Hip Hfp Hne Hr.
  assert ((thousands, point) ∈ [(",", "."); (".", ",")]%char) as Hsep by (destruct Hs; set_solver).
  exists (_numeric thousands point). split.
  - destruct Hs as [|f Hf|f Hf]; [done| |]; unfold transform_of; repeat (apply elem_of_cons in Hf as [->|Hf]; [done|]); by apply not_elem_of_nil in Hf.
  - unfold _numeric. rewrite bool_decide_false.
    2: { intros ->%list_elem_of_singleton. destruct (amount_starts thousands point "-" ip fp "-" ""); [set_solver|done..]. }
    cbv zeta. fold (displayed thousands body). rewrite Hb.
    assert ((if Ascii.eqb point "." then amount_text point ip fp else replace_char point "." (amount_text point ip fp)) = plain_text ip fp) as ->.
    { repeat (apply elem_of_cons in Hsep as [[= -> ->]|Hsep]); [by destruct fp|by apply comma_amount|by apply not_elem_of_nil in Hsep]. }
    assert (plain_text ip fp ≠ ""%string) as Hn by (destruct ip; [done|]; unfold plain_text; by rewrite string_of_digits_cons, string_app_cons).
    rewrite (bool_decide_false _ Hn). rewrite decimal_of_plain; [|done|done|by destruct ip]. by rewrite Hr.
Qed.

Lemma dq_sign_flip s co e : (dq (Dec (negb s) co e) == - dq (Dec s co e))%Q.
Proof. exact (dq_neg (Dec s co e)). Qed.

Lemma negate_spec d : fits DEFAULT_CONTEXT d = true → ∃ d', negate d = Ok d' ∧ fits DEFAULT_CONTEXT d' = true ∧ d_coeff d' = d_coeff d ∧ d_exp d' = d_exp d ∧ (dq d' == - dq d)%Q.
Proof.
  intros Hf. destruct d as [s co e]. unfold negate. cbn [d_coeff]. destruct (N.eqb_spec co 0) as [->|Hn].
  - assert (fits DEFAULT_CONTEXT (Dec false 0 e) = true) as Hf0 by (unfold fits, adjusted in *; exact Hf). exists (Dec false 0 e).
    split; [by apply (dec_fix_of_fits _ default_context_ok)|]. split; [done|]. split; [done|]. split; [done|]. by rewrite !dq_zero.
  - exists (Dec (negb s) co e). assert (fits DEFAULT_CONTEXT (Dec (negb s) co e) = true) as Hf0 by (unfold fits, adjusted in *; exact Hf).
    split; [by apply (dec_fix_of_fits _ default_context_ok)|]. split; [done|]. split; [done|]. split; [done|]. apply dq_sign_flip.
Qed.

(** One step of the arithmetic of [parse_fact_value]: a sign change, or none. *)
Lemma flip_spec (b : bool) d :
  fits DEFAULT_CONTEXT d = true →
  ∃ d', (if b then fact_arith (negate d) else Ok d) = Ok d' ∧ fits DEFAULT_CONTEXT d' = true ∧ d_coeff d' = d_coeff d ∧ d_exp d' = d_exp d ∧
    (dq d' == (if b then - dq d else dq d))%Q.
Proof.
  intros Hf. destruct b; [|by exists d]. destruct (negate_spec d Hf) as (d' & Hd' & H). exists d'. by rewrite Hd'.
Qed.

Lemma scaleb_exact s co e k :
  ndigits co ≤ 28 → -1000 ≤ e ≤ 1000 → -1000 ≤ k ≤ 1000 → dec_scaleb (Dec s co e) k = Ok (Dec s co (e + k)).
Proof.
  intros Hd He Hk. unfold dec_scaleb. cbn [Emax prec DEFAULT_CONTEXT d_sign d_coeff d_exp]. assert (2 * (999999 + 28) <? Z.abs k = false) as -> by lia.
  apply (dec_fix_of_fits _ default_context_ok). pose proof (ndigits_pos co). unfold fits, adjusted, Etiny. cbn [Emax Emin prec DEFAULT_CONTEXT d_sign d_coeff d_exp].
  rewrite !andb_true_iff, !Z.leb_le. lia.
Qed.

(** the text between the parentheses, when there are any *)
Lemma body_shape (neg : bool) body text :
  text = (if neg then "(" +:+ body +:+ ")" else body)%string → strip body = body → parenthesized body = false →
  parenthesized text = neg ∧ (if neg then strip (String.substring 1 (String.length text - 2) text) else text) = body.
Proof.
  intros -> Hbody Hpar. destruct neg; [|split; [exact Hpar|done]]. change ("(" +:+ body +:+ ")")%string with (String "(" (body +:+ ")")). cbn [String.length]. rewrite length_string_app. cbn [String.length].
  replace (S (String.length body + 1) - 2)%nat with (String.length body) by lia. split.
  - unfold parenthesized. cbn [String.length String.list_ascii_of_string head]. rewrite length_string_app, chars_app, last_cons, last_app. cbn [String.length].
    rewrite !bool_decide_true by done. rewrite !andb_true_r. apply Nat.leb_le. lia.
  - rewrite <- Hbody at 3. f_equal. cbn [String.substring]. clear. induction body as [|a s IH]; [done|]. rewrite string_app_cons. cbn [String.length String.substring]. by rewrite IH.
Qed.

(** C32: A displayed amount of at most 28 digits, in the default or a named style of
    writing numbers, in parentheses or not, with spaces and the style's thousands
    separators anywhere, and a scale between -1000 and 1000, becomes the amount times
    its scale, with the sign the parentheses and the sign attribute give it: no
    digit is lost. *)
Theorem fact_value_exact (fact : inline_fact) (thousands point : ascii) (neg : bool) (body : string) (ip fp : list N) :
  number_style (if_format fact) thousands point →
  strip (if_raw_text fact) = (if neg then "(" +:+ body +:+ ")" else body)%string → strip body = body →
  displayed thousands body = amount_text point ip fp → digits_ok ip → digits_ok fp → ip ≠ [] → (length (ip ++ fp) ≤ 28)%nat → -1000 ≤ if_scale fact ≤ 1000 →
  ∃ m, parse_fact_value fact = Ok m ∧ d_exp m = if_scale fact - Z.of_nat (length fp) ∧
    (dq m == (if xorb neg (bool_decide (if_sign fact = Some "-"%string)) then -1 else 1) * (inject_Z (Z.of_N (undigits (ip ++ fp))) * (10 # 1) ^ (if_scale fact - Z.of_nat (length fp))))%Q.
Proof.
  intros Hstyle Htext Hbody Hshow Hip Hfp Hne Hlen Hscale. set (d := Dec false (undigits (ip ++ fp)) (- Z.of_nat (length fp))).
  assert (parenthesized body = false) as Hpar.
  { destruct body as [|a s] eqn:Hb; [done|]. destruct (amount_starts thousands point body ip fp a s) as [_ Ha]; [destruct Hstyle; set_solver|by rewrite Hb|done..|].
    unfold parenthesized. cbn [chars head]. rewrite (bool_decide_false (Some a = Some "("%char)) by congruence. by rewrite andb_false_r. }
  assert (length fp ≤ 28)%nat as Hlf by (rewrite length_app in Hlen; lia).
  assert (ndigits (undigits (ip ++ fp)) ≤ 28) as Hnd.
  { apply ndigits_le_iff; [done|]. eapply N.lt_le_trans; [apply undigits_lt, Forall_app; done|]. apply pow10_le_mono. lia. }
  pose proof (ndigits_pos (undigits (ip ++ fp))) as Hpos.
  assert (representable d = true) as Hrep.
  { unfold representable, d, adjusted, MIN_ETINY, MAX_EMAX. cbn [d_coeff d_exp]. apply andb_true_iff. split; [apply Z.leb_le; lia|]. destruct (_ =? 0)%N; apply Z.leb_le; lia. }
  assert (fits DEFAULT_CONTEXT d = true) as Hfit.
  { unfold fits, adjusted, Etiny, d. cbn [Emax Emin prec DEFAULT_CONTEXT d_sign d_coeff d_exp]. rewrite !andb_true_iff, !Z.leb_le. lia. }
  destruct (body_shape neg body (strip (if_raw_text fact)) Htext Hbody Hpar) as [Hp Hinner].
  destruct (style_reads (if_format fact) thousands point body ip fp) as (t & Ht & Hread); [done..|].
  unfold parse_fact_value. rewrite Ht. cbn [mbind result_bind]. cbv zeta. rewrite Hp, Hinner, Hread. fold d. cbn iota.
  destruct (flip_spec neg d Hfit) as (d1 & -> & Hf1 & Hc1 & He1 & Hq1). cbn [mbind result_bind].
  destruct (flip_spec (bool_decide (if_sign fact = Some "-"%string)) d1 Hf1) as (d2 & -> & Hf2 & Hc2 & He2 & Hq2). cbn [mbind result_bind].
  destruct d2 as [s co e]. cbn [d_coeff d_exp] in *. assert (co = undigits (ip ++ fp)) as -> by (rewrite Hc2, Hc1; done). assert (e = - Z.of_nat (length fp)) as -> by (rewrite He2, He1; done).
  rewrite scaleb_exact by (done || lia). eexists. split; [done|]. split; [cbn; lia|]. replace (- Z.of_nat (length fp) + if_scale fact) with (if_scale fact - Z.of_nat (length fp)) by lia.
  assert (dq (Dec s (undigits (ip ++ fp)) (if_scale fact - Z.of_nat (length fp))) == inject_Z (sval (Dec s (undigits (ip ++ fp)) 0)) * (10 # 1) ^ (if_scale fact - Z.of_nat (length fp)))%Q as -> by done.
  assert (dq (Dec s (undigits (ip ++ fp)) (- Z.of_nat (length fp))) == inject_Z (sval (Dec s (undigits (ip ++ fp)) 0)) * q10 (- Z.of_nat (length fp)))%Q as Hs by apply dq_unfold.
  assert (dq d == inject_Z (Z.of_N (undigits (ip ++ fp))) * q10 (- Z.of_nat (length fp)))%Q as Hd by apply dq_unfold.
  assert (inject_Z (sval (Dec s (undigits (ip ++ fp)) 0)) == (if xorb neg (bool_decide (if_sign fact = Some "-"%string)) then -1 else 1) * inject_Z (Z.of_N (undigits (ip ++ fp))))%Q as ->; [|ring].
  apply (Qmult_inj_r _ _ (q10 (- Z.of_nat (length fp)))); [apply q10_nonzero|]. rewrite <- Hs, Hq2. destruct neg, (bool_decide _); cbn [xorb]; rewrite Hq1, Hd; ring.
Qed.

Definition sample_fact (format : option string) (text : string) (scale : Z) : inline_fact :=
  InlineFact "us-gaap:Revenues" "c1" "u1" scale None (Some "-"%string) format text "span" "section" 0 10.

(** a negative amount with a negated sign, as it is written in Germany *)
Lemma fact_value_exact_witness :
  ∃ m, parse_fact_value (sample_fact (Some "ixt:Num-Comma-Decimal"%string) " (1 234.567,50) " 3) = Ok m ∧ d_exp m = 3 - 2 ∧
    (dq m == (if xorb true true then -1 else 1) * (inject_Z (Z.of_N (undigits ([1;2;3;4;5;6;7]%N ++ [5;0]%N))) * (10 # 1) ^ (3 - 2)))%Q.
Proof.
  apply (fact_value_exact (sample_fact (Some "ixt:Num-Comma-Decimal"%string) " (1 234.567,50) " 3) "." "," true "1 234.567,50" [1;2;3;4;5;6;7]%N [5;0]%N);
    try reflexivity; try done; try lia; try (repeat constructor).
Defined.

(** A scale that overflows the context is not quarantined: the signal is
    [decimal.Overflow], and only [InvalidOperation] is caught. *)
Example huge_scale_escapes : parse_fact_value (sample_fact None "1" 1000000) = Err (Escapes "Overflow").
Proof. vm_compute. reflexivity. Qed.

(** The 29th digit of a displayed amount is rounded away. *)
Example long_amount_rounded :
  (decimal_str ∘ Finite) <$> parse_fact_value (InlineFact "c" "c1" "u1" 0 None None None "12345678901234567890123456789" "span" "section" 0 10)
  = Ok "12345678901234567890123456790"%string.
Proof. vm_compute. reflexivity. Qed.

(** * The loop assigns ids and finds duplicates *)

(** facts with one key have one value *)
Definition consistent (drafts : list draft) : Prop := ∀ d d', d ∈ drafts → d' ∈ drafts → dr_key d = dr_key d' → dr_value d = dr_value d'.

(** the place of the first fact with a key *)
Definition first_with (key : string) (drafts : list draft) : option nat := fst <$> list_find (λ d, dr_key d = key) drafts.

Section facts.
Context (entity_id version_id : string) (restates : draft → option string).

(** the fact of a draft at place [i], where the first with its key is at place [j] *)
Definition fact_at (i j : nat) (d : draft) : normalized_fact :=
  NormalizedFact (fact_id version_id i (dr_key d)) entity_id version_id (dr_concept d) (dr_label d) (dr_value d)
    (dr_unit d) 0 (dr_period_type d) (dr_instant d) (dr_start d) (dr_end d) (dr_dimensions d) (dr_span_id d) "reported" 1 (dr_key d)
    (if decide (j = i) then None else Some (fact_id version_id j (dr_key d))) (restates d).

Definition facts_of (drafts : list draft) : list normalized_fact :=
  imap (λ i d, fact_at i (default i (first_with (dr_key d) drafts)) d) drafts.

Lemma first_with_snoc k drafts d :
  first_with k (drafts ++ [d]) = match first_with k drafts with Some j => Some j | None => if decide (dr_key d = k) then Some (length drafts) else None end.
Proof.
  unfold first_with. destruct (list_find (λ d, dr_key d = k) drafts) as [[j x]|] eqn:Hf; [by rewrite (list_find_app_l _ _ _ _ _ Hf)|].
  rewrite (list_find_app_r _ _ _ Hf). cbn. case_decide; done.
Qed.

Lemma first_with_Some k drafts j : first_with k drafts = Some j → ∃ d, drafts !! j = Some d ∧ dr_key d = k.
Proof. unfold first_with. intros ([j' d] & Hf & Hj)%fmap_Some. cbn in Hj. subst j'. apply list_find_Some in Hf as (? & ? & _). eauto. Qed.

Lemma first_with_None k drafts : first_with k drafts = None → ∀ d, d ∈ drafts → dr_key d ≠ k.
Proof. unfold first_with. intros H%fmap_None d Hd Hk. apply list_find_None in H. rewrite Forall_forall in H. exact (H d Hd Hk). Qed.

Lemma first_with_elem k drafts d : d ∈ drafts → dr_key d = k → is_Some (first_with k drafts).
Proof. intros Hd Hk. destruct (first_with k drafts) eqn:Hf; [by eexists|]. by destruct (first_with_None k drafts Hf d Hd). Qed.

Lemma facts_of_snoc drafts d :
  facts_of (drafts ++ [d]) = facts_of drafts ++ [fact_at (length drafts) (default (length drafts) (first_with (dr_key d) drafts)) d].
Proof.
  unfold facts_of. rewrite imap_app. f_equal.
  - apply imap_ext. intros i x Hx. f_equal. rewrite first_with_snoc. destruct (first_with_elem (dr_key x) drafts x) as [j ->]; [by eapply list_elem_of_lookup_2|done|done].
  - cbn. rewrite Nat.add_0_r, first_with_snoc. destruct (first_with (dr_key d) drafts); [done|]. by rewrite decide_True.
Qed.

Lemma length_facts_of drafts : length (facts_of drafts) = length drafts.
Proof. apply length_imap. Qed.

(** what the loop has after the facts [drafts] *)
Definition loop_at (drafts : list draft) (st : loop_state) : Prop :=
  ls_out st = facts_of drafts ∧ consistent drafts ∧
  ∀ k, dict_get k (ls_canonical st) = match first_with k drafts with Some j => facts_of drafts !! j | None => None end.

Lemma consistent_snoc drafts d :
  consistent drafts → (∀ x, x ∈ drafts → dr_key x = dr_key d → dr_value x = dr_value d) → consistent (drafts ++ [d]).
Proof.
  intros Hc Hd x y [Hx | ->%list_elem_of_singleton]%elem_of_app [Hy | ->%list_elem_of_singleton]%elem_of_app Hk; [by apply Hc|by apply Hd|symmetry; by apply Hd|done].
Qed.

Lemma loop_start : loop_at [] (LoopState [] []).
Proof. split; [done|]. split; [|done]. by intros d d' H%not_elem_of_nil. Qed.

Lemma facts_of_lookup drafts j d : drafts !! j = Some d → facts_of drafts !! j = Some (fact_at j (default j (first_with (dr_key d) drafts)) d).
Proof. intros Hd. unfold facts_of. by rewrite list_lookup_imap, Hd. Qed.

(** The first fact with the key decides: a duplicate has its value, any other value
    is an inconsistent duplicate. *)
Lemma add_fact_step drafts st d :
  loop_at drafts st →
  match add_fact entity_id version_id restates st d with
  | Ok st' => loop_at (drafts ++ [d]) st'
  | Err e => e = Ingest INCONSISTENT_DUPLICATE ∧ ¬ consistent (drafts ++ [d])
  end.
Proof.
  intros (Hout & Hcons & Hget). unfold add_fact, duplicate_of. rewrite Hget, Hout, length_facts_of. destruct (first_with (dr_key d) drafts) as [j|] eqn:Hj.
  - destruct (first_with_Some _ _ _ Hj) as (d0 & Hd0 & Hk). rewrite (facts_of_lookup _ _ _ Hd0), Hk, Hj. cbn [default fact_at nf_value nf_id mbind result_bind].
    assert (j < length drafts)%nat as Hlt by (by eapply lookup_lt_Some). assert (d0 ∈ drafts) as Hin by (by eapply list_elem_of_lookup_2).
    case_bool_decide as Hv; cbn [mbind result_bind].
    + assert (consistent (drafts ++ [d])) as Hc.
      { apply consistent_snoc; [done|]. intros x Hx Hkx. rewrite <- Hv. apply Hcons; [done|done|congruence]. }
      split; [|split; [done|]]; cbn [ls_out ls_canonical].
      * rewrite facts_of_snoc, Hj. unfold fact_at. cbn [default from_option id]. rewrite decide_False by lia. by rewrite Hk.
      * intros k. rewrite Hget, first_with_snoc. destruct (first_with k drafts) as [i|] eqn:Hi.
        -- rewrite facts_of_snoc, lookup_app_l; [done|]. rewrite length_facts_of. destruct (first_with_Some _ _ _ Hi) as (x & Hx & _). by eapply lookup_lt_Some.
        -- rewrite decide_False; [done|]. intros <-. congruence.
    + split; [done|]. intros Hc. apply Hv, (Hc d0 d); [apply elem_of_app; by left|apply elem_of_app; right; by apply list_elem_of_singleton|done].
  - cbn [mbind result_bind]. pose proof (first_with_None _ _ Hj) as Hnone. split; [|split]; cbn [ls_out ls_canonical].
    + rewrite facts_of_snoc, Hj. unfold fact_at. cbn [default from_option id]. by rewrite decide_True.
    + apply consistent_snoc; [done|]. intros x Hx Hkx. by destruct (Hnone x Hx).
    + intros k. rewrite dict_get_set, Hget, first_with_snoc. case_decide as Hk.
      * subst k. rewrite Hj, facts_of_snoc, Hj. rewrite lookup_app_r by (rewrite length_facts_of; lia). rewrite length_facts_of, Nat.sub_diag. cbn. unfold fact_at. cbn. by rewrite decide_True by done.
      * destruct (first_with k drafts) as [i|] eqn:Hi; [|done]. rewrite facts_of_snoc, lookup_app_l; [done|]. rewrite length_facts_of. destruct (first_with_Some _ _ _ Hi) as (x & Hx & _). by eapply lookup_lt_Some.
Qed.

(** The whole loop over facts whose drafts are computed as they come: the facts of
    the drafts, the error of the first draft that fails, or an inconsistency. *)
Lemma loop_spec {A} (draft : A → ingested draft) (l : list A) :
  match foldM (λ st x, d ← draft x; add_fact entity_id version_id restates st d) (LoopState [] []) l with
  | Ok st => ∃ drafts, Forall2 (λ x d, draft x = Ok d) l drafts ∧ consistent drafts ∧ ls_out st = facts_of drafts
  | Err e => (∃ x, x ∈ l ∧ draft x = Err e) ∨
             e = Ingest INCONSISTENT_DUPLICATE ∧ ∃ x y d d', x ∈ l ∧ y ∈ l ∧ draft x = Ok d ∧ draft y = Ok d' ∧ dr_key d = dr_key d' ∧ dr_value d ≠ dr_value d'
  end.
Proof.
  assert (∀ suf pre drafts st, Forall2 (λ x d, draft x = Ok d) pre drafts → loop_at drafts st →
    match foldM (λ st x, d ← draft x; add_fact entity_id version_id restates st d) st suf with
    | Ok st => ∃ drafts, Forall2 (λ x d, draft x = Ok d) (pre ++ suf) drafts ∧ consistent drafts ∧ ls_out st = facts_of drafts
    | Err e => (∃ x, x ∈ pre ++ suf ∧ draft x = Err e) ∨
               e = Ingest INCONSISTENT_DUPLICATE ∧ ∃ x y d d', x ∈ pre ++ suf ∧ y ∈ pre ++ suf ∧ draft x = Ok d ∧ draft y = Ok d' ∧ dr_key d = dr_key d' ∧ dr_value d ≠ dr_value d'
    end) as Hgen; [|by apply (Hgen l [] []); [constructor|apply loop_start]].
  induction suf as [|x suf IH]; intros pre drafts st Hpre Hst; cbn [foldM].
  - rewrite app_nil_r. destruct Hst as (Hout & Hc & _). by exists drafts.
  - destruct (draft x) as [d|e] eqn:Hd; cbn [mbind result_bind].
    + assert (Forall2 (λ x d, draft x = Ok d) (pre ++ [x]) (drafts ++ [d])) as Hpre' by (apply Forall2_app; [done|by repeat constructor]).
      pose proof (add_fact_step drafts st d Hst) as Hstep. destruct (add_fact _ _ _ st d) as [st'|e].
      * specialize (IH (pre ++ [x]) (drafts ++ [d]) st' Hpre' Hstep). by rewrite <- app_assoc in IH.
      * destruct Hstep as [-> Hn]. right. split; [done|]. assert (∃ a b, a ∈ drafts ++ [d] ∧ b ∈ drafts ++ [d] ∧ dr_key a = dr_key b ∧ dr_value a ≠ dr_value b) as (a & b & Ha & Hb & Hk & Hv).
        { destruct Hst as (_ & Hc & _). destruct (decide (Exists (λ a, dr_key a = dr_key d ∧ dr_value a ≠ dr_value d) drafts)) as [(a & Ha & Hk & Hv)%Exists_exists|Hne].
          - exists a, d. split_and!; [apply elem_of_app; by left|apply elem_of_app; right; by apply list_elem_of_singleton|done|done].
          - exfalso. apply Hn. rewrite <- Forall_Exists_neg, Forall_forall in Hne.
            apply consistent_snoc; [done|]. intros y Hy Hky. destruct (decide (dr_value y = dr_value d)); [done|]. by destruct (Hne y Hy). }
        assert (∀ a, a ∈ drafts ++ [d] → ∃ y, y ∈ pre ++ x :: suf ∧ draft y = Ok a) as Hback.
        { intros c (i & Hi)%list_elem_of_lookup. destruct (Forall2_lookup_r _ _ _ _ _ Hpre' Hi) as (y & Hy & Hdy). exists y. split; [|done].
          apply list_elem_of_lookup_2 in Hy. apply elem_of_app in Hy as [Hy | ->%list_elem_of_singleton]; apply elem_of_app; [by left|right; by left]. }
        destruct (Hback a Ha) as (y & Hy & Hya), (Hback b Hb) as (z & Hz & Hzb). by exists y, z, a, b.
    + left. exists x. split; [apply elem_of_app; right; by left|done].
Qed.
End facts.

(** C31: Normalization of a filing is the reference list of facts, or fails for a reason.
    When it succeeds every raw fact has its normalized fact, in order; facts of one
    key have one value, the first is canonical and every other names it as the fact
    it duplicates; a fact restates the earlier filing's fact of its key when the
    value differs.  When it fails, a raw fact has no value, period or unit of its
    own, or two facts of one key disagree. *)
Theorem normalize_facts_spec parsed entity_id version_id prior :
  match normalize_facts parsed entity_id version_id prior with
  | Ok facts => ∃ drafts, Forall2 (λ f d, draft_of parsed f = Ok d) (pd_facts parsed) drafts ∧ consistent drafts ∧
                  facts = facts_of entity_id version_id (restates_of prior) drafts
  | Err e => (∃ f, f ∈ pd_facts parsed ∧ draft_of parsed f = Err e) ∨
             e = Ingest INCONSISTENT_DUPLICATE ∧ ∃ f g d d', f ∈ pd_facts parsed ∧ g ∈ pd_facts parsed ∧
               draft_of parsed f = Ok d ∧ draft_of parsed g = Ok d' ∧ dr_key d = dr_key d' ∧ dr_value d ≠ dr_value d'
  end.
Proof.
  unfold normalize_facts. pose proof (loop_spec entity_id version_id (restates_of prior) (draft_of parsed) (pd_facts parsed)) as H.
  destruct (foldM _ _ _) as [st|e]; cbn [mbind result_bind]; [|exact H]. destruct H as (drafts & ? & ? & ?). by exists drafts.
Qed.
