(* ===== verification/CompanyFacts.v ===== *)
(** [workers/src/fel_workers/ingestion/company_facts.py]: a companyfacts snapshot
    becomes a document of canonical text, with sections, spans and facts.

    [_CanonicalBuilder] writes the text and records offsets while it writes; its
    methods are programs on a [builder].  A payload is what [json.loads] returns
    ([pyjson]). *)

From S2P Require Import Prelude Effects Dicts Text Decimals Periods Canonical Payload IsoDates Uuids Numeric Discovery Json Xbrl.
Local Open Scope Z_scope.

Definition COMPANY_FACTS_FORM : string := "COMPANYFACTS".
Definition COMPANY_FACTS_MIME_TYPE : string := "application/json".
Definition COMPANY_FACTS_PARSER_VERSION : string := "fel-companyfacts-parser/1.0.0".
Definition COMPANY_FACTS_NORMALIZER_VERSION : string := "fel-companyfacts-normalizer/1.0.0".

Definition PROVENANCE_KEYS : list string := ["accn"; "form"; "fy"; "fp"; "frame"]%string.

(** * Identities *)

(** [content_hash.removeprefix("sha256:")[:8]] *)
Definition hash8 (content_hash : string) : string :=
  String.substring 0 8 (default content_hash (after "sha256:" content_hash)).

(** [normalize_cik] in the ingestion's errors *)
Definition cik10 (cik : string) : ingested string := map_err (λ _, Escapes "ValueError") (normalize_cik cik).

(** [fetched_at] by its UTC date; [aware] when it has a time zone *)
Definition company_facts_accession (cik : string) (aware : bool) (day : date) (content_hash : string) : ingested string :=
  _ ← ensure aware (Escapes "ValueError");
  normalized ← cik10 cik;
  Ok (COMPANY_FACTS_FORM +:+ "-" +:+ normalized +:+ "-" +:+ date_isoformat day +:+ "-" +:+ hash8 content_hash)%string.

(** [_compact_json_value(payload).encode()] *)
Definition canonical_company_facts_bytes (payload : list (string * pyjson)) : ingested string :=
  match _compact_json_value (DictJ payload) with
  | Ok s => Ok (encode_utf8 s)
  | Err LongInteger => Err (Escapes "ValueError")
  | Err Unserializable => Err (Escapes "TypeError")
  end.

(** * Observations *)

Record observation := Observation {
  ob_taxonomy : string; ob_concept : string; ob_label : option string; ob_unit : string; ob_value : pydecimal; ob_period_start : option date;
  ob_period_end : date; ob_dimensions : list (string * string); ob_span_id : string; ob_start : Z; ob_end : Z }.

Record parsed_facts := ParsedFacts {
  pf_content_hash : string; pf_parser_version : string; pf_text : string; pf_sections : list section; pf_spans : list source_span;
  pf_observations : list observation; pf_diagnostics : list string }.

(** [d.get(key)] *)
Definition jget (key : string) (items : list (string * pyjson)) : pyjson := default NoneJ (dict_get key items).

Definition _iso_date (v : pyjson) : ingested date :=
  match v with
  | StrJ s => from_option_err (Ingest INVALID_PERIOD_DATE) (date_fromisoformat s)
  | _ => Err (Ingest INVALID_PERIOD_STRUCTURE)
  end.

(** [str(v)]; inside a container, [repr(v)] *)
Definition decimal_repr (d : pydecimal) : string :=
  match d with Finite d => dec_to_string d | Infinite s => (if s then "-" else "") +:+ "Infinity" | NaN => "NaN" end.

Fixpoint json_repr (v : pyjson) : string :=
  match v with
  | NoneJ => "None"
  | BoolJ b => if b then "True" else "False"
  | IntJ z => str_of_Z z
  | DecJ d => "Decimal('" +:+ decimal_repr d +:+ "')"
  | FloatJ => ""
  | StrJ s => repr_str s
  | ListJ l => "[" +:+ join ", " (map json_repr l) +:+ "]"
  | DictJ items => "{" +:+ join ", " (map (λ kv, repr_str (fst kv) +:+ ": " +:+ json_repr (snd kv)) items) +:+ "}"
  end.

Definition json_pystr (v : pyjson) : string := match v with StrJ s => s | DecJ d => decimal_repr d | v => json_repr v end.

Definition json_type_name (v : pyjson) : string :=
  match v with
  | NoneJ => "NoneType" | BoolJ _ => "bool" | IntJ _ => "int" | DecJ _ => "Decimal" | FloatJ => "float" | StrJ _ => "str" | ListJ _ => "list" | DictJ _ => "dict"
  end.

Definition is_noneJ (v : pyjson) : bool := match v with NoneJ => true | _ => false end.

(** the reporting provenance of an observation *)
Definition provenance (items : list (string * pyjson)) : list (string * string) :=
  omap (M := list) (λ key, if is_noneJ (jget key items) then None else Some (key, json_pystr (jget key items))) PROVENANCE_KEYS.

(** the number of an observation, when its value is one *)
Definition magnitude (value : pyjson) : option pydecimal :=
  match value with IntJ z => Some (Finite (dec_of_Z z)) | DecJ d => Some d | _ => None end.

(** * [_CanonicalBuilder] *)

Record builder := Builder {
  b_text : string; b_pos : Z; b_sections : list section; b_spans : list source_span; b_observations : list observation; b_diagnostics : list string }.

Definition new_builder : builder := Builder "" 0 [] [] [] [].

Notation building A := (eff builder ingest_error A).

Section builder.
Context (seed : string).

Definition root_id : string := ingestion_id (seed +:+ "|section|0").
Definition section_id_at (order : Z) : string := ingestion_id (seed +:+ "|section|" +:+ str_of_Z order)%string.
Definition span_id_at (start stop : Z) : string := ingestion_id (seed +:+ "|span|" +:+ str_of_Z start +:+ "|" +:+ str_of_Z stop)%string.

Definition emit (piece : string) : building unit :=
  writes (λ b, Builder (b_text b +:+ piece) (b_pos b + Z.of_nat (String.length piece)) (b_sections b) (b_spans b) (b_observations b) (b_diagnostics b)).
Definition add_section (s : section) : building unit :=
  writes (λ b, Builder (b_text b) (b_pos b) (b_sections b ++ [s]) (b_spans b) (b_observations b) (b_diagnostics b)).
Definition add_span (s : source_span) : building unit :=
  writes (λ b, Builder (b_text b) (b_pos b) (b_sections b) (b_spans b ++ [s]) (b_observations b) (b_diagnostics b)).
Definition add_observation (o : observation) : building unit :=
  writes (λ b, Builder (b_text b) (b_pos b) (b_sections b) (b_spans b) (b_observations b ++ [o]) (b_diagnostics b)).
Definition add_diagnostic (d : string) : building unit :=
  writes (λ b, Builder (b_text b) (b_pos b) (b_sections b) (b_spans b) (b_observations b) (b_diagnostics b ++ [d])).

Definition NEWLINE : ascii := ascii_of_N 10.
Definition newline : string := String NEWLINE EmptyString.
Definition comma_newline : string := String "," newline.

(** [for index, x in enumerate(l): body x ...; self.emit(",\n" if index < len(l) - 1 else "\n")]; the
    body is given the separator that follows it *)
Fixpoint with_separators {A} (body : string → A → building unit) (l : list A) : building unit :=
  match l with
  | [] => mret tt
  | x :: l' => body (match l' with [] => newline | _ => comma_newline end) x ≫= λ _, with_separators body l'
  end.

(** [_render_json_value]'s exceptions *)
Definition rendered (v : pyjson) : ingested string :=
  match _render_json_value v with
  | Ok s => Ok s
  | Err LongInteger => Err (Escapes "ValueError")
  | Err Unserializable => Err (Ingest MALFORMED_JSON)
  end.

Definition skipped (what qualified : string) (start stop : Z) : string :=
  ("skipped " +:+ what +:+ " for '" +:+ qualified +:+ "' at chars " +:+ str_of_Z start +:+ "-" +:+ str_of_Z stop)%string.

Definition _record_observation (qualified : string) (label : option string) (measure section_id : string) (observation : list (string * pyjson))
    (covered : string) (start stop : Z) : building unit :=
  let span_id := span_id_at start stop in
  _ ← add_span (SourceSpan span_id section_id start stop (text_hash covered) covered);
  period_end ← pure (_iso_date (jget "end" observation));
  period_start ← (if is_noneJ (jget "start" observation) then mret None
                  else d ← pure (_iso_date (jget "start" observation)); mret (Some d));
  match dict_get "val"%string observation with
  | None => add_diagnostic (skipped "observation without 'val'" qualified start stop)
  | Some value =>
      match magnitude value with
      | Some m =>
          add_observation (Observation (partition ":" qualified).1.1 qualified label measure m period_start period_end (provenance observation) span_id start stop)
      | None => add_diagnostic (skipped ("non-numeric (" +:+ json_type_name value +:+ ") observation") qualified start stop)
      end
  end.

(** one observation, on a line of its own *)
Definition render_observation (qualified : string) (label : option string) (measure section_id sep : string) (observation : pyjson) : building unit :=
  match observation with
  | DictJ items =>
      fragment ← pure (rendered observation);
      _ ← emit "            ";
      start ← reads b_pos;
      _ ← emit fragment;
      stop ← reads b_pos;
      _ ← emit sep;
      _record_observation qualified label measure section_id items fragment start stop
  | _ => raise (Ingest MALFORMED_JSON)
  end.

Definition by_key (items : list (string * pyjson)) : list (string * pyjson) := py_sorted key_le items.

Definition _render_units (taxonomy name : string) (label : option string) (section_id : string) (units : pyjson) : building unit :=
  let qualified := (taxonomy +:+ ":" +:+ name)%string in
  match units with
  | DictJ [] => emit "{}"
  | DictJ items =>
      _ ← emit ("{" +:+ newline);
      _ ← with_separators (λ sep '(measure, observations),
            match observations with
            | ListJ l =>
                _ ← emit ("          " +:+ json_str measure +:+ ": [" +:+ newline);
                _ ← with_separators (render_observation qualified label measure section_id) l;
                _ ← emit "          ]";
                emit sep
            | _ => raise (Ingest MALFORMED_JSON)
            end) (by_key items);
      emit "        }"
  | _ => raise (Ingest MALFORMED_JSON)
  end.

Definition _render_concept (taxonomy name : string) (concept : pyjson) : building unit :=
  match concept with
  | DictJ items =>
      let label := match jget "label" items with StrJ s => Some s | _ => None end in
      _ ← emit "      ";
      start ← reads b_pos;
      order ← reads (λ b, Z.of_nat (length (b_sections b)) + 1);
      let section_id := section_id_at order in
      _ ← emit (json_str name +:+ ": {" +:+ newline);
      _ ← with_separators (λ sep '(key, v),
            _ ← emit ("        " +:+ json_str key +:+ ": ");
            _ ← (if bool_decide (key = "units"%string) then _render_units taxonomy name label section_id v
                 else text ← pure (rendered v); emit text);
            emit sep) (by_key items);
      _ ← emit "      }";
      stop ← reads b_pos;
      add_section (Section_ section_id (Some root_id) name [ROOT_HEADING; taxonomy; name] order start stop)
  | _ => raise (Ingest MALFORMED_JSON)
  end.

Definition _render_facts (facts : pyjson) : building unit :=
  match facts with
  | DictJ [] => emit "{}"
  | DictJ items =>
      _ ← emit ("{" +:+ newline);
      _ ← with_separators (λ sep '(taxonomy, concepts),
            match concepts with
            | DictJ names =>
                _ ← emit ("    " +:+ json_str taxonomy +:+ ": {" +:+ newline);
                _ ← with_separators (λ sep '(name, concept), _ ← _render_concept taxonomy name concept; emit sep) (by_key names);
                _ ← emit "    }";
                emit sep
            | _ => raise (Ingest MALFORMED_JSON)
            end) (by_key items);
      emit "  }"
  | _ => raise (Ingest MALFORMED_JSON)
  end.

Definition render_document (payload : list (string * pyjson)) : building unit :=
  _ ← emit ("{" +:+ newline);
  _ ← with_separators (λ sep '(key, v),
        _ ← emit ("  " +:+ json_str key +:+ ": ");
        _ ← (if bool_decide (key = "facts"%string) then _render_facts v else text ← pure (rendered v); emit text);
        emit sep) (by_key payload);
  emit "}".
End builder.

(** * [parse_company_facts] *)

(** [raw.decode("utf-8")]; a character above 255 is outside the texts of this library *)
Fixpoint decode_utf8 (raw : string) : ingested string :=
  match raw with
  | EmptyString => Ok EmptyString
  | String a s =>
      let n := N_of_ascii a in
      if (n <? 128)%N then t ← decode_utf8 s; Ok (String a t)
      else if (n <? 194)%N || (244 <? n)%N then Err (Ingest ENCODING_ERROR)
      else if (195 <? n)%N then Err Unmodelled
      else match s with
           | String b s' =>
               let m := N_of_ascii b in
               if (128 <=? m)%N && (m <? 192)%N then t ← decode_utf8 s'; Ok (String (ascii_of_N ((n - 192) * 64 + (m - 128))) t)
               else Err (Ingest ENCODING_ERROR)
           | EmptyString => Err (Ingest ENCODING_ERROR)
           end
  end.

Definition decode_error (e : json_error) : ingest_error :=
  match e with
  | Malformed => Ingest MALFORMED_JSON
  | NonFinite => Ingest NONFINITE_FACT_VALUE
  | TooManyDigits => Escapes "ValueError"
  | DecimalRange => Escapes "InvalidOperation"
  | WideCharacter => Unmodelled
  | OutOfFuel => Escapes "OutOfFuel"
  end.

Definition parse_company_facts (raw : string) (id_seed content_hash : option string) : ingested parsed_facts :=
  let content_hash := default (content_address raw).1 content_hash in
  let seed := default (content_hash +:+ "|" +:+ COMPANY_FACTS_PARSER_VERSION)%string id_seed in
  decoded ← decode_utf8 raw;
  payload ← map_err decode_error (loads decoded);
  match payload with
  | DictJ [] => Err (Ingest EMPTY_DOCUMENT)
  | DictJ items =>
      match render_document seed items new_builder with
      | (Ok _, b) =>
          let root := Section_ (root_id seed) None ROOT_HEADING [ROOT_HEADING] 0 0 (Z.of_nat (String.length (b_text b))) in
          Ok (ParsedFacts content_hash COMPANY_FACTS_PARSER_VERSION (b_text b) (root :: b_sections b) (b_spans b) (b_observations b) (b_diagnostics b))
      | (Err e, _) => Err e
      end
  | _ => Err (Ingest MALFORMED_JSON)
  end.

(** * [normalize_company_facts] *)

Definition draft_of_observation (o : observation) : ingested draft :=
  value ← match ob_value o with Finite d => Ok d | _ => Err (Ingest NONFINITE_FACT_VALUE) end;
  let unit := map_unit (ob_unit o) in
  let '(period_type, instant, start, stop) :=
    match ob_period_start o with
    | Some s => ("duration"%string, None, Some s, Some (ob_period_end o))
    | None => ("instant"%string, Some (ob_period_end o), None, None)
    end in
  Ok (make_draft (ob_concept o) (ob_label o) value unit period_type instant start stop (ob_dimensions o) (ob_span_id o)).

(** never a restatement *)
Definition normalize_company_facts (parsed : parsed_facts) (entity_id document_version_id : string) : ingested (list normalized_fact) :=
  st ← foldM (λ st o, d ← draft_of_observation o; add_fact entity_id document_version_id (λ _, None) st d) (LoopState [] []) (pf_observations parsed);
  Ok (ls_out st).

(** * A snapshot *)

Module Sample.
Definition fetched : list (string * pyjson) :=
  [("cik", IntJ 320193); ("entityName", StrJ "Example");
   ("facts", DictJ [("us-gaap", DictJ [("Revenues", DictJ [("label", StrJ "Revenues"); ("units", DictJ [("USD", ListJ [
      DictJ [("end", StrJ "2024-12-31"); ("start", StrJ "2024-01-01"); ("val", IntJ 1000); ("accn", StrJ "a-1"); ("fy", IntJ 2024)];
      DictJ [("end", StrJ "2023-12-31"); ("start", StrJ "2023-01-01"); ("val", DecJ (Finite (Dec false 950 (-1)))); ("accn", StrJ "a-1")];
      DictJ [("end", StrJ "2022-12-31"); ("val", NoneJ)]])])])])])]%string.

Definition raw : string := Eval vm_compute in match canonical_company_facts_bytes fetched with Ok s => s | Err _ => ""%string end.
Definition parsed : ingested parsed_facts := Eval vm_compute in parse_company_facts raw (Some "seed"%string) None.
Definition document : parsed_facts := Eval vm_compute in match parsed with Ok p => p | Err _ => ParsedFacts "" "" "" [] [] [] [] end.
Definition minted : list normalized_fact := Eval vm_compute in match normalize_company_facts document "entity" "version" with Ok l => l | Err _ => [] end.
End Sample.

Example snapshot_parses :
  (λ p, (length (pf_sections p), (λ s, slice (pf_text p) (sp_start s) (sp_end s)) <$> pf_spans p, (λ o, decimal_str (ob_value o)) <$> pf_observations p,
         length (pf_diagnostics p))) <$> Sample.parsed =
  Ok (2%nat, [with_quotes "{'accn': 'a-1', 'end': '2024-12-31', 'fy': 2024, 'start': '2024-01-01', 'val': 1000}";
              with_quotes "{'accn': 'a-1', 'end': '2023-12-31', 'start': '2023-01-01', 'val': 95}";
              with_quotes "{'end': '2022-12-31', 'val': null}"], ["1000"; "95"]%string, 1%nat).
Proof. vm_compute. reflexivity. Qed.
