(* ===== verification/CompanyFactsSound.v ===== *)
(** What a parsed snapshot promises: every span is the exact text of one observation
    of the payload, inside its concept's section, and the canonical text denotes the
    payload that was fetched. *)

From S2P Require Import Prelude Effects Dicts Text Decimals Periods Canonical Payload IsoDates Uuids Numeric NumericReading Normalize NormalizeSound NormalizeSettled Discovery Json Xbrl CompanyFacts.
Local Open Scope Z_scope.

(** * The observations of a payload, in the order of the text *)

Record entry := Entry { en_taxonomy : string; en_name : string; en_label : option string; en_measure : string; en_items : list (string * pyjson) }.

Definition en_concept (e : entry) : string := (en_taxonomy e +:+ ":" +:+ en_name e)%string.

Definition items_of (v : pyjson) : list (string * pyjson) := match v with DictJ items => by_key items | _ => [] end.
Definition list_of (v : pyjson) : list pyjson := match v with ListJ l => l | _ => [] end.
Definition label_of (items : list (string * pyjson)) : option string := match jget "label" items with StrJ s => Some s | _ => None end.

Definition observation_entries (taxonomy name : string) (label : option string) (measure : string) (o : pyjson) : list entry :=
  match o with DictJ items => [Entry taxonomy name label measure items] | _ => [] end.
Definition unit_entries (taxonomy name : string) (label : option string) (units : pyjson) : list entry :=
  concat (map (λ kv, concat (map (observation_entries taxonomy name label kv.1) (list_of kv.2))) (items_of units)).
Definition concept_entries (taxonomy name : string) (concept : pyjson) : list entry :=
  match concept with
  | DictJ items => concat (map (λ kv, if bool_decide (kv.1 = "units"%string) then unit_entries taxonomy name (label_of items) kv.2 else []) (by_key items))
  | _ => []
  end.
Definition taxonomy_entries (taxonomy : string) (concepts : pyjson) : list entry := concat (map (λ kv, concept_entries taxonomy kv.1 kv.2) (items_of concepts)).
Definition facts_entries (facts : pyjson) : list entry := concat (map (λ kv, taxonomy_entries kv.1 kv.2) (items_of facts)).
Definition document_entries (payload : list (string * pyjson)) : list entry :=
  concat (map (λ kv, if bool_decide (kv.1 = "facts"%string) then facts_entries kv.2 else []) (by_key payload)).

(** the observation a span of an entry carries, when its value is a number *)
Definition dated (v : pyjson) : option date := match v with StrJ s => date_fromisoformat s | _ => None end.

Definition observe_entry (e : entry) (s : source_span) : option observation :=
  value ← dict_get "val"%string (en_items e);
  m ← magnitude value;
  period_end ← dated (jget "end" (en_items e));
  Some (Observation (partition ":" (en_concept e)).1.1 (en_concept e) (en_label e) (en_measure e) m (dated (jget "start" (en_items e))) period_end
          (provenance (en_items e)) (sp_id s) (sp_start s) (sp_end s)).

Definition observed (es : list entry) (spans : list source_span) : list observation :=
  omap (M := list) (λ es, observe_entry es.1 es.2) (zip es spans).

Section sound.
Context (seed : string).

(** * Evidence: what a stretch of text starting at [base] carries *)

(** span [s] cites entry [e] in the stretch *)
Record cites (base : Z) (piece : string) (e : entry) (s : source_span) : Prop := Cites {
  ci_bounds : base ≤ sp_start s < sp_end s ∧ sp_end s ≤ base + Z.of_nat (String.length piece);
  ci_slice : slice piece (sp_start s - base) (sp_end s - base) = sp_text s;
  ci_text : rendered (DictJ (en_items e)) = Ok (sp_text s);
  ci_hash : sp_text_hash s = text_hash (sp_text s);
  ci_id : sp_id s = span_id_at seed (sp_start s) (sp_end s);
  ci_end : is_Some (dated (jget "end" (en_items e))) }.

(** [sec] is the section of place [i] among those of the stretch, [nsec] before it *)
Record lies (base nsec : Z) (piece : string) (i : nat) (sec : section) : Prop := Lies {
  li_bounds : base ≤ sec_start sec < sec_end sec ∧ sec_end sec ≤ base + Z.of_nat (String.length piece);
  li_order : sec_order sec = nsec + Z.of_nat i + 1;
  li_id : sec_id sec = section_id_at seed (sec_order sec);
  li_parent : sec_parent_id sec = Some (root_id seed);
  li_path : ∃ taxonomy, sec_heading_path sec = [ROOT_HEADING; taxonomy; sec_heading sec] }.

Definition before (s t : source_span) : Prop := sp_end s ≤ sp_start t.
Definition precedes (s t : section) : Prop := sec_end s ≤ sec_start t.

Record evidence (live : Prop) (home : list section → entry → source_span → Prop) (base nsec : Z) (piece : string) (es : list entry)
    (secs : list section) (new : list source_span) (obs : list observation) : Prop := Evidence {
  ev_cites : Forall2 (cites base piece) es new;
  ev_home : Forall2 (home secs) es new;
  ev_sorted : StronglySorted before new;
  ev_lies : ∀ i sec, secs !! i = Some sec → live ∧ lies base nsec piece i sec;
  ev_precedes : StronglySorted precedes secs;
  ev_obs : obs = observed es new }.

(** a home stays one when sections are added *)
Definition monotone (home : list section → entry → source_span → Prop) : Prop := ∀ secs secs' e s, home secs e s → secs ⊆ secs' → home secs' e s.

Lemma evidence_nil live home base nsec piece : evidence live home base nsec piece [] [] [] [].
Proof. split; try constructor; done. Qed.

Lemma cites_left base p1 p2 e s : cites base p1 e s → cites base (p1 +:+ p2) e s.
Proof.
  intros [Hb Hs]. split; try done; [rewrite length_string_app; lia|]. rewrite slice_left; [done|lia|lia].
Qed.

Lemma cites_right base p1 p2 e s : cites (base + Z.of_nat (String.length p1)) p2 e s → cites base (p1 +:+ p2) e s.
Proof.
  intros [Hb Hs]. split; try done; [rewrite length_string_app; lia|]. rewrite <- Hs.
  replace (sp_start s - base) with (Z.of_nat (String.length p1) + (sp_start s - (base + Z.of_nat (String.length p1)))) by lia.
  replace (sp_end s - base) with (Z.of_nat (String.length p1) + (sp_end s - (base + Z.of_nat (String.length p1)))) by lia. apply slice_right. lia.
Qed.

Lemma Forall2_both {A B} (P Q : A → B → Prop) l k : Forall2 P l k → Forall2 Q l k → Forall2 (λ x y, P x y ∧ Q x y) l k.
Proof. induction 1 as [|x y l k H _ IH]; [constructor|]. inversion 1; subst. constructor; [done|by apply IH]. Qed.

Lemma sorted_app {A} (R : A → A → Prop) l1 l2 : StronglySorted R l1 → StronglySorted R l2 → (∀ x y, x ∈ l1 → y ∈ l2 → R x y) → StronglySorted R (l1 ++ l2).
Proof.
  intros H1 H2 H. induction H1 as [|x l1 Hl IH Hx]; [done|]. cbn. constructor; [apply IH; intros y z Hy; apply H; by right|].
  apply Forall_app. split; [done|]. apply Forall_forall. intros y Hy. apply H; [by left|done].
Qed.

Lemma observed_app es1 new1 es2 new2 : length es1 = length new1 → observed (es1 ++ es2) (new1 ++ new2) = observed es1 new1 ++ observed es2 new2.
Proof. intros H. unfold observed. by rewrite zip_with_app, omap_app. Qed.

Lemma evidence_app live home base nsec p1 es1 secs1 new1 obs1 p2 es2 secs2 new2 obs2 :
  monotone home →
  evidence live home base nsec p1 es1 secs1 new1 obs1 →
  evidence live home (base + Z.of_nat (String.length p1)) (nsec + Z.of_nat (length secs1)) p2 es2 secs2 new2 obs2 →
  evidence live home base nsec (p1 +:+ p2) (es1 ++ es2) (secs1 ++ secs2) (new1 ++ new2) (obs1 ++ obs2).
Proof.
  intros Hm [Hc1 Hh1 Hs1 Hl1 Hp1 Ho1] [Hc2 Hh2 Hs2 Hl2 Hp2 Ho2]. split.
  - apply Forall2_app; eapply Forall2_impl; [exact Hc1|intros e s; apply cites_left|exact Hc2|intros e s; apply cites_right].
  - apply Forall2_app; (eapply Forall2_impl; [eassumption|]); intros e s H; (eapply Hm; [exact H|]); set_solver.
  - apply sorted_app; [done|done|]. intros s t Hs Ht. unfold before.
    apply list_elem_of_lookup in Hs as [i Hi], Ht as [j Hj]. destruct (Forall2_lookup_r _ _ _ _ _ Hc1 Hi) as (e & _ & [Hb1 _ _ _ _ _]), (Forall2_lookup_r _ _ _ _ _ Hc2 Hj) as (e' & _ & [Hb2 _ _ _ _ _]). lia.
  - intros i sec Hi. apply lookup_app_Some in Hi as [Hi|[Hge Hi]].
    + destruct (Hl1 i sec Hi) as [Hlive [Hb]]. split; [done|]. split; try done. rewrite length_string_app. lia.
    + destruct (Hl2 _ sec Hi) as [Hlive [Hb Ho]]. split; [done|]. split; try done; [rewrite length_string_app; lia|lia].
  - apply sorted_app; [done|done|]. intros s t Hs Ht. unfold precedes. apply list_elem_of_lookup in Hs as [i Hi], Ht as [j Hj]. destruct (Hl1 i s Hi) as [_ [Hb1]], (Hl2 j t Hj) as [_ [Hb2]]. lia.
  - subst. symmetry. by apply observed_app, (Forall2_length (cites base p1)).
Qed.

(** * The methods of the builder *)

(** a method that lays down evidence of [es], wherever it starts *)
Definition lays (live : Prop) (home : list section → entry → source_span → Prop) (m : building unit) (es : list entry) : Prop :=
  ∀ b b', m b = (Ok tt, b') → ∃ piece secs new obs diags,
    b' = Builder (b_text b +:+ piece) (b_pos b + Z.of_nat (String.length piece)) (b_sections b ++ secs) (b_spans b ++ new) (b_observations b ++ obs) (b_diagnostics b ++ diags) ∧
    evidence live home (b_pos b) (Z.of_nat (length (b_sections b))) piece es secs new obs.

Lemma run_bind {A B} (m : building A) (f : A → building B) b r b' :
  (m ≫= f) b = (Ok r, b') → ∃ a b1, m b = (Ok a, b1) ∧ f a b1 = (Ok r, b').
Proof. unfold mbind, eff_bind. destruct (m b) as [[a|e] b1]; [|done]. eauto. Qed.

Lemma run_pure {A} (r : ingested A) (b : builder) a b' : pure r b = (Ok a, b') → r = Ok a ∧ b' = b.
Proof. by intros [= -> ->]. Qed.

Section lays.
Context (live : Prop) (home : list section → entry → source_span → Prop) (Hmono : monotone home).

Lemma lays_emit p : lays live home (emit p) [].
Proof. intros b b' [= <-]. exists p, [], [], [], []. rewrite !app_nil_r. split; [done|]. apply evidence_nil. Qed.

Lemma lays_skip : lays live home (mret tt) [].
Proof. intros [t p s sp o d] b' [= <-]. exists "", [], [], [], []. cbn. rewrite !app_nil_r, string_app_nil, Z.add_0_r. split; [done|]. apply evidence_nil. Qed.

Lemma lays_raise e es : lays live home (raise e) es.
Proof. by intros b b' [=]. Qed.

Lemma lays_bind m1 m2 es1 es2 : lays live home m1 es1 → lays live home m2 es2 → lays live home (m1 ≫= λ _, m2) (es1 ++ es2).
Proof.
  intros H1 H2 b b' (u & b1 & Hm1 & Hm2)%run_bind. destruct u. destruct (H1 b b1 Hm1) as (p1 & s1 & n1 & o1 & d1 & -> & He1).
  destruct (H2 _ b' Hm2) as (p2 & s2 & n2 & o2 & d2 & -> & He2). cbn [b_text b_pos b_sections b_spans b_observations b_diagnostics] in *.
  exists (p1 +:+ p2)%string, (s1 ++ s2), (n1 ++ n2), (o1 ++ o2), (d1 ++ d2). split.
  - rewrite !app_assoc, string_app_assoc, length_string_app, Nat2Z.inj_add, Z.add_assoc. done.
  - apply evidence_app; [done|done|]. by rewrite length_app, Nat2Z.inj_add in He2.
Qed.

Lemma lays_then p m es : lays live home m es → lays live home (emit p ≫= λ _, m) es.
Proof. apply (lays_bind (emit p) m []), lays_emit. Qed.

Lemma lays_close p m es : lays live home m es → lays live home (m ≫= λ _, emit p) es.
Proof. intros H. rewrite <- (app_nil_r es). by apply lays_bind, lays_emit. Qed.

Lemma lays_close2 p q m es : lays live home m es → lays live home (m ≫= λ _, emit p ≫= λ _, emit q) es.
Proof. intros H. rewrite <- (app_nil_r es). by apply lays_bind, lays_then, lays_emit. Qed.

Lemma lays_pure {A} (r : ingested A) (f : A → building unit) es : (∀ a, r = Ok a → lays live home (f a) es) → lays live home (pure r ≫= f) es.
Proof. intros H b b' (a & b1 & [Hr ->]%run_pure & Hf)%run_bind. exact (H a Hr b b' Hf). Qed.

Lemma lays_separators {A} (body : string → A → building unit) (f : A → list entry) l :
  (∀ sep x, x ∈ l → lays live home (body sep x) (f x)) → lays live home (with_separators body l) (concat (map f l)).
Proof.
  intros H. induction l as [|x l IH]; [apply lays_skip|]. cbn [with_separators map concat]. apply lays_bind; [apply H; by left|]. apply IH. intros sep y Hy. apply H. by right.
Qed.
End lays.

(** inside a concept, the spans name the section the concept will get *)
Definition assigned (taxonomy name sid : string) (_ : list section) (e : entry) (s : source_span) : Prop :=
  sp_section_id s = sid ∧ en_taxonomy e = taxonomy ∧ en_name e = name.

Lemma assigned_monotone taxonomy name sid : monotone (assigned taxonomy name sid).
Proof. by intros secs secs' e s H _. Qed.

Lemma rendered_dict_length items s : rendered (DictJ items) = Ok s → (0 < String.length s)%nat.
Proof.
  unfold rendered, _render_json_value. cbn [render_with]. destruct (mapM _ _) as [texts|[]]; [|done|done]. cbn [mbind result_bind]. intros [= <-].
  change ("{" +:+ ?t)%string with (String "{" t). cbn. lia.
Qed.

Lemma iso_date_dated v d : _iso_date v = Ok d → dated v = Some d.
Proof. destruct v; try done. cbn. by intros H%from_option_err_Ok. Qed.

Lemma record_spec taxonomy name label measure sid items covered start stop b b' (span := SourceSpan (span_id_at seed start stop) sid start stop (text_hash covered) covered) :
  _record_observation seed (taxonomy +:+ ":" +:+ name) label measure sid items covered start stop b = (Ok tt, b') →
  ∃ diags, b' = Builder (b_text b) (b_pos b) (b_sections b) (b_spans b ++ [span]) (b_observations b ++ observed [Entry taxonomy name label measure items] [span]) (b_diagnostics b ++ diags) ∧
    is_Some (dated (jget "end" items)).
Proof.
  intros (u & b1 & H1 & H)%run_bind. injection H1 as _ <-. apply run_bind in H as (pe & b2 & [Hpe ->]%run_pure & H). apply iso_date_dated in Hpe.
  apply run_bind in H as (ps & b3 & Hps & H). cbn [b_text b_pos b_sections b_spans b_observations b_diagnostics] in *.
  assert (ps = dated (jget "start" items) ∧ b3 = Builder (b_text b) (b_pos b) (b_sections b) (b_spans b ++ [span]) (b_observations b) (b_diagnostics b)) as [-> ->].
  { destruct (is_noneJ (jget "start" items)) eqn:Hn.
    - destruct (jget "start" items); try done. by injection Hps as <- <-.
    - apply run_bind in Hps as (d & b4 & [Hd ->]%run_pure & Hps). apply iso_date_dated in Hd. injection Hps as <- <-. done. }
  cbn [observed zip zip_with omap list_omap fst snd]. unfold observe_entry. cbn [en_items en_label en_measure sp_id sp_start sp_end].
  change (en_concept (Entry taxonomy name label measure items)) with (taxonomy +:+ ":" +:+ name)%string.
  destruct (dict_get "val"%string items) as [v|]; cbn [mbind option_bind].
  - destruct (magnitude v) as [m|]; cbn [mbind option_bind]; injection H as <-.
    + rewrite Hpe. cbn [mbind option_bind]. exists []. rewrite app_nil_r. split; [done|by eexists].
    + eexists. rewrite app_nil_r. split; [done|by eexists].
  - injection H as <-. eexists. rewrite app_nil_r. split; [done|by eexists].
Qed.

Lemma lays_observation taxonomy name label measure sid sep o :
  lays False (assigned taxonomy name sid) (render_observation seed (taxonomy +:+ ":" +:+ name) label measure sid sep o) (observation_entries taxonomy name label measure o).
Proof.
  destruct o as [| | | | | | |items]; try apply lays_raise. cbn [render_observation observation_entries]. apply lays_pure. intros fragment Hf b b' Hm.
  apply run_bind in Hm as (u0 & b0 & Hm0 & Hm). injection Hm0 as _ <-. apply run_bind in Hm as (start & b1 & Hm1 & Hm). injection Hm1 as <- <-.
  apply run_bind in Hm as (u2 & b2 & Hm2 & Hm). injection Hm2 as _ <-. apply run_bind in Hm as (stop & b3 & Hm3 & Hm). injection Hm3 as <- <-.
  apply run_bind in Hm as (u4 & b4 & Hm4 & Hm). injection Hm4 as _ <-. apply record_spec in Hm as (diags & -> & Hend). cbn [b_text b_pos b_sections b_spans b_observations b_diagnostics].
  set (start := b_pos b + Z.of_nat (String.length "            ")). set (span := SourceSpan _ _ _ _ _ _). pose proof (rendered_dict_length items fragment Hf) as Hpos.
  exists ("            " +:+ fragment +:+ sep)%string, [], [span], (observed [Entry taxonomy name label measure items] [span]), diags. rewrite app_nil_r. split.
  - rewrite !length_string_app, !Nat2Z.inj_add, !Z.add_assoc, !string_app_assoc. done.
  - split; [|by constructor; [|constructor]|by repeat constructor|done|constructor|done]. constructor; [|constructor]. unfold span, start. split; cbn [sp_start sp_end sp_text sp_text_hash sp_id en_items]; try done.
    + rewrite !length_string_app. change (String.length "            ") with 12%nat. lia.
    + transitivity (slice ("            " +:+ (fragment +:+ sep)) (Z.of_nat (String.length "            ") + 0) (Z.of_nat (String.length "            ") + Z.of_nat (String.length fragment)));
        [f_equal; change (String.length "            ") with 12%nat; lia|].
      rewrite slice_right by lia. unfold slice. rewrite Z.sub_0_r, Nat2Z.id. apply substring_whole.
Qed.

Lemma lays_units taxonomy name label sid units :
  lays False (assigned taxonomy name sid) (_render_units seed taxonomy name label sid units) (unit_entries taxonomy name label units).
Proof.
  pose proof (assigned_monotone taxonomy name sid) as Hmono. destruct units as [| | | | | | |[|kv items]]; try apply lays_raise; [apply lays_emit|].
  cbn [_render_units]. apply lays_then; [done|]. apply lays_close; [done|]. apply (lays_separators _ _ Hmono). intros sep [measure obs] _.
  destruct obs as [| | | | | |l|]; try apply lays_raise. cbn [fst snd list_of]. apply lays_then; [done|].
  apply (lays_close2 _ _ Hmono), (lays_separators _ _ Hmono). intros sep' o _. apply lays_observation.
Qed.

(** outside, every span lies in a section *)
Definition housed (secs : list section) (e : entry) (s : source_span) : Prop :=
  ∃ sec, sec ∈ secs ∧ sp_section_id s = sec_id sec ∧ sec_start sec ≤ sp_start s ∧ sp_end s ≤ sec_end sec ∧
    sec_heading_path sec = [ROOT_HEADING; en_taxonomy e; en_name e].

Lemma housed_monotone : monotone housed.
Proof. intros secs secs' e s (sec & Hin & H) Hsub. exists sec. split; [by apply Hsub|done]. Qed.

(** the items of a concept: its units, and rendered values *)
Lemma lays_concept_items taxonomy name label sid (items : list (string * pyjson)) :
  lays False (assigned taxonomy name sid) (with_separators (λ sep '(key, v),
      _ ← emit ("        " +:+ json_str key +:+ ": ");
      _ ← (if bool_decide (key = "units"%string) then _render_units seed taxonomy name label sid v else text ← pure (rendered v); emit text);
      emit sep) items)
    (concat (map (λ kv, if bool_decide (kv.1 = "units"%string) then unit_entries taxonomy name label kv.2 else []) items)).
Proof.
  pose proof (assigned_monotone taxonomy name sid) as Hmono. apply (lays_separators _ _ Hmono). intros sep [key v] _. cbn [fst snd]. apply lays_then; [done|]. apply lays_close; [done|].
  case_bool_decide; [apply lays_units|]. apply lays_pure. intros text _. apply lays_emit.
Qed.

Lemma lays_concept taxonomy name concept : lays True housed (_render_concept seed taxonomy name concept) (concept_entries taxonomy name concept).
Proof.
  destruct concept as [| | | | | | |items]; try apply lays_raise. intros b b' H. cbn [_render_concept] in H. fold (label_of items) in H.
  apply run_bind in H as (u0 & b0 & H0 & H). injection H0 as _ <-. apply run_bind in H as (start & b1 & H1 & H). injection H1 as <- <-.
  apply run_bind in H as (order & b2 & H2 & H). injection H2 as <- <-. cbn [b_pos b_sections] in H. set (open := (json_str name +:+ ": {" +:+ newline)%string) in H. clearbody open. set (sid := section_id_at seed (Z.of_nat (length (b_sections b)) + 1)) in H.
  apply run_bind in H as (u3 & b3 & H3 & H). injection H3 as _ <-. apply run_bind in H as (u4 & b4 & H4 & H). destruct u4.
  apply lays_concept_items in H4 as (piece & secs & new & obs & diags & -> & Hev). cbn [b_text b_pos b_sections b_spans b_observations b_diagnostics] in *.
  apply run_bind in H as (u5 & b5 & H5 & H). injection H5 as _ <-. apply run_bind in H as (stop & b6 & H6 & H). injection H6 as <- <-. injection H as <-. cbn [b_text b_pos b_sections b_spans b_observations b_diagnostics].
  assert (secs = []) as -> by (destruct secs as [|sec secs]; [done|]; by destruct (ev_lies _ _ _ _ _ _ _ _ _ Hev 0%nat sec eq_refl) as [[] _]). rewrite app_nil_r.
  set (sec := Section_ _ _ _ _ _ _ _).
  exists ("      " +:+ open +:+ piece +:+ "      }")%string, [sec], new, obs, diags. split; [rewrite !length_string_app, !Nat2Z.inj_add, !Z.add_assoc, !string_app_assoc; done|].
  destruct Hev as [Hc Hh Hs _ _ Ho]. split; try done.
  - eapply Forall2_impl; [exact Hc|]. intros e s He. rewrite <- !string_app_assoc. apply cites_left, cites_right. by rewrite length_string_app, Nat2Z.inj_add, Z.add_assoc.
  - assert (Forall2 (λ e s, cites (b_pos b + Z.of_nat (String.length "      ") + Z.of_nat (String.length open)) piece e s ∧ assigned taxonomy name sid [] e s) (concept_entries taxonomy name (DictJ items)) new) as Hb by (by apply Forall2_both).
    eapply Forall2_impl; [exact Hb|]. intros e s ([Hbd _ _ _ _ _] & Hsid & Ht & Hn). exists sec. split; [by left|]. unfold sec. cbn [sec_id sec_start sec_end sec_heading_path]. rewrite Ht, Hn.
    change (String.length "      ") with 6%nat in *. change (String.length "      }") with 7%nat. split; [done|]. split; [lia|]. split; [lia|done].
  - intros [|i] x Hx; [|done]. injection Hx as <-. split; [done|]. unfold sec. split; cbn [sec_start sec_end sec_order sec_id sec_parent_id sec_heading_path sec_heading]; try done; [|lia|by eexists].
    rewrite !length_string_app. change (String.length "      ") with 6%nat. change (String.length "      }") with 7%nat. lia.
  - repeat constructor.
Qed.

Lemma lays_facts facts : lays True housed (_render_facts seed facts) (facts_entries facts).
Proof.
  pose proof housed_monotone as Hmono. destruct facts as [| | | | | | |[|kv items]]; try apply lays_raise; [apply lays_emit|].
  cbn [_render_facts]. apply lays_then; [done|]. apply lays_close; [done|]. apply (lays_separators _ _ Hmono). intros sep [taxonomy concepts] _.
  destruct concepts as [| | | | | | |names]; try apply lays_raise. cbn [fst snd]. apply lays_then; [done|]. apply (lays_close2 _ _ Hmono), (lays_separators _ _ Hmono).
  intros sep' [name concept] _. cbn [fst snd]. apply lays_close; [done|]. apply lays_concept.
Qed.

Lemma lays_document payload : lays True housed (render_document seed payload) (document_entries payload).
Proof.
  pose proof housed_monotone as Hmono. unfold render_document. apply lays_then; [done|]. apply lays_close; [done|]. apply (lays_separators _ _ Hmono). intros sep [key v] _. cbn [fst snd].
  apply lays_then; [done|]. apply lays_close; [done|]. case_bool_decide; [apply lays_facts|]. apply lays_pure. intros text _. apply lays_emit.
Qed.
End sound.

(** * A parsed snapshot *)

(** The root section covers the text; the others are the concepts', in order, disjoint
    and below it; every observation of the payload has one span, in order, which is
    its rendering in the text, hashed, in its concept's section; and the numeric
    observations are those spans'. *)
Record snapshot_of (seed : string) (payload : list (string * pyjson)) (p : parsed_facts) : Prop := SnapshotOf {
  sn_root : head (pf_sections p) = Some (Section_ (root_id seed) None ROOT_HEADING [ROOT_HEADING] 0 0 (Z.of_nat (String.length (pf_text p))));
  sn_sections : ∀ i sec, tail (pf_sections p) !! i = Some sec → lies seed 0 0 (pf_text p) i sec;
  sn_disjoint : StronglySorted precedes (tail (pf_sections p));
  sn_spans : Forall2 (cites seed 0 (pf_text p)) (document_entries payload) (pf_spans p);
  sn_ordered : StronglySorted before (pf_spans p);
  sn_housed : Forall2 (housed (tail (pf_sections p))) (document_entries payload) (pf_spans p);
  sn_observations : pf_observations p = observed (document_entries payload) (pf_spans p) }.

Definition seed_of (raw : string) (id_seed content_hash : option string) : string :=
  default (default (content_address raw).1 content_hash +:+ "|" +:+ COMPANY_FACTS_PARSER_VERSION)%string id_seed.

Lemma parse_snapshot raw id_seed content_hash p :
  parse_company_facts raw id_seed content_hash = Ok p →
  ∃ decoded payload, decode_utf8 raw = Ok decoded ∧ loads decoded = Ok (DictJ payload) ∧
    (∃ b, render_document (seed_of raw id_seed content_hash) payload new_builder = (Ok tt, b) ∧ pf_text p = b_text b) ∧
    snapshot_of (seed_of raw id_seed content_hash) payload p.
Proof.
  unfold parse_company_facts. fold (seed_of raw id_seed content_hash). intros (decoded & Hd & H)%bind_Ok. apply bind_Ok in H as (v & Hv%map_err_Ok & H). destruct v as [| | | | | | |[|kv items]]; try done.
  set (seed := seed_of raw id_seed content_hash) in *. destruct (render_document seed (kv :: items) new_builder) as [[[]|e] b] eqn:Hr; [|done]. injection H as <-.
  exists decoded, (kv :: items). split; [done|]. split; [done|]. split; [by exists b|].
  destruct (lays_document seed (kv :: items) new_builder b Hr) as (piece & secs & new & obs & diags & -> & [Hc Hh Hs Hl Hp Ho]). cbn in *. split; try done.
  intros i sec Hi. by destruct (Hl i sec Hi).
Qed.

(** * The canonical text denotes the payload *)

(** [s] is a JSON text of a value that is the same as [v] *)
Definition denotes (v : pyjson) (s : string) : Prop := ∃ v', same v v' ∧ spells v' s.

(** a method that writes a text with property [P] *)
Definition types (m : building unit) (P : string → Prop) : Prop := ∀ b b', m b = (Ok tt, b') → ∃ piece, b_text b' = (b_text b +:+ piece)%string ∧ P piece.

Lemma types_weaken (P Q : string → Prop) m : types m P → (∀ s, P s → Q s) → types m Q.
Proof. intros H HPQ b b' Hm. destruct (H b b' Hm) as (p & Hp & Hpp). exists p. split; [done|by apply HPQ]. Qed.

Lemma types_emit p : types (emit p) (λ s, s = p).
Proof. intros b b' [= <-]. by exists p. Qed.

Lemma types_raise e P : types (raise e) P.
Proof. by intros b b' [=]. Qed.

Lemma types_bind m1 m2 P1 P2 : types m1 P1 → types m2 P2 → types (m1 ≫= λ _, m2) (λ s, ∃ p q, s = (p +:+ q)%string ∧ P1 p ∧ P2 q).
Proof.
  intros H1 H2 b b' (u & b1 & Hm1 & Hm2)%run_bind. destruct u. destruct (H1 b b1 Hm1) as (p & Hp & HP), (H2 b1 b' Hm2) as (q & Hq & HQ).
  exists (p +:+ q)%string. split; [by rewrite Hq, Hp, string_app_assoc|]. by exists p, q.
Qed.

Lemma types_then p m (P : string → Prop) : types m (λ s, P (p +:+ s)%string) → types (emit p ≫= λ _, m) P.
Proof. intros H. eapply types_weaken; [apply types_bind; [apply types_emit|exact H]|]. intros s (a & q & -> & -> & Hq). exact Hq. Qed.

Lemma types_close p m (P : string → Prop) : types m (λ s, P (s +:+ p)%string) → types (m ≫= λ _, emit p) P.
Proof. intros H. eapply types_weaken; [apply types_bind; [exact H|apply types_emit]|]. intros s (a & q & -> & Ha & ->). exact Ha. Qed.

Lemma types_emit2 p q : types (emit p ≫= λ _, emit q) (λ s, s = (p +:+ q)%string).
Proof. apply types_then. eapply types_weaken; [apply types_emit|]. by intros s ->. Qed.

Lemma types_pure {A} (r : ingested A) (f : A → building unit) P : (∀ a, r = Ok a → types (f a) P) → types (pure r ≫= f) P.
Proof. intros H b b' (a & b1 & [Hr ->]%run_pure & Hf)%run_bind. exact (H a Hr b b' Hf). Qed.

Lemma types_reads {A} (g : builder → A) (f : A → building unit) P : (∀ a, types (f a) P) → types (reads g ≫= f) P.
Proof. intros H b b' (a & b1 & Hr & Hf)%run_bind. injection Hr as _ <-. exact (H a b b' Hf). Qed.

(** texts of the items of a list, each followed by its separator *)
Inductive lines {A} (C : A → string → Prop) : list A → string → Prop :=
| lines_nil : lines C [] ""
| lines_last x c : C x c → lines C [x] (c +:+ newline)
| lines_more x y l c s : C x c → lines C (y :: l) s → lines C (x :: y :: l) (c +:+ comma_newline +:+ s).

Lemma types_separators {A} (body : string → A → building unit) (C : A → string → Prop) l :
  (∀ sep x, x ∈ l → types (body sep x) (λ s, ∃ c, s = (c +:+ sep)%string ∧ C x c)) → types (with_separators body l) (lines C l).
Proof.
  induction l as [|x l IH]; intros H.
  - intros b b' [= <-]. exists "". split; [by rewrite string_app_nil|constructor].
  - cbn [with_separators]. eapply types_weaken; [apply types_bind; [apply H; by left|apply IH; intros sep y Hy; apply H; by right]|].
    intros s (p & q & -> & (c & -> & Hc) & Hl). rewrite string_app_assoc. destruct l as [|y l]; [|by apply lines_more].
    inversion Hl; subst. rewrite string_app_nil. by apply lines_last.
Qed.

Lemma spaces_newline : blanks newline.
Proof. by apply Forall_singleton. Qed.

(** a line of an object, and of an array *)
Definition field_line (indent : string) (kv : string * pyjson) (c : string) : Prop := ∃ t, c = (indent +:+ json_str kv.1 +:+ ": " +:+ t)%string ∧ denotes kv.2 t.
Definition elem_line (indent : string) (v : pyjson) (c : string) : Prop := ∃ t, c = (indent +:+ t)%string ∧ denotes v t.

(** lines of fields make an object, lines of elements an array *)
Lemma fields_lines indent close items s w :
  lines (field_line indent) items s → items ≠ [] → blanks w → blanks indent → blanks close →
  ∃ items', Forall2 (λ a b, fst a = fst b ∧ same (snd a) (snd b)) items items' ∧ fields items' (w +:+ s +:+ close +:+ "}").
Proof.
  intros H Hne Hw Hi Hcl. revert w Hw. induction H as [|[k v] c (t & -> & v' & Hv & Hs)|[k v] kv l c s (t & -> & v' & Hv & Hs) Hl IH]; intros w Hw; [done| |]; cbn [fst snd] in *.
  - exists [(k, v')]. split; [by repeat constructor|]. rewrite !string_app_assoc, <- (string_app_assoc w indent), <- (string_app_assoc newline close).
    apply (w_field k v' _ "" " "); try done; apply spaces_app; try done. apply spaces_newline.
  - destruct (IH ltac:(done) newline spaces_newline) as (items' & Hss & Hf). exists ((k, v') :: items'). split; [by constructor|]. unfold comma_newline.
    rewrite !string_app_assoc, <- (string_app_assoc w indent). change (String "," newline +:+ ?x)%string with ("" +:+ ("," +:+ (newline +:+ x)))%string.
    apply (w_fields k v' items' _ "" " "); try done. by apply spaces_app.
Qed.

Lemma elems_lines indent close l s w :
  lines (elem_line indent) l s → l ≠ [] → blanks w → blanks indent → blanks close →
  ∃ l', Forall2 same l l' ∧ elems l' (w +:+ s +:+ close +:+ "]").
Proof.
  intros H Hne Hw Hi Hcl. revert w Hw. induction H as [|v c (t & -> & v' & Hv & Hs)|v v2 l c s (t & -> & v' & Hv & Hs) Hl IH]; intros w Hw; [done| |].
  - exists [v']. split; [by repeat constructor|]. rewrite !string_app_assoc, <- (string_app_assoc w indent), <- (string_app_assoc newline close).
    apply w_elem; try done; apply spaces_app; try done. apply spaces_newline.
  - destruct (IH ltac:(done) newline spaces_newline) as (l' & Hss & Hf). exists (v' :: l'). split; [by constructor|]. unfold comma_newline.
    rewrite !string_app_assoc, <- (string_app_assoc w indent). change (String "," newline +:+ ?x)%string with ("" +:+ ("," +:+ (newline +:+ x)))%string.
    apply w_elems; try done. by apply spaces_app.
Qed.

Lemma same_keys (l l' : list (string * pyjson)) : Forall2 (λ a b, fst a = fst b ∧ same (snd a) (snd b)) l l' → l'.*1 = l.*1.
Proof. induction 1 as [|a b l l' [H _] _ IH]; [done|]. cbn. by rewrite H, IH. Qed.

Lemma denotes_items indent close items s :
  NoDup items.*1 → blanks indent → blanks close →
  lines (field_line indent) (by_key items) s →
  denotes (DictJ items) ("{" +:+ newline +:+ s +:+ close +:+ "}").
Proof.
  intros Hnd Hi Hcl H. destruct (decide (by_key items = [])) as [He|Hne].
  - rewrite He in H. inversion H; subst. exists (DictJ []). split; [constructor; fold (by_key items); by rewrite He|].
    change ("" +:+ ?x)%string with x. rewrite <- (string_app_assoc newline). apply w_no_items, spaces_app; [apply spaces_newline|done].
  - destruct (fields_lines indent close _ s newline H Hne spaces_newline Hi Hcl) as (items' & Hs & Hf). exists (DictJ items'). split; [by constructor|].
    apply w_dict; [|exact Hf]. rewrite (same_keys _ _ Hs). unfold by_key. by rewrite (py_sorted_perm key_le items).
Qed.

Lemma denotes_list indent close l s :
  blanks indent → blanks close → lines (elem_line indent) l s → denotes (ListJ l) ("[" +:+ newline +:+ s +:+ close +:+ "]").
Proof.
  intros Hi Hcl H. destruct l as [|v l].
  - inversion H; subst. exists (ListJ []). split; [by constructor|]. change ("" +:+ ?x)%string with x. rewrite <- (string_app_assoc newline). apply w_no_elems, spaces_app; [apply spaces_newline|done].
  - destruct (elems_lines indent close _ s newline H ltac:(done) spaces_newline Hi Hcl) as (l' & Hs & Hf). exists (ListJ l'). split; [by constructor|]. by apply w_list.
Qed.

Lemma blank s : forallb json_space (chars s) = true → blanks s.
Proof. rewrite forallb_forall. intros H. apply Forall_forall. intros a Ha. apply H. by apply list_elem_of_In. Qed.

Lemma storable_items items : storable (DictJ items) = true → NoDup items.*1 ∧ ∀ kv, kv ∈ by_key items → storable kv.2 = true.
Proof.
  cbn [storable]. intros [Hnd%bool_decide_eq_true Hall]%andb_true_iff. split; [done|]. rewrite forallb_forall in Hall. intros kv Hin. apply Hall, list_elem_of_In.
  unfold by_key in Hin. by rewrite (py_sorted_perm key_le items) in Hin.
Qed.

Lemma storable_elems l v : storable (ListJ l) = true → v ∈ l → storable v = true.
Proof. cbn [storable]. rewrite forallb_forall. intros Hall Hin. by apply Hall, list_elem_of_In. Qed.

Lemma rendered_denotes v s : storable v = true → rendered v = Ok s → denotes v s.
Proof.
  intros Hst Hr. unfold rendered in Hr. destruct (_render_json_value v) as [t|[]] eqn:Ht; [|done|done]. injection Hr as <-.
  destruct (render_spells " " " " v t spaces_one spaces_one Hst Ht) as (v' & Hv & Hs & _). by exists v'.
Qed.

Lemma types_rendered v : storable v = true → types (pure (rendered v) ≫= λ text, emit text) (denotes v).
Proof. intros Hst. apply types_pure. intros text Hr. eapply types_weaken; [apply types_emit|]. intros s ->. by apply rendered_denotes. Qed.

(** recording an observation writes no text *)
Lemma types_record seed taxonomy name label measure sid items covered start stop :
  types (_record_observation seed (taxonomy +:+ ":" +:+ name) label measure sid items covered start stop) (λ s, s = ""%string).
Proof. intros b b' H. apply record_spec in H as (diags & -> & _). exists ""%string. cbn. by rewrite string_app_nil. Qed.

Lemma types_observation seed taxonomy name label measure sid sep o :
  storable o = true →
  types (render_observation seed (taxonomy +:+ ":" +:+ name) label measure sid sep o) (λ s, ∃ c, s = (c +:+ sep)%string ∧ elem_line "            " o c).
Proof.
  intros Hst. destruct o as [| | | | | | |items]; try apply types_raise. cbn [render_observation]. apply types_pure. intros fragment Hf. apply types_then, types_reads. intros start. apply types_then, types_reads. intros stop.
  apply types_then. eapply types_weaken; [apply types_record|]. intros s ->. exists ("            " +:+ fragment)%string. split; [by rewrite string_app_nil, string_app_assoc|]. exists fragment. split; [done|]. by apply rendered_denotes.
Qed.

Lemma types_units seed taxonomy name label sid units : storable units = true → types (_render_units seed taxonomy name label sid units) (denotes units).
Proof.
  intros Hst. destruct units as [| | | | | | |[|kv items]]; try apply types_raise.
  { eapply types_weaken; [apply types_emit|]. intros s ->. exists (DictJ []). split; [by constructor|]. by apply (w_no_items ""). }
  destruct (storable_items _ Hst) as [Hnd Hall]. cbn [_render_units]. apply types_then, types_close. eapply types_weaken; [apply (types_separators _ (field_line "          "))|].
  - intros sep [measure obs] Hin. specialize (Hall _ Hin). cbn [snd] in Hall. destruct obs as [| | | | | |l|]; try apply types_raise. apply types_then.
    eapply types_weaken; [apply types_bind; [apply (types_separators _ (elem_line "            ")); intros sep' o Ho; apply types_observation; by eapply storable_elems|apply types_emit2]|].
    intros s (p & q & -> & Hp & ->). exists ("          " +:+ json_str measure +:+ ": " +:+ ("[" +:+ newline +:+ p +:+ "          " +:+ "]"))%string. split; [by rewrite !string_app_assoc|].
    eexists. split; [done|]. apply (denotes_list "            "); [by apply blank|by apply blank|exact Hp].
  - intros s Hs. rewrite !string_app_assoc. apply (denotes_items "          " "        "); [done|by apply blank|by apply blank|exact Hs].
Qed.

Lemma types_ext (m m' : building unit) P : (∀ b, m b = m' b) → types m' P → types m P.
Proof. intros H Hm b b' Hb. rewrite H in Hb. by apply Hm. Qed.

(** the items of an object one level deeper, each a key and what types its value *)
Lemma types_fields indent (value : string → pyjson → building unit) (body : string → string * pyjson → building unit) items :
  (∀ sep k v b, body sep (k, v) b = (_ ← emit (indent +:+ json_str k +:+ ": "); _ ← value k v; emit sep) b) →
  (∀ k v, (k, v) ∈ by_key items → types (value k v) (denotes v)) →
  types (with_separators body (by_key items)) (lines (field_line indent) (by_key items)).
Proof.
  intros Hb H. apply types_separators. intros sep [k v] Hin. eapply types_ext; [apply Hb|]. apply types_then, types_close. eapply types_weaken; [by apply H|].
  intros t Ht. exists ((indent +:+ json_str k +:+ ": ") +:+ t)%string. split; [by rewrite !string_app_assoc|]. exists t. split; [by rewrite !string_app_assoc|exact Ht].
Qed.

Lemma types_concept seed taxonomy name concept :
  storable concept = true → types (_render_concept seed taxonomy name concept) (field_line "      " (name, concept)).
Proof.
  intros Hst. destruct concept as [| | | | | | |items]; try apply types_raise. destruct (storable_items _ Hst) as [Hnd Hall]. cbn [_render_concept]. apply types_then, types_reads. intros start. apply types_reads. intros order.
  apply types_then. eapply types_weaken; [apply (types_bind _ _ (lines (field_line "        ") (by_key items)) (λ s, s = "      }"%string))|].
  - apply (types_fields _ (λ k v, if bool_decide (k = "units"%string) then _render_units seed taxonomy name (label_of items) (section_id_at seed order) v else text ← pure (rendered v); emit text)); [done|].
    intros key v Hin. specialize (Hall _ Hin). cbn [fst snd] in *. case_bool_decide; [by apply types_units|by apply types_rendered].
  - intros b b' Hm. injection Hm as <-. by exists "      }"%string.
  - intros s (p & q & -> & Hp & ->). exists ("{" +:+ newline +:+ p +:+ "      " +:+ "}")%string. split; [by rewrite !string_app_assoc|].
    apply (denotes_items "        "); [done|by apply blank|by apply blank|exact Hp].
Qed.

Lemma types_taxonomy seed taxonomy names (sep : string) :
  storable (DictJ names) = true →
  types (emit ("    " +:+ json_str taxonomy +:+ ": {" +:+ newline) ≫= λ _,
    with_separators (λ sep '(name, concept), _ ← _render_concept seed taxonomy name concept; emit sep) (by_key names) ≫= λ _, emit "    }" ≫= λ _, emit sep)
    (λ s, ∃ c, s = (c +:+ sep)%string ∧ field_line "    " (taxonomy, DictJ names) c).
Proof.
  intros Hst. destruct (storable_items _ Hst) as [Hnd Hall]. apply types_then. eapply types_weaken; [apply types_bind; [|apply types_emit2]|].
  - apply (types_separators _ (field_line "      ")). intros sep' [name concept] Hin. apply types_close. eapply types_weaken; [apply types_concept, (Hall _ Hin)|]. intros s Hs. by exists s.
  - intros s (p & q & -> & Hp & ->). exists ("    " +:+ json_str taxonomy +:+ ": " +:+ ("{" +:+ newline +:+ p +:+ "    " +:+ "}"))%string. split; [by rewrite !string_app_assoc|].
    eexists. split; [done|]. apply (denotes_items "      "); [done|by apply blank|by apply blank|exact Hp].
Qed.

Lemma types_facts seed facts : storable facts = true → types (_render_facts seed facts) (denotes facts).
Proof.
  intros Hst. destruct facts as [| | | | | | |[|kv items]]; try apply types_raise.
  { eapply types_weaken; [apply types_emit|]. intros s ->. exists (DictJ []). split; [by constructor|]. by apply (w_no_items ""). }
  destruct (storable_items _ Hst) as [Hnd Hall]. cbn [_render_facts]. apply types_then, types_close. eapply types_weaken; [apply (types_separators _ (field_line "    "))|].
  - intros sep [taxonomy concepts] Hin. specialize (Hall _ Hin). cbn [snd] in Hall. destruct concepts as [| | | | | | |names]; try apply types_raise. by apply types_taxonomy.
  - intros s Hs. rewrite !string_app_assoc. apply (denotes_items "    " "  "); [done|by apply blank|by apply blank|exact Hs].
Qed.

Lemma types_document seed payload : storable (DictJ payload) = true → types (render_document seed payload) (denotes (DictJ payload)).
Proof.
  intros Hst. destruct (storable_items _ Hst) as [Hnd Hall]. unfold render_document. apply types_then, types_close.
  eapply types_weaken; [apply (types_fields "  " (λ k v, if bool_decide (k = "facts"%string) then _render_facts seed v else text ← pure (rendered v); emit text)); [done|]|].
  - intros key v Hin. specialize (Hall _ Hin). cbn [fst snd] in *. case_bool_decide; [by apply types_facts|by apply types_rendered].
  - intros s Hs. rewrite !string_app_assoc. apply (denotes_items "  " ""); [done|by apply blank|by apply blank|exact Hs].
Qed.

(** * Storage and back *)

Lemma decode_encode s : decode_utf8 (encode_utf8 s) = Ok s.
Proof.
  induction s as [|a s IH]; [done|]. cbn [encode_utf8]. destruct (N_of_ascii a <? 128)%N eqn:Ha.
  - cbn [decode_utf8]. by rewrite Ha, IH.
  - pose proof (N_ascii_bounded a) as Hb. apply N.ltb_ge in Ha. cbn [decode_utf8].
    assert (N_of_ascii a / 64 < 4)%N as Hq by (apply N.Div0.div_lt_upper_bound; lia). assert (2 ≤ N_of_ascii a / 64)%N as Hq2 by (apply N.div_le_lower_bound; lia).
    assert (N_of_ascii a mod 64 < 64)%N as Hm by (apply N.mod_lt; lia).
    rewrite !N_ascii_embedding by lia. destruct (N.ltb_spec (192 + N_of_ascii a / 64) 128); [lia|]. destruct (N.ltb_spec (192 + N_of_ascii a / 64) 194); [lia|].
    destruct (N.ltb_spec 244 (192 + N_of_ascii a / 64)); [lia|]. destruct (N.ltb_spec 195 (192 + N_of_ascii a / 64)); [lia|]. cbn [orb].
    destruct (N.leb_spec 128 (128 + N_of_ascii a mod 64)); [|lia]. destruct (N.ltb_spec (128 + N_of_ascii a mod 64) 192); [|lia]. cbn [andb]. rewrite IH. cbn [mbind result_bind].
    do 2 f_equal. replace ((192 + N_of_ascii a / 64 - 192) * 64 + (128 + N_of_ascii a mod 64 - 128))%N with (N_of_ascii a); [apply ascii_N_embedding|].
    pose proof (N.div_mod (N_of_ascii a) 64 ltac:(done)). lia.
Qed.

Lemma sorted_by_key items items' :
  Forall2 (λ a b, fst a = fst b ∧ same (snd a) (snd b)) (py_sorted key_le items) items' → py_sorted key_le items' = items'.
Proof.
  intros H. apply py_sorted_id. pose proof (py_sorted_sorted key_le items) as Hs. revert Hs. induction H as [|a b l l' [Hab _] Hl IH]; [constructor|].
  intros [Hs Ha]%StronglySorted_inv. constructor; [by apply IH|]. clear IH Hs. induction Hl as [|x y l l' [Hxy _] _ IH]; [constructor|].
  apply Forall_cons in Ha as [Hx Ha]. constructor; [unfold key_le in *; congruence|by apply IH].
Qed.

Lemma same_trans a : ∀ b c, same a b → same b c → same a c.
Proof.
  induction a as [|x|z|d| |t|l IH|items IH] using pyjson_induction; intros b c Hab Hbc; inversion Hab; subst; try (inversion Hbc; subst; by constructor).
  - inversion Hbc; subst; constructor; by etransitivity.
  - inversion Hbc as [| | | | | |l1 l2 Hl|]; subst. constructor. rename l' into m. clear Hab Hbc. revert l2 Hl. match goal with H : Forall2 same l m |- _ => induction H as [|x y l m Hxy Hlm IHlm]; intros l2 Hl; inversion Hl; subst; constructor end.
    + apply Forall_cons in IH as [IHx _]. by eapply IHx.
    + apply Forall_cons in IH as [_ IH]. by apply IHlm.
  - inversion Hbc as [| | | | | | |i1 i2 Hi]; subst. constructor. match goal with H : Forall2 _ (py_sorted key_le items) ?m |- _ => rename m into m; pose proof (sorted_by_key _ _ H) as Hm; rename H into Hs end.
    rewrite Hm in Hi. assert (Forall (λ kv : string * pyjson, ∀ b c, same kv.2 b → same b c → same kv.2 c) (py_sorted key_le items)) as IH' by by rewrite (py_sorted_perm key_le items).
    clear Hab Hbc Hm IH. revert i2 Hi. induction Hs as [|x y l m [Hk Hxy] Hlm IHlm]; intros i2 Hi; inversion Hi as [|? z ? i3 [Hk2 Hyz] Hi3]; subst; constructor.
    + apply Forall_cons in IH' as [IHx _]. split; [congruence|]. by eapply IHx.
    + apply Forall_cons in IH' as [_ IH']. by apply IHlm.
Qed.

(** C30: What is stored is what was fetched.  The bytes of a fetched payload decode to the
    payload, with its keys sorted and its numbers by value, and the canonical text
    of the document parsed from those bytes denotes it again: no key, number or
    text is lost between the client and the text that spans cite. *)
Theorem snapshot_survives (payload : list (string * pyjson)) raw id_seed content_hash p :
  storable (DictJ payload) = true → canonical_company_facts_bytes payload = Ok raw → parse_company_facts raw id_seed content_hash = Ok p →
  ∃ decoded stored canonical,
    decode_utf8 raw = Ok decoded ∧ loads decoded = Ok stored ∧ same (DictJ payload) stored ∧
    loads (pf_text p) = Ok canonical ∧ same (DictJ payload) canonical.
Proof.
  intros Hst Hraw Hp. unfold canonical_company_facts_bytes in Hraw. destruct (_compact_json_value (DictJ payload)) as [s|[]] eqn:Hs; [|done|done]. injection Hraw as <-.
  destruct (compact_loads _ _ Hst Hs) as (v & Hl & Hv & Hsv). destruct (parse_snapshot _ _ _ _ Hp) as (decoded & items & Hd & Hi & (b & Hr & Ht) & _).
  rewrite decode_encode in Hd. injection Hd as <-. rewrite Hl in Hi. injection Hi as ->.
  destruct (types_document _ items Hsv _ _ Hr) as (piece & Hpiece & v' & Hv' & Hsp). cbn in Hpiece. change ("" +:+ piece)%string with piece in Hpiece.
  exists s, (DictJ items), v'. split; [apply decode_encode|]. split; [done|]. split; [done|]. split; [|by eapply same_trans].
  rewrite Ht, Hpiece. rewrite <- (string_app_nil piece). by apply (loads_spells v' piece "" "").
Qed.

Lemma snapshot_survives_witness :
  ∃ decoded stored canonical,
    decode_utf8 Sample.raw = Ok decoded ∧ loads decoded = Ok stored ∧ same (DictJ Sample.fetched) stored ∧
    loads (pf_text Sample.document) = Ok canonical ∧ same (DictJ Sample.fetched) canonical.
Proof.
  apply (snapshot_survives Sample.fetched Sample.raw (Some "seed"%string) None Sample.document); vm_compute; reflexivity.
Defined.

(** * Facts *)

(** [f] is the fact of entry [e] as its span [s] shows it *)
Definition backs (e : entry) (s : source_span) (f : normalized_fact) : Prop :=
  nf_source_span_id f = sp_id s ∧ nf_concept f = en_concept e ∧ nf_unit f = map_unit (en_measure e) ∧ nf_restates f = None ∧
  ∃ v d, dict_get "val"%string (en_items e) = Some v ∧ magnitude v = Some (Finite d) ∧ nf_value f = decimal_str (Finite d).

Lemma facts_of_elem entity_id version_id restates drafts f :
  f ∈ facts_of entity_id version_id restates drafts → ∃ i d, drafts !! i = Some d ∧ f = fact_at entity_id version_id restates i (default i (first_with (dr_key d) drafts)) d.
Proof.
  intros (i & Hi)%list_elem_of_lookup. unfold facts_of in Hi. rewrite list_lookup_imap in Hi. apply fmap_Some in Hi as (d & Hd & ->). eauto.
Qed.

Lemma observed_elem seed base piece es spans o :
  Forall2 (cites seed base piece) es spans → o ∈ observed es spans → ∃ e s, e ∈ es ∧ s ∈ spans ∧ cites seed base piece e s ∧ observe_entry e s = Some o.
Proof.
  intros H. induction H as [|e s es spans Hes _ IH]; [by intros ?%not_elem_of_nil|]. cbn. destruct (observe_entry e s) as [o'|] eqn:Ho.
  - intros [->|Hin]%elem_of_cons; [exists e, s; split; [by left|]; split; [by left|done]|]. destruct (IH Hin) as (e' & s' & ? & ? & ?). exists e', s'. split; [by right|]. split; [by right|done].
  - intros Hin. destruct (IH Hin) as (e' & s' & ? & ? & ?). exists e', s'. split; [by right|]. split; [by right|done].
Qed.

Lemma draft_backs e s o d : observe_entry e s = Some o → draft_of_observation o = Ok d →
  dr_span_id d = sp_id s ∧ dr_concept d = en_concept e ∧ dr_unit d = map_unit (en_measure e) ∧
  ∃ v m, dict_get "val"%string (en_items e) = Some v ∧ magnitude v = Some (Finite m) ∧ dr_value d = decimal_str (Finite m).
Proof.
  unfold observe_entry. destruct (dict_get "val"%string (en_items e)) as [v|]; [|done]. cbn [mbind option_bind]. destruct (magnitude v) as [m|] eqn:Hm; [|done]. cbn [mbind option_bind].
  destruct (dated (jget "end" (en_items e))) as [pe|]; [|done]. cbn [mbind option_bind]. intros [= <-]. unfold draft_of_observation. cbn [ob_value ob_unit ob_period_start ob_period_end ob_concept ob_label ob_dimensions ob_span_id].
  destruct m as [m| |]; [|done|done]. cbn [mbind result_bind]. destruct (dated (jget "start" (en_items e))); intros [= <-]; cbn; (split; [done|]; split; [done|]; split; [done|]; by exists v, m).
Qed.

(** C29: Citation integrity.  A parsed snapshot is laid out as [snapshot_of] says, and each
    of its normalized facts cites a span of the document: the span's offsets slice
    the canonical text to the rendering of one observation of the payload, its hash
    is that slice's, and the fact's concept, unit and value are that observation's.
    No fact of a snapshot restates another document's. *)
Theorem facts_are_cited raw id_seed content_hash p entity_id version_id facts :
  parse_company_facts raw id_seed content_hash = Ok p → normalize_company_facts p entity_id version_id = Ok facts →
  ∃ decoded payload, decode_utf8 raw = Ok decoded ∧ loads decoded = Ok (DictJ payload) ∧ snapshot_of (seed_of raw id_seed content_hash) payload p ∧
    length facts = length (pf_observations p) ∧
    ∀ f, f ∈ facts → ∃ e s, e ∈ document_entries payload ∧ s ∈ pf_spans p ∧ cites (seed_of raw id_seed content_hash) 0 (pf_text p) e s ∧ backs e s f.
Proof.
  intros Hp Hn. destruct (parse_snapshot _ _ _ _ Hp) as (decoded & payload & Hd & Hl & _ & Hs). exists decoded, payload. split; [done|]. split; [done|]. split; [done|].
  unfold normalize_company_facts in Hn. pose proof (loop_spec entity_id version_id (λ _, None) draft_of_observation (pf_observations p)) as H.
  destruct (foldM _ _ _) as [st|e]; cbn [mbind result_bind] in Hn; [|done]. injection Hn as <-. destruct H as (drafts & Hdr & _ & ->).
  split; [by rewrite length_facts_of, (Forall2_length _ _ _ Hdr)|]. intros f (i & d & Hi & ->)%facts_of_elem.
  destruct (Forall2_lookup_r _ _ _ _ _ Hdr Hi) as (o & Ho & Hdo). apply list_elem_of_lookup_2 in Ho. rewrite (sn_observations _ _ _ Hs) in Ho.
  destruct (observed_elem _ _ _ _ _ _ (sn_spans _ _ _ Hs) Ho) as (e & s & He & Hsp & Hc & Hob). exists e, s. split; [done|]. split; [done|]. split; [done|].
  destruct (draft_backs e s o d Hob Hdo) as (H1 & H2 & H3 & H4). unfold backs, fact_at. cbn. split; [done|]. split; [done|]. split; [done|]. split; done.
Qed.

Lemma facts_are_cited_witness :
  nf_value <$> Sample.minted = ["1000"; "95"]%string ∧
  ∃ decoded payload, decode_utf8 Sample.raw = Ok decoded ∧ loads decoded = Ok (DictJ payload) ∧ snapshot_of (seed_of Sample.raw (Some "seed"%string) None) payload Sample.document ∧
    length Sample.minted = length (pf_observations Sample.document) ∧
    ∀ f, f ∈ Sample.minted → ∃ e s, e ∈ document_entries payload ∧ s ∈ pf_spans Sample.document ∧
      cites (seed_of Sample.raw (Some "seed"%string) None) 0 (pf_text Sample.document) e s ∧ backs e s f.
Proof.
  split; [vm_compute; reflexivity|].
  apply (facts_are_cited Sample.raw (Some "seed"%string) None Sample.document "entity" "version" Sample.minted); vm_compute; reflexivity.
Defined.

(** An exponent or an integer that Python refuses to read is not quarantined: its
    exception is no [IngestError]. *)
Example exponent_escapes : parse_company_facts (with_quotes "{'facts': {}, 'x': 1e9999999999999999999}") None None = Err (Escapes "InvalidOperation").
Proof. vm_compute. reflexivity. Qed.

(** A negative zero and a zero are one number but two byte strings. *)
Example negative_zero_bytes :
  canonical_company_facts_bytes [("val"%string, DecJ (Finite (Dec true 0 0)))] = Ok (with_quotes "{'val':-0}") ∧
  canonical_company_facts_bytes [("val"%string, IntJ 0)] = Ok (with_quotes "{'val':0}") ∧
  same (DecJ (Finite (Dec true 0 0))) (IntJ 0).
Proof. split; [vm_compute; reflexivity|]. split; [vm_compute; reflexivity|]. constructor. vm_compute. reflexivity. Qed.
