(* ===== verification/FilingParser.v ===== *)
(** [workers/src/fel_workers/ingestion/parser.py]: an HTML filing becomes canonical
    text with its sections, spans, tables and raw inline facts.

    The tokenizer is the standard library's [html.parser]: an argument that gives
    the events [feed] and [close] call the handlers with, and the exception they end
    in, if any.  The handlers are functions on a [parser]; nothing is assumed of the
    events, so the theorems hold of any markup. *)

From S2P Require Import Prelude Dicts Text Decimals Periods Canonical IsoDates Uuids Json Xbrl CompanyFacts.
Local Open Scope Z_scope.

Definition PARSER_VERSION : string := "fel-parser/1.0.0".

Definition HEADING_LEVELS : list (string * Z) := [("h1", 1); ("h2", 2); ("h3", 3); ("h4", 4); ("h5", 5); ("h6", 6)]%string.
Definition BLOCK_TAGS : list string := ["p"; "div"; "li"; "tr"; "table"; "caption"]%string ++ HEADING_LEVELS.*1.

Definition attributes := list (string * option string).

Inductive html_event :=
| StartTag (tag : string) (attrs : attributes)
| EndTag (tag : string)
| TextData (data : string).

(** the events, and the exception after them *)
Definition tokenizer := string → list html_event * option string.

(** [{name: value for name, value in attrs}] and its [get] *)
Definition attr_map (attrs : attributes) : attributes := foldl (λ d kv, dict_set kv.1 kv.2 d) [] attrs.
Definition attr (name : string) (attrs : attributes) : option string := dict_get name attrs ≫= id.

(** * The parser's state *)

(** _MutableSection; its [end_char] is never set *)
Record open_section := OpenSection {
  os_heading : string; os_path : list string; os_level : Z; os_order : nat; os_start : Z; os_parent : option nat }.

Record fact_attrs := FactAttrs {
  fa_name : option string; fa_contextref : option string; fa_unitref : option string; fa_scale : option string; fa_decimals : option string;
  fa_sign : option string; fa_format : option string; fa_nil : option string }.

(** _RawFactState *)
Record raw_fact := RawFact { rf_attrs : fact_attrs; rf_start : Z; rf_end : Z; rf_section : nat }.

(** _TableState *)
Record table_state := TableState {
  ts_order : Z; ts_section : nat; ts_caption : option string; ts_headers : list string; ts_rows : list (list string);
  ts_row : option (list string); ts_row_is_header : bool; ts_cell : option (list string); ts_in_caption : bool }.

(** the canonical text; stacks have their top first *)
Record outline := Outline { ol_sections : list open_section; ol_stack : list nat; ol_heading_start : option Z; ol_heading_level : Z }.
Record tabular := Tabular { tab_done : list table_state; tab_stack : list table_state; tab_count : Z }.
Record marks := Marks { mk_facts : list raw_fact; mk_stack : list (fact_attrs * Z) }.
Record body := Body {
  bd_text : string; bd_pos : Z; bd_outline : outline; bd_block_start : option Z; bd_paragraphs : list (nat * Z * Z); bd_tables : tabular; bd_marks : marks }.

(** the hidden resources of an [ix:header] *)
Record resources := Resources {
  rs_contexts : list (string * xbrl_context); rs_units : list (string * string); rs_context_id : option string; rs_period : list (string * date);
  rs_dims : list (string * string); rs_unit_id : option string; rs_kind : option string; rs_captured : string; rs_dimension : option string }.

Record parser := Parser { ps_in_header : bool; ps_body : body; ps_resources : resources }.

Definition new_parser : parser :=
  Parser false (Body "" 0 (Outline [OpenSection ROOT_HEADING [ROOT_HEADING] 0 0 0 None] [0%nat] None 0) None [] (Tabular [] [] 0) (Marks [] []))
    (Resources [] [] None [] [] None None "" None).

(** * Canonical text *)

Definition LINE_FEED : ascii := ascii_of_N 10.

(** [parts and parts[-1].endswith(ends)], no part being empty *)
Definition text_ends (l : list ascii) (text : string) : bool :=
  match last (chars text) with Some a => bool_decide (a ∈ l) | None => false end.

Definition put_text (piece : string) (b : body) : body :=
  Body (bd_text b +:+ piece) (bd_pos b + Z.of_nat (String.length piece)) (bd_outline b) (bd_block_start b) (bd_paragraphs b) (bd_tables b) (bd_marks b).

(** [" ".join(data.split())] *)
Definition squeeze (data : string) : string := join " " (split data).

Definition _append_data (data : string) (b : body) : body :=
  if bool_decide (squeeze data = ""%string) then b
  else
    let b := if negb (bool_decide (bd_text b = ""%string)) && negb (text_ends [" "%char; LINE_FEED] (bd_text b)) then put_text " " b else b in
    put_text (squeeze data) b.

Definition _newline (b : body) : body :=
  if negb (bool_decide (bd_text b = ""%string)) && negb (text_ends [LINE_FEED] (bd_text b)) then put_text (String LINE_FEED EmptyString) b else b.

(** * Parts of the state *)

Definition on_outline (f : outline → outline) (b : body) : body :=
  Body (bd_text b) (bd_pos b) (f (bd_outline b)) (bd_block_start b) (bd_paragraphs b) (bd_tables b) (bd_marks b).
Definition on_tables (f : tabular → tabular) (b : body) : body :=
  Body (bd_text b) (bd_pos b) (bd_outline b) (bd_block_start b) (bd_paragraphs b) (f (bd_tables b)) (bd_marks b).
Definition on_marks (f : marks → marks) (b : body) : body :=
  Body (bd_text b) (bd_pos b) (bd_outline b) (bd_block_start b) (bd_paragraphs b) (bd_tables b) (f (bd_marks b)).
Definition with_block (block_start : option Z) (paragraphs : list (nat * Z * Z)) (b : body) : body :=
  Body (bd_text b) (bd_pos b) (bd_outline b) block_start paragraphs (bd_tables b) (bd_marks b).

(** [section_stack[-1]] *)
Definition current (b : body) : nat := hd 0%nat (ol_stack (bd_outline b)).

(** the innermost open table *)
Definition on_top (f : table_state → table_state) (b : body) : body :=
  on_tables (λ t, match tab_stack t with top :: rest => Tabular (tab_done t) (f top :: rest) (tab_count t) | [] => t end) b.
Definition in_table (b : body) : bool := match tab_stack (bd_tables b) with [] => false | _ => true end.

Definition with_cell (cell : option (list string)) (in_caption : bool) (t : table_state) : table_state :=
  TableState (ts_order t) (ts_section t) (ts_caption t) (ts_headers t) (ts_rows t) (ts_row t) (ts_row_is_header t) cell in_caption.
Definition with_row (row : option (list string)) (is_header : bool) (t : table_state) : table_state :=
  TableState (ts_order t) (ts_section t) (ts_caption t) (ts_headers t) (ts_rows t) row is_header (ts_cell t) (ts_in_caption t).

(** ["".join(table.cell_parts or []).strip()] *)
Definition cell_text (t : table_state) : string := strip (join "" (default [] (ts_cell t))).

Definition end_caption (t : table_state) : table_state :=
  let text := cell_text t in
  TableState (ts_order t) (ts_section t) (if bool_decide (text = ""%string) then None else Some text) (ts_headers t) (ts_rows t) (ts_row t) (ts_row_is_header t) None false.

Definition end_cell (t : table_state) : table_state :=
  with_cell None (ts_in_caption t) (with_row ((λ row, row ++ [cell_text t]) <$> ts_row t) (ts_row_is_header t) t).

Definition end_row (t : table_state) : table_state :=
  with_row None (ts_row_is_header t)
    match ts_row t with
    | None => t
    | Some row =>
        let as_header := ts_row_is_header t && bool_decide (ts_headers t = []) in
        TableState (ts_order t) (ts_section t) (ts_caption t) (if as_header then row else ts_headers t) (if as_header then ts_rows t else ts_rows t ++ [row])
          (ts_row t) (ts_row_is_header t) (ts_cell t) (ts_in_caption t)
    end.

Definition add_cell_part (data : string) (t : table_state) : table_state :=
  match ts_cell t with
  | None => t
  | Some parts =>
      let normalized := squeeze data in
      if bool_decide (normalized = ""%string) then t
      else
        let parts := match last parts with Some p => if text_ends [" "%char] p then parts else parts ++ [" "%string] | None => parts end in
        with_cell (Some (parts ++ [normalized])) (ts_in_caption t) t
  end.

(** * Headings *)

(** the sections a heading of a level is not below are closed; the root stays *)
Fixpoint pop_levels (level_of : nat → Z) (level : Z) (stack : list nat) : list nat :=
  match stack with
  | i :: (_ :: _) as rest => if level <=? level_of i then pop_levels level_of level rest else stack
  | _ => stack
  end.

Definition level_at (sections : list open_section) (i : nat) : Z := default 0 (os_level <$> sections !! i).
Definition path_at (sections : list open_section) (i : nat) : list string := default [] (os_path <$> sections !! i).

Definition _close_heading (b : body) : body :=
  let o := bd_outline b in
  let start := default (bd_pos b) (ol_heading_start o) in
  let heading := strip (slice (bd_text b) start (bd_pos b)) in
  let level := ol_heading_level o in
  on_outline (λ o,
    if bool_decide (heading = ""%string) then Outline (ol_sections o) (ol_stack o) None level
    else
      let stack := pop_levels (level_at (ol_sections o)) level (ol_stack o) in
      let parent := hd 0%nat stack in
      let order := length (ol_sections o) in
      Outline (ol_sections o ++ [OpenSection heading (path_at (ol_sections o) parent ++ [heading]) level order start (Some parent)]) (order :: stack) None level) b.

(** * The hidden resources *)

Definition PERIOD_TAGS : list (string * string) :=
  [("xbrli:instant", "instant"); ("xbrli:startdate", "startdate"); ("xbrli:enddate", "enddate")]%string.

Definition capture (kind : option string) (captured : string) (dimension : option string) (r : resources) : resources :=
  Resources (rs_contexts r) (rs_units r) (rs_context_id r) (rs_period r) (rs_dims r) (rs_unit_id r) kind captured dimension.

Definition _start_header_tag (tag : string) (attrs : attributes) (r : resources) : resources :=
  if bool_decide (tag = "xbrli:context"%string) then
    Resources (rs_contexts r) (rs_units r) (attr "id" attrs) [] [] (rs_unit_id r) (rs_kind r) (rs_captured r) (rs_dimension r)
  else match dict_get tag PERIOD_TAGS with
  | Some kind => capture (Some kind) "" (rs_dimension r) r
  | None =>
      if bool_decide (tag = "xbrldi:explicitmember"%string) then capture (Some "dimension-member"%string) "" (attr "dimension" attrs) r
      else if bool_decide (tag = "xbrli:unit"%string) then
        Resources (rs_contexts r) (rs_units r) (rs_context_id r) (rs_period r) (rs_dims r) (attr "id" attrs) (rs_kind r) (rs_captured r) (rs_dimension r)
      else if bool_decide (tag = "xbrli:measure"%string) then capture (Some "measure"%string) "" (rs_dimension r) r
      else r
  end.

(** a text that is there and not empty *)
Definition filled (t : option string) : option string := match t with Some s => if bool_decide (s = ""%string) then None else t | None => None end.

Definition _end_header_tag (tag : string) (r : resources) : ingested resources :=
  let captured := strip (rs_captured r) in
  match dict_get tag PERIOD_TAGS with
  | Some kind =>
      d ← from_option_err (Ingest INVALID_PERIOD_DATE) (date_fromisoformat captured);
      Ok (Resources (rs_contexts r) (rs_units r) (rs_context_id r) (dict_set kind d (rs_period r)) (rs_dims r) (rs_unit_id r) None (rs_captured r) (rs_dimension r))
  | None =>
      if bool_decide (tag = "xbrldi:explicitmember"%string) then
        let dims := match filled (rs_dimension r), filled (Some captured) with Some d, Some m => dict_set d m (rs_dims r) | _, _ => rs_dims r end in
        Ok (Resources (rs_contexts r) (rs_units r) (rs_context_id r) (rs_period r) dims (rs_unit_id r) None (rs_captured r) None)
      else if bool_decide (tag = "xbrli:measure"%string) then
        let units := match filled (rs_unit_id r), filled (Some captured) with Some u, Some m => dict_set u m (rs_units r) | _, _ => rs_units r end in
        Ok (Resources (rs_contexts r) units (rs_context_id r) (rs_period r) (rs_dims r) (rs_unit_id r) None (rs_captured r) (rs_dimension r))
      else if bool_decide (tag = "xbrli:context"%string) then
        let contexts :=
          match filled (rs_context_id r) with
          | Some id =>
              dict_set id (XbrlContext id (dict_get "instant" (rs_period r)) (dict_get "startdate" (rs_period r)) (dict_get "enddate" (rs_period r)) (rs_dims r))%string
                (rs_contexts r)
          | None => rs_contexts r
          end in
        Ok (Resources contexts (rs_units r) None (rs_period r) (rs_dims r) (rs_unit_id r) (rs_kind r) (rs_captured r) (rs_dimension r))
      else if bool_decide (tag = "xbrli:unit"%string) then
        Ok (Resources (rs_contexts r) (rs_units r) (rs_context_id r) (rs_period r) (rs_dims r) None (rs_kind r) (rs_captured r) (rs_dimension r))
      else Ok r
  end.

(** * The handlers *)

Definition fact_attributes (attrs : attributes) : fact_attrs :=
  FactAttrs (attr "name" attrs) (attr "contextref" attrs) (attr "unitref" attrs) (attr "scale" attrs) (attr "decimals" attrs) (attr "sign" attrs)
    (attr "format" attrs) (attr "xsi:nil" attrs).

Definition break_line (tag : string) (b : body) : body := if bool_decide (tag ∈ BLOCK_TAGS) then _newline b else b.

(** the tags of a filing's body *)
Definition start_body_tag (tag : string) (attrs : attributes) (b : body) : body :=
  let b := break_line tag b in
  match dict_get tag HEADING_LEVELS with
  | Some level => on_outline (λ o, Outline (ol_sections o) (ol_stack o) (Some (bd_pos b)) level) b
  | None =>
      if bool_decide (tag = "p"%string) then with_block (Some (bd_pos b)) (bd_paragraphs b) b
      else if bool_decide (tag = "table"%string) then
        on_tables (λ t, Tabular (tab_done t) (TableState (tab_count t) (current b) None [] [] None true None false :: tab_stack t) (tab_count t + 1)) b
      else if in_table b && bool_decide (tag = "caption"%string) then on_top (with_cell (Some []) true) b
      else if in_table b && bool_decide (tag = "tr"%string) then on_top (with_row (Some []) true) b
      else if in_table b && bool_decide (tag ∈ ["td"; "th"]%string) then
        on_top (λ t, with_cell (Some []) (ts_in_caption t) (with_row (ts_row t) (if bool_decide (tag = "td"%string) then false else ts_row_is_header t) t)) b
      else if bool_decide (tag = "ix:nonfraction"%string) then on_marks (λ m, Marks (mk_facts m) ((fact_attributes attrs, bd_pos b) :: mk_stack m)) b
      else b
  end.

(** the innermost table, or fact, is popped *)
Definition close_table (t : tabular) : tabular :=
  match tab_stack t with top :: rest => Tabular (tab_done t ++ [top]) rest (tab_count t) | [] => t end.

Definition close_fact (pos : Z) (section : nat) (m : marks) : marks :=
  match mk_stack m with (attrs, start) :: rest => Marks (mk_facts m ++ [RawFact attrs start pos section]) rest | [] => m end.

Definition end_element (tag : string) (b : body) : body :=
  match (if bool_decide (tag = "p"%string) then bd_block_start b else None) with
  | Some start => with_block None (if start <? bd_pos b then bd_paragraphs b ++ [(current b, start, bd_pos b)] else bd_paragraphs b) b
  | None =>
      if in_table b && bool_decide (tag = "caption"%string) then on_top end_caption b
      else if in_table b && bool_decide (tag ∈ ["td"; "th"]%string) then on_top end_cell b
      else if in_table b && bool_decide (tag = "tr"%string) then on_top end_row b
      else if in_table b && bool_decide (tag = "table"%string) then on_tables close_table b
      else if bool_decide (tag = "ix:nonfraction"%string) then on_marks (close_fact (bd_pos b) (current b)) b
      else b
  end.

Definition end_body_tag (tag : string) (b : body) : body :=
  break_line tag
    match dict_get tag HEADING_LEVELS, ol_heading_start (bd_outline b) with
    | Some _, Some _ => _close_heading b
    | _, _ => end_element tag b
    end.

Definition handle_starttag (tag : string) (attrs : attributes) (p : parser) : parser :=
  let attrs := attr_map attrs in
  if bool_decide (tag = "ix:header"%string) then Parser true (ps_body p) (ps_resources p)
  else if ps_in_header p then Parser true (ps_body p) (_start_header_tag tag attrs (ps_resources p))
  else Parser false (start_body_tag tag attrs (ps_body p)) (ps_resources p).

Definition handle_endtag (tag : string) (p : parser) : ingested parser :=
  if bool_decide (tag = "ix:header"%string) then Ok (Parser false (ps_body p) (ps_resources p))
  else if ps_in_header p then r ← _end_header_tag tag (ps_resources p); Ok (Parser true (ps_body p) r)
  else Ok (Parser false (end_body_tag tag (ps_body p)) (ps_resources p)).

Definition handle_data (data : string) (p : parser) : parser :=
  if ps_in_header p then
    let r := ps_resources p in
    match rs_kind r with
    | Some _ => Parser true (ps_body p) (capture (rs_kind r) (rs_captured r +:+ data) (rs_dimension r) r)
    | None => p
    end
  else Parser false (_append_data data (on_top (add_cell_part data) (ps_body p))) (ps_resources p).

Definition handle_event (p : parser) (e : html_event) : ingested parser :=
  match e with
  | StartTag tag attrs => Ok (handle_starttag tag attrs p)
  | EndTag tag => handle_endtag tag p
  | TextData data => Ok (handle_data data p)
  end.

(** [parser.feed(html); parser.close()] *)
Definition run_parser (feed : tokenizer) (html : string) : ingested parser :=
  p ← foldM handle_event new_parser (feed html).1;
  match (feed html).2 with None => Ok p | Some name => Err (Escapes name) end.

(** * [parse_filing] *)

Definition blank_at (text : string) (i : Z) : bool := match String.get (Z.to_nat i) text with Some a => is_space a | None => false end.

(** the two loops of [_trim_range]: at most [n] characters are between [start] and [stop] *)
Fixpoint trim_start (text : string) (n : nat) (start : Z) : Z :=
  match n with O => start | S n => if blank_at text start then trim_start text n (start + 1) else start end.
Fixpoint trim_stop (text : string) (n : nat) (stop : Z) : Z :=
  match n with O => stop | S n => if blank_at text (stop - 1) then trim_stop text n (stop - 1) else stop end.

Definition _trim_range (text : string) (start stop : Z) : Z * Z :=
  let start := trim_start text (Z.to_nat (stop - start)) start in
  (start, trim_stop text (Z.to_nat (stop - start)) stop).

(** the blanks and underscores of [int(text)] are those of [Uuids.int16]; [under]: no digit since the last underscore *)
Fixpoint dec_run (under : bool) (digits : list N) (s : string) : option (list N) :=
  match s with
  | EmptyString => if under then None else Some digits
  | String a s' =>
      if is_digit a then dec_run false (digits ++ [digit_val a]) s'
      else if under then None
      else if Ascii.eqb a "_" then dec_run true digits s'
      else if forallb int_space (chars s) then Some digits else None
  end.

(** at most 4300 digits *)
Definition int_digits (s : string) : option Z :=
  match dec_run true [] s with
  | Some l => if (INT_DIGITS <? length l)%nat then None else Some (Z.of_N (undigits l))
  | None => None
  end.

Definition int_of_text (s : string) : option Z :=
  match skip_int_space s with
  | String "-" r => Z.opp <$> int_digits r
  | String "+" r => int_digits r
  | r => int_digits r
  end.

Section parse_filing.
Context (seed text : string).

(** the section ends where the next one starts *)
Fixpoint close_sections (total : Z) (ids : list string) (l : list open_section) : ingested (list section) :=
  match l with
  | [] => Ok []
  | s :: l' =>
      id ← from_option_err (Escapes "IndexError") (ids !! os_order s);
      parent ← match os_parent s with None => Ok None | Some i => Some <$> from_option_err (Escapes "IndexError") (ids !! i) end;
      let stop := match l' with next :: _ => os_start next | [] => total end in
      rest ← close_sections total ids l';
      Ok (Section_ id parent (os_heading s) (os_path s) (Z.of_nat (os_order s)) (os_start s) stop :: rest)
  end.

Definition span_of (ids : list string) (section : nat) (start stop : Z) : ingested source_span :=
  sid ← from_option_err (Escapes "IndexError") (ids !! section);
  let covered := slice text start stop in
  Ok (SourceSpan (span_id_at seed start stop) sid start stop (text_hash covered) covered).

(** one paragraph *)
Definition add_paragraph (ids : list string) (spans : list source_span) (range : nat * Z * Z) : ingested (list source_span) :=
  let '(section, start, stop) := range in
  let '(start, stop) := _trim_range text start stop in
  if stop <=? start then Ok spans else s ← span_of ids section start stop; Ok (spans ++ [s]).

Record fact_loop := FactLoop { fl_spans : list source_span; fl_by_range : list (Z * Z * string); fl_facts : list inline_fact; fl_diagnostics : list string }.

(** [(attrs.get("nil") or "").strip().lower() in ("true", "1")] *)
Definition is_nil (attrs : fact_attrs) : bool := bool_decide (lower (strip (default "" (fa_nil attrs))) ∈ ["true"; "1"])%string.

Definition skipped_fact (nil : bool) (concept : option string) (start stop : Z) : string :=
  ("skipped " +:+ (if nil then "nil" else "empty") +:+ " inline fact '" +:+ default "(unnamed)" (filled concept) +:+ "' at chars " +:+ str_of_Z start +:+ "-" +:+ str_of_Z stop)%string.

Definition scale_of (attrs : fact_attrs) : ingested Z :=
  match filled (fa_scale attrs) with None => Ok 0 | Some t => from_option_err (Ingest INVALID_SCALE) (int_of_text t) end.

Definition add_inline_fact (ids : list string) (contexts : list (string * xbrl_context)) (units : list (string * string)) (st : fact_loop) (raw : raw_fact) : ingested fact_loop :=
  let attrs := rf_attrs raw in
  let '(start, stop) := _trim_range text (rf_start raw) (rf_end raw) in
  if is_nil attrs || (stop <=? start) then
    Ok (FactLoop (fl_spans st) (fl_by_range st) (fl_facts st) (fl_diagnostics st ++ [skipped_fact (is_nil attrs) (fa_name attrs) start stop]))
  else
    match filled (fa_name attrs), filled (fa_contextref attrs), filled (fa_unitref attrs) with
    | Some concept, Some context_ref, Some unit_ref =>
        _ ← from_option_err (Ingest UNKNOWN_CONTEXT) (dict_get context_ref contexts);
        _ ← from_option_err (Ingest UNKNOWN_UNIT) (dict_get unit_ref units);
        scale ← scale_of attrs;
        '(span_id, spans, by_range) ←
          match dict_get (start, stop) (fl_by_range st) with
          | Some id => Ok (id, fl_spans st, fl_by_range st)
          | None => s ← span_of ids (rf_section raw) start stop; Ok (sp_id s, fl_spans st ++ [s], dict_set (start, stop) (sp_id s) (fl_by_range st))
          end;
        sid ← from_option_err (Escapes "IndexError") (ids !! rf_section raw);
        Ok (FactLoop spans by_range
              (fl_facts st ++ [InlineFact concept context_ref unit_ref scale (fa_decimals attrs) (fa_sign attrs) (fa_format attrs) (slice text start stop) span_id sid start stop])
              (fl_diagnostics st))
    | _, _, _ => Err (Ingest INCOMPLETE_FACT)
    end.

Definition close_table_state (ids : list string) (t : table_state) : ingested extracted_table :=
  sid ← from_option_err (Escapes "IndexError") (ids !! ts_section t);
  Ok (ExtractedTable (ingestion_id (seed +:+ "|table|" +:+ str_of_Z (ts_order t)))%string sid (ts_order t) (ts_caption t) (ts_headers t) (ts_rows t)).

End parse_filing.

(** the orders of the two sorts *)
Definition fact_le : relation raw_fact := λ f g, rf_start f < rf_start g ∨ rf_start f = rf_start g ∧ rf_end g ≤ rf_end f.
Definition table_le : relation table_state := λ t u, ts_order t ≤ ts_order u.
#[export] Instance fact_le_dec : RelDecision fact_le. Proof. intros f g. unfold fact_le. apply _. Defined.
#[export] Instance table_le_dec : RelDecision table_le. Proof. intros t u. unfold table_le. apply _. Defined.

Definition build_document (content_hash seed : string) (p : parser) : ingested parsed_document :=
  let b := ps_body p in
  let text := bd_text b in
  _ ← ensure (negb (bool_decide (strip text = ""%string))) (Ingest EMPTY_DOCUMENT);
  let ordered := ol_sections (bd_outline b) in
  let ids := (λ s, section_id_at seed (Z.of_nat (os_order s))) <$> ordered in
  sections ← close_sections (Z.of_nat (String.length text)) ids ordered;
  spans ← foldM (add_paragraph seed text ids) [] (bd_paragraphs b);
  let by_range := foldl (λ d s, dict_set (sp_start s, sp_end s) (sp_id s) d) [] spans in
  let contexts := rs_contexts (ps_resources p) in
  let units := rs_units (ps_resources p) in
  st ← foldM (add_inline_fact seed text ids contexts units) (FactLoop spans by_range [] []) (py_sorted fact_le (mk_facts (bd_marks b)));
  tables ← mapM (close_table_state seed ids) (py_sorted table_le (tab_done (bd_tables b)));
  Ok (ParsedDocument content_hash PARSER_VERSION text sections (fl_spans st) tables contexts units (fl_facts st) (fl_diagnostics st)).

Definition parse_filing (feed : tokenizer) (raw : string) (id_seed content_hash : option string) : ingested parsed_document :=
  let content_hash := default ("sha256:" +:+ sha256_hexdigest raw)%string content_hash in
  let seed := default (content_hash +:+ "|" +:+ PARSER_VERSION)%string id_seed in
  html ← decode_utf8 raw;
  p ← run_parser feed html;
  build_document content_hash seed p.

(** * A filing *)

Module SampleFiling.
Definition header : list html_event :=
  [StartTag "ix:header" []; StartTag "xbrli:context" [("id", Some "c1")]; StartTag "xbrli:startdate" []; TextData "2024-01-01"; EndTag "xbrli:startdate";
   StartTag "xbrli:enddate" []; TextData " 2024-12-31 "; EndTag "xbrli:enddate"; EndTag "xbrli:context";
   StartTag "xbrli:unit" [("id", Some "u1")]; StartTag "xbrli:measure" []; TextData "iso4217:USD"; EndTag "xbrli:measure"; EndTag "xbrli:unit"; EndTag "ix:header"]%string.
Definition fact_tag : list (string * option string) :=
  [("name", Some "us-gaap:Revenues"); ("contextref", Some "c1"); ("unitref", Some "u1"); ("scale", Some "3")]%string.
Definition content : list html_event :=
  [StartTag "h1" []; TextData " Item 7. "; EndTag "h1"; StartTag "p" []; TextData "Revenues   were"; StartTag "ix:nonfraction" fact_tag; TextData "1,234";
   EndTag "ix:nonfraction"; TextData "thousand."; EndTag "p";
   StartTag "table" []; StartTag "tr" []; StartTag "th" []; TextData "Year"; EndTag "th"; EndTag "tr"; StartTag "tr" []; StartTag "td" []; TextData "2024"; EndTag "td"; EndTag "tr"; EndTag "table";
   StartTag "ix:nonfraction" (("xsi:nil", Some "true") :: fact_tag); EndTag "ix:nonfraction"]%string.
Definition feed : tokenizer := λ _, (header ++ content, None).
Definition raw : string := "<html/>".
Definition parsed : ingested parsed_document := Eval vm_compute in parse_filing feed raw (Some "seed"%string) None.
Definition document : parsed_document := Eval vm_compute in match parsed with Ok p => p | Err _ => ParsedDocument "" "" "" [] [] [] [] [] [] [] end.
End SampleFiling.

Example filing_parses :
  (pd_text SampleFiling.document, (λ s, (sec_heading_path s, sec_start s, sec_end s)) <$> pd_sections SampleFiling.document, sp_text <$> pd_spans SampleFiling.document,
   (λ f, (if_raw_text f, if_scale f)) <$> pd_facts SampleFiling.document, (λ t, (tb_headers t, tb_rows t)) <$> pd_tables SampleFiling.document, length (pd_diagnostics SampleFiling.document)) =
  (("Item 7." +:+ String LINE_FEED "Revenues were 1,234 thousand." +:+ String LINE_FEED "Year" +:+ String LINE_FEED "2024" +:+ String LINE_FEED EmptyString)%string,
   [([ROOT_HEADING], 0, 0); ([ROOT_HEADING; "Item 7."], 0, 48)]%string, ["Revenues were 1,234 thousand."; "1,234"]%string, [("1,234"%string, 3)], [(["Year"], [["2024"]])]%string, 1%nat).
Proof. vm_compute. reflexivity. Qed.

(** * The canonical text is tidy

    Its blanks are single spaces and line feeds, and none begins it. *)

Fixpoint tidy_after (blank : bool) (l : list ascii) : Prop :=
  match l with
  | [] => True
  | a :: l' => (is_space a = true → blank = false ∧ a ∈ [" "%char; LINE_FEED]) ∧ tidy_after (is_space a) l'
  end.

Definition tidy (text : string) : Prop := tidy_after true (chars text).

Definition ends_blank (blank : bool) (l : list ascii) : bool := from_option is_space blank (last l).

Lemma tidy_after_app blank l1 l2 : tidy_after blank (l1 ++ l2) ↔ tidy_after blank l1 ∧ tidy_after (ends_blank blank l1) l2.
Proof.
  revert blank. induction l1 as [|a l1 IH]; intros blank; cbn [app tidy_after]; [unfold ends_blank; cbn; tauto|].
  rewrite IH. assert (ends_blank (is_space a) l1 = ends_blank blank (a :: l1)) as ->; [|tauto].
  unfold ends_blank. rewrite last_cons. by destruct (last l1).
Qed.

Lemma tidy_word blank l : Forall (λ a, is_space a = false) l → tidy_after blank l.
Proof. intros H. revert blank. induction H as [|a l Ha _ IH]; intros blank; cbn; [done|]. split; [by rewrite Ha|apply IH]. Qed.

(** a word is not empty and has no blanks *)
Definition word (w : string) : Prop := w ≠ ""%string ∧ Forall (λ a, is_space a = false) (chars w).

Lemma split_words_ok w s : Forall (λ a, is_space a = false) (chars w) → Forall word (split_from w s).
Proof.
  revert w. induction s as [|a s IH]; intros w Hw; cbn [split_from].
  - destruct w; [constructor|]. by constructor.
  - destruct (is_space a) eqn:Ha.
    + destruct w; [apply IH; constructor|]. constructor; [done|apply IH; constructor].
    + apply IH. rewrite chars_app. apply Forall_app. split; [done|]. by constructor.
Qed.

Lemma join_words blank ws : Forall word ws → ws ≠ [] →
  tidy_after blank (chars (join " " ws)) ∧ ∃ a, last (chars (join " " ws)) = Some a ∧ is_space a = false.
Proof.
  assert (∀ w, word w → ∃ a, last (chars w) = Some a ∧ is_space a = false) as Hlast.
  { intros w [Hne Hw]. destruct (last (chars w)) as [a|] eqn:Ha; [|apply last_None in Ha; by destruct w]. exists a. split; [done|].
    rewrite Forall_forall in Hw. apply Hw. by apply last_Some_elem_of. }
  intros H. revert blank. induction H as [|w ws Hw Hws IH]; intros blank Hne; [done|]. destruct ws as [|w2 ws]; [split; [by apply tidy_word, Hw|by apply Hlast]|].
  destruct (Hlast w Hw) as (a & Ha & Hsp). destruct (IH true) as [Ht (c & Hc & Hcs)]; [done|].
  change (join " " (w :: w2 :: ws)) with (w +:+ " " +:+ join " " (w2 :: ws))%string. rewrite !chars_app. split.
  - apply tidy_after_app. split; [by apply tidy_word, Hw|]. unfold ends_blank. rewrite Ha. cbn [from_option]. rewrite Hsp. cbn [chars app tidy_after]. split; [intros _; split; [done|left]|done].
  - exists c. split; [|done]. by rewrite !last_app, Hc.
Qed.

(** between two tags the text ends in a word or a line feed *)
Definition settled (text : string) : Prop := tidy text ∧ last (chars text) ≠ Some " "%char.

Lemma squeeze_words data : squeeze data = ""%string ∨ Forall word (split data) ∧ split data ≠ [].
Proof.
  unfold squeeze. pose proof (split_words_ok "" data (Forall_nil_2 _)) as H. fold (split data) in H. destruct (split data) as [|w ws]; [by left|]. by right.
Qed.

Lemma settled_data data b : settled (bd_text b) → settled (bd_text (_append_data data b)).
Proof.
  intros [Ht Hl]. unfold _append_data. destruct (squeeze_words data) as [->|[Hw Hne]]; [done|]. case_bool_decide as He; [done|].
  assert (∀ text, tidy_after true (chars text) → settled (text +:+ squeeze data)%string) as Hput.
  { intros text Htext. destruct (join_words (ends_blank true (chars text)) _ Hw Hne) as [Hj (a & Ha & Hsp)]. unfold settled, tidy. rewrite chars_app. split; [by apply tidy_after_app|].
    unfold squeeze. rewrite last_app, Ha. intros [= ->]. done. }
  destruct (negb _ && negb _) eqn:Hb; cbn [put_text bd_text]; [|by apply Hput]. apply Hput. apply andb_true_iff in Hb as [Hb1 Hb2].
  rewrite chars_app. apply tidy_after_app. split; [done|]. cbn [chars tidy_after]. split; [|done]. intros _. split; [|left].
  apply negb_true_iff, bool_decide_eq_false in Hb1. apply negb_true_iff in Hb2. unfold text_ends in Hb2. unfold ends_blank.
  destruct (last (chars (bd_text b))) as [a|] eqn:Ha; [|apply last_None in Ha; by destruct (bd_text b)]. cbn [from_option]. apply bool_decide_eq_false in Hb2.
  destruct (is_space a) eqn:Hsp; [|done]. exfalso. apply Hb2. apply last_Some in Ha as [l' Hl']. unfold tidy in Ht. rewrite Hl' in Ht. apply tidy_after_app in Ht as [_ [Ht _]]. by apply Ht.
Qed.

Lemma settled_newline b : settled (bd_text b) → settled (bd_text (_newline b)).
Proof.
  intros [Ht Hl]. unfold _newline. destruct (negb _ && negb _) eqn:Hb; [|done]. cbn [put_text bd_text]. apply andb_true_iff in Hb as [Hb1 Hb2].
  split; [|rewrite chars_app, last_app; cbn; intros [= ?]; done]. unfold tidy. rewrite chars_app. apply tidy_after_app. split; [done|]. cbn [chars tidy_after]. split; [|done].
  intros _. split; [|right; left]. apply negb_true_iff, bool_decide_eq_false in Hb1. apply negb_true_iff in Hb2. unfold text_ends in Hb2. unfold ends_blank.
  destruct (last (chars (bd_text b))) as [a|] eqn:Ha; [|apply last_None in Ha; by destruct (bd_text b)]. cbn [from_option]. apply bool_decide_eq_false in Hb2.
  destruct (is_space a) eqn:Hsp; [|done]. exfalso. apply last_Some in Ha as Ha'. destruct Ha' as [l' Hl']. unfold tidy in Ht. rewrite Hl' in Ht. apply tidy_after_app in Ht as [_ [Ht _]].
  destruct (Ht Hsp) as [_ Hin]. rewrite !elem_of_cons in Hin. destruct Hin as [->|[->|?%not_elem_of_nil]]; [done| |done]. apply Hb2. left.
Qed.

(** * The outline

    A section's parent is the nearest one before it of a lower level. *)

Definition nearest (secs : list open_section) (bound : nat) (level : Z) (j : nat) : Prop :=
  (j < bound)%nat ∧ (∃ q, secs !! j = Some q ∧ os_level q < level) ∧ ∀ k t, (j < k < bound)%nat → secs !! k = Some t → level ≤ os_level t.

Record outlined (secs : list open_section) : Prop := Outlined {
  ou_root : secs !! 0%nat = Some (OpenSection ROOT_HEADING [ROOT_HEADING] 0 0 0 None);
  ou_order : ∀ i s, secs !! i = Some s → os_order s = i;
  ou_parent : ∀ i s, secs !! S i = Some s → ∃ j, os_parent s = Some j ∧ nearest secs (S i) (os_level s) j ∧
    os_path s = path_at secs j ++ [os_heading s] ∧ os_heading s ≠ ""%string;
  ou_starts : ∀ i s t, secs !! i = Some s → secs !! S i = Some t → os_start s ≤ os_start t }.

(** the open sections: the last one and its ancestors *)
Inductive chain (secs : list open_section) : list nat → Prop :=
| chain_root : chain secs [0%nat]
| chain_step i s j st : secs !! i = Some s → os_parent s = Some j → chain secs (j :: st) → chain secs (i :: j :: st).

Lemma nearest_app secs s bound level j : (bound ≤ length secs)%nat → nearest (secs ++ [s]) bound level j ↔ nearest secs bound level j.
Proof.
  intros Hb. unfold nearest. split; intros (Hj & (q & Hq & Hl) & H); (split; [done|]; split).
  - exists q. rewrite lookup_app_l in Hq by lia. done.
  - intros k t Hk Ht. apply (H k); [done|]. by rewrite lookup_app_l by lia.
  - exists q. by rewrite lookup_app_l by lia.
  - intros k t Hk Ht. rewrite lookup_app_l in Ht by lia. by apply (H k).
Qed.

Lemma chain_app secs s st : chain secs st → chain (secs ++ [s]) st.
Proof. induction 1; [constructor|]. econstructor; [by apply lookup_app_l_Some|done|done]. Qed.

Lemma chain_bound secs st : outlined secs → chain secs st → Forall (λ i, i < length secs)%nat st ∧ st ≠ [].
Proof.
  intros Ho. induction 1 as [|i s j st Hi Hj Hc [IH _]]; split; try done.
  - constructor; [|constructor]. apply lookup_lt_Some with (1 := ou_root _ Ho).
  - constructor; [by apply lookup_lt_Some in Hi|done].
Qed.

Lemma level_at_Some secs i s : secs !! i = Some s → level_at secs i = os_level s.
Proof. unfold level_at. by intros ->. Qed.

Lemma pop_levels_spec secs level st :
  outlined secs → 1 ≤ level → chain secs st → st ≠ [] → (∀ k t, (hd 0%nat st < k < length secs)%nat → secs !! k = Some t → level ≤ os_level t) →
  chain secs (pop_levels (level_at secs) level st) ∧ nearest secs (length secs) level (hd 0%nat (pop_levels (level_at secs) level st)).
Proof.
  intros Ho Hlev. induction 1 as [|i s j st Hi Hj Hc IH]; intros _ Habove.
  - cbn. split; [constructor|]. pose proof (ou_root _ Ho) as Hr. split; [by apply lookup_lt_Some in Hr|]. split; [|done]. eexists. split; [done|]. cbn. lia.
  - cbn [pop_levels]. rewrite (level_at_Some _ _ _ Hi). destruct (Z.leb_spec level (os_level s)) as [Hle|Hlt].
    + apply IH; [done|]. cbn [hd]. intros k t Hk Ht. destruct i as [|i]; [rewrite (ou_root _ Ho) in Hi; injection Hi as <-; done|].
      destruct (ou_parent _ Ho _ _ Hi) as (j' & Hj' & (_ & _ & Hnear) & _). rewrite Hj in Hj'. injection Hj' as <-.
      destruct (decide (k < S i)%nat) as [Hki|Hki]; [specialize (Hnear k t ltac:(lia) Ht); lia|]. destruct (decide (k = S i)) as [->|Hne]; [rewrite Hi in Ht; by injection Ht as <-|].
      apply (Habove k); [cbn; lia|done].
    + cbn [hd]. split; [by econstructor|]. split; [by apply lookup_lt_Some in Hi|]. split; [by exists s|]. intros k t Hk Ht. apply (Habove k); [cbn; lia|done].
Qed.

Lemma path_at_app secs s j : (j < length secs)%nat → path_at (secs ++ [s]) j = path_at secs j.
Proof. intros H. unfold path_at. by rewrite lookup_app_l. Qed.

Lemma outlined_snoc secs heading level start j :
  outlined secs → nearest secs (length secs) level j → heading ≠ ""%string → (∀ s, s ∈ secs → os_start s ≤ start) →
  outlined (secs ++ [OpenSection heading (path_at secs j ++ [heading]) level (length secs) start (Some j)]).
Proof.
  intros Ho Hn Hh Hs. set (new := OpenSection _ _ _ _ _ _). constructor.
  - apply lookup_app_l_Some, Ho.
  - intros i s [Hi|[Hi Hs']]%lookup_app_Some; [by apply Ho|]. apply list_lookup_singleton_Some in Hs' as [Hi' <-]. cbn. lia.
  - intros i s [Hi|[Hi Hs']]%lookup_app_Some.
    + destruct (ou_parent _ Ho _ _ Hi) as (k & Hk & Hnk & Hp & Hh'). pose proof (lookup_lt_Some _ _ _ Hi). exists k. split; [done|]. split; [apply nearest_app; [lia|done]|].
      destruct Hnk as [Hki _]. by rewrite path_at_app by lia.
    + apply list_lookup_singleton_Some in Hs' as [Hi' <-]. replace (S i) with (length secs) by lia. exists j. cbn [os_parent os_level os_path os_heading new]. split; [done|].
      split; [by apply nearest_app|]. destruct Hn as [Hj _]. by rewrite path_at_app.
  - intros i s t Hi Ht. apply lookup_app_Some in Ht as [Ht|[Hlen Ht]].
    + pose proof (lookup_lt_Some _ _ _ Ht). rewrite lookup_app_l in Hi by lia. by apply (ou_starts _ Ho i).
    + apply list_lookup_singleton_Some in Ht as [Hi' <-]. cbn. rewrite lookup_app_l in Hi by lia. apply Hs. by apply list_elem_of_lookup_2 with i.
Qed.

(** * Everything recorded lies in the text written so far *)

Definition secs_of (b : body) : list open_section := ol_sections (bd_outline b).
Definition open_tables (b : body) : list table_state := tab_done (bd_tables b) ++ tab_stack (bd_tables b).

Definition paragraph_ok (n : nat) (bound : Z) (r : nat * Z * Z) : Prop := (r.1.1 < n)%nat ∧ 0 ≤ r.1.2 < r.2 ∧ r.2 ≤ bound.
Definition table_ok (n : nat) (count : Z) (t : table_state) : Prop := (ts_section t < n)%nat ∧ 0 ≤ ts_order t < count.
Definition fact_ok (n : nat) (pos : Z) (f : raw_fact) : Prop := (rf_section f < n)%nat ∧ 0 ≤ rf_start f ≤ rf_end f ∧ rf_end f ≤ pos.

Record placed (b : body) : Prop := Placed {
  pl_pos : bd_pos b = Z.of_nat (String.length (bd_text b));
  pl_outline : outlined (secs_of b);
  pl_chain : chain (secs_of b) (ol_stack (bd_outline b));
  pl_current : S (current b) = length (secs_of b);
  pl_heading : default (bd_pos b) (ol_heading_start (bd_outline b)) ≤ bd_pos b ∧
    ∀ s, s ∈ secs_of b → 0 ≤ os_start s ≤ default (bd_pos b) (ol_heading_start (bd_outline b));
  pl_level : is_Some (ol_heading_start (bd_outline b)) → 1 ≤ ol_heading_level (bd_outline b);
  pl_block : 0 ≤ default (bd_pos b) (bd_block_start b) ≤ bd_pos b;
  pl_paragraphs : Forall (paragraph_ok (length (secs_of b)) (default (bd_pos b) (bd_block_start b))) (bd_paragraphs b);
  pl_ordered : StronglySorted (λ x y : nat * Z * Z, x.2 ≤ y.1.2) (bd_paragraphs b);
  pl_count : 0 ≤ tab_count (bd_tables b);
  pl_tables : Forall (table_ok (length (secs_of b)) (tab_count (bd_tables b))) (open_tables b);
  pl_orders : NoDup (ts_order <$> open_tables b);
  pl_facts : Forall (fact_ok (length (secs_of b)) (bd_pos b)) (mk_facts (bd_marks b));
  pl_open : Forall (λ x : fact_attrs * Z, 0 ≤ x.2 ≤ bd_pos b) (mk_stack (bd_marks b)) }.

Lemma placed_new : placed (ps_body new_parser).
Proof.
  split; cbn; try done; try (by constructor); try lia.
  - split; [done|..]; [intros [|i] s H|intros i s H|intros i s t _ H]; cbn in H; [by injection H as <-|done..].
  - split; [lia|]. intros s ->%list_elem_of_singleton. cbn. lia.
Qed.

Lemma put_placed piece b : placed b → placed (put_text piece b).
Proof.
  intros [Hpos Ho Hc Hcur [Hh1 Hh2] Hl Hb Hp Hs Hcount Ht Hn Hf Hop]. set (d := Z.of_nat (String.length piece)). assert (0 ≤ d) by lia. split; cbn; try done.
  - rewrite length_string_app. fold d. lia.
  - fold d. destruct (ol_heading_start (bd_outline b)); cbn in *; [split; [lia|done]|]. split; [lia|]. intros s Hin. specialize (Hh2 s Hin). lia.
  - fold d. destruct (bd_block_start b); cbn in *; lia.
  - eapply Forall_impl; [exact Hp|]. intros r (? & ? & ?). split; [done|]. split; [done|]. fold d. destruct (bd_block_start b); cbn in *; lia.
  - eapply Forall_impl; [exact Hf|]. intros f (? & ? & ?). split; [done|]. split; [done|]. fold d. lia.
  - eapply Forall_impl; [exact Hop|]. cbn. fold d. lia.
Qed.

Lemma append_placed data b : placed b → placed (_append_data data b).
Proof. intros H. unfold _append_data. case_bool_decide; [done|]. cbv zeta. destruct (negb _ && negb _); repeat apply put_placed; done. Qed.

Lemma newline_placed b : placed b → placed (_newline b).
Proof. intros H. unfold _newline. destruct (negb _ && negb _); [by apply put_placed|done]. Qed.

Lemma placed_bound b : placed b → 0 ≤ bd_pos b.
Proof. intros H. rewrite (pl_pos _ H). lia. Qed.

Lemma outline_placed b h level :
  placed b → default (bd_pos b) h = bd_pos b → (is_Some h → 1 ≤ level) → placed (on_outline (λ o, Outline (ol_sections o) (ol_stack o) h level) b).
Proof.
  intros H Hh Hl. pose proof H as [Hpos Ho Hc Hcur [Hh1 Hh2] _ Hb Hp Hs Hcount Ht Hn Hf Hop]. split; try done; cbn.
  rewrite Hh. split; [lia|]. intros s Hin. specialize (Hh2 s Hin). lia.
Qed.

Lemma heading_placed b : placed b → is_Some (ol_heading_start (bd_outline b)) → placed (_close_heading b).
Proof.
  intros H [h Hh]. pose proof H as [Hpos Ho Hc Hcur [Hh1 Hh2] Hl Hb Hp Hs Hcount Ht Hn Hf Hop]. rewrite Hh in *. specialize (Hl (ex_intro _ h eq_refl)). cbn in Hh1, Hh2. unfold _close_heading. rewrite Hh. cbv zeta. cbn [default].
  case_bool_decide as Hstrip; [apply outline_placed; done|].
  assert (ol_stack (bd_outline b) ≠ []) as Hne by (intros He; rewrite He in Hc; inversion Hc).
  destruct (pop_levels_spec (secs_of b) (ol_heading_level (bd_outline b)) (ol_stack (bd_outline b)) Ho Hl Hc Hne) as [Hc' Hn'].
  { intros k t Hk _. unfold current in Hcur. lia. }
  set (stack := pop_levels _ _ _) in *. set (heading := strip _) in *.
  pose proof (outlined_snoc _ heading _ h _ Ho Hn' Hstrip (λ s Hin, proj2 (Hh2 s Hin))) as Ho'. set (new := OpenSection _ _ _ _ _ _) in Ho'.
  assert (length (secs_of b ++ [new]) = S (length (secs_of b))) as Hlen by (rewrite length_app; cbn; lia).
  split; try done; unfold secs_of; cbn; change (ol_sections (bd_outline b)) with (secs_of b); fold stack new.
  - assert (∃ j st, stack = j :: st) as (j & st & Hst) by (destruct stack as [|j st]; [inversion Hc'|by exists j, st]).
    rewrite Hst in Hc' |- *. apply (chain_step _ _ new); [by apply list_lookup_middle|unfold new; cbn; by rewrite Hst|by apply chain_app].
  - split; [lia|]. intros s [Hin| ->%list_elem_of_singleton]%elem_of_app; [specialize (Hh2 s Hin); lia|]. cbn.
    pose proof (list_elem_of_lookup_2 _ _ _ (ou_root _ Ho)) as Hr. specialize (Hh2 _ Hr). cbn in Hh2. lia.
  - rewrite Hlen. eapply Forall_impl; [exact Hp|]. intros r (? & ? & ?). split; [lia|by split].
  - rewrite Hlen. eapply Forall_impl; [exact Ht|]. intros t (? & ?). split; [lia|done].
  - rewrite Hlen. eapply Forall_impl; [exact Hf|]. intros f (? & ? & ?). split; [lia|by split].
Qed.

Lemma tables_placed (f : tabular → tabular) b :
  placed b → 0 ≤ tab_count (f (bd_tables b)) → Forall (table_ok (length (secs_of b)) (tab_count (f (bd_tables b)))) (tab_done (f (bd_tables b)) ++ tab_stack (f (bd_tables b))) →
  NoDup (ts_order <$> tab_done (f (bd_tables b)) ++ tab_stack (f (bd_tables b))) → placed (on_tables f b).
Proof. intros [] ? ? ?. by split. Qed.

Lemma on_top_placed f b : (∀ t, ts_order (f t) = ts_order t ∧ ts_section (f t) = ts_section t) → placed b → placed (on_top f b).
Proof.
  intros Hf H. pose proof (pl_tables _ H) as Ht. pose proof (pl_orders _ H) as Hn. unfold open_tables in Ht, Hn. apply tables_placed; [done|..];
    destruct (tab_stack (bd_tables b)) as [|t rest] eqn:Hst; cbn; rewrite ?Hst; try done; try apply (pl_count _ H); destruct (Hf t) as [Ho Hs].
  - apply Forall_app in Ht as [Hd Hr]. apply Forall_cons in Hr as [Htop Hr]. apply Forall_app. split; [done|]. constructor; [|done]. unfold table_ok. by rewrite Ho, Hs.
  - rewrite fmap_app, fmap_cons in Hn |- *. by rewrite Ho.
Qed.

(** the changes of an open table *)
Inductive cell_edit : (table_state → table_state) → Prop :=
| edit_caption : cell_edit end_caption
| edit_cell : cell_edit end_cell
| edit_row : cell_edit end_row
| edit_data data : cell_edit (add_cell_part data)
| edit_open_caption c i : cell_edit (with_cell c i)
| edit_open_row r h : cell_edit (with_row r h)
| edit_open_cell (h : table_state → bool) : cell_edit (λ t, with_cell (Some []) (ts_in_caption t) (with_row (ts_row t) (h t) t)).

Lemma cell_placed f b : cell_edit f → placed b → placed (on_top f b).
Proof.
  intros Hf. apply on_top_placed. intros t. destruct Hf; try done.
  - unfold end_row. by destruct (ts_row t).
  - unfold add_cell_part. destruct (ts_cell t) as [parts|]; [|done]. by case_bool_decide.
Qed.

Lemma open_table_placed b :
  placed b → placed (on_tables (λ t, Tabular (tab_done t) (TableState (tab_count t) (current b) None [] [] None true None false :: tab_stack t) (tab_count t + 1)) b).
Proof.
  intros H. pose proof (pl_tables _ H) as Ht. pose proof (pl_orders _ H) as Hn. pose proof (pl_current _ H) as Hc. unfold open_tables in Ht, Hn.
  set (new := TableState (tab_count (bd_tables b)) (current b) None [] [] None true None false). pose proof (pl_count _ H). apply tables_placed; [done|..]; cbn; fold new; [lia|rewrite <- (Permutation_middle _ _ new)..].
  - assert (∀ t, table_ok (length (secs_of b)) (tab_count (bd_tables b)) t → table_ok (length (secs_of b)) (tab_count (bd_tables b) + 1) t) as Hw by (unfold table_ok; intros; lia).
    constructor; [|by eapply Forall_impl]. unfold table_ok, new. cbn. lia.
  - rewrite fmap_cons. constructor; [|done]. intros (t & Ho & Hin)%list_elem_of_fmap. rewrite Forall_forall in Ht. destruct (Ht t Hin) as [_ ?]. cbn in Ho. lia.
Qed.

Lemma close_table_placed b : placed b → placed (on_tables close_table b).
Proof.
  intros H. pose proof (pl_tables _ H) as Ht. pose proof (pl_orders _ H) as Hn. unfold open_tables in Ht, Hn.
  apply tables_placed; [done|..]; unfold close_table; destruct (tab_stack (bd_tables b)) as [|t rest] eqn:Hst; cbn; rewrite ?Hst; try apply (pl_count _ H); try done;
    by rewrite <- (assoc_L (++)).
Qed.

Lemma marks_placed (f : marks → marks) b :
  placed b → Forall (fact_ok (length (secs_of b)) (bd_pos b)) (mk_facts (f (bd_marks b))) →
  Forall (λ x : fact_attrs * Z, 0 ≤ x.2 ≤ bd_pos b) (mk_stack (f (bd_marks b))) → placed (on_marks f b).
Proof. intros [] ? ?. by split. Qed.

Lemma open_fact_placed attrs b : placed b → placed (on_marks (λ m, Marks (mk_facts m) ((attrs, bd_pos b) :: mk_stack m)) b).
Proof. intros H. pose proof (placed_bound _ H). apply marks_placed; [done|apply H|]. constructor; [cbn; lia|apply H]. Qed.

Lemma close_fact_placed b : placed b → placed (on_marks (close_fact (bd_pos b) (current b)) b).
Proof.
  intros H. pose proof (pl_facts _ H) as Hf. pose proof (pl_open _ H) as Ho. pose proof (pl_current _ H). apply marks_placed; [done|..]; unfold close_fact;
    destruct (mk_stack (bd_marks b)) as [|[attrs start] rest] eqn:Hst; cbn; rewrite ?Hst; try done; apply Forall_cons in Ho as [Hs Ho]; cbn in Hs; [|done].
  apply Forall_app. split; [done|]. constructor; [|constructor]. split; cbn; lia.
Qed.

Lemma open_paragraph_placed b : placed b → placed (with_block (Some (bd_pos b)) (bd_paragraphs b) b).
Proof.
  intros H. pose proof (placed_bound _ H). pose proof (pl_block _ H). pose proof (pl_paragraphs _ H) as Hp. destruct H. split; try done; cbn; try lia.
  eapply Forall_impl; [exact Hp|]. intros r (? & ? & ?). split; [done|]. split; [done|]. lia.
Qed.

Lemma sorted_snoc {A} (R : relation A) l x : StronglySorted R l → (∀ y, y ∈ l → R y x) → StronglySorted R (l ++ [x]).
Proof.
  induction 1 as [|y l Hl IH Hy]; intros Hx; cbn; [by repeat constructor|]. constructor; [apply IH; intros z Hz; apply Hx; by right|].
  apply Forall_app. split; [done|]. constructor; [|constructor]. apply Hx. by left.
Qed.

Lemma close_paragraph_placed b start :
  placed b → bd_block_start b = Some start →
  placed (with_block None (if start <? bd_pos b then bd_paragraphs b ++ [(current b, start, bd_pos b)] else bd_paragraphs b) b).
Proof.
  intros H Hb. pose proof (placed_bound _ H). pose proof (pl_block _ H) as Hbl. pose proof (pl_paragraphs _ H) as Hp. pose proof (pl_ordered _ H) as Ho. pose proof (pl_current _ H).
  rewrite Hb in Hbl, Hp. cbn in Hbl, Hp. destruct H. split; try done; cbn; try lia.
  - assert (Forall (paragraph_ok (length (secs_of b)) (bd_pos b)) (bd_paragraphs b)).
    { eapply Forall_impl; [exact Hp|]. intros r (? & ? & ?). split; [done|]. split; [done|]. lia. }
    destruct (Z.ltb_spec start (bd_pos b)); [|done]. apply Forall_app. split; [done|]. constructor; [|constructor]. change (paragraph_ok (length (secs_of b)) (bd_pos b) (current b, start, bd_pos b)). split; cbn; [lia|]. split; lia.
  - destruct (start <? bd_pos b); [|done]. apply sorted_snoc; [done|]. intros r Hin. rewrite Forall_forall in Hp. destruct (Hp r Hin) as (_ & _ & ?). done.
Qed.

Lemma break_placed tag b : placed b → placed (break_line tag b).
Proof. unfold break_line. case_bool_decide; [apply newline_placed|done]. Qed.

Lemma start_placed tag attrs b : placed b → placed (start_body_tag tag attrs b).
Proof.
  intros H. unfold start_body_tag. apply (break_placed tag) in H. set (c := break_line tag b) in *. cbv zeta. destruct (dict_get tag HEADING_LEVELS) as [level|] eqn:Hl.
  - apply outline_placed; [done|done|]. intros _. assert (Forall (λ kv : string * Z, 1 ≤ kv.2) HEADING_LEVELS) as Hall by (repeat constructor; cbn; lia).
    rewrite Forall_forall in Hall. apply (Hall (tag, level)). apply dict_get_elem; [|done]. by apply (bool_decide_unpack _).
  - repeat case_match; try (by apply open_paragraph_placed); try (by apply open_table_placed); try (by apply open_fact_placed); try done; apply cell_placed; try done; constructor.
Qed.

Lemma end_placed tag b : placed b → placed (end_body_tag tag b).
Proof.
  intros H. apply break_placed. destruct (dict_get tag HEADING_LEVELS), (ol_heading_start (bd_outline b)) eqn:Hh; [apply heading_placed; [done|by rewrite Hh]|..];
    unfold end_element; (destruct (if bool_decide (tag = "p"%string) then bd_block_start b else None) as [start|] eqn:Hs;
      [apply close_paragraph_placed; [done|by case_bool_decide]
      |repeat case_match; try (by apply close_table_placed); try (by apply close_fact_placed); try done; apply cell_placed; try done; constructor]).
Qed.

(** what every run of the parser keeps *)
Definition located (p : parser) : Prop := placed (ps_body p) ∧ settled (bd_text (ps_body p)).

Lemma break_settled tag b : settled (bd_text b) → settled (bd_text (break_line tag b)).
Proof. unfold break_line. case_bool_decide; [apply settled_newline|done]. Qed.

Lemma start_settled tag attrs b : settled (bd_text b) → settled (bd_text (start_body_tag tag attrs b)).
Proof. intros H%(break_settled tag). unfold start_body_tag. cbv zeta. destruct (dict_get tag HEADING_LEVELS); [done|]. by repeat case_match. Qed.

Lemma end_settled tag b : settled (bd_text b) → settled (bd_text (end_body_tag tag b)).
Proof.
  intros H. apply break_settled. destruct (dict_get tag HEADING_LEVELS), (ol_heading_start (bd_outline b)); try done;
    unfold end_element; (destruct (if bool_decide _ then bd_block_start b else None); [done|by repeat case_match]).
Qed.

Lemma event_located p e p' : handle_event p e = Ok p' → located p → located p'.
Proof.
  intros He [Hp Hs]. destruct e as [tag attrs|tag|data]; cbn in He.
  - injection He as <-. unfold handle_starttag. cbv zeta. case_bool_decide; [done|]. destruct (ps_in_header p); [done|]. split; cbn; [by apply start_placed|by apply start_settled].
  - unfold handle_endtag in He. case_bool_decide; [by injection He as <-|]. destruct (ps_in_header p).
    + apply bind_Ok in He as (r & _ & [= <-]). done.
    + injection He as <-. split; cbn; [by apply end_placed|by apply end_settled].
  - injection He as <-. unfold handle_data. destruct (ps_in_header p); [cbv zeta; by destruct (rs_kind _)|]. split; cbn.
    + apply append_placed, cell_placed; [constructor|done].
    + by apply settled_data.
Qed.

Lemma run_located feed html p : run_parser feed html = Ok p → located p.
Proof.
  intros (q & Hq & H)%bind_Ok. assert (located q) as Hl.
  { revert Hq. generalize (feed html).1 as l. assert (located new_parser) as Hnew by (split; [apply placed_new|done]). revert Hnew. generalize new_parser as s. intros s Hs l. revert s Hs.
    induction l as [|e l IH]; intros s Hs Hq; cbn in Hq; [by injection Hq as <-|]. apply bind_Ok in Hq as (s' & He & Hq). apply (IH s'); [by eapply event_located|done]. }
  destruct (feed html).2; [done|]. by injection H as <-.
Qed.

(** * The document *)

Lemma trim_start_spec text n start :
  let r := trim_start text n start in start ≤ r ≤ start + Z.of_nat n ∧ (r < start + Z.of_nat n → blank_at text r = false).
Proof.
  revert start. induction n as [|n IH]; intros start; cbn [trim_start]; cbv zeta; [lia|]. destruct (blank_at text start) eqn:Hb; [|split; [lia|done]].
  destruct (IH (start + 1)) as [? H]. split; [lia|]. intros ?. apply H. lia.
Qed.

Lemma trim_stop_spec text n stop :
  let r := trim_stop text n stop in stop - Z.of_nat n ≤ r ≤ stop ∧ (stop - Z.of_nat n < r → blank_at text (r - 1) = false).
Proof.
  revert stop. induction n as [|n IH]; intros stop; cbn [trim_stop]; cbv zeta; [lia|]. destruct (blank_at text (stop - 1)) eqn:Hb; [|split; [lia|done]].
  destruct (IH (stop - 1)) as [? H]. split; [lia|]. intros ?. apply H. lia.
Qed.

Lemma trim_range_spec text start stop a e :
  start ≤ stop → _trim_range text start stop = (a, e) →
  start ≤ a ∧ a ≤ e ∧ e ≤ stop ∧ (a < e → blank_at text a = false ∧ blank_at text (e - 1) = false).
Proof.
  intros Hle. unfold _trim_range. cbv zeta. intros [= <- <-]. destruct (trim_start_spec text (Z.to_nat (stop - start)) start) as [H1 H2].
  set (r := trim_start _ _ _) in *. destruct (trim_stop_spec text (Z.to_nat (stop - r)) stop) as [H3 H4]. set (q := trim_stop _ _ _) in *.
  split; [lia|]. split; [lia|]. split; [lia|]. intros Hrq. split; [apply H2; lia|apply H4; lia].
Qed.

(** a span covers its characters of the text, begins and ends in none that is blank,
    and belongs to a section *)
Record span_ok (seed text : string) (ids : list string) (s : source_span) : Prop := SpanOk {
  so_bounds : 0 ≤ sp_start s < sp_end s ∧ sp_end s ≤ Z.of_nat (String.length text);
  so_text : sp_text s = slice text (sp_start s) (sp_end s);
  so_hash : sp_text_hash s = text_hash (sp_text s);
  so_id : sp_id s = span_id_at seed (sp_start s) (sp_end s);
  so_section : sp_section_id s ∈ ids;
  so_trimmed : blank_at text (sp_start s) = false ∧ blank_at text (sp_end s - 1) = false }.

Definition range_of (s : source_span) : Z * Z := (sp_start s, sp_end s).

Section document.
Context (seed text : string) (ids : list string).

Lemma span_of_ok section start stop :
  (section < length ids)%nat → 0 ≤ start < stop → stop ≤ Z.of_nat (String.length text) → blank_at text start = false ∧ blank_at text (stop - 1) = false →
  ∃ s, span_of seed text ids section start stop = Ok s ∧ span_ok seed text ids s ∧ range_of s = (start, stop).
Proof.
  intros [id Hid]%lookup_lt_is_Some_2 Hb Hl Ht. unfold span_of. rewrite Hid. cbn [from_option_err mbind result_bind]. eexists. split; [done|]. split; [|done].
  split; try done. cbn. by apply list_elem_of_lookup_2 in Hid.
Qed.

Lemma paragraphs_spec pars spans :
  Forall (paragraph_ok (length ids) (Z.of_nat (String.length text))) pars → StronglySorted (λ x y : nat * Z * Z, x.2 ≤ y.1.2) pars →
  Forall (span_ok seed text ids) spans → NoDup (range_of <$> spans) → (∀ s r, s ∈ spans → r ∈ pars → sp_end s ≤ r.1.2) →
  ∃ spans', foldM (add_paragraph seed text ids) spans pars = Ok spans' ∧ Forall (span_ok seed text ids) spans' ∧ NoDup (range_of <$> spans').
Proof.
  intros Hp. revert spans. induction Hp as [|[[section start] stop] pars (Hn & Hb & Hl) _ IH]; intros spans Hs Hok Hnd Hbefore; [by exists spans|].
  cbn in Hn, Hb, Hl. apply StronglySorted_inv in Hs as [Hs Hhd]. cbn [foldM]. unfold add_paragraph at 1. destruct (_trim_range text start stop) as [a e] eqn:Ht.
  destruct (trim_range_spec text start stop a e ltac:(lia) Ht) as (Ha & Hae & He & Htr).
  assert (∀ s r, s ∈ spans → r ∈ pars → sp_end s ≤ r.1.2) as Hbefore' by (intros s r Hs' Hr; apply Hbefore; [done|by right]).
  destruct (Z.leb_spec e a); [cbn [mbind result_bind]; by apply IH|].
  destruct (span_of_ok section a e) as (s & -> & Hsok & Hr); [done|lia|lia|by apply Htr|]. cbn [mbind result_bind]. injection Hr as Hsa Hse. apply IH; [done|..].
  - apply Forall_app. split; [done|]. by constructor.
  - rewrite fmap_app. apply NoDup_app. split; [done|]. split; [|apply NoDup_singleton]. intros r (t & -> & Hin)%list_elem_of_fmap Hrs. apply list_elem_of_singleton in Hrs. injection Hrs as Ht1 Ht2.
    specialize (Hbefore t _ Hin (list_elem_of_here _ _)). cbn in Hbefore. rewrite Forall_forall in Hok. destruct (so_bounds _ _ _ _ (Hok t Hin)). lia.
  - intros t r [Hin| ->%list_elem_of_singleton]%elem_of_app Hr; [by apply Hbefore'|]. rewrite Forall_forall in Hhd. specialize (Hhd r Hr). cbn in Hhd. lia.
Qed.

(** a raw fact's text is that of a span, and its context and unit are known *)
Definition cites_span (contexts : list (string * xbrl_context)) (units : list (string * string)) (spans : list source_span) (f : inline_fact) : Prop :=
  (∃ s, s ∈ spans ∧ if_span_id f = sp_id s ∧ (if_start f, if_end f) = range_of s ∧ if_raw_text f = sp_text s) ∧ if_section_id f ∈ ids ∧
  is_Some (dict_get (if_context_ref f) contexts) ∧ is_Some (dict_get (if_unit_ref f) units).

Definition indexed (spans : list source_span) (by_range : list (Z * Z * string)) : Prop :=
  ∀ a e, dict_get (a, e) by_range = if decide ((a, e) ∈ range_of <$> spans) then Some (span_id_at seed a e) else None.

Record loop_ok contexts units (st : fact_loop) : Prop := LoopOk {
  lo_spans : Forall (span_ok seed text ids) (fl_spans st);
  lo_ranges : NoDup (range_of <$> fl_spans st);
  lo_index : indexed (fl_spans st) (fl_by_range st);
  lo_facts : Forall (cites_span contexts units (fl_spans st)) (fl_facts st) }.

Lemma indexed_snoc spans by_range s :
  sp_id s = span_id_at seed (sp_start s) (sp_end s) → indexed spans by_range → indexed (spans ++ [s]) (dict_set (range_of s) (sp_id s) by_range).
Proof.
  intros Hid H a e. rewrite dict_get_set, H, fmap_app. destruct (decide (range_of s = (a, e))) as [Heq|Hne].
  - rewrite decide_True by (rewrite <- Heq, elem_of_app; right; by left). injection Heq as <- <-. by rewrite Hid.
  - apply decide_ext. rewrite elem_of_app. split; [by left|]. intros [?|Hin%list_elem_of_singleton]; [done|]. by destruct Hne.
Qed.

Lemma index_spans spans : Forall (span_ok seed text ids) spans → indexed spans (foldl (λ d s, dict_set (range_of s) (sp_id s) d) [] spans).
Proof.
  induction spans as [|s spans IH] using rev_ind; intros H; [by intros a e|]. apply Forall_app in H as [H Hs]. rewrite foldl_app. cbn [foldl].
  apply indexed_snoc; [|by apply IH]. by apply Forall_cons in Hs as [[] _].
Qed.

Lemma cites_more contexts units spans more f : cites_span contexts units spans f → cites_span contexts units (spans ++ more) f.
Proof. intros [(s & Hs & H) ?]. split; [|done]. exists s. split; [apply elem_of_app; by left|done]. Qed.

Lemma inline_fact_spec contexts units st raw :
  loop_ok contexts units st → fact_ok (length ids) (Z.of_nat (String.length text)) raw →
  match add_inline_fact seed text ids contexts units st raw with Ok st' => loop_ok contexts units st' | Err e => ∃ code, e = Ingest code end.
Proof.
  intros H (Hn & Hb & Hl). pose proof H as [Hspans Hnd Hidx Hfacts]. unfold add_inline_fact. cbv zeta. destruct (_trim_range text _ _) as [a e] eqn:Ht.
  destruct (trim_range_spec text (rf_start raw) (rf_end raw) a e ltac:(lia) Ht) as (Ha & Hae & He & Htr).
  destruct (is_nil _ || (e <=? a)) eqn:Hnil; [by split|]. apply orb_false_iff in Hnil as [_ Hlt%Z.leb_gt].
  destruct (filled (fa_name _)) as [concept|]; [|by eexists]. destruct (filled (fa_contextref _)) as [context_ref|]; [|by eexists]. destruct (filled (fa_unitref _)) as [unit_ref|]; [|by eexists].
  destruct (dict_get context_ref contexts) as [c|] eqn:Hc; [|by eexists]. cbn [from_option_err mbind result_bind].
  destruct (dict_get unit_ref units) as [u|] eqn:Hu; [|by eexists]. cbn [from_option_err mbind result_bind].
  destruct (scale_of (rf_attrs raw)) as [scale|er] eqn:Hsc; cbn [mbind result_bind]; [|unfold scale_of in Hsc; destruct (filled _); [|done]; destruct (int_of_text _); cbn in Hsc; [done|injection Hsc as <-; by eexists]].
  destruct (lookup_lt_is_Some_2 ids (rf_section raw)) as [sid Hsid]; [done|]. pose proof (list_elem_of_lookup_2 _ _ _ Hsid) as Hin.
  destruct (span_of_ok (rf_section raw) a e) as (s & Hs & Hsok & Hr); [done|lia|lia|by apply Htr|].
  rewrite (Hidx a e). destruct (decide _) as [Hold|Hnew]; cbn [mbind result_bind]; rewrite ?Hs; cbn [mbind result_bind]; rewrite Hsid; cbn [from_option_err mbind result_bind].
  - split; try done. cbn. apply Forall_app. split; [done|]. constructor; [|constructor]. apply list_elem_of_fmap in Hold as (t & Ht' & Hint). rewrite Forall_forall in Hspans. specialize (Hspans t Hint).
    destruct Hspans as [_ Htext _ Hid _ _]. injection Ht' as -> ->. repeat split; cbn; try done. exists t. by rewrite Htext.
  - pose proof Hsok as [_ Htext _ Hid _ _]. injection Hr as Hsa Hse. split; cbn.
    + apply Forall_app. split; [done|]. by constructor.
    + rewrite fmap_app. apply NoDup_app. split; [done|]. split; [|apply NoDup_singleton]. intros r Hr Hrs. apply list_elem_of_singleton in Hrs. subst r. unfold range_of in Hr. by rewrite Hsa, Hse in Hr.
    + rewrite <- Hsa, <- Hse. by apply indexed_snoc.
    + apply Forall_app. split; [eapply Forall_impl; [exact Hfacts|]; intros f; apply cites_more|]. constructor; [|constructor]. repeat split; cbn; try done.
      exists s. split; [apply elem_of_app; right; by left|]. split; [done|]. unfold range_of. by rewrite Htext, Hsa, Hse.
Qed.

Lemma inline_facts_spec contexts units raws st :
  loop_ok contexts units st → Forall (fact_ok (length ids) (Z.of_nat (String.length text))) raws →
  match foldM (add_inline_fact seed text ids contexts units) st raws with Ok st' => loop_ok contexts units st' | Err e => ∃ code, e = Ingest code end.
Proof.
  intros H Hr. revert st H. induction Hr as [|raw raws Hraw _ IH]; intros st H; [done|]. cbn [foldM]. pose proof (inline_fact_spec _ _ _ _ H Hraw) as Hs.
  destruct (add_inline_fact _ _ _ _ _ st raw) as [st'|e]; cbn [mbind result_bind]; [by apply IH|done].
Qed.
End document.

(** the section made of the [i]th open one *)
Definition section_of (seed : string) (total : Z) (ordered : list open_section) (i : nat) (s : open_section) : section :=
  Section_ (section_id_at seed (Z.of_nat i)) ((λ j, section_id_at seed (Z.of_nat j)) <$> os_parent s) (os_heading s) (os_path s) (Z.of_nat i) (os_start s)
    (from_option os_start total (ordered !! S i)).

Definition ids_of (seed : string) (ordered : list open_section) : list string := (λ s, section_id_at seed (Z.of_nat (os_order s))) <$> ordered.

Lemma ids_lookup seed ordered i s : outlined ordered → ordered !! i = Some s → ids_of seed ordered !! i = Some (section_id_at seed (Z.of_nat i)).
Proof. intros Ho Hi. unfold ids_of. rewrite list_lookup_fmap, Hi. cbn. by rewrite (ou_order _ Ho _ _ Hi). Qed.

Lemma close_sections_spec seed total ordered n k :
  outlined ordered → (n + k = length ordered)%nat →
  close_sections total (ids_of seed ordered) (drop k ordered) = Ok (drop k (imap (section_of seed total ordered) ordered)).
Proof.
  intros Ho. revert k. induction n as [|n IH]; intros k Hk; [rewrite !drop_ge by (rewrite ?length_imap; lia); done|].
  destruct (lookup_lt_is_Some_2 ordered k) as [s Hs]; [lia|]. rewrite (drop_S ordered s k Hs), (drop_S _ (section_of seed total ordered k s) k) by (by rewrite list_lookup_imap, Hs).
  cbn [close_sections]. rewrite (ou_order _ Ho _ _ Hs), (ids_lookup _ _ _ _ Ho Hs). cbn [from_option_err mbind result_bind]. rewrite (IH (S k)) by lia.
  assert (match os_parent s with None => Ok None | Some i => Some <$> from_option_err (Escapes "IndexError") (ids_of seed ordered !! i) end
          = Ok ((λ j, section_id_at seed (Z.of_nat j)) <$> os_parent s)) as ->.
  { destruct k as [|k]; [rewrite (ou_root _ Ho) in Hs; by injection Hs as <-|]. destruct (ou_parent _ Ho _ _ Hs) as (j & -> & (Hj & (q & Hq & _) & _) & _). by rewrite (ids_lookup _ _ _ _ Ho Hq). }
  assert (match drop (S k) ordered with next :: _ => os_start next | [] => total end = from_option os_start total (ordered !! S k)) as ->; [|done].
  destruct (ordered !! S k) as [t|] eqn:Ht; [by rewrite (drop_S _ _ _ Ht)|]. by rewrite drop_ge by (by apply lookup_ge_None).
Qed.

Lemma starts_ordered ordered i j s t : outlined ordered → (i ≤ j)%nat → ordered !! i = Some s → ordered !! j = Some t → os_start s ≤ os_start t.
Proof.
  intros Ho Hij Hi. revert t. induction Hij as [|j Hij IH]; intros t Ht; [rewrite Hi in Ht; injection Ht as <-; lia|].
  destruct (lookup_lt_is_Some_2 ordered j) as [u Hu]; [apply lookup_lt_Some in Ht; lia|]. specialize (IH u Hu). pose proof (ou_starts _ Ho _ _ _ Hu Ht). lia.
Qed.

(** What a parsed filing is.  Its text is tidy and not blank.  Its sections are those
    of the outline and tile the text; its spans cover different ranges; its facts are
    spans' texts and their contexts and units are known; its tables are in order. *)
Record filing_of (seed : string) (ordered : list open_section) (d : parsed_document) : Prop := FilingOf {
  fi_text : tidy (pd_text d) ∧ strip (pd_text d) ≠ ""%string;
  fi_outline : outlined ordered ∧ pd_sections d = imap (section_of seed (Z.of_nat (String.length (pd_text d))) ordered) ordered;
  fi_tiles : ∀ i sec, pd_sections d !! i = Some sec → 0 ≤ sec_start sec ≤ sec_end sec ∧
    sec_end sec = from_option sec_start (Z.of_nat (String.length (pd_text d))) (pd_sections d !! S i);
  fi_spans : Forall (span_ok seed (pd_text d) (sec_id <$> pd_sections d)) (pd_spans d);
  fi_ranges : NoDup (range_of <$> pd_spans d);
  fi_facts : Forall (cites_span (sec_id <$> pd_sections d) (pd_contexts d) (pd_units d) (pd_spans d)) (pd_facts d);
  fi_tables : StronglySorted (λ t u, tb_order t < tb_order u) (pd_tables d) ∧ Forall (λ t, tb_section_id t ∈ sec_id <$> pd_sections d) (pd_tables d) }.

Lemma ids_of_sections seed total ordered : outlined ordered → sec_id <$> imap (section_of seed total ordered) ordered = ids_of seed ordered.
Proof.
  intros Ho. apply list_eq. intros i. unfold ids_of. rewrite !list_lookup_fmap, list_lookup_imap. destruct (ordered !! i) as [s|] eqn:Hs; [|done]. cbn. by rewrite (ou_order _ Ho _ _ Hs).
Qed.

Lemma tables_spec seed ids count tables :
  Forall (table_ok (length ids) count) tables → NoDup (ts_order <$> tables) → StronglySorted table_le tables →
  ∃ closed, mapM (close_table_state seed ids) tables = Ok closed ∧ StronglySorted (λ t u, tb_order t < tb_order u) closed ∧ Forall (λ t, tb_section_id t ∈ ids) closed ∧
    tb_order <$> closed = ts_order <$> tables.
Proof.
  intros Hok. induction Hok as [|t tables [Ht _] _ IH]; intros Hnd Hs; [exists []; repeat constructor|].
  rewrite fmap_cons in Hnd. apply NoDup_cons in Hnd as [Hnin Hnd]. apply StronglySorted_inv in Hs as [Hs Hle]. destruct (IH Hnd Hs) as (closed & Hc & Hsorted & Hids & Ho).
  destruct (lookup_lt_is_Some_2 ids (ts_section t) Ht) as [sid Hsid]. eexists (_ :: closed).
  split; [apply mapM_Ok; apply mapM_Ok in Hc; constructor; [|exact Hc]; unfold close_table_state; by rewrite Hsid|]. split; [constructor; [done|]|split; [constructor; [by apply list_elem_of_lookup_2 in Hsid|done]|cbn; by f_equal]].
  apply Forall_forall. intros u Hu. cbn. assert (tb_order u ∈ ts_order <$> tables) as Hin by (rewrite <- Ho; by apply list_elem_of_fmap_2).
  apply list_elem_of_fmap in Hin as (v & Hv & Hin). rewrite Hv. rewrite Forall_forall in Hle. specialize (Hle v Hin). unfold table_le in Hle.
  assert (ts_order t ≠ ts_order v); [|lia]. intros Heq. apply Hnin. rewrite Heq. by apply list_elem_of_fmap_2.
Qed.

#[export] Instance fact_le_total : Total fact_le. Proof. intros f g. unfold fact_le. lia. Qed.
#[export] Instance fact_le_trans : Transitive fact_le. Proof. intros f g h. unfold fact_le. lia. Qed.
#[export] Instance table_le_total : Total table_le. Proof. intros t u. unfold table_le. lia. Qed.
#[export] Instance table_le_trans : Transitive table_le. Proof. intros t u v. unfold table_le. lia. Qed.

Lemma section_bounds seed text ordered i sec :
  outlined ordered → (∀ s, s ∈ ordered → 0 ≤ os_start s ≤ Z.of_nat (String.length text)) →
  imap (section_of seed (Z.of_nat (String.length text)) ordered) ordered !! i = Some sec →
  0 ≤ sec_start sec ≤ sec_end sec ∧
  sec_end sec = from_option sec_start (Z.of_nat (String.length text)) (imap (section_of seed (Z.of_nat (String.length text)) ordered) ordered !! S i).
Proof.
  intros Ho Hb. rewrite !list_lookup_imap. intros (s & Hs & ->)%fmap_Some. pose proof (Hb s (list_elem_of_lookup_2 _ _ _ Hs)).
  cbn. destruct (ordered !! S i) as [t|] eqn:Ht; cbn; [|lia]. pose proof (ou_starts _ Ho _ _ _ Hs Ht). lia.
Qed.

(** what [build_document] makes of the parser's state *)
Lemma document_spec content_hash seed p :
  located p →
  match build_document content_hash seed p with
  | Ok d => filing_of seed (secs_of (ps_body p)) d ∧ pd_text d = bd_text (ps_body p) ∧ pd_content_hash d = content_hash
  | Err e => ∃ code, e = Ingest code
  end.
Proof.
  intros [Hp [Htidy _]]. pose proof Hp as [Hpos Ho Hc Hcur [Hh1 Hh2] Hl Hb Hpar Hs Hcount Ht Hn Hf Hop]. set (b := ps_body p) in *. set (text := bd_text b) in *. set (ordered := secs_of b) in *.
  unfold build_document. fold b text. change (ol_sections (bd_outline b)) with ordered. fold (ids_of seed ordered). set (ids := ids_of seed ordered). cbv zeta.
  destruct (ensure _ _) as [[]|e] eqn:Hen; [|apply ensure_Err in Hen as [_ <-]; by eexists]. apply ensure_Ok, negb_true_iff, bool_decide_eq_false in Hen. cbn [mbind result_bind].
  assert (length ids = length ordered) as Hlen by (unfold ids, ids_of; by rewrite length_fmap).
  pose proof (close_sections_spec seed (Z.of_nat (String.length text)) ordered (length ordered) 0 Ho ltac:(lia)) as Hcl. rewrite !drop_0 in Hcl. fold ids in Hcl. rewrite Hcl. cbn [mbind result_bind].
  destruct (paragraphs_spec seed text ids (bd_paragraphs b) []) as (spans & Hspans & Hok & Hnd); [|done|constructor|constructor|by intros ? ? ?%not_elem_of_nil|].
  { rewrite Hlen. eapply Forall_impl; [exact Hpar|]. intros r (? & ? & ?). split; [done|]. split; [done|]. destruct (bd_block_start b); cbn in *; lia. }
  rewrite Hspans. cbn [mbind result_bind].
  pose proof (inline_facts_spec seed text ids (rs_contexts (ps_resources p)) (rs_units (ps_resources p)) (py_sorted fact_le (mk_facts (bd_marks b)))
    (FactLoop spans (foldl (λ d s, dict_set (range_of s) (sp_id s) d) [] spans) [] [])) as Hloop.
  change (λ (d : list (Z * Z * string)) s, dict_set (sp_start s, sp_end s) (sp_id s) d) with (λ (d : list (Z * Z * string)) s, dict_set (range_of s) (sp_id s) d).
  destruct (foldM _ _ (py_sorted fact_le _)) as [st|e]; cbn [mbind result_bind].
  2: { apply Hloop; [split; [done|done|by apply (index_spans _ _ _ _ Hok)|constructor]|]. rewrite py_sorted_perm, Hlen. by rewrite <- Hpos. }
  destruct Hloop as [Hsp Hrn _ Hfc]; [split; [done|done|by apply (index_spans _ _ _ _ Hok)|constructor]|rewrite py_sorted_perm, Hlen; by rewrite <- Hpos|].
  destruct (tables_spec seed ids (tab_count (bd_tables b)) (py_sorted table_le (tab_done (bd_tables b)))) as (closed & -> & Hsorted & Hids & _).
  { rewrite py_sorted_perm, Hlen. by apply Forall_app in Ht as [? _]. }
  { rewrite py_sorted_perm. unfold open_tables in Hn. rewrite fmap_app in Hn. by apply NoDup_app in Hn as [? _]. }
  { apply py_sorted_sorted; apply _. }
  cbn [mbind result_bind]. split; [|done]. assert (sec_id <$> imap (section_of seed (Z.of_nat (String.length text)) ordered) ordered = ids) as Hidsec by by apply ids_of_sections.
  split; cbn [pd_text pd_sections pd_spans pd_tables pd_contexts pd_units pd_facts]; rewrite ?Hidsec; try done.
  intros i sec. apply section_bounds; [done|]. intros s Hin. specialize (Hh2 s Hin). lia.
Qed.

(** C27: A parsed filing is located.  Whatever the markup, the document is [filing_of] the
    outline its parser built: the text is tidy, the sections tile it and each
    nests in the nearest earlier one of a lower heading level, every span and every
    raw fact cites the characters it says it does, once, under its hash, and every
    fact's context and unit are among the document's. *)
Theorem filing_is_located feed raw id_seed content_hash d :
  parse_filing feed raw id_seed content_hash = Ok d →
  ∃ html p, decode_utf8 raw = Ok html ∧ run_parser feed html = Ok p ∧ pd_text d = bd_text (ps_body p) ∧
    filing_of (default (default ("sha256:" +:+ sha256_hexdigest raw) content_hash +:+ "|" +:+ PARSER_VERSION) id_seed)%string (secs_of (ps_body p)) d.
Proof.
  unfold parse_filing. cbv zeta. intros (html & Hhtml & (p & Hp & Hd)%bind_Ok)%bind_Ok. exists html, p. split; [done|]. split; [done|].
  pose proof (document_spec (default ("sha256:" +:+ sha256_hexdigest raw)%string content_hash) (default (default ("sha256:" +:+ sha256_hexdigest raw) content_hash +:+ "|" +:+ PARSER_VERSION)%string id_seed) p (run_located _ _ _ Hp)) as H.
  rewrite Hd in H. by destruct H as (? & ? & _).
Qed.

Lemma filing_is_located_witness :
  if_raw_text <$> pd_facts SampleFiling.document = ["1,234"%string] ∧
  ∃ html p, decode_utf8 SampleFiling.raw = Ok html ∧ run_parser SampleFiling.feed html = Ok p ∧ pd_text SampleFiling.document = bd_text (ps_body p) ∧
    filing_of "seed" (secs_of (ps_body p)) SampleFiling.document.
Proof.
  split; [vm_compute; reflexivity|]. apply (filing_is_located SampleFiling.feed SampleFiling.raw (Some "seed"%string) None). vm_compute. reflexivity.
Defined.

(** * A filing fails closed *)

(** no byte of [raw] opens a character above U+00FF, the last that the texts of
    this library hold *)
Definition latin1 (raw : string) : Prop := Forall (λ a, (N_of_ascii a < 196 ∨ 244 < N_of_ascii a)%N) (chars raw).

(** decoding stops at the first byte that is no text *)
Lemma decode_utf8_err raw e : latin1 raw → decode_utf8 raw = Err e → e = Ingest ENCODING_ERROR.
Proof.
  assert (∀ n raw, (String.length raw ≤ n)%nat → ∀ e, latin1 raw → decode_utf8 raw = Err e → e = Ingest ENCODING_ERROR) as H; [|by apply (H (String.length raw))].
  clear raw e. induction n as [|n IH]; intros [|a s] Hl e Hraw; try done; [cbn in Hl; lia|]. cbn [String.length] in Hl. cbn [decode_utf8]. cbv zeta.
  unfold latin1 in Hraw. cbn [chars] in Hraw. apply Forall_cons in Hraw as [Ha Hs].
  assert (∀ (m : ingested string) f, (∀ e, m = Err e → e = Ingest ENCODING_ERROR) → (m ≫= λ t, Ok (f t : string)) = Err e → e = Ingest ENCODING_ERROR) as Hbind.
  { intros [t|e'] f Hm; cbn; [done|]. intros [= <-]. by apply Hm. }
  destruct (N.ltb_spec (N_of_ascii a) 128); [apply Hbind; intros e'; apply IH; [lia|done]|].
  destruct (N.ltb_spec (N_of_ascii a) 194); [by intros [= <-]|]. destruct (N.ltb_spec 244 (N_of_ascii a)); [by intros [= <-]|]. cbn [orb].
  destruct (N.ltb_spec 195 (N_of_ascii a)); [lia|]. destruct s as [|b s]; [by intros [= <-]|]. cbn [chars] in Hs. apply Forall_cons in Hs as [_ Hs].
  case_match; [|by intros [= <-]]. apply Hbind. intros e'. apply IH; [cbn in Hl; lia|done].
Qed.

Lemma handler_err p e er : handle_event p e = Err er → er = Ingest INVALID_PERIOD_DATE.
Proof.
  destruct e as [tag attrs|tag|data]; [done| |done]. cbn. unfold handle_endtag. case_bool_decide; [done|]. destruct (ps_in_header p); [|done].
  destruct (_end_header_tag tag _) as [r|e] eqn:He; [done|]. intros [= <-]. unfold _end_header_tag in He. cbv zeta in He. destruct (dict_get tag PERIOD_TAGS).
  - destruct (date_fromisoformat _); [done|]. by injection He as <-.
  - by repeat case_bool_decide.
Qed.

Lemma run_err feed html e : run_parser feed html = Err e → e = Ingest INVALID_PERIOD_DATE ∨ ∃ name, e = Escapes name ∧ (feed html).2 = Some name.
Proof.
  unfold run_parser. generalize new_parser. induction (feed html).1 as [|ev l IH]; intros p; cbn.
  - destruct (feed html).2 as [name|]; [|done]. intros [= <-]. right. by exists name.
  - destruct (handle_event p ev) as [p'|er] eqn:He; cbn; [apply IH|]. intros [= <-]. left. by eapply handler_err.
Qed.

Lemma arith_err {A} (r : result signal A) e : (∀ s, r = Err s → s = Overflow ∨ s = InvalidOperation) → fact_arith r = Err e → (∃ code, e = Ingest code) ∨ e = Escapes "Overflow".
Proof. intros H. destruct r as [a|s]; [done|]. destruct (H s eq_refl) as [->| ->]; cbn; intros [= <-]; [by right|left; by eexists]. Qed.

Lemma negate_err d s : negate d = Err s → s = Overflow ∨ s = InvalidOperation.
Proof. intros H%dec_fix_err. by left. Qed.

Lemma scaleb_err d k s : dec_scaleb d k = Err s → s = Overflow ∨ s = InvalidOperation.
Proof. unfold dec_scaleb. case_match; [intros [= <-]; by right|]. intros Hd%dec_fix_err. by left. Qed.

Lemma value_err fact e : parse_fact_value fact = Err e → (∃ code, e = Ingest code) ∨ e = Escapes "Overflow".
Proof.
  unfold parse_fact_value. unfold transform_of. destruct (if_format fact) as [f|]; cbn [mbind result_bind]; [destruct (dict_get _ FORMAT_TRANSFORMS) as [t|]; cbn [from_option_err mbind result_bind]; [|intros [= <-]; left; by eexists]|];
  (match goal with |- context [match ?t ?x with Ok _ => _ | Err _ => _ end = _] => destruct (t x) as [[m|s|]|[code|]] end; try (intros [= <-]; left; by eexists));
  (match goal with |- (?m ≫= _) = _ → _ => destruct m as [m1|e1] eqn:H1 end; cbn [mbind result_bind];
    [|intros [= <-]; destruct (parenthesized _); [|done]; by eapply arith_err, H1; apply negate_err]);
  (match goal with |- (?m ≫= _) = _ → _ => destruct m as [m2|e2] eqn:H2 end; cbn [mbind result_bind];
    [|intros [= <-]; case_bool_decide; [|done]; by eapply arith_err, H2; apply negate_err]);
  apply arith_err, scaleb_err.
Qed.

(** a parsed document's facts find their contexts and units *)
Lemma draft_err seed ordered d f e :
  filing_of seed ordered d → f ∈ pd_facts d → draft_of d f = Err e → (∃ code, e = Ingest code) ∨ e = Escapes "Overflow".
Proof.
  intros Hd Hin. pose proof (fi_facts _ _ _ Hd) as Hf. rewrite Forall_forall in Hf. destruct (Hf f Hin) as (_ & _ & [c Hc] & [u Hu]).
  unfold draft_of. rewrite Hc, Hu. cbn [from_option_err mbind result_bind]. cbv zeta. destruct (parse_fact_value f) as [v|er] eqn:Hv; cbn [mbind result_bind]; [|intros [= <-]; by eapply value_err].
  destruct (period_of c) as [[[[t i] s] st]|er] eqn:Hper; cbn [mbind result_bind]; [done|]. intros [= <-]. left. unfold period_of in Hper. repeat case_match; try done; injection Hper as <-; by eexists.
Qed.

(** C28: A filing fails closed.  Parsing and normalizing any bytes that open no
    character above U+00FF, text or not, whatever the tokenizer does with them, ends
    in facts or in a reason the pipeline quarantines the filing for.  The exceptions
    left are the tokenizer's own and the [Overflow] of an amount beyond the decimal
    context: no lookup of a section, a context or a unit fails. *)
Theorem filing_fails_closed feed raw id_seed content_hash entity_id version_id prior :
  latin1 raw →
  match (d ← parse_filing feed raw id_seed content_hash; normalize_facts d entity_id version_id prior) with
  | Ok _ | Err (Ingest _) => True
  | Err (Divergent _) | Err Unmodelled => False
  | Err (Escapes name) => name = "Overflow"%string ∨ ∃ html, decode_utf8 raw = Ok html ∧ (feed html).2 = Some name
  end.
Proof.
  intros Hraw. unfold parse_filing. cbv zeta. destruct (decode_utf8 raw) as [html|e] eqn:Hd; cbn [mbind result_bind]; [|by rewrite (decode_utf8_err _ _ Hraw Hd)].
  destruct (run_parser feed html) as [p|e] eqn:Hp; cbn [mbind result_bind]; [|destruct (run_err _ _ _ Hp) as [->|(name & -> & Hn)]; [done|right; by exists html]].
  match goal with |- context [build_document ?h ?s p] => pose proof (document_spec h s p (run_located _ _ _ Hp)) as Hb; destruct (build_document h s p) as [d|e] end; cbn [mbind result_bind]; [|by destruct Hb as [code ->]].
  destruct Hb as [Hb _]. unfold normalize_facts. pose proof (loop_spec entity_id version_id (restates_of prior) (draft_of d) (pd_facts d)) as H.
  destruct (foldM _ _ (pd_facts d)) as [st|e]; cbn [mbind result_bind]; [done|]. destruct H as [(f & Hf & He)|[-> _]]; [|done].
  destruct (draft_err _ _ _ _ _ Hb Hf He) as [[code ->]| ->]; [done|by left].
Qed.

(** a page whose tokenizer stops in the middle, and bytes that are no text *)
Lemma filing_fails_closed_witness :
  parse_filing (λ html, ([TextData html], Some "AssertionError"%string)) "<![x" None None = Err (Escapes "AssertionError") ∧
  parse_filing SampleFiling.feed (String (ascii_of_N 255) "fin") None None = Err (Ingest ENCODING_ERROR) ∧
  ∃ html, decode_utf8 "<![x" = Ok html ∧ ([TextData html], Some "AssertionError"%string).2 = Some "AssertionError"%string.
Proof.
  split; [vm_compute; reflexivity|]. split; [vm_compute; reflexivity|].
  assert (latin1 "<![x") as Hraw by (repeat constructor).
  destruct (filing_fails_closed (λ html, ([TextData html], Some "AssertionError"%string)) "<![x" None None "e" "v" [] Hraw) as [Hn|H]; [by vm_compute in Hn|exact H].
Defined.

(** A heading inside a paragraph: the paragraph's span is given to the section the
    heading opens, and starts before it. *)
Example paragraph_across_sections :
  (λ d, ((λ s, (sec_start s, sec_end s)) <$> pd_sections d, (λ s, (sp_start s, sp_end s, bool_decide (sp_section_id s = section_id_at "seed" 1))) <$> pd_spans d)) <$>
    parse_filing (λ _, ([StartTag "p" []; TextData "before"; StartTag "h2" []; TextData "Title"; EndTag "h2"; TextData "after"; EndTag "p"]%string, None)) "<p>" (Some "seed"%string) None
  = Ok ([(0, 7); (7, 19)], [(0, 18, true)]).
Proof. vm_compute. reflexivity. Qed.
