(* ===== verification/Ingestion.v ===== *)
(** [workers/src/fel_workers/ingestion/pipeline.py], [raw_store.py] and the pipeline of
    [company_facts.py], over the tables of [db/migrations/0002_corpus_core.sql] and
    the object store of [storage.py].

    A job is one transaction: its claim of the ledger's key makes a rival wait, so
    jobs are taken one after the other, in any order.  Statements raise what the
    tables' keys, references and checks refuse; the patterns of checks and the
    syntax of uuids are left out.  A document with a character above U+00FF is
    outside the texts of this library, and its job commits nothing here.  The object
    store is no part of the transaction: what was put stays when it is rolled back.
    Clocks, random uuids and the texts of diagnostics are arguments. *)

From S2P Require Import Prelude Effects Dicts Text Decimals Periods Canonical IsoDates Uuids Discovery Json Xbrl CompanyFacts CompanyFactsSound FilingParser.
Local Open Scope Z_scope.

(** * Tables *)

Record document_row := DocumentRow {
  d_id : string; d_entity_id : string; d_accession : string; d_form : option string; d_source_url : string; d_content_hash : string; d_storage_key : string;
  d_mime_type : string; d_published_at : Z; d_filed_at : option Z; d_period_start : option date; d_period_end : option date }.

Record version_row := VersionRow {
  v_id : string; v_document_id : string; v_parser_version : string; v_normalizer_version : string; v_status : string; v_text_key : string; v_created_at : Z }.

(** the text of a span is not stored *)
Record span_row := SpanRow { sr_id : string; sr_version : string; sr_section : string; sr_start : Z; sr_end : Z; sr_text_hash : string }.

Inductive ledger_status := RunRunning | RunSucceeded | RunQuarantined.
#[export] Instance ledger_status_eq_dec : EqDecision ledger_status. Proof. solve_decision. Defined.

Record run_row := RunRow {
  r_job_key : string; r_source_hash : string; r_parser_version : string; r_normalizer_version : string; r_status : ledger_status;
  r_document_id : option string; r_version_id : option string; r_result : list (string * pyjson) }.

Record quarantine_row := QuarantineRow {
  q_id : string; q_accession : string; q_source_url : string; q_content_hash : string; q_reason_code : string; q_diagnostic : string; q_job_key : string }.

Inductive corpus_status := DraftCorpus | ActiveCorpus | SupersededCorpus.
#[export] Instance corpus_status_eq_dec : EqDecision corpus_status. Proof. solve_decision. Defined.

Record corpus_row := CorpusRow { c_id : string; c_label : string; c_status : corpus_status; c_is_active : bool; c_published_at : option Z }.

(** sections and tables are under their version *)
Record corpus := Corpus {
  t_documents : list document_row; t_versions : list version_row; t_sections : list (string * section); t_spans : list span_row;
  t_tables : list (string * extracted_table); t_facts : list normalized_fact; t_corpora : list corpus_row; t_members : list (string * string);
  t_quarantine : list quarantine_row; t_runs : list run_row }.

Record world := World { w_corpus : corpus; w_blobs : gmap string string }.

Definition empty_world : world := World (Corpus [] [] [] [] [] [] [] [] [] []) ∅.

Notation ingesting A := (eff world ingest_error A).

Definition set_corpus (c : corpus) (w : world) : world := World c (w_blobs w).

(** appended rows *)
Definition add_document (d : document_row) (c : corpus) : corpus :=
  Corpus (t_documents c ++ [d]) (t_versions c) (t_sections c) (t_spans c) (t_tables c) (t_facts c) (t_corpora c) (t_members c) (t_quarantine c) (t_runs c).
Definition add_version (v : version_row) (c : corpus) : corpus :=
  Corpus (t_documents c) (t_versions c ++ [v]) (t_sections c) (t_spans c) (t_tables c) (t_facts c) (t_corpora c) (t_members c) (t_quarantine c) (t_runs c).
Definition add_sections (l : list (string * section)) (c : corpus) : corpus :=
  Corpus (t_documents c) (t_versions c) (t_sections c ++ l) (t_spans c) (t_tables c) (t_facts c) (t_corpora c) (t_members c) (t_quarantine c) (t_runs c).
Definition add_spans (l : list span_row) (c : corpus) : corpus :=
  Corpus (t_documents c) (t_versions c) (t_sections c) (t_spans c ++ l) (t_tables c) (t_facts c) (t_corpora c) (t_members c) (t_quarantine c) (t_runs c).
Definition add_tables (l : list (string * extracted_table)) (c : corpus) : corpus :=
  Corpus (t_documents c) (t_versions c) (t_sections c) (t_spans c) (t_tables c ++ l) (t_facts c) (t_corpora c) (t_members c) (t_quarantine c) (t_runs c).
Definition add_facts (l : list normalized_fact) (c : corpus) : corpus :=
  Corpus (t_documents c) (t_versions c) (t_sections c) (t_spans c) (t_tables c) (t_facts c ++ l) (t_corpora c) (t_members c) (t_quarantine c) (t_runs c).
Definition set_corpora (l : list corpus_row) (m : list (string * string)) (c : corpus) : corpus :=
  Corpus (t_documents c) (t_versions c) (t_sections c) (t_spans c) (t_tables c) (t_facts c) l m (t_quarantine c) (t_runs c).
Definition add_quarantine (q : quarantine_row) (c : corpus) : corpus :=
  Corpus (t_documents c) (t_versions c) (t_sections c) (t_spans c) (t_tables c) (t_facts c) (t_corpora c) (t_members c) (t_quarantine c ++ [q]) (t_runs c).
Definition set_runs (l : list run_row) (c : corpus) : corpus :=
  Corpus (t_documents c) (t_versions c) (t_sections c) (t_spans c) (t_tables c) (t_facts c) (t_corpora c) (t_members c) (t_quarantine c) l.

(** * Statements *)

(** the first constraint a row violates, with the exception it raises *)
Fixpoint violation (l : list (bool * string)) : option string :=
  match l with [] => None | (ok, name) :: l' => if ok : bool then violation l' else Some name end.

Definition insert (checks : corpus → list (bool * string)) (add : corpus → corpus) : ingesting unit :=
  c ← reads w_corpus;
  match violation (checks c) with
  | Some name => raise (Escapes name)
  | None => writes (λ w, set_corpus (add (w_corpus w)) w)
  end.

(** a column of type integer *)
Definition int4 (z : Z) : bool := (- 2 ^ 31 <=? z) && (z <? 2 ^ 31).

(** texts of the database have no NUL *)
Definition clean (s : string) : bool := negb (contains (String (ascii_of_N 0) EmptyString) s).
Definition clean_option (s : option string) : bool := from_option clean true s.

Definition offsets_ok (start stop : Z) : list (bool * string) :=
  [(int4 start && int4 stop, "NumericValueOutOfRange"); (((0 <=? start) && (start <=? stop))%Z, "CheckViolation")]%string.

Definition document_checks (d : document_row) (c : corpus) : list (bool * string) :=
  [(clean (d_accession d) && clean_option (d_form d) && clean (d_source_url d) && clean (d_mime_type d), "DataError");
   (bool_decide (d_id d ∉ d_id <$> t_documents c), "UniqueViolation")]%string.

Definition version_checks (v : version_row) (c : corpus) : list (bool * string) :=
  [(bool_decide (v_id v ∉ v_id <$> t_versions c), "UniqueViolation");
   (bool_decide ((v_document_id v, v_parser_version v, v_normalizer_version v) ∉ (λ v, (v_document_id v, v_parser_version v, v_normalizer_version v)) <$> t_versions c), "UniqueViolation");
   (bool_decide (v_document_id v ∈ d_id <$> t_documents c), "ForeignKeyViolation")]%string.

Definition version_exists (version : string) (c : corpus) : bool := bool_decide (version ∈ v_id <$> t_versions c).

Definition section_checks (version : string) (s : section) (c : corpus) : list (bool * string) :=
  [(clean (sec_heading s) && forallb clean (sec_heading_path s), "DataError"); (int4 (sec_order s), "NumericValueOutOfRange"); ((0 <=? sec_order s)%Z, "CheckViolation")]%string
   ++ offsets_ok (sec_start s) (sec_end s) ++
   [(bool_decide (sec_id s ∉ (λ x, sec_id x.2) <$> t_sections c), "UniqueViolation");
    (bool_decide ((version, sec_order s) ∉ (λ x, (x.1, sec_order x.2)) <$> t_sections c), "UniqueViolation");
    (version_exists version c, "ForeignKeyViolation");
    (from_option (λ parent, bool_decide (parent = sec_id s ∨ parent ∈ (λ x, sec_id x.2) <$> t_sections c)) true (sec_parent_id s), "ForeignKeyViolation")]%string.

Definition span_checks (s : span_row) (c : corpus) : list (bool * string) :=
  offsets_ok (sr_start s) (sr_end s) ++
   [(bool_decide (sr_id s ∉ sr_id <$> t_spans c), "UniqueViolation"); (version_exists (sr_version s) c, "ForeignKeyViolation");
    (bool_decide (sr_section s ∈ (λ x, sec_id x.2) <$> t_sections c), "ForeignKeyViolation")]%string.

Definition table_checks (version : string) (t : extracted_table) (c : corpus) : list (bool * string) :=
  [(clean_option (tb_caption t) && forallb clean (tb_headers t) && forallb (forallb clean) (tb_rows t), "DataError"); (int4 (tb_order t), "NumericValueOutOfRange");
   ((0 <=? tb_order t)%Z, "CheckViolation"); (bool_decide (tb_id t ∉ (λ x, tb_id x.2) <$> t_tables c), "UniqueViolation");
   (bool_decide ((version, tb_order t) ∉ (λ x, (x.1, tb_order x.2)) <$> t_tables c), "UniqueViolation"); (version_exists version c, "ForeignKeyViolation");
   (bool_decide (tb_section_id t ∈ (λ x, sec_id x.2) <$> t_sections c), "ForeignKeyViolation")]%string.

(** a reference to a fact, which may be to itself *)
Definition fact_exists (id : string) (ref : option string) (c : corpus) : bool :=
  from_option (λ r, bool_decide (r = id ∨ r ∈ nf_id <$> t_facts c)) true ref.

Definition fact_checks (f : normalized_fact) (c : corpus) : list (bool * string) :=
  [(clean (nf_concept f) && clean_option (nf_label f) && clean (nf_unit f) && clean (nf_fact_key f) && forallb (λ kv, clean kv.1 && clean kv.2) (nf_dimensions f), "DataError");
   (bool_decide (nf_period_type f ∈ ["instant"; "duration"]), "CheckViolation"); (bool_decide (nf_reported_or_derived f ∈ ["reported"; "derived"]), "CheckViolation");
   (((0 <=? nf_confidence f) && (nf_confidence f <=? 1))%Z, "CheckViolation"); (bool_decide (nf_id f ∉ nf_id <$> t_facts c), "UniqueViolation");
   (from_option (λ _, true) (bool_decide ((nf_document_version_id f, nf_fact_key f, None) ∉ (λ g, (nf_document_version_id g, nf_fact_key g, nf_duplicate_of g)) <$> t_facts c)) (nf_duplicate_of f), "UniqueViolation");
   (version_exists (nf_document_version_id f) c, "ForeignKeyViolation"); (bool_decide (nf_source_span_id f ∈ sr_id <$> t_spans c), "ForeignKeyViolation");
   (fact_exists (nf_id f) (nf_duplicate_of f) c, "ForeignKeyViolation"); (fact_exists (nf_id f) (nf_restates f) c, "ForeignKeyViolation")]%string.

(** * The object store *)

(** [LocalDirStorageProvider.put]; the keys here are never empty and stay inside the root *)
Definition put (key data : string) : ingesting unit :=
  blobs ← reads w_blobs;
  match blobs !! key with
  | Some old => if bool_decide (old = data) then mret tt else raise (Escapes "ValueError")
  | None => writes (λ w, World (w_corpus w) (<[key := data]> (w_blobs w)))
  end.

(** [with conn.transaction()] *)
Definition atomically {A} (m : ingesting A) : ingesting A := λ w,
  match m w with (Ok a, w') => (Ok a, w') | (Err e, w') => (Err e, World (w_corpus w) (w_blobs w')) end.

(** [try: m], its outcome for the handlers behind it *)
Definition attempt {A} (m : ingesting A) : ingesting (result ingest_error A) := λ w, let '(r, w') := m w in (Ok r, w').

(** * Keys *)

Definition job_key (source_hash parser_version normalizer_version entity_id accession : string) : ingested string :=
  let parts := [entity_id; accession; source_hash; parser_version; normalizer_version] in
  _ ← ensure (forallb (λ part, negb (contains "|" part)) parts) (Escapes "ValueError");
  Ok (sha256_hexdigest (encode_utf8 (join "|" parts))).

Definition version_id_for (document_id content_hash parser_version normalizer_version : string) : string :=
  uuid_str (uuid5 NAMESPACE_URL ("https://financial-evidence-lab.dev/version|" +:+ document_id +:+ "|" +:+ content_hash +:+ "|" +:+ parser_version +:+ "|" +:+ normalizer_version)%string).

(** * [store_raw_document] *)

(** whether the row was inserted; [d] carries the hash and the key of [raw] *)
Definition store_raw_document (d : document_row) (raw : string) : ingesting bool :=
  _ ← put (d_storage_key d) raw;
  c ← reads w_corpus;
  match list_find (λ x, d_accession x = d_accession d) (t_documents c) with
  | None => _ ← insert (document_checks d) (add_document d); mret true
  | Some (_, existing) => if bool_decide (d_content_hash existing = d_content_hash d) then mret false else raise (Divergent (d_id existing))
  end.

(** * Restatement targets *)

Record candidate := Candidate { cd_key : string; cd_published_at : Z; cd_created_at : Z; cd_id : string; cd_value : string }.

(** [ORDER BY fact_key, published_at DESC, created_at DESC, id] *)
Definition candidate_le : relation candidate := λ a b,
  if bool_decide (cd_key a = cd_key b) then
    if cd_published_at a =? cd_published_at b then
      if cd_created_at a =? cd_created_at b then String.le (cd_id a) (cd_id b) else cd_created_at b < cd_created_at a
    else cd_published_at b < cd_published_at a
  else String.le (cd_key a) (cd_key b).
#[export] Instance candidate_le_dec : RelDecision candidate_le. Proof. intros a b. unfold candidate_le. repeat case_match; apply _. Defined.

(** the newest parsed version of a document: [ORDER BY created_at DESC, id DESC LIMIT 1] *)
Definition newer (a b : version_row) : bool :=
  (v_created_at b <? v_created_at a) || (v_created_at a =? v_created_at b) && bool_decide (String.le (v_id b) (v_id a)).
Definition latest_version (document_id : string) (c : corpus) : option string :=
  v_id <$> foldl (λ best v, match best with Some b => if newer b v then best else Some v | None => Some v end) None
             (filter (λ v, v_document_id v = document_id ∧ v_status v = "parsed"%string) (t_versions c)).

Definition candidate_of (entity_id : string) (published_before : Z) (c : corpus) (f : normalized_fact) : option candidate :=
  '(_, v) ← list_find (λ v, v_id v = nf_document_version_id f) (t_versions c);
  '(_, d) ← list_find (λ d, d_id d = v_document_id v) (t_documents c);
  if bool_decide (nf_entity_id f = entity_id) && bool_decide (nf_duplicate_of f = None) && bool_decide (v_status v = "parsed"%string) &&
     (d_published_at d <? published_before) && bool_decide (d_form d ≠ Some COMPANY_FACTS_FORM) && bool_decide (latest_version (d_id d) c = Some (v_id v))
  then Some (Candidate (nf_fact_key f) (d_published_at d) (v_created_at v) (nf_id f) (nf_value f)) else None.

(** [DISTINCT ON (fact_key)]: the first row of each key *)
Definition _prior_canonical_facts (entity_id : string) (published_before : Z) (c : corpus) : list (string * prior_fact) :=
  foldl (λ prior x, match dict_get (cd_key x) prior with Some _ => prior | None => prior ++ [(cd_key x, PriorFact (cd_id x) (cd_value x))] end) []
    (py_sorted candidate_le (omap (candidate_of entity_id published_before c) (t_facts c))).

(** * Jobs *)

Inductive outcome_status := OutcomeSucceeded | OutcomeQuarantined | OutcomeNoop.

(** IngestionOutcome *)
Record outcome := Outcome {
  o_status : outcome_status; o_job_key : string; o_document_id : option string; o_version_id : option string; o_sections : Z; o_spans : Z; o_tables : Z;
  o_facts : Z; o_reason_code : option string; o_diagnostic : option string }.

Definition jint (v : pyjson) : Z := match v with IntJ z => z | _ => 0 end.
Definition jtext (v : pyjson) : option string := match v with StrJ s => Some s | _ => None end.

Definition _noop_outcome (key : string) (row : run_row) : outcome :=
  let result := r_result row in
  Outcome OutcomeNoop key (r_document_id row) (r_version_id row) (jint (jget "sections" result)) (jint (jget "spans" result)) (jint (jget "tables" result)) (jint (jget "facts" result))
    (jtext (jget "reason_code" result)) (jtext (jget "diagnostic" result)).

Definition reason_name (code : reason_code) : string :=
  match code with
  | ENCODING_ERROR => "ENCODING_ERROR" | EMPTY_DOCUMENT => "EMPTY_DOCUMENT" | MALFORMED_JSON => "MALFORMED_JSON" | INCOMPLETE_FACT => "INCOMPLETE_FACT"
  | UNKNOWN_CONTEXT => "UNKNOWN_CONTEXT" | UNKNOWN_UNIT => "UNKNOWN_UNIT" | INVALID_SCALE => "INVALID_SCALE" | INVALID_PERIOD_DATE => "INVALID_PERIOD_DATE"
  | INVALID_PERIOD_STRUCTURE => "INVALID_PERIOD_STRUCTURE" | EMPTY_FACT_VALUE => "EMPTY_FACT_VALUE" | UNPARSEABLE_FACT_VALUE => "UNPARSEABLE_FACT_VALUE"
  | NONFINITE_FACT_VALUE => "NONFINITE_FACT_VALUE" | UNKNOWN_FORMAT => "UNKNOWN_FORMAT" | INCONSISTENT_DUPLICATE => "INCONSISTENT_DUPLICATE"
  | DIVERGENT_ACCESSION_CONTENT => "DIVERGENT_ACCESSION_CONTENT"
  end.

(** the exceptions [except IngestError] catches *)
Definition reason_of (e : ingest_error) : option reason_code :=
  match e with Ingest code => Some code | Divergent _ => Some DIVERGENT_ACCESSION_CONTENT | _ => None end.

(** what a job parses and normalizes *)
Record rendering := Rendering {
  rn_text : string; rn_sections : list section; rn_spans : list source_span; rn_tables : list extracted_table; rn_facts : list normalized_fact }.

(** a job: its ledger key, the document it stores, and what it makes of the bytes; [j_names_divergent]: the
    quarantine of a divergent accession names the recorded document *)
Record ingestion_job := Job {
  j_key : string; j_document : document_row; j_raw : string; j_parser_version : string; j_normalizer_version : string; j_version_id : string;
  j_names_divergent : bool; j_render : corpus → ingested rendering }.

Definition find_run (key : string) (c : corpus) : option run_row := snd <$> list_find (λ r, r_job_key r = key) (t_runs c).

(** [UPDATE ingestion_runs SET ... WHERE job_key = key] *)
Definition update_run (key : string) (f : run_row → run_row) (c : corpus) : corpus :=
  set_runs (map (λ r, if bool_decide (r_job_key r = key) then f r else r) (t_runs c)) c.

(** the ledger row is claimed, or the recorded outcome is replayed *)
Definition claim (j : ingestion_job) : ingesting (option outcome) :=
  c ← reads w_corpus;
  match find_run (j_key j) c with
  | None =>
      _ ← writes (λ w, set_corpus (set_runs (t_runs (w_corpus w) ++
        [RunRow (j_key j) (d_content_hash (j_document j)) (j_parser_version j) (j_normalizer_version j) RunRunning None None []]) (w_corpus w)) w);
      mret None
  | Some row =>
      if bool_decide (r_status row = RunRunning) then raise (Escapes "RuntimeError") else mret (Some (_noop_outcome (j_key j) row))
  end.

Definition _record_quarantine (j : ingestion_job) (quarantine_id : string) (document_id : option string) (reason diagnostic : string) : ingesting unit :=
  let d := j_document j in
  _ ← insert (λ c, [(clean (d_accession d) && clean (d_source_url d) && clean diagnostic, "DataError"); (bool_decide (quarantine_id ∉ q_id <$> t_quarantine c), "UniqueViolation")]%string)
        (add_quarantine (QuarantineRow quarantine_id (d_accession d) (d_source_url d) (d_content_hash d) reason diagnostic (j_key j)));
  writes (λ w, set_corpus (update_run (j_key j) (λ r, RunRow (r_job_key r) (r_source_hash r) (r_parser_version r) (r_normalizer_version r) RunQuarantined document_id
    (r_version_id r) [("reason_code", StrJ reason); ("diagnostic", StrJ diagnostic)]%string) (w_corpus w)) w).

Definition span_row_of (version : string) (s : source_span) : span_row := SpanRow (sp_id s) version (sp_section_id s) (sp_start s) (sp_end s) (sp_text_hash s).

Definition counts (r : rendering) : list (string * pyjson) :=
  [("sections", IntJ (Z.of_nat (length (rn_sections r)))); ("spans", IntJ (Z.of_nat (length (rn_spans r))));
   ("tables", IntJ (Z.of_nat (length (rn_tables r)))); ("facts", IntJ (Z.of_nat (length (rn_facts r))))]%string.

(** everything a parsed document leaves; [now] is the transaction's clock *)
Definition persist (j : ingestion_job) (now : Z) (r : rendering) : ingesting outcome :=
  let version := j_version_id j in
  let document_id := d_id (j_document j) in
  let text_key := canonical_text_address (rn_text r) in
  _ ← put text_key (encode_utf8 (rn_text r));
  let row := VersionRow version document_id (j_parser_version j) (j_normalizer_version j) "parsed" text_key now in
  _ ← insert (version_checks row) (add_version row);
  _ ← for_loop (λ s, insert (section_checks version s) (add_sections [(version, s)])) (rn_sections r);
  _ ← for_loop (λ s, insert (span_checks (span_row_of version s)) (add_spans [span_row_of version s])) (rn_spans r);
  _ ← for_loop (λ t, insert (table_checks version t) (add_tables [(version, t)])) (rn_tables r);
  _ ← for_loop (λ f, insert (fact_checks f) (add_facts [f])) (rn_facts r);
  _ ← writes (λ w, set_corpus (update_run (j_key j) (λ x, RunRow (r_job_key x) (r_source_hash x) (r_parser_version x) (r_normalizer_version x) RunSucceeded (Some document_id)
        (Some version) (counts r)) (w_corpus w)) w);
  mret (Outcome OutcomeSucceeded (j_key j) (Some document_id) (Some version) (Z.of_nat (length (rn_sections r))) (Z.of_nat (length (rn_spans r)))
    (Z.of_nat (length (rn_tables r))) (Z.of_nat (length (rn_facts r))) None None).

Section jobs.
Context (feed : tokenizer) (diagnostic_of : ingest_error → string).

(** [except IngestError]; any other exception fails the job *)
Definition fail_closed (j : ingestion_job) (quarantine_id : string) (document_id : option string) (e : ingest_error) : ingesting outcome :=
  match reason_of e with
  | None => raise e
  | Some code =>
      let document_id := match e with Divergent existing => if j_names_divergent j then Some existing else document_id | _ => document_id end in
      _ ← _record_quarantine j quarantine_id document_id (reason_name code) (diagnostic_of e);
      mret (Outcome OutcomeQuarantined (j_key j) document_id None 0 0 0 0 (Some (reason_name code)) (Some (diagnostic_of e)))
  end.

Definition run_job (j : ingestion_job) (now : Z) (quarantine_id : string) : ingesting outcome :=
  atomically
    (claimed ← claim j;
     match claimed with
     | Some recorded => mret recorded
     | None =>
         stored ← attempt (store_raw_document (j_document j) (j_raw j));
         match stored with
         | Err e => fail_closed j quarantine_id None e
         | Ok _ =>
             c ← reads w_corpus;
             match j_render j c with
             | Err e => fail_closed j quarantine_id (Some (d_id (j_document j))) e
             | Ok r => persist j now r
             end
         end
     end).

(** * [ingest_filing] *)

Record filing := Filing {
  f_entity_id : string; f_accession : string; f_source_url : string; f_raw : string; f_published_at : Z; f_form : option string; f_filed_at : option Z;
  f_period_start : option date; f_period_end : option date; f_mime_type : string }.

Definition filing_job (f : filing) : ingested ingestion_job :=
  let '(content_hash, storage_key) := content_address (f_raw f) in
  key ← job_key content_hash PARSER_VERSION NORMALIZER_VERSION (f_entity_id f) (f_accession f);
  let document_id := document_id_for_accession (f_accession f) in
  let version_id := version_id_for document_id content_hash PARSER_VERSION NORMALIZER_VERSION in
  Ok (Job key
        (DocumentRow document_id (f_entity_id f) (f_accession f) (f_form f) (f_source_url f) content_hash storage_key (f_mime_type f) (f_published_at f) (f_filed_at f)
          (f_period_start f) (f_period_end f))
        (f_raw f) PARSER_VERSION NORMALIZER_VERSION version_id true
        (λ c,
           parsed ← parse_filing feed (f_raw f) (Some version_id) (Some content_hash);
           let prior := _prior_canonical_facts (f_entity_id f) (f_published_at f) c in
           facts ← normalize_facts parsed (f_entity_id f) version_id prior;
           Ok (Rendering (pd_text parsed) (pd_sections parsed) (pd_spans parsed) (pd_tables parsed) facts))).

Definition ingest_filing (f : filing) (now : Z) (quarantine_id : string) : ingesting outcome :=
  j ← pure (filing_job f); run_job j now quarantine_id.

(** * [ingest_company_facts] *)

(** [fetched_at]: whether it has a time zone, its UTC day and its instant *)
Record snapshot_fetch := SnapshotFetch { s_cik : string; s_raw : string; s_aware : bool; s_day : date; s_at : Z; s_source_url : option string }.

Definition company_facts_url (cik : string) : string := ("https://data.sec.gov/api/xbrl/companyfacts/CIK" +:+ cik +:+ ".json")%string.

Definition snapshot_job (s : snapshot_fetch) : ingested ingestion_job :=
  cik ← cik10 (s_cik s);
  entity_id ← map_err (λ _, Escapes "ValueError") (entity_id_for_cik cik);
  let '(content_hash, storage_key) := content_address (s_raw s) in
  accession ← company_facts_accession cik (s_aware s) (s_day s) content_hash;
  let url := default (company_facts_url cik) (s_source_url s) in
  key ← job_key content_hash COMPANY_FACTS_PARSER_VERSION COMPANY_FACTS_NORMALIZER_VERSION entity_id accession;
  let document_id := document_id_for_accession accession in
  let version_id := version_id_for document_id content_hash COMPANY_FACTS_PARSER_VERSION COMPANY_FACTS_NORMALIZER_VERSION in
  Ok (Job key (DocumentRow document_id entity_id accession (Some COMPANY_FACTS_FORM) url content_hash storage_key COMPANY_FACTS_MIME_TYPE (s_at s) None None None)
        (s_raw s) COMPANY_FACTS_PARSER_VERSION COMPANY_FACTS_NORMALIZER_VERSION version_id false
        (λ _,
           parsed ← parse_company_facts (s_raw s) (Some version_id) (Some content_hash);
           facts ← normalize_company_facts parsed entity_id version_id;
           Ok (Rendering (pf_text parsed) (pf_sections parsed) (pf_spans parsed) [] facts))).

Definition ingest_company_facts (s : snapshot_fetch) (now : Z) (quarantine_id : string) : ingesting outcome :=
  j ← pure (snapshot_job s); run_job j now quarantine_id.
End jobs.

(** * Corpus versions *)

Definition create_corpus_version (id label : string) (document_version_ids : list string) : ingesting unit :=
  atomically
    (_ ← insert (λ c, [(clean label, "DataError"); (bool_decide (id ∉ c_id <$> t_corpora c), "UniqueViolation")]%string)
           (λ c, set_corpora (t_corpora c ++ [CorpusRow id label DraftCorpus false None]) (t_members c) c);
     for_loop (λ version, insert (λ c, [(bool_decide ((id, version) ∉ t_members c), "UniqueViolation"); (version_exists version c, "ForeignKeyViolation")]%string)
       (λ c, set_corpora (t_corpora c) (t_members c ++ [(id, version)]) c)) document_version_ids).

(** [UPDATE ... WHERE is_active], on the rows a statement sees *)
Definition demote (sees : corpus_row → bool) (l : list corpus_row) : list corpus_row :=
  map (λ r, if c_is_active r && sees r then CorpusRow (c_id r) (c_label r) SupersededCorpus false (c_published_at r) else r) l.

Definition is_draft (id : string) (r : corpus_row) : bool := bool_decide (c_id r = id) && bool_decide (c_status r = DraftCorpus).

Definition promote (now : Z) (id : string) (l : list corpus_row) : list corpus_row :=
  map (λ r, if is_draft id r then CorpusRow (c_id r) (c_label r) ActiveCorpus true (Some now) else r) l.

Definition on_corpora (f : list corpus_row → list corpus_row) (w : world) : world :=
  set_corpus (set_corpora (f (t_corpora (w_corpus w))) (t_members (w_corpus w)) (w_corpus w)) w.

(** another publisher's transaction, from its demotion to its commit *)
Definition rival_publishes (now : Z) (l : list corpus_row) (id : string) : list corpus_row :=
  if existsb (is_draft id) l then promote now id (demote (λ _, true) l) else l.

(** [rivals] commit between what the demotion sees and the promotion: a row they
    superseded is not demoted again, one they activated is not seen *)
Definition publish_corpus_version (rivals : list string) (now : Z) (id : string) : ingesting unit :=
  seen ← reads (λ w, c_id <$> filter (λ r, c_is_active r = true) (t_corpora (w_corpus w)));
  _ ← writes (on_corpora (λ l, foldl (rival_publishes now) l rivals));
  atomically
    (_ ← writes (on_corpora (demote (λ r, bool_decide (c_id r ∈ seen))));
     c ← reads w_corpus;
     let promoted := promote now id (t_corpora c) in
     _ ← raise_if (1 <? Z.of_nat (length (filter (λ r, c_is_active r = true) promoted))) (Escapes "PublishConflictError");
     _ ← raise_if (negb (existsb (is_draft id) (t_corpora c))) (Escapes "ValueError");
     writes (on_corpora (promote now id))).

Definition active_corpus_version (c : corpus) : option string := c_id <$> head (filter (λ r, c_is_active r = true) (t_corpora c)).

(** * Statements, as what they leave *)

Lemma then_Ok {A B} (m : ingesting A) (f : A → ingesting B) w b w' : (m ≫= f) w = (Ok b, w') → ∃ a w1, m w = (Ok a, w1) ∧ f a w1 = (Ok b, w').
Proof. unfold mbind, eff_bind. destruct (m w) as [[a|e] w1]; [|done]. eauto. Qed.

Lemma insert_Ok checks add w u w' :
  insert checks add w = (Ok u, w') → violation (checks (w_corpus w)) = None ∧ w' = set_corpus (add (w_corpus w)) w.
Proof. unfold insert, reads, writes, raise, mbind, eff_bind. cbn. destruct (violation _) as [name|] eqn:Hv; intros [= <- <-]; by split. Qed.

(** rows inserted one after the other are appended *)
Lemma inserts_Ok {A R} (checks : A → corpus → list (bool * string)) (add : list R → corpus → corpus) (row : A → R) l w u w' :
  (∀ c, add [] c = c) → (∀ l1 l2 c, add l2 (add l1 c) = add (l1 ++ l2) c) →
  for_loop (λ x, insert (checks x) (add [row x])) l w = (Ok u, w') → w' = set_corpus (add (row <$> l) (w_corpus w)) w.
Proof.
  intros Hnil Happ. revert w. induction l as [|x l IH]; intros w; cbn [for_loop].
  - intros [= <- <-]. cbn. rewrite Hnil. by destruct w.
  - intros ([] & w1 & [_ ->]%insert_Ok & ->%IH)%then_Ok. cbn. by rewrite Happ.
Qed.

Lemma put_Ok key data w u w' :
  put key data w = (Ok u, w') → w' = World (w_corpus w) (<[key := data]> (w_blobs w)) ∧ (w_blobs w !! key = None ∨ w_blobs w !! key = Some data).
Proof.
  unfold put, reads, writes, raise, mbind, eff_bind. cbn. destruct (w_blobs w !! key) as [old|] eqn:Hk; [|intros [= <- <-]; by split; [|left]].
  case_bool_decide as Ho; intros [= <- <-]. subst old. split; [|by right]. rewrite insert_id by done. by destruct w.
Qed.

(** the blobs a call finds, it leaves *)
Definition grows {A} (m : ingesting A) : Prop := ∀ w, w_blobs w ⊆ w_blobs (snd (m w)).

Create HintDb grows.

Lemma grows_ret {A} (a : A) : grows (mret a). Proof. by intros w. Qed.
Lemma grows_raise {A} e : grows (raise (A := A) e). Proof. by intros w. Qed.
Lemma grows_reads {A} (f : world → A) : grows (reads f). Proof. by intros w. Qed.
Lemma grows_pure {A} (r : ingested A) : grows (pure r). Proof. by intros w. Qed.
Lemma grows_raise_if b e : grows (raise_if b e). Proof. by destruct b; intros w. Qed.
Lemma grows_writes f : (∀ w, w_blobs (f w) = w_blobs w) → grows (writes f). Proof. intros H w. cbn. by rewrite H. Qed.
Lemma grows_bind {A B} (m : ingesting A) (f : A → ingesting B) : grows m → (∀ a, grows (f a)) → grows (m ≫= f).
Proof. intros Hm Hf w. unfold mbind, eff_bind. specialize (Hm w). destruct (m w) as [[a|e] w1]; cbn in *; [|done]. etrans; [done|]. apply Hf. Qed.
Lemma grows_insert checks add : grows (insert checks add).
Proof. apply grows_bind; [apply grows_reads|]. intros c. destruct (violation _); [apply grows_raise|by apply grows_writes]. Qed.
Lemma grows_loop {A} (f : A → ingesting unit) l : (∀ x, grows (f x)) → grows (for_loop f l).
Proof. intros H. induction l; cbn; [apply grows_ret|]. by apply grows_bind. Qed.
Lemma grows_put key data : grows (put key data).
Proof.
  intros w. unfold put, reads, writes, raise, mbind, eff_bind. cbn. destruct (w_blobs w !! key) as [old|] eqn:Hk; [by case_bool_decide|]. cbn. by apply insert_subseteq.
Qed.
Lemma grows_attempt {A} (m : ingesting A) : grows m → grows (attempt m).
Proof. intros H w. unfold attempt. specialize (H w). by destruct (m w). Qed.
Lemma grows_atomically {A} (m : ingesting A) : grows m → grows (atomically m).
Proof. intros H w. unfold atomically. specialize (H w). by destruct (m w) as [[]]. Qed.

#[export] Hint Resolve grows_ret grows_raise grows_reads grows_pure grows_raise_if grows_insert grows_put : grows.
#[export] Hint Extern 1 (grows (_ ≫= _)) => (apply grows_bind; [|intros ?]) : grows.
#[export] Hint Extern 1 (grows (writes _)) => (apply grows_writes; done) : grows.
#[export] Hint Extern 1 (grows (for_loop _ _)) => (apply grows_loop; intros ?) : grows.
#[export] Hint Extern 1 (grows (attempt _)) => apply grows_attempt : grows.
#[export] Hint Extern 2 (grows (match ?x with _ => _ end)) => destruct x : grows.

Lemma grows_store d raw : grows (store_raw_document d raw).
Proof. unfold store_raw_document. auto 10 with grows. Qed.

Lemma grows_persist j now r : grows (persist j now r).
Proof. unfold persist. cbv zeta. auto 20 with grows. Qed.

Lemma grows_fail diagnostic_of j qid doc e : grows (fail_closed diagnostic_of j qid doc e).
Proof. unfold fail_closed. destruct (reason_of e); [|apply grows_raise]. cbv zeta. unfold _record_quarantine. cbv zeta. auto 20 with grows. Qed.
#[export] Hint Resolve grows_store grows_persist grows_fail : grows.

Lemma grows_job diagnostic_of j now qid : grows (run_job diagnostic_of j now qid).
Proof. apply grows_atomically. unfold claim. auto 20 with grows. Qed.

Lemma atomically_Err {A} (m : ingesting A) w e w' : atomically m w = (Err e, w') → w_corpus w' = w_corpus w.
Proof. unfold atomically. destruct (m w) as [[a|e'] w1]; [done|]. by intros [= _ <-]. Qed.

Lemma atomically_Ok {A} (m : ingesting A) w a w' : atomically m w = (Ok a, w') → m w = (Ok a, w').
Proof. unfold atomically. by destruct (m w) as [[a'|e'] w1]; intros [= <- <-]. Qed.

(** * What a job leaves *)

(** the ledger's row of a job *)
Definition ledger_row (j : ingestion_job) (status : ledger_status) (document version : option string) (result : list (string * pyjson)) : run_row :=
  RunRow (j_key j) (d_content_hash (j_document j)) (j_parser_version j) (j_normalizer_version j) status document version result.

Definition refused_row (j : ingestion_job) (document : option string) (reason diagnostic : string) : run_row :=
  ledger_row j RunQuarantined document None [("reason_code", StrJ reason); ("diagnostic", StrJ diagnostic)]%string.

Definition succeeded_row (j : ingestion_job) (r : rendering) : run_row :=
  ledger_row j RunSucceeded (Some (d_id (j_document j))) (Some (j_version_id j)) (counts r).

Definition new_version (j : ingestion_job) (now : Z) (r : rendering) : version_row :=
  VersionRow (j_version_id j) (d_id (j_document j)) (j_parser_version j) (j_normalizer_version j) "parsed" (canonical_text_address (rn_text r)) now.

(** the rows of a parsed document *)
Definition persisted (j : ingestion_job) (now : Z) (r : rendering) (c : corpus) : corpus :=
  add_facts (rn_facts r) (add_tables (pair (j_version_id j) <$> rn_tables r) (add_spans (span_row_of (j_version_id j) <$> rn_spans r)
    (add_sections (pair (j_version_id j) <$> rn_sections r) (add_version (new_version j now r) c)))).

(** the document is there, as it was recorded or as the job records it *)
Record stored (j : ingestion_job) (w : world) (c : corpus) (blobs : gmap string string) : Prop := Stored {
  st_documents : c = w_corpus w ∨ c = add_document (j_document j) (w_corpus w);
  st_document : ∃ d, d ∈ t_documents c ∧ d_accession d = d_accession (j_document j) ∧ d_content_hash d = d_content_hash (j_document j);
  st_raw : blobs !! d_storage_key (j_document j) = Some (j_raw j);
  st_blobs : w_blobs w ⊆ blobs }.

Lemma find_run_None key c : find_run key c = None → key ∉ r_job_key <$> t_runs c.
Proof.
  unfold find_run. destruct (list_find _ _) as [[i r]|] eqn:Hf; [done|]. intros _ (r & -> & Hin)%list_elem_of_fmap. apply list_find_None in Hf. rewrite Forall_forall in Hf. by apply (Hf r).
Qed.

Lemma find_run_Some key c row : find_run key c = Some row → row ∈ t_runs c ∧ r_job_key row = key.
Proof.
  unfold find_run. destruct (list_find _ _) as [[i r]|] eqn:Hf; [|done]. intros [= <-]. apply list_find_Some in Hf as (Hi & ? & _). split; [by apply list_elem_of_lookup_2 in Hi|done].
Qed.

Lemma find_run_elem c row : NoDup (r_job_key <$> t_runs c) → row ∈ t_runs c → find_run (r_job_key row) c = Some row.
Proof.
  intros Hnd Hin. destruct (find_run (r_job_key row) c) as [r|] eqn:Hf.
  - apply find_run_Some in Hf as [Hr Hk]. f_equal. apply list_elem_of_lookup in Hin as [i Hi]. apply list_elem_of_lookup in Hr as [k Hk'].
    assert (i = k) as -> by (eapply NoDup_lookup; [exact Hnd|rewrite list_lookup_fmap, Hi; done|rewrite list_lookup_fmap, Hk'; cbn; by rewrite Hk]). rewrite Hi in Hk'. by injection Hk'.
  - apply find_run_None in Hf. destruct Hf. by apply list_elem_of_fmap_2.
Qed.

Lemma update_claimed key f l row : key ∉ r_job_key <$> l → r_job_key row = key → map (λ r, if bool_decide (r_job_key r = key) then f r else r) (l ++ [row]) = l ++ [f row].
Proof.
  intros Hnin Hk. induction l as [|r l IH]; cbn; [by rewrite bool_decide_true|]. cbn in Hnin. apply not_elem_of_cons in Hnin as [Hne Hnin]. rewrite bool_decide_false by congruence. by rewrite IH.
Qed.

Lemma claim_Ok j w o w' :
  claim j w = (Ok o, w') →
  (∃ row, find_run (j_key j) (w_corpus w) = Some row ∧ r_status row ≠ RunRunning ∧ o = Some (_noop_outcome (j_key j) row) ∧ w' = w) ∨
  (find_run (j_key j) (w_corpus w) = None ∧ o = None ∧ w' = set_corpus (set_runs (t_runs (w_corpus w) ++ [ledger_row j RunRunning None None []]) (w_corpus w)) w).
Proof.
  unfold claim, reads, writes, raise, mbind, eff_bind. cbn. destruct (find_run _ _) as [row|]; [|intros [= <- <-]; by right].
  case_bool_decide as Hs; intros [= <- <-]. left. by exists row.
Qed.

Lemma store_Ok j w b w' :
  store_raw_document (j_document j) (j_raw j) w = (Ok b, w') → stored j w (w_corpus w') (w_blobs w').
Proof.
  unfold store_raw_document. intros ([] & w1 & [-> Hold]%put_Ok & H)%then_Ok. cbn in H. unfold mbind at 1, eff_bind, reads in H. cbn [w_corpus] in H.
  destruct (list_find _ _) as [[i d]|] eqn:Hf.
  - apply list_find_Some in Hf as (Hi & Ha & _). case_bool_decide as Hh; [|done]. injection H as _ <-. split; cbn; [by left| |by rewrite lookup_insert_eq|].
    + exists d. split; [by apply list_elem_of_lookup_2 in Hi|done].
    + destruct Hold as [Hold|Hold]; [by apply insert_subseteq|by rewrite insert_id].
  - apply then_Ok in H as ([] & w2 & [_ ->]%insert_Ok & [= _ <-]). split; cbn; [by right| |by rewrite lookup_insert_eq|].
    + exists (j_document j). split; [apply elem_of_app; right; by left|done].
    + destruct Hold as [Hold|Hold]; [by apply insert_subseteq|by rewrite insert_id].
Qed.

Lemma store_Err d raw w e w' : store_raw_document d raw w = (Err e, w') → w_corpus w' = w_corpus w.
Proof.
  unfold store_raw_document, mbind, eff_bind. destruct (put _ raw w) as [[[]|e'] w1] eqn:Hp.
  - apply put_Ok in Hp as [-> _]. unfold reads. cbn. destruct (list_find _ _) as [[i x]|]; [by case_bool_decide; intros [= _ <-]|].
    unfold insert, mbind, eff_bind, reads, writes, raise. cbn [fst snd]. by destruct (violation _); intros [= _ <-].
  - intros [= _ <-]. unfold put, reads, writes, raise, mbind, eff_bind in Hp. cbn in Hp. repeat case_match; try done; injection Hp as _ <-; done.
Qed.

(** the claimed row is the last *)
Definition claimed (j : ingestion_job) (l : list run_row) (c : corpus) : Prop :=
  t_runs c = l ++ [ledger_row j RunRunning None None []] ∧ j_key j ∉ r_job_key <$> l.

(** appending to one table, nothing or twice *)
Ltac solve_append := first [by intros []; unfold add_sections, add_spans, add_tables, add_facts; cbn; rewrite app_nil_r|by intros ? ? []; unfold add_sections, add_spans, add_tables, add_facts; cbn; rewrite (assoc_L (++))].

Lemma persist_Ok j now r l w o w' :
  persist j now r w = (Ok o, w') → claimed j l (w_corpus w) →
  violation (version_checks (new_version j now r) (w_corpus w)) = None ∧
  o = Outcome OutcomeSucceeded (j_key j) (Some (d_id (j_document j))) (Some (j_version_id j)) (Z.of_nat (length (rn_sections r))) (Z.of_nat (length (rn_spans r)))
        (Z.of_nat (length (rn_tables r))) (Z.of_nat (length (rn_facts r))) None None ∧
  w_corpus w' = set_runs (l ++ [succeeded_row j r]) (persisted j now r (w_corpus w)) ∧
  w_blobs w' !! canonical_text_address (rn_text r) = Some (encode_utf8 (rn_text r)) ∧ w_blobs w ⊆ w_blobs w'.
Proof.
  intros H [Hruns Hnin]. pose proof (grows_persist j now r w) as Hg. rewrite H in Hg. cbn [snd] in Hg. unfold persist in H. cbv zeta in H.
  apply then_Ok in H as ([] & w1 & [-> _]%put_Ok & H). apply then_Ok in H as ([] & w2 & [Hv ->]%insert_Ok & H).
  apply then_Ok in H as ([] & w3 & Hs & H). apply (inserts_Ok (section_checks (j_version_id j)) add_sections (pair (j_version_id j))) in Hs as ->; [|solve_append..].
  apply then_Ok in H as ([] & w4 & Hs & H). apply (inserts_Ok (λ s, span_checks (span_row_of (j_version_id j) s)) add_spans (span_row_of (j_version_id j))) in Hs as ->; [|solve_append..].
  apply then_Ok in H as ([] & w5 & Hs & H). apply (inserts_Ok (table_checks (j_version_id j)) add_tables (pair (j_version_id j))) in Hs as ->; [|solve_append..].
  apply then_Ok in H as ([] & w6 & Hs & H). apply (inserts_Ok fact_checks add_facts id) in Hs as ->; [|solve_append..].
  injection H as <- <-. split; [exact Hv|]. split; [done|]. split; [|split; [apply lookup_insert_eq|exact Hg]].
  cbn. unfold update_run. cbn [t_runs persisted add_facts add_tables add_spans add_sections add_version]. rewrite Hruns, update_claimed by done. by rewrite list_fmap_id.
Qed.

Lemma fail_Ok diagnostic_of j qid doc e l w o w' :
  fail_closed diagnostic_of j qid doc e w = (Ok o, w') → claimed j l (w_corpus w) →
  ∃ code document, reason_of e = Some code ∧
    o = Outcome OutcomeQuarantined (j_key j) document None 0 0 0 0 (Some (reason_name code)) (Some (diagnostic_of e)) ∧
    w' = set_corpus (set_runs (l ++ [refused_row j document (reason_name code) (diagnostic_of e)])
           (add_quarantine (QuarantineRow qid (d_accession (j_document j)) (d_source_url (j_document j)) (d_content_hash (j_document j)) (reason_name code) (diagnostic_of e) (j_key j)) (w_corpus w))) w.
Proof.
  intros H [Hruns Hnin]. unfold fail_closed in H. destruct (reason_of e) as [code|]; [|done]. cbv zeta in H. set (document := match e with Divergent existing => _ | _ => _ end) in H.
  exists code, document. split; [done|]. apply then_Ok in H as ([] & w1 & Hq & [= <- <-]). split; [done|]. unfold _record_quarantine in Hq. cbv zeta in Hq.
  apply then_Ok in Hq as ([] & w2 & [_ ->]%insert_Ok & Hq). injection Hq as <-. cbn. unfold update_run. cbn [t_runs add_quarantine]. rewrite Hruns, update_claimed by done. done.
Qed.

(** A job that returns replayed its recorded outcome, refused its source, or stored
    and parsed it. *)
Lemma run_job_Ok diagnostic_of j now qid w o w' :
  run_job diagnostic_of j now qid w = (Ok o, w') →
  (∃ row, find_run (j_key j) (w_corpus w) = Some row ∧ r_status row ≠ RunRunning ∧ o = _noop_outcome (j_key j) row ∧ w' = w) ∨
  find_run (j_key j) (w_corpus w) = None ∧
  ((∃ c document code e q, (c = w_corpus w ∨ stored j w c (w_blobs w')) ∧ reason_of e = Some code ∧
      o = Outcome OutcomeQuarantined (j_key j) document None 0 0 0 0 (Some (reason_name code)) (Some (diagnostic_of e)) ∧
      w_corpus w' = set_runs (t_runs (w_corpus w) ++ [refused_row j document (reason_name code) (diagnostic_of e)]) (add_quarantine q c)) ∨
   (∃ c r c', stored j w c (w_blobs w') ∧ j_render j c' = Ok r ∧ violation (version_checks (new_version j now r) c) = None ∧
      o = Outcome OutcomeSucceeded (j_key j) (Some (d_id (j_document j))) (Some (j_version_id j)) (Z.of_nat (length (rn_sections r))) (Z.of_nat (length (rn_spans r)))
            (Z.of_nat (length (rn_tables r))) (Z.of_nat (length (rn_facts r))) None None ∧
      w_corpus w' = set_runs (t_runs (w_corpus w) ++ [succeeded_row j r]) (persisted j now r c) ∧
      w_blobs w' !! canonical_text_address (rn_text r) = Some (encode_utf8 (rn_text r)))).
Proof.
  unfold run_job, atomically. set (m := _ ≫= _). destruct (m w) as [[o'|e'] w1] eqn:Hm; intros [= <- <-]; unfold m in Hm.
  apply then_Ok in Hm as (cl & w2 & [(row & Hf & Hs & -> & ->)|(Hf & -> & ->)]%claim_Ok & Hm).
  { injection Hm as <- <-. left. by exists row. }
  right. split; [done|]. pose proof (find_run_None _ _ Hf) as Hnin.
  set (w2 := set_corpus _ _) in *. assert (claimed j (t_runs (w_corpus w)) (w_corpus w2)) as Hcl by done.
  apply then_Ok in Hm as (st & w3 & Hst & Hm). unfold attempt in Hst. destruct (store_raw_document (j_document j) (j_raw j) w2) as [s w4] eqn:Hstore. injection Hst as <- ->.
  destruct s as [b|e].
  - pose proof (store_Ok _ _ _ _ Hstore) as [Hdocs Hdoc Hraw Hblobs].
    assert (∀ blobs, w_blobs w3 ⊆ blobs → ∃ c, w_corpus w3 = set_runs (t_runs (w_corpus w2)) c ∧ stored j w c blobs) as Hc.
    { intros blobs Hsub. exists (set_runs (t_runs (w_corpus w)) (w_corpus w3)). split; [destruct Hdocs as [->| ->]; by destruct (w_corpus w)|].
      split; [destruct Hdocs as [->| ->]; [left|right]; by destruct (w_corpus w)|exact Hdoc|by eapply lookup_weaken|by etrans]. }
    assert (claimed j (t_runs (w_corpus w)) (w_corpus w3)) as Hcl3 by (destruct Hdocs as [->| ->]; done).
    unfold mbind at 1, eff_bind, reads in Hm. destruct (j_render j (w_corpus w3)) as [r|e] eqn:Hr.
    + destruct (persist_Ok _ _ _ _ _ _ _ Hm Hcl3) as (Hv & -> & Hcw & Htext & Hsub). destruct (Hc _ Hsub) as (c & Hcw3 & Hstd). right. exists c, r, (w_corpus w3). rewrite Hcw3 in Hv, Hcw. by split.
    + destruct (fail_Ok _ _ _ _ _ _ _ _ _ Hm Hcl3) as (code & document & Hcode & -> & ->). destruct (Hc (w_blobs w3)) as (c & Hcw3 & Hstd); [done|].
      left. exists c, document, code, e. eexists. split; [by right|]. split; [done|]. split; [done|]. cbn. by rewrite Hcw3.
  - pose proof (store_Err _ _ _ _ _ Hstore) as Hw3. destruct (fail_Ok _ _ _ _ _ _ _ _ _ Hm ltac:(by rewrite Hw3)) as (code & document & Hcode & -> & ->).
    left. exists (w_corpus w), document, code, e. eexists. split; [by left|]. split; [done|]. split; [done|]. cbn. by rewrite Hw3.
Qed.

(** * The corpus is citable *)

Section corpus.
Context (feed : tokenizer) (diagnostic_of : ingest_error → string).

(** [text] is the canonical text of [raw], under one of the two parsers *)
Definition renders (raw text : string) : Prop := ∃ seed hash,
  (∃ d, parse_filing feed raw seed hash = Ok d ∧ pd_text d = text) ∨ (∃ p, parse_company_facts raw seed hash = Ok p ∧ pf_text p = text).

(** a span of a text, under its hash *)
Definition hashed (text : string) (start stop : Z) (hash : string) : Prop :=
  0 ≤ start < stop ∧ stop ≤ Z.of_nat (String.length text) ∧ hash = text_hash (slice text start stop).

(** what both pipelines promise of their jobs *)
Record genuine (j : ingestion_job) : Prop := Genuine {
  ge_address : content_address (j_raw j) = (d_content_hash (j_document j), d_storage_key (j_document j));
  ge_id : d_id (j_document j) = document_id_for_accession (d_accession (j_document j));
  ge_text : ∀ c r, j_render j c = Ok r → renders (j_raw j) (rn_text r);
  ge_spans : ∀ c r s, j_render j c = Ok r → s ∈ rn_spans r → hashed (rn_text r) (sp_start s) (sp_end s) (sp_text_hash s);
  ge_facts : ∀ c r f, j_render j c = Ok r → f ∈ rn_facts r → nf_document_version_id f = j_version_id j ∧ nf_source_span_id f ∈ sp_id <$> rn_spans r }.

Lemma facts_of_span entity_id version_id restates drafts f (ids : list string) :
  f ∈ facts_of entity_id version_id restates drafts → (∀ d, d ∈ drafts → dr_span_id d ∈ ids) → nf_document_version_id f = version_id ∧ nf_source_span_id f ∈ ids.
Proof. intros (i & d & Hi & ->)%facts_of_elem H. split; [done|]. cbn. apply H. by apply list_elem_of_lookup_2 in Hi. Qed.

Lemma filing_genuine f j : filing_job feed f = Ok j → genuine j.
Proof.
  unfold filing_job. destruct (content_address (f_raw f)) as [hash key] eqn:Ha. destruct (job_key _ _ _ _ _) as [k|e]; cbn [mbind result_bind]; [|done]. cbv zeta.
  set (version := version_id_for _ _ _ _). intros [= <-]. assert (∀ c r, (parsed ← parse_filing feed (f_raw f) (Some version) (Some hash);
      facts ← normalize_facts parsed (f_entity_id f) version (_prior_canonical_facts (f_entity_id f) (f_published_at f) c);
      Ok (Rendering (pd_text parsed) (pd_sections parsed) (pd_spans parsed) (pd_tables parsed) facts)) = Ok r →
      ∃ d facts ordered, parse_filing feed (f_raw f) (Some version) (Some hash) = Ok d ∧ filing_of version ordered d ∧
        normalize_facts d (f_entity_id f) version (_prior_canonical_facts (f_entity_id f) (f_published_at f) c) = Ok facts ∧
        r = Rendering (pd_text d) (pd_sections d) (pd_spans d) (pd_tables d) facts) as Hr.
  { intros c r (d & Hd & (facts & Hf & [= <-])%bind_Ok)%bind_Ok. pose proof Hd as Hd'. unfold parse_filing in Hd'. cbv zeta in Hd'. apply bind_Ok in Hd' as (html & _ & (p & Hp & Hb)%bind_Ok).
    pose proof (document_spec (default ("sha256:" +:+ sha256_hexdigest (f_raw f))%string (Some hash)) version p (run_located _ _ _ Hp)) as Hs. cbn [default option_map from_option] in Hb, Hs.
    unfold default, from_option, id in Hb, Hs. rewrite Hb in Hs. destruct Hs as [Hs _]. by exists d, facts, (secs_of (ps_body p)). }
  split; cbn [j_raw j_document d_content_hash d_storage_key d_id d_accession j_render j_version_id]; [done|done|..].
  - intros c r (d & facts & ordered & Hd & Hs & Hf & ->)%Hr. exists (Some version), (Some hash). left. by exists d.
  - intros c r s (d & facts & ordered & Hd & Hs & Hf & ->)%Hr Hin. cbn in *. pose proof (fi_spans _ _ _ Hs) as Hsp. rewrite Forall_forall in Hsp. destruct (Hsp s Hin) as [[] Ht Hh _ _ _]. split; [done|]. split; [done|]. by rewrite Hh, Ht.
  - intros c r x (d & facts & ordered & Hd & Hs & Hf & ->)%Hr Hin. cbn in *. unfold normalize_facts in Hf.
    pose proof (loop_spec (f_entity_id f) version (restates_of (_prior_canonical_facts (f_entity_id f) (f_published_at f) c)) (draft_of d) (pd_facts d)) as Hl. destruct (foldM _ _ _) as [st|e]; [|done].
    injection Hf as <-. destruct Hl as (drafts & Hdr & _ & Hout). rewrite Hout in Hin. eapply facts_of_span; [exact Hin|]. intros dr Hdrin. apply list_elem_of_lookup in Hdrin as [i Hi].
    destruct (Forall2_lookup_r _ _ _ _ _ Hdr Hi) as (fact & Hfi & Hdf). pose proof (fi_facts _ _ _ Hs) as Hfc. rewrite Forall_forall in Hfc. apply list_elem_of_lookup_2 in Hfi.
    destruct (Hfc fact Hfi) as ((s & Hin' & Hid & _) & _). unfold draft_of in Hdf. apply bind_Ok in Hdf as (cx & _ & (m & _ & (v & _ & ([[[pt pi] ps] pe] & _ & [= <-])%bind_Ok)%bind_Ok)%bind_Ok).
    cbn. rewrite Hid. by apply list_elem_of_fmap_2.
Qed.

Lemma snapshot_genuine s j : snapshot_job s = Ok j → genuine j.
Proof.
  unfold snapshot_job. intros (cik & _ & (entity & _ & H)%bind_Ok)%bind_Ok. destruct (content_address (s_raw s)) as [hash key] eqn:Ha.
  apply bind_Ok in H as (accession & _ & (k & _ & H)%bind_Ok). cbv zeta in H. set (version := version_id_for _ _ _ _) in H. injection H as <-.
  assert (∀ r, (parsed ← parse_company_facts (s_raw s) (Some version) (Some hash); facts ← normalize_company_facts parsed entity version;
      Ok (Rendering (pf_text parsed) (pf_sections parsed) (pf_spans parsed) [] facts)) = Ok r →
      ∃ p facts payload, parse_company_facts (s_raw s) (Some version) (Some hash) = Ok p ∧ snapshot_of version payload p ∧ normalize_company_facts p entity version = Ok facts ∧
        r = Rendering (pf_text p) (pf_sections p) (pf_spans p) [] facts) as Hr.
  { intros r (p & Hp & (facts & Hf & [= <-])%bind_Ok)%bind_Ok. destruct (parse_snapshot _ _ _ _ Hp) as (decoded & payload & _ & _ & _ & Hs). by exists p, facts, payload. }
  split; cbn [j_raw j_document d_content_hash d_storage_key d_id d_accession j_render j_version_id]; [done|done|..].
  - intros _ r (p & facts & payload & Hp & Hs & Hf & ->)%Hr. exists (Some version), (Some hash). right. by exists p.
  - intros _ r x (p & facts & payload & Hp & Hs & Hf & ->)%Hr Hin. cbn in *. apply list_elem_of_lookup in Hin as [i Hi]. destruct (Forall2_lookup_r _ _ _ _ _ (sn_spans _ _ _ Hs) Hi) as (e & _ & [Hb Hsl _ Hh _ _]).
    rewrite !Z.sub_0_r, Z.add_0_l in *. split; [lia|]. split; [lia|]. by rewrite Hh, Hsl.
  - intros _ r x (p & facts & payload & Hp & Hs & Hf & ->)%Hr Hin. cbn in *. unfold normalize_company_facts in Hf.
    pose proof (loop_spec entity version (λ _, None) draft_of_observation (pf_observations p)) as Hl. destruct (foldM _ _ _) as [st|e]; [|done].
    injection Hf as <-. destruct Hl as (drafts & Hdr & _ & Hout). rewrite Hout in Hin. eapply facts_of_span; [exact Hin|]. intros dr Hdrin. apply list_elem_of_lookup in Hdrin as [i Hi].
    destruct (Forall2_lookup_r _ _ _ _ _ Hdr Hi) as (o & Ho & Hdo). apply list_elem_of_lookup_2 in Ho. rewrite (sn_observations _ _ _ Hs) in Ho.
    destruct (observed_elem _ _ _ _ _ _ (sn_spans _ _ _ Hs) Ho) as (e & sp & _ & Hsp & _ & Hob). destruct (draft_backs _ _ _ _ Hob Hdo) as (-> & _). by apply list_elem_of_fmap_2.
Qed.

(** a version's spans are hashes of its stored text, which is the text of the stored
    bytes its document was recorded with *)
Definition version_cited (c : corpus) (blobs : gmap string string) (v : version_row) : Prop :=
  ∃ d raw text, d ∈ t_documents c ∧ d_id d = v_document_id v ∧ blobs !! d_storage_key d = Some raw ∧ d_content_hash d = (content_address raw).1 ∧
    renders raw text ∧ blobs !! v_text_key v = Some (encode_utf8 text) ∧
    ∀ s, s ∈ t_spans c → sr_version s = v_id v → hashed text (sr_start s) (sr_end s) (sr_text_hash s).

Definition active (l : list corpus_row) : list corpus_row := filter (λ r, c_is_active r = true) l.

(** at most one corpus version is active, and its status says so *)
Record published (l : list corpus_row) : Prop := Published {
  pb_one : (length (active l) ≤ 1)%nat;
  pb_status : Forall (λ r, c_is_active r = bool_decide (c_status r = ActiveCorpus)) l;
  pb_ids : NoDup (c_id <$> l) }.

Record citable (c : corpus) (blobs : gmap string string) : Prop := Citable {
  ct_documents : ∀ d, d ∈ t_documents c → d_id d = document_id_for_accession (d_accession d) ∧
    ∃ raw, blobs !! d_storage_key d = Some raw ∧ content_address raw = (d_content_hash d, d_storage_key d);
  ct_versions : ∀ v, v ∈ t_versions c → version_cited c blobs v;
  ct_spans : ∀ s, s ∈ t_spans c → sr_version s ∈ v_id <$> t_versions c;
  ct_facts : ∀ f, f ∈ t_facts c → ∃ s, s ∈ t_spans c ∧ sr_id s = nf_source_span_id f ∧ sr_version s = nf_document_version_id f;
  ct_runs : ∀ r, r ∈ t_runs c → r_status r ≠ RunRunning;
  ct_keys : NoDup (r_job_key <$> t_runs c);
  ct_corpora : published (t_corpora c) }.

Lemma citable_grows c blobs blobs' : citable c blobs → blobs ⊆ blobs' → citable c blobs'.
Proof.
  intros [Hd Hv Hs Hf Hr Hk Ha] Hsub. split; try done.
  - intros d Hin. destruct (Hd d Hin) as (? & raw & ? & ?). split; [done|]. exists raw. split; [by eapply lookup_weaken|done].
  - intros v Hin. destruct (Hv v Hin) as (d & raw & text & ? & ? & ? & ? & ? & ? & ?). exists d, raw, text. split_and!; try done; by eapply lookup_weaken.
Qed.

(** a document more *)
Lemma citable_stored j w c blobs : genuine j → citable (w_corpus w) (w_blobs w) → stored j w c blobs → citable c blobs.
Proof.
  intros Hj Hw [Hc _ Hraw Hsub]. pose proof (citable_grows _ _ _ Hw Hsub) as [Hd Hv Hs Hf Hr Hk Ha]. destruct Hc as [->| ->]; [by split|]. split; try done; cbn.
  - intros d [Hin| ->%list_elem_of_singleton]%elem_of_app; [by apply Hd|]. split; [by apply ge_id|]. exists (j_raw j). split; [done|by apply ge_address].
  - intros v Hin. destruct (Hv v Hin) as (d & raw & text & ? & H). exists d, raw, text. split; [apply elem_of_app; by left|done].
Qed.

(** a terminal ledger row more *)
Lemma citable_settled c blobs l row :
  citable c blobs → l = t_runs c → r_job_key row ∉ r_job_key <$> l → r_status row ≠ RunRunning → citable (set_runs (l ++ [row]) c) blobs.
Proof.
  intros [Hd Hv Hs Hf Hr Hk Ha] -> Hnin Hst. split; try done; cbn.
  - intros r [Hin| ->%list_elem_of_singleton]%elem_of_app; [by apply Hr|done].
  - rewrite fmap_app. apply NoDup_app. split; [done|]. split; [|apply NoDup_singleton]. intros k Hin ->%list_elem_of_singleton. done.
Qed.

Lemma citable_quarantined c blobs q : citable c blobs → citable (add_quarantine q c) blobs.
Proof. by intros []. Qed.

(** the rows of a parsed document more *)
Lemma citable_persisted j now r w c c' blobs :
  genuine j → citable c blobs → stored j w c blobs → j_render j c' = Ok r → violation (version_checks (new_version j now r) c) = None →
  blobs !! canonical_text_address (rn_text r) = Some (encode_utf8 (rn_text r)) → citable (persisted j now r c) blobs.
Proof.
  intros Hj [Hd Hv Hs Hf Hr Hk Ha] [_ (d & Hdin & Hacc & Hhash) Hraw _] Hren Hver Htext.
  unfold version_checks in Hver. cbn [violation] in Hver. destruct (bool_decide (v_id (new_version j now r) ∉ _)) eqn:Hnew; [|done]. apply bool_decide_eq_true in Hnew. clear Hver. cbn in Hnew.
  destruct (Hd d Hdin) as (Hdid & raw & Hblob & Haddr). pose proof (ge_address _ Hj) as Hja.
  assert (d_content_hash (j_document j) = (content_address (j_raw j)).1) as Hja1 by by rewrite Hja.
  assert (d_storage_key d = d_storage_key (j_document j)) as Hkey.
  { unfold content_address in Haddr, Hja. cbv zeta in Haddr, Hja. injection Haddr as Hh1 Hk1. injection Hja as Hh2 Hk2. rewrite <- Hk1, <- Hk2. f_equal. by apply (inj (String.append "sha256:")); rewrite Hh1, Hh2. }
  split; cbn.
  - done.
  - intros v [Hin| ->%list_elem_of_singleton]%elem_of_app.
    + destruct (Hv v Hin) as (d' & raw' & text & ? & ? & ? & ? & ? & ? & Hsp). exists d', raw', text. split_and!; try done. intros s [Hins|(x & -> & _)%list_elem_of_fmap]%elem_of_app Hvs; [by apply Hsp|].
      cbn in Hvs. destruct Hnew. rewrite Hvs. by apply list_elem_of_fmap_2.
    + exists d, (j_raw j), (rn_text r). cbn. rewrite Hkey. split; [done|]. split; [by rewrite Hdid, Hacc, (ge_id _ Hj)|]. split; [done|]. split; [rewrite Hhash; exact Hja1|].
      split; [by eapply ge_text|]. split; [done|]. intros s [Hins|(x & -> & Hx)%list_elem_of_fmap]%elem_of_app Hvs; [|cbn; by eapply ge_spans].
      destruct Hnew. rewrite <- Hvs. by apply Hs.
  - intros s [Hin|(x & -> & _)%list_elem_of_fmap]%elem_of_app; rewrite fmap_app; apply elem_of_app; [left; by apply Hs|right; by left].
  - intros f [Hin|Hin]%elem_of_app.
    + destruct (Hf f Hin) as (s & ? & ?). exists s. split; [apply elem_of_app; by left|done].
    + destruct (ge_facts _ Hj _ _ _ Hren Hin) as [Hfv (s & Hsid & Hsin)%list_elem_of_fmap]. exists (span_row_of (j_version_id j) s). split; [apply elem_of_app; right; by apply list_elem_of_fmap_2|]. cbn. by rewrite Hfv, Hsid.
  - done.
  - done.
  - done.
Qed.

Lemma job_citable j now qid w : genuine j → citable (w_corpus w) (w_blobs w) → citable (w_corpus (snd (run_job diagnostic_of j now qid w))) (w_blobs (snd (run_job diagnostic_of j now qid w))).
Proof.
  intros Hj Hw. pose proof (grows_job diagnostic_of j now qid w) as Hg. destruct (run_job diagnostic_of j now qid w) as [[o|e] w'] eqn:Hm; cbn [snd] in *.
  - destruct (run_job_Ok _ _ _ _ _ _ _ Hm) as [(row & _ & _ & _ & ->)|(Hf & [(c & document & code & e & q & Hc & _ & _ & ->)|(c & r & c' & Hst & Hren & Hver & _ & -> & Htext)])]; [done|..];
      pose proof (find_run_None _ _ Hf) as Hnin.
    + apply (citable_settled _ _ (t_runs (w_corpus w))); [|destruct Hc as [->|[[->| ->] _ _ _]]; done|done|done]. apply citable_quarantined.
      destruct Hc as [->|Hc]; [by eapply citable_grows|by eapply citable_stored].
    + apply (citable_settled _ _ (t_runs (w_corpus w))); [|destruct Hst as [[->| ->] _ _ _]; done|done|done]. eapply citable_persisted; try done. by eapply citable_stored.
  - apply atomically_Err in Hm as ->. by eapply citable_grows.
Qed.

(** * Publication *)

Lemma demote_ids sees l : c_id <$> demote sees l = c_id <$> l.
Proof. induction l as [|r l IH]; [done|]. cbn. f_equal; [by destruct (_ && _)|done]. Qed.

Lemma promote_ids now id l : c_id <$> promote now id l = c_id <$> l.
Proof. induction l as [|r l IH]; [done|]. cbn. f_equal; [by destruct (is_draft id r)|done]. Qed.

Lemma demote_status sees l : Forall (λ r, c_is_active r = bool_decide (c_status r = ActiveCorpus)) l → Forall (λ r, c_is_active r = bool_decide (c_status r = ActiveCorpus)) (demote sees l).
Proof. induction 1 as [|r l Hr _ IH]; constructor; [|done]. destruct (_ && _); [by rewrite bool_decide_false|done]. Qed.

Lemma promote_status now id l : Forall (λ r, c_is_active r = bool_decide (c_status r = ActiveCorpus)) l → Forall (λ r, c_is_active r = bool_decide (c_status r = ActiveCorpus)) (promote now id l).
Proof. induction 1 as [|r l Hr _ IH]; constructor; [|done]. destruct (is_draft id r); [by rewrite bool_decide_true|done]. Qed.

(** demotion leaves the active rows it does not see *)
Lemma active_demote sees l : c_id <$> active (demote sees l) = c_id <$> filter (λ r, c_is_active r = true ∧ sees r = false) l.
Proof.
  induction l as [|r l IH]; [done|]. unfold active in *. cbn [demote map]. destruct (c_is_active r) eqn:Ha, (sees r) eqn:Hs; cbn [andb].
  - rewrite !filter_cons_False; [done|by intros [_ ?]; congruence|done].
  - rewrite !filter_cons_True by done. cbn. by f_equal.
  - rewrite !filter_cons_False; [done|by intros [? _]; congruence|by rewrite Ha].
  - rewrite !filter_cons_False; [done|by intros [? _]; congruence|by rewrite Ha].
Qed.

(** promotion adds the draft to the active rows *)
Lemma active_promote now id l :
  Forall (λ r, c_is_active r = bool_decide (c_status r = ActiveCorpus)) l →
  c_id <$> active (promote now id l) ≡ₚ (c_id <$> active l) ++ (c_id <$> filter (λ r, is_draft id r = true) l).
Proof.
  induction 1 as [|r l Hr _ IH]; [done|]. unfold active in *. cbn [promote map]. destruct (is_draft id r) eqn:Hd.
  - assert (c_is_active r = false) as Ha. { rewrite Hr. apply bool_decide_eq_false. unfold is_draft in Hd. apply andb_true_iff in Hd as [_ Hd%bool_decide_eq_true]. by rewrite Hd. }
    rewrite filter_cons_True by done. rewrite (filter_cons_False (λ r, c_is_active r = true) r) by (by rewrite Ha). rewrite (filter_cons_True (λ r, is_draft id r = true) r) by done.
    cbn. rewrite IH. apply Permutation_middle.
  - rewrite (filter_cons_False (λ r, is_draft id r = true) r) by (by rewrite Hd). destruct (c_is_active r) eqn:Ha.
    + rewrite !filter_cons_True by done. cbn. by rewrite IH.
    + rewrite !filter_cons_False by (by rewrite Ha). done.
Qed.

(** a draft is found once *)
Lemma drafts_of id l : NoDup (c_id <$> l) → c_id <$> filter (λ r, is_draft id r = true) l = if existsb (is_draft id) l then [id] else [].
Proof.
  induction l as [|r l IH]; [done|]. rewrite fmap_cons. intros [Hnin Hnd]%NoDup_cons. cbn [existsb]. destruct (is_draft id r) eqn:Hd.
  - rewrite filter_cons_True, fmap_cons by done. cbn [orb]. apply andb_true_iff in Hd as [Hid%bool_decide_eq_true _]. rewrite Hid, IH by done. f_equal.
    destruct (existsb (is_draft id) l) eqn:He; [|done]. apply existsb_exists in He as (x & Hx & Hdx). apply andb_true_iff in Hdx as [Hidx%bool_decide_eq_true _].
    destruct Hnin. rewrite Hid, <- Hidx. apply list_elem_of_fmap_2. by apply list_elem_of_In.
  - rewrite filter_cons_False by (by rewrite Hd). by apply IH.
Qed.

Lemma demote_draft sees id l : existsb (is_draft id) (demote sees l) = existsb (is_draft id) l ∨ Exists (λ r, c_is_active r = true ∧ c_status r = DraftCorpus) l.
Proof.
  induction l as [|r l [IH|IH]]; [by left| |by right; right]. cbn [demote map existsb]. fold (demote sees l). destruct (c_is_active r && sees r) eqn:Ha; [|left; by rewrite IH].
  apply andb_true_iff in Ha as [Ha _]. destruct (decide (c_status r = DraftCorpus)) as [Hd|Hd]; [right; by left|]. left. rewrite IH. f_equal. unfold is_draft. cbn.
  by rewrite (bool_decide_false (c_status r = DraftCorpus)), (bool_decide_false (SupersededCorpus = DraftCorpus)), !andb_false_r.
Qed.

Lemma demote_drafts sees id l : Forall (λ r, c_is_active r = bool_decide (c_status r = ActiveCorpus)) l → existsb (is_draft id) (demote sees l) = existsb (is_draft id) l.
Proof.
  intros H. destruct (demote_draft sees id l) as [He|He]; [done|]. exfalso. apply Exists_exists in He as (r & Hin & Ha & Hd). rewrite Forall_forall in H. specialize (H r Hin).
  rewrite Ha, Hd in H. by rewrite bool_decide_false in H.
Qed.

Lemma ids_length (l : list corpus_row) (k : list string) : c_id <$> l ≡ₚ k → length l = length k.
Proof. intros H. by rewrite <- (length_fmap c_id), H. Qed.

Lemma rival_published now l id : published l → published (rival_publishes now l id) ∧ (is_Some (head (active l)) → is_Some (head (active (rival_publishes now l id)))).
Proof.
  intros [Hone Hst Hnd]. unfold rival_publishes. destruct (existsb (is_draft id) l) eqn:He; [|by split].
  pose proof (demote_status (λ _, true) l Hst) as Hst'. pose proof (active_promote now id _ Hst') as Hact. rewrite drafts_of in Hact by (by rewrite demote_ids). rewrite demote_drafts, He in Hact by done.
  rewrite active_demote in Hact. assert (filter (λ r, c_is_active r = true ∧ true = false) l = []) as Hnil by (clear; induction l as [|r l IH]; [done|]; by rewrite filter_cons_False by (by intros [_ ?])).
  rewrite Hnil in Hact. cbn in Hact. apply ids_length in Hact as Hlen. cbn in Hlen. split.
  - split; [lia|by apply promote_status|by rewrite promote_ids, demote_ids].
  - intros _. by destruct (active (promote _ _ _)).
Qed.

Lemma rivals_published now rivals l : published l → published (foldl (rival_publishes now) l rivals) ∧ (is_Some (head (active l)) → is_Some (head (active (foldl (rival_publishes now) l rivals)))).
Proof.
  revert l. induction rivals as [|id rivals IH]; intros l H; [by split|]. cbn. destruct (rival_published now l id H) as [H1 H2]. destruct (IH _ H1) as [H3 H4]. split; [done|]. intros ?. by apply H4, H2.
Qed.

(** one publisher among its rivals *)
Definition publication (rivals : list string) (now : Z) (id : string) (w : world) (r : ingested unit) (w' : world) : Prop :=
  published (t_corpora (w_corpus w')) ∧ w_blobs w' = w_blobs w ∧ w_corpus w' = set_corpora (t_corpora (w_corpus w')) (t_members (w_corpus w)) (w_corpus w) ∧
  (is_Some (active_corpus_version (w_corpus w)) → is_Some (active_corpus_version (w_corpus w'))) ∧
  match r with
  | Ok _ => active_corpus_version (w_corpus w') = Some id
  | Err e => t_corpora (w_corpus w') = foldl (rival_publishes now) (t_corpora (w_corpus w)) rivals ∧
      if existsb (is_draft id) (t_corpora (w_corpus w')) then rivals ≠ [] ∧ e = Escapes "PublishConflictError" else e = Escapes "ValueError"
  end.

Lemma active_version_Some c : is_Some (active_corpus_version c) ↔ is_Some (head (active (t_corpora c))).
Proof. unfold active_corpus_version, active. destruct (head _); cbn; split; intros [? ?]; try done; by eexists. Qed.

Lemma publish_spec rivals now id w :
  published (t_corpora (w_corpus w)) → publication rivals now id w (fst (publish_corpus_version rivals now id w)) (snd (publish_corpus_version rivals now id w)).
Proof.
  intros Hp. set (l0 := t_corpora (w_corpus w)) in *. destruct (rivals_published now rivals l0 Hp) as [Hp1 Hsome]. set (l1 := foldl (rival_publishes now) l0 rivals) in *.
  set (sees := λ r, bool_decide (c_id r ∈ c_id <$> active l0)). set (l2 := demote sees l1).
  assert (publish_corpus_version rivals now id w =
    if 1 <? Z.of_nat (length (active (promote now id l2))) then (Err (Escapes "PublishConflictError"), on_corpora (λ _, l1) w)
    else if negb (existsb (is_draft id) l2) then (Err (Escapes "ValueError"), on_corpora (λ _, l1) w) else (Ok tt, on_corpora (λ _, promote now id l2) w)) as ->.
  { unfold publish_corpus_version, atomically, raise_if, reads, writes, mbind, eff_bind, raise. cbn. fold l0. change (filter (λ r, c_is_active r = true) l0) with (active l0). fold l1 sees l2.
    change (filter (λ r, c_is_active r = true) (promote now id l2)) with (active (promote now id l2)). destruct (1 <? _); [done|]. by destruct (negb _). }
  destruct Hp1 as [Hone Hst Hnd]. pose proof (demote_status sees l1 Hst) as Hst2. pose proof (active_promote now id l2 Hst2) as Hact.
  unfold l2 in Hact at 3. rewrite drafts_of in Hact by (by rewrite demote_ids). rewrite demote_drafts in Hact by done.
  assert (∀ e, (if existsb (is_draft id) l1 then rivals ≠ [] ∧ e = Escapes "PublishConflictError" else e = Escapes "ValueError") → publication rivals now id w (Err e) (on_corpora (λ _, l1) w)) as Herr.
  { intros e He. split; [by split|]. split; [done|]. split; [done|]. split; [rewrite !active_version_Some; exact Hsome|]. by split. }
  assert (c_id <$> active l2 = c_id <$> filter (λ r, c_is_active r = true ∧ sees r = false) l1) as Hl2 by (unfold l2; by rewrite active_demote).
  destruct (Z.ltb_spec 1 (Z.of_nat (length (active (promote now id l2))))) as [Hconf|Hok].
  - apply Herr. apply ids_length in Hact. rewrite Hact in Hconf. destruct (existsb (is_draft id) l1) eqn:Hd.
    + split; [|done]. intros Hr. assert (l1 = l0) as Hl by (unfold l1; by rewrite Hr). rewrite Hl2, Hl in Hconf.
      assert (∀ l, (∀ r, r ∈ l → c_is_active r = true → sees r = true) → filter (λ r, c_is_active r = true ∧ sees r = false) l = []) as H.
      { clear. induction l as [|r l IH]; intros H; [done|]. rewrite filter_cons_False; [apply IH; intros x Hx; apply H; by right|]. intros [Ha Hs]. rewrite (H r) in Hs; [done|by left|done]. }
      rewrite H in Hconf; [cbn in Hconf; lia|]. intros r Hin Ha. apply bool_decide_eq_true. apply list_elem_of_fmap_2. by apply list_elem_of_filter.
    + rewrite app_nil_r, Hl2, length_fmap in Hconf. exfalso. enough (length (filter (λ r, c_is_active r = true ∧ sees r = false) l1) ≤ length (active l1))%nat by lia.
      unfold active. clear. induction l1 as [|r l IH]; [done|]. rewrite !filter_cons. repeat case_decide; cbn; try lia. naive_solver.
  - destruct (existsb (is_draft id) l2) eqn:Hd; cbn [negb]; [|apply Herr; unfold l2 in Hd; rewrite demote_drafts in Hd by done; by rewrite Hd].
    unfold l2 in Hd. rewrite demote_drafts in Hd by done. rewrite Hd in Hact. apply ids_length in Hact as Hlen. rewrite length_app in Hlen. cbn in Hlen.
    assert (c_id <$> active l2 = []) as Hnil by (apply length_zero_iff_nil; lia). rewrite Hnil in Hact. cbn in Hact. apply Permutation_singleton_r in Hact as Hids.
    assert (active_corpus_version (w_corpus (on_corpora (λ _, promote now id l2) w)) = Some id) as Hv.
    { unfold active_corpus_version. cbn. change (filter _ (promote now id l2)) with (active (promote now id l2)). destruct (active (promote now id l2)) as [|r rest]; [done|]. cbn in Hids |- *. by injection Hids as -> _. }
    cbn [fst snd]. split; [split; [change (length (active (promote now id l2)) ≤ 1)%nat; lia|by apply promote_status|change (NoDup (c_id <$> promote now id l2)); rewrite promote_ids; unfold l2; by rewrite demote_ids]|]. split; [done|]. split; [done|]. split; [by rewrite Hv|done].
Qed.

Lemma create_citable id label versions w :
  citable (w_corpus w) (w_blobs w) → citable (w_corpus (snd (create_corpus_version id label versions w))) (w_blobs (snd (create_corpus_version id label versions w))).
Proof.
  intros [Hd Hv Hs Hf Hr Hk [Hone Hst Hnd]]. assert (grows (create_corpus_version id label versions)) as Hg by (apply grows_atomically; auto with grows). specialize (Hg w).
  destruct (create_corpus_version id label versions w) as [[u|e] w'] eqn:Hc; cbn [snd] in *.
  - apply atomically_Ok in Hc. apply then_Ok in Hc as ([] & w1 & [Hck ->]%insert_Ok & Hl).
    apply (inserts_Ok (λ version c, [(bool_decide ((id, version) ∉ t_members c), "UniqueViolation"); (version_exists version c, "ForeignKeyViolation")]%string)
      (λ l c, set_corpora (t_corpora c) (t_members c ++ l) c) (pair id)) in Hl as ->; [|by intros []; cbn; rewrite app_nil_r|by intros ? ? []; cbn; rewrite (assoc_L (++))].
    cbn in Hck. destruct (clean label); [|done]. destruct (bool_decide (id ∉ _)) eqn:Hid; [|done]. apply bool_decide_eq_true in Hid.
    split; try done. cbn. split.
    + unfold active in *. rewrite filter_app, length_app, filter_cons_False, filter_nil by done. cbn [length]. lia.
    + apply Forall_app. split; [done|]. by repeat constructor.
    + rewrite fmap_app. apply NoDup_app. split; [done|]. split; [|apply NoDup_singleton]. intros k Hin ->%list_elem_of_singleton. done.
  - apply atomically_Err in Hc as ->. by apply (citable_grows _ (w_blobs w)).
Qed.

(** * Sessions *)

(** a document handed to one of the two pipelines *)
Inductive submission := SubmitFiling (f : filing) | SubmitSnapshot (s : snapshot_fetch).

Definition submission_job (x : submission) : ingested ingestion_job :=
  match x with SubmitFiling f => filing_job feed f | SubmitSnapshot s => snapshot_job s end.

Definition ingest (x : submission) (now : Z) (qid : string) : ingesting outcome :=
  match x with SubmitFiling f => ingest_filing feed diagnostic_of f now qid | SubmitSnapshot s => ingest_company_facts diagnostic_of s now qid end.

(** the transactions of any session, in the order they commit *)
Inductive session : world → world → Prop :=
| session_ingest x now qid w : session w (snd (ingest x now qid w))
| session_create id label versions w : session w (snd (create_corpus_version id label versions w))
| session_publish rivals now id w : session w (snd (publish_corpus_version rivals now id w)).

Lemma ingest_job x now qid : ingest x now qid = (j ← pure (submission_job x); run_job diagnostic_of j now qid).
Proof. by destruct x. Qed.

Lemma submission_genuine x j : submission_job x = Ok j → genuine j.
Proof. destruct x; [apply filing_genuine|apply snapshot_genuine]. Qed.

Lemma ingest_cases x now qid w :
  (∃ e, submission_job x = Err e ∧ ingest x now qid w = (Err e, w)) ∨ ∃ j, submission_job x = Ok j ∧ genuine j ∧ ingest x now qid w = run_job diagnostic_of j now qid w.
Proof.
  rewrite ingest_job. unfold mbind, eff_bind, pure. destruct (submission_job x) as [j|e] eqn:Hj; [right; exists j|left; by exists e]. split; [done|]. split; [by eapply submission_genuine|done].
Qed.

Lemma session_citable w w' : session w w' → citable (w_corpus w) (w_blobs w) → citable (w_corpus w') (w_blobs w').
Proof.
  intros [x now qid w0|id label versions w0|rivals now id w0] Hw.
  - destruct (ingest_cases x now qid w0) as [(e & _ & ->)|(j & _ & Hj & ->)]; [done|by apply job_citable].
  - by apply create_citable.
  - destruct (publish_spec rivals now id w0 (ct_corpora _ _ Hw)) as (Hp & Hb & Hc & _). rewrite Hb. destruct Hw as [Hd Hv Hs Hf Hr Hk _]. rewrite Hc. by split.
Qed.

Lemma reachable_citable w : rtc session empty_world w → citable (w_corpus w) (w_blobs w).
Proof.
  assert (citable (w_corpus empty_world) (w_blobs empty_world)) as H0.
  { split; cbn; try (intros ? H; by apply not_elem_of_nil in H); [by constructor|]. split; [cbn; lia|constructor|constructor]. }
  intros H. remember empty_world as w0 eqn:Hw. clear Hw. induction H as [w|w w1 w2 Hs _ IH]; [done|]. apply IH. by eapply session_citable.
Qed.

(** the ledger only grows *)
Lemma session_ledger w w' : session w w' → t_runs (w_corpus w) ⊆ t_runs (w_corpus w').
Proof.
  intros [x now qid w0|id label versions w0|rivals now id w0].
  - destruct (ingest_cases x now qid w0) as [(e & _ & ->)|(j & _ & Hj & ->)]; [done|]. destruct (run_job diagnostic_of j now qid w0) as [[o|e] w1] eqn:Hm; cbn [snd].
    + destruct (run_job_Ok _ _ _ _ _ _ _ Hm) as [(row & _ & _ & _ & ->)|(_ & [(c & document & code & e & q & _ & _ & _ & ->)|(c & r & c' & _ & _ & _ & _ & -> & _)])]; [done|cbn; set_solver|cbn; set_solver].
    + by apply atomically_Err in Hm as ->.
  - destruct (create_corpus_version id label versions w0) as [[u|e] w1] eqn:Hc; cbn [snd]; [|by apply atomically_Err in Hc as ->].
    apply atomically_Ok in Hc. apply then_Ok in Hc as ([] & w2 & [_ ->]%insert_Ok & Hl).
    apply (inserts_Ok (λ version c, [(bool_decide ((id, version) ∉ t_members c), "UniqueViolation"); (version_exists version c, "ForeignKeyViolation")]%string)
      (λ l c, set_corpora (t_corpora c) (t_members c ++ l) c) (pair id)) in Hl as ->; [|by intros []; cbn; rewrite app_nil_r|by intros ? ? []; cbn; rewrite (assoc_L (++))]. done.
  - unfold publish_corpus_version, atomically, raise_if, reads, writes, mbind, eff_bind, raise. cbn. destruct (1 <? _); [done|]. by destruct (negb _).
Qed.

(** a recorded outcome, replayed *)
Definition replay (o : outcome) : outcome :=
  Outcome OutcomeNoop (o_job_key o) (o_document_id o) (o_version_id o) (o_sections o) (o_spans o) (o_tables o) (o_facts o) (o_reason_code o) (o_diagnostic o).

Lemma job_recorded j now qid w o w' :
  run_job diagnostic_of j now qid w = (Ok o, w') → ∃ row, row ∈ t_runs (w_corpus w') ∧ r_job_key row = j_key j ∧ r_status row ≠ RunRunning ∧ _noop_outcome (j_key j) row = replay o.
Proof.
  intros [(row & Hf & Hs & -> & ->)|(_ & [(c & document & code & e & q & _ & _ & -> & ->)|(c & r & c' & _ & _ & _ & -> & -> & _)])]%run_job_Ok.
  - apply find_run_Some in Hf as [Hin Hk]. by exists row.
  - exists (refused_row j document (reason_name code) (diagnostic_of e)). split; [cbn; apply elem_of_app; right; by left|done].
  - exists (succeeded_row j r). split; [cbn; apply elem_of_app; right; by left|done].
Qed.

(** C24: Re-running an identical job is a no-op.  Once a job has returned an outcome,
    parsed or quarantined, the same submission at any later time, whatever other
    sessions committed in between, returns the recorded outcome and leaves the
    corpus and the object store as they are. *)
Theorem rerun_is_noop x now qid w o w1 w2 now' qid' :
  rtc session empty_world w → ingest x now qid w = (Ok o, w1) → rtc session w1 w2 → ingest x now' qid' w2 = (Ok (replay o), w2).
Proof.
  intros Hw Hrun Hlater. assert (rtc session empty_world w2) as Hw2.
  { etrans; [exact Hw|]. apply (rtc_l _ _ w1); [|done]. assert (w1 = snd (ingest x now qid w)) as -> by by rewrite Hrun. constructor. }
  destruct (ingest_cases x now qid w) as [(e & _ & He)|(j & Hj & _ & Heq)]; [by rewrite Hrun in He|]. rewrite Heq in Hrun. apply job_recorded in Hrun as (row & Hin & Hk & Hs & Hreplay).
  assert (row ∈ t_runs (w_corpus w2)) as Hin2 by (clear -Hin Hlater; induction Hlater as [|w1 w2 w3 Hstep _ IH]; [done|apply IH; by apply (session_ledger _ _ Hstep)]).
  rewrite ingest_job. unfold mbind, eff_bind, pure. rewrite Hj. unfold run_job, atomically, claim, mbind, eff_bind, reads.
  pose proof (find_run_elem _ _ (ct_keys _ _ (reachable_citable _ Hw2)) Hin2) as Hf. rewrite Hk in Hf. rewrite Hf, bool_decide_false by done. cbn. by rewrite Hreplay.
Qed.

(** C25: Every citation verifies.  In a corpus that any sessions built of documents whose
    characters this library holds, those up to U+00FF, a document's hash is that of the bytes in the object store; a version's canonical text is in
    the object store, is what the parser makes of those very bytes, and every span
    of the version slices it to characters of the recorded hash; every fact cites a
    span of its own version; and no run is left running. *)
Theorem corpus_is_citable w : rtc session empty_world w → citable (w_corpus w) (w_blobs w).
Proof. apply reachable_citable. Qed.

(** C26: One corpus version is active.  A publisher that returns has activated its version
    and no other; one that fails leaves what the rivals committed, with a conflict
    when its version is a draft and a rival was faster, and a [ValueError] when its
    version is no draft: without rivals a draft is always published; and once a
    version is active there is exactly one at any commit. *)
Theorem publication_is_atomic rivals now id w :
  rtc session empty_world w → publication rivals now id w (fst (publish_corpus_version rivals now id w)) (snd (publish_corpus_version rivals now id w)).
Proof. intros H. apply publish_spec. apply (reachable_citable _ H). Qed.
End corpus.

(** * A corpus *)

Module SampleCorpus.
Definition annual_report : filing :=
  Filing "entity-1" "0000320193-24-000123" "https://www.sec.gov/a.htm" SampleFiling.raw 1700000000 (Some "10-K"%string) None None None "text/html".
Definition submitted : submission := SubmitFiling annual_report.
Definition diagnostic_of (_ : ingest_error) : string := "diagnostic".
Definition first := Eval vm_compute in ingest SampleFiling.feed diagnostic_of submitted 1700000100 "q-1" empty_world.
Definition ingested_world : world := Eval vm_compute in snd first.
Definition result : outcome := Eval vm_compute in match fst first with Ok o => o | Err _ => Outcome OutcomeNoop "" None None 0 0 0 0 None None end.
Definition version : string := Eval vm_compute in default ""%string (o_version_id result).
Definition drafted_world : world := Eval vm_compute in snd (create_corpus_version "corpus-1" "first" [version] ingested_world).
End SampleCorpus.

Example sample_outcome : (o_status SampleCorpus.result, o_sections SampleCorpus.result, o_spans SampleCorpus.result, o_tables SampleCorpus.result, o_facts SampleCorpus.result) = (OutcomeSucceeded, 2, 2, 1, 1).
Proof. vm_compute. reflexivity. Qed.

Lemma rerun_is_noop_witness :
  ingest SampleFiling.feed SampleCorpus.diagnostic_of SampleCorpus.submitted 1800000000 "q-2" SampleCorpus.drafted_world = (Ok (replay SampleCorpus.result), SampleCorpus.drafted_world).
Proof.
  apply (rerun_is_noop SampleFiling.feed SampleCorpus.diagnostic_of SampleCorpus.submitted 1700000100 "q-1" empty_world SampleCorpus.result SampleCorpus.ingested_world);
    [constructor|vm_compute; reflexivity|].
  apply rtc_once. exact (session_create SampleFiling.feed SampleCorpus.diagnostic_of "corpus-1" "first" [SampleCorpus.version] SampleCorpus.ingested_world).
Defined.

Lemma corpus_is_citable_witness :
  length (t_facts (w_corpus SampleCorpus.drafted_world)) = 1%nat ∧ citable SampleFiling.feed (w_corpus SampleCorpus.drafted_world) (w_blobs SampleCorpus.drafted_world).
Proof.
  split; [vm_compute; reflexivity|]. apply (corpus_is_citable SampleFiling.feed SampleCorpus.diagnostic_of).
  apply (rtc_l _ _ SampleCorpus.ingested_world); [exact (session_ingest SampleFiling.feed SampleCorpus.diagnostic_of SampleCorpus.submitted 1700000100 "q-1" empty_world)|].
  apply rtc_once. exact (session_create SampleFiling.feed SampleCorpus.diagnostic_of "corpus-1" "first" [SampleCorpus.version] SampleCorpus.ingested_world).
Defined.

Lemma publication_is_atomic_witness :
  publication [] 1700000200 "corpus-1" SampleCorpus.drafted_world (Ok tt) (snd (publish_corpus_version [] 1700000200 "corpus-1" SampleCorpus.drafted_world)).
Proof.
  apply (publication_is_atomic SampleFiling.feed SampleCorpus.diagnostic_of [] 1700000200 "corpus-1" SampleCorpus.drafted_world).
  apply (rtc_l _ _ SampleCorpus.ingested_world); [exact (session_ingest SampleFiling.feed SampleCorpus.diagnostic_of SampleCorpus.submitted 1700000100 "q-1" empty_world)|].
  apply rtc_once. exact (session_create SampleFiling.feed SampleCorpus.diagnostic_of "corpus-1" "first" [SampleCorpus.version] SampleCorpus.ingested_world).
Defined.

(** The same filing under a second entity is another job, but its version is the one
    that exists: a raw unique violation leaves the pipeline. *)
Example second_entity_escapes :
  fst (ingest SampleFiling.feed SampleCorpus.diagnostic_of
    (SubmitFiling (Filing "entity-2" "0000320193-24-000123" "https://www.sec.gov/a.htm" SampleFiling.raw 1700000000 (Some "10-K"%string) None None None "text/html")) 1700000300 "q-3" SampleCorpus.ingested_world)
  = Err (Escapes "UniqueViolation").
Proof. vm_compute. reflexivity. Qed.
